(* ===== verification/_CoqProject ===== *)
-Q . S2P
Prelude.v
GoStrings.v
Regexp.v
Sha256.v
GoJson.v
GoTime.v
GoNet.v
Wireguard.v
Appconfig.v
AppconfigSpec.v
DatabaseStatus.v
Db.v
DbRepos.v
DbCandidates.v
DbInv.v
DbSteps.v
DbProps.v
DbEffects.v
DbLifecycle.v
AppLocks.v
Security.v
Vault.v
VaultProps.v
Activation.v
ActivationProps.v
Candidate.v
CandidateOps.v
CandidateLogic.v
CandidateProps.v
CandidateRun.v
CandidateRequests.v
RequestLogic.v
RequestProps.v
RequestRun.v
AppService.v
AppServiceLogic.v
AppServiceProps.v
PendingProps.v
AppServiceRun.v
NodeRegistry.v
NodeService.v
NodeLogic.v
NodeProps.v
NodeAuth.v
NodeRun.v
Events.v
EventProps.v
EventLog.v
Workloads.v
WorkloadProps.v
Cluster.v
Resources.v
Capacity.v
CapacityProps.v
CandidateControl.v
Postgres.v
NestedFields.v
KubeNodes.v
Controller.v
ControlLogic.v
Tombstones.v
CandidateEvidence.v
DeletionProps.v
Ownership.v
PostgresProps.v
NodeSafety.v
ClusterRun.v
EndToEnd.v
HostFs.v
Backup.v
BackupProps.v
Hub.v
HubProps.v
ServerConfig.v
ServerBootstrap.v
ServerIdentity.v
AuditLog.v
K3s.v
Agent.v
Client.v
