(* ===== verification/Prelude.v ===== *)
(** * Self-hosted deployer: a verification development

    The program under src/ is a control plane for small clusters: a gRPC server
    that keeps applications, deployments and their journal in SQLite, drives
    Kubernetes through a controller, stores encrypted secrets and enrolls worker
    nodes over WireGuard.  Its hard part is the replacement of a running release
    by a candidate: a request is journaled, the Service of the app is fenced, the
    candidate is prepared and selected, and the outcome (applied or withdrawn) is
    committed; every step can fail or lose its reply, and a later call must be
    able to finish or undo it.  This library models that core down to the calls of
    the SQL driver and of the Kubernetes API, together with the configuration, the
    repositories, the secrets, the nodes, the events, the workloads, the managed
    databases and the WireGuard network around it; and the programs that install,
    start, back up and use a server down to the calls on files: bootstrap, identity,
    audit, k3s, the agent of a node and the command line client.

    ** Files

    Language and libraries, as far as the program uses them:
    - Prelude: Go errors, fallible results, tables, hints, generic lemmas;
    - GoStrings, Regexp, Sha256, GoJson, GoTime, GoNet: strings and trimming,
      regular expressions by derivatives, SHA-256, encoding/json (decoding into
      structs, compact and indented printing, round trips), time.RFC3339Nano and
      durations, addresses and prefixes;
    - HostFs: the files of a host, with other processes and failing calls.

    Components:
    - Appconfig, AppconfigSpec: internal/appconfig (config.go,
      hosting.go, postgres.go): the configuration, its defaults, validation and
      stored JSON; a declarative specification of the valid configurations and
      the properties;
    - DatabaseStatus: the report on a managed database (internal/server/app.go,
      appendDatabaseStatus and what it calls);
    - Wireguard: internal/wireguard/wireguard.go, keys and allocation of addresses;
      Hub, HubProps: hub.go, node.go and HubPeerConfig, over the runner of [wg]
      ([HubCommandRunner], [WgHub]), and the node service on such a hub;
    - Db, DbRepos, DbCandidates: internal/db: tables with the constraints of the
      migrations, statements, transactions, and the repositories of apps,
      deployments, routes, requests, checkpoints, bindings and finalization;
      DbInv, DbSteps, DbEffects: the invariant, safe statements and the exact
      effect of the transactions; DbProps, DbLifecycle: the properties;
    - AppLocks: internal/server/app_mutation.go, every interleaving;
    - Security: internal/security, internal/registryauth, internal/version and
      the callers of internal/server;
    - Vault, VaultProps: environment bundles, registry credentials and app
      secrets (internal/server/environment.go, registry_credentials.go,
      secret.go and their repositories);
    - Activation, ActivationProps: internal/ingress/activation.go, the gate of a
      Service over an interface of the Kubernetes API ([ServiceAPI]);
    - Candidate, CandidateOps: internal/server/candidate_operation.go,
      candidate_recovery.go, candidate_recovery_complete.go,
      candidate_completion.go, candidate_retry.go and
      candidate_unprepared_recovery.go over the runtime interface the server
      declares ([CandidateRuntime]); CandidateLogic, CandidateProps,
      CandidateRun: the calculus, the properties and a run of them;
    - CandidateRequests: the handlers of internal/server/candidate_requests.go,
      candidate_submission.go, candidate_withdrawal.go, candidate_capacity.go
      and candidate_deletion.go; RequestLogic, RequestProps, RequestRun: their
      calculus, properties and runs;
    - AppService: the handlers of internal/server/app.go, app_preflight.go and
      secret.go: deployment without candidates with its rollback and withdrawal,
      preflight, deletion, inspection, status and secrets, over the runtime
      interfaces of app.go ([AppRuntime]); AppServiceLogic, AppServiceProps,
      PendingProps, AppServiceRun: their calculus, properties and runs;
    - NodeRegistry: the tables of nodes and tokens and their repositories
      (internal/db/node_repository.go, join_token_repository.go,
      agent_token_repository.go, admin_token_repository.go);
    - NodeService: internal/server/node.go, auth.go and bootstrap.go over the
      runtime interfaces of node.go ([NodeRuntime]); NodeLogic, NodeProps: their
      calculus and the effect of each handler; NodeAuth: requests from the bearer
      token on, with the properties and a fault-free
      enrollment; NodeRun: runs;
    - Events: internal/server/event.go and internal/db/event_repository.go, with
      the watch loop and retention; EventProps, EventLog: lemmas,
      properties and runs;
    - Workloads: the Kubernetes objects of an app as data and their builders
      (internal/ingress: resources.go, candidate.go, candidate_compare.go,
      hosting_network.go, environment.go); WorkloadProps: what they contain;
    - Cluster: the Kubernetes API as an interface ([Cluster]): the versions of
      every object, calls that may fail or lose their reply, other clients;
    - Resources, Capacity: reconciling and deleting each object of an app
      (resources.go, environment.go, ownership.go; ingress.go, controller.go,
      traffic_resilience.go; hosting.go, nodes.go, retained_storage.go);
      CapacityProps: placement;
    - CandidateControl: the controller's operations on candidates
      (internal/ingress/candidate_*.go, restored_candidate_target.go);
    - Postgres: internal/ingress/postgres.go, the Cluster of a managed database as a
      JSON tree; NestedFields: the library's nested fields on such trees;
    - KubeNodes: internal/ingress/nodes.go; Controller: controller.go, the
      composition of all this, and the controller as the runtime that the
      server's services expect ([CandidateRuntime], [AppRuntime], [NodeRuntime]);
    - ControlLogic: the calculus of the controller's calls; Tombstones,
      CandidateEvidence, DeletionProps, Ownership, PostgresProps, NodeSafety: the
      properties; ClusterRun: an API server in memory and runs on it;
    - EndToEnd: candidate operations on the controller on a cluster, composed;
    - Backup, BackupProps: internal/backup over SQLite and a cipher as interfaces;
    - ServerConfig: internal/config and cmd/deployer-server/config.go;
    - ServerBootstrap: cmd/deployer-server/bootstrap.go; ServerIdentity:
      internal/server/server_identity.go; AuditLog: internal/server/audit.go,
      logging.go and the chain of interceptors of server.go;
    - K3s: internal/k3s, the installation of a server and of a worker;
    - Agent: cmd/deployer-agent with the calls it makes, key generation;
    - Client: internal/cli and cmd/deployer, over control planes that answer as they
      like ([ControlPlanes]).

    ** How code becomes definitions

    Pure functions are functions with the names of the source.  Fallible code
    returns [result]; an [error] is a value, so [errors.Is] is computed.  Code
    with effects is in a state monad with errors ([ST], and [M] for code that
    uses the database).  Every call to the SQL driver takes one entry of a
    schedule of faults: it succeeds, fails, or takes effect and loses its reply;
    theorems quantify over all schedules.  A transaction works on a copy that
    [Commit] installs.  Calls of the runtime go through an interface and are
    written, with their reply and the database of that moment, to a log that
    theorems speak about; the replies are arbitrary.  Goroutines that share a
    lock are a step relation.  A system call on files takes one turn of a script: what
    other processes did before it, and whether and how it fails; the log of the host
    keeps the files around each call, so that theorems speak of crashes too.  Behind the controller, a cluster has a history of
    versions for every object; a call reads or extends histories, and between and
    during calls other clients extend them within a relation of the interface, so
    a theorem says which changes of a history the controller may add.  Machine
    integers keep their width where the
    program converts ([wrap_i32], 32-bit addresses).  A definition whose name is
    not in the source is a named part of the function its map entry shows.

    ** What the theorems show

    - The journal (DbProps, DbLifecycle): every reachable database is intact;
      finished requests, bindings and intents are permanent; stages only move
      forward; [Begin] and [Finalize] are all or nothing and can be repeated;
      admitted domains are exclusive.
    - The gate (ActivationProps): a fence consumes its gate; a replacement
      changes exactly the target.
    - Candidate operations (CandidateProps): Kubernetes never changes ahead of
      the journal; recovery can only restore; an outcome is committed only on
      evidence.
    - Request handlers (RequestProps): a submission or an advance writes for a
      bound request that nobody withdrew; withdrawal only restores, after its
      decision is durable; reclamation spares what is selected; an app is
      forgotten only after its workloads are gone.
    - Application service (AppServiceProps, PendingProps): the configuration of an
      active app is replaced only after the runtime accepted the new one, and
      every reply says truly what is stored; preflight only reads; a request
      that is pending without a binding is never finished and blocks its app,
      and the refused handlers leave the cluster alone.
    - Nodes and callers (NodeAuth): the service refines the life cycle
      of nodes; names, addresses and keys stay unique; a removed node is locked
      out; a join token admits one node; a valid one is answered with a token
      that authentication admits; authentication admits exactly the stored,
      unrevoked tokens of the right kind.  These theorems run requests one after
      another; [heartbeat_race] and [join_race] show what two that overlap can do.
    - Events (EventLog): a watch sends rows it read from the table, of the app and node
      asked for, in order, each once, and its page loop ends; retention deletes exactly what is too old or too many;
      stored events are well formed.
    - The controller on candidates (CandidateEvidence, Tombstones, DeletionProps):
      traffic moves only on evidence of this operation that was gathered before the
      move, isolation precedes the workload, a retired candidate stays retired under
      later calls, unless an app has the name of its Deployment, and a Service is deleted only fenced and verified.
    - The controller on apps and nodes (Ownership, CapacityProps, NodeSafety): it
      writes only what belongs to the app, and the shared kinds (namespace, issuer,
      databases) only as listed there; capacity admission is exact; a drain
      spares databases, stateful and pinned Pods; a node is removed only when no
      retained data is tied to it.
    - Managed databases (PostgresProps): no reconciliation or deletion of an app loses
      a database or changes where its data is; what is written conforms to the reported policy and is
      accepted by the next deployment.
    - Database status (DatabaseStatus): healthy is reported exactly when the
      cluster runs as desired and as the availability policy demands.
    - Locks (AppLocks): mutual exclusion and reclamation in every interleaving.
    - From the journal to the cluster (EndToEnd): when the completion of a candidate,
      run on the controller, commits a request as applied, the Service selected the
      candidate during the call and the candidate was seen available.
    - Configuration (AppconfigSpec): [Validate] is equivalent to a
      specification of the fields that does not use its routines; normalized
      configurations are fixed points; whatever was decoded is valid UTF-8 and its
      stored JSON is canonical.
    - Secrets (Security, VaultProps): encryption and confirmed secrets round
      trip, revisions are immutable and bounded, credentials are bound to app,
      revision and image, tokens keep their kind and redaction hides them.
    - Addresses (Wireguard): allocated addresses are fresh and in range, and
      allocation fails exactly when the subnet is full.
    - The hub (HubProps): synchronisation gives the hub exactly the peers of the
      nodes, a removed node is disconnected before its removal is answered, and the
      text of the peers does not depend on the order of the nodes.
    - Backups (BackupProps): a restore publishes only what its key opened of its
      input, whole and checked, whichever calls fail, and a backup restores to what was saved.
    - Server start (ServerConfig, ServerBootstrap, ServerIdentity): a bootstrapped
      server accepts its environment file and the administrator's token; servers
      that start at once agree on one identity.
    - Interceptors (AuditLog): reply and state are those of the authenticated handler
      alone, and an authenticated call of a listed method gives one record with its
      caller and status.
    - k3s and the agent (K3s, Agent): the downloaded installer runs only checked and
      with the configuration in place; the hub's address reaches the environment file of the
      agent whole.
    - The client (Client): every command makes all its calls on one connection, and with an
      expected identity none but the question for it before the right answer; a login
      binds its context and no other; when exactly the doctor fails.

    ** Bounds and fuel

    Recursion is structural or has fuel that a lemma shows to be enough: the JSON
    parser gets twice the length of the text, durations and fields of a line the
    length of the text, symbolic links 40 steps as the kernel follows, the identity
    file a second round, the search for an address one
    step per address of the prefix, the page loop of a watch is shown to end within
    the number of stored pages.  A rollout is looked at a given number of times
    ([polls]), which stands for its deadline, and the heartbeat loop of an agent ends
    with its script of outcomes; theorems hold for every number and script.
    Proved limits are those of the source:
    JSON nesting of 10,000, checkpoints of 64 KiB, 100 revisions per app,
    payloads of 20,000 and 262,144 bytes, years 1 to 9999 of stored times.

    ** Not modelled

    Parameters with named laws: the quantity parser and DNS name checks of
    Kubernetes ([AppEnv]), the type of Service ports with its JSON ([KubeTypes],
    [KubePorts]), quantities as numbers and the fields of objects that the program
    neither sets nor inspects ([KubeRest]), the Service API ([ServiceAPI]) and the
    Kubernetes API ([Cluster]), nested fields of JSON trees ([Unstructured]), the
    details of API errors ([ErrorDetails]), AES-GCM and HMAC ([AEAD]), the YAML
    decoder, the runtime interfaces; each has an instance that the witnesses use.
    The order in which Go ranges over a map is a parameter too.  Foreign keys are
    not enforced by the statements: the pragma is per connection, so references are
    proved without it.  Handlers and controller are those of a server with every
    repository and client set, as main.go and NewController build them.

    On the host: AES-GCM with a given key ([ArtifactCipher]), SQLite as a whole
    ([Sqlite]), X25519, net/url, the YAML encoder and decoder, how systemd reads an
    environment file, the documented effect of [wg], the runtime of k3s, and control
    planes: interfaces, with instances that the witnesses use.

    Left out, because it is calls of libraries or effects that no result depends on:
    the construction of clients, connections and ciphers, the opening of the database
    and its migrations, listeners and the start of the process; parsing of flags and
    the layout of terminal output; the single messages of streams (the logs of
    internal/ingress/logs.go and stream interceptors; in the client a stream is one
    call with its outcome); deadlines and cancellation; generated protocol code.  The
    operations that carry the program's own logic are
    modelled; what is left has no state of its own. *)

From Stdlib Require Export ZArith Lia Bool.
From stdpp Require Export base list gmap strings sorting.

#[global] Open Scope Z_scope.
#[global] Arguments String.append : simpl nomatch.

(** ** Go errors

    A Go [error] is kept as data: package-level sentinels, formatted errors with
    the format string and the operands (formatting itself plays no role in any
    decision of the program), wrapped errors ([%w]), joined errors ([errors.Join];
    a join of one error repeats it), gRPC status errors, the answers of the
    Kubernetes API with their HTTP status and failures of the SQL driver. *)
Inductive garg :=
| AStr (s : string)
| AInt (z : Z).

(** gRPC status codes used by the server. *)
Inductive code :=
| OK
| InvalidArgument
| NotFound
| AlreadyExists
| PermissionDenied
| Unauthenticated
| FailedPrecondition
| ResourceExhausted
| Internal.

Inductive error :=
| ErrSentinel (msg : string)
| Errorf (format : string) (args : list garg)
| ErrWrap (format : string) (args : list garg) (inner : error)
| ErrJoin (first second : error)
| ErrStatus (c : code) (msg : string)
| ErrKube (k : kube_error)
| ErrDriver
| ErrConstraint (name : string)
| ErrContext
with kube_error :=
| KubeNotFound
| KubeConflict
| KubeAlreadyExists
| KubeOther (reason : string) (status : Z).

#[export] Instance garg_eq_dec : EqDecision garg.
Proof. solve_decision. Defined.
#[export] Instance code_eq_dec : EqDecision code.
Proof. solve_decision. Defined.
#[export] Instance kube_error_eq_dec : EqDecision kube_error.
Proof. solve_decision. Defined.
#[export] Instance error_eq_dec : EqDecision error.
Proof. solve_decision. Defined.

(** [errors.Is] for a sentinel: follows the wrapping chain. *)
Fixpoint errors_Is (e target : error) : bool :=
  bool_decide (e = target) ||
  match e with
  | ErrWrap _ _ inner => errors_Is inner target
  | ErrJoin a b => errors_Is a target || errors_Is b target
  | _ => false
  end.

(** ** Fallible results and their notation *)
Inductive result (A : Type) :=
| Ok (a : A)
| Err (e : error).
Arguments Ok {A} a.
Arguments Err {A} e.

#[export] Instance result_ret : MRet result := fun A a => Ok a.
#[export] Instance result_bind : MBind result := fun A B f r =>
  match r with Ok a => f a | Err e => Err e end.
#[export] Instance result_fmap : FMap result := fun A B f r =>
  match r with Ok a => Ok (f a) | Err e => Err e end.

#[export] Instance result_eq_dec `{EqDecision A} : EqDecision (result A).
Proof. solve_decision. Defined.

Definition is_ok {A} (r : result A) : bool :=
  match r with Ok _ => true | Err _ => false end.

Lemma is_ok_true {A} (r : result A) : is_ok r = true <-> exists a, r = Ok a.
Proof. destruct r; naive_solver. Qed.

Lemma is_ok_false {A} (r : result A) : is_ok r = false <-> exists e, r = Err e.
Proof. destruct r; naive_solver. Qed.

(** Early return: [check b e] fails with [e] when the guard [b] of the source holds. *)
Definition check (bad : bool) (e : error) : result unit :=
  if bad then Err e else Ok tt.

Lemma check_ok bad e : check bad e = Ok tt <-> bad = false.
Proof. destruct bad; naive_solver. Qed.

(** ** Tactics

    [cases] splits every [match] and [if] in the goal and hypotheses, closing
    contradictory branches; [bools] turns boolean connectives into propositions. *)
Ltac bools :=
  repeat match goal with
  | H : _ && _ = true |- _ => apply andb_true_iff in H; destruct H
  | H : _ || _ = false |- _ => apply orb_false_iff in H; destruct H
  | H : negb _ = true |- _ => apply negb_true_iff in H
  | H : negb _ = false |- _ => apply negb_false_iff in H
  | H : bool_decide _ = true |- _ => apply bool_decide_eq_true_1 in H
  | H : bool_decide _ = false |- _ => apply bool_decide_eq_false_1 in H
  | H : (_ =? _)%Z = true |- _ => apply Z.eqb_eq in H
  | H : (_ =? _)%Z = false |- _ => apply Z.eqb_neq in H
  | H : (_ <? _)%Z = true |- _ => apply Z.ltb_lt in H
  | H : (_ <? _)%Z = false |- _ => apply Z.ltb_ge in H
  | H : (_ <=? _)%Z = true |- _ => apply Z.leb_le in H
  | H : (_ <=? _)%Z = false |- _ => apply Z.leb_gt in H
  | H : check _ _ = Ok _ |- _ => apply check_ok in H
  end.

Ltac cases := repeat (case_match; simplify_eq/=; try done).

(** ** Maps used as tables: the first row that satisfies a predicate *)
Section tables.
Context {K V : Type} `{Countable K}.

Definition rows (m : gmap K V) : list V := (map_to_list m).*2.

Definition select1 (P : V -> bool) (m : gmap K V) : option V :=
  head (filter (fun v => P v = true) (rows m)).

Definition exists_row (P : V -> bool) (m : gmap K V) : bool := existsb P (rows m).

Lemma elem_of_rows m v : v ∈ rows m <-> exists k, m !! k = Some v.
Proof.
  unfold rows. rewrite list_elem_of_fmap. split.
  - intros ([k v'] & -> & Hin%elem_of_map_to_list). eauto.
  - intros (k & Hk). exists (k, v). split; [done|]. by apply elem_of_map_to_list.
Qed.

Lemma select1_Some P m v :
  select1 P m = Some v -> P v = true /\ exists k, m !! k = Some v.
Proof.
  unfold select1. intros Hh.
  assert (v ∈ filter (fun v => P v = true) (rows m)) as Hin.
  { destruct (filter _ _); simplify_eq/=. constructor. }
  apply list_elem_of_filter in Hin as [HP Hin]. split; [done|]. by apply elem_of_rows.
Qed.

Lemma select1_None P m :
  select1 P m = None <-> forall k v, m !! k = Some v -> P v = false.
Proof.
  unfold select1. split.
  - intros Hh k v Hk. apply not_true_is_false. intros HP.
    assert (v ∈ filter (fun v => P v = true) (rows m)) as Hin.
    { apply list_elem_of_filter. split; [done|]. apply elem_of_rows. eauto. }
    destruct (filter _ _); simplify_eq/=. by apply elem_of_nil in Hin.
  - intros Hall. destruct (filter _ _) as [|v l] eqn:Hf; [done|]. exfalso.
    assert (v ∈ filter (fun v => P v = true) (rows m)) as Hin.
    { rewrite Hf. constructor. }
    apply list_elem_of_filter in Hin as [HP (k & Hk)%elem_of_rows].
    rewrite (Hall _ _ Hk) in HP. done.
Qed.

(** When at most one row can satisfy [P], [select1] returns exactly that row. *)
Lemma select1_unique P m k v :
  m !! k = Some v -> P v = true ->
  (forall k1 v1 k2 v2, m !! k1 = Some v1 -> m !! k2 = Some v2 ->
     P v1 = true -> P v2 = true -> v1 = v2) ->
  select1 P m = Some v.
Proof.
  intros Hk HP Huniq. destruct (select1 P m) as [w|] eqn:Hs.
  - apply select1_Some in Hs as [HPw (kw & Hw)]. f_equal. eapply Huniq; eauto.
  - rewrite select1_None in Hs. rewrite (Hs _ _ Hk) in HP. done.
Qed.

Lemma exists_row_true P m :
  exists_row P m = true <-> exists k v, m !! k = Some v /\ P v = true.
Proof.
  unfold exists_row. rewrite existsb_exists. setoid_rewrite <- list_elem_of_In.
  setoid_rewrite elem_of_rows. naive_solver.
Qed.

Lemma exists_row_false P m :
  exists_row P m = false <-> forall k v, m !! k = Some v -> P v = false.
Proof.
  rewrite <- not_true_iff_false, exists_row_true. split.
  - intros Hn k v Hk. apply not_true_is_false. naive_solver.
  - intros Hall (k & v & Hk & HP). rewrite (Hall _ _ Hk) in HP. done.
Qed.
End tables.

(** ** Reachability: sequences of steps *)
Section reach.
Context {S : Type} (step : S -> S -> Prop).

Inductive steps : S -> S -> Prop :=
| steps_refl s : steps s s
| steps_step s1 s2 s3 : steps s1 s2 -> step s2 s3 -> steps s1 s3.

Lemma steps_invariant (I : S -> Prop) :
  (forall s1 s2, I s1 -> step s1 s2 -> I s2) ->
  forall s1 s2, I s1 -> steps s1 s2 -> I s2.
Proof. intros Hstep s1 s2 HI Hs. induction Hs; eauto. Qed.

Lemma steps_relation (R : S -> S -> Prop) :
  (forall s, R s s) -> (forall s1 s2 s3, R s1 s2 -> step s2 s3 -> R s1 s3) ->
  forall s1 s2, steps s1 s2 -> R s1 s2.
Proof. intros Hr Hs s1 s2 H. induction H; eauto. Qed.
End reach.

(** ** Machine integers *)
Definition wrap_u32 (z : Z) : Z := z mod 2 ^ 32.
Definition wrap_i32 (z : Z) : Z := (z + 2 ^ 31) mod 2 ^ 32 - 2 ^ 31.
Definition wrap_i64 (z : Z) : Z := (z + 2 ^ 63) mod 2 ^ 64 - 2 ^ 63.

Lemma wrap_i32_small z : - 2 ^ 31 <= z < 2 ^ 31 -> wrap_i32 z = z.
Proof. intros. unfold wrap_i32. rewrite Z.mod_small; lia. Qed.

Lemma wrap_i64_small z : - 2 ^ 63 <= z < 2 ^ 63 -> wrap_i64 z = z.
Proof. intros. unfold wrap_i64. rewrite Z.mod_small; lia. Qed.

Lemma wrap_u32_range z : 0 <= wrap_u32 z < 2 ^ 32.
Proof. unfold wrap_u32. apply Z.mod_pos_bound. lia. Qed.

Lemma wrap_u32_small z : 0 <= z < 2 ^ 32 -> wrap_u32 z = z.
Proof. intros. unfold wrap_u32. by rewrite Z.mod_small. Qed.

Create HintDb deployer discriminated.
Create Rewrite HintDb deployer_rw.
#[export] Hint Resolve steps_refl steps_step : deployer.

(** ** Reasoning about the error monad *)

Lemma bind_ok {A B} (r : result A) (f : A -> result B) b :
  mbind f r = Ok b <-> exists a, r = Ok a /\ f a = Ok b.
Proof. destruct r; cbn; naive_solver. Qed.

Lemma check_bind {B} bad e (f : unit -> result B) b :
  mbind f (check bad e) = Ok b <-> bad = false /\ f tt = Ok b.
Proof. destruct bad; cbn; naive_solver. Qed.

Lemma bind_unit_ok {B} (r : result unit) (f : unit -> result B) b :
  mbind f r = Ok b <-> r = Ok tt /\ f tt = Ok b.
Proof. destruct r as [[]|]; cbn; naive_solver. Qed.
