(* ===== verification/GoStrings.v ===== *)
(** * Go strings

    A Go [string] is a sequence of bytes; it is a Rocq [string] of [ascii]
    here.  This file holds what the program uses of the packages [strings],
    [unicode/utf8] and [strconv] of Go's standard library, on bytes, together
    with the lemmas the components share: trimming is idempotent, decimal
    printing and parsing are inverse to each other. *)

From S2P Require Import Prelude.
From Stdlib Require Import Ascii String.
Local Open Scope Z_scope.

Definition b2z (a : ascii) : Z := Z.of_N (N_of_ascii a).
Definition z2b (z : Z) : ascii := ascii_of_N (Z.to_N (z mod 256)).

Lemma b2z_range a : 0 <= b2z a < 256.
Proof. unfold b2z. pose proof (N_ascii_bounded a). lia. Qed.

Lemma z2b_b2z a : z2b (b2z a) = a.
Proof.
  unfold z2b. rewrite Z.mod_small by apply b2z_range.
  unfold b2z. rewrite N2Z.id. apply ascii_N_embedding.
Qed.

Lemma b2z_z2b z : 0 <= z < 256 -> b2z (z2b z) = z.
Proof.
  intros. unfold z2b, b2z. rewrite Z.mod_small by lia.
  rewrite N_ascii_embedding by lia. lia.
Qed.

Lemma b2z_inj a b : b2z a = b2z b -> a = b.
Proof. intros H. rewrite <- (z2b_b2z a), H. apply z2b_b2z. Qed.

Definition byte_in (lo hi : Z) (a : ascii) : bool := (lo <=? b2z a) && (b2z a <=? hi).

(** [len(s)]: the number of bytes, as an [int]. *)
Definition slen (s : string) : Z := Z.of_nat (String.length s).

Fixpoint s_take (n : nat) (s : string) : string :=
  match n, s with
  | S n', String a s' => String a (s_take n' s')
  | _, _ => EmptyString
  end.

Fixpoint s_drop (n : nat) (s : string) : string :=
  match n, s with
  | S n', String _ s' => s_drop n' s'
  | _, _ => s
  end.

Fixpoint forall_byte (P : ascii -> bool) (s : string) : bool :=
  match s with
  | EmptyString => true
  | String a s' => P a && forall_byte P s'
  end.

Fixpoint exists_byte (P : ascii -> bool) (s : string) : bool :=
  match s with
  | EmptyString => false
  | String a s' => P a || exists_byte P s'
  end.

(** ** strings *)

Definition HasPrefix (s p : string) : bool := String.prefix p s.

Definition HasSuffix (s p : string) : bool :=
  (slen p <=? slen s) &&
  bool_decide (s_drop (String.length s - String.length p) s = p).

Definition TrimPrefix (s p : string) : string :=
  if HasPrefix s p then s_drop (String.length p) s else s.

Definition TrimSuffix (s p : string) : string :=
  if HasSuffix s p then s_take (String.length s - String.length p) s else s.

(** [strings.Cut(s, sep)]: before and after the first separator. *)
Fixpoint Cut (s sep : string) : string * string * bool :=
  if HasPrefix s sep then (EmptyString, s_drop (String.length sep) s, true)
  else match s with
       | EmptyString => (EmptyString, EmptyString, false)
       | String a s' =>
           let '(before, after, ok) := Cut s' sep in
           if ok : bool then (String a before, after, true) else (s, EmptyString, false)
       end.

(** [strings.Split(s, sep)] for a one-byte separator. *)
Fixpoint Split_byte (s : string) (sep : ascii) : list string :=
  match s with
  | EmptyString => [EmptyString]
  | String a s' =>
      let parts := Split_byte s' sep in
      if Ascii.eqb a sep then EmptyString :: parts
      else match parts with
           | p :: ps => String a p :: ps
           | [] => [String a EmptyString]
           end
  end.

(** [strings.LastIndexByte(s, c)]: the part after the last occurrence, if any,
    with the part before it. *)
Fixpoint cut_last (s : string) (c : ascii) : option (string * string) :=
  match s with
  | EmptyString => None
  | String a s' =>
      match cut_last s' c with
      | Some (before, after) => Some (String a before, after)
      | None => if Ascii.eqb a c then Some (EmptyString, s') else None
      end
  end.

Definition contains_byte (s : string) (c : ascii) : bool := exists_byte (Ascii.eqb c) s.

Definition lower_byte (a : ascii) : ascii := if byte_in 65 90 a then z2b (b2z a + 32) else a.

Fixpoint map_bytes (f : ascii -> ascii) (s : string) : string :=
  match s with
  | EmptyString => EmptyString
  | String a s' => String (f a) (map_bytes f s')
  end.

(** The text of one zero byte. *)
Definition nul : string := String "000"%char EmptyString.

(** [strings.ToLower] on text whose letters are ASCII. *)
Definition ToLower (s : string) : string := map_bytes lower_byte s.

(** [unicode.IsSpace] on UTF-8: the one-byte spaces, then the two- and
    three-byte encodings of U+0085, U+00A0, U+1680, U+2000-200A, U+2028, U+2029,
    U+202F, U+205F and U+3000. *)
Definition space1 (a : ascii) : bool := byte_in 9 13 a || (b2z a =? 32).

Definition space2 (a b : ascii) : bool :=
  (b2z a =? 194) && ((b2z b =? 133) || (b2z b =? 160)).

Definition space3 (a b c : ascii) : bool :=
  ((b2z a =? 225) && (b2z b =? 154) && (b2z c =? 128))
  || ((b2z a =? 226) && (b2z b =? 128) &&
      (byte_in 128 138 c || (b2z c =? 168) || (b2z c =? 169) || (b2z c =? 175)))
  || ((b2z a =? 226) && (b2z b =? 129) && (b2z c =? 159))
  || ((b2z a =? 227) && (b2z b =? 128) && (b2z c =? 128)).

(** Does the text start with a space rune? *)
Definition leads_space (s : string) : bool :=
  match s with
  | EmptyString => false
  | String a s1 => space1 a ||
      match s1 with
      | EmptyString => false
      | String b s2 => space2 a b ||
          match s2 with
          | EmptyString => false
          | String c _ => space3 a b c
          end
      end
  end.

Fixpoint trim_left (s : string) : string :=
  match s with
  | EmptyString => EmptyString
  | String a s1 =>
      if space1 a then trim_left s1
      else match s1 with
           | EmptyString => s
           | String b s2 =>
               if space2 a b then trim_left s2
               else match s2 with
                    | EmptyString => s
                    | String c s3 => if space3 a b c then trim_left s3 else s
                    end
           end
  end.

(** The longest suffix made of space runes is dropped. *)
Fixpoint trim_right (s : string) : string :=
  match s with
  | EmptyString => EmptyString
  | String a s' =>
      if String.eqb (trim_left s) EmptyString then EmptyString
      else String a (trim_right s')
  end.

(** [strings.TrimSpace]. *)
Definition TrimSpace (s : string) : string := trim_right (trim_left s).

(** The guard [strings.TrimSpace(s) == ""]. *)
Definition blank (s : string) : bool := String.eqb (TrimSpace s) EmptyString.

(** ** unicode/utf8 *)

(** Length of the valid rune encoding at the front of the text, 0 when the
    leading bytes are not one ([utf8.DecodeRuneInString] reports
    [RuneError, 1] there). *)
Definition rune_len (s : string) : nat :=
  match s with
  | EmptyString => 0
  | String a s1 =>
      if byte_in 0 127 a then 1
      else match s1 with
      | EmptyString => 0
      | String b s2 =>
          if byte_in 194 223 a then (if byte_in 128 191 b then 2 else 0)
          else match s2 with
          | EmptyString => 0
          | String c s3 =>
              if byte_in 224 239 a then
                let lo := if (b2z a =? 224)%Z then 160%Z else 128%Z in
                let hi := if (b2z a =? 237)%Z then 159%Z else 191%Z in
                if byte_in lo hi b && byte_in 128 191 c then 3 else 0
              else match s3 with
              | EmptyString => 0
              | String d _ =>
                  if byte_in 240 244 a then
                    let lo := if (b2z a =? 240)%Z then 144%Z else 128%Z in
                    let hi := if (b2z a =? 244)%Z then 143%Z else 191%Z in
                    if byte_in lo hi b && byte_in 128 191 c && byte_in 128 191 d then 4 else 0
                  else 0
              end
          end
      end
  end%nat.

(** [utf8.ValidString], with the bytes of the rune in progress as [skip]. *)
Fixpoint valid_utf8_from (skip : nat) (s : string) : bool :=
  match s with
  | EmptyString => true
  | String _ s' =>
      match skip with
      | S k => valid_utf8_from k s'
      | O => match rune_len s with
             | O => false
             | S k => valid_utf8_from k s'
             end
      end
  end.

Definition ValidString (s : string) : bool := valid_utf8_from 0 s.

(** [utf8.AppendRune] *)
Definition encode_rune (r : Z) : string :=
  if (0 <=? r) && (r <=? 127) then String (z2b r) EmptyString
  else if (128 <=? r) && (r <=? 2047) then
    String (z2b (192 + r / 64)) (String (z2b (128 + r mod 64)) EmptyString)
  else if ((2048 <=? r) && (r <=? 55295)) || ((57344 <=? r) && (r <=? 65535)) then
    String (z2b (224 + r / 4096)) (String (z2b (128 + (r / 64) mod 64))
      (String (z2b (128 + r mod 64)) EmptyString))
  else if (65536 <=? r) && (r <=? 1114111) then
    String (z2b (240 + r / 262144)) (String (z2b (128 + (r / 4096) mod 64))
      (String (z2b (128 + (r / 64) mod 64)) (String (z2b (128 + r mod 64)) EmptyString)))
  else String (z2b 239) (String (z2b 191) (String (z2b 189) EmptyString)).

(** ** strconv: decimal numbers *)

Definition is_digit (a : ascii) : bool := byte_in 48 57 a.
Definition digit_val (a : ascii) : Z := b2z a - 48.
Definition digit_char (z : Z) : ascii := z2b (48 + z).

Fixpoint digits_aux (fuel : nat) (z : Z) (acc : string) : string :=
  let acc' := String (digit_char (z mod 10)) acc in
  match fuel with
  | O => acc'
  | S f => if z <? 10 then acc' else digits_aux f (z / 10) acc'
  end.

(** [strconv.Itoa] / [%d] *)
Definition Itoa (z : Z) : string :=
  let m := Z.abs z in
  let ds := digits_aux (Z.to_nat (Z.log2_up (m + 1))) m EmptyString in
  if z <? 0 then String "-"%char ds else ds.

Fixpoint digits_val (s : string) (acc : Z) : Z :=
  match s with
  | EmptyString => acc
  | String a s' => digits_val s' (10 * acc + digit_val a)
  end.

(** [strconv.ParseInt(s, 10, 64)] on an optional sign and digits. *)
Definition ParseInt64 (s : string) : option Z :=
  let '(neg, ds) := match s with
                    | String "-" s' => (true, s')
                    | String "+" s' => (false, s')
                    | _ => (false, s)
                    end in
  if String.eqb ds EmptyString || negb (forall_byte is_digit ds) then None
  else let v := if neg : bool then - digits_val ds 0 else digits_val ds 0 in
       if (- 2 ^ 63 <=? v) && (v <? 2 ^ 63) then Some v else None.

(** Fixed-width decimal with leading zeros ([%0nd]). *)
Fixpoint pad_digits (n : nat) (z : Z) : string :=
  match n with
  | O => EmptyString
  | S n' => String (digit_char ((z / 10 ^ Z.of_nat n') mod 10)) (pad_digits n' z)
  end.

(** ** Lemmas: lengths and substrings *)

Lemma s_take_drop n s : (s_take n s +:+ s_drop n s)%string = s.
Proof. revert s. induction n; intros [|a s]; simpl; f_equal; auto. Qed.

Lemma s_drop_app s t : s_drop (String.length s) (s +:+ t) = t.
Proof. induction s; simpl; auto. Qed.

Lemma s_take_app s t : s_take (String.length s) (s +:+ t) = s.
Proof. induction s as [|a s IH]; cbn; [by destruct t|by f_equal]. Qed.

Lemma s_length_app s t : String.length (s +:+ t) = (String.length s + String.length t)%nat.
Proof. induction s; simpl; auto. Qed.

Lemma s_length_take n s : String.length (s_take n s) = Nat.min n (String.length s).
Proof. revert s. induction n; intros [|a s]; simpl; auto. Qed.

Lemma s_app_assoc (s t u : string) : (s +:+ (t +:+ u)) = ((s +:+ t) +:+ u).
Proof. induction s; simpl; congruence. Qed.

Lemma s_app_nil (s : string) : (s +:+ EmptyString) = s.
Proof. induction s; simpl; congruence. Qed.

Lemma s_app_inj_l (s t u : string) : (s +:+ t) = (s +:+ u) -> t = u.
Proof. induction s; simpl; intros; simplify_eq; auto. Qed.

Lemma slen_nonneg s : 0 <= slen s.
Proof. unfold slen. lia. Qed.

Lemma slen_app s t : slen (s +:+ t) = slen s + slen t.
Proof. unfold slen. rewrite s_length_app. lia. Qed.

Lemma HasPrefix_app p s : HasPrefix (p +:+ s) p = true.
Proof. unfold HasPrefix. induction p as [|a p IH]; simpl; [by destruct s|]. by destruct (Ascii.ascii_dec a a). Qed.

Lemma HasPrefix_spec s p : HasPrefix s p = true <-> exists t, s = (p +:+ t).
Proof.
  split.
  - unfold HasPrefix. revert s. induction p as [|a p IH]; intros s Hp; [by exists s|].
    destruct s as [|b s]; [done|]. simpl in Hp.
    destruct (Ascii.ascii_dec a b) as [->|]; [|done].
    destruct (IH _ Hp) as [t ->]. by exists t.
  - intros [t ->]. apply HasPrefix_app.
Qed.

Lemma forall_byte_app P s t : forall_byte P (s +:+ t) = forall_byte P s && forall_byte P t.
Proof. induction s; simpl; [done|]. by rewrite IHs, andb_assoc. Qed.

Lemma forall_byte_impl (P Q : ascii -> bool) s :
  (forall a, P a = true -> Q a = true) -> forall_byte P s = true -> forall_byte Q s = true.
Proof. intros HPQ. induction s; simpl; [done|]. intros. bools. rewrite HPQ, IHs; auto. Qed.

Lemma exists_byte_forall P s : exists_byte P s = negb (forall_byte (fun a => negb (P a)) s).
Proof. induction s; simpl; [done|]. rewrite IHs. by destruct (P _). Qed.

(** ** Lemmas: trimming *)

Lemma trim_left_id s : leads_space s = false -> trim_left s = s.
Proof.
  destruct s as [|a [|b [|c s]]]; simpl; try done; intros H; bools; by rewrite ?H, ?H0, ?H1.
Qed.

Lemma trim_left_leads s : leads_space (trim_left s) = false.
Proof.
  enough (forall n s, (String.length s <= n)%nat -> leads_space (trim_left s) = false) by eauto.
  clear s. induction n as [|n IH]; intros s Hn.
  { destruct s; simpl in *; [done|lia]. }
  destruct s as [|a [|b [|c s]]]; simpl in *; try done.
  - destruct (space1 a) eqn:E1; simpl; [done|by rewrite E1].
  - destruct (space1 a) eqn:E1; simpl.
    + apply (IH (String b "")). simpl. lia.
    + destruct (space2 a b) eqn:E2; simpl; [done|by rewrite E1, E2].
  - destruct (space1 a) eqn:E1; simpl.
    + apply (IH (String b (String c s))). simpl. lia.
    + destruct (space2 a b) eqn:E2; simpl.
      * apply (IH (String c s)). simpl. lia.
      * destruct (space3 a b c) eqn:E3; simpl; [apply IH; lia|by rewrite E1, E2, E3].
Qed.

Lemma trim_left_idemp s : trim_left (trim_left s) = trim_left s.
Proof. apply trim_left_id, trim_left_leads. Qed.

(** What is cut off on the right consists of spaces. *)
Lemma trim_right_prefix s : exists t, s = (trim_right s +:+ t) /\ trim_left t = "".
Proof.
  induction s as [|a s (t & IH & Ht)]; [by exists ""|]. cbn [trim_right].
  destruct (String.eqb_spec (trim_left (String a s)) ""); [by eexists|].
  exists t. split; [|done]. simpl. by rewrite <- IH.
Qed.

Lemma leads_space_app s t : leads_space s = true -> leads_space (s +:+ t) = true.
Proof.
  destruct s as [|a [|b [|c s]]]; simpl; try done; destruct (space1 a); simpl; try done.
  rewrite orb_false_r. by intros ->.
Qed.

Lemma trim_right_leads s : leads_space s = false -> leads_space (trim_right s) = false.
Proof.
  intros Hs. destruct (leads_space (trim_right s)) eqn:E; [|done].
  destruct (trim_right_prefix s) as (t & Ht & _). rewrite Ht in Hs.
  by rewrite (leads_space_app _ t) in Hs.
Qed.

Lemma trim_left_empty_app s t :
  trim_left s = "" -> trim_left (s +:+ t) = trim_left t.
Proof.
  enough (forall n s, (String.length s <= n)%nat -> trim_left s = "" ->
    trim_left (s +:+ t) = trim_left t) by eauto.
  clear s. induction n as [|n IH]; intros s Hn Hs.
  { destruct s; simpl in *; [done|lia]. }
  destruct s as [|a s1]; [done|]. simpl in *.
  destruct (space1 a); [apply IH; auto; lia|].
  destruct s1 as [|b s2]; [done|]. simpl in *.
  destruct (space2 a b); [apply IH; auto; lia|].
  destruct s2 as [|c s3]; [done|]. simpl in *.
  destruct (space3 a b c); [apply IH; auto; lia|done].
Qed.

Lemma trim_right_idemp s : trim_right (trim_right s) = trim_right s.
Proof.
  induction s as [|a s IH]; [done|]. cbn [trim_right].
  destruct (String.eqb_spec (trim_left (String a s)) "") as [|Hne]; [done|].
  cbn [trim_right]. rewrite IH.
  destruct (String.eqb_spec (trim_left (String a (trim_right s))) "") as [He|]; [|done].
  destruct Hne. destruct (trim_right_prefix s) as (t & Hs & Ht). rewrite Hs.
  change (String a (trim_right s +:+ t)) with (String a (trim_right s) +:+ t).
  by rewrite trim_left_empty_app.
Qed.

(** Trimming is idempotent. *)
Lemma TrimSpace_idemp s : TrimSpace (TrimSpace s) = TrimSpace s.
Proof.
  unfold TrimSpace. rewrite trim_left_id.
  - apply trim_right_idemp.
  - apply trim_right_leads, trim_left_leads.
Qed.

Lemma TrimSpace_no_space s :
  forall_byte (fun a => byte_in 33 126 a) s = true -> TrimSpace s = s.
Proof.
  intros Hs.
  assert (Hl : forall t, forall_byte (fun a => byte_in 33 126 a) t = true -> trim_left t = t).
  { intros [|a t] Ht; [done|]. apply trim_left_id. simpl in *. bools.
    assert (Ha : 33 <= b2z a <= 126) by (unfold byte_in in *; bools; lia).
    unfold space1, space2, space3, byte_in.
    assert (Hf : forall k, k < 33 \/ 126 < k -> (b2z a =? k) = false) by (intros; lia).
    rewrite !Hf by lia. simpl.
    assert ((9 <=? b2z a) && (b2z a <=? 13) = false) as -> by lia. by cases. }
  unfold TrimSpace. rewrite Hl by done. clear - Hs Hl.
  induction s as [|a s IH]; [done|]. cbn [trim_right]. rewrite Hl by done. simpl in *.
  bools. by rewrite IH.
Qed.

Lemma blank_spec s : blank s = true <-> TrimSpace s = "".
Proof. apply String.eqb_eq. Qed.

Lemma blank_false s : blank s = false <-> TrimSpace s <> "".
Proof. apply String.eqb_neq. Qed.

#[export] Hint Rewrite TrimSpace_idemp trim_left_idemp trim_right_idemp : deployer_rw.

(** ** Lemmas: decimals *)

Lemma digit_char_val d : 0 <= d < 10 -> digit_val (digit_char d) = d.
Proof. intros. unfold digit_val, digit_char. rewrite b2z_z2b by lia. lia. Qed.

Lemma digit_char_digit d : 0 <= d < 10 -> is_digit (digit_char d) = true.
Proof. intros. unfold is_digit, byte_in, digit_char. rewrite b2z_z2b by lia. lia. Qed.

Lemma digits_val_shift s a b :
  digits_val s (a + b) = digits_val s b + a * 10 ^ Z.of_nat (String.length s).
Proof.
  revert a b. induction s as [|c s IH]; intros a b; cbn [digits_val String.length].
  - lia.
  - replace (10 * (a + b) + digit_val c) with (10 * a + (10 * b + digit_val c)) by lia.
    rewrite IH, Nat2Z.inj_succ, Z.pow_succ_r by lia. lia.
Qed.

Lemma digits_aux_digits fuel z acc :
  0 <= z -> forall_byte is_digit acc = true -> forall_byte is_digit (digits_aux fuel z acc) = true.
Proof.
  revert z acc. induction fuel as [|f IH]; intros z acc Hz Hacc; simpl.
  - rewrite digit_char_digit by (apply Z.mod_pos_bound; lia). done.
  - assert (Hd : is_digit (digit_char (z mod 10)) = true)
      by (apply digit_char_digit, Z.mod_pos_bound; lia).
    destruct (z <? 10); simpl; [by rewrite Hd|].
    apply IH; [apply Z.div_pos; lia|]. simpl. by rewrite Hd.
Qed.

Lemma digits_aux_val fuel z acc :
  0 <= z < 2 ^ Z.of_nat fuel ->
  digits_val (digits_aux fuel z acc) 0 = digits_val acc 0 + z * 10 ^ Z.of_nat (String.length acc).
Proof.
  revert z acc. induction fuel as [|f IH]; intros z acc Hz; cbn [digits_aux].
  - assert (z = 0) as -> by (change (2 ^ Z.of_nat 0) with 1 in Hz; lia). cbn [digits_val].
    change (digit_val (digit_char (0 mod 10))) with 0.
    replace (10 * 0 + 0) with 0 by lia. lia.
  - pose proof (Z.mod_pos_bound z 10 ltac:(lia)) as Hm.
    rewrite Nat2Z.inj_succ, Z.pow_succ_r in Hz by lia.
    destruct (Z.ltb_spec z 10) as [Hlt|Hge].
    + cbn [digits_val]. rewrite digit_char_val by lia. rewrite Z.mod_small by lia.
      replace (10 * 0 + z) with (z + 0) by lia. rewrite digits_val_shift. lia.
    + rewrite IH.
      2:{ split; [apply Z.div_pos; lia|]. apply Z.div_lt_upper_bound; lia. }
      cbn [digits_val String.length]. rewrite digit_char_val by lia.
      replace (10 * 0 + z mod 10) with (z mod 10 + 0) by lia.
      rewrite digits_val_shift, Nat2Z.inj_succ, Z.pow_succ_r by lia.
      pose proof (Z.div_mod z 10 ltac:(lia)). nia.
Qed.

Lemma digits_aux_nonempty fuel z acc : digits_aux fuel z acc <> "".
Proof. revert z acc. induction fuel; intros; simpl; [done|]. by case_match. Qed.

Lemma Itoa_abs_bound z : 0 <= Z.abs z < 2 ^ Z.of_nat (Z.to_nat (Z.log2_up (Z.abs z + 1))).
Proof.
  rewrite Z2Nat.id by apply Z.log2_up_nonneg.
  destruct (Z.eq_dec z 0) as [->|Hz]; [done|].
  pose proof (Z.log2_up_spec (Z.abs z + 1)). lia.
Qed.

Lemma Itoa_nonneg_digits z : 0 <= z -> forall_byte is_digit (Itoa z) = true.
Proof.
  intros Hz. unfold Itoa. rewrite (proj2 (Z.ltb_ge z 0)) by lia.
  apply digits_aux_digits; [lia|done].
Qed.

(** Printing then parsing an [int64] gives it back. *)
Lemma ParseInt64_Itoa z : - 2 ^ 63 <= z < 2 ^ 63 -> ParseInt64 (Itoa z) = Some z.
Proof.
  intros Hz. unfold Itoa.
  set (ds := digits_aux _ _ _).
  assert (Hds : forall_byte is_digit ds = true) by (apply digits_aux_digits; [lia|done]).
  assert (Hval : digits_val ds 0 = Z.abs z).
  { unfold ds. rewrite digits_aux_val by apply Itoa_abs_bound. simpl. lia. }
  assert (Hne : String.eqb ds "" = false) by apply String.eqb_neq, digits_aux_nonempty.
  assert (Hsign : forall c t, ds = String c t -> c <> "-"%char /\ c <> "+"%char).
  { intros c t ->. simpl in Hds. bools. unfold is_digit, byte_in in *. bools.
    split; intros ->; vm_compute in H; congruence. }
  unfold ParseInt64. destruct (z <? 0) eqn:Hneg; bools.
  - rewrite Hds, Hne, Hval. simpl. rewrite (proj2 (Z.leb_le _ _)) by lia.
    rewrite (proj2 (Z.ltb_lt _ _)) by lia. simpl. f_equal. lia.
  - destruct ds as [|c t] eqn:Eds; [done|]. destruct (Hsign c t eq_refl) as [H1 H2].
    assert ((match String c t with
             | String "-" s' => (true, s')
             | String "+" s' => (false, s')
             | _ => (false, String c t) end) = (false, String c t)) as ->.
    { destruct c as [[] [] [] [] [] [] [] []]; congruence. }
    rewrite Hds, Hne, Hval. simpl. rewrite (proj2 (Z.leb_le _ _)) by lia.
    rewrite (proj2 (Z.ltb_lt _ _)) by lia. simpl. f_equal. lia.
Qed.

Lemma pad_digits_length n z : String.length (pad_digits n z) = n.
Proof. induction n; simpl; auto. Qed.

Lemma pad_digits_digits n z : forall_byte is_digit (pad_digits n z) = true.
Proof.
  induction n; simpl; [done|]. rewrite digit_char_digit, IHn; [done|].
  apply Z.mod_pos_bound. lia.
Qed.

Lemma pad_digits_val n z acc :
  digits_val (pad_digits n z) acc = acc * 10 ^ Z.of_nat n + z mod 10 ^ Z.of_nat n.
Proof.
  revert acc. induction n as [|n IH]; intros acc; cbn [pad_digits digits_val].
  - rewrite Z.mod_1_r. lia.
  - rewrite IH, digit_char_val by (apply Z.mod_pos_bound; lia).
    rewrite Nat2Z.inj_succ, Z.pow_succ_r by lia.
    set (p := 10 ^ Z.of_nat n). assert (0 < p) by (apply Z.pow_pos_nonneg; lia).
    rewrite (Z.mul_comm 10 p), Z.rem_mul_r by lia. lia.
Qed.

#[global] Arguments TrimSpace : simpl never.
#[global] Arguments blank : simpl never.
