(* ===== verification/Regexp.v ===== *)
(** * Regular expressions

    The patterns of the source are anchored regular expressions over bytes
    without captures that influence a decision.  They are written here as
    syntax trees, matched by derivatives ([re_match], executable) and proved to
    match exactly the language of the expression ([re_match_spec]); each pattern
    then gets a closed characterization on bytes. *)

From S2P Require Import Prelude GoStrings.
From Stdlib Require Import Ascii String.
Local Open Scope Z_scope.

(** Character classes: ranges of byte values, possibly negated. *)
Record cclass := CClass { cc_neg : bool; cc_ranges : list (Z * Z) }.

Definition in_class (c : cclass) (a : ascii) : bool :=
  xorb (cc_neg c) (existsb (fun '(lo, hi) => byte_in lo hi a) (cc_ranges c)).

Inductive regex :=
| RVoid
| REps
| RClass (c : cclass)
| RSeq (r1 r2 : regex)
| RAlt (r1 r2 : regex)
| RStar (r : regex).

(** The language of an expression. *)
Inductive re_lang : regex -> string -> Prop :=
| lang_eps : re_lang REps ""
| lang_class c a : in_class c a = true -> re_lang (RClass c) (String a "")
| lang_seq r1 r2 s1 s2 : re_lang r1 s1 -> re_lang r2 s2 -> re_lang (RSeq r1 r2) (s1 +:+ s2)
| lang_alt_l r1 r2 s : re_lang r1 s -> re_lang (RAlt r1 r2) s
| lang_alt_r r1 r2 s : re_lang r2 s -> re_lang (RAlt r1 r2) s
| lang_star_nil r : re_lang (RStar r) ""
| lang_star_app r s1 s2 : re_lang r s1 -> re_lang (RStar r) s2 -> re_lang (RStar r) (s1 +:+ s2).

Definition mk_seq (r1 r2 : regex) : regex :=
  match r1, r2 with
  | RVoid, _ => RVoid
  | _, RVoid => RVoid
  | REps, r => r
  | r1, r2 => RSeq r1 r2
  end.

Definition mk_alt (r1 r2 : regex) : regex :=
  match r1, r2 with
  | RVoid, r => r
  | r, RVoid => r
  | r1, r2 => RAlt r1 r2
  end.

Fixpoint nullable (r : regex) : bool :=
  match r with
  | RVoid => false
  | REps => true
  | RClass _ => false
  | RSeq r1 r2 => nullable r1 && nullable r2
  | RAlt r1 r2 => nullable r1 || nullable r2
  | RStar _ => true
  end.

Fixpoint deriv (a : ascii) (r : regex) : regex :=
  match r with
  | RVoid => RVoid
  | REps => RVoid
  | RClass c => if in_class c a then REps else RVoid
  | RSeq r1 r2 =>
      if nullable r1 then mk_alt (mk_seq (deriv a r1) r2) (deriv a r2)
      else mk_seq (deriv a r1) r2
  | RAlt r1 r2 => mk_alt (deriv a r1) (deriv a r2)
  | RStar r => mk_seq (deriv a r) (RStar r)
  end.

(** [regexp.MatchString] for an expression between [^] and [$]. *)
Fixpoint re_match (r : regex) (s : string) : bool :=
  match s with
  | EmptyString => nullable r
  | String a s' => re_match (deriv a r) s'
  end.

(** Derived forms: [r?], [r+], [r{n}], [r{0,n}]. *)
Definition ROpt (r : regex) : regex := RAlt r REps.
Definition RPlus (r : regex) : regex := RSeq r (RStar r).
Fixpoint RRep (n : nat) (r : regex) : regex :=
  match n with O => REps | S n' => RSeq r (RRep n' r) end.
Fixpoint RUpTo (n : nat) (r : regex) : regex :=
  match n with O => REps | S n' => ROpt (RSeq r (RUpTo n' r)) end.

Fixpoint RLit (s : string) : regex :=
  match s with
  | EmptyString => REps
  | String a s' => RSeq (RClass (CClass false [(b2z a, b2z a)])) (RLit s')
  end.

Definition cls (l : list (Z * Z)) : regex := RClass (CClass false l).

(** ** Correctness of the matcher *)

Lemma nullable_spec r : nullable r = true <-> re_lang r "".
Proof.
  induction r as [| | c | r1 IH1 r2 IH2 | r1 IH1 r2 IH2 | r IH]; simpl.
  - split; [done|by inversion 1].
  - split; [constructor|done].
  - split; [done|by inversion 1].
  - rewrite andb_true_iff, IH1, IH2. split.
    + intros [H1 H2]. by apply (lang_seq _ _ "" "").
    + inversion 1 as [| |? ? s1 s2 H1 H2 Heq He| | | |]; subst.
      destruct s1; [|done]. destruct s2; done.
  - rewrite orb_true_iff, IH1, IH2. split.
    + intros [H|H]; [by apply lang_alt_l|by apply lang_alt_r].
    + inversion 1; subst; auto.
  - split; [constructor|done].
Qed.

Lemma mk_seq_spec r1 r2 s : re_lang (mk_seq r1 r2) s <-> re_lang (RSeq r1 r2) s.
Proof.
  assert (Hv : forall s, ~ re_lang RVoid s) by (intros ? H; inversion H).
  assert (Hvl : forall r s, ~ re_lang (RSeq RVoid r) s)
    by (intros r' s' H; inversion H; subst; by eapply Hv).
  assert (Hvr : forall r s, ~ re_lang (RSeq r RVoid) s)
    by (intros r' s' H; inversion H; subst; by eapply Hv).
  assert (He : forall r s, re_lang r s <-> re_lang (RSeq REps r) s).
  { intros r' s'. split; [apply (lang_seq _ _ "" s'); constructor|].
    inversion 1 as [| |? ? t1 t2 H1 H2| | | |]; subst. by inversion H1; subst. }
  destruct r1, r2; simpl; naive_solver.
Qed.

Lemma mk_alt_spec r1 r2 s : re_lang (mk_alt r1 r2) s <-> re_lang r1 s \/ re_lang r2 s.
Proof.
  assert (Hv : forall s, ~ re_lang RVoid s) by (intros ? H; inversion H).
  assert (Ha : forall r1 r2, re_lang (RAlt r1 r2) s <-> re_lang r1 s \/ re_lang r2 s).
  { intros r r'. split; [inversion 1; auto|]. intros [?|?]; [by apply lang_alt_l|by apply lang_alt_r]. }
  destruct r1, r2; simpl; rewrite ?Ha; naive_solver.
Qed.

Lemma lang_seq_cons r1 r2 a s :
  re_lang (RSeq r1 r2) (String a s) <->
  (exists s1 s2, s = (s1 +:+ s2) /\ re_lang r1 (String a s1) /\ re_lang r2 s2)
  \/ (re_lang r1 "" /\ re_lang r2 (String a s)).
Proof.
  split.
  - inversion 1 as [| |? ? t1 t2 H1 H2 Heq He| | | |]; subst.
    destruct t1 as [|b t1]; simpl in *; simplify_eq; eauto 10.
  - intros [(s1 & s2 & -> & H1 & H2)|[H1 H2]].
    + by apply (lang_seq _ _ (String a s1) s2).
    + by apply (lang_seq _ _ "" (String a s)).
Qed.

Lemma lang_star_cons r a s :
  re_lang (RStar r) (String a s) <->
  exists s1 s2, s = (s1 +:+ s2) /\ re_lang r (String a s1) /\ re_lang (RStar r) s2.
Proof.
  split.
  - intros H. remember (RStar r) as r' eqn:Er. remember (String a s) as t eqn:Et.
    revert r a s Er Et. induction H; intros; simplify_eq.
    destruct s1 as [|b s1]; simpl in *; simplify_eq; eauto 10.
  - intros (s1 & s2 & -> & H1 & H2). by apply (lang_star_app _ (String a s1) s2).
Qed.

Lemma deriv_spec r a s : re_lang (deriv a r) s <-> re_lang r (String a s).
Proof.
  revert s. induction r as [| | c | r1 IH1 r2 IH2 | r1 IH1 r2 IH2 | r IH]; intros s; simpl.
  - split; inversion 1.
  - split; inversion 1.
  - destruct (in_class c a) eqn:E.
    + split; inversion 1; subst; by constructor.
    + split; inversion 1; subst; congruence.
  - assert (Hs : re_lang (mk_seq (deriv a r1) r2) s <->
      exists s1 s2, s = (s1 +:+ s2) /\ re_lang r1 (String a s1) /\ re_lang r2 s2).
    { rewrite mk_seq_spec. split.
      - inversion 1 as [| |? ? t1 t2 H1 H2| | | |]; subst. rewrite IH1 in H1. eauto.
      - intros (s1 & s2 & -> & H1 & H2). constructor; [by apply IH1|done]. }
    rewrite lang_seq_cons. destruct (nullable r1) eqn:En.
    + rewrite mk_alt_spec, Hs, IH2. apply nullable_spec in En. naive_solver.
    + rewrite Hs. split; [auto|]. intros [|[Hn _]]; [done|].
      apply nullable_spec in Hn. congruence.
  - rewrite mk_alt_spec, IH1, IH2. split.
    + intros [?|?]; [by apply lang_alt_l|by apply lang_alt_r].
    + inversion 1; subst; auto.
  - rewrite mk_seq_spec, lang_star_cons. split.
    + inversion 1 as [| |? ? t1 t2 H1 H2| | | |]; subst. rewrite IH in H1. eauto.
    + intros (s1 & s2 & -> & H1 & H2). constructor; [by apply IH|done].
Qed.

(** The derivative matcher decides the language of the expression. *)
Theorem re_match_spec r s : re_match r s = true <-> re_lang r s.
Proof.
  revert r. induction s as [|a s IH]; intros r; simpl.
  - apply nullable_spec.
  - rewrite IH. apply deriv_spec.
Qed.

(** ** Languages of the derived forms *)

Lemma lang_class_iff c s : re_lang (RClass c) s <-> exists a, s = String a "" /\ in_class c a = true.
Proof. split; [inversion 1; eauto|]. intros (a & -> & H). by constructor. Qed.

Lemma lang_seq_iff r1 r2 s :
  re_lang (RSeq r1 r2) s <-> exists s1 s2, s = (s1 +:+ s2) /\ re_lang r1 s1 /\ re_lang r2 s2.
Proof. split; [inversion 1; eauto|]. intros (s1 & s2 & -> & ? & ?). by constructor. Qed.

Lemma lang_opt r s : re_lang (ROpt r) s <-> s = "" \/ re_lang r s.
Proof.
  split.
  - inversion 1 as [| | |? ? ? H'|? ? ? H'| |]; subst; [by right|]. inversion H'; by left.
  - intros [->|H]; [apply lang_alt_r; constructor|by apply lang_alt_l].
Qed.

Lemma lang_star_class c s : re_lang (RStar (RClass c)) s <-> forall_byte (in_class c) s = true.
Proof.
  induction s as [|a s IH]; simpl; [split; [done|constructor]|].
  rewrite lang_star_cons, andb_true_iff, <- IH. split.
  - intros (s1 & s2 & -> & H1 & H2). inversion H1; subst. done.
  - intros [Ha Hs]. exists "", s. repeat split; [by constructor|done].
Qed.

Lemma lang_rep_class n c s :
  re_lang (RRep n (RClass c)) s <-> String.length s = n /\ forall_byte (in_class c) s = true.
Proof.
  revert s. induction n as [|n IH]; intros s; simpl.
  - split; [inversion 1; done|]. intros [H _]. destruct s; [constructor|done].
  - rewrite lang_seq_iff. split.
    + intros (s1 & s2 & -> & (a & -> & Ha)%lang_class_iff & [Hl Hc]%IH). simpl. by rewrite Hl, Ha.
    + intros [Hl Hc]. destruct s as [|a s]; simpl in *; [done|]. bools.
      exists (String a ""), s. repeat split; [constructor; done|]. apply IH. split; [lia|done].
Qed.

Lemma lang_upto_class n c s :
  re_lang (RUpTo n (RClass c)) s <->
  (String.length s <= n)%nat /\ forall_byte (in_class c) s = true.
Proof.
  revert s. induction n as [|n IH]; intros s; simpl.
  - split; [inversion 1; subst; simpl; auto|]. intros [H _]. destruct s; [constructor|simpl in *; lia].
  - rewrite lang_opt, lang_seq_iff. split.
    + intros [->|(s1 & s2 & -> & (a & -> & Ha)%lang_class_iff & [Hl Hc]%IH)]; simpl; [split; [lia|done]|].
      rewrite Ha. split; [lia|done].
    + intros [Hl Hc]. destruct s as [|a s]; [by left|]. right. simpl in *. bools.
      exists (String a ""), s. repeat split; [constructor; done|]. apply IH. split; [lia|done].
Qed.

(** ** Patterns of the program *)

Definition lower_alnum : list (Z * Z) := [(97, 122); (48, 57)].
Definition hex_lower : list (Z * Z) := [(97, 102); (48, 57)].

(** [^[a-f0-9]{64}$] *)
Definition revisionPattern : regex := RRep 64 (cls hex_lower).

(** [^[a-z0-9]([-a-z0-9]*[a-z0-9])?$] *)
Definition appNamePattern : regex :=
  RSeq (cls lower_alnum)
       (ROpt (RSeq (RStar (cls ((45, 45) :: lower_alnum))) (cls lower_alnum))).

(** [^[A-Za-z_][A-Za-z0-9_]*$] *)
Definition secretNamePattern : regex :=
  RSeq (cls [(65, 90); (97, 122); (95, 95)])
       (RStar (cls [(65, 90); (97, 122); (48, 57); (95, 95)])).

Definition is_hex (a : ascii) : bool := in_class (CClass false hex_lower) a.
Definition is_lower_alnum (a : ascii) : bool := in_class (CClass false lower_alnum) a.

Lemma revisionPattern_spec s :
  re_match revisionPattern s = true <-> String.length s = 64%nat /\ forall_byte is_hex s = true.
Proof. rewrite re_match_spec. apply lang_rep_class. Qed.

(** A DNS label of the program: non-empty, lower-case letters, digits and
    hyphens, neither first nor last byte a hyphen. *)
Definition label_byte (a : ascii) : bool := is_lower_alnum a || (b2z a =? 45).

Fixpoint last_byte (s : string) : option ascii :=
  match s with
  | EmptyString => None
  | String a EmptyString => Some a
  | String _ s' => last_byte s'
  end.

Lemma last_byte_app s a : last_byte (s +:+ String a "") = Some a.
Proof. induction s as [|b s IH]; [done|]. simpl. destruct s; [done|]. simpl in *. done. Qed.

Lemma last_byte_snoc s a : last_byte s = Some a -> exists t, s = (t +:+ String a "").
Proof.
  induction s as [|b s IH]; [done|]. simpl. destruct s as [|c s].
  - intros. simplify_eq. by exists "".
  - intros H. destruct (IH H) as [t Ht]. exists (String b t). simpl. by rewrite Ht.
Qed.

Lemma appNamePattern_spec s :
  re_match appNamePattern s = true <->
  (exists a s', s = String a s' /\ is_lower_alnum a = true) /\
  forall_byte label_byte s = true /\
  (exists z, last_byte s = Some z /\ is_lower_alnum z = true).
Proof.
  assert (Hlb : forall a, in_class (CClass false ((45, 45) :: lower_alnum)) a = label_byte a).
  { intros a. unfold label_byte, is_lower_alnum, in_class, lower_alnum, byte_in. simpl. lia. }
  assert (Hsub : forall a, is_lower_alnum a = true -> label_byte a = true).
  { intros a Ha. unfold label_byte. by rewrite Ha. }
  rewrite re_match_spec. unfold appNamePattern, cls. rewrite lang_seq_iff.
  setoid_rewrite lang_opt. setoid_rewrite lang_seq_iff.
  setoid_rewrite lang_star_class. setoid_rewrite lang_class_iff.
  fold is_lower_alnum. split.
  - intros (s1 & s2 & -> & (a & -> & Ha) & Hs2). simpl.
    destruct Hs2 as [->|(t1 & t2 & -> & Ht1 & z & -> & Hz)]; simpl.
    + fold (is_lower_alnum a) in Ha. rewrite (Hsub a Ha). naive_solver.
    + fold (is_lower_alnum a) in Ha. fold (is_lower_alnum z) in Hz.
      split; [eauto|]. split.
      * rewrite (Hsub a Ha), forall_byte_app. simpl. rewrite (Hsub z Hz).
        rewrite (forall_byte_impl _ label_byte _ (fun b Hb => eq_trans (eq_sym (Hlb b)) Hb) Ht1). done.
      * exists z. split; [|done].
        pose proof (last_byte_app (String a t1) z) as Hl. simpl in Hl. exact Hl.
  - intros ((a & s' & -> & Ha) & Hall & z & Hz & Hzl).
    exists (String a ""), s'. split; [done|]. split; [eauto|].
    destruct s' as [|b s']; [by left|]. right.
    change (last_byte (String b s') = Some z) in Hz. destruct (last_byte_snoc _ _ Hz) as [t Ht].
    exists t, (String z ""). split; [done|]. split; [|eauto].
    simpl in Hall. bools. rewrite Ht in *. simpl in *.
    change (label_byte b && forall_byte label_byte s') with (forall_byte label_byte (String b s')) in *.
    eapply forall_byte_impl; [intros c Hc; rewrite Hlb; exact Hc|].
    assert (Hf : forall_byte label_byte (String b s') = true) by (simpl; by rewrite H0, H1).
    rewrite Ht, forall_byte_app in Hf. by bools.
Qed.
