(* ===== verification/Sha256.v ===== *)
(** * SHA-256 and hexadecimal encoding

    [crypto/sha256] and [encoding/hex] as the program uses them: the digest of
    a string as a list of 32 byte values, and lower-case hexadecimal.  The
    identities of candidate generations, recoveries, deletions and routes are
    prefixes of such digests, so the definitions are executable; the examples
    at the end evaluate the published test vectors. *)

From S2P Require Import Prelude GoStrings Regexp.
From Stdlib Require Import Ascii String.
Local Open Scope Z_scope.

Definition w32 (z : Z) : Z := Z.land z 4294967295.
Definition add32 (x y : Z) : Z := w32 (x + y).
Definition rotr (n x : Z) : Z := Z.lor (Z.shiftr x n) (w32 (Z.shiftl x (32 - n))).
Definition not32 (x : Z) : Z := Z.lxor x 4294967295.

Definition sha_ch (x y z : Z) : Z := Z.lxor (Z.land x y) (Z.land (not32 x) z).
Definition sha_maj (x y z : Z) : Z := Z.lxor (Z.lxor (Z.land x y) (Z.land x z)) (Z.land y z).
Definition big0 (x : Z) : Z := Z.lxor (Z.lxor (rotr 2 x) (rotr 13 x)) (rotr 22 x).
Definition big1 (x : Z) : Z := Z.lxor (Z.lxor (rotr 6 x) (rotr 11 x)) (rotr 25 x).
Definition small0 (x : Z) : Z := Z.lxor (Z.lxor (rotr 7 x) (rotr 18 x)) (Z.shiftr x 3).
Definition small1 (x : Z) : Z := Z.lxor (Z.lxor (rotr 17 x) (rotr 19 x)) (Z.shiftr x 10).

Definition round_constants : list Z :=
  [1116352408; 1899447441; 3049323471; 3921009573; 961987163; 1508970993; 2453635748; 2870763221;
   3624381080; 310598401; 607225278; 1426881987; 1925078388; 2162078206; 2614888103; 3248222580;
   3835390401; 4022224774; 264347078; 604807628; 770255983; 1249150122; 1555081692; 1996064986;
   2554220882; 2821834349; 2952996808; 3210313671; 3336571891; 3584528711; 113926993; 338241895;
   666307205; 773529912; 1294757372; 1396182291; 1695183700; 1986661051; 2177026350; 2456956037;
   2730485921; 2820302411; 3259730800; 3345764771; 3516065817; 3600352804; 4094571909; 275423344;
   430227734; 506948616; 659060556; 883997877; 958139571; 1322822218; 1537002063; 1747873779;
   1955562222; 2024104815; 2227730452; 2361852424; 2428436474; 2756734187; 3204031479; 3329325298].

Definition initial_hash : list Z :=
  [1779033703; 3144134277; 1013904242; 2773480762; 1359893119; 2600822924; 528734635; 1541459225].

Fixpoint bytes_of (s : string) : list Z :=
  match s with
  | EmptyString => []
  | String a s' => b2z a :: bytes_of s'
  end.

(** Big-endian bytes of a number, [n] of them. *)
Fixpoint be_bytes (n : nat) (z : Z) : list Z :=
  match n with
  | O => []
  | S n' => Z.land (Z.shiftr z (8 * Z.of_nat n')) 255 :: be_bytes n' z
  end.

Definition pad_message (m : list Z) : list Z :=
  let len := Z.of_nat (List.length m) in
  let zeros := Z.to_nat ((55 - len) mod 64) in
  (m ++ 128 :: replicate zeros 0 ++ be_bytes 8 (8 * len))%list.

Fixpoint words_of (l : list Z) : list Z :=
  match l with
  | a :: b :: c :: d :: l' =>
      (Z.lor (Z.lor (Z.shiftl a 24) (Z.shiftl b 16)) (Z.lor (Z.shiftl c 8) d)) :: words_of l'
  | _ => []
  end.

(** Message schedule, kept newest first: the next word is computed from the
    last sixteen. *)
Fixpoint schedule (n : nat) (w : list Z) : list Z :=
  match n with
  | O => w
  | S n' =>
      let g i := nth i w 0 in
      schedule n' (add32 (add32 (small1 (g 1%nat)) (g 6%nat)) (add32 (small0 (g 14%nat)) (g 15%nat)) :: w)
  end.

Definition compress_round (st : list Z) (kw : Z * Z) : list Z :=
  match st with
  | [a; b; c; d; e; f; g; h] =>
      let t1 := add32 (add32 h (big1 e)) (add32 (sha_ch e f g) (add32 (fst kw) (snd kw))) in
      let t2 := add32 (big0 a) (sha_maj a b c) in
      [add32 t1 t2; a; b; c; add32 d t1; e; f; g]
  | _ => st
  end.

Definition compress (st block : list Z) : list Z :=
  let w := rev (schedule 48 (rev block)) in
  zip_with add32 st (foldl compress_round st (zip round_constants w)).

Fixpoint blocks (fuel : nat) (st words : list Z) : list Z :=
  match fuel with
  | O => st
  | S f => match words with
           | [] => st
           | _ => blocks f (compress st (firstn 16 words)) (skipn 16 words)
           end
  end.

(** [sha256.Sum256([]byte(s))], as 32 byte values. *)
Definition Sum256 (s : string) : list Z :=
  let words := words_of (pad_message (bytes_of s)) in
  flat_map (be_bytes 4) (blocks (S (List.length words / 16)) initial_hash words).

Definition hex_digit (n : Z) : ascii := if n <? 10 then z2b (48 + n) else z2b (87 + n).

(** [hex.EncodeToString] *)
Fixpoint EncodeToString (l : list Z) : string :=
  match l with
  | [] => EmptyString
  | b :: l' => String (hex_digit (Z.land (Z.shiftr b 4) 15)) (String (hex_digit (Z.land b 15)) (EncodeToString l'))
  end.

Definition sha256_hex (s : string) : string := EncodeToString (Sum256 s).

(** ** Shape of the digest *)

Lemma be_bytes_length n z : List.length (be_bytes n z) = n.
Proof. induction n; simpl; auto. Qed.

Lemma compress_length st block :
  List.length st = 8%nat -> List.length (compress st block) = 8%nat.
Proof.
  intros Hst. unfold compress. rewrite length_zip_with.
  assert (forall l st, List.length st = 8%nat -> List.length (foldl compress_round st l) = 8%nat) as Hf.
  { induction l as [|kw l IH]; intros s0 Hs; simpl; [done|]. apply IH.
    do 9 (destruct s0 as [|? s0]; try done). }
  rewrite Hf by done. lia.
Qed.

Lemma blocks_length fuel st words : List.length st = 8%nat -> List.length (blocks fuel st words) = 8%nat.
Proof.
  revert st words. induction fuel as [|f IH]; intros st words Hst; simpl; [done|].
  case_match; [done|]. apply IH. by apply compress_length.
Qed.

Lemma Sum256_length s : List.length (Sum256 s) = 32%nat.
Proof.
  unfold Sum256. set (bs := blocks _ _ _).
  assert (Hb : List.length bs = 8%nat) by (apply blocks_length; done).
  clearbody bs. do 9 (destruct bs as [|? bs]; try done).
Qed.

Lemma EncodeToString_length l : String.length (EncodeToString l) = (2 * List.length l)%nat.
Proof. induction l; simpl; lia. Qed.

Lemma hex_digit_hex n : 0 <= n < 16 -> is_hex (hex_digit n) = true.
Proof.
  intros. unfold is_hex, in_class, hex_lower, hex_digit, byte_in. simpl.
  destruct (n <? 10) eqn:E; bools; rewrite b2z_z2b by lia; lia.
Qed.

Lemma land_15_range z : 0 <= Z.land z 15 < 16.
Proof. change 15 with (Z.ones 4). rewrite Z.land_ones by lia. apply Z.mod_pos_bound. lia. Qed.

Lemma EncodeToString_hex l : forall_byte is_hex (EncodeToString l) = true.
Proof.
  induction l as [|b l IH]; simpl; [done|].
  rewrite !hex_digit_hex by apply land_15_range. done.
Qed.

Lemma EncodeToString_firstn n l :
  s_take (2 * n) (EncodeToString l) = EncodeToString (firstn n l).
Proof.
  revert l. induction n as [|n IH]; intros [|b l]; simpl; try done.
  replace (n + S (n + 0))%nat with (S (2 * n))%nat by lia. simpl. f_equal. f_equal. apply IH.
Qed.

(** A digest in hexadecimal is a valid revision: 64 lower-case hex digits. *)
Lemma sha256_hex_revision s : re_match revisionPattern (sha256_hex s) = true.
Proof.
  apply revisionPattern_spec. unfold sha256_hex.
  by rewrite EncodeToString_length, Sum256_length, EncodeToString_hex.
Qed.

Example sha256_empty :
  sha256_hex "" = "e3b0c44298fc1c149afbf4c8996fb92427ae41e4649b934ca495991b7852b855".
Proof. vm_compute. reflexivity. Qed.

Example sha256_abc :
  sha256_hex "abc" = "ba7816bf8f01cfea414140de5dae2223b00361a396177a9cb410ff61f20015ad".
Proof. vm_compute. reflexivity. Qed.

Example sha256_two_blocks :
  sha256_hex "abcdbcdecdefdefgefghfghighijhijkijkljklmklmnlmnomnopnopq"
  = "248d6a61d20638b8e5c026930c3e6039a33ce45964ff2167f6ecedd419db06c1".
Proof. vm_compute. reflexivity. Qed.

#[global] Opaque Sum256.
