(* ===== verification/GoJson.v ===== *)
(** * encoding/json

    The JSON text the program stores is canonical: it compares the bytes of a
    re-encoded value with the stored bytes.  This file therefore models the
    encoder and the decoder of [encoding/json] on bytes: string escaping (with
    HTML escaping, as [json.Marshal] does), the grammar, the nesting limit, and
    decoding into a Go value (fields found by exact then case-folded name,
    [null] leaves a value unchanged, later members overwrite earlier ones).
    [json_parse_print] is the round trip on text; the component that
    declares a struct proves the round trip of its own encoder from it. *)

From S2P Require Import Prelude GoStrings.
From Stdlib Require Import Ascii String.
Local Open Scope Z_scope.

Inductive json :=
| JNull
| JBool (b : bool)
| JNum (literal : string)
| JStr (s : string)
| JArr (l : list json)
| JObj (members : list (string * json)).

(** ** Encoding *)

Definition hexd (n : Z) : ascii := if n <? 10 then z2b (48 + n) else z2b (87 + n).
Definition dquote : ascii := z2b 34.
Definition bslash : ascii := z2b 92.

Definition escape_ascii (a : ascii) : string :=
  let n := b2z a in
  if (n =? 34) || (n =? 92) then String bslash (String a "")
  else if n =? 8 then String bslash "b"
  else if n =? 12 then String bslash "f"
  else if n =? 10 then String bslash "n"
  else if n =? 13 then String bslash "r"
  else if n =? 9 then String bslash "t"
  else if (n <? 32) || (n =? 60) || (n =? 62) || (n =? 38) then
    String bslash ("u00" +:+ String (hexd (n / 16)) (String (hexd (n mod 16)) ""))
  else String a "".

(** U+2028 and U+2029, which the encoder escapes. *)
Definition line_separator (s : string) : option ascii :=
  match s with
  | String a (String b (String c _)) =>
      if (b2z a =? 226) && (b2z b =? 128) && (b2z c =? 168) then Some "8"%char
      else if (b2z a =? 226) && (b2z b =? 128) && (b2z c =? 169) then Some "9"%char
      else None
  | _ => None
  end.

(** [keep] bytes of the current rune are still copied, [skip] are dropped. *)
Fixpoint escape_from (keep skip : nat) (s : string) : string :=
  match s with
  | EmptyString => EmptyString
  | String a s' =>
      match skip, keep with
      | S d, _ => escape_from O d s'
      | O, S k => String a (escape_from k O s')
      | O, O =>
          if byte_in 0 127 a then escape_ascii a +:+ escape_from O O s'
          else match rune_len s with
               | O => String bslash "ufffd" +:+ escape_from O O s'
               | S k =>
                   match line_separator s with
                   | Some d => String bslash ("u202" +:+ String d (escape_from O 2 s'))
                   | None => String a (escape_from k O s')
                   end
               end
      end
  end.

Definition encode_string (s : string) : string :=
  String dquote (escape_from O O s +:+ String dquote "").

Fixpoint concat_sep (l : list string) : string :=
  match l with
  | [] => ""
  | [s] => s
  | s :: l' => s +:+ "," +:+ concat_sep l'
  end.

Fixpoint json_print (j : json) : string :=
  match j with
  | JNull => "null"
  | JBool true => "true"
  | JBool false => "false"
  | JNum lit => lit
  | JStr s => encode_string s
  | JArr l => "[" +:+ concat_sep (List.map json_print l) +:+ "]"
  | JObj m => "{" +:+ concat_sep (List.map (fun '(k, v) => encode_string k +:+ ":" +:+ json_print v) m) +:+ "}"
  end.

(** The same text with a layout: [None] is compact, [Some nl] begins lines with [nl]
    ([json.MarshalIndent] with no prefix and two spaces). *)
Definition gap (lay : option string) : string := default "" lay.
Definition inner (lay : option string) : option string := (fun nl => nl +:+ "  ") <$> lay.
Definition colon (lay : option string) : string := if lay then ": " else ":".

Fixpoint concat_lines (g : string) (l : list string) : string :=
  match l with
  | [] => ""
  | [s] => s
  | s :: l' => s +:+ "," +:+ g +:+ concat_lines g l'
  end.

Fixpoint json_text (lay : option string) (j : json) : string :=
  match j with
  | JNull => "null"
  | JBool true => "true"
  | JBool false => "false"
  | JNum lit => lit
  | JStr s => encode_string s
  | JArr [] => "[]"
  | JArr l => "[" +:+ gap (inner lay) +:+ concat_lines (gap (inner lay)) (List.map (json_text (inner lay)) l) +:+ gap lay +:+ "]"
  | JObj [] => "{}"
  | JObj m => "{" +:+ gap (inner lay) +:+
      concat_lines (gap (inner lay)) (List.map (fun '(k, v) => encode_string k +:+ colon lay +:+ json_text (inner lay) v) m) +:+ gap lay +:+ "}"
  end.

Definition MarshalIndent (j : json) : string := json_text (Some (String "010"%char "")) j.

(** ** Parsing *)

Definition is_ws (a : ascii) : bool :=
  (b2z a =? 32) || (b2z a =? 9) || (b2z a =? 10) || (b2z a =? 13).

Fixpoint skip_ws (s : string) : string :=
  match s with
  | String a s' => if is_ws a then skip_ws s' else s
  | EmptyString => EmptyString
  end.

Definition hex_val (a : ascii) : option Z :=
  let n := b2z a in
  if byte_in 48 57 a then Some (n - 48)
  else if byte_in 97 102 a then Some (n - 87)
  else if byte_in 65 70 a then Some (n - 55)
  else None.

Definition hex4 (a b c d : ascii) : option Z :=
  x ← hex_val a; y ← hex_val b; z ← hex_val c; w ← hex_val d;
  Some (((x * 16 + y) * 16 + z) * 16 + w).

Definition simple_escape (a : ascii) : option ascii :=
  let n := b2z a in
  if (n =? 34) || (n =? 92) || (n =? 47) then Some a
  else if n =? 98 then Some (z2b 8)
  else if n =? 102 then Some (z2b 12)
  else if n =? 110 then Some (z2b 10)
  else if n =? 114 then Some (z2b 13)
  else if n =? 116 then Some (z2b 9)
  else None.

Definition surrogate (r : Z) : bool := (55296 <=? r) && (r <? 57344).

(** [utf16.DecodeRune]: the rune of a surrogate pair, if it is one. *)
Definition surrogate_pair (r1 r2 : Z) : option Z :=
  if (55296 <=? r1) && (r1 <? 56320) && (56320 <=? r2) && (r2 <? 57344)
  then Some ((r1 - 55296) * 1024 + (r2 - 56320) + 65536) else None.

Definition replacement : string := encode_rune 65533.

Definition out (p : string) (r : option (string * string)) : option (string * string) :=
  match r with Some (c, rest) => Some (p +:+ c, rest) | None => None end.

(** The contents of a string literal after its opening quote, and the text
    after its closing quote. *)
Fixpoint parse_str (keep : nat) (s : string) : option (string * string) :=
  match s with
  | EmptyString => None
  | String a s1 =>
      match keep with
      | S k => out (String a "") (parse_str k s1)
      | O =>
          if b2z a =? 34 then Some ("", s1)
          else if b2z a =? 92 then
            match s1 with
            | EmptyString => None
            | String e s2 =>
                if b2z e =? 117 then
                  match s2 with
                  | String h1 (String h2 (String h3 (String h4 s6))) =>
                      match hex4 h1 h2 h3 h4 with
                      | None => None
                      | Some r =>
                          if surrogate r then
                            match s6 with
                            | String b (String u (String g1 (String g2 (String g3 (String g4 s12))))) =>
                                if (b2z b =? 92) && (b2z u =? 117) then
                                  match hex4 g1 g2 g3 g4 with
                                  | Some r2 =>
                                      match surrogate_pair r r2 with
                                      | Some p => out (encode_rune p) (parse_str O s12)
                                      | None => out replacement (parse_str O s6)
                                      end
                                  | None => out replacement (parse_str O s6)
                                  end
                                else out replacement (parse_str O s6)
                            | _ => out replacement (parse_str O s6)
                            end
                          else out (encode_rune r) (parse_str O s6)
                      end
                  | _ => None
                  end
                else match simple_escape e with
                     | Some c => out (String c "") (parse_str O s2)
                     | None => None
                     end
            end
          else if b2z a <? 32 then None
          else if byte_in 0 127 a then out (String a "") (parse_str O s1)
          else match rune_len s with
               | O => out replacement (parse_str O s1)
               | S k => out (String a "") (parse_str k s1)
               end
      end
  end.

Fixpoint take_digits (s : string) : string * string :=
  match s with
  | String a s' =>
      if is_digit a then let '(d, r) := take_digits s' in (String a d, r) else ("", s)
  | EmptyString => ("", "")
  end.

(** Integer part of a number: [0], or digits without a leading zero. *)
Definition num_int (s : string) : option (string * string) :=
  match s with
  | String a s' =>
      if b2z a =? 48 then Some (String a "", s')
      else if is_digit a then Some (take_digits s) else None
  | EmptyString => None
  end.

Definition num_frac (s : string) : option (string * string) :=
  match s with
  | String a s' =>
      if b2z a =? 46 then
        match take_digits s' with
        | (EmptyString, _) => None
        | (d, r) => Some (String a d, r)
        end
      else Some ("", s)
  | EmptyString => Some ("", "")
  end.

Definition num_exp (s : string) : option (string * string) :=
  match s with
  | String a s' =>
      if (b2z a =? 101) || (b2z a =? 69) then
        let '(sign, s2) := match s' with
                           | String b s2 => if (b2z b =? 43) || (b2z b =? 45) then (String b "", s2) else ("", s')
                           | EmptyString => ("", s')
                           end in
        match take_digits s2 with
        | (EmptyString, _) => None
        | (d, r) => Some (String a (sign +:+ d), r)
        end
      else Some ("", s)
  | EmptyString => Some ("", "")
  end.

Definition parse_num (s : string) : option (string * string) :=
  let '(sign, s0) := match s with
                     | String a s' => if b2z a =? 45 then (String a "", s') else ("", s)
                     | EmptyString => ("", s)
                     end in
  '(i, s1) ← num_int s0; '(f, s2) ← num_frac s1; '(e, s3) ← num_exp s2;
  Some (sign +:+ i +:+ f +:+ e, s3).

(** The scanner's limit on nested arrays and objects. *)
Definition maxNestingDepth : Z := 10000.

Fixpoint parse_value (fuel : nat) (depth : Z) (s : string) : option (json * string) :=
  match fuel with
  | O => None
  | S f =>
      match skip_ws s with
      | EmptyString => None
      | String a s1 =>
          if b2z a =? 34 then
            match parse_str O s1 with Some (c, r) => Some (JStr c, r) | None => None end
          else if b2z a =? 123 then
            if depth <=? 0 then None
            else match skip_ws s1 with
                 | String c s2 =>
                     if b2z c =? 125 then Some (JObj [], s2)
                     else match parse_members f (depth - 1) s1 with
                          | Some (m, r) => Some (JObj m, r) | None => None end
                 | EmptyString => None
                 end
          else if b2z a =? 91 then
            if depth <=? 0 then None
            else match skip_ws s1 with
                 | String c s2 =>
                     if b2z c =? 93 then Some (JArr [], s2)
                     else match parse_elems f (depth - 1) s1 with
                          | Some (l, r) => Some (JArr l, r) | None => None end
                 | EmptyString => None
                 end
          else if HasPrefix (String a s1) "null" then Some (JNull, s_drop 4 (String a s1))
          else if HasPrefix (String a s1) "true" then Some (JBool true, s_drop 4 (String a s1))
          else if HasPrefix (String a s1) "false" then Some (JBool false, s_drop 5 (String a s1))
          else match parse_num (String a s1) with
               | Some (n, r) => Some (JNum n, r)
               | None => None
               end
      end
  end
with parse_members (fuel : nat) (depth : Z) (s : string) : option (list (string * json) * string) :=
  match fuel with
  | O => None
  | S f =>
      match skip_ws s with
      | String q s1 =>
          if b2z q =? 34 then
            match parse_str O s1 with
            | Some (k, s2) =>
                match skip_ws s2 with
                | String c s3 =>
                    if b2z c =? 58 then
                      match parse_value f depth s3 with
                      | Some (v, s4) =>
                          match skip_ws s4 with
                          | String e s5 =>
                              if b2z e =? 44 then
                                match parse_members f depth s5 with
                                | Some (m, r) => Some ((k, v) :: m, r) | None => None end
                              else if b2z e =? 125 then Some ([(k, v)], s5) else None
                          | EmptyString => None
                          end
                      | None => None
                      end
                    else None
                | EmptyString => None
                end
            | None => None
            end
          else None
      | EmptyString => None
      end
  end
with parse_elems (fuel : nat) (depth : Z) (s : string) : option (list json * string) :=
  match fuel with
  | O => None
  | S f =>
      match parse_value f depth s with
      | Some (v, s4) =>
          match skip_ws s4 with
          | String e s5 =>
              if b2z e =? 44 then
                match parse_elems f depth s5 with
                | Some (l, r) => Some (v :: l, r) | None => None end
              else if b2z e =? 93 then Some ([v], s5) else None
          | EmptyString => None
          end
      | None => None
      end
  end.

(** One value at the front of the text ([json.Decoder.Decode]). *)
Definition json_decode_prefix (s : string) : option (json * string) :=
  parse_value (2 * String.length s + 2) maxNestingDepth s.

(** The whole text is one value ([json.Unmarshal], [json.Valid]). *)
Definition json_parse (s : string) : option json :=
  match json_decode_prefix s with
  | Some (j, r) => if String.eqb (skip_ws r) "" then Some j else None
  | None => None
  end.

(** [json.Valid] *)
Definition json_Valid (s : string) : bool := bool_decide (is_Some (json_parse s)).

(** ** Decoding into Go values *)

(** Case folding of field names: ASCII letters, and the two runes outside ASCII
    that fold to one (U+017F to S, U+212A to K). *)
Definition upper_byte (a : ascii) : ascii := if byte_in 97 122 a then z2b (b2z a - 32) else a.

Fixpoint fold_name (s : string) : string :=
  match s with
  | EmptyString => EmptyString
  | String a s1 =>
      match s1 with
      | String b s2 =>
          if (b2z a =? 197) && (b2z b =? 191) then String "S" (fold_name s2)
          else match s2 with
               | String c s3 =>
                   if (b2z a =? 226) && (b2z b =? 132) && (b2z c =? 170) then String "K" (fold_name s3)
                   else String (upper_byte a) (fold_name s1)
               | EmptyString => String (upper_byte a) (fold_name s1)
               end
      | EmptyString => String (upper_byte a) ""
      end
  end.

Definition decoder (T : Type) : Type := T -> json -> option T.

(** The field of a struct a member name stands for: the exact name, else the
    first field with the same folded name. *)
Definition resolve (names : list string) (k : string) : option string :=
  if existsb (String.eqb k) names then Some k
  else List.find (fun n => String.eqb (fold_name k) (fold_name n)) names.

(** Each member of an object changes one field, so a struct is decoded field by
    field: [dec_field] folds the members that stand for field [f]. *)
Fixpoint dec_field {A} (names : list string) (f : string) (d : decoder A) (cur : A)
    (m : list (string * json)) : option A :=
  match m with
  | [] => Some cur
  | (k, v) :: m' =>
      if bool_decide (resolve names k = Some f) then
        match d cur v with Some cur' => dec_field names f d cur' m' | None => None end
      else dec_field names f d cur m'
  end.

(** Members that stand for no field (an error for a decoder with
    [DisallowUnknownFields]). *)
Definition has_unknown (names : list string) (m : list (string * json)) : bool :=
  existsb (fun kv => bool_decide (resolve names kv.1 = None)) m.

(** A struct: an object, or [null] which changes nothing. *)
Definition dec_struct {T} (members : T -> list (string * json) -> option T) : decoder T := fun cur j =>
  match j with
  | JObj m => members cur m
  | JNull => Some cur
  | _ => None
  end.

Definition dec_string : decoder string := fun cur j =>
  match j with JStr s => Some s | JNull => Some cur | _ => None end.
Definition dec_int : decoder Z := fun cur j =>
  match j with JNum n => ParseInt64 n | JNull => Some cur | _ => None end.
Definition dec_bool : decoder bool := fun cur j =>
  match j with JBool b => Some b | JNull => Some cur | _ => None end.

(** A pointer: [null] is nil, anything else decodes into the pointed value. *)
Definition dec_ptr {A} (zero : A) (d : decoder A) : decoder (option A) := fun cur j =>
  match j with
  | JNull => Some None
  | _ => Some <$> d (default zero cur) j
  end.

Fixpoint dec_elems {A} (zero : A) (d : decoder A) (cur : list A) (l : list json) : option (list A) :=
  match l with
  | [] => Some []
  | j :: l' =>
      a ← d (default zero (head cur)) j;
      rest ← dec_elems zero d (tail cur) l';
      Some (a :: rest)
  end.

(** A slice: elements are decoded over the elements already there. *)
Definition dec_slice {A} (zero : A) (d : decoder A) : decoder (list A) := fun cur j =>
  match j with
  | JNull => Some []
  | JArr l => dec_elems zero d cur l
  | _ => None
  end.

Fixpoint dec_entries {A} (zero : A) (d : decoder A) (cur : gmap string A)
    (m : list (string * json)) : option (gmap string A) :=
  match m with
  | [] => Some cur
  | (k, v) :: m' => a ← d zero v; dec_entries zero d (<[k:=a]> cur) m'
  end.

(** A map with string keys: entries are added to the map already there. *)
Definition dec_map {A} (zero : A) (d : decoder A) : decoder (gmap string A) := fun cur j =>
  match j with
  | JNull => Some ∅
  | JObj m => dec_entries zero d cur m
  | _ => None
  end.

(** Maps are printed with their keys in byte order. *)
Definition str_le (s t : string) : Prop := String.leb s t = true.
#[export] Instance str_le_dec s t : Decision (str_le s t).
Proof. unfold str_le. apply _. Defined.

Definition key_le {A} (x y : string * A) : Prop := str_le x.1 y.1.
#[export] Instance key_le_dec {A} (x y : string * A) : Decision (key_le x y).
Proof. unfold key_le. apply _. Defined.

Definition sorted_entries {A} (m : gmap string A) : list (string * A) :=
  merge_sort key_le (map_to_list m).

Definition enc_map {A} (enc : A -> json) (m : gmap string A) : json :=
  JObj ((fun '(k, v) => (k, enc v)) <$> sorted_entries m).

Definition enc_string (s : string) : json := JStr s.
Definition enc_int (z : Z) : json := JNum (Itoa z).
Definition enc_bool (b : bool) : json := JBool b.
Definition enc_slice {A} (enc : A -> json) (l : list A) : json := JArr (enc <$> l).

(** A member that is left out when [empty] ([omitempty]). *)
Definition omitempty (empty : bool) (k : string) (v : json) : list (string * json) :=
  if empty then [] else [(k, v)].

(** ** Strings: the decoder undoes the encoder on valid UTF-8 *)

Lemma escape_ascii_parse a t :
  byte_in 0 127 a = true ->
  parse_str O (escape_ascii a +:+ t) = out (String a "") (parse_str O t).
Proof.
  destruct a as [[] [] [] [] [] [] [] []]; intros Ha; try (vm_compute in Ha; discriminate Ha); reflexivity.
Qed.

Lemma rune_len_bound s : (rune_len s <= String.length s)%nat.
Proof. destruct s as [|a [|b [|c [|d s]]]]; simpl; repeat case_match; simpl; lia. Qed.

Lemma rune_len_take a s t k :
  rune_len (String a s) = S k -> s_take k t = s_take k s -> rune_len (String a t) = S k.
Proof.
  intros Hr Ht. pose proof (rune_len_bound (String a s)) as Hb. rewrite Hr in Hb. simpl in Hb.
  cbn [rune_len] in *. destruct (byte_in 0 127 a); [done|].
  destruct s as [|b s]; [done|]. destruct (byte_in 194 223 a).
  { destruct (byte_in 128 191 b) eqn:Hb1; [|done]. simplify_eq/=.
    destruct t as [|b' t]; simpl in Ht; [done|]. simplify_eq. by rewrite Hb1. }
  destruct s as [|c s]; [done|]. destruct (byte_in 224 239 a).
  { match type of Hr with context [if ?x then 3%nat else _] => destruct x eqn:H end; [|done].
    simplify_eq/=. destruct t as [|b' [|c' t]]; simpl in Ht; simplify_eq. by rewrite H. }
  destruct s as [|d s]; [done|]. destruct (byte_in 240 244 a); [|done].
  match type of Hr with context [if ?x then 4%nat else _] => destruct x eqn:H end; [|done].
  simplify_eq/=. destruct t as [|b' [|c' [|d' t]]]; simpl in Ht; simplify_eq. by rewrite H.
Qed.

Lemma escape_from_take k s t :
  (k <= String.length s)%nat -> s_take k (escape_from k O s +:+ t) = s_take k s.
Proof.
  revert s. induction k as [|k IH]; intros s Hk; [done|].
  destruct s as [|a s]; simpl in *; [lia|]. f_equal. apply IH. lia.
Qed.

Lemma valid_utf8_ascii a s :
  byte_in 0 127 a = true -> valid_utf8_from O (String a s) = valid_utf8_from O s.
Proof. intros Ha. cbn [valid_utf8_from rune_len]. by rewrite Ha. Qed.

Lemma line_separator_spec s d :
  line_separator s = Some d ->
  exists s3, s = encode_rune (8232 + (if Ascii.eqb d "8" then 0 else 1)) +:+ s3 /\ (d = "8"%char \/ d = "9"%char).
Proof.
  destruct s as [|a [|b [|c s]]]; try done. cbn [line_separator]. intros Hl.
  repeat case_match; simplify_eq; bools; exists s; (split; [|auto]);
    rewrite <- (z2b_b2z a), <- (z2b_b2z b), <- (z2b_b2z c);
    repeat match goal with H : b2z _ = _ |- _ => rewrite H end; reflexivity.
Qed.

Lemma parse_str_escape_from keep s rest :
  (keep <= String.length s)%nat -> valid_utf8_from keep s = true ->
  parse_str keep (escape_from keep O s +:+ String dquote rest) = Some (s, rest).
Proof.
  enough (forall n keep s, (String.length s <= n)%nat -> (keep <= String.length s)%nat ->
    valid_utf8_from keep s = true ->
    parse_str keep (escape_from keep O s +:+ String dquote rest) = Some (s, rest)) by eauto.
  clear keep s. induction n as [|n IH]; intros keep s Hn Hk Hv.
  { destruct s; simpl in *; [|lia]. destruct keep; [done|lia]. }
  destruct s as [|a s]; [destruct keep; [done|simpl in *; lia]|].
  destruct keep as [|k]; simpl in Hn, Hk.
  2:{ cbn [escape_from parse_str String.append valid_utf8_from] in *. rewrite IH by (done || lia). done. }
  cbn [escape_from]. destruct (byte_in 0 127 a) eqn:Ha.
  { rewrite <- s_app_assoc, escape_ascii_parse by done.
    rewrite valid_utf8_ascii in Hv by done. rewrite IH by (done || lia). done. }
  assert (Hv' := Hv). cbn [valid_utf8_from] in Hv. destruct (rune_len (String a s)) as [|k] eqn:Hr; [done|].
  assert (Hkb : (k <= String.length s)%nat).
  { pose proof (rune_len_bound (String a s)) as Hb. rewrite Hr in Hb. simpl in Hb. lia. }
  destruct (line_separator (String a s)) as [d|] eqn:Hls.
  { apply line_separator_spec in Hls as (s3 & Hs & Hd).
    assert (exists b c, s = String b (String c s3) /\ valid_utf8_from 0 s3 = true) as (b & c & -> & Hv3).
    { destruct Hd as [-> | ->]; cbn in Hs; injection Hs as -> ->; eexists _, _; (split; [reflexivity|]);
        vm_compute in Hr; injection Hr as <-; exact Hv. }
    simpl in Hn.
    assert (Hp : parse_str 0 (escape_from 0 0 s3 +:+ String dquote rest) = Some (s3, rest))
      by (apply IH; (done || lia)).
    rewrite Hs. destruct Hd as [-> | ->].
    - transitivity (out (encode_rune (8232 + 0)) (parse_str 0 (escape_from 0 0 s3 +:+ String dquote rest)));
        [reflexivity|by rewrite Hp].
    - transitivity (out (encode_rune (8232 + 1)) (parse_str 0 (escape_from 0 0 s3 +:+ String dquote rest)));
        [reflexivity|by rewrite Hp]. }
  cbn [String.append]. pose proof (b2z_range a).
  assert (Ha' : 128 <= b2z a) by (unfold byte_in in Ha; lia).
  cbn [parse_str].
  rewrite (proj2 (Z.eqb_neq (b2z a) 34)), (proj2 (Z.eqb_neq (b2z a) 92)), (proj2 (Z.ltb_ge (b2z a) 32)), Ha by lia.
  rewrite (rune_len_take a s _ k Hr) by (by apply escape_from_take).
  rewrite IH by (done || lia). done.
Qed.

Lemma parse_str_encode s rest :
  ValidString s = true ->
  parse_str O (escape_from O O s +:+ String dquote rest) = Some (s, rest).
Proof. intros. apply parse_str_escape_from; [lia|done]. Qed.

(** ** Numbers: the integers the encoder writes are read back whole *)

Lemma digits_aux_lead fuel z acc :
  0 < z < 2 ^ Z.of_nat fuel -> forall_byte is_digit acc = true ->
  exists d t, digits_aux fuel z acc = String (digit_char d) t /\ 1 <= d <= 9 /\ forall_byte is_digit t = true.
Proof.
  revert z acc. induction fuel as [|f IH]; intros z acc Hz Hacc; [change (2 ^ Z.of_nat 0) with 1 in Hz; lia|].
  cbn [digits_aux]. destruct (Z.ltb_spec z 10).
  { exists z, acc. rewrite Z.mod_small by lia. split; [done|]. split; [lia|done]. }
  apply IH.
  - rewrite Nat2Z.inj_succ, Z.pow_succ_r in Hz by lia.
    split; [apply Z.div_str_pos; lia|apply Z.div_lt_upper_bound; lia].
  - cbn [forall_byte]. rewrite Hacc, andb_true_r. unfold is_digit, byte_in, digit_char.
    pose proof (Z.mod_pos_bound z 10 ltac:(lia)). rewrite b2z_z2b by lia. lia.
Qed.

(** What may follow a number: not a byte that would extend it. *)
Definition ends_number (rest : string) : bool :=
  match rest with
  | EmptyString => true
  | String a _ => negb (is_digit a || (b2z a =? 46) || (b2z a =? 101) || (b2z a =? 69))
  end.

Lemma take_digits_app ds rest :
  forall_byte is_digit ds = true -> ends_number rest = true ->
  take_digits (ds +:+ rest) = (ds, rest).
Proof.
  intros Hds Hr. induction ds as [|a ds IH]; cbn [String.append].
  - destruct rest as [|a rest]; [done|]. cbn [take_digits ends_number] in *.
    destruct (is_digit a); [done|]. done.
  - cbn [forall_byte take_digits] in *. bools. rewrite IH by done.
    match goal with H : is_digit a = true |- _ => rewrite H end. done.
Qed.

Lemma num_tail rest :
  ends_number rest = true -> num_frac rest = Some ("", rest) /\ num_exp rest = Some ("", rest).
Proof.
  destruct rest as [|a rest]; [done|]. cbn [ends_number num_frac num_exp].
  destruct (b2z a =? 46), (b2z a =? 101), (b2z a =? 69), (is_digit a); done.
Qed.

Lemma s_app_nil_r s : s +:+ "" = s.
Proof. induction s as [|a s IH]; simpl; congruence. Qed.

(** An integer literal starts with a digit or a minus sign, and is read whole. *)
Lemma parse_num_Itoa z rest :
  ends_number rest = true ->
  parse_num (Itoa z +:+ rest) = Some (Itoa z, rest) /\
  exists a t, Itoa z = String a t /\ (is_digit a || (b2z a =? 45)) = true.
Proof.
  intros Hr. destruct (num_tail rest Hr) as [Hf He].
  destruct (decide (z = 0)) as [->|Hz].
  { split; [|by eexists _, _]. change (Itoa 0) with "0". cbn [String.append].
    change (parse_num (String "0" rest)) with
      ('(f, s2) ← num_frac rest; '(e, s3) ← num_exp s2; Some ("" +:+ "0" +:+ f +:+ e, s3)).
    rewrite Hf. simpl. rewrite He. done. }
  destruct (digits_aux_lead (Z.to_nat (Z.log2_up (Z.abs z + 1))) (Z.abs z) "") as (d & t & Hd & Hd9 & Ht);
    [pose proof (Itoa_abs_bound z); lia|done|].
  assert (Hdig : is_digit (digit_char d) = true).
  { unfold is_digit, byte_in, digit_char. rewrite b2z_z2b by lia. lia. }
  assert (Hint : num_int (String (digit_char d) t +:+ rest) = Some (String (digit_char d) t, rest)).
  { cbn [String.append num_int]. assert (b2z (digit_char d) =? 48 = false) as ->.
    { unfold digit_char. rewrite b2z_z2b by lia. lia. }
    rewrite Hdig. change (String (digit_char d) (t +:+ rest)) with (String (digit_char d) t +:+ rest).
    rewrite take_digits_app by (cbn [forall_byte]; rewrite ?Hdig; done). done. }
  unfold Itoa. rewrite Hd. destruct (Z.ltb_spec z 0).
  - split; [|by eexists _, _]. cbn [String.append]. unfold parse_num.
    change (b2z "-" =? 45) with true. cbv iota. cbn [String.append] in Hint. rewrite Hint. simpl.
    rewrite Hf. simpl. rewrite He. simpl. by rewrite s_app_nil_r.
  - split; [|eexists _, _; split; [done|by rewrite Hdig]].
    unfold parse_num. cbn [String.append].
    assert (b2z (digit_char d) =? 45 = false) as ->.
    { unfold digit_char. rewrite b2z_z2b by lia. lia. }
    cbn [String.append] in Hint. rewrite Hint. simpl. rewrite Hf. simpl. rewrite He. simpl.
    by rewrite s_app_nil_r.
Qed.

(** ** Text round trip *)

Section json_induction.
Context (P : json -> Prop) (Hnull : P JNull) (Hbool : forall b, P (JBool b))
  (Hnum : forall n, P (JNum n)) (Hstr : forall s, P (JStr s))
  (Harr : forall l, Forall P l -> P (JArr l))
  (Hobj : forall m, Forall (fun kv => P kv.2) m -> P (JObj m)).

Fixpoint json_ind' (j : json) : P j :=
  match j with
  | JNull => Hnull
  | JBool b => Hbool b
  | JNum n => Hnum n
  | JStr s => Hstr s
  | JArr l =>
      Harr l ((fix go l := match l return Forall P l with
                           | [] => Forall_nil_2 P
                           | x :: l' => Forall_cons_2 P x l' (json_ind' x) (go l')
                           end) l)
  | JObj m =>
      Hobj m ((fix go m := match m return Forall (fun kv => P kv.2) m with
                           | [] => Forall_nil_2 _
                           | kv :: m' => Forall_cons_2 (fun kv => P kv.2) kv m' (json_ind' kv.2) (go m')
                           end) m)
  end.
End json_induction.

(** Values the program writes: strings are valid UTF-8, numbers are integers. *)
Fixpoint wf_json (j : json) : Prop :=
  match j with
  | JNull | JBool _ => True
  | JNum lit => exists z, lit = Itoa z
  | JStr s => ValidString s = true
  | JArr l => (fix go l := match l with [] => True | x :: l' => wf_json x /\ go l' end) l
  | JObj m => (fix go m := match m with [] => True | kv :: m' => (ValidString kv.1 = true /\ wf_json kv.2) /\ go m' end) m
  end.

Lemma wf_json_arr l : wf_json (JArr l) <-> Forall wf_json l.
Proof. induction l as [|x l IH]; simpl; [by rewrite Forall_nil|]. rewrite Forall_cons, <- IH. done. Qed.

Lemma wf_json_obj m : wf_json (JObj m) <-> Forall (fun kv => ValidString kv.1 = true /\ wf_json kv.2) m.
Proof. induction m as [|x l IH]; simpl; [by rewrite Forall_nil|]. rewrite Forall_cons, <- IH. done. Qed.

(** Nesting depth, and the fuel the parser needs. *)
Fixpoint json_depth (j : json) : Z :=
  match j with
  | JArr l => 1 + foldr Z.max 0 (List.map json_depth l)
  | JObj m => 1 + foldr Z.max 0 (List.map (fun kv => json_depth kv.2) m)
  | _ => 0
  end.

Fixpoint json_need (j : json) : nat :=
  match j with
  | JArr l => (1 + list_sum (List.map (fun x => 1 + json_need x) l))%nat
  | JObj m => (1 + list_sum (List.map (fun kv => 1 + json_need kv.2) m))%nat
  | _ => 1%nat
  end.

Lemma foldr_max_le l d : foldr Z.max 0 l <= d <-> 0 <= d /\ Forall (fun x => x <= d) l.
Proof.
  induction l as [|x l IH]; simpl; [rewrite Forall_nil; tauto|]. rewrite Forall_cons, Z.max_lub_iff, IH. tauto.
Qed.

(** A layout of white space only. *)
Definition blank_layout (lay : option string) : Prop := forall_byte is_ws (gap lay) = true.

Lemma blank_inner lay : blank_layout lay -> blank_layout (inner lay).
Proof.
  unfold blank_layout. destruct lay as [nl|]; [|done]. cbn. induction nl as [|a nl IH]; [done|]. cbn. intros [-> H]%andb_true_iff. by apply IH.
Qed.

Lemma skip_ws_gap g s : forall_byte is_ws g = true -> skip_ws (g +:+ s) = skip_ws s.
Proof. induction g as [|a g IH]; [done|]. cbn. intros [-> H]%andb_true_iff. by apply IH. Qed.

Lemma ends_number_gap g s : forall_byte is_ws g = true -> ends_number s = true -> ends_number (g +:+ s) = true.
Proof. destruct g as [|a g]; [done|]. cbn. intros [H _]%andb_true_iff _. unfold is_ws, is_digit, byte_in in *. lia. Qed.

Lemma parse_value_gap fuel depth g s : forall_byte is_ws g = true -> parse_value fuel depth (g +:+ s) = parse_value fuel depth s.
Proof. intros H. destruct fuel as [|fuel]; [done|]. cbn [parse_value]. by rewrite skip_ws_gap. Qed.
Lemma parse_members_gap fuel depth g s : forall_byte is_ws g = true -> parse_members fuel depth (g +:+ s) = parse_members fuel depth s.
Proof. intros H. destruct fuel as [|fuel]; [done|]. cbn [parse_members]. by rewrite skip_ws_gap. Qed.
Lemma parse_elems_gap fuel depth g s : forall_byte is_ws g = true -> parse_elems fuel depth (g +:+ s) = parse_elems fuel depth s.
Proof. intros H. destruct fuel as [|fuel]; [done|]. cbn [parse_elems]. by rewrite parse_value_gap. Qed.

(** The parser inverts the printer on [j], whatever follows. *)
Definition reads_back (j : json) : Prop := forall lay fuel depth rest, blank_layout lay ->
  (json_need j <= fuel)%nat -> json_depth j <= depth -> ends_number rest = true ->
  parse_value fuel depth (json_text lay j +:+ rest) = Some (j, rest).

Lemma json_text_head lay j :
  wf_json j -> exists a t, json_text lay j = String a t /\ is_ws a = false /\ b2z a <> 93 /\ b2z a <> 125.
Proof.
  destruct j as [|[]| lit | s | [|] | [|]]; intros Hw; try (by eexists _, _).
  destruct Hw as [z ->]. destruct (parse_num_Itoa z "" eq_refl) as [_ (a & t & Ha & Hd)].
  exists a, t. cbn [json_text]. split; [done|]. unfold is_digit, byte_in, is_ws in *. lia.
Qed.

Lemma skip_ws_head a t : is_ws a = false -> skip_ws (String a t) = String a t.
Proof. intros H. simpl. by rewrite H. Qed.

Lemma parse_string_value fuel depth s rest :
  ValidString s = true -> parse_value (S fuel) depth (encode_string s +:+ rest) = Some (JStr s, rest).
Proof.
  intros Hs. unfold encode_string. cbn [String.append].
  change (parse_value (S fuel) depth (String dquote ((escape_from 0 0 s +:+ String dquote "") +:+ rest)))
    with (match parse_str O ((escape_from 0 0 s +:+ String dquote "") +:+ rest) with
          | Some (c, r) => Some (JStr c, r) | None => None end).
  rewrite <- s_app_assoc. cbn [String.append]. by rewrite parse_str_encode.
Qed.

Lemma reads_back_num z : reads_back (JNum (Itoa z)).
Proof.
  intros lay [|fuel] depth rest _ Hn _ Hr; [simpl in Hn; lia|].
  destruct (parse_num_Itoa z rest Hr) as [Hp (a & t & Ha & Hd)].
  cbn [json_text]. cbn [parse_value]. rewrite Ha in *. cbn [String.append] in *.
  assert (is_ws a = false) by (unfold is_digit, byte_in, is_ws in *; lia).
  rewrite skip_ws_head by done.
  rewrite (proj2 (Z.eqb_neq (b2z a) 34)), (proj2 (Z.eqb_neq (b2z a) 123)), (proj2 (Z.eqb_neq (b2z a) 91))
    by (unfold is_digit, byte_in in *; lia).
  assert (Hne : forall c s, b2z c <> b2z a -> HasPrefix (String a (t +:+ rest)) (String c s) = false).
  { intros c s Hc. unfold HasPrefix. cbn [String.prefix]. destruct (ascii_dec c a) as [->|]; done. }
  rewrite !Hne by (change (b2z "n") with 110; change (b2z "t") with 116; change (b2z "f") with 102;
    unfold is_digit, byte_in in *; lia).
  by rewrite Hp.
Qed.

(** A member as printed. *)
Definition member_text (lay : option string) (kv : string * json) : string := encode_string kv.1 +:+ colon lay +:+ json_text (inner lay) kv.2.
Definition print_member (kv : string * json) : string := encode_string kv.1 +:+ ":" +:+ json_print kv.2.

Lemma json_text_obj lay m : m <> [] ->
  json_text lay (JObj m) = "{" +:+ gap (inner lay) +:+ concat_lines (gap (inner lay)) (List.map (member_text lay) m) +:+ gap lay +:+ "}".
Proof. destruct m as [|x m]; [done|]. intros _. cbn [json_text]. do 4 f_equal. apply List.map_ext. by intros []. Qed.
Lemma json_text_arr lay l : l <> [] ->
  json_text lay (JArr l) = "[" +:+ gap (inner lay) +:+ concat_lines (gap (inner lay)) (List.map (json_text (inner lay)) l) +:+ gap lay +:+ "]".
Proof. by destruct l. Qed.

Lemma json_print_obj m : json_print (JObj m) = "{" +:+ concat_sep (List.map print_member m) +:+ "}".
Proof. cbn [json_print]. do 3 f_equal. apply List.map_ext. by intros []. Qed.

Lemma concat_sep_cons2 x y l : concat_sep (x :: y :: l) = x +:+ "," +:+ concat_sep (y :: l).
Proof. done. Qed.
Lemma concat_lines_cons2 g x y l : concat_lines g (x :: y :: l) = x +:+ "," +:+ g +:+ concat_lines g (y :: l).
Proof. done. Qed.

Lemma concat_lines_sep l : concat_lines "" l = concat_sep l.
Proof. induction l as [|x [|y l] IH]; [done..|]. rewrite concat_lines_cons2, concat_sep_cons2. cbn [String.append]. by rewrite IH. Qed.

(** The compact layout is the compact text. *)
Lemma json_text_compact j : json_text None j = json_print j.
Proof.
  induction j as [|b|lit|s|l IH|m IH] using json_ind'; try done.
  - destruct l as [|x l]; [done|]. rewrite json_text_arr by done. cbn [gap inner fmap option_fmap option_map default String.append json_print].
    rewrite concat_lines_sep. do 2 f_equal. f_equal. apply List.map_ext_in. intros y Hy%list_elem_of_In. rewrite Forall_forall in IH. by apply IH.
  - destruct m as [|x m]; [done|]. rewrite json_text_obj, json_print_obj by done. cbn [gap inner fmap option_fmap option_map default String.append].
    rewrite concat_lines_sep. do 2 f_equal. f_equal. apply List.map_ext_in. intros y Hy%list_elem_of_In. rewrite Forall_forall in IH.
    unfold member_text, print_member. cbn [inner colon fmap option_fmap option_map]. by rewrite IH.
Qed.

Lemma list_sum_cons2 x l : list_sum (x :: l) = (x + list_sum l)%nat.
Proof. done. Qed.

Lemma parse_elems_text lay g l fuel depth rest :
  blank_layout lay -> forall_byte is_ws g = true ->
  Forall (fun j => wf_json j /\ reads_back j) l -> l <> [] ->
  (list_sum (List.map (fun x => 1 + json_need x) l) <= fuel)%nat ->
  Forall (fun j => json_depth j <= depth) l ->
  parse_elems fuel depth (concat_lines (gap lay) (List.map (json_text lay) l) +:+ g +:+ String "]" rest) = Some (l, rest).
Proof.
  intros Hlay Hg. revert fuel. induction l as [|x l IH]; [done|]. intros fuel HF _ Hn Hd.
  apply Forall_cons in HF as [[Hw Hx] HF]. apply Forall_cons in Hd as [Hdx Hd].
  cbn [List.map] in Hn. rewrite list_sum_cons2 in Hn. destruct fuel as [|fuel]; [lia|].
  destruct l as [|y l].
  { cbn [List.map concat_lines parse_elems]. rewrite Hx by (done || (simpl in Hn; lia) || by apply ends_number_gap). by rewrite skip_ws_gap. }
  cbn [List.map] in IH, Hn |- *. rewrite concat_lines_cons2, <- !s_app_assoc. cbn [parse_elems].
  rewrite Hx by (done || lia).
  cbn [String.append skip_ws]. change (is_ws ",") with false. change (b2z "," =? 44) with true. cbv iota.
  rewrite parse_elems_gap by done. rewrite (IH fuel) by (done || lia). done.
Qed.

Lemma parse_members_text lay g m fuel depth rest :
  blank_layout lay -> forall_byte is_ws g = true ->
  Forall (fun kv => (ValidString kv.1 = true /\ wf_json kv.2) /\ reads_back kv.2) m -> m <> [] ->
  (list_sum (List.map (fun kv : string * json => 1 + json_need kv.2) m) <= fuel)%nat ->
  Forall (fun kv => json_depth kv.2 <= depth) m ->
  parse_members fuel depth (concat_lines (gap (inner lay)) (List.map (member_text lay) m) +:+ g +:+ String "}" rest) = Some (m, rest).
Proof.
  intros Hlay Hg. pose proof (blank_inner _ Hlay) as Hin. revert fuel. induction m as [|[k v] m IH]; [done|]. intros fuel HF _ Hn Hd.
  apply Forall_cons in HF as [[[Hk Hw] Hx] HF]. apply Forall_cons in Hd as [Hdx Hd]. cbn [fst snd] in *.
  cbn [List.map snd] in Hn. rewrite list_sum_cons2 in Hn. destruct fuel as [|fuel]; [lia|].
  assert (Hkey : forall t, parse_members (S fuel) depth (member_text lay (k, v) +:+ t) =
    match parse_value fuel depth (json_text (inner lay) v +:+ t) with
    | Some (v, s4) =>
        match skip_ws s4 with
        | String e s5 =>
            if b2z e =? 44 then
              match parse_members fuel depth s5 with
              | Some (m, r) => Some ((k, v) :: m, r) | None => None end
            else if b2z e =? 125 then Some ([(k, v)], s5) else None
        | EmptyString => None
        end
    | None => None
    end).
  { intros t. unfold member_text, encode_string. cbn [fst snd String.append parse_members].
    change (skip_ws (String dquote ?u)) with (String dquote u).
    rewrite <- !s_app_assoc. cbn [String.append].
    change (b2z dquote =? 34) with true. cbv iota. rewrite parse_str_encode by done.
    destruct lay as [nl|]; cbn [colon String.append]; [|done]. change (skip_ws (String ":" ?u)) with (String ":" u). change (b2z ":" =? 58) with true. cbv iota.
    change (String " " (json_text (inner (Some nl)) v +:+ t)) with (" " +:+ (json_text (inner (Some nl)) v +:+ t)). by rewrite parse_value_gap. }
  destruct m as [|y m].
  { cbn [List.map concat_lines]. rewrite Hkey, Hx by (done || (simpl in Hn; lia) || by apply ends_number_gap). by rewrite skip_ws_gap. }
  cbn [List.map] in IH, Hn |- *. rewrite concat_lines_cons2, <- !s_app_assoc, Hkey, Hx by (done || lia).
  cbn [String.append skip_ws]. change (is_ws ",") with false. change (b2z "," =? 44) with true. cbv iota.
  rewrite parse_members_gap by done. rewrite (IH fuel) by (done || lia). done.
Qed.

Lemma reads_back_arr l : Forall (fun j => wf_json j /\ reads_back j) l -> reads_back (JArr l).
Proof.
  intros HF lay [|fuel] depth rest Hlay Hn Hd Hr; [simpl in Hn; lia|]. cbn [json_depth json_need] in Hn, Hd.
  assert (Hd1 : foldr Z.max 0 (List.map json_depth l) <= depth - 1) by lia.
  apply foldr_max_le in Hd1 as [Hd0 Hd1].
  destruct l as [|x l].
  { cbn. rewrite (proj2 (Z.leb_gt depth 0)) by lia. done. }
  destruct (json_text_head (inner lay) x) as (a & t & Ha & Hws & H93 & _); [by apply Forall_cons in HF as [[] _]|].
  rewrite json_text_arr by done. rewrite <- !s_app_assoc. cbn [String.append].
  assert (Hh : exists u, concat_lines (gap (inner lay)) (List.map (json_text (inner lay)) (x :: l)) +:+ gap lay +:+ String "]" rest = String a u).
  { cbn [List.map]. rewrite Ha. destruct l; cbn [List.map]; [|rewrite concat_lines_cons2]; by eexists. }
  destruct Hh as [u Hu]. cbn [parse_value]. rewrite skip_ws_head by done.
  change (b2z "[" =? 34) with false. change (b2z "[" =? 123) with false. change (b2z "[" =? 91) with true. cbv iota.
  rewrite (proj2 (Z.leb_gt depth 0)) by lia. pose proof (blank_inner _ Hlay) as Hin.
  rewrite skip_ws_gap by done. rewrite Hu at 1. rewrite skip_ws_head by done.
  rewrite (proj2 (Z.eqb_neq (b2z a) 93)) by done.
  rewrite parse_elems_gap by done. rewrite parse_elems_text; [done..|lia|]. by rewrite Forall_map in Hd1.
Qed.

Lemma reads_back_obj m :
  Forall (fun kv => (ValidString kv.1 = true /\ wf_json kv.2) /\ reads_back kv.2) m -> reads_back (JObj m).
Proof.
  intros HF lay [|fuel] depth rest Hlay Hn Hd Hr; [simpl in Hn; lia|]. cbn [json_depth json_need] in Hn, Hd.
  assert (Hd1 : foldr Z.max 0 (List.map (fun kv : string * json => json_depth kv.2) m) <= depth - 1) by lia.
  apply foldr_max_le in Hd1 as [Hd0 Hd1].
  destruct m as [|x m].
  { cbn. rewrite (proj2 (Z.leb_gt depth 0)) by lia. done. }
  rewrite json_text_obj by done. rewrite <- !s_app_assoc. cbn [String.append].
  assert (Hh : exists u, concat_lines (gap (inner lay)) (List.map (member_text lay) (x :: m)) +:+ gap lay +:+ String "}" rest = String dquote u).
  { cbn [List.map]. destruct m; cbn [List.map]; [|rewrite concat_lines_cons2]; by eexists. }
  destruct Hh as [u Hu]. cbn [parse_value]. rewrite skip_ws_head by done.
  change (b2z "{" =? 34) with false. change (b2z "{" =? 123) with true. cbv iota.
  rewrite (proj2 (Z.leb_gt depth 0)) by lia. pose proof (blank_inner _ Hlay) as Hin.
  rewrite skip_ws_gap by done. rewrite Hu at 1. rewrite skip_ws_head by done.
  change (b2z dquote =? 125) with false. cbv iota.
  rewrite parse_members_gap by done. rewrite parse_members_text; [done..|lia|]. by rewrite Forall_map in Hd1.
Qed.

Lemma json_reads_back j : wf_json j -> reads_back j.
Proof.
  induction j as [|b|lit|s|l IH|m IH] using json_ind'; intros Hw.
  - intros lay [|fuel] depth rest ? Hn ??; [simpl in Hn; lia|]. by destruct rest.
  - intros lay [|fuel] depth rest ? Hn ??; [simpl in Hn; lia|]. by destruct b, rest.
  - destruct Hw as [z ->]. apply reads_back_num.
  - intros lay [|fuel] depth rest ? Hn ??; [simpl in Hn; lia|]. by apply parse_string_value.
  - apply reads_back_arr. apply wf_json_arr in Hw. rewrite Forall_forall in *. intros x Hx. auto.
  - apply reads_back_obj. apply wf_json_obj in Hw. rewrite Forall_forall in *. intros x Hx.
    split; [by apply Hw|]. apply IH; [done|]. by apply Hw.
Qed.

Lemma concat_lines_length g l :
  l <> [] -> (list_sum (List.map (fun s => 1 + String.length s) l) <= S (String.length (concat_lines g l)))%nat.
Proof.
  induction l as [|x l IH]; [done|]. intros _. destruct l as [|y l]; [simpl; lia|].
  rewrite concat_lines_cons2, !s_length_app. cbn [List.map list_sum foldr] in *. simpl.
  specialize (IH ltac:(done)). simpl in IH. lia.
Qed.

Lemma list_sum_map_le {A} (f g : A -> nat) l :
  Forall (fun x => f x <= g x)%nat l -> (list_sum (List.map f l) <= list_sum (List.map g l))%nat.
Proof. induction 1 as [|x l Hx _ IH]; [done|]. cbn [List.map]. rewrite !list_sum_cons2. lia. Qed.

Lemma list_sum_map_double {A} (f : A -> nat) l :
  list_sum (List.map (fun x => 2 * f x)%nat l) = (2 * list_sum (List.map f l))%nat.
Proof. induction l as [|x l IH]; [done|]. cbn [List.map]. rewrite !list_sum_cons2, IH. lia. Qed.

(** The decoder's fuel, twice the text's length, is enough for any value. *)
Lemma json_need_text j : wf_json j -> forall lay, (json_need j <= 2 * String.length (json_text lay j))%nat.
Proof.
  induction j as [|b|lit|s|l IH|m IH] using json_ind'; intros Hw lay.
  - simpl; lia.
  - destruct b; simpl; lia.
  - destruct Hw as [z ->]. destruct (parse_num_Itoa z "" eq_refl) as [_ (a & t & Ha & _)].
    cbn [json_text json_need]. rewrite Ha. simpl. lia.
  - simpl. lia.
  - destruct l as [|x l]; [simpl; lia|]. set (l0 := x :: l) in *. rewrite json_text_arr by done. cbn [json_need]. rewrite !s_length_app. change (String.length (String ?a "")) with 1%nat.
    pose proof (concat_lines_length (gap (inner lay)) (List.map (json_text (inner lay)) l0) ltac:(done)) as Hlen. rewrite List.map_map in Hlen.
    apply wf_json_arr in Hw.
    assert (Hle : (list_sum (List.map (fun x => 1 + json_need x) l0) <=
      list_sum (List.map (fun x => 2 * (1 + String.length (json_text (inner lay) x))) l0))%nat).
    { apply list_sum_map_le. rewrite Forall_forall in *. intros y Hy. specialize (IH y Hy (Hw y Hy) (inner lay)). lia. }
    rewrite list_sum_map_double in Hle. lia.
  - destruct m as [|x m]; [simpl; lia|]. set (m0 := x :: m) in *. rewrite json_text_obj by done. cbn [json_need]. rewrite !s_length_app. change (String.length (String ?a "")) with 1%nat.
    pose proof (concat_lines_length (gap (inner lay)) (List.map (member_text lay) m0) ltac:(done)) as Hlen. rewrite List.map_map in Hlen.
    apply wf_json_obj in Hw.
    assert (Hle : (list_sum (List.map (fun kv : string * json => 1 + json_need kv.2) m0) <=
      list_sum (List.map (fun kv => 2 * (1 + String.length (member_text lay kv))) m0))%nat).
    { apply list_sum_map_le. rewrite Forall_forall in *. intros y Hy. specialize (IH y Hy (proj2 (Hw y Hy)) (inner lay)).
      unfold member_text. rewrite !s_length_app. lia. }
    rewrite list_sum_map_double in Hle. lia.
Qed.

(** Decoding the encoder's text gives the value back, with the text after it. *)
Lemma json_decode_text lay j rest :
  wf_json j -> json_depth j <= maxNestingDepth -> blank_layout lay -> ends_number rest = true ->
  json_decode_prefix (json_text lay j +:+ rest) = Some (j, rest).
Proof.
  intros Hw Hd Hlay Hr. unfold json_decode_prefix. apply json_reads_back; try done.
  pose proof (json_need_text j Hw lay). rewrite s_length_app. lia.
Qed.

Lemma json_decode_print j rest :
  wf_json j -> json_depth j <= maxNestingDepth -> ends_number rest = true ->
  json_decode_prefix (json_print j +:+ rest) = Some (j, rest).
Proof. rewrite <- json_text_compact. intros. by apply json_decode_text. Qed.

Lemma json_parse_print j :
  wf_json j -> json_depth j <= maxNestingDepth -> json_parse (json_print j) = Some j.
Proof.
  intros Hw Hd. unfold json_parse. rewrite <- (s_app_nil_r (json_print j)).
  by rewrite json_decode_print.
Qed.

(** An indented text with a line feed after it. *)
Lemma json_parse_indent j :
  wf_json j -> json_depth j <= maxNestingDepth -> json_parse (MarshalIndent j +:+ String "010"%char "") = Some j.
Proof. intros Hw Hd. unfold json_parse, MarshalIndent. by rewrite json_decode_text. Qed.

(** ** Decoding what was encoded *)

Lemma dec_field_app {A} names f (d : decoder A) cur l1 l2 :
  dec_field names f d cur (l1 ++ l2)%list =
  match dec_field names f d cur l1 with Some c => dec_field names f d c l2 | None => None end.
Proof.
  revert cur. induction l1 as [|[k v] l1 IH]; intros cur; [done|]. cbn [dec_field app].
  case_match; [|done]. by destruct (d cur v).
Qed.

Lemma dec_field_skip {A} names f (d : decoder A) cur l :
  Forall (fun kv => resolve names kv.1 <> Some f) l -> dec_field names f d cur l = Some cur.
Proof.
  induction 1 as [|[k v] l Hk _ IH]; [done|]. cbn [dec_field]. by rewrite bool_decide_eq_false_2.
Qed.

Lemma dec_field_omitempty {A} names f (d : decoder A) cur empty k v :
  dec_field names f d cur (omitempty empty k v) =
  if bool_decide (resolve names k = Some f) then (if empty : bool then Some cur else d cur v) else Some cur.
Proof. destruct empty; simpl; case_bool_decide; try done; by destruct (d cur v). Qed.

Lemma dec_int_enc cur z : - 2 ^ 63 <= z < 2 ^ 63 -> dec_int cur (enc_int z) = Some z.
Proof. apply ParseInt64_Itoa. Qed.

Lemma dec_slice_enc {A} (zero : A) (d : decoder A) (enc : A -> json) l :
  Forall (fun x => d zero (enc x) = Some x) l -> dec_slice zero d [] (enc_slice enc l) = Some l.
Proof.
  intros H. cbn [dec_slice enc_slice]. induction H as [|x l Hx _ IH]; [done|].
  cbn [fmap list_fmap dec_elems head tail default]. rewrite Hx. cbn [mbind option_bind].
  by rewrite IH.
Qed.

Lemma dec_entries_enc {A} (zero : A) (d : decoder A) (enc : A -> json) l cur :
  Forall (fun kv => d zero (enc kv.2) = Some kv.2) l -> NoDup l.*1 ->
  (forall k, k ∈ l.*1 -> cur !! k = None) ->
  dec_entries zero d cur ((fun '(k, v) => (k, enc v)) <$> l) = Some (list_to_map l ∪ cur).
Proof.
  intros H. revert cur. induction H as [|[k v] l Hx _ IH]; intros cur Hnd Hfresh; cbn.
  { by rewrite (left_id_L ∅ _). }
  cbn [snd] in Hx. rewrite Hx. cbn. apply NoDup_cons in Hnd as [Hk Hnd]. rewrite IH; [|done|].
  - f_equal. rewrite <- insert_union_l, insert_union_r; [done|]. apply not_elem_of_list_to_map_1. done.
  - intros k' Hk'. rewrite lookup_insert_ne by (by intros ->). apply Hfresh. by right.
Qed.

Lemma dec_map_enc {A} (zero : A) (d : decoder A) (enc : A -> json) (m : gmap string A) :
  map_Forall (fun _ v => d zero (enc v) = Some v) m -> dec_map zero d ∅ (enc_map enc m) = Some m.
Proof.
  intros H. unfold enc_map, sorted_entries. cbn [dec_map].
  pose proof (merge_sort_Permutation key_le (map_to_list m)) as Hp.
  rewrite dec_entries_enc.
  - rewrite (right_id_L ∅ _). f_equal.
    transitivity (list_to_map (map_to_list m) : gmap string A); [|apply list_to_map_to_list].
    apply list_to_map_proper; [|done]. rewrite Hp. apply NoDup_fst_map_to_list.
  - rewrite Hp. apply Forall_forall. intros [k v] Hin%elem_of_map_to_list. by apply (H k v).
  - rewrite Hp. apply NoDup_fst_map_to_list.
  - intros k _. apply lookup_empty.
Qed.

Lemma wf_enc_int z : wf_json (enc_int z).
Proof. by exists z. Qed.

Lemma wf_enc_slice {A} (enc : A -> json) l : Forall (fun x => wf_json (enc x)) l -> wf_json (enc_slice enc l).
Proof. intros. apply wf_json_arr. by rewrite Forall_fmap. Qed.

Lemma wf_enc_map {A} (enc : A -> json) (m : gmap string A) :
  map_Forall (fun k v => ValidString k = true /\ wf_json (enc v)) m -> wf_json (enc_map enc m).
Proof.
  intros H. apply wf_json_obj. rewrite Forall_fmap. unfold sorted_entries.
  rewrite (merge_sort_Permutation key_le (map_to_list m)).
  apply Forall_forall. intros [k v] Hin%elem_of_map_to_list. by apply (H k v).
Qed.

Lemma Forall_omitempty (P : string * json -> Prop) empty k v :
  (empty = false -> P (k, v)) -> Forall P (omitempty empty k v).
Proof. destruct empty; simpl; intros H; [constructor|]. constructor; [by apply H|constructor]. Qed.

(** ** Values that survive the text round trip *)
Definition enc_ok (d : Z) (j : json) : Prop := wf_json j /\ json_depth j <= d.
Definition member_ok (d : Z) (kv : string * json) : Prop := ValidString kv.1 = true /\ enc_ok d kv.2.

Lemma enc_ok_atom d j : 0 <= d -> wf_json j -> json_depth j = 0 -> enc_ok d j.
Proof. intros ? ? E. split; [done|lia]. Qed.

Lemma enc_ok_string d s : 0 <= d -> ValidString s = true -> enc_ok d (enc_string s).
Proof. intros. by apply enc_ok_atom. Qed.
Lemma enc_ok_int d z : 0 <= d -> enc_ok d (enc_int z).
Proof. intros. apply enc_ok_atom; [done|apply wf_enc_int|done]. Qed.
Lemma enc_ok_bool d b : 0 <= d -> enc_ok d (enc_bool b).
Proof. intros. by apply enc_ok_atom. Qed.

Lemma enc_ok_obj d m : 0 < d -> Forall (member_ok (d - 1)) m -> enc_ok d (JObj m).
Proof.
  intros Hd H. split.
  - apply wf_json_obj. eapply Forall_impl; [exact H|]. intros kv (? & ? & ?). done.
  - cbn [json_depth]. assert (foldr Z.max 0 (List.map (fun kv => json_depth kv.2) m) <= d - 1); [|lia].
    apply foldr_max_le. split; [lia|]. apply Forall_map. eapply Forall_impl; [exact H|]. intros kv (? & ? & ?). done.
Qed.

Lemma enc_ok_slice {A} d (enc : A -> json) l : 0 < d -> Forall (fun x => enc_ok (d - 1) (enc x)) l -> enc_ok d (enc_slice enc l).
Proof.
  intros Hd H. split.
  - apply wf_enc_slice. eapply Forall_impl; [exact H|]. by intros x [? ?].
  - cbn [json_depth enc_slice]. assert (foldr Z.max 0 (List.map json_depth (enc <$> l)) <= d - 1); [|lia].
    apply foldr_max_le. split; [lia|]. apply Forall_map, Forall_fmap. eapply Forall_impl; [exact H|]. by intros x [? ?].
Qed.

Lemma enc_ok_map {A} d (enc : A -> json) (m : gmap string A) :
  0 < d -> map_Forall (fun k v => ValidString k = true /\ enc_ok (d - 1) (enc v)) m -> enc_ok d (enc_map enc m).
Proof.
  intros Hd H. unfold enc_map. apply enc_ok_obj; [done|]. rewrite Forall_fmap. unfold sorted_entries.
  rewrite (merge_sort_Permutation key_le (map_to_list m)).
  apply Forall_forall. intros [k v] Hin%elem_of_map_to_list. by apply (H k v).
Qed.

Lemma json_parse_enc d j : enc_ok d j -> d <= maxNestingDepth -> json_parse (json_print j) = Some j.
Proof. intros [Hw Hd] Hm. apply json_parse_print; [done|lia]. Qed.

(** ** What is read is valid UTF-8

    The decoder replaces what is not UTF-8, so that every string of a parsed value is
    valid, whatever the text was. *)

Lemma encode_rune_valid r c : valid_utf8_from 0 (encode_rune r +:+ c) = valid_utf8_from 0 c.
Proof.
  assert (B : forall lo hi x, 0 <= x < 256 -> byte_in lo hi (z2b x) = (lo <=? x) && (x <=? hi)) by (intros; unfold byte_in; by rewrite b2z_z2b).
  unfold encode_rune. destruct ((0 <=? r) && (r <=? 127)) eqn:E1.
  { cbn [String.append valid_utf8_from rune_len]. rewrite B by lia. by rewrite E1. }
  destruct ((128 <=? r) && (r <=? 2047)) eqn:E2.
  { assert (0 <= r / 64 < 32 /\ 0 <= r mod 64 < 64 /\ 2 <= r / 64) by (Z.to_euclidean_division_equations; lia).
    cbn [String.append valid_utf8_from rune_len]. rewrite !B by lia.
    replace ((0 <=? 192 + r / 64) && (192 + r / 64 <=? 127)) with false by lia.
    replace ((194 <=? 192 + r / 64) && (192 + r / 64 <=? 223)) with true by lia.
    by replace ((128 <=? 128 + r mod 64) && (128 + r mod 64 <=? 191)) with true by lia. }
  destruct (((2048 <=? r) && (r <=? 55295)) || ((57344 <=? r) && (r <=? 65535))) eqn:E3.
  { assert (0 <= r / 4096 < 16 /\ 0 <= (r / 64) mod 64 < 64 /\ 0 <= r mod 64 < 64 /\ (r / 4096 = 0 -> 32 <= (r / 64) mod 64) /\ (r / 4096 = 13 -> (r / 64) mod 64 <= 31))
      by (Z.to_euclidean_division_equations; lia).
    cbn [String.append valid_utf8_from rune_len]. rewrite !B, b2z_z2b by lia. set (x := r / 4096) in *. set (y := (r / 64) mod 64) in *. set (z := r mod 64) in *.
    replace ((0 <=? 224 + x) && (224 + x <=? 127)) with false by lia. replace ((194 <=? 224 + x) && (224 + x <=? 223)) with false by lia.
    replace ((224 <=? 224 + x) && (224 + x <=? 239)) with true by lia. replace ((128 <=? 128 + z) && (128 + z <=? 191)) with true by lia.
    assert ((((if 224 + x =? 224 then 160 else 128) <=? 128 + y) && (128 + y <=? (if 224 + x =? 237 then 159 else 191)))%bool = true) as ->; [|done].
    destruct (Z.eqb_spec (224 + x) 224), (Z.eqb_spec (224 + x) 237); lia. }
  destruct ((65536 <=? r) && (r <=? 1114111)) eqn:E4; [|done].
  assert (0 <= r / 262144 < 5 /\ 0 <= (r / 4096) mod 64 < 64 /\ 0 <= (r / 64) mod 64 < 64 /\ 0 <= r mod 64 < 64 /\ (r / 262144 = 0 -> 16 <= (r / 4096) mod 64) /\
    (r / 262144 = 4 -> (r / 4096) mod 64 <= 15)) by (Z.to_euclidean_division_equations; lia).
  cbn [String.append valid_utf8_from rune_len]. rewrite !B, b2z_z2b by lia. set (w := r / 262144) in *. set (x := (r / 4096) mod 64) in *.
  set (y := (r / 64) mod 64) in *. set (z := r mod 64) in *.
  replace ((0 <=? 240 + w) && (240 + w <=? 127)) with false by lia. replace ((194 <=? 240 + w) && (240 + w <=? 223)) with false by lia.
  replace ((224 <=? 240 + w) && (240 + w <=? 239)) with false by lia. replace ((240 <=? 240 + w) && (240 + w <=? 244)) with true by lia.
  replace ((128 <=? 128 + y) && (128 + y <=? 191)) with true by lia. replace ((128 <=? 128 + z) && (128 + z <=? 191)) with true by lia.
  assert ((((if 240 + w =? 240 then 144 else 128) <=? 128 + x) && (128 + x <=? (if 240 + w =? 244 then 143 else 191)))%bool = true) as ->; [|done].
  destruct (Z.eqb_spec (240 + w) 240), (Z.eqb_spec (240 + w) 244); lia.
Qed.

Lemma out_inv p x c rest : out p x = Some (c, rest) -> exists c', x = Some (c', rest) /\ c = p +:+ c'.
Proof. destruct x as [[c' r']|]; [|done]. intros [= <- <-]. by exists c'. Qed.

Lemma simple_escape_ascii e c : simple_escape e = Some c -> byte_in 0 127 c = true.
Proof. destruct e as [[] [] [] [] [] [] [] []]; intros E; vm_compute in E; try discriminate E; injection E as <-; reflexivity. Qed.

(** The contents of a string literal are valid, and begin with the bytes that are kept. *)
Lemma parse_str_valid keep s c rest : parse_str keep s = Some (c, rest) -> valid_utf8_from keep c = true /\ s_take keep c = s_take keep s.
Proof.
  enough (H : forall n keep s c rest, (String.length s <= n)%nat -> parse_str keep s = Some (c, rest) -> valid_utf8_from keep c = true /\ s_take keep c = s_take keep s) by eauto.
  clear keep s c rest. induction n as [|n IH]; intros keep s c rest Hn E; [destruct s; [done|cbn in Hn; lia]|].
  destruct s as [|a s]; [done|]. cbn [String.length] in Hn. destruct keep as [|k].
  2:{ cbn [parse_str] in E. apply out_inv in E as (c' & E & ->). apply IH in E as [H1 H2]; [|lia]. cbn. split; [done|by rewrite H2]. }
  split; [|done]. cbn [parse_str] in E. destruct (b2z a =? 34); [by injection E as <- _|]. destruct (b2z a =? 92).
  - destruct s as [|e s2]; [done|]. cbn [String.length] in Hn. destruct (b2z e =? 117).
    + destruct s2 as [|h1 [|h2 [|h3 [|h4 s6]]]]; try done. cbn [String.length] in Hn. destruct (hex4 h1 h2 h3 h4) as [r|]; [|done].
      assert (HR : forall p x, out (encode_rune p) (parse_str 0 x) = Some (c, rest) -> (String.length x <= n)%nat -> valid_utf8_from 0 c = true).
      { intros p x Ex Hx. apply out_inv in Ex as (c' & Ex & ->). rewrite encode_rune_valid. by apply IH in Ex as [? _]. }
      unfold replacement in E. destruct (surrogate r); [|eapply HR; [exact E|lia]].
      destruct s6 as [|b [|u [|g1 [|g2 [|g3 [|g4 s12]]]]]]; try (eapply HR; [exact E|cbn [String.length] in *; lia]).
      destruct ((b2z b =? 92) && (b2z u =? 117)); [|eapply HR; [exact E|lia]]. cbn [String.length] in Hn.
      destruct (hex4 g1 g2 g3 g4) as [r2|]; [|eapply HR; [exact E|cbn [String.length]; lia]].
      destruct (surrogate_pair r r2); eapply HR; (exact E || (cbn [String.length]; lia)).
    + destruct (simple_escape e) as [x|] eqn:Ee; [|done]. apply out_inv in E as (c' & E & ->). cbn [String.append].
      rewrite valid_utf8_ascii by (by eapply simple_escape_ascii). apply IH in E as [? _]; [done|lia].
  - destruct (b2z a <? 32); [done|]. destruct (byte_in 0 127 a) eqn:Ha.
    + apply out_inv in E as (c' & E & ->). cbn [String.append]. rewrite valid_utf8_ascii by done. apply IH in E as [? _]; [done|lia].
    + destruct (rune_len (String a s)) as [|k] eqn:Hr.
      * apply out_inv in E as (c' & E & ->). unfold replacement. rewrite encode_rune_valid. apply IH in E as [? _]; [done|lia].
      * apply out_inv in E as (c' & E & ->). apply IH in E as [H1 H2]; [|lia]. cbn [String.append valid_utf8_from].
        by rewrite (rune_len_take a s c' k Hr H2).
Qed.

(** Every string of the value is valid UTF-8. *)
Fixpoint utf8_json (j : json) : Prop :=
  match j with
  | JNull | JBool _ | JNum _ => True
  | JStr s => ValidString s = true
  | JArr l => (fix go l := match l with [] => True | x :: l' => utf8_json x /\ go l' end) l
  | JObj m => (fix go m := match m with [] => True | kv :: m' => (ValidString kv.1 = true /\ utf8_json kv.2) /\ go m' end) m
  end.

Lemma utf8_json_arr l : utf8_json (JArr l) <-> Forall utf8_json l.
Proof. induction l as [|x l IH]; simpl; [by rewrite Forall_nil|]. rewrite Forall_cons, <- IH. done. Qed.

Lemma utf8_json_obj m : utf8_json (JObj m) <-> Forall (fun kv => ValidString kv.1 = true /\ utf8_json kv.2) m.
Proof. induction m as [|x l IH]; simpl; [by rewrite Forall_nil|]. rewrite Forall_cons, <- IH. done. Qed.

Lemma parse_valid fuel :
  (forall depth s j r, parse_value fuel depth s = Some (j, r) -> utf8_json j) /\
  (forall depth s m r, parse_members fuel depth s = Some (m, r) -> Forall (fun kv => ValidString kv.1 = true /\ utf8_json kv.2) m) /\
  (forall depth s l r, parse_elems fuel depth s = Some (l, r) -> Forall utf8_json l).
Proof.
  induction fuel as [|f (IHv & IHm & IHe)]; [done|]. split; [|split].
  - intros depth s j r E. cbn [parse_value] in E. destruct (skip_ws s) as [|a s1]; [done|]. destruct (b2z a =? 34).
    { destruct (parse_str 0 s1) as [[c rest]|] eqn:Ep; [|done]. injection E as <- <-. by apply parse_str_valid in Ep as [? _]. }
    destruct (b2z a =? 123).
    { destruct (depth <=? 0); [done|]. destruct (skip_ws s1) as [|c s2]; [done|]. destruct (b2z c =? 125); [by injection E as <- <-|].
      destruct (parse_members f _ _) as [[m rest]|] eqn:Em; [|done]. injection E as <- <-. apply utf8_json_obj. by eapply IHm. }
    destruct (b2z a =? 91).
    { destruct (depth <=? 0); [done|]. destruct (skip_ws s1) as [|c s2]; [done|]. destruct (b2z c =? 93); [by injection E as <- <-|].
      destruct (parse_elems f _ _) as [[l rest]|] eqn:El; [|done]. injection E as <- <-. apply utf8_json_arr. by eapply IHe. }
    repeat (destruct (HasPrefix _ _); [by injection E as <- <-|]). destruct (parse_num _) as [[]|]; [|done]. by injection E as <- <-.
  - intros depth s m r E. cbn [parse_members] in E. destruct (skip_ws s) as [|q s1]; [done|]. destruct (b2z q =? 34); [|done].
    destruct (parse_str 0 s1) as [[k s2]|] eqn:Ep; [|done]. apply parse_str_valid in Ep as [Hk _]. destruct (skip_ws s2) as [|c s3]; [done|].
    destruct (b2z c =? 58); [|done]. destruct (parse_value f depth s3) as [[v s4]|] eqn:Ev; [|done]. apply IHv in Ev.
    destruct (skip_ws s4) as [|e s5]; [done|]. destruct (b2z e =? 44).
    + destruct (parse_members f depth s5) as [[m' rest]|] eqn:Em; [|done]. injection E as <- <-. apply IHm in Em. by constructor.
    + destruct (b2z e =? 125); [|done]. injection E as <- <-. by apply Forall_singleton.
  - intros depth s l r E. cbn [parse_elems] in E. destruct (parse_value f depth s) as [[v s4]|] eqn:Ev; [|done]. apply IHv in Ev.
    destruct (skip_ws s4) as [|e s5]; [done|]. destruct (b2z e =? 44).
    + destruct (parse_elems f depth s5) as [[l' rest]|] eqn:El; [|done]. injection E as <- <-. apply IHe in El. by constructor.
    + destruct (b2z e =? 93); [|done]. injection E as <- <-. by apply Forall_singleton.
Qed.

Lemma json_parse_utf8 s j : json_parse s = Some j -> utf8_json j.
Proof.
  unfold json_parse, json_decode_prefix. destruct (parse_value _ _ _) as [[j' r]|] eqn:E; [|done]. destruct (String.eqb _ _); [|done]. intros [= <-].
  by eapply parse_valid.
Qed.

(** *** Decoders that keep a property of the value they fill *)

Definition fills {A} (P : A -> Prop) (d : decoder A) : Prop := forall cur j a, P cur -> utf8_json j -> d cur j = Some a -> P a.

Lemma fills_string : fills (fun s => ValidString s = true) dec_string.
Proof. intros cur [] a Hc Hj E; try done; cbn in *; congruence. Qed.

Lemma ParseInt64_range s z : ParseInt64 s = Some z -> - 2 ^ 63 <= z < 2 ^ 63.
Proof.
  unfold ParseInt64. destruct (match s with String "-" s' => _ | String "+" s' => _ | _ => _ end) as [neg ds]. destruct (_ || _); [done|].
  destruct (_ && _) eqn:E; [|done]. intros [= <-]. lia.
Qed.

Lemma fills_int : fills (fun z => - 2 ^ 63 <= z < 2 ^ 63) dec_int.
Proof. intros cur [] a Hc Hj E; try done; cbn in E; [by injection E as <-|by apply ParseInt64_range in E]. Qed.

Lemma fills_any {A} (d : decoder A) : fills (fun _ => True) d.
Proof. done. Qed.

Lemma fills_struct {T} (P : T -> Prop) (members : T -> list (string * json) -> option T) :
  (forall cur m a, P cur -> Forall (fun kv => utf8_json kv.2) m -> members cur m = Some a -> P a) -> fills P (dec_struct members).
Proof.
  intros H cur [] a Hc Hj E; try done; cbn in E; [by injection E as <-|]. apply utf8_json_obj in Hj. eapply H; [done| |done].
  eapply Forall_impl; [exact Hj|]. by intros kv [_ ?].
Qed.

Lemma fills_field {A} (P : A -> Prop) names f (d : decoder A) cur m a : fills P d -> P cur -> Forall (fun kv => utf8_json kv.2) m ->
  dec_field names f d cur m = Some a -> P a.
Proof.
  intros Hd. revert cur. induction m as [|[k v] m IH]; intros cur Hc Hm E; cbn in E; [by injection E as <-|].
  apply Forall_cons in Hm as [Hv Hm]. case_bool_decide; [|by eapply IH]. destruct (d cur v) as [x|] eqn:Ed; [|done]. eapply IH; [|done|done]. by eapply Hd.
Qed.

Lemma fills_ptr {A} (P : A -> Prop) zero (d : decoder A) : P zero -> fills P d -> fills (fun o => match o with Some a => P a | None => True end) (dec_ptr zero d).
Proof.
  intros Hz Hd cur j a Hc Hj E. assert (H : forall x, d (default zero cur) j = Some x -> P x) by (intros x; apply Hd; [by destruct cur|done]).
  unfold dec_ptr in E. destruct j; [by injection E as <-|..]; (destruct (d _ _) as [x|]; [|done]); injection E as <-; by apply H.
Qed.

Lemma fills_elems {A} (P : A -> Prop) zero (d : decoder A) cur l a : P zero -> fills P d -> Forall P cur -> Forall utf8_json l -> dec_elems zero d cur l = Some a -> Forall P a.
Proof.
  intros Hz Hd. revert cur a. induction l as [|j l IH]; intros cur a Hc Hl E; cbn in E; [by injection E as <-|]. apply Forall_cons in Hl as [Hj Hl].
  destruct (d _ j) as [x|] eqn:Ed; [|done]. cbn in E. destruct (dec_elems zero d (tail cur) l) as [rest|] eqn:Er; [|done]. injection E as <-. constructor.
  - eapply Hd; [|exact Hj|exact Ed]. destruct Hc; done.
  - eapply IH; [|done|exact Er]. destruct Hc; done.
Qed.

Lemma fills_slice {A} (P : A -> Prop) zero (d : decoder A) : P zero -> fills P d -> fills (Forall P) (dec_slice zero d).
Proof.
  intros Hz Hd cur [] a Hc Hj E; try done; cbn in E; [by injection E as <-|]. apply utf8_json_arr in Hj. by eapply fills_elems.
Qed.

Lemma fills_map {A} (P : A -> Prop) zero (d : decoder A) : P zero -> fills P d -> fills (map_Forall (fun k v => ValidString k = true /\ P v)) (dec_map zero d).
Proof.
  intros Hz Hd cur [] a Hc Hj E; try done; cbn in E; [injection E as <-; apply map_Forall_empty|]. apply utf8_json_obj in Hj. revert cur Hc E.
  induction Hj as [|[k v] m [Hk Hv] _ IH]; intros cur Hc E; cbn in E; [by injection E as <-|]. destruct (d zero v) as [x|] eqn:Ed; [|done].
  apply (IH (<[k := x]> cur)); [|exact E]. apply map_Forall_insert_2; [|done]. split; [done|by eapply Hd].
Qed.

(** *** Trimming keeps valid text valid *)

Lemma rune_bytes s k : rune_len s = S k -> forall i a, (0 < i <= k)%nat -> String.get i s = Some a -> byte_in 128 191 a = true.
Proof.
  intros Hr i a Hi Ha. destruct s as [|x [|b [|c [|d s]]]]; cbn [rune_len] in Hr; repeat case_match; try discriminate Hr; injection Hr as <-; bools; try lia;
    destruct i as [|[|[|[|i]]]]; try lia; cbn in Ha; injection Ha as <-; try done; unfold byte_in in *; lia.
Qed.

Lemma valid_from_drop k s : (k <= String.length s)%nat -> valid_utf8_from k s = valid_utf8_from 0 (s_drop k s).
Proof. revert s. induction k as [|k IH]; intros s Hk; [by destruct s|]. destruct s as [|a s]; cbn in Hk; [lia|]. cbn [valid_utf8_from s_drop]. apply IH. lia. Qed.

Lemma s_take_prefix k t w : (k <= String.length t)%nat -> s_take k (t +:+ w) = s_take k t.
Proof. revert t. induction k as [|k IH]; intros [|a t] Hk; cbn in *; [done|done|lia|]. f_equal. apply IH. lia. Qed.

Lemma s_drop_prefix k t w : (k <= String.length t)%nat -> s_drop k (t +:+ w) = s_drop k t +:+ w.
Proof. revert t. induction k as [|k IH]; intros [|a t] Hk; cbn in *; [done|done|lia|]. apply IH. lia. Qed.

Lemma get_middle t a w : String.get (String.length t) (t +:+ String a w) = Some a.
Proof. by induction t. Qed.

(** Text before a byte that continues no rune. *)
Lemma valid_prefix t w : ValidString (t +:+ w) = true -> (forall a w', w = String a w' -> byte_in 128 191 a = false) -> ValidString t = true.
Proof.
  enough (H : forall n t, (String.length t <= n)%nat -> ValidString (t +:+ w) = true -> (forall a w', w = String a w' -> byte_in 128 191 a = false) -> ValidString t = true) by eauto.
  clear t. unfold ValidString. induction n as [|n IH]; intros t Hn Hv Hw; [destruct t; [done|cbn in Hn; lia]|]. destruct t as [|a t]; [done|]. cbn in Hn.
  cbn [String.append valid_utf8_from] in *. destruct (rune_len (String a (t +:+ w))) as [|k] eqn:Hr; [done|].
  destruct (decide (k <= String.length t)%nat) as [Hk|Hk].
  - rewrite (rune_len_take a (t +:+ w) t k Hr) by (by rewrite s_take_prefix). rewrite valid_from_drop by done.
    rewrite valid_from_drop in Hv by (rewrite s_length_app; lia). rewrite s_drop_prefix in Hv by done. apply IH; [|done|done]. pose proof (f_equal String.length (s_take_drop k t)) as Hl. rewrite s_length_app in Hl. lia.
  - pose proof (rune_len_bound (String a (t +:+ w))) as Hb. rewrite Hr in Hb. cbn [String.length] in Hb. rewrite s_length_app in Hb. destruct w as [|x w]; [cbn in Hb; lia|].
    pose proof (rune_bytes _ _ Hr (S (String.length t)) x) as Hc. rewrite (Hw x w eq_refl) in Hc. discriminate Hc; [lia|]. cbn. apply get_middle.
Qed.

Lemma space_valid s : forall n, match s with
    | String a s1 => space1 a = true /\ n = 1%nat \/ match s1 with
        | String b s2 => space2 a b = true /\ n = 2%nat \/ match s2 with String c _ => space3 a b c = true /\ n = 3%nat | _ => False end
        | _ => False end
    | _ => False end -> rune_len s = n /\ match s with String a _ => byte_in 128 191 a = false | _ => True end.
Proof.
  intros n. destruct s as [|a s1]; [done|]. intros [[H1 ->]|H]; [unfold space1, byte_in in *; cbn [rune_len]; unfold byte_in; split; [replace ((0 <=? b2z a) && (b2z a <=? 127)) with true by lia; done|lia]|].
  destruct s1 as [|b s2]; [done|]. destruct H as [[H2 ->]|H].
  - unfold space2 in H2. apply andb_true_iff in H2 as [Ha%Z.eqb_eq Hb]. cbn [rune_len]. unfold byte_in. rewrite Ha. cbn. split; [|done].
    replace ((128 <=? b2z b) && (b2z b <=? 191)) with true by lia. done.
  - destruct s2 as [|c s3]; [done|]. destruct H as [H3 ->]. assert (Hc : 225 <= b2z a <= 227 /\ 128 <= b2z b <= 191 /\ 128 <= b2z c <= 191) by (unfold space3, byte_in in H3; lia).
    cbn [rune_len]. unfold byte_in. replace ((0 <=? b2z a) && (b2z a <=? 127)) with false by lia. replace ((194 <=? b2z a) && (b2z a <=? 223)) with false by lia.
    replace ((224 <=? b2z a) && (b2z a <=? 239)) with true by lia. replace (b2z a =? 224) with false by lia. replace (b2z a =? 237) with false by lia.
    replace ((128 <=? b2z b) && (b2z b <=? 191)) with true by lia. replace ((128 <=? b2z c) && (b2z c <=? 191)) with true by lia. split; [done|lia].
Qed.

Lemma trim_left_valid s : ValidString s = true -> ValidString (trim_left s) = true.
Proof.
  enough (H : forall n s, (String.length s <= n)%nat -> ValidString s = true -> ValidString (trim_left s) = true) by eauto.
  clear s. induction n as [|n IH]; intros s Hn Hv; [destruct s; [done|cbn in Hn; lia]|]. destruct s as [|a s1]; [done|]. cbn [trim_left]. cbn in Hn.
  destruct (space1 a) eqn:E1.
  { destruct (space_valid (String a s1) 1) as [Hr _]; [by left|]. unfold ValidString in Hv. cbn [valid_utf8_from] in Hv. rewrite Hr in Hv. apply IH; [lia|done]. }
  destruct s1 as [|b s2]; [done|]. cbn in Hn. destruct (space2 a b) eqn:E2.
  { destruct (space_valid (String a (String b s2)) 2) as [Hr _]; [right; by left|]. unfold ValidString in Hv. cbn [valid_utf8_from] in Hv. rewrite Hr in Hv. apply IH; [lia|done]. }
  destruct s2 as [|c s3]; [done|]. cbn in Hn. destruct (space3 a b c) eqn:E3; [|done].
  destruct (space_valid (String a (String b (String c s3))) 3) as [Hr _]; [right; by right|]. unfold ValidString in Hv. cbn [valid_utf8_from] in Hv. rewrite Hr in Hv.
  apply IH; [lia|done].
Qed.

Lemma trim_right_split s : exists w, s = trim_right s +:+ w /\ trim_left w = "".
Proof.
  induction s as [|a s (w & Hs & Hw)]; [by exists ""|]. cbn [trim_right]. destruct (String.eqb_spec (trim_left (String a s)) "") as [E|_].
  - by exists (String a s).
  - exists w. split; [|done]. cbn [String.append]. by rewrite <- Hs.
Qed.

Lemma trim_right_valid s : ValidString s = true -> ValidString (trim_right s) = true.
Proof.
  intros Hv. destruct (trim_right_split s) as (w & Hs & Hw). rewrite Hs in Hv. eapply valid_prefix; [exact Hv|]. intros a w' ->. cbn [trim_left] in Hw.
  destruct (space1 a) eqn:E1; [by apply (space_valid (String a w') 1); left|]. destruct w' as [|b w']; [done|].
  destruct (space2 a b) eqn:E2; [by apply (space_valid (String a (String b w')) 2); right; left|]. destruct w' as [|c w']; [done|].
  destruct (space3 a b c) eqn:E3; [by apply (space_valid (String a (String b (String c w'))) 3); right; right|done].
Qed.

Lemma TrimSpace_valid s : ValidString s = true -> ValidString (TrimSpace s) = true.
Proof. intros Hv. by apply trim_right_valid, trim_left_valid. Qed.
