(* ===== verification/GoTime.v ===== *)
(** * Go times as the database stores them

    A [time.Time] in UTC is the number of nanoseconds since the zero time,
    January 1 of year 1 ([IsZero] is equality with 0).  The database keeps
    times as text in two layouts: [formatTime] (RFC 3339 with the trailing
    zeros of the fraction removed) and [formatEventTime] (nine fraction
    digits).  [parseStoredTime] reads both. *)

From S2P Require Import Prelude GoStrings.
From Stdlib Require Import Ascii String SpecFloat.
Local Open Scope Z_scope.

Definition Second : Z := 1000000000.
Definition Day : Z := 86400 * Second.

Definition IsZero (t : Z) : bool := t =? 0.

(** ** Calendar *)

Definition is_leap (y : Z) : bool :=
  (y mod 4 =? 0) && (negb (y mod 100 =? 0) || (y mod 400 =? 0)).

(** Days from January 1 of year 1 to January 1 of year [y]. *)
Definition days_before_year (y : Z) : Z :=
  let p := y - 1 in 365 * p + p / 4 - p / 100 + p / 400.

(** Days of the year before the first of month [m], in a leap year or not. *)
Definition days_before_month (leap : bool) (m : Z) : Z :=
  let l := if leap then 1 else 0 in
  if m <=? 1 then 0 else if m =? 2 then 31 else if m =? 3 then 59 + l else if m =? 4 then 90 + l
  else if m =? 5 then 120 + l else if m =? 6 then 151 + l else if m =? 7 then 181 + l
  else if m =? 8 then 212 + l else if m =? 9 then 243 + l else if m =? 10 then 273 + l
  else if m =? 11 then 304 + l else if m =? 12 then 334 + l else 365 + l.

Definition days_in_month (y m : Z) : Z :=
  days_before_month (is_leap y) (m + 1) - days_before_month (is_leap y) m.

Definition days_of_date (y m d : Z) : Z :=
  days_before_year y + days_before_month (is_leap y) m + (d - 1).

Definition month_of_yday (leap : bool) (yd : Z) : Z :=
  let before m := yd <? days_before_month leap m in
  if before 2 then 1 else if before 3 then 2 else if before 4 then 3 else if before 5 then 4
  else if before 6 then 5 else if before 7 then 6 else if before 8 then 7 else if before 9 then 8
  else if before 10 then 9 else if before 11 then 10 else if before 12 then 11 else 12.

(** Year, month and day of a number of days since the zero time: 400-year,
    100-year, 4-year and 1-year cycles are taken off in turn. *)
Definition date_of_days (n : Z) : Z * Z * Z :=
  let n400 := n / 146097 in let r := n mod 146097 in
  let q100 := r / 36524 in let n100 := q100 - q100 / 4 in let r := r - 36524 * n100 in
  let n4 := r / 1461 in let r := r mod 1461 in
  let q1 := r / 365 in let n1 := q1 - q1 / 4 in let yd := r - 365 * n1 in
  let y := 400 * n400 + 100 * n100 + 4 * n4 + n1 + 1 in
  let m := month_of_yday (is_leap y) yd in
  (y, m, yd - days_before_month (is_leap y) m + 1).

Record civil := Civil {
  c_year : Z; c_month : Z; c_day : Z; c_hour : Z; c_min : Z; c_sec : Z; c_nsec : Z
}.

Definition civil_of_time (t : Z) : civil :=
  let '(y, m, d) := date_of_days (t / Day) in
  let s := t mod Day / Second in
  Civil y m d (s / 3600) (s / 60 mod 60) (s mod 60) (t mod Second).

(** [time.Date] in UTC *)
Definition time_of_civil (c : civil) : Z :=
  days_of_date (c_year c) (c_month c) (c_day c) * Day +
  (c_hour c * 3600 + c_min c * 60 + c_sec c) * Second + c_nsec c.

(** ** Layouts *)

Definition date_text (c : civil) : string :=
  pad_digits 4 (c_year c) +:+ "-" +:+ pad_digits 2 (c_month c) +:+ "-" +:+ pad_digits 2 (c_day c) +:+ "T" +:+
  pad_digits 2 (c_hour c) +:+ ":" +:+ pad_digits 2 (c_min c) +:+ ":" +:+ pad_digits 2 (c_sec c).

(** Trailing zeros of the fraction are dropped. *)
Fixpoint trim_zeros (s : string) : string :=
  match s with
  | EmptyString => EmptyString
  | String a s' =>
      match trim_zeros s' with
      | EmptyString => if Ascii.eqb a "0" then EmptyString else String a EmptyString
      | t => String a t
      end
  end.

Definition fraction_text (nsec : Z) : string :=
  match trim_zeros (pad_digits 9 nsec) with
  | EmptyString => ""
  | ds => "." +:+ ds
  end.

(** errors.go: [formatTime], layout RFC3339Nano *)
Definition formatTime (t : Z) : string :=
  let c := civil_of_time t in date_text c +:+ fraction_text (c_nsec c) +:+ "Z".

(** event_repository.go: [formatEventTime] *)
Definition formatEventTime (t : Z) : string :=
  let c := civil_of_time t in date_text c +:+ "." +:+ pad_digits 9 (c_nsec c) +:+ "Z".

(** ** Parsing *)

Definition parse_uint (s : string) (lo hi : Z) : option Z :=
  if forall_byte is_digit s && (lo <=? digits_val s 0) && (digits_val s 0 <=? hi)
  then Some (digits_val s 0) else None.

Fixpoint span_digits (s : string) : string * string :=
  match s with
  | String a s' => if is_digit a then let '(d, r) := span_digits s' in (String a d, r) else (EmptyString, s)
  | EmptyString => (EmptyString, EmptyString)
  end.

(** A fraction of a second: at most nine digits count. *)
Definition nanoseconds (ds : string) : Z :=
  let ds := s_take 9 ds in digits_val ds 0 * 10 ^ (9 - slen ds).

Definition parse_fraction (s : string) : Z * string :=
  match s with
  | String a s' =>
      if Ascii.eqb a "." then
        match span_digits s' with
        | (EmptyString, _) => (0, s)
        | (ds, r) => (nanoseconds ds, r)
        end
      else (0, s)
  | EmptyString => (0, s)
  end.

(** The offset after the seconds, in seconds: [Z] or [+hh:mm]. *)
Definition parse_zone (s : string) : option Z :=
  if String.eqb s "Z" then Some 0
  else if (slen s =? 6) && String.eqb (s_take 1 (s_drop 3 s)) ":" then
    hh ← parse_uint (s_take 2 (s_drop 1 s)) 0 23;
    mm ← parse_uint (s_drop 4 s) 0 59;
    if String.eqb (s_take 1 s) "+" then Some (hh * 3600 + mm * 60)
    else if String.eqb (s_take 1 s) "-" then Some (- (hh * 3600 + mm * 60)) else None
  else None.

Definition sub_text (i n : nat) (s : string) : string := s_take n (s_drop i s).

(** [time.Parse] with the RFC 3339 layout: the exact grammar.  (The general
    layout interpreter, tried when it does not match, accepts a few more
    spellings; nothing the program writes needs it.) *)
Definition parse_rfc3339 (s : string) : option Z :=
  if slen s <? 19 then None else
  y ← parse_uint (sub_text 0 4 s) 0 9999;
  m ← parse_uint (sub_text 5 2 s) 1 12;
  d ← parse_uint (sub_text 8 2 s) 1 (days_in_month y m);
  h ← parse_uint (sub_text 11 2 s) 0 23;
  mi ← parse_uint (sub_text 14 2 s) 0 59;
  sec ← parse_uint (sub_text 17 2 s) 0 59;
  if String.eqb (sub_text 4 1 s) "-" && String.eqb (sub_text 7 1 s) "-" && String.eqb (sub_text 10 1 s) "T"
     && String.eqb (sub_text 13 1 s) ":" && String.eqb (sub_text 16 1 s) ":" then
    let '(ns, rest) := parse_fraction (s_drop 19 s) in
    off ← parse_zone rest;
    Some (time_of_civil (Civil y m d h mi sec ns) - off * Second)
  else None.

(** errors.go: [parseStoredTime] *)
Definition parseStoredTime (field value : string) : result Z :=
  match parse_rfc3339 value with
  | Some t => Ok t
  | None => Err (ErrWrap "parse %s: %w" [AStr field] (ErrSentinel "parsing time"))
  end.

(** errors.go: [formatOptionalTime], [parseOptionalStoredTime]; a NULL column is [None]. *)
Definition formatOptionalTime (t : option Z) : option string := formatTime <$> t.

Definition parseOptionalStoredTime (field : string) (value : option string) : result (option Z) :=
  match value with
  | None => Ok None
  | Some v => t ← parseStoredTime field v; Ok (Some t)
  end.

(** ** Calendar correctness *)

Definition year_length (y : Z) : Z := 365 + (if is_leap y then 1 else 0).

Lemma days_before_year_succ y : days_before_year (y + 1) = days_before_year y + year_length y.
Proof.
  unfold days_before_year, year_length, is_leap. replace (y + 1 - 1) with y by lia.
  destruct (Z.eqb_spec (y mod 4) 0), (Z.eqb_spec (y mod 100) 0), (Z.eqb_spec (y mod 400) 0);
    cbn [andb orb negb]; Z.to_euclidean_division_equations; lia.
Qed.

Lemma days_before_year_mono y1 y2 : y1 <= y2 -> days_before_year y1 <= days_before_year y2.
Proof. intros. unfold days_before_year. Z.to_euclidean_division_equations. lia. Qed.

Lemma days_before_month_bounds (leap : bool) m :
  0 <= days_before_month leap m <= 365 + (if leap then 1 else 0).
Proof. unfold days_before_month. destruct leap; repeat case_match; lia. Qed.

Lemma days_before_month_mono leap m1 m2 :
  1 <= m1 -> m1 < m2 -> m2 <= 13 -> days_before_month leap (m1 + 1) <= days_before_month leap m2.
Proof. intros. unfold days_before_month. destruct leap; repeat case_match; bools; lia. Qed.

Lemma month_of_yday_spec (leap : bool) (yd : Z) :
  0 <= yd < 365 + (if leap then 1 else 0) ->
  1 <= month_of_yday leap yd <= 12 /\
  days_before_month leap (month_of_yday leap yd) <= yd < days_before_month leap (month_of_yday leap yd + 1).
Proof.
  intros Hyd. unfold month_of_yday.
  repeat match goal with |- context [if ?b then _ else _] => destruct b eqn:? end; bools;
    (split; [lia|]); unfold days_before_month in *; simpl in *; destruct leap; lia.
Qed.

(** A real date: a month, and a day of that month. *)
Definition valid_date (y m d : Z) : Prop := 1 <= m <= 12 /\ 1 <= d <= days_in_month y m.

(** The date of a day: it is a real date, and it counts back to the day. *)
Lemma date_of_days_spec n y m d :
  date_of_days n = (y, m, d) -> days_of_date y m d = n /\ valid_date y m d.
Proof.
  unfold date_of_days.
  pose proof (Z.div_mod n 146097 ltac:(lia)) as Hn. pose proof (Z.mod_pos_bound n 146097 ltac:(lia)) as Hr.
  set (a := n / 146097) in *. set (r := n mod 146097) in *. clearbody a r.
  set (b := r / 36524 - r / 36524 / 4).
  assert (Hb : 0 <= b <= 3 /\ 0 <= r - 36524 * b <= 36524 /\ (r - 36524 * b = 36524 -> b = 3))
    by (subst b; Z.to_euclidean_division_equations; lia).
  clearbody b. set (r2 := r - 36524 * b) in *.
  pose proof (Z.div_mod r2 1461 ltac:(lia)) as Hr2. pose proof (Z.mod_pos_bound r2 1461 ltac:(lia)) as Hr3.
  set (c := r2 / 1461) in *. set (r3 := r2 mod 1461) in *.
  assert (Hc : 0 <= c <= 24) by lia. clearbody c r3.
  set (e := r3 / 365 - r3 / 365 / 4).
  assert (He : 0 <= e <= 3 /\ 0 <= r3 - 365 * e <= 365 /\ (r3 - 365 * e = 365 -> e = 3))
    by (subst e; Z.to_euclidean_division_equations; lia).
  clearbody e. set (yd := r3 - 365 * e) in *. set (y' := 400 * a + 100 * b + 4 * c + e + 1).
  assert (Hdby : days_before_year y' = 146097 * a + 36524 * b + 1461 * c + 365 * e).
  { unfold days_before_year, y'. Z.to_euclidean_division_equations. lia. }
  assert (Hlen : 0 <= yd < 365 + (if is_leap y' then 1 else 0)).
  { unfold is_leap. destruct (Z.eqb_spec (y' mod 4) 0), (Z.eqb_spec (y' mod 100) 0), (Z.eqb_spec (y' mod 400) 0);
      cbn [andb orb negb]; unfold y' in *; Z.to_euclidean_division_equations; lia. }
  pose proof (month_of_yday_spec _ _ Hlen) as [Hm Hd].
  intros [= <- <- <-]. fold y'. unfold valid_date, days_of_date, days_in_month. rewrite Hdby. lia.
Qed.

Definition date_lt (x y : Z * Z * Z) : Prop :=
  let '(y1, m1, d1) := x in let '(y2, m2, d2) := y in
  y1 < y2 \/ (y1 = y2 /\ (m1 < m2 \/ (m1 = m2 /\ d1 < d2))).

Lemma days_of_date_year y m d :
  valid_date y m d -> days_before_year y <= days_of_date y m d < days_before_year (y + 1).
Proof.
  intros [Hm Hd]. rewrite days_before_year_succ. unfold days_of_date, days_in_month, year_length in *.
  pose proof (days_before_month_bounds (is_leap y) m). pose proof (days_before_month_bounds (is_leap y) (m + 1)). lia.
Qed.

(** Later dates have greater day numbers. *)
Lemma days_of_date_mono y1 m1 d1 y2 m2 d2 :
  valid_date y1 m1 d1 -> valid_date y2 m2 d2 -> date_lt (y1, m1, d1) (y2, m2, d2) ->
  days_of_date y1 m1 d1 < days_of_date y2 m2 d2.
Proof.
  intros H1 H2 [Hy | [<- [Hm | [<- Hd]]]].
  - pose proof (days_of_date_year _ _ _ H1). pose proof (days_of_date_year _ _ _ H2).
    pose proof (days_before_year_mono (y1 + 1) y2 ltac:(lia)). lia.
  - destruct H1 as [Hm1 Hd1], H2 as [Hm2 Hd2]. unfold days_of_date, days_in_month in *.
    pose proof (days_before_month_mono (is_leap y1) m1 m2). lia.
  - unfold days_of_date. lia.
Qed.

Lemma date_of_days_mono n1 n2 : n1 < n2 -> date_lt (date_of_days n1) (date_of_days n2).
Proof.
  intros Hlt. destruct (date_of_days n1) as [[y1 m1] d1] eqn:H1, (date_of_days n2) as [[y2 m2] d2] eqn:H2.
  apply date_of_days_spec in H1 as [<- Hv1], H2 as [<- Hv2].
  destruct (decide (date_lt (y2, m2, d2) (y1, m1, d1))) as [Hgt|Hngt].
  { pose proof (days_of_date_mono _ _ _ _ _ _ Hv2 Hv1 Hgt). lia. }
  destruct (decide ((y1, m1, d1) = (y2, m2, d2))) as [[= -> -> ->]|Hne]; [lia|].
  unfold date_lt in *. assert (~ (y1 = y2 /\ m1 = m2 /\ d1 = d2)) by (intros (-> & -> & ->); done). lia.
Qed.

(** ** Times and their text *)

(** A time the layouts can express: its year has at most four digits. *)
Definition stored_range (t : Z) : Prop := 0 <= t < days_before_year 10000 * Day.

Lemma time_of_civil_of_time t : time_of_civil (civil_of_time t) = t.
Proof.
  unfold civil_of_time, time_of_civil. destruct (date_of_days (t / Day)) as [[y m] d] eqn:Hd.
  apply date_of_days_spec in Hd as [Hd _]. cbn [c_year c_month c_day c_hour c_min c_sec c_nsec].
  rewrite Hd. unfold Day, Second. Z.to_euclidean_division_equations. lia.
Qed.

Record civil_ok (c : civil) : Prop := {
  ok_year : 0 <= c_year c <= 9999;
  ok_date : valid_date (c_year c) (c_month c) (c_day c);
  ok_day : c_day c <= 31;
  ok_hour : 0 <= c_hour c <= 23;
  ok_min : 0 <= c_min c <= 59;
  ok_sec : 0 <= c_sec c <= 59;
  ok_nsec : 0 <= c_nsec c < 10 ^ 9
}.

Lemma days_in_month_31 y m : days_in_month y m <= 31.
Proof. unfold days_in_month, days_before_month. destruct (is_leap y); repeat case_match; bools; lia. Qed.

Lemma civil_of_time_ok t : stored_range t -> civil_ok (civil_of_time t).
Proof.
  intros Ht. unfold civil_of_time. destruct (date_of_days (t / Day)) as [[y m] d] eqn:Hd.
  apply date_of_days_spec in Hd as [Hd Hv]. pose proof (days_of_date_year _ _ _ Hv) as Hy.
  pose proof (days_in_month_31 y m).
  assert (0 <= t / Day < days_before_year 10000).
  { unfold stored_range, Day in *. split; [apply Z.div_pos; unfold Second; lia|].
    apply Z.div_lt_upper_bound; [unfold Second; lia|]. lia. }
  assert (1 <= y <= 9999).
  { split.
    - destruct (decide (1 <= y)); [done|]. pose proof (days_before_year_mono (y + 1) 1 ltac:(lia)) as H'.
      change (days_before_year 1) with 0 in H'. lia.
    - destruct (decide (y <= 9999)); [done|]. pose proof (days_before_year_mono 10000 y ltac:(lia)). lia. }
  split; cbn [c_year c_month c_day c_hour c_min c_sec c_nsec]; try done;
    try (destruct Hv; lia); try lia;
    unfold Day, Second; Z.to_euclidean_division_equations; lia.
Qed.

Lemma parse_uint_pad n z lo hi :
  0 <= z < 10 ^ Z.of_nat n -> lo <= z <= hi -> parse_uint (pad_digits n z) lo hi = Some z.
Proof.
  intros Hz Hb. unfold parse_uint. rewrite pad_digits_digits, pad_digits_val, Z.mod_small by done.
  replace (0 * 10 ^ Z.of_nat n + z) with z by lia.
  by rewrite (proj2 (Z.leb_le lo z)), (proj2 (Z.leb_le z hi)) by lia.
Qed.

(** The fields of a date sit at fixed positions of its text. *)
Lemma date_text_fields c rest :
  let s := date_text c +:+ rest in
  sub_text 0 4 s = pad_digits 4 (c_year c) /\ sub_text 5 2 s = pad_digits 2 (c_month c) /\
  sub_text 8 2 s = pad_digits 2 (c_day c) /\ sub_text 11 2 s = pad_digits 2 (c_hour c) /\
  sub_text 14 2 s = pad_digits 2 (c_min c) /\ sub_text 17 2 s = pad_digits 2 (c_sec c) /\
  sub_text 4 1 s = "-" /\ sub_text 7 1 s = "-" /\ sub_text 10 1 s = "T" /\ sub_text 13 1 s = ":" /\
  sub_text 16 1 s = ":" /\ s_drop 19 s = rest /\ 19 <= slen s.
Proof.
  intros s. assert (slen s = 19 + slen rest) as ->.
  { unfold s, date_text. rewrite !slen_app. unfold slen. rewrite !pad_digits_length. simpl. lia. }
  do 12 (split; [reflexivity|]). unfold slen. lia.
Qed.

Lemma parse_date_text c rest ns tail :
  civil_ok c -> parse_fraction rest = (ns, tail) -> parse_zone tail = Some 0 -> ns = c_nsec c ->
  parse_rfc3339 (date_text c +:+ rest) = Some (time_of_civil c).
Proof.
  intros [Hy [Hm Hd] Hd31 Hh Hmi Hs Hn] Hf Hz ->. unfold parse_rfc3339.
  destruct (date_text_fields c rest) as (E1 & E2 & E3 & E4 & E5 & E6 & E7 & E8 & E9 & E10 & E11 & E12 & Hlen).
  rewrite E1, E2, E3, E4, E5, E6, E7, E8, E9, E10, E11, E12.
  rewrite (proj2 (Z.ltb_ge _ _)) by lia.
  rewrite parse_uint_pad by (simpl; lia). cbn [mbind option_bind].
  rewrite parse_uint_pad by (simpl; lia). cbn [mbind option_bind].
  rewrite parse_uint_pad by (simpl; lia). cbn [mbind option_bind].
  rewrite parse_uint_pad by (simpl; lia). cbn [mbind option_bind].
  rewrite parse_uint_pad by (simpl; lia). cbn [mbind option_bind].
  rewrite parse_uint_pad by (simpl; lia). cbn [mbind option_bind].
  simpl. rewrite Hf, Hz. simpl. f_equal. destruct c. simpl. lia.
Qed.

Lemma span_digits_app ds :
  forall_byte is_digit ds = true -> span_digits (ds +:+ "Z") = (ds, "Z").
Proof.
  induction ds as [|a ds IH]; intros H; [done|]. cbn [forall_byte] in H. bools.
  cbn [String.append span_digits]. rewrite IH by done. by match goal with H : is_digit _ = _ |- _ => rewrite H end.
Qed.

Lemma s_take_all s n : (String.length s <= n)%nat -> s_take n s = s.
Proof. revert n. induction s as [|a s IH]; intros [|n] H; simpl in *; try done; [lia|]. by rewrite IH by lia. Qed.

(** Dropping trailing zeros does not change the fraction. *)
Lemma trim_zeros_spec s :
  forall_byte is_digit s = true ->
  forall_byte is_digit (trim_zeros s) = true /\ (String.length (trim_zeros s) <= String.length s)%nat /\
  forall acc, digits_val s acc =
    digits_val (trim_zeros s) acc * 10 ^ (slen s - slen (trim_zeros s)).
Proof.
  induction s as [|a s IH]; intros H; cbn [forall_byte] in H; [split; [done|split; [done|intros acc; change (acc = acc * 1); lia]]|].
  bools. destruct IH as (IH1 & IH2 & IH3); [done|]. unfold slen in *. cbn [trim_zeros].
  destruct (trim_zeros s) as [|b t] eqn:Ht.
  - destruct (Ascii.eqb_spec a "0") as [->|Ha].
    + split; [done|]. split; [simpl; lia|]. intros acc. cbn [digits_val]. rewrite IH3. cbn [digits_val String.length].
      change (digit_val "0") with 0. rewrite Nat2Z.inj_succ. change (Z.of_nat 0) with 0.
      replace (Z.succ (Z.of_nat (String.length s)) - 0) with (Z.succ (Z.of_nat (String.length s) - 0)) by lia.
      rewrite Z.pow_succ_r by lia. lia.
    + split; [cbn [forall_byte]; by rewrite H|]. split; [simpl; lia|]. intros acc.
      cbn [digits_val]. rewrite IH3. cbn [digits_val String.length]. do 2 f_equal. lia.
  - split; [cbn [forall_byte]; rewrite H; done|]. split; [simpl in *; lia|]. intros acc.
    cbn [digits_val]. rewrite IH3. cbn [digits_val String.length]. do 2 f_equal. lia.
Qed.

Lemma nanoseconds_short ds z :
  (String.length ds <= 9)%nat -> digits_val ds 0 * 10 ^ (9 - slen ds) = z -> nanoseconds ds = z.
Proof. intros Hl <-. unfold nanoseconds. by rewrite s_take_all. Qed.

Lemma parse_fraction_text n : 0 <= n < 10 ^ 9 -> parse_fraction (fraction_text n +:+ "Z") = (n, "Z").
Proof.
  intros Hn. unfold fraction_text.
  destruct (trim_zeros_spec (pad_digits 9 n) (pad_digits_digits 9 n)) as (H1 & H2 & H3).
  specialize (H3 0). rewrite pad_digits_val, Z.mod_small in H3 by done. unfold slen in H3.
  rewrite pad_digits_length in H2, H3.
  destruct (trim_zeros (pad_digits 9 n)) as [|a ds] eqn:Ht.
  - simpl in H3. cbn. f_equal. lia.
  - cbn [String.append parse_fraction]. change (Ascii.eqb "." ".") with true. cbv iota.
    change (String a (ds +:+ "Z")) with (String a ds +:+ "Z"). rewrite span_digits_app by done.
    f_equal. apply nanoseconds_short; [done|]. unfold slen. lia.
Qed.

(** Reading a stored time gives the time back, in either layout. *)
Lemma parseStoredTime_formatTime field t : stored_range t -> parseStoredTime field (formatTime t) = Ok t.
Proof.
  intros Ht. pose proof (civil_of_time_ok t Ht) as Hc. unfold parseStoredTime, formatTime.
  erewrite parse_date_text; [by rewrite time_of_civil_of_time|done|..].
  - apply parse_fraction_text, Hc.
  - done.
  - done.
Qed.

Lemma parseStoredTime_formatEventTime field t :
  stored_range t -> parseStoredTime field (formatEventTime t) = Ok t.
Proof.
  intros Ht. pose proof (civil_of_time_ok t Ht) as Hc. unfold parseStoredTime, formatEventTime.
  erewrite parse_date_text with (tail := "Z"); [by rewrite time_of_civil_of_time|done| |done|reflexivity].
  cbn [String.append parse_fraction]. change (Ascii.eqb "." ".") with true. cbv iota.
  rewrite span_digits_app by apply pad_digits_digits. cbn [pad_digits]. f_equal.
  change (String _ _) with (pad_digits 9 (c_nsec (civil_of_time t))).
  apply nanoseconds_short; [by rewrite pad_digits_length|].
  unfold slen. rewrite pad_digits_val, pad_digits_length, Z.mod_small by apply Hc. simpl. lia.
Qed.

(** ** Event times sort as text exactly as they sort in time *)

Lemma compare_byte a b s t :
  String.compare (String a s) (String b t) =
  match Z.compare (b2z a) (b2z b) with Eq => String.compare s t | c => c end.
Proof. cbn [String.compare]. unfold Ascii.compare, b2z. by rewrite N2Z.inj_compare. Qed.

Lemma compare_same p s t : String.compare (p +:+ s) (p +:+ t) = String.compare s t.
Proof.
  induction p as [|a p IH]; [done|]. cbn [String.append]. by rewrite compare_byte, Z.compare_refl.
Qed.

Lemma compare_pad n x y s t :
  0 <= x < 10 ^ Z.of_nat n -> 0 <= y < 10 ^ Z.of_nat n ->
  String.compare (pad_digits n x +:+ s) (pad_digits n y +:+ t) =
  match Z.compare x y with Eq => String.compare s t | c => c end.
Proof.
  intros Hx Hy. rewrite <- (Z.mod_small x _ Hx), <- (Z.mod_small y _ Hy) at 2. clear Hx Hy.
  induction n as [|n IH]; [by rewrite !Z.mod_1_r|].
  cbn [pad_digits String.append]. rewrite compare_byte, IH. clear IH.
  unfold digit_char. set (p := 10 ^ Z.of_nat n). assert (0 < p) by (apply Z.pow_pos_nonneg; lia).
  pose proof (Z.mod_pos_bound (x / p) 10 ltac:(lia)). pose proof (Z.mod_pos_bound (y / p) 10 ltac:(lia)).
  rewrite !b2z_z2b by lia.
  assert (Hs : forall z, z mod 10 ^ Z.of_nat (S n) = (z / p) mod 10 * p + z mod p).
  { intros z. rewrite Nat2Z.inj_succ, Z.pow_succ_r, Z.mul_comm by lia. fold p.
    rewrite Z.rem_mul_r by lia. lia. }
  rewrite !Hs. pose proof (Z.mod_pos_bound x p ltac:(lia)). pose proof (Z.mod_pos_bound y p ltac:(lia)).
  set (a := (x / p) mod 10) in *. set (b := (y / p) mod 10) in *.
  destruct (Z.compare_spec (48 + a) (48 + b)) as [Heq|Hlt|Hgt].
  - assert (a = b) as -> by lia.
    destruct (Z.compare_spec (x mod p) (y mod p)) as [E|L|G];
      [rewrite E, Z.compare_refl| |]; try done.
    + by rewrite (proj2 (Z.compare_lt_iff _ _)) by lia.
    + by rewrite (proj2 (Z.compare_gt_iff _ _)) by lia.
  - rewrite (proj2 (Z.compare_lt_iff (a * p + x mod p) _)) by nia. done.
  - rewrite (proj2 (Z.compare_gt_iff (a * p + x mod p) _)) by nia. done.
Qed.

(** Lexicographic order of the calendar fields. *)
Fixpoint lex_compare (l : list (Z * Z)) : comparison :=
  match l with
  | [] => Eq
  | (x, y) :: l' => match Z.compare x y with Eq => lex_compare l' | c => c end
  end.

Definition fields_compare (c1 c2 : civil) : comparison :=
  lex_compare [(c_year c1, c_year c2); (c_month c1, c_month c2); (c_day c1, c_day c2);
    (c_hour c1, c_hour c2); (c_min c1, c_min c2); (c_sec c1, c_sec c2); (c_nsec c1, c_nsec c2)].

Lemma compare_event_text c1 c2 :
  civil_ok c1 -> civil_ok c2 ->
  String.compare (date_text c1 +:+ "." +:+ pad_digits 9 (c_nsec c1) +:+ "Z")
                 (date_text c2 +:+ "." +:+ pad_digits 9 (c_nsec c2) +:+ "Z") = fields_compare c1 c2.
Proof.
  intros [Hy1 [Hm1 Hd1] Hd31 Hh1 Hmi1 Hs1 Hn1] [Hy2 [Hm2 Hd2] Hd32 Hh2 Hmi2 Hs2 Hn2].
  unfold date_text, fields_compare. rewrite <- !s_app_assoc. cbn [lex_compare].
  do 7 (rewrite compare_pad by (simpl; lia); case_match; [|done|done];
    first [rewrite compare_same|idtac]). done.
Qed.

(** Comparing quotients then remainders is comparing the numbers. *)
Lemma lex_divmod b x y l :
  0 < b -> lex_compare ((x / b, y / b) :: (x mod b, y mod b) :: l) = lex_compare ((x, y) :: l).
Proof.
  intros Hb. cbn [lex_compare]. pose proof (Z.div_mod x b ltac:(lia)). pose proof (Z.div_mod y b ltac:(lia)).
  pose proof (Z.mod_pos_bound x b Hb). pose proof (Z.mod_pos_bound y b Hb).
  set (qx := x / b) in *. set (qy := y / b) in *. set (rx := x mod b) in *. set (ry := y mod b) in *.
  clearbody qx qy rx ry. subst x y.
  destruct (Z.compare_spec qx qy) as [->|Hlt|Hgt].
  - replace (Z.compare (b * qy + rx) (b * qy + ry)) with (Z.compare rx ry); [done|].
    destruct (Z.compare_spec rx ry) as [->|L|G]; [by rewrite Z.compare_refl| |].
    + symmetry. apply Z.compare_lt_iff. lia.
    + symmetry. apply Z.compare_gt_iff. lia.
  - rewrite (proj2 (Z.compare_lt_iff _ _)) by nia. done.
  - rewrite (proj2 (Z.compare_gt_iff _ _)) by nia. done.
Qed.

Lemma lex_date n1 n2 y1 m1 d1 y2 m2 d2 l :
  date_of_days n1 = (y1, m1, d1) -> date_of_days n2 = (y2, m2, d2) ->
  lex_compare ((y1, y2) :: (m1, m2) :: (d1, d2) :: l) = lex_compare ((n1, n2) :: l).
Proof.
  intros H1 H2. cbn [lex_compare]. destruct (Z.compare_spec n1 n2) as [->|Hlt|Hgt].
  - rewrite H1 in H2. injection H2 as -> -> ->. by rewrite !Z.compare_refl.
  - pose proof (date_of_days_mono _ _ Hlt) as Hd. rewrite H1, H2 in Hd. unfold date_lt in Hd.
    destruct (Z.compare_spec y1 y2), (Z.compare_spec m1 m2), (Z.compare_spec d1 d2); done || lia.
  - pose proof (date_of_days_mono _ _ Hgt) as Hd. rewrite H1, H2 in Hd. unfold date_lt in Hd.
    destruct (Z.compare_spec y1 y2), (Z.compare_spec m1 m2), (Z.compare_spec d1 d2); done || lia.
Qed.

Lemma mod_Day_Second t : t mod Second = t mod Day mod Second.
Proof. unfold Day. rewrite Z.mul_comm, Z.rem_mul_r by (unfold Second; lia).
  rewrite Z.mul_comm, Z_mod_plus_full, Z.mod_mod by (unfold Second; lia). done. Qed.

(** Comparing the calendar fields in turn is comparing the times. *)
Lemma fields_compare_time t1 t2 : fields_compare (civil_of_time t1) (civil_of_time t2) = Z.compare t1 t2.
Proof.
  unfold fields_compare, civil_of_time.
  destruct (date_of_days (t1 / Day)) as [[y1 m1] d1] eqn:H1, (date_of_days (t2 / Day)) as [[y2 m2] d2] eqn:H2.
  cbn [c_year c_month c_day c_hour c_min c_sec c_nsec]. rewrite (lex_date _ _ _ _ _ _ _ _ _ H1 H2).
  rewrite !(mod_Day_Second t1), !(mod_Day_Second t2).
  transitivity (lex_compare [(t1 / Day, t2 / Day); (t1 mod Day, t2 mod Day)]).
  2:{ rewrite lex_divmod by (unfold Day, Second; lia). cbn [lex_compare]. by destruct (t1 ?= t2). }
  cbn [lex_compare]. destruct (t1 / Day ?= t2 / Day); [|done|done].
  generalize (t1 mod Day) (t2 mod Day). intros u1 u2.
  change (lex_compare [(u1 / Second / 3600, u2 / Second / 3600); (u1 / Second / 60 mod 60, u2 / Second / 60 mod 60);
    (u1 / Second mod 60, u2 / Second mod 60); (u1 mod Second, u2 mod Second)] = lex_compare [(u1, u2)]).
  assert (E : forall u, u / Second / 3600 = u / Second / 60 / 60) by (intros; by rewrite (Z.div_div _ 60 60) by lia).
  rewrite !E, !lex_divmod by (unfold Second; lia). done.
Qed.

(** The text of an event time is later in byte order exactly when the time is later. *)
Lemma formatEventTime_compare t1 t2 :
  stored_range t1 -> stored_range t2 ->
  String.compare (formatEventTime t1) (formatEventTime t2) = Z.compare t1 t2.
Proof.
  intros H1 H2. unfold formatEventTime. rewrite compare_event_text by (by apply civil_of_time_ok).
  apply fields_compare_time.
Qed.

(** The text of a time that drops trailing zeros does not sort in time order:
    a whole second sorts after any fraction of the same second. *)
Lemma formatTime_not_monotone :
  exists t1 t2, stored_range t1 /\ stored_range t2 /\ t1 < t2 /\
    String.compare (formatTime t1) (formatTime t2) = Gt.
Proof.
  exists (63900000000 * Second), (63900000000 * Second + 1).
  split; [|split; [|split]]; [split; vm_compute; congruence|split; vm_compute; congruence|lia|vm_compute; reflexivity].
Qed.

(** ** time.ParseDuration

    The scanner of the library on 64-bit unsigned numbers, whose wrap-around is kept; a
    fraction is scaled in binary64 arithmetic as the library does. *)
Definition wrap_u64 (z : Z) : Z := z mod 2 ^ 64.

(** float64 *)
Definition f64_of (z : Z) : spec_float := binary_normalize 53 1024 z 0 false.
Definition f64_trunc (x : spec_float) : Z :=
  match x with S754_finite false m e => if 0 <=? e then Zpos m * 2 ^ e else Zpos m / 2 ^ (- e) | _ => 0 end.

(** [leadingInt]: the digits at the start, an error beyond 2^63. *)
Fixpoint leadingInt (s : string) (x : Z) : option (Z * string) :=
  match s with
  | String c s' =>
      if is_digit c then
        if 2 ^ 63 / 10 <? x then None
        else let x' := 10 * x + digit_val c in if 2 ^ 63 <? x' then None else leadingInt s' x'
      else Some (x, s)
  | EmptyString => Some (x, s)
  end.

(** [leadingFraction]: digits that do not fit are dropped. *)
Fixpoint leadingFraction (s : string) (x scale : Z) (overflow : bool) : Z * Z * string :=
  match s with
  | String c s' =>
      if is_digit c then
        if overflow || ((2 ^ 63 - 1) / 10 <? x) then leadingFraction s' x scale true
        else let y := 10 * x + digit_val c in
             if 2 ^ 63 <? y then leadingFraction s' x scale true else leadingFraction s' y (10 * scale) false
      else (x, scale, s)
  | EmptyString => (x, scale, s)
  end.

Definition unitMap : list (string * Z) :=
  [("ns", 1); ("us", 10 ^ 3); (String "194"%char (String "181"%char "s"), 10 ^ 3); (String "206"%char (String "188"%char "s"), 10 ^ 3);
   ("ms", 10 ^ 6); ("s", 10 ^ 9); ("m", 60 * 10 ^ 9); ("h", 3600 * 10 ^ 9)].
Definition unit_of (u : string) : option Z := snd <$> List.find (fun e => String.eqb e.1 u) unitMap.

Definition starts_number (s : string) : bool := match s with String c _ => Ascii.eqb c "."%char || is_digit c | EmptyString => false end.

(** The text up to the next digit or dot. *)
Fixpoint unit_span (s : string) : string * string :=
  match s with
  | String c s' => if Ascii.eqb c "."%char || is_digit c then (EmptyString, s) else let '(u, rest) := unit_span s' in (String c u, rest)
  | EmptyString => (EmptyString, EmptyString)
  end.

(** One number with its unit: its nanoseconds and the rest. *)
Definition duration_part (s : string) : option (Z * string) :=
  if negb (starts_number s) then None
  else
    '(v, s1) ← leadingInt s 0;
    let pre := negb (slen s1 =? slen s) in
    let '(f, scale, s2, post) :=
      match s1 with
      | String c s' => if Ascii.eqb c "."%char then let '(f, scale, s2) := leadingFraction s' 0 1 false in (f, scale, s2, negb (slen s2 =? slen s'))
                       else (0, 1, s1, false)
      | EmptyString => (0, 1, s1, false)
      end in
    if negb pre && negb post then None
    else
      let '(u, rest) := unit_span s2 in
      if String.eqb u "" then None
      else
        unit ← unit_of u;
        if 2 ^ 63 / unit <? v then None
        else
          let v1 := wrap_u64 (v * unit) in
          let v2 := if 0 <? f then wrap_u64 (v1 + f64_trunc (SFmul 53 1024 (f64_of f) (SFdiv 53 1024 (f64_of unit) (f64_of scale)))) else v1 in
          if 2 ^ 63 <? v2 then None else Some (v2, rest).

Fixpoint duration_sum (fuel : nat) (s : string) (d : Z) : option Z :=
  match s, fuel with
  | EmptyString, _ => Some d
  | _, O => None
  | _, S n => '(v, rest) ← duration_part s; let d' := wrap_u64 (d + v) in if 2 ^ 63 <? d' then None else duration_sum n rest d'
  end.

Definition ParseDuration (s : string) : option Z :=
  let '(neg, body) := match s with String "-" s' => (true, s') | String "+" s' => (false, s') | _ => (false, s) end in
  if String.eqb body "0" then Some 0
  else if String.eqb body "" then None
  else
    d ← duration_sum (String.length body) body 0;
    if neg : bool then Some (wrap_i64 (- wrap_i64 d)) else if 2 ^ 63 - 1 <? d then None else Some d.

(** ** Lemmas *)

Lemma leadingInt_rest s x v rest : leadingInt s x = Some (v, rest) -> (String.length rest <= String.length s)%nat.
Proof.
  revert x. induction s as [|c s IH]; intros x; cbn; [by intros [= _ <-]|]. destruct (is_digit c); [|by intros [= _ <-]].
  destruct (_ <? x); [done|]. destruct (_ <? _); [done|]. intros E%IH. lia.
Qed.

Lemma leadingFraction_rest s x scale o : (String.length (leadingFraction s x scale o).2 <= String.length s)%nat.
Proof.
  revert x scale o. induction s as [|c s IH]; intros x scale o; [done|]. cbn [leadingFraction]. destruct (is_digit c); [|done].
  destruct (_ || _); [etrans; [apply IH|cbn; lia]|]. cbv zeta. destruct (_ <? _); (etrans; [apply IH|cbn; lia]).
Qed.

Lemma unit_span_rest s : (String.length (unit_span s).1 + String.length (unit_span s).2 = String.length s)%nat.
Proof.
  induction s as [|c s IH]; [done|]. cbn [unit_span]. destruct (_ || _); [done|]. destruct (unit_span s) as [u rest]. cbn in *. lia.
Qed.

Lemma duration_part_rest s v rest : duration_part s = Some (v, rest) -> (String.length rest < String.length s)%nat /\ v <= 2 ^ 63.
Proof.
  unfold duration_part. destruct (negb _); [done|]. destruct (leadingInt s 0) as [[v0 s1]|] eqn:E1; [|done]. cbn [mbind option_bind].
  apply leadingInt_rest in E1.
  assert (forall f scale s2 post, match s1 with
      | String c s' => if Ascii.eqb c "."%char then let '(f, scale, s2) := leadingFraction s' 0 1 false in (f, scale, s2, negb (slen s2 =? slen s'))
                       else (0, 1, s1, false)
      | EmptyString => (0, 1, s1, false)
      end = (f, scale, s2, post) -> (String.length s2 <= String.length s1)%nat) as H2.
  { intros f scale s2 post E. destruct s1 as [|c s']; [by injection E as _ _ <- _|].
    pose proof (leadingFraction_rest s' 0 1 false) as Hf. destruct (leadingFraction s' 0 1 false) as [[f' sc'] s2']. cbn in Hf.
    destruct (Ascii.eqb c _); injection E as _ _ <- _; cbn; lia. }
  destruct (match s1 with EmptyString => _ | String _ _ => _ end) as [[[f scale] s2] post] eqn:E2. specialize (H2 _ _ _ _ eq_refl).
  destruct (_ && _); [done|]. pose proof (unit_span_rest s2) as Hu. destruct (unit_span s2) as [u rest']. cbn in Hu.
  destruct (String.eqb_spec u ""); [done|]. destruct (unit_of u) as [unit|]; [|done]. cbn [mbind option_bind]. destruct (_ <? v0); [done|].
  destruct (2 ^ 63 <? _) eqn:El; [done|]. intros [= <- <-]. apply Z.ltb_ge in El. split; [|done]. destruct u; [done|]. cbn in Hu. lia.
Qed.

(** The scanner never runs out of fuel: every part consumes a character. *)
Lemma duration_sum_fuel n s d : (String.length s <= n)%nat -> duration_sum n s d = duration_sum (String.length s) s d.
Proof.
  revert s d. induction n as [n IH] using lt_wf_ind. intros s d Hn. destruct s as [|c s]; [by destruct n|]. destruct n as [|n]; [cbn in Hn; lia|].
  cbn [duration_sum String.length]. destruct (duration_part (String c s)) as [[v rest]|] eqn:E; [|done]. cbn [mbind option_bind].
  apply duration_part_rest in E as [Hl _]. cbn in Hl, Hn. destruct (_ <? _); [done|].
  rewrite (IH n) by lia. destruct (decide (String.length s = n)) as [<-|Hne]; [rewrite (IH (String.length s)) by lia; done|].
  rewrite (IH (String.length s)) by lia. done.
Qed.

Lemma duration_sum_range n s d r : 0 <= d <= 2 ^ 63 -> duration_sum n s d = Some r -> 0 <= r <= 2 ^ 63.
Proof.
  revert s d. induction n as [|n IH]; intros s d Hd; destruct s as [|c s]; cbn [duration_sum]; try done; try (by intros [= <-]).
  destruct (duration_part _) as [[v rest]|]; [|done]. cbn [mbind option_bind]. destruct (2 ^ 63 <? wrap_u64 (d + v)) eqn:El; [done|].
  apply IH. apply Z.ltb_ge in El. split; [apply Z.mod_pos_bound; lia|done].
Qed.

Lemma ParseDuration_range s d : ParseDuration s = Some d -> - 2 ^ 63 <= d < 2 ^ 63.
Proof.
  unfold ParseDuration. destruct (match s with EmptyString => _ | String _ _ => _ end) as [neg body].
  destruct (String.eqb body "0"); [intros [= <-]; lia|]. destruct (String.eqb body ""); [done|].
  destruct (duration_sum _ body 0) as [r|] eqn:E; [|done]. cbn [mbind option_bind]. apply duration_sum_range in E; [|lia].
  destruct neg; [intros [= <-]|]. { unfold wrap_i64. pose proof (Z.mod_pos_bound (- ((r + 2 ^ 63) mod 2 ^ 64 - 2 ^ 63) + 2 ^ 63) (2 ^ 64)). lia. }
  destruct (2 ^ 63 - 1 <? r) eqn:El; [done|]. intros [= <-]. apply Z.ltb_ge in El. lia.
Qed.
