(* ===== verification/GoNet.v ===== *)
(** * net and net/netip: addresses, prefixes and CIDR blocks

    Addresses are numbers with their family.  [ParseAddr] follows the library's
    scanner: the first dot, colon or percent sign decides the family; IPv4
    fields are at most 255 without leading zeros; IPv6 allows one ellipsis, an
    embedded IPv4 tail and a zone. *)

From S2P Require Import Prelude GoStrings.
From Stdlib Require Import Ascii String.
Local Open Scope Z_scope.

Inductive addr :=
| IP4 (n : Z)
| IP6 (n : Z) (zone : string).

#[export] Instance addr_eq_dec : EqDecision addr.
Proof. solve_decision. Defined.

Definition Is4 (a : addr) : bool := match a with IP4 _ => true | IP6 _ _ => false end.
Definition Zone (a : addr) : string := match a with IP4 _ => "" | IP6 _ z => z end.
Definition BitLen (a : addr) : Z := match a with IP4 _ => 32 | IP6 _ _ => 128 end.

(** ** IPv4 *)

(** One decimal field: 1 to 3 digits, no leading zero, at most 255. *)
Definition ip4_field (s : string) : option Z :=
  if negb (String.eqb s "") && forall_byte is_digit s && (slen s <=? 3) &&
     ((slen s =? 1) || negb (HasPrefix s "0")) && (digits_val s 0 <=? 255)
  then Some (digits_val s 0) else None.

Definition parse_ip4 (s : string) : option Z :=
  match Split_byte s "." with
  | [a; b; c; d] =>
      x ← ip4_field a; y ← ip4_field b; z ← ip4_field c; w ← ip4_field d;
      Some (((x * 256 + y) * 256 + z) * 256 + w)
  | _ => None
  end.

(** ** IPv6 *)

Definition hex_digit (a : ascii) : option Z :=
  let n := b2z a in
  if byte_in 48 57 a then Some (n - 48)
  else if byte_in 97 102 a then Some (n - 87)
  else if byte_in 65 70 a then Some (n - 55)
  else None.

(** The leading hex digits: their number, their value, the rest. *)
Fixpoint hex_span (s : string) (count acc : Z) : Z * Z * string :=
  match s with
  | String a s' => match hex_digit a with
                   | Some d => hex_span s' (count + 1) (16 * acc + d)
                   | None => (count, acc, s)
                   end
  | EmptyString => (count, acc, s)
  end.

(** The groups before and after the ellipsis; [ell] is whether it was seen. *)
Fixpoint ip6_groups (fuel : nat) (s : string) (ell : bool) (before after : list Z) : option (bool * list Z * list Z) :=
  let used := Z.of_nat (List.length before + List.length after) in
  let push gs := if ell then (before, after ++ gs) else (before ++ gs, after) in
  match fuel with
  | O => None
  | S f =>
      if used =? 8 then None
      else
        let '(count, acc, rest) := hex_span s 0 0 in
        if (count =? 0) || (4 <? count) then None
        else if HasPrefix rest "." then
          if (negb ell && negb (used =? 6)) || (6 <? used) then None
          else match parse_ip4 s with
               | Some v => let '(b, a) := push [v / 65536; v mod 65536] in Some (ell, b, a)
               | None => None
               end
        else
          let '(b, a) := push [acc] in
          match rest with
          | EmptyString => Some (ell, b, a)
          | String c1 rest1 =>
              if negb (Ascii.eqb c1 ":") then None
              else match rest1 with
                   | EmptyString => None
                   | String c2 rest2 =>
                       if Ascii.eqb c2 ":" then
                         if ell then None
                         else match rest2 with
                              | EmptyString => Some (true, b, a)
                              | _ => ip6_groups f rest2 true b a
                              end
                       else ip6_groups f rest1 ell b a
                   end
          end
  end.

Definition ip6_number (groups : list Z) : Z := fold_left (fun acc g => acc * 65536 + g) groups 0.

Definition ip6_assemble (r : bool * list Z * list Z) : option Z :=
  let '(ell, before, after) := r in
  let used := (List.length before + List.length after)%nat in
  if ell then
    if (used <? 8)%nat then Some (ip6_number (before ++ replicate (8 - used) 0 ++ after)%list) else None
  else if (used =? 8)%nat then Some (ip6_number before) else None.

Definition parse_ip6_body (s : string) : option Z :=
  if HasPrefix s "::" then
    if String.eqb s "::" then Some 0
    else r ← ip6_groups 9 (s_drop 2 s) true [] []; ip6_assemble r
  else r ← ip6_groups 9 s false [] []; ip6_assemble r.

Definition parse_ip6 (s : string) : option addr :=
  match Cut s "%" with
  | (body, zone, true) =>
      if String.eqb zone "" then None
      else n ← parse_ip6_body body; Some (IP6 n zone)
  | (body, _, false) => n ← parse_ip6_body body; Some (IP6 n "")
  end.

(** [netip.ParseAddr]: the first of dot, colon and percent decides. *)
Fixpoint addr_family (s : string) : option bool :=
  match s with
  | EmptyString => None
  | String a s' =>
      if Ascii.eqb a "." then Some true
      else if Ascii.eqb a ":" then Some false
      else if Ascii.eqb a "%" then None
      else addr_family s'
  end.

Definition ParseAddr (s : string) : option addr :=
  match addr_family s with
  | Some true => IP4 <$> parse_ip4 s
  | Some false => parse_ip6 s
  | None => None
  end.

(** ** Prefixes *)

Record netip_prefix := NetipPrefix { prefix_addr : addr; prefix_bits : Z }.

(** [netip.ParsePrefix]: the last slash separates the address from the bits. *)
Definition ParsePrefix (s : string) : option netip_prefix :=
  '(ip, bits) ← cut_last s "/";
  a ← ParseAddr ip;
  if negb (String.eqb (Zone a) "") then None
  else if (1 <? slen bits) && negb (match bits with String b _ => byte_in 49 57 b | _ => false end) then None
  else match ParseInt64 bits with
       | Some n => if (n <? 0) || (BitLen a <? n) then None else Some (NetipPrefix a n)
       | None => None
       end.

(** [net.ParseCIDR]: the first slash separates the address from the mask. *)
Definition ParseCIDR (s : string) : option netip_prefix :=
  match Cut s "/" with
  | (ip, mask, true) =>
      a ← ParseAddr ip;
      if negb (String.eqb (Zone a) "") then None
      else if negb (String.eqb mask "") && forall_byte is_digit mask && (digits_val mask 0 <=? BitLen a)
      then Some (NetipPrefix a (digits_val mask 0)) else None
  | _ => None
  end.

(** [Prefix.Masked] and [Prefix.Contains] for an IPv4 prefix. *)
Definition mask4 (n bits : Z) : Z := n / 2 ^ (32 - bits) * 2 ^ (32 - bits).

(** [Prefix.Contains] compares within one family; a zone never matches. *)
Definition Contains (p : netip_prefix) (a : addr) : bool :=
  match prefix_addr p, a with
  | IP4 n, IP4 m => n / 2 ^ (32 - prefix_bits p) =? m / 2 ^ (32 - prefix_bits p)
  | IP6 n _, IP6 m z => String.eqb z "" && (n / 2 ^ (128 - prefix_bits p) =? m / 2 ^ (128 - prefix_bits p))
  | _, _ => false
  end.

(** [Addr.String] of an IPv4 address *)
Definition ip4_string (n : Z) : string :=
  Itoa (n / 16777216) +:+ "." +:+ Itoa (n / 65536 mod 256) +:+ "." +:+ Itoa (n / 256 mod 256) +:+ "." +:+ Itoa (n mod 256).

(** ** IPv4 text round trip *)

Lemma Split_byte_no_sep s sep : exists_byte (Ascii.eqb sep) s = false -> Split_byte s sep = [s].
Proof.
  induction s as [|a s IH]; intros H; [done|]. cbn [exists_byte] in H. bools. cbn [Split_byte].
  rewrite IH by done. rewrite Ascii.eqb_sym. by match goal with H : Ascii.eqb _ _ = false |- _ => rewrite H end.
Qed.

Lemma Split_byte_app s sep t :
  exists_byte (Ascii.eqb sep) s = false -> Split_byte (s +:+ String sep t) sep = s :: Split_byte t sep.
Proof.
  induction s as [|a s IH]; intros H; cbn [String.append Split_byte]; [by rewrite Ascii.eqb_refl|].
  cbn [exists_byte] in H. bools. rewrite IH by done. rewrite Ascii.eqb_sym.
  by match goal with H : Ascii.eqb _ _ = false |- _ => rewrite H end.
Qed.

(** The 256 decimal fields, checked one by one. *)
Definition field_ok (z : Z) : bool :=
  bool_decide (ip4_field (Itoa z) = Some z) && negb (exists_byte (Ascii.eqb ".") (Itoa z)) &&
  forall_byte is_digit (Itoa z).

Lemma field_table : forallb field_ok (seqZ 0 256) = true.
Proof. vm_compute. reflexivity. Qed.

Lemma ip4_field_Itoa z :
  0 <= z < 256 ->
  ip4_field (Itoa z) = Some z /\ exists_byte (Ascii.eqb ".") (Itoa z) = false /\ forall_byte is_digit (Itoa z) = true.
Proof.
  intros Hz. pose proof field_table as H. rewrite forallb_forall in H.
  specialize (H z). rewrite <- list_elem_of_In, elem_of_seqZ in H. specialize (H ltac:(lia)).
  unfold field_ok in H. bools. auto.
Qed.

Lemma addr_family_digits s t :
  forall_byte is_digit s = true -> addr_family (s +:+ String "." t) = Some true.
Proof.
  induction s as [|a s IH]; intros H; [done|]. cbn [forall_byte] in H. bools.
  cbn [String.append addr_family]. rewrite IH by done.
  destruct (Ascii.eqb_spec a "."); [done|]. destruct (Ascii.eqb_spec a ":") as [->|]; [done|].
  destruct (Ascii.eqb_spec a "%") as [->|]; done.
Qed.

(** An IPv4 address prints to text that parses to it. *)
Lemma ParseAddr_ip4_string n : 0 <= n < 2 ^ 32 -> ParseAddr (ip4_string n) = Some (IP4 n).
Proof.
  intros Hn. unfold ParseAddr, ip4_string.
  assert (H0 : 0 <= n / 16777216 < 256) by (Z.to_euclidean_division_equations; lia).
  assert (H1 : 0 <= n / 65536 mod 256 < 256) by (apply Z.mod_pos_bound; lia).
  assert (H2 : 0 <= n / 256 mod 256 < 256) by (apply Z.mod_pos_bound; lia).
  assert (H3 : 0 <= n mod 256 < 256) by (apply Z.mod_pos_bound; lia).
  pose proof (ip4_field_Itoa _ H0) as (F0 & S0 & D0). pose proof (ip4_field_Itoa _ H1) as (F1 & S1 & _).
  pose proof (ip4_field_Itoa _ H2) as (F2 & S2 & _). pose proof (ip4_field_Itoa _ H3) as (F3 & S3 & _).
  cbn [String.append]. rewrite addr_family_digits by done. unfold parse_ip4.
  rewrite !Split_byte_app, Split_byte_no_sep by done. rewrite F0, F1, F2, F3. cbn. do 2 f_equal.
  Z.to_euclidean_division_equations. lia.
Qed.
