(* ===== verification/Wireguard.v ===== *)
(** * WireGuard keys and address allocation (internal/wireguard/wireguard.go)

    [NextPeerIP] works on 32-bit unsigned numbers, whose wrap-around is kept.
    The theorems show that an allocated address is a free host address of the
    subnet and that allocation fails only when there is none. *)

From S2P Require Import Prelude GoStrings GoNet Regexp.
From Stdlib Require Import Ascii String.
Local Open Scope Z_scope.

(** ** Keys: base64 text of 32 bytes *)

Definition base64_byte (a : ascii) : bool :=
  byte_in 65 90 a || byte_in 97 122 a || byte_in 48 57 a || (b2z a =? 43) || (b2z a =? 47).

(** [base64.StdEncoding] skips carriage returns and newlines. *)
Fixpoint strip_newlines (s : string) : string :=
  match s with
  | EmptyString => EmptyString
  | String a s' => if (b2z a =? 10) || (b2z a =? 13) then strip_newlines s' else String a (strip_newlines s')
  end.

(** Number of bytes [base64.StdEncoding.DecodeString] decodes, if it succeeds. *)
Definition base64_decoded_len (s : string) : option Z :=
  let t := strip_newlines s in
  let n := slen t in
  let body := if HasSuffix t "==" then TrimSuffix t "==" else TrimSuffix t "=" in
  if (n mod 4 =? 0) && forall_byte base64_byte body then Some (n / 4 * 3 - (n - slen body)) else None.

Definition keySize : Z := 32.

Definition validateKey (name key : string) : result unit :=
  match base64_decoded_len (TrimSpace key) with
  | None => Err (Errorf "%s must be base64 encoded" [AStr name])
  | Some n => check (negb (n =? keySize)) (Errorf "%s must decode to %d bytes" [AStr name; AInt keySize])
  end.

Definition ValidatePublicKey (key : string) : result unit := validateKey "WireGuard public key" key.
Definition ValidatePrivateKey (key : string) : result unit := validateKey "WireGuard private key" key.

(** ** Allocation *)

Definition errParseAddr : error := ErrSentinel "ParseAddr".

(** The loop over the addresses already in use: the set of them and the largest. *)
Fixpoint collect_used (p : netip_prefix) (subnet : string) (existing : list string) (used : list Z) (maxUsed : Z)
    : result (list Z * Z) :=
  match existing with
  | [] => Ok (used, maxUsed)
  | value :: rest =>
      let value := TrimSpace value in
      if String.eqb value "" then collect_used p subnet rest used maxUsed
      else match ParseAddr value with
           | None => Err (ErrWrap "parse existing WireGuard IP %q: %w" [AStr value] errParseAddr)
           | Some a =>
               if negb (Contains p a) then
                 Err (Errorf "existing WireGuard IP %q is outside subnet %s" [AStr value; AStr subnet])
               else match a with
                    | IP4 n => collect_used p subnet rest (n :: used) (if maxUsed <? n then n else maxUsed)
                    | IP6 _ _ => Err (Errorf "existing WireGuard IP %q is outside subnet %s" [AStr value; AStr subnet])
                    end
           end
  end.

(** [for current := lo; current <= hi; current++]: the first address not in use. *)
Fixpoint scan_free (fuel : nat) (used : list Z) (current hi : Z) : option Z :=
  match fuel with
  | O => None
  | S f =>
      if negb (current <=? hi) then None
      else if bool_decide (current ∈ used) then scan_free f used (wrap_u32 (current + 1)) hi
      else Some current
  end.

Definition range_fuel (lo hi : Z) : nat := Z.to_nat (hi - lo + 1).

Definition NextPeerIP (subnet reservedIP : string) (existingIPs : list string) : result string :=
  match ParsePrefix (TrimSpace subnet) with
  | None => Err (ErrWrap "parse WireGuard subnet: %w" [] (ErrSentinel "ParsePrefix"))
  | Some p =>
      match prefix_addr p with
      | IP6 _ _ => Err (ErrSentinel "WireGuard address allocation currently supports IPv4 subnets only")
      | IP4 base =>
          let bits := prefix_bits p in
          if 31 <=? bits then Err (ErrSentinel "WireGuard subnet must have at least two usable host addresses")
          else
            let network := mask4 base bits in
            let start := wrap_u32 (network + 1) in
            let end_ := wrap_u32 (network + wrap_u32 (2 ^ (32 - bits)) - 2) in
            match ParseAddr (TrimSpace reservedIP) with
            | None => Err (ErrWrap "parse reserved WireGuard IP: %w" [] errParseAddr)
            | Some reserved =>
                match reserved with
                | IP6 _ _ => Err (Errorf "reserved WireGuard IP %q is outside subnet %s" [AStr reservedIP; AStr subnet])
                | IP4 r =>
                    if negb (Contains p reserved) then
                      Err (Errorf "reserved WireGuard IP %q is outside subnet %s" [AStr reservedIP; AStr subnet])
                    else if (r =? network) || (r =? wrap_u32 (end_ + 1)) then
                      Err (ErrSentinel "reserved WireGuard IP must be a usable host address")
                    else
                      '(used, maxUsed) ← collect_used p subnet existingIPs [r] r;
                      let next := wrap_u32 (maxUsed + 1) in
                      let next := if next <? start then start else next in
                      match scan_free (range_fuel next end_) used next end_ with
                      | Some n => Ok (ip4_string n)
                      | None =>
                          let hi := if next <=? end_ then next - 1 else end_ in
                          match scan_free (range_fuel start hi) used start hi with
                          | Some n => Ok (ip4_string n)
                          | None => Err (Errorf "no WireGuard addresses available in %s" [AStr subnet])
                          end
                      end
                end
            end
      end
  end.

(** ** Lemmas *)

Lemma scan_free_Some used lo hi n :
  0 <= lo -> hi < 2 ^ 32 - 1 ->
  scan_free (range_fuel lo hi) used lo hi = Some n -> lo <= n <= hi /\ n ∉ used.
Proof.
  intros Hlo Hhi. remember (range_fuel lo hi) as fuel eqn:Hf. unfold range_fuel in Hf.
  revert lo Hlo Hf. induction fuel as [|f IH]; intros lo Hlo Hf; [done|]. cbn [scan_free].
  destruct (Z.leb_spec lo hi); [|done]. cbn [negb].
  case_bool_decide as Hin; [|intros [= <-]; split; [lia|done]].
  intros Hs. rewrite wrap_u32_small in Hs by lia. apply IH in Hs; [|lia|lia]. split; [lia|apply Hs].
Qed.

Lemma scan_free_None used lo hi :
  0 <= lo -> hi < 2 ^ 32 - 1 ->
  scan_free (range_fuel lo hi) used lo hi = None -> forall n, lo <= n <= hi -> n ∈ used.
Proof.
  intros Hlo Hhi. remember (range_fuel lo hi) as fuel eqn:Hf. unfold range_fuel in Hf.
  revert lo Hlo Hf. induction fuel as [|f IH]; intros lo Hlo Hf Hs n Hn; [lia|]. cbn [scan_free] in Hs.
  destruct (Z.leb_spec lo hi); [|lia]. cbn [negb] in Hs.
  case_bool_decide as Hin; [|done]. rewrite wrap_u32_small in Hs by lia.
  destruct (decide (n = lo)) as [->|]; [done|]. apply (IH (lo + 1)); [lia|lia|done|lia].
Qed.

(** What is in use: the addresses the caller passed, parsed. *)
Definition in_use (existing : list string) (n : Z) : Prop :=
  exists value, value ∈ existing /\ ParseAddr (TrimSpace value) = Some (IP4 n).

Lemma collect_used_spec p subnet existing used m used' m' :
  collect_used p subnet existing used m = Ok (used', m') ->
  (forall n, n ∈ used' <-> n ∈ used \/ in_use existing n) /\
  m <= m' /\ (m' = m \/ in_use existing m').
Proof.
  revert used m. induction existing as [|v existing IH]; intros used m H; cbn [collect_used] in H.
  { injection H as <- <-. split; [|split; [lia|by left]]. intros n. split; [by left|].
    intros [?|(v & Hv & _)]; [done|]. by apply elem_of_nil in Hv. }
  assert (Hcons : forall n, in_use (v :: existing) n <-> ParseAddr (TrimSpace v) = Some (IP4 n) \/ in_use existing n).
  { intros n. unfold in_use. setoid_rewrite elem_of_cons. naive_solver. }
  setoid_rewrite Hcons. destruct (String.eqb_spec (TrimSpace v) "") as [Hv|Hv].
  { apply IH in H as (H1 & H2 & H3). rewrite Hv. change (ParseAddr "") with (None : option addr).
    split; [|split; [done|]]; [intros n; rewrite H1|]; naive_solver. }
  destruct (ParseAddr (TrimSpace v)) as [a|]; [|done]. destruct (Contains p a); [|done]. cbn [negb] in H.
  destruct a as [n0|]; [|done]. apply IH in H as (H1 & H2 & H3).
  split; [intros n; rewrite H1, elem_of_cons; naive_solver|].
  destruct (Z.ltb_spec m n0); (split; [lia|]); naive_solver.
Qed.

Lemma digits_val_nonneg s acc : forall_byte is_digit s = true -> 0 <= acc -> 0 <= digits_val s acc.
Proof.
  revert acc. induction s as [|a s IH]; intros acc H Hacc; [done|]. cbn [forall_byte] in H. bools.
  cbn [digits_val]. apply IH; [done|]. unfold is_digit, byte_in, digit_val in *. lia.
Qed.

Lemma ip4_field_range s z : ip4_field s = Some z -> 0 <= z <= 255.
Proof.
  unfold ip4_field. case_match eqn:H; [|done]. intros [= <-]. bools.
  split; [by apply digits_val_nonneg|done].
Qed.

Lemma parse_ip4_range s n : parse_ip4 s = Some n -> 0 <= n < 2 ^ 32.
Proof.
  unfold parse_ip4. destruct (Split_byte s ".") as [|a [|b [|c [|d [|? ?]]]]]; try done.
  destruct (ip4_field a) eqn:Ha, (ip4_field b) eqn:Hb, (ip4_field c) eqn:Hc, (ip4_field d) eqn:Hd; cbn; try done.
  intros [= <-]. apply ip4_field_range in Ha, Hb, Hc, Hd. lia.
Qed.

Lemma ParseAddr_range s n : ParseAddr s = Some (IP4 n) -> 0 <= n < 2 ^ 32.
Proof.
  unfold ParseAddr. destruct (addr_family s) as [[]|]; [| |done].
  - destruct (parse_ip4 s) eqn:Hp; cbn; [|done]. intros [= <-]. by eapply parse_ip4_range.
  - unfold parse_ip6. destruct (Cut s "%") as [[b z] []]; [destruct (String.eqb z "")|]; try done;
      by destruct (parse_ip6_body b).
Qed.

Lemma ParsePrefix_range s p base :
  ParsePrefix s = Some p -> prefix_addr p = IP4 base -> 0 <= base < 2 ^ 32 /\ 0 <= prefix_bits p <= 32.
Proof.
  unfold ParsePrefix. destruct (cut_last s "/") as [[ip bits]|]; cbn; [|done].
  destruct (ParseAddr ip) as [a|] eqn:Ha; cbn; [|done]. repeat case_match; try done.
  intros [= <-] Hb. cbn in *. subst a. bools. apply ParseAddr_range in Ha. cbn in *. lia.
Qed.

(** The network number and the size of its block. *)
Lemma mask4_block base bits :
  0 <= base < 2 ^ 32 -> 0 <= bits <= 30 ->
  let size := 2 ^ (32 - bits) in
  0 <= mask4 base bits /\ mask4 base bits + size <= 2 ^ 32 /\ 4 <= size <= 2 ^ 32 /\
  (size = 2 ^ 32 -> mask4 base bits = 0).
Proof.
  intros Hb Hbits size. unfold mask4. fold size.
  assert (4 <= size <= 2 ^ 32).
  { unfold size. change 4 with (2 ^ 2). split; apply Z.pow_le_mono_r; lia. }
  assert (Hdiv : 2 ^ 32 = 2 ^ bits * size).
  { unfold size. rewrite <- Z.pow_add_r by lia. f_equal. lia. }
  assert (0 <= base / size) by (apply Z.div_pos; lia).
  assert (base / size < 2 ^ bits) by (apply Z.div_lt_upper_bound; lia).
  split; [nia|]. split; [nia|]. split; [done|]. intros E. rewrite Z.div_small by lia. lia.
Qed.

Section next_peer.
Context (subnet reservedIP : string) (existingIPs : list string).

(** The valid inputs: an IPv4 subnet with at least two hosts and a reserved address. *)
Definition allocation_input (network size r : Z) : Prop :=
  exists p base,
    ParsePrefix (TrimSpace subnet) = Some p /\ prefix_addr p = IP4 base /\ prefix_bits p < 31 /\
    network = mask4 base (prefix_bits p) /\ size = 2 ^ (32 - prefix_bits p) /\
    ParseAddr (TrimSpace reservedIP) = Some (IP4 r).

(** The search, once the inputs are parsed: [start .. end_] are the hosts. *)
Lemma search_spec network size used m :
  0 <= network -> network + size <= 2 ^ 32 -> 4 <= size -> (size = 2 ^ 32 -> network = 0) ->
  0 <= m < 2 ^ 32 ->
  let start := wrap_u32 (network + 1) in
  let end_ := wrap_u32 (network + wrap_u32 size - 2) in
  let next := wrap_u32 (m + 1) in
  let next := if next <? start then start else next in
  let hi := if next <=? end_ then next - 1 else end_ in
  start = network + 1 /\ end_ = network + size - 2 /\
  (forall n, scan_free (range_fuel next end_) used next end_ = Some n -> start <= n <= end_ /\ n ∉ used) /\
  (forall n, scan_free (range_fuel start hi) used start hi = Some n -> start <= n <= end_ /\ n ∉ used) /\
  (scan_free (range_fuel next end_) used next end_ = None ->
   scan_free (range_fuel start hi) used start hi = None -> forall n, start <= n <= end_ -> n ∈ used).
Proof.
  intros Hn Hsz H4 Hfull Hm start end_ next0 next hi.
  assert (Hstart : start = network + 1) by (unfold start; apply wrap_u32_small; lia).
  assert (Hend : end_ = network + size - 2).
  { unfold end_. destruct (decide (size = 2 ^ 32)) as [E|].
    - rewrite E, (Hfull E). vm_compute. done.
    - rewrite (wrap_u32_small size), wrap_u32_small by lia. done. }
  assert (0 <= next0) by apply wrap_u32_range.
  assert (Hnext : start <= next) by (unfold next; destruct (Z.ltb_spec next0 start); lia).
  assert (Hhi : hi <= end_ /\ hi < 2 ^ 32 - 1) by (unfold hi; destruct (Z.leb_spec next end_); lia).
  assert (Hcover : forall n, start <= n <= end_ -> next <= n \/ n <= hi).
  { intros n ?. unfold hi. destruct (Z.leb_spec next end_); lia. }
  split; [done|]. split; [done|]. split; [|split].
  - intros n Hs. apply scan_free_Some in Hs as [? ?]; [|lia|lia]. split; [lia|done].
  - intros n Hs. apply scan_free_Some in Hs as [? ?]; [|lia|lia]. split; [lia|done].
  - intros Hs1 Hs2 n Hnr. destruct (Hcover n Hnr).
    + eapply scan_free_None; [| |exact Hs1|]; lia.
    + eapply scan_free_None; [| |exact Hs2|]; lia.
Qed.

(** What [NextPeerIP] returns, once its guards are passed. *)
Lemma NextPeerIP_inv res :
  NextPeerIP subnet reservedIP existingIPs = res ->
  (exists s, res = Ok s) \/ res = Err (Errorf "no WireGuard addresses available in %s" [AStr subnet]) ->
  exists network size r used m,
    allocation_input network size r /\ 0 <= network /\ network + size <= 2 ^ 32 /\ 4 <= size /\
    (size = 2 ^ 32 -> network = 0) /\ 0 <= m < 2 ^ 32 /\
    (forall n, n ∈ used <-> n = r \/ in_use existingIPs n) /\
    let start := wrap_u32 (network + 1) in
    let end_ := wrap_u32 (network + wrap_u32 size - 2) in
    let next := wrap_u32 (m + 1) in
    let next := if next <? start then start else next in
    let hi := if next <=? end_ then next - 1 else end_ in
    res = match scan_free (range_fuel next end_) used next end_ with
          | Some n => Ok (ip4_string n)
          | None => match scan_free (range_fuel start hi) used start hi with
                    | Some n => Ok (ip4_string n)
                    | None => Err (Errorf "no WireGuard addresses available in %s" [AStr subnet])
                    end
          end.
Proof.
  intros Hres Hok. unfold NextPeerIP in Hres.
  destruct (ParsePrefix (TrimSpace subnet)) as [p|] eqn:Hp; [|destruct Hok as [[? ?]|?]; congruence].
  destruct (prefix_addr p) as [base|] eqn:Hbase; [|destruct Hok as [[? ?]|?]; congruence].
  destruct (Z.leb_spec 31 (prefix_bits p)) as [|Hbits]; [destruct Hok as [[? ?]|?]; congruence|].
  destruct (ParseAddr (TrimSpace reservedIP)) as [a|] eqn:Ha; [|destruct Hok as [[? ?]|?]; congruence].
  destruct a as [r|]; [|destruct Hok as [[? ?]|?]; congruence].
  destruct (Contains p (IP4 r)); [|destruct Hok as [[? ?]|?]; cbn in Hres; congruence]. cbn [negb] in Hres.
  match type of Hres with context [if ?b then _ else _] => destruct b end; [destruct Hok as [[? ?]|?]; congruence|].
  destruct (collect_used p subnet existingIPs [r] r) as [[used m]|e] eqn:Hc.
  2:{ cbn in Hres. subst res. destruct Hok as [[? ?]|Hok]; [done|]. exfalso. injection Hok as ->. clear -Hc.
      revert Hc. generalize [r] as u. generalize r as m. induction existingIPs as [|v l IH]; intros m u; cbn [collect_used]; [done|].
      repeat case_match; try done; apply IH. }
  destruct (ParsePrefix_range _ _ _ Hp Hbase) as [Hb Hbs].
  destruct (mask4_block base (prefix_bits p) Hb ltac:(lia)) as (Hn & Hsz & H4 & Hfull).
  apply collect_used_spec in Hc as (Hu & Hm & Hm').
  exists (mask4 base (prefix_bits p)), (2 ^ (32 - prefix_bits p)), r, used, m.
  split; [by exists p, base|]. do 4 (split; [lia || done|]). split; [|split].
  - pose proof (ParseAddr_range _ _ Ha). destruct Hm' as [->|(v & _ & Hv)]; [done|]. by eapply ParseAddr_range.
  - intros n. rewrite Hu. by rewrite list_elem_of_singleton.
  - symmetry. exact Hres.
Qed.
End next_peer.

(** ** Properties *)

(** C40: an allocated peer address is a host address of the subnet (neither the
    network nor the broadcast address), is not the reserved hub address and is
    not one of the addresses in use; its text parses back to it. *)
Theorem NextPeerIP_fresh subnet reservedIP existingIPs s :
  NextPeerIP subnet reservedIP existingIPs = Ok s ->
  exists network size r n,
    allocation_input subnet reservedIP network size r /\
    s = ip4_string n /\ ParseAddr s = Some (IP4 n) /\
    network < n < network + size - 1 /\ n <> r /\ ~ in_use existingIPs n.
Proof.
  intros H. apply NextPeerIP_inv in H as (network & size & r & used & m & Hin & Hn & Hsz & H4 & Hf & Hm & Hu & Heq);
    [|by left; eexists].
  destruct (search_spec network size used m Hn Hsz H4 Hf Hm) as (Es & Ee & Hs1 & Hs2 & _).
  assert (exists n, s = ip4_string n /\ network < n < network + size - 1 /\ n ∉ used) as (n & -> & Hr & Hfree).
  { cbv zeta in Heq. cbv zeta in Es, Ee, Hs1, Hs2.
    match type of Heq with _ = match ?x with _ => _ end => destruct x as [n1|] eqn:H1 end.
    { injection Heq as ->. destruct (Hs1 n1 eq_refl) as [? ?]. exists n1. split; [done|]. split; [lia|done]. }
    match type of Heq with _ = match ?x with _ => _ end => destruct x as [n1|] eqn:H2 end; [|done].
    injection Heq as ->. destruct (Hs2 n1 eq_refl) as [? ?]. exists n1. split; [done|]. split; [lia|done]. }
  exists network, size, r, n. rewrite Hu in Hfree. split; [done|]. split; [done|].
  split; [apply ParseAddr_ip4_string; lia|]. split; [done|]. split; tauto.
Qed.

Lemma NextPeerIP_fresh_witness :
  exists network size r n,
    allocation_input "10.8.0.0/24" "10.8.0.1" network size r /\
    "10.8.0.3" = ip4_string n /\ ParseAddr "10.8.0.3" = Some (IP4 n) /\
    network < n < network + size - 1 /\ n <> r /\ ~ in_use ["10.8.0.2"] n.
Proof. apply (NextPeerIP_fresh "10.8.0.0/24" "10.8.0.1" ["10.8.0.2"] "10.8.0.3"). vm_compute. reflexivity. Defined.

(** Allocation reports that the subnet is full only when every host address
    of it is the reserved address or in use (also when the largest address in
    use is the last 32-bit number). *)
Theorem NextPeerIP_full subnet reservedIP existingIPs :
  NextPeerIP subnet reservedIP existingIPs = Err (Errorf "no WireGuard addresses available in %s" [AStr subnet]) ->
  exists network size r,
    allocation_input subnet reservedIP network size r /\
    forall n, network < n < network + size - 1 -> n = r \/ in_use existingIPs n.
Proof.
  intros H. apply NextPeerIP_inv in H as (network & size & r & used & m & Hin & Hn & Hsz & H4 & Hf & Hm & Hu & Heq);
    [|by right].
  destruct (search_spec network size used m Hn Hsz H4 Hf Hm) as (Es & Ee & _ & _ & Hall).
  exists network, size, r. split; [done|]. intros n Hr. apply Hu.
  cbv zeta in Heq, Hall, Es, Ee.
  match type of Heq with _ = match ?x with _ => _ end => destruct x eqn:H1 end; [done|].
  match type of Heq with _ = match ?x with _ => _ end => destruct x eqn:H2 end; [done|].
  apply Hall; [done|done|lia].
Qed.

Lemma NextPeerIP_full_witness :
  exists network size r,
    allocation_input "10.8.0.0/30" "10.8.0.1" network size r /\
    forall n, network < n < network + size - 1 -> n = r \/ in_use ["10.8.0.2"] n.
Proof. apply (NextPeerIP_full "10.8.0.0/30" "10.8.0.1" ["10.8.0.2"]). vm_compute. reflexivity. Defined.
