(* ===== verification/Appconfig.v ===== *)
(** * Application configuration (internal/appconfig)

    The records, [Normalize], [Validate] and the canonical JSON of an
    application's desired state.  The server stores the JSON text of a
    normalized configuration and later compares bytes, so [JSON] and [FromJSON]
    are modelled on bytes.  Kubernetes libraries (quantities, DNS name checks)
    are parameters: the class [AppEnv]. *)

From S2P Require Import Prelude GoStrings Regexp GoJson GoNet.
From Stdlib Require Import Ascii String.
Local Open Scope Z_scope.

(** What the package takes from outside: k8s.io/apimachinery's quantities and
    name validation, and the order in which [range] visits a map, which Go
    leaves unspecified. *)
Class AppEnv := {
  quantity : Type;
  ParseQuantity : string -> option quantity;
  Quantity_Sign : quantity -> Z;
  Quantity_Cmp : quantity -> quantity -> Z;
  minimumPostgresStorage : quantity;
  IsDNS1123Subdomain : string -> list string;
  IsDNS1035Label : string -> list string;
  range_map : gmap string string -> list (string * string);
  minimumPostgresStorage_parses : ParseQuantity "1Gi" = Some minimumPostgresStorage;
  range_map_perm : forall m, range_map m ≡ₚ map_to_list m
}.

(** ** Constants *)
Definition DefaultPlacementArch : string := "linux/arm64".
Definition DefaultDeployStrategy : string := "rolling".
Definition DeployStrategyRecreate : string := "recreate".
Definition DefaultStateMode : string := "stateless".
Definition DefaultResilienceMode : string := "basic".
Definition ResilienceBasic : string := "basic".
Definition ResilienceResilient : string := "resilient".
Definition ResilienceFallback : string := "fallback".
Definition ResiliencePinned : string := "pinned".
Definition DefaultPostgresInstances : Z := 3.
Definition DefaultPostgresConnectionEnv : string := "DATABASE_URL".
Definition DefaultPostgresStorageClass : string := "local-path".
Definition DefaultPostgresSyncReplicas : Z := 1.
Definition PostgresConnectionModeManaged : string := "managed".
Definition PostgresConnectionModeExternal : string := "external".
Definition PostgresDataDurabilityRequired : string := "required".
Definition PostgresDataDurabilityPreferred : string := "preferred".
Definition PostgresRetentionPolicyRetain : string := "retain".
Definition managedPostgresEnvs : list string := ["PGSSLMODE"; "PGCHANNELBINDING"; "PGREQUIREAUTH"].
Definition reservedPostgresDatabases : list string := ["postgres"; "template0"; "template1"].
Definition reservedPostgresOwners : list string := ["cnpg_pooler_pgbouncer"; "postgres"; "streaming_replica"].

(** ** Records

    A nil slice that is printed differently from an empty one ([Ports], which
    has no [omitempty]) is [None]; a nil map in a slice is [None] too. *)
Record ServiceConfig := { Service_Port : Z; Service_HealthPath : string }.
Record MetricsConfig := { Metrics_Port : Z; Metrics_Path : string }.
Record RoutingConfig := { Routing_Domain : string; Routing_RequireTLS : bool; Routing_EnableProxyRetries : option bool }.
Record DeployConfig := { Deploy_Replicas : Z; Deploy_Strategy : string }.
Record PlacementConfig := {
  Placement_Arch : string; Placement_Spread : bool;
  Placement_Prefer : list (option (gmap string string));
  Placement_Fallback : list (option (gmap string string))
}.
Record StorageMount := { Mount_ExistingClaim : string; Mount_MountPath : string }.
Record StorageConfig := {
  Storage_ExistingClaim : string; Storage_MountPath : string; Storage_AdditionalMounts : list StorageMount
}.
Record StateConfig := { State_Mode : string }.
Record ResilienceConfig := { Resilience_Mode : string; Resilience_AllowUnsafe : bool }.
Record PostgresStorageConfig := { PgStorage_Size : string; PgStorage_StorageClass : string }.
Record PostgresSynchronousConfig := { PgSync_Replicas : Z; PgSync_DataDurability : string }.
Record PostgresConfig := {
  Pg_Instances : Z; Pg_Image : string; Pg_Database : string; Pg_Owner : string;
  Pg_ConnectionEnv : string; Pg_ConnectionMode : string;
  Pg_Storage : PostgresStorageConfig; Pg_Synchronous : PostgresSynchronousConfig;
  Pg_RetentionPolicy : string
}.
Record DatabaseConfig := { Database_Postgres : option PostgresConfig }.
Record ResourceQuantities := { Res_CPU : string; Res_Memory : string; Res_EphemeralStorage : string }.
Record HostingResources := { Res_Requests : ResourceQuantities; Res_Limits : ResourceQuantities }.
Record HostingEgressRule := { Egress_CIDR : string; Egress_Ports : option (list Z) }.
Record HostingNetwork := { Network_AllowDNS : option bool; Network_Egress : list HostingEgressRule }.
Record HostingConfig := {
  Hosting_Version : string; Hosting_Resources : HostingResources; Hosting_MaxReplicas : Z;
  Hosting_Network : HostingNetwork; Hosting_ReadOnlyRootFilesystem : bool
}.
Record Config := {
  Cfg_ImagePullCredential : string; Cfg_EnvironmentRevision : string; Cfg_Name : string; Cfg_Image : string;
  Cfg_Service : ServiceConfig; Cfg_Metrics : option MetricsConfig; Cfg_Routing : RoutingConfig;
  Cfg_Deploy : DeployConfig; Cfg_Placement : PlacementConfig; Cfg_Storage : option StorageConfig;
  Cfg_Secrets : list string; Cfg_State : StateConfig; Cfg_Resilience : ResilienceConfig;
  Cfg_Database : DatabaseConfig; Cfg_Hosting : option HostingConfig
}.

Definition ValidAppName (name : string) : bool := (slen name <=? 63) && re_match appNamePattern name.

(** [RoutingConfig.ProxyRetriesEnabled], [HostingNetwork.DNSAllowed] *)
Definition ProxyRetriesEnabled (c : RoutingConfig) : bool := default true (Routing_EnableProxyRetries c).
Definition DNSAllowed (n : HostingNetwork) : bool := default true (Network_AllowDNS n).

Definition Mounts (s : StorageConfig) : list StorageMount :=
  {| Mount_ExistingClaim := Storage_ExistingClaim s; Mount_MountPath := Storage_MountPath s |}
  :: Storage_AdditionalMounts s.

(** ** Normalize *)

Section normalize.
Context `{AppEnv}.

(** [normalizePlacementSelectors]: entries are visited in the order of [range];
    a later entry whose trimmed key was already written overwrites it. *)
Definition clean_entry (clean : gmap string string) (kv : string * string) : gmap string string :=
  let key := TrimSpace kv.1 in
  if String.eqb key "" then clean else <[key := TrimSpace kv.2]> clean.

Definition clean_selector (selector : option (gmap string string)) : option (gmap string string) :=
  Some (fold_left clean_entry (range_map (default ∅ selector)) ∅).

Definition normalizePlacementSelectors (selectors : list (option (gmap string string)))
    : list (option (gmap string string)) := clean_selector <$> selectors.

Definition normalizeStringList (values : list string) : list string := TrimSpace <$> values.

Definition or_default (s d : string) : string := if String.eqb s "" then d else s.
Definition or_default_int (z d : Z) : Z := if z =? 0 then d else z.

(** [DatabaseConfig.normalize] *)
Definition Database_normalize (c : DatabaseConfig) : DatabaseConfig :=
  {| Database_Postgres :=
       match Database_Postgres c with
       | None => None
       | Some p => Some {|
           Pg_Instances := or_default_int (Pg_Instances p) DefaultPostgresInstances;
           Pg_Image := TrimSpace (Pg_Image p);
           Pg_Database := TrimSpace (Pg_Database p);
           Pg_Owner := TrimSpace (Pg_Owner p);
           Pg_ConnectionEnv := or_default (TrimSpace (Pg_ConnectionEnv p)) DefaultPostgresConnectionEnv;
           Pg_ConnectionMode := or_default (TrimSpace (Pg_ConnectionMode p)) PostgresConnectionModeManaged;
           Pg_Storage := {|
             PgStorage_Size := TrimSpace (PgStorage_Size (Pg_Storage p));
             PgStorage_StorageClass :=
               or_default (TrimSpace (PgStorage_StorageClass (Pg_Storage p))) DefaultPostgresStorageClass |};
           Pg_Synchronous := {|
             PgSync_Replicas := or_default_int (PgSync_Replicas (Pg_Synchronous p)) DefaultPostgresSyncReplicas;
             PgSync_DataDurability :=
               or_default (TrimSpace (PgSync_DataDurability (Pg_Synchronous p))) PostgresDataDurabilityRequired |};
           Pg_RetentionPolicy := or_default (TrimSpace (Pg_RetentionPolicy p)) PostgresRetentionPolicyRetain |}
       end |}.

Definition trim_mount (m : StorageMount) : StorageMount :=
  {| Mount_ExistingClaim := TrimSpace (Mount_ExistingClaim m); Mount_MountPath := TrimSpace (Mount_MountPath m) |}.

(** [Config.Normalize] *)
Definition Normalize (c : Config) : Config :=
  let storage := (fun s => {|
      Storage_ExistingClaim := TrimSpace (Storage_ExistingClaim s);
      Storage_MountPath := TrimSpace (Storage_MountPath s);
      Storage_AdditionalMounts := trim_mount <$> Storage_AdditionalMounts s |}) <$> Cfg_Storage c in
  let strategy := TrimSpace (Deploy_Strategy (Cfg_Deploy c)) in
  {| Cfg_ImagePullCredential := Cfg_ImagePullCredential c;
     Cfg_EnvironmentRevision := TrimSpace (Cfg_EnvironmentRevision c);
     Cfg_Name := TrimSpace (Cfg_Name c);
     Cfg_Image := TrimSpace (Cfg_Image c);
     Cfg_Service := {| Service_Port := Service_Port (Cfg_Service c);
                       Service_HealthPath := TrimSpace (Service_HealthPath (Cfg_Service c)) |};
     Cfg_Metrics := (fun m => {| Metrics_Port := Metrics_Port m; Metrics_Path := TrimSpace (Metrics_Path m) |})
                    <$> Cfg_Metrics c;
     Cfg_Routing := {| Routing_Domain := TrimSpace (Routing_Domain (Cfg_Routing c));
                       Routing_RequireTLS := Routing_RequireTLS (Cfg_Routing c);
                       Routing_EnableProxyRetries := Routing_EnableProxyRetries (Cfg_Routing c) |};
     Cfg_Deploy := {| Deploy_Replicas := Deploy_Replicas (Cfg_Deploy c);
                      Deploy_Strategy := or_default strategy
                        (match storage with Some _ => DeployStrategyRecreate | None => DefaultDeployStrategy end) |};
     Cfg_Placement := {| Placement_Arch := or_default (TrimSpace (Placement_Arch (Cfg_Placement c))) DefaultPlacementArch;
                         Placement_Spread := Placement_Spread (Cfg_Placement c);
                         Placement_Prefer := normalizePlacementSelectors (Placement_Prefer (Cfg_Placement c));
                         Placement_Fallback := normalizePlacementSelectors (Placement_Fallback (Cfg_Placement c)) |};
     Cfg_Storage := storage;
     Cfg_Secrets := normalizeStringList (Cfg_Secrets c);
     Cfg_State := {| State_Mode := or_default (TrimSpace (State_Mode (Cfg_State c))) DefaultStateMode |};
     Cfg_Resilience := {| Resilience_Mode := or_default (TrimSpace (Resilience_Mode (Cfg_Resilience c))) DefaultResilienceMode;
                          Resilience_AllowUnsafe := Resilience_AllowUnsafe (Cfg_Resilience c) |};
     Cfg_Database := Database_normalize (Cfg_Database c);
     Cfg_Hosting := Cfg_Hosting c |}.
End normalize.

(** ** path *)

(** The elements of a cleaned path, last first: empty and [.] elements are
    dropped, [..] removes the previous element or, at the start of a relative
    path, stays. *)
Fixpoint clean_elems (rooted : bool) (elems out : list string) : list string :=
  match elems with
  | [] => out
  | e :: rest =>
      clean_elems rooted rest
        (if String.eqb e "" || String.eqb e "." then out
         else if String.eqb e ".." then
           match out with
           | [] => if rooted then [] else [".."]
           | p :: out' => if String.eqb p ".." then ".." :: out else out'
           end
         else e :: out)
  end.

Fixpoint join_slash (l : list string) : string :=
  match l with
  | [] => ""
  | [e] => e
  | e :: l' => e +:+ "/" +:+ join_slash l'
  end.

Definition path_IsAbs (p : string) : bool := HasPrefix p "/".

Definition path_Clean (p : string) : string :=
  if String.eqb p "" then "."
  else
    let rooted := path_IsAbs p in
    let body := join_slash (rev (clean_elems rooted (Split_byte p "/") [])) in
    if rooted then "/" +:+ body else if String.eqb body "" then "." else body.

(** ** Validate *)

Section validate.
Context `{AppEnv}.

Definition ValidRevision (s : string) : bool := re_match revisionPattern s.

Definition ValidateSecretName (name : string) : result unit :=
  let name := TrimSpace name in
  _ ← check (String.eqb name "") (Errorf "secret name cannot be empty" []);
  check (negb (re_match secretNamePattern name))
    (Errorf "secret name %q must be a valid environment variable name" [AStr name]).

Definition validateStorageMount (label : string) (mount : StorageMount) : result unit :=
  _ ← check (String.eqb (Mount_ExistingClaim mount) "") (Errorf "%s.existingClaim is required" [AStr label]);
  _ ← check (negb (bool_decide (IsDNS1123Subdomain (Mount_ExistingClaim mount) = [])))
        (Errorf "%s.existingClaim must be a DNS-safe PersistentVolumeClaim name: %s" [AStr label]);
  _ ← check (String.eqb (Mount_MountPath mount) "") (Errorf "%s.mountPath is required" [AStr label]);
  check (negb (path_IsAbs (Mount_MountPath mount)) ||
         negb (String.eqb (path_Clean (Mount_MountPath mount)) (Mount_MountPath mount)) ||
         String.eqb (Mount_MountPath mount) "/")
    (Errorf "%s.mountPath must be a clean absolute path other than /" [AStr label]).

Definition mountPathsOverlap (left right : string) : bool :=
  String.eqb left right || HasPrefix left (right +:+ "/") || HasPrefix right (left +:+ "/").

Definition mount_label (index : Z) : string :=
  if 0 <? index then "storage.additionalMounts[" +:+ Itoa (index - 1) +:+ "]" else "storage".

(** The loop of [validateStorage]: [seen] are the mounts before [index], in order. *)
Fixpoint validate_mounts (index : Z) (seen rest : list StorageMount) : result unit :=
  match rest with
  | [] => Ok tt
  | mount :: rest' =>
      let label := mount_label index in
      _ ← validateStorageMount label mount;
      _ ← check (existsb (fun m => String.eqb (Mount_ExistingClaim m) (Mount_ExistingClaim mount)) seen)
            (Errorf "%s.existingClaim duplicates retained claim %q" [AStr label; AStr (Mount_ExistingClaim mount)]);
      _ ← check (existsb (fun m => mountPathsOverlap (Mount_MountPath mount) (Mount_MountPath m)) seen)
            (Errorf "%s.mountPath overlaps retained mount path %q"
               [AStr label; AStr (from_option Mount_MountPath "" (List.find (fun m => mountPathsOverlap (Mount_MountPath mount) (Mount_MountPath m)) seen))]);
      validate_mounts (index + 1) (seen ++ [mount])%list rest'
  end.

(** [selector["node-id"]] of the first preferred selector *)
Definition first_node_id (l : list (option (gmap string string))) : string :=
  match l with
  | Some m :: _ => default "" (m !! "node-id")
  | _ => ""
  end.

Definition validateStorage (c : Config) : result unit :=
  match Cfg_Storage c with
  | None => Ok tt
  | Some s =>
      _ ← check (7 <? Z.of_nat (List.length (Storage_AdditionalMounts s)))
            (Errorf "storage supports at most 8 retained mounts" []);
      _ ← validate_mounts 0 [] (Mounts s);
      _ ← check (negb (String.eqb (State_Mode (Cfg_State c)) "stateful")) (Errorf "storage requires state.mode stateful" []);
      _ ← check (negb (String.eqb (Resilience_Mode (Cfg_Resilience c)) ResiliencePinned))
            (Errorf "storage requires resilience.mode pinned" []);
      _ ← check (negb (Deploy_Replicas (Cfg_Deploy c) =? 1)) (Errorf "storage requires deploy.replicas 1" []);
      _ ← check (negb (String.eqb (Deploy_Strategy (Cfg_Deploy c)) DeployStrategyRecreate))
            (Errorf "storage requires deploy.strategy recreate" []);
      check (negb (Z.of_nat (List.length (Placement_Prefer (Cfg_Placement c))) =? 1)
             || blank (first_node_id (Placement_Prefer (Cfg_Placement c))))
        (Errorf "storage requires placement.prefer with an exact node-id selector" [])
  end.

(** The loop over [c.Secrets]; the result is [seenSecrets]. *)
Fixpoint validate_secrets (i : Z) (seen rest : list string) : result (list string) :=
  match rest with
  | [] => Ok seen
  | secret :: rest' =>
      match ValidateSecretName secret with
      | Err e => Err (ErrWrap "secrets[%d]: %w" [AInt i] e)
      | Ok _ =>
          if bool_decide (secret ∈ seen) then
            Err (Errorf "secrets[%d]: duplicate secret name %q" [AInt i; AStr secret])
          else validate_secrets (i + 1) (secret :: seen) rest'
      end
  end.

(** *** hosting.go *)

Definition parse_positive (prefix name value : string) : result quantity :=
  _ ← check (blank value) (Errorf "%s.%s is required" [AStr prefix; AStr name]);
  match ParseQuantity value with
  | None => Err (ErrWrap "%s.%s is invalid: %w" [AStr prefix; AStr name] (ErrSentinel "ParseQuantity"))
  | Some q =>
      _ ← check (Quantity_Sign q <=? 0) (Errorf "%s.%s must be greater than zero" [AStr prefix; AStr name]);
      Ok q
  end.

(** cpu, memory and ephemeral storage, in this order *)
Definition parseResourceQuantities (values : ResourceQuantities) (prefix : string) : result (quantity * quantity * quantity) :=
  cpu ← parse_positive prefix "cpu" (Res_CPU values);
  memory ← parse_positive prefix "memory" (Res_Memory values);
  storage ← parse_positive prefix "ephemeralStorage" (Res_EphemeralStorage values);
  Ok (cpu, memory, storage).

Definition limit_covers (name : string) (limit request : quantity) : result unit :=
  check (Quantity_Cmp limit request <? 0) (Errorf "hosting.resources.limits.%s must be at least the request" [AStr name]).

Fixpoint validate_ports (index portIndex : Z) (ports : list Z) : result unit :=
  match ports with
  | [] => Ok tt
  | port :: rest =>
      _ ← check ((port <? 1) || (65535 <? port))
            (Errorf "hosting.network.egress[%d].ports[%d] must be between 1 and 65535" [AInt index; AInt portIndex]);
      validate_ports index (portIndex + 1) rest
  end.

Fixpoint validate_egress (index : Z) (rules : list HostingEgressRule) : result unit :=
  match rules with
  | [] => Ok tt
  | rule :: rest =>
      _ ← check (bool_decide (ParseCIDR (TrimSpace (Egress_CIDR rule)) = None))
            (ErrWrap "hosting.network.egress[%d].cidr is invalid: %w" [AInt index] (ErrSentinel "ParseCIDR"));
      let ports := default [] (Egress_Ports rule) in
      _ ← check (bool_decide (ports = [])) (Errorf "hosting.network.egress[%d].ports must not be empty" [AInt index]);
      _ ← validate_ports index 0 ports;
      validate_egress (index + 1) rest
  end.

(** [HostingConfig.Validate] *)
Definition Hosting_Validate (hosting : option HostingConfig) (replicas : Z) : result unit :=
  match hosting with
  | None => Ok tt
  | Some c =>
      _ ← check (negb (String.eqb (Hosting_Version c) "v1")) (Errorf "hosting.version must be v1" []);
      _ ← check ((Hosting_MaxReplicas c <? 1) || (1000 <? Hosting_MaxReplicas c))
            (Errorf "hosting.maxReplicas must be between 1 and 1000" []);
      _ ← check (Hosting_MaxReplicas c <? replicas)
            (Errorf "deploy.replicas %d exceeds hosting.maxReplicas %d" [AInt replicas; AInt (Hosting_MaxReplicas c)]);
      '(rc, rm, rs) ← parseResourceQuantities (Res_Requests (Hosting_Resources c)) "hosting.resources.requests";
      '(lc, lm, ls) ← parseResourceQuantities (Res_Limits (Hosting_Resources c)) "hosting.resources.limits";
      _ ← limit_covers "cpu" lc rc;
      _ ← limit_covers "memory" lm rm;
      _ ← limit_covers "ephemeralStorage" ls rs;
      validate_egress 0 (Network_Egress (Hosting_Network c))
  end.
End validate.

(** *** postgres.go *)

Definition digit_class : list (Z * Z) := [(48, 57)].

(** [postgresImagePattern]: a reference without at sign or white space, a colon,
    the major version (captured), minor versions, an optional suffix and the digest. *)
Definition postgresImagePattern : regex :=
  RSeq (RPlus (RClass (CClass true [(64, 64); (9, 10); (12, 13); (32, 32)])))
  (RSeq (RLit ":")
  (RSeq (RPlus (cls digit_class))
  (RSeq (RStar (RSeq (RLit ".") (RPlus (cls digit_class))))
  (RSeq (ROpt (RSeq (cls [(65, 90); (97, 122); (95, 95); (45, 45)])
                    (RStar (cls [(65, 90); (97, 122); (48, 57); (95, 95); (46, 46); (45, 45)]))))
  (RSeq (RLit "@sha256:") (RRep 64 (cls hex_lower))))))).

(** [^[a-z_][a-z0-9_]{0,62}$] *)
Definition postgresIdentifierPattern : regex :=
  RSeq (cls [(97, 122); (95, 95)]) (RUpTo 62 (cls [(97, 122); (48, 57); (95, 95)])).

Fixpoint leading_digits (s : string) : string :=
  match s with
  | String a s' => if is_digit a then String a (leading_digits s') else ""
  | EmptyString => ""
  end.

(** The capture group: neither the tag nor the part before it has an at sign and
    the tag has no colon, so the tag runs from the last colon before the first
    at sign, and the group is its leading digits. *)
Definition image_major_text (image : string) : string :=
  let '(reference, _, _) := Cut image "@" in
  match cut_last reference ":" with
  | Some (_, tag) => leading_digits tag
  | None => ""
  end.

Definition PostgresImageMajor (image : string) : result Z :=
  if negb (re_match postgresImagePattern image) then
    Err (Errorf "must include a PostgreSQL version tag and immutable sha256 digest" [])
  else
    match ParseInt64 (image_major_text image) with
    | Some major =>
        if (major <? 14) || (18 <? major) then
          Err (Errorf "PostgreSQL major version must be between 14 and 18 for CloudNativePG 1.30" [])
        else Ok major
    | None => Err (Errorf "PostgreSQL major version must be between 14 and 18 for CloudNativePG 1.30" [])
    end.

Section validate_postgres.
Context `{AppEnv}.

(** The first reserved name that is a secret, in the order of the source. *)
Definition first_reserved (names secrets : list string) : option string :=
  List.find (fun name => bool_decide (name ∈ secrets)) names.

Definition validatePostgresConnection (postgres : PostgresConfig) (secrets : list string) : result unit :=
  let env := Pg_ConnectionEnv postgres in
  let is_secret := bool_decide (env ∈ secrets) in
  if String.eqb (Pg_ConnectionMode postgres) PostgresConnectionModeManaged then
    _ ← check (bool_decide (env ∈ managedPostgresEnvs))
          (Errorf "database.postgres.connectionEnv %q is reserved for managed PostgreSQL transport security" [AStr env]);
    _ ← check is_secret
          (Errorf "database.postgres.connectionEnv %q must not also appear in secrets for managed mode" [AStr env]);
    match first_reserved managedPostgresEnvs secrets with
    | Some name => Err (Errorf "secret %q is reserved for managed PostgreSQL transport security" [AStr name])
    | None => Ok tt
    end
  else if String.eqb (Pg_ConnectionMode postgres) PostgresConnectionModeExternal then
    check (negb is_secret)
      (Errorf "database.postgres.connectionEnv %q must appear in secrets for external mode" [AStr env])
  else Err (Errorf "database.postgres.connectionMode must be one of external, managed" []).

Definition validatePostgresStorage (storage : PostgresStorageConfig) : result unit :=
  match ParseQuantity (PgStorage_Size storage) with
  | None => Err (Errorf "database.postgres.storage.size must be a valid positive Kubernetes quantity" [])
  | Some q =>
      _ ← check (Quantity_Sign q <=? 0)
            (Errorf "database.postgres.storage.size must be a valid positive Kubernetes quantity" []);
      _ ← check (Quantity_Cmp q minimumPostgresStorage <? 0) (Errorf "database.postgres.storage.size must be at least 1Gi" []);
      _ ← check (String.eqb (PgStorage_StorageClass storage) "")
            (Errorf "database.postgres.storage.storageClass is required" []);
      check (negb (bool_decide (IsDNS1123Subdomain (PgStorage_StorageClass storage) = [])))
        (Errorf "database.postgres.storage.storageClass must be a DNS-safe name" [])
  end.

(** [DatabaseConfig.validate] *)
Definition Database_validate (c : DatabaseConfig) (appName placementArch : string) (secrets : list string) : result unit :=
  match Database_Postgres c with
  | None => Ok tt
  | Some postgres =>
      let generated := appName +:+ "-db" in
      _ ← check (50 <? slen generated)
            (Errorf "database.postgres generated name %q must not exceed CloudNativePG's 50-character limit" [AStr generated]);
      _ ← check (negb (bool_decide (IsDNS1035Label generated = [])))
            (Errorf "database.postgres generated name %q must start with a lowercase letter and be a valid DNS label" [AStr generated]);
      _ ← check (negb (bool_decide (placementArch ∈ ["linux/amd64"; "linux/arm64"])))
            (Errorf "database.postgres requires placement.arch to be one of linux/amd64, linux/arm64" []);
      _ ← check ((Pg_Instances postgres <? 3) || (9 <? Pg_Instances postgres))
            (Errorf "database.postgres.instances must be between 3 and 9" []);
      _ ← match PostgresImageMajor (Pg_Image postgres) with
          | Ok _ => Ok tt
          | Err e => Err (ErrWrap "database.postgres.image %w" [] e)
          end;
      _ ← check (negb (re_match postgresIdentifierPattern (Pg_Database postgres)))
            (Errorf "database.postgres.database must be a valid unquoted PostgreSQL identifier" []);
      _ ← check (bool_decide (Pg_Database postgres ∈ reservedPostgresDatabases))
            (Errorf "database.postgres.database %q is reserved by PostgreSQL" [AStr (Pg_Database postgres)]);
      _ ← check (negb (re_match postgresIdentifierPattern (Pg_Owner postgres)))
            (Errorf "database.postgres.owner must be a valid unquoted PostgreSQL identifier" []);
      _ ← check (bool_decide (Pg_Owner postgres ∈ reservedPostgresOwners) ||
                 HasPrefix (Pg_Owner postgres) "pg_" || HasPrefix (Pg_Owner postgres) "cnpg_")
            (Errorf "database.postgres.owner %q is reserved and cannot be used as the application owner" [AStr (Pg_Owner postgres)]);
      _ ← match ValidateSecretName (Pg_ConnectionEnv postgres) with
          | Ok _ => Ok tt
          | Err e => Err (ErrWrap "database.postgres.connectionEnv: %w" [] e)
          end;
      _ ← validatePostgresConnection postgres secrets;
      _ ← validatePostgresStorage (Pg_Storage postgres);
      _ ← check ((PgSync_Replicas (Pg_Synchronous postgres) <? 1) ||
                 (Pg_Instances postgres <=? PgSync_Replicas (Pg_Synchronous postgres)))
            (Errorf "database.postgres.synchronous.replicas must be at least 1 and less than instances" []);
      _ ← check (negb (bool_decide (PgSync_DataDurability (Pg_Synchronous postgres) ∈
                   [PostgresDataDurabilityRequired; PostgresDataDurabilityPreferred])))
            (Errorf "database.postgres.synchronous.dataDurability must be one of required, preferred" []);
      check (negb (String.eqb (Pg_RetentionPolicy postgres) PostgresRetentionPolicyRetain))
        (Errorf "database.postgres.retentionPolicy must be retain" [])
  end.

Definition is_managed_postgres (c : Config) : bool :=
  match Database_Postgres (Cfg_Database c) with
  | Some p => String.eqb (Pg_ConnectionMode p) PostgresConnectionModeManaged
  | None => false
  end.

(** The replica count the hosting limit is checked against. *)
Definition hosting_replicas (c : Config) : Z :=
  let r := Deploy_Replicas (Cfg_Deploy c) in
  if String.eqb (Resilience_Mode (Cfg_Resilience c)) ResilienceResilient && (r <? 2) then 2 else r.

Definition validate_metrics (m : option MetricsConfig) : result unit :=
  match m with
  | None => Ok tt
  | Some m =>
      _ ← check ((Metrics_Port m <? 1) || (65535 <? Metrics_Port m)) (Errorf "metrics.port must be between 1 and 65535" []);
      _ ← check (String.eqb (Metrics_Path m) "") (Errorf "metrics.path is required" []);
      check (negb (HasPrefix (Metrics_Path m) "/")) (Errorf "metrics.path must start with /" [])
  end.

(** [Config.Validate] *)
Definition Validate (c : Config) : result unit :=
  let state := State_Mode (Cfg_State c) in
  let resilience := Resilience_Mode (Cfg_Resilience c) in
  let port := Service_Port (Cfg_Service c) in
  let health := Service_HealthPath (Cfg_Service c) in
  _ ← check (negb (String.eqb (Cfg_ImagePullCredential c) "") && negb (ValidRevision (Cfg_ImagePullCredential c)))
        (Errorf "imagePullCredential must be an immutable credential revision" []);
  _ ← check (negb (String.eqb (Cfg_EnvironmentRevision c) "") && negb (ValidRevision (Cfg_EnvironmentRevision c)))
        (Errorf "environmentRevision must be an immutable environment revision" []);
  _ ← check (negb (String.eqb (Cfg_EnvironmentRevision c) "") && negb (bool_decide (Cfg_Secrets c = [])))
        (Errorf "environmentRevision cannot be combined with legacy secrets" []);
  _ ← check (String.eqb (Cfg_Name c) "") (Errorf "name is required" []);
  _ ← check ((63 <? slen (Cfg_Name c)) || negb (re_match appNamePattern (Cfg_Name c)))
        (Errorf "name must be a DNS-safe Kubernetes name" []);
  _ ← check (String.eqb (Cfg_Image c) "") (Errorf "image is required" []);
  _ ← check (port =? 0) (Errorf "service.port is required" []);
  _ ← check ((port <? 1) || (65535 <? port)) (Errorf "service.port must be between 1 and 65535" []);
  _ ← check (String.eqb health "") (Errorf "service.health.path is required" []);
  _ ← check (negb (HasPrefix health "/")) (Errorf "service.health.path must start with /" []);
  _ ← check (Routing_RequireTLS (Cfg_Routing c) && String.eqb (Routing_Domain (Cfg_Routing c)) "")
        (Errorf "routing.requireTLS requires routing.domain" []);
  _ ← validate_metrics (Cfg_Metrics c);
  _ ← check (Deploy_Replicas (Cfg_Deploy c) <? 1) (Errorf "deploy.replicas must be at least 1" []);
  _ ← check (negb (bool_decide (state ∈ ["stateless"; "stateful"; "cache"])))
        (Errorf "state.mode must be one of stateless, stateful, cache" []);
  _ ← check (negb (bool_decide (resilience ∈ [ResilienceBasic; ResilienceResilient; ResilienceFallback; ResiliencePinned])))
        (Errorf "resilience.mode must be one of basic, resilient, fallback, pinned" []);
  _ ← check (negb (String.eqb state DefaultStateMode) &&
             (String.eqb resilience ResilienceResilient || String.eqb resilience ResilienceFallback) &&
             negb (Resilience_AllowUnsafe (Cfg_Resilience c)))
        (Errorf "resilience.mode %q requires resilience.allowUnsafeStatefulFailover for state.mode %q" [AStr resilience; AStr state]);
  _ ← check (String.eqb resilience ResilienceFallback &&
             (bool_decide (Placement_Prefer (Cfg_Placement c) = []) || bool_decide (Placement_Fallback (Cfg_Placement c) = [])))
        (Errorf "resilience.mode fallback requires placement.prefer and placement.fallback selectors" []);
  _ ← check (String.eqb resilience ResiliencePinned && negb (Z.of_nat (List.length (Placement_Prefer (Cfg_Placement c))) =? 1))
        (Errorf "resilience.mode pinned requires exactly one placement.prefer selector" []);
  _ ← validateStorage c;
  seenSecrets ← validate_secrets 0 [] (Cfg_Secrets c);
  _ ← Database_validate (Cfg_Database c) (Cfg_Name c) (Placement_Arch (Cfg_Placement c)) seenSecrets;
  _ ← Hosting_Validate (Cfg_Hosting c) (hosting_replicas c);
  check (bool_decide (is_Some (Cfg_Hosting c)) && is_managed_postgres c)
    (Errorf "hosting profile v1 cannot be combined with managed PostgreSQL until NetworkPolicy database paths are qualified" []).
End validate_postgres.

(** ** Canonical JSON

    Encoders list the members in the order of the struct's fields, with the
    names and [omitempty] of the field tags; decoders read each field from the
    members that stand for it.  (A struct is never empty, so the [omitempty] of
    [Database] has no effect.) *)

Definition enc_bool_ptr (k : string) (b : option bool) : list (string * json) :=
  match b with Some b => [(k, enc_bool b)] | None => [] end.

Definition is_nil {A} (l : list A) : bool := match l with [] => true | _ => false end.

Definition enc_HealthConfig (path : string) : json := JObj [("path", enc_string path)].
Definition dec_HealthConfig : decoder string := dec_struct (dec_field ["path"] "path" dec_string).

Definition enc_ServiceConfig (c : ServiceConfig) : json :=
  JObj [("port", enc_int (Service_Port c)); ("health", enc_HealthConfig (Service_HealthPath c))].
Definition dec_ServiceConfig : decoder ServiceConfig := dec_struct (fun cur m =>
  let fs := ["port"; "health"] in
  port ← dec_field fs "port" dec_int (Service_Port cur) m;
  health ← dec_field fs "health" dec_HealthConfig (Service_HealthPath cur) m;
  Some {| Service_Port := port; Service_HealthPath := health |}).

Definition enc_MetricsConfig (c : MetricsConfig) : json :=
  JObj [("port", enc_int (Metrics_Port c)); ("path", enc_string (Metrics_Path c))].
Definition dec_MetricsConfig : decoder MetricsConfig := dec_struct (fun cur m =>
  let fs := ["port"; "path"] in
  port ← dec_field fs "port" dec_int (Metrics_Port cur) m;
  path ← dec_field fs "path" dec_string (Metrics_Path cur) m;
  Some {| Metrics_Port := port; Metrics_Path := path |}).

Definition enc_RoutingConfig (c : RoutingConfig) : json :=
  JObj ([("domain", enc_string (Routing_Domain c))]
    ++ omitempty (negb (Routing_RequireTLS c)) "require_tls" (enc_bool (Routing_RequireTLS c))
    ++ enc_bool_ptr "enable_proxy_retries" (Routing_EnableProxyRetries c))%list.
Definition dec_RoutingConfig : decoder RoutingConfig := dec_struct (fun cur m =>
  let fs := ["domain"; "require_tls"; "enable_proxy_retries"] in
  domain ← dec_field fs "domain" dec_string (Routing_Domain cur) m;
  tls ← dec_field fs "require_tls" dec_bool (Routing_RequireTLS cur) m;
  retries ← dec_field fs "enable_proxy_retries" (dec_ptr false dec_bool) (Routing_EnableProxyRetries cur) m;
  Some {| Routing_Domain := domain; Routing_RequireTLS := tls; Routing_EnableProxyRetries := retries |}).

Definition enc_DeployConfig (c : DeployConfig) : json :=
  JObj [("replicas", enc_int (Deploy_Replicas c)); ("strategy", enc_string (Deploy_Strategy c))].
Definition dec_DeployConfig : decoder DeployConfig := dec_struct (fun cur m =>
  let fs := ["replicas"; "strategy"] in
  replicas ← dec_field fs "replicas" dec_int (Deploy_Replicas cur) m;
  strategy ← dec_field fs "strategy" dec_string (Deploy_Strategy cur) m;
  Some {| Deploy_Replicas := replicas; Deploy_Strategy := strategy |}).

(** A [map[string]string]; nil is [null]. *)
Definition enc_labels (m : option (gmap string string)) : json :=
  match m with Some m => enc_map enc_string m | None => JNull end.
Definition dec_labels : decoder (option (gmap string string)) := fun cur j =>
  match j with
  | JNull => Some None
  | _ => Some <$> dec_map "" dec_string (default ∅ cur) j
  end.

Definition enc_PlacementConfig (c : PlacementConfig) : json :=
  JObj ([("arch", enc_string (Placement_Arch c)); ("spread", enc_bool (Placement_Spread c))]
    ++ omitempty (is_nil (Placement_Prefer c)) "prefer" (enc_slice enc_labels (Placement_Prefer c))
    ++ omitempty (is_nil (Placement_Fallback c)) "fallback" (enc_slice enc_labels (Placement_Fallback c)))%list.
Definition dec_PlacementConfig : decoder PlacementConfig := dec_struct (fun cur m =>
  let fs := ["arch"; "spread"; "prefer"; "fallback"] in
  arch ← dec_field fs "arch" dec_string (Placement_Arch cur) m;
  spread ← dec_field fs "spread" dec_bool (Placement_Spread cur) m;
  prefer ← dec_field fs "prefer" (dec_slice None dec_labels) (Placement_Prefer cur) m;
  fallback ← dec_field fs "fallback" (dec_slice None dec_labels) (Placement_Fallback cur) m;
  Some {| Placement_Arch := arch; Placement_Spread := spread; Placement_Prefer := prefer; Placement_Fallback := fallback |}).

Definition zero_mount : StorageMount := {| Mount_ExistingClaim := ""; Mount_MountPath := "" |}.
Definition enc_StorageMount (c : StorageMount) : json :=
  JObj [("existing_claim", enc_string (Mount_ExistingClaim c)); ("mount_path", enc_string (Mount_MountPath c))].
Definition dec_StorageMount : decoder StorageMount := dec_struct (fun cur m =>
  let fs := ["existing_claim"; "mount_path"] in
  claim ← dec_field fs "existing_claim" dec_string (Mount_ExistingClaim cur) m;
  path ← dec_field fs "mount_path" dec_string (Mount_MountPath cur) m;
  Some {| Mount_ExistingClaim := claim; Mount_MountPath := path |}).

Definition zero_storage : StorageConfig :=
  {| Storage_ExistingClaim := ""; Storage_MountPath := ""; Storage_AdditionalMounts := [] |}.
Definition enc_StorageConfig (c : StorageConfig) : json :=
  JObj ([("existing_claim", enc_string (Storage_ExistingClaim c)); ("mount_path", enc_string (Storage_MountPath c))]
    ++ omitempty (is_nil (Storage_AdditionalMounts c)) "additional_mounts"
         (enc_slice enc_StorageMount (Storage_AdditionalMounts c)))%list.
Definition dec_StorageConfig : decoder StorageConfig := dec_struct (fun cur m =>
  let fs := ["existing_claim"; "mount_path"; "additional_mounts"] in
  claim ← dec_field fs "existing_claim" dec_string (Storage_ExistingClaim cur) m;
  path ← dec_field fs "mount_path" dec_string (Storage_MountPath cur) m;
  mounts ← dec_field fs "additional_mounts" (dec_slice zero_mount dec_StorageMount) (Storage_AdditionalMounts cur) m;
  Some {| Storage_ExistingClaim := claim; Storage_MountPath := path; Storage_AdditionalMounts := mounts |}).

Definition enc_StateConfig (c : StateConfig) : json := JObj [("mode", enc_string (State_Mode c))].
Definition dec_StateConfig : decoder StateConfig := dec_struct (fun cur m =>
  mode ← dec_field ["mode"] "mode" dec_string (State_Mode cur) m; Some {| State_Mode := mode |}).

Definition enc_ResilienceConfig (c : ResilienceConfig) : json :=
  JObj ([("mode", enc_string (Resilience_Mode c))]
    ++ omitempty (negb (Resilience_AllowUnsafe c)) "allow_unsafe_stateful_failover" (enc_bool (Resilience_AllowUnsafe c)))%list.
Definition dec_ResilienceConfig : decoder ResilienceConfig := dec_struct (fun cur m =>
  let fs := ["mode"; "allow_unsafe_stateful_failover"] in
  mode ← dec_field fs "mode" dec_string (Resilience_Mode cur) m;
  unsafe ← dec_field fs "allow_unsafe_stateful_failover" dec_bool (Resilience_AllowUnsafe cur) m;
  Some {| Resilience_Mode := mode; Resilience_AllowUnsafe := unsafe |}).

Definition zero_pg_storage : PostgresStorageConfig := {| PgStorage_Size := ""; PgStorage_StorageClass := "" |}.
Definition enc_PgStorage (c : PostgresStorageConfig) : json :=
  JObj [("size", enc_string (PgStorage_Size c)); ("storageClass", enc_string (PgStorage_StorageClass c))].
Definition dec_PgStorage : decoder PostgresStorageConfig := dec_struct (fun cur m =>
  let fs := ["size"; "storageClass"] in
  size ← dec_field fs "size" dec_string (PgStorage_Size cur) m;
  class ← dec_field fs "storageClass" dec_string (PgStorage_StorageClass cur) m;
  Some {| PgStorage_Size := size; PgStorage_StorageClass := class |}).

Definition enc_PgSync (c : PostgresSynchronousConfig) : json :=
  JObj [("replicas", enc_int (PgSync_Replicas c)); ("dataDurability", enc_string (PgSync_DataDurability c))].
Definition dec_PgSync : decoder PostgresSynchronousConfig := dec_struct (fun cur m =>
  let fs := ["replicas"; "dataDurability"] in
  replicas ← dec_field fs "replicas" dec_int (PgSync_Replicas cur) m;
  durability ← dec_field fs "dataDurability" dec_string (PgSync_DataDurability cur) m;
  Some {| PgSync_Replicas := replicas; PgSync_DataDurability := durability |}).

Definition zero_postgres : PostgresConfig := {|
  Pg_Instances := 0; Pg_Image := ""; Pg_Database := ""; Pg_Owner := ""; Pg_ConnectionEnv := ""; Pg_ConnectionMode := "";
  Pg_Storage := zero_pg_storage; Pg_Synchronous := {| PgSync_Replicas := 0; PgSync_DataDurability := "" |};
  Pg_RetentionPolicy := "" |}.
Definition postgres_fields : list string :=
  ["instances"; "image"; "database"; "owner"; "connectionEnv"; "connectionMode"; "storage"; "synchronous"; "retentionPolicy"].
Definition enc_PostgresConfig (c : PostgresConfig) : json :=
  JObj [("instances", enc_int (Pg_Instances c)); ("image", enc_string (Pg_Image c));
        ("database", enc_string (Pg_Database c)); ("owner", enc_string (Pg_Owner c));
        ("connectionEnv", enc_string (Pg_ConnectionEnv c)); ("connectionMode", enc_string (Pg_ConnectionMode c));
        ("storage", enc_PgStorage (Pg_Storage c)); ("synchronous", enc_PgSync (Pg_Synchronous c));
        ("retentionPolicy", enc_string (Pg_RetentionPolicy c))].
Definition dec_PostgresConfig : decoder PostgresConfig := dec_struct (fun cur m =>
  let fs := postgres_fields in
  instances ← dec_field fs "instances" dec_int (Pg_Instances cur) m;
  image ← dec_field fs "image" dec_string (Pg_Image cur) m;
  database ← dec_field fs "database" dec_string (Pg_Database cur) m;
  owner ← dec_field fs "owner" dec_string (Pg_Owner cur) m;
  env ← dec_field fs "connectionEnv" dec_string (Pg_ConnectionEnv cur) m;
  mode ← dec_field fs "connectionMode" dec_string (Pg_ConnectionMode cur) m;
  storage ← dec_field fs "storage" dec_PgStorage (Pg_Storage cur) m;
  sync ← dec_field fs "synchronous" dec_PgSync (Pg_Synchronous cur) m;
  retention ← dec_field fs "retentionPolicy" dec_string (Pg_RetentionPolicy cur) m;
  Some {| Pg_Instances := instances; Pg_Image := image; Pg_Database := database; Pg_Owner := owner;
          Pg_ConnectionEnv := env; Pg_ConnectionMode := mode; Pg_Storage := storage; Pg_Synchronous := sync;
          Pg_RetentionPolicy := retention |}).

Definition enc_DatabaseConfig (c : DatabaseConfig) : json :=
  JObj (match Database_Postgres c with Some p => [("postgres", enc_PostgresConfig p)] | None => [] end).
Definition dec_DatabaseConfig : decoder DatabaseConfig := dec_struct (fun cur m =>
  p ← dec_field ["postgres"] "postgres" (dec_ptr zero_postgres dec_PostgresConfig) (Database_Postgres cur) m;
  Some {| Database_Postgres := p |}).

Definition zero_resources : ResourceQuantities := {| Res_CPU := ""; Res_Memory := ""; Res_EphemeralStorage := "" |}.
Definition enc_ResourceQuantities (c : ResourceQuantities) : json :=
  JObj [("cpu", enc_string (Res_CPU c)); ("memory", enc_string (Res_Memory c));
        ("ephemeralStorage", enc_string (Res_EphemeralStorage c))].
Definition dec_ResourceQuantities : decoder ResourceQuantities := dec_struct (fun cur m =>
  let fs := ["cpu"; "memory"; "ephemeralStorage"] in
  cpu ← dec_field fs "cpu" dec_string (Res_CPU cur) m;
  memory ← dec_field fs "memory" dec_string (Res_Memory cur) m;
  storage ← dec_field fs "ephemeralStorage" dec_string (Res_EphemeralStorage cur) m;
  Some {| Res_CPU := cpu; Res_Memory := memory; Res_EphemeralStorage := storage |}).

Definition enc_HostingResources (c : HostingResources) : json :=
  JObj [("requests", enc_ResourceQuantities (Res_Requests c)); ("limits", enc_ResourceQuantities (Res_Limits c))].
Definition dec_HostingResources : decoder HostingResources := dec_struct (fun cur m =>
  let fs := ["requests"; "limits"] in
  requests ← dec_field fs "requests" dec_ResourceQuantities (Res_Requests cur) m;
  limits ← dec_field fs "limits" dec_ResourceQuantities (Res_Limits cur) m;
  Some {| Res_Requests := requests; Res_Limits := limits |}).

Definition zero_egress : HostingEgressRule := {| Egress_CIDR := ""; Egress_Ports := None |}.
Definition enc_ports (p : option (list Z)) : json :=
  match p with Some l => enc_slice enc_int l | None => JNull end.
Definition dec_ports : decoder (option (list Z)) := fun cur j =>
  match j with
  | JNull => Some None
  | _ => Some <$> dec_slice 0 dec_int (default [] cur) j
  end.
Definition enc_HostingEgressRule (c : HostingEgressRule) : json :=
  JObj [("cidr", enc_string (Egress_CIDR c)); ("ports", enc_ports (Egress_Ports c))].
Definition dec_HostingEgressRule : decoder HostingEgressRule := dec_struct (fun cur m =>
  let fs := ["cidr"; "ports"] in
  cidr ← dec_field fs "cidr" dec_string (Egress_CIDR cur) m;
  ports ← dec_field fs "ports" dec_ports (Egress_Ports cur) m;
  Some {| Egress_CIDR := cidr; Egress_Ports := ports |}).

Definition enc_HostingNetwork (c : HostingNetwork) : json :=
  JObj (enc_bool_ptr "allow_dns" (Network_AllowDNS c)
    ++ omitempty (is_nil (Network_Egress c)) "egress" (enc_slice enc_HostingEgressRule (Network_Egress c)))%list.
Definition dec_HostingNetwork : decoder HostingNetwork := dec_struct (fun cur m =>
  let fs := ["allow_dns"; "egress"] in
  dns ← dec_field fs "allow_dns" (dec_ptr false dec_bool) (Network_AllowDNS cur) m;
  egress ← dec_field fs "egress" (dec_slice zero_egress dec_HostingEgressRule) (Network_Egress cur) m;
  Some {| Network_AllowDNS := dns; Network_Egress := egress |}).

Definition zero_hosting : HostingConfig := {|
  Hosting_Version := ""; Hosting_Resources := {| Res_Requests := zero_resources; Res_Limits := zero_resources |};
  Hosting_MaxReplicas := 0; Hosting_Network := {| Network_AllowDNS := None; Network_Egress := [] |};
  Hosting_ReadOnlyRootFilesystem := false |}.
Definition hosting_fields : list string := ["version"; "resources"; "maxReplicas"; "network"; "read_only_root_filesystem"].
Definition enc_HostingConfig (c : HostingConfig) : json :=
  JObj ([("version", enc_string (Hosting_Version c)); ("resources", enc_HostingResources (Hosting_Resources c));
         ("maxReplicas", enc_int (Hosting_MaxReplicas c)); ("network", enc_HostingNetwork (Hosting_Network c))]
    ++ omitempty (negb (Hosting_ReadOnlyRootFilesystem c)) "read_only_root_filesystem"
         (enc_bool (Hosting_ReadOnlyRootFilesystem c)))%list.
Definition dec_HostingConfig : decoder HostingConfig := dec_struct (fun cur m =>
  let fs := hosting_fields in
  version ← dec_field fs "version" dec_string (Hosting_Version cur) m;
  resources ← dec_field fs "resources" dec_HostingResources (Hosting_Resources cur) m;
  maxr ← dec_field fs "maxReplicas" dec_int (Hosting_MaxReplicas cur) m;
  network ← dec_field fs "network" dec_HostingNetwork (Hosting_Network cur) m;
  ro ← dec_field fs "read_only_root_filesystem" dec_bool (Hosting_ReadOnlyRootFilesystem cur) m;
  Some {| Hosting_Version := version; Hosting_Resources := resources; Hosting_MaxReplicas := maxr;
          Hosting_Network := network; Hosting_ReadOnlyRootFilesystem := ro |}).

(** A pointer member that is left out when nil. *)
Definition enc_ptr {A} (k : string) (enc : A -> json) (p : option A) : list (string * json) :=
  match p with Some a => [(k, enc a)] | None => [] end.

Definition config_fields : list string :=
  ["image_pull_credential"; "environment_revision"; "name"; "image"; "service"; "metrics"; "routing"; "deploy";
   "placement"; "storage"; "secrets"; "state"; "resilience"; "database"; "hosting"].

Definition enc_Config (c : Config) : json :=
  JObj (omitempty (String.eqb (Cfg_ImagePullCredential c) "") "image_pull_credential" (enc_string (Cfg_ImagePullCredential c))
    ++ omitempty (String.eqb (Cfg_EnvironmentRevision c) "") "environment_revision" (enc_string (Cfg_EnvironmentRevision c))
    ++ [("name", enc_string (Cfg_Name c)); ("image", enc_string (Cfg_Image c));
        ("service", enc_ServiceConfig (Cfg_Service c))]
    ++ enc_ptr "metrics" enc_MetricsConfig (Cfg_Metrics c)
    ++ [("routing", enc_RoutingConfig (Cfg_Routing c)); ("deploy", enc_DeployConfig (Cfg_Deploy c));
        ("placement", enc_PlacementConfig (Cfg_Placement c))]
    ++ enc_ptr "storage" enc_StorageConfig (Cfg_Storage c)
    ++ omitempty (is_nil (Cfg_Secrets c)) "secrets" (enc_slice enc_string (Cfg_Secrets c))
    ++ [("state", enc_StateConfig (Cfg_State c)); ("resilience", enc_ResilienceConfig (Cfg_Resilience c));
        ("database", enc_DatabaseConfig (Cfg_Database c))]
    ++ enc_ptr "hosting" enc_HostingConfig (Cfg_Hosting c))%list.

Definition zero_config : Config := {|
  Cfg_ImagePullCredential := ""; Cfg_EnvironmentRevision := ""; Cfg_Name := ""; Cfg_Image := "";
  Cfg_Service := {| Service_Port := 0; Service_HealthPath := "" |}; Cfg_Metrics := None;
  Cfg_Routing := {| Routing_Domain := ""; Routing_RequireTLS := false; Routing_EnableProxyRetries := None |};
  Cfg_Deploy := {| Deploy_Replicas := 0; Deploy_Strategy := "" |};
  Cfg_Placement := {| Placement_Arch := ""; Placement_Spread := false; Placement_Prefer := []; Placement_Fallback := [] |};
  Cfg_Storage := None; Cfg_Secrets := []; Cfg_State := {| State_Mode := "" |};
  Cfg_Resilience := {| Resilience_Mode := ""; Resilience_AllowUnsafe := false |};
  Cfg_Database := {| Database_Postgres := None |}; Cfg_Hosting := None |}.

Definition dec_Config : decoder Config := dec_struct (fun cur m =>
  let fs := config_fields in
  pull ← dec_field fs "image_pull_credential" dec_string (Cfg_ImagePullCredential cur) m;
  env ← dec_field fs "environment_revision" dec_string (Cfg_EnvironmentRevision cur) m;
  name ← dec_field fs "name" dec_string (Cfg_Name cur) m;
  image ← dec_field fs "image" dec_string (Cfg_Image cur) m;
  service ← dec_field fs "service" dec_ServiceConfig (Cfg_Service cur) m;
  metrics ← dec_field fs "metrics" (dec_ptr {| Metrics_Port := 0; Metrics_Path := "" |} dec_MetricsConfig) (Cfg_Metrics cur) m;
  routing ← dec_field fs "routing" dec_RoutingConfig (Cfg_Routing cur) m;
  deploy ← dec_field fs "deploy" dec_DeployConfig (Cfg_Deploy cur) m;
  placement ← dec_field fs "placement" dec_PlacementConfig (Cfg_Placement cur) m;
  storage ← dec_field fs "storage" (dec_ptr zero_storage dec_StorageConfig) (Cfg_Storage cur) m;
  secrets ← dec_field fs "secrets" (dec_slice "" dec_string) (Cfg_Secrets cur) m;
  state ← dec_field fs "state" dec_StateConfig (Cfg_State cur) m;
  resilience ← dec_field fs "resilience" dec_ResilienceConfig (Cfg_Resilience cur) m;
  database ← dec_field fs "database" dec_DatabaseConfig (Cfg_Database cur) m;
  hosting ← dec_field fs "hosting" (dec_ptr zero_hosting dec_HostingConfig) (Cfg_Hosting cur) m;
  Some {| Cfg_ImagePullCredential := pull; Cfg_EnvironmentRevision := env; Cfg_Name := name; Cfg_Image := image;
          Cfg_Service := service; Cfg_Metrics := metrics; Cfg_Routing := routing; Cfg_Deploy := deploy;
          Cfg_Placement := placement; Cfg_Storage := storage; Cfg_Secrets := secrets; Cfg_State := state;
          Cfg_Resilience := resilience; Cfg_Database := database; Cfg_Hosting := hosting |}).

(** [Config.JSON]: encoding a [Config] cannot fail. *)
Definition Config_JSON (c : Config) : result string := Ok (json_print (enc_Config c)).

(** [FromJSON] *)
Definition FromJSON `{AppEnv} (data : string) : result Config :=
  match json_parse data with
  | None => Err (ErrWrap "decode desired state: %w" [] (ErrSentinel "json"))
  | Some j =>
      match dec_Config zero_config j with
      | None => Err (ErrWrap "decode desired state: %w" [] (ErrSentinel "json"))
      | Some c => Ok (Normalize c)
      end
  end.

(** [Parse]; [decode]: the YAML decoder with [KnownFields(true)]. *)
Definition Parse `{AppEnv} (decode : string -> result Config) (data : string) : result Config :=
  match decode data with
  | Err e => Err (ErrWrap "parse deployer.yaml: %w" [] e)
  | Ok cfg =>
      _ ← Validate (Normalize cfg);
      Ok (Normalize cfg)
  end.

(** ** Decoding inverts encoding *)

Definition int64 (z : Z) : Prop := - 2 ^ 63 <= z < 2 ^ 63.

Lemma dec_field_cons {A} fs f (d : decoder A) cur k v m :
  dec_field fs f d cur ((k, v) :: m) =
  if bool_decide (resolve fs k = Some f)
  then match d cur v with Some cur' => dec_field fs f d cur' m | None => None end
  else dec_field fs f d cur m.
Proof. done. Qed.

Lemma dec_field_nil {A} fs f (d : decoder A) cur : dec_field fs f d cur [] = Some cur.
Proof. done. Qed.

Lemma dec_field_ptr {A B} fs f (d : decoder A) cur k (enc : B -> json) p :
  dec_field fs f d cur (enc_ptr k enc p) =
  if bool_decide (resolve fs k = Some f) then match p with Some b => d cur (enc b) | None => Some cur end else Some cur.
Proof. destruct p; simpl; case_bool_decide; try done; by case_match. Qed.

Lemma enc_bool_ptr_ptr k b : enc_bool_ptr k b = enc_ptr k enc_bool b.
Proof. by destruct b. Qed.

(** Evaluates the field a concrete member name stands for. *)
Ltac resolve_names :=
  repeat match goal with
  | |- context [bool_decide (resolve ?fs ?k = Some ?f)] =>
      let b := eval vm_compute in (bool_decide (resolve fs k = Some f)) in
      change (bool_decide (resolve fs k = Some f)) with b; cbv iota
  end.

(** Segments of the member list before and after the one that holds the field. *)
Lemma df_skip_app {A} fs f (d : decoder A) cur a l1 l2 :
  dec_field fs f d cur l1 = Some cur -> dec_field fs f d cur l2 = Some a ->
  dec_field fs f d cur (l1 ++ l2)%list = Some a.
Proof. intros H1 H2. by rewrite dec_field_app, H1. Qed.

Lemma df_hit_app {A} fs f (d : decoder A) cur a l1 l2 :
  dec_field fs f d cur l1 = Some a -> dec_field fs f d a l2 = Some a ->
  dec_field fs f d cur (l1 ++ l2)%list = Some a.
Proof. intros H1 H2. by rewrite dec_field_app, H1. Qed.

Ltac fields_step :=
  first [rewrite enc_bool_ptr_ptr | rewrite dec_field_omitempty | rewrite dec_field_ptr
        | rewrite dec_field_cons | rewrite dec_field_nil].

Ltac seg_skip := solve [repeat (fields_step; resolve_names); reflexivity].

Ltac rest_skip :=
  lazymatch goal with
  | |- dec_field _ _ _ _ (_ ++ _)%list = _ => apply df_skip_app; [seg_skip|rest_skip]
  | _ => seg_skip
  end.

Ltac solve_field tac :=
  lazymatch goal with
  | |- dec_field _ _ _ _ (_ ++ _)%list = _ =>
      first [apply df_skip_app; [seg_skip|solve_field tac]
            | apply df_hit_app; [solve [repeat (fields_step; resolve_names); tac]|rest_skip]]
  | _ => repeat (fields_step; resolve_names); tac
  end.

(** [next_field a using tac]: the next field of the struct decodes to [a]. *)
Tactic Notation "next_field" constr(a) "using" tactic3(tac) :=
  match goal with
  | |- mbind _ (dec_field ?fs ?f ?d ?cur ?m) = _ =>
      let H := fresh in
      assert (H : dec_field fs f d cur m = Some a) by (solve_field tac);
      rewrite H; clear H; cbn [mbind option_bind]
  end.
Tactic Notation "next_field" constr(a) := next_field a using reflexivity.

Lemma dec_HealthConfig_enc p : dec_HealthConfig "" (enc_HealthConfig p) = Some p.
Proof. reflexivity. Qed.

Lemma dec_ServiceConfig_enc c cur :
  int64 (Service_Port c) -> Service_HealthPath cur = "" ->
  dec_ServiceConfig cur (enc_ServiceConfig c) = Some c.
Proof.
  intros Hp Hh. unfold dec_ServiceConfig, enc_ServiceConfig. cbn [dec_struct]. cbv zeta.
  next_field (Service_Port c) using (by rewrite dec_int_enc).
  next_field (Service_HealthPath c) using (by rewrite Hh).
  by destruct c.
Qed.

Lemma dec_MetricsConfig_enc c cur : int64 (Metrics_Port c) -> dec_MetricsConfig cur (enc_MetricsConfig c) = Some c.
Proof.
  intros Hp. unfold dec_MetricsConfig, enc_MetricsConfig. cbn [dec_struct]. cbv zeta.
  next_field (Metrics_Port c) using (by rewrite dec_int_enc). next_field (Metrics_Path c). by destruct c.
Qed.

Lemma dec_RoutingConfig_enc c :
  dec_RoutingConfig {| Routing_Domain := ""; Routing_RequireTLS := false; Routing_EnableProxyRetries := None |}
    (enc_RoutingConfig c) = Some c.
Proof.
  unfold dec_RoutingConfig, enc_RoutingConfig. cbn [dec_struct]. cbv zeta.
  next_field (Routing_Domain c).
  next_field (Routing_RequireTLS c) using (by destruct (Routing_RequireTLS c)).
  next_field (Routing_EnableProxyRetries c) using (by destruct (Routing_EnableProxyRetries c)).
  by destruct c.
Qed.

Lemma dec_DeployConfig_enc c cur : int64 (Deploy_Replicas c) -> dec_DeployConfig cur (enc_DeployConfig c) = Some c.
Proof.
  intros Hp. unfold dec_DeployConfig, enc_DeployConfig. cbn [dec_struct]. cbv zeta.
  next_field (Deploy_Replicas c) using (by rewrite dec_int_enc). next_field (Deploy_Strategy c). by destruct c.
Qed.

Lemma dec_labels_enc m : dec_labels None (enc_labels m) = Some m.
Proof.
  destruct m as [m|]; [|done]. unfold dec_labels, enc_labels.
  change (enc_map enc_string m) with (JObj ((fun '(k, v) => (k, enc_string v)) <$> sorted_entries m)). cbn iota.
  pose proof (dec_map_enc "" dec_string enc_string m) as Hm. cbn [default from_option id].
  change (JObj ((fun '(k, v) => (k, enc_string v)) <$> sorted_entries m)) with (enc_map enc_string m).
  rewrite Hm; [done|]. by intros k v _.
Qed.

Lemma dec_labels_list l : dec_slice None dec_labels [] (enc_slice enc_labels l) = Some l.
Proof. apply dec_slice_enc. apply Forall_forall. intros. apply dec_labels_enc. Qed.

Lemma dec_PlacementConfig_enc c :
  dec_PlacementConfig {| Placement_Arch := ""; Placement_Spread := false; Placement_Prefer := []; Placement_Fallback := [] |}
    (enc_PlacementConfig c) = Some c.
Proof.
  unfold dec_PlacementConfig, enc_PlacementConfig. cbn [dec_struct]. cbv zeta.
  next_field (Placement_Arch c). next_field (Placement_Spread c).
  next_field (Placement_Prefer c) using (rewrite dec_labels_list; by destruct (Placement_Prefer c)).
  next_field (Placement_Fallback c) using (rewrite dec_labels_list; by destruct (Placement_Fallback c)).
  by destruct c.
Qed.

Lemma dec_StorageMount_enc c : dec_StorageMount zero_mount (enc_StorageMount c) = Some c.
Proof.
  unfold dec_StorageMount, enc_StorageMount. cbn [dec_struct]. cbv zeta.
  next_field (Mount_ExistingClaim c). next_field (Mount_MountPath c). by destruct c.
Qed.

Lemma dec_StorageConfig_enc c : dec_StorageConfig zero_storage (enc_StorageConfig c) = Some c.
Proof.
  unfold dec_StorageConfig, enc_StorageConfig. cbn [dec_struct]. cbv zeta.
  next_field (Storage_ExistingClaim c). next_field (Storage_MountPath c).
  next_field (Storage_AdditionalMounts c) using (
    cbn [zero_storage Storage_AdditionalMounts]; rewrite dec_slice_enc by (apply Forall_forall; intros; apply dec_StorageMount_enc);
    by destruct (Storage_AdditionalMounts c)).
  by destruct c.
Qed.

Lemma dec_StateConfig_enc c cur : dec_StateConfig cur (enc_StateConfig c) = Some c.
Proof. by destruct c. Qed.

Lemma dec_ResilienceConfig_enc c :
  dec_ResilienceConfig {| Resilience_Mode := ""; Resilience_AllowUnsafe := false |} (enc_ResilienceConfig c) = Some c.
Proof.
  unfold dec_ResilienceConfig, enc_ResilienceConfig. cbn [dec_struct]. cbv zeta.
  next_field (Resilience_Mode c).
  next_field (Resilience_AllowUnsafe c) using (by destruct (Resilience_AllowUnsafe c)). by destruct c.
Qed.

Lemma dec_PgStorage_enc c cur : dec_PgStorage cur (enc_PgStorage c) = Some c.
Proof.
  unfold dec_PgStorage, enc_PgStorage. cbn [dec_struct]. cbv zeta.
  next_field (PgStorage_Size c). next_field (PgStorage_StorageClass c). by destruct c.
Qed.

Lemma dec_PgSync_enc c cur : int64 (PgSync_Replicas c) -> dec_PgSync cur (enc_PgSync c) = Some c.
Proof.
  intros H. unfold dec_PgSync, enc_PgSync. cbn [dec_struct]. cbv zeta.
  next_field (PgSync_Replicas c) using (by rewrite dec_int_enc). next_field (PgSync_DataDurability c). by destruct c.
Qed.

Lemma dec_PostgresConfig_enc c :
  int64 (Pg_Instances c) -> int64 (PgSync_Replicas (Pg_Synchronous c)) ->
  dec_PostgresConfig zero_postgres (enc_PostgresConfig c) = Some c.
Proof.
  intros H1 H2. unfold dec_PostgresConfig, enc_PostgresConfig, postgres_fields. cbn [dec_struct]. cbv zeta.
  next_field (Pg_Instances c) using (by rewrite dec_int_enc). next_field (Pg_Image c). next_field (Pg_Database c).
  next_field (Pg_Owner c). next_field (Pg_ConnectionEnv c). next_field (Pg_ConnectionMode c).
  next_field (Pg_Storage c) using (by rewrite dec_PgStorage_enc).
  next_field (Pg_Synchronous c) using (by rewrite dec_PgSync_enc).
  next_field (Pg_RetentionPolicy c). by destruct c.
Qed.

Lemma dec_ptr_enc {A} (zero : A) (d : decoder A) (enc : A -> json) a :
  enc a <> JNull -> d zero (enc a) = Some a -> dec_ptr zero d None (enc a) = Some (Some a).
Proof. intros Hn H. unfold dec_ptr. cbn [default from_option id]. rewrite H. by destruct (enc a). Qed.

Definition database_ints (c : DatabaseConfig) : Prop :=
  match Database_Postgres c with
  | Some p => int64 (Pg_Instances p) /\ int64 (PgSync_Replicas (Pg_Synchronous p))
  | None => True
  end.

Lemma dec_DatabaseConfig_enc c :
  database_ints c -> dec_DatabaseConfig {| Database_Postgres := None |} (enc_DatabaseConfig c) = Some c.
Proof.
  destruct c as [[p|]]; [|done]. intros [H1 H2]. cbn [Database_Postgres] in *.
  unfold dec_DatabaseConfig, enc_DatabaseConfig. cbn [dec_struct Database_Postgres].
  next_field (Some p) using (by rewrite dec_ptr_enc by (done || by apply dec_PostgresConfig_enc)). done.
Qed.

Lemma dec_ResourceQuantities_enc c : dec_ResourceQuantities zero_resources (enc_ResourceQuantities c) = Some c.
Proof.
  unfold dec_ResourceQuantities, enc_ResourceQuantities. cbn [dec_struct]. cbv zeta.
  next_field (Res_CPU c). next_field (Res_Memory c). next_field (Res_EphemeralStorage c). by destruct c.
Qed.

Lemma dec_HostingResources_enc c :
  dec_HostingResources {| Res_Requests := zero_resources; Res_Limits := zero_resources |} (enc_HostingResources c) = Some c.
Proof.
  unfold dec_HostingResources, enc_HostingResources. cbn [dec_struct]. cbv zeta.
  next_field (Res_Requests c) using (cbn [Res_Requests]; by rewrite dec_ResourceQuantities_enc).
  next_field (Res_Limits c) using (cbn [Res_Limits]; by rewrite dec_ResourceQuantities_enc). by destruct c.
Qed.

Definition egress_ints (c : HostingEgressRule) : Prop := Forall int64 (default [] (Egress_Ports c)).

Lemma dec_ports_enc p : Forall int64 (default [] p) -> dec_ports None (enc_ports p) = Some p.
Proof.
  destruct p as [l|]; [|done]. intros H. unfold dec_ports. cbn [enc_ports].
  change (match enc_slice enc_int l with JNull => Some None | _ => Some <$> dec_slice 0 dec_int (default [] None) (enc_slice enc_int l) end)
    with (Some <$> dec_slice 0 dec_int [] (enc_slice enc_int l)).
  rewrite dec_slice_enc; [done|]. cbn in H. eapply Forall_impl; [exact H|]. intros z Hz. by apply dec_int_enc.
Qed.

Lemma dec_HostingEgressRule_enc c :
  egress_ints c -> dec_HostingEgressRule zero_egress (enc_HostingEgressRule c) = Some c.
Proof.
  intros H. unfold dec_HostingEgressRule, enc_HostingEgressRule. cbn [dec_struct]. cbv zeta.
  next_field (Egress_CIDR c). next_field (Egress_Ports c) using (cbn [zero_egress Egress_Ports]; by rewrite dec_ports_enc).
  by destruct c.
Qed.

Lemma dec_HostingNetwork_enc c :
  Forall egress_ints (Network_Egress c) ->
  dec_HostingNetwork {| Network_AllowDNS := None; Network_Egress := [] |} (enc_HostingNetwork c) = Some c.
Proof.
  intros H. unfold dec_HostingNetwork, enc_HostingNetwork. cbn [dec_struct]. cbv zeta. rewrite enc_bool_ptr_ptr.
  next_field (Network_AllowDNS c) using (by destruct (Network_AllowDNS c)).
  next_field (Network_Egress c) using (cbn [Network_Egress]; rewrite dec_slice_enc;
    [by destruct (Network_Egress c)|eapply Forall_impl; [exact H|]; intros; by apply dec_HostingEgressRule_enc]).
  by destruct c.
Qed.

Definition hosting_ints (c : HostingConfig) : Prop :=
  int64 (Hosting_MaxReplicas c) /\ Forall egress_ints (Network_Egress (Hosting_Network c)).

Lemma dec_HostingConfig_enc c : hosting_ints c -> dec_HostingConfig zero_hosting (enc_HostingConfig c) = Some c.
Proof.
  intros [H1 H2]. unfold dec_HostingConfig, enc_HostingConfig, hosting_fields. cbn [dec_struct]. cbv zeta.
  next_field (Hosting_Version c).
  next_field (Hosting_Resources c) using (cbn [zero_hosting Hosting_Resources]; by rewrite dec_HostingResources_enc).
  next_field (Hosting_MaxReplicas c) using (by rewrite dec_int_enc).
  next_field (Hosting_Network c) using (cbn [zero_hosting Hosting_Network]; by rewrite dec_HostingNetwork_enc).
  next_field (Hosting_ReadOnlyRootFilesystem c) using (by destruct (Hosting_ReadOnlyRootFilesystem c)).
  by destruct c.
Qed.

(** The integers of a configuration are 64-bit, as Go's [int] is. *)
Definition config_ints (c : Config) : Prop :=
  int64 (Service_Port (Cfg_Service c)) /\
  match Cfg_Metrics c with Some m => int64 (Metrics_Port m) | None => True end /\
  int64 (Deploy_Replicas (Cfg_Deploy c)) /\ database_ints (Cfg_Database c) /\
  match Cfg_Hosting c with Some h => hosting_ints h | None => True end.

Lemma dec_Config_enc c : config_ints c -> dec_Config zero_config (enc_Config c) = Some c.
Proof.
  intros (H1 & H2 & H3 & H4 & H5). unfold dec_Config, enc_Config, config_fields. cbn [dec_struct]. cbv zeta.
  next_field (Cfg_ImagePullCredential c) using (by destruct (String.eqb_spec (Cfg_ImagePullCredential c) "") as [->|]).
  next_field (Cfg_EnvironmentRevision c) using (by destruct (String.eqb_spec (Cfg_EnvironmentRevision c) "") as [->|]).
  next_field (Cfg_Name c). next_field (Cfg_Image c).
  next_field (Cfg_Service c) using (by rewrite dec_ServiceConfig_enc).
  next_field (Cfg_Metrics c) using (cbn [zero_config Cfg_Metrics]; destruct (Cfg_Metrics c); [|done];
    by rewrite dec_ptr_enc by (done || by apply dec_MetricsConfig_enc)).
  next_field (Cfg_Routing c) using (cbn [zero_config Cfg_Routing]; by rewrite dec_RoutingConfig_enc).
  next_field (Cfg_Deploy c) using (by rewrite dec_DeployConfig_enc).
  next_field (Cfg_Placement c) using (cbn [zero_config Cfg_Placement]; by rewrite dec_PlacementConfig_enc).
  next_field (Cfg_Storage c) using (cbn [zero_config Cfg_Storage]; destruct (Cfg_Storage c); [|done];
    by rewrite dec_ptr_enc by (done || by apply dec_StorageConfig_enc)).
  next_field (Cfg_Secrets c) using (cbn [zero_config Cfg_Secrets];
    rewrite dec_slice_enc by (by apply Forall_forall); by destruct (Cfg_Secrets c)).
  next_field (Cfg_State c) using (by rewrite dec_StateConfig_enc).
  next_field (Cfg_Resilience c) using (cbn [zero_config Cfg_Resilience]; by rewrite dec_ResilienceConfig_enc).
  next_field (Cfg_Database c) using (cbn [zero_config Cfg_Database]; by rewrite dec_DatabaseConfig_enc).
  next_field (Cfg_Hosting c) using (cbn [zero_config Cfg_Hosting]; destruct (Cfg_Hosting c); [|done];
    by rewrite dec_ptr_enc by (done || by apply dec_HostingConfig_enc)).
  by destruct c.
Qed.

(** ** The text conditions: every string is valid UTF-8 *)

Definition utf8 (s : string) : Prop := ValidString s = true.
Definition utf8_labels (m : option (gmap string string)) : Prop :=
  match m with Some m => map_Forall (fun k v => utf8 k /\ utf8 v) m | None => True end.
Definition utf8_quantities (q : ResourceQuantities) : Prop :=
  utf8 (Res_CPU q) /\ utf8 (Res_Memory q) /\ utf8 (Res_EphemeralStorage q).
Definition utf8_mount (m : StorageMount) : Prop := utf8 (Mount_ExistingClaim m) /\ utf8 (Mount_MountPath m).
Definition utf8_postgres (p : PostgresConfig) : Prop :=
  utf8 (Pg_Image p) /\ utf8 (Pg_Database p) /\ utf8 (Pg_Owner p) /\ utf8 (Pg_ConnectionEnv p) /\
  utf8 (Pg_ConnectionMode p) /\ utf8 (PgStorage_Size (Pg_Storage p)) /\ utf8 (PgStorage_StorageClass (Pg_Storage p)) /\
  utf8 (PgSync_DataDurability (Pg_Synchronous p)) /\ utf8 (Pg_RetentionPolicy p).
Definition utf8_hosting (h : HostingConfig) : Prop :=
  utf8 (Hosting_Version h) /\ utf8_quantities (Res_Requests (Hosting_Resources h)) /\
  utf8_quantities (Res_Limits (Hosting_Resources h)) /\
  Forall (fun r => utf8 (Egress_CIDR r)) (Network_Egress (Hosting_Network h)).
Definition on_some {A} (P : A -> Prop) (o : option A) : Prop := match o with Some a => P a | None => True end.

Definition config_utf8 (c : Config) : Prop :=
  utf8 (Cfg_ImagePullCredential c) /\ utf8 (Cfg_EnvironmentRevision c) /\ utf8 (Cfg_Name c) /\ utf8 (Cfg_Image c) /\
  utf8 (Service_HealthPath (Cfg_Service c)) /\ on_some (fun m => utf8 (Metrics_Path m)) (Cfg_Metrics c) /\
  utf8 (Routing_Domain (Cfg_Routing c)) /\ utf8 (Deploy_Strategy (Cfg_Deploy c)) /\
  utf8 (Placement_Arch (Cfg_Placement c)) /\ Forall utf8_labels (Placement_Prefer (Cfg_Placement c)) /\
  Forall utf8_labels (Placement_Fallback (Cfg_Placement c)) /\
  on_some (fun s => utf8 (Storage_ExistingClaim s) /\ utf8 (Storage_MountPath s) /\
                    Forall utf8_mount (Storage_AdditionalMounts s)) (Cfg_Storage c) /\
  Forall utf8 (Cfg_Secrets c) /\ utf8 (State_Mode (Cfg_State c)) /\ utf8 (Resilience_Mode (Cfg_Resilience c)) /\
  on_some utf8_postgres (Database_Postgres (Cfg_Database c)) /\ on_some utf8_hosting (Cfg_Hosting c).

Ltac enc_ok_solve :=
  repeat lazymatch goal with
  | |- enc_ok _ (JObj _) => apply enc_ok_obj; [lia|]
  | |- Forall _ (_ ++ _)%list => apply Forall_app_2
  | |- Forall _ (omitempty _ _ _) => apply Forall_omitempty; intros _
  | |- Forall _ (_ :: _) => apply Forall_cons_2
  | |- Forall _ [] => apply Forall_nil_2
  | |- member_ok _ _ => split; [reflexivity|cbn [snd]]
  | |- enc_ok _ (enc_string _) => apply enc_ok_string; [lia|tauto]
  | |- enc_ok _ (enc_int _) => apply enc_ok_int; lia
  | |- enc_ok _ (enc_bool _) => apply enc_ok_bool; lia
  | |- enc_ok _ (enc_slice _ _) => apply enc_ok_slice; [lia|]
  end.

Lemma enc_ok_labels d m : 2 <= d -> utf8_labels m -> enc_ok d (enc_labels m).
Proof.
  intros Hd. destruct m as [m|]; intros H; [|by apply enc_ok_atom; [lia| |]].
  apply enc_ok_map; [lia|]. intros k v Hk. destruct (H k v Hk). split; [done|]. by apply enc_ok_string; [lia|].
Qed.

Lemma enc_ok_ptr {A} d k (enc : A -> json) (P : A -> Prop) p :
  ValidString k = true -> on_some P p -> (forall a, P a -> enc_ok d (enc a)) ->
  Forall (member_ok d) (enc_ptr k enc p).
Proof. intros Hk Hp H. destruct p; simpl; [|constructor]. constructor; [|constructor]. split; [done|]. by apply H. Qed.

Lemma enc_ok_placement c :
  utf8 (Placement_Arch c) -> Forall utf8_labels (Placement_Prefer c) -> Forall utf8_labels (Placement_Fallback c) ->
  enc_ok 5 (enc_PlacementConfig c).
Proof.
  intros Ha Hp Hf. unfold enc_PlacementConfig. enc_ok_solve.
  - eapply Forall_impl; [exact Hp|]. intros m Hm. by apply enc_ok_labels; [lia|].
  - eapply Forall_impl; [exact Hf|]. intros m Hm. by apply enc_ok_labels; [lia|].
Qed.

Lemma enc_ok_storage s :
  utf8 (Storage_ExistingClaim s) /\ utf8 (Storage_MountPath s) /\ Forall utf8_mount (Storage_AdditionalMounts s) ->
  enc_ok 5 (enc_StorageConfig s).
Proof.
  intros (H1 & H2 & H3). unfold enc_StorageConfig. enc_ok_solve.
  eapply Forall_impl; [exact H3|]. intros m [? ?]. unfold enc_StorageMount. enc_ok_solve.
Qed.

Lemma enc_ok_postgres p : utf8_postgres p -> enc_ok 4 (enc_PostgresConfig p).
Proof. intros H. unfold utf8_postgres in H. unfold enc_PostgresConfig, enc_PgStorage, enc_PgSync. enc_ok_solve. Qed.

Lemma enc_ok_hosting h : utf8_hosting h -> enc_ok 7 (enc_HostingConfig h).
Proof.
  intros (H1 & H2 & H3 & H4). unfold utf8_quantities in *.
  unfold enc_HostingConfig, enc_HostingResources, enc_ResourceQuantities, enc_HostingNetwork. rewrite enc_bool_ptr_ptr.
  enc_ok_solve.
  - destruct (Network_AllowDNS (Hosting_Network h)); simpl; enc_ok_solve.
  - eapply Forall_impl; [exact H4|]. intros r Hr. unfold enc_HostingEgressRule. enc_ok_solve.
    destruct (Egress_Ports r); simpl; [|by apply enc_ok_atom]. enc_ok_solve. apply Forall_forall. intros z _.
    enc_ok_solve.
Qed.

Lemma enc_ok_mono d d' j : enc_ok d j -> d <= d' -> enc_ok d' j.
Proof. intros [? ?] ?. split; [done|lia]. Qed.

Lemma enc_ok_Config c : config_utf8 c -> enc_ok 10 (enc_Config c).
Proof.
  intros (H1 & H2 & H3 & H4 & H5 & H6 & H7 & H8 & H9 & H10 & H11 & H12 & H13 & H14 & H15 & H16 & H17).
  unfold enc_Config, enc_ServiceConfig, enc_HealthConfig, enc_RoutingConfig, enc_DeployConfig,
    enc_StateConfig, enc_ResilienceConfig, enc_DatabaseConfig. rewrite enc_bool_ptr_ptr.
  enc_ok_solve.
  - eapply enc_ok_ptr; [done|exact H6|]. intros m Hm. unfold enc_MetricsConfig. enc_ok_solve.
  - destruct (Routing_EnableProxyRetries (Cfg_Routing c)); simpl; enc_ok_solve.
  - by eapply enc_ok_mono; [apply enc_ok_placement|].
  - eapply enc_ok_ptr; [done|exact H12|]. intros s Hs. by eapply enc_ok_mono; [apply enc_ok_storage|].
  - eapply Forall_impl; [exact H13|]. intros s Hs. by apply enc_ok_string; [lia|].
  - destruct (Database_Postgres (Cfg_Database c)); simpl in *; enc_ok_solve.
    by eapply enc_ok_mono; [apply enc_ok_postgres|].
  - eapply enc_ok_ptr; [done|exact H17|]. intros h Hh. by eapply enc_ok_mono; [apply enc_ok_hosting|].
Qed.

(** ** Normalization *)

Section normalize_lemmas.
Context `{AppEnv}.

(** A selector as normalization leaves it. *)
Definition trimmed_entry (k v : string) : Prop := TrimSpace k = k /\ k <> "" /\ TrimSpace v = v.
Definition trimmed (m : gmap string string) : Prop := map_Forall trimmed_entry m.

Lemma clean_entry_trimmed m kv : trimmed m -> trimmed (clean_entry m kv).
Proof.
  intros Hm. unfold clean_entry. destruct (String.eqb_spec (TrimSpace kv.1) "") as [|Hne]; [done|].
  apply map_Forall_insert_2; [|done]. split; [apply TrimSpace_idemp|]. split; [done|apply TrimSpace_idemp].
Qed.

Lemma fold_clean_trimmed l m : trimmed m -> trimmed (fold_left clean_entry l m).
Proof. revert m. induction l as [|kv l IH]; intros m Hm; [done|]. by apply IH, clean_entry_trimmed. Qed.

(** Distinct trimmed keys: the result does not depend on the order of the visit. *)
Definition entry_key (kv : string * string) : string := TrimSpace kv.1.

Lemma clean_entry_lookup m kv k :
  clean_entry m kv !! k =
  if bool_decide (entry_key kv = k /\ k <> "") then Some (TrimSpace kv.2) else m !! k.
Proof.
  unfold clean_entry, entry_key. destruct (String.eqb_spec (TrimSpace kv.1) "") as [E|E].
  - case_bool_decide as Hb; [|done]. destruct Hb as [<- ?]. done.
  - case_bool_decide as Hb.
    + destruct Hb as [<- ?]. by rewrite lookup_insert_eq.
    + rewrite lookup_insert_ne; [done|]. intros <-. by apply Hb.
Qed.

Lemma fold_clean_lookup l m k :
  NoDup (entry_key <$> l) ->
  fold_left clean_entry l m !! k =
  match List.find (fun kv => bool_decide (entry_key kv = k /\ k <> "")) l with
  | Some kv => Some (TrimSpace kv.2)
  | None => m !! k
  end.
Proof.
  revert m. induction l as [|kv l IH]; intros m Hnd; [done|]. cbn [fold_left List.find].
  apply NoDup_cons in Hnd as [Hkv Hnd]. rewrite IH, clean_entry_lookup by done.
  case_bool_decide as Hb; [|done]. destruct Hb as [<- Hne].
  destruct (List.find _ l) as [kv'|] eqn:Hf; [|done]. apply List.find_some in Hf as [Hin Hb].
  apply bool_decide_eq_true_1 in Hb as [Heq _]. exfalso. apply Hkv. rewrite <- Heq.
  apply list_elem_of_fmap_2. by apply list_elem_of_In.
Qed.

Lemma find_perm l1 l2 k :
  l1 ≡ₚ l2 -> NoDup (entry_key <$> l1) ->
  List.find (fun kv => bool_decide (entry_key kv = k /\ k <> "")) l1 =
  List.find (fun kv => bool_decide (entry_key kv = k /\ k <> "")) l2.
Proof.
  intros Hp Hnd. assert (Huniq : forall x y, x ∈ l1 -> y ∈ l1 -> entry_key x = entry_key y -> x = y).
  { intros x y (i & Hi)%list_elem_of_lookup_1 (j & Hj)%list_elem_of_lookup_1 Heq.
    assert (i = j) as ->; [|congruence]. eapply NoDup_lookup; [exact Hnd| |].
    - rewrite list_lookup_fmap, Hi. reflexivity.
    - rewrite list_lookup_fmap, Hj. simpl. by rewrite Heq. }
  destruct (List.find _ l1) as [x|] eqn:H1, (List.find _ l2) as [y|] eqn:H2; try done.
  - apply List.find_some in H1 as [Hx Ex%bool_decide_eq_true_1], H2 as [Hy Ey%bool_decide_eq_true_1].
    f_equal. apply Huniq; [by apply list_elem_of_In| |destruct Ex, Ey; congruence].
    rewrite Hp. by apply list_elem_of_In.
  - apply List.find_some in H1 as [Hx Ex]. apply list_elem_of_In in Hx. rewrite Hp in Hx.
    apply list_elem_of_In in Hx. rewrite (List.find_none _ _ H2 _ Hx) in Ex. done.
  - apply List.find_some in H2 as [Hx Ex]. apply list_elem_of_In in Hx. rewrite <- Hp in Hx.
    apply list_elem_of_In in Hx. rewrite (List.find_none _ _ H1 _ Hx) in Ex. done.
Qed.

Lemma fold_clean_perm l1 l2 :
  l1 ≡ₚ l2 -> NoDup (entry_key <$> l1) -> fold_left clean_entry l1 ∅ = fold_left clean_entry l2 ∅.
Proof.
  intros Hp Hnd. apply map_eq. intros k. rewrite !fold_clean_lookup.
  - by rewrite (find_perm l1 l2) by done.
  - by rewrite <- Hp.
  - done.
Qed.

Lemma trimmed_keys_NoDup m l : trimmed m -> l ≡ₚ map_to_list m -> NoDup (entry_key <$> l).
Proof.
  intros Hm Hl. assert (entry_key <$> l = l.*1) as ->.
  { apply list_fmap_ext. intros i [k v] Hi. cbn. apply list_elem_of_lookup_2 in Hi. rewrite Hl in Hi.
    apply elem_of_map_to_list in Hi. by apply (Hm k v). }
  rewrite Hl. apply NoDup_fst_map_to_list.
Qed.

(** A trimmed selector is left as it is. *)
Lemma clean_selector_trimmed m : trimmed m -> clean_selector (Some m) = Some m.
Proof.
  intros Hm. unfold clean_selector. f_equal. cbn [default from_option id]. apply map_eq. intros k.
  pose proof (range_map_perm m) as Hp. rewrite fold_clean_lookup by (by eapply trimmed_keys_NoDup).
  rewrite lookup_empty. destruct (List.find _ _) as [[k' v]|] eqn:Hf.
  - apply List.find_some in Hf as [Hin Hb%bool_decide_eq_true_1]. apply list_elem_of_In in Hin.
    rewrite Hp in Hin. apply elem_of_map_to_list in Hin. destruct Hb as [Hk _]. unfold entry_key in Hk. cbn [fst snd] in *.
    destruct (Hm _ _ Hin) as (E1 & _ & E3). transitivity (Some v); [by f_equal|]. congruence.
  - destruct (m !! k) as [v|] eqn:Hk; [|done]. destruct (Hm _ _ Hk) as (E1 & E2 & _).
    assert (Hin : (k, v) ∈ range_map m) by (rewrite Hp; by apply elem_of_map_to_list).
    apply list_elem_of_In in Hin. apply (List.find_none _ _ Hf) in Hin. apply bool_decide_eq_false_1 in Hin.
    exfalso. by apply Hin.
Qed.

Lemma clean_selector_idemp s : clean_selector (clean_selector s) = clean_selector s.
Proof. apply clean_selector_trimmed. apply fold_clean_trimmed. apply map_Forall_empty. Qed.

Lemma or_default_trim s d : TrimSpace d = d -> TrimSpace (or_default (TrimSpace s) d) = or_default (TrimSpace s) d.
Proof. intros Hd. unfold or_default. destruct (String.eqb _ _); [done|apply TrimSpace_idemp]. Qed.

Lemma or_default_idemp s d : d <> "" -> or_default (or_default s d) d = or_default s d.
Proof.
  intros Hd. unfold or_default. destruct (String.eqb_spec s "") as [->|Hs].
  - by destruct (String.eqb_spec d "").
  - by destruct (String.eqb_spec s "").
Qed.

Lemma or_default_norm s d :
  TrimSpace d = d -> d <> "" -> or_default (TrimSpace (or_default (TrimSpace s) d)) d = or_default (TrimSpace s) d.
Proof. intros. by rewrite or_default_trim, or_default_idemp. Qed.

Lemma or_default_int_idemp z d : d <> 0 -> or_default_int (or_default_int z d) d = or_default_int z d.
Proof. intros. unfold or_default_int. repeat case_match; bools; congruence. Qed.

Lemma trim_list_idemp (l : list string) : TrimSpace <$> (TrimSpace <$> l) = TrimSpace <$> l.
Proof. rewrite <- list_fmap_compose. apply list_fmap_ext. intros. apply TrimSpace_idemp. Qed.

Lemma trim_mounts_idemp (l : list StorageMount) : trim_mount <$> (trim_mount <$> l) = trim_mount <$> l.
Proof.
  rewrite <- list_fmap_compose. apply list_fmap_ext. intros i [a b] _. unfold trim_mount, compose. cbn.
  by rewrite !TrimSpace_idemp.
Qed.

Lemma selectors_idemp l : normalizePlacementSelectors (normalizePlacementSelectors l) = normalizePlacementSelectors l.
Proof.
  unfold normalizePlacementSelectors. rewrite <- list_fmap_compose. apply list_fmap_ext.
  intros. apply clean_selector_idemp.
Qed.

Lemma Database_normalize_idemp c : Database_normalize (Database_normalize c) = Database_normalize c.
Proof.
  destruct c as [[p|]]; [|done]. unfold Database_normalize. cbn. do 2 f_equal.
  by rewrite !TrimSpace_idemp, !or_default_norm, !or_default_int_idemp by done.
Qed.
End normalize_lemmas.

(** ** Properties of normalization and of the canonical JSON *)

Section canonical.
Context `{AppEnv}.

Lemma Normalize_idemp c : Normalize (Normalize c) = Normalize c.
Proof.
  destruct c as [pull env name image [port health] metrics [dom tls retries] [repl strat] [arch spread pref fall]
    storage secrets [mode] [res unsafe] db hosting].
  unfold Normalize. cbn -[normalizePlacementSelectors Database_normalize normalizeStringList or_default].
  rewrite Database_normalize_idemp, !selectors_idemp, !TrimSpace_idemp, !or_default_norm by done.
  f_equal.
  - destruct metrics as [[mp mpath]|]; cbn; [by rewrite TrimSpace_idemp|done].
  - f_equal. destruct storage; cbn -[or_default]; by rewrite or_default_norm.
  - destruct storage as [[claim path mounts]|]; cbn; [|done]. by rewrite !TrimSpace_idemp, trim_mounts_idemp.
  - apply trim_list_idemp.
Qed.

Lemma FromJSON_JSON c text :
  config_ints c -> config_utf8 c -> Config_JSON c = Ok text -> FromJSON text = Ok (Normalize c).
Proof.
  intros Hi Hu Ht. unfold Config_JSON in Ht. assert (text = json_print (enc_Config c)) as -> by congruence.
  unfold FromJSON. rewrite (json_parse_enc 10) by (first [by apply enc_ok_Config | unfold maxNestingDepth; lia]).
  by rewrite dec_Config_enc.
Qed.

Lemma FromJSON_normalized text c : FromJSON text = Ok c -> Normalize c = c.
Proof. unfold FromJSON. repeat case_match; try done. intros [= <-]. apply Normalize_idemp. Qed.
End canonical.
