(* ===== verification/AppconfigSpec.v ===== *)
(** * What a valid configuration is

    The declarative meaning of [Validate] and the properties of the canonical
    JSON text of a configuration. *)

From S2P Require Import Prelude GoStrings Regexp GoJson GoNet Appconfig.
From Stdlib Require Import Ascii String.
Local Open Scope Z_scope.

(** ** What [FromJSON] yields

    The decoder leaves only valid UTF-8 and 64-bit integers, and normalization keeps
    them: the conditions under which the canonical text is read back. *)

Create HintDb fills.

Lemma fills_utf8 : fills utf8 dec_string.
Proof. exact fills_string. Qed.
Lemma fills_int64 : fills int64 dec_int.
Proof. exact fills_int. Qed.
Lemma fills_bool : fills (fun _ => True) dec_bool.
Proof. apply fills_any. Qed.
Lemma fills_bool_ptr zero : fills (fun _ => True) (dec_ptr zero dec_bool).
Proof. apply fills_any. Qed.
Lemma fills_optional {A} (P : A -> Prop) zero (d : decoder A) : P zero -> fills P d -> fills (on_some P) (dec_ptr zero d).
Proof. apply fills_ptr. Qed.
#[export] Hint Resolve fills_utf8 fills_int64 fills_bool fills_bool_ptr : fills.

(** The fields of a struct one by one. *)
Ltac fill_struct :=
  apply fills_struct; let cur := fresh "cur" in let m := fresh "m" in let a := fresh "a" in let Hc := fresh "Hcur" in let Hm := fresh "Hm" in let E := fresh "E" in
  intros cur m a Hc Hm E; cbv zeta in E;
  repeat match type of E with mbind _ ?x = Some _ => let F := fresh "F" in destruct x eqn:F; [cbn [mbind option_bind] in E|discriminate E] end;
  injection E as <-; cbv beta in *;
  repeat match goal with
  | F : dec_field _ _ _ _ _ = Some _ |- _ => eapply fills_field in F; [|solve [eauto with fills]|tauto|exact Hm]
  end; cbv beta in *; cbn in *; tauto.

Definition ok_service (c : ServiceConfig) : Prop := int64 (Service_Port c) /\ utf8 (Service_HealthPath c).
Definition ok_metrics (c : MetricsConfig) : Prop := int64 (Metrics_Port c) /\ utf8 (Metrics_Path c).
Definition ok_deploy (c : DeployConfig) : Prop := int64 (Deploy_Replicas c) /\ utf8 (Deploy_Strategy c).
Definition ok_placement (c : PlacementConfig) : Prop :=
  utf8 (Placement_Arch c) /\ Forall utf8_labels (Placement_Prefer c) /\ Forall utf8_labels (Placement_Fallback c).
Definition ok_storage (s : StorageConfig) : Prop :=
  utf8 (Storage_ExistingClaim s) /\ utf8 (Storage_MountPath s) /\ Forall utf8_mount (Storage_AdditionalMounts s).
Definition ok_pg_storage (s : PostgresStorageConfig) : Prop := utf8 (PgStorage_Size s) /\ utf8 (PgStorage_StorageClass s).
Definition ok_pg_sync (s : PostgresSynchronousConfig) : Prop := int64 (PgSync_Replicas s) /\ utf8 (PgSync_DataDurability s).
Definition ok_postgres (p : PostgresConfig) : Prop :=
  int64 (Pg_Instances p) /\ utf8 (Pg_Image p) /\ utf8 (Pg_Database p) /\ utf8 (Pg_Owner p) /\ utf8 (Pg_ConnectionEnv p) /\ utf8 (Pg_ConnectionMode p) /\
  ok_pg_storage (Pg_Storage p) /\ ok_pg_sync (Pg_Synchronous p) /\ utf8 (Pg_RetentionPolicy p).
Definition ok_resources (r : HostingResources) : Prop := utf8_quantities (Res_Requests r) /\ utf8_quantities (Res_Limits r).
Definition ok_egress (r : HostingEgressRule) : Prop := utf8 (Egress_CIDR r) /\ on_some (Forall int64) (Egress_Ports r).
Definition ok_network (n : HostingNetwork) : Prop := Forall ok_egress (Network_Egress n).
Definition ok_hosting (h : HostingConfig) : Prop :=
  utf8 (Hosting_Version h) /\ ok_resources (Hosting_Resources h) /\ int64 (Hosting_MaxReplicas h) /\ ok_network (Hosting_Network h).

Record ok_config (c : Config) : Prop := {
  ok_Pull : utf8 (Cfg_ImagePullCredential c); ok_Env : utf8 (Cfg_EnvironmentRevision c); ok_Name : utf8 (Cfg_Name c); ok_Image : utf8 (Cfg_Image c);
  ok_Service : ok_service (Cfg_Service c); ok_Metrics : on_some ok_metrics (Cfg_Metrics c); ok_Domain : utf8 (Routing_Domain (Cfg_Routing c));
  ok_Deploy : ok_deploy (Cfg_Deploy c); ok_Placement : ok_placement (Cfg_Placement c); ok_Storage : on_some ok_storage (Cfg_Storage c);
  ok_Secrets : Forall utf8 (Cfg_Secrets c); ok_State : utf8 (State_Mode (Cfg_State c)); ok_Resilience : utf8 (Resilience_Mode (Cfg_Resilience c));
  ok_Database : on_some ok_postgres (Database_Postgres (Cfg_Database c)); ok_Hosting : on_some ok_hosting (Cfg_Hosting c) }.

Lemma fills_service : fills ok_service dec_ServiceConfig.
Proof.
  assert (fills utf8 dec_HealthConfig) by (apply fills_struct; intros cur m a Hc Hm E; eapply fills_field; [apply fills_utf8|exact Hc|exact Hm|exact E]).
  unfold ok_service. fill_struct.
Qed.
Lemma fills_metrics : fills ok_metrics dec_MetricsConfig.
Proof. unfold ok_metrics. fill_struct. Qed.
Lemma fills_routing : fills (fun c => utf8 (Routing_Domain c)) dec_RoutingConfig.
Proof. fill_struct. Qed.
Lemma fills_deploy : fills ok_deploy dec_DeployConfig.
Proof. unfold ok_deploy. fill_struct. Qed.

Lemma fills_labels : fills utf8_labels dec_labels.
Proof.
  intros cur j a Hc Hj E. assert (H : forall x, dec_map "" dec_string (default ∅ cur) j = Some x -> map_Forall (fun k v => utf8 k /\ utf8 v) x).
  { intros x. apply (fills_map utf8); [done|apply fills_utf8| |done]. destruct cur; [exact Hc|apply map_Forall_empty]. }
  unfold dec_labels in E. destruct j; [by injection E as <-|..]; (destruct (dec_map _ _ _ _) as [x|]; [|done]); injection E as <-; by apply H.
Qed.

Lemma fills_labels_list : fills (Forall utf8_labels) (dec_slice None dec_labels).
Proof. apply fills_slice; [done|apply fills_labels]. Qed.
#[export] Hint Resolve fills_service fills_metrics fills_routing fills_deploy fills_labels_list : fills.

Lemma fills_placement : fills ok_placement dec_PlacementConfig.
Proof. unfold ok_placement. fill_struct. Qed.

Lemma fills_mount : fills utf8_mount dec_StorageMount.
Proof. unfold utf8_mount. fill_struct. Qed.
Lemma fills_mounts : fills (Forall utf8_mount) (dec_slice zero_mount dec_StorageMount).
Proof. apply fills_slice; [done|apply fills_mount]. Qed.
#[export] Hint Resolve fills_placement fills_mounts : fills.

Lemma fills_storage : fills ok_storage dec_StorageConfig.
Proof. unfold ok_storage. fill_struct. Qed.
Lemma fills_state : fills (fun c => utf8 (State_Mode c)) dec_StateConfig.
Proof. fill_struct. Qed.
Lemma fills_resilience : fills (fun c => utf8 (Resilience_Mode c)) dec_ResilienceConfig.
Proof. fill_struct. Qed.
Lemma fills_pg_storage : fills ok_pg_storage dec_PgStorage.
Proof. unfold ok_pg_storage. fill_struct. Qed.
Lemma fills_pg_sync : fills ok_pg_sync dec_PgSync.
Proof. unfold ok_pg_sync. fill_struct. Qed.
#[export] Hint Resolve fills_storage fills_state fills_resilience fills_pg_storage fills_pg_sync : fills.

Lemma fills_postgres : fills ok_postgres dec_PostgresConfig.
Proof. unfold ok_postgres. fill_struct. Qed.

Lemma zero_int : int64 0.
Proof. unfold int64. lia. Qed.

Lemma zero_postgres_ok : ok_postgres zero_postgres.
Proof. unfold ok_postgres, ok_pg_storage, ok_pg_sync. cbn. pose proof zero_int. done. Qed.

Lemma fills_database : fills (fun c => on_some ok_postgres (Database_Postgres c)) dec_DatabaseConfig.
Proof. pose proof (fills_optional _ _ _ zero_postgres_ok fills_postgres). fill_struct. Qed.

Lemma fills_quantities : fills utf8_quantities dec_ResourceQuantities.
Proof. unfold utf8_quantities. fill_struct. Qed.
#[export] Hint Resolve fills_database fills_quantities : fills.

Lemma fills_resources : fills ok_resources dec_HostingResources.
Proof. unfold ok_resources. fill_struct. Qed.

Lemma fills_ports : fills (on_some (Forall int64)) dec_ports.
Proof.
  intros cur j a Hc Hj E. assert (H : forall x, dec_slice 0 dec_int (default [] cur) j = Some x -> Forall int64 x).
  { intros x. apply (fills_slice int64); [apply zero_int|apply fills_int64| |done]. by destruct cur. }
  unfold dec_ports in E. destruct j; [by injection E as <-|..]; (destruct (dec_slice _ _ _ _) as [x|]; [|done]); injection E as <-; by apply H.
Qed.
#[export] Hint Resolve fills_resources fills_ports : fills.

Lemma fills_egress : fills ok_egress dec_HostingEgressRule.
Proof. unfold ok_egress. fill_struct. Qed.
Lemma fills_egresses : fills (Forall ok_egress) (dec_slice zero_egress dec_HostingEgressRule).
Proof. apply fills_slice; [done|apply fills_egress]. Qed.
#[export] Hint Resolve fills_egresses : fills.

Lemma fills_network : fills ok_network dec_HostingNetwork.
Proof. unfold ok_network. fill_struct. Qed.
#[export] Hint Resolve fills_network : fills.

Lemma fills_hosting : fills ok_hosting dec_HostingConfig.
Proof. unfold ok_hosting. fill_struct. Qed.

Lemma fills_config : fills ok_config dec_Config.
Proof.
  assert (H1 : fills (on_some ok_hosting) (dec_ptr zero_hosting dec_HostingConfig)).
  { apply fills_optional; [|apply fills_hosting]. unfold ok_hosting, ok_resources, utf8_quantities, ok_network. cbn. pose proof zero_int. done. }
  assert (H2 : fills (on_some ok_storage) (dec_ptr zero_storage dec_StorageConfig)) by (apply fills_optional; [done|apply fills_storage]).
  assert (H3 : fills (on_some ok_metrics) (dec_ptr {| Metrics_Port := 0; Metrics_Path := "" |} dec_MetricsConfig))
    by (apply fills_optional; [split; [apply zero_int|done]|apply fills_metrics]).
  assert (H4 : fills (Forall utf8) (dec_slice "" dec_string)) by (apply fills_slice; [done|apply fills_utf8]).
  apply fills_struct. intros cur m a [] Hm E. cbv zeta in E.
  repeat match type of E with mbind _ ?x = Some _ => let F := fresh "F" in destruct x eqn:F; [cbn [mbind option_bind] in E|discriminate E] end.
  injection E as <-.
  repeat match goal with
  | F : dec_field _ _ _ _ _ = Some _ |- _ => eapply fills_field in F; [|solve [eauto with fills]|cbv beta; assumption|exact Hm]
  end.
  by constructor.
Qed.

Lemma ok_config_text c : ok_config c -> config_ints c /\ config_utf8 c.
Proof.
  intros [H1 H2 H3 H4 [H5 H5'] H6 H7 [H8 H8'] (H9 & H10 & H11) H12 H13 H14 H15 H16 H17]. split.
  - split; [done|]. split; [by destruct (Cfg_Metrics c); [apply H6|]|]. split; [done|]. split.
    + unfold database_ints. destruct (Database_Postgres _) as [p|]; [|done]. destruct H16 as (? & _ & _ & _ & _ & _ & _ & [? _] & _). done.
    + destruct (Cfg_Hosting c) as [h|]; [|done]. destruct H17 as (_ & _ & Hr & Hn). split; [done|]. eapply Forall_impl; [exact Hn|].
      intros r [_ Hp]. unfold egress_ints. destruct (Egress_Ports r); [exact Hp|by apply Forall_nil].
  - unfold config_utf8. split_and!; try done.
    + destruct (Cfg_Metrics c); [apply H6|done].
    + destruct (Database_Postgres _) as [p|]; [|done]. destruct H16 as (_ & ? & ? & ? & ? & ? & [? ?] & [_ ?] & ?). done.
    + destruct (Cfg_Hosting c) as [h|]; [|done]. destruct H17 as (? & [? ?] & _ & Hn). split; [done|]. split; [done|]. split; [done|].
      eapply Forall_impl; [exact Hn|]. by intros r [? _].
Qed.

Lemma utf8_trim s : utf8 s -> utf8 (TrimSpace s).
Proof. apply TrimSpace_valid. Qed.

Lemma utf8_default s d : utf8 s -> utf8 d -> utf8 (or_default (TrimSpace s) d).
Proof. intros Hs Hd. unfold or_default. destruct (String.eqb _ _); [done|by apply utf8_trim]. Qed.

Lemma int64_default z d : int64 z -> int64 d -> int64 (or_default_int z d).
Proof. intros Hz Hd. unfold or_default_int. by destruct (z =? 0). Qed.

Lemma utf8_selector `{AppEnv} s : utf8_labels s -> utf8_labels (clean_selector s).
Proof.
  intros Hs. unfold clean_selector. cbn [utf8_labels]. assert (Hl : Forall (fun kv => utf8 kv.1 /\ utf8 kv.2) (range_map (default ∅ s))).
  { apply Forall_forall. intros [k v] Hkv. rewrite range_map_perm in Hkv. apply elem_of_map_to_list in Hkv. destruct s as [m|]; [by apply (Hs k v)|].
    cbn in Hkv. by rewrite lookup_empty in Hkv. }
  assert (Hm : map_Forall (fun k v => utf8 k /\ utf8 v) (∅ : gmap string string)) by apply map_Forall_empty.
  revert Hl Hm. generalize (range_map (default ∅ s)). generalize (∅ : gmap string string). intros m0 l0 Hl. revert m0.
  induction Hl as [|kv l [Hk Hv] _ IH]; intros m Hm; [exact Hm|]. cbn [fold_left]. apply IH. unfold clean_entry. destruct (String.eqb _ _); [done|].
  apply map_Forall_insert_2; [|done]. split; by apply utf8_trim.
Qed.

Lemma Forall_fmap_keep {A} (P : A -> Prop) (f : A -> A) l : (forall a, P a -> P (f a)) -> Forall P l -> Forall P (f <$> l).
Proof. intros Hf Hl. apply Forall_fmap. eapply Forall_impl; [exact Hl|]. exact Hf. Qed.

Lemma normalize_ok `{AppEnv} c : ok_config c -> ok_config (Normalize c).
Proof.
  intros [H1 H2 H3 H4 [H5 H5'] H6 H7 [H8 H8'] (H9 & H10 & H11) H12 H13 H14 H15 H16 H17]. constructor; cbn -[or_default]; try done; try by apply utf8_trim.
  - split; [done|by apply utf8_trim].
  - destruct (Cfg_Metrics c); [|done]. destruct H6. split; [done|by apply utf8_trim].
  - split; [done|]. apply utf8_default; [done|]. by destruct (Cfg_Storage c).
  - split; [by apply utf8_default|]. split; (apply Forall_fmap_keep; [apply utf8_selector|done]).
  - destruct (Cfg_Storage c) as [s|]; [|done]. destruct H12 as (? & ? & Hm). split; [by apply utf8_trim|]. split; [by apply utf8_trim|].
    apply Forall_fmap_keep; [|exact Hm]. intros mnt [? ?]. split; by apply utf8_trim.
  - by apply Forall_fmap_keep; [apply utf8_trim|].
  - by apply utf8_default.
  - by apply utf8_default.
  - unfold Database_normalize. destruct (Database_Postgres (Cfg_Database c)) as [p|]; [|done]. destruct H16 as (? & ? & ? & ? & ? & ? & [? ?] & [? ?] & ?).
    unfold ok_postgres, ok_pg_storage, ok_pg_sync. cbn -[or_default or_default_int].
    split_and!; first [by apply utf8_default|by apply utf8_trim|apply int64_default; [done|unfold int64, DefaultPostgresInstances, DefaultPostgresSyncReplicas; lia]].
Qed.

Lemma zero_config_ok : ok_config zero_config.
Proof. pose proof zero_int. constructor; try done; cbn; try done. Qed.

(** Whatever the text was. *)
Lemma FromJSON_ok `{AppEnv} data c : FromJSON data = Ok c -> ok_config c.
Proof.
  unfold FromJSON. destruct (json_parse data) as [j|] eqn:Ej; [|done]. apply json_parse_utf8 in Ej. destruct (dec_Config zero_config j) as [c0|] eqn:Ec; [|done].
  intros [= <-]. apply normalize_ok. exact (fills_config _ _ _ zero_config_ok Ej Ec).
Qed.

Section spec.
Context `{AppEnv}.

(** ** The checks of the validator *)

Definition valid_mount (m : StorageMount) : Prop :=
  Mount_ExistingClaim m <> "" /\ IsDNS1123Subdomain (Mount_ExistingClaim m) = [] /\
  Mount_MountPath m <> "" /\ path_IsAbs (Mount_MountPath m) = true /\
  path_Clean (Mount_MountPath m) = Mount_MountPath m /\ Mount_MountPath m <> "/".

(** Neither path is the other or lies inside the other. *)
Definition disjoint_paths (p q : string) : Prop := mountPathsOverlap p q = false.

Definition valid_storage (c : Config) (s : StorageConfig) : Prop :=
  (List.length (Mounts s) <= 8)%nat /\ Forall valid_mount (Mounts s) /\
  NoDup (Mount_ExistingClaim <$> Mounts s) /\
  (forall i j m n, (i < j)%nat -> Mounts s !! i = Some m -> Mounts s !! j = Some n ->
     disjoint_paths (Mount_MountPath n) (Mount_MountPath m)) /\
  State_Mode (Cfg_State c) = "stateful" /\ Resilience_Mode (Cfg_Resilience c) = "pinned" /\
  Deploy_Replicas (Cfg_Deploy c) = 1 /\ Deploy_Strategy (Cfg_Deploy c) = "recreate" /\
  List.length (Placement_Prefer (Cfg_Placement c)) = 1%nat /\
  blank (first_node_id (Placement_Prefer (Cfg_Placement c))) = false.

Definition valid_secret_name (s : string) : Prop :=
  TrimSpace s <> "" /\ re_match secretNamePattern (TrimSpace s) = true.

Definition positive_quantity (s : string) (q : quantity) : Prop :=
  blank s = false /\ ParseQuantity s = Some q /\ 0 < Quantity_Sign q.

Definition valid_resource (request limit : string) : Prop :=
  exists r l, positive_quantity request r /\ positive_quantity limit l /\ 0 <= Quantity_Cmp l r.

Definition valid_port (p : Z) : Prop := 1 <= p <= 65535.

Definition valid_egress (r : HostingEgressRule) : Prop :=
  is_Some (ParseCIDR (TrimSpace (Egress_CIDR r))) /\
  exists ports, Egress_Ports r = Some ports /\ ports <> [] /\ Forall valid_port ports.

Definition valid_hosting (h : HostingConfig) (replicas : Z) : Prop :=
  Hosting_Version h = "v1" /\ 1 <= Hosting_MaxReplicas h <= 1000 /\ replicas <= Hosting_MaxReplicas h /\
  let req := Res_Requests (Hosting_Resources h) in let lim := Res_Limits (Hosting_Resources h) in
  valid_resource (Res_CPU req) (Res_CPU lim) /\ valid_resource (Res_Memory req) (Res_Memory lim) /\
  valid_resource (Res_EphemeralStorage req) (Res_EphemeralStorage lim) /\
  Forall valid_egress (Network_Egress (Hosting_Network h)).

Definition valid_connection (p : PostgresConfig) (secrets : list string) : Prop :=
  (Pg_ConnectionMode p = "managed" /\ Pg_ConnectionEnv p ∉ managedPostgresEnvs /\
   Pg_ConnectionEnv p ∉ secrets /\ Forall (fun e => e ∉ secrets) managedPostgresEnvs) \/
  (Pg_ConnectionMode p = "external" /\ Pg_ConnectionEnv p ∈ secrets).

Definition valid_postgres (name arch : string) (secrets : list string) (p : PostgresConfig) : Prop :=
  slen (name +:+ "-db") <= 50 /\ IsDNS1035Label (name +:+ "-db") = [] /\ arch ∈ ["linux/amd64"; "linux/arm64"] /\
  3 <= Pg_Instances p <= 9 /\ (exists major, PostgresImageMajor (Pg_Image p) = Ok major) /\
  re_match postgresIdentifierPattern (Pg_Database p) = true /\ Pg_Database p ∉ reservedPostgresDatabases /\
  re_match postgresIdentifierPattern (Pg_Owner p) = true /\ Pg_Owner p ∉ reservedPostgresOwners /\
  HasPrefix (Pg_Owner p) "pg_" = false /\ HasPrefix (Pg_Owner p) "cnpg_" = false /\
  valid_secret_name (Pg_ConnectionEnv p) /\ valid_connection p secrets /\
  (exists q, ParseQuantity (PgStorage_Size (Pg_Storage p)) = Some q /\ 0 < Quantity_Sign q /\
     0 <= Quantity_Cmp q minimumPostgresStorage) /\
  PgStorage_StorageClass (Pg_Storage p) <> "" /\ IsDNS1123Subdomain (PgStorage_StorageClass (Pg_Storage p)) = [] /\
  1 <= PgSync_Replicas (Pg_Synchronous p) < Pg_Instances p /\
  PgSync_DataDurability (Pg_Synchronous p) ∈ ["required"; "preferred"] /\ Pg_RetentionPolicy p = "retain".

(** The whole configuration. *)
Record valid_config (c : Config) : Prop := {
  vc_pull : Cfg_ImagePullCredential c = "" \/ ValidRevision (Cfg_ImagePullCredential c) = true;
  vc_env : Cfg_EnvironmentRevision c = "" \/ (ValidRevision (Cfg_EnvironmentRevision c) = true /\ Cfg_Secrets c = []);
  vc_name : ValidAppName (Cfg_Name c) = true;
  vc_image : Cfg_Image c <> "";
  vc_port : valid_port (Service_Port (Cfg_Service c));
  vc_health : HasPrefix (Service_HealthPath (Cfg_Service c)) "/" = true;
  vc_tls : Routing_RequireTLS (Cfg_Routing c) = true -> Routing_Domain (Cfg_Routing c) <> "";
  vc_metrics : on_some (fun m => valid_port (Metrics_Port m) /\ HasPrefix (Metrics_Path m) "/" = true) (Cfg_Metrics c);
  vc_replicas : 1 <= Deploy_Replicas (Cfg_Deploy c);
  vc_state : State_Mode (Cfg_State c) ∈ ["stateless"; "stateful"; "cache"];
  vc_resilience : Resilience_Mode (Cfg_Resilience c) ∈ ["basic"; "resilient"; "fallback"; "pinned"];
  vc_failover : State_Mode (Cfg_State c) = "stateless" \/
                Resilience_Mode (Cfg_Resilience c) ∈ ["basic"; "pinned"] \/
                Resilience_AllowUnsafe (Cfg_Resilience c) = true;
  vc_fallback : Resilience_Mode (Cfg_Resilience c) = "fallback" ->
                Placement_Prefer (Cfg_Placement c) <> [] /\ Placement_Fallback (Cfg_Placement c) <> [];
  vc_pinned : Resilience_Mode (Cfg_Resilience c) = "pinned" -> List.length (Placement_Prefer (Cfg_Placement c)) = 1%nat;
  vc_storage : on_some (valid_storage c) (Cfg_Storage c);
  vc_secrets : Forall valid_secret_name (Cfg_Secrets c) /\ NoDup (Cfg_Secrets c);
  vc_postgres : on_some (valid_postgres (Cfg_Name c) (Placement_Arch (Cfg_Placement c)) (Cfg_Secrets c))
                  (Database_Postgres (Cfg_Database c));
  vc_hosting : on_some (fun h => valid_hosting h (hosting_replicas c)) (Cfg_Hosting c);
  vc_hosting_db : is_Some (Cfg_Hosting c) -> is_managed_postgres c = false
}.

(** ** The loops and checks, one by one *)

Lemma ValidateSecretName_ok s : ValidateSecretName s = Ok tt <-> valid_secret_name s.
Proof.
  unfold ValidateSecretName, valid_secret_name. cbv zeta. rewrite check_bind, check_ok, negb_false_iff.
  by rewrite String.eqb_neq.
Qed.

Lemma validateStorageMount_ok label m : validateStorageMount label m = Ok tt <-> valid_mount m.
Proof.
  unfold validateStorageMount, valid_mount. rewrite !check_bind, check_ok.
  rewrite !orb_false_iff, !negb_false_iff, bool_decide_eq_true, !String.eqb_neq, String.eqb_eq. tauto.
Qed.

Lemma validate_mounts_ok index seen rest :
  validate_mounts index seen rest = Ok tt <->
  Forall valid_mount rest /\
  (forall i m, rest !! i = Some m ->
     Forall (fun p => Mount_ExistingClaim p <> Mount_ExistingClaim m /\
                      disjoint_paths (Mount_MountPath m) (Mount_MountPath p)) (seen ++ take i rest)%list).
Proof.
  revert index seen. induction rest as [|m rest IH]; intros index seen; cbn [validate_mounts].
  { split; [|done]. intros _. split; [constructor|]. intros i m Hm. done. }
  cbv zeta. rewrite bind_unit_ok, !check_bind, validateStorageMount_ok, IH, Forall_cons.
  assert (Hseen : existsb (fun p => String.eqb (Mount_ExistingClaim p) (Mount_ExistingClaim m)) seen = false /\
      existsb (fun p => mountPathsOverlap (Mount_MountPath m) (Mount_MountPath p)) seen = false <->
    Forall (fun p => Mount_ExistingClaim p <> Mount_ExistingClaim m /\
                     disjoint_paths (Mount_MountPath m) (Mount_MountPath p)) seen).
  { clear IH. induction seen as [|p seen IHs]; cbn [existsb]; [rewrite Forall_nil; tauto|].
    rewrite Forall_cons, !orb_false_iff, <- IHs, String.eqb_neq. unfold disjoint_paths. tauto. }
  split.
  - intros (Hm & H1 & H2 & HF & Hall). split; [done|]. intros [|i] m' Hi; cbn in Hi.
    + injection Hi as <-. rewrite take_0, app_nil_r. by apply Hseen.
    + specialize (Hall i m' Hi). by rewrite <- app_assoc in Hall.
  - intros ((Hm & HF) & Hall). pose proof (Hall 0%nat m eq_refl) as H0. rewrite take_0, app_nil_r in H0.
    apply Hseen in H0 as [H1 H2]. split; [done|]. split; [done|]. split; [done|]. split; [done|].
    intros i m' Hi. rewrite <- app_assoc. exact (Hall (S i) m' Hi).
Qed.

Lemma validate_secrets_ok i seen rest res :
  validate_secrets i seen rest = Ok res <->
  res = (rev rest ++ seen)%list /\ Forall valid_secret_name rest /\ NoDup rest /\ Forall (fun s => s ∉ seen) rest.
Proof.
  revert i seen. induction rest as [|s rest IH]; intros i seen; cbn [validate_secrets rev].
  { split; [intros [= <-]|intros (-> & _)]; [|done].
    split; [done|]. split; [constructor|]. split; constructor. }
  destruct (ValidateSecretName s) as [[]|e] eqn:Hs.
  2:{ split; [done|]. intros (_ & HF & _). apply Forall_cons in HF as [HF%ValidateSecretName_ok _]. congruence. }
  apply ValidateSecretName_ok in Hs. case_bool_decide as Hin.
  { split; [done|]. intros (_ & _ & _ & HF). apply Forall_cons in HF as [? _]. done. }
  rewrite IH, !Forall_cons, NoDup_cons, <- app_assoc. cbn [app].
  assert (Hsn : Forall (fun x => x ∉ s :: seen) rest <-> s ∉ rest /\ Forall (fun x => x ∉ seen) rest).
  { rewrite !Forall_forall. setoid_rewrite not_elem_of_cons. split.
    - intros HF. split; [intros Hsr; by destruct (HF s Hsr)|]. intros x Hx. by apply HF.
    - intros [Hsr HF] x Hx. split; [by intros ->|by apply HF]. }
  rewrite Hsn. tauto.
Qed.

Lemma parse_positive_ok prefix name value q :
  parse_positive prefix name value = Ok q <-> positive_quantity value q.
Proof.
  unfold parse_positive, positive_quantity. rewrite check_bind. destruct (ParseQuantity value) as [q'|].
  - rewrite check_bind, Z.leb_gt. split; [intros (? & ? & [= <-])|intros (? & [= <-] & ?)]; auto.
  - naive_solver.
Qed.

Lemma parseResourceQuantities_ok values prefix c m s :
  parseResourceQuantities values prefix = Ok (c, m, s) <->
  positive_quantity (Res_CPU values) c /\ positive_quantity (Res_Memory values) m /\
  positive_quantity (Res_EphemeralStorage values) s.
Proof.
  unfold parseResourceQuantities. split.
  - intros (c' & Hc & H1)%bind_ok. apply bind_ok in H1 as (m' & Hm & H2). apply bind_ok in H2 as (s' & Hs & [= -> -> ->]).
    by apply parse_positive_ok in Hc, Hm, Hs.
  - intros (Hc & Hm & Hs). apply bind_ok. exists c. split; [by apply parse_positive_ok|].
    apply bind_ok. exists m. split; [by apply parse_positive_ok|].
    apply bind_ok. exists s. split; [by apply parse_positive_ok|done].
Qed.

Lemma validate_ports_ok index j ports : validate_ports index j ports = Ok tt <-> Forall valid_port ports.
Proof.
  revert j. induction ports as [|p ports IH]; intros j; cbn [validate_ports]; [by rewrite Forall_nil|].
  rewrite check_bind, Forall_cons, IH, orb_false_iff, !Z.ltb_ge. unfold valid_port. tauto.
Qed.

Lemma validate_egress_ok index rules : validate_egress index rules = Ok tt <-> Forall valid_egress rules.
Proof.
  revert index. induction rules as [|r rules IH]; intros index; cbn [validate_egress]; [by rewrite Forall_nil|].
  cbv zeta. rewrite !check_bind, bind_unit_ok, validate_ports_ok, IH, Forall_cons, !bool_decide_eq_false.
  unfold valid_egress. rewrite <- not_eq_None_Some.
  assert (Hp : default [] (Egress_Ports r) <> [] /\ Forall valid_port (default [] (Egress_Ports r)) <->
    exists ports, Egress_Ports r = Some ports /\ ports <> [] /\ Forall valid_port ports).
  { destruct (Egress_Ports r) as [ports|]; cbn; naive_solver. }
  rewrite <- Hp. tauto.
Qed.

Lemma Hosting_Validate_ok h replicas :
  Hosting_Validate h replicas = Ok tt <-> on_some (fun h => valid_hosting h replicas) h.
Proof.
  destruct h as [h|]; [|done]. cbn [Hosting_Validate on_some]. rewrite !check_bind.
  unfold valid_hosting, valid_resource. cbv zeta. rewrite <- (validate_egress_ok 0).
  rewrite negb_false_iff, String.eqb_eq, orb_false_iff, !Z.ltb_ge, bind_ok. split.
  - intros (? & ? & ? & [[rc rm] rs] & Hr%parseResourceQuantities_ok & Hl).
    apply bind_ok in Hl as ([[lc lm] ls] & Hlq%parseResourceQuantities_ok & Hl'). unfold limit_covers in Hl'.
    rewrite !check_bind, !Z.ltb_ge in Hl'. split; [done|]. split; [lia|]. split; [done|]. naive_solver.
  - intros (? & ? & ? & (rc & lc & ? & ? & ?) & (rm & lm & ? & ? & ?) & (rs & ls & ? & ? & ?) & ?).
    split; [done|]. split; [lia|]. split; [done|]. exists (rc, rm, rs).
    split; [by apply parseResourceQuantities_ok|]. apply bind_ok. exists (lc, lm, ls).
    split; [by apply parseResourceQuantities_ok|]. unfold limit_covers. rewrite !check_bind, !Z.ltb_ge. auto.
Qed.

Lemma first_reserved_None names secrets : first_reserved names secrets = None <-> Forall (fun e => e ∉ secrets) names.
Proof.
  unfold first_reserved. induction names as [|n names IH]; cbn [List.find]; [by rewrite Forall_nil|].
  rewrite Forall_cons. case_bool_decide; [naive_solver|]. tauto.
Qed.

Lemma validatePostgresConnection_ok p secrets :
  validatePostgresConnection p secrets = Ok tt <-> valid_connection p secrets.
Proof.
  unfold validatePostgresConnection, valid_connection, PostgresConnectionModeManaged, PostgresConnectionModeExternal.
  cbv zeta. destruct (String.eqb_spec (Pg_ConnectionMode p) "managed") as [->|Hm].
  - rewrite !check_bind, !bool_decide_eq_false. destruct (first_reserved _ _) eqn:Hf.
    + split; [naive_solver|]. intros [(_ & _ & _ & HF)|[? _]]; [|done].
      apply first_reserved_None in HF. congruence.
    + apply first_reserved_None in Hf. naive_solver.
  - destruct (String.eqb_spec (Pg_ConnectionMode p) "external") as [->|He].
    + rewrite check_ok, negb_false_iff, bool_decide_eq_true. naive_solver.
    + naive_solver.
Qed.

Lemma validatePostgresStorage_ok s :
  validatePostgresStorage s = Ok tt <->
  (exists q, ParseQuantity (PgStorage_Size s) = Some q /\ 0 < Quantity_Sign q /\ 0 <= Quantity_Cmp q minimumPostgresStorage) /\
  PgStorage_StorageClass s <> "" /\ IsDNS1123Subdomain (PgStorage_StorageClass s) = [].
Proof.
  unfold validatePostgresStorage. destruct (ParseQuantity _) as [q|]; [|naive_solver].
  rewrite !check_bind, check_ok, Z.leb_gt, Z.ltb_ge, String.eqb_neq, negb_false_iff, bool_decide_eq_true. naive_solver.
Qed.

Lemma wrapped_ok {A} (r : result A) (wrap : error -> error) :
  match r with Ok _ => Ok tt | Err e => Err (wrap e) end = Ok tt <-> exists a, r = Ok a.
Proof. destruct r; naive_solver. Qed.

Lemma Database_validate_ok c name arch secrets :
  Database_validate c name arch secrets = Ok tt <-> on_some (valid_postgres name arch secrets) (Database_Postgres c).
Proof.
  unfold Database_validate. destruct (Database_Postgres c) as [p|]; [|done]. cbv zeta. cbn [on_some].
  unfold valid_postgres, PostgresRetentionPolicyRetain, PostgresDataDurabilityRequired, PostgresDataDurabilityPreferred.
  rewrite !bind_unit_ok, !check_ok, validatePostgresConnection_ok, validatePostgresStorage_ok, !wrapped_ok.
  assert (Hs : (exists a, ValidateSecretName (Pg_ConnectionEnv p) = Ok a) <-> valid_secret_name (Pg_ConnectionEnv p)).
  { rewrite <- ValidateSecretName_ok. split; [intros [[] ?]|]; naive_solver. }
  rewrite Hs, !orb_false_iff, !negb_false_iff, !bool_decide_eq_true, !bool_decide_eq_false, String.eqb_eq,
    !Z.ltb_ge, Z.leb_gt.
  split; intros; destruct_and!; repeat (split; [lia || done|]); try (done || lia); naive_solver.
Qed.

Lemma take_pairs {A} (P : A -> A -> Prop) (l : list A) :
  (forall i m, l !! i = Some m -> Forall (P m) (take i l)) <->
  (forall i j m n, (i < j)%nat -> l !! i = Some m -> l !! j = Some n -> P n m).
Proof.
  split.
  - intros Hall i j m n Hij Hi Hj. specialize (Hall j n Hj). rewrite Forall_lookup in Hall.
    apply (Hall i). by rewrite lookup_take_lt.
  - intros Hall j n Hj. apply Forall_lookup. intros i m Hi.
    assert (i < j)%nat by (apply lookup_lt_Some in Hi; rewrite length_take in Hi; lia).
    rewrite lookup_take_lt in Hi by done. by eapply Hall.
Qed.

Lemma NoDup_pairs {A B} (f : A -> B) (l : list A) :
  NoDup (f <$> l) <-> forall i j m n, (i < j)%nat -> l !! i = Some m -> l !! j = Some n -> f m <> f n.
Proof.
  rewrite NoDup_alt. split.
  - intros Hnd i j m n Hij Hi Hj Heq. assert (i = j); [|lia].
    apply (Hnd i j (f m)); [by rewrite list_lookup_fmap, Hi|by rewrite list_lookup_fmap, Hj, Heq].
  - intros Hp i j x Hi Hj. rewrite list_lookup_fmap in Hi, Hj.
    destruct (l !! i) as [m|] eqn:Ei; [|done]. destruct (l !! j) as [n|] eqn:Ej; [|done]. simplify_eq/=.
    destruct (decide (i = j)); [done|]. exfalso. destruct (decide (i < j)%nat).
    + by eapply (Hp i j).
    + eapply (Hp j i); [lia|done|done|done].
Qed.

Lemma validateStorage_ok c : validateStorage c = Ok tt <-> on_some (valid_storage c) (Cfg_Storage c).
Proof.
  unfold validateStorage. destruct (Cfg_Storage c) as [s|]; [|done]. cbn [on_some].
  unfold valid_storage, ResiliencePinned, DeployStrategyRecreate.
  rewrite !bind_unit_ok, !check_ok, validate_mounts_ok, orb_false_iff, !negb_false_iff, !String.eqb_eq, !Z.eqb_eq, Z.ltb_ge.
  assert (Hp : (forall i m, Mounts s !! i = Some m ->
      Forall (fun p => Mount_ExistingClaim p <> Mount_ExistingClaim m /\
                       disjoint_paths (Mount_MountPath m) (Mount_MountPath p)) ([] ++ take i (Mounts s))%list) <->
    NoDup (Mount_ExistingClaim <$> Mounts s) /\
    (forall i j m n, (i < j)%nat -> Mounts s !! i = Some m -> Mounts s !! j = Some n ->
      disjoint_paths (Mount_MountPath n) (Mount_MountPath m))).
  { cbn [app]. rewrite (take_pairs (fun m p => Mount_ExistingClaim p <> Mount_ExistingClaim m /\
      disjoint_paths (Mount_MountPath m) (Mount_MountPath p))), NoDup_pairs.
    split; [|naive_solver]. intros Hall. split; intros; by eapply Hall. }
  rewrite Hp. assert (Hl : List.length (Mounts s) = S (List.length (Storage_AdditionalMounts s))) by done. rewrite Hl.
  split; intros; destruct_and!; repeat (split; [done || lia|]); try done; lia.
Qed.

Lemma validate_metrics_ok m :
  validate_metrics m = Ok tt <->
  on_some (fun m => valid_port (Metrics_Port m) /\ HasPrefix (Metrics_Path m) "/" = true) m.
Proof.
  destruct m as [m|]; [|done]. cbn [validate_metrics on_some].
  rewrite !bind_unit_ok, !check_ok, orb_false_iff, !Z.ltb_ge, negb_false_iff, String.eqb_neq. unfold valid_port.
  split; intros; destruct_and!; split_and!; try done; try lia. by intros E; rewrite E in *.
Qed.

Lemma elem_of_pair (x a b : string) : x ∈ [a; b] <-> x = a \/ x = b.
Proof. rewrite !elem_of_cons, elem_of_nil. tauto. Qed.

Lemma neq_or_imp (x y : string) P : x <> y \/ P <-> (x = y -> P).
Proof. destruct (decide (x = y)); naive_solver. Qed.

Lemma false_or_imp (b : bool) P : b = false \/ P <-> (b = true -> P).
Proof. destruct b; naive_solver. Qed.

(** [Validate] accepts exactly the configurations that satisfy [valid_config]. *)
Lemma Validate_valid_config c : Validate c = Ok tt <-> valid_config c.
Proof.
  unfold Validate. cbv zeta.
  assert (Hsec : forall (f : list string -> result unit),
    mbind f (validate_secrets 0 [] (Cfg_Secrets c)) = Ok tt <->
    (Forall valid_secret_name (Cfg_Secrets c) /\ NoDup (Cfg_Secrets c)) /\ f (rev (Cfg_Secrets c)) = Ok tt).
  { intros f. rewrite bind_ok. setoid_rewrite validate_secrets_ok. setoid_rewrite app_nil_r.
    assert (Forall (fun s => s ∉ @nil string) (Cfg_Secrets c)) by (apply Forall_forall; intros; apply not_elem_of_nil).
    naive_solver. }
  rewrite !bind_unit_ok, Hsec, !bind_unit_ok, !check_ok, validate_metrics_ok, validateStorage_ok, Database_validate_ok,
    Hosting_Validate_ok.
  rewrite !andb_false_iff, !orb_false_iff, !negb_false_iff, !Z.ltb_ge, !bool_decide_eq_true, !bool_decide_eq_false,
    !String.eqb_eq, !String.eqb_neq, !Z.eqb_neq, !Z.eqb_eq.
  unfold DefaultStateMode, ResilienceResilient, ResilienceFallback, ResiliencePinned, ResilienceBasic.
  assert (Hrev : forall p, valid_postgres (Cfg_Name c) (Placement_Arch (Cfg_Placement c)) (rev (Cfg_Secrets c)) p <->
    valid_postgres (Cfg_Name c) (Placement_Arch (Cfg_Placement c)) (Cfg_Secrets c) p).
  { intros p. unfold valid_postgres, valid_connection. rewrite !Forall_forall.
    setoid_rewrite list_elem_of_In. setoid_rewrite <- in_rev. done. }
  assert (Hpg : on_some (valid_postgres (Cfg_Name c) (Placement_Arch (Cfg_Placement c)) (rev (Cfg_Secrets c)))
      (Database_Postgres (Cfg_Database c)) <->
    on_some (valid_postgres (Cfg_Name c) (Placement_Arch (Cfg_Placement c)) (Cfg_Secrets c))
      (Database_Postgres (Cfg_Database c))) by (destruct (Database_Postgres _); [apply Hrev|done]).
  rewrite Hpg. clear Hsec Hrev Hpg.
  rewrite !neq_or_imp. unfold ValidAppName, valid_port. split.
  - intros. destruct_and!. constructor; try done.
    + naive_solver.
    + apply andb_true_iff. split; [by apply Z.leb_le|done].
    + by apply false_or_imp.
    + rewrite elem_of_pair. match goal with Hx : _ ∈ ["basic"; _; _; _] |- _ => rewrite !elem_of_cons, elem_of_nil in Hx end.
      tauto.
    + intros E. match goal with Hx : Resilience_Mode _ = "pinned" -> _ |- _ => specialize (Hx E) end. lia.
    + match goal with Hx : _ \/ is_managed_postgres c = false |- _ => destruct Hx; tauto end.
  - intros [? Henv Hname ? Hport Hhealth Htls ? ? ? ? Hfail ? Hpin ? ? ? ? Hmanaged].
    apply andb_true_iff in Hname as [Hn1 Hn2]. apply Z.leb_le in Hn1.
    rewrite <- (false_or_imp (Routing_RequireTLS _)) in Htls. unfold valid_port in Hport.
    split_and?; try done; try lia; try tauto.
    + intros E. by rewrite E in Hn2.
    + intros E. by rewrite E in Hhealth.
    + rewrite elem_of_pair in Hfail. destruct Hfail as [?|[[E|E]|?]]; try tauto; rewrite E; left; right; by split.
    + intros E. by rewrite (Hpin E).
    + destruct (is_managed_postgres c); [|by right]. left. intros Hs. by specialize (Hmanaged Hs).
Qed.
End spec.

(** ** What a user may write

    The specification in terms of the text of the fields alone: names, paths, images and
    lists are described byte by byte, without the routines and patterns of the validator. *)

Definition between (lo hi a : ascii) : bool := (b2z lo <=? b2z a) && (b2z a <=? b2z hi).
Definition lowercase : ascii -> bool := between "a" "z".
Definition letter (a : ascii) : bool := lowercase a || between "A" "Z" a.
Definition digit : ascii -> bool := between "0" "9".
Definition one_of (s : string) (a : ascii) : bool := exists_byte (Ascii.eqb a) s.

(** 64 lower-case hexadecimal digits. *)
Definition hex64 (s : string) : Prop := String.length s = 64%nat /\ forall_byte (fun a => between "a" "f" a || digit a) s = true.

(** A DNS label: at most 63 lower-case letters, digits and hyphens, none at either end. *)
Definition dns_name (s : string) : Prop :=
  s <> "" /\ (String.length s <= 63)%nat /\ forall_byte (fun a => lowercase a || digit a || one_of "-" a) s = true /\
  (forall t, s <> "-" +:+ t) /\ (forall t, s <> t +:+ "-").

(** A name of an environment variable, with spaces around it. *)
Definition variable_name (s : string) : Prop := exists a t, TrimSpace s = String a t /\
  (letter a || one_of "_" a) = true /\ forall_byte (fun a => letter a || digit a || one_of "_" a) t = true.

Definition sql_identifier (s : string) : Prop := exists a t, s = String a t /\ (String.length t <= 62)%nat /\
  (lowercase a || one_of "_" a) = true /\ forall_byte (fun a => lowercase a || digit a || one_of "_" a) t = true.

(** A path below the root, written without empty, [.] and [..] elements. *)
Definition path_element (e : string) : Prop := e <> "" /\ e <> "." /\ e <> ".." /\ exists_byte (Ascii.eqb "/") e = false.
Definition slashed (l : list string) : string := foldr (fun e s => "/" +:+ e +:+ s) "" l.
Definition clean_path (p : string) : Prop := exists l, l <> [] /\ Forall path_element l /\ p = slashed l.

(** A path inside a mount: the mount point itself or below it. *)
Definition inside (mount path : string) : Prop := path = mount \/ exists rest, path = mount +:+ "/" +:+ rest.

(** [reference:MAJOR(.MINOR)*SUFFIX@sha256:DIGEST] with a major version from 14 to 18. *)
Definition digits (s : string) : Prop := s <> "" /\ forall_byte digit s = true.
Definition reference_byte (a : ascii) : bool := negb (one_of "@ " a || existsb (fun n => b2z a =? n) [9; 10; 12; 13]).
Definition image_suffix (s : string) : Prop := s = "" \/ exists a t, s = String a t /\
  (letter a || one_of "_-" a) = true /\ forall_byte (fun a => letter a || digit a || one_of "_.-" a) t = true.
Definition postgres_image (image : string) : Prop := exists ref major minors suffix digest,
  image = ref +:+ ":" +:+ major +:+ foldr (fun m s => "." +:+ m +:+ s) "" minors +:+ suffix +:+ "@sha256:" +:+ digest /\
  ref <> "" /\ forall_byte reference_byte ref = true /\ digits major /\ Forall digits minors /\ image_suffix suffix /\ hex64 digest /\
  14 <= digits_val major 0 <= 18.

Section acceptable.
Context `{AppEnv}.

Definition acceptable_mount (m : StorageMount) : Prop :=
  Mount_ExistingClaim m <> "" /\ IsDNS1123Subdomain (Mount_ExistingClaim m) = [] /\ clean_path (Mount_MountPath m).

(** At most eight claims, each mounted once, and no path inside two mounts, for one
    replica that is pinned to a named node and recreated. *)
Definition acceptable_storage (c : Config) (s : StorageConfig) : Prop :=
  let mounts := {| Mount_ExistingClaim := Storage_ExistingClaim s; Mount_MountPath := Storage_MountPath s |} :: Storage_AdditionalMounts s in
  (List.length mounts <= 8)%nat /\ Forall acceptable_mount mounts /\
  (forall i j m n, mounts !! i = Some m -> mounts !! j = Some n -> i <> j ->
     Mount_ExistingClaim m <> Mount_ExistingClaim n /\ forall path, inside (Mount_MountPath m) path -> ~ inside (Mount_MountPath n) path) /\
  State_Mode (Cfg_State c) = "stateful" /\ Resilience_Mode (Cfg_Resilience c) = "pinned" /\
  Deploy_Replicas (Cfg_Deploy c) = 1 /\ Deploy_Strategy (Cfg_Deploy c) = "recreate" /\
  exists selector node, Placement_Prefer (Cfg_Placement c) = [Some selector] /\ selector !! "node-id" = Some node /\ TrimSpace node <> "".

Definition transport_variables : list string := ["PGSSLMODE"; "PGCHANNELBINDING"; "PGREQUIREAUTH"].

Definition acceptable_connection (p : PostgresConfig) (secrets : list string) : Prop :=
  (Pg_ConnectionMode p = "managed" /\ Pg_ConnectionEnv p ∉ transport_variables /\ Pg_ConnectionEnv p ∉ secrets /\
   forall name, name ∈ transport_variables -> name ∉ secrets) \/
  (Pg_ConnectionMode p = "external" /\ Pg_ConnectionEnv p ∈ secrets).

Definition acceptable_postgres (c : Config) (p : PostgresConfig) : Prop :=
  slen (Cfg_Name c) <= 47 /\ IsDNS1035Label (Cfg_Name c +:+ "-db") = [] /\
  Placement_Arch (Cfg_Placement c) ∈ ["linux/amd64"; "linux/arm64"] /\ 3 <= Pg_Instances p <= 9 /\ postgres_image (Pg_Image p) /\
  sql_identifier (Pg_Database p) /\ Pg_Database p ∉ ["postgres"; "template0"; "template1"] /\
  sql_identifier (Pg_Owner p) /\ Pg_Owner p ∉ ["postgres"; "streaming_replica"] /\ (forall t, Pg_Owner p <> "pg_" +:+ t) /\ (forall t, Pg_Owner p <> "cnpg_" +:+ t) /\
  variable_name (Pg_ConnectionEnv p) /\ acceptable_connection p (Cfg_Secrets c) /\
  (exists size least, ParseQuantity (PgStorage_Size (Pg_Storage p)) = Some size /\ ParseQuantity "1Gi" = Some least /\
     0 < Quantity_Sign size /\ 0 <= Quantity_Cmp size least) /\
  PgStorage_StorageClass (Pg_Storage p) <> "" /\ IsDNS1123Subdomain (PgStorage_StorageClass (Pg_Storage p)) = [] /\
  1 <= PgSync_Replicas (Pg_Synchronous p) < Pg_Instances p /\
  PgSync_DataDurability (Pg_Synchronous p) ∈ ["required"; "preferred"] /\ Pg_RetentionPolicy p = "retain".

(** The ceiling covers the replicas, and the two that a resilient app is given at least. *)
Definition acceptable_hosting (c : Config) (h : HostingConfig) : Prop :=
  Hosting_Version h = "v1" /\ 1 <= Hosting_MaxReplicas h <= 1000 /\ Deploy_Replicas (Cfg_Deploy c) <= Hosting_MaxReplicas h /\
  (Resilience_Mode (Cfg_Resilience c) = "resilient" -> 2 <= Hosting_MaxReplicas h) /\
  (forall field, field ∈ [Res_CPU; Res_Memory; Res_EphemeralStorage] ->
     exists request limit, ParseQuantity (field (Res_Requests (Hosting_Resources h))) = Some request /\
       ParseQuantity (field (Res_Limits (Hosting_Resources h))) = Some limit /\
       TrimSpace (field (Res_Requests (Hosting_Resources h))) <> "" /\ TrimSpace (field (Res_Limits (Hosting_Resources h))) <> "" /\
       0 < Quantity_Sign request /\ 0 < Quantity_Sign limit /\ 0 <= Quantity_Cmp limit request) /\
  (forall rule, rule ∈ Network_Egress (Hosting_Network h) -> is_Some (ParseCIDR (TrimSpace (Egress_CIDR rule))) /\
     exists ports, Egress_Ports rule = Some ports /\ ports <> [] /\ forall port, port ∈ ports -> 1 <= port <= 65535) /\
  forall p, Database_Postgres (Cfg_Database c) = Some p -> Pg_ConnectionMode p <> "managed".

Record acceptable (c : Config) : Prop := {
  ac_pull : Cfg_ImagePullCredential c = "" \/ hex64 (Cfg_ImagePullCredential c);
  ac_environment : Cfg_EnvironmentRevision c = "" \/ (hex64 (Cfg_EnvironmentRevision c) /\ Cfg_Secrets c = []);
  ac_name : dns_name (Cfg_Name c);
  ac_image : Cfg_Image c <> "";
  ac_port : 1 <= Service_Port (Cfg_Service c) <= 65535;
  ac_health : exists t, Service_HealthPath (Cfg_Service c) = "/" +:+ t;
  ac_tls : Routing_RequireTLS (Cfg_Routing c) = true -> Routing_Domain (Cfg_Routing c) <> "";
  ac_metrics : forall m, Cfg_Metrics c = Some m -> 1 <= Metrics_Port m <= 65535 /\ exists t, Metrics_Path m = "/" +:+ t;
  ac_replicas : 1 <= Deploy_Replicas (Cfg_Deploy c);
  ac_state : State_Mode (Cfg_State c) ∈ ["stateless"; "stateful"; "cache"];
  ac_resilience : Resilience_Mode (Cfg_Resilience c) ∈ ["basic"; "resilient"; "fallback"; "pinned"];
  ac_failover : Resilience_Mode (Cfg_Resilience c) ∈ ["resilient"; "fallback"] -> State_Mode (Cfg_State c) <> "stateless" ->
                Resilience_AllowUnsafe (Cfg_Resilience c) = true;
  ac_fallback : Resilience_Mode (Cfg_Resilience c) = "fallback" ->
                Placement_Prefer (Cfg_Placement c) <> [] /\ Placement_Fallback (Cfg_Placement c) <> [];
  ac_pinned : Resilience_Mode (Cfg_Resilience c) = "pinned" -> exists selector, Placement_Prefer (Cfg_Placement c) = [selector];
  ac_storage : forall s, Cfg_Storage c = Some s -> acceptable_storage c s;
  ac_secrets : NoDup (Cfg_Secrets c) /\ forall name, name ∈ Cfg_Secrets c -> variable_name name;
  ac_postgres : forall p, Database_Postgres (Cfg_Database c) = Some p -> acceptable_postgres c p;
  ac_hosting : forall h, Cfg_Hosting c = Some h -> acceptable_hosting c h }.
End acceptable.

(** *** Names *)

Ltac every_byte := let x := fresh in intros x; destruct x as [[] [] [] [] [] [] [] []]; vm_compute; first [reflexivity | discriminate | intros; first [reflexivity | discriminate]].

Lemma forall_byte_ext (P Q : ascii -> bool) s : (forall a, P a = Q a) -> forall_byte P s = forall_byte Q s.
Proof. intros H. induction s as [|a s IH]; [done|]. cbn. by rewrite H, IH. Qed.

Lemma revision_hex64 s : ValidRevision s = true <-> hex64 s.
Proof.
  unfold ValidRevision, hex64. rewrite revisionPattern_spec. rewrite (forall_byte_ext is_hex (fun a => between "a" "f" a || digit a)); [done|]. every_byte.
Qed.

Lemma label_byte_iff a : label_byte a = (lowercase a || digit a || one_of "-" a).
Proof. revert a. every_byte. Qed.

Lemma label_not_hyphen a : label_byte a = true -> is_lower_alnum a = true <-> a <> "-"%char.
Proof. destruct a as [[] [] [] [] [] [] [] []]; vm_compute; intros E; try discriminate E; split; congruence. Qed.

Lemma last_byte_exists s : s <> "" -> exists z, last_byte s = Some z.
Proof. induction s as [|a s IH]; [done|]. intros _. destruct s as [|b s]; [by exists a|]. destruct IH as [z Hz]; [done|]. by exists z. Qed.

Lemma name_dns s : ValidAppName s = true <-> dns_name s.
Proof.
  unfold ValidAppName, dns_name. rewrite andb_true_iff, Z.leb_le, appNamePattern_spec. rewrite (forall_byte_ext label_byte _ s label_byte_iff).
  assert (Hl : slen s <= 63 <-> (String.length s <= 63)%nat) by (unfold slen; lia). rewrite Hl.
  assert (Hlab : forall_byte (fun a => lowercase a || digit a || one_of "-" a) s = true -> forall t u a, s = t +:+ String a u -> label_byte a = true).
  { intros Hf t u a ->. rewrite <- (forall_byte_ext label_byte _ _ label_byte_iff), forall_byte_app in Hf. cbn in Hf. bools. done. }
  split.
  - intros (Hlen & (a & s' & Es & Ha) & Hf & z & Hz & Hza). split; [by subst|]. split; [done|]. split; [done|]. split.
    + intros t Et. rewrite Es in Et. injection Et as -> _. by apply label_not_hyphen in Ha.
    + intros t Et. rewrite Et, last_byte_app in Hz. injection Hz as <-. by apply label_not_hyphen in Hza.
  - intros (Hne & Hlen & Hf & H1 & H2). split; [done|]. split; [|split; [done|]].
    + destruct s as [|a s']; [done|]. exists a, s'. split; [done|]. apply label_not_hyphen; [by apply (Hlab Hf "" s')|]. intros ->. by apply (H1 s').
    + destruct (last_byte_exists s Hne) as [z Hz]. exists z. split; [done|]. apply last_byte_snoc in Hz as [t Et].
      apply label_not_hyphen; [by apply (Hlab Hf t "")|]. intros ->. by apply (H2 t).
Qed.

Lemma lang_word (first rest : list (Z * Z)) s : re_lang (RSeq (cls first) (RStar (cls rest))) s <->
  exists a t, s = String a t /\ in_class (CClass false first) a = true /\ forall_byte (in_class (CClass false rest)) t = true.
Proof.
  unfold cls. rewrite lang_seq_iff. setoid_rewrite lang_star_class. setoid_rewrite lang_class_iff. split.
  - intros (s1 & s2 & -> & (a & -> & Ha) & Hr). by exists a, s2.
  - intros (a & t & -> & Ha & Hr). exists (String a ""), t. eauto.
Qed.

Lemma secret_variable s : valid_secret_name s <-> variable_name s.
Proof.
  unfold valid_secret_name, variable_name. rewrite re_match_spec. unfold secretNamePattern. rewrite lang_word.
  set (f1 := in_class _). set (f2 := in_class _). assert (E1 : forall a, f1 a = (letter a || one_of "_" a)) by every_byte.
  assert (E2 : forall a, f2 a = (letter a || digit a || one_of "_" a)) by every_byte. split.
  - intros (_ & a & t & -> & Ha & Ht). exists a, t. rewrite <- E1. rewrite (forall_byte_ext f2 _ t E2) in Ht. done.
  - intros (a & t & -> & Ha & Ht). split; [done|]. exists a, t. rewrite E1, (forall_byte_ext f2 _ t E2). done.
Qed.

Lemma identifier_sql s : re_match postgresIdentifierPattern s = true <-> sql_identifier s.
Proof.
  rewrite re_match_spec. unfold postgresIdentifierPattern, cls, sql_identifier. rewrite lang_seq_iff. setoid_rewrite lang_upto_class. setoid_rewrite lang_class_iff.
  set (f1 := in_class _). set (f2 := in_class _). assert (E1 : forall a, f1 a = (lowercase a || one_of "_" a)) by every_byte.
  assert (E2 : forall a, f2 a = (lowercase a || digit a || one_of "_" a)) by every_byte. split.
  - intros (s1 & s2 & -> & (a & -> & Ha) & Hl & Ht). exists a, s2. rewrite <- E1. rewrite (forall_byte_ext f2 _ s2 E2) in Ht. done.
  - intros (a & t & -> & Hl & Ha & Ht). exists (String a ""), t. rewrite (forall_byte_ext f2 _ t E2). split; [done|]. split; [|done]. exists a. by rewrite E1.
Qed.

(** *** Paths *)

Lemma Split_byte_parts s sep : Forall (fun e => exists_byte (Ascii.eqb sep) e = false) (Split_byte s sep).
Proof.
  induction s as [|a s IH]; [by apply Forall_singleton|]. cbn [Split_byte]. destruct (Ascii.eqb a sep) eqn:E; [by constructor|].
  destruct (Split_byte s sep) as [|p ps]; [apply Forall_singleton|apply Forall_cons in IH as [Hp Hps]; constructor; [|done]]; cbn; rewrite Ascii.eqb_sym, E; done.
Qed.

Lemma clean_elems_elements l out : Forall (fun e => exists_byte (Ascii.eqb "/") e = false) l -> Forall path_element out -> Forall path_element (clean_elems true l out).
Proof.
  revert out. induction l as [|e l IH]; intros out Hl Ho; [done|]. apply Forall_cons in Hl as [He Hl]. cbn [clean_elems]. apply IH; [done|].
  destruct (String.eqb_spec e "") as [|H0]; [done|]. destruct (String.eqb_spec e ".") as [|H1]; [done|]. cbn [orb].
  destruct (String.eqb_spec e "..") as [|H2]; [|by constructor]. destruct Ho as [|p out' (Hp0 & Hp1 & Hp2 & Hp) Ho]; [done|].
  by destruct (String.eqb_spec p "..").
Qed.

Lemma clean_elems_keep l out : Forall path_element l -> clean_elems true l out = (rev l ++ out)%list.
Proof.
  revert out. induction l as [|e l IH]; intros out Hl; [done|]. apply Forall_cons in Hl as [(H0 & H1 & H2 & _) Hl]. cbn [clean_elems rev].
  destruct (String.eqb_spec e ""), (String.eqb_spec e "."), (String.eqb_spec e ".."); try done. cbn [orb]. rewrite IH, <- app_assoc by done. done.
Qed.

Lemma slashed_join l : l <> [] -> slashed l = "/" +:+ join_slash l.
Proof.
  induction l as [|e l IH]; [done|]. intros _. cbn [slashed foldr]. fold (slashed l). destruct l as [|e' l]; [cbn; by rewrite s_app_nil_r|].
  rewrite IH by done. done.
Qed.

Lemma Split_join l : l <> [] -> Forall path_element l -> Split_byte (join_slash l) "/" = l.
Proof.
  induction l as [|e l IH]; [done|]. intros _ Hl. apply Forall_cons in Hl as [(_ & _ & _ & He) Hl]. destruct l as [|e' l]; [by apply Split_byte_no_sep|].
  change (join_slash (e :: e' :: l)) with (e +:+ String "/" (join_slash (e' :: l))). rewrite Split_byte_app by done. by rewrite IH.
Qed.

Lemma path_clean p : path_IsAbs p = true /\ path_Clean p = p /\ p <> "/" <-> clean_path p.
Proof.
  unfold clean_path. split.
  - intros (Ha & Hc & Hr). unfold path_Clean in Hc. destruct (String.eqb_spec p "") as [->|_]; [done|]. rewrite Ha in Hc. cbv zeta in Hc.
    set (l := rev (clean_elems true (Split_byte p "/") [])) in Hc. exists l. assert (Hl : Forall path_element l).
    { apply Forall_rev, clean_elems_elements; [apply Split_byte_parts|by apply Forall_nil]. }
    assert (Hne : l <> []) by (intros E; rewrite E in Hc; by apply Hr). split; [done|]. split; [done|]. by rewrite slashed_join.
  - intros (l & Hne & Hl & ->). rewrite slashed_join by done. assert (Habs : forall t, path_IsAbs ("/" +:+ t) = true) by (intros t; unfold path_IsAbs; apply HasPrefix_spec; by exists t).
    split; [apply Habs|]. split.
    + unfold path_Clean. change (String.eqb ("/" +:+ join_slash l) "") with false. rewrite Habs. cbv zeta.
      change ("/" +:+ join_slash l) with ("" +:+ String "/" (join_slash l)) at 1. rewrite Split_byte_app, Split_join by done. cbn [clean_elems]. cbn [String.eqb orb].
      rewrite clean_elems_keep, app_nil_r, rev_involutive by done. done.
    + destruct l as [|e l]; [done|]. apply Forall_cons in Hl as [(He & _) _]. destruct e as [|a e]; [done|]. intros E. by destruct l.
Qed.

(** *** Mounts *)

Lemma append_eq_split (p q s t : string) :
  p +:+ s = q +:+ t -> (exists u, q = p +:+ u /\ s = u +:+ t) \/ (exists u, p = q +:+ u /\ t = u +:+ s).
Proof.
  revert q. induction p as [|a p IH]; intros q Heq; cbn in *.
  { left. exists q. done. }
  destruct q as [|b q]; cbn in *.
  { right. exists (String a p). done. }
  injection Heq as -> Heq. destruct (IH q Heq) as [(u & -> & ->)|(u & -> & ->)]; [left|right]; by exists u.
Qed.

Lemma slash_boundary p q s t :
  p +:+ "/" +:+ s = q +:+ "/" +:+ t -> p = q \/ HasPrefix p (q +:+ "/") = true \/ HasPrefix q (p +:+ "/") = true.
Proof.
  intros Heq. apply append_eq_split in Heq as [(u & -> & Hu)|(u & -> & Hu)]; destruct u as [|a u].
  - left. by rewrite s_app_nil_r.
  - right; right. cbn in Hu. injection Hu as <- _. apply HasPrefix_spec. exists u. by rewrite <- s_app_assoc.
  - left. by rewrite s_app_nil_r.
  - right; left. cbn in Hu. injection Hu as <- _. apply HasPrefix_spec. exists u. by rewrite <- s_app_assoc.
Qed.

Lemma overlap_of_shared_path p q path : inside p path -> inside q path -> mountPathsOverlap p q = true.
Proof.
  unfold mountPathsOverlap. intros [->|(s & ->)] [E|(t & E)].
  - subst. by rewrite String.eqb_refl.
  - assert (HasPrefix p (q +:+ "/") = true) as -> by (apply HasPrefix_spec; exists t; by rewrite <- s_app_assoc). by rewrite orb_true_r.
  - assert (HasPrefix q (p +:+ "/") = true) as -> by (apply HasPrefix_spec; exists s; by rewrite <- s_app_assoc). by rewrite !orb_true_r.
  - apply slash_boundary in E as [->|[->| ->]];
      [by rewrite String.eqb_refl|by rewrite orb_true_r|by rewrite !orb_true_r].
Qed.

Lemma disjoint_inside p q : disjoint_paths p q <-> forall path, inside q path -> ~ inside p path.
Proof.
  unfold disjoint_paths. split.
  - intros Ho path Hq Hp. by rewrite (overlap_of_shared_path p q path) in Ho.
  - intros Hd. destruct (mountPathsOverlap p q) eqn:E; [exfalso|done]. unfold mountPathsOverlap in E. apply orb_true_iff in E as [[E|E]%orb_true_iff|E].
    + apply String.eqb_eq in E as ->. by apply (Hd q); left.
    + apply HasPrefix_spec in E as [t ->]. apply (Hd ((q +:+ "/") +:+ t)); [right; exists t; by rewrite <- s_app_assoc|by left].
    + apply HasPrefix_spec in E as [t ->]. apply (Hd ((p +:+ "/") +:+ t)); [by left|right; exists t; by rewrite <- s_app_assoc].
Qed.

(** *** Images *)

Lemma lang_plus_class c s : re_lang (RPlus (RClass c)) s <-> s <> "" /\ forall_byte (in_class c) s = true.
Proof.
  unfold RPlus. rewrite lang_seq_iff. setoid_rewrite lang_star_class. setoid_rewrite lang_class_iff. split.
  - intros (s1 & s2 & -> & (a & -> & Ha) & Hs). cbn. by rewrite Ha.
  - intros [Hne Hs]. destruct s as [|a s]; [done|]. cbn in Hs. bools. exists (String a ""), s. eauto.
Qed.

Lemma lang_lit lit s : re_lang (RLit lit) s <-> s = lit.
Proof.
  revert s. induction lit as [|a lit IH]; intros s; cbn [RLit]; [split; [by inversion 1|intros ->; constructor]|]. rewrite lang_seq_iff. setoid_rewrite lang_class_iff. split.
  - intros (s1 & s2 & -> & (b & -> & Hb) & ->%IH). cbn. f_equal. unfold in_class, byte_in in Hb. cbn in Hb. rewrite <- (z2b_b2z b), <- (z2b_b2z a). f_equal. lia.
  - intros ->. exists (String a ""), lit. split; [done|]. split; [|by apply IH]. exists a. split; [done|]. unfold in_class, byte_in. cbn. lia.
Qed.

Lemma lang_star_list r s : re_lang (RStar r) s <-> exists l, Forall (re_lang r) l /\ s = foldr String.append "" l.
Proof.
  split.
  - intros E. remember (RStar r) as r' eqn:Er. induction E; try discriminate Er; injection Er as ->; [by exists []|].
    destruct (IHE2 eq_refl) as (l & Hl & ->). exists (s1 :: l). split; [by constructor|done].
  - intros (l & Hl & ->). induction Hl as [|x l Hx _ IH]; [constructor|]. by apply lang_star_app.
Qed.

Lemma dotted_list l : Forall (re_lang (RSeq (RLit ".") (RPlus (cls digit_class)))) l -> exists ms, Forall digits ms /\
  foldr String.append "" l = foldr (fun m s => "." +:+ m +:+ s) "" ms.
Proof.
  induction 1 as [|x l Hx _ (ms & Hms & E)]; [by exists []|]. apply lang_seq_iff in Hx as (s1 & m & -> & ->%lang_lit & [Hne Hm]%lang_plus_class).
  exists (m :: ms). split; [constructor; [|done]|cbn; by rewrite E]. split; [done|]. rewrite <- Hm. apply forall_byte_ext. every_byte.
Qed.

Lemma dotted_lang ms : Forall digits ms -> re_lang (RStar (RSeq (RLit ".") (RPlus (cls digit_class)))) (foldr (fun m s => "." +:+ m +:+ s) "" ms).
Proof.
  induction 1 as [|m ms [Hne Hm] _ IH]; [constructor|]. change (foldr (fun m s => "." +:+ m +:+ s) "" (m :: ms)) with (("." +:+ m) +:+ foldr (fun m s => "." +:+ m +:+ s) "" ms).
  apply lang_star_app; [|done]. apply lang_seq_iff. exists ".", m. split; [done|]. split; [by apply lang_lit|]. apply lang_plus_class. split; [done|].
  rewrite <- Hm. apply forall_byte_ext. every_byte.
Qed.

(** The parts the pattern splits an image into. *)
Definition image_parts (image ref major : string) (minors : list string) (suffix digest : string) : Prop :=
  image = ref +:+ ":" +:+ major +:+ foldr (fun m s => "." +:+ m +:+ s) "" minors +:+ suffix +:+ "@sha256:" +:+ digest /\
  ref <> "" /\ forall_byte reference_byte ref = true /\ digits major /\ Forall digits minors /\ image_suffix suffix /\ hex64 digest.

Lemma suffix_lang s : re_lang (ROpt (RSeq (cls [(65, 90); (97, 122); (95, 95); (45, 45)]) (RStar (cls [(65, 90); (97, 122); (48, 57); (95, 95); (46, 46); (45, 45)])))) s <->
  image_suffix s.
Proof.
  rewrite lang_opt, lang_word. unfold image_suffix. set (f1 := in_class _). set (f2 := in_class _). assert (E1 : forall a, f1 a = (letter a || one_of "_-" a)) by every_byte.
  assert (E2 : forall a, f2 a = (letter a || digit a || one_of "_.-" a)) by every_byte. setoid_rewrite E1.
  split; (intros [?|(a & t & -> & Ha & Ht)]; [by left|right; exists a, t]); [rewrite (forall_byte_ext f2 _ t E2) in Ht|rewrite (forall_byte_ext f2 _ t E2)]; done.
Qed.

Lemma image_pattern image : re_match postgresImagePattern image = true <-> exists ref major minors suffix digest, image_parts image ref major minors suffix digest.
Proof.
  rewrite re_match_spec. unfold postgresImagePattern, image_parts.
  assert (Er : forall a, in_class (CClass true [(64, 64); (9, 10); (12, 13); (32, 32)]) a = reference_byte a) by every_byte.
  assert (Ed : forall a, in_class (CClass false digit_class) a = digit a) by every_byte.
  assert (Eh : forall a, in_class (CClass false hex_lower) a = (between "a" "f" a || digit a)) by every_byte. split.
  - intros E. apply lang_seq_iff in E as (ref & s1 & -> & [Hne Href]%lang_plus_class & E). rewrite (forall_byte_ext _ _ ref Er) in Href.
    apply lang_seq_iff in E as (c & s2 & -> & ->%lang_lit & E). apply lang_seq_iff in E as (major & s3 & -> & [Hm1 Hm]%lang_plus_class & E).
    rewrite (forall_byte_ext _ _ major Ed) in Hm. apply lang_seq_iff in E as (x & s4 & -> & (l & Hl & ->)%lang_star_list & E).
    apply dotted_list in Hl as (ms & Hms & ->). apply lang_seq_iff in E as (suffix & s5 & -> & Hs%suffix_lang & E).
    apply lang_seq_iff in E as (at_ & digest & -> & ->%lang_lit & [Hdl Hd]%lang_rep_class). rewrite (forall_byte_ext _ _ digest Eh) in Hd.
    exists ref, major, ms, suffix, digest. done.
  - intros (ref & major & ms & suffix & digest & -> & Hne & Href & [Hm1 Hm] & Hms & Hs & Hdl & Hd).
    rewrite <- (forall_byte_ext _ _ ref Er) in Href. rewrite <- (forall_byte_ext _ _ major Ed) in Hm. rewrite <- (forall_byte_ext _ _ digest Eh) in Hd.
    constructor; [by apply lang_plus_class|]. constructor; [by apply lang_lit|]. constructor; [by apply lang_plus_class|]. constructor; [by apply dotted_lang|].
    constructor; [by apply suffix_lang|]. constructor; [by apply lang_lit|by apply lang_rep_class].
Qed.

Lemma cut_digest s t : forall_byte (fun a => negb (Ascii.eqb a "@")) s = true -> Cut (s +:+ "@" +:+ t) "@" = (s, t, true).
Proof.
  induction s as [|a s IH]; intros Hs; [by destruct t|]. cbn in Hs. apply andb_true_iff in Hs as [Ha Hs]. specialize (IH Hs).
  change (String a s +:+ "@" +:+ t) with (String a (s +:+ "@" +:+ t)). cbn [Cut].
  replace (HasPrefix (String a (s +:+ "@" +:+ t)) "@") with false; [by rewrite IH|]. apply negb_true_iff, Ascii.eqb_neq in Ha. unfold HasPrefix. cbn [String.prefix].
  by destruct (ascii_dec "@" a).
Qed.

Lemma cut_last_none s c : forall_byte (fun a => negb (Ascii.eqb a c)) s = true -> cut_last s c = None.
Proof. induction s as [|a s IH]; [done|]. cbn. intros [Ha%negb_true_iff Hs]%andb_true_iff. by rewrite IH, Ha. Qed.

Lemma cut_last_at s c t : forall_byte (fun a => negb (Ascii.eqb a c)) t = true -> cut_last (s +:+ String c t) c = Some (s, t).
Proof. intros Ht. induction s as [|a s IH]; cbn; [by rewrite cut_last_none, Ascii.eqb_refl|]. by rewrite IH. Qed.

Lemma leading_digits_app s t : forall_byte digit s = true -> leading_digits t = "" -> leading_digits (s +:+ t) = s.
Proof.
  intros Hs Ht. induction s as [|a s IH]; [done|]. cbn in Hs. apply andb_true_iff in Hs as [Ha Hs]. cbn. assert (is_digit a = true) as -> by exact Ha. by rewrite IH.
Qed.

Lemma dotted_bytes (P : ascii -> bool) ms : P "."%char = true -> (forall a, digit a = true -> P a = true) -> Forall digits ms ->
  forall_byte P (foldr (fun m s => "." +:+ m +:+ s) "" ms) = true.
Proof.
  intros Hdot Hd. induction 1 as [|m ms [_ Hm] _ IH]; [done|]. cbn [foldr]. rewrite !forall_byte_app, IH, andb_true_r. cbn. rewrite Hdot. cbn.
  by eapply forall_byte_impl; [exact Hd|].
Qed.

Lemma suffix_bytes (P : ascii -> bool) s : (forall a, letter a || digit a || one_of "_.-" a = true -> P a = true) -> image_suffix s -> forall_byte P s = true.
Proof.
  intros Hp [->|(a & t & -> & Ha & Ht)]; [done|]. cbn. rewrite Hp; [cbn; by eapply forall_byte_impl; [exact Hp|]|]. revert a Ha. clear. every_byte.
Qed.

(** The captured major version. *)
Lemma image_major image ref major minors suffix digest : image_parts image ref major minors suffix digest -> image_major_text image = major.
Proof.
  intros (-> & _ & Href & [Hne Hm] & Hms & Hs & _). unfold image_major_text. set (tag := major +:+ foldr (fun m s => "." +:+ m +:+ s) "" minors +:+ suffix).
  replace (ref +:+ ":" +:+ major +:+ foldr (fun m s => "." +:+ m +:+ s) "" minors +:+ suffix +:+ "@sha256:" +:+ digest)
    with ((ref +:+ String ":" tag) +:+ "@" +:+ "sha256:" +:+ digest) by (unfold tag; cbn; by rewrite <- !s_app_assoc; cbn; rewrite <- !s_app_assoc).
  assert (Htag : forall P : ascii -> bool, (forall a, letter a || digit a || one_of "_.-" a = true -> P a = true) -> forall_byte P tag = true).
  { intros P HP. unfold tag. rewrite !forall_byte_app. rewrite (dotted_bytes P minors), (suffix_bytes P suffix) by (done || (by apply HP) || (intros a Ha; apply HP; by rewrite Ha, orb_true_r)).
    rewrite andb_true_r. eapply forall_byte_impl; [|exact Hm]. intros a Ha. apply HP. by rewrite Ha, orb_true_r. }
  rewrite cut_digest.
  2:{ rewrite forall_byte_app. apply andb_true_iff. split; [eapply forall_byte_impl; [|exact Href]; every_byte|]. cbn. apply Htag. every_byte. }
  rewrite cut_last_at by (apply Htag; every_byte). unfold tag. apply leading_digits_app; [done|].
  destruct Hms as [|m ms _ _]; [|done]. destruct Hs as [->|(a & t & -> & Ha & _)]; [done|]. cbn.
  assert (D : forall b, letter b || one_of "_-" b = true -> is_digit b = false) by every_byte. by rewrite (D a Ha).
Qed.

Lemma ParseInt64_digits s : digits s -> ParseInt64 s = if digits_val s 0 <? 2 ^ 63 then Some (digits_val s 0) else None.
Proof.
  intros [Hne Hs]. assert (Hv : forall s acc, forall_byte digit s = true -> 0 <= acc -> 0 <= digits_val s acc).
  { clear. induction s as [|a s IH]; intros acc Hs Ha; [done|]. cbn in Hs. apply andb_true_iff in Hs as [Hd Hs]. cbn. apply IH; [done|].
    unfold digit, between in Hd. unfold digit_val. change (b2z "0") with 48 in Hd. lia. }
  pose proof (Hv s 0 Hs ltac:(lia)) as H0. unfold ParseInt64.
  assert ((match s with String "-" s' => (true, s') | String "+" s' => (false, s') | _ => (false, s) end) = (false, s)) as ->.
  { destruct s as [|a s]; [done|]. cbn in Hs. apply andb_true_iff in Hs as [Hd _]. revert Hd. clear. destruct a as [[] [] [] [] [] [] [] []]; vm_compute; first [reflexivity|discriminate]. }
  assert (String.eqb s "" = false) as -> by (by apply String.eqb_neq). assert (forall_byte is_digit s = true) as -> by exact Hs. cbn [orb negb].
  assert ((- 2 ^ 63 <=? digits_val s 0) = true) as -> by lia. done.
Qed.

Lemma image_accepted image : (exists major, PostgresImageMajor image = Ok major) <-> postgres_image image.
Proof.
  unfold PostgresImageMajor, postgres_image. destruct (re_match postgresImagePattern image) eqn:Em; cbn [negb].
  - apply image_pattern in Em as (ref & major & ms & suffix & digest & Hp). rewrite (image_major _ _ _ _ _ _ Hp). pose proof Hp as (_ & _ & _ & Hd & _).
    rewrite (ParseInt64_digits _ Hd). split.
    + intros [v Hv]. destruct (_ <? _); [|done]. destruct (_ || _) eqn:Er; [done|]. exists ref, major, ms, suffix, digest. destruct Hp as (? & ? & ? & ? & ? & ? & ?). split_and!; (done || lia).
    + intros (ref' & major' & ms' & suffix' & digest' & Hi & Hne & Href & Hd' & Hms & Hs & Hdg & Hr).
      assert (Hp' : image_parts image ref' major' ms' suffix' digest') by done. pose proof (image_major _ _ _ _ _ _ Hp') as E'.
      rewrite (image_major _ _ _ _ _ _ Hp) in E'. subst major'. exists (digits_val major 0). replace (digits_val major 0 <? 2 ^ 63) with true by lia.
      by replace ((digits_val major 0 <? 14) || (18 <? digits_val major 0)) with false by lia.
  - split; [by intros [? ?]|]. intros (ref & major & ms & suffix & digest & Hi & Hne & Href & Hd & Hms & Hs & Hdg & _).
    assert (Hm : re_match postgresImagePattern image = true) by (apply image_pattern; by exists ref, major, ms, suffix, digest). congruence.
Qed.

(** *** The parts of a configuration *)

Section parts.
Context `{AppEnv}.

Lemma on_some_forall {A} (P : A -> Prop) o : on_some P o <-> forall a, o = Some a -> P a.
Proof. destruct o; cbn; naive_solver. Qed.

Lemma mount_iff m : valid_mount m <-> acceptable_mount m.
Proof.
  unfold valid_mount, acceptable_mount. rewrite <- path_clean. split; [tauto|]. intros (H1 & H2 & H3 & H4 & H5). split_and!; try done. by intros E; rewrite E in H3.
Qed.

Lemma pairs_iff {A} (P : A -> A -> Prop) (l : list A) : (forall m n, P m n -> P n m) ->
  (forall i j m n, (i < j)%nat -> l !! i = Some m -> l !! j = Some n -> P m n) <-> (forall i j m n, l !! i = Some m -> l !! j = Some n -> i <> j -> P m n).
Proof.
  intros Hsym. split; [|intros Hall i j m n Hij Hi Hj; apply (Hall i j); (done || lia)]. intros Hall i j m n Hi Hj Hne.
  destruct (Nat.lt_total i j) as [Hlt|[?|Hlt]]; [by eapply Hall|done|apply Hsym; by eapply Hall].
Qed.

Lemma node_iff (l : list (option (gmap string string))) : List.length l = 1%nat /\ blank (first_node_id l) = false <->
  exists selector node, l = [Some selector] /\ selector !! "node-id" = Some node /\ TrimSpace node <> "".
Proof.
  unfold blank. rewrite String.eqb_neq. split.
  - intros [Hl Hn]. destruct l as [|[m|] [|]]; try done. cbn in Hn. destruct (m !! "node-id") as [node|] eqn:Em; [|done]. by exists m, node.
  - intros (m & node & -> & Em & Hn). cbn. by rewrite Em.
Qed.

Lemma storage_iff c s : valid_storage c s <-> acceptable_storage c s.
Proof.
  unfold valid_storage, acceptable_storage. cbv zeta. change ({| Mount_ExistingClaim := Storage_ExistingClaim s; Mount_MountPath := Storage_MountPath s |} :: Storage_AdditionalMounts s) with (Mounts s).
  rewrite NoDup_pairs, node_iff. setoid_rewrite disjoint_inside.
  rewrite <- (pairs_iff (fun m n => Mount_ExistingClaim m <> Mount_ExistingClaim n /\ forall path, inside (Mount_MountPath m) path -> ~ inside (Mount_MountPath n) path))
    by (intros m n [H1 H2]; split; [done|]; intros path Hn Hm; by apply (H2 path)).
  assert (Hm : Forall valid_mount (Mounts s) <-> Forall acceptable_mount (Mounts s)) by (rewrite !Forall_forall; by setoid_rewrite mount_iff).
  rewrite Hm. split.
  - intros (? & ? & Hnd & Hdis & ? & ? & ? & ? & ?). split_and!; try done. intros i j m n Hij Hi Hj. split; [by eapply Hnd|by eapply Hdis].
  - intros (? & ? & Hall & ? & ? & ? & ? & ?). split_and!; try done; intros i j m n Hij Hi Hj; by eapply (Hall i j).
Qed.

Lemma connection_iff p secrets : valid_connection p secrets <-> acceptable_connection p secrets.
Proof. unfold valid_connection, acceptable_connection. rewrite Forall_forall. done. Qed.

Lemma prefix_false s p : HasPrefix s p = false <-> forall t, s <> p +:+ t.
Proof. rewrite <- not_true_iff_false, HasPrefix_spec. naive_solver. Qed.

Lemma owner_iff s : s ∉ reservedPostgresOwners /\ HasPrefix s "pg_" = false /\ HasPrefix s "cnpg_" = false <->
  s ∉ ["postgres"; "streaming_replica"] /\ (forall t, s <> "pg_" +:+ t) /\ forall t, s <> "cnpg_" +:+ t.
Proof.
  rewrite !prefix_false. unfold reservedPostgresOwners. rewrite !not_elem_of_cons. split; [tauto|]. intros ((H1 & H2 & H3) & H4 & H5). split; [|done].
  split; [apply (H5 "pooler_pgbouncer")|done].
Qed.

Lemma storage_size_iff s : (exists q, ParseQuantity s = Some q /\ 0 < Quantity_Sign q /\ 0 <= Quantity_Cmp q minimumPostgresStorage) <->
  exists size least, ParseQuantity s = Some size /\ ParseQuantity "1Gi" = Some least /\ 0 < Quantity_Sign size /\ 0 <= Quantity_Cmp size least.
Proof.
  split.
  - intros (q & ? & ? & ?). exists q, minimumPostgresStorage. by rewrite minimumPostgresStorage_parses.
  - intros (q & least & ? & E & ? & ?). rewrite minimumPostgresStorage_parses in E. injection E as <-. eauto.
Qed.

Lemma postgres_iff c p : valid_postgres (Cfg_Name c) (Placement_Arch (Cfg_Placement c)) (Cfg_Secrets c) p <-> acceptable_postgres c p.
Proof.
  unfold valid_postgres, acceptable_postgres. rewrite image_accepted, !identifier_sql, secret_variable, connection_iff, storage_size_iff, slen_app. change (slen "-db") with 3.
  pose proof (owner_iff (Pg_Owner p)) as Ho. split.
  - intros (? & ? & ? & ? & ? & ? & ? & ? & Hr & Hp1 & Hp2 & ? & ? & ? & ? & ? & ? & ? & ?). destruct (proj1 Ho (conj Hr (conj Hp1 Hp2))) as (? & ? & ?).
    split_and!; try done; lia.
  - intros (? & ? & ? & ? & ? & ? & ? & ? & Hr & Hp1 & Hp2 & ? & ? & ? & ? & ? & ? & ? & ?). destruct (proj2 Ho (conj Hr (conj Hp1 Hp2))) as (? & ? & ?).
    split_and!; try done; lia.
Qed.

Lemma resource_iff request limit : valid_resource request limit <-> exists r l, ParseQuantity request = Some r /\ ParseQuantity limit = Some l /\
  TrimSpace request <> "" /\ TrimSpace limit <> "" /\ 0 < Quantity_Sign r /\ 0 < Quantity_Sign l /\ 0 <= Quantity_Cmp l r.
Proof. unfold valid_resource, positive_quantity, blank. setoid_rewrite String.eqb_neq. naive_solver. Qed.

Lemma egress_iff rules : Forall valid_egress rules <-> forall rule, rule ∈ rules -> is_Some (ParseCIDR (TrimSpace (Egress_CIDR rule))) /\
  exists ports, Egress_Ports rule = Some ports /\ ports <> [] /\ forall port, port ∈ ports -> 1 <= port <= 65535.
Proof. rewrite Forall_forall. unfold valid_egress, valid_port. by setoid_rewrite Forall_forall. Qed.

Lemma hosting_iff c h : valid_hosting h (hosting_replicas c) /\ is_managed_postgres c = false <-> acceptable_hosting c h.
Proof.
  unfold valid_hosting, acceptable_hosting. cbv zeta. rewrite !resource_iff, egress_iff.
  assert (Hr : hosting_replicas c <= Hosting_MaxReplicas h <-> Deploy_Replicas (Cfg_Deploy c) <= Hosting_MaxReplicas h /\
    (Resilience_Mode (Cfg_Resilience c) = "resilient" -> 2 <= Hosting_MaxReplicas h \/ 2 <= Deploy_Replicas (Cfg_Deploy c))).
  { unfold hosting_replicas, ResilienceResilient. destruct (String.eqb_spec (Resilience_Mode (Cfg_Resilience c)) "resilient") as [E|E]; cbn [andb];
      [destruct (Z.ltb_spec (Deploy_Replicas (Cfg_Deploy c)) 2)|]; split; try (intros; split; [lia|intros; try done; lia]); intros [? Hb]; try (specialize (Hb E)); lia. }
  assert (Hm : is_managed_postgres c = false <-> forall p, Database_Postgres (Cfg_Database c) = Some p -> Pg_ConnectionMode p <> "managed").
  { unfold is_managed_postgres, PostgresConnectionModeManaged. destruct (Database_Postgres _) as [p|]; [rewrite String.eqb_neq|]; naive_solver. }
  rewrite Hr, Hm. setoid_rewrite elem_of_cons. setoid_rewrite elem_of_cons. setoid_rewrite list_elem_of_singleton. split.
  - intros ((? & ? & [? Hres] & Q1 & Q2 & Q3 & ?) & ?). split_and!; try done; try lia.
    + intros E. destruct (Hres E); lia.
    + intros f [->|[->| ->]]; done.
  - intros (? & ? & ? & Hres & Hf & ? & ?). split_and!; try done; try lia; [intros E; left; by apply Hres|..]; apply Hf; auto.
Qed.
End parts.

Lemma metrics_iff o : on_some (fun m => valid_port (Metrics_Port m) /\ HasPrefix (Metrics_Path m) "/" = true) o <->
  forall m, o = Some m -> 1 <= Metrics_Port m <= 65535 /\ exists t, Metrics_Path m = "/" +:+ t.
Proof. rewrite on_some_forall. unfold valid_port. by setoid_rewrite HasPrefix_spec. Qed.

Lemma failover_iff (state mode : string) (unsafe : bool) : mode ∈ ["basic"; "resilient"; "fallback"; "pinned"] ->
  (state = "stateless" \/ mode ∈ ["basic"; "pinned"] \/ unsafe = true <-> (mode ∈ ["resilient"; "fallback"] -> state <> "stateless" -> unsafe = true)).
Proof.
  rewrite !elem_of_cons, elem_of_nil. intros Hm. destruct (decide (state = "stateless")) as [->|Hs]; [naive_solver|]. split.
  - intros [?|[[?|[?|[]]]|?]] [?|[?|[]]] _; congruence.
  - intros Hu. right. destruct Hm as [?|[?|[?|[?|[]]]]]; [by left; left|right; by apply Hu; [left|]|right; by apply Hu; [right; left|]|left; right; by left].
Qed.

Lemma valid_acceptable `{AppEnv} c : valid_config c <-> acceptable c.
Proof.
  split.
  - intros [V1 V2 V3 V4 V5 V6 V7 V8 V9 V10 V11 V12 V13 V14 V15 [V16 V16'] V17 V18 V19]. constructor; try done.
    + by rewrite <- revision_hex64.
    + by rewrite <- revision_hex64.
    + by apply name_dns.
    + by apply HasPrefix_spec.
    + by apply metrics_iff.
    + by apply failover_iff.
    + intros E. specialize (V14 E). destruct (Placement_Prefer _) as [|x [|]]; try done. by exists x.
    + intros s E. rewrite E in V15. by apply storage_iff.
    + split; [done|]. intros name Hn. rewrite Forall_forall in V16. by apply secret_variable, V16.
    + intros p E. rewrite E in V17. by apply postgres_iff.
    + intros h E. rewrite E in V18. apply hosting_iff. split; [done|]. apply V19. by exists h.
  - intros [A1 A2 A3 A4 A5 A6 A7 A8 A9 A10 A11 A12 A13 A14 A15 [A16 A16'] A17 A18]. constructor; try done.
    + by rewrite revision_hex64.
    + by rewrite revision_hex64.
    + by apply name_dns.
    + by apply HasPrefix_spec.
    + by apply metrics_iff.
    + by apply failover_iff.
    + intros E. by destruct (A14 E) as [x ->].
    + apply on_some_forall. intros s E. by apply storage_iff, A15.
    + split; [|done]. apply Forall_forall. intros name Hn. by apply secret_variable, A16'.
    + apply on_some_forall. intros p E. by apply postgres_iff, A17.
    + apply on_some_forall. intros h E. by apply hosting_iff, A18.
    + intros [h E]. by apply (hosting_iff c h), A18.
Qed.

(** ** Properties of the application configuration

    Acceptance by [Validate], the safety of retained mounts, the canonical JSON
    text, and what normalization does and does not depend on.  Concrete
    environments and configurations instantiate the theorems. *)
(** ** A concrete environment

    Quantities are counted in thousandths; names are not restricted.  Maps are
    visited in the order of [map_to_list] or in the reverse order. *)

Definition quantity_suffix (s : string) : option Z :=
  if String.eqb s "" then Some 1000 else if String.eqb s "m" then Some 1
  else if String.eqb s "Ki" then Some (1000 * 2 ^ 10) else if String.eqb s "Mi" then Some (1000 * 2 ^ 20)
  else if String.eqb s "Gi" then Some (1000 * 2 ^ 30) else None.

Definition simple_quantity (s : string) : option Z :=
  let ds := leading_digits s in
  n ← ParseInt64 ds; u ← quantity_suffix (s_drop (String.length ds) s); Some (n * u).

Definition make_env (order : list (string * string) -> list (string * string))
    (Hperm : forall l, order l ≡ₚ l) : AppEnv := {|
  quantity := Z; ParseQuantity := simple_quantity; Quantity_Sign := Z.sgn;
  Quantity_Cmp := fun a b => Z.sgn (a - b); minimumPostgresStorage := 1000 * 2 ^ 30;
  IsDNS1123Subdomain := fun _ => []; IsDNS1035Label := fun _ => [];
  range_map := fun m => order (map_to_list m);
  minimumPostgresStorage_parses := eq_refl;
  range_map_perm := fun m => Hperm (map_to_list m) |}.

Definition forward_env : AppEnv := make_env (fun l => l) (fun l => reflexivity l).
Definition backward_env : AppEnv := make_env (@rev _) (fun l => symmetry (Permutation_rev l)).

(** A configuration for the managed hosting profile. *)
Definition sample_quantities (cpu mem disk : string) : ResourceQuantities :=
  {| Res_CPU := cpu; Res_Memory := mem; Res_EphemeralStorage := disk |}.

Definition sample_hosting : HostingConfig := {|
  Hosting_Version := "v1";
  Hosting_Resources := {| Res_Requests := sample_quantities "100m" "64Mi" "1Gi"; Res_Limits := sample_quantities "1" "128Mi" "2Gi" |};
  Hosting_MaxReplicas := 4;
  Hosting_Network := {| Network_AllowDNS := None; Network_Egress := [{| Egress_CIDR := "10.0.0.0/8"; Egress_Ports := Some [443] |}] |};
  Hosting_ReadOnlyRootFilesystem := true |}.

Definition sample_config (name image domain : string) : Config := {|
  Cfg_ImagePullCredential := ""; Cfg_EnvironmentRevision := ""; Cfg_Name := name; Cfg_Image := image;
  Cfg_Service := {| Service_Port := 8080; Service_HealthPath := "/healthz" |};
  Cfg_Metrics := Some {| Metrics_Port := 9090; Metrics_Path := "/metrics" |};
  Cfg_Routing := {| Routing_Domain := domain; Routing_RequireTLS := false; Routing_EnableProxyRetries := Some false |};
  Cfg_Deploy := {| Deploy_Replicas := 2; Deploy_Strategy := "rolling" |};
  Cfg_Placement := {| Placement_Arch := "any"; Placement_Spread := true; Placement_Prefer := []; Placement_Fallback := [] |};
  Cfg_Storage := None; Cfg_Secrets := []; Cfg_State := {| State_Mode := "stateless" |};
  Cfg_Resilience := {| Resilience_Mode := "basic"; Resilience_AllowUnsafe := false |};
  Cfg_Database := {| Database_Postgres := None |}; Cfg_Hosting := Some sample_hosting |}.

Definition sample_storage_config : Config := {|
  Cfg_ImagePullCredential := ""; Cfg_EnvironmentRevision := ""; Cfg_Name := "store"; Cfg_Image := "nginx";
  Cfg_Service := {| Service_Port := 80; Service_HealthPath := "/" |}; Cfg_Metrics := None;
  Cfg_Routing := {| Routing_Domain := ""; Routing_RequireTLS := false; Routing_EnableProxyRetries := None |};
  Cfg_Deploy := {| Deploy_Replicas := 1; Deploy_Strategy := "recreate" |};
  Cfg_Placement := {| Placement_Arch := "linux/arm64"; Placement_Spread := false;
    Placement_Prefer := [Some {[ "node-id" := "node-1" ]}]; Placement_Fallback := [] |};
  Cfg_Storage := Some {| Storage_ExistingClaim := "data"; Storage_MountPath := "/data";
    Storage_AdditionalMounts := [{| Mount_ExistingClaim := "logs"; Mount_MountPath := "/data-logs" |}] |};
  Cfg_Secrets := []; Cfg_State := {| State_Mode := "stateful" |};
  Cfg_Resilience := {| Resilience_Mode := "pinned"; Resilience_AllowUnsafe := false |};
  Cfg_Database := {| Database_Postgres := None |}; Cfg_Hosting := None |}.

(** A resilient app with one replica and a ceiling. *)
Definition resilient_config (ceiling : Z) : Config :=
  let c := sample_config "web" "nginx:1" "web.example.com" in {|
  Cfg_ImagePullCredential := ""; Cfg_EnvironmentRevision := ""; Cfg_Name := Cfg_Name c; Cfg_Image := Cfg_Image c;
  Cfg_Service := Cfg_Service c; Cfg_Metrics := None; Cfg_Routing := Cfg_Routing c;
  Cfg_Deploy := {| Deploy_Replicas := 1; Deploy_Strategy := "rolling" |}; Cfg_Placement := Cfg_Placement c; Cfg_Storage := None; Cfg_Secrets := [];
  Cfg_State := Cfg_State c; Cfg_Resilience := {| Resilience_Mode := "resilient"; Resilience_AllowUnsafe := false |}; Cfg_Database := Cfg_Database c;
  Cfg_Hosting := Some {| Hosting_Version := "v1"; Hosting_Resources := Hosting_Resources sample_hosting; Hosting_MaxReplicas := ceiling;
    Hosting_Network := Hosting_Network sample_hosting; Hosting_ReadOnlyRootFilesystem := true |} |}.

(** ** Properties *)

(** C38: [Validate] accepts a configuration exactly when it is acceptable: the
    specification describes names, paths, images, lists and numbers by the text of the
    fields, without the routines and patterns of the validator.  Quantities, the two DNS
    checks of Kubernetes, CIDR blocks and the trimming of spaces are those of the
    libraries. *)
Theorem Validate_correct `{AppEnv} c : Validate c = Ok tt <-> acceptable c.
Proof. rewrite Validate_valid_config. apply valid_acceptable. Qed.

(** The two sample configurations are acceptable; a resilient app with a ceiling of one
    replica is not. *)
Lemma Validate_correct_witness :
  @acceptable forward_env (sample_config "web" "nginx:1" "web.example.com") /\ @acceptable forward_env sample_storage_config /\
  ~ @acceptable forward_env (resilient_config 1).
Proof.
  split; [apply (@Validate_correct forward_env); vm_compute; reflexivity|]. split; [apply (@Validate_correct forward_env); vm_compute; reflexivity|].
  intros Ha. apply (@Validate_correct forward_env) in Ha. vm_compute in Ha. discriminate.
Defined.

(** In an accepted configuration the retained mounts are at most eight, use
    distinct claims, and no path lies inside two of them; the workload is a
    single pinned replica that is recreated, so no two pods share a claim. *)
Theorem validated_mounts_disjoint `{AppEnv} c s :
  Validate c = Ok tt -> Cfg_Storage c = Some s ->
  (List.length (Mounts s) <= 8)%nat /\ NoDup (Mount_ExistingClaim <$> Mounts s) /\
  (forall i j m n path, Mounts s !! i = Some m -> Mounts s !! j = Some n ->
     inside (Mount_MountPath m) path -> inside (Mount_MountPath n) path -> i = j) /\
  Deploy_Replicas (Cfg_Deploy c) = 1 /\ Deploy_Strategy (Cfg_Deploy c) = DeployStrategyRecreate.
Proof.
  intros Hv Hs. apply Validate_valid_config in Hv. destruct Hv as [? ? ? ? ? ? ? ? ? ? ? ? ? ? Hst ? ? ? ?].
  rewrite Hs in Hst. destruct Hst as (Hlen & _ & Hnd & Hdis & _ & _ & Hr & Hstrat & _).
  split; [done|]. split; [done|]. split; [|done].
  intros i j m n path Hi Hj Hm Hn. destruct (Nat.lt_trichotomy i j) as [Hlt|[->|Hgt]]; [|done|].
  - pose proof (Hdis i j m n Hlt Hi Hj) as Hd. unfold disjoint_paths in Hd.
    rewrite (overlap_of_shared_path _ _ path) in Hd by done. done.
  - pose proof (Hdis j i n m Hgt Hj Hi) as Hd. unfold disjoint_paths in Hd.
    rewrite (overlap_of_shared_path _ _ path) in Hd by done. done.
Qed.

Lemma validated_mounts_disjoint_witness :
  exists s, Cfg_Storage sample_storage_config = Some s /\
  (List.length (Mounts s) <= 8)%nat /\ NoDup (Mount_ExistingClaim <$> Mounts s) /\
  (forall i j m n path, Mounts s !! i = Some m -> Mounts s !! j = Some n ->
     inside (Mount_MountPath m) path -> inside (Mount_MountPath n) path -> i = j) /\
  Deploy_Replicas (Cfg_Deploy sample_storage_config) = 1 /\
  Deploy_Strategy (Cfg_Deploy sample_storage_config) = DeployStrategyRecreate.
Proof.
  eexists. split; [reflexivity|].
  apply (@validated_mounts_disjoint forward_env sample_storage_config); [vm_compute; reflexivity|reflexivity].
Defined.

(** C39: the stored text of a configuration is canonical.  Whatever text [FromJSON] read
    a configuration from, invalid UTF-8 and unknown members included, and whatever order
    maps are visited in: the configuration is normalized, and reading the text it is
    encoded to gives the same configuration, so encoding that gives the same bytes. *)
Theorem FromJSON_canonical `{AppEnv} data c text :
  FromJSON data = Ok c -> Config_JSON c = Ok text -> FromJSON text = Ok c /\ Normalize c = c.
Proof.
  intros Hd Ht. pose proof (FromJSON_normalized _ _ Hd) as Hn. split; [|done]. destruct (ok_config_text c (FromJSON_ok _ _ Hd)) as [Hi Hu].
  rewrite (FromJSON_JSON c text Hi Hu Ht). by rewrite Hn.
Qed.

(** The text of the sample configuration. *)
Definition sample_text : string := json_print (enc_Config (sample_config "web" "nginx:1" "web.example.com")).

Lemma FromJSON_canonical_witness :
  @FromJSON forward_env sample_text = Ok (sample_config "web" "nginx:1" "web.example.com") /\
  @Normalize forward_env (sample_config "web" "nginx:1" "web.example.com") = sample_config "web" "nginx:1" "web.example.com".
Proof.
  apply (@FromJSON_canonical forward_env sample_text (sample_config "web" "nginx:1" "web.example.com") sample_text).
  - vm_compute. reflexivity.
  - reflexivity.
Defined.

(** Normalization is idempotent, whatever order maps are visited in. *)
Theorem Normalize_idempotent `{AppEnv} c : Normalize (Normalize c) = Normalize c.
Proof. apply Normalize_idemp. Qed.

(** The selectors of a configuration whose keys stay distinct when trimmed. *)
Definition distinct_keys (s : option (gmap string string)) : Prop :=
  NoDup (entry_key <$> map_to_list (default ∅ s)).

(** When no two keys of a placement selector become equal by trimming, the
    normalized selectors do not depend on the order in which Go visits maps. *)
Theorem selectors_order_independent (E1 E2 : AppEnv) l :
  Forall distinct_keys l ->
  @normalizePlacementSelectors E1 l = @normalizePlacementSelectors E2 l.
Proof.
  intros Hl. unfold normalizePlacementSelectors. apply list_fmap_ext. intros i s Hi.
  rewrite Forall_lookup in Hl. specialize (Hl i s Hi). unfold clean_selector. f_equal.
  pose proof (@range_map_perm E1 (default ∅ s)) as H1. pose proof (@range_map_perm E2 (default ∅ s)) as H2.
  apply fold_clean_perm.
  - by rewrite H1, H2.
  - rewrite H1. exact Hl.
Qed.

Lemma selectors_order_independent_witness :
  @normalizePlacementSelectors forward_env [Some {[ " zone" := "eu"; "node" := " a " ]}] =
  @normalizePlacementSelectors backward_env [Some {[ " zone" := "eu"; "node" := " a " ]}].
Proof.
  apply (selectors_order_independent forward_env backward_env).
  constructor; [|constructor]. unfold distinct_keys. vm_compute. repeat constructor; set_solver.
Defined.

(** When two keys do become equal by trimming, which value is kept depends on
    the order of the visit: two runs can normalize one configuration to different
    ones. *)
Theorem selectors_order_dependent :
  exists l, @normalizePlacementSelectors forward_env l <> @normalizePlacementSelectors backward_env l.
Proof.
  exists [Some {[ "zone" := "a"; " zone" := "b" ]}]. intros Heq.
  assert (Hlk : (match @normalizePlacementSelectors forward_env [Some {[ "zone" := "a"; " zone" := "b" ]}] with
    | [Some m] => m !! "zone" | _ => None end) =
    (match @normalizePlacementSelectors backward_env [Some {[ "zone" := "a"; " zone" := "b" ]}] with
    | [Some m] => m !! "zone" | _ => None end)) by (by rewrite Heq).
  vm_compute in Hlk. discriminate.
Qed.
