(* ===== verification/DatabaseStatus.v ===== *)
(** * The reported status of an app and its managed database (internal/server/app.go)

    Warnings keep the format and the operands of [fmt.Sprintf].  The state that is
    reported for a managed PostgreSQL cluster is shown equivalent to a
    declarative description of a healthy, policy-conforming cluster. *)

From S2P Require Import Prelude GoStrings GoJson Appconfig AppconfigSpec.
From Stdlib Require Import Ascii String.
Local Open Scope Z_scope.

(** [strings.EqualFold]: the letters that fold to an ASCII letter are the ASCII
    letters, U+212A (Kelvin) and U+017F (long s).  Exact when one of the two texts
    is ASCII; the program compares with constants and with values of a validated
    configuration. *)
Fixpoint fold_key (s : string) : string :=
  match s with
  | EmptyString => EmptyString
  | String a s1 =>
      match s1 with
      | String b s2 =>
          if (b2z a =? 197) && (b2z b =? 191) then String "s" (fold_key s2)
          else
            match s2 with
            | String c s3 =>
                if (b2z a =? 226) && (b2z b =? 132) && (b2z c =? 170) then String "k" (fold_key s3)
                else String (lower_byte a) (fold_key s1)
            | EmptyString => String (lower_byte a) (fold_key s1)
            end
      | EmptyString => String (lower_byte a) EmptyString
      end
  end.
Definition EqualFold (s t : string) : bool := String.eqb (fold_key s) (fold_key t).

(** A warning of the status reply. *)
Record warning := Warn { warn_format : string; warn_args : list garg }.
Definition text (s : string) : warning := Warn s [].
Definition warn (bad : bool) (w : warning) : list warning := if bad then [w] else [].

(** internal/domain/models.go *)
Record DatabaseStatus := MkDatabaseStatus {
  DS_Present : bool; DS_Phase : string; DS_DesiredInstances : Z; DS_ReadyInstances : Z; DS_Primary : string;
  DS_RunningNodes : list string; DS_RunningInstances : list string; DS_OwnedByDeployer : bool; DS_Image : string;
  DS_BootstrapDatabase : string; DS_BootstrapOwner : string; DS_DataChecksumsEnabled : bool; DS_StorageSize : string;
  DS_StorageClass : string; DS_SynchronousMethod : string; DS_SynchronousReplicas : Z; DS_DataDurability : string;
  DS_FailoverQuorumEnabled : bool; DS_AntiAffinityType : string; DS_TopologyKey : string; DS_Architecture : string;
  DS_PasswordEncryption : string; DS_RejectsNonTLS : bool; DS_RequiresApplicationSCRAM : bool;
  DS_FailoverQuorumPresent : bool; DS_FailoverQuorumMethod : string; DS_FailoverQuorumStandbyNumber : Z;
  DS_FailoverQuorumPrimary : string; DS_FailoverQuorumStandbyNames : list string }.

(** [int32(len(l))] *)
Definition len32 {A} (l : list A) : Z := wrap_i32 (Z.of_nat (List.length l)).

Definition healthy_phase : string := "Cluster in healthy state".

Section status.
Context `{AppEnv}.

Definition databaseRuntimeState (db : DatabaseStatus) (desired : Z) : string :=
  if negb (DS_Present db) then "missing"
  else
    let phaseHealthy := EqualFold (TrimSpace (DS_Phase db)) healthy_phase in
    let spread := (0 <? desired) && (len32 (DS_RunningNodes db) =? desired) in
    if (0 <? desired) && (DS_ReadyInstances db =? desired) && negb (blank (DS_Primary db)) && phaseHealthy && spread then "healthy"
    else if 0 <? DS_ReadyInstances db then "degraded" else "not_ready".

Definition databaseReportedState (db : DatabaseStatus) (desired : Z) (haWarnings : list warning) : string :=
  let state := databaseRuntimeState db desired in
  if DS_Present db && negb (bool_decide (haWarnings = [])) then "degraded" else state.

Definition databaseRuntimeWarnings (db : DatabaseStatus) (desired : Z) : list warning :=
  if negb (DS_Present db) then [text "managed PostgreSQL cluster is not present"]
  else
    let nodes := Z.of_nat (List.length (DS_RunningNodes db)) in
    let phase := TrimSpace (DS_Phase db) in
    ((if DS_ReadyInstances db <? desired
      then [Warn "managed PostgreSQL has %d of %d instances ready" [AInt (DS_ReadyInstances db); AInt desired]]
      else warn (desired <? DS_ReadyInstances db)
             (Warn "managed PostgreSQL reports %d ready instances; expected %d" [AInt (DS_ReadyInstances db); AInt desired]))
    ++ warn (blank (DS_Primary db)) (text "managed PostgreSQL primary is not reported")
    ++ (if (0 <? desired) && (len32 (DS_RunningNodes db) <? desired)
        then [Warn "managed PostgreSQL instances are running on %d of %d required nodes" [AInt nodes; AInt desired]]
        else warn ((0 <? desired) && (desired <? len32 (DS_RunningNodes db)))
               (Warn "managed PostgreSQL instances are running on %d nodes; expected %d" [AInt nodes; AInt desired]))
    ++ (if String.eqb phase "" then [text "managed PostgreSQL phase is not reported"]
        else warn (negb (EqualFold phase healthy_phase)) (Warn "managed PostgreSQL phase is %q" [AStr phase])))%list.

Definition postgresStorageQuantitiesEqual (actual desired : string) : bool :=
  match ParseQuantity (TrimSpace actual) with
  | None => false
  | Some a =>
      match ParseQuantity (TrimSpace desired) with
      | None => false
      | Some b => Quantity_Cmp a b =? 0
      end
  end.

(** The text after the last slash. *)
Definition postgresArchitecture (placement : string) : string :=
  let placement := TrimSpace placement in
  match cut_last placement "/"%char with
  | Some (_, arch) => arch
  | None => placement
  end.

(** [map[string]struct{}] *)
Definition uniqueNonEmptyStrings (values : list string) : gset string :=
  foldl (fun unique value => let value := TrimSpace value in if String.eqb value "" then unique else {[value]} ∪ unique) ∅ values.

(** [left] in the order it is ranged over. *)
Definition equalStringSets (left right : gset string) : bool :=
  if negb (size left =? size right)%nat then false else forallb (fun value => bool_decide (value ∈ right)) (elements left).

Definition formatStringSet (values : gset string) : string := String.concat ", " (merge_sort str_le (elements values)).

(** The replicas that should stand by: the running instances but the primary. *)
Definition expectedStandbys (primary : string) (instances : list string) : gset string :=
  foldl (fun names name =>
    let name := TrimSpace name in
    if negb (String.eqb name "") && negb (String.eqb name primary) then {[name]} ∪ names else names) ∅ instances.

Definition mismatch (format actual expected : string) : warning := Warn format [AStr actual; AStr expected].

(** The specification of the Cluster against the configuration. *)
Definition clusterWarnings (cfg : Config) (postgres : PostgresConfig) (db : DatabaseStatus) (desired : Z) : list warning :=
  let replicas := wrap_i32 (PgSync_Replicas (Pg_Synchronous postgres)) in
  let arch := postgresArchitecture (Placement_Arch (Cfg_Placement cfg)) in
  (warn (negb (DS_OwnedByDeployer db)) (text "managed PostgreSQL Cluster ownership labels do not match the deployer app")
  ++ warn (negb (String.eqb (TrimSpace (DS_Image db)) (TrimSpace (Pg_Image postgres))))
       (mismatch "managed PostgreSQL image is %q; expected %q" (DS_Image db) (Pg_Image postgres))
  ++ warn (negb (String.eqb (DS_BootstrapDatabase db) (Pg_Database postgres)))
       (mismatch "managed PostgreSQL bootstrap database is %q; expected %q" (DS_BootstrapDatabase db) (Pg_Database postgres))
  ++ warn (negb (String.eqb (DS_BootstrapOwner db) (Pg_Owner postgres)))
       (mismatch "managed PostgreSQL bootstrap owner is %q; expected %q" (DS_BootstrapOwner db) (Pg_Owner postgres))
  ++ warn (negb (DS_DataChecksumsEnabled db)) (text "managed PostgreSQL data checksums are not enabled")
  ++ warn (negb (postgresStorageQuantitiesEqual (DS_StorageSize db) (PgStorage_Size (Pg_Storage postgres))))
       (mismatch "managed PostgreSQL storage size is %q; expected %q" (DS_StorageSize db) (PgStorage_Size (Pg_Storage postgres)))
  ++ warn (negb (String.eqb (TrimSpace (DS_StorageClass db)) (TrimSpace (PgStorage_StorageClass (Pg_Storage postgres)))))
       (mismatch "managed PostgreSQL storage class is %q; expected %q" (DS_StorageClass db) (PgStorage_StorageClass (Pg_Storage postgres)))
  ++ warn (negb (DS_DesiredInstances db =? desired))
       (Warn "managed PostgreSQL Cluster specifies %d instances; expected %d" [AInt (DS_DesiredInstances db); AInt desired])
  ++ warn (negb (EqualFold (TrimSpace (DS_SynchronousMethod db)) "any"))
       (mismatch "managed PostgreSQL synchronous method is %q; expected %q" (DS_SynchronousMethod db) "any")
  ++ warn (negb (DS_SynchronousReplicas db =? replicas))
       (Warn "managed PostgreSQL synchronous replica count is %d; expected %d" [AInt (DS_SynchronousReplicas db); AInt replicas])
  ++ warn (negb (EqualFold (TrimSpace (DS_DataDurability db)) (TrimSpace (PgSync_DataDurability (Pg_Synchronous postgres)))))
       (mismatch "managed PostgreSQL data durability is %q; expected %q" (DS_DataDurability db) (PgSync_DataDurability (Pg_Synchronous postgres)))
  ++ warn (negb (DS_FailoverQuorumEnabled db)) (text "managed PostgreSQL failover quorum is disabled in the Cluster specification")
  ++ warn (negb (EqualFold (TrimSpace (DS_AntiAffinityType db)) "required"))
       (mismatch "managed PostgreSQL pod anti-affinity type is %q; expected %q" (DS_AntiAffinityType db) "required")
  ++ warn (negb (String.eqb (TrimSpace (DS_TopologyKey db)) "kubernetes.io/hostname"))
       (mismatch "managed PostgreSQL topology key is %q; expected %q" (DS_TopologyKey db) "kubernetes.io/hostname")
  ++ warn (negb (EqualFold (TrimSpace (DS_Architecture db)) arch))
       (mismatch "managed PostgreSQL placement architecture is %q; expected %q" (DS_Architecture db) arch)
  ++ warn (negb (EqualFold (TrimSpace (DS_PasswordEncryption db)) "scram-sha-256"))
       (mismatch "managed PostgreSQL password encryption is %q; expected %q" (DS_PasswordEncryption db) "scram-sha-256")
  ++ warn (negb (DS_RejectsNonTLS db)) (text "managed PostgreSQL does not reject non-TLS client connections")
  ++ warn (negb (DS_RequiresApplicationSCRAM db))
       (text "managed PostgreSQL application HBA rule does not require SCRAM-SHA-256 over TLS"))%list.

(** The FailoverQuorum object against the running instances. *)
Definition quorumWarnings (postgres : PostgresConfig) (db : DatabaseStatus) : list warning :=
  let replicas := wrap_i32 (PgSync_Replicas (Pg_Synchronous postgres)) in
  let standbyNames := uniqueNonEmptyStrings (DS_FailoverQuorumStandbyNames db) in
  let expected := expectedStandbys (DS_Primary db) (DS_RunningInstances db) in
  if negb (DS_FailoverQuorumPresent db) then [text "managed PostgreSQL FailoverQuorum status object is not present"]
  else
    (warn (negb (EqualFold (TrimSpace (DS_FailoverQuorumMethod db)) "any"))
       (mismatch "managed PostgreSQL FailoverQuorum method is %q; expected %q" (DS_FailoverQuorumMethod db) "any")
    ++ warn (negb (DS_FailoverQuorumStandbyNumber db =? replicas))
         (Warn "managed PostgreSQL FailoverQuorum standby number is %d; expected %d" [AInt (DS_FailoverQuorumStandbyNumber db); AInt replicas])
    ++ (if blank (DS_FailoverQuorumPrimary db) then [text "managed PostgreSQL FailoverQuorum primary is not reported"]
        else warn (negb (String.eqb (DS_FailoverQuorumPrimary db) (DS_Primary db)))
               (mismatch "managed PostgreSQL FailoverQuorum primary is %q; current primary is %q" (DS_FailoverQuorumPrimary db) (DS_Primary db)))
    ++ warn (negb (size standbyNames =? List.length (DS_FailoverQuorumStandbyNames db))%nat)
         (text "managed PostgreSQL FailoverQuorum reports duplicate or empty standby names")
    ++ warn (negb (equalStringSets standbyNames expected))
         (mismatch "managed PostgreSQL FailoverQuorum standby names are %s; expected current running replicas %s"
            (formatStringSet standbyNames) (formatStringSet expected))
    ++ warn (negb (blank (DS_Primary db)) && bool_decide (DS_Primary db ∈ standbyNames))
         (text "managed PostgreSQL FailoverQuorum standby names include the current primary"))%list.

Definition databaseHAPolicyWarnings (cfg : Config) (db : DatabaseStatus) (desired : Z) : list warning :=
  if negb (DS_Present db) then []
  else
    match Database_Postgres (Cfg_Database cfg) with
    | None => []
    | Some postgres => (clusterWarnings cfg postgres db desired ++ quorumWarnings postgres db)%list
    end.

(** ** The reply *)

Record PbDatabaseStatus := MkPbDatabaseStatus {
  pb_db_State : string; pb_db_Phase : string; pb_db_Desired : Z; pb_db_Ready : Z; pb_db_Primary : string; pb_db_Nodes : list string }.

(** [reply]: what [DatabaseStatus] of the runtime answered.  The result is the
    database of the reply and the warnings that are added. *)
Definition appendDatabaseStatus (reply : result DatabaseStatus) (cfg : Config) : option PbDatabaseStatus * list warning :=
  match Database_Postgres (Cfg_Database cfg) with
  | None => (None, [])
  | Some postgres =>
      let desired := wrap_i32 (Pg_Instances postgres) in
      let external := warn (String.eqb (Pg_ConnectionMode postgres) PostgresConnectionModeExternal)
                        (text "application database connection is still in external mode") in
      match reply with
      | Err _ => (Some (MkPbDatabaseStatus "unknown" "" desired 0 "" []),
                  (external ++ [text "managed PostgreSQL status unavailable: %v"])%list)
      | Ok db =>
          let haWarnings := databaseHAPolicyWarnings cfg db desired in
          (Some (MkPbDatabaseStatus (databaseReportedState db desired haWarnings) (DS_Phase db) desired (DS_ReadyInstances db)
                   (DS_Primary db) (DS_RunningNodes db)),
           (external ++ databaseRuntimeWarnings db desired ++ haWarnings)%list)
      end
  end.

Definition runtimeWarnings (cfg : Config) (state : string) (desired available : Z) (runningNodes : list string) : list warning :=
  let mode := Resilience_Mode (Cfg_Resilience cfg) in
  (warn (available <? desired) (Warn "only %d of %d desired replicas are available" [AInt available; AInt desired])
  ++ warn (String.eqb mode ResilienceResilient && (2 <=? desired) && (List.length runningNodes <? 2)%nat)
       (text "resilient replicas are not spread across two nodes")
  ++ warn (String.eqb mode ResilienceFallback && negb (String.eqb state "healthy"))
       (text "fallback capacity is not currently satisfying desired availability"))%list.

(** ** What a healthy cluster is *)

(** The cluster runs as it should. *)
Definition running_well (db : DatabaseStatus) (desired : Z) : Prop :=
  DS_Present db = true /\ 0 < desired /\ DS_ReadyInstances db = desired /\ TrimSpace (DS_Primary db) <> "" /\
  EqualFold (TrimSpace (DS_Phase db)) healthy_phase = true /\ len32 (DS_RunningNodes db) = desired.

(** It was created as configured. *)
Definition as_configured (cfg : Config) (postgres : PostgresConfig) (db : DatabaseStatus) (desired : Z) : Prop :=
  DS_OwnedByDeployer db = true /\ TrimSpace (DS_Image db) = TrimSpace (Pg_Image postgres) /\
  DS_BootstrapDatabase db = Pg_Database postgres /\ DS_BootstrapOwner db = Pg_Owner postgres /\ DS_DataChecksumsEnabled db = true /\
  (exists a b, ParseQuantity (TrimSpace (DS_StorageSize db)) = Some a /\
     ParseQuantity (TrimSpace (PgStorage_Size (Pg_Storage postgres))) = Some b /\ Quantity_Cmp a b = 0) /\
  TrimSpace (DS_StorageClass db) = TrimSpace (PgStorage_StorageClass (Pg_Storage postgres)) /\ DS_DesiredInstances db = desired.

(** It fails over without losing data, on separate nodes, over authenticated TLS. *)
Definition resilient (cfg : Config) (postgres : PostgresConfig) (db : DatabaseStatus) : Prop :=
  EqualFold (TrimSpace (DS_SynchronousMethod db)) "any" = true /\
  DS_SynchronousReplicas db = wrap_i32 (PgSync_Replicas (Pg_Synchronous postgres)) /\
  EqualFold (TrimSpace (DS_DataDurability db)) (TrimSpace (PgSync_DataDurability (Pg_Synchronous postgres))) = true /\
  DS_FailoverQuorumEnabled db = true /\ EqualFold (TrimSpace (DS_AntiAffinityType db)) "required" = true /\
  TrimSpace (DS_TopologyKey db) = "kubernetes.io/hostname" /\
  EqualFold (TrimSpace (DS_Architecture db)) (postgresArchitecture (Placement_Arch (Cfg_Placement cfg))) = true /\
  EqualFold (TrimSpace (DS_PasswordEncryption db)) "scram-sha-256" = true /\ DS_RejectsNonTLS db = true /\
  DS_RequiresApplicationSCRAM db = true.

(** The quorum is exactly the running replicas: no name is empty or repeated, and
    the names are those of the running instances other than the primary. *)
Definition quorum_exact (postgres : PostgresConfig) (db : DatabaseStatus) : Prop :=
  DS_FailoverQuorumPresent db = true /\ EqualFold (TrimSpace (DS_FailoverQuorumMethod db)) "any" = true /\
  DS_FailoverQuorumStandbyNumber db = wrap_i32 (PgSync_Replicas (Pg_Synchronous postgres)) /\
  TrimSpace (DS_FailoverQuorumPrimary db) <> "" /\ DS_FailoverQuorumPrimary db = DS_Primary db /\
  let names := TrimSpace <$> DS_FailoverQuorumStandbyNames db in
  NoDup names /\
  (forall name, name ∈ names <-> name <> "" /\ name <> DS_Primary db /\ name ∈ (TrimSpace <$> DS_RunningInstances db)).
End status.

(** ** The sets of names *)

Section names.
Implicit Types (l : list string) (x : string).

Lemma unique_fold l : forall acc x,
  x ∈ foldl (fun unique value => let value := TrimSpace value in if String.eqb value "" then unique else ({[value]} ∪ unique : gset string)) acc l <->
  x ∈ acc \/ (x <> "" /\ x ∈ (TrimSpace <$> l)).
Proof.
  induction l as [|v l IH]; intros acc x; cbn [foldl]; [set_solver|]. cbv zeta. rewrite IH. rewrite fmap_cons, elem_of_cons.
  destruct (String.eqb_spec (TrimSpace v) ""); set_solver.
Qed.

Lemma elem_of_unique l x : x ∈ uniqueNonEmptyStrings l <-> x <> "" /\ x ∈ (TrimSpace <$> l).
Proof. unfold uniqueNonEmptyStrings. rewrite unique_fold. set_solver. Qed.

Lemma elem_of_expected primary l x : x ∈ expectedStandbys primary l <-> x <> "" /\ x <> primary /\ x ∈ (TrimSpace <$> l).
Proof.
  unfold expectedStandbys. enough (Hg : forall acc : gset string, x ∈ foldl (fun names name =>
    let name := TrimSpace name in if negb (String.eqb name "") && negb (String.eqb name primary) then {[name]} ∪ names else names) acc l <->
    x ∈ acc \/ (x <> "" /\ x <> primary /\ x ∈ (TrimSpace <$> l))) by (rewrite Hg; set_solver).
  induction l as [|v l IH]; intros acc; cbn [foldl]; [set_solver|]. cbv zeta. rewrite IH, fmap_cons, elem_of_cons.
  destruct (String.eqb_spec (TrimSpace v) ""), (String.eqb_spec (TrimSpace v) primary); cbn [negb andb]; set_solver.
Qed.

Definition distinct l : gset string := list_to_set l ∖ {[""]}.

Lemma distinct_cons a l : size (distinct (a :: l)) = ((if bool_decide (a = "" \/ a ∈ l) then 0 else 1) + size (distinct l))%nat.
Proof.
  unfold distinct. case_bool_decide as Ha.
  - apply (f_equal size). set_solver.
  - rewrite <- (size_singleton (C := gset string) a), <- size_union by set_solver. apply (f_equal size). set_solver.
Qed.

Lemma distinct_le l : (size (distinct l) <= List.length l)%nat.
Proof. induction l as [|a l IH]; [done|]. rewrite distinct_cons. cbn. case_bool_decide; lia. Qed.

Lemma distinct_all l : size (distinct l) = List.length l <-> NoDup l /\ "" ∉ l.
Proof.
  induction l as [|a l IH]; [split; [intros _; split; [constructor|apply not_elem_of_nil]|done]|].
  rewrite distinct_cons, NoDup_cons, not_elem_of_cons. pose proof (distinct_le l). cbn [List.length]. case_bool_decide as Ha; [|naive_solver lia].
  split; [lia|]. naive_solver.
Qed.

Lemma unique_size l : size (uniqueNonEmptyStrings l) = List.length l <-> NoDup (TrimSpace <$> l) /\ "" ∉ (TrimSpace <$> l).
Proof.
  rewrite <- distinct_all, length_fmap. replace (uniqueNonEmptyStrings l) with (distinct (TrimSpace <$> l)); [done|].
  apply set_eq. intros x. rewrite elem_of_unique. unfold distinct. set_solver.
Qed.

Lemma equalStringSets_spec (X Y : gset string) : equalStringSets X Y = true <-> X = Y.
Proof.
  unfold equalStringSets. destruct (Nat.eqb_spec (size X) (size Y)) as [Hs|Hs]; cbn [negb]; [|split; [done|congruence]].
  rewrite List.forallb_forall. split.
  - intros Hf. apply set_subseteq_size_eq; [|lia]. intros x Hx. specialize (Hf x). rewrite <- list_elem_of_In in Hf.
    by apply (bool_decide_eq_true_1 _ (Hf (proj2 (elem_of_elements X x) Hx))).
  - intros -> x Hx. apply bool_decide_true. by apply elem_of_elements, list_elem_of_In.
Qed.
End names.

(** ** The reported state *)

Lemma warn_nil b w : warn b w = [] <-> b = false.
Proof. by destruct b. Qed.

Lemma app_nil_iff {A} (l k : list A) : (l ++ k)%list = [] <-> l = [] /\ k = [].
Proof. apply app_nil. Qed.

Section reported.
Context `{AppEnv}.

Lemma quantities_equal a b : postgresStorageQuantitiesEqual a b = true <->
  exists x y, ParseQuantity (TrimSpace a) = Some x /\ ParseQuantity (TrimSpace b) = Some y /\ Quantity_Cmp x y = 0.
Proof.
  unfold postgresStorageQuantitiesEqual. destruct (ParseQuantity (TrimSpace a)) as [x|]; [|naive_solver].
  destruct (ParseQuantity (TrimSpace b)) as [y|]; [|naive_solver]. rewrite Z.eqb_eq. naive_solver.
Qed.

Lemma clusterWarnings_none cfg postgres db desired :
  clusterWarnings cfg postgres db desired = [] <-> as_configured cfg postgres db desired /\ resilient cfg postgres db.
Proof.
  unfold clusterWarnings, as_configured, resilient. cbv zeta. rewrite !app_nil_iff, !warn_nil, !negb_false_iff.
  rewrite !String.eqb_eq, !Z.eqb_eq, quantities_equal. split; [intros Hw; destruct_and! Hw; by split_and!|intros Hw; destruct_and! Hw; by split_and!].
Qed.

Lemma quorum_names db :
  size (uniqueNonEmptyStrings (DS_FailoverQuorumStandbyNames db)) = List.length (DS_FailoverQuorumStandbyNames db) /\
  uniqueNonEmptyStrings (DS_FailoverQuorumStandbyNames db) = expectedStandbys (DS_Primary db) (DS_RunningInstances db) <->
  let names := TrimSpace <$> DS_FailoverQuorumStandbyNames db in
  NoDup names /\ (forall name, name ∈ names <-> name <> "" /\ name <> DS_Primary db /\ name ∈ (TrimSpace <$> DS_RunningInstances db)).
Proof.
  cbv zeta. rewrite unique_size, set_eq. setoid_rewrite elem_of_unique. setoid_rewrite elem_of_expected.
  set (names := TrimSpace <$> DS_FailoverQuorumStandbyNames db). split.
  - intros [[Hd Hne] Hset]. split; [done|]. intros name. specialize (Hset name). split; [|tauto].
    intros Hin. apply Hset. split; [|done]. intros ->. by apply Hne.
  - intros [Hd Hiff]. split; [split; [done|]; intros Hin%Hiff; naive_solver|]. intros name. specialize (Hiff name). tauto.
Qed.

Lemma quorumWarnings_none postgres db : quorumWarnings postgres db = [] <-> quorum_exact postgres db.
Proof.
  unfold quorumWarnings, quorum_exact. cbv zeta. destruct (DS_FailoverQuorumPresent db); cbn [negb]; [|naive_solver].
  rewrite !app_nil_iff, !warn_nil, !negb_false_iff, Z.eqb_eq, Nat.eqb_eq, equalStringSets_spec.
  pose proof (quorum_names db) as Hn. cbv zeta in Hn.
  assert (Hp : (if blank (DS_FailoverQuorumPrimary db) then [text "managed PostgreSQL FailoverQuorum primary is not reported"]
        else warn (negb (String.eqb (DS_FailoverQuorumPrimary db) (DS_Primary db)))
               (mismatch "managed PostgreSQL FailoverQuorum primary is %q; current primary is %q" (DS_FailoverQuorumPrimary db) (DS_Primary db))) = []
     <-> TrimSpace (DS_FailoverQuorumPrimary db) <> "" /\ DS_FailoverQuorumPrimary db = DS_Primary db).
  { rewrite <- blank_false. destruct (blank (DS_FailoverQuorumPrimary db)); [naive_solver|].
    rewrite warn_nil, negb_false_iff, String.eqb_eq. naive_solver. }
  rewrite Hp. split.
  - intros (Hm & Hr & [Hpr Hpe] & Hd & He & _). split_and!; try done; by apply Hn.
  - intros (_ & Hm & Hr & Hpr & Hpe & Hnames). apply Hn in Hnames as [Hd He]. split_and!; try done.
    apply andb_false_iff. right. apply bool_decide_false. rewrite He, elem_of_expected. naive_solver.
Qed.

Lemma runtime_explained db desired : DS_Present db = true -> 0 < desired ->
  (databaseRuntimeState db desired = "healthy" <-> databaseRuntimeWarnings db desired = []).
Proof.
  intros Hp Hd. unfold databaseRuntimeState, databaseRuntimeWarnings. rewrite Hp, (proj2 (Z.ltb_lt 0 desired) Hd). cbv zeta. cbn [negb andb].
  rewrite !app_nil_iff.
  assert (E1 : (if DS_ReadyInstances db <? desired
      then [Warn "managed PostgreSQL has %d of %d instances ready" [AInt (DS_ReadyInstances db); AInt desired]]
      else warn (desired <? DS_ReadyInstances db)
             (Warn "managed PostgreSQL reports %d ready instances; expected %d" [AInt (DS_ReadyInstances db); AInt desired])) = []
    <-> (DS_ReadyInstances db =? desired) = true).
  { rewrite Z.eqb_eq. destruct (Z.ltb_spec (DS_ReadyInstances db) desired); [split; [discriminate|lia]|]. rewrite warn_nil, Z.ltb_ge. lia. }
  assert (E2 : forall w1 w2, (if len32 (DS_RunningNodes db) <? desired then [w1] else warn (desired <? len32 (DS_RunningNodes db)) w2) = []
    <-> (len32 (DS_RunningNodes db) =? desired) = true).
  { intros w1 w2. rewrite Z.eqb_eq. destruct (Z.ltb_spec (len32 (DS_RunningNodes db)) desired); [split; [discriminate|lia]|]. rewrite warn_nil, Z.ltb_ge. lia. }
  assert (E3 : forall w1 w2, (if String.eqb (TrimSpace (DS_Phase db)) "" then [w1] else warn (negb (EqualFold (TrimSpace (DS_Phase db)) healthy_phase)) w2) = []
    <-> EqualFold (TrimSpace (DS_Phase db)) healthy_phase = true).
  { intros w1 w2. destruct (String.eqb_spec (TrimSpace (DS_Phase db)) "") as [->|_]; [by split|]. by rewrite warn_nil, negb_false_iff. }
  rewrite E1, E2, E3, warn_nil. destruct (DS_ReadyInstances db =? desired), (blank (DS_Primary db)), (EqualFold _ _), (len32 _ =? desired); cbn [negb andb];
    (split; [intros Hs; first [done|exfalso; destruct (0 <? DS_ReadyInstances db); discriminate]|naive_solver]).
Qed.

(** The reported state of a managed database is exactly the policy.  The
    state is [healthy] if and only if the cluster is present and runs all of its
    instances on separate nodes with a primary, was created as the configuration
    says, fails over without losing data behind authenticated TLS, and its
    failover quorum consists of exactly the running replicas.  Every other state
    comes with a warning that explains it. *)
Theorem healthy_means_policy cfg postgres db desired :
  Database_Postgres (Cfg_Database cfg) = Some postgres ->
  (databaseReportedState db desired (databaseHAPolicyWarnings cfg db desired) = "healthy" <->
   running_well db desired /\ as_configured cfg postgres db desired /\ resilient cfg postgres db /\ quorum_exact postgres db) /\
  (0 < desired ->
   databaseReportedState db desired (databaseHAPolicyWarnings cfg db desired) = "healthy" <->
   (databaseRuntimeWarnings db desired ++ databaseHAPolicyWarnings cfg db desired)%list = []).
Proof.
  intros Hp. split.
  2: { intros Hd. unfold databaseReportedState. cbv zeta. destruct (DS_Present db) eqn:Hpres; cbn [andb].
       - rewrite app_nil_iff, <- runtime_explained by done. case_bool_decide; cbn [negb]; [tauto|]. split; [discriminate|tauto].
       - unfold databaseRuntimeState, databaseRuntimeWarnings. rewrite Hpres. done. }
  unfold databaseReportedState, databaseHAPolicyWarnings, databaseRuntimeState, running_well. rewrite Hp. cbv zeta.
  destruct (DS_Present db); cbn [negb andb]; [|naive_solver].
  case_bool_decide as Hw; cbn [negb].
  - apply app_nil_iff in Hw as [Hc%clusterWarnings_none Hq%quorumWarnings_none].
    case_match eqn:Hb; [bools; rewrite blank_false in *; naive_solver|]. split; [case_match; discriminate|].
    intros [(_ & H1 & H2 & H3 & H4 & H5) _]. exfalso.
    rewrite (proj2 (Z.ltb_lt _ _) H1), (proj2 (Z.eqb_eq _ _) H2), (proj2 (blank_false _) H3), H4, (proj2 (Z.eqb_eq _ _) H5) in Hb. done.
  - split; [discriminate|]. intros (_ & Hc & Hr & Hq). exfalso. apply Hw, app_nil_iff.
    split; [by apply clusterWarnings_none|by apply quorumWarnings_none].
Qed.
End reported.

(** ** A healthy cluster *)

Section sample.
#[local] Existing Instance forward_env.

Definition sample_postgres : PostgresConfig := {|
  Pg_Instances := 3; Pg_Image := "ghcr.io/cloudnative-pg/postgresql:17"; Pg_Database := "shop"; Pg_Owner := "shop";
  Pg_ConnectionEnv := "DATABASE_URL"; Pg_ConnectionMode := "managed";
  Pg_Storage := {| PgStorage_Size := "10Gi"; PgStorage_StorageClass := "local-path" |};
  Pg_Synchronous := {| PgSync_Replicas := 1; PgSync_DataDurability := "required" |}; Pg_RetentionPolicy := "retain" |}.

Definition database_config : Config :=
  let c := sample_config "shop" "nginx:1" "" in
  {| Cfg_ImagePullCredential := Cfg_ImagePullCredential c; Cfg_EnvironmentRevision := Cfg_EnvironmentRevision c; Cfg_Name := Cfg_Name c;
     Cfg_Image := Cfg_Image c; Cfg_Service := Cfg_Service c; Cfg_Metrics := Cfg_Metrics c; Cfg_Routing := Cfg_Routing c;
     Cfg_Deploy := Cfg_Deploy c; Cfg_Placement := {| Placement_Arch := "linux/arm64"; Placement_Fallback := Placement_Fallback (Cfg_Placement c);
       Placement_Prefer := Placement_Prefer (Cfg_Placement c); Placement_Spread := Placement_Spread (Cfg_Placement c) |};
     Cfg_Storage := Cfg_Storage c; Cfg_Secrets := Cfg_Secrets c; Cfg_State := Cfg_State c; Cfg_Resilience := Cfg_Resilience c;
     Cfg_Database := {| Database_Postgres := Some sample_postgres |}; Cfg_Hosting := Cfg_Hosting c |}.

Definition sample_database : DatabaseStatus :=
  MkDatabaseStatus true "Cluster in healthy state" 3 3 "shop-1" ["n1"; "n2"; "n3"] ["shop-1"; "shop-2"; "shop-3"] true
    "ghcr.io/cloudnative-pg/postgresql:17" "shop" "shop" true "10Gi" "local-path" "ANY" 1 "required" true "required"
    "kubernetes.io/hostname" "arm64" "scram-sha-256" true true true "any" 1 "shop-1" ["shop-3"; "shop-2"].

Lemma healthy_means_policy_witness :
  running_well sample_database 3 /\ quorum_exact sample_postgres sample_database.
Proof.
  destruct (healthy_means_policy database_config sample_postgres sample_database 3 eq_refl) as [[Hp _] _].
  destruct Hp as (H1 & _ & _ & H2); [vm_compute; reflexivity|]. split; [exact H1|exact H2].
Defined.
End sample.
