(* ===== verification/Db.v ===== *)
(** * The database: tables, statements and transactions (internal/db)

    Tables are finite maps from the primary key to the row; a row holds the
    stored text (times are text).  Statements check the constraints the
    migrations declare: primary keys, UNIQUE columns and indexes, and CHECK
    clauses.  FOREIGN KEY clauses are not enforced by the statements: the
    connection pool gives no guarantee that the pragma is on for the connection
    used, so the development proves the references are intact without it.

    Every call to the driver consumes one entry of a fault schedule: it succeeds,
    fails without effect, or fails after its effect took place (a lost reply).
    A transaction works on a copy that [Commit] installs. *)

From S2P Require Import Prelude GoStrings GoTime.
From Stdlib Require Import Ascii String.
Local Open Scope Z_scope.

(** ** State monads with errors *)

Definition ST (S A : Type) : Type := S -> result A * S.

#[export] Instance st_ret {S} : MRet (ST S) := fun A a s => (Ok a, s).
#[export] Instance st_bind {S} : MBind (ST S) := fun A B f m s =>
  match m s with
  | (Ok a, s') => f a s'
  | (Err e, s') => (Err e, s')
  end.

(** Lifting a pure fallible computation, and failing. *)
Definition lift {S A} (r : result A) : ST S A := fun s => (r, s).
Definition throw {S A} (e : error) : ST S A := fun s => (Err e, s).

(** The outcome as a value: [v, err := m()]. *)
Definition attempt {S A} (m : ST S A) : ST S (result A) := fun s => let '(r, s') := m s in (Ok r, s').

(** [if err != nil { return f(err) }] *)
Definition map_err {S A} (f : error -> error) (m : ST S A) : ST S A := fun s =>
  match m s with
  | (Ok a, s') => (Ok a, s')
  | (Err e, s') => (Err (f e), s')
  end.

Definition guard {S} (bad : bool) (e : error) : ST S unit := lift (check bad e).

(** ** Rows *)

Record app_row := AppRow {
  ar_id : string; ar_name : string; ar_image : string; ar_state : string;
  ar_created : string; ar_updated : string; ar_deleted : option string }.

Record deployment_row := DeploymentRow {
  dr_id : string; dr_app_id : string; dr_status : string; dr_failure : option string;
  dr_created : string; dr_updated : string }.

Record route_row := RouteRow {
  rr_id : string; rr_app_id : string; rr_domain : string; rr_port : Z; rr_status : string; rr_tls : Z;
  rr_created : string; rr_updated : string }.

Record request_row := RequestRow {
  qr_app : string; qr_id : string; qr_state : string; qr_requested : string;
  qr_prev_id : option string; qr_prev_state : option string; qr_report : Z; qr_response : option string;
  qr_created : string; qr_updated : string }.

Record binding_row := BindingRow {
  br_app : string; br_request : string; br_app_id : string; br_deployment_id : string; br_created : string }.

Record checkpoint_row := CheckpointRow {
  cr_app : string; cr_request : string; cr_stage : string; cr_intent : string; cr_gate : string;
  cr_created : string; cr_updated : string }.

Record withdrawal_row := WithdrawalRow { wr_app : string; wr_request : string; wr_at : string }.

Record Db := MkDb {
  t_apps : gmap string app_row;
  t_deployments : gmap string deployment_row;
  t_routes : gmap string route_row;
  t_requests : gmap (string * string) request_row;
  t_bindings : gmap (string * string) binding_row;
  t_checkpoints : gmap (string * string) checkpoint_row;
  t_withdrawals : gmap (string * string) withdrawal_row }.

Definition empty_db : Db := MkDb ∅ ∅ ∅ ∅ ∅ ∅ ∅.

Definition set_apps f (d : Db) : Db := MkDb (f (t_apps d)) (t_deployments d) (t_routes d) (t_requests d) (t_bindings d) (t_checkpoints d) (t_withdrawals d).
Definition set_deployments f (d : Db) : Db := MkDb (t_apps d) (f (t_deployments d)) (t_routes d) (t_requests d) (t_bindings d) (t_checkpoints d) (t_withdrawals d).
Definition set_routes f (d : Db) : Db := MkDb (t_apps d) (t_deployments d) (f (t_routes d)) (t_requests d) (t_bindings d) (t_checkpoints d) (t_withdrawals d).
Definition set_requests f (d : Db) : Db := MkDb (t_apps d) (t_deployments d) (t_routes d) (f (t_requests d)) (t_bindings d) (t_checkpoints d) (t_withdrawals d).
Definition set_bindings f (d : Db) : Db := MkDb (t_apps d) (t_deployments d) (t_routes d) (t_requests d) (f (t_bindings d)) (t_checkpoints d) (t_withdrawals d).
Definition set_checkpoints f (d : Db) : Db := MkDb (t_apps d) (t_deployments d) (t_routes d) (t_requests d) (t_bindings d) (f (t_checkpoints d)) (t_withdrawals d).
Definition set_withdrawals f (d : Db) : Db := MkDb (t_apps d) (t_deployments d) (t_routes d) (t_requests d) (t_bindings d) (t_checkpoints d) (f (t_withdrawals d)).

(** ** Constraints of the migrations *)

Definition valid_state (s : string) : bool := bool_decide (s ∈ ["pending"; "applied"; "withdrawn"]).
Definition valid_stage (s : string) : bool := bool_decide (s ∈ ["prepared"; "fenced"; "activated"; "recovering"; "withdrawn"]).

(** CHECK of [deployment_requests]: a response exactly in the terminal states. *)
Definition check_response (state : string) (response : option string) : bool :=
  match response with
  | None => String.eqb state "pending"
  | Some _ => String.eqb state "applied" || String.eqb state "withdrawn"
  end.

(** ** Statements: the new tables and the number of rows affected *)

Definition insert_app (r : app_row) (d : Db) : result (Db * Z) :=
  _ ← check (bool_decide (is_Some (t_apps d !! ar_id r))) (ErrConstraint "apps.id");
  _ ← check (exists_row (fun a => String.eqb (ar_name a) (ar_name r)) (t_apps d)) (ErrConstraint "apps.name");
  Ok (set_apps <[ar_id r := r]> d, 1).

(** [UPDATE apps SET ... WHERE id = ?] *)
Definition update_app (id : string) (f : app_row -> app_row) (d : Db) : result (Db * Z) :=
  match t_apps d !! id with
  | Some r => Ok (set_apps <[id := f r]> d, 1)
  | None => Ok (d, 0)
  end.

Definition insert_deployment (r : deployment_row) (d : Db) : result (Db * Z) :=
  _ ← check (bool_decide (is_Some (t_deployments d !! dr_id r))) (ErrConstraint "deployments.id");
  Ok (set_deployments <[dr_id r := r]> d, 1).

(** [UPDATE deployments SET ... WHERE id = ? AND where_] *)
Definition update_deployment (id : string) (where_ : deployment_row -> bool) (f : deployment_row -> deployment_row)
    (d : Db) : result (Db * Z) :=
  match t_deployments d !! id with
  | Some r => if where_ r then Ok (set_deployments <[id := f r]> d, 1) else Ok (d, 0)
  | None => Ok (d, 0)
  end.

Definition route_of_app (app_id : string) (d : Db) : option route_row :=
  select1 (fun r => String.eqb (rr_app_id r) app_id) (t_routes d).

Definition domain_taken (domain id : string) (d : Db) : bool :=
  exists_row (fun r => String.eqb (rr_domain r) domain && negb (String.eqb (rr_id r) id)) (t_routes d).

Definition insert_route (r : route_row) (d : Db) : result (Db * Z) :=
  _ ← check (bool_decide (is_Some (t_routes d !! rr_id r))) (ErrConstraint "routes.id");
  _ ← check (bool_decide (is_Some (route_of_app (rr_app_id r) d))) (ErrConstraint "routes_app_id_unique");
  _ ← check (domain_taken (rr_domain r) (rr_id r) d) (ErrConstraint "routes.domain");
  Ok (set_routes <[rr_id r := r]> d, 1).

(** [INSERT INTO routes ... ON CONFLICT(app_id) DO UPDATE SET domain, target_port,
    status, tls_enabled, updated_at]: only the conflict on [app_id] is handled. *)
Definition upsert_route (r : route_row) (d : Db) : result (Db * Z) :=
  match route_of_app (rr_app_id r) d with
  | None => insert_route r d
  | Some old =>
      _ ← check (domain_taken (rr_domain r) (rr_id old) d) (ErrConstraint "routes.domain");
      Ok (set_routes <[rr_id old := RouteRow (rr_id old) (rr_app_id old) (rr_domain r) (rr_port r) (rr_status r)
            (rr_tls r) (rr_created old) (rr_updated r)]> d, 1)
  end.

Definition delete_routes (app_id : string) (d : Db) : result (Db * Z) :=
  Ok (set_routes (filter (fun kv => rr_app_id kv.2 <> app_id)) d,
      Z.of_nat (size (filter (fun kv => rr_app_id kv.2 = app_id) (t_routes d)))).

Definition update_route (id : string) (f : route_row -> route_row) (d : Db) : result (Db * Z) :=
  match t_routes d !! id with
  | Some r => Ok (set_routes <[id := f r]> d, 1)
  | None => Ok (d, 0)
  end.

(** A pending request of the app, if there is one (index
    [deployment_requests_one_pending]). *)
Definition pending_of_app (app : string) (d : Db) : option request_row :=
  select1 (fun r => String.eqb (qr_app r) app && String.eqb (qr_state r) "pending") (t_requests d).

Definition insert_request (r : request_row) (d : Db) : result (Db * Z) :=
  _ ← check (bool_decide (is_Some (t_requests d !! (qr_app r, qr_id r)))) (ErrConstraint "deployment_requests primary key");
  _ ← check (negb (valid_state (qr_state r)) || negb (bool_decide (qr_report r ∈ [0; 1])) ||
             negb (check_response (qr_state r) (qr_response r))) (ErrConstraint "deployment_requests check");
  _ ← check (String.eqb (qr_state r) "pending" && bool_decide (is_Some (pending_of_app (qr_app r) d)))
        (ErrConstraint "deployment_requests_one_pending");
  Ok (set_requests <[(qr_app r, qr_id r) := r]> d, 1).

(** [UPDATE deployment_requests SET state, response_json, updated_at WHERE app_name
    AND request_id AND state = 'pending' AND where_] *)
Definition finish_request (key : string * string) (where_ : request_row -> bool) (state response updated : string)
    (d : Db) : result (Db * Z) :=
  match t_requests d !! key with
  | Some r =>
      if String.eqb (qr_state r) "pending" && where_ r then
        _ ← check (negb (valid_state state) || negb (check_response state (Some response)))
              (ErrConstraint "deployment_requests check");
        Ok (set_requests <[key := RequestRow (qr_app r) (qr_id r) state (qr_requested r) (qr_prev_id r) (qr_prev_state r)
              (qr_report r) (Some response) (qr_created r) updated]> d, 1)
      else Ok (d, 0)
  | None => Ok (d, 0)
  end.

Definition insert_binding (r : binding_row) (d : Db) : result (Db * Z) :=
  _ ← check (bool_decide (is_Some (t_bindings d !! (br_app r, br_request r)))) (ErrConstraint "candidate_request_bindings primary key");
  Ok (set_bindings <[(br_app r, br_request r) := r]> d, 1).

Definition insert_checkpoint (r : checkpoint_row) (d : Db) : result (Db * Z) :=
  _ ← check (bool_decide (is_Some (t_checkpoints d !! (cr_app r, cr_request r)))) (ErrConstraint "runtime_activation_checkpoints primary key");
  _ ← check (negb (valid_stage (cr_stage r))) (ErrConstraint "runtime_activation_checkpoints check");
  Ok (set_checkpoints <[(cr_app r, cr_request r) := r]> d, 1).

(** [UPDATE runtime_activation_checkpoints SET stage, gate_json, updated_at WHERE
    app_name AND request_id AND stage = expected] *)
Definition update_checkpoint (key : string * string) (expected stage gate updated : string) (d : Db) : result (Db * Z) :=
  match t_checkpoints d !! key with
  | Some r =>
      if String.eqb (cr_stage r) expected then
        _ ← check (negb (valid_stage stage)) (ErrConstraint "runtime_activation_checkpoints check");
        Ok (set_checkpoints <[key := CheckpointRow (cr_app r) (cr_request r) stage (cr_intent r) gate (cr_created r) updated]> d, 1)
      else Ok (d, 0)
  | None => Ok (d, 0)
  end.

Definition insert_withdrawal (r : withdrawal_row) (d : Db) : result (Db * Z) :=
  _ ← check (bool_decide (is_Some (t_withdrawals d !! (wr_app r, wr_request r)))) (ErrConstraint "deployment_request_withdrawals primary key");
  Ok (set_withdrawals <[(wr_app r, wr_request r) := r]> d, 1).

(** [INSERT INTO deployment_request_withdrawals SELECT ... WHERE state = 'pending'
    ON CONFLICT DO NOTHING] *)
Definition insert_withdrawal_if_pending (key : string * string) (at_ : string) (d : Db) : result (Db * Z) :=
  match t_requests d !! key with
  | Some r =>
      if String.eqb (qr_state r) "pending" && negb (bool_decide (is_Some (t_withdrawals d !! key)))
      then Ok (set_withdrawals <[key := WithdrawalRow key.1 key.2 at_]> d, 1)
      else Ok (d, 0)
  | None => Ok (d, 0)
  end.

(** ** Driver calls, faults and transactions *)

Inductive fault :=
| Fine        (* the call succeeds *)
| Failed      (* the call fails and has no effect *)
| Ambiguous.  (* the call reports an error after its effect took place *)

(** The state of an operation: the committed database, the schedule of faults
    (no faults once it is exhausted), and the state [K] of the rest of the world. *)
Record world (K : Type) := World { w_db : Db; w_faults : list fault; w_k : K }.
Arguments World {K}.
Arguments w_db {K}.
Arguments w_faults {K}.
Arguments w_k {K}.

Definition next_fault (l : list fault) : fault * list fault :=
  match l with [] => (Fine, []) | f :: l' => (f, l') end.

Notation M K := (ST (world K)).

(** A query outside a transaction. *)
Definition db_query {K A} (f : Db -> A) : M K A := fun w =>
  let '(o, fs) := next_fault (w_faults w) in
  let w' := World (w_db w) fs (w_k w) in
  match o with Fine => (Ok (f (w_db w)), w') | _ => (Err ErrDriver, w') end.

(** A statement outside a transaction commits by itself. *)
Definition db_exec {K} (f : Db -> result (Db * Z)) : M K Z := fun w =>
  let '(o, fs) := next_fault (w_faults w) in
  match o with
  | Failed => (Err ErrDriver, World (w_db w) fs (w_k w))
  | Fine =>
      match f (w_db w) with
      | Ok (d, n) => (Ok n, World d fs (w_k w))
      | Err e => (Err e, World (w_db w) fs (w_k w))
      end
  | Ambiguous =>
      match f (w_db w) with
      | Ok (d, _) => (Err ErrDriver, World d fs (w_k w))
      | Err e => (Err ErrDriver, World (w_db w) fs (w_k w))
      end
  end.

(** A transaction: the committed database, the working copy, the schedule. *)
Record txs := Txs { tx_base : Db; tx_work : Db; tx_faults : list fault }.
Notation TX := (ST txs).

Definition tx_query {A} (f : Db -> A) : TX A := fun t =>
  let '(o, fs) := next_fault (tx_faults t) in
  let t' := Txs (tx_base t) (tx_work t) fs in
  match o with Fine => (Ok (f (tx_work t)), t') | _ => (Err ErrDriver, t') end.

Definition tx_exec (f : Db -> result (Db * Z)) : TX Z := fun t =>
  let '(o, fs) := next_fault (tx_faults t) in
  match o with
  | Fine =>
      match f (tx_work t) with
      | Ok (d, n) => (Ok n, Txs (tx_base t) d fs)
      | Err e => (Err e, Txs (tx_base t) (tx_work t) fs)
      end
  | _ => (Err ErrDriver, Txs (tx_base t) (tx_work t) fs)
  end.

Definition tx_commit : TX unit := fun t =>
  let '(o, fs) := next_fault (tx_faults t) in
  match o with
  | Fine => (Ok tt, Txs (tx_work t) (tx_work t) fs)
  | Failed => (Err ErrDriver, Txs (tx_base t) (tx_work t) fs)
  | Ambiguous => (Err ErrDriver, Txs (tx_work t) (tx_work t) fs)
  end.

(** [BeginTx], the body, and the deferred rollback: only a commit changes the
    committed database. *)
Definition in_tx {K A} (body : TX A) : M K A := fun w =>
  let '(o, fs) := next_fault (w_faults w) in
  match o with
  | Fine =>
      let '(r, t) := body (Txs (w_db w) (w_db w) fs) in
      (r, World (tx_base t) (tx_faults t) (w_k w))
  | _ => (Err ErrDriver, World (w_db w) fs (w_k w))
  end.

(** ** errors.go *)

Definition ErrNotFound : error := ErrSentinel "not found".
Definition ErrNoRows : error := ErrSentinel "sql: no rows in result set".

Definition mapSQLError (e : error) : error := if errors_Is e ErrNoRows then ErrNotFound else e.

(** The row of a query, or [ErrNoRows] ([Row.Scan]). *)
Definition scan_row {A} (r : option A) : result A :=
  match r with Some a => Ok a | None => Err ErrNoRows end.

(** [mapRowsAffected] *)
Definition mapRowsAffected {S} (m : ST S Z) : ST S unit :=
  n ← m; guard (n =? 0) ErrNotFound.

(** [optionalString], [parseOptionalString]: the empty string is NULL. *)
Definition optionalString (s : string) : option string := if String.eqb s "" then None else Some s.
Definition parseOptionalString (s : option string) : string := default "" s.

Definition boolToInt (b : bool) : Z := if b then 1 else 0.

(** ** Lemmas on the monads *)

Lemma st_bind_ok {S A B} (m : ST S A) (f : A -> ST S B) s r s' :
  mbind f m s = (Ok r, s') -> exists a s1, m s = (Ok a, s1) /\ f a s1 = (Ok r, s').
Proof. unfold mbind, st_bind. destruct (m s) as [[a|e] s1] eqn:Hm; [|done]. eauto. Qed.

Lemma st_bind_inv {S A B} (m : ST S A) (f : A -> ST S B) s r s' :
  mbind f m s = (r, s') ->
  (exists e, m s = (Err e, s') /\ r = Err e) \/ (exists a s1, m s = (Ok a, s1) /\ f a s1 = (r, s')).
Proof. unfold mbind, st_bind. destruct (m s) as [[a|e] s1] eqn:Hm; naive_solver. Qed.

(** What a transaction body may do to the committed database: nothing, or
    install one working copy.  [tx_ok P] says every outcome satisfies [P] of the
    starting database and the committed one. *)
Definition preserves {S A} (I : S -> Prop) (m : ST S A) : Prop := forall s r s', I s -> m s = (r, s') -> I s'.

Lemma preserves_ret {S A} (I : S -> Prop) (a : A) : preserves I (mret a : ST S A).
Proof. intros s r s' HI [= <- <-]. done. Qed.

Lemma preserves_lift {S A} (I : S -> Prop) (r : result A) : preserves I (lift r : ST S A).
Proof. intros s r' s' HI [= <- <-]. done. Qed.

Lemma preserves_throw {S A} (I : S -> Prop) e : preserves I (throw e : ST S A).
Proof. intros s r' s' HI [= <- <-]. done. Qed.

Lemma preserves_guard {S} (I : S -> Prop) b e : preserves I (guard b e : ST S unit).
Proof. apply preserves_lift. Qed.

Lemma preserves_bind {S A B} (I : S -> Prop) (m : ST S A) (f : A -> ST S B) :
  preserves I m -> (forall a, preserves I (f a)) -> preserves I (mbind f m).
Proof.
  intros Hm Hf s r s' HI H. apply st_bind_inv in H as [(e & He & _)|(a & s1 & Ha & Hb)]; [by eapply Hm|].
  eapply Hf; [|exact Hb]. by eapply Hm.
Qed.

Lemma preserves_map_err {S A} (I : S -> Prop) f (m : ST S A) : preserves I m -> preserves I (map_err f m).
Proof.
  intros Hm s r s' HI H. unfold map_err in H. destruct (m s) as [[a|e] s1] eqn:E; injection H as <- <-; by eapply Hm.
Qed.

Lemma preserves_attempt {S A} (I : S -> Prop) (m : ST S A) : preserves I m -> preserves I (attempt m).
Proof.
  intros Hm s r s' HI H. unfold attempt in H. destruct (m s) as [r1 s1] eqn:E. injection H as <- <-. by eapply Hm.
Qed.

Lemma preserves_affected {S} (I : S -> Prop) (m : ST S Z) : preserves I m -> preserves I (mapRowsAffected m).
Proof. intros. apply preserves_bind; [done|]. intros. apply preserves_guard. Qed.

#[export] Hint Resolve preserves_ret preserves_lift preserves_throw preserves_guard preserves_bind preserves_map_err
  preserves_attempt preserves_affected : deployer.

(** ** Reasoning about transactions

    [wp m d wk Q]: started with committed database [d] and working copy [wk],
    the body [m] can only end in outcomes and databases that satisfy [Q],
    whatever faults occur. *)
Definition wp {A} (m : TX A) (d wk : Db) (Q : result A -> Db -> Db -> Prop) : Prop :=
  forall t r t', tx_base t = d -> tx_work t = wk -> m t = (r, t') -> Q r (tx_base t') (tx_work t').

Section wp_rules.
Context {A B : Type}.

Lemma wp_ret (a : A) d wk (Q : result A -> Db -> Db -> Prop) : Q (Ok a) d wk -> wp (mret a) d wk Q.
Proof. intros HQ t r t' <- <- [= <- <-]. done. Qed.

Lemma wp_lift (x : result A) d wk (Q : result A -> Db -> Db -> Prop) : Q x d wk -> wp (lift x) d wk Q.
Proof. intros HQ t r t' <- <- [= <- <-]. done. Qed.

Lemma wp_throw e d wk (Q : result A -> Db -> Db -> Prop) : Q (Err e) d wk -> wp (throw e) d wk Q.
Proof. intros HQ t r t' <- <- [= <- <-]. done. Qed.

Lemma wp_guard b e d wk (Q : result unit -> Db -> Db -> Prop) :
  (b = true -> Q (Err e) d wk) -> (b = false -> Q (Ok tt) d wk) -> wp (guard b e) d wk Q.
Proof. intros H1 H2 t r t' <- <- [= <- <-]. destruct b; [by apply H1|by apply H2]. Qed.

Lemma wp_bind (m : TX A) (f : A -> TX B) d wk (Q : result B -> Db -> Db -> Prop) :
  wp m d wk (fun r d' wk' => match r with Ok a => wp (f a) d' wk' Q | Err e => Q (Err e) d' wk' end) ->
  wp (mbind f m) d wk Q.
Proof.
  intros H t r t' Hd Hw Hb. apply st_bind_inv in Hb as [(e & He & ->)|(a & t1 & Ha & Hf)].
  - exact (H t _ t' Hd Hw He).
  - exact (H t _ t1 Hd Hw Ha t1 r t' eq_refl eq_refl Hf).
Qed.

Lemma wp_mono (m : TX A) d wk (Q Q' : result A -> Db -> Db -> Prop) :
  wp m d wk Q -> (forall r d' wk', Q r d' wk' -> Q' r d' wk') -> wp m d wk Q'.
Proof. intros H HQ t r t' Hd Hw Hm. apply HQ. by eapply H. Qed.

Lemma wp_query (f : Db -> A) d wk (Q : result A -> Db -> Db -> Prop) :
  Q (Err ErrDriver) d wk -> Q (Ok (f wk)) d wk -> wp (tx_query f) d wk Q.
Proof.
  intros H1 H2 t r t' <- <- H. unfold tx_query in H. destruct (next_fault (tx_faults t)) as [[] fs];
    injection H as <- <-; done.
Qed.

Lemma wp_exec f d wk (Q : result Z -> Db -> Db -> Prop) :
  (forall e, Q (Err e) d wk) -> (forall d' n, f wk = Ok (d', n) -> Q (Ok n) d d') -> wp (tx_exec f) d wk Q.
Proof.
  intros H1 H2 t r t' <- <- H. unfold tx_exec in H. destruct (next_fault (tx_faults t)) as [[] fs];
    [destruct (f (tx_work t)) as [[d' n]|e] eqn:Hf|..]; injection H as <- <-; try done. by apply H2.
Qed.

Lemma wp_commit d wk (Q : result unit -> Db -> Db -> Prop) :
  Q (Err ErrDriver) d wk -> Q (Err ErrDriver) wk wk -> Q (Ok tt) wk wk -> wp tx_commit d wk Q.
Proof.
  intros H1 H2 H3 t r t' <- <- H. unfold tx_commit in H. destruct (next_fault (tx_faults t)) as [[] fs];
    injection H as <- <-; done.
Qed.

Lemma wp_map_err g (m : TX A) d wk (Q : result A -> Db -> Db -> Prop) :
  wp m d wk (fun r d' wk' => Q (match r with Ok a => Ok a | Err e => Err (g e) end) d' wk') ->
  wp (map_err g m) d wk Q.
Proof.
  intros H t r t' Hd Hw Hm. unfold map_err in Hm. destruct (m t) as [[a|e] t1] eqn:E; injection Hm as <- <-;
    exact (H t _ t1 Hd Hw E).
Qed.
End wp_rules.

Lemma wp_affected f d wk (Q : result unit -> Db -> Db -> Prop) :
  (forall e d', Q (Err e) d d') -> (forall d' n, f wk = Ok (d', n) -> n <> 0 -> Q (Ok tt) d d') ->
  wp (mapRowsAffected (tx_exec f)) d wk Q.
Proof.
  intros H1 H2. apply wp_bind, wp_exec; [done|]. intros d' n Hf. apply wp_guard; intros Hb; [done|].
  apply (H2 d' n Hf). by apply Z.eqb_neq.
Qed.

(** A transaction seen from outside. *)
Lemma in_tx_wp {K A} (body : TX A) (w : world K) (P : result A -> Db -> Prop) :
  P (Err ErrDriver) (w_db w) -> wp body (w_db w) (w_db w) (fun r d _ => P r d) ->
  forall r w', in_tx body w = (r, w') -> P r (w_db w') /\ w_k w' = w_k w.
Proof.
  intros H1 H2 r w' H. unfold in_tx in H. destruct (next_fault (w_faults w)) as [[] fs].
  - destruct (body (Txs (w_db w) (w_db w) fs)) as [r1 t] eqn:Hb. injection H as <- <-. cbn. split; [|done].
    exact (H2 (Txs (w_db w) (w_db w) fs) r1 t eq_refl eq_refl Hb).
  - by injection H as <- <-.
  - by injection H as <- <-.
Qed.

(** Statements and queries outside a transaction. *)
Lemma db_exec_inv {K} f (w : world K) r w' :
  db_exec f w = (r, w') ->
  w_k w' = w_k w /\ (w_db w' = w_db w \/ exists d n, f (w_db w) = Ok (d, n) /\ w_db w' = d).
Proof.
  unfold db_exec. destruct (next_fault (w_faults w)) as [[] fs];
    [destruct (f (w_db w)) as [[d n]|] eqn:Hf| |destruct (f (w_db w)) as [[d n]|] eqn:Hf];
    intros [= <- <-]; (split; [done|]); cbn; eauto.
Qed.

Lemma db_exec_ok {K} f (w : world K) n w' :
  db_exec f w = (Ok n, w') -> exists d, f (w_db w) = Ok (d, n) /\ w_db w' = d /\ w_k w' = w_k w.
Proof.
  unfold db_exec. destruct (next_fault (w_faults w)) as [[] fs];
    [destruct (f (w_db w)) as [[d m]|] eqn:Hf| |destruct (f (w_db w)) as [[d m]|] eqn:Hf];
    intros [= <- <-]. eauto.
Qed.

Lemma db_query_inv {K A} (f : Db -> A) (w : world K) r w' :
  db_query f w = (r, w') -> w_db w' = w_db w /\ w_k w' = w_k w /\ (r = Ok (f (w_db w)) \/ r = Err ErrDriver).
Proof. unfold db_query. destruct (next_fault (w_faults w)) as [[] fs]; intros [= <- <-]; auto. Qed.
