(* ===== verification/DbRepos.v ===== *)
(** * Repositories (internal/db, part one)

    Apps, deployments, routes, deployment requests and activation checkpoints.
    Every method is the sequence of driver calls and checks of its source; the
    current time the source reads is an argument. *)

From S2P Require Import Prelude GoStrings Regexp GoJson GoTime Db.
From Stdlib Require Import Ascii String.
Local Open Scope Z_scope.

(** ** Domain values (internal/domain/models.go) *)

Record App := MkApp {
  App_ID : string; App_Name : string; App_Image : string; App_DesiredStateJSON : string;
  App_CreatedAt : Z; App_UpdatedAt : Z; App_DeletedAt : option Z }.

Record Deployment := MkDeployment {
  Deployment_ID : string; Deployment_AppID : string; Deployment_Status : string; Deployment_FailureReason : string;
  Deployment_CreatedAt : Z; Deployment_UpdatedAt : Z }.

Record Route := MkRoute {
  Route_ID : string; Route_AppID : string; Route_Domain : string; Route_TargetPort : Z; Route_Status : string;
  Route_TLSEnabled : bool; Route_CreatedAt : Z; Route_UpdatedAt : Z }.

Record DeployRequest := MkDeployRequest {
  Req_AppName : string; Req_RequestID : string; Req_State : string; Req_RequestedState : string;
  Req_PreviousAppID : string; Req_PreviousState : string; Req_ReportWithdrawal : bool; Req_ResponseJSON : string;
  Req_CreatedAt : Z; Req_UpdatedAt : Z }.

Record CandidateBinding := MkCandidateBinding {
  Bind_AppName : string; Bind_RequestID : string; Bind_AppID : string; Bind_DeploymentID : string; Bind_CreatedAt : Z }.

Record RuntimeCheckpoint := MkRuntimeCheckpoint {
  Chk_AppName : string; Chk_RequestID : string; Chk_Stage : string; Chk_IntentJSON : string; Chk_GateJSON : string }.

Record CandidateGeneration := MkCandidateGeneration {
  Gen_AppName : string; Gen_AppID : string; Gen_RequestID : string; Gen_RequestedState : string; Gen_State : string }.

(** ** Scanning rows *)

Definition scanApp (r : app_row) : result App :=
  created ← parseStoredTime "created_at" (ar_created r);
  updated ← parseStoredTime "updated_at" (ar_updated r);
  deleted ← parseOptionalStoredTime "deleted_at" (ar_deleted r);
  Ok (MkApp (ar_id r) (ar_name r) (ar_image r) (ar_state r) created updated deleted).

Definition scanDeployment (r : deployment_row) : result Deployment :=
  created ← parseStoredTime "created_at" (dr_created r);
  updated ← parseStoredTime "updated_at" (dr_updated r);
  Ok (MkDeployment (dr_id r) (dr_app_id r) (dr_status r) (parseOptionalString (dr_failure r)) created updated).

Definition scanRoute (r : route_row) : result Route :=
  created ← parseStoredTime "created_at" (rr_created r);
  updated ← parseStoredTime "updated_at" (rr_updated r);
  Ok (MkRoute (rr_id r) (rr_app_id r) (rr_domain r) (rr_port r) (rr_status r) (negb (rr_tls r =? 0)) created updated).

Definition scanRequest (r : request_row) : result DeployRequest :=
  created ← parseStoredTime "created_at" (qr_created r);
  updated ← parseStoredTime "updated_at" (qr_updated r);
  Ok (MkDeployRequest (qr_app r) (qr_id r) (qr_state r) (qr_requested r) (default "" (qr_prev_id r))
        (default "" (qr_prev_state r)) (negb (qr_report r =? 0)) (default "" (qr_response r)) created updated).

Definition scanBinding (r : binding_row) : result CandidateBinding :=
  created ← parseStoredTime "created_at" (br_created r);
  Ok (MkCandidateBinding (br_app r) (br_request r) (br_app_id r) (br_deployment_id r) created).

(** [rows.Next] / [rows.Scan]: the first row that does not scan ends the list with its error. *)
Fixpoint scan_all {A B} (scan : A -> result B) (l : list A) : result (list B) :=
  match l with
  | [] => Ok []
  | a :: l' => b ← scan a; bs ← scan_all scan l'; Ok (b :: bs)
  end.

Section repos.
Context {K : Type}.

(** A single-row query outside a transaction, with [mapSQLError]. *)
Definition find_one {R A} (select : Db -> option R) (scan : R -> result A) : M K A :=
  row ← db_query select;
  lift (match row with Some r => scan r | None => Err ErrNotFound end).

(** ** AppRepository *)

Definition app_by_name (name : string) (d : Db) : option app_row :=
  select1 (fun a => String.eqb (ar_name a) name) (t_apps d).

Definition AppRepository_Create (app : App) : M K unit :=
  _ ← db_exec (insert_app (AppRow (App_ID app) (App_Name app) (App_Image app) (App_DesiredStateJSON app)
        (formatTime (App_CreatedAt app)) (formatTime (App_UpdatedAt app)) (formatOptionalTime (App_DeletedAt app))));
  mret tt.

Definition AppRepository_Update (app : App) : M K unit :=
  mapRowsAffected (db_exec (update_app (App_ID app) (fun r =>
    AppRow (ar_id r) (ar_name r) (App_Image app) (App_DesiredStateJSON app) (ar_created r)
      (formatTime (App_UpdatedAt app)) (formatOptionalTime (App_DeletedAt app))))).

Definition AppRepository_FindByName (name : string) : M K App := find_one (app_by_name name) scanApp.

Definition AppRepository_FindByID (id : string) : M K App := find_one (fun d => t_apps d !! id) scanApp.

Definition AppRepository_FindActiveByName (name : string) : M K App :=
  app ← AppRepository_FindByName name;
  _ ← guard (bool_decide (is_Some (App_DeletedAt app))) ErrNotFound;
  mret app.

(** Rows in the order of a column. *)
Definition order_by {R} (key : R -> string) (l : list R) : list R :=
  merge_sort (fun a b => String.leb (key a) (key b) = true) l.

Definition AppRepository_List : M K (list App) :=
  rows ← db_query (fun d => order_by ar_name (filter (fun r => ar_deleted r = None) (rows (t_apps d))));
  lift (scan_all scanApp rows).

(** [UPDATE apps SET updated_at, deleted_at WHERE name = ? AND deleted_at IS NULL] *)
Definition mark_deleted (name at_ : string) (d : Db) : result (Db * Z) :=
  match select1 (fun a => String.eqb (ar_name a) name && bool_decide (ar_deleted a = None)) (t_apps d) with
  | Some r => update_app (ar_id r) (fun r => AppRow (ar_id r) (ar_name r) (ar_image r) (ar_state r) (ar_created r) at_ (Some at_)) d
  | None => Ok (d, 0)
  end.

Definition AppRepository_MarkDeleted (name : string) (deletedAt : Z) : M K App :=
  _ ← mapRowsAffected (db_exec (mark_deleted name (formatTime deletedAt)));
  AppRepository_FindByName name.

(** ** DeploymentRepository *)

Definition DeploymentRepository_Create (d : Deployment) : M K unit :=
  _ ← db_exec (insert_deployment (DeploymentRow (Deployment_ID d) (Deployment_AppID d) (Deployment_Status d)
        (optionalString (Deployment_FailureReason d)) (formatTime (Deployment_CreatedAt d)) (formatTime (Deployment_UpdatedAt d))));
  mret tt.

Definition DeploymentRepository_FindByID (id : string) : M K Deployment :=
  find_one (fun d => t_deployments d !! id) scanDeployment.

Definition DeploymentRepository_UpdateStatus (id status reason : string) (updated : Z) : M K unit :=
  mapRowsAffected (db_exec (update_deployment id (fun _ => true) (fun r =>
    DeploymentRow (dr_id r) (dr_app_id r) status (optionalString reason) (dr_created r) (formatTime updated)))).

(** [ORDER BY created_at DESC]: by the stored text. *)
Definition DeploymentRepository_ListByApp (appID : string) : M K (list Deployment) :=
  rows ← db_query (fun d => rev (order_by dr_created (filter (fun r => dr_app_id r = appID) (rows (t_deployments d)))));
  lift (scan_all scanDeployment rows).

(** ** RouteRepository *)

Definition route_row_of (r : Route) : route_row :=
  RouteRow (Route_ID r) (Route_AppID r) (Route_Domain r) (Route_TargetPort r) (Route_Status r)
    (boolToInt (Route_TLSEnabled r)) (formatTime (Route_CreatedAt r)) (formatTime (Route_UpdatedAt r)).

Definition RouteRepository_Create (r : Route) : M K unit :=
  _ ← db_exec (insert_route (route_row_of r)); mret tt.

Definition RouteRepository_UpsertForApp (r : Route) : M K unit :=
  _ ← db_exec (upsert_route (route_row_of r)); mret tt.

Definition RouteRepository_DeleteByApp (appID : string) : M K unit :=
  _ ← db_exec (delete_routes appID); mret tt.

Definition RouteRepository_FindByDomain (domain : string) : M K Route :=
  find_one (fun d => select1 (fun r => String.eqb (rr_domain r) domain) (t_routes d)) scanRoute.

Definition RouteRepository_List : M K (list Route) :=
  rows ← db_query (fun d => order_by rr_domain (rows (t_routes d)));
  lift (scan_all scanRoute rows).

Definition RouteRepository_ListByApp (appID : string) : M K (list Route) :=
  rows ← db_query (fun d => order_by rr_domain (filter (fun r => rr_app_id r = appID) (rows (t_routes d))));
  lift (scan_all scanRoute rows).

Definition RouteRepository_UpdateStatus (id status : string) (updated : Z) : M K unit :=
  mapRowsAffected (db_exec (update_route id (fun r =>
    RouteRow (rr_id r) (rr_app_id r) (rr_domain r) (rr_port r) status (rr_tls r) (rr_created r) (formatTime updated)))).
End repos.

(** ** DeploymentRequestRepository *)

Definition ErrDeployRequestIdentity : error := ErrSentinel "deployment request identity mismatch".

(** [deployRequestIDPattern] *)
Definition valid_request_id (s : string) : bool := re_match revisionPattern s.

Definition active_app (name : string) (d : Db) : option app_row :=
  select1 (fun a => String.eqb (ar_name a) name && bool_decide (ar_deleted a = None)) (t_apps d).

Section requests.
Context {K : Type}.

(** The body of [Begin]'s transaction. *)
Definition begin_request_tx (req : DeployRequest) : TX (DeployRequest * bool) :=
  existing ← tx_query (fun d => t_requests d !! (Req_AppName req, Req_RequestID req));
  match existing with
  | Some row =>
      saved ← lift (scanRequest row);
      _ ← guard (negb (String.eqb (Req_RequestedState saved) (Req_RequestedState req)) ||
                 negb (Bool.eqb (Req_ReportWithdrawal saved) (Req_ReportWithdrawal req))) ErrDeployRequestIdentity;
      mret (saved, false)
  | None =>
      previous ← tx_query (active_app (Req_AppName req));
      let previousID := ar_id <$> previous in
      let previousState := ar_state <$> previous in
      _ ← tx_exec (insert_request (RequestRow (Req_AppName req) (Req_RequestID req) "pending" (Req_RequestedState req)
            previousID previousState (boolToInt (Req_ReportWithdrawal req)) None
            (formatTime (Req_CreatedAt req)) (formatTime (Req_UpdatedAt req))));
      _ ← tx_commit;
      mret (MkDeployRequest (Req_AppName req) (Req_RequestID req) (Req_State req) (Req_RequestedState req)
              (default "" previousID) (default "" previousState) (Req_ReportWithdrawal req) (Req_ResponseJSON req)
              (Req_CreatedAt req) (Req_UpdatedAt req), true)
  end.

Definition DeploymentRequestRepository_Begin (req : DeployRequest) : M K (DeployRequest * bool) :=
  _ ← guard (String.eqb (Req_AppName req) "" || negb (valid_request_id (Req_RequestID req)) ||
             negb (json_Valid (Req_RequestedState req))) ErrDeployRequestIdentity;
  in_tx (begin_request_tx req).

Definition DeploymentRequestRepository_Find (appName requestID : string) : M K DeployRequest :=
  find_one (fun d => t_requests d !! (appName, requestID)) scanRequest.

(** The legacy completion: only requests without a candidate binding. *)
Definition complete_request (key : string * string) (state response updated : string) (d : Db) : result (Db * Z) :=
  finish_request key (fun _ => negb (bool_decide (is_Some (t_bindings d !! key)))) state response updated d.

Definition DeploymentRequestRepository_Complete (appName requestID state response : string) (updated : Z) : M K unit :=
  _ ← guard (negb (String.eqb state "applied" || String.eqb state "withdrawn") || negb (json_Valid response) ||
             String.eqb response "null") ErrDeployRequestIdentity;
  mapRowsAffected (db_exec (complete_request (appName, requestID) state response (formatTime updated))).

Definition DeploymentRequestRepository_PendingByApp (appName : string) : M K DeployRequest :=
  find_one (pending_of_app appName) scanRequest.
End requests.

(** ** RuntimeCheckpointRepository *)

Definition ErrRuntimeCheckpointConflict : error := ErrSentinel "runtime activation checkpoint conflict".
Definition ErrRuntimeCheckpointTerminal : error := ErrSentinel "runtime activation checkpoint is terminal".
Definition ErrRuntimeCheckpointTransition : error := ErrSentinel "invalid runtime activation checkpoint transition".
Definition ErrRuntimeCheckpointIdentity : error := ErrSentinel "invalid runtime activation checkpoint identity".

Definition runtimeCheckpointJSONLimit : Z := 64 * 1024.

(** The value must be a JSON object. *)
Definition validateCheckpointObject (value : string) : result unit :=
  _ ← check ((slen value =? 0) || (runtimeCheckpointJSONLimit <? slen value) || negb (json_Valid value)) ErrRuntimeCheckpointIdentity;
  match json_parse value with
  | Some (JObj _) => Ok tt
  | _ => Err ErrRuntimeCheckpointIdentity
  end.

Definition validateCheckpointIdentity (appName requestID : string) : result unit :=
  check (blank appName || negb (valid_request_id requestID)) ErrRuntimeCheckpointIdentity.

Definition validCheckpointTransition (expected next : string) : bool :=
  (String.eqb next "fenced" && String.eqb expected "prepared")
  || (String.eqb next "activated" && String.eqb expected "fenced")
  || (String.eqb next "recovering" &&
      (String.eqb expected "prepared" || String.eqb expected "fenced" || String.eqb expected "activated"))
  || (String.eqb next "withdrawn" && String.eqb expected "recovering").

Definition save_intent_tx (appName requestID intentJSON : string) (now : Z) : TX unit :=
  parent ← tx_query (fun d => t_requests d !! (appName, requestID));
  match parent with
  | None => throw ErrNotFound
  | Some p =>
      _ ← guard (negb (String.eqb (qr_state p) "pending")) ErrRuntimeCheckpointTerminal;
      existing ← tx_query (fun d => t_checkpoints d !! (appName, requestID));
      match existing with
      | Some c => guard (negb (String.eqb (cr_intent c) intentJSON)) ErrRuntimeCheckpointConflict
      | None =>
          _ ← tx_exec (insert_checkpoint (CheckpointRow appName requestID "prepared" intentJSON "{}" (formatTime now) (formatTime now)));
          tx_commit
      end
  end.

Definition record_gate_tx (appName requestID expectedStage nextStage gateJSON : string) (now : Z) : TX unit :=
  joined ← tx_query (fun d =>
    match t_requests d !! (appName, requestID), t_checkpoints d !! (appName, requestID) with
    | Some p, Some c => Some (qr_state p, cr_stage c)
    | _, _ => None
    end);
  match joined with
  | None => throw ErrNotFound
  | Some (parentState, currentStage) =>
      _ ← guard (negb (String.eqb parentState "pending") || String.eqb currentStage "withdrawn") ErrRuntimeCheckpointTerminal;
      _ ← guard (String.eqb expectedStage "" || negb (validCheckpointTransition expectedStage nextStage)) ErrRuntimeCheckpointTransition;
      _ ← guard (negb (String.eqb currentStage expectedStage)) ErrRuntimeCheckpointConflict;
      n ← tx_exec (update_checkpoint (appName, requestID) expectedStage nextStage gateJSON (formatTime now));
      _ ← guard (negb (n =? 1)) ErrRuntimeCheckpointConflict;
      tx_commit
  end.

Section checkpoints.
Context {K : Type}.

Definition RuntimeCheckpointRepository_SaveActivationIntent (appName requestID intentJSON : string) (now : Z) : M K unit :=
  _ ← lift (validateCheckpointIdentity appName requestID);
  _ ← lift (validateCheckpointObject intentJSON);
  in_tx (save_intent_tx appName requestID intentJSON now).

Definition RuntimeCheckpointRepository_RecordActivationGate
    (appName requestID expectedStage nextStage gateJSON : string) (now : Z) : M K unit :=
  _ ← lift (validateCheckpointIdentity appName requestID);
  _ ← lift (validateCheckpointObject gateJSON);
  in_tx (record_gate_tx appName requestID expectedStage nextStage gateJSON now).

Definition RuntimeCheckpointRepository_Find (appName requestID : string) : M K RuntimeCheckpoint :=
  _ ← lift (validateCheckpointIdentity appName requestID);
  find_one (fun d => t_checkpoints d !! (appName, requestID))
    (fun c => Ok (MkRuntimeCheckpoint (cr_app c) (cr_request c) (cr_stage c) (cr_intent c) (cr_gate c))).
End checkpoints.
