(* ===== verification/DbCandidates.v ===== *)
(** * Repositories (internal/db, part two): candidate bindings and finalization

    [beginCandidate] journals a request, its provisional app, its deployment and
    its binding in one transaction; [Finalize] commits the outcome of a
    candidate (app, deployment, route and receipt) in one transaction. *)

From S2P Require Import Prelude GoStrings Regexp Sha256 GoJson GoTime Appconfig Db DbRepos.
From Stdlib Require Import Ascii String.
Local Open Scope Z_scope.

Definition ErrCandidateBindingConflict : error := ErrSentinel "candidate binding conflict".

Section candidates.
Context `{AppEnv} {K : Type}.

Definition is_err {A} (r : result A) : bool := negb (is_ok r).

(** A hosted, stateless configuration. *)
Definition hosted_stateless (c : Config) : bool :=
  bool_decide (is_Some (Cfg_Hosting c)) && String.eqb (State_Mode (Cfg_State c)) DefaultStateMode.

(** The requested state decodes to a valid hosted stateless configuration of the
    named app and is its canonical text. *)
Definition canonical_for (appName state : string) : option Config :=
  match FromJSON state with
  | Err _ => None
  | Ok cfg =>
      match Config_JSON cfg with
      | Err _ => None
      | Ok canonical =>
          if negb (String.eqb canonical state) || negb (String.eqb (Cfg_Name cfg) appName) ||
             negb (hosted_stateless cfg) || is_err (Validate cfg)
          then None else Some cfg
      end
  end.

Definition validateCandidateDeployRequest (req : DeployRequest) : result Config :=
  match canonical_for (Req_AppName req) (Req_RequestedState req) with
  | Some cfg => if bool_decide (Cfg_Secrets cfg = []) then Ok cfg else Err ErrCandidateBindingConflict
  | None => Err ErrCandidateBindingConflict
  end.

(** [SELECT a.name FROM routes r JOIN apps a ON a.id = r.app_id WHERE r.domain = ?
    AND a.name <> ?] *)
Definition domain_owned_elsewhere (domain appName : string) (d : Db) : bool :=
  exists_row (fun r => String.eqb (rr_domain r) domain &&
    match t_apps d !! rr_app_id r with
    | Some a => negb (String.eqb (ar_name a) appName)
    | None => false
    end) (t_routes d).

(** Requested states of the pending requests of other apps. *)
Definition other_pending (appName : string) (d : Db) : list string :=
  qr_requested <$> filter (fun r => qr_state r = "pending" /\ qr_app r <> appName) (rows (t_requests d)).

Definition claims_domain (domain requested : string) : bool :=
  match FromJSON requested with
  | Err _ => true
  | Ok other => String.eqb (Routing_Domain (Cfg_Routing other)) domain
  end.

Definition validateCandidateDomainAdmission (appName : string) (cfg : Config) : TX unit :=
  let domain := Routing_Domain (Cfg_Routing cfg) in
  if String.eqb domain "" then mret tt
  else
    owned ← tx_query (domain_owned_elsewhere domain appName);
    _ ← guard owned ErrCandidateBindingConflict;
    others ← tx_query (other_pending appName);
    guard (existsb (claims_domain domain) others) ErrCandidateBindingConflict.

(** The predecessor's state must be canonical, hosted and stateless; unless the
    request is withdrawn, it must serve the same port. *)
Definition predecessor_ok (appName state : string) (candidate : Config) (withdrawal : bool) : bool :=
  match canonical_for appName state with
  | Some predecessor =>
      withdrawal || (Service_Port (Cfg_Service predecessor) =? Service_Port (Cfg_Service candidate))
  | None => false
  end.

Definition validateCandidatePredecessor (appName previousID previousState : string) (candidate : Config)
    (withdrawal : bool) : TX unit :=
  row ← tx_query (app_by_name appName);
  match row with
  | None => guard (negb (String.eqb previousID "")) ErrCandidateBindingConflict
  | Some a =>
      let deleted := bool_decide (is_Some (ar_deleted a)) in
      if String.eqb previousID "" then guard (negb deleted) ErrCandidateBindingConflict
      else
        _ ← guard (deleted || negb (String.eqb (ar_id a) previousID) || negb (String.eqb (ar_state a) previousState))
              ErrCandidateBindingConflict;
        guard (negb (predecessor_ok appName (ar_state a) candidate withdrawal)) ErrCandidateBindingConflict
  end.

(** The branch of [beginCandidate] for a request that is already bound. *)
Definition begin_existing (req : DeployRequest) (b : binding_row) (now : Z) (withdrawal : bool)
    : TX (CandidateBinding * bool) :=
  let key := (Req_AppName req, Req_RequestID req) in
  saved ← tx_query (fun d => t_requests d !! key);
  match saved with
  | None => throw ErrNotFound
  | Some q =>
      _ ← guard (negb (String.eqb (qr_requested q) (Req_RequestedState req)) ||
                 negb (Bool.eqb (negb (qr_report q =? 0)) (Req_ReportWithdrawal req))) ErrCandidateBindingConflict;
      binding ← lift (scanBinding b);
      if withdrawal then
        _ ← tx_exec (insert_withdrawal_if_pending key (formatTime now));
        _ ← tx_commit;
        mret (binding, false)
      else mret (binding, false)
  end.

(** The inserts of a new candidate; [any] is the app row of this name, if any. *)
Definition begin_inserts (req : DeployRequest) (cfg : Config) (previous any : option app_row)
    (proposedAppID deploymentID : string) (now : Z) (withdrawal : bool) : TX (CandidateBinding * bool) :=
  let at_ := formatTime now in
  _ ← map_err (fun _ => ErrCandidateBindingConflict)
        (tx_exec (insert_request (RequestRow (Req_AppName req) (Req_RequestID req) "pending" (Req_RequestedState req)
           (ar_id <$> previous) (ar_state <$> previous) (boolToInt (Req_ReportWithdrawal req)) None at_ at_)));
  actualID ←
    match any with
    | Some a => if String.eqb (ar_id a) "" then
                  match previous with
                  | Some p => mret (ar_id p)
                  | None => _ ← tx_exec (insert_app (AppRow proposedAppID (Req_AppName req) (Cfg_Image cfg)
                                  (Req_RequestedState req) at_ at_ (Some at_))); mret proposedAppID
                  end
                else mret (ar_id a)
    | None => match previous with
              | Some p => mret (ar_id p)
              | None => _ ← tx_exec (insert_app (AppRow proposedAppID (Req_AppName req) (Cfg_Image cfg)
                              (Req_RequestedState req) at_ at_ (Some at_))); mret proposedAppID
              end
    end;
  _ ← tx_exec (insert_deployment (DeploymentRow deploymentID actualID "pending" None at_ at_));
  _ ← tx_exec (insert_binding (BindingRow (Req_AppName req) (Req_RequestID req) actualID deploymentID at_));
  _ ← (if withdrawal then _ ← tx_exec (insert_withdrawal (WithdrawalRow (Req_AppName req) (Req_RequestID req) at_)); mret tt
       else mret tt);
  _ ← tx_commit;
  mret (MkCandidateBinding (Req_AppName req) (Req_RequestID req) actualID deploymentID now, true).

Definition begin_new (req : DeployRequest) (cfg : Config) (proposedAppID deploymentID : string) (now : Z)
    (withdrawal : bool) : TX (CandidateBinding * bool) :=
  let app := Req_AppName req in
  pending ← tx_query (pending_of_app app);
  _ ← guard (bool_decide (is_Some pending)) ErrCandidateBindingConflict;
  existing ← tx_query (fun d => t_requests d !! (app, Req_RequestID req));
  _ ← guard (bool_decide (is_Some existing)) ErrCandidateBindingConflict;
  previous ← tx_query (active_app app);
  any ← tx_query (app_by_name app);
  let anyID := default "" (ar_id <$> any) in
  let anyDeleted := bool_decide (is_Some (any ≫= ar_deleted)) in
  let anyState := default "" (ar_state <$> any) in
  _ ← guard (negb (bool_decide (is_Some previous)) && negb (String.eqb anyID "") && negb anyDeleted) ErrCandidateBindingConflict;
  _ ← guard (match previous with
             | Some p => negb (String.eqb anyID (ar_id p)) || anyDeleted || negb (String.eqb anyState (ar_state p))
             | None => false
             end) ErrCandidateBindingConflict;
  _ ← (if withdrawal then mret tt else validateCandidateDomainAdmission app cfg);
  _ ← validateCandidatePredecessor app (default "" (ar_id <$> previous)) (default "" (ar_state <$> previous)) cfg withdrawal;
  begin_inserts req cfg previous any proposedAppID deploymentID now withdrawal.

Definition beginCandidate (req : DeployRequest) (proposedAppID deploymentID : string) (now : Z) (withdrawal : bool)
    : M K (CandidateBinding * bool) :=
  _ ← guard (blank (Req_AppName req) || negb (valid_request_id (Req_RequestID req)) || blank proposedAppID ||
             blank deploymentID || IsZero now) ErrCandidateBindingConflict;
  cfg ← lift (validateCandidateDeployRequest req);
  in_tx (
    bound ← tx_query (fun d => t_bindings d !! (Req_AppName req, Req_RequestID req));
    match bound with
    | Some b => begin_existing req b now withdrawal
    | None => begin_new req cfg proposedAppID deploymentID now withdrawal
    end).

Definition CandidateBindingRepository_Begin req proposedAppID deploymentID now : M K (CandidateBinding * bool) :=
  beginCandidate req proposedAppID deploymentID now false.

Definition CandidateBindingRepository_BeginWithdrawal req proposedAppID deploymentID now : M K (CandidateBinding * bool) :=
  beginCandidate req proposedAppID deploymentID now true.

Definition CandidateBindingRepository_WithdrawalRequested (appName requestID : string) : M K bool :=
  db_query (fun d => bool_decide (is_Some (t_withdrawals d !! (appName, requestID)))).

Definition CandidateBindingRepository_Find (appName requestID : string) : M K CandidateBinding :=
  _ ← guard (blank appName || negb (valid_request_id requestID)) ErrCandidateBindingConflict;
  find_one (fun d => t_bindings d !! (appName, requestID)) scanBinding.
End candidates.

Section bind.
Context `{AppEnv} {K : Type}.

(** The app row [Bind] works with: a new provisional row, or the existing one
    after the identity checks. *)
Definition bind_app (appName appID requestedState previousID previousState : string) (cfg : Config) (now : Z) : TX string :=
  let at_ := formatTime now in
  row ← tx_query (app_by_name appName);
  match row with
  | None =>
      _ ← guard (negb (String.eqb previousID "")) ErrCandidateBindingConflict;
      _ ← tx_exec (insert_app (AppRow appID appName (Cfg_Image cfg) requestedState at_ at_ (Some at_)));
      mret appID
  | Some a =>
      _ ← (if bool_decide (ar_deleted a = None) then
             guard (negb (String.eqb (ar_id a) appID) || negb (String.eqb previousID (ar_id a)) ||
                    negb (String.eqb (ar_state a) previousState)) ErrCandidateBindingConflict
           else guard (negb (String.eqb (ar_id a) appID)) ErrCandidateBindingConflict);
      mret (ar_id a)
  end.

Definition bind_new (appName requestID appID deploymentID : string) (now : Z) : TX CandidateBinding :=
  let at_ := formatTime now in
  req ← tx_query (fun d => t_requests d !! (appName, requestID));
  match req with
  | None => throw ErrNotFound
  | Some q =>
      _ ← guard (negb (String.eqb (qr_state q) "pending")) ErrCandidateBindingConflict;
      let previousID := default "" (qr_prev_id q) in
      let previousState := default "" (qr_prev_state q) in
      _ ← guard (negb (Bool.eqb (bool_decide (is_Some (qr_prev_id q))) (bool_decide (is_Some (qr_prev_state q)))) ||
                 negb (Bool.eqb (String.eqb previousID "") (String.eqb previousState ""))) ErrCandidateBindingConflict;
      match canonical_for appName (qr_requested q) with
      | None => throw ErrCandidateBindingConflict
      | Some cfg =>
          _ ← validateCandidatePredecessor appName previousID previousState cfg false;
          actualID ← bind_app appName appID (qr_requested q) previousID previousState cfg now;
          _ ← guard (negb (String.eqb actualID appID)) ErrCandidateBindingConflict;
          _ ← tx_exec (insert_deployment (DeploymentRow deploymentID actualID "pending" None at_ at_));
          _ ← tx_exec (insert_binding (BindingRow appName requestID actualID deploymentID at_));
          _ ← tx_commit;
          mret (MkCandidateBinding appName requestID actualID deploymentID now)
      end
  end.

Definition CandidateBindingRepository_Bind (appName requestID appID deploymentID : string) (now : Z) : M K CandidateBinding :=
  _ ← guard (blank appName || negb (valid_request_id requestID) || blank appID || blank deploymentID || IsZero now)
        ErrCandidateBindingConflict;
  in_tx (
    bound ← tx_query (fun d => t_bindings d !! (appName, requestID));
    match bound with
    | Some b =>
        binding ← lift (scanBinding b);
        _ ← guard (negb (String.eqb (Bind_AppID binding) appID) || negb (String.eqb (Bind_DeploymentID binding) deploymentID))
              ErrCandidateBindingConflict;
        mret binding
    | None => bind_new appName requestID appID deploymentID now
    end).

(** candidate_generation_repository.go: every bound generation of an app, in the
    order of the stored creation time and the request id. *)
Definition generation_le (x y : binding_row * request_row) : Prop :=
  match String.compare (br_created x.1) (br_created y.1) with
  | Lt => True
  | Gt => False
  | Eq => String.leb (br_request x.1) (br_request y.1) = true
  end.
#[export] Instance generation_le_dec x y : Decision (generation_le x y).
Proof. unfold generation_le. destruct (String.compare _ _); apply _. Defined.

Definition generations_of (appName appID : string) (d : Db) : list (binding_row * request_row) :=
  omap (fun b => match t_requests d !! (br_app b, br_request b) with
                 | Some q => if bool_decide (br_app b = appName /\ br_app_id b = appID) then Some (b, q) else None
                 | None => None
                 end) (rows (t_bindings d)).

Definition CandidateBindingRepository_GenerationsByApp (appName appID : string) : M K (list CandidateGeneration) :=
  rows ← db_query (fun d => merge_sort generation_le (generations_of appName appID d));
  mret ((fun '(b, q) => MkCandidateGeneration (br_app b) (br_app_id b) (br_request b) (qr_requested q) (qr_state q)) <$> rows).
End bind.

(** ** CandidateFinalizationRepository *)

Definition ErrCandidateFinalizationConflict : error := ErrSentinel "candidate finalization conflicts with saved operation".

(** Messages of the API (internal/proto): the struct fields and JSON names. *)
Record PbApp := MkPbApp {
  pb_app_id : string; pb_app_name : string; pb_app_image : string; pb_app_replicas : Z; pb_app_state : string;
  pb_app_created : string; pb_app_updated : string }.
Record PbDeployment := MkPbDeployment {
  pb_dep_id : string; pb_dep_app_id : string; pb_dep_status : string; pb_dep_failure : string;
  pb_dep_created : string; pb_dep_updated : string }.
Record DeployAppResponse := MkDeployAppResponse {
  rsp_App : option PbApp; rsp_Deployment : option PbDeployment; rsp_WithdrawalConfirmed : bool; rsp_RequestedState : string }.

Definition enc_str_field (k s : string) : list (string * json) := omitempty (String.eqb s "") k (enc_string s).

Definition enc_PbApp (a : PbApp) : json :=
  JObj (enc_str_field "id" (pb_app_id a) ++ enc_str_field "name" (pb_app_name a) ++ enc_str_field "image" (pb_app_image a)
    ++ omitempty (pb_app_replicas a =? 0) "replicas" (enc_int (pb_app_replicas a))
    ++ enc_str_field "desired_state" (pb_app_state a) ++ enc_str_field "created_at" (pb_app_created a)
    ++ enc_str_field "updated_at" (pb_app_updated a))%list.

Definition enc_PbDeployment (a : PbDeployment) : json :=
  JObj (enc_str_field "id" (pb_dep_id a) ++ enc_str_field "app_id" (pb_dep_app_id a) ++ enc_str_field "status" (pb_dep_status a)
    ++ enc_str_field "failure_reason" (pb_dep_failure a) ++ enc_str_field "created_at" (pb_dep_created a)
    ++ enc_str_field "updated_at" (pb_dep_updated a))%list.

Definition enc_DeployAppResponse (r : DeployAppResponse) : json :=
  JObj (enc_ptr "app" enc_PbApp (rsp_App r) ++ enc_ptr "deployment" enc_PbDeployment (rsp_Deployment r)
    ++ omitempty (negb (rsp_WithdrawalConfirmed r)) "withdrawal_confirmed" (enc_bool (rsp_WithdrawalConfirmed r))
    ++ enc_str_field "requested_state" (rsp_RequestedState r))%list.

(** The intent fields [Finalize] reads. *)
Definition intent_identity (intentJSON : string) : option (string * string * string) :=
  match json_parse intentJSON with
  | None => None
  | Some j =>
      dec_struct (fun cur m =>
        let fs := ["app_name"; "request_id"; "requested_state"] in
        a ← dec_field fs "app_name" dec_string cur.1.1 m;
        q ← dec_field fs "request_id" dec_string cur.1.2 m;
        s ← dec_field fs "requested_state" dec_string cur.2 m;
        Some (a, q, s)) ("", "", "") j
  end.

(** [hex.EncodeToString(sum[:16])] of the request's identity *)
Definition route_id (appName requestID : string) : string :=
  "route_" +:+ EncodeToString (take 16 (Sum256 (appName +:+ String "000"%char requestID))).

Section finalize.
Context `{AppEnv} {K : Type}.

(** What the app row must look like: the saved predecessor, unchanged, or a
    provisional (deleted) row. *)
Definition app_matches (app : App) (appName prevID prevState : string) : bool :=
  String.eqb (App_Name app) appName && Bool.eqb (String.eqb prevID "") (String.eqb prevState "") &&
  (if String.eqb prevID "" then bool_decide (is_Some (App_DeletedAt app))
   else String.eqb (App_ID app) prevID && String.eqb (App_DesiredStateJSON app) prevState &&
        bool_decide (App_DeletedAt app = None)).

(** The writes for the outcome [applied]: app, then route. *)
Definition finalize_applied (appName requestID requested id : string) (cfg : Config) (app : App) (tls : bool) (now : Z) : TX App :=
  let at_ := formatTime now in
  _ ← mapRowsAffected (tx_exec (update_app id (fun r =>
        AppRow (ar_id r) (ar_name r) (Cfg_Image cfg) requested (ar_created r) at_ None)));
  _ ← (if String.eqb (Routing_Domain (Cfg_Routing cfg)) "" then tx_exec (delete_routes id)
       else tx_exec (upsert_route (RouteRow (route_id appName requestID) id (Routing_Domain (Cfg_Routing cfg))
              (Service_Port (Cfg_Service cfg)) "pending" (boolToInt tls) at_ at_)));
  mret (MkApp (App_ID app) (App_Name app) (Cfg_Image cfg) requested (App_CreatedAt app) now None).

(** The writes for the outcome [withdrawn]: an initial attempt leaves no route. *)
Definition finalize_withdrawn (appID prevID : string) : TX unit :=
  if String.eqb prevID "" then _ ← tx_exec (delete_routes appID); mret tt else mret tt.

Definition withdrawn_reason : string := "Deployment withdrawn after confirmed runtime recovery".

(** The rest of [Finalize]: deployment status, receipt and commit. *)
Definition finalize_receipt (appName requestID outcome requested appID deploymentID : string) (app : App) (deployment : Deployment)
    (status reason : string) (now : Z) : TX string :=
  let at_ := formatTime now in
  _ ← mapRowsAffected (tx_exec (update_deployment deploymentID (fun r => String.eqb (dr_status r) "pending")
        (fun r => DeploymentRow (dr_id r) (dr_app_id r) status (optionalString reason) (dr_created r) at_)));
  resultCfg ← lift (FromJSON (App_DesiredStateJSON app));
  let reply := MkDeployAppResponse
    (Some (MkPbApp (App_ID app) (App_Name app) (App_Image app) (wrap_i32 (Deploy_Replicas (Cfg_Deploy resultCfg)))
             (App_DesiredStateJSON app) (formatTime (App_CreatedAt app)) (formatTime (App_UpdatedAt app))))
    (Some (MkPbDeployment (Deployment_ID deployment) appID status reason (formatTime (Deployment_CreatedAt deployment)) at_))
    (String.eqb outcome "withdrawn") requested in
  let encoded := json_print (enc_DeployAppResponse reply) in
  _ ← mapRowsAffected (tx_exec (finish_request (appName, requestID) (fun _ => true) outcome encoded at_));
  _ ← tx_commit;
  mret encoded.

Definition finalize_pending (appName requestID outcome expectedGate : string) (tls : bool) (now : Z)
    (q : request_row) (b : binding_row) : TX string :=
  let requested := qr_requested q in
  let prevID := default "" (qr_prev_id q) in
  let prevState := default "" (qr_prev_state q) in
  chk ← tx_query (fun d => t_checkpoints d !! (appName, requestID));
  match chk with
  | None => throw ErrNotFound
  | Some c =>
      let wantedStage := if String.eqb outcome "withdrawn" then "withdrawn" else "activated" in
      _ ← guard (negb (String.eqb (cr_stage c) wantedStage) || negb (String.eqb (cr_gate c) expectedGate)) ErrCandidateFinalizationConflict;
      _ ← guard (negb (bool_decide (intent_identity (cr_intent c) = Some (appName, requestID, requested)))) ErrCandidateFinalizationConflict;
      cfg ← lift (FromJSON requested);
      _ ← lift (Validate cfg);
      _ ← guard (negb (String.eqb (Cfg_Name cfg) appName) || negb (hosted_stateless cfg)) ErrCandidateFinalizationConflict;
      app_row ← tx_query (fun d => t_apps d !! br_app_id b);
      app ← lift (match app_row with Some r => scanApp r | None => Err ErrNotFound end);
      _ ← guard (negb (app_matches app appName prevID prevState)) ErrCandidateFinalizationConflict;
      dep_row ← tx_query (fun d => t_deployments d !! br_deployment_id b);
      deployment ← lift (match dep_row with Some r => scanDeployment r | None => Err ErrNotFound end);
      _ ← guard (negb (String.eqb (Deployment_AppID deployment) (br_app_id b)) ||
                 negb (String.eqb (Deployment_Status deployment) "pending")) ErrCandidateFinalizationConflict;
      if String.eqb outcome "applied" then
        app' ← finalize_applied appName requestID requested (br_app_id b) cfg app tls now;
        finalize_receipt appName requestID outcome requested (br_app_id b) (br_deployment_id b) app' deployment "healthy" "" now
      else
        _ ← finalize_withdrawn (br_app_id b) prevID;
        finalize_receipt appName requestID outcome requested (br_app_id b) (br_deployment_id b) app deployment "failed" withdrawn_reason now
  end.

Definition finalize_tx (appName requestID outcome expectedGate : string) (tls : bool) (now : Z) : TX string :=
  joined ← tx_query (fun d =>
    match t_requests d !! (appName, requestID), t_bindings d !! (appName, requestID) with
    | Some q, Some b => Some (q, b)
    | _, _ => None
    end);
  match joined with
  | None => throw ErrNotFound
  | Some (q, b) =>
      if negb (String.eqb (qr_state q) "pending") then
        match qr_response q with
        | Some response =>
            if String.eqb (qr_state q) outcome && json_Valid response then mret response
            else throw ErrCandidateFinalizationConflict
        | None => throw ErrCandidateFinalizationConflict
        end
      else finalize_pending appName requestID outcome expectedGate tls now q b
  end.

Definition CandidateFinalizationRepository_Finalize (appName requestID outcome expectedGate : string) (tls : bool) (now : Z)
    : M K string :=
  _ ← guard (String.eqb appName "" || negb (valid_request_id requestID) ||
             negb (String.eqb outcome "applied" || String.eqb outcome "withdrawn") ||
             String.eqb expectedGate "" || IsZero now) ErrCandidateFinalizationConflict;
  in_tx (finalize_tx appName requestID outcome expectedGate tls now).
End finalize.
