(* ===== verification/DbInv.v ===== *)
(** * Invariants of the database

    [safe_stmt] lists the statements the repositories execute with the side
    conditions under which they execute them; [db_inv] is the invariant of the
    tables (keys, uniqueness, CHECK clauses and references), and the journal
    relations say what a sequence of statements can never change. *)

From S2P Require Import Prelude GoStrings GoTime Db DbRepos.
From Stdlib Require Import Ascii String.
Local Open Scope Z_scope.

(** ** The invariant *)

Record db_inv (d : Db) : Prop := {
  inv_app_key : forall k r, t_apps d !! k = Some r -> ar_id r = k;
  inv_dep_key : forall k r, t_deployments d !! k = Some r -> dr_id r = k;
  inv_route_key : forall k r, t_routes d !! k = Some r -> rr_id r = k;
  inv_req_key : forall k r, t_requests d !! k = Some r -> (qr_app r, qr_id r) = k;
  inv_bind_key : forall k r, t_bindings d !! k = Some r -> (br_app r, br_request r) = k;
  inv_chk_key : forall k r, t_checkpoints d !! k = Some r -> (cr_app r, cr_request r) = k;
  inv_app_name : forall k1 k2 r1 r2, t_apps d !! k1 = Some r1 -> t_apps d !! k2 = Some r2 -> ar_name r1 = ar_name r2 -> k1 = k2;
  inv_route_app : forall k1 k2 r1 r2, t_routes d !! k1 = Some r1 -> t_routes d !! k2 = Some r2 -> rr_app_id r1 = rr_app_id r2 -> k1 = k2;
  inv_route_domain : forall k1 k2 r1 r2, t_routes d !! k1 = Some r1 -> t_routes d !! k2 = Some r2 -> rr_domain r1 = rr_domain r2 -> k1 = k2;
  inv_req_check : forall k r, t_requests d !! k = Some r -> valid_state (qr_state r) = true /\ check_response (qr_state r) (qr_response r) = true;
  inv_one_pending : forall k1 k2 r1 r2, t_requests d !! k1 = Some r1 -> t_requests d !! k2 = Some r2 ->
    qr_state r1 = "pending" -> qr_state r2 = "pending" -> qr_app r1 = qr_app r2 -> k1 = k2;
  inv_chk_stage : forall k r, t_checkpoints d !! k = Some r -> valid_stage (cr_stage r) = true;
  inv_chk_req : forall k r, t_checkpoints d !! k = Some r -> is_Some (t_requests d !! k);
  inv_bind_req : forall k r, t_bindings d !! k = Some r -> is_Some (t_requests d !! k);
  inv_bind_app : forall k r, t_bindings d !! k = Some r -> exists a, t_apps d !! br_app_id r = Some a /\ ar_name a = br_app r;
  inv_bind_dep : forall k r, t_bindings d !! k = Some r -> exists x, t_deployments d !! br_deployment_id r = Some x /\ dr_app_id x = br_app_id r;
  inv_wd_req : forall k r, t_withdrawals d !! k = Some r -> is_Some (t_requests d !! k)
}.

Lemma empty_db_inv : db_inv empty_db.
Proof. split; intros *; rewrite ?lookup_empty; done. Qed.

(** ** Statements as the repositories execute them *)

Inductive safe_stmt (d : Db) : Db -> Prop :=
| ss_insert_app r d' n : insert_app r d = Ok (d', n) -> safe_stmt d d'
| ss_update_app id f d' n :
    (forall r, ar_id (f r) = ar_id r /\ ar_name (f r) = ar_name r) -> update_app id f d = Ok (d', n) -> safe_stmt d d'
| ss_insert_deployment r d' n : insert_deployment r d = Ok (d', n) -> safe_stmt d d'
| ss_update_deployment id w f d' n :
    (forall r, dr_id (f r) = dr_id r /\ dr_app_id (f r) = dr_app_id r) -> update_deployment id w f d = Ok (d', n) -> safe_stmt d d'
| ss_insert_route r d' n : insert_route r d = Ok (d', n) -> safe_stmt d d'
| ss_upsert_route r d' n : upsert_route r d = Ok (d', n) -> safe_stmt d d'
| ss_delete_routes id d' n : delete_routes id d = Ok (d', n) -> safe_stmt d d'
| ss_update_route id f d' n :
    (forall r, rr_id (f r) = rr_id r /\ rr_app_id (f r) = rr_app_id r /\ rr_domain (f r) = rr_domain r) ->
    update_route id f d = Ok (d', n) -> safe_stmt d d'
| ss_insert_request r d' n : insert_request r d = Ok (d', n) -> safe_stmt d d'
| ss_finish_request key w state response updated d' n :
    finish_request key w state response updated d = Ok (d', n) -> safe_stmt d d'
| ss_insert_binding r d' n :
    is_Some (t_requests d !! (br_app r, br_request r)) ->
    (exists a, t_apps d !! br_app_id r = Some a /\ ar_name a = br_app r) ->
    (exists x, t_deployments d !! br_deployment_id r = Some x /\ dr_app_id x = br_app_id r) ->
    insert_binding r d = Ok (d', n) -> safe_stmt d d'
| ss_insert_checkpoint r d' n :
    (exists q, t_requests d !! (cr_app r, cr_request r) = Some q /\ qr_state q = "pending") -> cr_stage r = "prepared" ->
    insert_checkpoint r d = Ok (d', n) -> safe_stmt d d'
| ss_update_checkpoint key expected stage gate updated d' n :
    validCheckpointTransition expected stage = true ->
    (exists q, t_requests d !! key = Some q /\ qr_state q = "pending") ->
    update_checkpoint key expected stage gate updated d = Ok (d', n) -> safe_stmt d d'
| ss_insert_withdrawal r d' n :
    is_Some (t_requests d !! (wr_app r, wr_request r)) -> insert_withdrawal r d = Ok (d', n) -> safe_stmt d d'
| ss_insert_withdrawal_if_pending key at_ d' n :
    insert_withdrawal_if_pending key at_ d = Ok (d', n) -> safe_stmt d d'.

Definition safe_steps := steps safe_stmt.

Lemma safe_steps_trans d1 d2 d3 : safe_steps d1 d2 -> safe_steps d2 d3 -> safe_steps d1 d3.
Proof.
  unfold safe_steps. intros H1 H2. induction H2 as [|a b c Hab IH Hbc]; [done|].
  eapply steps_step; [by apply IH|exact Hbc].
Qed.

Lemma safe_steps_once d1 d2 : safe_stmt d1 d2 -> safe_steps d1 d2.
Proof. intros. econstructor; [constructor|done]. Qed.

Lemma safe_steps_snoc d1 d2 d3 : safe_steps d1 d2 -> safe_stmt d2 d3 -> safe_steps d1 d3.
Proof. intros. econstructor; eauto. Qed.

(** ** Inversion of the statements *)

Ltac inv_stmt :=
  repeat match goal with
  | H : mbind _ (check _ _) = Ok _ |- _ => apply check_bind in H as [? H]
  | H : Ok _ = Ok _ |- _ => injection H as H; subst
  | H : (_, _) = (_, _) |- _ => injection H as H; subst
  end.

Lemma insert_app_inv r d d' n :
  insert_app r d = Ok (d', n) ->
  d' = set_apps <[ar_id r := r]> d /\ t_apps d !! ar_id r = None /\
  forall k a, t_apps d !! k = Some a -> ar_name a <> ar_name r.
Proof.
  unfold insert_app. intros H. inv_stmt. bools. split; [done|]. split; [by apply eq_None_not_Some|].
  intros k a Ha. match goal with Hx : exists_row _ _ = false |- _ => rewrite exists_row_false in Hx; specialize (Hx k a Ha) end.
  by apply String.eqb_neq.
Qed.

Lemma insert_deployment_inv r d d' n :
  insert_deployment r d = Ok (d', n) -> d' = set_deployments <[dr_id r := r]> d /\ t_deployments d !! dr_id r = None.
Proof. unfold insert_deployment. intros H. inv_stmt. bools. split; [done|by apply eq_None_not_Some]. Qed.

Lemma route_of_app_None app d : route_of_app app d = None -> forall k r, t_routes d !! k = Some r -> rr_app_id r <> app.
Proof. unfold route_of_app. rewrite select1_None. intros H k r Hr. specialize (H k r Hr). by apply String.eqb_neq. Qed.

Lemma route_of_app_Some app d r : route_of_app app d = Some r -> rr_app_id r = app /\ exists k, t_routes d !! k = Some r.
Proof. intros [H1 H2]%select1_Some. split; [by apply String.eqb_eq|done]. Qed.

Lemma domain_free domain id d :
  domain_taken domain id d = false -> forall k r, t_routes d !! k = Some r -> rr_domain r = domain -> rr_id r = id.
Proof.
  unfold domain_taken. rewrite exists_row_false. intros H k r Hr Hd. specialize (H k r Hr).
  rewrite Hd, String.eqb_refl in H. cbn in H. bools. by apply String.eqb_eq.
Qed.

Lemma insert_route_inv r d d' n :
  insert_route r d = Ok (d', n) ->
  d' = set_routes <[rr_id r := r]> d /\ t_routes d !! rr_id r = None /\
  (forall k x, t_routes d !! k = Some x -> rr_app_id x <> rr_app_id r) /\
  (forall k x, t_routes d !! k = Some x -> rr_domain x = rr_domain r -> rr_id x = rr_id r).
Proof.
  unfold insert_route. intros H. inv_stmt. bools. split; [done|]. split; [by apply eq_None_not_Some|].
  split; [|by apply domain_free]. apply route_of_app_None. by apply eq_None_not_Some.
Qed.

Lemma pending_of_app_None app d :
  pending_of_app app d = None -> forall k r, t_requests d !! k = Some r -> qr_app r = app -> qr_state r <> "pending".
Proof.
  unfold pending_of_app. rewrite select1_None. intros H k r Hr Ha Hs. specialize (H k r Hr).
  by rewrite Ha, Hs, !String.eqb_refl in H.
Qed.

Lemma insert_request_inv r d d' n :
  insert_request r d = Ok (d', n) ->
  d' = set_requests <[(qr_app r, qr_id r) := r]> d /\ t_requests d !! (qr_app r, qr_id r) = None /\
  valid_state (qr_state r) = true /\ check_response (qr_state r) (qr_response r) = true /\
  (qr_state r = "pending" -> forall k x, t_requests d !! k = Some x -> qr_app x = qr_app r -> qr_state x <> "pending").
Proof.
  unfold insert_request. intros H. inv_stmt. bools. split; [done|]. split; [by apply eq_None_not_Some|].
  split; [done|]. split; [done|]. intros Hp. match goal with Hx : _ && _ = false |- _ => rewrite Hp, String.eqb_refl in Hx; cbn in Hx end.
  bools. apply pending_of_app_None. by apply eq_None_not_Some.
Qed.

Lemma finish_request_inv key w state response updated d d' n :
  finish_request key w state response updated d = Ok (d', n) ->
  (d' = d /\ n = 0) \/
  (n = 1 /\ exists q, t_requests d !! key = Some q /\ qr_state q = "pending" /\ w q = true /\
     valid_state state = true /\ check_response state (Some response) = true /\
     d' = set_requests <[key := RequestRow (qr_app q) (qr_id q) state (qr_requested q) (qr_prev_id q) (qr_prev_state q)
            (qr_report q) (Some response) (qr_created q) updated]> d).
Proof.
  unfold finish_request. destruct (t_requests d !! key) as [q|] eqn:Hq; [|intros [= <- <-]; by left].
  destruct (String.eqb (qr_state q) "pending") eqn:Hs; cbn [andb]; [|intros [= <- <-]; by left].
  destruct (w q) eqn:Hw; [|intros [= <- <-]; by left]. intros H. inv_stmt. bools. apply String.eqb_eq in Hs.
  right. split; [done|]. exists q. naive_solver.
Qed.

Lemma update_checkpoint_inv key expected stage gate updated d d' n :
  update_checkpoint key expected stage gate updated d = Ok (d', n) ->
  (d' = d /\ n = 0) \/
  (n = 1 /\ exists c, t_checkpoints d !! key = Some c /\ cr_stage c = expected /\ valid_stage stage = true /\
     d' = set_checkpoints <[key := CheckpointRow (cr_app c) (cr_request c) stage (cr_intent c) gate (cr_created c) updated]> d).
Proof.
  unfold update_checkpoint. destruct (t_checkpoints d !! key) as [c|] eqn:Hc; [|intros [= <- <-]; by left].
  destruct (String.eqb (cr_stage c) expected) eqn:Hs; [|intros [= <- <-]; by left]. intros H. inv_stmt. bools.
  apply String.eqb_eq in Hs. right. split; [done|]. exists c. done.
Qed.

Lemma insert_withdrawal_if_pending_inv key at_ d d' n :
  insert_withdrawal_if_pending key at_ d = Ok (d', n) ->
  d' = d \/ (exists q, t_requests d !! key = Some q /\ qr_state q = "pending") /\ t_withdrawals d !! key = None /\
            d' = set_withdrawals <[key := WithdrawalRow key.1 key.2 at_]> d.
Proof.
  unfold insert_withdrawal_if_pending. destruct (t_requests d !! key) as [q|] eqn:Hq; [|intros [= <- <-]; by left].
  destruct (String.eqb (qr_state q) "pending") eqn:Hs; cbn [andb]; [|intros [= <- <-]; by left].
  case_bool_decide as Hw; cbn [negb]; intros [= <- <-]; [by left|]. right. apply String.eqb_eq in Hs.
  split; [by exists q|]. split; [by apply eq_None_not_Some|done].
Qed.

(** ** One table at a time: what a new table must satisfy *)

Section one_table.
Context (d : Db) (Hd : db_inv d).

Lemma inv_set_apps f :
  (forall k r, f (t_apps d) !! k = Some r -> ar_id r = k) ->
  (forall k1 k2 r1 r2, f (t_apps d) !! k1 = Some r1 -> f (t_apps d) !! k2 = Some r2 -> ar_name r1 = ar_name r2 -> k1 = k2) ->
  (forall k r, t_apps d !! k = Some r -> exists r', f (t_apps d) !! k = Some r' /\ ar_name r' = ar_name r) ->
  db_inv (set_apps f d).
Proof.
  intros H1 H2 H3. destruct Hd. split; cbn; try done.
  intros k r Hr. destruct (inv_bind_app0 k r Hr) as (a & Ha & Hn). destruct (H3 _ _ Ha) as (a' & Ha' & Hn').
  exists a'. split; [done|congruence].
Qed.

Lemma inv_set_deployments f :
  (forall k r, f (t_deployments d) !! k = Some r -> dr_id r = k) ->
  (forall k r, t_deployments d !! k = Some r -> exists r', f (t_deployments d) !! k = Some r' /\ dr_app_id r' = dr_app_id r) ->
  db_inv (set_deployments f d).
Proof.
  intros H1 H2. destruct Hd. split; cbn; try done.
  intros k r Hr. destruct (inv_bind_dep0 k r Hr) as (a & Ha & Hn). destruct (H2 _ _ Ha) as (a' & Ha' & Hn').
  exists a'. split; [done|congruence].
Qed.

Lemma inv_set_routes f :
  (forall k r, f (t_routes d) !! k = Some r -> rr_id r = k) ->
  (forall k1 k2 r1 r2, f (t_routes d) !! k1 = Some r1 -> f (t_routes d) !! k2 = Some r2 -> rr_app_id r1 = rr_app_id r2 -> k1 = k2) ->
  (forall k1 k2 r1 r2, f (t_routes d) !! k1 = Some r1 -> f (t_routes d) !! k2 = Some r2 -> rr_domain r1 = rr_domain r2 -> k1 = k2) ->
  db_inv (set_routes f d).
Proof. intros H1 H2 H3. destruct Hd. by split. Qed.

Lemma inv_set_requests f :
  (forall k r, f (t_requests d) !! k = Some r -> (qr_app r, qr_id r) = k) ->
  (forall k r, f (t_requests d) !! k = Some r -> valid_state (qr_state r) = true /\ check_response (qr_state r) (qr_response r) = true) ->
  (forall k1 k2 r1 r2, f (t_requests d) !! k1 = Some r1 -> f (t_requests d) !! k2 = Some r2 ->
     qr_state r1 = "pending" -> qr_state r2 = "pending" -> qr_app r1 = qr_app r2 -> k1 = k2) ->
  (forall k, is_Some (t_requests d !! k) -> is_Some (f (t_requests d) !! k)) ->
  db_inv (set_requests f d).
Proof. intros H1 H2 H3 H4. destruct Hd. split; cbn; try done; intros; apply H4; eauto. Qed.

Lemma inv_set_bindings f :
  (forall k r, f (t_bindings d) !! k = Some r -> (br_app r, br_request r) = k /\ is_Some (t_requests d !! k) /\
     (exists a, t_apps d !! br_app_id r = Some a /\ ar_name a = br_app r) /\
     (exists x, t_deployments d !! br_deployment_id r = Some x /\ dr_app_id x = br_app_id r)) ->
  db_inv (set_bindings f d).
Proof. intros H1. destruct Hd. split; cbn; try done; intros k r Hr; by apply (H1 k r). Qed.

Lemma inv_set_checkpoints f :
  (forall k r, f (t_checkpoints d) !! k = Some r -> (cr_app r, cr_request r) = k /\ valid_stage (cr_stage r) = true /\
     is_Some (t_requests d !! k)) ->
  db_inv (set_checkpoints f d).
Proof. intros H1. destruct Hd. split; cbn; try done; intros k r Hr; by apply (H1 k r). Qed.

Lemma inv_set_withdrawals f :
  (forall k r, f (t_withdrawals d) !! k = Some r -> is_Some (t_requests d !! k)) -> db_inv (set_withdrawals f d).
Proof. intros H1. destruct Hd. by split. Qed.
End one_table.

(** Lookups in a table after one insertion. *)
Ltac table_cases :=
  repeat match goal with
  | H : <[?k:=_]> _ !! ?k' = Some _ |- _ => apply lookup_insert_Some in H as [[? ?]|[? H]]; subst
  end.

(** Uniqueness survives an insertion that meets no equal value elsewhere. *)
Lemma unique_insert {Ky V B} `{Countable Ky} (g : V -> B) (m : gmap Ky V) k v :
  (forall k1 k2 r1 r2, m !! k1 = Some r1 -> m !! k2 = Some r2 -> g r1 = g r2 -> k1 = k2) ->
  (forall k1 r1, m !! k1 = Some r1 -> g r1 = g v -> k1 = k) ->
  forall k1 k2 r1 r2, <[k:=v]> m !! k1 = Some r1 -> <[k:=v]> m !! k2 = Some r2 -> g r1 = g r2 -> k1 = k2.
Proof.
  intros Hm Hv k1 k2 r1 r2 H1 H2 E.
  apply lookup_insert_Some in H1 as [[<- <-]|[Hn1 H1]], H2 as [[<- <-]|[Hn2 H2]]; [done|..].
  - symmetry. by eapply Hv.
  - by eapply Hv.
  - by eapply Hm.
Qed.

(** A property of every row survives an insertion. *)
Lemma rows_insert {Ky V} `{Countable Ky} (P : Ky -> V -> Prop) (m : gmap Ky V) k v :
  P k v -> (forall k1 r1, m !! k1 = Some r1 -> P k1 r1) -> forall k1 r1, <[k:=v]> m !! k1 = Some r1 -> P k1 r1.
Proof. intros Hv Hm k1 r1 [[<- <-]|[_ H1]]%lookup_insert_Some; [done|by apply Hm]. Qed.

Lemma insert_is_Some {Ky V} `{Countable Ky} (m : gmap Ky V) k v k1 : is_Some (m !! k1) -> is_Some (<[k:=v]> m !! k1).
Proof. intros Hk. rewrite lookup_insert_is_Some'. by right. Qed.

Lemma kept_insert {Ky V B} `{Countable Ky} (g : V -> B) (m : gmap Ky V) k v :
  (forall r, m !! k = Some r -> g v = g r) ->
  forall k1 r1, m !! k1 = Some r1 -> exists r', <[k:=v]> m !! k1 = Some r' /\ g r' = g r1.
Proof.
  intros Hv k1 r1 H1. destruct (decide (k1 = k)) as [->|]; [exists v; rewrite lookup_insert_eq; auto|].
  exists r1. by rewrite lookup_insert_ne.
Qed.

Section statements.
Context (d : Db) (Hd : db_inv d).

Lemma insert_app_safe r d' n : insert_app r d = Ok (d', n) -> db_inv d'.
Proof.
  intros (-> & Hn & Hu)%insert_app_inv. apply inv_set_apps; [done|..].
  - apply rows_insert; [done|apply Hd].
  - apply unique_insert; [apply Hd|]. intros k a Ha E. exfalso. by eapply Hu.
  - apply kept_insert. congruence.
Qed.

Lemma update_app_safe id f d' n :
  (forall r, ar_id (f r) = ar_id r /\ ar_name (f r) = ar_name r) -> update_app id f d = Ok (d', n) -> db_inv d'.
Proof.
  intros Hf H. unfold update_app in H. destruct (t_apps d !! id) as [r|] eqn:Hr; injection H as <- <-; [|done].
  destruct (Hf r) as [Hi Hn]. apply inv_set_apps; [done|..].
  - apply rows_insert; [rewrite Hi; by eapply inv_app_key|apply Hd].
  - apply unique_insert; [apply Hd|]. intros k a Ha E. rewrite Hn in E. by eapply inv_app_name.
  - apply kept_insert. congruence.
Qed.

Lemma insert_deployment_safe r d' n : insert_deployment r d = Ok (d', n) -> db_inv d'.
Proof.
  intros (-> & Hn)%insert_deployment_inv. apply inv_set_deployments; [done|..].
  - apply rows_insert; [done|apply Hd].
  - apply kept_insert. congruence.
Qed.

Lemma update_deployment_safe id w f d' n :
  (forall r, dr_id (f r) = dr_id r /\ dr_app_id (f r) = dr_app_id r) ->
  update_deployment id w f d = Ok (d', n) -> db_inv d'.
Proof.
  intros Hf H. unfold update_deployment in H. destruct (t_deployments d !! id) as [r|] eqn:Hr; [|by injection H as <- <-].
  destruct (w r); injection H as <- <-; [|done]. destruct (Hf r) as [Hi Hn]. apply inv_set_deployments; [done|..].
  - apply rows_insert; [rewrite Hi; by eapply inv_dep_key|apply Hd].
  - apply kept_insert. congruence.
Qed.

Lemma insert_route_safe r d' n : insert_route r d = Ok (d', n) -> db_inv d'.
Proof.
  intros (-> & Hn & Hu & Hdom)%insert_route_inv. apply inv_set_routes; [done|..].
  - apply rows_insert; [done|apply Hd].
  - apply unique_insert; [apply Hd|]. intros k x Hx E. exfalso. by eapply Hu.
  - apply unique_insert; [apply Hd|]. intros k x Hx E. rewrite <- (Hdom k x Hx E). symmetry. by eapply inv_route_key.
Qed.

Lemma upsert_route_safe r d' n : upsert_route r d = Ok (d', n) -> db_inv d'.
Proof.
  intros H. unfold upsert_route in H. destruct (route_of_app (rr_app_id r) d) as [old|] eqn:Ho;
    [|by eapply insert_route_safe].
  apply check_bind in H as [Hfree H]. injection H as <- <-. pose proof (domain_free _ _ _ Hfree) as Hdom.
  apply route_of_app_Some in Ho as (Ho & ko & Hko). pose proof (inv_route_key d Hd _ _ Hko) as <-.
  apply inv_set_routes; [done|..].
  - apply rows_insert; [done|apply Hd].
  - apply unique_insert; [apply Hd|]. intros k x Hx E. by eapply inv_route_app.
  - apply unique_insert; [apply Hd|]. intros k x Hx E. rewrite <- (Hdom k x Hx E). symmetry. by eapply inv_route_key.
Qed.

Lemma delete_routes_safe id d' n : delete_routes id d = Ok (d', n) -> db_inv d'.
Proof.
  intros [= <- <-]. apply inv_set_routes; [done|..].
  - intros k x [Hx _]%map_lookup_filter_Some. by eapply inv_route_key.
  - intros k1 k2 r1 r2 [H1 _]%map_lookup_filter_Some [H2 _]%map_lookup_filter_Some. by eapply inv_route_app.
  - intros k1 k2 r1 r2 [H1 _]%map_lookup_filter_Some [H2 _]%map_lookup_filter_Some. by eapply inv_route_domain.
Qed.

Lemma update_route_safe id f d' n :
  (forall r, rr_id (f r) = rr_id r /\ rr_app_id (f r) = rr_app_id r /\ rr_domain (f r) = rr_domain r) ->
  update_route id f d = Ok (d', n) -> db_inv d'.
Proof.
  intros Hf H. unfold update_route in H. destruct (t_routes d !! id) as [r|] eqn:Hr; injection H as <- <-; [|done].
  destruct (Hf r) as (Hi & Hap & Hdm). apply inv_set_routes; [done|..].
  - apply rows_insert; [rewrite Hi; by eapply inv_route_key|apply Hd].
  - apply unique_insert; [apply Hd|]. intros k x Hx E. rewrite Hap in E. by eapply inv_route_app.
  - apply unique_insert; [apply Hd|]. intros k x Hx E. rewrite Hdm in E. by eapply inv_route_domain.
Qed.

Lemma insert_request_safe r d' n : insert_request r d = Ok (d', n) -> db_inv d'.
Proof.
  intros (-> & Hn & Hvs & Hcr & Hu)%insert_request_inv. apply inv_set_requests; [done|..].
  - apply rows_insert; [done|apply Hd].
  - apply rows_insert; [done|apply Hd].
  - intros k1 k2 r1 r2 H1 H2 P1 P2 E. table_cases; try done; [exfalso; by eapply Hu|exfalso; by eapply Hu|by eapply inv_one_pending].
  - intros. by apply insert_is_Some.
Qed.

Lemma finish_request_safe key w state response updated d' n :
  finish_request key w state response updated d = Ok (d', n) -> db_inv d'.
Proof.
  intros [[-> _]|(_ & q & Hq & Hp & _ & Hvs & Hcr & ->)]%finish_request_inv; [done|].
  assert (Hst : state <> "pending") by (intros ->; done).
  apply inv_set_requests; [done|..].
  - apply rows_insert; [exact (inv_req_key d Hd _ _ Hq)|apply Hd].
  - apply rows_insert; [done|apply Hd].
  - intros k1 k2 r1 r2 H1 H2 P1 P2 E. table_cases; try done. by eapply inv_one_pending.
  - intros. by apply insert_is_Some.
Qed.

Lemma insert_binding_safe r d' n :
  is_Some (t_requests d !! (br_app r, br_request r)) ->
  (exists a, t_apps d !! br_app_id r = Some a /\ ar_name a = br_app r) ->
  (exists x, t_deployments d !! br_deployment_id r = Some x /\ dr_app_id x = br_app_id r) ->
  insert_binding r d = Ok (d', n) -> db_inv d'.
Proof.
  intros Hq Ha Hx [_ H]%check_bind. injection H as <- <-. apply inv_set_bindings; [done|]. apply rows_insert; [done|].
  intros k b Hb. pose proof (inv_bind_key d Hd _ _ Hb). pose proof (inv_bind_req d Hd _ _ Hb).
  pose proof (inv_bind_app d Hd _ _ Hb). pose proof (inv_bind_dep d Hd _ _ Hb). done.
Qed.

Lemma checkpoints_rows k r : t_checkpoints d !! k = Some r ->
  (cr_app r, cr_request r) = k /\ valid_stage (cr_stage r) = true /\ is_Some (t_requests d !! k).
Proof. intros Hr. split_and!; [by eapply inv_chk_key|by eapply inv_chk_stage|by eapply inv_chk_req]. Qed.

Lemma insert_checkpoint_safe r d' n :
  is_Some (t_requests d !! (cr_app r, cr_request r)) -> insert_checkpoint r d = Ok (d', n) -> db_inv d'.
Proof.
  intros Hq [_ [Hv H]%check_bind]%check_bind. injection H as <- <-. apply negb_false_iff in Hv.
  apply inv_set_checkpoints; [done|]. apply rows_insert; [done|apply checkpoints_rows].
Qed.

Lemma update_checkpoint_safe key expected stage gate updated d' n :
  update_checkpoint key expected stage gate updated d = Ok (d', n) -> db_inv d'.
Proof.
  intros [[-> _]|(_ & c & Hc & Hst & Hvs & ->)]%update_checkpoint_inv; [done|].
  apply inv_set_checkpoints; [done|]. apply rows_insert; [|apply checkpoints_rows].
  destruct (checkpoints_rows _ _ Hc) as (? & ? & ?). done.
Qed.

Lemma insert_withdrawal_safe r d' n :
  is_Some (t_requests d !! (wr_app r, wr_request r)) -> insert_withdrawal r d = Ok (d', n) -> db_inv d'.
Proof.
  intros Hq [_ H]%check_bind. injection H as <- <-. apply inv_set_withdrawals; [done|]. apply rows_insert; [done|apply Hd].
Qed.

Lemma insert_withdrawal_if_pending_safe key at_ d' n : insert_withdrawal_if_pending key at_ d = Ok (d', n) -> db_inv d'.
Proof.
  intros [->|((q & Hq & _) & _ & ->)]%insert_withdrawal_if_pending_inv; [done|].
  apply inv_set_withdrawals; [done|]. apply rows_insert; [by eexists|apply Hd].
Qed.

Lemma safe_stmt_inv d' : safe_stmt d d' -> db_inv d'.
Proof.
  intros Hs; destruct Hs; eauto using insert_app_safe, update_app_safe, insert_deployment_safe, update_deployment_safe,
    insert_route_safe, upsert_route_safe, delete_routes_safe, update_route_safe, insert_request_safe, finish_request_safe,
    insert_binding_safe, update_checkpoint_safe, insert_withdrawal_safe, insert_withdrawal_if_pending_safe.
  destruct_and?. match goal with Hx : exists q, _ /\ _ |- _ => destruct Hx as (q & Hq & _) end.
  eapply insert_checkpoint_safe; [by eexists|done].
Qed.
End statements.

Lemma safe_steps_inv d d' : db_inv d -> safe_steps d d' -> db_inv d'.
Proof. intros Hd Hs. eapply steps_invariant; [|exact Hd|exact Hs]. intros. by eapply safe_stmt_inv. Qed.

(** ** What statements never change: the journal *)

(** The identity of a request: everything but its outcome. *)
Definition same_request (q q' : request_row) : Prop :=
  qr_app q' = qr_app q /\ qr_id q' = qr_id q /\ qr_requested q' = qr_requested q /\
  qr_prev_id q' = qr_prev_id q /\ qr_prev_state q' = qr_prev_state q /\ qr_report q' = qr_report q /\
  qr_created q' = qr_created q.

Definition stage_rank (s : string) : Z :=
  if String.eqb s "fenced" then 1 else if String.eqb s "activated" then 2
  else if String.eqb s "recovering" then 3 else if String.eqb s "withdrawn" then 4 else 0.

(** Stages a checkpoint can move to, in any number of transitions. *)
Definition stage_path : string -> string -> Prop := rtc (fun a b => validCheckpointTransition a b = true).

Lemma transition_rank a b : validCheckpointTransition a b = true -> stage_rank a < stage_rank b.
Proof.
  unfold validCheckpointTransition. intros H.
  repeat match goal with
  | Hx : _ || _ = true |- _ => apply orb_true_iff in Hx as [Hx|Hx]
  | Hx : _ && _ = true |- _ => apply andb_true_iff in Hx as [? Hx]
  | Hx : String.eqb _ _ = true |- _ => apply String.eqb_eq in Hx; subst
  end; vm_compute; done.
Qed.

Lemma stage_path_rank a b : stage_path a b -> stage_rank a < stage_rank b \/ a = b.
Proof.
  induction 1 as [|a b c Hab _ IH]; [by right|]. apply transition_rank in Hab. left. destruct IH as [|<-]; lia.
Qed.

Definition checkpoint_le (c c' : checkpoint_row) : Prop :=
  cr_intent c' = cr_intent c /\ stage_path (cr_stage c) (cr_stage c') /\ (cr_stage c' = cr_stage c -> c' = c).

Record journal_le (d d' : Db) : Prop := {
  jl_request : forall k q, t_requests d !! k = Some q ->
    exists q', t_requests d' !! k = Some q' /\ same_request q q' /\ (qr_state q <> "pending" -> q' = q);
  jl_binding : forall k b, t_bindings d !! k = Some b -> t_bindings d' !! k = Some b;
  jl_withdrawal : forall k x, t_withdrawals d !! k = Some x -> t_withdrawals d' !! k = Some x;
  jl_checkpoint : forall k c, t_checkpoints d !! k = Some c -> exists c', t_checkpoints d' !! k = Some c' /\ checkpoint_le c c';
  jl_frozen : forall k q, t_requests d !! k = Some q -> qr_state q <> "pending" -> t_checkpoints d' !! k = t_checkpoints d !! k
}.

Lemma same_request_refl q : same_request q q.
Proof. by repeat split. Qed.

Lemma checkpoint_le_refl c : checkpoint_le c c.
Proof. split; [done|]. split; [apply rtc_refl|done]. Qed.

Lemma checkpoint_le_trans a b c : checkpoint_le a b -> checkpoint_le b c -> checkpoint_le a c.
Proof.
  intros (I1 & P1 & E1) (I2 & P2 & E2). split; [congruence|]. split; [by etransitivity|]. intros Heq.
  apply stage_path_rank in P1, P2. rewrite Heq in P2.
  destruct P1 as [R1|S1], P2 as [R2|S2]; [lia|rewrite S2 in R1; lia|rewrite S1 in R2; lia|].
  rewrite E2, E1; congruence.
Qed.

Lemma journal_le_refl d : journal_le d d.
Proof.
  split; eauto using same_request_refl, checkpoint_le_refl.
Qed.

Lemma journal_le_trans d1 d2 d3 : journal_le d1 d2 -> journal_le d2 d3 -> journal_le d1 d3.
Proof.
  intros H12 H23. split.
  - intros k q Hq. destruct (jl_request _ _ H12 k q Hq) as (q2 & Hq2 & S2 & T2).
    destruct (jl_request _ _ H23 k q2 Hq2) as (q3 & Hq3 & S3 & T3). exists q3. split; [done|]. split.
    + unfold same_request in *. destruct_and!. repeat split; congruence.
    + intros Ht. rewrite <- (T2 Ht). apply T3. by rewrite (T2 Ht).
  - intros k b Hb. by apply (jl_binding _ _ H23), (jl_binding _ _ H12).
  - intros k b Hb. by apply (jl_withdrawal _ _ H23), (jl_withdrawal _ _ H12).
  - intros k c Hc. destruct (jl_checkpoint _ _ H12 k c Hc) as (c2 & Hc2 & L2).
    destruct (jl_checkpoint _ _ H23 k c2 Hc2) as (c3 & Hc3 & L3). eauto using checkpoint_le_trans.
  - intros k q Hq Ht. destruct (jl_request _ _ H12 k q Hq) as (q2 & Hq2 & _ & T2). rewrite (T2 Ht) in Hq2.
    rewrite (jl_frozen _ _ H23 k q Hq2 Ht). by apply (jl_frozen _ _ H12 k q).
Qed.

(** Statements on other tables leave the journal as it is. *)
Lemma journal_le_same d d' :
  t_requests d' = t_requests d -> t_bindings d' = t_bindings d -> t_checkpoints d' = t_checkpoints d ->
  t_withdrawals d' = t_withdrawals d -> journal_le d d'.
Proof.
  intros E1 E2 E3 E4. split; rewrite ?E1, ?E2, ?E3, ?E4; eauto using same_request_refl, checkpoint_le_refl.
Qed.

Lemma journal_insert_request r d d' n : insert_request r d = Ok (d', n) -> journal_le d d'.
Proof.
  intros (-> & Hn & _)%insert_request_inv. split; cbn; eauto using checkpoint_le_refl.
  intros k q Hq. exists q. rewrite lookup_insert_ne by congruence. eauto using same_request_refl.
Qed.

Lemma journal_finish_request key w state response updated d d' n :
  finish_request key w state response updated d = Ok (d', n) -> journal_le d d'.
Proof.
  intros [[-> _]|(_ & q0 & Hq0 & Hp & _ & _ & _ & ->)]%finish_request_inv; [apply journal_le_refl|].
  split; cbn; eauto using checkpoint_le_refl. intros k q Hq. destruct (decide (k = key)) as [->|].
  - rewrite lookup_insert_eq. eexists. split; [done|]. assert (q = q0) as -> by congruence. split; [by repeat split|done].
  - rewrite lookup_insert_ne by done. eauto using same_request_refl.
Qed.

Lemma journal_insert_binding r d d' n : insert_binding r d = Ok (d', n) -> journal_le d d'.
Proof.
  intros [Hn H]%check_bind. injection H as <- <-. bools. apply eq_None_not_Some in Hn.
  split; cbn; eauto using same_request_refl, checkpoint_le_refl. intros k b Hb. by rewrite lookup_insert_ne by congruence.
Qed.

Lemma journal_insert_checkpoint r d d' n :
  (exists q, t_requests d !! (cr_app r, cr_request r) = Some q /\ qr_state q = "pending") ->
  insert_checkpoint r d = Ok (d', n) -> journal_le d d'.
Proof.
  intros (q0 & Hq0 & Hp) [Hn [_ H]%check_bind]%check_bind. injection H as <- <-. bools. apply eq_None_not_Some in Hn.
  split; cbn; eauto using same_request_refl.
  - intros k c Hc. rewrite lookup_insert_ne by congruence. eauto using checkpoint_le_refl.
  - intros k q Hq Ht. rewrite lookup_insert_ne; [done|]. intros <-. congruence.
Qed.

Lemma journal_update_checkpoint key expected stage gate updated d d' n :
  validCheckpointTransition expected stage = true ->
  (exists q, t_requests d !! key = Some q /\ qr_state q = "pending") ->
  update_checkpoint key expected stage gate updated d = Ok (d', n) -> journal_le d d'.
Proof.
  intros Hv (q0 & Hq0 & Hp) [[-> _]|(_ & c0 & Hc0 & Hst & _ & ->)]%update_checkpoint_inv; [apply journal_le_refl|].
  split; cbn; eauto using same_request_refl.
  - intros k c Hc. destruct (decide (k = key)) as [->|]; [|rewrite lookup_insert_ne by done; eauto using checkpoint_le_refl].
    rewrite lookup_insert_eq. eexists. split; [done|]. assert (c = c0) as -> by congruence. rewrite <- Hst in Hv.
    split; [done|]. split; [by apply rtc_once|]. cbn. intros E. apply transition_rank in Hv. rewrite E in Hv. lia.
  - intros k q Hq Ht. rewrite lookup_insert_ne; [done|]. intros <-. congruence.
Qed.

Lemma journal_insert_withdrawal r d d' n : insert_withdrawal r d = Ok (d', n) -> journal_le d d'.
Proof.
  intros [Hn H]%check_bind. injection H as <- <-. bools. apply eq_None_not_Some in Hn.
  split; cbn; eauto using same_request_refl, checkpoint_le_refl. intros k b Hb. by rewrite lookup_insert_ne by congruence.
Qed.

Lemma journal_withdrawal_if_pending key at_ d d' n : insert_withdrawal_if_pending key at_ d = Ok (d', n) -> journal_le d d'.
Proof.
  intros [->|(_ & Hn & ->)]%insert_withdrawal_if_pending_inv; [apply journal_le_refl|].
  split; cbn; eauto using same_request_refl, checkpoint_le_refl. intros k b Hb. by rewrite lookup_insert_ne by congruence.
Qed.

Lemma safe_stmt_journal d d' : safe_stmt d d' -> journal_le d d'.
Proof.
  intros Hs; destruct Hs as [r d' n H|id f d' n Hf H|r d' n H|id w f d' n Hf H|r d' n H|r d' n H|id d' n H
    |id f d' n Hf H|r d' n H|key w st rsp upd d' n H|r d' n Hq Ha Hx H|r d' n Hq Hst H|key e st g u d' n Hv Hq H
    |r d' n Hq H|key at_ d' n H];
    eauto using journal_insert_request, journal_finish_request, journal_insert_binding, journal_insert_checkpoint,
      journal_update_checkpoint, journal_insert_withdrawal, journal_withdrawal_if_pending;
    apply journal_le_same; unfold insert_app, update_app, insert_deployment, update_deployment, upsert_route, insert_route,
      delete_routes, update_route in H; repeat case_match; inv_stmt; simplify_eq; done.
Qed.

Lemma safe_steps_journal d d' : safe_steps d d' -> journal_le d d'.
Proof.
  intros Hs. eapply steps_relation; [apply journal_le_refl| |exact Hs].
  intros d1 d2 d3 H12 H23. eapply journal_le_trans; [exact H12|by apply safe_stmt_journal].
Qed.
