(* ===== verification/DbSteps.v ===== *)
(** * Every repository operation is a sequence of safe statements

    Whatever faults the driver reports, an operation leaves the committed
    database reachable from the one before by [safe_stmt] steps.  The database
    step relation [db_step] has one constructor per operation that writes; the
    invariant and the journal properties follow for every reachable database. *)

From S2P Require Import Prelude GoStrings Regexp GoJson GoTime Appconfig Db DbRepos DbCandidates DbInv.
From Stdlib Require Import Ascii String.
Local Open Scope Z_scope.

Definition safe_op {K A} (m : M K A) : Prop := forall w r w',
  db_inv (w_db w) -> m w = (r, w') -> safe_steps (w_db w) (w_db w') /\ w_k w' = w_k w.

Section rules.
Context {K : Type}.

Lemma safe_lift {A} (r : result A) : safe_op (lift r : M K A).
Proof. intros w r' w' _ [= <- <-]. split; [constructor|done]. Qed.

Lemma safe_ret {A} (a : A) : safe_op (mret a : M K A).
Proof. intros w r' w' _ [= <- <-]. split; [constructor|done]. Qed.

Lemma safe_guard b e : safe_op (guard b e : M K unit).
Proof. apply safe_lift. Qed.

Lemma safe_query {A} (f : Db -> A) : safe_op (db_query f : M K A).
Proof. intros w r w' _ (E & Ek & _)%db_query_inv. rewrite E. split; [constructor|done]. Qed.

Lemma safe_bind {A B} (m : M K A) (f : A -> M K B) : safe_op m -> (forall a, safe_op (f a)) -> safe_op (mbind f m).
Proof.
  intros Hm Hf w r w' Hi H. apply st_bind_inv in H as [(e & He & _)|(a & w1 & Ha & Hb)]; [by eapply Hm|].
  destruct (Hm _ _ _ Hi Ha) as [S1 E1]. pose proof (safe_steps_inv _ _ Hi S1) as Hi1.
  destruct (Hf _ _ _ _ Hi1 Hb) as [S2 E2]. split; [by eapply safe_steps_trans|congruence].
Qed.

Lemma safe_exec f :
  (forall d d' n, db_inv d -> f d = Ok (d', n) -> d' = d \/ safe_stmt d d') -> safe_op (db_exec f : M K Z).
Proof.
  intros Hf w r w' Hi [Ek [E|(d & n & E & Ed)]]%db_exec_inv; (split; [|done]).
  - rewrite E. constructor.
  - rewrite Ed. destruct (Hf _ _ _ Hi E) as [->|Hs]; [constructor|by apply safe_steps_once].
Qed.

Lemma safe_affected (m : M K Z) : safe_op m -> safe_op (mapRowsAffected m).
Proof. intros Hm. apply safe_bind; [done|]. intros. apply safe_guard. Qed.

Lemma safe_find_one {R A} (select : Db -> option R) (scan : R -> result A) : safe_op (find_one select scan : M K A).
Proof. apply safe_bind; [apply safe_query|]. intros. apply safe_lift. Qed.

(** A transaction: the committed database and the working copy stay reachable. *)
Definition safe_tx {A} (m : TX A) : Prop := forall d wk,
  db_inv d -> safe_steps d wk -> wp m d wk (fun _ d' _ => safe_steps d d').

Lemma safe_in_tx {A} (body : TX A) :
  (forall d, db_inv d -> wp body d d (fun _ d' _ => safe_steps d d')) -> safe_op (in_tx body : M K A).
Proof.
  intros H w r w' Hi Hb. eapply (in_tx_wp body w (fun _ d => safe_steps (w_db w) d)); [constructor| |exact Hb].
  by apply H.
Qed.
End rules.

(** ** Single-statement operations *)

Ltac keep_fields := intros r; done.

Section operations.
Context `{AppEnv} {K : Type}.

Lemma safe_app_create app : safe_op (AppRepository_Create app : M K unit).
Proof. apply safe_bind; [|intros; apply safe_ret]. apply safe_exec. intros d d' n _ Hx. right. by eapply ss_insert_app. Qed.

Lemma safe_app_update app : safe_op (AppRepository_Update app : M K unit).
Proof. apply safe_affected, safe_exec. intros d d' n _ Hx. right. eapply ss_update_app; [|exact Hx]. keep_fields. Qed.

Lemma safe_mark_deleted name at_ : safe_op (AppRepository_MarkDeleted name at_ : M K App).
Proof.
  apply safe_bind; [|intros; apply safe_find_one]. apply safe_affected, safe_exec. intros d d' n _ Hx.
  unfold mark_deleted in Hx. case_match; [|injection Hx as <- <-; by left].
  right. eapply ss_update_app; [|exact Hx]. keep_fields.
Qed.

Lemma safe_deployment_create x : safe_op (DeploymentRepository_Create x : M K unit).
Proof. apply safe_bind; [|intros; apply safe_ret]. apply safe_exec. intros d d' n _ Hx. right. by eapply ss_insert_deployment. Qed.

Lemma safe_deployment_status id s f u : safe_op (DeploymentRepository_UpdateStatus id s f u : M K unit).
Proof. apply safe_affected, safe_exec. intros d d' n _ Hx. right. eapply ss_update_deployment; [|exact Hx]. keep_fields. Qed.

Lemma safe_route_create r : safe_op (RouteRepository_Create r : M K unit).
Proof. apply safe_bind; [|intros; apply safe_ret]. apply safe_exec. intros d d' n _ Hx. right. by eapply ss_insert_route. Qed.

Lemma safe_route_upsert r : safe_op (RouteRepository_UpsertForApp r : M K unit).
Proof. apply safe_bind; [|intros; apply safe_ret]. apply safe_exec. intros d d' n _ Hx. right. by eapply ss_upsert_route. Qed.

Lemma safe_route_delete id : safe_op (RouteRepository_DeleteByApp id : M K unit).
Proof. apply safe_bind; [|intros; apply safe_ret]. apply safe_exec. intros d d' n _ Hx. right. by eapply ss_delete_routes. Qed.

Lemma safe_route_status id s u : safe_op (RouteRepository_UpdateStatus id s u : M K unit).
Proof. apply safe_affected, safe_exec. intros d d' n _ Hx. right. eapply ss_update_route; [|exact Hx]. keep_fields. Qed.

Lemma safe_request_complete app id s r u : safe_op (DeploymentRequestRepository_Complete app id s r u : M K unit).
Proof.
  apply safe_bind; [apply safe_guard|]. intros _. apply safe_affected, safe_exec. intros d d' n _ Hx. right.
  by eapply ss_finish_request.
Qed.

(** ** Transactions *)

(** Runs the weakest-precondition rules; outcomes that commit nothing, or commit
    a reachable working copy, are closed from the context. *)
Ltac tx_done := first [done | assumption | apply steps_refl].
Ltac tx_step :=
  lazymatch goal with
  | |- wp (mbind _ _) _ _ _ => apply wp_bind
  | |- wp (mret _) _ _ _ => apply wp_ret
  | |- wp (lift _) _ _ _ => apply wp_lift
  | |- wp (throw _) _ _ _ => apply wp_throw
  | |- wp (guard _ _) _ _ _ => apply wp_guard; intros ?
  | |- wp (tx_query _) _ _ _ => apply wp_query
  | |- wp (map_err _ _) _ _ _ => apply wp_map_err
  | |- wp tx_commit _ _ _ => apply wp_commit
  | |- wp (mapRowsAffected (tx_exec _)) _ _ _ => apply wp_affected; [intros ? ?|intros ? ? ? ?]
  | |- wp (tx_exec _) _ _ _ => apply wp_exec; [intros ?|intros ? ? ?]
  | |- wp (match ?x with _ => _ end) _ _ _ => destruct x eqn:?
  | |- match ?x with Ok _ => _ | Err _ => _ end => destruct x eqn:?
  end.
Ltac tx_run := repeat (tx_step; cbv zeta; try tx_done).

Lemma safe_request_begin req : safe_op (DeploymentRequestRepository_Begin req : M K (DeployRequest * bool)).
Proof.
  apply safe_bind; [apply safe_guard|]. intros _. apply safe_in_tx. intros d Hi. unfold begin_request_tx. tx_run;
    apply safe_steps_once; by eapply ss_insert_request.
Qed.

Lemma safe_save_intent app id intent now : safe_op (RuntimeCheckpointRepository_SaveActivationIntent app id intent now : M K unit).
Proof.
  apply safe_bind; [apply safe_lift|]. intros _. apply safe_bind; [apply safe_lift|]. intros _.
  apply safe_in_tx. intros d Hi. unfold save_intent_tx. tx_run;
    apply safe_steps_once; (eapply ss_insert_checkpoint; [| |eassumption]; [|reflexivity]);
    eexists; (split; [eassumption|]); bools; by apply String.eqb_eq.
Qed.

Lemma safe_record_gate app id e s g now : safe_op (RuntimeCheckpointRepository_RecordActivationGate app id e s g now : M K unit).
Proof.
  apply safe_bind; [apply safe_lift|]. intros _. apply safe_bind; [apply safe_lift|]. intros _.
  apply safe_in_tx. intros d Hi. unfold record_gate_tx. tx_run;
    apply safe_steps_once; bools; (eapply ss_update_checkpoint; [| |eassumption]; [eassumption|]);
    repeat case_match; simplify_eq; eexists; (split; [first [reflexivity|eassumption]|]); by apply String.eqb_eq.
Qed.

(** The rows a query finds are rows of the table. *)
Lemma app_by_name_Some name d a : db_inv d -> app_by_name name d = Some a -> t_apps d !! ar_id a = Some a /\ ar_name a = name.
Proof.
  intros Hi [Hn (k & Hk)]%select1_Some. pose proof (inv_app_key d Hi _ _ Hk) as <-.
  split; [done|by apply String.eqb_eq].
Qed.

Lemma active_app_Some name d a :
  db_inv d -> active_app name d = Some a -> t_apps d !! ar_id a = Some a /\ ar_name a = name /\ ar_deleted a = None.
Proof.
  intros Hi [Hn (k & Hk)]%select1_Some. pose proof (inv_app_key d Hi _ _ Hk) as <-. bools.
  split; [done|]. split; [by apply String.eqb_eq|done].
Qed.

(** The last inserts of a new binding: deployment, binding, possibly the
    withdrawal decision. *)
Lemma bind_rows_safe d0 wk app id appID depID at_ d1 n1 d2 n2 :
  safe_steps d0 wk -> is_Some (t_requests wk !! (app, id)) ->
  (exists a, t_apps wk !! appID = Some a /\ ar_name a = app) ->
  insert_deployment (DeploymentRow depID appID "pending" None at_ at_) wk = Ok (d1, n1) ->
  insert_binding (BindingRow app id appID depID at_) d1 = Ok (d2, n2) ->
  safe_steps d0 d2 /\ is_Some (t_requests d2 !! (app, id)).
Proof.
  intros Hs Hq Ha H1 H2. assert (S1 : safe_steps d0 d1) by (eapply safe_steps_snoc; [exact Hs|by eapply ss_insert_deployment]).
  apply insert_deployment_inv in H1 as (-> & Hn). split.
  - eapply safe_steps_snoc; [exact S1|]. eapply ss_insert_binding; [| | |exact H2]; cbn; [done|done|].
    eexists. by rewrite lookup_insert_eq.
  - apply check_bind in H2 as [_ H2]. by injection H2 as <- <-.
Qed.

(** The app of a new binding: a row of the table with the request's name, or a
    fresh provisional row. *)
Definition found_app (app : string) (d : Db) (o : option app_row) : Prop :=
  forall a, o = Some a -> t_apps d !! ar_id a = Some a /\ ar_name a = app.

Lemma begin_inserts_safe req cfg previous any proposed depID now withdrawal d :
  found_app (Req_AppName req) d previous -> found_app (Req_AppName req) d any ->
  wp (begin_inserts req cfg previous any proposed depID now withdrawal) d d (fun _ d' _ => safe_steps d d').
Proof.
  intros Hprev Hany. unfold begin_inserts. cbv zeta.
  apply wp_bind, wp_map_err, wp_exec; [intros; apply steps_refl|]. intros d1 n1 E1. cbv beta.
  assert (S1 : safe_steps d d1) by (apply safe_steps_once; by eapply ss_insert_request).
  apply insert_request_inv in E1 as (-> & _). cbn [qr_app qr_id] in *.
  set (key := (Req_AppName req, Req_RequestID req)) in *. set (d1 := set_requests _ d) in *.
  assert (Hq1 : is_Some (t_requests d1 !! key)) by (unfold d1; cbn; by rewrite lookup_insert_eq).
  apply wp_bind. eapply wp_mono with (Q := fun r d' wk' => safe_steps d d' /\ d' = d /\
    forall id, r = Ok id -> safe_steps d wk' /\ is_Some (t_requests wk' !! key) /\
      exists a, t_apps wk' !! id = Some a /\ ar_name a = Req_AppName req).
  { assert (Hfresh : wp (_ ← tx_exec (insert_app (AppRow proposed (Req_AppName req) (Cfg_Image cfg) (Req_RequestedState req)
        (formatTime now) (formatTime now) (Some (formatTime now)))); mret proposed) d d1
      (fun r d' wk' => safe_steps d d' /\ d' = d /\ forall id, r = Ok id -> safe_steps d wk' /\
         is_Some (t_requests wk' !! key) /\ exists a, t_apps wk' !! id = Some a /\ ar_name a = Req_AppName req)).
    { apply wp_bind, wp_exec; [intros; split; [apply steps_refl|]; split; [done|]; by intros ? ?|]. intros d2 n2 E2. apply wp_ret.
      split; [apply steps_refl|]. split; [done|]. intros id [= <-].
      split; [eapply safe_steps_snoc; [exact S1|by eapply ss_insert_app]|].
      apply insert_app_inv in E2 as (-> & _). split; [done|]. eexists. cbn. by rewrite lookup_insert_eq. }
    assert (Hfound : forall o a, found_app (Req_AppName req) d o -> o = Some a ->
      wp (mret (ar_id a)) d d1 (fun r d' wk' => safe_steps d d' /\ d' = d /\ forall id, r = Ok id -> safe_steps d wk' /\
         is_Some (t_requests wk' !! key) /\ exists a, t_apps wk' !! id = Some a /\ ar_name a = Req_AppName req)).
    { intros o a Ho ->. apply wp_ret. split; [apply steps_refl|]. split; [done|]. intros id [= <-].
      split; [done|]. split; [done|]. exists a. by apply Ho. }
    repeat case_match; simplify_eq; eauto. }
  intros [appID|e] d' wk' (Hd' & -> & Hok); [|apply steps_refl].
  destruct (Hok appID eq_refl) as (S2 & Hq2 & Ha2). clear Hok.
  apply wp_bind, wp_exec; [intros; apply steps_refl|]. intros d3 n3 E3.
  apply wp_bind, wp_exec; [intros; apply steps_refl|]. intros d4 n4 E4.
  destruct (bind_rows_safe _ _ _ _ _ _ _ _ _ _ _ S2 Hq2 Ha2 E3 E4) as [S4 Hq4].
  apply wp_bind. destruct withdrawal.
  - apply wp_bind, wp_exec; [intros; apply steps_refl|]. intros d5 n5 E5. apply wp_ret.
    assert (safe_steps d d5) by (eapply safe_steps_snoc; [exact S4|eapply ss_insert_withdrawal; [|exact E5]; exact Hq4]).
    apply wp_bind, wp_commit; [apply steps_refl|done|]. by apply wp_ret.
  - apply wp_ret. apply wp_bind, wp_commit; [apply steps_refl|done|]. by apply wp_ret.
Qed.

(** Checks that only read keep the committed database and the working copy. *)
Lemma admission_reads app cfg d wk (Q : result unit -> Db -> Db -> Prop) :
  (forall r, Q r d wk) -> wp (validateCandidateDomainAdmission app cfg) d wk Q.
Proof. intros HQ. unfold validateCandidateDomainAdmission. tx_run; auto. Qed.

Lemma predecessor_reads app pid pst cfg wd d wk (Q : result unit -> Db -> Db -> Prop) :
  (forall r, Q r d wk) -> wp (validateCandidatePredecessor app pid pst cfg wd) d wk Q.
Proof. intros HQ. unfold validateCandidatePredecessor. tx_run; auto. Qed.

Lemma begin_new_safe req cfg proposed depID now withdrawal d :
  db_inv d -> wp (begin_new req cfg proposed depID now withdrawal) d d (fun _ d' _ => safe_steps d d').
Proof.
  intros Hi. unfold begin_new. cbv zeta. do 6 (tx_step; try tx_done). do 6 (tx_step; try tx_done). do 4 (tx_step; try tx_done).
  apply wp_bind. eapply wp_mono with (Q := fun _ d' wk' => d' = d /\ wk' = d).
  { destruct withdrawal; [by apply wp_ret|by apply admission_reads]. }
  intros [u|e] d' wk' [-> ->]; [|apply steps_refl]. apply wp_bind, predecessor_reads. intros [u'|e]; [|apply steps_refl].
  apply begin_inserts_safe; intros a Ha.
  - destruct (active_app_Some _ _ _ Hi Ha) as (? & ? & _). done.
  - by apply app_by_name_Some.
Qed.

Lemma safe_beginCandidate req proposed depID now withdrawal :
  safe_op (beginCandidate req proposed depID now withdrawal : M K _).
Proof.
  apply safe_bind; [apply safe_guard|]. intros _. apply safe_bind; [apply safe_lift|]. intros cfg.
  apply safe_in_tx. intros d Hi. tx_step. tx_step; [tx_done|]. destruct (t_bindings d !! _); [|by apply begin_new_safe].
  unfold begin_existing. tx_run; apply safe_steps_once; by eapply ss_insert_withdrawal_if_pending.
Qed.

(** The app [Bind] works with is a row of the working copy with that name. *)
Lemma bind_app_safe app appID requested pid pst cfg now d (P : Db -> Prop) :
  db_inv d -> (forall r d' n, insert_app r d = Ok (d', n) -> P d') -> P d ->
  wp (bind_app app appID requested pid pst cfg now) d d (fun r d' wk' => d' = d /\
    forall id, r = Ok id -> P wk' /\ safe_steps d wk' /\ exists a, t_apps wk' !! id = Some a /\ ar_name a = app).
Proof.
  intros Hi HP HPd. unfold bind_app. cbv zeta. apply wp_bind, wp_query; [done|].
  destruct (app_by_name app d) as [a|] eqn:Ha.
  - apply app_by_name_Some in Ha as [Ha Hn]; [|done]. apply wp_bind.
    eapply wp_mono with (Q := fun _ d' wk' => d' = d /\ wk' = d); [case_match; by apply wp_guard|].
    intros [u|e] d' wk' [-> ->]; [|done]. apply wp_ret. split; [done|]. intros id [= <-].
    split; [done|]. split; [apply steps_refl|by exists a].
  - apply wp_bind, wp_guard; intros Hb; [done|]. apply wp_bind, wp_exec; [done|]. intros d1 n1 E1. apply wp_ret.
    split; [done|]. intros id [= <-]. split; [by eapply HP|]. split; [by eapply safe_steps_once, ss_insert_app|].
    apply insert_app_inv in E1 as (-> & _). eexists. cbn. by rewrite lookup_insert_eq.
Qed.

Lemma safe_bind_op app id appID depID now : safe_op (CandidateBindingRepository_Bind app id appID depID now : M K _).
Proof.
  apply safe_bind; [apply safe_guard|]. intros _. apply safe_in_tx. intros d Hi. tx_step. tx_step; [tx_done|].
  destruct (t_bindings d !! _); [tx_run|]. unfold bind_new. cbv zeta. tx_step. tx_step; [tx_done|].
  destruct (t_requests d !! (app, id)) as [q|] eqn:Hq; [|tx_run]. do 4 (tx_step; try tx_done).
  destruct (canonical_for app (qr_requested q)) as [cfg|]; [|tx_run].
  apply wp_bind, predecessor_reads. intros [u|e]; [|apply steps_refl]. apply wp_bind.
  eapply wp_mono; [apply (bind_app_safe _ _ _ _ _ _ _ d (fun wk => is_Some (t_requests wk !! (app, id)))); [done| |by rewrite Hq]|].
  { intros r d' n (-> & _)%insert_app_inv. cbn. by rewrite Hq. }
  intros [actual|e] d' wk' [-> Hok]; [|apply steps_refl]. destruct (Hok actual eq_refl) as (Hq' & S1 & Ha). clear Hok.
  do 2 (tx_step; try tx_done). apply wp_bind, wp_exec; [intros; apply steps_refl|]. intros d3 n3 E3.
  apply wp_bind, wp_exec; [intros; apply steps_refl|]. intros d4 n4 E4.
  destruct (bind_rows_safe _ _ _ _ _ _ _ _ _ _ _ S1 Hq' Ha E3 E4) as [S4 _]. tx_run.
Qed.

(** Deployment status, receipt and commit. *)
Lemma finalize_receipt_safe app id outcome requested appID depID a dep status reason now d wk :
  safe_steps d wk ->
  wp (finalize_receipt app id outcome requested appID depID a dep status reason now) d wk (fun _ d' _ => safe_steps d d').
Proof.
  intros Hs. unfold finalize_receipt. cbv zeta. apply wp_bind, wp_affected; [intros; apply steps_refl|].
  intros d1 n1 E1 _. assert (S1 : safe_steps d d1).
  { eapply safe_steps_snoc; [exact Hs|]. eapply ss_update_deployment; [|exact E1]. keep_fields. }
  tx_step. tx_step. tx_step; [|tx_done]. apply wp_bind, wp_affected; [intros; apply steps_refl|]. intros d2 n2 E2 _.
  assert (S2 : safe_steps d d2) by (eapply safe_steps_snoc; [exact S1|by eapply ss_finish_request]). tx_run.
Qed.

(** App and route of the outcome [applied]. *)
Lemma finalize_applied_safe app id requested aid cfg a tls now d :
  wp (finalize_applied app id requested aid cfg a tls now) d d
    (fun r d' wk' => d' = d /\ forall x, r = Ok x -> safe_steps d wk').
Proof.
  unfold finalize_applied. cbv zeta. apply wp_bind, wp_affected; [done|]. intros d1 n1 E1 _.
  assert (S1 : safe_steps d d1) by (eapply safe_steps_once, ss_update_app; [|exact E1]; keep_fields).
  apply wp_bind. case_match; (apply wp_exec; [done|]); intros d2 n2 E2; apply wp_ret; (split; [done|]); intros _ _;
    (eapply safe_steps_snoc; [exact S1|]); [by eapply ss_delete_routes|by eapply ss_upsert_route].
Qed.

Lemma safe_finalize app id outcome gate tls now : safe_op (CandidateFinalizationRepository_Finalize app id outcome gate tls now : M K _).
Proof.
  apply safe_bind; [apply safe_guard|]. intros _. apply safe_in_tx. intros d Hi. unfold finalize_tx.
  tx_step. tx_step; [tx_done|]. destruct (t_requests d !! (app, id)) as [q|]; [|tx_run]. destruct (t_bindings d !! (app, id)) as [b|]; [|tx_run].
  destruct (negb (String.eqb (qr_state q) "pending")); [tx_run|]. unfold finalize_pending. cbv zeta.
  do 30 (first [progress (tx_step; try tx_done)|idtac]).
  - apply wp_bind. eapply wp_mono; [apply (finalize_applied_safe _ _ _ _ _ _ _ _ d)|].
    intros [app'|e] d' wk' [-> Hok]; [|apply steps_refl]. apply finalize_receipt_safe. by apply (Hok app').
  - apply wp_bind. unfold finalize_withdrawn. tx_step; [|apply wp_ret; apply finalize_receipt_safe, steps_refl].
    apply wp_bind, wp_exec; [intros; apply steps_refl|]. intros d1 n1 E1. apply wp_ret.
    apply finalize_receipt_safe. by eapply safe_steps_once, ss_delete_routes.
Qed.
End operations.
