(* ===== verification/DbProps.v ===== *)
(** * Properties of the journal (internal/db)

    [write_op] has one constructor per repository operation that writes and
    [run_op] runs it; [db_step] is one such call under some schedule of driver
    faults.  The theorems hold for every sequence of calls and every schedule. *)

From S2P Require Import Prelude GoStrings Regexp GoJson GoTime Appconfig Db DbRepos DbCandidates DbInv DbSteps.
From Stdlib Require Import Ascii String.
Local Open Scope Z_scope.

Inductive write_op :=
| OpAppCreate (app : App)
| OpAppUpdate (app : App)
| OpAppMarkDeleted (name : string) (at_ : Z)
| OpDeploymentCreate (x : Deployment)
| OpDeploymentStatus (id status reason : string) (updated : Z)
| OpRouteCreate (r : Route)
| OpRouteUpsert (r : Route)
| OpRouteDelete (appID : string)
| OpRouteStatus (id status : string) (updated : Z)
| OpRequestBegin (req : DeployRequest)
| OpRequestComplete (appName requestID state response : string) (updated : Z)
| OpSaveIntent (appName requestID intent : string) (now : Z)
| OpRecordGate (appName requestID expected stage gate : string) (now : Z)
| OpBegin (req : DeployRequest) (proposedAppID deploymentID : string) (now : Z)
| OpBeginWithdrawal (req : DeployRequest) (proposedAppID deploymentID : string) (now : Z)
| OpBind (appName requestID appID deploymentID : string) (now : Z)
| OpFinalize (appName requestID outcome gate : string) (tls : bool) (now : Z).

Section journal.
Context `{AppEnv}.

Definition forget {K A} (m : M K A) : M K unit := _ ← m; mret tt.

Definition run_op {K} (op : write_op) : M K unit :=
  match op with
  | OpAppCreate a => AppRepository_Create a
  | OpAppUpdate a => AppRepository_Update a
  | OpAppMarkDeleted n t => forget (AppRepository_MarkDeleted n t)
  | OpDeploymentCreate x => DeploymentRepository_Create x
  | OpDeploymentStatus i s r u => DeploymentRepository_UpdateStatus i s r u
  | OpRouteCreate r => RouteRepository_Create r
  | OpRouteUpsert r => RouteRepository_UpsertForApp r
  | OpRouteDelete i => RouteRepository_DeleteByApp i
  | OpRouteStatus i s u => RouteRepository_UpdateStatus i s u
  | OpRequestBegin req => forget (DeploymentRequestRepository_Begin req)
  | OpRequestComplete a i s r u => DeploymentRequestRepository_Complete a i s r u
  | OpSaveIntent a i t n => RuntimeCheckpointRepository_SaveActivationIntent a i t n
  | OpRecordGate a i e s g n => RuntimeCheckpointRepository_RecordActivationGate a i e s g n
  | OpBegin req p x n => forget (CandidateBindingRepository_Begin req p x n)
  | OpBeginWithdrawal req p x n => forget (CandidateBindingRepository_BeginWithdrawal req p x n)
  | OpBind a i p x n => forget (CandidateBindingRepository_Bind a i p x n)
  | OpFinalize a i o g t n => forget (CandidateFinalizationRepository_Finalize a i o g t n)
  end.

(** One call, run to its end or cut short by any schedule of faults. *)
Inductive db_step (d : Db) : Db -> Prop :=
| db_call op fs : db_step d (w_db (run_op op (World d fs tt)).2).

Definition reachable_db (d : Db) : Prop := steps db_step empty_db d.

Lemma safe_forget {K A} (m : M K A) : safe_op m -> safe_op (forget m).
Proof. intros Hm. apply safe_bind; [done|]. intros. apply safe_ret. Qed.

Lemma safe_run_op {K} op : safe_op (run_op op : M K unit).
Proof.
  destruct op; cbn [run_op]; try (lazymatch goal with |- safe_op (forget _) => apply safe_forget end);
    eauto using safe_app_create, safe_app_update, safe_mark_deleted, safe_deployment_create, safe_deployment_status,
      safe_route_create, safe_route_upsert, safe_route_delete, safe_route_status, safe_request_begin,
      safe_request_complete, safe_save_intent, safe_record_gate, safe_bind_op, safe_finalize; apply safe_beginCandidate.
Qed.

Lemma db_step_safe d d' : db_inv d -> db_step d d' -> safe_steps d d'.
Proof.
  intros Hi [op fs]. destruct (run_op op (World d fs tt)) as [r w'] eqn:E. by apply (safe_run_op op (World d fs tt) _ _ Hi) in E as [? _].
Qed.

Lemma db_steps_safe d d' : db_inv d -> steps db_step d d' -> db_inv d' /\ journal_le d d'.
Proof.
  intros Hi Hs. induction Hs as [|d1 d2 d3 H12 IH H23]; [by split; [|apply journal_le_refl]|].
  destruct (IH Hi) as [Hi2 Hj]. apply db_step_safe in H23; [|done].
  split; [by eapply safe_steps_inv|]. eapply journal_le_trans; [exact Hj|by apply safe_steps_journal].
Qed.

Lemma reachable_inv d : reachable_db d -> db_inv d.
Proof. intros Hr. apply (db_steps_safe _ _ empty_db_inv Hr). Qed.

(** ** The properties *)

(** C1: in every database reachable from the empty one, by any sequence of
    repository calls under any schedule of lost or failed driver calls, the
    tables are intact: rows sit at their keys, app names, the route of an app and
    route domains are unique, a request has a response exactly when it is
    terminal, an app has at most one pending request, and every binding,
    checkpoint and withdrawal refers to rows that exist and belong together. *)
Theorem reachable_db_intact d : reachable_db d -> db_inv d.
Proof. apply reachable_inv. Qed.

(** A terminal deploy request is a permanent receipt: no later sequence of
    calls changes the row (state, response, times) or its checkpoint. *)
Theorem terminal_receipt_immutable d d' k q :
  reachable_db d -> steps db_step d d' -> t_requests d !! k = Some q -> qr_state q <> "pending" ->
  t_requests d' !! k = Some q /\ t_checkpoints d' !! k = t_checkpoints d !! k.
Proof.
  intros Hr Hs Hq Ht. destruct (db_steps_safe _ _ (reachable_inv _ Hr) Hs) as [_ Hj]. split; [|by eapply jl_frozen].
  destruct (jl_request _ _ Hj _ _ Hq) as (q' & Hq' & _ & E). by rewrite E in Hq'.
Qed.

(** What was journaled for a request stays: the requested state, the saved
    predecessor and the withdrawal flag of its row, its binding to an app and a
    deployment, and the decision to withdraw it. *)
Theorem journal_permanent d d' k q :
  reachable_db d -> steps db_step d d' -> t_requests d !! k = Some q ->
  (exists q', t_requests d' !! k = Some q' /\ same_request q q') /\
  (forall b, t_bindings d !! k = Some b -> t_bindings d' !! k = Some b) /\
  (forall x, t_withdrawals d !! k = Some x -> t_withdrawals d' !! k = Some x).
Proof.
  intros Hr Hs Hq. destruct (db_steps_safe _ _ (reachable_inv _ Hr) Hs) as [_ Hj].
  destruct (jl_request _ _ Hj _ _ Hq) as (q' & Hq' & Hsame & _).
  split; [by exists q'|]. split; intros; [by apply (jl_binding _ _ Hj)|by apply (jl_withdrawal _ _ Hj)].
Qed.

(** An activation checkpoint keeps the intent it was saved with, and its
    stage only moves along the transitions prepared, fenced, activated,
    recovering, withdrawn that the repository allows; a checkpoint back at the
    same stage is the same row, so a stage is never entered twice. *)
Theorem checkpoint_forward d d' k c :
  reachable_db d -> steps db_step d d' -> t_checkpoints d !! k = Some c ->
  exists c', t_checkpoints d' !! k = Some c' /\ cr_intent c' = cr_intent c /\
    stage_path (cr_stage c) (cr_stage c') /\ (cr_stage c' = cr_stage c -> c' = c).
Proof.
  intros Hr Hs Hc. destruct (db_steps_safe _ _ (reachable_inv _ Hr) Hs) as [_ Hj].
  destruct (jl_checkpoint _ _ Hj _ _ Hc) as (c' & Hc' & Hle). exists c'. split; [done|]. apply Hle.
Qed.
End journal.
