(* ===== verification/DbEffects.v ===== *)
(** * Effects of the candidate transactions (internal/db)

    What [Finalize] and [beginCandidate] do to the committed database: nothing,
    or all of the writes that belong together, under every schedule of driver
    faults. *)

From S2P Require Import Prelude GoStrings Regexp GoJson GoTime Appconfig Db DbRepos DbCandidates DbInv DbSteps.
From Stdlib Require Import Ascii String.
Local Open Scope Z_scope.

(** ** Finalize *)

(** The predecessor the request was journaled with is still the app row, or the
    row is provisional. *)
Definition predecessor_unchanged (q : request_row) (a : app_row) : Prop :=
  if String.eqb (default "" (qr_prev_id q)) "" then is_Some (ar_deleted a)
  else ar_id a = default "" (qr_prev_id q) /\ ar_state a = default "" (qr_prev_state q) /\ ar_deleted a = None.

Definition finished (q : request_row) (outcome response at_ : string) : request_row :=
  RequestRow (qr_app q) (qr_id q) outcome (qr_requested q) (qr_prev_id q) (qr_prev_state q) (qr_report q)
    (Some response) (qr_created q) at_.

(** The app row of the new table: an applied candidate becomes the active app. *)
Definition final_apps (outcome requested image at_ : string) (a : app_row) (apps : gmap string app_row) : gmap string app_row :=
  if String.eqb outcome "applied"
  then <[ar_id a := AppRow (ar_id a) (ar_name a) image requested (ar_created a) at_ None]> apps else apps.

Definition final_deployment (outcome at_ : string) (x : deployment_row) : deployment_row :=
  if String.eqb outcome "applied" then DeploymentRow (dr_id x) (dr_app_id x) "healthy" None (dr_created x) at_
  else DeploymentRow (dr_id x) (dr_app_id x) "failed" (Some withdrawn_reason) (dr_created x) at_.

Definition no_route (appID : string) (routes : gmap string route_row) : gmap string route_row :=
  filter (fun kv => rr_app_id kv.2 <> appID) routes.

(** The routes: an applied candidate owns exactly the route it asks for; a
    withdrawn first attempt owns none; a withdrawn update keeps the route. *)
Definition final_routes (outcome : string) (first : bool) (cfg : Config) (appID : string) (old new : gmap string route_row) : Prop :=
  if String.eqb outcome "applied" then
    if String.eqb (Routing_Domain (Cfg_Routing cfg)) "" then new = no_route appID old
    else exists r, new !! rr_id r = Some r /\ rr_app_id r = appID /\ rr_domain r = Routing_Domain (Cfg_Routing cfg) /\
           rr_port r = Service_Port (Cfg_Service cfg) /\ (forall k, k <> rr_id r -> new !! k = old !! k)
  else if first then new = no_route appID old else new = old.

Section effects.
Context `{AppEnv} {K : Type}.

Inductive finalizes (app id outcome gate : string) (now : Z) (d : Db) : Db -> string -> Prop :=
| Finalizes q b c a x cfg routes response :
    t_requests d !! (app, id) = Some q -> qr_state q = "pending" ->
    t_bindings d !! (app, id) = Some b ->
    t_checkpoints d !! (app, id) = Some c ->
    cr_stage c = (if String.eqb outcome "withdrawn" then "withdrawn" else "activated") -> cr_gate c = gate ->
    FromJSON (qr_requested q) = Ok cfg -> Validate cfg = Ok tt -> Cfg_Name cfg = app ->
    t_apps d !! br_app_id b = Some a -> predecessor_unchanged q a ->
    t_deployments d !! br_deployment_id b = Some x -> dr_status x = "pending" ->
    final_routes outcome (String.eqb (default "" (qr_prev_id q)) "") cfg (br_app_id b) (t_routes d) routes ->
    finalizes app id outcome gate now d
      (MkDb (final_apps outcome (qr_requested q) (Cfg_Image cfg) (formatTime now) a (t_apps d))
         (<[br_deployment_id b := final_deployment outcome (formatTime now) x]> (t_deployments d))
         routes (<[(app, id) := finished q outcome response (formatTime now)]> (t_requests d))
         (t_bindings d) (t_checkpoints d) (t_withdrawals d)) response.

(** The writes one after the other. *)
Lemma upsert_route_effect r d d' n :
  db_inv d -> upsert_route r d = Ok (d', n) ->
  exists r', d' = set_routes <[rr_id r' := r']> d /\ rr_app_id r' = rr_app_id r /\ rr_domain r' = rr_domain r /\ rr_port r' = rr_port r.
Proof.
  intros Hi Hx. unfold upsert_route in Hx. destruct (route_of_app (rr_app_id r) d) as [old|] eqn:Ho.
  - apply route_of_app_Some in Ho as [Ho _]. apply check_bind in Hx as [_ Hx]. injection Hx as <- _.
    eexists (RouteRow (rr_id old) (rr_app_id old) (rr_domain r) (rr_port r) _ _ _ _). done.
  - apply insert_route_inv in Hx as [-> _]. by exists r.
Qed.

Lemma update_app_effect id f d d' n :
  update_app id f d = Ok (d', n) -> n <> 0 -> exists a, t_apps d !! id = Some a /\ d' = set_apps <[id := f a]> d.
Proof. unfold update_app. case_match; intros [= <- <-] ?; [by eexists|done]. Qed.

Lemma update_deployment_effect id w f d d' n :
  update_deployment id w f d = Ok (d', n) -> n <> 0 ->
  exists x, t_deployments d !! id = Some x /\ d' = set_deployments <[id := f x]> d.
Proof. unfold update_deployment. repeat case_match; intros [= <- <-] ?; naive_solver. Qed.

(** Deployment status, receipt and commit, exactly. *)
Lemma finalize_receipt_effect app id outcome requested appID depID a dep status reason now d wk q :
  t_requests wk !! (app, id) = Some q ->
  wp (finalize_receipt app id outcome requested appID depID a dep status reason now) d wk (fun r d' _ =>
    (d' = d /\ is_err r = true) \/ exists x response, t_deployments wk !! depID = Some x /\
      (forall s, r = Ok s -> s = response) /\
      d' = set_requests <[(app, id) := finished q outcome response (formatTime now)]>
             (set_deployments <[depID := DeploymentRow (dr_id x) (dr_app_id x) status (optionalString reason) (dr_created x) (formatTime now)]> wk)).
Proof.
  intros Hq. unfold finalize_receipt. cbv zeta. apply wp_bind, wp_affected; [by left|]. intros d1 n1 E1 N1.
  apply update_deployment_effect in E1 as (x & Hx & ->); [|done].
  apply wp_bind, wp_lift. case_match; [|by left]. apply wp_bind, wp_affected; [by left|]. intros d2 n2 E2 N2.
  apply finish_request_inv in E2 as [[-> ->]|(_ & q0 & Hq0 & _ & _ & _ & _ & ->)]; [done|].
  cbn in Hq0. assert (q0 = q) as -> by congruence.
  apply wp_bind, wp_commit; [by left|right; eexists x, _; split; [done|]; by split|]. apply wp_ret. right.
  eexists x, _. split; [done|]. split; [|done]. by intros s [= <-].
Qed.

Lemma finalize_applied_effect app id requested aid cfg a0 tls now d :
  db_inv d ->
  wp (finalize_applied app id requested aid cfg a0 tls now) d d (fun r d' wk' => d' = d /\ forall x, r = Ok x ->
    exists a routes, t_apps d !! aid = Some a /\ final_routes "applied" false cfg aid (t_routes d) routes /\
      wk' = set_routes (fun _ => routes) (set_apps (final_apps "applied" requested (Cfg_Image cfg) (formatTime now) a) d)).
Proof.
  intros Hi. unfold finalize_applied. cbv zeta. apply wp_bind, wp_affected; [done|]. intros d1 n1 E1 N1.
  assert (Hi1 : db_inv d1) by (eapply update_app_safe; [exact Hi| |exact E1]; done).
  apply update_app_effect in E1 as (a & Ha & ->); [|done]. pose proof (inv_app_key _ Hi _ _ Ha) as Hk.
  unfold final_routes, final_apps. cbn [String.eqb Ascii.eqb Bool.eqb].
  apply wp_bind. destruct (String.eqb (Routing_Domain _) "") eqn:Hd; (apply wp_exec; [done|]); intros d2 n2 E2;
    apply wp_ret; (split; [done|]); intros _ _.
  - injection E2 as <- _. exists a, (no_route aid (t_routes d)). rewrite Hk. done.
  - apply upsert_route_effect in E2 as (r & -> & R1 & R2 & R3); [|done].
    exists a, (<[rr_id r := r]> (t_routes d)). rewrite Hk. split; [done|]. split; [|done].
    exists r. rewrite lookup_insert_eq. do 4 (split; [done|]). intros k Hne. by rewrite lookup_insert_ne.
Qed.

Lemma scanApp_fields r a : scanApp r = Ok a ->
  App_ID a = ar_id r /\ App_Name a = ar_name r /\ App_DesiredStateJSON a = ar_state r /\
  (App_DeletedAt a = None -> ar_deleted r = None) /\ (is_Some (App_DeletedAt a) -> is_Some (ar_deleted r)).
Proof.
  unfold scanApp. intros (t1 & _ & (t2 & _ & (t3 & H3 & [= <-])%bind_ok)%bind_ok)%bind_ok. cbn.
  do 3 (split; [done|]). unfold parseOptionalStoredTime in H3. destruct (ar_deleted r); [|injection H3 as <-; done].
  split; [|done]. intros ->. apply bind_ok in H3 as (? & _ & [=]).
Qed.

Lemma scanDeployment_fields r x : scanDeployment r = Ok x ->
  Deployment_ID x = dr_id r /\ Deployment_AppID x = dr_app_id r /\ Deployment_Status x = dr_status r.
Proof. unfold scanDeployment. by intros (t1 & _ & (t2 & _ & [= <-])%bind_ok)%bind_ok. Qed.

Lemma app_matches_row r a app q :
  scanApp r = Ok a -> app_matches a app (default "" (qr_prev_id q)) (default "" (qr_prev_state q)) = true ->
  predecessor_unchanged q r.
Proof.
  intros (E1 & E2 & E3 & E4 & E5)%scanApp_fields Hm. unfold app_matches in Hm. unfold predecessor_unchanged.
  bools. case_match; bools; [auto|]. rewrite <- E1, <- E3. split; [by apply String.eqb_eq|]. split; [by apply String.eqb_eq|auto].
Qed.

(** What holds after [Finalize]: refused or cut short without effect, or finalized. *)
Definition finalize_post (app id outcome gate : string) (now : Z) (d : Db) (r : result string) (d' : Db) : Prop :=
  (d' = d \/ exists s, finalizes app id outcome gate now d d' s) /\
  forall s, r = Ok s -> exists q, t_requests d' !! (app, id) = Some q /\ qr_state q = outcome /\ qr_response q = Some s.

Lemma finalize_post_refused app id outcome gate now d e : finalize_post app id outcome gate now d (Err e) d.
Proof. split; [by left|done]. Qed.

(** The writes, once the guards hold. *)
Lemma finalize_writes app id outcome gate tls now d q b c a x cfg appv dep :
  db_inv d -> t_requests d !! (app, id) = Some q -> qr_state q = "pending" -> t_bindings d !! (app, id) = Some b ->
  t_checkpoints d !! (app, id) = Some c ->
  cr_stage c = (if String.eqb outcome "withdrawn" then "withdrawn" else "activated") -> cr_gate c = gate ->
  FromJSON (qr_requested q) = Ok cfg -> Validate cfg = Ok tt -> Cfg_Name cfg = app ->
  t_apps d !! br_app_id b = Some a -> predecessor_unchanged q a ->
  t_deployments d !! br_deployment_id b = Some x -> dr_status x = "pending" ->
  wp (if String.eqb outcome "applied" then
        app' ← finalize_applied app id (qr_requested q) (br_app_id b) cfg appv tls now;
        finalize_receipt app id outcome (qr_requested q) (br_app_id b) (br_deployment_id b) app' dep "healthy" "" now
      else
        _ ← finalize_withdrawn (br_app_id b) (default "" (qr_prev_id q));
        finalize_receipt app id outcome (qr_requested q) (br_app_id b) (br_deployment_id b) appv dep "failed" withdrawn_reason now)
    d d (fun r d' _ => finalize_post app id outcome gate now d r d').
Proof.
  intros Hi Hq Hp Hb Hc Hst Hg Hcfg Hval Hnm Ha Hpre Hx Hxs.
  assert (Hend : forall r d' d2 x2 response routes,
    final_routes outcome (String.eqb (default "" (qr_prev_id q)) "") cfg (br_app_id b) (t_routes d) routes ->
    d2 = set_routes (fun _ => routes) (set_apps (final_apps outcome (qr_requested q) (Cfg_Image cfg) (formatTime now) a) d) ->
    (forall s, r = Ok s -> s = response) -> x2 = final_deployment outcome (formatTime now) x ->
    d' = set_requests <[(app, id) := finished q outcome response (formatTime now)]> (set_deployments <[br_deployment_id b := x2]> d2) ->
    finalize_post app id outcome gate now d r d').
  { intros r d' d2 x2 response routes Hr -> Hs -> ->. split.
    - right. exists response.
      exact (Finalizes app id outcome gate now d q b c a x cfg routes response Hq Hp Hb Hc Hst Hg Hcfg Hval Hnm Ha Hpre Hx Hxs Hr).
    - intros s ->. rewrite (Hs s eq_refl). eexists. cbn. by rewrite lookup_insert_eq. }
  destruct (String.eqb outcome "applied") eqn:Ho.
  - apply String.eqb_eq in Ho as ->. apply wp_bind. eapply wp_mono; [by apply finalize_applied_effect|].
    intros [app'|e] d' wk' [-> Hok]; [|apply finalize_post_refused].
    destruct (Hok app' eq_refl) as (a' & routes & Ha' & Hr & ->). assert (a' = a) as -> by congruence.
    eapply wp_mono; [by apply (finalize_receipt_effect _ _ _ _ _ _ _ _ _ _ _ _ _ q)|].
    intros r d' _ [[-> Herr]|(x' & response & Hx' & Hs & Hd')]; [destruct r; [done|apply finalize_post_refused]|].
    cbn in Hx'. assert (x' = x) as -> by congruence. eapply Hend; [exact Hr|reflexivity|exact Hs|reflexivity|exact Hd'].
  - apply wp_bind. eapply wp_mono with (Q := fun r d' wk' => d' = d /\ forall u, r = Ok u ->
      exists routes, final_routes outcome (String.eqb (default "" (qr_prev_id q)) "") cfg (br_app_id b) (t_routes d) routes /\
        wk' = set_routes (fun _ => routes) d).
    { unfold finalize_withdrawn, final_routes. rewrite Ho. destruct (String.eqb (default "" (qr_prev_id q)) "").
      - apply wp_bind, wp_exec; [done|]. intros d1 n1 [= <- _]. apply wp_ret. split; [done|]. intros _ _. by eexists.
      - apply wp_ret. split; [done|]. intros _ _. exists (t_routes d). by destruct d. }
    intros [u|e] d' wk' [-> Hok]; [|apply finalize_post_refused]. destruct (Hok u eq_refl) as (routes & Hr & ->).
    eapply wp_mono; [by apply (finalize_receipt_effect _ _ _ _ _ _ _ _ _ _ _ _ _ q)|].
    intros r d' _ [[-> Herr]|(x' & response & Hx' & Hs & Hd')]; [destruct r; [done|apply finalize_post_refused]|].
    cbn in Hx'. assert (x' = x) as -> by congruence.
    eapply Hend; [exact Hr| |exact Hs| |exact Hd']; unfold final_apps, final_deployment; rewrite Ho; by destruct d.
Qed.

Ltac refused := apply finalize_post_refused.

Lemma finalize_tx_effect app id outcome gate tls now d :
  db_inv d -> wp (finalize_tx app id outcome gate tls now) d d (fun r d' _ => finalize_post app id outcome gate now d r d').
Proof.
  intros Hi. unfold finalize_tx. apply wp_bind, wp_query; [refused|].
  destruct (t_requests d !! (app, id)) as [q|] eqn:Hq; [|apply wp_throw; refused].
  destruct (t_bindings d !! (app, id)) as [b|] eqn:Hb; [|apply wp_throw; refused].
  destruct (negb (String.eqb (qr_state q) "pending")) eqn:Hp.
  { destruct (qr_response q) as [response|] eqn:Hrsp; [|apply wp_throw; refused].
    case_match; [|apply wp_throw; refused]. apply wp_ret. split; [by left|]. intros s [= <-].
    exists q. bools. split; [done|]. split; [by apply String.eqb_eq|done]. }
  unfold finalize_pending. cbv zeta. apply wp_bind, wp_query; [refused|].
  destruct (t_checkpoints d !! (app, id)) as [c|] eqn:Hc; [|apply wp_throw; refused].
  apply wp_bind, wp_guard; intros G1; [refused|]. apply wp_bind, wp_guard; intros G2; [refused|].
  apply wp_bind, wp_lift. destruct (FromJSON (qr_requested q)) as [cfg|] eqn:Hcfg; [|refused].
  apply wp_bind, wp_lift. destruct (Validate cfg) as [[]|] eqn:Hval; [|refused].
  apply wp_bind, wp_guard; intros G3; [refused|]. apply wp_bind, wp_query; [refused|]. apply wp_bind, wp_lift.
  destruct (t_apps d !! br_app_id b) as [a|] eqn:Ha; [|refused].
  destruct (scanApp a) as [appv|] eqn:Hscan; [|refused].
  apply wp_bind, wp_guard; intros G4; [refused|]. apply wp_bind, wp_query; [refused|]. apply wp_bind, wp_lift.
  destruct (t_deployments d !! br_deployment_id b) as [x|] eqn:Hx; [|refused].
  destruct (scanDeployment x) as [xv|] eqn:Hxscan; [|refused].
  apply wp_bind, wp_guard; intros G5; [refused|]. bools.
  pose proof (scanDeployment_fields _ _ Hxscan) as (_ & _ & Hxs).
  eapply finalize_writes; eauto using app_matches_row; try (by apply String.eqb_eq). rewrite <- Hxs. by apply String.eqb_eq.
Qed.

Lemma finalize_effect app id outcome gate tls now (w : world K) r w' :
  db_inv (w_db w) -> CandidateFinalizationRepository_Finalize app id outcome gate tls now w = (r, w') ->
  finalize_post app id outcome gate now (w_db w) r (w_db w') /\ w_k w' = w_k w.
Proof.
  intros Hi Hf. unfold CandidateFinalizationRepository_Finalize in Hf.
  apply st_bind_inv in Hf as [(e & [= _ <-] & ->)|(u & w1 & [= _ <-] & Hf)]; [split; [apply finalize_post_refused|done]|].
  apply (in_tx_wp _ w (finalize_post app id outcome gate now (w_db w))) in Hf; [exact Hf|apply finalize_post_refused|].
  by apply finalize_tx_effect.
Qed.

(** ** beginCandidate *)

Definition request_key (req : DeployRequest) : string * string := (Req_AppName req, Req_RequestID req).

(** The request row of a new candidate: pending, with the active app it replaces. *)
Definition begun_request (req : DeployRequest) (previous : option app_row) (at_ : string) : request_row :=
  RequestRow (Req_AppName req) (Req_RequestID req) "pending" (Req_RequestedState req) (ar_id <$> previous)
    (ar_state <$> previous) (boolToInt (Req_ReportWithdrawal req)) None at_ at_.

Definition provisional_app (req : DeployRequest) (cfg : Config) (id at_ : string) : app_row :=
  AppRow id (Req_AppName req) (Cfg_Image cfg) (Req_RequestedState req) at_ at_ (Some at_).

(** The app the candidate is bound to: the row of that name, or a new provisional
    (deleted) row. *)
Definition begun_app (req : DeployRequest) (cfg : Config) (proposed at_ : string) (d : Db) (appID : string)
    (apps : gmap string app_row) : Prop :=
  match app_by_name (Req_AppName req) d with
  | Some a => appID = ar_id a /\ apps = t_apps d
  | None => appID = proposed /\ apps = <[proposed := provisional_app req cfg proposed at_]> (t_apps d) /\
            t_apps d !! proposed = None
  end.

(** No route of another app and no pending request of another app has the domain. *)
Definition domain_free_for (app : string) (cfg : Config) (d : Db) : Prop :=
  Routing_Domain (Cfg_Routing cfg) = "" \/
  domain_owned_elsewhere (Routing_Domain (Cfg_Routing cfg)) app d = false /\
  existsb (claims_domain (Routing_Domain (Cfg_Routing cfg))) (other_pending app d) = false.

Inductive begins (req : DeployRequest) (cfg : Config) (proposed depID : string) (now : Z) (withdrawal : bool) (d : Db)
    : Db -> CandidateBinding -> Prop :=
| Begins appID apps :
    t_requests d !! request_key req = None -> t_bindings d !! request_key req = None ->
    pending_of_app (Req_AppName req) d = None -> t_deployments d !! depID = None ->
    begun_app req cfg proposed (formatTime now) d appID apps ->
    (withdrawal = false -> domain_free_for (Req_AppName req) cfg d) ->
    begins req cfg proposed depID now withdrawal d
      (MkDb apps (<[depID := DeploymentRow depID appID "pending" None (formatTime now) (formatTime now)]> (t_deployments d))
         (t_routes d)
         (<[request_key req := begun_request req (active_app (Req_AppName req) d) (formatTime now)]> (t_requests d))
         (<[request_key req := BindingRow (Req_AppName req) (Req_RequestID req) appID depID (formatTime now)]> (t_bindings d))
         (t_checkpoints d)
         (if withdrawal then <[request_key req := WithdrawalRow (Req_AppName req) (Req_RequestID req) (formatTime now)]> (t_withdrawals d)
          else t_withdrawals d))
      (MkCandidateBinding (Req_AppName req) (Req_RequestID req) appID depID now).

Definition begin_post (req : DeployRequest) (cfg : Config) (proposed depID : string) (now : Z) (withdrawal : bool)
    (d : Db) (r : result (CandidateBinding * bool)) (d' : Db) : Prop :=
  (d' = d /\ is_err r = true) \/
  (exists b, begins req cfg proposed depID now withdrawal d d' b /\ forall x, r = Ok x -> x = (b, true)).

Lemma begin_post_refused req cfg proposed depID now withdrawal d e : begin_post req cfg proposed depID now withdrawal d (Err e) d.
Proof. by left. Qed.

(** Which app the inserts bind to. *)
Lemma begin_app_effect req cfg proposed now d d1 :
  t_apps d1 = t_apps d -> db_inv d ->
  wp (match app_by_name (Req_AppName req) d with
      | Some a => if String.eqb (ar_id a) "" then
                    match active_app (Req_AppName req) d with
                    | Some p => mret (ar_id p)
                    | None => _ ← tx_exec (insert_app (provisional_app req cfg proposed (formatTime now))); mret proposed
                    end
                  else mret (ar_id a)
      | None => match active_app (Req_AppName req) d with
                | Some p => mret (ar_id p)
                | None => _ ← tx_exec (insert_app (provisional_app req cfg proposed (formatTime now))); mret proposed
                end
      end) d d1 (fun r d' wk' => d' = d /\ forall id, r = Ok id ->
        exists apps, begun_app req cfg proposed (formatTime now) d id apps /\ wk' = set_apps (fun _ => apps) d1).
Proof.
  intros Happs Hi. unfold begun_app. assert (Hsame : d1 = set_apps (fun _ => t_apps d) d1) by (rewrite <- Happs; by destruct d1).
  destruct (app_by_name (Req_AppName req) d) as [a|] eqn:Ha.
  - apply app_by_name_Some in Ha as [Ha Hn]; [|done].
    destruct (String.eqb (ar_id a) ""); [|apply wp_ret; split; [done|]; intros id [= <-]; by exists (t_apps d)].
    destruct (active_app (Req_AppName req) d) as [p|] eqn:Hp.
    + apply active_app_Some in Hp as (Hp & Hpn & _); [|done]. apply wp_ret. split; [done|]. intros id [= <-].
      exists (t_apps d). split; [|done]. split; [|done]. eapply inv_app_name; [exact Hi|exact Hp|exact Ha|congruence].
    + apply wp_bind, wp_exec; [done|]. intros d2 n2 (_ & _ & Hu)%insert_app_inv. exfalso. rewrite Happs in Hu. by eapply Hu.
  - destruct (active_app (Req_AppName req) d) as [p|] eqn:Hp.
    { apply active_app_Some in Hp as (Hp & Hpn & _); [|done]. exfalso. unfold app_by_name in Ha. rewrite select1_None in Ha.
      specialize (Ha _ _ Hp). by apply String.eqb_neq in Ha. }
    apply wp_bind, wp_exec; [done|]. intros d2 n2 (-> & Hf & _)%insert_app_inv. apply wp_ret. split; [done|]. intros id [= <-].
    rewrite Happs in Hf. eexists. split; [split; [done|]; by split|]. unfold set_apps. cbn. by rewrite Happs.
Qed.

Ltac begin_refused := apply begin_post_refused.

Lemma begin_inserts_effect req cfg proposed depID now withdrawal d :
  db_inv d -> t_bindings d !! request_key req = None -> pending_of_app (Req_AppName req) d = None ->
  (withdrawal = false -> domain_free_for (Req_AppName req) cfg d) ->
  wp (begin_inserts req cfg (active_app (Req_AppName req) d) (app_by_name (Req_AppName req) d) proposed depID now withdrawal) d d
    (fun r d' _ => begin_post req cfg proposed depID now withdrawal d r d').
Proof.
  intros Hi Hb Hp Hdom. unfold begin_inserts. cbv zeta.
  apply wp_bind, wp_map_err, wp_exec; [intros; begin_refused|]. intros d1 n1 (-> & Hq & _)%insert_request_inv.
  apply wp_bind. eapply wp_mono; [by apply begin_app_effect|].
  intros [appID|e] d' wk' [-> Hok]; [|begin_refused]. destruct (Hok appID eq_refl) as (apps & Happ & ->).
  apply wp_bind, wp_exec; [intros; begin_refused|]. intros d3 n3 (-> & Hd3)%insert_deployment_inv.
  apply wp_bind, wp_exec; [intros; begin_refused|]. intros d4 n4 [_ [= <- <-]]%check_bind.
  pose proof (Begins req cfg proposed depID now withdrawal d appID apps Hq Hb Hp Hd3 Happ Hdom) as HB.
  apply wp_bind. destruct withdrawal.
  - apply wp_bind, wp_exec; [intros; begin_refused|]. intros d5 n5 [_ [= <- <-]]%check_bind. apply wp_ret.
    apply wp_bind, wp_commit; [begin_refused|right; eexists; by split|]. apply wp_ret. right. eexists. split; [exact HB|].
    by intros x [= <-].
  - apply wp_ret. apply wp_bind, wp_commit; [begin_refused|right; eexists; by split|]. apply wp_ret. right. eexists.
    split; [exact HB|]. by intros x [= <-].
Qed.

Lemma admission_effect app cfg d :
  wp (validateCandidateDomainAdmission app cfg) d d (fun r d' wk' => d' = d /\ wk' = d /\ (is_ok r = true -> domain_free_for app cfg d)).
Proof.
  unfold validateCandidateDomainAdmission, domain_free_for. cbv zeta. destruct (String.eqb _ "") eqn:Hd.
  { apply String.eqb_eq in Hd. apply wp_ret. auto. }
  apply wp_bind, wp_query; [done|]. apply wp_bind, wp_guard; intros G1; [done|].
  apply wp_bind, wp_query; [done|]. apply wp_guard; intros G2; [done|]. auto.
Qed.

Lemma begin_new_effect req cfg proposed depID now withdrawal d :
  db_inv d -> t_bindings d !! request_key req = None ->
  wp (begin_new req cfg proposed depID now withdrawal) d d (fun r d' _ => begin_post req cfg proposed depID now withdrawal d r d').
Proof.
  intros Hi Hb. unfold begin_new. cbv zeta. apply wp_bind, wp_query; [begin_refused|].
  apply wp_bind, wp_guard; intros G1; [begin_refused|]. apply wp_bind, wp_query; [begin_refused|].
  apply wp_bind, wp_guard; intros G2; [begin_refused|]. do 2 (apply wp_bind, wp_query; [begin_refused|]).
  do 2 (apply wp_bind, wp_guard; intros ?; [begin_refused|]).
  apply wp_bind. eapply wp_mono with (Q := fun r d' wk' => d' = d /\ wk' = d /\
    (is_ok r = true -> withdrawal = false -> domain_free_for (Req_AppName req) cfg d)).
  { destruct withdrawal; [by apply wp_ret|]. eapply wp_mono; [apply admission_effect|]. naive_solver. }
  intros [u|e] d' wk' (-> & -> & Hdom); [|begin_refused]. apply wp_bind, predecessor_reads. intros [u'|e]; [|begin_refused].
  apply begin_inserts_effect; auto. bools. by apply eq_None_not_Some.
Qed.

(** A request that is already bound: nothing, or the withdrawal decision. *)
Lemma begin_existing_effect req b now withdrawal d :
  wp (begin_existing req b now withdrawal) d d (fun r d' _ =>
    (d' = d \/ withdrawal = true /\ t_withdrawals d !! request_key req = None /\
       (exists q, t_requests d !! request_key req = Some q /\ qr_state q = "pending") /\
       d' = set_withdrawals <[request_key req := WithdrawalRow (Req_AppName req) (Req_RequestID req) (formatTime now)]> d) /\
    forall x, r = Ok x -> x.2 = false /\ scanBinding b = Ok x.1 /\
      exists q, t_requests d !! request_key req = Some q /\ qr_requested q = Req_RequestedState req).
Proof.
  unfold begin_existing, request_key. cbv zeta. apply wp_bind, wp_query; [by split; [left|]|].
  destruct (t_requests d !! _) as [q|] eqn:Hq; [|apply wp_throw; by split; [left|]].
  apply wp_bind, wp_guard; intros G; [by split; [left|]|]. bools. apply String.eqb_eq in H0.
  apply wp_bind, wp_lift. destruct (scanBinding b) as [v|] eqn:Hv; [|by split; [left|]].
  assert (Hret : forall x, Ok (v, false) = Ok x -> x.2 = false /\ Ok v = Ok x.1 /\
    exists q', Some q = Some q' /\ qr_requested q' = Req_RequestedState req) by (intros x [= <-]; eauto).
  destruct withdrawal; [|apply wp_ret; split; [by left|exact Hret]].
  apply wp_bind, wp_exec; [by split; [left|]|]. intros d1 n1 Hx. apply insert_withdrawal_if_pending_inv in Hx.
  assert (Hd : d1 = d \/ true = true /\ t_withdrawals d !! (Req_AppName req, Req_RequestID req) = None /\
    (exists q', Some q = Some q' /\ qr_state q' = "pending") /\
    d1 = set_withdrawals <[(Req_AppName req, Req_RequestID req) := WithdrawalRow (Req_AppName req) (Req_RequestID req) (formatTime now)]> d).
  { destruct Hx as [->|(Hp & Hn & ->)]; [by left|right]. rewrite Hq in Hp. auto. }
  apply wp_bind, wp_commit; [by split; [left|]|by split|]. apply wp_ret. by split.
Qed.

(** ** Checkpoints *)

(** The effect of a saved intent: a new checkpoint at stage prepared. *)
Lemma save_intent_effect app id intent now (w : world K) r w' :
  RuntimeCheckpointRepository_SaveActivationIntent app id intent now w = (r, w') ->
  w_k w' = w_k w /\
  ((w_db w' = w_db w /\ (is_ok r = true -> exists c, t_checkpoints (w_db w) !! (app, id) = Some c /\ cr_intent c = intent)) \/
   (exists q, t_requests (w_db w) !! (app, id) = Some q /\ qr_state q = "pending" /\ t_checkpoints (w_db w) !! (app, id) = None /\
      w_db w' = set_checkpoints <[(app, id) := CheckpointRow app id "prepared" intent "{}" (formatTime now) (formatTime now)]> (w_db w))).
Proof.
  intros Hf. unfold RuntimeCheckpointRepository_SaveActivationIntent in Hf.
  apply st_bind_inv in Hf as [(e & [= _ <-] & ->)|(u & w1 & [= _ <-] & Hf)]; [by split; [|left]|].
  apply st_bind_inv in Hf as [(e & [= _ <-] & ->)|(u' & w1 & [= _ <-] & Hf)]; [by split; [|left]|].
  apply (in_tx_wp _ w (fun r d' => (d' = w_db w /\ (is_ok r = true -> exists c, t_checkpoints (w_db w) !! (app, id) = Some c /\ cr_intent c = intent)) \/
   (exists q, t_requests (w_db w) !! (app, id) = Some q /\ qr_state q = "pending" /\ t_checkpoints (w_db w) !! (app, id) = None /\
      d' = set_checkpoints <[(app, id) := CheckpointRow app id "prepared" intent "{}" (formatTime now) (formatTime now)]> (w_db w)))) in Hf
    as [Hp Hk]; [done|by left|].
  unfold save_intent_tx. apply wp_bind, wp_query; [by left|].
  destruct (t_requests (w_db w) !! (app, id)) as [q|]; [|apply wp_throw; by left].
  apply wp_bind, wp_guard; intros G; [by left|]. apply wp_bind, wp_query; [by left|].
  destruct (t_checkpoints (w_db w) !! (app, id)) as [c|] eqn:Hc.
  - apply wp_guard; intros G2; [by left|]. left. split; [done|]. intros _. exists c. bools. split; [done|by apply String.eqb_eq].
  - apply wp_bind, wp_exec; [by left|]. intros d1 n1 [_ [_ [= <- _]]%check_bind]%check_bind. bools. apply String.eqb_eq in G.
    apply wp_commit; [by left|right; by exists q|right; by exists q].
Qed.

(** The effect of a recorded gate: the stage moves, the gate is stored. *)
Lemma record_gate_effect app id expected next gate now (w : world K) r w' :
  RuntimeCheckpointRepository_RecordActivationGate app id expected next gate now w = (r, w') ->
  w_k w' = w_k w /\
  ((w_db w' = w_db w /\ is_err r = true) \/
   (exists q c, t_requests (w_db w) !! (app, id) = Some q /\ qr_state q = "pending" /\
     t_checkpoints (w_db w) !! (app, id) = Some c /\ cr_stage c = expected /\ validCheckpointTransition expected next = true /\
     validateCheckpointIdentity app id = Ok tt /\
     w_db w' = set_checkpoints <[(app, id) := CheckpointRow (cr_app c) (cr_request c) next (cr_intent c) gate (cr_created c)
                 (formatTime now)]> (w_db w))).
Proof.
  intros Hf. unfold RuntimeCheckpointRepository_RecordActivationGate in Hf.
  apply st_bind_inv in Hf as [(e & [= _ <-] & ->)|([] & w1 & [= Hid <-] & Hf)]; [by split; [|left]|].
  apply st_bind_inv in Hf as [(e & [= _ <-] & ->)|(u' & w1 & [= _ <-] & Hf)]; [by split; [|left]|].
  apply (in_tx_wp _ w (fun r d' => (d' = w_db w /\ is_err r = true) \/
    exists q c, t_requests (w_db w) !! (app, id) = Some q /\ qr_state q = "pending" /\
     t_checkpoints (w_db w) !! (app, id) = Some c /\ cr_stage c = expected /\ validCheckpointTransition expected next = true /\
     validateCheckpointIdentity app id = Ok tt /\
     d' = set_checkpoints <[(app, id) := CheckpointRow (cr_app c) (cr_request c) next (cr_intent c) gate (cr_created c)
                 (formatTime now)]> (w_db w))) in Hf as [Hp Hk]; [done|by left|].
  unfold record_gate_tx. apply wp_bind, wp_query; [by left|].
  destruct (t_requests (w_db w) !! (app, id)) as [q|]; [|apply wp_throw; by left].
  destruct (t_checkpoints (w_db w) !! (app, id)) as [c|] eqn:Hc; [|apply wp_throw; by left].
  do 3 (apply wp_bind, wp_guard; intros ?; [by left|]). apply wp_bind, wp_exec; [by left|].
  intros d1 n1 [[-> ->]|(-> & c0 & Hc0 & Hst & _ & ->)]%update_checkpoint_inv; [apply wp_bind, wp_guard; [by left|done]|].
  apply wp_bind, wp_guard; intros ?; [by left|]. assert (c0 = c) as -> by congruence. bools.
  assert (qr_state q = "pending") by (by apply String.eqb_eq).
  apply wp_commit; [by left|right; by exists q, c|right; by exists q, c].
Qed.
End effects.
