(* ===== verification/DbLifecycle.v ===== *)
(** * The journal of a request, from begin to receipt (internal/db)

    The properties of the candidate transactions, and a concrete run of the
    repositories that instantiates the theorems about reachable databases. *)

From S2P Require Import Prelude GoStrings Regexp GoJson GoTime Appconfig AppconfigSpec Db DbRepos DbCandidates DbInv DbSteps DbProps DbEffects.
From Stdlib Require Import Ascii String.
Local Open Scope Z_scope.

(** ** A concrete run without faults *)

Definition run_ops `{AppEnv} (ops : list write_op) (d : Db) : Db :=
  fold_left (fun d op => w_db (run_op op (World d [] tt)).2) ops d.

Lemma run_ops_steps `{AppEnv} ops d : steps db_step d (run_ops ops d).
Proof.
  unfold run_ops. assert (Hg : forall d0, steps db_step d0 d -> steps db_step d0
    (fold_left (fun d op => w_db (run_op op (World d [] tt)).2) ops d)); [|apply Hg; constructor].
  revert d. induction ops as [|op ops IH]; intros d d0 Hs; [done|]. cbn. apply IH.
  eapply steps_step; [exact Hs|]. constructor.
Qed.

Definition shop_state : string :=
  match Config_JSON (sample_config "shop" "registry.example.com/shop:v1" "") with Ok s => s | Err _ => "" end.
Definition shop_id : string := "0123456789abcdef0123456789abcdef0123456789abcdef0123456789abcdef".
Definition shop_request : DeployRequest :=
  MkDeployRequest "shop" shop_id "pending" shop_state "" "" false "" 0 0.
Definition noon : Z := 63_000_000_000 * Second.
Definition shop_intent : string :=
  json_print (JObj [("app_name", JStr "shop"); ("request_id", JStr shop_id); ("requested_state", JStr shop_state)]).

Definition shop_begin : write_op := OpBegin shop_request "app-1" "dep-1" noon.
Definition shop_prepared : list write_op := [shop_begin; OpSaveIntent "shop" shop_id shop_intent noon].
Definition shop_activated : list write_op :=
  [OpRecordGate "shop" shop_id "prepared" "fenced" "{}" noon; OpRecordGate "shop" shop_id "fenced" "activated" "{}" noon].
Definition shop_applied : write_op := OpFinalize "shop" shop_id "applied" "{}" false noon.

(** ** Properties of the transactions *)

Section lifecycle.
Context `{AppEnv} {K : Type}.

(** C2: [Finalize] is all or nothing.  Under any schedule of driver faults, the
    committed database is unchanged, or the pending request had reached the
    stage and the gate the outcome needs and the app, deployment, route and
    receipt are written together; a reply without error is the stored receipt. *)
Theorem finalize_atomic app id outcome gate tls now (w : world K) r w' :
  db_inv (w_db w) -> CandidateFinalizationRepository_Finalize app id outcome gate tls now w = (r, w') ->
  (w_db w' = w_db w \/ exists s, finalizes app id outcome gate now (w_db w) (w_db w') s) /\
  (forall s, r = Ok s -> exists q, t_requests (w_db w') !! (app, id) = Some q /\ qr_state q = outcome /\ qr_response q = Some s).
Proof.
  intros Hi Hf. by destruct (finalize_effect _ _ _ _ _ _ _ _ _ Hi Hf) as [Hp _].
Qed.

Lemma run_in_tx {A} (body : TX A) d (k : K) :
  in_tx body (World d [] k) = (let '(r, t) := body (Txs d d []) in (r, World (tx_base t) (tx_faults t) k)).
Proof. reflexivity. Qed.

(** A repeated [Finalize] of a finished request answers from the receipt: the
    same outcome returns the stored response, the other outcome is refused as a
    conflict, and nothing is written. *)
Theorem finalize_replay app id outcome other gate tls now d (k : K) q response :
  db_inv d -> app <> "" -> valid_request_id id = true -> gate <> "" -> IsZero now = false ->
  t_requests d !! (app, id) = Some q -> is_Some (t_bindings d !! (app, id)) ->
  qr_state q = outcome -> qr_response q = Some response -> json_Valid response = true ->
  outcome <> other -> other = "applied" \/ other = "withdrawn" ->
  CandidateFinalizationRepository_Finalize app id outcome gate tls now (World d [] k) = (Ok response, World d [] k) /\
  CandidateFinalizationRepository_Finalize app id other gate tls now (World d [] k) =
    (Err ErrCandidateFinalizationConflict, World d [] k).
Proof.
  intros Hi Happ Hid Hg Hnow Hq [b Hb] Hst Hr Hv Hne Hother.
  assert (Hterm : outcome = "applied" \/ outcome = "withdrawn").
  { destruct (inv_req_check _ Hi _ _ Hq) as [_ Hc]. rewrite Hr, Hst in Hc. cbn in Hc. apply orb_true_iff in Hc as [Hc|Hc];
      apply String.eqb_eq in Hc; auto. }
  assert (Hp : String.eqb outcome "pending" = false) by (by destruct Hterm as [->| ->]).
  unfold CandidateFinalizationRepository_Finalize, guard, lift, mbind, st_bind.
  rewrite (proj2 (String.eqb_neq app "") Happ), Hid, (proj2 (String.eqb_neq gate "") Hg), Hnow.
  assert (Hok : forall o, o = "applied" \/ o = "withdrawn" -> (String.eqb o "applied" || String.eqb o "withdrawn") = true)
    by (by intros o [->| ->]).
  rewrite (Hok _ Hterm), (Hok _ Hother). cbn [orb negb check]. rewrite !run_in_tx.
  unfold finalize_tx, mbind, st_bind, tx_query. cbn [next_fault tx_faults tx_work]. rewrite Hq, Hb, Hst, Hp, Hr, Hv.
  cbn [negb]. rewrite String.eqb_refl, (proj2 (String.eqb_neq outcome other) Hne). done.
Qed.

(** The decision to withdraw a pending, bound request is added. *)
Definition withdrawal_added (req : DeployRequest) (now : Z) (d d' : Db) : Prop :=
  is_Some (t_bindings d !! request_key req) /\ t_withdrawals d !! request_key req = None /\
  (exists q, t_requests d !! request_key req = Some q /\ qr_state q = "pending") /\
  d' = set_withdrawals <[request_key req := WithdrawalRow (Req_AppName req) (Req_RequestID req) (formatTime now)]> d.

(** [Begin] (and [BeginWithdrawal]) journals a new candidate in one step.
    Under any schedule of driver faults, the committed database is unchanged, or
    request, app, deployment, binding and, for a withdrawal, the decision to
    withdraw are all written; for a request already bound only the decision to
    withdraw a pending request can be added. *)
Theorem begin_candidate_atomic req proposed depID now withdrawal (w : world K) r w' :
  db_inv (w_db w) -> beginCandidate req proposed depID now withdrawal w = (r, w') ->
  w_db w' = w_db w \/
  (exists cfg b, validateCandidateDeployRequest req = Ok cfg /\
     begins req cfg proposed depID now withdrawal (w_db w) (w_db w') b /\ forall x, r = Ok x -> x = (b, true)) \/
  (withdrawal = true /\ withdrawal_added req now (w_db w) (w_db w')).
Proof.
  intros Hi Hf. unfold beginCandidate in Hf.
  apply st_bind_inv in Hf as [(e & [= _ <-] & ->)|(u & w1 & [= _ <-] & Hf)]; [by left|].
  apply st_bind_inv in Hf as [(e & [= _ <-] & ->)|(cfg & w1 & [= Hcfg <-] & Hf)]; [by left|].
  apply (in_tx_wp _ w (fun r d' => d' = w_db w \/
    (exists b, begins req cfg proposed depID now withdrawal (w_db w) d' b /\ forall x, r = Ok x -> x = (b, true)) \/
    (withdrawal = true /\ withdrawal_added req now (w_db w) d'))) in Hf
    as [Hp _]; [|by left|].
  - destruct Hp as [Hp|[(b & Hp)|Hp]]; [by left|right; left; by exists cfg, b|right; right; exact Hp].
  - apply wp_bind, wp_query; [by left|]. destruct (t_bindings (w_db w) !! (Req_AppName req, Req_RequestID req)) as [b|] eqn:Hb.
    + eapply wp_mono; [apply begin_existing_effect|]. intros r' d' _ [[->|(-> & Hn & Hq & ->)] _]; [by left|].
      right; right. split; [done|]. unfold withdrawal_added. split; [by exists b|auto].
    + eapply wp_mono; [by apply begin_new_effect|]. intros r' d' _ [[-> _]|Hb']; [by left|right; by left].
Qed.

(** A lost reply does no harm.  If [Begin] for a new request changed the
    database, also when the caller saw an error, then repeating the call with
    other proposed ids returns the binding journaled first, not created. *)
Theorem begin_candidate_replay req proposed depID now w r w' proposed2 depID2 now2 (k : K) :
  db_inv (w_db w) -> t_bindings (w_db w) !! request_key req = None -> stored_range now ->
  CandidateBindingRepository_Begin (K := K) req proposed depID now w = (r, w') -> w_db w' <> w_db w ->
  blank proposed2 = false -> blank depID2 = false -> IsZero now2 = false ->
  exists b, Bind_AppName b = Req_AppName req /\ Bind_RequestID b = Req_RequestID req /\ Bind_DeploymentID b = depID /\
    (forall x, r = Ok x -> x = (b, true)) /\
    CandidateBindingRepository_Begin req proposed2 depID2 now2 (World (w_db w') [] k) = (Ok (b, false), World (w_db w') [] k).
Proof.
  intros Hi Hnb Hnow Hf Hch Hp2 Hd2 Hn2. unfold CandidateBindingRepository_Begin, beginCandidate in *.
  apply st_bind_inv in Hf as [(e & [= _ <-] & ->)|(u & w1 & [= Hg <-] & Hf)]; [done|].
  destruct u. apply check_ok in Hg. bools.
  apply st_bind_inv in Hf as [(e & [= _ <-] & ->)|(cfg & w1 & [= Hcfg <-] & Hf)]; [done|].
  apply (in_tx_wp _ w (begin_post req cfg proposed depID now false (w_db w))) in Hf as [Hp _]; [|by left|].
  2: { apply wp_bind, wp_query; [by left|]. unfold request_key in Hnb. rewrite Hnb. by apply begin_new_effect. }
  destruct Hp as [[E _]|(b & Hb & Hr)]; [done|]. exists b.
  remember (w_db w') as d' eqn:Ed. destruct Hb as [appID apps _ _ _ _ _ _].
  do 3 (split; [done|]). split; [exact Hr|].
  unfold guard, lift, mbind, st_bind. rewrite Hcfg.
  match goal with |- context [check ?c _] => replace c with false end. 2: { repeat match goal with H : _ = _ |- _ => rewrite H end. done. }
  cbn [check]. rewrite run_in_tx. unfold mbind, st_bind, tx_query. cbn [next_fault tx_faults tx_work].
  unfold request_key. cbn [t_bindings t_requests]. rewrite lookup_insert_eq. unfold begin_existing, mbind, st_bind, tx_query, guard, lift.
  cbn [next_fault tx_faults tx_work t_requests]. rewrite lookup_insert_eq. cbn [begun_request qr_requested qr_report].
  rewrite String.eqb_refl. replace (Bool.eqb _ _) with true by (by destruct (Req_ReportWithdrawal req)). cbn [negb orb check].
  unfold scanBinding. cbn [br_created]. rewrite parseStoredTime_formatTime by done. done.
Qed.

Lemma existsb_false_In {A} (f : A -> bool) l x : existsb f l = false -> x ∈ l -> f x = false.
Proof.
  induction l as [|y l IH]; cbn; [intros _ []%elem_of_nil|]. intros [Hy Hl]%orb_false_iff [->|Hx]%elem_of_cons; auto.
Qed.

Lemma other_pending_In app d k q :
  t_requests d !! k = Some q -> qr_state q = "pending" -> qr_app q <> app -> qr_requested q ∈ other_pending app d.
Proof.
  intros Hq Hp Ha. unfold other_pending. apply list_elem_of_fmap. exists q. split; [done|].
  apply list_elem_of_filter. split; [done|]. apply list_elem_of_fmap. exists (k, q). split; [done|]. by apply elem_of_map_to_list.
Qed.

(** A candidate with a public domain is admitted only if the domain is free:
    when [Begin] has journaled a new candidate, every route of the domain belongs
    to the app itself and no pending request of another app asks for it. *)
Theorem admitted_domain_exclusive req proposed depID now cfg b (w : world K) w' :
  db_inv (w_db w) -> validateCandidateDeployRequest req = Ok cfg -> Routing_Domain (Cfg_Routing cfg) <> "" ->
  CandidateBindingRepository_Begin req proposed depID now w = (Ok (b, true), w') ->
  (forall k r a, t_routes (w_db w') !! k = Some r -> rr_domain r = Routing_Domain (Cfg_Routing cfg) ->
     t_apps (w_db w') !! rr_app_id r = Some a -> ar_name a = Req_AppName req) /\
  (forall k q other, t_requests (w_db w') !! k = Some q -> qr_state q = "pending" -> qr_app q <> Req_AppName req ->
     FromJSON (qr_requested q) = Ok other -> Routing_Domain (Cfg_Routing other) <> Routing_Domain (Cfg_Routing cfg)).
Proof.
  intros Hi Hcfg Hdom Hf. unfold CandidateBindingRepository_Begin, beginCandidate in Hf.
  apply st_bind_ok in Hf as (u & w1 & [= _ <-] & Hf). apply st_bind_ok in Hf as (cfg' & w1 & [= Hcfg' <-] & Hf).
  rewrite Hcfg in Hcfg'. injection Hcfg' as <-.
  apply (in_tx_wp _ w (fun r d' => r = Ok (b, true) -> exists b0, begins req cfg proposed depID now false (w_db w) d' b0)) in Hf
    as [Hp _]; [|done|].
  2: { apply wp_bind, wp_query; [done|]. destruct (t_bindings (w_db w) !! _) as [b0|] eqn:Hb.
       - eapply wp_mono; [apply begin_existing_effect|]. intros r' d' _ [_ Hr] ->. by destruct (Hr _ eq_refl) as [? _].
       - eapply wp_mono; [by apply begin_new_effect|]. intros r' d' _ [[_ Hr]|(b0 & Hb0 & _)] ->; [done|]. by exists b0. }
  destruct (Hp eq_refl) as (b0 & Hb). remember (w_db w') as d' eqn:Ed. destruct Hb as [appID apps Hq _ _ _ Happ Hfree].
  destruct (Hfree eq_refl) as [?|[Hown Hoth]]; [done|]. split; cbn.
  - intros k r a Hr Hd Ha. unfold domain_owned_elsewhere in Hown. rewrite exists_row_false in Hown. specialize (Hown k r Hr).
    rewrite Hd, String.eqb_refl in Hown. cbn [andb] in Hown. unfold begun_app in Happ.
    destruct (app_by_name (Req_AppName req) (w_db w)) as [a0|]; [destruct Happ as [_ ->]|destruct Happ as (_ & -> & _)].
    + rewrite Ha in Hown. bools. by apply String.eqb_eq.
    + apply lookup_insert_Some in Ha as [[_ <-]|[_ Ha]]; [done|]. rewrite Ha in Hown. bools. by apply String.eqb_eq.
  - intros k q other Hk Hst Hne Ho. apply lookup_insert_Some in Hk as [[_ <-]|[_ Hk]]; [done|].
    eapply existsb_false_In in Hoth; [|by eapply other_pending_In]. unfold claims_domain in Hoth. rewrite Ho in Hoth.
    by apply String.eqb_neq.
Qed.

(** Recording a gate is a compare-and-set on the stage.  An effect of
    [RecordActivationGate] needs a pending request at the expected stage and an
    allowed transition, and writes exactly the new stage and gate; afterwards a
    second recorder that expects the old stage is refused and changes nothing. *)
Theorem gate_recorded_once app id expected next gate now (w : world K) r w' next2 gate2 now2 (k : K) :
  RuntimeCheckpointRepository_RecordActivationGate app id expected next gate now w = (r, w') -> w_db w' <> w_db w ->
  (exists q c, t_requests (w_db w) !! (app, id) = Some q /\ qr_state q = "pending" /\
     t_checkpoints (w_db w) !! (app, id) = Some c /\ cr_stage c = expected /\ validCheckpointTransition expected next = true /\
     w_db w' = set_checkpoints <[(app, id) := CheckpointRow (cr_app c) (cr_request c) next (cr_intent c) gate (cr_created c)
                 (formatTime now)]> (w_db w)) /\
  exists e, RuntimeCheckpointRepository_RecordActivationGate app id expected next2 gate2 now2 (World (w_db w') [] k) =
    (Err e, World (w_db w') [] k).
Proof.
  intros Hf Hch. destruct (record_gate_effect _ _ _ _ _ _ _ _ _ Hf) as [_ [[E _]|(q & c & Hq & Hqs & Hc & Hst & Hv & Hid & Hd')]]; [done|].
  split; [by exists q, c|].
  assert (Hne : String.eqb next expected = false).
  { apply String.eqb_neq. intros ->. apply transition_rank in Hv. lia. }
  unfold RuntimeCheckpointRepository_RecordActivationGate, mbind, st_bind, lift. rewrite Hid. destruct (validateCheckpointObject gate2); [|by eexists].
  rewrite run_in_tx, Hd'. unfold record_gate_tx, mbind, st_bind, tx_query, guard, lift, throw. cbn [next_fault tx_faults tx_work].
  cbn [t_requests t_checkpoints set_checkpoints]. rewrite Hq, lookup_insert_eq. cbn [cr_stage]. rewrite Hne.
  destruct (check _ ErrRuntimeCheckpointTerminal); [|by eexists]. destruct (check _ ErrRuntimeCheckpointTransition); by eexists.
Qed.

(** The completion of requests without a candidate never finishes a bound
    request: it fails and the database stays as it is. *)
Theorem complete_refuses_bound app id state response updated (w : world K) r w' :
  is_Some (t_bindings (w_db w) !! (app, id)) ->
  DeploymentRequestRepository_Complete app id state response updated w = (r, w') ->
  w_db w' = w_db w /\ is_err r = true.
Proof.
  intros Hb Hf. unfold DeploymentRequestRepository_Complete in Hf.
  apply st_bind_inv in Hf as [(e & [= _ <-] & ->)|(u & w1 & [= _ <-] & Hf)]; [done|].
  assert (Hnop : forall d n, complete_request (app, id) state response (formatTime updated) (w_db w) = Ok (d, n) -> d = w_db w /\ n = 0).
  { intros d n [?|(_ & q & _ & _ & Hw & _)]%finish_request_inv; [done|]. bools. done. }
  unfold mapRowsAffected in Hf. apply st_bind_inv in Hf as [(e & He & ->)|(n & w1 & Hn & Hf)].
  - apply db_exec_inv in He as [_ [E|(d & n & E & Ed)]]; [done|]. apply Hnop in E as [-> _]. done.
  - apply db_exec_ok in Hn as (d & E & Ed & _). apply Hnop in E as [-> ->]. injection Hf as <- <-. done.
Qed.
End lifecycle.

(** ** The theorems on the concrete run *)

Section sample_run.
#[local] Existing Instance forward_env.

Definition shop_key : string * string := ("shop", shop_id).
Definition prepared_db : Db := run_ops shop_prepared empty_db.
Definition activated_db : Db := run_ops shop_activated prepared_db.
Definition applied_db : Db := run_ops [shop_applied] activated_db.

Lemma prepared_reachable : reachable_db prepared_db.
Proof. exact (run_ops_steps shop_prepared empty_db). Qed.

Lemma steps_trans {S} (step : S -> S -> Prop) a b c : steps step a b -> steps step b c -> steps step a c.
Proof. intros H1 H2. induction H2 as [|x y z Hxy IH Hyz]; [done|]. eapply steps_step; [by apply IH|exact Hyz]. Qed.

Lemma activated_reachable : reachable_db activated_db.
Proof. exact (steps_trans _ _ _ _ prepared_reachable (run_ops_steps shop_activated prepared_db)). Qed.

Lemma applied_reachable : reachable_db applied_db.
Proof. exact (steps_trans _ _ _ _ activated_reachable (run_ops_steps [shop_applied] activated_db)). Qed.

Lemma prepared_applied : steps db_step prepared_db applied_db.
Proof.
  exact (steps_trans db_step prepared_db activated_db applied_db (run_ops_steps shop_activated prepared_db)
    (run_ops_steps [shop_applied] activated_db)).
Qed.

Lemma reachable_db_intact_witness : db_inv applied_db /\ size (t_requests applied_db) = 1%nat.
Proof. split; [exact (reachable_db_intact _ applied_reachable)|vm_compute; reflexivity]. Defined.

Lemma terminal_receipt_immutable_witness :
  exists q, t_requests applied_db !! shop_key = Some q /\ qr_state q = "applied" /\
    t_requests (run_ops [shop_applied] applied_db) !! shop_key = Some q.
Proof.
  destruct (t_requests applied_db !! shop_key) as [q|] eqn:Hq; [|vm_compute in Hq; discriminate].
  assert (Hs : qr_state q = "applied").
  { assert (Hv : qr_state <$> (t_requests applied_db !! shop_key) = Some "applied") by (vm_compute; reflexivity).
    rewrite Hq in Hv. injection Hv as Hv. exact Hv. }
  exists q. split; [reflexivity|]. split; [exact Hs|].
  apply (terminal_receipt_immutable applied_db (run_ops [shop_applied] applied_db) shop_key q);
    [exact applied_reachable|exact (run_ops_steps [shop_applied] applied_db)|exact Hq|rewrite Hs; discriminate].
Defined.

Lemma journal_permanent_witness :
  exists b, t_bindings prepared_db !! shop_key = Some b /\ t_bindings applied_db !! shop_key = Some b.
Proof.
  destruct (t_requests prepared_db !! shop_key) as [q|] eqn:Hq; [|vm_compute in Hq; discriminate].
  destruct (t_bindings prepared_db !! shop_key) as [b|] eqn:Hb; [|vm_compute in Hb; discriminate].
  exists b. split; [reflexivity|]. apply (journal_permanent prepared_db applied_db shop_key q); [exact prepared_reachable|exact prepared_applied|exact Hq|exact Hb].
Defined.

Lemma checkpoint_forward_witness :
  exists c c', t_checkpoints prepared_db !! shop_key = Some c /\ t_checkpoints applied_db !! shop_key = Some c' /\
    cr_intent c' = cr_intent c /\ stage_path (cr_stage c) (cr_stage c').
Proof.
  destruct (t_checkpoints prepared_db !! shop_key) as [c|] eqn:Hc; [|vm_compute in Hc; discriminate]. exists c.
  destruct (checkpoint_forward prepared_db applied_db shop_key c) as (c' & Hc' & Hi & Hp & _);
    [exact prepared_reachable|exact prepared_applied|exact Hc|]. exists c'. split; [reflexivity|]. split; [exact Hc'|]. split; [exact Hi|exact Hp].
Defined.

(** The databases of the run as variables, with the facts that evaluation gives. *)
Definition finalize_shop (fs : list fault) (d : Db) : result string * world unit :=
  CandidateFinalizationRepository_Finalize "shop" shop_id "applied" "{}" false noon (World d fs tt).

(** The commit of [Finalize] loses its reply. *)
Definition lost_reply : list fault := [Fine; Fine; Fine; Fine; Fine; Fine; Fine; Fine; Fine; Ambiguous].

Lemma activated_facts : exists d, reachable_db d /\
  is_err (finalize_shop lost_reply d).1 = true /\ qr_state <$> (t_requests d !! shop_key) = Some "pending" /\
  qr_state <$> (t_requests (w_db (finalize_shop lost_reply d).2) !! shop_key) = Some "applied".
Proof.
  exists activated_db. split; [exact activated_reachable|]. split; [vm_compute; reflexivity|]. split; vm_compute; reflexivity.
Qed.

(** The caller sees an error; the writes are there all the same, together. *)
Lemma finalize_atomic_witness : exists d s,
  is_err (finalize_shop lost_reply d).1 = true /\
  finalizes "shop" shop_id "applied" "{}" noon d (w_db (finalize_shop lost_reply d).2) s.
Proof.
  destruct activated_facts as (d & Hr & He & Hp & Ha). exists d. destruct (finalize_shop lost_reply d) as [r w'] eqn:Hf.
  cbn [fst snd] in *.
  destruct (finalize_atomic "shop" shop_id "applied" "{}" false noon (World d lost_reply tt) r w') as [[E|[s Hs]] _];
    [exact (reachable_inv d Hr)|exact Hf|cbn [w_db] in E; rewrite E in Ha; congruence|by exists s].
Defined.

Lemma applied_facts : exists d q response, reachable_db d /\
  t_requests d !! shop_key = Some q /\ is_Some (t_bindings d !! shop_key) /\ qr_state q = "applied" /\
  qr_response q = Some response /\ json_Valid response = true.
Proof.
  destruct (t_requests applied_db !! shop_key) as [q|] eqn:Hq; [|vm_compute in Hq; discriminate].
  exists applied_db, q, (default "" (qr_response q)). split; [exact applied_reachable|]. split; [exact Hq|].
  split; [by vm_compute; eexists|]. vm_compute in Hq. injection Hq as <-.
  split; [reflexivity|]. split; [reflexivity|]. vm_compute. reflexivity.
Qed.

Lemma finalize_replay_witness : exists d response,
  finalize_shop [] d = (Ok response, World d [] tt) /\
  CandidateFinalizationRepository_Finalize "shop" shop_id "withdrawn" "{}" false noon (World d [] tt) =
    (Err ErrCandidateFinalizationConflict, World d [] tt).
Proof.
  destruct applied_facts as (d & q & response & Hr & Hq & Hb & Hs & Hrsp & Hv). exists d, response. unfold finalize_shop.
  apply (finalize_replay "shop" shop_id "applied" "withdrawn" "{}" false noon d tt q response);
    [exact (reachable_inv d Hr)|discriminate|vm_compute; reflexivity|discriminate|vm_compute; reflexivity|exact Hq|exact Hb
    |exact Hs|exact Hrsp|exact Hv|discriminate|right; reflexivity].
Defined.

Definition begin_shop (fs : list fault) : result (CandidateBinding * bool) * world unit :=
  CandidateBindingRepository_Begin shop_request "app-1" "dep-1" noon (World empty_db fs tt).

(** The commit of [Begin] loses its reply. *)
Definition lost_begin : list fault := (replicate 11 Fine ++ [Ambiguous])%list.

Lemma begin_shop_facts : exists e w, begin_shop lost_begin = (Err e, w) /\ w_db w <> empty_db.
Proof.
  destruct (begin_shop lost_begin) as [r w] eqn:Hb.
  assert (Hr : is_err (begin_shop lost_begin).1 = true) by (vm_compute; reflexivity).
  assert (Hs : size (t_bindings (w_db (begin_shop lost_begin).2)) = 1%nat) by (vm_compute; reflexivity).
  rewrite Hb in Hr, Hs. cbn [fst snd] in Hr, Hs. destruct r as [x|e]; [discriminate|]. exists e, w. split; [reflexivity|].
  intros E. rewrite E in Hs. discriminate.
Qed.

Lemma begin_candidate_atomic_witness : exists e w cfg b, begin_shop lost_begin = (Err e, w) /\
  begins shop_request cfg "app-1" "dep-1" noon false empty_db (w_db w) b.
Proof.
  destruct begin_shop_facts as (e & w & Hb & Hne). exists e, w.
  destruct (begin_candidate_atomic shop_request "app-1" "dep-1" noon false (World empty_db lost_begin tt) (Err e) w)
    as [E|[(cfg & b & _ & Hbg & _)|[E _]]]; [exact empty_db_inv|exact Hb|contradiction| |discriminate].
  exists cfg, b. split; [exact Hb|exact Hbg].
Defined.

Lemma begin_candidate_replay_witness : exists e w b, begin_shop lost_begin = (Err e, w) /\ Bind_DeploymentID b = "dep-1" /\
  CandidateBindingRepository_Begin shop_request "app-2" "dep-2" noon (World (w_db w) [] tt) = (Ok (b, false), World (w_db w) [] tt).
Proof.
  destruct begin_shop_facts as (e & w & Hb & Hne). exists e, w.
  destruct (begin_candidate_replay shop_request "app-1" "dep-1" noon (World empty_db lost_begin tt) (Err e) w "app-2" "dep-2" noon tt)
    as (b & _ & _ & Hd & _ & Hr); [exact empty_db_inv|reflexivity|vm_compute; split; [discriminate|reflexivity]|exact Hb|exact Hne
    |vm_compute; reflexivity|vm_compute; reflexivity|vm_compute; reflexivity|].
  exists b. split; [exact Hb|]. split; [exact Hd|exact Hr].
Defined.

Definition web_state : string :=
  match Config_JSON (sample_config "web" "registry.example.com/web:v1" "web.example.com") with Ok s => s | Err _ => "" end.
Definition web_request : DeployRequest := MkDeployRequest "web" shop_id "pending" web_state "" "" false "" 0 0.
Definition begin_web (d : Db) : result (CandidateBinding * bool) * world unit :=
  CandidateBindingRepository_Begin web_request "app-9" "dep-9" noon (World d [] tt).

Lemma begin_web_facts : exists d cfg b w, reachable_db d /\ size (t_requests d) = 1%nat /\
  validateCandidateDeployRequest web_request = Ok cfg /\ Routing_Domain (Cfg_Routing cfg) = "web.example.com" /\
  begin_web d = (Ok (b, true), w).
Proof.
  exists activated_db. destruct (validateCandidateDeployRequest web_request) as [cfg|] eqn:Hc; [|vm_compute in Hc; discriminate].
  assert (Hv : (fun x => match x with Ok (_, c) => c | Err _ => false end) (begin_web activated_db).1 = true) by (vm_compute; reflexivity).
  exists cfg. destruct (begin_web activated_db) as [[[b c]|e] w]; cbn [fst] in Hv; [subst c|discriminate].
  exists b, w. split; [exact activated_reachable|].
  split; [vm_compute; reflexivity|]. split; [reflexivity|]. split; [|reflexivity].
  vm_compute in Hc. injection Hc as <-. reflexivity.
Qed.

Lemma admitted_domain_exclusive_witness : exists d b w, size (t_requests d) = 1%nat /\ begin_web d = (Ok (b, true), w) /\
  forall k q other, t_requests (w_db w) !! k = Some q -> qr_state q = "pending" -> qr_app q <> "web" ->
    FromJSON (qr_requested q) = Ok other -> Routing_Domain (Cfg_Routing other) <> "web.example.com".
Proof.
  destruct begin_web_facts as (d & cfg & b & w & Hr & Hsz & Hc & Hd & Hb). exists d, b, w. split; [exact Hsz|]. split; [exact Hb|].
  rewrite <- Hd. apply (admitted_domain_exclusive web_request "app-9" "dep-9" noon cfg b (World d [] tt) w);
    [exact (reachable_inv d Hr)|exact Hc|rewrite Hd; discriminate|exact Hb].
Defined.

Definition fence_shop (d : Db) : result unit * world unit :=
  RuntimeCheckpointRepository_RecordActivationGate "shop" shop_id "prepared" "fenced" "{}" noon (World d [] tt).

Lemma fence_shop_facts : exists d r w, fence_shop d = (r, w) /\ w_db w <> d.
Proof.
  exists prepared_db. destruct (fence_shop prepared_db) as [r w] eqn:Hf. exists r, w. split; [reflexivity|]. intros E.
  assert (H1 : cr_stage <$> (t_checkpoints (w_db (fence_shop prepared_db).2) !! shop_key) = Some "fenced") by (vm_compute; reflexivity).
  assert (H2 : cr_stage <$> (t_checkpoints prepared_db !! shop_key) = Some "prepared") by (vm_compute; reflexivity).
  rewrite Hf in H1. cbn [snd] in H1. rewrite E in H1. congruence.
Qed.

Lemma gate_recorded_once_witness : exists d r w e, fence_shop d = (r, w) /\ w_db w <> d /\
  fence_shop (w_db w) = (Err e, World (w_db w) [] tt).
Proof.
  destruct fence_shop_facts as (d & r & w & Hf & Hne). exists d, r, w.
  destruct (gate_recorded_once "shop" shop_id "prepared" "fenced" "{}" noon (World d [] tt) r w "fenced" "{}" noon tt) as [_ [e He]];
    [exact Hf|exact Hne|]. exists e. split; [exact Hf|]. split; [exact Hne|exact He].
Defined.

Lemma complete_refuses_bound_witness : exists d r w,
  DeploymentRequestRepository_Complete "shop" shop_id "applied" "{}" noon (World d [] tt) = (r, w) /\ w_db w = d /\ is_err r = true.
Proof.
  destruct applied_facts as (d & q & response & Hr & Hq & Hb & _). exists d.
  destruct (DeploymentRequestRepository_Complete "shop" shop_id "applied" "{}" noon (World d [] tt)) as [r w] eqn:Hf.
  exists r, w. split; [reflexivity|].
  apply (complete_refuses_bound "shop" shop_id "applied" "{}" noon (World d [] tt) r w); [exact Hb|exact Hf].
Defined.
End sample_run.
