(* ===== verification/AppLocks.v ===== *)
(** * Per-app mutation locks (internal/server/app_mutation.go)

    Any number of goroutines call [acquire] and the release it returns.  A step
    is one critical section of [mu], one operation on a gate channel, or one
    outcome of [select] and of the context check; all interleavings are runs. *)

From S2P Require Import Prelude.
From Stdlib Require Import Ascii String.
Local Open Scope Z_scope.

(** A lock: whether its one-slot channel is full, and its count of users.  Locks
    are heap objects named by a number. *)
Record appMutationLock := MkLock { gate_full : bool; users : nat }.

(** Where a goroutine is: *)
Inductive phase :=
| Waiting (app : string) (l : nat)     (* in [select] *)
| Acquired (app : string) (l : nat)    (* sent to the gate, before [ctx.Err] *)
| Holding (app : string) (l : nat)     (* [acquire] returned *)
| Leaving (app : string) (l : nat)     (* in [release], before the receive *)
| Forgetting (app : string) (l : nat). (* before [forget] *)

Definition lock_of (p : phase) : nat :=
  match p with Waiting _ l | Acquired _ l | Holding _ l | Leaving _ l | Forgetting _ l => l end.
Definition app_of (p : phase) : string :=
  match p with Waiting a _ | Acquired a _ | Holding a _ | Leaving a _ | Forgetting a _ => a end.

(** The goroutine's token is in the gate. *)
Definition inside (p : phase) : bool :=
  match p with Acquired _ _ | Holding _ _ | Leaving _ _ => true | _ => false end.
Definition holds (p : phase) : bool := match p with Holding _ _ => true | _ => false end.

Record state := State {
  apps : gmap string nat;              (* the map of [appMutationLocks] *)
  heap : gmap nat appMutationLock;
  procs : gmap nat phase }.

Definition initial : state := State ∅ ∅ ∅.

(** [lock := l.apps[app]; if nil, create; lock.users++] *)
Definition lookup_lock (app : string) (s : state) : state * nat :=
  match apps s !! app with
  | Some l =>
      match heap s !! l with
      | Some k => (State (apps s) (<[l := MkLock (gate_full k) (S (users k))]> (heap s)) (procs s), l)
      | None => (s, l)
      end
  | None =>
      let l := fresh (dom (heap s)) in
      (State (<[app := l]> (apps s)) (<[l := MkLock false 1]> (heap s)) (procs s), l)
  end.

(** [lock.users--; if lock.users == 0 { delete(l.apps, app) }] *)
Definition forget_lock (app : string) (l : nat) (s : state) : state :=
  match heap s !! l with
  | Some k =>
      let n := pred (users k) in
      State (if (n =? 0)%nat then delete app (apps s) else apps s) (<[l := MkLock (gate_full k) n]> (heap s)) (procs s)
  | None => s
  end.

Definition set_gate (b : bool) (l : nat) (s : state) : state :=
  match heap s !! l with
  | Some k => State (apps s) (<[l := MkLock b (users k)]> (heap s)) (procs s)
  | None => s
  end.

Definition move (g : nat) (p : phase) (s : state) : state := State (apps s) (heap s) (<[g := p]> (procs s)).
Definition finish (g : nat) (s : state) : state := State (apps s) (heap s) (delete g (procs s)).

Inductive step (s : state) : state -> Prop :=
| step_acquire g app : procs s !! g = None -> step s (move g (Waiting app (lookup_lock app s).2) (lookup_lock app s).1)
| step_enter g app l k : procs s !! g = Some (Waiting app l) -> heap s !! l = Some k -> gate_full k = false ->
    step s (move g (Acquired app l) (set_gate true l s))
| step_cancel g app l : procs s !! g = Some (Waiting app l) -> step s (move g (Forgetting app l) s)
| step_ok g app l : procs s !! g = Some (Acquired app l) -> step s (move g (Holding app l) s)
| step_expired g app l : procs s !! g = Some (Acquired app l) -> step s (move g (Leaving app l) s)
| step_release g app l : procs s !! g = Some (Holding app l) -> step s (move g (Leaving app l) s)
| step_leave g app l : procs s !! g = Some (Leaving app l) -> step s (move g (Forgetting app l) (set_gate false l s))
| step_forget g app l : procs s !! g = Some (Forgetting app l) -> step s (finish g (forget_lock app l s)).

Definition reachable (s : state) : Prop := steps step initial s.

(** ** Counting goroutines *)

Definition count (P : phase -> bool) (m : gmap nat phase) : nat := size (filter (fun kv => P kv.2 = true) m).

Lemma count_empty P : count P ∅ = 0%nat.
Proof. unfold count. by rewrite map_filter_empty, map_size_empty. Qed.

Lemma count_insert_new P m g p : m !! g = None -> count P (<[g := p]> m) = ((if P p then 1 else 0) + count P m)%nat.
Proof.
  intros Hg. unfold count. destruct (P p) eqn:HP.
  - rewrite map_filter_insert_True by done. rewrite map_size_insert_None; [done|]. apply map_lookup_filter_None. by left.
  - rewrite map_filter_insert_False by (cbn; congruence). by rewrite delete_id.
Qed.

Lemma count_delete P m g p : m !! g = Some p -> count P m = ((if P p then 1 else 0) + count P (delete g m))%nat.
Proof. intros Hg. rewrite <- (insert_delete_id m g p Hg) at 1. apply count_insert_new. by rewrite lookup_delete_eq. Qed.

Lemma count_move P m g p p' :
  m !! g = Some p -> (count P (<[g := p']> m) + (if P p then 1 else 0) = count P m + (if P p' then 1 else 0))%nat.
Proof.
  intros Hg. rewrite (count_delete P m g p Hg). rewrite <- insert_delete_eq. rewrite count_insert_new by (by rewrite lookup_delete_eq).
  lia.
Qed.

Lemma count_pos P m g p : m !! g = Some p -> P p = true -> (0 < count P m)%nat.
Proof. intros Hg HP. rewrite (count_delete P m g p Hg), HP. lia. Qed.

Lemma count_one P m g1 g2 p1 p2 :
  (count P m <= 1)%nat -> m !! g1 = Some p1 -> m !! g2 = Some p2 -> P p1 = true -> P p2 = true -> g1 = g2.
Proof.
  intros Hc H1 H2 P1 P2. destruct (decide (g1 = g2)) as [|Hne]; [done|exfalso].
  rewrite (count_delete P m g1 p1 H1), P1 in Hc.
  pose proof (count_pos P (delete g1 m) g2 p2) as Hpos. rewrite lookup_delete_ne in Hpos by done. specialize (Hpos H2 P2). lia.
Qed.

Lemma count_zero P m : count P m = 0%nat -> forall g p, m !! g = Some p -> P p = false.
Proof. intros Hc g p Hg. destruct (P p) eqn:HP; [|done]. pose proof (count_pos P m g p Hg HP). lia. Qed.

Definition uses (l : nat) (p : phase) : bool := (lock_of p =? l)%nat.
Definition occupies (l : nat) (p : phase) : bool := (lock_of p =? l)%nat && inside p.

(** ** The invariant *)

Record lock_inv (s : state) : Prop := {
  li_users : forall l k, heap s !! l = Some k -> users k = count (uses l) (procs s);
  li_gate : forall l k, heap s !! l = Some k -> count (occupies l) (procs s) = if gate_full k then 1%nat else 0%nat;
  li_proc : forall g p, procs s !! g = Some p -> is_Some (heap s !! lock_of p) /\ apps s !! app_of p = Some (lock_of p);
  li_apps : forall a l, apps s !! a = Some l -> exists k, heap s !! l = Some k /\ (0 < users k)%nat /\
    forall b, apps s !! b = Some l -> b = a
}.

Lemma initial_inv : lock_inv initial.
Proof. split; intros *; cbn; by rewrite ?lookup_empty. Qed.

(** Moving a goroutine within one lock, the gate and the map unchanged. *)
Lemma inv_move s g p p' :
  lock_inv s -> procs s !! g = Some p -> lock_of p' = lock_of p -> app_of p' = app_of p -> inside p' = inside p ->
  lock_inv (move g p' s).
Proof.
  intros Hi Hg El Ea Ein. split; cbn.
  - intros l k Hk. rewrite (li_users s Hi l k Hk). pose proof (count_move (uses l) (procs s) g p p' Hg) as Hc.
    unfold uses at 2 4 in Hc. rewrite El in Hc. lia.
  - intros l k Hk. rewrite <- (li_gate s Hi l k Hk). pose proof (count_move (occupies l) (procs s) g p p' Hg) as Hc.
    unfold occupies at 2 4 in Hc. rewrite El, Ein in Hc. lia.
  - intros g' q Hq. apply lookup_insert_Some in Hq as [[<- <-]|[_ Hq]]; [|by apply (li_proc s Hi g')].
    rewrite El, Ea. by apply (li_proc s Hi g).
  - apply Hi.
Qed.

(** Entering and leaving the gate. *)
Lemma inv_gate s g p p' b k :
  lock_inv s -> procs s !! g = Some p -> heap s !! lock_of p = Some k -> lock_of p' = lock_of p -> app_of p' = app_of p ->
  inside p = negb b -> inside p' = b -> gate_full k = negb b -> lock_inv (move g p' (set_gate b (lock_of p) s)).
Proof.
  intros Hi Hg Hk El Ea Hin Hin' Hgate. unfold set_gate. rewrite Hk. split; cbn.
  - intros l k' Hl. pose proof (count_move (uses l) (procs s) g p p' Hg) as Hc. unfold uses at 2 4 in Hc. rewrite El in Hc.
    apply lookup_insert_Some in Hl as [[<- <-]|[_ Hl]]; cbn; [rewrite (li_users s Hi _ k Hk)|rewrite (li_users s Hi _ k' Hl)]; lia.
  - intros l k' Hl. pose proof (count_move (occupies l) (procs s) g p p' Hg) as Hc. unfold occupies at 2 4 in Hc.
    rewrite El, Hin, Hin' in Hc. apply lookup_insert_Some in Hl as [[<- <-]|[Hne Hl]]; cbn.
    + rewrite (li_gate s Hi _ k Hk), Hgate, Nat.eqb_refl in Hc. destruct b; cbn in *; lia.
    + rewrite (li_gate s Hi _ k' Hl) in Hc. replace (lock_of p =? l)%nat with false in Hc by (symmetry; by apply Nat.eqb_neq). cbn in Hc. lia.
  - intros g' q Hq. assert (Hp : is_Some (heap s !! lock_of q) /\ apps s !! app_of q = Some (lock_of q)).
    { apply lookup_insert_Some in Hq as [[<- <-]|[_ Hq]]; [rewrite El, Ea; by apply (li_proc s Hi g)|by apply (li_proc s Hi g')]. }
    destruct Hp as [Hh Hp]. split; [|done]. rewrite lookup_insert_is_Some'. by right.
  - intros a l Hl. destruct (li_apps s Hi a l Hl) as (k' & Hk' & Hpos & Hu). destruct (decide (l = lock_of p)) as [->|Hne].
    + rewrite lookup_insert_eq. eexists. split; [done|]. cbn. assert (k' = k) as -> by congruence. done.
    + rewrite lookup_insert_ne by done. by exists k'.
Qed.

Lemma count_uses_none s l : lock_inv s -> heap s !! l = None -> count (uses l) (procs s) = 0%nat /\ count (occupies l) (procs s) = 0%nat.
Proof.
  intros Hi Hl.
  assert (Hz : forall P, (forall p, P p = true -> lock_of p = l) -> count P (procs s) = 0%nat).
  { intros P HP. unfold count. apply map_size_empty_iff. apply map_empty_filter_2. intros g p Hg Hpp. cbn in Hpp.
    destruct (li_proc s Hi g p Hg) as [[k Hk] _]. rewrite (HP p Hpp) in Hk. congruence. }
  split; apply Hz; intros p Hp; unfold occupies, uses in Hp; bools; by apply Nat.eqb_eq.
Qed.

Lemma inv_acquire s g app :
  lock_inv s -> procs s !! g = None -> lock_inv (move g (Waiting app (lookup_lock app s).2) (lookup_lock app s).1).
Proof.
  intros Hi Hg. unfold lookup_lock. destruct (apps s !! app) as [l|] eqn:Ha.
  - destruct (li_apps s Hi app l Ha) as (k & Hk & Hpos & Hu). rewrite Hk. split; cbn.
    + intros l' k' Hl'. rewrite count_insert_new by done. unfold uses at 1. cbn.
      apply lookup_insert_Some in Hl' as [[<- <-]|[Hne Hl']]; cbn.
      * rewrite Nat.eqb_refl, (li_users s Hi l k Hk). done.
      * rewrite (proj2 (Nat.eqb_neq l l') Hne), (li_users s Hi l' k' Hl'). done.
    + intros l' k' Hl'. rewrite count_insert_new by done. unfold occupies at 1. cbn. rewrite andb_false_r. cbn.
      apply lookup_insert_Some in Hl' as [[<- <-]|[Hne Hl']]; cbn; by apply (li_gate s Hi).
    + intros g' q Hq. assert (Hp : is_Some (heap s !! lock_of q) /\ apps s !! app_of q = Some (lock_of q)).
      { apply lookup_insert_Some in Hq as [[<- <-]|[_ Hq]]; [cbn; by rewrite Hk|by apply (li_proc s Hi g')]. }
      destruct Hp as [Hh Hp]. split; [|done]. rewrite lookup_insert_is_Some'. by right.
    + intros a l' Hl'. destruct (li_apps s Hi a l' Hl') as (k' & Hk' & Hpos' & Hu'). destruct (decide (l' = l)) as [->|Hne].
      * rewrite lookup_insert_eq. eexists. split; [done|]. cbn. split; [lia|done].
      * rewrite lookup_insert_ne by done. by exists k'.
  - pose proof (is_fresh (dom (heap s))) as Hf. set (l := fresh (dom (heap s))) in *. apply not_elem_of_dom in Hf.
    destruct (count_uses_none s l Hi Hf) as [Hz1 Hz2]. split; cbn.
    + intros l' k' Hl'. rewrite count_insert_new by done. unfold uses at 1. cbn.
      apply lookup_insert_Some in Hl' as [[<- <-]|[Hne Hl']]; cbn.
      * by rewrite Nat.eqb_refl, Hz1.
      * rewrite (proj2 (Nat.eqb_neq l l') Hne), (li_users s Hi l' k' Hl'). done.
    + intros l' k' Hl'. rewrite count_insert_new by done. unfold occupies at 1. cbn. rewrite andb_false_r. cbn.
      apply lookup_insert_Some in Hl' as [[<- <-]|[Hne Hl']]; cbn; [done|by apply (li_gate s Hi)].
    + intros g' q Hq. apply lookup_insert_Some in Hq as [[<- <-]|[_ Hq]]; cbn; [by rewrite !lookup_insert_eq|].
      destruct (li_proc s Hi g' q Hq) as [Hh Hp]. split; [rewrite lookup_insert_is_Some'; by right|].
      rewrite lookup_insert_ne; [done|]. intros E. rewrite <- E in Hp. congruence.
    + intros a l' Hl'. apply lookup_insert_Some in Hl' as [[<- <-]|[Hne Hl']].
      * rewrite lookup_insert_eq. eexists. split; [done|]. split; [cbn; lia|]. intros b Hb.
        apply lookup_insert_Some in Hb as [[? _]|[_ Hb]]; [done|]. destruct (li_apps s Hi b l Hb) as (k & Hk & _). congruence.
      * destruct (li_apps s Hi a l' Hl') as (k' & Hk' & Hpos' & Hu'). exists k'. split; [rewrite lookup_insert_ne; [done|congruence]|].
        split; [done|]. intros b Hb. apply lookup_insert_Some in Hb as [[_ E]|[_ Hb]]; [congruence|by apply Hu'].
Qed.

Lemma inv_forget s g app l :
  lock_inv s -> procs s !! g = Some (Forgetting app l) -> lock_inv (finish g (forget_lock app l s)).
Proof.
  intros Hi Hg. destruct (li_proc s Hi g _ Hg) as [[k Hk] Ha]. cbn [lock_of app_of] in Hk, Ha. unfold forget_lock. rewrite Hk.
  pose proof (fun P => count_delete P (procs s) g _ Hg) as Hc.
  assert (Hother : forall g' q, g' <> g -> procs s !! g' = Some q -> app_of q = app -> (0 < pred (users k))%nat).
  { intros g' q Hne Hq Hqa. destruct (li_proc s Hi g' q Hq) as [_ Hql]. rewrite Hqa, Ha in Hql. injection Hql as Hql.
    rewrite (li_users s Hi l k Hk), (Hc (uses l)). unfold uses at 1. cbn. rewrite Nat.eqb_refl. cbn.
    apply (count_pos _ _ g' q); [by rewrite lookup_delete_ne|]. unfold uses. rewrite <- Hql. apply Nat.eqb_refl. }
  split; cbn.
  - intros l' k' Hl'. pose proof (Hc (uses l')) as Hcu. unfold uses at 2 in Hcu. cbn in Hcu.
    apply lookup_insert_Some in Hl' as [[<- <-]|[Hne Hl']]; cbn.
    + rewrite (li_users s Hi l k Hk), Hcu, Nat.eqb_refl. done.
    + rewrite (li_users s Hi l' k' Hl'), Hcu, (proj2 (Nat.eqb_neq l l') Hne). done.
  - intros l' k' Hl'. pose proof (Hc (occupies l')) as Hco. unfold occupies at 2 in Hco. cbn in Hco. rewrite andb_false_r in Hco. cbn in Hco.
    rewrite <- Hco. apply lookup_insert_Some in Hl' as [[<- <-]|[Hne Hl']]; cbn; by apply (li_gate s Hi).
  - intros g' q Hq. apply lookup_delete_Some in Hq as [Hne Hq]. destruct (li_proc s Hi g' q Hq) as [Hh Hp].
    split; [rewrite lookup_insert_is_Some'; by right|]. case_match eqn:Hz; [|done]. apply Nat.eqb_eq in Hz.
    rewrite lookup_delete_ne; [done|]. intros E. specialize (Hother g' q (not_eq_sym Hne) Hq (eq_sym E)). lia.
  - intros a l' Hl'.
    assert (Hl : apps s !! a = Some l' /\ ((pred (users k) =? 0)%nat = true -> a <> app)).
    { case_match; [|by split]. apply lookup_delete_Some in Hl' as [? ?]. by split. }
    destruct Hl as [Hl Hna]. destruct (li_apps s Hi a l' Hl) as (k' & Hk' & Hpos & Hu).
    assert (Hu' : forall b, (if (pred (users k) =? 0)%nat then delete app (apps s) else apps s) !! b = Some l' -> b = a).
    { intros b Hb. apply Hu. case_match; [by apply lookup_delete_Some in Hb as [_ ?]|done]. }
    destruct (decide (l' = l)) as [->|Hne].
    + rewrite lookup_insert_eq. eexists. split; [done|]. cbn. split; [|exact Hu']. pose proof (Hu app Ha) as ->.
      destruct (pred (users k) =? 0)%nat eqn:Hz; [by specialize (Hna eq_refl)|]. apply Nat.eqb_neq in Hz. lia.
    + rewrite lookup_insert_ne by done. by exists k'.
Qed.

Lemma step_inv s s' : lock_inv s -> step s s' -> lock_inv s'.
Proof.
  intros Hi Hs. destruct Hs as [g app Hg|g app l k Hg Hk Hf|g app l Hg|g app l Hg|g app l Hg|g app l Hg|g app l Hg|g app l Hg].
  - by apply inv_acquire.
  - by apply (inv_gate s g (Waiting app l) (Acquired app l) true k).
  - by apply (inv_move s g (Waiting app l)).
  - by apply (inv_move s g (Acquired app l)).
  - by apply (inv_move s g (Acquired app l)).
  - by apply (inv_move s g (Holding app l)).
  - destruct (li_proc s Hi g _ Hg) as [[k Hk] _]. apply (inv_gate s g (Leaving app l) (Forgetting app l) false k); try done.
    pose proof (li_gate s Hi l k Hk) as Hgate. pose proof (count_pos (occupies l) (procs s) g _ Hg) as Hpos.
    unfold occupies at 1 in Hpos. cbn in Hpos. rewrite Nat.eqb_refl in Hpos. specialize (Hpos eq_refl). destruct (gate_full k); [done|lia].
  - by apply inv_forget.
Qed.

Lemma reachable_lock_inv s : reachable s -> lock_inv s.
Proof. apply (steps_invariant step lock_inv step_inv initial s initial_inv). Qed.

(** ** Properties *)

(** C37: mutations of one app exclude each other.  In every reachable state of any
    number of goroutines, under every interleaving, cancelled contexts included,
    at most one goroutine holds the lock of an app. *)
Theorem app_lock_exclusive s g1 g2 app l1 l2 :
  reachable s -> procs s !! g1 = Some (Holding app l1) -> procs s !! g2 = Some (Holding app l2) -> g1 = g2.
Proof.
  intros Hr H1 H2. pose proof (reachable_lock_inv s Hr) as Hi.
  destruct (li_proc s Hi g1 _ H1) as [[k Hk] A1], (li_proc s Hi g2 _ H2) as [_ A2]. cbn in *.
  assert (l2 = l1) as -> by congruence. eapply (count_one (occupies l1) (procs s)); [|exact H1|exact H2|..].
  - rewrite (li_gate s Hi l1 k Hk). case_match; lia.
  - unfold occupies. cbn. by rewrite Nat.eqb_refl.
  - unfold occupies. cbn. by rewrite Nat.eqb_refl.
Qed.

(** Locks do not leak and do not block: an app has an entry in the map only
    while a goroutine uses it, and when the lock of an app is free every
    waiting goroutine can enter. *)
Theorem app_lock_reclaimed s :
  reachable s ->
  (forall app, is_Some (apps s !! app) -> exists g p, procs s !! g = Some p /\ app_of p = app) /\
  (forall g app l, procs s !! g = Some (Waiting app l) ->
     (forall g' p, procs s !! g' = Some p -> app_of p = app -> inside p = false) ->
     exists s', step s s' /\ procs s' !! g = Some (Acquired app l)).
Proof.
  intros Hr. pose proof (reachable_lock_inv s Hr) as Hi. split.
  - intros app [l Hl]. destruct (li_apps s Hi app l Hl) as (k & Hk & Hpos & Hu). rewrite (li_users s Hi l k Hk) in Hpos.
    unfold count in Hpos. destruct (map_choose (filter (fun kv => uses l kv.2 = true) (procs s))) as (g & p & Hp).
    { intros E. rewrite E, map_size_empty in Hpos. lia. }
    apply map_lookup_filter_Some in Hp as [Hp Hup]. exists g, p. split; [done|]. apply Hu.
    destruct (li_proc s Hi g p Hp) as [_ Ha]. unfold uses in Hup. cbn in Hup. apply Nat.eqb_eq in Hup. by rewrite <- Hup.
  - intros g app l Hg Hfree. destruct (li_proc s Hi g _ Hg) as [[k Hk] Ha]. cbn in Hk, Ha.
    assert (Hgate : gate_full k = false).
    { pose proof (li_gate s Hi l k Hk) as Hc. destruct (gate_full k); [exfalso|done].
      unfold count in Hc. destruct (map_choose (filter (fun kv => occupies l kv.2 = true) (procs s))) as (g' & p & Hp).
      { intros E. rewrite E, map_size_empty in Hc. lia. }
      apply map_lookup_filter_Some in Hp as [Hp Hop]. unfold occupies in Hop. cbn in Hop. bools.
      destruct (li_proc s Hi g' p Hp) as [_ Hap]. apply Nat.eqb_eq in H. rewrite H in Hap.
      destruct (li_apps s Hi app l Ha) as (_ & _ & _ & Hu). specialize (Hu _ Hap). by rewrite (Hfree g' p Hp Hu) in H0. }
    exists (move g (Acquired app l) (set_gate true l s)). split; [by eapply step_enter|].
    unfold set_gate. rewrite Hk. cbn. by rewrite lookup_insert_eq.
Qed.

(** ** Two goroutines on one app *)

Definition one_waits : state := move 1 (Waiting "shop" 0) (lookup_lock "shop" initial).1.
Definition one_holds : state := move 1 (Holding "shop" 0) (move 1 (Acquired "shop" 0) (set_gate true 0 one_waits)).
Definition two_waits : state := move 2 (Waiting "shop" 0) (lookup_lock "shop" one_holds).1.

Lemma two_waits_reachable : reachable two_waits.
Proof.
  assert (R1 : reachable one_waits).
  { eapply steps_step; [apply steps_refl|]. exact (step_acquire initial 1 "shop" eq_refl). }
  assert (R2 : reachable (move 1 (Acquired "shop" 0) (set_gate true 0 one_waits))).
  { eapply steps_step; [exact R1|]. by eapply step_enter. }
  assert (R3 : reachable one_holds). { eapply steps_step; [exact R2|]. by eapply step_ok. }
  eapply steps_step; [exact R3|]. exact (step_acquire one_holds 2 "shop" eq_refl).
Qed.

Lemma app_lock_exclusive_witness :
  procs two_waits !! 1%nat = Some (Holding "shop" 0) /\ forall g l, procs two_waits !! g = Some (Holding "shop" l) -> g = 1%nat.
Proof.
  split; [vm_compute; reflexivity|]. intros g l Hg.
  apply (app_lock_exclusive two_waits g 1%nat "shop" l 0%nat two_waits_reachable Hg). vm_compute. reflexivity.
Defined.

Lemma app_lock_reclaimed_witness : exists s', step one_waits s' /\ procs s' !! 1%nat = Some (Acquired "shop" 0).
Proof.
  assert (R1 : reachable one_waits).
  { eapply steps_step; [apply steps_refl|]. exact (step_acquire initial 1 "shop" eq_refl). }
  destruct (app_lock_reclaimed one_waits R1) as [_ Henter]. apply (Henter 1%nat "shop" 0%nat); [vm_compute; reflexivity|].
  intros g p Hg _. unfold one_waits, move in Hg. cbn [procs] in Hg. apply lookup_insert_Some in Hg as [[_ <-]|[_ Hg]]; [reflexivity|].
  vm_compute in Hg. destruct g; discriminate.
Defined.
