(* ===== verification/Security.v ===== *)
(** * Tokens, secrets, registry credentials and build provenance
    (internal/security, internal/registryauth, internal/version,
    and the caller identity of internal/server)

    Random bytes are arguments.  AES-GCM is an interface with the one law the
    program relies on: opening what was sealed under the same nonce gives the
    plaintext back. *)

From S2P Require Import Prelude GoStrings Regexp Sha256 GoJson Appconfig.
From Stdlib Require Import Ascii String.
Local Open Scope Z_scope.

Definition byte_list (l : list Z) : Prop := Forall (fun b => 0 <= b < 256) l.

(** ** Base64 ([encoding/base64]) *)

Definition string_of (l : list Z) : string := foldr (fun b s => String (z2b b) s) "" l.

Definition b64_char (url : bool) (n : Z) : ascii :=
  if n <? 26 then z2b (65 + n) else if n <? 52 then z2b (71 + n) else if n <? 62 then z2b (n - 4)
  else if n =? 62 then (if url then "-" else "+")%char else (if url then "_" else "/")%char.

Definition b64_val (url : bool) (a : ascii) : option Z :=
  let c := b2z a in
  if byte_in 65 90 a then Some (c - 65) else if byte_in 97 122 a then Some (c - 71) else if byte_in 48 57 a then Some (c + 4)
  else if Ascii.eqb a (b64_char url 62) then Some 62 else if Ascii.eqb a (b64_char url 63) then Some 63 else None.

(** Groups of three bytes as sextets. *)
Fixpoint sextets (l : list Z) : list Z :=
  match l with
  | a :: b :: c :: l' => a / 4 :: (a mod 4) * 16 + b / 16 :: (b mod 16) * 4 + c / 64 :: c mod 64 :: sextets l'
  | [a; b] => [a / 4; (a mod 4) * 16 + b / 16; (b mod 16) * 4]
  | [a] => [a / 4; (a mod 4) * 16]
  | [] => []
  end.

Fixpoint unsextets (l : list Z) : option (list Z) :=
  match l with
  | x :: y :: z :: w :: l' => rest ← unsextets l'; Some (x * 4 + y / 16 :: (y mod 16) * 16 + z / 4 :: (z mod 4) * 64 + w :: rest)
  | [x; y; z] => Some [x * 4 + y / 16; (y mod 16) * 16 + z / 4]
  | [x; y] => Some [x * 4 + y / 16]
  | [_] => None
  | [] => Some []
  end.

Definition b64_text (url : bool) (l : list Z) : string := foldr (fun n s => String (b64_char url n) s) "" l.

(** [base64.RawURLEncoding], [base64.StdEncoding] *)
Definition RawURL_EncodeToString (l : list Z) : string := b64_text true (sextets l).
Definition Std_EncodeToString (l : list Z) : string :=
  b64_text false (sextets l) +:+ (match (List.length l mod 3)%nat with 1%nat => "==" | 2%nat => "=" | _ => "" end).

Fixpoint b64_vals (url : bool) (s : string) : option (list Z) :=
  match s with
  | EmptyString => Some []
  | String a s' =>
      if (b2z a =? 10) || (b2z a =? 13) then b64_vals url s'
      else v ← b64_val url a; rest ← b64_vals url s'; Some (v :: rest)
  end.

Definition RawURL_DecodeString (s : string) : option (list Z) := b64_vals true s ≫= unsextets.

(** ** tokens.go *)

Definition AdminTokenPrefix : string := "dep_admin".
Definition JoinTokenPrefix : string := "dep_join".
Definition AgentTokenPrefix : string := "dep_agent".
Definition knownPrefixes : list string := [AdminTokenPrefix; JoinTokenPrefix; AgentTokenPrefix].
Definition ErrInvalidPrefix : error := ErrSentinel "invalid token prefix".
Definition ErrEmptyKey : error := ErrSentinel "token hash key is required".
Definition RandomTokenBytes : Z := 32.

Definition validPrefix (prefix : string) : bool := existsb (String.eqb prefix) knownPrefixes.

(** [raw]: what [rand.Read] delivered, [None] when it failed. *)
Definition NewToken (prefix : string) (raw : option (list Z)) : result string :=
  if negb (validPrefix prefix) then Err (ErrWrap "%w: %s" [AStr prefix] ErrInvalidPrefix)
  else match raw with
       | None => Err (ErrSentinel "rand")
       | Some bytes => Ok (prefix +:+ "_" +:+ RawURL_EncodeToString bytes)
       end.

(** [hmac.New(sha256.New, key)] over one message. *)
Definition hmac_key (key : list Z) : list Z :=
  let k := if (64 <? List.length key)%nat then Sum256 (string_of key) else key in
  (k ++ repeat 0 (64 - List.length k))%list.
Definition xor_pad (pad : Z) (l : list Z) : list Z := Z.lxor pad <$> l.
Definition hmac_sha256 (key : list Z) (msg : string) : list Z :=
  let k := hmac_key key in
  Sum256 (string_of (xor_pad 92 k) +:+ string_of (Sum256 (string_of (xor_pad 54 k) +:+ msg))).

Definition HashToken (key : list Z) (token : string) : result string :=
  if bool_decide (key = []) then Err ErrEmptyKey else Ok (EncodeToString (hmac_sha256 key token)).

(** [subtle.ConstantTimeCompare] of the bytes *)
Definition CompareTokenHash (expectedHash actualHash : string) : bool := String.eqb expectedHash actualHash.

Definition Prefix (token : string) : result string :=
  match List.find (fun p => HasPrefix token (p +:+ "_") && (slen p + 1 <? slen token)) knownPrefixes with
  | Some p => Ok p
  | None => Err ErrInvalidPrefix
  end.

Definition RedactToken (token : string) : string :=
  if String.eqb token "" then ""
  else match Prefix token with
       | Err _ => "[REDACTED]"
       | Ok prefix =>
           if slen token <=? slen prefix + 9 then prefix +:+ "_[REDACTED]"
           else prefix +:+ "_" +:+ s_take 4 (s_drop (String.length prefix + 1) token) +:+ "...[REDACTED]"
       end.

(** ** secrets.go *)

Class AEAD := {
  NonceSize : nat;
  Seal : list Z -> list Z -> list Z;             (* nonce, plaintext *)
  Open : list Z -> list Z -> option (list Z);    (* nonce, ciphertext *)
  Open_Seal : forall nonce p, List.length nonce = NonceSize -> byte_list p -> Open nonce (Seal nonce p) = Some p;
  Seal_bytes : forall nonce p, byte_list (Seal nonce p)
}.

Section cipher.
Context `{AEAD}.

Definition SecretKeyBytes : Z := 32.
Definition ErrInvalidCiphertext : error := ErrSentinel "invalid secret ciphertext".

(** [nonce]: what [rand.Read] delivered, [None] when it failed. *)
Definition Encrypt (nonce : option (list Z)) (plaintext : string) : result string :=
  match nonce with
  | None => Err (ErrWrap "generate secret nonce: %w" [] (ErrSentinel "rand"))
  | Some nonce => Ok (RawURL_EncodeToString (nonce ++ Seal nonce (bytes_of plaintext))%list)
  end.

Definition Decrypt (encoded : string) : result string :=
  match RawURL_DecodeString encoded with
  | None => Err ErrInvalidCiphertext
  | Some ciphertext =>
      if (List.length ciphertext <? NonceSize)%nat then Err ErrInvalidCiphertext
      else match Open (firstn NonceSize ciphertext) (skipn NonceSize ciphertext) with
           | None => Err ErrInvalidCiphertext
           | Some p => Ok (string_of p)
           end
  end.
End cipher.

(** ** registryauth/credential.go *)

Record Credential := MkCredential {
  Cred_AppName : string; Cred_Revision : string; Cred_Registry : string; Cred_Username : string; Cred_Password : string }.

Definition ErrInvalidCredential : error := ErrSentinel "invalid registry credential or image binding".

(** [repositoryPart]: runs of lower alphanumerics joined by separators. *)
Definition repositoryPart : regex :=
  let word := RPlus (cls lower_alnum) in
  RSeq word (RStar (RSeq (RAlt (cls [(46, 46); (95, 95)]) (RAlt (RLit "__") (RPlus (RLit "-")))) word)).

(** A rune below 32, or 127: both are single bytes. *)
Definition control_byte (a : ascii) : bool := (b2z a <? 32) || (b2z a =? 127).

Definition Credential_Validate (c : Credential) : result unit :=
  _ ← check (negb (ValidAppName (Cred_AppName c)) || negb (ValidRevision (Cred_Revision c)) ||
             (negb (String.eqb (Cred_Registry c) "docker.io") && negb (String.eqb (Cred_Registry c) "ghcr.io")) ||
             (slen (Cred_Username c) =? 0) || (256 <? slen (Cred_Username c)) ||
             (slen (Cred_Password c) =? 0) || (8192 <? slen (Cred_Password c)) || contains_byte (Cred_Username c) ":"%char)
        ErrInvalidCredential;
  check (existsb (fun s => negb (ValidString s) || exists_byte control_byte s) [Cred_Username c; Cred_Password c]) ErrInvalidCredential.

Definition Credential_ValidateFor (c : Credential) (appName revision image : string) : result unit :=
  _ ← check (negb (is_ok (Credential_Validate c)) || negb (String.eqb (Cred_AppName c) appName) ||
             negb (String.eqb (Cred_Revision c) revision) || (512 <? slen image) || negb (HasPrefix image (Cred_Registry c +:+ "/")))
        ErrInvalidCredential;
  let '(name, digest, ok) := Cut (TrimPrefix image (Cred_Registry c +:+ "/")) "@sha256:" in
  _ ← check (negb ok || negb (ValidRevision digest) || (255 <? slen name)) ErrInvalidCredential;
  let parts := Split_byte name "/"%char in
  _ ← check (List.length parts <? 2)%nat ErrInvalidCredential;
  check (negb (forallb (re_match repositoryPart) parts)) ErrInvalidCredential.

Definition DockerConfigJSON (c : Credential) : result string :=
  _ ← Credential_Validate c;
  let host := if String.eqb (Cred_Registry c) "docker.io" then "https://index.docker.io/v1/" else Cred_Registry c in
  let auth := Std_EncodeToString (bytes_of (Cred_Username c +:+ ":" +:+ Cred_Password c)) in
  Ok (json_print (JObj [("auths", JObj [(host, JObj [("auth", enc_string auth)])])])).

(** ** Callers (server/identity.go, node.go) *)

Inductive CallerKind := CallerAdmin | CallerAgent | CallerJoin.

#[export] Instance CallerKind_eq_dec : EqDecision CallerKind.
Proof. solve_decision. Defined.

Definition kind_text (k : CallerKind) : string :=
  match k with CallerAdmin => "admin" | CallerAgent => "agent" | CallerJoin => "join" end.

(** The kind of the caller of the context, if the request was authenticated. *)
Definition requireCaller (caller : option CallerKind) (kind : CallerKind) : result unit :=
  match caller with
  | None => Err (ErrStatus Unauthenticated "authorization bearer token is required")
  | Some k => check (negb (bool_decide (k = kind))) (ErrStatus PermissionDenied (kind_text kind +:+ " token is required"))
  end.

(** [newID]: 16 random bytes, [None] when [rand.Read] failed. *)
Definition newID (prefix : string) (raw : option (list Z)) : result string :=
  match raw with
  | None => Err (ErrWrap "generate %s id: %w" [AStr prefix] (ErrSentinel "rand"))
  | Some bytes => Ok (prefix +:+ "_" +:+ RawURL_EncodeToString bytes)
  end.

(** ** version.go *)

(** [debug.BuildInfo]: the settings, [None] when there is no build information. *)
Definition setting (settings : list (string * string)) (k : string) : string :=
  foldl (fun v kv => if String.eqb kv.1 k then kv.2 else v) "" settings.

Definition provenanceFailure (commit reason : string) : string :=
  (if String.eqb commit "" then "unknown" else commit) +:+ "-" +:+ reason.

(** The runes of the range loop are compared as bytes: a byte of a longer rune is
    outside of the accepted range as well. *)
Definition version_validRevision (revision : string) : bool :=
  ((slen revision =? 40) || (slen revision =? 64)) &&
  forall_byte (fun a => negb ((b2z a <? 48) || ((57 <? b2z a) && (b2z a <? 97)) || (102 <? b2z a))) revision.

Definition verifiedCommit (embedded : string) (info : option (list (string * string))) : string :=
  match info with
  | None => provenanceFailure embedded "unverified"
  | Some settings =>
      if negb (String.eqb (setting settings "vcs") "git") || negb (version_validRevision (setting settings "vcs.revision"))
      then provenanceFailure embedded "unverified"
      else
        let revision := setting settings "vcs.revision" in
        let modified := setting settings "vcs.modified" in
        if String.eqb modified "true" || String.eqb modified "false" then
          let expected := if String.eqb modified "true" then revision +:+ "-dirty" else revision in
          if negb (String.eqb embedded expected) then provenanceFailure expected "mismatch" else expected
        else provenanceFailure embedded "unverified"
  end.

(** ** Lemmas *)

Lemma string_of_bytes s : string_of (bytes_of s) = s.
Proof. unfold string_of. induction s as [|a s IH]; [done|]. cbn [bytes_of foldr]. by rewrite z2b_b2z, IH. Qed.

Definition sextet_list (l : list Z) : Prop := Forall (fun n => 0 <= n < 64) l.

Lemma bytes_of_bytes s : byte_list (bytes_of s).
Proof. induction s; cbn; constructor; [apply b2z_range|done]. Qed.

Lemma sextets_ok l : byte_list l -> sextet_list (sextets l) /\ unsextets (sextets l) = Some l.
Proof.
  assert (Hn : forall n l, (List.length l <= n)%nat -> byte_list l -> sextet_list (sextets l) /\ unsextets (sextets l) = Some l).
  { clear l. induction n as [|n IH]; intros l Hl Hb; [destruct l; [by split; [constructor|]|cbn in Hl; lia]|].
    destruct l as [|a [|b [|c l]]]; [by split; [constructor|]| | |].
    - inversion Hb as [|? ? Ha _]; subst. cbn [sextets unsextets]. split.
      + repeat constructor; Z.to_euclidean_division_equations; lia.
      + do 2 f_equal. Z.to_euclidean_division_equations; lia.
    - inversion Hb as [|? ? Ha Hb']; subst. inversion Hb' as [|? ? Hb1 _]; subst. cbn [sextets unsextets]. split.
      + repeat constructor; Z.to_euclidean_division_equations; lia.
      + repeat f_equal; Z.to_euclidean_division_equations; lia.
    - inversion Hb as [|? ? Ha Hb']; subst. inversion Hb' as [|? ? Hb1 Hb'']; subst. inversion Hb'' as [|? ? Hc Hl']; subst.
      cbn in Hl. destruct (IH l ltac:(lia) Hl') as [IH1 IH2]. cbn [sextets unsextets]. split.
      + repeat (constructor; [Z.to_euclidean_division_equations; lia|]). exact IH1.
      + rewrite IH2. cbn [mbind option_bind]. repeat f_equal; Z.to_euclidean_division_equations; lia. }
  intros Hb. by apply (Hn (List.length l)).
Qed.

Lemma b64_val_char n : 0 <= n < 64 -> b64_val true (b64_char true n) = Some n /\ b2z (b64_char true n) <> 10 /\ b2z (b64_char true n) <> 13.
Proof.
  intros Hr. assert (Hall : forallb (fun k => let n := Z.of_nat k in bool_decide (b64_val true (b64_char true n) = Some n) &&
    negb (b2z (b64_char true n) =? 10) && negb (b2z (b64_char true n) =? 13)) (seq 0 64) = true) by (vm_compute; reflexivity).
  rewrite forallb_forall in Hall. specialize (Hall (Z.to_nat n)). rewrite in_seq in Hall. specialize (Hall ltac:(lia)).
  cbv zeta in Hall. rewrite Z2Nat.id in Hall by lia. bools. done.
Qed.

Lemma b64_vals_text l : sextet_list l -> b64_vals true (b64_text true l) = Some l.
Proof.
  induction 1 as [|n l Hn _ IH]; [done|]. cbn [b64_text foldr b64_vals]. destruct (b64_val_char n Hn) as (Hv & H1 & H2).
  rewrite (proj2 (Z.eqb_neq _ _) H1), (proj2 (Z.eqb_neq _ _) H2). cbn [orb]. rewrite Hv. cbn [mbind option_bind].
  unfold b64_text in IH. by rewrite IH.
Qed.

Lemma RawURL_roundtrip l : byte_list l -> RawURL_DecodeString (RawURL_EncodeToString l) = Some l.
Proof.
  intros Hl. destruct (sextets_ok l Hl) as [H1 H2]. unfold RawURL_DecodeString, RawURL_EncodeToString.
  rewrite b64_vals_text by done. exact H2.
Qed.

Lemma Cut_found s sep before after : Cut s sep = (before, after, true) -> s = before +:+ sep +:+ after.
Proof.
  revert before after. induction s as [|a s IH]; intros before after Hc.
  - cbn [Cut] in Hc. destruct (HasPrefix "" sep) eqn:Hp; [|done]. injection Hc as <- <-.
    apply HasPrefix_spec in Hp as [t Ht]. destruct sep; [|done]. done.
  - cbn [Cut] in Hc. destruct (HasPrefix (String a s) sep) eqn:Hp.
    + injection Hc as <- <-. apply HasPrefix_spec in Hp as [t Ht]. rewrite Ht. by rewrite s_drop_app.
    + destruct (Cut s sep) as [[b x] ok] eqn:E. destruct ok; [|done]. injection Hc as <- <-. by rewrite (IH b x eq_refl).
Qed.

(** ** Properties *)

Lemma knownPrefix_Prefix p secret : In p knownPrefixes -> secret <> "" -> Prefix (p +:+ "_" +:+ secret) = Ok p.
Proof.
  intros Hp Hs. assert (Hl : 0 < slen secret) by (destruct secret; [done|unfold slen; cbn; lia]). unfold slen in Hl.
  destruct Hp as [<-|[<-|[<-|[]]]]; unfold Prefix, knownPrefixes; cbn -[Z.ltb slen]; unfold slen; cbn -[Z.ltb Z.of_nat];
    destruct secret; try done; by rewrite (proj2 (Z.ltb_lt _ _)) by (cbn [String.length] in *; lia).
Qed.

Section secrets.
Context `{AEAD}.

Lemma Decrypt_Encrypt nonce plaintext :
  List.length nonce = NonceSize -> byte_list nonce ->
  Decrypt (RawURL_EncodeToString (nonce ++ Seal nonce (bytes_of plaintext))%list) = Ok plaintext.
Proof.
  intros Hn Hb. unfold Decrypt.
  rewrite RawURL_roundtrip by (apply Forall_app; split; [exact Hb|apply Seal_bytes]).
  rewrite (proj2 (Nat.ltb_ge _ _)) by (rewrite length_app; lia).
  rewrite <- Hn, firstn_app, skipn_app, firstn_all, skipn_all, Nat.sub_diag. cbn [firstn skipn app].
  rewrite drop_0, take_0, app_nil_r, Open_Seal by (exact Hn || apply bytes_of_bytes). by rewrite string_of_bytes.
Qed.

(** A stored secret is recovered: whatever bytes the nonce has, and whatever the
    plaintext, [Encrypt] succeeds and [Decrypt] of the text it returns is the plaintext. *)
Theorem secret_roundtrip (nonce : list Z) (plaintext : string) :
  List.length nonce = NonceSize -> byte_list nonce ->
  exists text, Encrypt (Some nonce) plaintext = Ok text /\ Decrypt text = Ok plaintext.
Proof. intros Hn Hb. eexists; split; [reflexivity|by apply Decrypt_Encrypt]. Qed.
End secrets.


(** An additive stream cipher keyed by the first byte of its nonce satisfies the interface. *)
Definition shift_bytes (k : Z) (l : list Z) : list Z := (fun b => (b + k) mod 256) <$> l.

Lemma shift_bytes_bytes k l : byte_list (shift_bytes k l).
Proof. induction l as [|b l IH]; constructor; [apply Z.mod_pos_bound; lia|exact IH]. Qed.

Lemma shift_bytes_inv k l : byte_list l -> shift_bytes (- k) (shift_bytes k l) = l.
Proof.
  induction 1 as [|b l Hb _ IH]; [done|]. unfold shift_bytes in *. cbn [fmap list_fmap]. rewrite IH. f_equal.
  rewrite Zplus_mod_idemp_l. replace (b + k + - k) with b by lia. apply Z.mod_small; lia.
Qed.

Definition shift_aead : AEAD := {|
  NonceSize := 12;
  Seal := fun nonce p => shift_bytes (nth 0 nonce 0) p;
  Open := fun nonce c => Some (shift_bytes (- nth 0 nonce 0) c);
  Open_Seal := fun nonce p _ Hp => f_equal Some (shift_bytes_inv (nth 0 nonce 0) p Hp);
  Seal_bytes := fun nonce p => shift_bytes_bytes (nth 0 nonce 0) p
|}.

Lemma secret_roundtrip_witness :
  exists text, @Encrypt shift_aead (Some [200; 1; 2; 3; 4; 5; 6; 7; 8; 9; 10; 11]) "postgres://u:p@db" = Ok text /\
    @Decrypt shift_aead text = Ok "postgres://u:p@db".
Proof. apply (@secret_roundtrip shift_aead); [reflexivity|repeat constructor; lia]. Defined.

(** A generated token is recognised as its own kind, and carries all of the random
    bytes it was made of: decoding what follows the prefix gives them back. *)
Theorem NewToken_faithful prefix raw :
  validPrefix prefix = true -> Z.of_nat (List.length raw) = RandomTokenBytes -> byte_list raw ->
  exists token secret, NewToken prefix (Some raw) = Ok token /\ token = prefix +:+ "_" +:+ secret /\
    Prefix token = Ok prefix /\ RawURL_DecodeString secret = Some raw.
Proof.
  intros Hp Hl Hb. unfold NewToken. rewrite Hp. cbn [negb].
  do 2 eexists; split; [reflexivity|]; split; [reflexivity|]. split; [|by apply RawURL_roundtrip].
  apply existsb_exists in Hp as (p & Hin & Heq). apply String.eqb_eq in Heq as ->. apply knownPrefix_Prefix; [done|].
  destruct raw as [|a [|b [|c raw]]]; done.
Qed.

Lemma NewToken_faithful_witness :
  exists token secret, NewToken "dep_join" (Some (repeat 251 32)) = Ok token /\ token = "dep_join" +:+ "_" +:+ secret /\
    Prefix token = Ok "dep_join" /\ RawURL_DecodeString secret = Some (repeat 251 32).
Proof. apply NewToken_faithful; [reflexivity|reflexivity|]. unfold byte_list. repeat constructor; lia. Defined.

(** A redacted token tells nothing of the secret but its first four characters, and
    not even those when the secret has eight characters or fewer: the result is a
    function of the prefix and of those characters, for every kind of token. *)
Theorem RedactToken_reveals p secret :
  In p knownPrefixes -> secret <> "" ->
  RedactToken (p +:+ "_" +:+ secret) =
    if slen secret <=? 8 then p +:+ "_[REDACTED]" else p +:+ "_" +:+ s_take 4 secret +:+ "...[REDACTED]".
Proof.
  intros Hp Hs. unfold RedactToken. rewrite (knownPrefix_Prefix p secret Hp Hs).
  assert (Hlen : slen (p +:+ "_" +:+ secret) = slen p + 1 + slen secret).
  { unfold slen. rewrite !s_length_app. cbn [String.length]. lia. }
  destruct (String.eqb_spec (p +:+ "_" +:+ secret) "") as [E|_]; [by destruct Hp as [<-|[<-|[<-|[]]]]|].
  rewrite Hlen. replace (slen p + 1 + slen secret <=? slen p + 9) with (slen secret <=? 8)
    by (apply eq_true_iff_eq; rewrite !Z.leb_le; lia).
  by destruct Hp as [<-|[<-|[<-|[]]]].
Qed.

Lemma RedactToken_reveals_witness : RedactToken ("dep_agent" +:+ "_" +:+ "c2VjcmV0LXNlY3JldA") = "dep_agent_c2Vj...[REDACTED]".
Proof. rewrite (RedactToken_reveals "dep_agent" "c2VjcmV0LXNlY3JldA"); [reflexivity|by right; right; left|done]. Defined.

(** ** Registry credentials *)

(** A repository name: at least two path components, each of them accepted. *)
Definition repository_name (name : string) : Prop :=
  (2 <= List.length (Split_byte name "/"%char))%nat /\ Forall (fun p => re_match repositoryPart p = true) (Split_byte name "/"%char).

(** An expression none of whose classes has the byte matches no string with it. *)
Fixpoint avoids (a : ascii) (r : regex) : bool :=
  match r with
  | RVoid | REps => true
  | RClass c => negb (in_class c a)
  | RSeq r1 r2 | RAlt r1 r2 => avoids a r1 && avoids a r2
  | RStar r1 => avoids a r1
  end.

Definition without (a : ascii) (s : string) : bool := forall_byte (fun b => negb (Ascii.eqb b a)) s.

Lemma avoids_lang a r s : re_lang r s -> avoids a r = true -> without a s = true.
Proof.
  unfold without. induction 1 as [|c b Hb|r1 r2 s1 s2 _ IH1 _ IH2|r1 r2 s1 _ IH1|r1 r2 s1 _ IH1|r1|r1 s1 s2 _ IH1 _ IH2];
    cbn [avoids]; intros Ha; bools; rewrite ?forall_byte_app, ?andb_true_iff; auto.
  cbn [forall_byte]. destruct (Ascii.eqb_spec b a) as [->|]; [congruence|done].
Qed.

Lemma Split_without a sep s : Ascii.eqb sep a = false -> Forall (fun p => without a p = true) (Split_byte s sep) -> without a s = true.
Proof.
  intros Hs. induction s as [|b s IH]; [done|]. cbn [Split_byte]. unfold without in *. cbn [forall_byte].
  destruct (Ascii.eqb_spec b sep) as [->|Hb].
  - intros [_ Hf]%Forall_cons. by rewrite Hs, (IH Hf).
  - destruct (Split_byte s sep) as [|p ps] eqn:E; intros [H1 Hf]%Forall_cons; cbn [forall_byte] in H1; bools;
      rewrite IH by (constructor; done); by rewrite H.
Qed.

Lemma Cut_first a sep name rest :
  without a name = true -> Cut (name +:+ String a sep +:+ rest) (String a sep) = (name, rest, true).
Proof.
  assert (Hcut : forall s sep, HasPrefix s sep = true -> Cut s sep = ("", s_drop (String.length sep) s, true))
    by (intros [|? ?] ? E; cbn [Cut]; by rewrite E).
  induction name as [|b name IH]; intros Hw.
  - change ("" +:+ String a sep +:+ rest) with (String a sep +:+ rest).
    rewrite Hcut by apply HasPrefix_app. by rewrite s_drop_app.
  - unfold without in Hw. cbn [forall_byte] in Hw. bools.
    change (String b name +:+ String a sep +:+ rest) with (String b (name +:+ String a sep +:+ rest)). cbn [Cut].
    replace (HasPrefix _ (String a sep)) with false; [by rewrite IH|].
    unfold HasPrefix. cbn [String.prefix]. destruct (Ascii.ascii_dec a b) as [->|]; [|done]. by rewrite Ascii.eqb_refl in H.
Qed.

Lemma TrimPrefix_app p s : TrimPrefix (p +:+ s) p = s.
Proof. unfold TrimPrefix. by rewrite HasPrefix_app, s_drop_app. Qed.

Lemma repository_name_no_at name : repository_name name -> without "@"%char name = true.
Proof.
  intros [_ Hf]. apply (Split_without _ "/"%char); [done|]. eapply Forall_impl; [exact Hf|].
  intros p Hp%re_match_spec. by apply (avoids_lang _ repositoryPart).
Qed.

(** A credential is accepted for an image exactly when it is valid, is the one saved
    for that app and revision, and the image is a repository of the credential's registry
    pinned by a digest: a saved revision cannot serve another app or registry, nor a tag. *)
Theorem credential_binding c app revision image :
  Credential_ValidateFor c app revision image = Ok tt <->
  Credential_Validate c = Ok tt /\ Cred_AppName c = app /\ Cred_Revision c = revision /\ slen image <= 512 /\
  exists name digest, image = Cred_Registry c +:+ "/" +:+ name +:+ "@sha256:" +:+ digest /\
    slen name <= 255 /\ repository_name name /\ ValidRevision digest = true.
Proof.
  unfold Credential_ValidateFor. rewrite check_bind, !orb_false_iff, !negb_false_iff, !String.eqb_eq, Z.ltb_ge.
  assert (Hv : is_ok (Credential_Validate c) = true <-> Credential_Validate c = Ok tt) by (destruct (Credential_Validate c) as [[]|]; done).
  rewrite Hv, HasPrefix_spec. split.
  - intros [((((Hc & Ha) & Hr) & Hl) & [t ->]) Hcut]. repeat (split; [done|]).
    rewrite TrimPrefix_app in Hcut. destruct (Cut t "@sha256:") as [[name digest] ok] eqn:E.
    rewrite !check_bind, !orb_false_iff, !negb_false_iff, Z.ltb_ge, Nat.ltb_ge in Hcut. destruct Hcut as [[[-> Hd] Hn] [H2 Hf]].
    apply check_ok, negb_false_iff in Hf. apply Cut_found in E as ->. exists name, digest. rewrite (s_app_assoc _ "/").
    repeat split; try done. apply Forall_forall. intros p Hp. rewrite forallb_forall in Hf. by apply Hf, list_elem_of_In.
  - intros (Hc & Ha & Hr & Hl & name & digest & -> & Hn & Hrep & Hd). rewrite (s_app_assoc _ "/") in *.
    split; [repeat split; eauto|]. rewrite TrimPrefix_app.
    change "@sha256:" with (String "@"%char "sha256:"). rewrite Cut_first by (by apply repository_name_no_at).
    destruct Hrep as [H2 Hf]. rewrite !check_bind, !orb_false_iff, check_ok, !negb_false_iff, Z.ltb_ge, Nat.ltb_ge.
    repeat split; try done. apply forallb_forall. intros p Hp%list_elem_of_In. rewrite Forall_forall in Hf. by apply Hf.
Qed.

(** ** Build provenance *)

Lemma hyphen_no_revision s t : version_validRevision (s +:+ String "-"%char t) = false.
Proof. unfold version_validRevision. rewrite forall_byte_app. cbn. by rewrite !andb_false_r. Qed.

Lemma provenanceFailure_no_revision commit reason : version_validRevision (provenanceFailure commit reason) = false.
Proof. apply hyphen_no_revision. Qed.

(** The version information shows a plain revision exactly when the build records
    that very revision of a clean git tree and the embedded commit agrees with it; in
    every other case what is shown is not a revision. *)
Theorem verified_commit_clean embedded info r :
  version_validRevision r = true /\ verifiedCommit embedded info = r <->
  version_validRevision r = true /\ embedded = r /\
  exists settings, info = Some settings /\ setting settings "vcs" = "git" /\
    setting settings "vcs.revision" = r /\ setting settings "vcs.modified" = "false".
Proof.
  assert (Hbad : forall commit reason, version_validRevision r = true -> provenanceFailure commit reason <> r).
  { intros c e Hr <-. by rewrite provenanceFailure_no_revision in Hr. }
  unfold verifiedCommit. split.
  - intros [Hr Hv]. split; [done|]. destruct info as [st|]; [|by apply Hbad in Hv].
    destruct (String.eqb_spec (setting st "vcs") "git") as [Hg|]; [|by apply Hbad in Hv].
    destruct (version_validRevision (setting st "vcs.revision")) eqn:Hrev; [|by apply Hbad in Hv]. cbn [negb orb] in Hv.
    destruct (String.eqb_spec (setting st "vcs.modified") "true") as [Hm|_]; cbn [orb] in Hv.
    + destruct (String.eqb embedded _); [|by apply Hbad in Hv]. cbn [negb] in Hv. subst r. by rewrite hyphen_no_revision in Hr.
    + destruct (String.eqb_spec (setting st "vcs.modified") "false") as [Hm|_]; [|by apply Hbad in Hv].
      destruct (String.eqb_spec embedded (setting st "vcs.revision")) as [->|]; [|by apply Hbad in Hv]. cbn [negb] in Hv.
      split; [done|]. by exists st.
  - intros (Hr & -> & st & -> & Hg & Hrev & Hm). split; [done|]. rewrite Hg, Hrev, Hm, Hr, String.eqb_refl. cbn. by rewrite String.eqb_refl.
Qed.
