(* ===== verification/Vault.v ===== *)
(** * Revisioned secrets (internal/server/environment.go, registry_credentials.go
    and their repositories in internal/db)

    Environment bundles and registry credentials are encrypted rows that are
    keyed by app and revision.  A revision is written once: a retry of the same
    request is answered from the stored row, another value under the same
    revision is refused.  The authenticated plaintext repeats the identity of
    its row, so that a ciphertext cannot serve another app or revision. *)

From S2P Require Import Prelude GoStrings Regexp Sha256 GoJson GoTime Appconfig Db Security.
From Stdlib Require Import Ascii String.
Local Open Scope Z_scope.

(** ** The tables *)

Record bundle_row := BundleRow { vb_app : string; vb_revision : string; vb_names : string; vb_ciphertext : string; vb_created : string }.
Record credential_row := CredentialRow {
  vc_app : string; vc_revision : string; vc_registry : string; vc_ciphertext : string; vc_created : string }.
Record secret_row := SecretRow { vs_app : string; vs_name : string; vs_ciphertext : string; vs_created : string; vs_updated : string }.

Record vault := MkVault {
  v_bundles : gmap (string * string) bundle_row;
  v_credentials : gmap (string * string) credential_row;
  v_secrets : gmap (string * string) secret_row;
  v_faults : list fault }.

Definition with_bundles (b : gmap (string * string) bundle_row) (v : vault) : vault := MkVault b (v_credentials v) (v_secrets v) (v_faults v).
Definition with_credentials (c : gmap (string * string) credential_row) (v : vault) : vault := MkVault (v_bundles v) c (v_secrets v) (v_faults v).
Definition with_secrets (s : gmap (string * string) secret_row) (v : vault) : vault := MkVault (v_bundles v) (v_credentials v) s (v_faults v).

(** The next driver call: its fault, and the state without it. *)
Definition v_next (v : vault) : fault * vault :=
  let '(o, fs) := next_fault (v_faults v) in (o, MkVault (v_bundles v) (v_credentials v) (v_secrets v) fs).

Definition v_query {A} (f : vault -> A) : ST vault A := fun v =>
  let '(o, v) := v_next v in
  match o with Fine => (Ok (f v), v) | _ => (Err ErrDriver, v) end.

(** A statement, or a commit, whose effect is [f]. *)
Definition v_exec (f : vault -> result (vault * Z)) : ST vault Z := fun v =>
  let '(o, v) := v_next v in
  match o, f v with
  | Failed, _ => (Err ErrDriver, v)
  | Fine, Ok (v', n) => (Ok n, v')
  | Fine, Err e => (Err e, v)
  | Ambiguous, Ok (v', _) => (Err ErrDriver, v')
  | Ambiguous, Err _ => (Err ErrDriver, v)
  end.

(** A statement inside a transaction that is committed later: no effect yet. *)
Definition v_step {A} (f : vault -> result A) : ST vault A := fun v =>
  let '(o, v) := v_next v in
  match o with Fine => (f v, v) | _ => (Err ErrDriver, v) end.

Definition revisions_of {A} (app : string) (m : gmap (string * string) A) : gmap (string * string) A :=
  filter (fun kv => kv.1.1 = app) m.

Definition without_app {A} (app : string) (m : gmap (string * string) A) : gmap (string * string) A :=
  filter (fun kv => kv.1.1 <> app) m.

(** The [INSERT ... SELECT ... WHERE count < limit] of a table. *)
Definition insert_limited {A} (limit : Z) (key : string * string) (r : A) (m : gmap (string * string) A)
    : result (gmap (string * string) A * Z) :=
  if Z.of_nat (size (revisions_of key.1 m)) <? limit then
    match m !! key with
    | Some _ => Err (ErrConstraint "primary key")
    | None => Ok (<[key := r]> m, 1)
    end
  else Ok (m, 0).

(** ** environment_bundle_repository.go *)

Record EnvironmentBundle := MkEnvironmentBundle {
  EB_AppName : string; EB_Revision : string; EB_NamesJSON : string; EB_Ciphertext : string; EB_CreatedAt : Z }.

Definition ErrEnvironmentBundleLimit : error := ErrSentinel "environment bundle revision limit reached".
Definition ErrEnvironmentBundleExists : error := ErrSentinel "environment bundle revision already exists".

(** [^[a-z0-9](?:[a-z0-9-]{0,61}[a-z0-9])?$] *)
Definition registryCredentialAppPattern : regex :=
  RSeq (cls lower_alnum) (ROpt (RSeq (RUpTo 61 (cls ((45, 45) :: lower_alnum))) (cls lower_alnum))).

Definition EnvironmentBundleRepository_Create (b : EnvironmentBundle) : ST vault unit :=
  let key := (EB_AppName b, EB_Revision b) in
  _ ← guard (negb (re_match registryCredentialAppPattern (EB_AppName b)) || String.eqb (EB_Ciphertext b) "" ||
             negb (re_match revisionPattern (EB_Revision b))) (ErrSentinel "invalid environment bundle");
  found ← v_query (fun v => v_bundles v !! key);
  _ ← guard (bool_decide (is_Some found)) ErrEnvironmentBundleExists;
  rows ← v_exec (fun v =>
    '(m, n) ← insert_limited 100 key (BundleRow (EB_AppName b) (EB_Revision b) (EB_NamesJSON b) (EB_Ciphertext b) (formatTime (EB_CreatedAt b)))
                (v_bundles v);
    Ok (with_bundles m v, n));
  guard (rows =? 0) ErrEnvironmentBundleLimit.

Definition EnvironmentBundleRepository_Find (app revision : string) : ST vault EnvironmentBundle :=
  found ← v_query (fun v => v_bundles v !! (app, revision));
  match found with
  | None => throw ErrNotFound
  | Some r =>
      created ← lift (parseStoredTime "created_at" (vb_created r));
      mret (MkEnvironmentBundle (vb_app r) (vb_revision r) (vb_names r) (vb_ciphertext r) created)
  end.

Definition EnvironmentBundleRepository_DeleteByApp (app : string) : ST vault unit :=
  _ ← v_exec (fun v => Ok (with_bundles (without_app app (v_bundles v)) v, Z.of_nat (size (revisions_of app (v_bundles v)))));
  mret tt.

(** ** registry_credential_repository.go *)

Record RegistryCredential := MkRegistryCredential {
  RC_AppName : string; RC_Revision : string; RC_Registry : string; RC_Ciphertext : string; RC_CreatedAt : Z }.

Definition ErrRegistryCredentialLimit : error := ErrSentinel "registry credential revision limit reached".
Definition ErrRegistryCredentialExists : error := ErrSentinel "registry credential revision already exists".
Definition ErrInvalidRegistryCredential : error := ErrSentinel "invalid registry credential".
Definition maxRegistryCredentialRevisions : Z := 100.

Definition validRegistryCredential (c : RegistryCredential) : bool :=
  re_match revisionPattern (RC_Revision c) && re_match registryCredentialAppPattern (RC_AppName c) &&
  (String.eqb (RC_Registry c) "docker.io" || String.eqb (RC_Registry c) "ghcr.io") &&
  negb (String.eqb (RC_Ciphertext c) "") && (slen (RC_Ciphertext c) <=? 32768).

(** The transaction reads, inserts and commits; only the commit has an effect. *)
Definition RegistryCredentialRepository_Create (c : RegistryCredential) : ST vault unit :=
  let key := (RC_AppName c, RC_Revision c) in
  let insert (v : vault) := insert_limited maxRegistryCredentialRevisions key
    (CredentialRow (RC_AppName c) (RC_Revision c) (RC_Registry c) (RC_Ciphertext c) (formatTime (RC_CreatedAt c))) (v_credentials v) in
  _ ← guard (negb (validRegistryCredential c)) ErrInvalidRegistryCredential;
  _ ← v_step (fun _ => Ok tt);
  found ← v_query (fun v => v_credentials v !! key);
  _ ← guard (bool_decide (is_Some found)) ErrRegistryCredentialExists;
  '(_, rows) ← v_step insert;
  _ ← guard (rows =? 0) ErrRegistryCredentialLimit;
  _ ← v_exec (fun v => '(m, n) ← insert v; Ok (with_credentials m v, n));
  mret tt.

Definition scanCredential (r : credential_row) : result RegistryCredential :=
  created ← parseStoredTime "created_at" (vc_created r);
  Ok (MkRegistryCredential (vc_app r) (vc_revision r) (vc_registry r) (vc_ciphertext r) created).

Definition RegistryCredentialRepository_Find (app revision : string) : ST vault RegistryCredential :=
  _ ← guard (negb (re_match registryCredentialAppPattern app) || negb (re_match revisionPattern revision)) ErrInvalidRegistryCredential;
  found ← v_query (fun v => v_credentials v !! (app, revision));
  match found with None => throw ErrNotFound | Some r => lift (scanCredential r) end.

(** The ciphertext is not selected. *)
Fixpoint scanCredentials (l : list credential_row) : result (list RegistryCredential) :=
  match l with
  | [] => Ok []
  | r :: l' =>
      created ← parseStoredTime "created_at" (vc_created r);
      rest ← scanCredentials l';
      Ok (MkRegistryCredential (vc_app r) (vc_revision r) (vc_registry r) "" created :: rest)
  end.

Definition revision_le (x y : credential_row) : Prop := str_le (vc_revision x) (vc_revision y).
#[export] Instance revision_le_dec x y : Decision (revision_le x y).
Proof. unfold revision_le. apply _. Defined.

Definition RegistryCredentialRepository_ListByApp (app : string) : ST vault (list RegistryCredential) :=
  _ ← guard (negb (re_match registryCredentialAppPattern app)) ErrInvalidRegistryCredential;
  rows ← v_query (fun v => merge_sort revision_le (map_to_list (revisions_of app (v_credentials v))).*2);
  lift (scanCredentials rows).

Definition RegistryCredentialRepository_DeleteByApp (app : string) : ST vault unit :=
  _ ← guard (negb (re_match registryCredentialAppPattern app)) ErrInvalidRegistryCredential;
  _ ← v_exec (fun v => Ok (with_credentials (without_app app (v_credentials v)) v, Z.of_nat (size (revisions_of app (v_credentials v)))));
  mret tt.

(** secret_repository.go *)
Record Secret := MkSecret { Sec_AppID : string; Sec_Name : string; Sec_Ciphertext : string; Sec_CreatedAt : Z; Sec_UpdatedAt : Z }.

(** An existing row keeps its creation time. *)
Definition SecretRepository_Set (s : Secret) : ST vault unit :=
  let key := (Sec_AppID s, Sec_Name s) in
  _ ← v_exec (fun v =>
        let created := match v_secrets v !! key with Some r => vs_created r | None => formatTime (Sec_CreatedAt s) end in
        Ok (with_secrets (<[key := SecretRow (Sec_AppID s) (Sec_Name s) (Sec_Ciphertext s) created (formatTime (Sec_UpdatedAt s))]> (v_secrets v)) v, 1));
  mret tt.

Definition SecretRepository_Find (appID name : string) : ST vault Secret :=
  row ← v_query (fun v => v_secrets v !! (appID, name));
  match row with
  | None => throw ErrNotFound
  | Some r =>
      created ← lift (parseStoredTime "created_at" (vs_created r));
      updated ← lift (parseStoredTime "updated_at" (vs_updated r));
      mret (MkSecret (vs_app r) (vs_name r) (vs_ciphertext r) created updated)
  end.

Definition SecretRepository_ListNamesByApp (appID : string) : ST vault (list string) :=
  v_query (fun v => merge_sort str_le (vs_name <$> rows (revisions_of appID (v_secrets v)))).

Definition SecretRepository_Delete (appID name : string) : ST vault unit :=
  mapRowsAffected (v_exec (fun v =>
    Ok (with_secrets (delete (appID, name) (v_secrets v)) v, if bool_decide (is_Some (v_secrets v !! (appID, name))) then 1 else 0))).

(** ** environment.go *)

Definition validEnvironmentRevision (revision : string) : bool :=
  (slen revision =? 64) && forall_byte is_hex revision.

(** The loop over the values, in the order the map yields them. *)
Fixpoint environment_loop (total : Z) (l : list (string * string)) : bool :=
  match l with
  | [] => true
  | (name, value) :: l' =>
      if negb (is_ok (ValidateSecretName name)) || (128 <? slen name) || negb (ValidString value) ||
         contains_byte value "000"%char || (8192 <? slen value) then false
      else
        let total := total + (slen name + slen value) in
        if 32768 <? total then false else environment_loop total l'
  end.

Definition validEnvironmentValues (values : gmap string string) : bool :=
  if (64 <? size values)%nat then false else environment_loop 0 (map_to_list values).

(** The plaintext of a bundle. *)
Record environmentPayload := MkEnvPayload {
  EP_Purpose : string; EP_AppName : string; EP_Revision : string; EP_Values : option (gmap string string) }.

Definition environment_fields : list string := ["Purpose"; "AppName"; "Revision"; "Values"].

Definition enc_environmentPayload (p : environmentPayload) : json :=
  JObj [("Purpose", enc_string (EP_Purpose p)); ("AppName", enc_string (EP_AppName p)); ("Revision", enc_string (EP_Revision p));
        ("Values", enc_labels (EP_Values p))].

Definition dec_environmentPayload : decoder environmentPayload := dec_struct (fun cur m =>
  a ← dec_field environment_fields "Purpose" dec_string (EP_Purpose cur) m;
  b ← dec_field environment_fields "AppName" dec_string (EP_AppName cur) m;
  c ← dec_field environment_fields "Revision" dec_string (EP_Revision cur) m;
  d ← dec_field environment_fields "Values" dec_labels (EP_Values cur) m;
  Some (MkEnvPayload a b c d)).

Definition environment_purpose : string := "deployer.environment.v1".

Definition environment_text (app revision : string) (values : gmap string string) : string :=
  json_print (enc_environmentPayload (MkEnvPayload environment_purpose app revision (Some values))).

(** The names, sorted; their JSON. *)
Definition environment_names (values : gmap string string) : list string := (sorted_entries values).*1.

Record EnvironmentBundleMetadata := MkEnvironmentMetadata {
  EM_AppName : string; EM_Revision : string; EM_Names : list string; EM_CreatedAt : string }.

Definition environmentMetadata (app revision : string) (values : gmap string string) (created : Z) : EnvironmentBundleMetadata :=
  MkEnvironmentMetadata app revision (environment_names values) (formatTime created).

Section services.
Context `{AEAD}.

Definition sameEnvironment (row : EnvironmentBundle) (payload : string) (values : gmap string string) : result EnvironmentBundleMetadata :=
  match Decrypt (EB_Ciphertext row) with
  | Err _ => Err (ErrStatus Internal "read environment bundle")
  | Ok plain =>
      _ ← check (negb (String.eqb plain payload)) (ErrStatus AlreadyExists "environment revision is immutable; use a new revision");
      Ok (environmentMetadata (EB_AppName row) (EB_Revision row) values (EB_CreatedAt row))
  end.

(** [nonce]: what [rand.Read] delivers to the cipher. *)
Definition CreateEnvironmentBundle (caller : option CallerKind) (nonce : option (list Z)) (now : Z) (appName revision : string)
    (values : gmap string string) : ST vault EnvironmentBundleMetadata :=
  _ ← lift (requireCaller caller CallerAdmin);
  let app := TrimSpace appName in
  _ ← guard (negb (ValidAppName app) || negb (validEnvironmentRevision revision) || negb (validEnvironmentValues values))
        (ErrStatus InvalidArgument "invalid environment bundle");
  let payload := environment_text app revision values in
  existing ← attempt (EnvironmentBundleRepository_Find app revision);
  match existing with
  | Ok row => lift (sameEnvironment row payload values)
  | Err e =>
      _ ← guard (negb (errors_Is e ErrNotFound)) (ErrStatus Internal "read environment bundle");
      ciphertext ← map_err (fun _ => ErrStatus Internal "encrypt environment bundle") (lift (Encrypt nonce payload));
      let bundle := MkEnvironmentBundle app revision (json_print (enc_slice enc_string (environment_names values))) ciphertext now in
      created ← attempt (EnvironmentBundleRepository_Create bundle);
      match created with
      | Ok _ => mret (environmentMetadata app revision values now)
      | Err e =>
          old ← attempt (EnvironmentBundleRepository_Find app revision);
          match old with
          | Ok row => lift (sameEnvironment row payload values)
          | Err _ =>
              throw (if errors_Is e ErrEnvironmentBundleLimit then ErrStatus ResourceExhausted "environment revision limit reached"
                     else ErrStatus Internal "save environment bundle")
          end
      end
  end.

(** The checks of a decrypted payload. *)
Definition openEnvironment (app revision plain : string) : result (gmap string string) :=
  match (if 262144 <? slen plain then None else json_parse plain ≫= dec_environmentPayload (MkEnvPayload "" "" "" None)) with
  | Some payload =>
      let values := default ∅ (EP_Values payload) in
      _ ← check (negb (String.eqb (EP_Purpose payload) environment_purpose) || negb (String.eqb (EP_AppName payload) app) ||
                 negb (String.eqb (EP_Revision payload) revision) || negb (validEnvironmentValues values))
            (ErrStatus FailedPrecondition "environment revision is invalid");
      Ok values
  | None => Err (ErrStatus FailedPrecondition "environment revision is invalid")
  end.

Definition resolveEnvironmentBundle (app revision : string) : ST vault (gmap string string) :=
  found ← attempt (EnvironmentBundleRepository_Find app revision);
  match found with
  | Err e =>
      throw (if errors_Is e ErrNotFound then ErrStatus FailedPrecondition "environment revision is not staged"
             else ErrStatus Internal "read environment bundle")
  | Ok bundle =>
      plain ← map_err (fun _ => ErrStatus Internal "decrypt environment bundle") (lift (Decrypt (EB_Ciphertext bundle)));
      lift (openEnvironment app revision plain)
  end.

(** ** registry_credentials.go *)

Definition registry_purpose : string := "deployer.registry.v1".

(** [registryCredentialPayload] of a credential, as JSON *)
Definition credential_fields : list string := ["purpose"; "app_name"; "revision"; "registry"; "username"; "password"].

Definition credentialPayload (c : Credential) : string :=
  json_print (JObj [("purpose", enc_string registry_purpose); ("app_name", enc_string (Cred_AppName c)); ("revision", enc_string (Cred_Revision c));
    ("registry", enc_string (Cred_Registry c)); ("username", enc_string (Cred_Username c)); ("password", enc_string (Cred_Password c))]).

Definition dec_credentialPayload : decoder (string * Credential) := dec_struct (fun cur m =>
  a ← dec_field credential_fields "purpose" dec_string cur.1 m;
  b ← dec_field credential_fields "app_name" dec_string (Cred_AppName cur.2) m;
  c ← dec_field credential_fields "revision" dec_string (Cred_Revision cur.2) m;
  d ← dec_field credential_fields "registry" dec_string (Cred_Registry cur.2) m;
  e ← dec_field credential_fields "username" dec_string (Cred_Username cur.2) m;
  f ← dec_field credential_fields "password" dec_string (Cred_Password cur.2) m;
  Some (a, MkCredential b c d e f)).

Definition unresolved : error := ErrStatus FailedPrecondition "registry credential cannot be resolved".

(** [RegistryCredentialService.decode] *)
Definition decodeCredential (row : RegistryCredential) : result Credential :=
  match Decrypt (RC_Ciphertext row) with
  | Err _ => Err unresolved
  | Ok plaintext =>
      match (if 20000 <? slen plaintext then None
             else json_parse plaintext ≫= dec_credentialPayload ("", MkCredential "" "" "" "" "")) with
      | None => Err unresolved
      | Some (purpose, c) =>
          _ ← check (negb (String.eqb purpose registry_purpose) || negb (String.eqb (Cred_AppName c) (RC_AppName row)) ||
                     negb (String.eqb (Cred_Revision c) (RC_Revision row)) || negb (String.eqb (Cred_Registry c) (RC_Registry row))) unresolved;
          _ ← check (negb (is_ok (Credential_Validate c))) unresolved;
          Ok c
      end
  end.

Record RegistryCredentialMetadata := MkRegistryMetadata {
  RM_AppName : string; RM_Revision : string; RM_Registry : string; RM_CreatedAt : string }.

Definition registryMetadata (row : RegistryCredential) : RegistryCredentialMetadata :=
  MkRegistryMetadata (RC_AppName row) (RC_Revision row) (RC_Registry row) (formatTime (RC_CreatedAt row)).

Definition sameCredential (row : RegistryCredential) (payload : string) : result RegistryCredentialMetadata :=
  c ← decodeCredential row;
  _ ← check (negb (String.eqb (credentialPayload c) payload))
        (ErrStatus AlreadyExists "credential revision is immutable; use a new revision");
  Ok (registryMetadata row).

Definition CreateRegistryCredential (caller : option CallerKind) (nonce : option (list Z)) (now : Z) (c : Credential)
    : ST vault RegistryCredentialMetadata :=
  _ ← lift (requireCaller caller CallerAdmin);
  _ ← guard (negb (is_ok (Credential_Validate c))) (ErrStatus InvalidArgument "invalid registry credential");
  let payload := credentialPayload c in
  existing ← attempt (RegistryCredentialRepository_Find (Cred_AppName c) (Cred_Revision c));
  match existing with
  | Ok row => lift (sameCredential row payload)
  | Err e =>
      _ ← guard (negb (errors_Is e ErrNotFound)) (ErrStatus Internal "read registry credential");
      ciphertext ← map_err (fun _ => ErrStatus Internal "encrypt registry credential") (lift (Encrypt nonce payload));
      let row := MkRegistryCredential (Cred_AppName c) (Cred_Revision c) (Cred_Registry c) ciphertext now in
      created ← attempt (RegistryCredentialRepository_Create row);
      match created with
      | Ok _ => mret (registryMetadata row)
      | Err e =>
          old ← attempt (RegistryCredentialRepository_Find (Cred_AppName c) (Cred_Revision c));
          match old with
          | Ok row => lift (sameCredential row payload)
          | Err _ =>
              throw (if errors_Is e ErrRegistryCredentialLimit then ErrStatus ResourceExhausted "registry credential revision limit reached"
                     else ErrStatus Internal "save registry credential")
          end
      end
  end.

Definition ListRegistryCredentials (caller : option CallerKind) (app : string) : ST vault (list RegistryCredentialMetadata) :=
  _ ← lift (requireCaller caller CallerAdmin);
  _ ← guard (negb (ValidAppName app)) (ErrStatus InvalidArgument "invalid app name");
  rows ← map_err (fun _ => ErrStatus Internal "list registry credentials") (RegistryCredentialRepository_ListByApp app);
  mret (registryMetadata <$> rows).

Definition ResolveRegistryCredential (app revision image : string) : ST vault Credential :=
  _ ← guard (negb (ValidAppName app) || negb (ValidRevision revision))
        (ErrStatus InvalidArgument "invalid registry credential reference");
  row ← map_err (fun _ => ErrStatus FailedPrecondition "registry credential is unavailable for this app")
          (RegistryCredentialRepository_Find app revision);
  c ← lift (decodeCredential row);
  _ ← guard (negb (is_ok (Credential_ValidateFor c app revision image)))
        (ErrStatus FailedPrecondition "registry credential does not match this app and image");
  mret c.

(** ** secret.go *)

(** [requiredSecretNotSetError] *)
Definition requiredSecretNotSetError (name : string) : error := Errorf "required secret %q is not set" [AStr name].
Definition is_missing_secret (e : error) : bool :=
  match e with Errorf format [AStr _] => String.eqb format "required secret %q is not set" | _ => false end.

(** The loop: the values, and the text that is hashed for the revision. *)
Fixpoint resolve_loop (appID : string) (names : list string) (values : gmap string string) (hashed : string)
    : ST vault (gmap string string * string) :=
  match names with
  | [] => mret (values, hashed)
  | name :: names' =>
      secret ← map_err (fun e => if errors_Is e ErrNotFound then requiredSecretNotSetError name else ErrStatus Internal "read app secret")
                 (SecretRepository_Find appID name);
      value ← map_err (fun _ => ErrStatus Internal "decrypt app secret") (lift (Decrypt (Sec_Ciphertext secret)));
      resolve_loop appID names' (<[name := value]> values) (hashed +:+ name +:+ nul +:+ Sec_Ciphertext secret +:+ nul)
  end.

Definition resolveSecretValues (appID : string) (names : list string) : ST vault (gmap string string * string) :=
  if bool_decide (names = []) then mret (∅, "")
  else
    '(values, hashed) ← resolve_loop appID names ∅ "";
    mret (values, sha256_hex hashed).

Definition referencesSecret (names : list string) (name : string) : bool := existsb (String.eqb name) names.
End services.
