(* ===== verification/VaultProps.v ===== *)
(** * Properties of the revisioned secrets

    What was accepted can be read back unchanged, a revision never changes, an
    app never has more than a hundred of them.  Faults of the driver are
    arbitrary unless a statement says otherwise. *)

From S2P Require Import Prelude GoStrings Regexp GoJson GoTime Appconfig AppconfigSpec Db Security Vault.
From Stdlib Require Import Ascii String.
Local Open Scope Z_scope.

(** ** The plaintext of a bundle *)

(** Every key and every value is valid UTF-8: protobuf refuses other strings. *)
Definition env_utf8 (values : gmap string string) : Prop := utf8_labels (Some values).

Lemma dec_environmentPayload_enc p : dec_environmentPayload (MkEnvPayload "" "" "" None) (enc_environmentPayload p) = Some p.
Proof.
  unfold dec_environmentPayload, enc_environmentPayload. cbn [dec_struct].
  next_field (EP_Purpose p). next_field (EP_AppName p). next_field (EP_Revision p).
  next_field (EP_Values p) using (cbn [EP_Values]; by rewrite dec_labels_enc). by destruct p.
Qed.

Lemma enc_ok_environment p :
  utf8 (EP_Purpose p) -> utf8 (EP_AppName p) -> utf8 (EP_Revision p) -> utf8_labels (EP_Values p) -> enc_ok 3 (enc_environmentPayload p).
Proof. intros ? ? ? ?. unfold enc_environmentPayload, utf8 in *. enc_ok_solve. by apply enc_ok_labels; [lia|]. Qed.

Lemma environment_text_parse app revision values :
  utf8 app -> utf8 revision -> env_utf8 values ->
  json_parse (environment_text app revision values) ≫= dec_environmentPayload (MkEnvPayload "" "" "" None) =
    Some (MkEnvPayload environment_purpose app revision (Some values)).
Proof.
  intros. unfold environment_text. rewrite (json_parse_enc 3) by (first [by apply enc_ok_environment|unfold maxNestingDepth; lia]).
  cbn [mbind option_bind]. apply dec_environmentPayload_enc.
Qed.

(** ** Its length *)

Lemma escape_ascii_length a : (String.length (escape_ascii a) <= 6)%nat.
Proof. unfold escape_ascii. repeat case_match; cbn; lia. Qed.

Lemma escape_from_length s : forall keep skip, (String.length (escape_from keep skip s) <= 6 * String.length s)%nat.
Proof.
  induction s as [|a s IH]; intros keep skip; [cbn; lia|]. cbn [escape_from].
  pose proof (escape_ascii_length a). pose proof (IH O O). pose proof (IH O 2%nat).
  destruct skip as [|sk]; [|specialize (IH O sk); cbn; lia]. destruct keep as [|k]; [|specialize (IH k O); cbn; lia].
  repeat case_match; rewrite ?s_length_app; cbn [String.length append]; rewrite ?s_length_app; cbn; try lia.
  match goal with |- context [escape_from ?n O s] => pose proof (IH n O); lia end.
Qed.

Lemma encode_string_length s : (String.length (encode_string s) <= 6 * String.length s + 2)%nat.
Proof. unfold encode_string. cbn [String.length]. rewrite s_length_app. pose proof (escape_from_length s O O). cbn. lia. Qed.

Definition entry_size (kv : string * string) : nat := (String.length kv.1 + String.length kv.2)%nat.

Lemma enc_map_length values :
  (String.length (json_print (enc_map enc_string values)) <=
   6 * list_sum (List.map entry_size (map_to_list values)) + 6 * size values + 2)%nat.
Proof.
  unfold enc_map. rewrite json_print_obj, !s_length_app.
  set (l := sorted_entries values). assert (Hp : Permutation l (map_to_list values)) by apply merge_sort_Permutation.
  assert (Hs : list_sum (List.map entry_size (map_to_list values)) = list_sum (List.map entry_size l)).
  { by apply Permutation_list_sum, Permutation_map. }
  assert (Hn : size values = List.length l) by (rewrite Hp; symmetry; apply length_map_to_list). rewrite Hs, Hn.
  assert (Hc : (String.length (concat_sep (List.map print_member ((fun '(k, v) => (k, enc_string v)) <$> l))) <=
                6 * list_sum (List.map entry_size l) + 6 * List.length l)%nat); [|cbn; lia].
  clear. induction l as [|[k v] l IH]; [cbn; lia|]. cbn [fmap list_fmap List.map].
  set (m := List.map print_member _) in *. pose proof (encode_string_length k). pose proof (encode_string_length v).
  assert (Hm : (String.length (print_member (k, enc_string v)) <= 6 * entry_size (k, v) + 5)%nat).
  { change (print_member (k, enc_string v)) with (encode_string k +:+ ":" +:+ encode_string v). rewrite !s_length_app.
    unfold entry_size. cbn [fst snd String.length]. lia. }
  rewrite list_sum_cons2. cbn [List.length]. destruct m as [|x m'] eqn:E.
  - cbn [concat_sep]. lia.
  - rewrite concat_sep_cons2, !s_length_app. cbn [String.length] in *. lia.
Qed.

(** ** Accepted values *)

Definition env_entry_ok (kv : string * string) : Prop :=
  is_ok (ValidateSecretName kv.1) = true /\ slen kv.1 <= 128 /\ utf8 kv.2 /\ slen kv.2 <= 8192.

Lemma environment_loop_facts l : forall total, 0 <= total <= 32768 -> environment_loop total l = true ->
  Forall env_entry_ok l /\ total + Z.of_nat (list_sum (List.map entry_size l)) <= 32768.
Proof.
  induction l as [|[name value] l IH]; intros total Ht Hl; [split; [constructor|cbn; lia]|]. cbn [environment_loop] in Hl.
  case_match eqn:Hbad; [done|]. case_match eqn:Htot; [done|]. bools. apply Z.ltb_ge in Htot. unfold slen in *.
  edestruct IH as [Hf Hs]; [|exact Hl|]; [lia|]. split.
  - constructor; [|done]. split; [done|]. unfold slen; cbn [fst snd]. split; [lia|]. split; [done|lia].
  - cbn [List.map]. rewrite list_sum_cons2. unfold entry_size at 1. cbn [fst snd]. lia.
Qed.

Lemma validEnvironmentValues_facts values : validEnvironmentValues values = true ->
  (size values <= 64)%nat /\ Z.of_nat (list_sum (List.map entry_size (map_to_list values))) <= 32768.
Proof.
  unfold validEnvironmentValues. case_match eqn:Hn; [done|]. apply Nat.ltb_ge in Hn. intros Hl.
  apply environment_loop_facts in Hl as [_ Hs]; [|lia]. split; lia.
Qed.

(** An accepted bundle is never too long for its reader. *)
Lemma environment_text_length app revision values :
  validEnvironmentValues values = true -> slen app <= 63 -> slen revision = 64 -> slen (environment_text app revision values) <= 262144.
Proof.
  intros [Hn Hs]%validEnvironmentValues_facts Ha Hr. pose proof (enc_map_length values).
  unfold environment_text, enc_environmentPayload. rewrite json_print_obj. unfold slen in *. cbn [List.map concat_sep]. unfold print_member.
  pose proof (encode_string_length app). pose proof (encode_string_length revision). cbn [fst snd enc_labels EP_Purpose EP_AppName EP_Revision EP_Values].
  repeat (rewrite s_length_app; cbn [String.length]). unfold enc_string at 1 2 3. cbn [json_print] in *.
  change (String.length (encode_string environment_purpose)) with 25%nat.
  change (String.length (encode_string "Purpose")) with 9%nat. change (String.length (encode_string "AppName")) with 9%nat.
  change (String.length (encode_string "Revision")) with 10%nat. change (String.length (encode_string "Values")) with 8%nat. lia.
Qed.

Lemma ascii_utf8 s : forall_byte (byte_in 0 127) s = true -> utf8 s.
Proof. unfold utf8, ValidString. induction s as [|a s IH]; [done|]. cbn [forall_byte]. intros Hs. bools. rewrite valid_utf8_ascii; auto. Qed.

Lemma ValidAppName_utf8 app : ValidAppName app = true -> utf8 app /\ slen app <= 63.
Proof.
  unfold ValidAppName. intros Ha. bools. apply appNamePattern_spec in H0 as (_ & Hall & _). split; [|lia].
  apply ascii_utf8. eapply forall_byte_impl; [|exact Hall]. intros a. unfold label_byte, is_lower_alnum, in_class, lower_alnum, byte_in.
  cbn. lia.
Qed.

Lemma hex_utf8 s : forall_byte is_hex s = true -> utf8 s.
Proof.
  intros Hs. apply ascii_utf8. eapply forall_byte_impl; [|exact Hs]. intros a. unfold is_hex, in_class, hex_lower, byte_in. cbn. lia.
Qed.

(** The pattern of the repositories accepts every app name of the services. *)
Lemma ValidAppName_pattern app : ValidAppName app = true -> re_match registryCredentialAppPattern app = true.
Proof.
  unfold ValidAppName. intros Ha. bools. unfold slen in *. apply re_match_spec. apply re_match_spec in H0.
  unfold appNamePattern, registryCredentialAppPattern in *. rewrite lang_seq_iff in *.
  destruct H0 as (s1 & s2 & -> & H1 & H2). exists s1, s2. split; [done|]. split; [done|].
  rewrite lang_opt, lang_seq_iff in *. destruct H2 as [->|(t & z & -> & Ht & Hz)]; [by left|]. right. exists t, z.
  split; [done|]. split; [|done]. unfold cls in *. rewrite lang_star_class in Ht. apply lang_upto_class. split; [|done].
  apply lang_class_iff in H1 as (? & -> & _). apply lang_class_iff in Hz as (? & -> & _). rewrite !s_length_app in *. cbn in *. lia.
Qed.

(** ** What a successful call leaves in the store *)

Lemma v_query_inv {A} (f : vault -> A) v r v' : v_query f v = (r, v') ->
  v_bundles v' = v_bundles v /\ v_credentials v' = v_credentials v /\ (r = Err ErrDriver \/ r = Ok (f v')).
Proof. unfold v_query, v_next. destruct (next_fault _) as [[] fs]; intros [= <- <-]; auto. Qed.

Lemma find_bundle_inv app revision v r v' : EnvironmentBundleRepository_Find app revision v = (r, v') ->
  v_bundles v' = v_bundles v /\ v_credentials v' = v_credentials v /\
  forall b, r = Ok b -> exists row, v_bundles v !! (app, revision) = Some row /\ EB_Ciphertext b = vb_ciphertext row /\
    EB_AppName b = vb_app row /\ EB_Revision b = vb_revision row /\ parseStoredTime "created_at" (vb_created row) = Ok (EB_CreatedAt b).
Proof.
  unfold EnvironmentBundleRepository_Find. intros Hm. apply st_bind_inv in Hm as [(e & Hq & ->)|(found & v1 & Hq & Hm)].
  - apply v_query_inv in Hq as (H1 & H2 & _). done.
  - apply v_query_inv in Hq as (H1 & H2 & [[=]|[= ->]]). rewrite H1 in Hm.
    destruct (v_bundles v !! (app, revision)) as [row|]; [|injection Hm as <- <-; done].
    apply st_bind_inv in Hm as [(e & Hq & ->)|(created & v2 & Hq & Hm)]; [by injection Hq as _ <-|]. injection Hq as Hc <-.
    injection Hm as <- <-. split; [done|]. split; [done|]. intros b [= <-]. by exists row.
Qed.

(** ** Rows are kept, and bounded in number *)

Definition limited_table {A} (m : gmap (string * string) A) : Prop := forall app, (size (revisions_of app m) <= 100)%nat.

(** Every row of the table is still there, and the limit still holds. *)
Definition table_grows {A} (m m' : gmap (string * string) A) : Prop := m ⊆ m' /\ (limited_table m -> limited_table m').

Definition vault_grows (v v' : vault) : Prop :=
  table_grows (v_bundles v) (v_bundles v') /\ table_grows (v_credentials v) (v_credentials v').

#[export] Instance table_grows_refl {A} : Reflexive (@table_grows A).
Proof. by split. Qed.
#[export] Instance table_grows_trans {A} : Transitive (@table_grows A).
Proof. intros m1 m2 m3 [S1 L1] [S2 L2]. split; [by etrans|auto]. Qed.
#[export] Instance vault_grows_refl : Reflexive vault_grows.
Proof. by split. Qed.
#[export] Instance vault_grows_trans : Transitive vault_grows.
Proof. intros v1 v2 v3 [B1 C1] [B2 C2]. split; by etrans. Qed.

Lemma insert_limited_grows {A} limit key (r : A) m m' n :
  limit <= 100 -> insert_limited limit key r m = Ok (m', n) -> table_grows m m' /\ (n <> 0 -> m' !! key = Some r).
Proof.
  unfold insert_limited. intros Hlim. case_match eqn:Hs; [|intros [= <- <-]; done].
  destruct (m !! key) as [|] eqn:Hk; [done|]. intros [= <- <-]. split; [|by rewrite lookup_insert_eq].
  split; [by apply insert_subseteq|]. intros Hl app. unfold revisions_of in *. destruct (decide (key.1 = app)) as [<-|Hne].
  - rewrite map_filter_insert_True by done. rewrite map_size_insert_None by (by apply map_lookup_filter_None; left). lia.
  - rewrite map_filter_insert_False by done. rewrite map_filter_delete, delete_id by (by apply map_lookup_filter_None; left). apply Hl.
Qed.

(** Operations that only add rows. *)
Definition adds {A} (m : ST vault A) : Prop := forall v r v', m v = (r, v') -> vault_grows v v'.

Section adds.
Context {A B : Type}.

Lemma adds_lift (r : result A) : adds (lift r).
Proof. by intros v ? ? [= <- <-]. Qed.
Lemma adds_ret (a : A) : adds (mret a).
Proof. by intros v ? ? [= <- <-]. Qed.
Lemma adds_throw e : adds (throw e : ST vault A).
Proof. by intros v ? ? [= <- <-]. Qed.
Lemma adds_bind (m : ST vault A) (f : A -> ST vault B) : adds m -> (forall a, adds (f a)) -> adds (mbind f m).
Proof.
  intros Hm Hf v r v' Hb. apply st_bind_inv in Hb as [(e & He & _)|(a & v1 & Ha & Hb)]; [by eapply Hm|].
  etrans; [by eapply Hm|by eapply Hf].
Qed.
Lemma adds_attempt (m : ST vault A) : adds m -> adds (attempt m).
Proof. intros Hm v r v' Ha. unfold attempt in Ha. destruct (m v) as [r1 v1] eqn:E. injection Ha as _ <-. by eapply Hm. Qed.
Lemma adds_map_err g (m : ST vault A) : adds m -> adds (map_err g m).
Proof. intros Hm v r v' Ha. unfold map_err in Ha. destruct (m v) as [[] v1] eqn:E; injection Ha as _ <-; by eapply Hm. Qed.
Lemma adds_query (f : vault -> A) : adds (v_query f).
Proof. intros v r v' (H1 & H2 & _)%v_query_inv. unfold vault_grows. by rewrite H1, H2. Qed.
Lemma adds_step (f : vault -> result A) : adds (v_step f).
Proof. intros v r v'. unfold v_step, v_next. destruct (next_fault _) as [[] fs]; intros [= <- <-]; done. Qed.
End adds.

Lemma adds_guard b e : adds (guard b e).
Proof. apply adds_lift. Qed.

Lemma adds_exec (f : vault -> result (vault * Z)) : (forall v v' n, f v = Ok (v', n) -> vault_grows v v') -> adds (v_exec f).
Proof.
  intros Hf v r v'. unfold v_exec, v_next. destruct (next_fault (v_faults v)) as [o fs]. cbv zeta.
  set (v1 := MkVault _ _ _ fs). assert (G : vault_grows v v1) by done.
  destruct o, (f v1) as [[v2 n]|e] eqn:E; intros [= <- <-]; try exact G; (etrans; [exact G|by eapply Hf]).
Qed.

Ltac adding :=
  repeat first
    [ progress intros
    | apply adds_lift | apply adds_ret | apply adds_throw | apply adds_guard | apply adds_query | apply adds_step
    | apply adds_attempt | apply adds_map_err
    | lazymatch goal with
      | |- adds (mbind _ _) => apply adds_bind
      | |- adds (match ?x with _ => _ end) => destruct x
      end ].

Lemma adds_create_bundle b : adds (EnvironmentBundleRepository_Create b).
Proof.
  unfold EnvironmentBundleRepository_Create. cbv zeta. adding. apply adds_exec. intros v v' n ([m k] & Hm & [= <- <-])%bind_ok.
  split; [|done]. by eapply insert_limited_grows in Hm as [? _].
Qed.

Lemma adds_create_credential c : adds (RegistryCredentialRepository_Create c).
Proof.
  unfold RegistryCredentialRepository_Create. cbv zeta. adding. apply adds_exec. intros v v' n ([m k] & Hm & [= <- <-])%bind_ok.
  split; [done|]. by eapply insert_limited_grows in Hm as [? _].
Qed.

Lemma adds_find_bundle app revision : adds (EnvironmentBundleRepository_Find app revision).
Proof. unfold EnvironmentBundleRepository_Find. adding. Qed.

Lemma adds_find_credential app revision : adds (RegistryCredentialRepository_Find app revision).
Proof. unfold RegistryCredentialRepository_Find. adding. Qed.

(** ** Sequences of requests *)

Section requests.
Context `{AEAD}.

Inductive vault_op :=
| OpCreateBundle (caller : option CallerKind) (nonce : option (list Z)) (now : Z) (app revision : string) (values : gmap string string)
| OpCreateCredential (caller : option CallerKind) (nonce : option (list Z)) (now : Z) (c : Credential)
| OpResolveBundle (app revision : string)
| OpResolveCredential (app revision image : string)
| OpListCredentials (caller : option CallerKind) (app : string)
| OpDeleteBundles (app : string)
| OpDeleteCredentials (app : string).

(** The store after the request; the reply is not looked at. *)
Definition run_vault_op (op : vault_op) (v : vault) : vault :=
  match op with
  | OpCreateBundle caller nonce now app revision values => (CreateEnvironmentBundle caller nonce now app revision values v).2
  | OpCreateCredential caller nonce now c => (CreateRegistryCredential caller nonce now c v).2
  | OpResolveBundle app revision => (resolveEnvironmentBundle app revision v).2
  | OpResolveCredential app revision image => (ResolveRegistryCredential app revision image v).2
  | OpListCredentials caller app => (ListRegistryCredentials caller app v).2
  | OpDeleteBundles app => (EnvironmentBundleRepository_DeleteByApp app v).2
  | OpDeleteCredentials app => (RegistryCredentialRepository_DeleteByApp app v).2
  end.

Definition run_vault_ops (ops : list vault_op) (v : vault) : vault := foldl (fun v op => run_vault_op op v) v ops.

(** The request deletes the secrets of this app. *)
Definition deletes (app : string) (op : vault_op) : bool :=
  match op with OpDeleteBundles a | OpDeleteCredentials a => String.eqb a app | _ => false end.

Lemma adds_create_environment caller nonce now app revision values : adds (CreateEnvironmentBundle caller nonce now app revision values).
Proof. unfold CreateEnvironmentBundle. cbv zeta. adding; first [apply adds_find_bundle|apply adds_create_bundle]. Qed.

Lemma adds_create_registry caller nonce now c : adds (CreateRegistryCredential caller nonce now c).
Proof. unfold CreateRegistryCredential. cbv zeta. adding; first [apply adds_find_credential|apply adds_create_credential]. Qed.

Lemma adds_resolve_environment app revision : adds (resolveEnvironmentBundle app revision).
Proof. unfold resolveEnvironmentBundle. cbv zeta. adding; apply adds_find_bundle. Qed.

Lemma adds_resolve_registry app revision image : adds (ResolveRegistryCredential app revision image).
Proof. unfold ResolveRegistryCredential. adding; apply adds_find_credential. Qed.

Lemma adds_list caller app : adds (ListRegistryCredentials caller app).
Proof. unfold ListRegistryCredentials, RegistryCredentialRepository_ListByApp. adding. Qed.

Definition limited (v : vault) : Prop := limited_table (v_bundles v) /\ limited_table (v_credentials v).

Lemma without_app_limited {A} (app : string) (m : gmap (string * string) A) : limited_table m -> limited_table (without_app app m).
Proof.
  intros Hl a. etrans; [|apply (Hl a)]. apply map_subseteq_size. unfold revisions_of, without_app.
  apply map_subseteq_spec. intros k r. rewrite !map_lookup_filter_Some. naive_solver.
Qed.

Lemma without_app_keeps {A} (app app' : string) (m : gmap (string * string) A) (revision : string) (r : A) :
  app' <> app -> m !! (app, revision) = Some r -> without_app app' m !! (app, revision) = Some r.
Proof. intros Hne Hm. unfold without_app. apply map_lookup_filter_Some. naive_solver. Qed.

(** What a request does to the rows of an app it does not delete. *)
Definition app_kept (app : string) (v v' : vault) : Prop := forall revision,
  (forall r, v_bundles v !! (app, revision) = Some r -> v_bundles v' !! (app, revision) = Some r) /\
  (forall r, v_credentials v !! (app, revision) = Some r -> v_credentials v' !! (app, revision) = Some r).

Lemma grows_kept app v v' : vault_grows v v' -> app_kept app v v'.
Proof. intros [[HB _] [HC _]] revision. split; intros r Hr; by eapply lookup_weaken. Qed.

Lemma delete_exec (f : vault -> vault) (n : vault -> Z) v :
  (v_exec (fun v => Ok (f v, n v)) v).2 = (v_next v).2 \/ (v_exec (fun v => Ok (f v, n v)) v).2 = f (v_next v).2.
Proof. unfold v_exec. destruct (v_next v) as [[] v1]; auto. Qed.

Lemma bind_ret_state {A B} (m : ST vault A) (b : B) v : (mbind (fun _ => mret b) m v).2 = (m v).2.
Proof. unfold mbind, st_bind, mret, st_ret. by destruct (m v) as [[] v1]. Qed.

Lemma guard_state {B} b e (f : unit -> ST vault B) v : (mbind f (guard b e) v).2 = if b then v else (f tt v).2.
Proof. by destruct b. Qed.

Lemma next_tables v : v_bundles (v_next v).2 = v_bundles v /\ v_credentials (v_next v).2 = v_credentials v.
Proof. unfold v_next. by destruct (next_fault _). Qed.

Lemma delete_bundles_cases app v :
  let v' := run_vault_op (OpDeleteBundles app) v in
  v_credentials v' = v_credentials v /\ (v_bundles v' = v_bundles v \/ v_bundles v' = without_app app (v_bundles v)).
Proof.
  cbn [run_vault_op]. unfold EnvironmentBundleRepository_DeleteByApp. cbv zeta. rewrite bind_ret_state.
  destruct (next_tables v) as [E1 E2]. edestruct delete_exec as [->| ->]; cbn; rewrite ?E1, ?E2; auto.
Qed.

Lemma delete_credentials_cases app v :
  let v' := run_vault_op (OpDeleteCredentials app) v in
  v_bundles v' = v_bundles v /\ (v_credentials v' = v_credentials v \/ v_credentials v' = without_app app (v_credentials v)).
Proof.
  cbn [run_vault_op]. unfold RegistryCredentialRepository_DeleteByApp. cbv zeta. rewrite guard_state. case_match; [auto|]. rewrite bind_ret_state.
  destruct (next_tables v) as [E1 E2]. edestruct delete_exec as [->| ->]; cbn; rewrite ?E1, ?E2; auto.
Qed.

Lemma run_op_grows op v : (forall app, deletes app op = false) -> vault_grows v (run_vault_op op v).
Proof.
  intros Hd. destruct op; cbn [run_vault_op];
    match goal with |- vault_grows v (?m v).2 => destruct (m v) as [r v'] eqn:E; cbn [snd] end.
  - by eapply adds_create_environment.
  - by eapply adds_create_registry.
  - by eapply adds_resolve_environment.
  - by eapply adds_resolve_registry.
  - by eapply adds_list.
  - specialize (Hd app). cbn in Hd. by rewrite String.eqb_refl in Hd.
  - specialize (Hd app). cbn in Hd. by rewrite String.eqb_refl in Hd.
Qed.

Lemma run_op_kept app op v : deletes app op = false -> app_kept app v (run_vault_op op v).
Proof.
  intros Hd. destruct op as [| | | | |a|a]; try (apply grows_kept, run_op_grows; by intros).
  - destruct (delete_bundles_cases a v) as [EC EB]. intros revision. rewrite EC. cbn in Hd. apply String.eqb_neq in Hd.
    split; [|done]. intros r Hr. destruct EB as [->| ->]; [done|by apply without_app_keeps].
  - destruct (delete_credentials_cases a v) as [EB EC]. intros revision. rewrite EB. cbn in Hd. apply String.eqb_neq in Hd.
    split; [done|]. intros r Hr. destruct EC as [->| ->]; [done|by apply without_app_keeps].
Qed.

Lemma grows_limited v v' : vault_grows v v' -> limited v -> limited v'.
Proof. intros [[_ GB] [_ GC]] [LB LC]. split; auto. Qed.

Lemma run_op_limited op v : limited v -> limited (run_vault_op op v).
Proof.
  intros HL. destruct op as [| | | | |a|a]; try (eapply grows_limited; [apply run_op_grows; by intros|exact HL]); destruct HL as [LB LC].
  - destruct (delete_bundles_cases a v) as [EC EB]. unfold limited. rewrite EC. destruct EB as [->| ->]; auto using without_app_limited.
  - destruct (delete_credentials_cases a v) as [EB EC]. unfold limited. rewrite EB. destruct EC as [->| ->]; auto using without_app_limited.
Qed.

(** A revision of a secret never changes.  Whatever requests are served, in any
    order and with any driver faults, a stored bundle or credential of an app stays
    byte for byte what it was, as long as the secrets of that app are not deleted. *)
Theorem secret_revision_immutable ops app v :
  forallb (fun op => negb (deletes app op)) ops = true ->
  app_kept app v (run_vault_ops ops v).
Proof.
  revert v. induction ops as [|op ops IH]; intros v Hops; [by intros revision|]. cbn [forallb] in Hops. bools.
  intros revision. destruct (run_op_kept app op v ltac:(done) revision) as [B1 C1].
  destruct (IH (run_vault_op op v) ltac:(done) revision) as [B2 C2]. split; intros r Hr; [by apply B2, B1|by apply C2, C1].
Qed.

(** No app ever has more than a hundred revisions of either kind of secret, whatever
    requests are served and whichever driver calls fail. *)
Theorem secret_revisions_bounded ops faults :
  limited (run_vault_ops ops (MkVault ∅ ∅ ∅ faults)).
Proof.
  assert (H0 : limited (MkVault ∅ ∅ ∅ faults)).
  { split; intros app; unfold revisions_of; cbn; rewrite map_filter_empty, map_size_empty; lia. }
  revert H0. generalize (MkVault ∅ ∅ ∅ faults). induction ops as [|op ops IH]; intros v Hv; [exact Hv|].
  apply IH, run_op_limited, Hv.
Qed.
End requests.

(** ** Reading back *)

Section reading.
Context `{AEAD}.

(** The stored row of this bundle decrypts to this text, and can be read. *)
Definition holds_bundle (app revision text : string) (v : vault) : Prop :=
  exists row created, v_bundles v !! (app, revision) = Some row /\ parseStoredTime "created_at" (vb_created row) = Ok created /\
    Decrypt (vb_ciphertext row) = Ok text.

Definition fine (v : vault) : vault := MkVault (v_bundles v) (v_credentials v) (v_secrets v) [].

Lemma find_bundle_fine app revision row created v :
  v_bundles v !! (app, revision) = Some row -> parseStoredTime "created_at" (vb_created row) = Ok created -> v_faults v = [] ->
  EnvironmentBundleRepository_Find app revision v =
    (Ok (MkEnvironmentBundle (vb_app row) (vb_revision row) (vb_names row) (vb_ciphertext row) created), v).
Proof.
  intros Hr Hc Hf. destruct v as [b c ss fs]. cbn in *. subst fs.
  unfold EnvironmentBundleRepository_Find, mbind, st_bind, v_query, v_next. cbn. rewrite Hr. cbn. by rewrite Hc.
Qed.

Lemma openEnvironment_text app revision values :
  ValidAppName app = true -> validEnvironmentRevision revision = true -> validEnvironmentValues values = true -> env_utf8 values ->
  openEnvironment app revision (environment_text app revision values) = Ok values.
Proof.
  intros Ha Hr Hv Hu. destruct (ValidAppName_utf8 app Ha) as [Hau Hal]. unfold validEnvironmentRevision in Hr. bools. unfold openEnvironment.
  rewrite (proj2 (Z.ltb_ge _ _)) by (apply environment_text_length; [done|lia|lia]).
  rewrite environment_text_parse by (done || by apply hex_utf8). cbn [EP_Values default EP_Purpose EP_AppName EP_Revision from_option id].
  by rewrite !String.eqb_refl, Hv.
Qed.

Lemma resolve_holds app revision values v :
  ValidAppName app = true -> validEnvironmentRevision revision = true -> validEnvironmentValues values = true -> env_utf8 values ->
  holds_bundle app revision (environment_text app revision values) v ->
  resolveEnvironmentBundle app revision (fine v) = (Ok values, fine v).
Proof.
  intros Ha Hr Hv Hu (row & created & Hrow & Hc & Hd).
  unfold resolveEnvironmentBundle, mbind, st_bind, attempt. rewrite (find_bundle_fine app revision row created) by done.
  cbn [EB_Ciphertext]. rewrite Hd. cbn [lift map_err]. unfold lift. by rewrite openEnvironment_text.
Qed.

Lemma create_bundle_stored b v v' : stored_range (EB_CreatedAt b) -> EnvironmentBundleRepository_Create b v = (Ok tt, v') ->
  exists row, v_bundles v' !! (EB_AppName b, EB_Revision b) = Some row /\ vb_ciphertext row = EB_Ciphertext b /\
    parseStoredTime "created_at" (vb_created row) = Ok (EB_CreatedAt b).
Proof.
  intros Ht Hm. unfold EnvironmentBundleRepository_Create in Hm. cbv zeta in Hm.
  apply st_bind_inv in Hm as [(e & _ & [=])|(u & v1 & _ & Hm)]. apply st_bind_inv in Hm as [(e & _ & [=])|(found & v2 & _ & Hm)].
  apply st_bind_inv in Hm as [(e & _ & [=])|(u' & v3 & _ & Hm)]. apply st_bind_inv in Hm as [(e & _ & [=])|(rows & v4 & Hx & Hm)].
  injection Hm as Hg ->. apply check_ok, Z.eqb_neq in Hg. unfold v_exec, v_next in Hx. destruct (next_fault _) as [[] fs]; cbv zeta in Hx.
  - match type of Hx with context [mbind ?f ?m] => destruct (mbind f m) as [[v5 n]|e] eqn:E end; [|done]. injection Hx as <- <-.
    apply bind_ok in E as ([m n'] & Hi & [= <- <-]). apply insert_limited_grows in Hi as [_ Hi]; [|lia].
    eexists. cbn [v_bundles with_bundles]. rewrite Hi by done. split; [done|]. split; [done|]. by apply parseStoredTime_formatTime.
  - done.
  - by repeat case_match.
Qed.

Lemma encrypt_decrypt nonce text c : (forall n, nonce = Some n -> List.length n = NonceSize /\ byte_list n) ->
  Encrypt nonce text = Ok c -> Decrypt c = Ok text.
Proof.
  destruct nonce as [n|]; [|done]. intros Hn [= <-]. destruct (Hn n eq_refl) as [Hl Hb]. apply (Decrypt_Encrypt n text Hl Hb).
Qed.

(** A random source delivers nonces of the right length. *)
Definition nonce_ok (nonce : option (list Z)) : Prop := forall n, nonce = Some n -> List.length n = NonceSize /\ byte_list n.

Lemma same_environment_inv b text values md : sameEnvironment b text values = Ok md -> Decrypt (EB_Ciphertext b) = Ok text.
Proof.
  unfold sameEnvironment. destruct (Decrypt _) as [plain|]; [|done]. intros [Hc _]%check_bind. bools. by apply String.eqb_eq in Hc as ->.
Qed.

Lemma found_holds app revision b text v v' :
  EnvironmentBundleRepository_Find app revision v = (Ok b, v') -> Decrypt (EB_Ciphertext b) = Ok text -> holds_bundle app revision text v'.
Proof.
  intros (HB & _ & Hrow)%find_bundle_inv Hd. destruct (Hrow b eq_refl) as (row & Hr & Hc & _ & _ & Ht).
  exists row, (EB_CreatedAt b). rewrite HB. split; [done|]. split; [done|]. by rewrite <- Hc.
Qed.

Lemma create_environment_holds caller nonce now appName revision values v md v' :
  nonce_ok nonce -> stored_range now ->
  CreateEnvironmentBundle caller nonce now appName revision values v = (Ok md, v') ->
  let app := TrimSpace appName in
  (ValidAppName app = true /\ validEnvironmentRevision revision = true /\ validEnvironmentValues values = true) /\
  holds_bundle app revision (environment_text app revision values) v'.
Proof.
  intros Hn Ht Hm app. unfold CreateEnvironmentBundle in Hm. cbv zeta in Hm. fold app in Hm.
  apply st_bind_inv in Hm as [(e & _ & [=])|(u & v1 & _ & Hm)].
  apply st_bind_inv in Hm as [(e & _ & [=])|(u1 & v2 & Hg & Hm)]. injection Hg as Hg <-. unfold check in Hg. case_match; [done|]. bools.
  split; [done|]. apply st_bind_inv in Hm as [(e & _ & [=])|(existing & v3 & Hf & Hm)].
  unfold attempt in Hf. destruct (EnvironmentBundleRepository_Find app revision v1) as [r1 v4] eqn:E1. injection Hf as <- <-.
  destruct r1 as [row|e]; [injection Hm as Hs <-; eapply found_holds; [exact E1|by eapply same_environment_inv]|].
  apply st_bind_inv in Hm as [(e1 & _ & [=])|(u2 & v5 & _ & Hm)].
  apply st_bind_inv in Hm as [(e1 & _ & [=])|(cipher & v6 & Hc & Hm)]. unfold map_err, lift in Hc.
  destruct (Encrypt nonce _) as [c|] eqn:Ec; [|done]. injection Hc as -> <-.
  apply st_bind_inv in Hm as [(e1 & _ & [=])|(created & v7 & Hcr & Hm)]. unfold attempt in Hcr.
  destruct (EnvironmentBundleRepository_Create _ v5) as [r2 v8] eqn:E2. injection Hcr as <- <-.
  destruct r2 as [[]|e2].
  - injection Hm as <- <-. apply create_bundle_stored in E2 as (row & Hrow & Hcip & Htime); [|done].
    cbn [EB_AppName EB_Revision EB_Ciphertext EB_CreatedAt] in Hrow, Hcip, Htime.
    exists row, now. split; [done|]. split; [done|]. rewrite Hcip. by eapply encrypt_decrypt.
  - apply st_bind_inv in Hm as [(e1 & _ & [=])|(old & v9 & Ho & Hm)]. unfold attempt in Ho.
    destruct (EnvironmentBundleRepository_Find app revision v8) as [r3 v10] eqn:E3. injection Ho as <- <-.
    destruct r3 as [row|e3]; [|done]. injection Hm as Hs <-. eapply found_holds; [exact E3|by eapply same_environment_inv].
Qed.

(** Accepted settings are read back unchanged.  Whenever the creation of an
    environment bundle is confirmed, be it by its own insert, by a row that was already
    there or by the look-up after a failed insert, the values later resolved for that app
    and revision are exactly the ones submitted; neither the length limit nor the checks
    of the reader can refuse what the writer accepted. *)
Theorem environment_roundtrip caller nonce now appName revision values v md v' :
  nonce_ok nonce -> stored_range now -> env_utf8 values ->
  CreateEnvironmentBundle caller nonce now appName revision values v = (Ok md, v') ->
  resolveEnvironmentBundle (TrimSpace appName) revision (fine v') = (Ok values, fine v').
Proof.
  intros Hn Ht Hu Hm. destruct (create_environment_holds _ _ _ _ _ _ _ _ _ Hn Ht Hm) as ((Ha & Hr & Hv) & Hh). by apply resolve_holds.
Qed.

(** A retry is answered by what was stored.  Once the creation of a bundle is
    confirmed, any later creation under the same app and revision is answered from the
    stored row, without a new row: the same values are confirmed again, other values are
    refused as a change of an immutable revision. *)
Theorem environment_retry caller nonce now appName revision values v md v' :
  nonce_ok nonce -> stored_range now -> env_utf8 values ->
  CreateEnvironmentBundle caller nonce now appName revision values v = (Ok md, v') ->
  forall nonce' now' values', env_utf8 values' -> validEnvironmentValues values' = true ->
  exists r, CreateEnvironmentBundle (Some CallerAdmin) nonce' now' appName revision values' (fine v') = (r, fine v') /\
    (is_ok r = true <-> values' = values) /\
    (values' <> values -> r = Err (ErrStatus AlreadyExists "environment revision is immutable; use a new revision")).
Proof.
  intros Hn Ht Hu Hm nonce' now' values' Hu' Hv'.
  destruct (create_environment_holds _ _ _ _ _ _ _ _ _ Hn Ht Hm) as ((Ha & Hr & Hv) & row & created & Hrow & Hc & Hd).
  unfold CreateEnvironmentBundle, mbind, st_bind, guard, lift, check. cbv zeta. cbn [requireCaller]. rewrite bool_decide_true by done. cbn [negb].
  rewrite Ha, Hr, Hv'. cbn [negb orb]. unfold attempt. rewrite (find_bundle_fine _ revision row created) by done.
  eexists. split; [reflexivity|]. unfold sameEnvironment. cbn [EB_Ciphertext]. rewrite Hd.
  assert (Hiff : environment_text (TrimSpace appName) revision values = environment_text (TrimSpace appName) revision values' <-> values' = values).
  { split; [|by intros ->]. intros E. destruct (ValidAppName_utf8 _ Ha) as [Hau _]. unfold validEnvironmentRevision in Hr. bools.
    pose proof (environment_text_parse _ revision values Hau ltac:(by apply hex_utf8) Hu) as E1. rewrite E in E1.
    rewrite environment_text_parse in E1 by (done || by apply hex_utf8). by injection E1. }
  unfold check. destruct (String.eqb_spec (environment_text (TrimSpace appName) revision values)
    (environment_text (TrimSpace appName) revision values')) as [E|E]; cbn; [|]; split; try done; naive_solver.
Qed.
End reading.

(** ** Registry credentials *)

Section registry.
Context `{AEAD}.

Lemma dec_credentialPayload_enc c :
  dec_credentialPayload ("", MkCredential "" "" "" "" "")
    (JObj [("purpose", enc_string registry_purpose); ("app_name", enc_string (Cred_AppName c)); ("revision", enc_string (Cred_Revision c));
      ("registry", enc_string (Cred_Registry c)); ("username", enc_string (Cred_Username c)); ("password", enc_string (Cred_Password c))]) =
  Some (registry_purpose, c).
Proof.
  unfold dec_credentialPayload. cbn [dec_struct]. next_field registry_purpose. next_field (Cred_AppName c). next_field (Cred_Revision c).
  next_field (Cred_Registry c). next_field (Cred_Username c). next_field (Cred_Password c). by destruct c.
Qed.

Lemma Credential_Validate_utf8 c : Credential_Validate c = Ok tt ->
  utf8 (Cred_AppName c) /\ utf8 (Cred_Revision c) /\ utf8 (Cred_Registry c) /\ utf8 (Cred_Username c) /\ utf8 (Cred_Password c).
Proof.
  unfold Credential_Validate. intros [H1 H2%check_ok]%check_bind. cbn [existsb] in H2. bools.
  split; [by apply ValidAppName_utf8|]. split; [apply hex_utf8; by apply revisionPattern_spec|]. split; [|done].
  match goal with E : _ && _ = false |- _ => apply andb_false_iff in E; destruct E as [E|E]; bools; apply String.eqb_eq in E; by rewrite E end.
Qed.

Lemma credentialPayload_parse c : Credential_Validate c = Ok tt ->
  json_parse (credentialPayload c) ≫= dec_credentialPayload ("", MkCredential "" "" "" "" "") = Some (registry_purpose, c).
Proof.
  intros (? & ? & ? & ? & ?)%Credential_Validate_utf8. unfold credentialPayload, utf8 in *.
  rewrite (json_parse_enc 1) by (first [unfold maxNestingDepth; lia|enc_ok_solve]).
  cbn [mbind option_bind]. apply dec_credentialPayload_enc.
Qed.

(** The row of a credential reads back as it, provided its payload is short enough. *)
Lemma decodeCredential_ok row c :
  Credential_Validate c = Ok tt -> slen (credentialPayload c) <= 20000 -> Decrypt (RC_Ciphertext row) = Ok (credentialPayload c) ->
  RC_AppName row = Cred_AppName c -> RC_Revision row = Cred_Revision c -> RC_Registry row = Cred_Registry c ->
  decodeCredential row = Ok c.
Proof.
  intros Hv Hl Hd E1 E2 E3. unfold decodeCredential. rewrite Hd, (proj2 (Z.ltb_ge _ _)) by lia. rewrite credentialPayload_parse by done.
  rewrite E1, E2, E3, !String.eqb_refl, Hv. done.
Qed.

Lemma decodeCredential_too_long row text : Decrypt (RC_Ciphertext row) = Ok text -> 20000 < slen text -> decodeCredential row = Err unresolved.
Proof. intros Hd Hl. unfold decodeCredential. by rewrite Hd, (proj2 (Z.ltb_lt _ _)) by lia. Qed.

Definition holds_credential (c : Credential) (v : vault) : Prop :=
  exists row saved, v_credentials v !! (Cred_AppName c, Cred_Revision c) = Some row /\ scanCredential row = Ok saved /\
    decodeCredential saved = Ok c.

Lemma find_credential_inv app revision v r v' : RegistryCredentialRepository_Find app revision v = (r, v') ->
  v_credentials v' = v_credentials v /\
  forall saved, r = Ok saved -> exists row, v_credentials v !! (app, revision) = Some row /\ scanCredential row = Ok saved.
Proof.
  unfold RegistryCredentialRepository_Find. intros Hm. apply st_bind_inv in Hm as [(e & [= _ <-] & ->)|(u & v1 & [= _ <-] & Hm)]; [done|].
  apply st_bind_inv in Hm as [(e & Hq & ->)|(found & v1 & Hq & Hm)]; apply v_query_inv in Hq as (H1 & H2 & Hr); [done|].
  destruct Hr as [[=]|[= ->]]. rewrite H2 in Hm. destruct (v_credentials v !! (app, revision)) as [row|]; injection Hm as <- <-; [|done].
  split; [done|]. intros saved Hs. by exists row.
Qed.

Lemma create_credential_stored rc v v' : RegistryCredentialRepository_Create rc v = (Ok tt, v') ->
  v_credentials v' !! (RC_AppName rc, RC_Revision rc) =
    Some (CredentialRow (RC_AppName rc) (RC_Revision rc) (RC_Registry rc) (RC_Ciphertext rc) (formatTime (RC_CreatedAt rc))).
Proof.
  intros Hm. unfold RegistryCredentialRepository_Create in Hm. cbv zeta in Hm.
  do 4 (apply st_bind_inv in Hm as [(? & _ & [=])|(? & ? & _ & Hm)]).
  apply st_bind_inv in Hm as [(? & _ & [=])|([m0 rows] & v1 & Hst & Hm)].
  apply st_bind_inv in Hm as [(? & _ & [=])|(u & v2 & Hg & Hm)]. injection Hg as Hg <-. unfold check in Hg. case_match eqn:Hz; [done|].
  apply st_bind_inv in Hm as [(? & _ & [=])|(n & v3 & Hx & Hm)]. injection Hm as <-.
  match type of Hst with v_step _ ?v0 = _ => rename v0 into v4 end.
  unfold v_step, v_next in Hst. destruct (next_fault (v_faults v4)) as [[] fs]; [|done|done]. injection Hst as Hi <-.
  unfold v_exec, v_next in Hx. cbn [v_faults v_credentials v_bundles] in *. destruct (next_fault fs) as [[] fs']; cbv zeta in Hx.
  - cbn [v_credentials] in Hx. rewrite Hi in Hx. injection Hx as <- <-. cbn [v_credentials with_credentials].
    apply insert_limited_grows in Hi as [_ Hi]; [|unfold maxRegistryCredentialRevisions; lia]. apply Hi. by apply Z.eqb_neq.
  - done.
  - by repeat case_match.
Qed.

Lemma same_credential_inv saved c md : Credential_Validate c = Ok tt -> sameCredential saved (credentialPayload c) = Ok md ->
  decodeCredential saved = Ok c.
Proof.
  intros Hv (c' & Hd & [Hc _]%check_bind)%bind_ok. bools. apply String.eqb_eq in Hc. rewrite Hd. f_equal.
  assert (Hv' : Credential_Validate c' = Ok tt).
  { unfold decodeCredential in Hd. repeat case_match; try done. apply check_bind in Hd as [_ [Hd [= <-]]%check_bind]. bools.
    match goal with |- Credential_Validate ?x = _ => by destruct (Credential_Validate x) as [[]|] end. }
  pose proof (credentialPayload_parse c Hv) as E. rewrite <- Hc, credentialPayload_parse in E by done. by injection E.
Qed.

Lemma create_registry_holds caller nonce now c v md v' :
  nonce_ok nonce -> stored_range now -> slen (credentialPayload c) <= 20000 ->
  CreateRegistryCredential caller nonce now c v = (Ok md, v') -> Credential_Validate c = Ok tt /\ holds_credential c v'.
Proof.
  intros Hn Ht Hl Hm. unfold CreateRegistryCredential in Hm. cbv zeta in Hm.
  apply st_bind_inv in Hm as [(e & _ & [=])|(u & v1 & _ & Hm)].
  apply st_bind_inv in Hm as [(e & _ & [=])|(u1 & v2 & Hg & Hm)]. injection Hg as Hg <-. unfold check in Hg. case_match eqn:Hv; [done|].
  assert (Hvc : Credential_Validate c = Ok tt) by (bools; by destruct (Credential_Validate c) as [[]|]). split; [done|].
  assert (Hfound : forall v0 saved v3 md0, RegistryCredentialRepository_Find (Cred_AppName c) (Cred_Revision c) v0 = (Ok saved, v3) ->
    sameCredential saved (credentialPayload c) = Ok md0 -> holds_credential c v3).
  { intros v0 saved v3 md0 (HC & Hrow)%find_credential_inv Hs. destruct (Hrow saved eq_refl) as (row & Hr & Hsc). exists row, saved.
    rewrite HC. split; [done|]. split; [done|]. by eapply same_credential_inv. }
  apply st_bind_inv in Hm as [(e & _ & [=])|(existing & v3 & Hf & Hm)].
  unfold attempt in Hf. destruct (RegistryCredentialRepository_Find _ _ v1) as [r1 v4] eqn:E1. injection Hf as <- <-.
  destruct r1 as [row|e]; [injection Hm as Hs <-; by eapply Hfound|].
  apply st_bind_inv in Hm as [(e1 & _ & [=])|(u2 & v5 & _ & Hm)].
  apply st_bind_inv in Hm as [(e1 & _ & [=])|(cipher & v6 & Hc & Hm)]. unfold map_err, lift in Hc.
  destruct (Encrypt nonce _) as [ct|] eqn:Ec; [|done]. injection Hc as -> <-.
  apply st_bind_inv in Hm as [(e1 & _ & [=])|(created & v7 & Hcr & Hm)]. unfold attempt in Hcr.
  destruct (RegistryCredentialRepository_Create _ v5) as [r2 v8] eqn:E2. injection Hcr as <- <-.
  destruct r2 as [[]|e2].
  - injection Hm as <- <-. apply create_credential_stored in E2. cbn [RC_AppName RC_Revision RC_Registry RC_Ciphertext RC_CreatedAt] in E2.
    do 2 eexists. split; [exact E2|]. unfold scanCredential. cbn [vc_created vc_app vc_revision vc_registry vc_ciphertext].
    rewrite parseStoredTime_formatTime by done. split; [reflexivity|]. apply decodeCredential_ok; try done. by eapply encrypt_decrypt.
  - apply st_bind_inv in Hm as [(e1 & _ & [=])|(old & v9 & Ho & Hm)]. unfold attempt in Ho.
    destruct (RegistryCredentialRepository_Find _ _ v8) as [r3 v10] eqn:E3. injection Ho as <- <-.
    destruct r3 as [row|e3]; [|done]. injection Hm as Hs <-. by eapply Hfound.
Qed.

(** A confirmed registry credential is resolved unchanged, for its own app and
    revision and for any image its registry binding admits, provided its payload has at
    most 20,000 bytes (see [long_credential_lost] for the others). *)
Theorem registry_roundtrip caller nonce now c image v md v' :
  nonce_ok nonce -> stored_range now -> slen (credentialPayload c) <= 20000 ->
  Credential_ValidateFor c (Cred_AppName c) (Cred_Revision c) image = Ok tt ->
  CreateRegistryCredential caller nonce now c v = (Ok md, v') ->
  ResolveRegistryCredential (Cred_AppName c) (Cred_Revision c) image (fine v') = (Ok c, fine v').
Proof.
  intros Hn Ht Hl Hb Hm. destruct (create_registry_holds _ _ _ _ _ _ _ Hn Ht Hl Hm) as (Hv & row & saved & Hr & Hs & Hd).
  pose proof Hv as [Hg _]%check_bind. bools.
  unfold ResolveRegistryCredential, mbind, st_bind, guard, lift, check, map_err.
  match goal with E : ValidAppName _ = true |- _ => pose proof (ValidAppName_pattern _ E) as Hp; rewrite E end.
  match goal with E : ValidRevision _ = true |- _ => rewrite E; unfold ValidRevision in E; rename E into Hre end. cbn [negb orb].
  unfold RegistryCredentialRepository_Find, mbind, st_bind, guard, lift, check, v_query, v_next. rewrite Hp, Hre. cbn [negb orb fine v_faults next_fault v_credentials].
  rewrite Hr. cbn iota. rewrite Hs, Hd, Hb. done.
Qed.
End registry.

(** ** Concrete runs *)

Section runs.
#[local] Existing Instance shift_aead.

Definition sample_nonce : list Z := [7; 1; 2; 3; 4; 5; 6; 7; 8; 9; 10; 255].
Definition sample_now : Z := 63902692800000000000.
Definition sample_revision : string := "aaaaaaaaaaaaaaaaaaaaaaaaaaaaaaaaaaaaaaaaaaaaaaaaaaaaaaaaaaaaaaaa".
Definition sample_values : gmap string string := {[ "DATABASE_URL" := "postgres://db"; "GREETING" := "<hello>" ]}.
Definition empty_vault : vault := MkVault ∅ ∅ ∅ [].

Lemma sample_nonce_ok : nonce_ok (Some sample_nonce).
Proof. intros n [= <-]. split; [reflexivity|]. unfold byte_list, sample_nonce. repeat constructor; lia. Qed.

Lemma sample_now_ok : stored_range sample_now.
Proof. unfold stored_range. vm_compute. split; [discriminate|reflexivity]. Qed.

Lemma sample_values_utf8 : env_utf8 sample_values.
Proof. unfold env_utf8, utf8_labels, sample_values. cbn [default]. repeat (apply map_Forall_insert_2; [by split|]). apply map_Forall_empty. Qed.

Definition save_sample (values : gmap string string) (v : vault) : result EnvironmentBundleMetadata * vault :=
  CreateEnvironmentBundle (Some CallerAdmin) (Some sample_nonce) sample_now " shop" sample_revision values v.

Lemma save_sample_facts : exists md v', save_sample sample_values empty_vault = (Ok md, v').
Proof.
  assert (E : is_ok (save_sample sample_values empty_vault).1 = true) by (vm_compute; reflexivity).
  destruct (save_sample sample_values empty_vault) as [[md|] v']; [by exists md, v'|discriminate].
Qed.

Lemma environment_roundtrip_witness : exists v', resolveEnvironmentBundle "shop" sample_revision (fine v') = (Ok sample_values, fine v').
Proof.
  destruct save_sample_facts as (md & v' & E). exists v'. unfold save_sample in E.
  exact (environment_roundtrip _ _ _ _ _ _ _ _ _ sample_nonce_ok sample_now_ok sample_values_utf8 E).
Defined.

Lemma environment_retry_witness : exists v' r, save_sample ∅ (fine v') = (r, fine v') /\
  r = Err (ErrStatus AlreadyExists "environment revision is immutable; use a new revision").
Proof.
  destruct save_sample_facts as (md & v' & E). exists v'. unfold save_sample in *.
  destruct (environment_retry _ _ _ _ _ _ _ _ _ sample_nonce_ok sample_now_ok sample_values_utf8 E (Some sample_nonce) sample_now ∅)
    as (r & Hr & _ & Hne); [apply map_Forall_empty|reflexivity|].
  exists r. split; [exact Hr|]. apply Hne. intros E0. apply (f_equal size) in E0. vm_compute in E0. discriminate.
Defined.

Definition sample_credential (password : string) : Credential := MkCredential "shop" sample_revision "ghcr.io" "robot" password.
Definition sample_image : string := "ghcr.io/acme/shop@sha256:" +:+ sample_revision.
Definition save_credential (c : Credential) : result RegistryCredentialMetadata * vault :=
  CreateRegistryCredential (Some CallerAdmin) (Some sample_nonce) sample_now c empty_vault.

Lemma save_credential_facts : exists md v', save_credential (sample_credential "s3cret&more") = (Ok md, v').
Proof.
  assert (E : is_ok (save_credential (sample_credential "s3cret&more")).1 = true) by (vm_compute; reflexivity).
  destruct (save_credential _) as [[md|] v']; [by exists md, v'|discriminate].
Qed.

Lemma registry_roundtrip_witness : exists v',
  ResolveRegistryCredential "shop" sample_revision sample_image (fine v') = (Ok (sample_credential "s3cret&more"), fine v').
Proof.
  destruct save_credential_facts as (md & v' & E). exists v'. unfold save_credential in E.
  assert (Hl : slen (credentialPayload (sample_credential "s3cret&more")) <= 20000) by (vm_compute; discriminate).
  assert (Hb : Credential_ValidateFor (sample_credential "s3cret&more") "shop" sample_revision sample_image = Ok tt) by (vm_compute; reflexivity).
  exact (registry_roundtrip _ _ _ _ _ _ _ _ sample_nonce_ok sample_now_ok Hl Hb E).
Defined.

Lemma secret_revision_immutable_witness : app_kept "shop" empty_vault
  (run_vault_ops [OpCreateBundle (Some CallerAdmin) (Some sample_nonce) sample_now "shop" sample_revision sample_values;
                  OpDeleteBundles "other"] empty_vault).
Proof. apply secret_revision_immutable. reflexivity. Defined.

Fixpoint repeat_byte (n : nat) (a : ascii) : string := match n with O => "" | S n => String a (repeat_byte n a) end.

(** Some credentials are accepted and then lost.  The password of a valid credential
    may have 8,192 bytes, and JSON escapes some bytes with six, so that its payload can
    exceed the 20,000 bytes the reader admits: creation is confirmed and the row is
    stored, but the credential can never be resolved. *)
Theorem long_credential_lost :
  exists c, Credential_Validate c = Ok tt /\ Credential_ValidateFor c "shop" sample_revision sample_image = Ok tt /\
    is_ok (save_credential c).1 = true /\
    (ResolveRegistryCredential "shop" sample_revision sample_image (save_credential c).2).1 = Err unresolved.
Proof. exists (sample_credential (repeat_byte 3500 "<"%char)). split; [vm_compute; reflexivity|]. split; [vm_compute; reflexivity|].
  split; vm_compute; reflexivity. Qed.

(** A name with spaces around it is accepted as the name of an environment variable:
    the check of a name trims it first, and the bundle keeps it untrimmed. *)
Theorem padded_name_accepted :
  validEnvironmentValues {[ " FOO " := "x" ]} = true /\ re_match secretNamePattern " FOO " = false.
Proof. split; vm_compute; reflexivity. Qed.
End runs.
