(* ===== verification/Activation.v ===== *)
(** * The activation gate (internal/ingress/activation.go, ownership.go)

    Traffic of an app is selected by its Kubernetes Service.  A gate is a
    single-use compare-and-swap token: the identity and resource version of the
    Service and the operation named in its annotation.  The Kubernetes API is an
    interface: the calls, a ghost history of the versions of every Service, and
    the documented laws of optimistic concurrency; other writers may act during
    every call. *)

From S2P Require Import Prelude GoStrings Regexp GoJson Appconfig Db.
From Stdlib Require Import Ascii String.
Local Open Scope Z_scope.

(** ** Types of the Kubernetes client library *)

Class KubeTypes := {
  service_port : Type;
  service_port_eq :: EqDecision service_port;
  zero_port : service_port;
  sp_Name : service_port -> string;
  sp_Protocol : service_port -> string;
  sp_Port : service_port -> Z;
  sp_TargetsInt : service_port -> Z -> bool; (* TargetPort == intstr.FromInt32(p) *)
  enc_ServicePort : service_port -> json;
  dec_ServicePort : decoder service_port;
  ServicePort_roundtrip : forall cur p, dec_ServicePort cur (enc_ServicePort p) = Some p;
  ServicePort_json : forall p, enc_ok 3 (enc_ServicePort p)
}.

(** The API status an error carries: the first one [errors.As] finds in wrapped and
    joined errors. *)
Fixpoint api_status (e : error) : option kube_error :=
  match e with
  | ErrKube k => Some k
  | ErrWrap _ _ inner => api_status inner
  | ErrJoin a b => match api_status a with Some k => Some k | None => api_status b end
  | _ => None
  end.

(** [apierrors.IsNotFound], [IsConflict] *)
Definition is_kube (k : kube_error) (e : error) : bool := bool_decide (api_status e = Some k).
Definition IsNotFound : error -> bool := is_kube KubeNotFound.
Definition IsConflict : error -> bool := is_kube KubeConflict.

Record ActivationGate := MkGate {
  Gate_App : string; Gate_Namespace : string; Gate_UID : string; Gate_ResourceVersion : string; Gate_OperationID : string }.
#[export] Instance ActivationGate_eq_dec : EqDecision ActivationGate.
Proof. solve_decision. Defined.

Definition zero_gate : ActivationGate := MkGate "" "" "" "" "".

Definition activationOperationAnnotation : string := "deployer.io/activation-operation".
Definition initialCandidateRequestAnnotation : string := "deployer.io/initial-candidate-request".
Definition candidateGenerationLabel : string := "deployer.io/candidate-generation".
Definition appOwnershipLabel : string := "deployer.io/app".
Definition managedByLabel : string := "app.kubernetes.io/managed-by".
Definition managedByDeployer : string := "deployer".

Definition ErrActivationSuperseded : error := ErrSentinel "activation gate changed; do not replay this operation".

(** [labels[k]]: the zero value for a missing key. *)
Definition map_get (m : gmap string string) (k : string) : string := default "" (m !! k).

Definition requireAppResourceOwnership (kind name app : string) (labels : gmap string string) : result unit :=
  if negb (String.eqb (map_get labels appOwnershipLabel) app) then
    Err (Errorf "%s %q ownership conflict: expected label %s=%q, found %q"
      [AStr kind; AStr name; AStr appOwnershipLabel; AStr app; AStr (map_get labels appOwnershipLabel)])
  else
    match labels !! managedByLabel with
    | Some managedBy =>
        if negb (String.eqb managedBy managedByDeployer) then
          Err (Errorf "%s %q ownership conflict: expected label %s=%q, found %q"
            [AStr kind; AStr name; AStr managedByLabel; AStr managedByDeployer; AStr managedBy])
        else Ok tt
    | None => Ok tt
    end.

Section gate.
Context `{KubeTypes}.

(** A nil map or slice is [None]. *)
Record ActivationTarget := MkTarget {
  Target_Selector : option (gmap string string); Target_Ports : option (list service_port) }.
#[export] Instance ActivationTarget_eq_dec : EqDecision ActivationTarget.
Proof. solve_decision. Defined.

Definition zero_target : ActivationTarget := MkTarget None None.
Definition selector_of (t : ActivationTarget) : gmap string string := default ∅ (Target_Selector t).
Definition ports_of (t : ActivationTarget) : list service_port := default [] (Target_Ports t).

(** [apiequality.Semantic.DeepEqual] on targets: nil and empty are equal. *)
Definition target_eq (a b : ActivationTarget) : bool :=
  bool_decide (selector_of a = selector_of b) && bool_decide (ports_of a = ports_of b).

(** The parts of a Service the program reads or writes. *)
Record Service := MkService {
  Svc_Name : string; Svc_Namespace : string; Svc_UID : string; Svc_ResourceVersion : string; Svc_Deleting : bool;
  Svc_Labels : gmap string string; Svc_Annotations : gmap string string;
  Svc_Selector : option (gmap string string); Svc_Ports : option (list service_port) }.
#[export] Instance Service_eq_dec : EqDecision Service.
Proof. solve_decision. Defined.

Definition with_version (rv : string) (s : Service) : Service :=
  MkService (Svc_Name s) (Svc_Namespace s) (Svc_UID s) rv (Svc_Deleting s) (Svc_Labels s) (Svc_Annotations s)
    (Svc_Selector s) (Svc_Ports s).
Definition with_annotation (k v : string) (s : Service) : Service :=
  MkService (Svc_Name s) (Svc_Namespace s) (Svc_UID s) (Svc_ResourceVersion s) (Svc_Deleting s) (Svc_Labels s)
    (<[k := v]> (Svc_Annotations s)) (Svc_Selector s) (Svc_Ports s).
Definition with_target (t : ActivationTarget) (s : Service) : Service :=
  MkService (Svc_Name s) (Svc_Namespace s) (Svc_UID s) (Svc_ResourceVersion s) (Svc_Deleting s) (Svc_Labels s)
    (Svc_Annotations s) (Target_Selector t) (Target_Ports t).

Definition activationGateFor (s : Service) : ActivationGate :=
  MkGate (Svc_Name s) (Svc_Namespace s) (Svc_UID s) (Svc_ResourceVersion s)
    (map_get (Svc_Annotations s) activationOperationAnnotation).

(** The object as the server stores it: ports completed with their defaults. *)
Definition stored (default_ports : option (list service_port) -> option (list service_port)) (s : Service) : Service :=
  MkService (Svc_Name s) (Svc_Namespace s) (Svc_UID s) (Svc_ResourceVersion s) (Svc_Deleting s) (Svc_Labels s)
    (Svc_Annotations s) (Svc_Selector s) (default_ports (Svc_Ports s)).

(** ** The API of Services in one namespace

    [versions k n] lists the states of Service [n] so far, newest first, with
    [None] for a deletion.  Every change gives a new resource version that was
    never used before; [Update] replaces exactly the version the writer names, or
    is refused (a writer that names no version or identity is not checked, so the
    law speaks of named ones); an update that changes nothing keeps the version. *)
Class ServiceAPI (K : Type) := {
  services_Get : string -> K -> result Service * K;
  services_Update : Service -> K -> result Service * K;
  versions : K -> string -> list (option Service);
  kube_wf : K -> Prop;
  default_ports : option (list service_port) -> option (list service_port);
  get_grows : forall n k r k', kube_wf k -> services_Get n k = (r, k') ->
    kube_wf k' /\ forall m, versions k m `suffix_of` versions k' m;
  update_grows : forall s k r k', kube_wf k -> services_Update s k = (r, k') ->
    kube_wf k' /\ forall m, versions k m `suffix_of` versions k' m;
  get_current : forall n k s k', kube_wf k -> services_Get n k = (Ok s, k') ->
    Svc_Name s = n /\ exists newer older, versions k' n = (newer ++ Some s :: older)%list /\ versions k n `suffix_of` Some s :: older;
  update_current : forall s k s' k', kube_wf k -> Svc_ResourceVersion s <> "" -> Svc_UID s <> "" ->
    services_Update s k = (Ok s', k') ->
    exists old newer older, versions k (Svc_Name s) `suffix_of` Some old :: older /\
      Svc_ResourceVersion old = Svc_ResourceVersion s /\ Svc_UID old = Svc_UID s /\
      ((s' = old /\ stored default_ports s = old /\ versions k' (Svc_Name s) = (newer ++ Some old :: older)%list) \/
       (s' = with_version (Svc_ResourceVersion s') (stored default_ports s) /\ stored default_ports s <> old /\
        versions k' (Svc_Name s) = (newer ++ Some s' :: Some old :: older)%list));
  versions_stored : forall k n s, kube_wf k -> Some s ∈ versions k n -> Svc_Name s = n /\ default_ports (Svc_Ports s) = Svc_Ports s;
  versions_unique : forall k n i j s1 s2, kube_wf k -> versions k n !! i = Some (Some s1) -> versions k n !! j = Some (Some s2) ->
    Svc_ResourceVersion s1 = Svc_ResourceVersion s2 -> i = j
}.

(** ** The controller *)

Section controller.
Context {K : Type} `{!ServiceAPI K} (namespace : string).

Definition Get (n : string) : ST K Service := services_Get n.
Definition Update (s : Service) : ST K Service := services_Update s.

Definition CaptureActivationGate (app : string) : ST K (ActivationGate * ActivationTarget) :=
  service ← Get app;
  _ ← lift (requireAppResourceOwnership "Service" app app (Svc_Labels service));
  _ ← guard (String.eqb (Svc_UID service) "" || String.eqb (Svc_ResourceVersion service) "")
        (ErrSentinel "service lacks activation identity");
  mret (activationGateFor service, MkTarget (Svc_Selector service) (Svc_Ports service)).

Definition serviceAtGate (gate : ActivationGate) : ST K Service :=
  _ ← guard (String.eqb (Gate_App gate) "" || negb (String.eqb (Gate_Namespace gate) namespace) ||
             String.eqb (Gate_UID gate) "" || String.eqb (Gate_ResourceVersion gate) "") ErrActivationSuperseded;
  service ← map_err (fun e => if IsNotFound e then ErrActivationSuperseded else e) (Get (Gate_App gate));
  _ ← lift (requireAppResourceOwnership "Service" (Svc_Name service) (Gate_App gate) (Svc_Labels service));
  _ ← guard (negb (bool_decide (activationGateFor service = gate))) ErrActivationSuperseded;
  mret service.

Definition updateActivationGate (s : Service) : ST K ActivationGate :=
  updated ← map_err (fun e => if IsConflict e || IsNotFound e then ErrActivationSuperseded else e) (Update s);
  mret (activationGateFor updated).

Definition FenceActivationGate (gate : ActivationGate) (operationID : string) : ST K ActivationGate :=
  _ ← guard (negb (ValidRevision operationID) || String.eqb operationID (Gate_OperationID gate))
        (Errorf "a new activation operation ID is required" []);
  service ← serviceAtGate gate;
  updateActivationGate (with_annotation activationOperationAnnotation operationID service).

Definition ReplaceActivationTarget (gate : ActivationGate) (target : ActivationTarget) : ST K ActivationGate :=
  _ ← guard (negb (ValidRevision (Gate_OperationID gate)) || bool_decide (selector_of target = ∅) ||
             bool_decide (ports_of target = [])) (ErrSentinel "invalid activation target");
  service ← serviceAtGate gate;
  updateActivationGate (with_target target service).

(** candidate_legacy_guard.go *)
Definition candidateManagedService (s : Service) : bool :=
  bool_decide (is_Some (Svc_Annotations s !! activationOperationAnnotation)) ||
  bool_decide (is_Some (Svc_Annotations s !! initialCandidateRequestAnnotation)) ||
  bool_decide (is_Some (default ∅ (Svc_Selector s) !! candidateGenerationLabel)).

Definition ErrCandidateManagedApp : error :=
  ErrSentinel "app uses isolated candidate deployments; legacy mutation is disabled".

Definition rejectLegacyCandidateMutation (app : string) : ST K unit :=
  found ← attempt (Get app);
  match found with
  | Err e => if IsNotFound e then mret tt else throw e
  | Ok service =>
      _ ← lift (requireAppResourceOwnership "Service" app app (Svc_Labels service));
      guard (candidateManagedService service) ErrCandidateManagedApp
  end.

(** candidate_bootstrap.go *)
Definition InitialCandidateRequest (gate : ActivationGate) : ST K string :=
  service ← serviceAtGate gate;
  let requestID := map_get (Svc_Annotations service) initialCandidateRequestAnnotation in
  _ ← guard (negb (ValidRevision requestID)) (ErrSentinel "inactive candidate service has no valid request identity");
  mret requestID.

(** ** What a gate guarantees *)

(** Versions that exist are never taken back. *)
Definition later (k k' : K) : Prop := kube_wf k /\ kube_wf k' /\ forall m, versions k m `suffix_of` versions k' m.

Lemma later_get n k r k' : kube_wf k -> Get n k = (r, k') -> later k k'.
Proof. intros Hw Hg. destruct (get_grows n k r k' Hw Hg). by repeat split. Qed.

Lemma later_update s k r k' : kube_wf k -> Update s k = (r, k') -> later k k'.
Proof. intros Hw Hg. destruct (update_grows s k r k' Hw Hg). by repeat split. Qed.

Lemma later_trans k1 k2 k3 : later k1 k2 -> later k2 k3 -> later k1 k3.
Proof. intros (W1 & _ & S1) (_ & W3 & S3). split; [done|]. split; [done|]. intros m. by trans (versions k2 m). Qed.

Lemma later_refl k : kube_wf k -> later k k.
Proof. by repeat split. Qed.

(** Every operation of the controller only adds versions, whatever its outcome. *)
Definition grows {A} (m : ST K A) : Prop := forall k r k', kube_wf k -> m k = (r, k') -> later k k'.

Lemma grows_lift {A} (r : result A) : grows (lift r).
Proof. intros k r' k' Hw [= <- <-]. by apply later_refl. Qed.

Lemma grows_ret {A} (a : A) : grows (mret a).
Proof. intros k r' k' Hw [= <- <-]. by apply later_refl. Qed.

Lemma grows_bind {A B} (m : ST K A) (f : A -> ST K B) : grows m -> (forall a, grows (f a)) -> grows (mbind f m).
Proof.
  intros Hm Hf k r k' Hw [(e & He & _)|(a & k1 & Ha & Hb)]%st_bind_inv; [by eapply Hm|].
  pose proof (Hm _ _ _ Hw Ha) as L. eapply later_trans; [exact L|]. eapply Hf; [|exact Hb]. by destruct L as (_ & ? & _).
Qed.

Lemma grows_map_err {A} g (m : ST K A) : grows m -> grows (map_err g m).
Proof.
  intros Hm k r k' Hw E. unfold map_err in E. destruct (m k) as [[a|e] k1] eqn:Ha; injection E as <- <-; by eapply Hm.
Qed.

Lemma grows_get n : grows (Get n).
Proof. intros k r k'. apply later_get. Qed.

Lemma grows_update s : grows (Update s).
Proof. intros k r k'. apply later_update. Qed.

Lemma grows_serviceAtGate gate : grows (serviceAtGate gate).
Proof.
  unfold serviceAtGate. apply grows_bind; [apply grows_lift|intros _]. apply grows_bind; [apply grows_map_err, grows_get|intros s].
  apply grows_bind; [apply grows_lift|intros _]. apply grows_bind; [apply grows_lift|intros _]. apply grows_ret.
Qed.

Lemma grows_updateGate s : grows (updateActivationGate s).
Proof. unfold updateActivationGate. apply grows_bind; [apply grows_map_err, grows_update|intros ?; apply grows_ret]. Qed.

Lemma grows_fence gate op : grows (FenceActivationGate gate op).
Proof.
  unfold FenceActivationGate. apply grows_bind; [apply grows_lift|intros _].
  apply grows_bind; [apply grows_serviceAtGate|intros s; apply grows_updateGate].
Qed.

Lemma grows_replace gate t : grows (ReplaceActivationTarget gate t).
Proof.
  unfold ReplaceActivationTarget. apply grows_bind; [apply grows_lift|intros _].
  apply grows_bind; [apply grows_serviceAtGate|intros s; apply grows_updateGate].
Qed.

(** Two versions with one resource version are the same version: what lies below
    it is the same. *)
Lemma version_position k n newer1 s1 older1 newer2 s2 older2 :
  kube_wf k -> versions k n = (newer1 ++ Some s1 :: older1)%list -> versions k n = (newer2 ++ Some s2 :: older2)%list ->
  Svc_ResourceVersion s1 = Svc_ResourceVersion s2 -> newer1 = newer2 /\ s1 = s2 /\ older1 = older2.
Proof.
  intros Hw E1 E2 Erv.
  assert (Hlen : List.length newer1 = List.length newer2).
  { apply (versions_unique k n (List.length newer1) (List.length newer2) s1 s2 Hw); [by rewrite E1, list_lookup_middle|by rewrite E2, list_lookup_middle|done]. }
  rewrite E1 in E2. apply app_inj_1 in E2 as [-> E2]; [|done]. by injection E2 as -> ->.
Qed.

(** [serviceAtGate] returns the version the gate names, as it was current during
    the call. *)
Lemma serviceAtGate_ok gate k s k' :
  kube_wf k -> serviceAtGate gate k = (Ok s, k') ->
  later k k' /\ activationGateFor s = gate /\ Gate_Namespace gate = namespace /\ Gate_App gate <> "" /\
  exists newer older, versions k' (Gate_App gate) = (newer ++ Some s :: older)%list /\ versions k (Gate_App gate) `suffix_of` Some s :: older.
Proof.
  intros Hw Hs. unfold serviceAtGate in Hs. apply st_bind_ok in Hs as ([] & k1 & [= Hg <-] & Hs). bools.
  apply st_bind_ok in Hs as (s1 & k1 & Hget & Hs). unfold map_err in Hget.
  destruct (Get (Gate_App gate) k) as [[s0|e] k0] eqn:Hg; [|done]. injection Hget as -> ->.
  apply st_bind_ok in Hs as ([] & k2 & [= _ <-] & Hs). apply st_bind_ok in Hs as ([] & k2 & [= Hm <-] & Hs).
  injection Hs as -> ->. bools. destruct (get_current _ _ _ _ Hw Hg) as [Hn Hcur].
  split; [by eapply later_get|]. split; [done|]. split; [by apply String.eqb_eq|]. split; [by apply String.eqb_neq|done].
Qed.

Lemma serviceAtGate_named gate k s k' :
  serviceAtGate gate k = (Ok s, k') -> Gate_UID gate <> "" /\ Gate_ResourceVersion gate <> "".
Proof.
  unfold serviceAtGate. intros ([] & k1 & [= Hg _] & _)%st_bind_ok. bools. by rewrite <- !String.eqb_neq.
Qed.

Lemma updateActivationGate_ok s k g k' :
  updateActivationGate s k = (Ok g, k') -> exists s', Update s k = (Ok s', k') /\ g = activationGateFor s'.
Proof.
  unfold updateActivationGate, map_err. intros (s' & k1 & Hu & [= <- <-])%st_bind_ok.
  destruct (Update s k) as [[x|e] k0]; [|done]. injection Hu as -> ->. by exists s'.
Qed.

(** The versions a conditional write leaves behind: directly on top of the version
    the gate names. *)
Definition written_over (gate : ActivationGate) (s' : Service) (k' : K) : Prop :=
  exists old newer older, activationGateFor old = gate /\ Gate_ResourceVersion gate <> Svc_ResourceVersion s' /\
    versions k' (Gate_App gate) = (newer ++ Some s' :: Some old :: older)%list.

Lemma write_at_gate gate k s k1 (f : Service -> Service) s' k' :
  kube_wf k -> serviceAtGate gate k = (Ok s, k1) -> Update (f s) k1 = (Ok s', k') ->
  (Svc_Name (f s) = Svc_Name s /\ Svc_ResourceVersion (f s) = Svc_ResourceVersion s /\ Svc_UID (f s) = Svc_UID s) ->
  activationGateFor s = gate /\ later k k' /\
  ((s' = s /\ stored default_ports (f s) = s) \/
   (s' = with_version (Svc_ResourceVersion s') (stored default_ports (f s)) /\ written_over gate s' k')).
Proof.
  intros Hw Hs Hu (Fn & Frv & Fu). destruct (serviceAtGate_ok _ _ _ _ Hw Hs) as (L1 & Hgate & _ & _ & newer & older & Hv & _).
  pose proof L1 as (_ & Hw1 & _). pose proof (later_update _ _ _ _ Hw1 Hu) as L2. pose proof L2 as (_ & Hw2 & Hsuf).
  split; [done|]. split; [by eapply later_trans|].
  pose proof (serviceAtGate_named _ _ _ _ Hs) as [Nu Nv]. rewrite <- Hgate in Nu, Nv. cbn in Nu, Nv.
  destruct (update_current (f s) k1 s' k' Hw1 ltac:(by rewrite Frv) ltac:(by rewrite Fu) Hu) as (old & newer2 & older2 & Hsuf2 & Erv & Euid & Hcase). rewrite Fn in *.
  assert (Happ : Svc_Name s = Gate_App gate) by (by rewrite <- Hgate). rewrite Happ in *.
  (* the replaced version is the one that was read *)
  assert (Hold : old = s /\ exists l, versions k' (Gate_App gate) = (l ++ Some old :: older2)%list).
  { assert (exists l, versions k' (Gate_App gate) = (l ++ Some old :: older2)%list) as [l Hl].
    { destruct Hcase as [(_ & _ & ->)|(_ & _ & ->)]; [by eexists|]. exists (newer2 ++ [Some s'])%list. by rewrite <- app_assoc. }
    specialize (Hsuf (Gate_App gate)) as [extra Hx]. rewrite Hv in Hx. rewrite app_assoc in Hx.
    destruct (version_position k' (Gate_App gate) _ _ _ _ _ _ Hw2 Hl Hx) as (_ & -> & _); [congruence|]. eauto. }
  destruct Hold as [-> _]. destruct Hcase as [(-> & Hst & _)|(Hs' & Hne & Hv')]; [by left|]. right. split; [done|].
  exists s, newer2, older2. split; [done|]. split; [|done]. rewrite <- Hgate. cbn. intros E.
  (* equal resource versions would make the new and the replaced version one *)
  assert (Hp : List.length newer2 = S (List.length newer2)); [|lia].
  apply (versions_unique k' (Gate_App gate) _ _ s' s Hw2); [by rewrite Hv', list_lookup_middle| |done].
  rewrite Hv'. rewrite lookup_app_r by lia. by replace (S (List.length newer2) - List.length newer2)%nat with 1%nat by lia.
Qed.

(** Once something was written over the version a gate names, the gate is void. *)
Lemma gate_void gate s' k' k2 r k3 :
  written_over gate s' k' -> later k' k2 -> serviceAtGate gate k2 = (r, k3) -> is_ok r = false.
Proof.
  intros (old & newer & older & Hgate & Hne & Hv) L2 Hs. destruct r as [s|e]; [exfalso|done].
  pose proof L2 as (_ & Hw2 & Hsuf). destruct (serviceAtGate_ok _ _ _ _ Hw2 Hs) as (L3 & Hg & _ & _ & n3 & o3 & Hv3 & [c Hc]).
  pose proof L3 as (_ & Hw3 & Hsuf3).
  specialize (Hsuf (Gate_App gate)) as [a Ha]. rewrite Hv in Ha. specialize (Hsuf3 (Gate_App gate)) as [b Hb].
  rewrite Ha, !app_assoc in Hb.
  assert (Hb' : versions k3 (Gate_App gate) = ((((b ++ a) ++ newer) ++ [Some s']) ++ Some old :: older)%list)
    by (rewrite <- !app_assoc; rewrite Hb, <- !app_assoc; done).
  destruct (version_position k3 (Gate_App gate) _ _ _ _ _ _ Hw3 Hv3 Hb') as (_ & -> & ->); [exact (f_equal Gate_ResourceVersion (eq_trans Hg (eq_sym Hgate)))|].
  (* the version read was current, so nothing lies above it in k2 *)
  rewrite Ha in Hc. apply (f_equal List.length) in Hc. rewrite !length_app in Hc. cbn in Hc. lia.
Qed.
End controller.
End gate.
