(* ===== verification/ActivationProps.v ===== *)
(** * Properties of the activation gate

    A gate is used at most once; fencing keeps the traffic; replacing the target
    is exact.  An in-memory server with lost replies satisfies the laws of the
    interface and instantiates the theorems. *)

From S2P Require Import Prelude GoStrings Regexp GoJson Appconfig Db Activation.
From Stdlib Require Import Ascii String.
Local Open Scope Z_scope.

Section props.
Context `{KubeTypes} {K : Type} `{!ServiceAPI K} (namespace : string).

Lemma map_get_insert m k v : map_get (<[k := v]> m) k = v.
Proof. unfold map_get. by rewrite lookup_insert_eq. Qed.

(** Fencing consumes the gate.  When [FenceActivationGate] succeeds, the new
    gate names the same Service with a new resource version and the new
    operation, the version it replaced is the one the old gate names and has the
    same selector and (completed) ports, and the old gate is void for good: at
    any later time fencing or replacing the target with it fails. *)
Theorem fence_consumes_gate gate op k g k1 :
  kube_wf k -> FenceActivationGate namespace gate op k = (Ok g, k1) ->
  (g = MkGate (Gate_App gate) (Gate_Namespace gate) (Gate_UID gate) (Gate_ResourceVersion g) op /\
   Gate_ResourceVersion g <> Gate_ResourceVersion gate) /\
  (exists old new newer older, versions k1 (Gate_App gate) = (newer ++ Some new :: Some old :: older)%list /\
     activationGateFor old = gate /\ activationGateFor new = g /\
     Svc_Selector new = Svc_Selector old /\ Svc_Ports new = Svc_Ports old /\ Svc_Labels new = Svc_Labels old) /\
  (forall k2, later k1 k2 ->
     (forall op2, is_ok (FenceActivationGate namespace gate op2 k2).1 = false) /\
     (forall t, is_ok (ReplaceActivationTarget namespace gate t k2).1 = false)).
Proof.
  intros Hw Hf. unfold FenceActivationGate in Hf. apply st_bind_ok in Hf as ([] & k0 & [= Hg <-] & Hf). bools.
  apply st_bind_ok in Hf as (s & k0 & Hs & Hf). apply updateActivationGate_ok in Hf as (s' & Hu & ->).
  destruct (write_at_gate namespace gate k s k0 _ s' k1 Hw Hs Hu) as (Hgate & L & Hcase); [done|].
  destruct (serviceAtGate_ok _ _ _ _ _ Hw Hs) as (L0 & _ & _ & _ & n0 & o0 & Hv0 & _).
  destruct Hcase as [(_ & Hst)|(Hs' & Hover)].
  { exfalso. assert (Ha : <[activationOperationAnnotation := op]> (Svc_Annotations s) = Svc_Annotations s)
      by exact (f_equal Svc_Annotations Hst). assert (Hop : op = Gate_OperationID gate); [|by rewrite Hop, String.eqb_refl in *].
    rewrite <- Hgate. cbn. rewrite <- Ha. by rewrite map_get_insert. }
  assert (Hports : default_ports (Svc_Ports s) = Svc_Ports s).
  { apply (versions_stored k0 (Gate_App gate)); [by destruct L0 as (_ & ? & _)|]. rewrite Hv0. apply elem_of_app. right. by left. }
  pose proof Hover as (old & newer & older & Hgo & Hrv & Hv).
  assert (Hold : old = s).
  { destruct L as (_ & Hw1 & _). pose proof (later_update _ _ _ _ ltac:(by destruct L0 as (_ & ? & _)) Hu) as (_ & _ & Hsuf).
    specialize (Hsuf (Gate_App gate)) as [x Hx]. rewrite Hv0, app_assoc in Hx.
    change (newer ++ Some s' :: Some old :: older)%list with (newer ++ [Some s'] ++ Some old :: older)%list in Hv.
    rewrite app_assoc in Hv. destruct (version_position _ _ _ _ _ _ _ _ Hw1 Hv Hx) as (_ & E & _); [|done].
    rewrite <- Hgo in Hgate. exact (f_equal Gate_ResourceVersion (eq_sym Hgate)). }
  subst old. split; [|split].
  - split; [|done]. rewrite Hs', <- Hgate. unfold activationGateFor. cbn. by rewrite map_get_insert.
  - exists s, s', newer, older. do 3 (split; [done|]). rewrite Hs'. cbn. done.
  - intros k2 L2. split.
    + intros op2. unfold FenceActivationGate. destruct (_ ≫= _) as [r k3] eqn:E. cbn. destruct r as [g2|]; [exfalso|done].
      apply st_bind_ok in E as ([] & k4 & [= _ <-] & E). apply st_bind_ok in E as (s2 & k4 & E & _).
      by pose proof (gate_void _ _ _ _ _ _ _ Hover L2 E).
    + intros t. unfold ReplaceActivationTarget. destruct (_ ≫= _) as [r k3] eqn:E. cbn. destruct r as [g2|]; [exfalso|done].
      apply st_bind_ok in E as ([] & k4 & [= _ <-] & E). apply st_bind_ok in E as (s2 & k4 & E & _).
      by pose proof (gate_void _ _ _ _ _ _ _ Hover L2 E).
Qed.

(** Replacing the target is a compare-and-swap of selector and ports together.
    When [ReplaceActivationTarget] succeeds, the Service, its operation and its
    labels are those of the version the gate names; the new version has exactly
    the target's selector and its ports, completed by the server. *)
Lemma replace_exact gate target k g k' :
  kube_wf k -> ReplaceActivationTarget namespace gate target k = (Ok g, k') ->
  exists old new, Some old ∈ versions k' (Gate_App gate) /\ Some new ∈ versions k' (Gate_App gate) /\
    activationGateFor old = gate /\ activationGateFor new = g /\
    Svc_Selector new = Target_Selector target /\ Svc_Ports new = default_ports (Target_Ports target) /\
    Svc_Labels new = Svc_Labels old /\ Svc_Annotations new = Svc_Annotations old /\
    Gate_UID g = Gate_UID gate /\ Gate_OperationID g = Gate_OperationID gate /\ ValidRevision (Gate_OperationID gate) = true.
Proof.
  intros Hw Hf. unfold ReplaceActivationTarget in Hf. apply st_bind_ok in Hf as ([] & k0 & [= Hg <-] & Hf). bools.
  apply st_bind_ok in Hf as (s & k0 & Hs & Hf). apply updateActivationGate_ok in Hf as (s' & Hu & ->).
  destruct (write_at_gate namespace gate k s k0 _ s' k' Hw Hs Hu) as (Hgate & L & Hcase); [done|].
  destruct (serviceAtGate_ok _ _ _ _ _ Hw Hs) as (L0 & _ & _ & _ & n0 & o0 & Hv0 & _).
  assert (Hs_in : Some s ∈ versions k' (Gate_App gate)).
  { pose proof (later_update _ _ _ _ ltac:(by destruct L0 as (_ & ? & _)) Hu) as (_ & _ & Hsuf).
    specialize (Hsuf (Gate_App gate)) as [x Hx]. rewrite Hx, Hv0. apply elem_of_app. right. apply elem_of_app. right. by left. }
  exists s, s'. split; [done|]. destruct Hcase as [(-> & Hst)|(Hs' & Hover)].
  - split; [done|]. split; [done|]. split; [done|]. split; [exact (eq_sym (f_equal Svc_Selector Hst))|].
    split; [exact (eq_sym (f_equal Svc_Ports Hst))|]. by rewrite Hgate.
  - destruct Hover as (old & newer & older & _ & _ & Hv). split; [rewrite Hv; apply elem_of_app; right; by left|].
    subst gate. split; [done|]. split; [done|]. rewrite Hs'. cbn. by repeat split.
Qed.
End props.

(** ** An in-memory server *)

Section memory.
Context `{KubeTypes}.

(** Resource versions are opaque: here a text of growing length. *)
Fixpoint rv_text (n : nat) : string := match n with O => "" | S m => String "v"%char (rv_text m) end.

Lemma rv_text_length n : String.length (rv_text n) = n.
Proof. induction n; cbn; congruence. Qed.

(** All versions of every Service, the next resource version, and whether the next
    replies of [Update] get lost. *)
Record mem := Mem { m_hist : gmap string (list (option Service)); m_next : nat; m_lost : list bool }.

Definition hist (k : mem) (n : string) : list (option Service) := default [] (m_hist k !! n).

Definition mem_get (n : string) (k : mem) : result Service * mem :=
  match hist k n with
  | Some s :: _ => (Ok s, k)
  | _ => (Err (ErrKube KubeNotFound), k)
  end.

Definition mem_update (s : Service) (k : mem) : result Service * mem :=
  let lost := default false (head (m_lost k)) in
  let reply := fun r : result Service => if lost then Err (ErrKube (KubeOther "ServerTimeout" 504)) else r in
  match hist k (Svc_Name s) with
  | Some old :: _ =>
      if bool_decide (Svc_ResourceVersion old = Svc_ResourceVersion s /\ Svc_UID old = Svc_UID s) then
        if bool_decide (s = old) then (reply (Ok old), Mem (m_hist k) (m_next k) (tail (m_lost k)))
        else
          let s' := with_version (rv_text (m_next k)) s in
          (reply (Ok s'), Mem (<[Svc_Name s := Some s' :: hist k (Svc_Name s)]> (m_hist k)) (S (m_next k)) (tail (m_lost k)))
      else (reply (Err (ErrKube KubeConflict)), Mem (m_hist k) (m_next k) (tail (m_lost k)))
  | _ => (reply (Err (ErrKube KubeNotFound)), Mem (m_hist k) (m_next k) (tail (m_lost k)))
  end.

(** Resource versions decrease from the newest version down. *)
Fixpoint wf_hist (n : string) (bound : nat) (l : list (option Service)) : Prop :=
  match l with
  | [] => True
  | None :: l' => wf_hist n bound l'
  | Some s :: l' => Svc_Name s = n /\ (String.length (Svc_ResourceVersion s) < bound)%nat /\
                    wf_hist n (String.length (Svc_ResourceVersion s)) l'
  end.

Definition mem_wf (k : mem) : Prop := forall n, wf_hist n (m_next k) (hist k n).

Lemma wf_hist_lookup n bound l i s :
  wf_hist n bound l -> l !! i = Some (Some s) -> Svc_Name s = n /\ (String.length (Svc_ResourceVersion s) < bound)%nat.
Proof.
  revert bound i. induction l as [|[x|] l IH]; intros bound i Hw Hi; [done|..]; destruct i as [|i]; cbn in *; try done.
  - injection Hi as ->. by destruct Hw as (? & ? & _).
  - destruct Hw as (_ & Hlt & Hw). destruct (IH _ _ Hw Hi). split; [done|lia].
  - by eapply IH.
Qed.

Lemma wf_hist_unique n bound l i j s1 s2 :
  wf_hist n bound l -> l !! i = Some (Some s1) -> l !! j = Some (Some s2) ->
  Svc_ResourceVersion s1 = Svc_ResourceVersion s2 -> i = j.
Proof.
  revert bound i j. induction l as [|[x|] l IH]; intros bound i j Hw Hi Hj E; [done|..];
    destruct i as [|i], j as [|j]; cbn in *; try done; try destruct Hw as (_ & _ & Hw).
  - injection Hi as ->. destruct (wf_hist_lookup _ _ _ _ _ Hw Hj). rewrite E in *. lia.
  - injection Hj as ->. destruct (wf_hist_lookup _ _ _ _ _ Hw Hi). rewrite E in *. lia.
  - f_equal. by eapply IH.
  - f_equal. by eapply IH.
Qed.

Lemma wf_hist_mono n b b' l : (b <= b')%nat -> wf_hist n b l -> wf_hist n b' l.
Proof.
  revert b b'. induction l as [|[x|] l IH]; intros b b' Hb Hw; cbn in *; [done| |by eapply IH].
  destruct Hw as (? & ? & ?). repeat split; [done|lia|done].
Qed.

Lemma mem_update_cases s k r k' :
  mem_update s k = (r, k') ->
  (m_hist k' = m_hist k /\ m_next k' = m_next k /\
     forall s', r = Ok s' -> s' = s /\ exists older, hist k (Svc_Name s) = Some s :: older) \/
  (exists old older, hist k (Svc_Name s) = Some old :: older /\ Svc_ResourceVersion old = Svc_ResourceVersion s /\
     Svc_UID old = Svc_UID s /\ s <> old /\ m_next k' = S (m_next k) /\
     m_hist k' = <[Svc_Name s := Some (with_version (rv_text (m_next k)) s) :: Some old :: older]> (m_hist k) /\
     forall s', r = Ok s' -> s' = with_version (rv_text (m_next k)) s).
Proof.
  unfold mem_update. cbv zeta. destruct (hist k (Svc_Name s)) as [|[old|] older]; [intros [= <- <-]; left; by destruct (default _ _)| |
    intros [= <- <-]; left; by destruct (default _ _)].
  case_bool_decide as Hc; [|intros [= <- <-]; left; by destruct (default _ _)]. destruct Hc as [Hc1 Hc2].
  case_bool_decide as Hs; intros [= <- <-].
  - left. split; [done|]. split; [done|]. destruct (default _ _); [done|]. intros s' [= <-]. subst old. split; [done|by eexists].
  - right. exists old, older. split; [done|]. split; [done|]. split; [done|]. split; [done|]. split; [done|]. split; [done|].
    destruct (default _ _); [done|]. by intros s' [= <-].
Qed.

Lemma hist_insert k k' n l m : m_hist k' = <[n := l]> (m_hist k) -> hist k' m = if bool_decide (m = n) then l else hist k m.
Proof.
  intros E. unfold hist. rewrite E. case_bool_decide as Hm; [subst m; by rewrite lookup_insert_eq|by rewrite lookup_insert_ne].
Qed.

Lemma mem_update_grows s k r k' : mem_wf k -> mem_update s k = (r, k') -> mem_wf k' /\ forall m, hist k m `suffix_of` hist k' m.
Proof.
  intros Hw [(E & En & _)|(old & older & Hh & Hrv & _ & _ & En & E & _)]%mem_update_cases.
  - unfold mem_wf, hist. rewrite E, En. split; [exact Hw|]. intros m. reflexivity.
  - split; intros m; rewrite ?(hist_insert _ _ _ _ _ E); case_bool_decide as Hm.
    + subst m. rewrite En. cbn. split; [done|]. rewrite rv_text_length. split; [lia|].
      pose proof (Hw (Svc_Name s)) as Hs. rewrite Hh in Hs. exact Hs.
    + rewrite En. eapply wf_hist_mono; [|apply Hw]. lia.
    + subst m. rewrite Hh. by exists [Some (with_version (rv_text (m_next k)) s)].
    + reflexivity.
Qed.

Lemma mem_update_current s k s' k' : mem_wf k -> mem_update s k = (Ok s', k') ->
  exists old newer older, hist k (Svc_Name s) `suffix_of` Some old :: older /\
    Svc_ResourceVersion old = Svc_ResourceVersion s /\ Svc_UID old = Svc_UID s /\
    ((s' = old /\ stored (fun p => p) s = old /\ hist k' (Svc_Name s) = (newer ++ Some old :: older)%list) \/
     (s' = with_version (Svc_ResourceVersion s') (stored (fun p => p) s) /\ stored (fun p => p) s <> old /\
      hist k' (Svc_Name s) = (newer ++ Some s' :: Some old :: older)%list)).
Proof.
  assert (Hst : stored (fun p => p) s = s) by (by destruct s). rewrite !Hst.
  intros Hw [(E & En & Hr)|(old & older & Hh & Hrv & Hu & Hne & En & E & Hr)]%mem_update_cases.
  - destruct (Hr s' eq_refl) as [-> [older Ho]]. exists s, [], older. rewrite Ho. do 3 (split; [done|]). left.
    do 2 (split; [done|]). unfold hist. rewrite E. exact Ho.
  - exists old, [], older. rewrite Hh. do 3 (split; [done|]). right. pose proof (Hr s' eq_refl) as ->.
    do 2 (split; [done|]). rewrite (hist_insert _ _ _ _ _ E). by rewrite bool_decide_true.
Qed.

#[refine] Definition mem_api : ServiceAPI mem := {|
  services_Get := mem_get; services_Update := mem_update; versions := hist; kube_wf := mem_wf; default_ports := fun p => p |}.
Proof.
  - intros n k r k' Hw Hg. assert (k' = k) as ->. { unfold mem_get in Hg. repeat case_match; by injection Hg. } by split.
  - apply mem_update_grows.
  - intros n k s k' Hw Hg. unfold mem_get in Hg. destruct (hist k n) as [|[x|] older] eqn:Hh; try discriminate.
    injection Hg as -> ->. pose proof (Hw n) as Hn. rewrite Hh in Hn. split; [by destruct Hn|]. exists [], older. by rewrite Hh.
  - intros s k s' k' Hw _ _. by apply mem_update_current.
  - intros k n s Hw [i Hi]%list_elem_of_lookup. by destruct (wf_hist_lookup _ _ _ _ _ (Hw n) Hi).
  - intros k n i j s1 s2 Hw. apply (wf_hist_unique n (m_next k)). apply Hw.
Defined.
End memory.

(** ** Concrete ports: their number, written as bits *)

Fixpoint bits_of (p : positive) : list json :=
  match p with xH => [] | xO q => JBool false :: bits_of q | xI q => JBool true :: bits_of q end.

Fixpoint of_bits (l : list json) : option positive :=
  match l with
  | [] => Some xH
  | JBool b :: l' => p ← of_bits l'; Some (if b then xI p else xO p)
  | _ => None
  end.

Lemma of_bits_of p : of_bits (bits_of p) = Some p.
Proof. induction p as [q IH|q IH|]; cbn; rewrite ?IH; done. Qed.

Lemma bits_wf p : Forall wf_json (bits_of p) /\ Forall (fun j => json_depth j <= 0) (bits_of p).
Proof. induction p as [q [IH1 IH2]|q [IH1 IH2]|]; cbn; split; constructor; cbn; try done; lia. Qed.

#[refine] Definition sample_types : KubeTypes := {|
  service_port := positive; zero_port := 1%positive; sp_Name := fun _ => "http"; sp_Protocol := fun _ => "TCP";
  sp_Port := Zpos; sp_TargetsInt := fun p => Z.eqb (Zpos p); enc_ServicePort := fun p => JArr (bits_of p);
  dec_ServicePort := fun _ j => match j with JArr l => of_bits l | _ => None end |}.
Proof.
  - intros _ p. apply of_bits_of.
  - intros p. destruct (bits_wf p) as [H1 H2]. split; [by apply wf_json_arr|]. change (json_depth (JArr (bits_of p))) with
      (1 + foldr Z.max 0 (List.map json_depth (bits_of p))).
    assert (foldr Z.max 0 (List.map json_depth (bits_of p)) <= 0); [|lia]. apply foldr_max_le. split; [done|].
    apply Forall_map. done.
Defined.

Section sample.
#[local] Existing Instance sample_types.
#[local] Existing Instance mem_api.

Definition op_of (c : ascii) : string := String.concat "" (repeat (String c "") 64).

Definition shop_service : Service :=
  MkService "shop" "apps" "uid-1" "v" false {[appOwnershipLabel := "shop"; managedByLabel := "deployer"]} ∅
    (Some {["app.kubernetes.io/name" := "shop"]}) (Some [8080%positive]).

Definition shop_kube (lost : list bool) : mem := Mem {["shop" := [Some shop_service]]} 5 lost.
Definition shop_gate : ActivationGate := activationGateFor shop_service.
Definition next_target : ActivationTarget := MkTarget (Some {[candidateGenerationLabel := "next"]}) (Some [8080%positive]).

Lemma shop_kube_wf lost : kube_wf (shop_kube lost).
Proof.
  change (mem_wf (shop_kube lost)). intros n. unfold hist, shop_kube. cbn [m_hist m_next]. destruct (decide (n = "shop")) as [->|Hn].
  - rewrite lookup_singleton_eq. cbn. split; [done|]. split; [lia|done].
  - by rewrite lookup_singleton_ne.
Qed.

Definition fence_shop_gate (k : mem) : result ActivationGate * mem :=
  FenceActivationGate "apps" shop_gate (op_of "a"%char) k.

Lemma fence_gate_facts : exists k g k1, kube_wf k /\ fence_shop_gate k = (Ok g, k1).
Proof.
  exists (shop_kube []). assert (Hv : is_ok (fence_shop_gate (shop_kube [])).1 = true) by (vm_compute; reflexivity).
  destruct (fence_shop_gate (shop_kube [])) as [[g|] k1]; [|discriminate]. exists g, k1. split; [apply shop_kube_wf|reflexivity].
Qed.

Lemma fence_consumes_gate_witness : exists k g k1, fence_shop_gate k = (Ok g, k1) /\
  is_ok (ReplaceActivationTarget "apps" shop_gate next_target k1).1 = false.
Proof.
  destruct fence_gate_facts as (k & g & k1 & Hw & Hf). exists k, g, k1. split; [exact Hf|].
  destruct (fence_consumes_gate "apps" shop_gate (op_of "a"%char) k g k1 Hw Hf) as (_ & _ & Hvoid).
  apply Hvoid. apply later_refl. by destruct (grows_fence "apps" _ _ _ _ _ Hw Hf) as (_ & ? & _).
Defined.
End sample.
