(* ===== verification/Candidate.v ===== *)
(** * Candidate operations: data and pure functions (internal/server, internal/ingress)

    Identities derived from the app and the request, the saved intent with its
    canonical JSON, and the checks on gates. *)

From S2P Require Import Prelude GoStrings Regexp Sha256 GoJson Appconfig Db DbRepos DbCandidates Activation.
From Stdlib Require Import Ascii String.
Local Open Scope Z_scope.

(** What [ActivatePreparedCandidate] answers while the pods start (candidate_activation.go). *)
Definition ErrCandidateNotReady : error := ErrSentinel "candidate has not reached full readiness".

(** ** Derived identities (candidate.go, candidate_bootstrap.go, resources.go) *)

Definition candidateGeneration (app requestID : string) : string := s_take 32 (sha256_hex (app +:+ nul +:+ requestID)).

Definition CandidateSelector (app requestID : string) : result (gmap string string) :=
  _ ← check (blank app || negb (ValidRevision requestID)) (ErrSentinel "invalid candidate identity");
  Ok {[appOwnershipLabel := app; candidateGenerationLabel := candidateGeneration app requestID]}.

Definition CandidateBootstrapOperationID (app requestID : string) : string :=
  sha256_hex ("candidate-bootstrap-v1" +:+ nul +:+ app +:+ nul +:+ requestID).

Definition candidateRecoveryID (app requestID : string) : string :=
  sha256_hex ("candidate-recovery-v1" +:+ nul +:+ app +:+ nul +:+ requestID).

Definition candidateNameForGeneration (app generation : string) : string :=
  let suffix := "-candidate-" +:+ generation in
  let name := ToLower (TrimSpace app) in
  let maxPrefix := 63 - slen suffix in
  (if maxPrefix <? slen name then TrimSuffix (s_take (Z.to_nat maxPrefix) name) "-" else name) +:+ suffix.

Definition candidateDeploymentName (app requestID : string) : string :=
  candidateNameForGeneration app (candidateGeneration app requestID).

Definition registrySecretName (app revision : string) : string :=
  let suffix := s_take 24 (sha256_hex (app +:+ nul +:+ revision)) in
  s_take 253 (ToLower (TrimSpace app) +:+ "-pull-" +:+ suffix).

Definition CandidateRegistrySecretName (cfg : Config) : string :=
  if String.eqb (Cfg_ImagePullCredential cfg) "" then "" else registrySecretName (Cfg_Name cfg) (Cfg_ImagePullCredential cfg).

Definition ValidateCandidateReferences (cfg : Config) (revision pullSecret : string) : result unit :=
  _ ← check (negb (bool_decide (Cfg_Secrets cfg = [])) || negb (String.eqb revision (Cfg_EnvironmentRevision cfg)))
        (ErrSentinel "candidate environment reference does not match saved configuration");
  let expected := if String.eqb (Cfg_ImagePullCredential cfg) "" then ""
                  else registrySecretName (Cfg_Name cfg) (Cfg_ImagePullCredential cfg) in
  check (negb (String.eqb pullSecret expected)) (ErrSentinel "candidate registry reference does not match saved configuration").

Section intent.
Context `{KubeTypes}.

Definition IsInactiveCandidateTarget (cfg : Config) (requestID : string) (target : ActivationTarget) : bool :=
  let selector := {[appOwnershipLabel := Cfg_Name cfg;
                    candidateGenerationLabel := "inactive-" +:+ candidateGeneration (Cfg_Name cfg) requestID]} in
  let p := wrap_i32 (Service_Port (Cfg_Service cfg)) in
  bool_decide (selector_of target = selector) &&
  match ports_of target with
  | [port] => String.eqb (sp_Name port) "http" && (sp_Port port =? p) && sp_TargetsInt port p &&
              (String.eqb (sp_Protocol port) "" || String.eqb (sp_Protocol port) "TCP")
  | _ => false
  end.

(** ** The intent and its canonical JSON (candidate_operation.go) *)

Record candidateOperationIntent := MkIntent {
  Int_AppName : string; Int_RequestID : string; Int_RequestedState : string; Int_SecretRevision : string;
  Int_RegistrySecret : string; Int_InitialGate : ActivationGate; Int_PredecessorTarget : ActivationTarget }.

Definition zero_intent : candidateOperationIntent := MkIntent "" "" "" "" "" zero_gate zero_target.

Definition enc_ActivationGate (g : ActivationGate) : json :=
  JObj ([("app", enc_string (Gate_App g)); ("namespace", enc_string (Gate_Namespace g)); ("uid", enc_string (Gate_UID g));
         ("resource_version", enc_string (Gate_ResourceVersion g))]
    ++ enc_str_field "operation_id" (Gate_OperationID g))%list.

(** A nil map or slice is [null]. *)
Definition enc_nil {A} (enc : A -> json) (x : option A) : json := match x with Some a => enc a | None => JNull end.

Definition enc_ActivationTarget (t : ActivationTarget) : json :=
  JObj [("selector", enc_nil (enc_map enc_string) (Target_Selector t));
        ("ports", enc_nil (enc_slice enc_ServicePort) (Target_Ports t))].

Definition enc_intent (i : candidateOperationIntent) : json :=
  JObj [("app_name", enc_string (Int_AppName i)); ("request_id", enc_string (Int_RequestID i));
        ("requested_state", enc_string (Int_RequestedState i)); ("secret_revision", enc_string (Int_SecretRevision i));
        ("registry_secret", enc_string (Int_RegistrySecret i)); ("initial_gate", enc_ActivationGate (Int_InitialGate i));
        ("predecessor_target", enc_ActivationTarget (Int_PredecessorTarget i))].

(** Structs decoded with [DisallowUnknownFields]. *)
Definition strict {T} (names : list string) (members : T -> list (string * json) -> option T) : decoder T :=
  dec_struct (fun cur m => if has_unknown names m then None else members cur m).

Definition gate_fields : list string := ["app"; "namespace"; "uid"; "resource_version"; "operation_id"].
Definition dec_ActivationGate : decoder ActivationGate := strict gate_fields (fun cur m =>
  a ← dec_field gate_fields "app" dec_string (Gate_App cur) m;
  n ← dec_field gate_fields "namespace" dec_string (Gate_Namespace cur) m;
  u ← dec_field gate_fields "uid" dec_string (Gate_UID cur) m;
  v ← dec_field gate_fields "resource_version" dec_string (Gate_ResourceVersion cur) m;
  o ← dec_field gate_fields "operation_id" dec_string (Gate_OperationID cur) m;
  Some (MkGate a n u v o)).

(** [null] gives nil; anything else decodes over the value already there. *)
Definition dec_nil {A} (zero : A) (d : decoder A) : decoder (option A) := fun cur j =>
  match j with JNull => Some None | _ => Some <$> d (default zero cur) j end.

Definition target_fields : list string := ["selector"; "ports"].
Definition dec_ActivationTarget : decoder ActivationTarget := strict target_fields (fun cur m =>
  s ← dec_field target_fields "selector" (dec_nil ∅ (dec_map "" dec_string)) (Target_Selector cur) m;
  p ← dec_field target_fields "ports" (dec_nil [] (dec_slice zero_port dec_ServicePort)) (Target_Ports cur) m;
  Some (MkTarget s p)).

Definition intent_fields : list string :=
  ["app_name"; "request_id"; "requested_state"; "secret_revision"; "registry_secret"; "initial_gate"; "predecessor_target"].
Definition dec_intent : decoder candidateOperationIntent := strict intent_fields (fun cur m =>
  a ← dec_field intent_fields "app_name" dec_string (Int_AppName cur) m;
  q ← dec_field intent_fields "request_id" dec_string (Int_RequestID cur) m;
  s ← dec_field intent_fields "requested_state" dec_string (Int_RequestedState cur) m;
  v ← dec_field intent_fields "secret_revision" dec_string (Int_SecretRevision cur) m;
  r ← dec_field intent_fields "registry_secret" dec_string (Int_RegistrySecret cur) m;
  g ← dec_field intent_fields "initial_gate" dec_ActivationGate (Int_InitialGate cur) m;
  t ← dec_field intent_fields "predecessor_target" dec_ActivationTarget (Int_PredecessorTarget cur) m;
  Some (MkIntent a q s v r g t)).

(** [canonicalCandidateJSON] *)
Definition gate_JSON (g : ActivationGate) : string := json_print (enc_ActivationGate g).
Definition intent_JSON (i : candidateOperationIntent) : string := json_print (enc_intent i).

Definition decodeCandidateIntent (value : string) : result candidateOperationIntent :=
  match json_parse value ≫= dec_intent zero_intent with
  | None => Err (ErrSentinel "invalid candidate intent")
  | Some i =>
      _ ← check (negb (String.eqb (intent_JSON i) value) || String.eqb (Int_AppName i) "" || String.eqb (Int_RequestID i) "")
            (ErrSentinel "noncanonical candidate intent");
      Ok i
  end.

Definition decodeGate (value : string) : result ActivationGate :=
  match json_parse value ≫= dec_ActivationGate zero_gate with
  | None => Err (ErrSentinel "invalid activation gate")
  | Some g => Ok g
  end.

Definition validInitialCapture (gate : ActivationGate) (target : ActivationTarget) (app : string) : bool :=
  String.eqb (Gate_App gate) app && negb (String.eqb (Gate_Namespace gate) "") && negb (String.eqb (Gate_UID gate) "") &&
  negb (String.eqb (Gate_ResourceVersion gate) "") && negb (bool_decide (selector_of target = ∅)) &&
  negb (bool_decide (ports_of target = [])).

Definition validSavedGate (gate initial : ActivationGate) (app requestID : string) (requireOperation : bool) : bool :=
  if negb (String.eqb (Gate_App gate) app) || String.eqb (Gate_Namespace gate) "" || String.eqb (Gate_UID gate) "" ||
     String.eqb (Gate_ResourceVersion gate) "" || negb (String.eqb (Gate_UID gate) (Gate_UID initial)) ||
     negb (String.eqb (Gate_Namespace gate) (Gate_Namespace initial))
  then false
  else if requireOperation && negb (String.eqb (Gate_OperationID gate) requestID) then false
  else true.

Definition intentMatches (i : candidateOperationIntent) (app requestID requestedState secretRevision registrySecret : string) : bool :=
  String.eqb (Int_AppName i) app && String.eqb (Int_RequestID i) requestID && String.eqb (Int_RequestedState i) requestedState &&
  String.eqb (Int_SecretRevision i) secretRevision && String.eqb (Int_RegistrySecret i) registrySecret.

(** candidate_recovery.go: the gate of a recovering checkpoint. *)
Definition recovery_JSON (recoveryID : string) : string := json_print (JObj [("recovery_id", enc_string recoveryID)]).

Definition dec_recovery : decoder string := dec_struct (fun cur m => dec_field ["recovery_id"] "recovery_id" dec_string cur m).

(** [json.Unmarshal] into [candidateRecoveryIntent], and the checks of a
    recovering checkpoint. *)
Definition recovery_confirmed (gateJSON recoveryID : string) : bool :=
  match json_parse gateJSON ≫= dec_recovery "" with
  | None => false
  | Some id => String.eqb gateJSON (recovery_JSON recoveryID) && String.eqb id recoveryID
  end.

(** ** The stored reply (candidate_completion.go)

    The JSON names of the messages are those of the generated code. *)
Definition dec_int32 : decoder Z := fun cur j =>
  z ← dec_int cur j; if (- 2 ^ 31 <=? z) && (z <? 2 ^ 31) then Some z else None.

Definition app_fields : list string := ["id"; "name"; "image"; "replicas"; "desired_state"; "created_at"; "updated_at"].
Definition zero_PbApp : PbApp := MkPbApp "" "" "" 0 "" "" "".
Definition dec_PbApp : decoder PbApp := dec_struct (fun cur m =>
  a ← dec_field app_fields "id" dec_string (pb_app_id cur) m;
  b ← dec_field app_fields "name" dec_string (pb_app_name cur) m;
  c ← dec_field app_fields "image" dec_string (pb_app_image cur) m;
  d ← dec_field app_fields "replicas" dec_int32 (pb_app_replicas cur) m;
  e ← dec_field app_fields "desired_state" dec_string (pb_app_state cur) m;
  f ← dec_field app_fields "created_at" dec_string (pb_app_created cur) m;
  g ← dec_field app_fields "updated_at" dec_string (pb_app_updated cur) m;
  Some (MkPbApp a b c d e f g)).

Definition deployment_fields : list string := ["id"; "app_id"; "status"; "failure_reason"; "created_at"; "updated_at"].
Definition zero_PbDeployment : PbDeployment := MkPbDeployment "" "" "" "" "" "".
Definition dec_PbDeployment : decoder PbDeployment := dec_struct (fun cur m =>
  a ← dec_field deployment_fields "id" dec_string (pb_dep_id cur) m;
  b ← dec_field deployment_fields "app_id" dec_string (pb_dep_app_id cur) m;
  c ← dec_field deployment_fields "status" dec_string (pb_dep_status cur) m;
  d ← dec_field deployment_fields "failure_reason" dec_string (pb_dep_failure cur) m;
  e ← dec_field deployment_fields "created_at" dec_string (pb_dep_created cur) m;
  f ← dec_field deployment_fields "updated_at" dec_string (pb_dep_updated cur) m;
  Some (MkPbDeployment a b c d e f)).

Definition reply_fields : list string := ["app"; "deployment"; "withdrawal_confirmed"; "requested_state"].
Definition dec_DeployAppResponse : decoder DeployAppResponse := dec_struct (fun cur m =>
  a ← dec_field reply_fields "app" (dec_ptr zero_PbApp dec_PbApp) (rsp_App cur) m;
  d ← dec_field reply_fields "deployment" (dec_ptr zero_PbDeployment dec_PbDeployment) (rsp_Deployment cur) m;
  w ← dec_field reply_fields "withdrawal_confirmed" dec_bool (rsp_WithdrawalConfirmed cur) m;
  q ← dec_field reply_fields "requested_state" dec_string (rsp_RequestedState cur) m;
  Some (MkDeployAppResponse a d w q)).

(** [json.Unmarshal] into a fresh response *)
Definition unmarshalReply (encoded : string) : option DeployAppResponse :=
  json_parse encoded ≫= dec_DeployAppResponse (MkDeployAppResponse None None false "").

Definition decodeCandidateReply (encoded : string) : result DeployAppResponse :=
  match unmarshalReply encoded with
  | Some r =>
      _ ← check (negb (bool_decide (is_Some (rsp_App r))) || negb (bool_decide (is_Some (rsp_Deployment r))))
            (ErrSentinel "saved candidate response is invalid");
      Ok r
  | None => Err (ErrSentinel "saved candidate response is invalid")
  end.

(** ** Round trips of the saved documents *)

Lemma dec_ActivationGate_enc g : dec_ActivationGate zero_gate (enc_ActivationGate g) = Some g.
Proof.
  unfold dec_ActivationGate, enc_ActivationGate, strict, enc_str_field. cbn [dec_struct].
  assert (Hu : has_unknown gate_fields ([("app", enc_string (Gate_App g)); ("namespace", enc_string (Gate_Namespace g));
    ("uid", enc_string (Gate_UID g)); ("resource_version", enc_string (Gate_ResourceVersion g))] ++
    omitempty (String.eqb (Gate_OperationID g) "") "operation_id" (enc_string (Gate_OperationID g)))%list = false)
    by (by destruct (String.eqb (Gate_OperationID g) "")).
  rewrite Hu. next_field (Gate_App g). next_field (Gate_Namespace g). next_field (Gate_UID g). next_field (Gate_ResourceVersion g).
  next_field (Gate_OperationID g) using (by destruct (String.eqb_spec (Gate_OperationID g) "") as [->|]). by destruct g.
Qed.

Lemma dec_nil_map_enc (x : option (gmap string string)) :
  dec_nil ∅ (dec_map "" dec_string) None (enc_nil (enc_map enc_string) x) = Some x.
Proof.
  destruct x as [m|]; [|done]. cbn [enc_nil]. pose proof (dec_map_enc "" dec_string enc_string m) as Hm.
  unfold dec_nil, enc_map in *. cbn [default]. rewrite Hm; [done|]. by intros k v _.
Qed.

Lemma dec_nil_slice_enc (x : option (list service_port)) :
  dec_nil [] (dec_slice zero_port dec_ServicePort) None (enc_nil (enc_slice enc_ServicePort) x) = Some x.
Proof.
  destruct x as [l|]; [|done]. cbn [enc_nil]. pose proof (dec_slice_enc zero_port dec_ServicePort enc_ServicePort l) as Hl.
  unfold dec_nil, enc_slice in *. cbn [default]. rewrite Hl; [done|]. apply Forall_forall. intros p _. apply ServicePort_roundtrip.
Qed.

Lemma dec_ActivationTarget_enc t : dec_ActivationTarget zero_target (enc_ActivationTarget t) = Some t.
Proof.
  unfold dec_ActivationTarget, enc_ActivationTarget, strict. cbn [dec_struct].
  change (has_unknown target_fields _) with false. cbv iota.
  next_field (Target_Selector t) using (cbn [zero_target Target_Selector]; by rewrite dec_nil_map_enc).
  next_field (Target_Ports t) using (cbn [zero_target Target_Ports]; by rewrite dec_nil_slice_enc). by destruct t.
Qed.

Lemma dec_intent_enc i : dec_intent zero_intent (enc_intent i) = Some i.
Proof.
  unfold dec_intent, enc_intent, strict. cbn [dec_struct]. change (has_unknown intent_fields _) with false. cbv iota.
  next_field (Int_AppName i). next_field (Int_RequestID i). next_field (Int_RequestedState i). next_field (Int_SecretRevision i).
  next_field (Int_RegistrySecret i).
  next_field (Int_InitialGate i) using (cbn [zero_intent Int_InitialGate]; by rewrite dec_ActivationGate_enc).
  next_field (Int_PredecessorTarget i) using (cbn [zero_intent Int_PredecessorTarget]; by rewrite dec_ActivationTarget_enc).
  by destruct i.
Qed.

(** The texts of a saved document are valid UTF-8, as every Go string that came
    from JSON or from the Kubernetes API is. *)
Definition gate_utf8 (g : ActivationGate) : Prop :=
  ValidString (Gate_App g) = true /\ ValidString (Gate_Namespace g) = true /\ ValidString (Gate_UID g) = true /\
  ValidString (Gate_ResourceVersion g) = true /\ ValidString (Gate_OperationID g) = true.

Definition target_utf8 (t : ActivationTarget) : Prop :=
  map_Forall (fun k v => ValidString k = true /\ ValidString v = true) (selector_of t).

Definition intent_utf8 (i : candidateOperationIntent) : Prop :=
  ValidString (Int_AppName i) = true /\ ValidString (Int_RequestID i) = true /\ ValidString (Int_RequestedState i) = true /\
  ValidString (Int_SecretRevision i) = true /\ ValidString (Int_RegistrySecret i) = true /\
  gate_utf8 (Int_InitialGate i) /\ target_utf8 (Int_PredecessorTarget i).

Lemma enc_ok_gate g : gate_utf8 g -> enc_ok 1 (enc_ActivationGate g).
Proof. intros (? & ? & ? & ? & ?). unfold enc_ActivationGate, enc_str_field. enc_ok_solve. Qed.

Lemma enc_ok_target t : target_utf8 t -> enc_ok 5 (enc_ActivationTarget t).
Proof.
  intros Ht. unfold enc_ActivationTarget. enc_ok_solve.
  - unfold target_utf8, selector_of in Ht. destruct (Target_Selector t) as [m|]; [|by apply enc_ok_atom; [lia| |]].
    cbn [enc_nil]. apply enc_ok_map; [lia|]. intros k v Hk. destruct (Ht k v Hk). split; [done|]. by apply enc_ok_string; [lia|].
  - destruct (Target_Ports t) as [l|]; [|by apply enc_ok_atom; [lia| |]]. cbn [enc_nil]. apply enc_ok_slice; [lia|].
    apply Forall_forall. intros p _. eapply enc_ok_mono; [apply ServicePort_json|lia].
Qed.

Lemma enc_ok_intent i : intent_utf8 i -> enc_ok 6 (enc_intent i).
Proof.
  intros (? & ? & ? & ? & ? & Hg & Ht). unfold enc_intent. enc_ok_solve.
  - eapply enc_ok_mono; [by apply enc_ok_gate|lia].
  - eapply enc_ok_mono; [by apply enc_ok_target|lia].
Qed.

Lemma decodeGate_JSON g : gate_utf8 g -> decodeGate (gate_JSON g) = Ok g.
Proof.
  intros Hg. unfold decodeGate, gate_JSON. rewrite (json_parse_enc 1) by (first [by apply enc_ok_gate|unfold maxNestingDepth; lia]).
  cbn [mbind option_bind]. by rewrite dec_ActivationGate_enc.
Qed.

Lemma decodeCandidateIntent_JSON i :
  intent_utf8 i -> Int_AppName i <> "" -> Int_RequestID i <> "" -> decodeCandidateIntent (intent_JSON i) = Ok i.
Proof.
  intros Hi Ha Hq. unfold decodeCandidateIntent. unfold intent_JSON at 1.
  rewrite (json_parse_enc 6) by (first [by apply enc_ok_intent|unfold maxNestingDepth; lia]).
  cbn [mbind option_bind]. rewrite dec_intent_enc, String.eqb_refl, (proj2 (String.eqb_neq _ _) Ha), (proj2 (String.eqb_neq _ _) Hq).
  done.
Qed.

(** A decoded intent is the only reading of its text. *)
Lemma decodeCandidateIntent_text value i : decodeCandidateIntent value = Ok i -> value = intent_JSON i.
Proof.
  unfold decodeCandidateIntent. destruct (json_parse value ≫= dec_intent zero_intent) as [j|]; [|done].
  intros [Hc [= <-]]%check_bind. bools. symmetry. by apply String.eqb_eq.
Qed.
End intent.
