(* ===== verification/CandidateOps.v ===== *)
(** * Candidate operations: advance, recover, complete (internal/server)

    The operations use the repositories and a runtime.  The runtime is the Go
    interface the server declares; every call is recorded, with its reply and
    the database at that moment, in a ghost log.  The app mutation lock is held
    throughout, so nothing else writes the app's journal between two calls. *)

From S2P Require Import Prelude GoStrings Regexp Sha256 GoJson GoTime Appconfig Db DbRepos DbCandidates Security Activation Candidate.
From Stdlib Require Import Ascii String.
Local Open Scope Z_scope.

Section runtime.
Context `{KubeTypes}.

(** The interfaces [CandidateOperationRuntime], [CandidateRecoveryRuntime],
    [CandidateRetirementRuntime], [CandidateCompletionRuntime],
    [candidateInitialReuseRuntime] and [UnpreparedCandidateRecoveryRuntime]. *)
Class CandidateRuntime (K : Type) := {
  rt_CaptureActivationGate : string -> K -> result (ActivationGate * ActivationTarget) * K;
  rt_FenceActivationGate : ActivationGate -> string -> K -> result ActivationGate * K;
  rt_ReplaceActivationTarget : ActivationGate -> ActivationTarget -> K -> result ActivationGate * K;
  rt_PrepareCandidateDeployment : Config -> string -> string -> string -> K -> result unit * K;
  rt_ActivatePreparedCandidate : ActivationGate -> Config -> string -> string -> string -> K -> result ActivationGate * K;
  rt_RetireCandidateDeployment : Config -> string -> string -> string -> K -> result unit * K;
  rt_CandidateRetired : Config -> string -> string -> string -> K -> result bool * K;
  rt_RestoredCandidateTargetReady : ActivationGate -> ActivationTarget -> Config -> K -> result bool * K;
  rt_ReconcileCandidateRoute : ActivationGate -> ActivationTarget -> Config -> K -> result unit * K;
  rt_EnsureCandidateRecoveryNamespace : K -> result unit * K;
  rt_CreateInactiveCandidateService : Config -> string -> K -> result unit * K;
  rt_InitialCandidateRequest : ActivationGate -> K -> result string * K;
  rt_ResetInactiveCandidateService : ActivationGate -> Config -> string -> string -> K -> result (ActivationGate * ActivationTarget) * K
}.

Inductive rt_event :=
| ECapture (app : string) (r : result (ActivationGate * ActivationTarget))
| EFence (g : ActivationGate) (op : string) (r : result ActivationGate)
| EReplace (g : ActivationGate) (t : ActivationTarget) (r : result ActivationGate)
| EPrepare (cfg : Config) (secret request registry : string) (r : result unit)
| EActivate (g : ActivationGate) (cfg : Config) (secret request registry : string) (r : result ActivationGate)
| ERetire (cfg : Config) (secret request registry : string) (r : result unit)
| ERetired (cfg : Config) (secret request registry : string) (r : result bool)
| EReady (g : ActivationGate) (t : ActivationTarget) (cfg : Config) (r : result bool)
| ERoute (g : ActivationGate) (t : ActivationTarget) (cfg : Config) (r : result unit)
| ENamespace (r : result unit)
| EInactive (cfg : Config) (request : string) (r : result unit)
| EInitialRequest (g : ActivationGate) (r : result string)
| EReset (g : ActivationGate) (cfg : Config) (old new : string) (r : result (ActivationGate * ActivationTarget))
(** Calls of the request handlers. *)
| EDependencies (cfg : Config) (values : gmap string string) (secret request : string) (credential : option Credential) (r : result string)
| EDeletionCheck (app : string) (r : result unit)
| ERetireLegacy (g : ActivationGate) (r : result bool)
| EPreflight (cfg : Config) (r : result unit)
| EEnvironment (app revision : string) (r : result (gmap string string))
| ERegistry (app revision image : string) (r : result Credential)
| EBeginDeletion (cfg : Config) (appID : string) (deleted : bool) (r : result ActivationGate)
| ECleanup (g : ActivationGate) (appID : string) (r : result bool)
| EFinish (g : ActivationGate) (appID : string) (r : result unit)
| EForgetCredentials (app : string) (r : result unit)
| EForgetBundles (app : string) (r : result unit)
(** Calls of the legacy path. *)
| EReconcile (cfg : Config) (values : gmap string string) (revision : string) (credential : option Credential) (r : result unit)
| EDelete (app : string) (r : result unit)
| EStatus (app : string) (r : result string)
| EStatusDetails (app : string) (r : result (Z * Z))
| ERuntimeStatus (app : string) (r : result (string * Z * Z * list string))
| EDatabaseStatus (app : string) (present : bool)
| EResolveSecrets (appID : string) (names : list string) (r : result (gmap string string * string))
| EFindSecret (appID name : string) (present : bool)
| ESetSecret (appID name : string) (r : result unit)
| EListSecrets (appID : string) (r : result (list string))
| EDeleteSecret (appID name : string) (r : result unit)
| ERecord (type severity message appID deploymentID : string).

Record rt (K : Type) := Rt { rt_k : K; rt_log : list (rt_event * Db) }.
Arguments Rt {K}.
Arguments rt_k {K}.
Arguments rt_log {K}.

Section operations.
Context `{AppEnv} {K : Type} `{!CandidateRuntime K}.
Notation R := (M (rt K)).

Definition invoke {A} (ev : result A -> rt_event) (f : K -> result A * K) : R A := fun w =>
  let '(r, k) := f (rt_k (w_k w)) in
  (r, World (w_db w) (w_faults w) (Rt k (rt_log (w_k w) ++ [(ev r, w_db w)])%list)).

Definition Capture app : R _ := invoke (ECapture app) (rt_CaptureActivationGate app).
Definition Fence g op : R _ := invoke (EFence g op) (rt_FenceActivationGate g op).
Definition Replace g t : R _ := invoke (EReplace g t) (rt_ReplaceActivationTarget g t).
Definition Prepare c s q p : R _ := invoke (EPrepare c s q p) (rt_PrepareCandidateDeployment c s q p).
Definition Activate g c s q p : R _ := invoke (EActivate g c s q p) (rt_ActivatePreparedCandidate g c s q p).
Definition Retire c s q p : R _ := invoke (ERetire c s q p) (rt_RetireCandidateDeployment c s q p).
Definition Retired c s q p : R _ := invoke (ERetired c s q p) (rt_CandidateRetired c s q p).
Definition TargetReady g t c : R _ := invoke (EReady g t c) (rt_RestoredCandidateTargetReady g t c).
Definition ReconcileRoute g t c : R _ := invoke (ERoute g t c) (rt_ReconcileCandidateRoute g t c).
Definition EnsureNamespace : R _ := invoke ENamespace rt_EnsureCandidateRecoveryNamespace.
Definition CreateInactive c q : R _ := invoke (EInactive c q) (rt_CreateInactiveCandidateService c q).
Definition InitialRequest g : R _ := invoke (EInitialRequest g) (rt_InitialCandidateRequest g).
Definition ResetInactive g c old new : R _ := invoke (EReset g c old new) (rt_ResetInactiveCandidateService g c old new).

Definition failed {A} (msg : string) : R A := throw (ErrSentinel msg).
Definition refuse (bad : bool) (msg : string) : R unit := guard bad (ErrSentinel msg).

(** [time.Now] inside the repositories. *)
Variable now : Z.

Definition recordCandidateGate (app requestID expected next gateJSON : string) : R unit :=
  RuntimeCheckpointRepository_RecordActivationGate app requestID expected next gateJSON now.

(** ** candidate_operation.go *)

(** Prepare the candidate and switch the traffic with the fenced gate; record the
    gate that results.  The common tail of both branches of the source. *)
Definition activateFenced (app requestID secretRevision registrySecret : string) (cfg : Config)
    (fenced initial : ActivationGate) : R ActivationGate :=
  _ ← Prepare cfg secretRevision requestID registrySecret;
  activated ← Activate fenced cfg secretRevision requestID registrySecret;
  _ ← refuse (negb (validSavedGate activated initial app requestID true)) "activated candidate gate is invalid";
  _ ← map_err (fun _ => ErrSentinel "activated gate cannot be recorded")
        (recordCandidateGate app requestID "fenced" "activated" (gate_JSON activated));
  mret activated.

Definition startCandidateOperation (app requestID requestedState : string) (cfg : Config) (secretRevision registrySecret : string)
    : R ActivationGate :=
  '(gate, predecessor) ← Capture app;
  _ ← refuse (negb (validInitialCapture gate predecessor app)) "captured activation gate is invalid";
  let intent := MkIntent app requestID requestedState secretRevision registrySecret gate predecessor in
  _ ← map_err (fun _ => ErrSentinel "candidate activation intent cannot be recorded")
        (RuntimeCheckpointRepository_SaveActivationIntent app requestID (intent_JSON intent) now);
  fenced ← Fence gate requestID;
  _ ← refuse (negb (validSavedGate fenced gate app requestID true)) "fenced activation gate is invalid";
  _ ← map_err (fun _ => ErrSentinel "fenced activation gate cannot be recorded")
        (recordCandidateGate app requestID "prepared" "fenced" (gate_JSON fenced));
  activateFenced app requestID secretRevision registrySecret cfg fenced gate.

Definition AdvanceCandidateOperation (app requestID : string) (cfg : Config) (secretRevision registrySecret : string)
    : R ActivationGate :=
  _ ← refuse (String.eqb app "" || negb (String.eqb (Cfg_Name cfg) app) || negb (ValidRevision requestID))
        "candidate operation identity is invalid";
  _ ← map_err (ErrWrap "candidate configuration is invalid: %w" []) (lift (Validate cfg));
  _ ← refuse (negb (hosted_stateless cfg)) "candidate requires hosted stateless configuration";
  _ ← lift (ValidateCandidateReferences cfg secretRevision registrySecret);
  requestedState ← map_err (fun _ => ErrSentinel "candidate configuration cannot be canonicalized") (lift (Config_JSON cfg));
  request ← DeploymentRequestRepository_Find app requestID;
  _ ← refuse (negb (String.eqb (Req_AppName request) app) || negb (String.eqb (Req_RequestID request) requestID) ||
              negb (String.eqb (Req_State request) "pending") || negb (String.eqb (Req_RequestedState request) requestedState))
        "candidate operation request identity is not pending";
  found ← attempt (RuntimeCheckpointRepository_Find app requestID);
  match found with
  | Err e =>
      if errors_Is e ErrNotFound then startCandidateOperation app requestID requestedState cfg secretRevision registrySecret
      else failed "candidate activation checkpoint is unavailable"
  | Ok checkpoint =>
      _ ← refuse (negb (String.eqb (Chk_AppName checkpoint) app) || negb (String.eqb (Chk_RequestID checkpoint) requestID))
            "candidate activation checkpoint identity is invalid";
      match decodeCandidateIntent (Chk_IntentJSON checkpoint) with
      | Err _ => failed "candidate activation intent is ambiguous"
      | Ok intent =>
          _ ← refuse (negb (intentMatches intent app requestID requestedState secretRevision registrySecret) ||
                      negb (validInitialCapture (Int_InitialGate intent) (Int_PredecessorTarget intent) app))
                "candidate activation intent is ambiguous";
          let stage := Chk_Stage checkpoint in
          if String.eqb stage "activated" then
            match decodeGate (Chk_GateJSON checkpoint) with
            | Ok gate => if validSavedGate gate (Int_InitialGate intent) app requestID true then mret gate
                         else failed "activated candidate gate is invalid"
            | Err _ => failed "activated candidate gate is invalid"
            end
          else if String.eqb stage "prepared" then failed "candidate activation checkpoint requires manual recovery"
          else if String.eqb stage "fenced" then
            match decodeGate (Chk_GateJSON checkpoint) with
            | Ok gate =>
                if validSavedGate gate (Int_InitialGate intent) app requestID true then
                  activateFenced app requestID secretRevision registrySecret cfg gate (Int_InitialGate intent)
                else failed "fenced candidate gate is invalid"
            | Err _ => failed "fenced candidate gate is invalid"
            end
          else failed "candidate activation checkpoint stage is ambiguous"
      end
  end.

(** ** candidate_recovery.go *)

Definition ambiguous {A} : R A := failed "candidate recovery identity is ambiguous".
Definition unambiguous (bad : bool) : R unit := refuse bad "candidate recovery identity is ambiguous".

(** After the recovery identity is durable: fence under it, restore the saved
    target, record the gate. *)
Definition restoreTarget (app requestID recoveryID : string) (intent : candidateOperationIntent) : R ActivationGate :=
  '(current, target) ← Capture app;
  _ ← unambiguous (negb (validSavedGate current (Int_InitialGate intent) app recoveryID false));
  _ ← unambiguous (negb (String.eqb (Gate_OperationID current) (Gate_OperationID (Int_InitialGate intent))) &&
                   negb (String.eqb (Gate_OperationID current) requestID) && negb (String.eqb (Gate_OperationID current) recoveryID));
  '(current, target) ←
    (if negb (String.eqb (Gate_OperationID current) recoveryID) then
       fenced ← Fence current recoveryID;
       _ ← unambiguous (negb (validSavedGate fenced (Int_InitialGate intent) app recoveryID true));
       mret (fenced, zero_target)
     else mret (current, target));
  current ←
    (if negb (target_eq target (Int_PredecessorTarget intent)) then
       replaced ← Replace current (Int_PredecessorTarget intent);
       _ ← unambiguous (negb (validSavedGate replaced (Int_InitialGate intent) app recoveryID true));
       mret replaced
     else mret current);
  _ ← recordCandidateGate app requestID "recovering" "withdrawn" (gate_JSON current);
  mret current.

(** [cancelled]: the context was already done. *)
Definition RestoreCandidateTraffic (cancelled : bool) (app requestID : string) : R ActivationGate :=
  _ ← guard cancelled ErrContext;
  _ ← unambiguous (String.eqb app "" || negb (ValidRevision requestID));
  request ← DeploymentRequestRepository_Find app requestID;
  _ ← unambiguous (negb (String.eqb (Req_AppName request) app) || negb (String.eqb (Req_RequestID request) requestID) ||
                   negb (String.eqb (Req_State request) "pending"));
  checkpoint ← RuntimeCheckpointRepository_Find app requestID;
  _ ← unambiguous (negb (String.eqb (Chk_AppName checkpoint) app) || negb (String.eqb (Chk_RequestID checkpoint) requestID));
  match decodeCandidateIntent (Chk_IntentJSON checkpoint) with
  | Err _ => ambiguous
  | Ok intent =>
      _ ← unambiguous (negb (String.eqb (Int_AppName intent) app) || negb (String.eqb (Int_RequestID intent) requestID) ||
                       negb (String.eqb (Int_RequestedState intent) (Req_RequestedState request)) ||
                       negb (validInitialCapture (Int_InitialGate intent) (Int_PredecessorTarget intent) app));
      let recoveryID := candidateRecoveryID app requestID in
      _ ← unambiguous (String.eqb recoveryID requestID || String.eqb recoveryID (Gate_OperationID (Int_InitialGate intent)));
      let stage := Chk_Stage checkpoint in
      if String.eqb stage "prepared" || String.eqb stage "fenced" || String.eqb stage "activated" then
        _ ← recordCandidateGate app requestID stage "recovering" (recovery_JSON recoveryID);
        restoreTarget app requestID recoveryID intent
      else if String.eqb stage "recovering" then
        _ ← unambiguous (negb (recovery_confirmed (Chk_GateJSON checkpoint) recoveryID));
        restoreTarget app requestID recoveryID intent
      else if String.eqb stage "withdrawn" then
        match decodeGate (Chk_GateJSON checkpoint) with
        | Ok gate => if validSavedGate gate (Int_InitialGate intent) app recoveryID true then mret gate else ambiguous
        | Err _ => ambiguous
        end
      else ambiguous
  end.

(** ** candidate_recovery_complete.go *)

Definition config_ok (cfg : Config) (app : string) : bool :=
  is_ok (Validate cfg) && String.eqb (Cfg_Name cfg) app.

(** The saved predecessor, or the zero configuration when there is none. *)
Definition predecessorConfig (app previousState : string) : R Config :=
  if String.eqb previousState "" then mret zero_config
  else
    match FromJSON previousState with
    | Ok previous => if config_ok previous app then mret previous else failed "candidate predecessor is invalid"
    | Err _ => failed "candidate predecessor is invalid"
    end.

(** Without a predecessor the saved target must be the inactive bootstrap. *)
Definition requireInactiveBootstrap (app requestID : string) (cfg : Config) : R unit :=
  checkpoint ← RuntimeCheckpointRepository_Find app requestID;
  match decodeCandidateIntent (Chk_IntentJSON checkpoint) with
  | Ok intent => refuse (negb (IsInactiveCandidateTarget cfg requestID (Int_PredecessorTarget intent)))
                   "initial candidate target was not inactive"
  | Err _ => failed "initial candidate target was not inactive"
  end.

Definition RecoverCandidateOperation (cancelled : bool) (app requestID : string) : R bool :=
  request ← DeploymentRequestRepository_Find app requestID;
  match FromJSON (Req_RequestedState request) with
  | Err _ => failed "candidate recovery request is invalid"
  | Ok cfg =>
      _ ← refuse (negb (is_ok (Validate cfg)) || negb (hosted_stateless cfg) || negb (String.eqb (Req_AppName request) app) ||
                  negb (String.eqb (Req_RequestID request) requestID) || negb (String.eqb (Req_State request) "pending") ||
                  negb (String.eqb (Cfg_Name cfg) app)) "candidate recovery request is invalid";
      _ ← refuse (negb (Bool.eqb (String.eqb (Req_PreviousAppID request) "") (String.eqb (Req_PreviousState request) "")))
            "candidate predecessor is incomplete";
      previous ← predecessorConfig app (Req_PreviousState request);
      _ ← (if String.eqb (Req_PreviousAppID request) "" then requireInactiveBootstrap app requestID cfg else mret tt);
      gate ← RestoreCandidateTraffic cancelled app requestID;
      let pullSecret := CandidateRegistrySecretName cfg in
      _ ← Retire cfg (Cfg_EnvironmentRevision cfg) requestID pullSecret;
      retired ← Retired cfg (Cfg_EnvironmentRevision cfg) requestID pullSecret;
      if negb retired then mret false
      else
        checkpoint ← RuntimeCheckpointRepository_Find app requestID;
        intent ← lift (decodeCandidateIntent (Chk_IntentJSON checkpoint));
        '(current, target) ← Capture app;
        _ ← refuse (negb (bool_decide (current = gate)) || negb (target_eq target (Int_PredecessorTarget intent)))
              "restored traffic changed during retirement";
        if String.eqb (Req_PreviousAppID request) "" then mret true
        else TargetReady gate (Int_PredecessorTarget intent) previous
  end.

(** ** candidate_completion.go *)

Definition without_domain (cfg : Config) : Config :=
  {| Cfg_ImagePullCredential := Cfg_ImagePullCredential cfg; Cfg_EnvironmentRevision := Cfg_EnvironmentRevision cfg;
     Cfg_Name := Cfg_Name cfg; Cfg_Image := Cfg_Image cfg; Cfg_Service := Cfg_Service cfg; Cfg_Metrics := Cfg_Metrics cfg;
     Cfg_Routing := {| Routing_Domain := ""; Routing_RequireTLS := Routing_RequireTLS (Cfg_Routing cfg);
                       Routing_EnableProxyRetries := Routing_EnableProxyRetries (Cfg_Routing cfg) |};
     Cfg_Deploy := Cfg_Deploy cfg; Cfg_Placement := Cfg_Placement cfg; Cfg_Storage := Cfg_Storage cfg;
     Cfg_Secrets := Cfg_Secrets cfg; Cfg_State := Cfg_State cfg; Cfg_Resilience := Cfg_Resilience cfg;
     Cfg_Database := Cfg_Database cfg; Cfg_Hosting := Cfg_Hosting cfg |}.

(** The route to reconcile, once the target was checked; [None]: not ready yet. *)
Definition completionRoute (app requestID outcome : string) (request : DeployRequest) (cfg : Config)
    (intent : candidateOperationIntent) (gate : ActivationGate) (target : ActivationTarget) : R (option Config) :=
  if String.eqb outcome "applied" then
    match CandidateSelector app requestID with
    | Ok expected =>
        _ ← refuse (negb (bool_decide (selector_of target = expected))) "candidate generation is not selected";
        ready ← TargetReady gate target cfg;
        mret (if (ready : bool) then Some cfg else None)
    | Err _ => failed "candidate generation is not selected"
    end
  else
    _ ← refuse (negb (target_eq target (Int_PredecessorTarget intent))) "candidate predecessor target changed";
    if negb (String.eqb (Req_PreviousAppID request) "") then
      match FromJSON (Req_PreviousState request) with
      | Ok routeConfig => if config_ok routeConfig app then mret (Some routeConfig)
                          else failed "candidate predecessor configuration is invalid"
      | Err _ => failed "candidate predecessor configuration is invalid"
      end
    else mret (Some (without_domain cfg)).

(** Observe the gate, check the target, reconcile the route, observe again, commit. *)
Definition commitOutcome (app requestID outcome : string) (tlsEnabled : bool) (at_ : Z) (request : DeployRequest) (cfg : Config)
    (intent : candidateOperationIntent) (checkpoint : RuntimeCheckpoint) : R (option DeployAppResponse) :=
  let wantedStage := if String.eqb outcome "withdrawn" then "withdrawn" else "activated" in
  let operationID := if String.eqb outcome "withdrawn" then candidateRecoveryID app requestID else requestID in
  match decodeGate (Chk_GateJSON checkpoint) with
  | Err _ => failed "candidate completion checkpoint is invalid"
  | Ok gate =>
      _ ← refuse (negb (String.eqb (Chk_AppName checkpoint) app) || negb (String.eqb (Chk_RequestID checkpoint) requestID) ||
                  negb (String.eqb (Chk_Stage checkpoint) wantedStage) ||
                  negb (validSavedGate gate (Int_InitialGate intent) app operationID true)) "candidate completion checkpoint is invalid";
      '(current, target) ← Capture app;
      _ ← refuse (negb (bool_decide (current = gate))) "candidate traffic changed before completion";
      route ← completionRoute app requestID outcome request cfg intent gate target;
      match route with
      | None => mret None
      | Some routeConfig =>
          _ ← ReconcileRoute gate target routeConfig;
          '(observed, afterTarget) ← Capture app;
          _ ← refuse (negb (bool_decide (observed = gate)) || negb (target_eq target afterTarget))
                "candidate traffic changed during route reconciliation";
          result ← CandidateFinalizationRepository_Finalize app requestID outcome (Chk_GateJSON checkpoint) tlsEnabled at_;
          reply ← lift (decodeCandidateReply result);
          mret (Some reply)
      end
  end.

(** [None] without an error: readiness or recovery is still pending. *)
Definition CompleteCandidateOperation (cancelled : bool) (app requestID outcome : string) (tlsEnabled : bool) (at_ : Z)
    : R (option DeployAppResponse) :=
  _ ← refuse (String.eqb app "" || negb (ValidRevision requestID) ||
              negb (String.eqb outcome "applied" || String.eqb outcome "withdrawn") || IsZero at_)
        "candidate completion is not configured or invalid";
  request ← DeploymentRequestRepository_Find app requestID;
  _ ← refuse (negb (String.eqb (Req_AppName request) app) || negb (String.eqb (Req_RequestID request) requestID))
        "candidate completion request identity changed";
  if negb (String.eqb (Req_State request) "pending") then
    _ ← refuse (negb (String.eqb (Req_State request) outcome)) "candidate outcome is already terminal";
    reply ← lift (decodeCandidateReply (Req_ResponseJSON request));
    mret (Some reply)
  else
    match FromJSON (Req_RequestedState request) with
    | Err _ => failed "candidate completion configuration is invalid"
    | Ok cfg =>
        _ ← refuse (negb (config_ok cfg app) || negb (hosted_stateless cfg)) "candidate completion configuration is invalid";
        _ ← refuse (negb (Bool.eqb (String.eqb (Req_PreviousAppID request) "") (String.eqb (Req_PreviousState request) "")))
              "candidate predecessor is incomplete";
        checkpoint ← RuntimeCheckpointRepository_Find app requestID;
        match decodeCandidateIntent (Chk_IntentJSON checkpoint) with
        | Err _ => failed "candidate completion intent changed"
        | Ok intent =>
            _ ← refuse (negb (intentMatches intent app requestID (Req_RequestedState request) (Cfg_EnvironmentRevision cfg)
                          (CandidateRegistrySecretName cfg))) "candidate completion intent changed";
            if String.eqb outcome "withdrawn" then
              recovered ← RecoverCandidateOperation cancelled app requestID;
              if negb recovered then mret None
              else
                checkpoint' ← RuntimeCheckpointRepository_Find app requestID;
                _ ← refuse (negb (String.eqb (Chk_IntentJSON checkpoint') (Chk_IntentJSON checkpoint)))
                      "candidate intent changed during recovery";
                commitOutcome app requestID outcome tlsEnabled at_ request cfg intent checkpoint'
            else commitOutcome app requestID outcome tlsEnabled at_ request cfg intent checkpoint
        end
    end.

(** ** candidate_retry.go *)

Definition reuseWithdrawnInitialCandidate (record : DeployRequest) (cfg : Config) (gate : ActivationGate) (target : ActivationTarget)
    : R (ActivationGate * ActivationTarget) :=
  let app := Req_AppName record in
  found ← attempt (InitialRequest gate);
  match found with
  | Err _ => failed "inactive candidate bootstrap identity is ambiguous"
  | Ok oldID =>
  _ ← refuse (String.eqb oldID (Req_RequestID record) || negb (ValidRevision oldID)) "inactive candidate bootstrap identity is ambiguous";
  oldRequest ← map_err (fun _ => ErrSentinel "inactive candidate bootstrap was not withdrawn safely") (DeploymentRequestRepository_Find app oldID);
  _ ← refuse (negb (String.eqb (Req_AppName oldRequest) app) || negb (String.eqb (Req_RequestID oldRequest) oldID) ||
              negb (String.eqb (Req_State oldRequest) "withdrawn") || negb (String.eqb (Req_PreviousAppID oldRequest) "") ||
              negb (String.eqb (Req_PreviousState oldRequest) "")) "inactive candidate bootstrap was not withdrawn safely";
  oldBinding ← map_err (fun _ => ErrSentinel "withdrawn candidate binding is unavailable") (CandidateBindingRepository_Find app oldID);
  _ ← refuse (negb (String.eqb (Bind_AppName oldBinding) app) || negb (String.eqb (Bind_RequestID oldBinding) oldID) ||
              String.eqb (Bind_AppID oldBinding) "" || String.eqb (Bind_DeploymentID oldBinding) "") "withdrawn candidate binding is unavailable";
  newBinding ← map_err (fun _ => ErrSentinel "retry candidate binding does not reuse the withdrawn app")
                 (CandidateBindingRepository_Find app (Req_RequestID record));
  _ ← refuse (negb (String.eqb (Bind_AppName newBinding) app) || negb (String.eqb (Bind_RequestID newBinding) (Req_RequestID record)) ||
              negb (String.eqb (Bind_AppID newBinding) (Bind_AppID oldBinding))) "retry candidate binding does not reuse the withdrawn app";
  oldApp ← map_err (fun _ => ErrSentinel "withdrawn candidate app identity is not retired") (AppRepository_FindByID (Bind_AppID oldBinding));
  _ ← refuse (negb (String.eqb (App_ID oldApp) (Bind_AppID oldBinding)) || negb (String.eqb (App_Name oldApp) app) ||
              bool_decide (App_DeletedAt oldApp = None)) "withdrawn candidate app identity is not retired";
  match FromJSON (Req_RequestedState oldRequest) with
  | Err _ => failed "withdrawn candidate configuration is invalid"
  | Ok oldCfg =>
  _ ← refuse (negb (config_ok oldCfg app) || negb (hosted_stateless oldCfg)) "withdrawn candidate configuration is invalid";
  checkpoint ← map_err (fun _ => ErrSentinel "withdrawn candidate recovery proof is unavailable") (RuntimeCheckpointRepository_Find app oldID);
  _ ← refuse (negb (String.eqb (Chk_Stage checkpoint) "withdrawn") || negb (String.eqb (Chk_AppName checkpoint) app) ||
              negb (String.eqb (Chk_RequestID checkpoint) oldID)) "withdrawn candidate recovery proof is unavailable";
  match decodeCandidateIntent (Chk_IntentJSON checkpoint) with
  | Err _ => failed "withdrawn candidate recovery intent is invalid"
  | Ok intent =>
  _ ← refuse (negb (intentMatches intent app oldID (Req_RequestedState oldRequest) (Cfg_EnvironmentRevision oldCfg)
                      (CandidateRegistrySecretName oldCfg)) ||
              negb (validInitialCapture (Int_InitialGate intent) (Int_PredecessorTarget intent) app) ||
              negb (IsInactiveCandidateTarget oldCfg oldID (Int_PredecessorTarget intent))) "withdrawn candidate recovery intent is invalid";
  oldGate ← map_err (fun _ => ErrSentinel "withdrawn candidate traffic gate changed") (lift (decodeGate (Chk_GateJSON checkpoint)));
  _ ← refuse (negb (bool_decide (oldGate = gate)) ||
              negb (validSavedGate oldGate (Int_InitialGate intent) app (candidateRecoveryID app oldID) true) ||
              negb (target_eq target (Int_PredecessorTarget intent))) "withdrawn candidate traffic gate changed";
  retired ← Retired oldCfg (Cfg_EnvironmentRevision oldCfg) oldID (CandidateRegistrySecretName oldCfg);
  _ ← refuse (negb retired) "withdrawn candidate workload is not retired";
  '(newGate, newTarget) ← ResetInactive gate cfg oldID (Req_RequestID record);
  _ ← refuse (negb (validInitialCapture newGate newTarget app) || negb (IsInactiveCandidateTarget cfg (Req_RequestID record) newTarget))
        "candidate bootstrap retry target is invalid";
  _ ← refuse (negb (String.eqb (Gate_UID newGate) (Gate_UID gate)) || negb (String.eqb (Gate_Namespace newGate) (Gate_Namespace gate)) ||
              negb (String.eqb (Gate_App newGate) (Gate_App gate)) ||
              negb (String.eqb (Gate_OperationID newGate) (CandidateBootstrapOperationID app (Req_RequestID record))))
        "candidate bootstrap retry fence is invalid";
  mret (newGate, newTarget)
  end end end.

(** ** candidate_unprepared_recovery.go *)

(** Capture the gate; a first deployment without a Service gets the passive
    bootstrap first. *)
Definition captureOrBootstrap (record : DeployRequest) (cfg : Config) : R (ActivationGate * ActivationTarget) :=
  found ← attempt (Capture (Cfg_Name cfg));
  match found with
  | Ok gt => mret gt
  | Err e =>
      if IsNotFound e && String.eqb (Req_PreviousAppID record) "" then
        _ ← EnsureNamespace;
        _ ← CreateInactive cfg (Req_RequestID record);
        Capture (Cfg_Name cfg)
      else throw e
  end.

Definition prepareUnstartedRecovery (record : DeployRequest) (cfg : Config) : R unit :=
  _ ← refuse (negb (config_ok cfg (Req_AppName record)) || negb (hosted_stateless cfg) ||
              negb (Bool.eqb (String.eqb (Req_PreviousAppID record) "") (String.eqb (Req_PreviousState record) "")))
        "invalid unprepared candidate recovery";
  '(gate, target) ← captureOrBootstrap record cfg;
  _ ← refuse (negb (validInitialCapture gate target (Cfg_Name cfg))) "invalid recovery target";
  '(gate, target) ←
    (if String.eqb (Req_PreviousAppID record) "" then
       if negb (IsInactiveCandidateTarget cfg (Req_RequestID record) target) then
         map_err (fun _ => ErrSentinel "initial recovery target is not a safely reusable withdrawn target")
           (reuseWithdrawnInitialCandidate record cfg gate target)
       else mret (gate, target)
     else
       match FromJSON (Req_PreviousState record) with
       | Err _ => failed "invalid recovery predecessor"
       | Ok previous =>
           _ ← refuse (negb (config_ok previous (Cfg_Name cfg))) "invalid recovery predecessor";
           ready ← TargetReady gate target previous;
           _ ← refuse (negb ready) "recovery predecessor is not ready";
           mret (gate, target)
       end);
  RuntimeCheckpointRepository_SaveActivationIntent (Req_AppName record) (Req_RequestID record)
    (intent_JSON (MkIntent (Req_AppName record) (Req_RequestID record) (Req_RequestedState record) (Cfg_EnvironmentRevision cfg)
       (CandidateRegistrySecretName cfg) gate target)) now.

(** ** candidate_withdrawal.go *)

Definition rejectRequestedWithdrawal (app requestID : string) : R unit :=
  withdrawal ← map_err (fun _ => ErrStatus Internal "read deployment withdrawal decision")
                 (CandidateBindingRepository_WithdrawalRequested app requestID);
  guard withdrawal (ErrStatus FailedPrecondition "deployment withdrawal was requested; recover this request instead of activating it").
End operations.
End runtime.
