(* ===== verification/CandidateLogic.v ===== *)
(** * Reasoning about candidate operations

    [mwp m d log Q]: started with database [d] and call log [log], the operation
    [m] can only end in outcomes, databases and logs that satisfy [Q], whatever
    the runtime replies and whichever driver calls fail. *)

From S2P Require Import Prelude GoStrings Regexp Sha256 GoJson GoTime Appconfig Db DbRepos DbCandidates DbInv DbSteps DbEffects Activation Candidate CandidateOps.
From Stdlib Require Import Ascii String.
Local Open Scope Z_scope.

Section logic.
Context `{KubeTypes} `{AppEnv} {K : Type} `{!CandidateRuntime K}.
Notation R := (M (rt K)).
Notation log_t := (list (rt_event * Db)).

Definition mwp {A} (m : R A) (d : Db) (log : log_t) (Q : result A -> Db -> log_t -> Prop) : Prop :=
  forall w r w', w_db w = d -> rt_log _ (w_k w) = log -> m w = (r, w') -> Q r (w_db w') (rt_log _ (w_k w')).

Section rules.
Context {A B : Type}.

Lemma mwp_ret (a : A) d log (Q : result A -> Db -> log_t -> Prop) : Q (Ok a) d log -> mwp (mret a) d log Q.
Proof. intros HQ w r w' <- <- [= <- <-]. done. Qed.

Lemma mwp_lift (x : result A) d log (Q : result A -> Db -> log_t -> Prop) : Q x d log -> mwp (lift x) d log Q.
Proof. intros HQ w r w' <- <- [= <- <-]. done. Qed.

Lemma mwp_throw e d log (Q : result A -> Db -> log_t -> Prop) : Q (Err e) d log -> mwp (throw e) d log Q.
Proof. intros HQ w r w' <- <- [= <- <-]. done. Qed.

Lemma mwp_guard b e d log (Q : result unit -> Db -> log_t -> Prop) :
  (b = true -> Q (Err e) d log) -> (b = false -> Q (Ok tt) d log) -> mwp (guard b e) d log Q.
Proof. intros H1 H2 w r w' <- <- [= <- <-]. destruct b; [by apply H1|by apply H2]. Qed.

Lemma mwp_bind (m : R A) (f : A -> R B) d log (Q : result B -> Db -> log_t -> Prop) :
  mwp m d log (fun r d' log' => match r with Ok a => mwp (f a) d' log' Q | Err e => Q (Err e) d' log' end) ->
  mwp (mbind f m) d log Q.
Proof.
  intros HM w r w' Hd Hw Hb. apply st_bind_inv in Hb as [(e & He & ->)|(a & w1 & Ha & Hf)].
  - exact (HM w _ w' Hd Hw He).
  - exact (HM w _ w1 Hd Hw Ha w1 r w' eq_refl eq_refl Hf).
Qed.

Lemma mwp_mono (m : R A) d log (Q Q' : result A -> Db -> log_t -> Prop) :
  mwp m d log Q -> (forall r d' log', Q r d' log' -> Q' r d' log') -> mwp m d log Q'.
Proof. intros HM HQ w r w' Hd Hw Hm. apply HQ. by eapply HM. Qed.

Lemma mwp_map_err g (m : R A) d log (Q : result A -> Db -> log_t -> Prop) :
  mwp m d log (fun r d' log' => Q (match r with Ok a => Ok a | Err e => Err (g e) end) d' log') ->
  mwp (map_err g m) d log Q.
Proof.
  intros HM w r w' Hd Hw Hm. unfold map_err in Hm. destruct (m w) as [[a|e] w1] eqn:E; injection Hm as <- <-;
    exact (HM w _ w1 Hd Hw E).
Qed.

Lemma mwp_attempt (m : R A) d log (Q : result (result A) -> Db -> log_t -> Prop) :
  mwp m d log (fun r d' log' => Q (Ok r) d' log') -> mwp (attempt m) d log Q.
Proof.
  intros HM w r w' Hd Hw Hm. unfold attempt in Hm. destruct (m w) as [r1 w1] eqn:E. injection Hm as <- <-.
  exact (HM w _ w1 Hd Hw E).
Qed.

Lemma mwp_query (f : Db -> A) d log (Q : result A -> Db -> log_t -> Prop) :
  Q (Err ErrDriver) d log -> Q (Ok (f d)) d log -> mwp (db_query f) d log Q.
Proof.
  intros H1 H2 w r w' <- <- (E1 & E2 & Hr)%db_query_inv. rewrite E1, E2. by destruct Hr as [->| ->].
Qed.

(** A call of the runtime: any reply, one more entry of the log. *)
Lemma mwp_invoke ev (f : K -> result A * K) d log (Q : result A -> Db -> log_t -> Prop) :
  (forall r, Q r d (log ++ [(ev r, d)])%list) -> mwp (invoke ev f) d log Q.
Proof. intros HQ w r w' <- <- Hm. unfold invoke in Hm. destruct (f _) as [r1 k1]. injection Hm as <- <-. apply HQ. Qed.
End rules.

Lemma mwp_refuse b msg d log (Q : result unit -> Db -> log_t -> Prop) :
  (forall e, Q (Err e) d log) -> (b = false -> Q (Ok tt) d log) -> mwp (refuse b msg) d log Q.
Proof. intros H1 H2. apply mwp_guard; auto. Qed.

(** ** Repository calls *)

Lemma mwp_find_one {R0 A} (select : Db -> option R0) (scan : R0 -> result A) d log (Q : result A -> Db -> log_t -> Prop) :
  (forall e, (errors_Is e ErrNotFound = true -> (forall x e', scan x = Err e' -> errors_Is e' ErrNotFound = false) -> select d = None) ->
     Q (Err e) d log) ->
  (forall x a, select d = Some x -> scan x = Ok a -> Q (Ok a) d log) ->
  mwp (find_one select scan) d log Q.
Proof.
  intros H1 H2. unfold find_one. apply mwp_bind, mwp_query; [by apply H1|]. apply mwp_lift.
  destruct (select d) as [x|] eqn:Hx; [|by apply H1]. destruct (scan x) as [a|e] eqn:Hs; [by eapply H2|].
  apply H1. intros He Hscan. by rewrite (Hscan x e Hs) in He.
Qed.

Lemma scanRequest_fields q req : scanRequest q = Ok req ->
  Req_AppName req = qr_app q /\ Req_RequestID req = qr_id q /\ Req_State req = qr_state q /\ Req_RequestedState req = qr_requested q /\
  Req_PreviousAppID req = default "" (qr_prev_id q) /\ Req_PreviousState req = default "" (qr_prev_state q).
Proof. unfold scanRequest. intros (t1 & _ & (t2 & _ & [= <-])%bind_ok)%bind_ok. done. Qed.

Lemma mwp_find_request app id d log (Q : result DeployRequest -> Db -> log_t -> Prop) :
  (forall e, Q (Err e) d log) ->
  (forall q req, t_requests d !! (app, id) = Some q -> scanRequest q = Ok req -> Q (Ok req) d log) ->
  mwp (DeploymentRequestRepository_Find app id) d log Q.
Proof. intros H1 H2. apply mwp_find_one; [intros; apply H1|apply H2]. Qed.

Definition checkpoint_of (c : checkpoint_row) : RuntimeCheckpoint :=
  MkRuntimeCheckpoint (cr_app c) (cr_request c) (cr_stage c) (cr_intent c) (cr_gate c).

Lemma mwp_find_checkpoint app id d log (Q : result RuntimeCheckpoint -> Db -> log_t -> Prop) :
  (forall e, (errors_Is e ErrNotFound = true -> t_checkpoints d !! (app, id) = None) -> Q (Err e) d log) ->
  (forall c, t_checkpoints d !! (app, id) = Some c -> Q (Ok (checkpoint_of c)) d log) ->
  mwp (RuntimeCheckpointRepository_Find app id) d log Q.
Proof.
  intros H1 H2. unfold RuntimeCheckpointRepository_Find. apply mwp_bind, mwp_lift. unfold validateCheckpointIdentity.
  destruct (check _ _) as [u|e] eqn:Hc; [|apply H1; unfold check in Hc; case_match; simplify_eq; done].
  apply mwp_find_one; [|by intros c a Hc' [= <-]; apply H2]. intros e He. apply H1. intros Hn. by apply He.
Qed.

Lemma mwp_save app id intent now d log (Q : result unit -> Db -> log_t -> Prop) :
  let d1 := set_checkpoints <[(app, id) := CheckpointRow app id "prepared" intent "{}" (formatTime now) (formatTime now)]> d in
  (forall e, Q (Err e) d log) ->
  (forall c, t_checkpoints d !! (app, id) = Some c -> cr_intent c = intent -> Q (Ok tt) d log) ->
  (t_checkpoints d !! (app, id) = None -> (exists q, t_requests d !! (app, id) = Some q /\ qr_state q = "pending") ->
     forall r, Q r d1 log) ->
  mwp (RuntimeCheckpointRepository_SaveActivationIntent app id intent now) d log Q.
Proof.
  intros d1 H1 H2 H3 w r w' <- <- [Ek [[Ed Hok]|(q & Hq & Hp & Hn & Ed)]]%save_intent_effect; rewrite Ek, Ed.
  - destruct r as [[]|e]; [|apply H1]. destruct (Hok eq_refl) as (c & Hc & Hi). by eapply H2.
  - apply H3; eauto.
Qed.

Lemma mwp_record app id expected next gate now d log (Q : result unit -> Db -> log_t -> Prop) :
  (forall e, Q (Err e) d log) ->
  (forall c r, t_checkpoints d !! (app, id) = Some c -> cr_stage c = expected ->
     (exists q, t_requests d !! (app, id) = Some q /\ qr_state q = "pending") ->
     Q r (set_checkpoints <[(app, id) := CheckpointRow (cr_app c) (cr_request c) next (cr_intent c) gate (cr_created c)
            (formatTime now)]> d) log) ->
  mwp (RuntimeCheckpointRepository_RecordActivationGate app id expected next gate now) d log Q.
Proof.
  intros H1 H2 w r w' <- <- [Ek [[Ed He]|(q & c & Hq & Hp & Hc & Hst & _ & _ & Ed)]]%record_gate_effect; rewrite Ek, Ed.
  - destruct r; [done|apply H1].
  - apply H2; eauto.
Qed.

(** ** Logs that only grow by entries that satisfy [P] *)

Definition grown (P : rt_event -> Db -> Prop) (log log' : log_t) : Prop :=
  exists new, log' = (log ++ new)%list /\ Forall (fun ed => P ed.1 ed.2) new.

Lemma grown_refl P log : grown P log log.
Proof. exists []. by rewrite app_nil_r. Qed.

Lemma grown_snoc P log log' e d : grown P log log' -> P e d -> grown P log (log' ++ [(e, d)])%list.
Proof.
  intros (new & -> & Hf) He. exists (new ++ [(e, d)])%list. rewrite app_assoc. split; [done|].
  apply Forall_app_2; [done|]. by constructor.
Qed.

Lemma grown_trans P log1 log2 log3 : grown P log1 log2 -> grown P log2 log3 -> grown P log1 log3.
Proof. intros (n1 & -> & F1) (n2 & -> & F2). exists (n1 ++ n2)%list. rewrite app_assoc. split; [done|by apply Forall_app_2]. Qed.

Lemma grown_mono (P P' : rt_event -> Db -> Prop) log log' : (forall e d, P e d -> P' e d) -> grown P log log' -> grown P' log log'.
Proof. intros HP (new & -> & Hf). exists new. split; [done|]. eapply Forall_impl; [exact Hf|]. intros [e d]. apply HP. Qed.

Lemma mwp_finalize app id outcome gate tls now d log (Q : result string -> Db -> log_t -> Prop) :
  db_inv d -> (forall r d', finalize_post app id outcome gate now d r d' -> Q r d' log) ->
  mwp (CandidateFinalizationRepository_Finalize app id outcome gate tls now) d log Q.
Proof.
  intros Hi HQ w r w' <- <- Hf. destruct (finalize_effect _ _ _ _ _ _ _ _ _ Hi Hf) as [Hp Hk]. rewrite Hk. by apply HQ.
Qed.

(** ** Operations that leave the requests alone

    They keep the invariant of the database and every row of the request table. *)
Definition keeps {A} (m : R A) : Prop := forall d log, db_inv d ->
  mwp m d log (fun _ d' log' => db_inv d' /\ t_requests d' = t_requests d /\ grown (fun _ _ => True) log log').

Section keeps.
Context {A B : Type}.

Lemma keeps_lift (r : result A) : keeps (lift r).
Proof. intros d log Hi. apply mwp_lift. auto using grown_refl. Qed.

Lemma keeps_ret (a : A) : keeps (mret a).
Proof. apply keeps_lift. Qed.

Lemma keeps_throw e : keeps (throw e : R A).
Proof. apply keeps_lift. Qed.

Lemma keeps_query (f : Db -> A) : keeps (db_query f).
Proof. intros d log Hi. apply mwp_query; auto using grown_refl. Qed.

Lemma keeps_invoke ev (f : K -> result A * K) : keeps (invoke ev f).
Proof. intros d log Hi. apply mwp_invoke. intros r. split; [done|]. split; [done|]. apply grown_snoc; [apply grown_refl|done]. Qed.

Lemma keeps_bind (m : R A) (f : A -> R B) : keeps m -> (forall a, keeps (f a)) -> keeps (mbind f m).
Proof.
  intros Hm Hf d log Hi. apply mwp_bind. eapply mwp_mono; [by apply Hm|]. intros [a|e] d1 log1 (Hi1 & Hr1 & G1); [|done].
  eapply mwp_mono; [by apply Hf|]. intros r d2 log2 (Hi2 & Hr2 & G2). split; [done|]. split; [congruence|by eapply grown_trans].
Qed.

Lemma keeps_map_err g (m : R A) : keeps m -> keeps (map_err g m).
Proof. intros Hm d log Hi. apply mwp_map_err. by apply Hm. Qed.

Lemma keeps_attempt (m : R A) : keeps m -> keeps (attempt m).
Proof. intros Hm d log Hi. apply mwp_attempt. by apply Hm. Qed.

Lemma keeps_find_one {R0} (select : Db -> option R0) (scan : R0 -> result A) : keeps (find_one select scan).
Proof. intros d log Hi. apply mwp_find_one; auto using grown_refl. Qed.
End keeps.

Lemma keeps_guard b e : keeps (guard b e).
Proof. apply keeps_lift. Qed.

Lemma keeps_find_checkpoint app id : keeps (RuntimeCheckpointRepository_Find app id).
Proof. unfold RuntimeCheckpointRepository_Find. apply keeps_bind; [apply keeps_lift|intros _; apply keeps_find_one]. Qed.

Lemma keeps_record app id e n g now : keeps (RuntimeCheckpointRepository_RecordActivationGate app id e n g now).
Proof.
  intros d log Hi w r w' <- <- Hm. destruct (safe_record_gate _ _ _ _ _ _ _ _ _ Hi Hm) as [Hs Hk]. rewrite Hk.
  split; [by eapply safe_steps_inv|]. split; [|apply grown_refl].
  apply record_gate_effect in Hm as [_ [[-> _]|(q & c & _ & _ & _ & _ & _ & _ & ->)]]; done.
Qed.

Lemma keeps_save app id i now : keeps (RuntimeCheckpointRepository_SaveActivationIntent app id i now).
Proof.
  intros d log Hi w r w' <- <- Hm. destruct (safe_save_intent _ _ _ _ _ _ _ Hi Hm) as [Hs Hk]. rewrite Hk.
  split; [by eapply safe_steps_inv|]. split; [|apply grown_refl].
  apply save_intent_effect in Hm as [_ [[-> _]|(q & _ & _ & _ & ->)]]; done.
Qed.
End logic.

Ltac keep :=
  repeat first
    [ progress intros
    | apply keeps_lift | apply keeps_ret | apply keeps_throw | apply keeps_guard | apply keeps_query | apply keeps_invoke
    | apply keeps_find_checkpoint | apply keeps_record | apply keeps_save | apply keeps_find_one
    | apply keeps_map_err | apply keeps_attempt
    | lazymatch goal with
      | |- keeps (mbind _ _) => apply keeps_bind
      | |- keeps (match ?x with _ => _ end) => destruct x
      | |- keeps (let '_ := ?x in _) => destruct x
      end ].
