(* ===== verification/CandidateProps.v ===== *)
(** * Properties of candidate operations

    Every change of Kubernetes is made under a durable record that names it:
    what the log of runtime calls can contain, and what an outcome needs. *)

From S2P Require Import Prelude GoStrings Regexp Sha256 GoJson GoTime Appconfig Db DbRepos DbCandidates DbInv DbSteps DbEffects Activation Candidate CandidateOps CandidateLogic.
From Stdlib Require Import Ascii String.
Local Open Scope Z_scope.

(** The request is pending in this database. *)
Definition pending_in (key : string * string) (d : Db) : Prop := exists q, t_requests d !! key = Some q /\ qr_state q = "pending".

(** Its checkpoint is at this stage. *)
Definition at_stage (key : string * string) (stage : string) (P : checkpoint_row -> Prop) (d : Db) : Prop :=
  exists c, t_checkpoints d !! key = Some c /\ cr_stage c = stage /\ P c.

Lemma at_stage_set key stage (P : checkpoint_row -> Prop) c d :
  cr_stage c = stage -> P c -> at_stage key stage P (set_checkpoints <[key := c]> d).
Proof. intros Hs HP. exists c. cbn. by rewrite lookup_insert_eq. Qed.

Section props.
Context `{KubeTypes} `{AppEnv} {K : Type} `{!CandidateRuntime K} (now : Z).
Notation R := (M (rt K)).

(** The text is the JSON of the gate. *)
Definition saved_gate (g : ActivationGate) (text : string) : Prop := text = gate_JSON g \/ decodeGate text = Ok g.

(** ** Advance *)

(** The calls [AdvanceCandidateOperation] may make, with the database at that
    moment; [first]: there was no checkpoint when it started. *)
Definition advance_call (app id : string) (first : bool) (e : rt_event) (d : Db) : Prop :=
  let key := (app, id) in
  match e with
  | ECapture a _ => a = app /\ first = true
  | EFence g op _ =>
      op = id /\ first = true /\ pending_in key d /\
      at_stage key "prepared" (fun c => exists i, cr_intent c = intent_JSON i /\ Int_InitialGate i = g /\
        Int_AppName i = app /\ Int_RequestID i = id) d
  | EPrepare _ _ q _ _ => q = id /\ pending_in key d /\ at_stage key "fenced" (fun _ => True) d
  | EActivate g _ _ q _ _ => q = id /\ pending_in key d /\ at_stage key "fenced" (fun c => saved_gate g (cr_gate c)) d
  | _ => False
  end.

Lemma activateFenced_calls app id sec reg cfg fenced initial first d log :
  pending_in (app, id) d -> at_stage (app, id) "fenced" (fun c => saved_gate fenced (cr_gate c)) d ->
  mwp (K := K) (activateFenced now app id sec reg cfg fenced initial) d log (fun r d' log' =>
    grown (advance_call app id first) log log' /\
    forall g, r = Ok g -> at_stage (app, id) "activated" (fun c => saved_gate g (cr_gate c)) d').
Proof.
  intros Hp Hs. assert (Hs' : at_stage (app, id) "fenced" (fun _ => True) d) by (destruct Hs as (c & ? & ? & _); by exists c).
  unfold activateFenced. apply mwp_bind, mwp_invoke. intros r1.
  set (log1 := (log ++ _)%list). assert (G1 : grown (advance_call app id first) log log1) by (apply grown_snoc; [apply grown_refl|done]).
  clearbody log1. destruct r1 as [u|e]; [|done].
  apply mwp_bind, mwp_invoke. intros r2. set (log2 := (log1 ++ _)%list).
  assert (G2 : grown (advance_call app id first) log log2) by (apply grown_snoc; [exact G1|done]). clearbody log2.
  destruct r2 as [activated|e]; [|done].
  apply mwp_bind, mwp_refuse; [done|]. intros _. apply mwp_bind, mwp_map_err, mwp_record; [done|].
  intros c [[]|e] Hc Hst _; [|done]. apply mwp_ret. split; [done|]. intros g [= <-]. apply at_stage_set; [done|by left].
Qed.

Lemma start_calls app id state cfg sec reg d log :
  t_checkpoints d !! (app, id) = None ->
  mwp (K := K) (startCandidateOperation now app id state cfg sec reg) d log (fun r d' log' =>
    grown (advance_call app id true) log log' /\
    forall g, r = Ok g -> at_stage (app, id) "activated" (fun c => saved_gate g (cr_gate c)) d').
Proof.
  intros Hn. unfold startCandidateOperation. apply mwp_bind, mwp_invoke. intros r1.
  set (log1 := (log ++ _)%list). assert (G1 : grown (advance_call app id true) log log1) by (apply grown_snoc; [apply grown_refl|done]).
  clearbody log1. destruct r1 as [[gate pred]|e]; [|done].
  apply mwp_bind, mwp_refuse; [done|]. intros _. cbv zeta.
  apply mwp_bind, mwp_map_err, mwp_save; [done|congruence|]. intros _ Hp [[]|e]; [|done].
  set (d1 := set_checkpoints _ d).
  assert (Hp1 : pending_in (app, id) d1) by done.
  apply mwp_bind, mwp_invoke. intros r2. set (log2 := (log1 ++ _)%list).
  assert (G2 : grown (advance_call app id true) log log2).
  { apply grown_snoc; [exact G1|]. do 3 (split; [done|]). apply at_stage_set; [done|]. by eexists. }
  clearbody log2. destruct r2 as [fenced|e]; [|done].
  apply mwp_bind, mwp_refuse; [done|]. intros _. apply mwp_bind, mwp_map_err, mwp_record; [done|].
  intros c [[]|e] Hc Hst Hp2; [|done].
  eapply mwp_mono; [apply (activateFenced_calls app id sec reg cfg fenced gate true)|].
  - done.
  - apply at_stage_set; [done|by left].
  - intros r d' log' [G3 Hr]. split; [by eapply grown_trans|exact Hr].
Qed.

Lemma advance_calls app id cfg sec reg d log :
  mwp (K := K) (AdvanceCandidateOperation now app id cfg sec reg) d log (fun r d' log' =>
    grown (advance_call app id (bool_decide (t_checkpoints d !! (app, id) = None))) log log' /\
    forall g, r = Ok g -> at_stage (app, id) "activated" (fun c => saved_gate g (cr_gate c)) d').
Proof.
  pose proof (fun P => grown_refl P log) as G0. unfold AdvanceCandidateOperation. apply mwp_bind, mwp_refuse; [done|]. intros _.
  apply mwp_bind, mwp_map_err, mwp_lift. destruct (Validate cfg); [|done].
  apply mwp_bind, mwp_refuse; [done|]. intros _. apply mwp_bind, mwp_lift. destruct (ValidateCandidateReferences _ _ _); [|done].
  apply mwp_bind, mwp_map_err, mwp_lift. destruct (Config_JSON cfg) as [state|]; [|done].
  apply mwp_bind, mwp_find_request; [done|]. intros q req Hq (F1 & F2 & F3 & F4 & _)%scanRequest_fields.
  apply mwp_bind, mwp_refuse; [done|]. intros Hb. bools.
  assert (Hp : pending_in (app, id) d).
  { exists q. split; [done|]. rewrite <- F3. by apply String.eqb_eq. }
  apply mwp_bind, mwp_attempt, mwp_find_checkpoint.
  - intros e He. destruct (errors_Is e ErrNotFound) eqn:E; [|by apply mwp_throw].
    specialize (He eq_refl). rewrite (bool_decide_true _ He). by apply start_calls.
  - intros c Hc. apply mwp_bind, mwp_refuse; [done|]. intros _. cbn [Chk_IntentJSON checkpoint_of].
    destruct (decodeCandidateIntent (cr_intent c)) as [intent|]; [|by apply mwp_throw].
    apply mwp_bind, mwp_refuse; [done|]. intros _. cbv zeta. cbn [Chk_Stage Chk_GateJSON checkpoint_of].
    destruct (String.eqb (cr_stage c) "activated") eqn:Ea.
    { destruct (decodeGate (cr_gate c)) as [gate|] eqn:Hg; [|by apply mwp_throw]. case_match; [|by apply mwp_throw].
      apply mwp_ret. split; [done|]. intros g [= <-]. exists c. split; [done|]. split; [by apply String.eqb_eq|by right]. }
    destruct (String.eqb (cr_stage c) "prepared"); [by apply mwp_throw|].
    destruct (String.eqb (cr_stage c) "fenced") eqn:Ef; [|by apply mwp_throw].
    destruct (decodeGate (cr_gate c)) as [gate|] eqn:Hg; [|by apply mwp_throw]. case_match; [|by apply mwp_throw].
    apply activateFenced_calls; [done|]. exists c. split; [done|]. split; [by apply String.eqb_eq|by right].
Qed.

(** C3: advancing never changes Kubernetes ahead of the journal.  Whatever the
    runtime replies and whichever driver calls fail, [AdvanceCandidateOperation]
    only captures, fences, prepares and activates; it fences with the request id
    and only when it has just saved, at stage prepared, the intent that holds
    the very gate; it prepares and activates only at stage fenced and activates
    only with the gate recorded there; a request that already has a checkpoint
    is never fenced again.  A result without error is recorded as activated. *)
Theorem advance_journaled app id cfg sec reg (w : world (rt K)) r w' :
  AdvanceCandidateOperation now app id cfg sec reg w = (r, w') ->
  grown (advance_call app id (bool_decide (t_checkpoints (w_db w) !! (app, id) = None))) (rt_log _ (w_k w)) (rt_log _ (w_k w')) /\
  (forall g, r = Ok g -> at_stage (app, id) "activated" (fun c => saved_gate g (cr_gate c)) (w_db w')).
Proof. intros Hm. exact (advance_calls app id cfg sec reg _ _ w r w' eq_refl eq_refl Hm). Qed.

(** ** Recovery of traffic *)

(** The checkpoint is recovering under the recovery identity of the request, with
    this intent. *)
Definition recovering (app id : string) (i : candidateOperationIntent) (d : Db) : Prop :=
  at_stage (app, id) "recovering" (fun c => cr_gate c = recovery_JSON (candidateRecoveryID app id) /\
    decodeCandidateIntent (cr_intent c) = Ok i) d.

(** The calls [RestoreCandidateTraffic] may make. *)
Definition restore_call (app id : string) (e : rt_event) (d : Db) : Prop :=
  match e with
  | ECapture a _ => a = app /\ exists i, recovering app id i d
  | EFence _ op _ => op = candidateRecoveryID app id /\ exists i, recovering app id i d
  | EReplace _ t _ => exists i, t = Int_PredecessorTarget i /\ recovering app id i d
  | _ => False
  end.

Lemma restoreTarget_calls app id i d log :
  recovering app id i d ->
  mwp (K := K) (restoreTarget now app id (candidateRecoveryID app id) i) d log (fun r d' log' =>
    grown (restore_call app id) log log' /\
    forall g, r = Ok g -> at_stage (app, id) "withdrawn" (fun c => saved_gate g (cr_gate c)) d').
Proof.
  intros Hr. unfold restoreTarget. apply mwp_bind, mwp_invoke. intros r1.
  set (log1 := (log ++ _)%list). assert (G1 : grown (restore_call app id) log log1).
  { apply grown_snoc; [apply grown_refl|]. split; [done|by exists i]. }
  clearbody log1. destruct r1 as [[current target]|e]; [|done].
  do 2 (apply mwp_bind, mwp_refuse; [done|]; intros _). apply mwp_bind.
  eapply mwp_mono with (Q := fun r d' log' => d' = d /\ grown (restore_call app id) log log').
  { case_match; [|by apply mwp_ret]. apply mwp_bind, mwp_invoke. intros r2.
    assert (G2 : grown (restore_call app id) log (log1 ++ [(EFence current (candidateRecoveryID app id) r2, d)])%list).
    { apply grown_snoc; [exact G1|]. split; [done|by exists i]. }
    destruct r2 as [fenced|e]; [|done]. apply mwp_bind, mwp_refuse; [done|]. intros _. by apply mwp_ret. }
  intros [[current2 target2]|e] d' log2 [-> G2]; [|done]. apply mwp_bind.
  eapply mwp_mono with (Q := fun r d' log' => d' = d /\ grown (restore_call app id) log log').
  { case_match; [|by apply mwp_ret]. apply mwp_bind, mwp_invoke. intros r3.
    assert (G3 : grown (restore_call app id) log (log2 ++ [(EReplace current2 (Int_PredecessorTarget i) r3, d)])%list).
    { apply grown_snoc; [exact G2|]. by exists i. }
    destruct r3 as [replaced|e]; [|done]. apply mwp_bind, mwp_refuse; [done|]. intros _. by apply mwp_ret. }
  intros [current3|e] d' log3 [-> G3]; [|done]. apply mwp_bind, mwp_record; [done|].
  intros c [[]|e] Hc _ _; [|done]. apply mwp_ret. split; [done|]. intros g [= <-]. apply at_stage_set; [done|by left].
Qed.

Lemma restore_calls cancelled app id d log :
  mwp (K := K) (RestoreCandidateTraffic now cancelled app id) d log (fun r d' log' =>
    grown (restore_call app id) log log' /\
    forall g, r = Ok g -> at_stage (app, id) "withdrawn" (fun c => saved_gate g (cr_gate c)) d').
Proof.
  pose proof (grown_refl (restore_call app id) log) as G0. unfold RestoreCandidateTraffic.
  apply mwp_bind, mwp_guard; [done|]. intros _. apply mwp_bind, mwp_refuse; [done|]. intros _.
  apply mwp_bind, mwp_find_request; [done|]. intros q req Hq (F1 & F2 & F3 & F4 & _)%scanRequest_fields.
  apply mwp_bind, mwp_refuse; [done|]. intros _. apply mwp_bind, mwp_find_checkpoint; [done|]. intros c Hc.
  apply mwp_bind, mwp_refuse; [done|]. intros _. cbn [Chk_IntentJSON Chk_Stage Chk_GateJSON checkpoint_of].
  destruct (decodeCandidateIntent (cr_intent c)) as [i|] eqn:Hi; [|by apply mwp_throw].
  apply mwp_bind, mwp_refuse; [done|]. intros _. cbv zeta. apply mwp_bind, mwp_refuse; [done|]. intros _.
  case_match eqn:Hst.
  { apply mwp_bind, mwp_record; [done|]. intros c0 [[]|e] Hc0 _ _; [|done]. apply restoreTarget_calls.
    apply at_stage_set; [done|]. split; [done|]. cbn. congruence. }
  destruct (String.eqb (cr_stage c) "recovering") eqn:Hrec.
  { apply mwp_bind, mwp_refuse; [done|]. intros Hconf. bools. apply restoreTarget_calls. exists c. split; [done|].
    split; [by apply String.eqb_eq|]. split; [|done]. unfold recovery_confirmed in Hconf. case_match; [|done]. bools.
    by apply String.eqb_eq. }
  destruct (String.eqb (cr_stage c) "withdrawn") eqn:Hw; [|by apply mwp_throw].
  destruct (decodeGate (cr_gate c)) as [gate|] eqn:Hg; [|by apply mwp_throw]. case_match; [|by apply mwp_throw].
  apply mwp_ret. split; [done|]. intros g [= <-]. exists c. split; [done|]. split; [by apply String.eqb_eq|by right].
Qed.

(** C4: recovery can only restore.  Whatever the runtime replies and whichever
    driver calls fail, [RestoreCandidateTraffic] touches Kubernetes only after
    its recovery identity is durable: every capture, fence and replacement
    happens at stage recovering, fences use the recovery identity, and the only
    target it ever installs is the predecessor saved in the intent; it never
    prepares or activates a candidate.  A result without error is recorded as
    withdrawn with that gate. *)
Theorem restore_journaled cancelled app id (w : world (rt K)) r w' :
  RestoreCandidateTraffic now cancelled app id w = (r, w') ->
  grown (restore_call app id) (rt_log _ (w_k w)) (rt_log _ (w_k w')) /\
  (forall g, r = Ok g -> at_stage (app, id) "withdrawn" (fun c => saved_gate g (cr_gate c)) (w_db w')).
Proof. intros Hm. exact (restore_calls cancelled app id _ _ w r w' eq_refl eq_refl Hm). Qed.

(** ** Recovery and completion *)

Lemma keeps_restore cancelled app id : keeps (K := K) (RestoreCandidateTraffic now cancelled app id).
Proof. unfold RestoreCandidateTraffic, restoreTarget, ambiguous, unambiguous, recordCandidateGate. keep. Qed.

Lemma keeps_recover cancelled app id : keeps (K := K) (RecoverCandidateOperation now cancelled app id).
Proof. unfold RecoverCandidateOperation, predecessorConfig, requireInactiveBootstrap. keep; apply keeps_restore. Qed.

(** What was observed, in this order, before an outcome was committed: the
    recorded gate [g] is still the gate of the Service; an applied candidate is
    selected and ready, a withdrawn one has its predecessor target back; the
    route is reconciled; the gate and the target are still the same. *)
Definition commit_evidence (app id outcome : string) (cfg : Config) (i : candidateOperationIntent) (c : checkpoint_row)
    (d : Db) (calls : list (rt_event * Db)) : Prop :=
  exists g t t', decodeGate (cr_gate c) = Ok g /\ target_eq t t' = true /\
    cr_stage c = (if String.eqb outcome "withdrawn" then "withdrawn" else "activated") /\
    if String.eqb outcome "applied" then
      CandidateSelector app id = Ok (selector_of t) /\
      calls = [(ECapture app (Ok (g, t)), d); (EReady g t cfg (Ok true), d); (ERoute g t cfg (Ok tt), d); (ECapture app (Ok (g, t')), d)]
    else
      target_eq t (Int_PredecessorTarget i) = true /\ exists route,
      calls = [(ECapture app (Ok (g, t)), d); (ERoute g t route (Ok tt), d); (ECapture app (Ok (g, t')), d)].

(** What holds after the commit phase started in [d]. *)
Definition commit_post (at_ : Z) (app id outcome : string) (cfg : Config) (i : candidateOperationIntent) (c : checkpoint_row)
    (d : Db) (log : list (rt_event * Db)) (r : result (option DeployAppResponse)) (d' : Db) (log' : list (rt_event * Db)) : Prop :=
  (t_requests d' = t_requests d \/
   exists calls s, log' = (log ++ calls)%list /\ commit_evidence app id outcome cfg i c d calls /\
     t_checkpoints d' = t_checkpoints d /\ finalizes app id outcome (cr_gate c) at_ d d' s) /\
  (forall x, r = Ok (Some x) -> exists q, t_requests d' !! (app, id) = Some q /\ qr_state q = outcome).

Lemma commit_refused at_ app id outcome cfg i c d log e log' : commit_post at_ app id outcome cfg i c d log (Err e) d log'.
Proof. split; [by left|done]. Qed.

Lemma commit_waiting at_ app id outcome cfg i c d log log' : commit_post at_ app id outcome cfg i c d log (Ok None) d log'.
Proof. split; [by left|done]. Qed.

(** The check of the target and the calls it makes. *)
Lemma completionRoute_calls app id outcome req cfg i g t d log :
  mwp (K := K) (completionRoute app id outcome req cfg i g t) d log (fun r d' log' => d' = d /\ forall route, r = Ok (Some route) ->
    if String.eqb outcome "applied" then
      route = cfg /\ CandidateSelector app id = Ok (selector_of t) /\ log' = (log ++ [(EReady g t cfg (Ok true), d)])%list
    else target_eq t (Int_PredecessorTarget i) = true /\ log' = log).
Proof.
  unfold completionRoute. destruct (String.eqb outcome "applied").
  - destruct (CandidateSelector app id) as [sel|]; [|by apply mwp_throw]. apply mwp_bind, mwp_refuse; [done|]. intros Hs. bools.
    apply mwp_bind, mwp_invoke. intros [[]|e]; [|by apply mwp_ret|done]. apply mwp_ret. split; [done|]. intros route [= <-].
    by rewrite Hs.
  - apply mwp_bind, mwp_refuse; [done|]. intros Ht. bools. case_match.
    + destruct (FromJSON _) as [rc|]; [|by apply mwp_throw]. case_match; [|by apply mwp_throw]. by apply mwp_ret.
    + by apply mwp_ret.
Qed.

Lemma commitOutcome_calls at_ app id outcome tls req cfg i c d log :
  db_inv d ->
  mwp (K := K) (commitOutcome app id outcome tls at_ req cfg i (checkpoint_of c)) d log (commit_post at_ app id outcome cfg i c d log).
Proof.
  intros Hi. unfold commitOutcome. cbv zeta. cbn [Chk_GateJSON Chk_AppName Chk_RequestID Chk_Stage checkpoint_of].
  destruct (decodeGate (cr_gate c)) as [g|] eqn:Hg; [|apply mwp_throw, commit_refused].
  apply mwp_bind, mwp_refuse; [intros; apply commit_refused|]. intros G1. bools.
  apply mwp_bind, mwp_invoke. intros [[g1 t]|e]; [|apply commit_refused].
  apply mwp_bind, mwp_refuse; [intros; apply commit_refused|]. intros G2. bools. subst g1.
  apply mwp_bind. eapply mwp_mono; [apply completionRoute_calls|].
  intros [[route|]|e] d' log1 [-> Hroute]; [|apply mwp_ret, commit_waiting|apply commit_refused].
  specialize (Hroute route eq_refl). apply mwp_bind, mwp_invoke. intros [[]|e]; [|apply commit_refused].
  apply mwp_bind, mwp_invoke. intros [[g2 t']|e]; [|apply commit_refused].
  apply mwp_bind, mwp_refuse; [intros; apply commit_refused|]. intros G3. bools. subst g2.
  match goal with |- mwp _ _ ?l _ => assert (Hev : exists calls, l = (log ++ calls)%list /\ commit_evidence app id outcome cfg i c d calls) end.
  { unfold commit_evidence. destruct (String.eqb outcome "applied").
    - destruct Hroute as (-> & Hsel & ->). rewrite <- !app_assoc. eexists. split; [reflexivity|].
      exists g, t, t'. split; [done|]. split; [done|]. split; [by apply String.eqb_eq|]. done.
    - destruct Hroute as (Hpre & ->). rewrite <- !app_assoc. eexists. split; [reflexivity|].
      exists g, t, t'. split; [done|]. split; [done|]. split; [by apply String.eqb_eq|]. split; [done|]. by exists route. }
  destruct Hev as (calls & -> & Hev). apply mwp_bind, mwp_finalize; [done|]. intros r d' [Hd Hok].
  assert (Hreq : t_requests d' = t_requests d \/ exists calls0 s, (log ++ calls)%list = (log ++ calls0)%list /\
     commit_evidence app id outcome cfg i c d calls0 /\ t_checkpoints d' = t_checkpoints d /\ finalizes app id outcome (cr_gate c) at_ d d' s).
  { destruct Hd as [->|(s & Hs)]; [by left|]. right. exists calls, s. split; [done|]. split; [done|]. split; [by destruct Hs|done]. }
  destruct r as [text|e]; [|by split]. destruct (Hok text eq_refl) as (q & Hq & Hst & _).
  apply mwp_bind, mwp_lift. destruct (decodeCandidateReply text) as [reply|e]; [|by split].
  apply mwp_ret. split; [done|]. intros x [= <-]. by exists q.
Qed.

(** What holds after [CompleteCandidateOperation] started in [d]. *)
Definition complete_post (at_ : Z) (app id outcome : string) (d : Db) (log : list (rt_event * Db)) (r : result (option DeployAppResponse))
    (d' : Db) (log' : list (rt_event * Db)) : Prop :=
  (t_requests d' = t_requests d \/
   exists cfg i c d1 before calls s, log' = (log ++ before ++ calls)%list /\ t_requests d1 = t_requests d /\
     t_checkpoints d1 !! (app, id) = Some c /\ decodeCandidateIntent (cr_intent c) = Ok i /\ Int_AppName i = app /\ Int_RequestID i = id /\
     commit_evidence app id outcome cfg i c d1 calls /\ finalizes app id outcome (cr_gate c) at_ d1 d' s) /\
  (forall x, r = Ok (Some x) -> exists q, t_requests d' !! (app, id) = Some q /\ qr_state q = outcome).

Lemma complete_refused at_ app id outcome d log e d' log' : t_requests d' = t_requests d -> complete_post at_ app id outcome d log (Err e) d' log'.
Proof. intros E. split; [by left|done]. Qed.

Lemma complete_commit at_ app id outcome tls req cfg i c d d1 log before :
  db_inv d1 -> t_requests d1 = t_requests d -> t_checkpoints d1 !! (app, id) = Some c -> decodeCandidateIntent (cr_intent c) = Ok i ->
  Int_AppName i = app -> Int_RequestID i = id ->
  mwp (K := K) (commitOutcome app id outcome tls at_ req cfg i (checkpoint_of c)) d1 (log ++ before)%list (complete_post at_ app id outcome d log).
Proof.
  intros Hi Hr Hc Hd Ha Hq. eapply mwp_mono; [by apply commitOutcome_calls|]. intros r d' log' [Hcase Hok]. split; [|exact Hok].
  destruct Hcase as [E|(calls & s & -> & Hev & _ & Hs)]; [left; congruence|]. right.
  exists cfg, i, c, d1, before, calls, s. rewrite app_assoc. done.
Qed.

Lemma complete_calls cancelled at_ app id outcome tls d log :
  db_inv d ->
  mwp (K := K) (CompleteCandidateOperation now cancelled app id outcome tls at_) d log (complete_post at_ app id outcome d log).
Proof.
  intros Hi. unfold CompleteCandidateOperation. apply mwp_bind, mwp_refuse; [intros; by apply complete_refused|]. intros _.
  apply mwp_bind, mwp_find_request; [intros; by apply complete_refused|]. intros q req Hq (F1 & F2 & F3 & F4 & _)%scanRequest_fields.
  apply mwp_bind, mwp_refuse; [intros; by apply complete_refused|]. intros _. case_match.
  { apply mwp_bind, mwp_refuse; [intros; by apply complete_refused|]. intros Ho. bools. apply String.eqb_eq in Ho.
    apply mwp_bind, mwp_lift. destruct (decodeCandidateReply _); [|by apply complete_refused]. apply mwp_ret. split; [by left|].
    intros _ _. exists q. split; [done|congruence]. }
  destruct (FromJSON _) as [cfg|]; [|by apply mwp_throw, complete_refused].
  do 2 (apply mwp_bind, mwp_refuse; [intros; by apply complete_refused|]; intros _).
  apply mwp_bind, mwp_find_checkpoint; [intros; by apply complete_refused|]. intros c Hc. cbn [Chk_IntentJSON checkpoint_of].
  destruct (decodeCandidateIntent (cr_intent c)) as [i|] eqn:Hd; [|by apply mwp_throw, complete_refused].
  apply mwp_bind, mwp_refuse; [intros; by apply complete_refused|]. intros Hm. unfold intentMatches in Hm. bools.
  assert (Ha : Int_AppName i = app) by (by apply String.eqb_eq). assert (Hid : Int_RequestID i = id) by (by apply String.eqb_eq).
  case_match; [|rewrite <- (app_nil_r log) at 1; by apply complete_commit].
  apply mwp_bind. eapply mwp_mono; [by apply keeps_recover|]. intros [[]|e] d1 log1 (Hi1 & Hr1 & before & -> & _);
    [|apply mwp_ret; split; [by left|done]|by apply complete_refused].
  apply mwp_bind, mwp_find_checkpoint; [intros; by apply complete_refused|]. intros c1 Hc1.
  apply mwp_bind, mwp_refuse; [intros; by apply complete_refused|]. intros Hsame. bools. apply String.eqb_eq in Hsame. cbn in Hsame.
  apply complete_commit; congruence.
Qed.

(** C5: an outcome is committed only on evidence.  Whatever the runtime replies
    and whichever driver calls fail, if [CompleteCandidateOperation] ends a
    pending request, then the outcome is the one asked for, the checkpoint is at
    its stage, and its last calls observed, in order: the Service at exactly the
    recorded gate; for an applied candidate its own selector and full readiness,
    for a withdrawn one the saved predecessor target; the reconciled route; and
    the Service at the same gate and target again.  A reply is only given for a
    request whose stored outcome is the one asked for. *)
Theorem complete_on_evidence cancelled at_ app id outcome tls (w : world (rt K)) r w' :
  db_inv (w_db w) -> CompleteCandidateOperation now cancelled app id outcome tls at_ w = (r, w') ->
  (pending_in (app, id) (w_db w) -> ~ pending_in (app, id) (w_db w') ->
     exists cfg i c d q before calls, t_checkpoints d !! (app, id) = Some c /\ decodeCandidateIntent (cr_intent c) = Ok i /\
       t_requests (w_db w') !! (app, id) = Some q /\ qr_state q = outcome /\
       rt_log _ (w_k w') = (rt_log _ (w_k w) ++ before ++ calls)%list /\ commit_evidence app id outcome cfg i c d calls) /\
  (forall x, r = Ok (Some x) -> exists q, t_requests (w_db w') !! (app, id) = Some q /\ qr_state q = outcome).
Proof.
  intros Hi Hm. pose proof (complete_calls cancelled at_ app id outcome tls _ _ Hi w r w' eq_refl eq_refl Hm) as [Hcase Hok].
  split; [|exact Hok]. intros (q0 & Hq0 & Hp) Hnp. destruct Hcase as [E|(cfg & i & c & d1 & before & calls & s & Hlog & _ & Hc & Hd & _ & _ & Hev & Hs)].
  { exfalso. apply Hnp. exists q0. by rewrite E. }
  exists cfg, i, c, d1. remember (w_db w') as d' eqn:Ed. destruct Hs as [q b c0 a x cfg0 routes response].
  exists (finished q outcome response (formatTime at_)), before, calls. split; [done|]. split; [done|].
  split; [cbn; by rewrite lookup_insert_eq|]. split; [done|]. by split.
Qed.
End props.
