(* ===== verification/CandidateRun.v ===== *)
(** * A concrete run of a candidate

    The controller over the in-memory server as the runtime, and the run of one
    request from its journal entry to the committed outcome; it instantiates the
    theorems on candidate operations. *)

From S2P Require Import Prelude GoStrings Regexp Sha256 GoJson GoTime Appconfig AppconfigSpec Db DbRepos DbCandidates DbInv DbSteps DbProps DbEffects DbLifecycle Activation ActivationProps Candidate CandidateOps CandidateLogic CandidateProps.
From Stdlib Require Import Ascii String.
Local Open Scope Z_scope.

Section run.
#[local] Existing Instance forward_env.
#[local] Existing Instance sample_types.
#[local] Existing Instance mem_api.

(** Workloads start at once and routes are accepted; the gate operations are the
    controller's. *)
Definition switch (g : ActivationGate) (cfg : Config) (q : string) : mem -> result ActivationGate * mem :=
  match CandidateSelector (Cfg_Name cfg) q with
  | Ok sel => ReplaceActivationTarget "apps" g (MkTarget (Some sel) (Some [8080%positive]))
  | Err e => fun k => (Err e, k)
  end.

#[local] Instance demo_runtime : CandidateRuntime mem := {|
  rt_CaptureActivationGate := CaptureActivationGate;
  rt_FenceActivationGate := FenceActivationGate "apps";
  rt_ReplaceActivationTarget := ReplaceActivationTarget "apps";
  rt_PrepareCandidateDeployment := fun _ _ _ _ k => (Ok tt, k);
  rt_ActivatePreparedCandidate := fun g cfg _ q _ => switch g cfg q;
  rt_RetireCandidateDeployment := fun _ _ _ _ k => (Ok tt, k);
  rt_CandidateRetired := fun _ _ _ _ k => (Ok true, k);
  rt_RestoredCandidateTargetReady := fun _ _ _ k => (Ok true, k);
  rt_ReconcileCandidateRoute := fun _ _ _ k => (Ok tt, k);
  rt_EnsureCandidateRecoveryNamespace := fun k => (Ok tt, k);
  rt_CreateInactiveCandidateService := fun _ _ k => (Ok tt, k);
  rt_InitialCandidateRequest := InitialCandidateRequest "apps";
  rt_ResetInactiveCandidateService := fun g _ _ _ k => (Err ErrActivationSuperseded, k) |}.

Definition demo_config : Config :=
  match FromJSON shop_state with Ok c => c | Err _ => sample_config "" "" "" end.

Definition demo_start : world (rt mem) := World (run_ops [shop_begin] empty_db) [] (Rt mem (shop_kube []) []).
Definition demo_advance (w : world (rt mem)) : result ActivationGate * world (rt mem) :=
  AdvanceCandidateOperation noon "shop" shop_id demo_config "" "" w.
Definition demo_complete (w : world (rt mem)) : result (option DeployAppResponse) * world (rt mem) :=
  CompleteCandidateOperation noon false "shop" shop_id "applied" false noon w.
Definition demo_restore (w : world (rt mem)) : result ActivationGate * world (rt mem) :=
  RestoreCandidateTraffic noon false "shop" shop_id w.

Definition event_kind (e : rt_event) : string :=
  match e with
  | ECapture _ _ => "capture" | EFence _ _ _ => "fence" | EReplace _ _ _ => "replace" | EPrepare _ _ _ _ _ => "prepare"
  | EActivate _ _ _ _ _ _ => "activate" | EReady _ _ _ _ => "ready" | ERoute _ _ _ _ => "route" | _ => "other"
  end.
Definition kinds (w : world (rt mem)) : list string := (fun ed => event_kind ed.1) <$> rt_log _ (w_k w).

(** ** The theorems on the run *)

Lemma advance_facts : exists w r w', demo_advance w = (r, w') /\ is_ok r = true /\ rt_log _ (w_k w) = [] /\
  kinds w' = ["capture"; "fence"; "prepare"; "activate"].
Proof.
  exists demo_start. assert (H1 : is_ok (demo_advance demo_start).1 = true) by (vm_compute; reflexivity).
  assert (H2 : kinds (demo_advance demo_start).2 = ["capture"; "fence"; "prepare"; "activate"]) by (vm_compute; reflexivity).
  destruct (demo_advance demo_start) as [r w']. exists r, w'. by split.
Qed.

Lemma advance_journaled_witness : exists w g w', demo_advance w = (Ok g, w') /\
  kinds w' = ["capture"; "fence"; "prepare"; "activate"] /\
  at_stage ("shop", shop_id) "activated" (fun c => saved_gate g (cr_gate c)) (w_db w').
Proof.
  destruct advance_facts as (w & r & w' & Hm & Hok & _ & Hk). destruct r as [g|]; [|discriminate]. exists w, g, w'.
  split; [exact Hm|]. split; [exact Hk|].
  unfold demo_advance in Hm. destruct (advance_journaled noon "shop" shop_id demo_config "" "" w (Ok g) w' Hm) as [_ Hst]. exact (Hst g eq_refl).
Defined.

Definition activated_world : world (rt mem) := (demo_advance demo_start).2.

Lemma ok_run {A} (m : world (rt mem) -> result A * world (rt mem)) w l :
  is_ok (m w).1 = true -> kinds (m w).2 = l -> exists a w', m w = (Ok a, w') /\ kinds w' = l.
Proof. destruct (m w) as [[a|] w']; intros H1 H2; [|discriminate]. by exists a, w'. Qed.

Lemma restore_facts : exists w g w', demo_restore w = (Ok g, w') /\
  kinds w' = (kinds w ++ ["capture"; "fence"; "replace"])%list.
Proof. exists activated_world. apply ok_run; vm_compute; reflexivity. Qed.

Lemma restore_journaled_witness : exists w g w', demo_restore w = (Ok g, w') /\
  kinds w' = (kinds w ++ ["capture"; "fence"; "replace"])%list /\
  at_stage ("shop", shop_id) "withdrawn" (fun c => saved_gate g (cr_gate c)) (w_db w').
Proof.
  destruct restore_facts as (w & g & w' & Hm & Hk). exists w, g, w'. split; [exact Hm|]. split; [exact Hk|].
  unfold demo_restore in Hm. destruct (restore_journaled noon false "shop" shop_id w (Ok g) w' Hm) as [_ Hst]. exact (Hst g eq_refl).
Defined.

Definition request_state (d : Db) : option string := qr_state <$> (t_requests d !! ("shop", shop_id)).

Lemma keeps_advance app id cfg sec reg : keeps (K := mem) (AdvanceCandidateOperation noon app id cfg sec reg).
Proof. unfold AdvanceCandidateOperation, startCandidateOperation, activateFenced, recordCandidateGate. keep. Qed.

Lemma keeps_run {A} (m : M (rt mem) A) w : keeps m -> db_inv (w_db w) -> db_inv (w_db (m w).2).
Proof. intros Hm Hi. destruct (m w) as [r w'] eqn:E. exact (proj1 (Hm _ _ Hi w r w' eq_refl eq_refl E)). Qed.

Lemma demo_start_inv : db_inv (w_db demo_start).
Proof. exact (reachable_inv _ (run_ops_steps [shop_begin] empty_db)). Qed.

Lemma activated_world_inv : db_inv (w_db activated_world).
Proof. exact (keeps_run _ demo_start (keeps_advance "shop" shop_id demo_config "" "") demo_start_inv). Qed.

Lemma step_run {A} (m : world (rt mem) -> result A * world (rt mem)) (P : Db -> Prop) w :
  P (w_db (m w).2) -> exists r w', m w = (r, w') /\ P (w_db w').
Proof. destruct (m w) as [r w']. intros HP. by exists r, w'. Qed.

Lemma complete_facts : exists w r w', db_inv (w_db w) /\ request_state (w_db w) = Some "pending" /\ demo_complete w = (r, w') /\
  request_state (w_db w') = Some "applied".
Proof.
  exists activated_world.
  destruct (step_run demo_complete (fun d => request_state d = Some "applied") activated_world) as (r & w' & Hm & Ha);
    [vm_compute; reflexivity|].
  exists r, w'. split; [exact activated_world_inv|]. split; [vm_compute; reflexivity|]. split; [exact Hm|exact Ha].
Qed.

Lemma complete_on_evidence_witness : exists (w w' : world (rt mem)) cfg i c d before calls,
  request_state (w_db w') = Some "applied" /\ rt_log _ (w_k w') = (rt_log _ (w_k w) ++ before ++ calls)%list /\
  commit_evidence "shop" shop_id "applied" cfg i c d calls.
Proof.
  destruct complete_facts as (w & r & w' & Hi & Hp & Hm & Ha). exists w, w'. unfold request_state in *.
  unfold demo_complete in Hm. destruct (complete_on_evidence noon false noon "shop" shop_id "applied" false w r w' Hi Hm) as [Hev _].
  destruct Hev as (cfg & i & c & d & q & before & calls & _ & _ & _ & _ & Hlog & Hce).
  - destruct (t_requests (w_db w) !! ("shop", shop_id)) as [q|] eqn:Hq; [|discriminate]. exists q. split; [exact Hq|]. by injection Hp.
  - intros (q & Hq & Hst). rewrite Hq in Ha. cbn in Ha. injection Ha as Ha. congruence.
  - exists cfg, i, c, d, before, calls. split; [exact Ha|]. split; [exact Hlog|exact Hce].
Defined.
End run.
