(* ===== verification/CandidateRequests.v ===== *)
(** * The handlers of candidate requests (internal/server)

    Submission, advance, recovery, withdrawal, reclamation of capacity and
    deletion, as the gRPC handlers run them under the app mutation lock.  The
    server is the configured one: every repository is set and the runtime is the
    Kubernetes controller, which satisfies every optional interface.  Secrets
    live in the vault; its operations are those of Vault. *)

From S2P Require Import Prelude GoStrings Regexp Sha256 GoJson GoTime Appconfig Db DbRepos DbCandidates Security Vault Activation Candidate CandidateOps.
From Stdlib Require Import Ascii String.
Local Open Scope Z_scope.

(** [status.Error] *)
Definition precondition (msg : string) : error := ErrStatus FailedPrecondition msg.
Definition internal (msg : string) : error := ErrStatus Internal msg.

(** Messages of the API. *)
Record DeployAppRequest := MkDeployAppRequest { dar_DeployerYaml : string; dar_RequestID : string; dar_ReportWithdrawal : bool }.
Record DeployRequestMetadata := MkDeployRequestMetadata {
  meta_AppName : string; meta_RequestID : string; meta_State : string; meta_RequestedState : string;
  meta_Result : option DeployAppResponse }.

(** node.go: the zero time is the empty text. *)
Definition formatProtoTime (t : Z) : string := if IsZero t then "" else formatTime t.

(** What a handler takes from its context and the process: who calls, whether the
    context is done, the outcome of [acquireOperation], the clock of the service
    at its two readings, the clock of the repositories and what [rand.Read]
    delivers for the two identifiers. *)
Record call_env := MkCall {
  ce_caller : option CallerKind; ce_cancelled : bool; ce_lock : result unit; ce_begin : Z; ce_complete : Z; ce_repo : Z;
  ce_app_raw : option (list Z); ce_deploy_raw : option (list Z) }.

Section handlers.
Context `{KubeTypes} `{AppEnv} `{AEAD}.

(** The rest of the controller's interface, and where the secrets are. *)
Class CandidateServices (K : Type) := {
  sv_vault : K -> vault;
  sv_set_vault : vault -> K -> K;
  sv_PrepareCandidateDependencies : Config -> gmap string string -> string -> string -> option Credential -> K -> result string * K;
  sv_CheckCandidateDeletion : string -> K -> result unit * K;
  sv_RetireLegacyCandidatePredecessor : ActivationGate -> K -> result bool * K;
  sv_PreflightHosting : Config -> K -> result unit * K;
  sv_BeginCandidateDeletion : Config -> string -> bool -> K -> result ActivationGate * K;
  sv_CleanupCandidateDeletion : ActivationGate -> string -> K -> result bool * K;
  sv_FinishCandidateDeletion : ActivationGate -> string -> K -> result unit * K
}.

Context {K : Type} `{!CandidateRuntime K} `{!CandidateServices K}.
Notation R := (M (rt K)).

Definition on_vault {A} (m : ST vault A) (k : K) : result A * K := let '(r, v) := m (sv_vault k) in (r, sv_set_vault v k).

Definition PrepareDependencies c vs s q cr : R _ := invoke (EDependencies c vs s q cr) (sv_PrepareCandidateDependencies c vs s q cr).
Definition CheckDeletion app : R _ := invoke (EDeletionCheck app) (sv_CheckCandidateDeletion app).
Definition RetireLegacy g : R _ := invoke (ERetireLegacy g) (sv_RetireLegacyCandidatePredecessor g).
Definition Preflight c : R _ := invoke (EPreflight c) (sv_PreflightHosting c).
Definition ResolveEnvironment app rev : R _ := invoke (EEnvironment app rev) (on_vault (resolveEnvironmentBundle app rev)).
Definition ResolveRegistry app rev img : R _ := invoke (ERegistry app rev img) (on_vault (ResolveRegistryCredential app rev img)).
Definition BeginDeletion c id del : R _ := invoke (EBeginDeletion c id del) (sv_BeginCandidateDeletion c id del).
Definition CleanupDeletion g id : R _ := invoke (ECleanup g id) (sv_CleanupCandidateDeletion g id).
Definition FinishDeletion g id : R _ := invoke (EFinish g id) (sv_FinishCandidateDeletion g id).
Definition ForgetCredentials app : R _ := invoke (EForgetCredentials app) (on_vault (RegistryCredentialRepository_DeleteByApp app)).
Definition ForgetBundles app : R _ := invoke (EForgetBundles app) (on_vault (EnvironmentBundleRepository_DeleteByApp app)).

(** [if err != nil { return status.Error(...) }] *)
Definition or_else {A} (e : error) (m : R A) : R A := map_err (fun _ => e) m.

(** ** app.go *)

Definition GetDeployRequest (caller : option CallerKind) (app requestID : string) : R DeployRequestMetadata :=
  _ ← lift (requireCaller caller CallerAdmin);
  _ ← guard (blank app || negb (ValidRevision requestID)) (ErrStatus InvalidArgument "invalid deployment request identity");
  record ← map_err (fun e => if errors_Is e ErrNotFound then ErrStatus NotFound "deployment request not found"
                             else internal "read deployment request") (DeploymentRequestRepository_Find app requestID);
  let metadata := MkDeployRequestMetadata (Req_AppName record) (Req_RequestID record) (Req_State record) (Req_RequestedState record) in
  if String.eqb (Req_ResponseJSON record) "" then mret (metadata None)
  else
    match unmarshalReply (Req_ResponseJSON record) with
    | Some response => mret (metadata (Some response))
    | None => throw (internal "stored deployment result is invalid")
    end.

Definition protoApp (app : App) : result PbApp :=
  match FromJSON (App_DesiredStateJSON app) with
  | Err e => Err (ErrWrap "decode desired state for app %q: %w" [AStr (App_Name app)] e)
  | Ok cfg => Ok (MkPbApp (App_ID app) (App_Name app) (App_Image app) (wrap_i32 (Deploy_Replicas (Cfg_Deploy cfg)))
                    (App_DesiredStateJSON app) (formatProtoTime (App_CreatedAt app)) (formatProtoTime (App_UpdatedAt app)))
  end.

Definition preflightHosting (cfg : Config) : R unit :=
  if bool_decide (Cfg_Hosting cfg = None) && bool_decide (Cfg_Storage cfg = None) then mret tt
  else or_else (precondition "application runtime preflight: %v") (Preflight cfg).

(** ** registry_credentials.go *)

Definition resolveRuntimeRegistry (cfg : Config) : R (option Credential) :=
  if String.eqb (Cfg_ImagePullCredential cfg) "" then mret None
  else
    c ← ResolveRegistry (Cfg_Name cfg) (Cfg_ImagePullCredential cfg) (Cfg_Image cfg);
    _ ← guard (negb (is_ok (Credential_ValidateFor c (Cfg_Name cfg) (Cfg_ImagePullCredential cfg) (Cfg_Image cfg))))
          (precondition "invalid registry credential binding");
    mret (Some c).

(** ** candidate_deletion.go: the admission barrier *)

Definition checkCandidateDeletion (app : string) : R unit :=
  or_else (precondition "app deletion is pending or its status cannot be confirmed") (CheckDeletion app).

(** ** candidate_submission.go: preparation *)

(** [apierrors.IsNotFound(err) && record.PreviousAppID == ""]: create the inactive
    Service and look again. *)
Definition captureOrCreate (record : DeployRequest) (cfg : Config) : R (ActivationGate * ActivationTarget) :=
  found ← attempt (Capture (Cfg_Name cfg));
  let missing := match found with Err e => IsNotFound e && String.eqb (Req_PreviousAppID record) "" | Ok _ => false end in
  found ←
    (if missing then
       _ ← or_else (precondition "candidate bootstrap unconfirmed; inspect request before retrying") (CreateInactive cfg (Req_RequestID record));
       attempt (Capture (Cfg_Name cfg))
     else mret found);
  match found with
  | Ok gt => mret gt
  | Err _ => throw (precondition "candidate traffic target is unavailable")
  end.

(** The captured target: valid, and without a predecessor the inactive one of
    this request or of a safely withdrawn one. *)
Definition checkInitialTarget (record : DeployRequest) (cfg : Config) (gate : ActivationGate) (target : ActivationTarget) : R unit :=
  _ ← guard (negb (validInitialCapture gate target (Cfg_Name cfg))) (precondition "candidate traffic target is invalid");
  if String.eqb (Req_PreviousAppID record) "" && negb (IsInactiveCandidateTarget cfg (Req_RequestID record) target) then
    _ ← or_else (precondition "initial candidate service is not a safely reusable withdrawn target")
          (reuseWithdrawnInitialCandidate record cfg gate target);
    mret tt
  else mret tt.

Definition checkPredecessor (record : DeployRequest) (cfg : Config) : R unit :=
  if negb (String.eqb (Req_PreviousAppID record) "") then
    match FromJSON (Req_PreviousState record) with
    | Ok previous =>
        guard (negb (config_ok previous (Cfg_Name cfg)) ||
               negb (Service_Port (Cfg_Service previous) =? Service_Port (Cfg_Service cfg)))
          (precondition "candidate predecessor is invalid or port change is unsupported")
    | Err _ => throw (precondition "candidate predecessor is invalid or port change is unsupported")
    end
  else mret tt.

Definition resolveValues (cfg : Config) : R (gmap string string) :=
  if String.eqb (Cfg_EnvironmentRevision cfg) "" then mret ∅
  else ResolveEnvironment (Cfg_Name cfg) (Cfg_EnvironmentRevision cfg).

Definition prepareCandidateRequest (record : DeployRequest) (cfg : Config) : R unit :=
  found ← attempt (RuntimeCheckpointRepository_Find (Req_AppName record) (Req_RequestID record));
  match found with
  | Ok _ => mret tt
  | Err e =>
      _ ← guard (negb (errors_Is e ErrNotFound)) (internal "read candidate preparation");
      values ← resolveValues cfg;
      credential ← resolveRuntimeRegistry cfg;
      _ ← or_else (precondition "candidate dependencies could not be prepared; request remains pending")
            (PrepareDependencies cfg values (Cfg_EnvironmentRevision cfg) (Req_RequestID record) credential);
      '(gate, target) ← captureOrCreate record cfg;
      _ ← checkInitialTarget record cfg gate target;
      checkPredecessor record cfg
  end.

(** ** candidate_capacity.go *)

(** A saved generation with its configuration. *)
Definition generation_config (app appID : string) (generation : CandidateGeneration) : option Config :=
  if negb (String.eqb (Gen_AppName generation) app) || negb (String.eqb (Gen_AppID generation) appID) ||
     negb (ValidRevision (Gen_RequestID generation)) ||
     (negb (String.eqb (Gen_State generation) "applied") && negb (String.eqb (Gen_State generation) "withdrawn")) then None
  else
    match FromJSON (Gen_RequestedState generation) with
    | Ok c =>
        if negb (config_ok c app) || bool_decide (Cfg_Hosting c = None) || negb (String.eqb (State_Mode (Cfg_State c)) DefaultStateMode) ||
           negb (is_ok (ValidateCandidateReferences c (Cfg_EnvironmentRevision c) (CandidateRegistrySecretName c))) then None
        else Some c
    | Err _ => None
    end.

(** The first loop: every generation is complete, and the selected one is the
    applied request. *)
Fixpoint generationConfigs (app appID requestID requestedState : string) (l : list CandidateGeneration)
    : option (list (CandidateGeneration * Config) * bool) :=
  match l with
  | [] => Some ([], false)
  | g :: l' =>
      match generation_config app appID g with
      | None => None
      | Some c =>
          let selected := String.eqb (Gen_RequestID g) requestID in
          if selected && (negb (String.eqb (Gen_State g) "applied") || negb (String.eqb (Gen_RequestedState g) requestedState)) then None
          else
            match generationConfigs app appID requestID requestedState l' with
            | None => None
            | Some (configs, found) => Some ((g, c) :: configs, selected || found)
            end
      end
  end.

Definition cleanup_pending : error := precondition "release is applied; earlier workload cleanup is pending, retry advance".
Definition or_fail {A} (m : R A) : R A := or_else cleanup_pending m.
Definition fail_if (bad : bool) : R unit := guard bad cleanup_pending.

Definition RetireGeneration (g : CandidateGeneration) (c : Config) : R unit :=
  Retire c (Cfg_EnvironmentRevision c) (Gen_RequestID g) (CandidateRegistrySecretName c).
Definition GenerationRetired (g : CandidateGeneration) (c : Config) : R bool :=
  Retired c (Cfg_EnvironmentRevision c) (Gen_RequestID g) (CandidateRegistrySecretName c).

(** The second loop: retire every other generation, each under the same gate. *)
Fixpoint retireOthers (app requestID : string) (gate : ActivationGate) (l : list (CandidateGeneration * Config)) : R unit :=
  match l with
  | [] => mret tt
  | (g, c) :: l' =>
      if String.eqb (Gen_RequestID g) requestID then retireOthers app requestID gate l'
      else
        '(observed, _) ← or_fail (Capture app);
        _ ← fail_if (negb (bool_decide (observed = gate)));
        _ ← or_fail (RetireGeneration g c);
        retireOthers app requestID gate l'
  end.

(** The third loop: have they all gone? *)
Fixpoint othersGone (requestID : string) (l : list (CandidateGeneration * Config)) (allGone : bool) : R bool :=
  match l with
  | [] => mret allGone
  | (g, c) :: l' =>
      if String.eqb (Gen_RequestID g) requestID then othersGone requestID l' allGone
      else
        gone ← or_fail (GenerationRetired g c);
        othersGone requestID l' (allGone && gone)
  end.

(** From the check of the deletion barrier on: the applied request is current. *)
Definition reclaimSelected (app requestID : string) (request : DeployRequest) (binding : CandidateBinding) : R unit :=
  _ ← or_fail (CheckDeletion app);
  '(gate, target) ← or_fail (Capture app);
  selected ← or_fail (lift (CandidateSelector app requestID));
  if negb (String.eqb (Gate_OperationID gate) requestID) || negb (bool_decide (selector_of target = selected)) then mret tt
  else
    cfg ← or_fail (lift (FromJSON (Req_RequestedState request)));
    _ ← fail_if (negb (config_ok cfg app));
    ready ← or_fail (TargetReady gate target cfg);
    _ ← fail_if (negb ready);
    generations ← or_fail (CandidateBindingRepository_GenerationsByApp app (Bind_AppID binding));
    match generationConfigs app (Bind_AppID binding) requestID (Req_RequestedState request) generations with
    | None => throw cleanup_pending
    | Some (configs, selectedFound) =>
        _ ← fail_if (negb selectedFound);
        _ ← retireOthers app requestID gate configs;
        legacyGone ← or_fail (RetireLegacy gate);
        allGone ← othersGone requestID configs legacyGone;
        '(after, _) ← or_fail (Capture app);
        fail_if (negb (bool_decide (after = gate)) || negb allGone)
    end.

Definition reclaimCandidateCapacity (app requestID : string) : R unit :=
  request ← or_fail (DeploymentRequestRepository_Find app requestID);
  _ ← fail_if (negb (String.eqb (Req_AppName request) app) || negb (String.eqb (Req_RequestID request) requestID));
  if negb (String.eqb (Req_State request) "applied") then mret tt
  else
    binding ← or_fail (CandidateBindingRepository_Find app requestID);
    _ ← fail_if (negb (String.eqb (Bind_AppName binding) app) || negb (String.eqb (Bind_RequestID binding) requestID));
    current ← or_fail (AppRepository_FindByID (Bind_AppID binding));
    if bool_decide (is_Some (App_DeletedAt current)) || negb (String.eqb (App_Name current) app) ||
       negb (String.eqb (App_DesiredStateJSON current) (Req_RequestedState request)) then mret tt
    else
      pending ← attempt (DeploymentRequestRepository_PendingByApp app);
      match pending with
      | Ok _ => mret tt
      | Err e =>
          _ ← fail_if (negb (errors_Is e ErrNotFound));
          reclaimSelected app requestID request binding
      end.

(** ** candidate_requests.go *)

Section call.
Variable call : call_env.
Variable routeTLSEnabled enableCandidateOperations : bool.

(** The decision to withdraw is durable before anything is restored; an advance
    is refused once there is one. *)
Definition decideOutcome (request : DeployRequest) (binding : CandidateBinding) (recover : bool) : R unit :=
  if recover then
    _ ← or_else (precondition "could not persist deployment withdrawal decision")
          (CandidateBindingRepository_BeginWithdrawal request (Bind_AppID binding) (Bind_DeploymentID binding) (ce_begin call));
    mret tt
  else rejectRequestedWithdrawal (Req_AppName request) (Req_RequestID request).

(** Without a checkpoint: prepare; with one: its identity and, to advance, its stage. *)
Definition prepareOrResume (request : DeployRequest) (cfg : Config) (recover : bool) : R unit :=
  found ← attempt (RuntimeCheckpointRepository_Find (Req_AppName request) (Req_RequestID request));
  match found with
  | Err e =>
      if errors_Is e ErrNotFound then
        if recover then or_else (precondition "candidate recovery preparation remains unconfirmed")
                          (prepareUnstartedRecovery (ce_repo call) request cfg)
        else prepareCandidateRequest request cfg
      else throw (precondition "candidate preparation is incomplete; operator review required")
  | Ok checkpoint =>
      _ ← guard (negb (String.eqb (Chk_AppName checkpoint) (Req_AppName request)) ||
                 negb (String.eqb (Chk_RequestID checkpoint) (Req_RequestID request)))
            (precondition "candidate checkpoint identity is invalid");
      guard (negb recover && negb (String.eqb (Chk_Stage checkpoint) "fenced") && negb (String.eqb (Chk_Stage checkpoint) "activated"))
        (precondition "candidate cannot advance from this stage; recovery or operator review required")
  end.

Definition advanceRequest (request : DeployRequest) (cfg : Config) : R ActivationGate :=
  AdvanceCandidateOperation (ce_repo call) (Req_AppName request) (Req_RequestID request) cfg (Cfg_EnvironmentRevision cfg)
    (CandidateRegistrySecretName cfg).

(** Complete with the outcome, then reclaim what an applied one replaces. *)
Definition completeRequest (request : DeployRequest) (recover : bool) : R unit :=
  _ ← or_else (precondition "candidate outcome remains unconfirmed; inspect request before retrying")
        (CompleteCandidateOperation (ce_repo call) (ce_cancelled call) (Req_AppName request) (Req_RequestID request)
           (if recover then "withdrawn" else "applied") routeTLSEnabled (ce_complete call));
  if recover then mret tt else reclaimCandidateCapacity (Req_AppName request) (Req_RequestID request).

Definition mutatePending (app requestID : string) (request : DeployRequest) (binding : CandidateBinding) (recover : bool)
    : R DeployRequestMetadata :=
  _ ← decideOutcome request binding recover;
  match FromJSON (Req_RequestedState request) with
  | Err _ => throw (precondition "candidate configuration is invalid")
  | Ok cfg =>
      _ ← guard (negb (is_ok (Validate cfg))) (precondition "candidate configuration is invalid");
      _ ← prepareOrResume request cfg recover;
      ready ←
        (if recover then mret true
         else
           advanced ← attempt (advanceRequest request cfg);
           match advanced with
           | Ok _ => mret true
           | Err e => if errors_Is e ErrCandidateNotReady then mret false
                      else throw (precondition "candidate could not advance; inspect request or recover")
           end);
      if negb ready then GetDeployRequest (ce_caller call) app requestID
      else
        _ ← completeRequest request recover;
        GetDeployRequest (ce_caller call) app requestID
  end.

Definition mutateCandidateRequestLocked (app requestID : string) (recover : bool) : R DeployRequestMetadata :=
  binding ← map_err (fun e => if errors_Is e ErrNotFound then precondition "request is not a prepared candidate"
                              else internal "read candidate binding") (CandidateBindingRepository_Find app requestID);
  _ ← guard (negb (String.eqb (Bind_AppName binding) app) || negb (String.eqb (Bind_RequestID binding) requestID) ||
             String.eqb (Bind_AppID binding) "" || String.eqb (Bind_DeploymentID binding) "") (precondition "candidate binding is invalid");
  request ← or_else (internal "read candidate request") (DeploymentRequestRepository_Find app requestID);
  _ ← guard (negb (String.eqb (Req_AppName request) app) || negb (String.eqb (Req_RequestID request) requestID))
        (precondition "candidate request identity is invalid");
  let outcome := if recover then "withdrawn" else "applied" in
  if negb (String.eqb (Req_State request) "pending") then
    _ ← guard (negb (String.eqb (Req_State request) outcome)) (precondition "request already completed with a different outcome");
    _ ← (if recover then mret tt else reclaimCandidateCapacity (Req_AppName request) (Req_RequestID request));
    GetDeployRequest (ce_caller call) app requestID
  else mutatePending app requestID request binding recover.

Definition mutateCandidateRequest (app requestID : string) (recover : bool) : R DeployRequestMetadata :=
  _ ← lift (requireCaller (ce_caller call) CallerAdmin);
  _ ← guard (blank app || negb (ValidRevision requestID)) (ErrStatus InvalidArgument "app_name and valid request_id are required");
  _ ← guard (negb enableCandidateOperations) (precondition "candidate operations are disabled or not configured");
  _ ← lift (ce_lock call);
  mutateCandidateRequestLocked app requestID recover.

Definition AdvanceDeployRequest (app requestID : string) : R DeployRequestMetadata := mutateCandidateRequest app requestID false.
Definition RecoverDeployRequest (app requestID : string) : R DeployRequestMetadata := mutateCandidateRequest app requestID true.

(** ** candidate_submission.go: submission *)

(** Missing credentials, environment and known capacity failures are refused
    before a new request is accepted. *)
Definition admitNew (cfg : Config) (requestID : string) : R unit :=
  found ← attempt (DeploymentRequestRepository_Find (Cfg_Name cfg) requestID);
  match found with
  | Ok _ => mret tt
  | Err e =>
      _ ← guard (negb (errors_Is e ErrNotFound)) (internal "read candidate request");
      _ ← resolveValues cfg;
      _ ← resolveRuntimeRegistry cfg;
      preflightHosting cfg
  end.

Definition new_request (cfg : Config) (requestID requested : string) (report : bool) : DeployRequest :=
  MkDeployRequest (Cfg_Name cfg) requestID "pending" requested "" "" report "" (ce_begin call) (ce_begin call).

(** A hosted, stateless configuration without inline secrets. *)
Definition submittable (cfg : Config) : bool :=
  negb (bool_decide (Cfg_Hosting cfg = None)) && String.eqb (State_Mode (Cfg_State cfg)) DefaultStateMode &&
  bool_decide (Cfg_Secrets cfg = []).

(** The reply to a request that is still pending. *)
Definition pendingReply (binding : CandidateBinding) (requested : string) : R DeployAppResponse :=
  app ← or_else (internal "read pending candidate app") (AppRepository_FindByID (Bind_AppID binding));
  appProto ← lift (protoApp app);
  let created := formatProtoTime (Bind_CreatedAt binding) in
  mret (MkDeployAppResponse (Some appProto)
          (Some (MkPbDeployment (Bind_DeploymentID binding) (Bind_AppID binding) "pending" "" created created)) false requested).

(** Advance the prepared request and, if it is ready, complete it. *)
Definition advanceSubmission (cfg : Config) (requestID : string) : R (option DeployAppResponse) :=
  advanced ← attempt (AdvanceCandidateOperation (ce_repo call) (Cfg_Name cfg) requestID cfg (Cfg_EnvironmentRevision cfg)
                        (CandidateRegistrySecretName cfg));
  match advanced with
  | Err e => if errors_Is e ErrCandidateNotReady then mret None
             else throw (precondition "candidate request remains pending; inspect or recover before retrying")
  | Ok _ =>
      result ← or_else (precondition "candidate outcome remains unconfirmed; inspect request before retrying")
                 (CompleteCandidateOperation (ce_repo call) (ce_cancelled call) (Cfg_Name cfg) requestID "applied" routeTLSEnabled
                    (ce_complete call));
      match result with
      | None => mret None
      | Some reply =>
          _ ← reclaimCandidateCapacity (Cfg_Name cfg) requestID;
          mret (Some reply)
      end
  end.

(** From the stored record on. *)
Definition continueSubmission (cfg : Config) (requestID requested : string) (binding : CandidateBinding) : R DeployAppResponse :=
  record ← or_else (internal "read candidate request") (DeploymentRequestRepository_Find (Cfg_Name cfg) requestID);
  if negb (String.eqb (Req_State record) "pending") then
    _ ← (if String.eqb (Req_State record) "applied" then reclaimCandidateCapacity (Req_AppName record) (Req_RequestID record) else mret tt);
    lift (decodeCandidateReply (Req_ResponseJSON record))
  else
    _ ← rejectRequestedWithdrawal (Req_AppName record) (Req_RequestID record);
    _ ← prepareCandidateRequest record cfg;
    result ← advanceSubmission cfg requestID;
    match result with
    | Some reply => mret reply
    | None => pendingReply binding requested
    end.

Definition deployCandidateApp (cfg : Config) (requestID : string) (report : bool) : R DeployAppResponse :=
  _ ← guard (negb (submittable cfg))
        (ErrStatus InvalidArgument "candidate submission requires hosted stateless configuration and versioned environment settings");
  requested ← or_else (internal "encode candidate configuration") (lift (Config_JSON cfg));
  _ ← admitNew cfg requestID;
  appID ← lift (newID "app" (ce_app_raw call));
  deploymentID ← lift (newID "deploy" (ce_deploy_raw call));
  '(binding, _) ← or_else (precondition "candidate request conflicts with an existing request or app")
                    (CandidateBindingRepository_Begin (new_request cfg requestID requested report) appID deploymentID (ce_begin call));
  continueSubmission cfg requestID requested binding.

(** ** candidate_withdrawal.go *)

(** [decode]: the YAML decoder, which refuses unknown fields. *)
Definition WithdrawDeployRequest (decode : string -> result Config) (req : DeployAppRequest) : R DeployRequestMetadata :=
  _ ← lift (requireCaller (ce_caller call) CallerAdmin);
  _ ← guard (negb (ValidRevision (dar_RequestID req)) || negb (dar_ReportWithdrawal req))
        (ErrStatus InvalidArgument "valid request_id and report_withdrawal are required");
  match Parse decode (dar_DeployerYaml req) with
  | Err _ => throw (ErrStatus InvalidArgument "withdrawal requires the original hosted stateless deployment configuration")
  | Ok cfg =>
      _ ← guard (negb (submittable cfg)) (ErrStatus InvalidArgument "withdrawal requires the original hosted stateless deployment configuration");
      _ ← guard (negb enableCandidateOperations) (precondition "candidate withdrawal is disabled or not configured");
      _ ← lift (ce_lock call);
      _ ← checkCandidateDeletion (Cfg_Name cfg);
      requested ← or_else (internal "encode withdrawal configuration") (lift (Config_JSON cfg));
      appID ← lift (newID "app" (ce_app_raw call));
      deploymentID ← lift (newID "deploy" (ce_deploy_raw call));
      _ ← or_else (precondition "withdrawal conflicts with an existing deployment or request")
            (CandidateBindingRepository_BeginWithdrawal (new_request cfg (dar_RequestID req) requested true) appID deploymentID (ce_begin call));
      record ← or_else (internal "read withdrawal request") (DeploymentRequestRepository_Find (Cfg_Name cfg) (dar_RequestID req));
      if negb (String.eqb (Req_State record) "pending") then GetDeployRequest (ce_caller call) (Cfg_Name cfg) (dar_RequestID req)
      else mutateCandidateRequestLocked (Cfg_Name cfg) (dar_RequestID req) true
  end.

(** ** candidate_deletion.go *)

Fixpoint deletionConfigs (app appID : string) (l : list CandidateGeneration) : result (list (CandidateGeneration * Config)) :=
  match l with
  | [] => Ok []
  | g :: l' =>
      _ ← check (negb (String.eqb (Gen_AppName g) app) || negb (String.eqb (Gen_AppID g) appID) ||
                 negb (ValidRevision (Gen_RequestID g)) ||
                 (negb (String.eqb (Gen_State g) "applied") && negb (String.eqb (Gen_State g) "withdrawn")))
            (precondition "candidate history is incomplete");
      c ← (match generation_config app appID g with
           | Some c => Ok c
           | None => Err (precondition "candidate generation configuration is invalid")
           end);
      rest ← deletionConfigs app appID l';
      Ok ((g, c) :: rest)
  end.

Fixpoint retireAll (l : list (CandidateGeneration * Config)) : R unit :=
  match l with
  | [] => mret tt
  | (g, c) :: l' =>
      _ ← or_else (precondition "candidate retirement remains pending; retry deletion") (RetireGeneration g c);
      retireAll l'
  end.

Fixpoint awaitAll (l : list (CandidateGeneration * Config)) : R unit :=
  match l with
  | [] => mret tt
  | (g, c) :: l' =>
      retired ← or_else (precondition "candidate workloads are draining; retry deletion") (GenerationRetired g c);
      _ ← guard (negb retired) (precondition "candidate workloads are draining; retry deletion");
      awaitAll l'
  end.

(** From the confirmed cleanup on: routes, secrets, the app, the marker. *)
Definition forgetApp (name : string) (app : App) (gate : ActivationGate) : R PbApp :=
  _ ← or_else (internal "delete candidate routes") (RouteRepository_DeleteByApp (App_ID app));
  _ ← or_else (internal "delete candidate registry credentials") (ForgetCredentials name);
  _ ← or_else (internal "delete candidate environment settings") (ForgetBundles name);
  app ← (if bool_decide (App_DeletedAt app = None) then
           or_else (internal "mark candidate app deleted") (AppRepository_MarkDeleted name (ce_begin call))
         else mret app);
  _ ← or_else (precondition "final candidate cleanup remains pending; retry deletion") (FinishDeletion gate (App_ID app));
  or_else (internal "decode deleted candidate app") (lift (protoApp app)).

Definition deleteGenerations (name : string) (app : App) (generations : list CandidateGeneration) : R PbApp :=
  match FromJSON (App_DesiredStateJSON app) with
  | Err _ => throw (precondition "candidate app configuration is invalid")
  | Ok cfg =>
      _ ← guard (negb (config_ok cfg name) || negb (String.eqb (State_Mode (Cfg_State cfg)) DefaultStateMode))
            (precondition "candidate app configuration is invalid");
      configs ← lift (deletionConfigs name (App_ID app) generations);
      gate ← or_else (precondition "candidate deletion fence is unconfirmed; retry deletion")
               (BeginDeletion cfg (App_ID app) (negb (bool_decide (App_DeletedAt app = None))));
      _ ← retireAll configs;
      _ ← awaitAll configs;
      clean ← or_else (precondition "candidate resources are being removed; retry deletion") (CleanupDeletion gate (App_ID app));
      _ ← guard (negb clean) (precondition "candidate resources are being removed; retry deletion");
      forgetApp name app gate
  end.

(** [None]: not an app with candidates, the caller goes on with the legacy path. *)
Definition tryDeleteCandidateApp (name : string) : R (option PbApp) :=
  found ← attempt (AppRepository_FindByName name);
  match found with
  | Err e => if errors_Is e ErrNotFound then mret None else throw (internal "read app for deletion")
  | Ok app =>
      generations ← or_else (internal "read candidate generations") (CandidateBindingRepository_GenerationsByApp name (App_ID app));
      if bool_decide (generations = []) then mret None
      else
        _ ← guard (negb enableCandidateOperations) (precondition "candidate deletion is not enabled or configured");
        response ← deleteGenerations name app generations;
        mret (Some response)
  end.
End call.
End handlers.
