(* ===== verification/RequestLogic.v ===== *)
(** * Reasoning about the request handlers

    [calls I P m]: started in a database that satisfies the invariant and [I],
    the handler [m] stays in such databases, and every call it makes to the
    runtime or the vault satisfies [P] in the database of that moment, whatever
    the replies and whichever driver calls fail. *)

From S2P Require Import Prelude GoStrings Regexp Sha256 GoJson GoTime Appconfig Db DbRepos DbCandidates DbInv DbSteps DbEffects Security Vault Activation Candidate CandidateOps CandidateLogic CandidateProps CandidateRequests.
From Stdlib Require Import Ascii String.
Local Open Scope Z_scope.

(** ** Begin *)

(** The request is journaled and bound to its app and deployment. *)
Definition bound (key : string * string) (d : Db) : Prop := is_Some (t_requests d !! key) /\ is_Some (t_bindings d !! key).

(** The decision to withdraw is journaled. *)
Definition withdrawing (key : string * string) (d : Db) : Prop := is_Some (t_withdrawals d !! key).

Section begin.
Context `{AppEnv} {K : Type}.

Lemma withdrawal_if_pending_done key at_ d d' n :
  insert_withdrawal_if_pending key at_ d = Ok (d', n) ->
  t_requests d' = t_requests d /\ t_bindings d' = t_bindings d /\ (pending_in key d -> withdrawing key d').
Proof.
  unfold insert_withdrawal_if_pending, pending_in, withdrawing. destruct (t_requests d !! key) as [q|] eqn:Hq.
  - destruct (String.eqb_spec (qr_state q) "pending") as [E|E]; cbn [andb].
    + case_bool_decide as Hw; cbn [negb]; intros [= <- <-]; [done|]. cbn. rewrite lookup_insert_eq. by eauto.
    + intros [= <- <-]. split; [done|]. split; [done|]. intros (q' & Hq' & Hp). simplify_eq.
  - intros [= <- <-]. split; [done|]. split; [done|]. by intros (q' & ? & _).
Qed.

(** What a successful [Begin] or [BeginWithdrawal] leaves. *)
Definition begun (key : string * string) (withdrawal : bool) (d d' : Db) : Prop :=
  bound key d' /\ (withdrawal = true -> pending_in key d' -> withdrawing key d') /\ (pending_in key d -> pending_in key d').

Lemma begin_existing_begun req b now withdrawal d :
  t_bindings d !! request_key req = Some b ->
  wp (begin_existing req b now withdrawal) d d (fun r d' _ => forall x, r = Ok x -> begun (request_key req) withdrawal d d').
Proof.
  intros Hb. unfold begin_existing. cbv zeta. fold (request_key req). apply wp_bind, wp_query; [done|].
  destruct (t_requests d !! request_key req) as [q|] eqn:Hq; [|by apply wp_throw].
  apply wp_bind, wp_guard; intros G; [done|]. apply wp_bind, wp_lift. destruct (scanBinding b); [|done].
  assert (Hbd : bound (request_key req) d) by (split; by eexists).
  destruct withdrawal; [|apply wp_ret; intros x _; by split_and!].
  apply wp_bind, wp_exec; [done|]. intros d1 n1 (E1 & E2 & Hw)%withdrawal_if_pending_done.
  apply wp_bind, wp_commit; [done|done|]. apply wp_ret. intros x _. unfold begun, bound, pending_in. rewrite E1, E2.
  split; [done|]. split; [|done]. intros _ Hp. by apply Hw.
Qed.

Lemma begin_begun req proposed depID now withdrawal (w : world K) r w' :
  db_inv (w_db w) -> beginCandidate req proposed depID now withdrawal w = (r, w') ->
  w_k w' = w_k w /\ db_inv (w_db w') /\ forall x, r = Ok x -> begun (request_key req) withdrawal (w_db w) (w_db w').
Proof.
  intros Hi Hf. destruct (safe_beginCandidate req proposed depID now withdrawal w r w' Hi Hf) as [Hs Hk].
  split; [done|]. split; [by eapply safe_steps_inv|]. unfold beginCandidate in Hf.
  apply st_bind_inv in Hf as [(e & _ & ->)|(u & w1 & [= _ <-] & Hf)]; [done|].
  apply st_bind_inv in Hf as [(e & _ & ->)|(cfg & w1 & [= Hcfg <-] & Hf)]; [done|].
  apply (in_tx_wp _ w (fun r d' => forall x, r = Ok x -> begun (request_key req) withdrawal (w_db w) d')) in Hf as [Hp _]; [exact Hp|done|].
  apply wp_bind, wp_query; [done|]. destruct (t_bindings (w_db w) !! (Req_AppName req, Req_RequestID req)) as [b|] eqn:Hb.
  - by apply begin_existing_begun.
  - eapply wp_mono; [by apply begin_new_effect|]. intros r' d' _ [[_ He]|(b & Hbg & _)] x ->; [done|].
    destruct Hbg as [appID apps Hnone _ _ _ _ _]. split; [|split].
    + split; cbn; rewrite lookup_insert_eq; by eexists.
    + intros -> _. unfold withdrawing. cbn. rewrite lookup_insert_eq. by eexists.
    + intros (q & Hq & _). congruence.
Qed.

(** A decision recorded before [Begin] of the same request is still there. *)
Lemma begin_keeps_journal req proposed depID now withdrawal (w : world K) r w' :
  db_inv (w_db w) -> beginCandidate req proposed depID now withdrawal w = (r, w') -> journal_le (w_db w) (w_db w').
Proof. intros Hi Hf. apply safe_steps_journal. by apply (safe_beginCandidate req proposed depID now withdrawal w r w'). Qed.
End begin.

(** ** The calculus *)

Section calls.
Context `{KubeTypes} `{AppEnv} {K : Type} `{!CandidateRuntime K}.
Notation R := (M (rt K)).
Context (I : Db -> Prop) (P : rt_event -> Db -> Prop).

Definition calls {A} (m : R A) : Prop := forall d log, db_inv d -> I d ->
  mwp m d log (fun _ d' log' => db_inv d' /\ I d' /\ grown P log log').

Section rules.
Context {A B : Type}.

Lemma calls_lift (r : result A) : calls (lift r).
Proof. intros d log Hi HI. apply mwp_lift. auto using grown_refl. Qed.

Lemma calls_ret (a : A) : calls (mret a).
Proof. apply calls_lift. Qed.

Lemma calls_throw e : calls (throw e : R A).
Proof. apply calls_lift. Qed.

Lemma calls_query (f : Db -> A) : calls (db_query f).
Proof. intros d log Hi HI. apply mwp_query; auto using grown_refl. Qed.

Lemma calls_invoke ev (f : K -> result A * K) : (forall r d, I d -> P (ev r) d) -> calls (invoke ev f).
Proof. intros HP d log Hi HI. apply mwp_invoke. intros r. split; [done|]. split; [done|]. apply grown_snoc; [apply grown_refl|by apply HP]. Qed.

Lemma calls_bind (m : R A) (f : A -> R B) : calls m -> (forall a, calls (f a)) -> calls (mbind f m).
Proof.
  intros Hm Hf d log Hi HI. apply mwp_bind. eapply mwp_mono; [by apply Hm|]. intros [a|e] d1 log1 (Hi1 & HI1 & G1); [|done].
  eapply mwp_mono; [by apply Hf|]. intros r d2 log2 (Hi2 & HI2 & G2). split; [done|]. split; [done|by eapply grown_trans].
Qed.

Lemma calls_map_err g (m : R A) : calls m -> calls (map_err g m).
Proof. intros Hm d log Hi HI. apply mwp_map_err. by apply Hm. Qed.

Lemma calls_attempt (m : R A) : calls m -> calls (attempt m).
Proof. intros Hm d log Hi HI. apply mwp_attempt. by apply Hm. Qed.

Lemma calls_find_one {R0} (select : Db -> option R0) (scan : R0 -> result A) : calls (find_one select scan).
Proof. intros d log Hi HI. apply mwp_find_one; auto using grown_refl. Qed.
End rules.

Lemma calls_guard b e : calls (guard b e).
Proof. apply calls_lift. Qed.

Lemma calls_find_checkpoint app id : calls (RuntimeCheckpointRepository_Find app id).
Proof. unfold RuntimeCheckpointRepository_Find. apply calls_bind; [apply calls_lift|intros _; apply calls_find_one]. Qed.

Lemma calls_find_binding app id : calls (CandidateBindingRepository_Find app id).
Proof. unfold CandidateBindingRepository_Find. apply calls_bind; [apply calls_guard|intros _; apply calls_find_one]. Qed.

(** Writes of checkpoints, and the final transaction. *)
Hypothesis I_checkpoints : forall f d, I d -> I (set_checkpoints f d).
Hypothesis I_finalizes : forall app id outcome gate now d d' s, finalizes app id outcome gate now d d' s -> I d -> I d'.

Lemma calls_record app id e n g now : calls (RuntimeCheckpointRepository_RecordActivationGate app id e n g now).
Proof.
  intros d log Hi HI w r w' <- <- Hm. destruct (safe_record_gate _ _ _ _ _ _ _ _ _ Hi Hm) as [Hs Hk]. rewrite Hk.
  split; [by eapply safe_steps_inv|]. split; [|apply grown_refl].
  apply record_gate_effect in Hm as [_ [[-> _]|(q & c & _ & _ & _ & _ & _ & _ & ->)]]; auto.
Qed.

Lemma calls_save app id i now : calls (RuntimeCheckpointRepository_SaveActivationIntent app id i now).
Proof.
  intros d log Hi HI w r w' <- <- Hm. destruct (safe_save_intent _ _ _ _ _ _ _ Hi Hm) as [Hs Hk]. rewrite Hk.
  split; [by eapply safe_steps_inv|]. split; [|apply grown_refl].
  apply save_intent_effect in Hm as [_ [[-> _]|(q & _ & _ & _ & ->)]]; auto.
Qed.

Lemma calls_finalize app id outcome gate tls now : calls (CandidateFinalizationRepository_Finalize app id outcome gate tls now).
Proof.
  intros d log Hi HI w r w' <- <- Hm. destruct (safe_finalize _ _ _ _ _ _ _ _ _ Hi Hm) as [Hs Hk]. rewrite Hk.
  split; [by eapply safe_steps_inv|]. split; [|apply grown_refl].
  destruct (finalize_effect _ _ _ _ _ _ _ _ _ Hi Hm) as [[[->|(s & Hf)] _] _]; eauto.
Qed.
End calls.

(** Weakening the calls of a handler. *)
Lemma calls_mono `{KubeTypes} {K A} (I : Db -> Prop) (P P' : rt_event -> Db -> Prop) (m : M (rt K) A) :
  (forall e d, P e d -> P' e d) -> calls I P m -> calls I P' m.
Proof.
  intros HP Hm d log Hi HI. eapply mwp_mono; [by apply Hm|]. intros r d' log' (? & ? & ?). split; [done|]. split; [done|].
  by eapply grown_mono.
Qed.

(** A handler after another: the log only grows. *)
Lemma calls_from `{KubeTypes} {K A} (I : Db -> Prop) (P : rt_event -> Db -> Prop) (m : M (rt K) A) d log0 log :
  calls I P m -> db_inv d -> I d -> grown P log0 log ->
  mwp m d log (fun _ d' log' => db_inv d' /\ I d' /\ grown P log0 log').
Proof.
  intros Hm Hi HI HG. eapply mwp_mono; [by apply Hm|]. intros r d' log' (? & ? & ?). split; [done|]. split; [done|].
  by eapply grown_trans.
Qed.

Lemma mwp_begin `{KubeTypes} `{AppEnv} {K} req proposed depID now withdrawal d log
    (Q : result (CandidateBinding * bool) -> Db -> list (rt_event * Db) -> Prop) :
  db_inv d -> (forall e d', db_inv d' -> journal_le d d' -> Q (Err e) d' log) ->
  (forall x d', db_inv d' -> journal_le d d' -> begun (request_key req) withdrawal d d' -> Q (Ok x) d' log) ->
  mwp (K := K) (beginCandidate req proposed depID now withdrawal) d log Q.
Proof.
  intros Hi H1 H2 w r w' <- <- Hf. pose proof (begin_keeps_journal _ _ _ _ _ _ _ _ Hi Hf) as Hj.
  destruct (begin_begun _ _ _ _ _ _ _ _ Hi Hf) as (-> & Hi' & Hb). destruct r as [x|e]; eauto.
Qed.

Lemma mwp_exec `{KubeTypes} {K} f d log (Q : result Z -> Db -> list (rt_event * Db) -> Prop) :
  (forall e, Q (Err e) d log) -> (forall d' n, f d = Ok (d', n) -> Q (Ok n) d' log /\ forall e, Q (Err e) d' log) ->
  mwp (K := K) (db_exec f) d log Q.
Proof.
  intros H1 H2 w r w' <- <- Hm. destruct r as [n|e].
  - apply db_exec_ok in Hm as (d & Hf & -> & ->). by apply (H2 _ _ Hf).
  - apply db_exec_inv in Hm as [-> [->|(d & n & Hf & ->)]]; [apply H1|by apply (H2 _ _ Hf)].
Qed.

(** ** Marking an app deleted *)

(** The journal of requests is the same. *)
Definition same_journal (d d' : Db) : Prop :=
  t_requests d' = t_requests d /\ t_bindings d' = t_bindings d /\ t_checkpoints d' = t_checkpoints d /\ t_withdrawals d' = t_withdrawals d.

Lemma same_journal_trans d1 d2 d3 : same_journal d1 d2 -> same_journal d2 d3 -> same_journal d1 d3.
Proof. intros (E1 & E2 & E3 & E4) (F1 & F2 & F3 & F4). split_and!; congruence. Qed.

Lemma mark_deleted_row name at_ d d' n a : db_inv d ->
  mark_deleted name at_ d = Ok (d', n) -> n <> 0 -> app_by_name name d' = Some a ->
  t_apps d' !! ar_id a = Some a /\ is_Some (ar_deleted a) /\ same_journal d d'.
Proof.
  intros Hi Hm Hn Ha. unfold mark_deleted in Hm.
  destruct (select1 _ (t_apps d)) as [r|] eqn:Hr; [|by injection Hm as <- <-].
  apply select1_Some in Hr as [Hp (k & Hk)]. pose proof (inv_app_key d Hi _ _ Hk) as <-. bools. apply String.eqb_eq in H.
  unfold update_app in Hm. rewrite Hk in Hm. injection Hm as <- _.
  apply select1_Some in Ha as [Hna (k & Hka)]. cbn in Hka. apply String.eqb_eq in Hna.
  apply lookup_insert_Some in Hka as [[<- <-]|[Hne Hka]].
  - cbn. rewrite lookup_insert_eq. split; [done|]. split; [by eexists|done].
  - exfalso. apply Hne. eapply (inv_app_name d Hi); [exact Hk|exact Hka|congruence].
Qed.

Lemma mwp_mark_deleted `{KubeTypes} {K} name at_ d log (Q : result App -> Db -> list (rt_event * Db) -> Prop) :
  db_inv d -> (forall e d', same_journal d d' -> Q (Err e) d' log) ->
  (forall a app d', t_apps d' !! ar_id a = Some a -> is_Some (ar_deleted a) -> scanApp a = Ok app -> same_journal d d' -> Q (Ok app) d' log) ->
  mwp (K := K) (AppRepository_MarkDeleted name at_) d log Q.
Proof.
  intros Hi H1 H2. unfold AppRepository_MarkDeleted, mapRowsAffected.
  assert (Hsame : forall d' n, mark_deleted name (formatTime at_) d = Ok (d', n) -> same_journal d d').
  { unfold mark_deleted, update_app. intros d' n. repeat case_match; by intros [= <- _]. }
  apply mwp_bind, mwp_bind, mwp_exec; [intros; by apply H1|]. intros d1 n1 Hm. split; [|intros; apply H1; by eapply Hsame].
  apply mwp_guard; intros Hn; [apply H1; by eapply Hsame|]. bools.
  apply mwp_find_one; [intros; apply H1; by eapply Hsame|]. intros a app Ha Hs.
  destruct (mark_deleted_row _ _ _ _ _ _ Hi Hm Hn Ha) as (Hr & Hd & Hj). by eapply H2.
Qed.

(** Runs the rules, by the head of the handler; what remains are the conditions
    on the calls. *)
Ltac follow_step :=
  lazymatch goal with
  | |- calls _ _ (mbind _ _) => apply calls_bind
  | |- calls _ _ (mret _) => apply calls_ret
  | |- calls _ _ (lift _) => apply calls_lift
  | |- calls _ _ (throw _) => apply calls_throw
  | |- calls _ _ (guard _ _) => apply calls_guard
  | |- calls _ _ (db_query _) => apply calls_query
  | |- calls _ _ (map_err _ _) => apply calls_map_err
  | |- calls _ _ (attempt _) => apply calls_attempt
  | |- calls _ _ (RuntimeCheckpointRepository_Find _ _) => apply calls_find_checkpoint
  | |- calls _ _ (CandidateBindingRepository_Find _ _) => apply calls_find_binding
  | |- calls _ _ (DeploymentRequestRepository_Find _ _) => apply calls_find_one
  | |- calls _ _ (DeploymentRequestRepository_PendingByApp _) => apply calls_find_one
  | |- calls _ _ (AppRepository_FindByID _) => apply calls_find_one
  | |- calls _ _ (AppRepository_FindByName _) => apply calls_find_one
  | |- calls _ _ (CandidateBindingRepository_GenerationsByApp _ _) => apply calls_bind; [apply calls_query|]
  | |- calls _ _ (CandidateBindingRepository_WithdrawalRequested _ _) => apply calls_query
  | |- calls _ _ (RuntimeCheckpointRepository_RecordActivationGate _ _ _ _ _ _) => apply calls_record; [assumption]
  | |- calls _ _ (RuntimeCheckpointRepository_SaveActivationIntent _ _ _ _) => apply calls_save; [assumption]
  | |- calls _ _ (CandidateFinalizationRepository_Finalize _ _ _ _ _ _) => apply calls_finalize; [assumption]
  | |- calls _ _ (match ?x with _ => _ end) => destruct x
  | |- calls _ _ _ => apply calls_invoke
  | |- forall _, _ => intro
  end.
Ltac follow := repeat follow_step.
