(* ===== verification/RequestProps.v ===== *)
(** * Properties of the request handlers

    Which calls of the runtime and the vault each handler can make, and in which
    state of the journal: submission and advance, recovery and withdrawal,
    reclamation and deletion. *)

From S2P Require Import Prelude GoStrings Regexp Sha256 GoJson GoTime Appconfig Db DbRepos DbCandidates DbInv DbSteps DbEffects Security Vault Activation Candidate CandidateOps CandidateLogic CandidateProps CandidateRequests RequestLogic.
From Stdlib Require Import Ascii String.
Local Open Scope Z_scope.

Section props.
Context `{KubeTypes} `{AppEnv} `{AEAD} {K : Type} `{!CandidateRuntime K} `{!CandidateServices K}.
Notation R := (M (rt K)).

(** ** Reclamation *)

(** The request is applied, is what the app runs, and nothing of the app is pending. *)
Definition current_release (app id : string) (d : Db) : Prop :=
  exists q b a, t_requests d !! (app, id) = Some q /\ qr_state q = "applied" /\ t_bindings d !! (app, id) = Some b /\
    t_apps d !! br_app_id b = Some a /\ ar_deleted a = None /\ ar_name a = app /\ ar_state a = qr_requested q /\
    pending_of_app app d = None.

(** Another finished generation bound to the same app, with its configuration. *)
Definition other_generation (app id other : string) (cfg : Config) (d : Db) : Prop :=
  other <> id /\ exists b b' q', t_bindings d !! (app, id) = Some b /\ t_bindings d !! (app, other) = Some b' /\
    br_app_id b' = br_app_id b /\ t_requests d !! (app, other) = Some q' /\ qr_state q' <> "pending" /\
    FromJSON (qr_requested q') = Ok cfg.

Definition reclaim_call (app id : string) (e : rt_event) (d : Db) : Prop :=
  match e with
  | ERetire cfg secret other registry _ =>
      current_release app id d /\ other_generation app id other cfg d /\
      secret = Cfg_EnvironmentRevision cfg /\ registry = CandidateRegistrySecretName cfg
  | ERetireLegacy g _ => current_release app id d /\ Gate_OperationID g = id
  | ECapture a _ | EDeletionCheck a _ => a = app
  | EReady _ _ _ _ | ERetired _ _ _ _ _ => True
  | _ => False
  end.

(** Every retirement comes directly after a look at the Service that still found
    the gate of this request. *)
Inductive gated (app id : string) : list (rt_event * Db) -> Prop :=
| gated_nil : gated app id []
| gated_snoc l e d : gated app id l ->
    (forall cfg s q p r, e = ERetire cfg s q p r -> exists g t d', last l = Some (ECapture app (Ok (g, t)), d') /\ Gate_OperationID g = id) ->
    gated app id (l ++ [(e, d)])%list.

Definition reclaimed (app id : string) (log log' : list (rt_event * Db)) : Prop :=
  exists new, log' = (log ++ new)%list /\ Forall (fun ed => reclaim_call app id ed.1 ed.2) new /\ gated app id new.

Lemma reclaimed_refl app id log : reclaimed app id log log.
Proof. exists []. rewrite app_nil_r. split; [done|]. split; [done|constructor]. Qed.

Lemma reclaimed_snoc app id log log' e d :
  reclaimed app id log log' -> reclaim_call app id e d -> (forall cfg s q p r, e <> ERetire cfg s q p r) ->
  reclaimed app id log (log' ++ [(e, d)])%list.
Proof.
  intros (new & -> & Hf & Hg) Hc Hn. exists (new ++ [(e, d)])%list. rewrite app_assoc. split; [done|].
  split; [apply Forall_app_2; [done|by constructor]|]. constructor; [done|]. intros ? ? ? ? ? ->. by destruct (Hn cfg s q p r).
Qed.

Lemma reclaimed_retire app id log log' g t cfg s q p r d :
  reclaimed app id log log' -> Gate_OperationID g = id -> reclaim_call app id (ERetire cfg s q p r) d ->
  reclaimed app id log ((log' ++ [(ECapture app (Ok (g, t)), d)]) ++ [(ERetire cfg s q p r, d)])%list.
Proof.
  intros (new & -> & Hf & Hg) Ho Hc. exists ((new ++ [(ECapture app (Ok (g, t)), d)]) ++ [(ERetire cfg s q p r, d)])%list.
  split; [by rewrite !app_assoc|]. split; [do 2 (apply Forall_app_2; [|by constructor]); done|].
  constructor; [constructor; [done|done]|]. intros. exists g, t, d. by rewrite last_snoc.
Qed.

(** *** The loops *)

(** What the first loop establishes of a generation. *)
Definition generation_of (app appID : string) (d : Db) (gc : CandidateGeneration * Config) : Prop :=
  exists b q, t_bindings d !! (app, Gen_RequestID gc.1) = Some b /\ br_app_id b = appID /\
    t_requests d !! (app, Gen_RequestID gc.1) = Some q /\ qr_state q <> "pending" /\ FromJSON (qr_requested q) = Ok gc.2.

(** A row the query of the generations returns. *)
Definition generation_row (app appID : string) (d : Db) (g : CandidateGeneration) : Prop :=
  exists b q, t_bindings d !! (app, Gen_RequestID g) = Some b /\ br_app_id b = appID /\
    t_requests d !! (app, Gen_RequestID g) = Some q /\ Gen_State g = qr_state q /\ Gen_RequestedState g = qr_requested q.

Lemma generations_rows app appID d : db_inv d ->
  Forall (generation_row app appID d)
    ((fun '(b, q) => MkCandidateGeneration (br_app b) (br_app_id b) (br_request b) (qr_requested q) (qr_state q)) <$>
     merge_sort generation_le (generations_of app appID d)).
Proof.
  intros Hi. apply Forall_fmap, Forall_forall. intros [b q] Hin. cbn. rewrite merge_sort_Permutation in Hin.
  unfold generations_of in Hin. apply list_elem_of_omap in Hin as (b0 & Hb0 & Hq).
  apply elem_of_rows in Hb0 as (k & Hk). pose proof (inv_bind_key d Hi _ _ Hk) as <-.
  destruct (t_requests d !! (br_app b0, br_request b0)) as [q0|] eqn:Hq0; [|done]. case_bool_decide as Hc; [|done].
  injection Hq as <- <-. destruct Hc as [<- <-]. by exists b0, q0.
Qed.

Lemma generation_config_of app appID d g c :
  generation_row app appID d g -> generation_config app appID g = Some c -> generation_of app appID d (g, c).
Proof.
  intros (b & q & Hb & Ha & Hq & Hs & Hr). unfold generation_config. case_match eqn:Hc; [done|]. bools.
  destruct (FromJSON (Gen_RequestedState g)) as [c0|] eqn:Hj; [|done]. case_match; [done|]. intros [= <-].
  exists b, q. cbn. rewrite <- Hr. split; [done|]. split; [done|]. split; [done|]. split; [|done].
  rewrite <- Hs. intros E. rewrite E in *. by vm_compute in H0.
Qed.

Lemma generationConfigs_of app appID id state d l configs found :
  Forall (generation_row app appID d) l -> generationConfigs app appID id state l = Some (configs, found) ->
  Forall (generation_of app appID d) configs.
Proof.
  intros Hl. revert configs found. induction Hl as [|g l Hg Hl IH]; intros configs found; cbn [generationConfigs]; [by intros [= <- _]|].
  destruct (generation_config app appID g) as [c|] eqn:Hc; [|done]. cbv zeta. case_match; [done|].
  destruct (generationConfigs app appID id state l) as [[cs f]|]; [|done]. intros [= <- _].
  constructor; [by apply generation_config_of|by eapply IH].
Qed.

Lemma retireOthers_calls app id gate appID b d log0 l :
  current_release app id d -> t_bindings d !! (app, id) = Some b -> br_app_id b = appID -> Gate_OperationID gate = id ->
  Forall (generation_of app appID d) l -> forall log, reclaimed app id log0 log ->
  mwp (K := K) (retireOthers app id gate l) d log (fun _ d' log' => d' = d /\ reclaimed app id log0 log').
Proof.
  intros Hcur Hb Ha Hgate. induction 1 as [|[g c] l Hg Hl IH]; intros log Hlog; cbn [retireOthers]; [by apply mwp_ret|].
  destruct (String.eqb_spec (Gen_RequestID g) id) as [|Hne]; [by apply IH|].
  apply mwp_bind, mwp_map_err, mwp_invoke. intros [[observed t]|e]; [|by split; [|apply reclaimed_snoc]].
  apply mwp_bind, mwp_guard; intros Hobs; [by split; [|apply reclaimed_snoc]|]. bools. subst observed.
  apply mwp_bind, mwp_map_err, mwp_invoke. intros r.
  assert (Hr : reclaimed app id log0 ((log ++ [(ECapture app (Ok (gate, t)), d)]) ++
    [(ERetire c (Cfg_EnvironmentRevision c) (Gen_RequestID g) (CandidateRegistrySecretName c) r, d)])%list).
  { apply reclaimed_retire; [done|done|]. split; [done|]. split; [|done]. split; [done|].
    destruct Hg as (b' & q & Hb' & Ha' & Hq & Hs & Hj). exists b, b', q. by rewrite Ha'. }
  destruct r as [u|e]; [by apply IH|by split].
Qed.

Lemma othersGone_calls app id d log0 l : forall acc log, reclaimed app id log0 log ->
  mwp (K := K) (othersGone id l acc) d log (fun _ d' log' => d' = d /\ reclaimed app id log0 log').
Proof.
  induction l as [|[g c] l IH]; intros acc log Hlog; cbn [othersGone]; [by apply mwp_ret|]. case_match; [by apply IH|].
  apply mwp_bind, mwp_map_err, mwp_invoke. intros [gone|e]; [apply IH|split; [done|]]; by apply reclaimed_snoc.
Qed.

(** A call that may be refused, with a predicate on the log that it keeps. *)
Lemma mwp_or_fail {A B} (G : list (rt_event * Db) -> Prop) ev (g : K -> result A * K) (f : A -> R B) e0 d log
    (Q : result B -> Db -> list (rt_event * Db) -> Prop) :
  (forall r, G (log ++ [(ev r, d)])%list) -> (forall e log', G log' -> Q (Err e) d log') ->
  (forall a log', G log' -> mwp (f a) d log' Q) -> mwp (mbind f (or_else e0 (invoke ev g))) d log Q.
Proof. intros H1' H2 H3. apply mwp_bind, mwp_map_err, mwp_invoke. intros [a|e]; [by apply H3|by apply H2]. Qed.

Lemma reclaimSelected_calls app id req binding b d log :
  db_inv d -> current_release app id d -> t_bindings d !! (app, id) = Some b -> br_app_id b = Bind_AppID binding ->
  mwp (K := K) (reclaimSelected app id req binding) d log (fun _ d' log' => d' = d /\ reclaimed app id log log').
Proof.
  intros Hi Hcur Hb Ha. unfold reclaimSelected, or_fail.
  apply mwp_or_fail with (G := reclaimed app id log); [intros; by apply reclaimed_snoc; [apply reclaimed_refl|..]|done|]. intros _ log1 G1.
  apply mwp_or_fail with (G := reclaimed app id log); [intros; by apply reclaimed_snoc|done|]. intros [gate target] log2 G2.
  apply mwp_bind, mwp_map_err, mwp_lift. destruct (CandidateSelector app id) as [sel|]; [|done]. case_match eqn:Hg; [by apply mwp_ret|].
  bools. match goal with Hx : String.eqb (Gate_OperationID gate) id = true |- _ => apply String.eqb_eq in Hx end.
  apply mwp_bind, mwp_map_err, mwp_lift. destruct (FromJSON _) as [cfg|]; [|done]. apply mwp_bind, mwp_guard; [done|]. intros _.
  apply mwp_or_fail with (G := reclaimed app id log); [intros; by apply reclaimed_snoc|done|]. intros ready log3 G3.
  apply mwp_bind, mwp_guard; [done|]. intros _.
  apply mwp_bind, mwp_map_err, mwp_bind, mwp_query; [done|]. apply mwp_ret.
  destruct (generationConfigs _ _ _ _ _) as [[configs found]|] eqn:Hcs; [|by apply mwp_throw].
  apply mwp_bind, mwp_guard; [done|]. intros _. apply mwp_bind.
  eapply mwp_mono; [eapply (retireOthers_calls app id gate (Bind_AppID binding) b); eauto;
    eapply generationConfigs_of; [|exact Hcs]; by apply generations_rows|].
  intros [u|e] d' log4 [-> G4]; [|done].
  apply mwp_or_fail with (G := reclaimed app id log); [intros; by apply reclaimed_snoc|done|]. intros legacy log5 G5.
  apply mwp_bind. eapply mwp_mono; [by apply (othersGone_calls app id d log)|]. intros [gone|e] d' log6 [-> G6]; [|done].
  apply mwp_or_fail with (G := reclaimed app id log); [intros; by apply reclaimed_snoc|done|]. intros [after t] log7 G7.
  by apply mwp_guard.
Qed.

Lemma scanRequest_err q e : scanRequest q = Err e -> errors_Is e ErrNotFound = false.
Proof.
  unfold scanRequest, parseStoredTime. destruct (parse_rfc3339 (qr_created q)); [|by intros [= <-]].
  destruct (parse_rfc3339 (qr_updated q)); [done|by intros [= <-]].
Qed.

Lemma reclaim_calls app id d log :
  db_inv d -> mwp (K := K) (reclaimCandidateCapacity app id) d log (fun _ d' log' => d' = d /\ reclaimed app id log log').
Proof.
  intros Hi. pose proof (reclaimed_refl app id log) as G0. unfold reclaimCandidateCapacity, or_fail, or_else.
  apply mwp_bind, mwp_map_err, mwp_find_request; [done|]. intros q req Hq (F1 & F2 & F3 & F4 & _)%scanRequest_fields.
  apply mwp_bind, mwp_guard; [done|]. intros _. case_match eqn:Hst; [by apply mwp_ret|]. bools. apply String.eqb_eq in Hst.
  apply mwp_bind, mwp_map_err, mwp_bind, mwp_guard; [done|]. intros _. apply mwp_find_one; [done|]. intros b binding Hb Hsb.
  unfold scanBinding in Hsb. apply bind_ok in Hsb as (t & _ & [= <-]). cbn [Bind_AppName Bind_RequestID Bind_AppID].
  apply mwp_bind, mwp_guard; [done|]. intros _. apply mwp_bind, mwp_map_err, mwp_find_one; [done|]. intros a current Ha Hsa.
  apply scanApp_fields in Hsa as (A1 & A2 & A3 & A4 & A5). case_match eqn:Hcur; [by apply mwp_ret|]. bools.
  apply mwp_bind, mwp_attempt, mwp_find_one.
  - intros e He. apply mwp_bind, mwp_guard; [done|]. intros Hn. bools.
    eapply reclaimSelected_calls; [done| |exact Hb|done].
    exists q, b, a. repeat match goal with Hx : String.eqb _ _ = true |- _ => apply String.eqb_eq in Hx end.
    split; [done|]. split; [congruence|]. split; [done|]. split; [done|].
    split; [apply A4; by apply eq_None_not_Some|]. split; [congruence|]. split; [congruence|].
    apply He; [done|]. apply scanRequest_err.
  - intros x y Hx Hy. by apply mwp_ret.
Qed.

(** Reclamation retires nothing that is still needed.  Whatever the runtime
    replies and whichever driver calls fail, [reclaimCandidateCapacity] leaves
    the database alone; it retires a workload only while the request is applied,
    is what the active app runs and no request of the app is pending; the
    workload is another, finished generation bound to the same app, never the
    selected one; and directly before each retirement the Service was seen at
    a gate of this request. *)
Theorem reclaim_spares_selected app id (w : world (rt K)) r w' :
  db_inv (w_db w) -> reclaimCandidateCapacity app id w = (r, w') ->
  w_db w' = w_db w /\ reclaimed app id (rt_log _ (w_k w)) (rt_log _ (w_k w')).
Proof. intros Hi Hm. exact (reclaim_calls app id _ _ Hi w r w' eq_refl eq_refl Hm). Qed.

(** ** Submission and advance *)

(** The request is bound and nobody asked to withdraw it. *)
Definition live (key : string * string) (d : Db) : Prop := bound key d /\ t_withdrawals d !! key = None.

Definition applied_in (key : string * string) (d : Db) : Prop := exists q, t_requests d !! key = Some q /\ qr_state q = "applied".

(** The calls of a submission or an advance: everything that writes to Kubernetes
    for the candidate happens to a bound request that was not withdrawn; what it
    retires, it retires for an applied one; it never deletes the app or its
    secrets, and it never restores a predecessor. *)
Definition forward_call (key : string * string) (e : rt_event) (d : Db) : Prop :=
  match e with
  | EDependencies _ _ _ request _ _ | EPrepare _ _ request _ _ | EActivate _ _ _ request _ _ | EInactive _ request _ | EReset _ _ _ request _ =>
      request = key.2 /\ live key d
  | EFence _ op _ => op = key.2 /\ live key d
  | ERoute _ _ _ _ => live key d
  | ERetire _ _ request _ _ => request <> key.2 /\ applied_in key d
  | ERetireLegacy _ _ => applied_in key d
  | EReplace _ _ _ | ENamespace _ | EBeginDeletion _ _ _ _ | ECleanup _ _ _ | EFinish _ _ _ | EForgetCredentials _ _ | EForgetBundles _ _ => False
  | _ => True
  end.

Lemma live_checkpoints key f d : live key d -> live key (set_checkpoints f d).
Proof. done. Qed.

Lemma bound_finalizes key app id outcome gate now d d' s : finalizes app id outcome gate now d d' s -> bound key d -> bound key d'.
Proof. destruct 1. intros [Hq Hb]. split; cbn; [by apply insert_is_Some|done]. Qed.

Lemma live_finalizes key app id outcome gate now d d' s : finalizes app id outcome gate now d d' s -> live key d -> live key d'.
Proof. intros Hf [Hb Hw]. split; [by eapply bound_finalizes|]. by destruct Hf. Qed.

Lemma reclaim_forward app id e d : reclaim_call app id e d -> forward_call (app, id) e d.
Proof.
  destruct e; cbn; try done.
  - intros ((q & b & a & Hq & Hs & _) & (Hne & _) & _). split; [done|by exists q].
  - intros ((q & b & a & Hq & Hs & _) & _). by exists q.
Qed.

Lemma calls_reclaim (I : Db -> Prop) app id : calls (K := K) I (forward_call (app, id)) (reclaimCandidateCapacity app id).
Proof.
  intros d log Hi HI. eapply mwp_mono; [by apply reclaim_calls|]. intros r d' log' (-> & new & -> & Hf & _).
  split; [done|]. split; [done|]. exists new. split; [done|]. eapply Forall_impl; [exact Hf|]. intros [e d']. apply reclaim_forward.
Qed.

Section forward.
Context (app id : string) (now : Z).
Notation fwd := (calls (K := K) (live (app, id)) (forward_call (app, id))).

Lemma fwd_advance cfg sec reg : fwd (AdvanceCandidateOperation now app id cfg sec reg).
Proof.
  pose proof (live_checkpoints (app, id)) as Hc.
  unfold AdvanceCandidateOperation, startCandidateOperation, activateFenced, recordCandidateGate, failed, refuse. follow; done.
Qed.

Lemma fwd_complete cancelled tls at_ : fwd (CompleteCandidateOperation now cancelled app id "applied" tls at_).
Proof.
  pose proof (live_finalizes (app, id)) as Hf.
  unfold CompleteCandidateOperation, commitOutcome, completionRoute, failed, refuse. cbn [String.eqb Ascii.eqb Bool.eqb]. follow; done.
Qed.

Lemma fwd_reuse record cfg gate target : Req_RequestID record = id -> fwd (reuseWithdrawnInitialCandidate record cfg gate target).
Proof. intros <-. unfold reuseWithdrawnInitialCandidate, failed, refuse. follow; done. Qed.

Lemma fwd_prepare record cfg : Req_RequestID record = id -> fwd (prepareCandidateRequest record cfg).
Proof.
  intros Hid. unfold prepareCandidateRequest, resolveValues, resolveRuntimeRegistry, captureOrCreate, checkInitialTarget, checkPredecessor, or_else.
  follow; try (by apply fwd_reuse); done.
Qed.
End forward.

(** Unless the withdrawal was requested, the request is live from here on. *)
Lemma reject_live app id d log (Q : result unit -> Db -> list (rt_event * Db) -> Prop) :
  bound (app, id) d -> (forall e, Q (Err e) d log) -> (live (app, id) d -> Q (Ok tt) d log) ->
  mwp (K := K) (rejectRequestedWithdrawal app id) d log Q.
Proof.
  intros Hb H1' H2'. unfold rejectRequestedWithdrawal. apply mwp_bind, mwp_map_err, mwp_query; [done|].
  apply mwp_guard; [done|]. intros Hw. bools. apply H2'. split; [done|]. by apply eq_None_not_Some.
Qed.

Section handlers.
Context (call : call_env) (tls enabled : bool).

Lemma fwd_advanceSubmission cfg id : 
  calls (K := K) (live (Cfg_Name cfg, id)) (forward_call (Cfg_Name cfg, id)) (advanceSubmission call tls cfg id).
Proof.
  unfold advanceSubmission, or_else. follow_step; [follow_step; apply fwd_advance|]. intros [g|e]; [|follow].
  follow_step; [follow_step; apply fwd_complete|]. intros [reply|]; [|follow]. follow_step; [apply calls_reclaim|follow].
Qed.

Lemma continue_calls cfg id requested binding d log :
  db_inv d -> bound (Cfg_Name cfg, id) d ->
  mwp (K := K) (continueSubmission call tls cfg id requested binding) d log (fun _ _ log' => grown (forward_call (Cfg_Name cfg, id)) log log').
Proof.
  intros Hi Hb. pose proof (grown_refl (forward_call (Cfg_Name cfg, id)) log) as G0. unfold continueSubmission, or_else.
  apply mwp_bind, mwp_map_err, mwp_find_request; [done|]. intros q req Hq (F1 & F2 & _)%scanRequest_fields.
  assert (E : Req_AppName req = Cfg_Name cfg /\ Req_RequestID req = id).
  { pose proof (inv_req_key d Hi _ _ Hq) as [= ? ?]. split; congruence. }
  destruct E as [E1 E2]. rewrite E1, E2. case_match.
  - apply mwp_bind. eapply mwp_mono with (Q := fun _ _ log' => grown (forward_call (Cfg_Name cfg, id)) log log').
    { case_match; [|by apply mwp_ret]. eapply mwp_mono; [by apply (calls_reclaim (fun _ => True))|]. by intros r d' log' (_ & _ & ?). }
    intros [u|e] d' log' HG; [by apply mwp_lift|done].
  - apply mwp_bind, reject_live; [done|done|]. intros Hl. apply mwp_bind.
    eapply mwp_mono; [by eapply calls_from; [apply (fwd_prepare (Cfg_Name cfg) id req cfg)|..]|].
    intros [u|e] d1 log1 (Hi1 & Hl1 & G1); [|done]. apply mwp_bind.
    eapply mwp_mono; [by eapply calls_from; [apply (fwd_advanceSubmission cfg id)|..]|].
    intros [[reply|]|e] d2 log2 (Hi2 & Hl2 & G2); [by apply mwp_ret| |done].
    unfold pendingReply, or_else. eapply mwp_mono; [eapply (calls_from (live (Cfg_Name cfg, id))); [follow|done..]|].
    by intros r d' log' (_ & _ & ?).
Qed.

Lemma admit_calls cfg id : calls (K := K) (fun _ => True) (forward_call (Cfg_Name cfg, id)) (admitNew cfg id).
Proof. unfold admitNew, resolveValues, resolveRuntimeRegistry, preflightHosting, or_else. follow; done. Qed.

Lemma deploy_calls cfg id report d log :
  db_inv d ->
  mwp (K := K) (deployCandidateApp call tls cfg id report) d log (fun _ _ log' => grown (forward_call (Cfg_Name cfg, id)) log log').
Proof.
  intros Hi. pose proof (grown_refl (forward_call (Cfg_Name cfg, id)) log) as G0. unfold deployCandidateApp, or_else.
  apply mwp_bind, mwp_guard; [done|]. intros _. apply mwp_bind, mwp_map_err, mwp_lift. destruct (Config_JSON cfg) as [requested|]; [|done].
  apply mwp_bind. eapply mwp_mono; [by apply (calls_from (fun _ => True) _ _ d log log (admit_calls cfg id))|].
  intros [u|e] d1 log1 (Hi1 & _ & G1); [|done]. apply mwp_bind, mwp_lift. destruct (newID "app" _); [|done].
  apply mwp_bind, mwp_lift. destruct (newID "deploy" _); [|done]. apply mwp_bind, mwp_map_err, mwp_begin; [done|done|].
  intros [binding created] d2 Hi2 _ [Hb _]. eapply mwp_mono; [by apply continue_calls|]. intros r d' log' G2. by eapply grown_trans.
Qed.

(** C7: a submission touches Kubernetes only for a journaled request that nobody
    withdrew.  Whatever the replies and whichever driver calls fail, every write
    [deployCandidateApp] makes for the candidate (dependencies, inactive
    Service, fence, Deployment, traffic, route) carries this request id and
    happens when the request and its binding are committed and no withdrawal is
    recorded; workloads it retires belong to other requests and only once this
    one is applied; it never restores, deletes the app or forgets secrets. *)
Theorem submission_journaled cfg id report (w : world (rt K)) r w' :
  db_inv (w_db w) -> deployCandidateApp call tls cfg id report w = (r, w') ->
  grown (forward_call (Cfg_Name cfg, id)) (rt_log _ (w_k w)) (rt_log _ (w_k w')).
Proof. intros Hi Hm. exact (deploy_calls cfg id report _ _ Hi w r w' eq_refl eq_refl Hm). Qed.

(** ** Advance and recovery of a stored request *)

(** The row of a request under its key. *)
Lemma request_named d app id q req : db_inv d -> t_requests d !! (app, id) = Some q -> scanRequest q = Ok req ->
  Req_AppName req = app /\ Req_RequestID req = id /\ Req_State req = qr_state q /\ Req_RequestedState req = qr_requested q.
Proof.
  intros Hi Hq (F1 & F2 & F3 & F4 & _)%scanRequest_fields. pose proof (inv_req_key d Hi _ _ Hq) as [= ? ?].
  split; [congruence|]. split; [congruence|]. by split.
Qed.

Lemma get_calls (I : Db -> Prop) P caller app id : calls (K := K) I P (GetDeployRequest caller app id).
Proof. unfold GetDeployRequest. follow. Qed.

Lemma fwd_resume record cfg :
  calls (K := K) (live (Req_AppName record, Req_RequestID record)) (forward_call (Req_AppName record, Req_RequestID record))
    (prepareOrResume call record cfg false).
Proof.
  unfold prepareOrResume. follow_step; [follow_step; apply calls_find_checkpoint|]. intros [c|e]; [follow|].
  destruct (errors_Is e ErrNotFound); [by apply fwd_prepare|follow].
Qed.

Lemma fwd_completeRequest record :
  calls (K := K) (live (Req_AppName record, Req_RequestID record)) (forward_call (Req_AppName record, Req_RequestID record))
    (completeRequest call tls record false).
Proof. unfold completeRequest, or_else. follow_step; [follow_step; apply fwd_complete|]. intros _. apply calls_reclaim. Qed.

Lemma advance_pending_calls app id record binding d log :
  db_inv d -> bound (app, id) d -> Req_AppName record = app -> Req_RequestID record = id ->
  mwp (K := K) (mutatePending call tls app id record binding false) d log (fun _ _ log' => grown (forward_call (app, id)) log log').
Proof.
  intros Hi Hb <- <-. unfold mutatePending, decideOutcome. pose proof (grown_refl (forward_call (Req_AppName record, Req_RequestID record)) log) as G0.
  apply mwp_bind, reject_live; [done|done|]. intros Hl.
  eapply mwp_mono; [eapply (calls_from (live (Req_AppName record, Req_RequestID record))); [|done..]|by intros r d' log' (_ & _ & ?)].
  destruct (FromJSON _) as [cfg|]; [|follow]. do 2 (follow_step; [first [apply fwd_resume|follow]|intros _]).
  follow_step; [follow_step; [follow_step; apply fwd_advance|follow]|]. intros ready. follow_step; [apply get_calls|].
  follow_step; [apply fwd_completeRequest|intros _; apply get_calls].
Qed.

Lemma bound_found app id b d : db_inv d -> t_bindings d !! (app, id) = Some b -> bound (app, id) d.
Proof. intros Hi Hb. split; [by eapply inv_bind_req|by eexists]. Qed.

Lemma advance_locked_calls app id d log :
  db_inv d ->
  mwp (K := K) (mutateCandidateRequestLocked call tls app id false) d log (fun _ _ log' => grown (forward_call (app, id)) log log').
Proof.
  intros Hi. pose proof (grown_refl (forward_call (app, id)) log) as G0. unfold mutateCandidateRequestLocked, or_else. cbv zeta.
  apply mwp_bind, mwp_map_err, mwp_bind, mwp_guard; [done|]. intros _. apply mwp_find_one; [done|]. intros b binding Hb _.
  apply mwp_bind, mwp_guard; [done|]. intros _. apply mwp_bind, mwp_map_err, mwp_find_request; [done|]. intros q req Hq Hs.
  destruct (request_named _ _ _ _ _ Hi Hq Hs) as (E1 & E2 & _). apply mwp_bind, mwp_guard; [done|]. intros _.
  case_match; [|eapply advance_pending_calls; eauto using bound_found]. apply mwp_bind, mwp_guard; [done|]. intros _.
  eapply mwp_mono; [eapply (calls_from (fun _ => True)); [|done..]|by intros r d' log' (_ & _ & ?)]. rewrite E1, E2.
  follow_step; [apply calls_reclaim|intros _; apply get_calls].
Qed.

(** Advancing a stored request has the same bounds: whatever the replies and
    the faults, [AdvanceDeployRequest] writes to Kubernetes for the candidate
    only while the request is bound and not withdrawn, retires other requests'
    workloads only once this one is applied, and never restores a predecessor,
    deletes the app or forgets secrets. *)
Theorem advance_request_journaled app id (w : world (rt K)) r w' :
  db_inv (w_db w) -> AdvanceDeployRequest call tls enabled app id w = (r, w') ->
  grown (forward_call (app, id)) (rt_log _ (w_k w)) (rt_log _ (w_k w')).
Proof.
  intros Hi Hm. revert w r w' Hi Hm. cut (forall d log, db_inv d -> mwp (AdvanceDeployRequest call tls enabled app id) d log
    (fun _ _ log' => grown (forward_call (app, id)) log log')); [intros Hc w r w' Hi Hm; exact (Hc _ _ Hi w r w' eq_refl eq_refl Hm)|].
  intros d log Hi. pose proof (grown_refl (forward_call (app, id)) log) as G0. unfold AdvanceDeployRequest, mutateCandidateRequest.
  apply mwp_bind, mwp_lift. destruct (requireCaller _ _); [|done]. do 2 (apply mwp_bind, mwp_guard; [done|]; intros _).
  apply mwp_bind, mwp_lift. destruct (ce_lock call); [|done]. by apply advance_locked_calls.
Qed.

(** ** Recovery and withdrawal *)

(** The calls of a recovery: they look, restore and retire under a recorded
    decision to withdraw; nothing is resolved, admitted, started or activated. *)
Definition backward_call (key : string * string) (e : rt_event) (d : Db) : Prop :=
  match e with
  | EFence _ op _ => op = candidateRecoveryID key.1 key.2 /\ withdrawing key d
  | ERetire _ _ request _ _ | EInactive _ request _ | EReset _ _ _ request _ => request = key.2 /\ withdrawing key d
  | EReplace _ _ _ | ERoute _ _ _ _ | ENamespace _ => withdrawing key d
  | ECapture _ _ | EReady _ _ _ _ | ERetired _ _ _ _ _ | EInitialRequest _ _ | EDeletionCheck _ _ => True
  | _ => False
  end.

Lemma withdrawing_checkpoints key f d : withdrawing key d -> withdrawing key (set_checkpoints f d).
Proof. done. Qed.

Lemma withdrawing_finalizes key app id outcome gate now d d' s :
  finalizes app id outcome gate now d d' s -> withdrawing key d -> withdrawing key d'.
Proof. by destruct 1. Qed.

Section backward.
Context (app id : string) (now : Z).
Notation bwd := (calls (K := K) (withdrawing (app, id)) (backward_call (app, id))).

Lemma bwd_restore cancelled : bwd (RestoreCandidateTraffic now cancelled app id).
Proof.
  pose proof (withdrawing_checkpoints (app, id)) as Hc.
  unfold RestoreCandidateTraffic, restoreTarget, recordCandidateGate, ambiguous, unambiguous, failed, refuse. follow; done.
Qed.

Lemma bwd_recover cancelled : bwd (RecoverCandidateOperation now cancelled app id).
Proof.
  unfold RecoverCandidateOperation, predecessorConfig, requireInactiveBootstrap, failed, refuse.
  repeat first [apply bwd_restore|follow_step]; done.
Qed.

Lemma bwd_complete cancelled tls0 at_ : bwd (CompleteCandidateOperation now cancelled app id "withdrawn" tls0 at_).
Proof.
  pose proof (withdrawing_finalizes (app, id)) as Hf.
  unfold CompleteCandidateOperation, commitOutcome, completionRoute, failed, refuse. cbn [String.eqb Ascii.eqb Bool.eqb].
  repeat first [apply bwd_recover|follow_step]; done.
Qed.

Lemma bwd_unstarted record cfg : Req_RequestID record = id -> bwd (prepareUnstartedRecovery now record cfg).
Proof.
  intros <-. pose proof (withdrawing_checkpoints (app, Req_RequestID record)) as Hc.
  unfold prepareUnstartedRecovery, captureOrBootstrap, reuseWithdrawnInitialCandidate, failed, refuse. follow; done.
Qed.
End backward.

Lemma recover_pending_calls app id record binding d log :
  db_inv d -> pending_in (app, id) d -> Req_AppName record = app -> Req_RequestID record = id ->
  mwp (K := K) (mutatePending call tls app id record binding true) d log (fun _ _ log' => grown (backward_call (app, id)) log log').
Proof.
  intros Hi Hp <- <-. unfold mutatePending, decideOutcome, or_else. pose proof (grown_refl (backward_call (Req_AppName record, Req_RequestID record)) log) as G0.
  apply mwp_bind, mwp_bind, mwp_map_err, mwp_begin; [done|done|]. intros x d1 Hi1 _ (_ & Hw & Hk).
  specialize (Hw eq_refl (Hk Hp)). apply mwp_ret.
  eapply mwp_mono; [eapply (calls_from (withdrawing (Req_AppName record, Req_RequestID record))); [|done..]|by intros r d' log' (_ & _ & ?)].
  destruct (FromJSON _) as [cfg|]; [|follow]. follow_step; [follow|intros _]. follow_step.
  { unfold prepareOrResume, or_else. repeat first [by apply bwd_unstarted|follow_step]. }
  intros _. follow_step; [follow|]. intros ready. follow_step; [apply get_calls|].
  unfold completeRequest, or_else. follow_step; [|intros _; apply get_calls].
  repeat first [apply bwd_complete|follow_step].
Qed.

Lemma recover_locked_calls app id d log :
  db_inv d ->
  mwp (K := K) (mutateCandidateRequestLocked call tls app id true) d log (fun _ _ log' => grown (backward_call (app, id)) log log').
Proof.
  intros Hi. pose proof (grown_refl (backward_call (app, id)) log) as G0. unfold mutateCandidateRequestLocked, or_else. cbv zeta.
  apply mwp_bind, mwp_map_err, mwp_bind, mwp_guard; [done|]. intros _. apply mwp_find_one; [done|]. intros b binding Hb _.
  apply mwp_bind, mwp_guard; [done|]. intros _. apply mwp_bind, mwp_map_err, mwp_find_request; [done|]. intros q req Hq Hs.
  destruct (request_named _ _ _ _ _ Hi Hq Hs) as (E1 & E2 & E3 & _). apply mwp_bind, mwp_guard; [done|]. intros _.
  case_match eqn:Hst.
  - eapply mwp_mono; [eapply (calls_from (fun _ => True)); [|done..]|by intros r d' log' (_ & _ & ?)].
    repeat first [apply get_calls|follow_step].
  - bools. apply String.eqb_eq in Hst. eapply recover_pending_calls; [done| |done|done]. exists q. split; [done|congruence].
Qed.

Lemma withdraw_calls decode req cfg d log :
  db_inv d -> Parse decode (dar_DeployerYaml req) = Ok cfg ->
  mwp (K := K) (WithdrawDeployRequest call tls enabled decode req) d log
    (fun _ _ log' => grown (backward_call (Cfg_Name cfg, dar_RequestID req)) log log').
Proof.
  intros Hi Hcfg. set (key := (Cfg_Name cfg, dar_RequestID req)). pose proof (grown_refl (backward_call key) log) as G0.
  unfold WithdrawDeployRequest, checkCandidateDeletion. rewrite Hcfg.
  apply mwp_bind, mwp_lift. destruct (requireCaller _ _); [|done]. apply mwp_bind, mwp_guard; [done|]. intros _.
  do 2 (apply mwp_bind, mwp_guard; [done|]; intros _). apply mwp_bind, mwp_lift. destruct (ce_lock call); [|done].
  apply mwp_or_fail with (G := grown (backward_call key) log); [intros; by apply grown_snoc|done|]. intros _ log1 G1. unfold or_else.
  apply mwp_bind, mwp_map_err, mwp_lift. destruct (Config_JSON cfg); [|done].
  do 2 (apply mwp_bind, mwp_lift; destruct (newID _ _); [|done]).
  apply mwp_bind, mwp_map_err, mwp_begin; [done|done|]. intros x d1 Hi1 _ _.
  apply mwp_bind, mwp_map_err, mwp_find_request; [done|]. intros q record Hq Hs.
  eapply mwp_mono with (Q := fun _ _ log' => grown (backward_call key) log1 log').
  - case_match; [|by apply recover_locked_calls].
    eapply mwp_mono; [by apply (get_calls (fun _ => True) (backward_call key))|]. by intros r d' log' (_ & _ & ?).
  - intros r d' log' G2. by eapply grown_trans.
Qed.

(** C8: recovery and withdrawal only restore, and only after the decision is
    durable.  Whatever the replies and whichever driver calls fail,
    [RecoverDeployRequest] and [WithdrawDeployRequest] change Kubernetes only
    while the decision to withdraw this request is committed; they fence with
    the recovery identity, retire only the workload of this request, and never
    resolve secrets, check capacity, prepare or activate a candidate. *)
Theorem withdrawal_restores_only app id decode req cfg (w : world (rt K)) r w' :
  db_inv (w_db w) ->
  (RecoverDeployRequest call tls enabled app id w = (r, w') ->
     grown (backward_call (app, id)) (rt_log _ (w_k w)) (rt_log _ (w_k w'))) /\
  (Parse decode (dar_DeployerYaml req) = Ok cfg -> WithdrawDeployRequest call tls enabled decode req w = (r, w') ->
     grown (backward_call (Cfg_Name cfg, dar_RequestID req)) (rt_log _ (w_k w)) (rt_log _ (w_k w'))).
Proof.
  intros Hi. split; [|intros Hcfg Hm; exact (withdraw_calls decode req cfg _ _ Hi Hcfg w r w' eq_refl eq_refl Hm)].
  cut (forall d log, db_inv d -> mwp (RecoverDeployRequest call tls enabled app id) d log
    (fun _ _ log' => grown (backward_call (app, id)) log log')); [intros Hc Hm; exact (Hc _ _ Hi w r w' eq_refl eq_refl Hm)|].
  clear Hi. intros d log Hi. pose proof (grown_refl (backward_call (app, id)) log) as G0. unfold RecoverDeployRequest, mutateCandidateRequest.
  apply mwp_bind, mwp_lift. destruct (requireCaller _ _); [|done]. do 2 (apply mwp_bind, mwp_guard; [done|]; intros _).
  apply mwp_bind, mwp_lift. destruct (ce_lock call); [|done]. by apply recover_locked_calls.
Qed.

(** ** Deletion *)

(** Calls that forget the app: its secrets and the deletion marker. *)
Definition forgets (e : rt_event) : bool :=
  match e with EForgetCredentials _ _ | EForgetBundles _ _ | EFinish _ _ _ => true | _ => false end.

(** The cleanup of the app was confirmed: the deletion fence was set, every bound
    generation was retired and has drained, the resources are gone. *)
Definition cleanup_confirmed (name appID : string) (d : Db) (new : list (rt_event * Db)) : Prop :=
  exists cfg deleted g, (EBeginDeletion cfg appID deleted (Ok g), d) ∈ new /\ (ECleanup g appID (Ok true), d) ∈ new /\
    forall id b, t_bindings d !! (name, id) = Some b -> br_app_id b = appID ->
      exists c s p, (ERetire c s id p (Ok tt), d) ∈ new /\ (ERetired c s id p (Ok true), d) ∈ new.

(** The marker is removed only once the app is marked deleted. *)
Definition marker_last (e : rt_event) (d : Db) : Prop :=
  match e with EFinish _ appID _ => exists a, t_apps d !! appID = Some a /\ is_Some (ar_deleted a) | _ => True end.

Definition quiet (e : rt_event) (_ : Db) : Prop := forgets e = false.

Lemma retireAll_calls d l : forall log,
  mwp (K := K) (retireAll l) d log (fun r d' log' => d' = d /\ exists new, log' = (log ++ new)%list /\ Forall (fun ed => quiet ed.1 ed.2) new /\
    (r = Ok tt -> forall g c, (g, c) ∈ l ->
       (ERetire c (Cfg_EnvironmentRevision c) (Gen_RequestID g) (CandidateRegistrySecretName c) (Ok tt), d) ∈ new)).
Proof.
  induction l as [|[g c] l IH]; intros log; cbn [retireAll].
  { apply mwp_ret. split; [done|]. exists []. rewrite app_nil_r. split; [done|]. split; [done|]. intros _ g c []%not_elem_of_nil. }
  apply mwp_bind, mwp_map_err, mwp_invoke. intros [[]|e].
  - eapply mwp_mono; [apply IH|]. intros r d' log' (-> & new & -> & Hq & Hin). split; [done|].
    eexists. rewrite <- app_assoc. split; [reflexivity|]. split; [by constructor|].
    intros Hr g' c' [[= -> ->]|Hm]%elem_of_cons; [by left|]. right. by apply Hin.
  - split; [done|]. eexists. split; [reflexivity|]. split; [by constructor|done].
Qed.

Lemma awaitAll_calls d l : forall log,
  mwp (K := K) (awaitAll l) d log (fun r d' log' => d' = d /\ exists new, log' = (log ++ new)%list /\ Forall (fun ed => quiet ed.1 ed.2) new /\
    (r = Ok tt -> forall g c, (g, c) ∈ l ->
       (ERetired c (Cfg_EnvironmentRevision c) (Gen_RequestID g) (CandidateRegistrySecretName c) (Ok true), d) ∈ new)).
Proof.
  induction l as [|[g c] l IH]; intros log; cbn [awaitAll].
  { apply mwp_ret. split; [done|]. exists []. rewrite app_nil_r. split; [done|]. split; [done|]. intros _ g c []%not_elem_of_nil. }
  apply mwp_bind, mwp_map_err, mwp_invoke. intros [retired|e]; [|split; [done|]; eexists; split; [reflexivity|]; split; [by constructor|done]].
  apply mwp_bind, mwp_guard; intros Hr; bools; [split; [done|]; eexists; split; [reflexivity|]; split; [by constructor|done]|].
  subst retired. eapply mwp_mono; [apply IH|]. intros r d' log' (-> & new & -> & Hq & Hin). split; [done|].
  eexists. rewrite <- app_assoc. split; [reflexivity|]. split; [by constructor|].
  intros Hr g' c' [[= -> ->]|Hm]%elem_of_cons; [by left|]. right. by apply Hin.
Qed.

Lemma deletionConfigs_all app appID l configs : deletionConfigs app appID l = Ok configs -> forall g, g ∈ l -> exists c, (g, c) ∈ configs.
Proof.
  revert configs. induction l as [|g l IH]; intros configs; [intros _ g []%not_elem_of_nil|]. cbn [deletionConfigs].
  intros (u & _ & (c & _ & (rest & Hr & [= <-])%bind_ok)%bind_ok)%bind_ok g' [->|Hg]%elem_of_cons; [exists c; by left|].
  destruct (IH rest Hr g' Hg) as [c' Hc']. exists c'. by right.
Qed.

(** Every bound generation of the app is among the rows. *)
Lemma generations_all app appID d id b : db_inv d -> t_bindings d !! (app, id) = Some b -> br_app_id b = appID ->
  exists g, Gen_RequestID g = id /\ g ∈ ((fun '(b, q) => MkCandidateGeneration (br_app b) (br_app_id b) (br_request b) (qr_requested q) (qr_state q)) <$>
     merge_sort generation_le (generations_of app appID d)).
Proof.
  intros Hi Hb Ha. pose proof (inv_bind_key d Hi _ _ Hb) as [= E1 E2]. destruct (inv_bind_req d Hi _ _ Hb) as [q Hq].
  exists (MkCandidateGeneration (br_app b) (br_app_id b) (br_request b) (qr_requested q) (qr_state q)). split; [done|].
  apply list_elem_of_fmap. exists (b, q). split; [done|]. rewrite merge_sort_Permutation. unfold generations_of.
  apply list_elem_of_omap. exists b. split; [apply elem_of_rows; by eexists|]. rewrite E1, E2, Hq. by rewrite bool_decide_true.
Qed.

Lemma forgetApp_calls name app a gate d log :
  db_inv d -> t_apps d !! ar_id a = Some a -> scanApp a = Ok app ->
  mwp (K := K) (forgetApp call name app gate) d log (fun _ d' log' => same_journal d d' /\ grown marker_last log log').
Proof.
  intros Hi Ha (A1 & _ & _ & _ & A5)%scanApp_fields. pose proof (grown_refl marker_last log) as G0. unfold forgetApp.
  apply mwp_bind, mwp_map_err, mwp_bind, mwp_exec; [done|]. intros d1 n1 Hdel. pose proof (delete_routes_safe _ Hi _ _ _ Hdel) as Hi1.
  injection Hdel as <- _. set (d1 := set_routes _ d) in *.
  split; [apply mwp_ret|done]. apply mwp_or_fail with (G := grown marker_last log); [intros; by apply grown_snoc|done|]. intros _ log1 G1.
  apply mwp_or_fail with (G := grown marker_last log); [intros; by apply grown_snoc|done|]. intros _ log2 G2.
  apply mwp_bind. eapply mwp_mono with (Q := fun r d' log' => same_journal d d' /\ log' = log2 /\ forall app', r = Ok app' ->
    exists a', t_apps d' !! App_ID app' = Some a' /\ is_Some (ar_deleted a')).
  { case_bool_decide as Hdel.
    - apply mwp_map_err, mwp_mark_deleted; [done|by intros e d' Hj; split; [exact (same_journal_trans _ _ _ (conj eq_refl (conj eq_refl (conj eq_refl eq_refl))) Hj)|]|].
      intros a' app' d' Ha' Hd' Hs' Hj. split; [exact (same_journal_trans d d1 d' (conj eq_refl (conj eq_refl (conj eq_refl eq_refl))) Hj)|].
      split; [done|]. intros x [= <-]. apply scanApp_fields in Hs' as (-> & _). by exists a'.
    - apply mwp_ret. split; [done|]. split; [done|]. intros x [= <-]. exists a. rewrite A1. split; [done|]. apply A5. by apply not_eq_None_Some. }
  intros [app'|e] d2 log' (Hj & -> & Hdel); [|done]. destruct (Hdel app' eq_refl) as (a' & Ha' & Hd').
  apply mwp_or_fail with (G := grown marker_last log); [intros; apply grown_snoc; [done|]; by exists a'|done|]. intros _ log3 G3.
  by apply mwp_map_err, mwp_lift.
Qed.

(** What a deletion may have done when it ends. *)
Definition deletion_post (name : string) (d : Db) (log : list (rt_event * Db)) (d' : Db) (log' : list (rt_event * Db)) : Prop :=
  (d' = d /\ grown quiet log log') \/
  (exists a before, app_by_name name d = Some a /\ Forall (fun ed => quiet ed.1 ed.2) before /\ cleanup_confirmed name (ar_id a) d before /\
     same_journal d d' /\ grown marker_last (log ++ before)%list log').

Lemma deletion_refused name d log log' : grown quiet log log' -> deletion_post name d log d log'.
Proof. intros HG. by left. Qed.

Lemma deleteGenerations_calls name app a d log :
  db_inv d -> app_by_name name d = Some a -> scanApp a = Ok app ->
  mwp (K := K) (deleteGenerations call name app
    ((fun '(b, q) => MkCandidateGeneration (br_app b) (br_app_id b) (br_request b) (qr_requested q) (qr_state q)) <$>
       merge_sort generation_le (generations_of name (App_ID app) d))) d log (fun _ d' log' => deletion_post name d log d' log').
Proof.
  intros Hi Ha Hs. pose proof (deletion_refused name d log log (grown_refl _ _)) as R0. unfold deleteGenerations.
  destruct (FromJSON _) as [cfg|]; [|by apply mwp_throw]. apply mwp_bind, mwp_guard; [done|]. intros _.
  apply mwp_bind, mwp_lift. destruct (deletionConfigs _ _ _) as [configs|] eqn:Hcs; [|done].
  apply mwp_bind, mwp_map_err, mwp_invoke. intros [gate|e]; [|by apply deletion_refused, grown_snoc; [apply grown_refl|]].
  set (e1 := EBeginDeletion _ _ _ _). apply mwp_bind. eapply mwp_mono; [apply retireAll_calls|].
  intros [[]|e] d' log2 (-> & new2 & -> & Q2 & In2); [|apply deletion_refused; rewrite <- app_assoc; exists ((e1, d) :: new2); split; [done|by constructor]].
  apply mwp_bind. eapply mwp_mono; [apply awaitAll_calls|].
  intros [[]|e] d' log3 (-> & new3 & -> & Q3 & In3); [|apply deletion_refused; rewrite <- !app_assoc; exists ((e1, d) :: new2 ++ new3)%list; split; [done|constructor; [done|by apply Forall_app_2]]].
  rewrite <- !app_assoc. set (new := ([(e1, d)] ++ new2 ++ new3)%list).
  assert (Qn : Forall (fun ed => quiet ed.1 ed.2) new) by (constructor; [done|by apply Forall_app_2]).
  apply mwp_bind, mwp_map_err, mwp_invoke. intros r4. rewrite <- app_assoc. set (e4 := ECleanup _ _ _).
  assert (Q4 : Forall (fun ed => quiet ed.1 ed.2) (new ++ [(e4, d)])%list) by (apply Forall_app_2; [done|by constructor]).
  assert (R4 : deletion_post name d log d (log ++ new ++ [(e4, d)])%list) by (left; split; [done|]; by eexists).
  destruct r4 as [clean|e]; [|done]. apply mwp_bind, mwp_guard; intros Hc; bools; [done|].
  pose proof (app_by_name_Some _ _ _ Hi Ha) as [Hrow _]. pose proof (scanApp_fields _ _ Hs) as (A1 & _).
  eapply mwp_mono; [by eapply forgetApp_calls|]. intros r d' log' [Hj HG]. right. exists a, (new ++ [(e4, d)])%list.
  split; [done|]. split; [done|]. split; [|by split].
  exists cfg, (negb (bool_decide (App_DeletedAt app = None))), gate. rewrite <- A1. split; [by left|].
  split; [apply elem_of_app; right; apply list_elem_of_singleton; subst e4 clean; done|].
  intros id b Hb Hba. destruct (generations_all name (App_ID app) d id b Hi Hb Hba) as (g & <- & Hg).
  destruct (deletionConfigs_all _ _ _ _ Hcs g Hg) as [c Hc']. eexists c, _, _.
  split; (apply elem_of_app; left; right; apply elem_of_app); [left; by apply In2|right; by apply In3].
Qed.

(** C9: an app is forgotten only after its workloads are gone.  Whatever the
    replies and whichever driver calls fail, [tryDeleteCandidateApp] leaves the
    database and the secrets alone, or it first set the deletion fence, retired
    every bound generation, saw each of them drained and the cleanup confirmed;
    only then routes, secrets and the app row change, the journal of requests is
    kept, and the deletion marker is removed only from an app marked deleted. *)
Theorem deletion_after_cleanup name (w : world (rt K)) r w' :
  db_inv (w_db w) -> tryDeleteCandidateApp call enabled name w = (r, w') ->
  deletion_post name (w_db w) (rt_log _ (w_k w)) (w_db w') (rt_log _ (w_k w')).
Proof.
  intros Hi Hm. cut (forall d log, db_inv d -> mwp (tryDeleteCandidateApp call enabled name) d log
    (fun _ d' log' => deletion_post name d log d' log')); [intros Hc; exact (Hc _ _ Hi w r w' eq_refl eq_refl Hm)|].
  clear. intros d log Hi. pose proof (deletion_refused name d log log (grown_refl _ _)) as R0. unfold tryDeleteCandidateApp.
  apply mwp_bind, mwp_attempt, mwp_find_one; [intros e _; case_match; [by apply mwp_ret|by apply mwp_throw]|]. intros a app Ha Hs.
  apply mwp_bind, mwp_map_err, mwp_bind, mwp_query; [done|]. apply mwp_ret. case_bool_decide; [by apply mwp_ret|].
  apply mwp_bind, mwp_guard; [done|]. intros _. apply mwp_bind. eapply mwp_mono; [by eapply deleteGenerations_calls|].
  intros [x|e] d' log' Hp; [by apply mwp_ret|done].
Qed.
End handlers.
End props.
