(* ===== verification/RequestRun.v ===== *)
(** * A concrete run of the request handlers

    The controller's gate operations over the in-memory server, with a vault; the
    runs instantiate the theorems on the handlers. *)

From S2P Require Import Prelude GoStrings Regexp Sha256 GoJson GoTime Appconfig AppconfigSpec Db DbRepos DbCandidates DbInv DbSteps DbProps DbEffects DbLifecycle Security Vault Activation ActivationProps Candidate CandidateOps CandidateLogic CandidateProps CandidateRun CandidateRequests RequestLogic RequestProps.
From Stdlib Require Import Ascii String.
Local Open Scope Z_scope.

Section run.
#[local] Existing Instance forward_env.
#[local] Existing Instance sample_types.
#[local] Existing Instance mem_api.
#[local] Existing Instance shift_aead.

(** Kubernetes and the vault. *)
Definition cluster : Type := mem * vault.
Definition on_mem {A} (f : mem -> result A * mem) (k : cluster) : result A * cluster := let '(r, m) := f k.1 in (r, (m, k.2)).

#[local] Instance cluster_runtime : CandidateRuntime cluster := {|
  rt_CaptureActivationGate := fun a => on_mem (CaptureActivationGate a);
  rt_FenceActivationGate := fun g op => on_mem (FenceActivationGate "apps" g op);
  rt_ReplaceActivationTarget := fun g t => on_mem (ReplaceActivationTarget "apps" g t);
  rt_PrepareCandidateDeployment := fun _ _ _ _ k => (Ok tt, k);
  rt_ActivatePreparedCandidate := fun g cfg _ q _ => on_mem (switch g cfg q);
  rt_RetireCandidateDeployment := fun _ _ _ _ k => (Ok tt, k);
  rt_CandidateRetired := fun _ _ _ _ k => (Ok true, k);
  rt_RestoredCandidateTargetReady := fun _ _ _ k => (Ok true, k);
  rt_ReconcileCandidateRoute := fun _ _ _ k => (Ok tt, k);
  rt_EnsureCandidateRecoveryNamespace := fun k => (Ok tt, k);
  rt_CreateInactiveCandidateService := fun _ _ k => (Ok tt, k);
  rt_InitialCandidateRequest := fun g => on_mem (InitialCandidateRequest "apps" g);
  rt_ResetInactiveCandidateService := fun g _ _ _ k => (Err ErrActivationSuperseded, k) |}.

#[local] Instance cluster_services : CandidateServices cluster := {|
  sv_vault := snd;
  sv_set_vault := fun v k => (k.1, v);
  sv_PrepareCandidateDependencies := fun _ _ _ _ _ k => (Ok "", k);
  sv_CheckCandidateDeletion := fun _ k => (Ok tt, k);
  sv_RetireLegacyCandidatePredecessor := fun _ k => (Ok true, k);
  sv_PreflightHosting := fun _ k => (Ok tt, k);
  sv_BeginCandidateDeletion := fun _ _ _ k => (Ok shop_gate, k);
  sv_CleanupCandidateDeletion := fun _ _ k => (Ok true, k);
  sv_FinishCandidateDeletion := fun _ _ k => (Ok tt, k) |}.

(** A Service for [shop] with this selector and operation. *)
Definition shop_cluster (selector : gmap string string) (op : string) : cluster :=
  (Mem {["shop" := [Some (MkService "shop" "apps" "uid-1" "v" false {[appOwnershipLabel := "shop"; managedByLabel := "deployer"]}
      (if String.eqb op "" then ∅ else {[activationOperationAnnotation := op]}) (Some selector) (Some [8080%positive]))]]} 5 [], MkVault ∅ ∅ ∅ []).

(** The bootstrap of the first request: nothing is selected. *)
Definition inactive_cluster : cluster :=
  shop_cluster {[appOwnershipLabel := "shop"; candidateGenerationLabel := "inactive-" +:+ candidateGeneration "shop" shop_id]} "".

Definition start (d : Db) (k : cluster) : world (rt cluster) := World d [] (Rt cluster k []).
Definition admin_call : call_env :=
  MkCall (Some CallerAdmin) false (Ok tt) noon noon noon (Some (repeat 7 16)) (Some (repeat 9 16)).

Definition handler_event (e : rt_event) : string :=
  match e with
  | EDependencies _ _ _ _ _ _ => "dependencies" | EDeletionCheck _ _ => "deletion?" | ERetireLegacy _ _ => "retire legacy"
  | EPreflight _ _ => "preflight" | ERetire _ _ _ _ _ => "retire" | ERetired _ _ _ _ _ => "retired?"
  | EBeginDeletion _ _ _ _ => "begin deletion" | ECleanup _ _ _ => "cleanup" | EFinish _ _ _ => "finish"
  | EForgetCredentials _ _ => "forget credentials" | EForgetBundles _ _ => "forget bundles" | _ => event_kind e
  end.
Definition trace (w : world (rt cluster)) : list string := (fun ed => handler_event ed.1) <$> rt_log _ (w_k w).

(** A run as variables, with the facts that evaluation gives. *)
Lemma run_facts {A} (m : world (rt cluster) -> result A * world (rt cluster)) w l :
  is_ok (m w).1 = true -> trace (m w).2 = l -> exists a w', m w = (Ok a, w') /\ trace w' = l.
Proof. destruct (m w) as [[a|] w']; intros H1 H2; [|discriminate]. by exists a, w'. Qed.

(** ** Submission of a first release *)

Definition run_submit (w : world (rt cluster)) := deployCandidateApp admin_call false demo_config shop_id false w.

Lemma submit_facts : exists w, w_db w = empty_db /\ rt_log _ (w_k w) = [] /\ exists a w', run_submit w = (Ok a, w') /\
  trace w' = ["preflight"; "dependencies"; "capture"; "capture"; "fence"; "prepare"; "activate"; "capture"; "ready"; "route"; "capture";
              "deletion?"; "capture"; "ready"; "retire legacy"; "capture"].
Proof. exists (start empty_db inactive_cluster). do 2 (split; [reflexivity|]). apply run_facts; vm_compute; reflexivity. Qed.

Lemma submission_journaled_witness : exists w a w', run_submit w = (Ok a, w') /\ List.length (trace w') = 16%nat /\
  grown (forward_call ("shop", shop_id)) [] (rt_log _ (w_k w')).
Proof.
  destruct submit_facts as (w & Hd & Hl & a & w' & Hm & Ht). exists w, a, w'. split; [exact Hm|]. split; [by rewrite Ht|].
  unfold run_submit in Hm. rewrite <- Hl. assert (Hn : Cfg_Name demo_config = "shop") by (vm_compute; reflexivity). rewrite <- Hn.
  apply (submission_journaled admin_call false demo_config shop_id false w (Ok a) w'); [rewrite Hd; exact empty_db_inv|exact Hm].
Defined.

(** ** A journaled request: advance, or recovery *)

Definition begun_db : Db := run_ops [shop_begin] empty_db.

Lemma begun_inv : db_inv begun_db.
Proof. exact (reachable_inv _ (run_ops_steps [shop_begin] empty_db)). Qed.

Definition run_advance (w : world (rt cluster)) := AdvanceDeployRequest admin_call false true "shop" shop_id w.
Definition run_recover (w : world (rt cluster)) := RecoverDeployRequest admin_call false true "shop" shop_id w.

Lemma advance_request_facts : exists w, db_inv (w_db w) /\ rt_log _ (w_k w) = [] /\ exists a w', run_advance w = (Ok a, w') /\
  trace w' = ["dependencies"; "capture"; "capture"; "fence"; "prepare"; "activate"; "capture"; "ready"; "route"; "capture";
              "deletion?"; "capture"; "ready"; "retire legacy"; "capture"].
Proof. exists (start begun_db inactive_cluster). split; [exact begun_inv|]. split; [reflexivity|]. apply run_facts; vm_compute; reflexivity. Qed.

Lemma advance_request_journaled_witness : exists w a w', run_advance w = (Ok a, w') /\ List.length (trace w') = 15%nat /\
  grown (forward_call ("shop", shop_id)) [] (rt_log _ (w_k w')).
Proof.
  destruct advance_request_facts as (w & Hi & Hl & a & w' & Hm & Ht). exists w, a, w'. split; [exact Hm|]. split; [by rewrite Ht|].
  rewrite <- Hl. unfold run_advance in Hm. exact (advance_request_journaled admin_call false true "shop" shop_id w (Ok a) w' Hi Hm).
Defined.

Lemma recover_facts : exists w, db_inv (w_db w) /\ rt_log _ (w_k w) = [] /\ exists a w', run_recover w = (Ok a, w') /\
  trace w' = ["capture"; "capture"; "fence"; "replace"; "retire"; "retired?"; "capture"; "capture"; "route"; "capture"].
Proof. exists (start begun_db inactive_cluster). split; [exact begun_inv|]. split; [reflexivity|]. apply run_facts; vm_compute; reflexivity. Qed.

(** A decoder that knows one document. *)
Definition shop_decode (text : string) : result Config := if String.eqb text "shop" then Ok demo_config else Err (ErrSentinel "yaml").
Definition shop_withdrawal : DeployAppRequest := MkDeployAppRequest "shop" shop_id true.
Definition run_withdraw (w : world (rt cluster)) := WithdrawDeployRequest admin_call false true shop_decode shop_withdrawal w.

Lemma withdraw_facts : exists w, w_db w = empty_db /\ rt_log _ (w_k w) = [] /\ exists a w', run_withdraw w = (Ok a, w') /\
  trace w' = ["deletion?"; "capture"; "capture"; "fence"; "replace"; "retire"; "retired?"; "capture"; "capture"; "route"; "capture"].
Proof. exists (start empty_db inactive_cluster). do 2 (split; [reflexivity|]). apply run_facts; vm_compute; reflexivity. Qed.

Lemma withdrawal_restores_only_witness :
  (exists w a w', run_recover w = (Ok a, w') /\ List.length (trace w') = 10%nat /\ grown (backward_call ("shop", shop_id)) [] (rt_log _ (w_k w'))) /\
  (exists w a w', run_withdraw w = (Ok a, w') /\ List.length (trace w') = 11%nat /\ grown (backward_call ("shop", shop_id)) [] (rt_log _ (w_k w'))).
Proof.
  split.
  - destruct recover_facts as (w & Hi & Hl & a & w' & Hm & Ht). exists w, a, w'. split; [exact Hm|]. split; [by rewrite Ht|]. rewrite <- Hl. unfold run_recover in Hm.
    exact (proj1 (withdrawal_restores_only admin_call false true "shop" shop_id shop_decode shop_withdrawal demo_config w (Ok a) w' Hi) Hm).
  - destruct withdraw_facts as (w & Hd & Hl & a & w' & Hm & Ht). exists w, a, w'. split; [exact Hm|]. split; [by rewrite Ht|]. rewrite <- Hl.
    assert (Hi : db_inv (w_db w)) by (rewrite Hd; exact empty_db_inv).
    assert (Hp : Parse shop_decode (dar_DeployerYaml shop_withdrawal) = Ok demo_config) by (vm_compute; reflexivity).
    assert (Hn : Cfg_Name demo_config = "shop") by (vm_compute; reflexivity). rewrite <- Hn. unfold run_withdraw in Hm.
    exact (proj2 (withdrawal_restores_only admin_call false true "shop" shop_id shop_decode shop_withdrawal demo_config w (Ok a) w' Hi) Hp Hm).
Defined.

(** ** Two releases: reclamation and deletion *)

Definition shop2_id : string := "f123456789abcdef0123456789abcdef0123456789abcdef0123456789abcdef".
Definition shop2_state : string :=
  match Config_JSON (sample_config "shop" "registry.example.com/shop:v2" "") with Ok s => s | Err _ => "" end.
Definition shop2_intent : string :=
  json_print (JObj [("app_name", JStr "shop"); ("request_id", JStr shop2_id); ("requested_state", JStr shop2_state)]).
Definition second_release : list write_op :=
  [OpBegin (MkDeployRequest "shop" shop2_id "pending" shop2_state "" "" false "" 0 0) "app-2" "dep-2" noon;
   OpSaveIntent "shop" shop2_id shop2_intent noon;
   OpRecordGate "shop" shop2_id "prepared" "fenced" "{}" noon; OpRecordGate "shop" shop2_id "fenced" "activated" "{}" noon;
   OpFinalize "shop" shop2_id "applied" "{}" false noon].
Definition two_releases : Db := run_ops second_release applied_db.

Lemma two_releases_inv : db_inv two_releases.
Proof. exact (reachable_inv _ (steps_trans _ _ _ _ applied_reachable (run_ops_steps second_release applied_db))). Qed.

Definition second_cluster : cluster :=
  shop_cluster {[appOwnershipLabel := "shop"; candidateGenerationLabel := candidateGeneration "shop" shop2_id]} shop2_id.

Definition run_reclaim (w : world (rt cluster)) := reclaimCandidateCapacity "shop" shop2_id w.
Definition run_delete (w : world (rt cluster)) := tryDeleteCandidateApp admin_call true "shop" w.

Lemma reclaim_facts : exists w, db_inv (w_db w) /\ rt_log _ (w_k w) = [] /\ exists a w', run_reclaim w = (Ok a, w') /\
  trace w' = ["deletion?"; "capture"; "ready"; "capture"; "retire"; "retire legacy"; "retired?"; "capture"].
Proof. exists (start two_releases second_cluster). split; [exact two_releases_inv|]. split; [reflexivity|]. apply run_facts; vm_compute; reflexivity. Qed.

Lemma reclaim_spares_selected_witness : exists w a w', run_reclaim w = (Ok a, w') /\ "retire" ∈ trace w' /\
  reclaimed "shop" shop2_id [] (rt_log _ (w_k w')).
Proof.
  destruct reclaim_facts as (w & Hi & Hl & a & w' & Hm & Ht). exists w, a, w'. split; [exact Hm|].
  split; [rewrite Ht; do 4 right; left|]. rewrite <- Hl. unfold run_reclaim in Hm. exact (proj2 (reclaim_spares_selected "shop" shop2_id w (Ok a) w' Hi Hm)).
Defined.

Lemma delete_facts : exists w, db_inv (w_db w) /\ rt_log _ (w_k w) = [] /\ exists a w', run_delete w = (Ok a, w') /\
  trace w' = ["begin deletion"; "retire"; "retire"; "retired?"; "retired?"; "cleanup"; "forget credentials"; "forget bundles"; "finish"].
Proof. exists (start two_releases second_cluster). split; [exact two_releases_inv|]. split; [reflexivity|]. apply run_facts; vm_compute; reflexivity. Qed.

Lemma deletion_after_cleanup_witness : exists w a w', run_delete w = (Ok a, w') /\ "finish" ∈ trace w' /\
  deletion_post "shop" (w_db w) [] (w_db w') (rt_log _ (w_k w')).
Proof.
  destruct delete_facts as (w & Hi & Hl & a & w' & Hm & Ht). exists w, a, w'. split; [exact Hm|].
  split; [rewrite Ht; do 8 right; left|]. rewrite <- Hl. unfold run_delete in Hm. exact (deletion_after_cleanup admin_call true "shop" w (Ok a) w' Hi Hm).
Defined.
End run.
