(* ===== verification/AppService.v ===== *)
(** * The application service, without candidates (internal/server/app.go)

    Deployment with rollback and withdrawal, deletion, listing and preflight.  The
    server is the configured one, as in CandidateRequests.  Platform events are
    best effort: their recording is a call that cannot fail the handler. *)

From S2P Require Import Prelude GoStrings Regexp Sha256 GoJson GoTime Appconfig DatabaseStatus Db DbRepos DbCandidates Security Vault Activation Candidate CandidateOps CandidateRequests.
From Stdlib Require Import Ascii String.
Local Open Scope Z_scope.

Definition deploymentStatusPending : string := "pending".
Definition deploymentStatusHealthy : string := "healthy".
Definition deploymentStatusFailed : string := "failed".
Definition routeStatusPending : string := "pending".

Record PbRoute := MkPbRoute {
  pb_route_id : string; pb_route_app_id : string; pb_route_domain : string; pb_route_port : Z; pb_route_status : string; pb_route_tls : bool }.

Definition protoRoute (r : Route) : PbRoute :=
  MkPbRoute (Route_ID r) (Route_AppID r) (Route_Domain r) (wrap_i32 (Route_TargetPort r)) (Route_Status r) (Route_TLSEnabled r).

Definition protoDeployment (d : Deployment) : PbDeployment :=
  MkPbDeployment (Deployment_ID d) (Deployment_AppID d) (Deployment_Status d) (Deployment_FailureReason d)
    (formatProtoTime (Deployment_CreatedAt d)) (formatProtoTime (Deployment_UpdatedAt d)).

(** The HTTP status of an answer of the API. *)
Definition status_code (k : kube_error) : Z :=
  match k with KubeNotFound => 404 | KubeConflict => 409 | KubeAlreadyExists => 409 | KubeOther _ s => s end.

(** Follows at most [depth] wrapped errors; a joined error is ambiguous. *)
Fixpoint definitive_rejection (depth : nat) (e : error) : bool :=
  match depth with
  | O => false
  | S depth' =>
      match e with
      | ErrJoin _ _ => false
      | ErrKube k => let code := status_code k in (400 <=? code) && (code <? 500) && negb (code =? 408)
      | ErrWrap _ _ inner => definitive_rejection depth' inner
      | _ => false
      end
  end.
Definition definitiveRuntimeRejection (e : error) : bool := definitive_rejection 16 e.

(** Random identifiers of routes: for the deployment and for its rollback. *)
Record route_env := MkRouteEnv { re_route_raw : option (list Z); re_rollback_raw : option (list Z) }.

Section service.
Context `{KubeTypes} `{AppEnv} `{AEAD}.

(** The interfaces [AppRuntime], [RegistryCredentialRuntime], [DetailedAppRuntime],
    [ReportingAppRuntime] and [DatabaseReportingAppRuntime]. *)
Class AppRuntime (K : Type) := {
  ar_Reconcile : Config -> gmap string string -> string -> K -> result unit * K;
  ar_ReconcileWithRegistry : Config -> gmap string string -> string -> Credential -> K -> result unit * K;
  ar_Delete : string -> K -> result unit * K;
  ar_Status : string -> K -> result string * K;
  ar_StatusDetails : string -> K -> result (Z * Z) * K;
  ar_RuntimeStatus : string -> K -> result (string * Z * Z * list string) * K;
  ar_DatabaseStatus : string -> K -> result DatabaseStatus * K
}.

Context {K : Type} `{!CandidateRuntime K} `{!CandidateServices K} `{!AppRuntime K}.
Notation R := (M (rt K)).

Variable call : call_env.
Variable routes : route_env.
Variable routeTLSEnabled enableCandidateOperations : bool.
(** [err.Error()]: the text of an error; it is stored, no decision depends on it. *)
Variable error_text : error -> string.

Definition DeleteResources app : R _ := invoke (EDelete app) (ar_Delete app).
Definition RuntimeStatus app : R _ := invoke (EStatus app) (ar_Status app).
Definition StatusDetails app : R _ := invoke (EStatusDetails app) (ar_StatusDetails app).
Definition ResolveSecrets appID names : R _ := invoke (EResolveSecrets appID names) (on_vault (resolveSecretValues appID names)).

(** [recordEvent] *)
Definition recordEvent (type severity message appID deploymentID : string) : R unit :=
  invoke (fun _ => ERecord type severity message appID deploymentID) (fun k => (Ok tt, k)).

(** registry_credentials.go *)
Definition reconcileRuntime (cfg : Config) (values : gmap string string) (revision : string) (credential : option Credential) : R unit :=
  if String.eqb (Cfg_ImagePullCredential cfg) "" then
    invoke (EReconcile cfg values revision None) (ar_Reconcile cfg values revision)
  else
    match credential with
    | None => throw (precondition "private image pulling is unavailable")
    | Some c => invoke (EReconcile cfg values revision (Some c)) (ar_ReconcileWithRegistry cfg values revision c)
    end.

(** ** Parts of a deployment *)

Definition validateRequiredTLS (cfg : Config) : result unit :=
  check (Routing_RequireTLS (Cfg_Routing cfg) && negb routeTLSEnabled)
    (precondition "routing.requireTLS cannot be satisfied because application TLS is disabled").

Definition rejectHostingProfileRemoval (requested : Config) (existing : App) : result unit :=
  if negb (bool_decide (Cfg_Hosting requested = None)) then Ok tt
  else
    match FromJSON (App_DesiredStateJSON existing) with
    | Err _ => Err (precondition "existing app configuration cannot be read safely: %v")
    | Ok previous => check (negb (bool_decide (Cfg_Hosting previous = None)))
                       (precondition "hosting profile cannot be omitted when updating an opted-in app")
    end.

Definition parseStoredConfigForDeployment (data : string) : result Config :=
  cfg ← FromJSON data;
  if bool_decide (Cfg_Hosting cfg = None) then Ok cfg
  else
    match Validate cfg with
    | Err e => Err (ErrWrap "validate stored desired state: %w" [] e)
    | Ok _ => Ok cfg
    end.

Definition validateRequestedDomain (appName domain : string) : R unit :=
  if blank domain then mret tt
  else
    found ← attempt (RouteRepository_FindByDomain (TrimSpace domain));
    match found with
    | Err e => if errors_Is e ErrNotFound then mret tt else throw (internal "check route domain")
    | Ok route =>
        app ← or_else (internal "get route app") (AppRepository_FindByID (Route_AppID route));
        guard (negb (String.eqb (App_Name app) appName)) (ErrStatus AlreadyExists "domain is already routed")
    end.

Definition resolveConfiguredEnvironment (appName appID : string) (cfg : Config) : R (gmap string string * string) :=
  if negb (String.eqb (Cfg_EnvironmentRevision cfg) "") then
    values ← ResolveEnvironment appName (Cfg_EnvironmentRevision cfg);
    mret (values, Cfg_EnvironmentRevision cfg)
  else ResolveSecrets appID (Cfg_Secrets cfg).

Definition syncRoute (raw : option (list Z)) (app : App) (cfg : Config) (now : Z) : R unit :=
  let domainName := TrimSpace (Routing_Domain (Cfg_Routing cfg)) in
  if String.eqb domainName "" then
    or_else (internal "delete app route") (RouteRepository_DeleteByApp (App_ID app))
  else
    routeID ← or_else (internal "create route id") (lift (newID "route" raw));
    or_else (internal "sync app route")
      (RouteRepository_UpsertForApp (MkRoute routeID (App_ID app) domainName (Service_Port (Cfg_Service cfg)) routeStatusPending
         routeTLSEnabled now now)).

Definition recordDeployEvent (type severity message : string) (app : App) (deployment : Deployment) : R unit :=
  recordEvent type severity (message +:+ " for app " +:+ App_Name app) (App_ID app) (Deployment_ID deployment).

Definition recordFailedDeployment (app : App) (deployment : Deployment) (failure : error) (now : Z) : R unit :=
  _ ← attempt (DeploymentRepository_UpdateStatus (Deployment_ID deployment) deploymentStatusFailed (error_text failure) now);
  recordDeployEvent "app.deploy.failed" "error" "deployment failed" app deployment.

(** [errors.Join] of at most two errors *)
Definition errors_Join (a b : result unit) : result unit :=
  match a, b with
  | Ok _, Ok _ => Ok tt
  | Err e, Ok _ | Ok _, Err e => Err (ErrJoin e e)
  | Err e1, Err e2 => Err (ErrJoin e1 e2)
  end.

Definition rollbackAppUpdate (previous : App) (now : Z) : R unit :=
  cfg ← map_err (ErrWrap "decode last applied app configuration: %w" []) (lift (parseStoredConfigForDeployment (App_DesiredStateJSON previous)));
  '(secretValues, secretRevision) ← map_err (ErrWrap "resolve last applied app secrets: %w" [])
                                      (resolveConfiguredEnvironment (App_Name previous) (App_ID previous) cfg);
  registryCredential ← resolveRuntimeRegistry cfg;
  resources ← attempt (map_err (ErrWrap "restore app resources: %w" []) (reconcileRuntime cfg secretValues secretRevision registryCredential));
  route ← attempt (map_err (ErrWrap "restore app route: %w" []) (syncRoute (re_rollback_raw routes) previous cfg now));
  lift (errors_Join resources route).


(** The context of completion survives the caller's cancellation. *)
Definition completeDeploymentRequest (appName requestID state : string) (response : DeployAppResponse) (now : Z) : R unit :=
  DeploymentRequestRepository_Complete appName requestID state (json_print (enc_DeployAppResponse response)) now.

(** [withdrawalErr]: remove what a new or deleted app left, or restore the app. *)
Definition removeResources (app : App) : R unit :=
  _ ← DeleteResources (App_Name app);
  RouteRepository_DeleteByApp (App_ID app).

Definition compensate (app : App) (previous : option App) (now : Z) : R unit :=
  match previous with
  | None =>
      _ ← removeResources app;
      _ ← AppRepository_MarkDeleted (App_Name app) now;
      mret tt
  | Some previous =>
      _ ← (if bool_decide (is_Some (App_DeletedAt previous)) then removeResources app else rollbackAppUpdate previous now);
      AppRepository_Update previous
  end.

Definition failedDeployment (deployment : Deployment) : Deployment :=
  MkDeployment (Deployment_ID deployment) (Deployment_AppID deployment) deploymentStatusFailed (Deployment_FailureReason deployment)
    (Deployment_CreatedAt deployment) (Deployment_UpdatedAt deployment).

Definition withdrawFailedDeployment (app : App) (deployment : Deployment) (cfg : Config) (previous : option App) (now : Z) (requestID : string)
    : R DeployAppResponse :=
  _ ← or_else (internal "deployment withdrawal failed") (compensate app previous now);
  _ ← or_else (internal "deployment withdrawal failed")
        (DeploymentRepository_UpdateStatus (Deployment_ID deployment) deploymentStatusFailed "deployment withdrawn after failed apply" now);
  let deployment := failedDeployment deployment in
  _ ← recordDeployEvent "app.deploy.failed" "error" "deployment withdrawn" app deployment;
  responseApp ←
    (match previous with
     | Some previous => mret previous
     | None =>
         restored ← attempt (AppRepository_FindByName (App_Name app));
         mret (match restored with Ok restored => restored | Err _ => app end)
     end);
  appProto ← or_else (internal "encode withdrawn app") (lift (protoApp responseApp));
  requestedState ← or_else (internal "encode withdrawal state") (lift (Config_JSON cfg));
  let response := MkDeployAppResponse (Some appProto) (Some (protoDeployment deployment)) true requestedState in
  _ ← (if negb (String.eqb requestID "") then
         or_else (internal "persist deployment withdrawal") (completeDeploymentRequest (Cfg_Name cfg) requestID "withdrawn" response now)
       else mret tt);
  mret response.

(** ** DeployApp *)

(** An untracked deployment or a deletion waits for the pending request. *)
Definition refusePending (app : string) : R unit :=
  found ← attempt (DeploymentRequestRepository_PendingByApp app);
  match found with
  | Ok _ => throw (precondition "a tracked deployment request is pending")
  | Err e => guard (negb (errors_Is e ErrNotFound)) (internal "read pending deployment request")
  end.

(** A request that was submitted before: its saved result, or a refusal. *)
Definition replayRequest (cfg : Config) (requestID desiredState : string) (report : bool) : R (option DeployAppResponse) :=
  found ← attempt (DeploymentRequestRepository_Find (Cfg_Name cfg) requestID);
  match found with
  | Ok existing =>
      _ ← guard (negb (String.eqb (Req_RequestedState existing) desiredState) || negb (Bool.eqb (Req_ReportWithdrawal existing) report))
            (ErrStatus AlreadyExists "request_id is already bound to another deployment");
      if negb (String.eqb (Req_State existing) "pending") then
        match unmarshalReply (Req_ResponseJSON existing) with
        | Some response => mret (Some response)
        | None => throw (internal "stored deployment result is invalid")
        end
      else throw (precondition "deployment request is pending")
  | Err e =>
      _ ← guard (negb (errors_Is e ErrNotFound)) (internal "read deployment request");
      mret None
  end.

(** [Some]: the saved result of the request that [Begin] found. *)
Definition beginTracked (cfg : Config) (requestID desiredState : string) (report : bool) (now : Z) : R (option DeployAppResponse) :=
  '(stored, created) ← or_else (precondition "begin deployment request")
    (DeploymentRequestRepository_Begin (MkDeployRequest (Cfg_Name cfg) requestID "pending" desiredState "" "" report "" now now));
  if (created : bool) then mret None
  else
    let saved := if negb (String.eqb (Req_State stored) "pending") then unmarshalReply (Req_ResponseJSON stored) else None in
    match saved with
    | Some response => mret (Some response)
    | None => throw (precondition "deployment request is pending")
    end.

(** The app as the deployment will store it, and what to go back to.  An active
    app keeps its row until the new configuration is applied. *)
Definition placeApp (cfg : Config) (desiredState : string) (report : bool) (now : Z) : R (App * option App) :=
  found ← attempt (AppRepository_FindByName (Cfg_Name cfg));
  match found with
  | Err e =>
      _ ← guard (negb (errors_Is e ErrNotFound)) (internal "find app");
      appID ← or_else (internal "create app id") (lift (newID "app" (ce_app_raw call)));
      let app := MkApp appID (Cfg_Name cfg) (Cfg_Image cfg) desiredState now now None in
      _ ← or_else (internal "create app") (AppRepository_Create app);
      mret (app, None)
  | Ok existing =>
      _ ← lift (rejectHostingProfileRemoval cfg existing);
      let wasDeleted := bool_decide (is_Some (App_DeletedAt existing)) in
      let app := MkApp (App_ID existing) (App_Name existing) (Cfg_Image cfg) desiredState (App_CreatedAt existing) now None in
      _ ← (if wasDeleted then or_else (internal "update app") (AppRepository_Update app) else mret tt);
      mret (app, if negb wasDeleted || report then Some existing else None)
  end.

(** The values of the release: of the bundle, read before the request began, or
    of the app's secrets; a failure is recorded. *)
Definition releaseValues (cfg : Config) (bundle : option (gmap string string)) (app : App) (deployment : Deployment) (now : Z)
    : R (gmap string string * string) :=
  match bundle with
  | Some values => mret (values, Cfg_EnvironmentRevision cfg)
  | None =>
      found ← attempt (resolveConfiguredEnvironment (App_Name app) (App_ID app) cfg);
      match found with
      | Ok values => mret values
      | Err e =>
          let e := if is_missing_secret e then precondition "required secret %q is not set" else e in
          _ ← recordFailedDeployment app deployment e now;
          throw e
      end
  end.

(** What is reported when the rollback fails too. *)
Definition and_rollback (e rollbackErr : error) : error :=
  ErrWrap "%w; rollback to the last applied app configuration failed: %v" [AStr (error_text rollbackErr)] e.
Definition route_and_rollback (_ _ : error) : error := internal "%v; rollback to the last applied app configuration failed: %v".

(** Go back to the previous app, if there is one: the error to report. *)
Definition rollbackWith (combine : error -> error -> error) (previous : option App) (now : Z) (e : error) : R error :=
  match previous with
  | None => mret e
  | Some previous =>
      rollback ← attempt (rollbackAppUpdate previous now);
      mret (match rollback with Ok _ => e | Err e' => combine e e' end)
  end.

(** A failed apply, route or commit: withdraw, or roll back and record. *)
Definition failRelease (withdraw : bool) (cfg : Config) (requestID : string) (app : App) (previous : option App) (deployment : Deployment)
    (now : Z) (combine : error -> error -> error) (report_as : error -> error) (e : error) : R DeployAppResponse :=
  if withdraw then withdrawFailedDeployment app deployment cfg previous now requestID
  else
    e ← rollbackWith combine previous now e;
    _ ← recordFailedDeployment app deployment e now;
    throw (report_as e).

(** After the commit of the app: the deployment is healthy and the request, if
    tracked, is applied with its result. *)
Definition finishRelease (cfg : Config) (requestID desiredState : string) (app : App) (deployment : Deployment) (now : Z) : R DeployAppResponse :=
  _ ← or_else (internal "mark deployment healthy") (DeploymentRepository_UpdateStatus (Deployment_ID deployment) deploymentStatusHealthy "" now);
  let deployment := MkDeployment (Deployment_ID deployment) (Deployment_AppID deployment) deploymentStatusHealthy
                      (Deployment_FailureReason deployment) (Deployment_CreatedAt deployment) (Deployment_UpdatedAt deployment) in
  _ ← recordDeployEvent "app.deploy.succeeded" "info" "deployment applied" app deployment;
  appProto ← or_else (internal "decode desired state") (lift (protoApp app));
  if negb (String.eqb requestID "") then
    let response := MkDeployAppResponse (Some appProto) (Some (protoDeployment deployment)) false desiredState in
    _ ← or_else (internal "persist deployment result") (completeDeploymentRequest (Cfg_Name cfg) requestID "applied" response now);
    mret response
  else mret (MkDeployAppResponse (Some appProto) (Some (protoDeployment deployment)) false "").

Definition applyRelease (cfg : Config) (requestID desiredState : string) (report : bool) (values : gmap string string) (revision : string)
    (credential : option Credential) (app : App) (previous : option App) (deployment : Deployment) (now : Z) : R DeployAppResponse :=
  let fail withdraw := failRelease withdraw cfg requestID app previous deployment now in
  applied ← attempt (reconcileRuntime cfg values revision credential);
  match applied with
  | Err e => fail (report && definitiveRuntimeRejection e) and_rollback (fun _ => internal "apply app resources: %v") e
  | Ok _ =>
      routed ← attempt (syncRoute (re_route_raw routes) app cfg now);
      match routed with
      | Err e => fail report route_and_rollback id e
      | Ok _ =>
          committed ← (if bool_decide (is_Some previous) then attempt (AppRepository_Update app) else mret (Ok tt));
          match committed with
          | Err e => fail report and_rollback (fun _ => internal "commit applied app configuration: %v") e
          | Ok _ => finishRelease cfg requestID desiredState app deployment now
          end
      end
  end.

(** From the app on: the deployment is recorded, then applied. *)
Definition releaseApp (cfg : Config) (requestID desiredState : string) (report : bool) (bundle : option (gmap string string))
    (credential : option Credential) (now : Z) : R DeployAppResponse :=
  '(app, previous) ← placeApp cfg desiredState report now;
  deploymentID ← or_else (internal "create deployment id") (lift (newID "deploy" (ce_deploy_raw call)));
  let deployment := MkDeployment deploymentID (App_ID app) deploymentStatusPending "" now now in
  _ ← or_else (internal "create deployment") (DeploymentRepository_Create deployment);
  _ ← recordDeployEvent "app.deploy.started" "info" "deployment started" app deployment;
  '(values, revision) ← releaseValues cfg bundle app deployment now;
  applyRelease cfg requestID desiredState report values revision credential app previous deployment now.

(** Everything that can be refused before the first write. *)
Definition admitRelease (cfg : Config) : R (option (gmap string string) * option Credential) :=
  bundle ← (if negb (String.eqb (Cfg_EnvironmentRevision cfg) "") then
              values ← ResolveEnvironment (Cfg_Name cfg) (Cfg_EnvironmentRevision cfg); mret (Some values)
            else mret None);
  credential ← resolveRuntimeRegistry cfg;
  _ ← preflightHosting cfg;
  _ ← validateRequestedDomain (Cfg_Name cfg) (Routing_Domain (Cfg_Routing cfg));
  mret (bundle, credential).

(** The path without candidates; [requestID] is empty when untracked. *)
Definition deployDirect (cfg : Config) (requestID desiredState : string) (report : bool) : R DeployAppResponse :=
  let tracked := negb (String.eqb requestID "") in
  replayed ← (if tracked then replayRequest cfg requestID desiredState report else mret None);
  match replayed with
  | Some response => mret response
  | None =>
      '(bundle, credential) ← admitRelease cfg;
      let now := ce_begin call in
      begun ← (if tracked then beginTracked cfg requestID desiredState report now else mret None);
      match begun with
      | Some response => mret response
      | None => releaseApp cfg requestID desiredState report bundle credential now
      end
  end.

(** [decode]: the YAML decoder, which refuses unknown fields. *)
Definition parseDeployment (decode : string -> result Config) (yaml : string) : result Config :=
  _ ← check (blank yaml) (ErrStatus InvalidArgument "deployer_yaml is required");
  match Parse decode yaml with
  | Err _ => Err (ErrStatus InvalidArgument "%v")
  | Ok cfg => _ ← validateRequiredTLS cfg; Ok cfg
  end.

(** A tracked, hosted app without storage goes through candidates. *)
Definition candidatePath (cfg : Config) (tracked : bool) : bool :=
  tracked && enableCandidateOperations && negb (bool_decide (Cfg_Hosting cfg = None)) && bool_decide (Cfg_Storage cfg = None).

Definition DeployApp (decode : string -> result Config) (req : DeployAppRequest) : R DeployAppResponse :=
  _ ← lift (requireCaller (ce_caller call) CallerAdmin);
  cfg ← lift (parseDeployment decode (dar_DeployerYaml req));
  let requestID := TrimSpace (dar_RequestID req) in
  let tracked := negb (String.eqb requestID "") in
  _ ← guard (tracked && negb (ValidRevision requestID))
        (ErrStatus InvalidArgument "request_id must be a 64 character lowercase hexadecimal value");
  _ ← lift (ce_lock call);
  _ ← checkCandidateDeletion (Cfg_Name cfg);
  _ ← (if negb tracked then refusePending (Cfg_Name cfg) else mret tt);
  desiredState ← or_else (internal "encode desired state") (lift (Config_JSON cfg));
  if candidatePath cfg tracked
  then deployCandidateApp call routeTLSEnabled cfg (dar_RequestID req) (dar_ReportWithdrawal req)
  else deployDirect cfg requestID desiredState (dar_ReportWithdrawal req).

(** ** app_preflight.go *)

Definition preflight_warnings (cfg : Config) : list string :=
  (["preflight is a read-only snapshot and does not reserve capacity";
    "backup and restore evidence, alert delivery, external availability monitoring, off-host audit retention, fleet pins, and CNI enforcement require separate verification"] ++
   (if bool_decide (Cfg_Hosting cfg = None) then ["hosting profile is not declared; legacy rendering would be used"] else []) ++
   (if bool_decide (Cfg_Storage cfg = None) then []
    else ["retained local storage is a single-node, single-copy dependency; PVC retention does not provide backup or failover"]))%list.

Definition PreflightApp (decode : string -> result Config) (yaml : string) : R (string * list string) :=
  _ ← lift (requireCaller (ce_caller call) CallerAdmin);
  cfg ← lift (parseDeployment decode yaml);
  _ ← checkCandidateDeletion (Cfg_Name cfg);
  _ ← resolveRuntimeRegistry cfg;
  _ ← resolveValues cfg;
  _ ← preflightHosting cfg;
  existing ← attempt (AppRepository_FindByName (Cfg_Name cfg));
  _ ← (match existing with
       | Ok existing => lift (rejectHostingProfileRemoval cfg existing)
       | Err e => guard (negb (errors_Is e ErrNotFound)) (internal "find app")
       end);
  _ ← validateRequestedDomain (Cfg_Name cfg) (Routing_Domain (Cfg_Routing cfg));
  desiredState ← or_else (internal "encode desired state") (lift (Config_JSON cfg));
  mret (desiredState, preflight_warnings cfg).

(** ** Deletion *)

Definition DeleteApp (rawName : string) : R PbApp :=
  _ ← lift (requireCaller (ce_caller call) CallerAdmin);
  let name := TrimSpace rawName in
  _ ← guard (String.eqb name "") (ErrStatus InvalidArgument "name is required");
  _ ← lift (ce_lock call);
  _ ← refusePending name;
  handled ← tryDeleteCandidateApp call enableCandidateOperations name;
  match handled with
  | Some response => mret response
  | None =>
      app ← map_err (fun e => if errors_Is e ErrNotFound then ErrStatus NotFound "app not found" else internal "get app")
              (AppRepository_FindActiveByName name);
      _ ← or_else (internal "delete app resources") (DeleteResources (App_Name app));
      _ ← or_else (internal "delete app routes") (RouteRepository_DeleteByApp (App_ID app));
      _ ← or_else (internal "delete app registry credentials") (ForgetCredentials (App_Name app));
      _ ← or_else (internal "delete app environment bundles") (ForgetBundles (App_Name app));
      app ← or_else (internal "delete app") (AppRepository_MarkDeleted name (ce_begin call));
      or_else (internal "decode desired state") (lift (protoApp app))
  end.
(** ** Listing and inspection *)

Fixpoint protoApps (l : list App) : result (list PbApp) :=
  match l with
  | [] => Ok []
  | app :: l' =>
      p ← (match protoApp app with Ok p => Ok p | Err _ => Err (internal "decode desired state") end);
      rest ← protoApps l';
      Ok (p :: rest)
  end.

Definition ListApps : R (list PbApp) :=
  _ ← lift (requireCaller (ce_caller call) CallerAdmin);
  apps ← or_else (internal "list apps") AppRepository_List;
  lift (protoApps apps).

Definition is_degraded (status : string) : bool := String.eqb status "degraded" || String.eqb status "unavailable".

(** The replica counts only go into the metadata of the events. *)
Definition recordRouteHealthTransition (app : App) (route : Route) (previousStatus newStatus : string) : R unit :=
  let isDegraded := is_degraded newStatus in
  if Bool.eqb (is_degraded previousStatus) isDegraded then mret tt
  else
    _ ← attempt (StatusDetails (App_Name app));
    if isDegraded then
      _ ← recordEvent "route.degraded" "warning" ("route " +:+ Route_Domain route +:+ " is degraded") (App_ID app) "";
      recordEvent "app.health.degraded" "warning" ("app " +:+ App_Name app +:+ " health is degraded") (App_ID app) ""
    else
      _ ← recordEvent "route.recovered" "info" ("route " +:+ Route_Domain route +:+ " recovered") (App_ID app) "";
      recordEvent "app.health.recovered" "info" ("app " +:+ App_Name app +:+ " health recovered") (App_ID app) "".

(** [clock]: what [s.now()] reads. *)
Definition refreshRouteStatus (clock : Z) (app : App) (route : Route) : R Route :=
  runtimeStatus ← or_else (internal "read route status") (RuntimeStatus (App_Name app));
  if String.eqb runtimeStatus (Route_Status route) then mret route
  else
    let refreshed := MkRoute (Route_ID route) (Route_AppID route) (Route_Domain route) (Route_TargetPort route) runtimeStatus
                       (Route_TLSEnabled route) (Route_CreatedAt route) clock in
    _ ← or_else (internal "update route status") (RouteRepository_UpdateStatus (Route_ID route) runtimeStatus clock);
    _ ← recordRouteHealthTransition app refreshed (Route_Status route) runtimeStatus;
    mret refreshed.

(** One reading of the clock per route. *)
Fixpoint refreshAll (clock : nat -> Z) (owner : Route -> R App) (l : list Route) : R (list Route) :=
  match l with
  | [] => mret []
  | route :: l' =>
      app ← owner route;
      route ← refreshRouteStatus (clock O) app route;
      rest ← refreshAll (fun n => clock (S n)) owner l';
      mret (route :: rest)
  end.

Definition routeApp (route : Route) : R App := or_else (internal "get route app") (AppRepository_FindByID (Route_AppID route)).

Definition ListRoutes (clock : nat -> Z) : R (list PbRoute) :=
  _ ← lift (requireCaller (ce_caller call) CallerAdmin);
  routes ← or_else (internal "list routes") RouteRepository_List;
  routes ← refreshAll clock routeApp routes;
  mret (protoRoute <$> routes).

Definition InspectRoute (domain : string) : R PbRoute :=
  _ ← lift (requireCaller (ce_caller call) CallerAdmin);
  let domainName := TrimSpace domain in
  _ ← guard (String.eqb domainName "") (ErrStatus InvalidArgument "domain is required");
  route ← map_err (fun e => if errors_Is e ErrNotFound then ErrStatus NotFound "route not found" else internal "get route")
            (RouteRepository_FindByDomain domainName);
  app ← routeApp route;
  route ← refreshRouteStatus (ce_begin call) app route;
  mret (protoRoute route).

Definition activeApp (absent : error) (rawName : string) : R App :=
  let name := TrimSpace rawName in
  _ ← guard (String.eqb name "") absent;
  map_err (fun e => if errors_Is e ErrNotFound then ErrStatus NotFound "app not found" else internal "get app")
    (AppRepository_FindActiveByName name).

Definition inspectApp (clock : nat -> Z) (name : string) : R (App * list Deployment * list Route) :=
  _ ← lift (requireCaller (ce_caller call) CallerAdmin);
  app ← activeApp (ErrStatus InvalidArgument "name is required") name;
  deployments ← or_else (internal "list app deployments") (DeploymentRepository_ListByApp (App_ID app));
  routes ← or_else (internal "list app routes") (RouteRepository_ListByApp (App_ID app));
  routes ← refreshAll clock (fun _ => mret app) routes;
  mret (app, deployments, routes).

(** [InspectApp] and [GetApp] build the same reply. *)
Definition InspectApp (clock : nat -> Z) (name : string) : R (PbApp * list PbDeployment * list PbRoute) :=
  '(app, deployments, routes) ← inspectApp clock name;
  appProto ← or_else (internal "decode desired state") (lift (protoApp app));
  mret (appProto, protoDeployment <$> deployments, protoRoute <$> routes).
Definition GetApp := InspectApp.

Record GetAppStatusResponse := MkGetAppStatusResponse {
  gas_App : PbApp; gas_LatestDeployment : option PbDeployment; gas_Routes : list PbRoute; gas_RuntimeStatus : string;
  gas_DesiredReplicas : Z; gas_AvailableReplicas : Z; gas_RunningNodes : list string; gas_Warnings : list warning;
  gas_Database : option PbDatabaseStatus }.

(** The runtime is asked for the database only when one is configured. *)
Definition databaseReply (cfg : Config) (app : string) : R (option PbDatabaseStatus * list warning) :=
  if bool_decide (Database_Postgres (Cfg_Database cfg) = None) then mret (None, [])
  else
    reply ← attempt (invoke (fun r => EDatabaseStatus app (is_ok r)) (ar_DatabaseStatus app));
    mret (appendDatabaseStatus reply cfg).

Definition GetAppStatus (clock : nat -> Z) (name : string) : R GetAppStatusResponse :=
  '(app, deployments, routes) ← inspectApp clock name;
  appProto ← or_else (internal "decode desired state") (lift (protoApp app));
  cfg ← or_else (internal "decode desired state") (lift (FromJSON (App_DesiredStateJSON app)));
  '(state, desired, available, nodes) ← or_else (internal "read app runtime status")
    (invoke (ERuntimeStatus (App_Name app)) (ar_RuntimeStatus (App_Name app)));
  '(database, warnings) ← databaseReply cfg (App_Name app);
  mret (MkGetAppStatusResponse appProto (protoDeployment <$> head deployments) (protoRoute <$> routes) state desired available nodes
          (runtimeWarnings cfg state desired available nodes ++ warnings)%list database).

(** ** secret.go *)

Definition on_secrets {A} (ev : result A -> rt_event) (m : ST vault A) : R A := invoke ev (on_vault m).

Definition appAndSecretName (appName name : string) : R (App * string) :=
  app ← activeApp (ErrStatus InvalidArgument "app_name is required") appName;
  let name := TrimSpace name in
  _ ← guard (negb (is_ok (ValidateSecretName name))) (ErrStatus InvalidArgument "%v");
  mret (app, name).

Definition reconcileReferencedSecret (app : App) (name : string) : R unit :=
  cfg ← or_else (internal "decode desired state") (lift (parseStoredConfigForDeployment (App_DesiredStateJSON app)));
  if negb (referencesSecret (Cfg_Secrets cfg) name) then mret tt
  else
    found ← attempt (ResolveSecrets (App_ID app) (Cfg_Secrets cfg));
    match found with
    | Err e => if is_missing_secret e then mret tt else throw e
    | Ok (values, revision) =>
        credential ← resolveRuntimeRegistry cfg;
        or_else (internal "apply updated app secret") (reconcileRuntime cfg values revision credential)
    end.

Definition secret_message (name verb appName : string) : string := "secret " +:+ name +:+ " " +:+ verb +:+ " for app " +:+ appName.

(** [nonce]: what [rand.Reader] gives to [Encrypt]. *)
Definition SetSecret (nonce : option (list Z)) (appName name value : string) : R unit :=
  _ ← lift (requireCaller (ce_caller call) CallerAdmin);
  '(app, name) ← appAndSecretName appName name;
  cfg ← or_else (precondition "stored app configuration is invalid") (lift (parseStoredConfigForDeployment (App_DesiredStateJSON app)));
  _ ← preflightHosting cfg;
  found ← attempt (on_secrets (fun r => EFindSecret (App_ID app) name (is_ok r)) (SecretRepository_Find (App_ID app) name));
  _ ← (match found with Err e => guard (negb (errors_Is e ErrNotFound)) (internal "read secret") | Ok _ => mret tt end);
  ciphertext ← or_else (internal "encrypt secret") (lift (Encrypt nonce value));
  let now := ce_begin call in
  _ ← or_else (internal "set secret") (on_secrets (ESetSecret (App_ID app) name) (SecretRepository_Set (MkSecret (App_ID app) name ciphertext now now)));
  _ ← (if is_ok found then recordEvent "secret.updated" "info" (secret_message name "updated" (App_Name app)) (App_ID app) ""
       else recordEvent "secret.created" "info" (secret_message name "created" (App_Name app)) (App_ID app) "");
  reconcileReferencedSecret app name.

Definition ListSecrets (appName : string) : R (list string) :=
  _ ← lift (requireCaller (ce_caller call) CallerAdmin);
  app ← activeApp (ErrStatus InvalidArgument "app_name is required") appName;
  or_else (internal "list secrets") (on_secrets (EListSecrets (App_ID app)) (SecretRepository_ListNamesByApp (App_ID app))).

Definition DeleteSecret (appName name : string) : R unit :=
  _ ← lift (requireCaller (ce_caller call) CallerAdmin);
  '(app, name) ← appAndSecretName appName name;
  cfg ← or_else (internal "decode desired state") (lift (parseStoredConfigForDeployment (App_DesiredStateJSON app)));
  _ ← guard (referencesSecret (Cfg_Secrets cfg) name) (precondition "secret is referenced by app configuration");
  _ ← map_err (fun e => if errors_Is e ErrNotFound then ErrStatus NotFound "secret not found" else internal "delete secret")
        (on_secrets (EDeleteSecret (App_ID app) name) (SecretRepository_Delete (App_ID app) name));
  recordEvent "secret.deleted" "info" ("secret " +:+ name +:+ " deleted for app " +:+ App_Name app) (App_ID app) "".
End service.
