(* ===== verification/AppServiceLogic.v ===== *)
(** * Reasoning about the application service

    [quiet T m]: the part [m] of a handler leaves the table of apps as it is,
    whatever it calls; the writes of apps have rules of their own. *)

From S2P Require Import Prelude GoStrings Regexp Sha256 GoJson GoTime Appconfig Db DbRepos DbCandidates DbInv DbSteps DbEffects Security Vault Activation Candidate CandidateOps CandidateLogic CandidateProps CandidateRequests RequestLogic AppService.
From Stdlib Require Import Ascii String.
Local Open Scope Z_scope.

(** ** Writes that do not touch the apps *)

Definition same_apps {K A} (m : M K A) : Prop := forall w r w', m w = (r, w') -> t_apps (w_db w') = t_apps (w_db w).

Section same.
Context {K : Type}.

Lemma same_exec f : (forall d d' n, f d = Ok (d', n) -> t_apps d' = t_apps d) -> same_apps (db_exec f : M K Z).
Proof. intros Hf w r w' [_ [->|(d & n & E & ->)]]%db_exec_inv; [done|by eapply Hf]. Qed.

Lemma same_guard b e : same_apps (guard b e : M K unit).
Proof. by intros w r w' [= <- <-]. Qed.

Lemma same_bind {A B} (m : M K A) (f : A -> M K B) : same_apps m -> (forall a, same_apps (f a)) -> same_apps (mbind f m).
Proof.
  intros Hm Hf w r w' [(e & He & _)|(a & w1 & Ha & Hb)]%st_bind_inv; [by eapply Hm|]. rewrite (Hf _ _ _ _ Hb). by eapply Hm.
Qed.

Lemma same_affected f : (forall d d' n, f d = Ok (d', n) -> t_apps d' = t_apps d) -> same_apps (mapRowsAffected (db_exec f) : M K unit).
Proof. intros Hf. apply same_bind; [by apply same_exec|intros; apply same_guard]. Qed.

Lemma same_done f : (forall d d' n, f d = Ok (d', n) -> t_apps d' = t_apps d) -> same_apps (_ ← db_exec f; mret tt : M K unit).
Proof. intros Hf. apply same_bind; [by apply same_exec|]. by intros _ w r w' [= <- <-]. Qed.

Ltac effects := intros d d' n Hx; cbv [insert_deployment update_deployment delete_routes update_route insert_route upsert_route finish_request complete_request
                  mbind result_bind check] in Hx; repeat case_match; simplify_eq; reflexivity.

Lemma same_deployment_create x : same_apps (DeploymentRepository_Create x : M K unit).
Proof. apply same_done. effects. Qed.
Lemma same_deployment_status id s f u : same_apps (DeploymentRepository_UpdateStatus id s f u : M K unit).
Proof. apply same_affected. effects. Qed.
Lemma same_route_upsert r : same_apps (RouteRepository_UpsertForApp r : M K unit).
Proof. apply same_done. effects. Qed.
Lemma same_route_delete id : same_apps (RouteRepository_DeleteByApp id : M K unit).
Proof. apply same_done. effects. Qed.
Lemma same_route_status id s u : same_apps (RouteRepository_UpdateStatus id s u : M K unit).
Proof. apply same_affected. effects. Qed.
Lemma same_request_complete app id s r u : same_apps (DeploymentRequestRepository_Complete app id s r u : M K unit).
Proof. apply same_bind; [apply same_guard|]. intros _. apply same_affected. effects. Qed.
End same.

(** ** Begin of a tracked request *)

Section begin.
Context {K : Type}.

(** Refused, found, or inserted. *)
Definition request_begun (req : DeployRequest) (d : Db) (r : result (DeployRequest * bool)) (d' : Db) : Prop :=
  match r with
  | Ok (stored, false) => d' = d /\ exists row, t_requests d !! (Req_AppName req, Req_RequestID req) = Some row /\ scanRequest row = Ok stored
  | Ok (_, true) => t_apps d' = t_apps d /\ pending_of_app (Req_AppName req) d = None /\ pending_in (Req_AppName req, Req_RequestID req) d'
  | Err _ => t_apps d' = t_apps d /\ (d' = d \/ pending_of_app (Req_AppName req) d = None)
  end.

Lemma insert_request_begun r d d' n : insert_request r d = Ok (d', n) -> qr_state r = "pending" ->
  t_apps d' = t_apps d /\ pending_of_app (qr_app r) d = None /\ pending_in (qr_app r, qr_id r) d'.
Proof.
  unfold insert_request. rewrite !check_bind. intros (_ & _ & Hp & [= <- _]) Hs. split; [done|]. rewrite Hs, String.eqb_refl in Hp. cbn [andb] in Hp.
  bools. split; [by apply eq_None_not_Some|]. exists r. cbn. by rewrite lookup_insert_eq.
Qed.

Lemma begin_request_effect req (w : world K) r w' : db_inv (w_db w) -> DeploymentRequestRepository_Begin req w = (r, w') ->
  w_k w' = w_k w /\ db_inv (w_db w') /\ request_begun req (w_db w) r (w_db w').
Proof.
  intros Hi Hf. destruct (safe_request_begin req w r w' Hi Hf) as [Hs Hk]. split; [done|]. split; [by eapply safe_steps_inv|].
  assert (Hrefused : forall e, request_begun req (w_db w) (Err e) (w_db w)) by (intros e; split; [done|by left]).
  unfold DeploymentRequestRepository_Begin in Hf. apply st_bind_inv in Hf as [(e & [= _ <-] & ->)|(u & w1 & [= _ <-] & Hf)]; [done|].
  apply (in_tx_wp _ w (fun r d' => request_begun req (w_db w) r d')) in Hf as [Hp _]; [exact Hp|done|].
  unfold begin_request_tx. apply wp_bind, wp_query; [done|]. destruct (t_requests (w_db w) !! _) as [row|] eqn:Hrow.
  - apply wp_bind, wp_lift. destruct (scanRequest row) as [saved|] eqn:Hsc; [|done]. apply wp_bind, wp_guard; intros _; [done|].
    apply wp_ret. split; [done|]. by exists row.
  - apply wp_bind, wp_query; [done|]. cbv zeta. apply wp_bind, wp_exec; [done|]. intros d1 n1 (Ha & Hp & Hin)%insert_request_begun; [|done].
    apply wp_bind, wp_commit; [done|split; [done|by right]|]. by apply wp_ret.
Qed.

End begin.

Lemma mwp_request_begin `{KubeTypes} {K} req d log (Q : result (DeployRequest * bool) -> Db -> list (rt_event * Db) -> Prop) :
  db_inv d -> (forall r d', db_inv d' -> request_begun req d r d' -> Q r d' log) ->
  mwp (K := K) (DeploymentRequestRepository_Begin req) d log Q.
Proof. intros Hi HQ w r w' <- <- Hf. destruct (begin_request_effect _ _ _ _ Hi Hf) as (-> & Hi' & Hb). by apply HQ. Qed.

(** ** Parts that leave the apps alone *)

Section quiet.
Context `{KubeTypes} `{AppEnv} `{AEAD} {K : Type} `{!CandidateRuntime K} `{!CandidateServices K} `{!AppRuntime K}.
Notation R := (M (rt K)).

Definition quiet (T : gmap string app_row) {A} (m : R A) : Prop := calls (fun d => t_apps d = T) (fun _ _ => True) m.

Lemma quiet_write T {A} (m : R A) : safe_op m -> same_apps m -> quiet T m.
Proof.
  intros Hs Ha d log Hi HT w r w' <- <- Hm. destruct (Hs _ _ _ Hi Hm) as [Hst Hk]. rewrite Hk.
  split; [by eapply safe_steps_inv|]. split; [|apply grown_refl]. rewrite <- HT. by eapply Ha.
Qed.

(** A quiet part, then the rest. *)
Lemma mwp_quiet {A} (m : R A) d log (Q : result A -> Db -> list (rt_event * Db) -> Prop) :
  quiet (t_apps d) m -> db_inv d -> (forall r d' new, db_inv d' -> t_apps d' = t_apps d -> Q r d' (log ++ new)%list) -> mwp m d log Q.
Proof. intros Hm Hi HQ. eapply mwp_mono; [by apply Hm|]. intros r d' log' (Hi' & HT & [new [-> _]]). by apply HQ. Qed.

(** A part that leaves the database alone, then the rest. *)
Lemma mwp_reads {A} (m : R A) d log (Q : result A -> Db -> list (rt_event * Db) -> Prop) :
  calls (fun x => x = d) (fun _ _ => True) m -> db_inv d -> (forall r new, Q r d (log ++ new)%list) -> mwp m d log Q.
Proof. intros Hm Hi HQ. eapply mwp_mono; [by apply Hm|]. intros r d' log' (_ & -> & [new [-> _]]). by apply HQ. Qed.

(** What a handler can answer, whatever happens on the way. *)
Definition yields {A} (good : A -> Prop) (m : R A) : Prop := forall w a w', m w = (Ok a, w') -> good a.

Section yields.
Context {A B : Type} (good : B -> Prop).

Lemma yields_ret b : good b -> yields good (mret b : R B).
Proof. intros Hb w a w' [= <- _]. done. Qed.

Lemma yields_throw e : yields good (throw e : R B).
Proof. by intros w a w' [= ]. Qed.

Lemma yields_bind (m : R A) (f : A -> R B) : (forall a, yields good (f a)) -> yields good (mbind f m).
Proof. intros Hf w b w' [(e & _ & [=])|(a & w1 & _ & Hb)]%st_bind_inv. by eapply Hf. Qed.
End yields.

Lemma mwp_yields {A} (good : A -> Prop) (m : R A) d log (Q : result A -> Db -> list (rt_event * Db) -> Prop) :
  quiet (t_apps d) m -> db_inv d -> yields good m ->
  (forall r d' new, db_inv d' -> t_apps d' = t_apps d -> (forall a, r = Ok a -> good a) -> Q r d' (log ++ new)%list) -> mwp m d log Q.
Proof.
  intros Hm Hi Hy HQ w r w' Hd Hl Hr. destruct (Hm d log Hi eq_refl w r w' Hd Hl Hr) as (Hi' & HT & [new [-> _]]).
  apply HQ; [done..|]. intros a ->. by eapply Hy.
Qed.
End quiet.

Ltac quiet_step :=
  lazymatch goal with
  | |- calls _ _ (DeploymentRepository_Create _) => apply quiet_write; [apply safe_deployment_create|apply same_deployment_create]
  | |- calls _ _ (DeploymentRepository_UpdateStatus _ _ _ _) => apply quiet_write; [apply safe_deployment_status|apply same_deployment_status]
  | |- calls _ _ (RouteRepository_UpsertForApp _) => apply quiet_write; [apply safe_route_upsert|apply same_route_upsert]
  | |- calls _ _ (RouteRepository_DeleteByApp _) => apply quiet_write; [apply safe_route_delete|apply same_route_delete]
  | |- calls _ _ (RouteRepository_UpdateStatus _ _ _) => apply quiet_write; [apply safe_route_status|apply same_route_status]
  | |- calls _ _ (DeploymentRequestRepository_Complete _ _ _ _ _) => apply quiet_write; [apply safe_request_complete|apply same_request_complete]
  | |- calls _ _ (RouteRepository_FindByDomain _) => apply calls_find_one
  | |- calls _ _ (AppRepository_FindActiveByName _) => apply calls_bind; [apply calls_find_one|]
  | |- calls _ _ (or_else _ _) => apply calls_map_err
  | |- calls _ _ (or_fail _) => apply calls_map_err
  | |- calls _ _ (recordEvent _ _ _ _ _) => apply calls_invoke
  | |- calls _ _ (preflightHosting _) => unfold preflightHosting
  | |- calls _ _ (resolveRuntimeRegistry _) => unfold resolveRuntimeRegistry
  | |- calls _ _ (resolveValues _) => unfold resolveValues
  | |- calls _ _ (checkCandidateDeletion _) => unfold checkCandidateDeletion
  | |- calls _ _ (validateRequestedDomain _ _) => unfold validateRequestedDomain
  | |- calls _ _ (resolveConfiguredEnvironment _ _ _) => unfold resolveConfiguredEnvironment
  | |- calls _ _ (reconcileRuntime _ _ _ _) => unfold reconcileRuntime
  | |- calls _ _ (syncRoute _ _ _ _ _) => unfold syncRoute; cbv zeta
  | |- calls _ _ (recordDeployEvent _ _ _ _ _) => unfold recordDeployEvent
  | |- calls _ _ (recordFailedDeployment _ _ _ _ _) => unfold recordFailedDeployment
  | |- calls _ _ (rollbackAppUpdate _ _ _ _) => unfold rollbackAppUpdate
  | |- calls _ _ (removeResources _) => unfold removeResources
  | |- calls _ _ (completeDeploymentRequest _ _ _ _ _) => unfold completeDeploymentRequest
  | |- calls _ _ _ => follow_step
  | |- forall _, _ => intro
  end.
Ltac quieten := unfold quiet; repeat (quiet_step; cbv beta); try done.

Ltac yield_step :=
  lazymatch goal with
  | |- yields _ (mbind _ _) => apply yields_bind; intros ?
  | |- yields _ (mret _) => apply yields_ret
  | |- yields _ (throw _) => apply yields_throw
  | |- yields _ (match ?x with _ => _ end) => destruct x
  end.
Ltac yielded := repeat (yield_step; cbv beta zeta); try done.
