(* ===== verification/AppServiceProps.v ===== *)
(** * Properties of the application service

    A deployment keeps the stored configuration of every active app until the
    runtime accepted the new one; its reply says truly what is stored; preflight
    only reads; a request that was refused after its journal entry stays pending. *)

From S2P Require Import Prelude GoStrings Regexp Sha256 GoJson GoTime Appconfig Db DbRepos DbCandidates DbInv DbSteps DbEffects Security Vault Activation Candidate CandidateOps CandidateLogic CandidateProps CandidateRequests RequestLogic AppService AppServiceLogic.
From Stdlib Require Import Ascii String.
Local Open Scope Z_scope.

(** ** What the table of apps keeps *)

(** The stored configuration of a row. *)
Definition content (a : app_row) : string * string := (ar_image a, ar_state a).
Definition app_content (a : App) : string * string := (App_Image a, App_DesiredStateJSON a).

(** Active apps of [T0] are in [T] with their configuration; the row [own] may
    have changed as [P] says. *)
Definition content_kept (own : string) (P : app_row -> Prop) (T0 T : gmap string app_row) : Prop := forall id a,
  T0 !! id = Some a -> ar_deleted a = None -> exists a', T !! id = Some a' /\ (content a' = content a \/ (id = own /\ P a')).

Definition restored (T0 T : gmap string app_row) : Prop := content_kept "" (fun _ => False) T0 T.

Lemma content_kept_refl own P T : content_kept own P T T.
Proof. intros id a Ha _. eauto. Qed.

Lemma content_kept_mono own (P P' : app_row -> Prop) T0 T :
  (forall a, P a -> P' a) -> content_kept own P T0 T -> content_kept own P' T0 T.
Proof. intros HP Hk id a Ha Hd. destruct (Hk _ _ Ha Hd) as (a' & ? & [?|[? ?]]); exists a'; auto. Qed.

Lemma content_kept_insert own P T0 T id a' :
  content_kept own P T0 T ->
  (forall a, T0 !! id = Some a -> ar_deleted a = None -> content a' = content a \/ (id = own /\ P a')) ->
  content_kept own P T0 (<[id := a']> T).
Proof.
  intros Hk Hn i a Ha Hd. destruct (decide (i = id)) as [->|Hne].
  - exists a'. rewrite lookup_insert_eq. auto.
  - rewrite lookup_insert_ne by done. by apply Hk.
Qed.

(** Rewriting a row without its configuration. *)
Lemma content_kept_same own P T0 T id a1 a2 :
  content_kept own P T0 T -> T !! id = Some a1 -> content a2 = content a1 -> (forall a a', P a -> content a' = content a -> P a') ->
  content_kept own P T0 (<[id := a2]> T).
Proof.
  intros Hk H1 Hc HP. apply content_kept_insert; [done|]. intros a Ha Hd. destruct (Hk _ _ Ha Hd) as (a' & Ha' & Ho). rewrite H1 in Ha'. injection Ha' as <-.
  destruct Ho as [E|[-> HPa]]; [left; congruence|right; eauto].
Qed.

Lemma restored_kept own P T0 T : restored T0 T -> content_kept own P T0 T.
Proof. intros Hr id a Ha Hd. destruct (Hr _ _ Ha Hd) as (a' & ? & [?|[_ []]]). eauto. Qed.

(** ** Rules for the writes of apps *)

Section writes.
Context `{KubeTypes} {K : Type}.
Notation log_t := (list (rt_event * Db)).

Definition updated (app : App) (a : app_row) : app_row :=
  AppRow (ar_id a) (ar_name a) (App_Image app) (App_DesiredStateJSON app) (ar_created a) (formatTime (App_UpdatedAt app))
    (formatOptionalTime (App_DeletedAt app)).

Lemma mwp_app_update app d log (Q : result unit -> Db -> log_t -> Prop) : db_inv d ->
  (forall e, Q (Err e) d log) ->
  (forall a d', t_apps d !! App_ID app = Some a -> db_inv d' -> t_apps d' = <[App_ID app := updated app a]> (t_apps d) ->
     Q (Ok tt) d' log /\ forall e, Q (Err e) d' log) ->
  mwp (K := K) (AppRepository_Update app) d log Q.
Proof.
  intros Hi H1 H2. unfold AppRepository_Update, mapRowsAffected. apply mwp_bind, mwp_exec; [done|]. intros d' n Hu.
  assert (Hi' : db_inv d') by (eapply update_app_safe; [exact Hi| |exact Hu]; done). unfold update_app in Hu.
  destruct (t_apps d !! App_ID app) as [a|] eqn:Ha; injection Hu as <- <-.
  - specialize (H2 a _ eq_refl Hi' eq_refl) as [HA HB]. split; [|done]. apply mwp_guard; by intros.
  - split; [|done]. apply mwp_guard; [done|]. intros Hn. by vm_compute in Hn.
Qed.

Lemma mwp_app_create app d log (Q : result unit -> Db -> log_t -> Prop) : db_inv d ->
  (forall e, Q (Err e) d log) ->
  (forall a d', t_apps d !! App_ID app = None -> (forall k r, t_apps d !! k = Some r -> ar_name r <> App_Name app) -> db_inv d' ->
     ar_name a = App_Name app -> content a = app_content app -> ar_deleted a = formatOptionalTime (App_DeletedAt app) ->
     t_apps d' = <[App_ID app := a]> (t_apps d) -> Q (Ok tt) d' log /\ forall e, Q (Err e) d' log) ->
  mwp (K := K) (AppRepository_Create app) d log Q.
Proof.
  intros Hi H1 H2. unfold AppRepository_Create. apply mwp_bind, mwp_exec; [done|]. intros d' n Hu.
  assert (Hi' : db_inv d') by (eapply safe_stmt_inv; [exact Hi|by eapply ss_insert_app]).
  unfold insert_app in Hu. rewrite !check_bind in Hu. destruct Hu as (Hid & Hname & [= <- <-]). bools. cbn in Hid.
  rewrite <- eq_None_not_Some in Hid.
  edestruct H2 as [HA HB]; [exact Hid| |exact Hi'| | | |reflexivity|]; [|done..|].
  - intros k r Hk En. rewrite exists_row_false in Hname. specialize (Hname k r Hk). cbn in Hname. by rewrite En, String.eqb_refl in Hname.
  - split; [by apply mwp_ret|exact HB].
Qed.

Lemma mwp_app_mark_deleted name at_ d log (Q : result App -> Db -> log_t -> Prop) : db_inv d ->
  (forall r, Q r d log) ->
  (forall id a a' r d', t_apps d !! id = Some a -> content a' = content a -> db_inv d' -> t_apps d' = <[id := a']> (t_apps d) -> Q r d' log) ->
  mwp (K := K) (AppRepository_MarkDeleted name at_) d log Q.
Proof.
  intros Hi H1 H2. assert (Hfind : forall d', (forall r, Q r d' log) -> mwp (K := K) (AppRepository_FindByName name) d' log Q).
  { intros d' HQ. apply mwp_find_one; intros; apply HQ. }
  unfold AppRepository_MarkDeleted, mapRowsAffected. apply mwp_bind, mwp_bind, mwp_exec; [done|]. intros d' n Hm.
  assert (HQ : forall r, Q r d' log).
  { unfold mark_deleted in Hm. destruct (select1 _ (t_apps d)) as [row|]; [|by injection Hm as <- <-].
    assert (Hi' : db_inv d') by (eapply update_app_safe; [exact Hi| |exact Hm]; done). unfold update_app in Hm.
    destruct (t_apps d !! ar_id row) as [a|] eqn:Ha; injection Hm as <- <-; [|done]. intros r.
    eapply (H2 (ar_id row) a); [exact Ha| |exact Hi'|reflexivity]; done. }
  split; [|done]. apply mwp_guard; intros _; [done|by apply Hfind].
Qed.
End writes.

Lemma scanApp_image r a : scanApp r = Ok a -> App_Image a = ar_image r.
Proof. unfold scanApp. by intros (t1 & _ & (t2 & _ & (t3 & H3 & [= <-])%bind_ok)%bind_ok)%bind_ok. Qed.

(** ** The parts of a deployment *)

Section deploy.
Context `{KubeTypes} `{AppEnv} `{AEAD} {K : Type} `{!CandidateRuntime K} `{!CandidateServices K} `{!AppRuntime K}.
Context (call : call_env) (routes : route_env) (routeTLSEnabled enableCandidateOperations : bool) (error_text : error -> string).
Notation R := (M (rt K)).

(** The app a deployment stores, and what it goes back to, come from the table. *)
Record origin (T0 : gmap string app_row) (cfg : Config) (app : App) (previous : option App) : Prop := {
  or_own : forall a, T0 !! App_ID app = Some a -> ar_deleted a = None ->
    ar_name a = Cfg_Name cfg /\ exists p, previous = Some p /\ app_content p = content a;
  or_prev : forall p, previous = Some p -> App_ID p = App_ID app }.

(** The runtime accepted the configuration. *)
Definition applied (cfg : Config) (new : list (rt_event * Db)) : Prop :=
  exists values revision credential d, (EReconcile cfg values revision credential (Ok tt), d) ∈ new.

Section part.
Context (T0 : gmap string app_row) (cfg : Config) (app : App) (P : app_row -> Prop).
Hypothesis HP : forall a a', P a -> content a' = content a -> P a'.
Notation kept := (content_kept (App_ID app) P T0).

Lemma own_kept d d' a p : origin T0 cfg app (Some p) -> kept (t_apps d) -> t_apps d !! App_ID p = Some a ->
  t_apps d' = <[App_ID p := updated p a]> (t_apps d) -> kept (t_apps d') /\ restored T0 (t_apps d').
Proof.
  intros Ho Hk Ha ->. rewrite (or_prev _ _ _ _ Ho _ eq_refl). split; [apply content_kept_insert; [done|]|].
  - intros a0 Ha0 Hd0. destruct (or_own _ _ _ _ Ho _ Ha0 Hd0) as (_ & p' & E & Hc). left. by simplify_eq.
  - intros id a0 Ha0 Hd0. destruct (decide (id = App_ID app)) as [->|Hne].
    + destruct (or_own _ _ _ _ Ho _ Ha0 Hd0) as (_ & p' & E & Hc). eexists. rewrite lookup_insert_eq. split; [done|]. left. by simplify_eq.
    + rewrite lookup_insert_ne by done. destruct (Hk _ _ Ha0 Hd0) as (a' & ? & [?|[? _]]); [eauto|done].
Qed.

Lemma fresh_restored T : origin T0 cfg app None -> kept T -> restored T0 T.
Proof.
  intros Ho Hk id a Ha Hd. destruct (Hk _ _ Ha Hd) as (a' & Ha' & [E|[-> _]]); [eauto|].
  destruct (or_own _ _ _ _ Ho _ Ha Hd) as (_ & p & [=] & _).
Qed.

(** Compensation never changes a configuration but back, and when it succeeds
    every active app has the one it had. *)
Definition compensated {A} (log : list (rt_event * Db)) (good : A -> Prop) (r : result A) (d' : Db) (log' : list (rt_event * Db)) : Prop :=
  db_inv d' /\ (exists new, log' = (log ++ new)%list) /\ kept (t_apps d') /\ forall a, r = Ok a -> good a /\ restored T0 (t_apps d').

Lemma compensated_err {A} log new good e d' : db_inv d' -> kept (t_apps d') -> compensated (A := A) log good (Err e) d' (log ++ new)%list.
Proof. intros Hi Hk. split; [done|]. split; [by eexists|done]. Qed.

Lemma compensated_ok {A} log new (good : A -> Prop) a d' : db_inv d' -> kept (t_apps d') -> restored T0 (t_apps d') -> good a ->
  compensated log good (Ok a) d' (log ++ new)%list.
Proof. intros Hi Hk Hr Hg. split; [done|]. split; [by eexists|]. split; [done|]. by intros ? [= <-]. Qed.

Lemma compensate_keeps previous now d log : origin T0 cfg app previous -> db_inv d -> kept (t_apps d) ->
  mwp (compensate routes routeTLSEnabled app previous now : R unit) d log (compensated log (fun _ => True)).
Proof.
  intros Ho Hi Hk. unfold compensate. destruct previous as [p|].
  - apply mwp_bind, mwp_quiet; [destruct (bool_decide _); quieten|done|]. intros [u|e] d1 new Hi1 HT; rewrite <- HT in Hk;
      [|by apply compensated_err].
    apply mwp_app_update; [done|intros; by apply compensated_err|]. intros a d2 Ha Hi2 HT2.
    destruct (own_kept d1 d2 a p Ho Hk Ha HT2). split; [by apply compensated_ok|intros; by apply compensated_err].
  - apply mwp_bind, mwp_quiet; [quieten|done|]. intros [u|e] d1 new Hi1 HT; rewrite <- HT in Hk; [|by apply compensated_err].
    assert (Hdone : forall (r : result App) d2, db_inv d2 -> kept (t_apps d2) ->
      match r with
      | Ok _ => mwp (mret tt : R unit) d2 (log ++ new)%list (compensated log (fun _ => True))
      | Err e => compensated log (fun _ : unit => True) (Err e) d2 (log ++ new)%list
      end).
    { intros [x|e] d2 Hi2 Hk2; [|by apply compensated_err]. apply mwp_ret, compensated_ok; [done..| |done]. by apply fresh_restored. }
    apply mwp_bind, mwp_app_mark_deleted; [done|intros r; by apply (Hdone r)|].
    intros id a a' r d2 Ha Hc Hi2 HT2. apply (Hdone r); [done|]. rewrite HT2. by eapply content_kept_same.
Qed.

Lemma withdraw_keeps deployment previous now requestID d log : origin T0 cfg app previous -> db_inv d -> kept (t_apps d) ->
  mwp (withdrawFailedDeployment routes routeTLSEnabled app deployment cfg previous now requestID : R DeployAppResponse) d log
    (compensated log (fun reply => rsp_WithdrawalConfirmed reply = true)).
Proof.
  intros Ho Hi Hk. unfold withdrawFailedDeployment. apply mwp_bind, mwp_map_err. eapply mwp_mono; [by apply compensate_keeps|].
  intros [u|e] d1 log1 (Hi1 & (new & ->) & Hk1 & Hr1); [|by apply compensated_err]. destruct (Hr1 u eq_refl) as [_ Hr]. clear Hr1.
  apply mwp_yields with (good := fun reply => rsp_WithdrawalConfirmed reply = true); [quieten; destruct previous; quieten|done| |].
  - yielded; destruct previous; yielded.
  - intros r d2 new2 Hi2 HT Hg. rewrite <- HT in Hk1, Hr. rewrite <- app_assoc.
    destruct r as [reply|]; [apply compensated_ok; auto|by apply compensated_err].
Qed.

Lemma fail_keeps withdraw requestID previous deployment now combine report_as e d log :
  origin T0 cfg app previous -> db_inv d -> kept (t_apps d) ->
  mwp (failRelease routes routeTLSEnabled error_text withdraw cfg requestID app previous deployment now combine report_as e : R DeployAppResponse) d log
    (compensated log (fun reply => rsp_WithdrawalConfirmed reply = true)).
Proof.
  intros Ho Hi Hk. unfold failRelease. destruct withdraw; [by apply withdraw_keeps|].
  apply mwp_yields with (good := fun _ => False); [unfold rollbackWith; destruct previous; quieten|done|yielded|].
  intros [reply|] d1 new Hi1 HT Hf; [by destruct (Hf reply)|]. apply compensated_err; [done|by rewrite HT].
Qed.
End part.

(** ** The outcome of a deployment *)

(** What a reply says about the table of apps: withdrawn, every active app has the
    configuration it had; or applied by the runtime and stored. *)
Definition reported (cfg : Config) (desired : string) (new : list (rt_event * Db)) (reply : DeployAppResponse) (T0 T : gmap string app_row) : Prop :=
  if rsp_WithdrawalConfirmed reply then restored T0 T
  else applied cfg new /\ exists id a, T !! id = Some a /\ ar_name a = Cfg_Name cfg /\ ar_deleted a = None /\ content a = (Cfg_Image cfg, desired).

(** Only the app of the deployment can have another configuration, and only the
    requested one after the runtime accepted it. *)
Definition config_kept (cfg : Config) (desired : string) (new : list (rt_event * Db)) (T0 T : gmap string app_row) : Prop := forall id a,
  T0 !! id = Some a -> ar_deleted a = None -> exists a', T !! id = Some a' /\
    (content a' = content a \/ (ar_name a = Cfg_Name cfg /\ content a' = (Cfg_Image cfg, desired) /\ applied cfg new)).

Definition release_post (cfg : Config) (desired : string) (T0 : gmap string app_row) (log : list (rt_event * Db))
    (r : result DeployAppResponse) (d' : Db) (log' : list (rt_event * Db)) : Prop :=
  db_inv d' /\ exists new, log' = (log ++ new)%list /\ config_kept cfg desired new T0 (t_apps d') /\
    forall reply, r = Ok reply -> reported cfg desired new reply T0 (t_apps d').

Lemma config_kept_own cfg desired new own (X : Prop) T0 T : (X -> applied cfg new) ->
  (forall a, T0 !! own = Some a -> ar_deleted a = None -> ar_name a = Cfg_Name cfg) ->
  content_kept own (fun a' => content a' = (Cfg_Image cfg, desired) /\ X) T0 T -> config_kept cfg desired new T0 T.
Proof.
  intros HX Hown Hk id a Ha Hd. destruct (Hk _ _ Ha Hd) as (a' & Ha' & [E|(-> & E & HXa)]); exists a'; (split; [done|]); [by left|right].
  split; [exact (Hown a Ha Hd)|]. split; [done|by apply HX].
Qed.

Lemma restored_config_kept cfg desired new T0 T : restored T0 T -> config_kept cfg desired new T0 T.
Proof. intros Hr id a Ha Hd. destruct (Hr _ _ Ha Hd) as (a' & ? & [?|[_ []]]). eauto. Qed.

Lemma applied_app cfg new more : applied cfg new -> applied cfg (new ++ more)%list.
Proof. intros (v & rv & c & d & Hin). exists v, rv, c, d. apply elem_of_app. by left. Qed.

Lemma release_failed cfg desired T0 app previous (X : Prop) log new r d' log' :
  origin T0 cfg app previous -> (X -> applied cfg new) ->
  compensated T0 app (fun a' => content a' = (Cfg_Image cfg, desired) /\ X) (log ++ new)%list (fun reply => rsp_WithdrawalConfirmed reply = true) r d' log' ->
  release_post cfg desired T0 log r d' log'.
Proof.
  intros Ho HX (Hi & (more & ->) & Hk & Hr). split; [done|]. exists (new ++ more)%list. split; [by rewrite app_assoc|]. split.
  - eapply config_kept_own; [|intros; by eapply or_own|exact Hk]. intros HXa. by apply applied_app, HX.
  - intros reply E. destruct (Hr reply E) as [Hc Hrs]. unfold reported. by rewrite Hc.
Qed.

Lemma mwp_reconcile cfg values revision credential d log (Q : result unit -> Db -> list (rt_event * Db) -> Prop) :
  (forall e new, Q (Err e) d (log ++ new)%list) -> (forall new, applied cfg new -> Q (Ok tt) d (log ++ new)%list) ->
  mwp (reconcileRuntime cfg values revision credential : R unit) d log Q.
Proof.
  intros HE HO. assert (Hinv : forall c f, mwp (invoke (EReconcile cfg values revision c) f : R unit) d log Q).
  { intros c f. apply mwp_invoke. intros [[]|e]; [|by apply HE]. apply HO. exists values, revision, c, d. by left. }
  unfold reconcileRuntime. destruct (String.eqb _ _); [apply Hinv|]. destruct credential; [apply Hinv|]. apply mwp_throw.
  specialize (HE (precondition "private image pulling is unavailable") []). by rewrite app_nil_r in HE.
Qed.

(** The row of the deployment: of this app; written already unless there is
    something to go back to. *)
Definition own_row (cfg : Config) (app : App) (previous : option App) (T : gmap string app_row) : Prop :=
  exists r, T !! App_ID app = Some r /\ ar_name r = Cfg_Name cfg /\ (previous = None -> content r = app_content app /\ ar_deleted r = None).

Lemma finish_reports cfg requestID desired app deployment now T0 new log d a :
  db_inv d -> applied cfg new -> t_apps d !! App_ID app = Some a -> ar_name a = Cfg_Name cfg -> ar_deleted a = None ->
  content a = (Cfg_Image cfg, desired) -> (forall x, T0 !! App_ID app = Some x -> ar_deleted x = None -> ar_name x = Cfg_Name cfg) ->
  content_kept (App_ID app) (fun a' => content a' = (Cfg_Image cfg, desired) /\ True) T0 (t_apps d) ->
  mwp (finishRelease cfg requestID desired app deployment now : R DeployAppResponse) d (log ++ new)%list (release_post cfg desired T0 log).
Proof.
  intros Hi Happ Ha Hn Hd Hc Hown Hk.
  apply mwp_yields with (good := fun reply => rsp_WithdrawalConfirmed reply = false); [unfold finishRelease; cbv zeta; quieten|done|unfold finishRelease; yielded|].
  intros r d2 more Hi2 HT Hg. split; [done|]. exists (new ++ more)%list. split; [by rewrite app_assoc|].
  rewrite HT. pose proof (applied_app _ _ more Happ). split; [by eapply config_kept_own|].
  intros reply E. unfold reported. rewrite (Hg reply E). split; [done|]. by exists (App_ID app), a.
Qed.

Lemma apply_reports cfg requestID desired report values revision credential app previous deployment now T0 d log :
  origin T0 cfg app previous -> db_inv d -> restored T0 (t_apps d) -> own_row cfg app previous (t_apps d) ->
  app_content app = (Cfg_Image cfg, desired) -> App_DeletedAt app = None ->
  mwp (applyRelease routes routeTLSEnabled error_text cfg requestID desired report values revision credential app previous deployment now
       : R DeployAppResponse) d log (release_post cfg desired T0 log).
Proof.
  intros Ho Hi Hr (row & Hrow & Hname & Hfresh) Hc Hdel. unfold applyRelease. cbv zeta.
  assert (Hfail : forall withdraw combine report_as e d1 new (X : Prop), (X -> applied cfg new) -> db_inv d1 ->
    content_kept (App_ID app) (fun a' => content a' = (Cfg_Image cfg, desired) /\ X) T0 (t_apps d1) ->
    mwp (failRelease routes routeTLSEnabled error_text withdraw cfg requestID app previous deployment now combine report_as e : R DeployAppResponse)
      d1 (log ++ new)%list (release_post cfg desired T0 log)).
  { intros withdraw combine report_as e d1 new X HX Hi1 Hk1. eapply mwp_mono;
      [apply (fail_keeps T0 cfg app (fun a' => content a' = (Cfg_Image cfg, desired) /\ X)); [intros a a' [? ?] Ec; by rewrite Ec|done..]|].
    intros r d' log'. by apply release_failed with (previous := previous). }
  apply mwp_bind, mwp_attempt, mwp_reconcile.
  - intros e new. by apply (Hfail _ _ _ _ _ _ False); [|done|apply restored_kept].
  - intros new Happ. apply mwp_bind, mwp_attempt, mwp_quiet; [quieten|done|]. intros routed d1 more Hi1 HT. rewrite <- HT in Hr, Hrow.
    rewrite <- app_assoc. pose proof (applied_app _ _ more Happ) as Happ'. destruct routed as [u|e].
    2: by apply (Hfail _ _ _ _ _ _ False); [|done|apply restored_kept].
    apply mwp_bind. destruct (bool_decide (is_Some previous)) eqn:Hp; bools.
    + apply mwp_attempt, mwp_app_update; [done| |].
      * intros e. by apply (Hfail _ _ _ _ _ _ False); [|done|apply restored_kept].
      * intros a d2 Ha Hi2 HT2. simplify_eq.
        assert (Hk : content_kept (App_ID app) (fun a' => content a' = (Cfg_Image cfg, desired) /\ True) T0 (t_apps d2)).
        { rewrite HT2. apply content_kept_insert; [by apply restored_kept|]. by right. }
        split; [|intros e; apply (Hfail _ _ _ _ _ _ True); done].
        eapply finish_reports; [done|done|rewrite HT2; apply lookup_insert_eq|done|by cbn; rewrite Hdel|done|intros; by eapply or_own|done].
    + apply mwp_ret. rewrite <- eq_None_not_Some in Hp. destruct (Hfresh Hp) as [Hc' Hd'].
      eapply finish_reports; [done|done|exact Hrow|done|done|congruence|intros; by eapply or_own|by apply restored_kept].
Qed.

Definition placed (cfg : Config) (desired : string) (T0 : gmap string app_row) (log : list (rt_event * Db)) (r : result (App * option App)) (d' : Db)
    (log' : list (rt_event * Db)) : Prop :=
  db_inv d' /\ log' = log /\ restored T0 (t_apps d') /\ forall app previous, r = Ok (app, previous) ->
    origin T0 cfg app previous /\ own_row cfg app previous (t_apps d') /\ app_content app = (Cfg_Image cfg, desired) /\ App_DeletedAt app = None.

Lemma placed_err cfg desired T0 log e d' : db_inv d' -> restored T0 (t_apps d') -> placed cfg desired T0 log (Err e) d' log.
Proof. intros Hi Hr. by split_and!. Qed.

Lemma place_new cfg desired T0 log app d a d' : T0 = t_apps d -> db_inv d' -> t_apps d !! App_ID app = None -> ar_name a = Cfg_Name cfg ->
  content a = app_content app -> app_content app = (Cfg_Image cfg, desired) -> App_DeletedAt app = None -> ar_deleted a = None ->
  t_apps d' = <[App_ID app := a]> (t_apps d) ->
  placed cfg desired T0 log (Ok (app, None)) d' log /\ restored T0 (t_apps d').
Proof.
  intros -> Hi Hid Hn Hc Hac Hd Hda HT.
  assert (Hr : restored (t_apps d) (t_apps d')) by (rewrite HT; apply content_kept_insert; [apply content_kept_refl|intros; congruence]).
  split; [|done]. split; [done|]. split; [done|]. split; [done|]. intros ? ? [= <- <-]. split; [|split; [|done]].
  - split; [intros; congruence|done].
  - exists a. rewrite HT, lookup_insert_eq. by split_and!.
Qed.

Lemma place_existing cfg desired report now r existing d :
  db_inv d -> app_by_name (Cfg_Name cfg) d = Some r -> scanApp r = Ok existing ->
  let app := MkApp (App_ID existing) (App_Name existing) (Cfg_Image cfg) desired (App_CreatedAt existing) now None in
  let wasDeleted := bool_decide (is_Some (App_DeletedAt existing)) in
  let previous := if negb wasDeleted || report then Some existing else None in
  origin (t_apps d) cfg app previous /\
  (forall T, (if wasDeleted then T = <[App_ID existing := updated app r]> (t_apps d) else T = t_apps d) ->
     restored (t_apps d) T /\ own_row cfg app previous T).
Proof.
  intros Hi Hr Hs app wasDeleted previous. destruct (app_by_name_Some _ _ _ Hi Hr) as [Hrow Hname].
  destruct (scanApp_fields _ _ Hs) as (Eid & En & Est & Hd1 & Hd2). pose proof (scanApp_image _ _ Hs) as Eim.
  assert (Hdel : wasDeleted = true -> ar_deleted r <> None) by (intros Hw; unfold wasDeleted in Hw; bools; by apply Hd2 in Hw as [? ->]).
  split; [split|].
  - cbn. rewrite Eid. intros a Ha Had. simplify_eq. split; [done|]. exists existing. split; [|by unfold app_content; rewrite Eim, Est].
    unfold previous. by destruct wasDeleted; [destruct (Hdel eq_refl)|].
  - intros p. unfold previous. destruct (_ || _); [by intros [= <-]|done].
  - intros T HT. cbn [App_ID app]. unfold own_row. cbn [App_ID app]. rewrite Eid in HT |- *. destruct wasDeleted eqn:Hw; subst T.
    + split.
      * apply content_kept_insert; [apply content_kept_refl|]. intros a Ha Had. simplify_eq. by destruct (Hdel eq_refl).
      * exists (updated app r). rewrite lookup_insert_eq. by split_and!.
    + split; [apply content_kept_refl|]. exists r. split; [done|]. split; [done|]. done.
Qed.

Lemma place_places cfg desired report now d log : db_inv d ->
  mwp (placeApp call cfg desired report now : R (App * option App)) d log (placed cfg desired (t_apps d) log).
Proof.
  intros Hi. unfold placeApp. apply mwp_bind, mwp_attempt, mwp_find_one.
  - intros e _. apply mwp_bind, mwp_guard; intros _; [apply placed_err; [done|apply content_kept_refl]|].
    apply mwp_bind, mwp_map_err, mwp_lift. destruct (newID _ _) as [appID|]; [|apply placed_err; [done|apply content_kept_refl]].
    cbv zeta. apply mwp_bind, mwp_map_err, mwp_app_create; [done|intros; apply placed_err; [done|apply content_kept_refl]|].
    intros a d' Hid _ Hi' Hn Hc Hda HT. edestruct (place_new cfg desired (t_apps d) log) as [Hp Hr]; [done|exact Hi'|exact Hid|done..|exact HT|].
    split; [by apply mwp_ret|intros; by apply placed_err].
  - intros r existing Hr Hs. destruct (place_existing cfg desired report now r existing d Hi Hr Hs) as [Ho Hrow].
    destruct (app_by_name_Some _ _ _ Hi Hr) as [Hrow0 _]. destruct (scanApp_fields _ _ Hs) as (Eid & _).
    apply mwp_bind, mwp_lift. destruct (rejectHostingProfileRemoval _ _) as [u|]; [|apply placed_err; [done|apply content_kept_refl]].
    cbv zeta. apply mwp_bind. destruct (bool_decide (is_Some (App_DeletedAt existing))) eqn:Hw.
    + apply mwp_map_err, mwp_app_update; [done|intros; apply placed_err; [done|apply content_kept_refl]|].
      intros a d' Ha Hi' HT. cbn [App_ID] in Ha, HT. rewrite <- Eid in Hrow0. simplify_eq. destruct (Hrow _ HT) as [Hk Hown].
      split; [|intros; by apply placed_err]. apply mwp_ret. split_and!; [done|done|done|]. intros ? ? [= <- <-]. by split_and!.
    + destruct (Hrow _ eq_refl) as [Hk Hown]. apply mwp_ret, mwp_ret. split_and!; [done|done|done|]. intros ? ? [= <- <-]. by split_and!.
Qed.

Lemma release_err cfg desired T0 log new e d' :
  db_inv d' -> restored T0 (t_apps d') -> release_post cfg desired T0 log (Err e) d' (log ++ new)%list.
Proof. intros Hi Hr. split; [done|]. exists new. split; [done|]. split; [by apply restored_config_kept|done]. Qed.

Lemma applied_later cfg new more : applied cfg more -> applied cfg (new ++ more)%list.
Proof. intros (v & rv & c & d & Hin). exists v, rv, c, d. apply elem_of_app. by right. Qed.

Lemma config_kept_later cfg desired new more T0 T : config_kept cfg desired more T0 T -> config_kept cfg desired (new ++ more)%list T0 T.
Proof.
  intros Hk id a Ha Hd. destruct (Hk _ _ Ha Hd) as (a' & ? & [?|(? & ? & ?)]); exists a'; (split; [done|]); [by left|right].
  split_and!; [done..|by apply applied_later].
Qed.

Lemma reported_later cfg desired new more reply T0 T : reported cfg desired more reply T0 T -> reported cfg desired (new ++ more)%list reply T0 T.
Proof.
  unfold reported. destruct (rsp_WithdrawalConfirmed reply); [done|]. intros [Happ Hrow]. split; [by apply applied_later|done].
Qed.

Lemma release_later cfg desired T0 log new r d' log' :
  release_post cfg desired T0 (log ++ new)%list r d' log' -> release_post cfg desired T0 log r d' log'.
Proof.
  intros (Hi & more & -> & Hk & Hr). split; [done|]. exists (new ++ more)%list. split; [by rewrite app_assoc|].
  split; [by apply config_kept_later|]. intros reply E. by apply reported_later, Hr.
Qed.

Lemma release_reports cfg requestID desired report bundle credential now d log : db_inv d ->
  mwp (releaseApp call routes routeTLSEnabled error_text cfg requestID desired report bundle credential now : R DeployAppResponse) d log
    (release_post cfg desired (t_apps d) log).
Proof.
  intros Hi. unfold releaseApp. apply mwp_bind. eapply mwp_mono; [by apply place_places|].
  assert (Herr : forall e d1, db_inv d1 -> restored (t_apps d) (t_apps d1) -> release_post cfg desired (t_apps d) log (Err e) d1 log).
  { intros e d1 Hi1 Hr1. pose proof (release_err cfg desired (t_apps d) log [] e d1 Hi1 Hr1) as He. by rewrite app_nil_r in He. }
  intros [[app previous]|e] d1 log1 (Hi1 & -> & Hr1 & Hp); [|by apply Herr]. destruct (Hp _ _ eq_refl) as (Ho & Hrow & Hc & Hdel).
  apply mwp_bind, mwp_map_err, mwp_lift. destruct (newID _ _) as [depID|]; [|by apply Herr]. cbv zeta.
  apply mwp_bind, mwp_quiet; [quieten|done|]. intros [u|e] d2 new Hi2 HT2; [|apply release_err; [done|by rewrite HT2]].
  apply mwp_bind, mwp_quiet; [quieten|done|]. intros [u'|e] d3 new3 Hi3 HT3; rewrite <- app_assoc; [|apply release_err; [done|by rewrite HT3, HT2]].
  apply mwp_bind, mwp_quiet; [unfold releaseValues; destruct bundle; quieten|done|]. intros r d4 new4 Hi4 HT4. rewrite <- app_assoc.
  assert (ET : t_apps d4 = t_apps d1) by congruence. destruct r as [[values revision]|e]; [|apply release_err; [done|by rewrite ET]].
  eapply mwp_mono; [apply (apply_reports cfg requestID desired report values revision credential app previous _ now (t_apps d)); rewrite ?ET; done|].
  intros r d5 log5. apply release_later.
Qed.

(** ** Deploying without candidates *)

(** The reply was saved when the request was completed, and nothing is done again. *)
Definition replayed (app id : string) (d d' : Db) (reply : DeployAppResponse) : Prop :=
  d' = d /\ exists q, t_requests d !! (app, id) = Some q /\ qr_state q <> "pending" /\ unmarshalReply (default "" (qr_response q)) = Some reply.

Definition deploy_post (cfg : Config) (requestID desired : string) (d : Db) (log : list (rt_event * Db))
    (r : result DeployAppResponse) (d' : Db) (log' : list (rt_event * Db)) : Prop :=
  db_inv d' /\ exists new, log' = (log ++ new)%list /\ config_kept cfg desired new (t_apps d) (t_apps d') /\
    forall reply, r = Ok reply -> replayed (Cfg_Name cfg) requestID d d' reply \/ reported cfg desired new reply (t_apps d) (t_apps d').

Lemma deploy_err cfg requestID desired d log new e d' :
  db_inv d' -> t_apps d' = t_apps d -> deploy_post cfg requestID desired d log (Err e) d' (log ++ new)%list.
Proof. intros Hi HT. split; [done|]. exists new. split; [done|]. split; [|done]. rewrite HT. apply restored_config_kept, content_kept_refl. Qed.

Lemma deploy_replayed cfg requestID desired d log new reply :
  db_inv d -> replayed (Cfg_Name cfg) requestID d d reply -> deploy_post cfg requestID desired d log (Ok reply) d (log ++ new)%list.
Proof.
  intros Hi Hr. split; [done|]. exists new. split; [done|]. split; [apply restored_config_kept, content_kept_refl|].
  intros ? [= <-]. by left.
Qed.

Lemma scanRequest_reply q req : scanRequest q = Ok req -> Req_ResponseJSON req = default "" (qr_response q) /\ Req_State req = qr_state q.
Proof. unfold scanRequest. by intros (t1 & _ & (t2 & _ & [= <-])%bind_ok)%bind_ok. Qed.

Lemma replay_replies cfg requestID desired report d log (Q : result (option DeployAppResponse) -> Db -> list (rt_event * Db) -> Prop) :
  (forall e, Q (Err e) d log) -> Q (Ok None) d log -> (forall reply, replayed (Cfg_Name cfg) requestID d d reply -> Q (Ok (Some reply)) d log) ->
  mwp (replayRequest cfg requestID desired report : R (option DeployAppResponse)) d log Q.
Proof.
  intros HE HN HR. unfold replayRequest. apply mwp_bind, mwp_attempt, mwp_find_one.
  - intros e _. apply mwp_bind, mwp_guard; intros _; [done|by apply mwp_ret].
  - intros q existing Hq Hs. destruct (scanRequest_reply _ _ Hs) as [Hresp Hst].
    apply mwp_bind, mwp_guard; intros _; [done|]. destruct (String.eqb_spec (Req_State existing) "pending") as [|Hne]; [by apply mwp_throw|].
    cbn [negb]. destruct (unmarshalReply _) as [reply|] eqn:Hu; [|by apply mwp_throw]. apply mwp_ret, HR. split; [done|].
    exists q. rewrite <- Hresp, <- Hst. by split_and!.
Qed.

Lemma begin_replies cfg requestID desired report now d log (Q : result (option DeployAppResponse) -> Db -> list (rt_event * Db) -> Prop) :
  db_inv d -> (forall e d', db_inv d' -> t_apps d' = t_apps d -> Q (Err e) d' log) ->
  (forall d', db_inv d' -> t_apps d' = t_apps d -> Q (Ok None) d' log) ->
  (forall reply, replayed (Cfg_Name cfg) requestID d d reply -> Q (Ok (Some reply)) d log) ->
  mwp (beginTracked cfg requestID desired report now : R (option DeployAppResponse)) d log Q.
Proof.
  intros Hi HE HN HR. unfold beginTracked. apply mwp_bind, mwp_map_err, mwp_request_begin; [done|].
  intros [[stored created]|e] d' Hi' Hb; [|destruct Hb as [HT _]; by apply HE]. destruct created.
  - destruct Hb as [HT _]. by apply mwp_ret, HN.
  - destruct Hb as (-> & row & Hrow & Hs). destruct (scanRequest_reply _ _ Hs) as [Hresp Hst].
    destruct (String.eqb_spec (Req_State stored) "pending") as [|Hne]; cbn [negb]; [by apply mwp_throw, HE|].
    destruct (unmarshalReply _) as [reply|] eqn:Hu; [|by apply mwp_throw, HE]. apply mwp_ret, HR. split; [done|].
    exists row. rewrite <- Hresp, <- Hst. by split_and!.
Qed.

(** The same when the request may be untracked. *)
Lemma mwp_when {A} (b : bool) (m : R (option A)) d log (Q : result (option A) -> Db -> list (rt_event * Db) -> Prop) :
  mwp m d log Q -> Q (Ok None) d log -> mwp (if b then m else mret None) d log Q.
Proof. intros Hm Hn. destruct b; [done|by apply mwp_ret]. Qed.

Lemma direct_reports cfg requestID desired report d log : db_inv d ->
  mwp (deployDirect call routes routeTLSEnabled error_text cfg requestID desired report : R DeployAppResponse) d log
    (deploy_post cfg requestID desired d log).
Proof.
  intros Hi. unfold deployDirect. cbv zeta. rewrite <- (app_nil_r log) at 1.
  assert (Hrest : forall new, mwp ('(bundle, credential) ← admitRelease cfg;
      begun ← (if negb (String.eqb requestID "") then beginTracked cfg requestID desired report (ce_begin call) else mret None);
      match begun with
      | Some response => mret response
      | None => releaseApp call routes routeTLSEnabled error_text cfg requestID desired report bundle credential (ce_begin call)
      end : R DeployAppResponse) d (log ++ new)%list (deploy_post cfg requestID desired d log)).
  { intros new. apply mwp_bind, mwp_reads; [unfold admitRelease; quieten|done|]. intros r new1. rewrite <- app_assoc.
    destruct r as [[bundle credential]|e]; [|by apply deploy_err].
    assert (Hrel : forall d2, db_inv d2 -> t_apps d2 = t_apps d ->
      mwp (releaseApp call routes routeTLSEnabled error_text cfg requestID desired report bundle credential (ce_begin call) : R DeployAppResponse)
        d2 (log ++ new ++ new1)%list (deploy_post cfg requestID desired d log)).
    { intros d2 Hi2 HT2. eapply mwp_mono; [by apply release_reports|]. rewrite HT2. intros r d3 log3 (Hi3 & more & -> & Hk & Hr)%release_later.
      split; [done|]. exists more. split; [done|]. split; [done|]. intros reply E. right. by apply Hr. }
    apply mwp_bind, mwp_when; [apply begin_replies|by apply Hrel]; [done|intros; by apply deploy_err|intros; by apply Hrel|].
    intros reply Hr. by apply mwp_ret, deploy_replayed. }
  apply mwp_bind, mwp_when; [apply replay_replies|]; [intros; by apply deploy_err|apply Hrest| |apply Hrest].
  intros reply Hr. by apply mwp_ret, deploy_replayed.
Qed.

Lemma deploy_reports decode req cfg desired d log :
  db_inv d -> Parse decode (dar_DeployerYaml req) = Ok cfg -> Config_JSON cfg = Ok desired ->
  candidatePath enableCandidateOperations cfg (negb (String.eqb (TrimSpace (dar_RequestID req)) "")) = false ->
  mwp (DeployApp call routes routeTLSEnabled enableCandidateOperations error_text decode req : R DeployAppResponse) d log
    (deploy_post cfg (TrimSpace (dar_RequestID req)) desired d log).
Proof.
  intros Hi Hparse Hjson Hpath. unfold DeployApp. rewrite <- (app_nil_r log) at 1.
  apply mwp_bind, mwp_lift. destruct (requireCaller _ _); [|by apply deploy_err].
  apply mwp_bind, mwp_lift. unfold parseDeployment. rewrite Hparse.
  destruct (blank _); cbn; [by apply deploy_err|]. destruct (validateRequiredTLS _ _) as [u'|]; cbn; [|by apply deploy_err].
  apply mwp_bind, mwp_guard; intros _; [by apply deploy_err|].
  apply mwp_bind, mwp_lift. destruct (ce_lock call); [|by apply deploy_err].
  apply mwp_bind, mwp_reads; [quieten|done|]. intros [u1|e] new; rewrite <- app_assoc; [|by apply deploy_err].
  apply mwp_bind, mwp_reads; [unfold refusePending; quieten|done|]. intros [u2|e] new2; rewrite <- app_assoc; [|by apply deploy_err].
  apply mwp_bind, mwp_map_err, mwp_lift. rewrite Hjson, Hpath.
  eapply mwp_mono; [by apply direct_reports|]. intros r d' log' (Hi' & more & -> & Hk & Hr). split; [done|].
  exists ([] ++ new ++ new2 ++ more)%list. split; [by rewrite <- !app_assoc|]. split; [by repeat apply config_kept_later|].
  intros reply E. destruct (Hr reply E) as [Hrep|Hrep]; [by left|right; by repeat apply reported_later].
Qed.

(** C17: A deployment that does not go through candidates replaces the stored
    configuration of an active app only for the app it deploys, only by the
    requested configuration, and only after the runtime accepted that configuration:
    whatever the replies of the runtime and whichever driver calls fail.  When it
    answers, the answer is the saved one of a completed request and nothing was done,
    or a confirmed withdrawal and every active app has the configuration it had, or
    the runtime accepted the configuration and the active app stores it. *)
Theorem deploy_replaces_applied decode req cfg desired w r w' :
  db_inv (w_db w) -> Parse decode (dar_DeployerYaml req) = Ok cfg -> Config_JSON cfg = Ok desired ->
  candidatePath enableCandidateOperations cfg (negb (String.eqb (TrimSpace (dar_RequestID req)) "")) = false ->
  DeployApp call routes routeTLSEnabled enableCandidateOperations error_text decode req w = (r, w') ->
  deploy_post cfg (TrimSpace (dar_RequestID req)) desired (w_db w) (rt_log _ (w_k w)) r (w_db w') (rt_log _ (w_k w')).
Proof. intros Hi Hparse Hjson Hpath. by apply (deploy_reports decode req cfg desired _ _ Hi Hparse Hjson Hpath w r w' eq_refl eq_refl). Qed.
End deploy.
