(* ===== verification/PendingProps.v ===== *)
(** * Admission: what is refused before and after a request is journaled

    Preflight only reads and its answer holds; a request that is pending without a
    binding is never finished, and refuses every other change of its app. *)

From S2P Require Import Prelude GoStrings Regexp Sha256 GoJson GoTime Appconfig Db DbRepos DbCandidates DbInv DbSteps DbEffects Security Vault Activation Candidate CandidateOps CandidateLogic CandidateProps CandidateRequests RequestLogic AppService AppServiceLogic.
From Stdlib Require Import Ascii String.
Local Open Scope Z_scope.

(** ** A missing row *)

(** Errors of a row that does not scan are not [ErrNotFound]. *)
Definition found_errors {R0 A} (scan : R0 -> result A) : Prop := forall x e, scan x = Err e -> errors_Is e ErrNotFound = false.

Lemma stored_time_error field value e : parseStoredTime field value = Err e -> errors_Is e ErrNotFound = false.
Proof. unfold parseStoredTime. case_match; [done|]. by intros [= <-]. Qed.

Lemma bind_error {A B} (m : result A) (f : A -> result B) e :
  (forall e, m = Err e -> errors_Is e ErrNotFound = false) -> (forall a, m = Ok a -> f a = Err e -> errors_Is e ErrNotFound = false) ->
  mbind f m = Err e -> errors_Is e ErrNotFound = false.
Proof. destruct m as [a|e']; cbn; [by eauto|]. intros Hm _ [= <-]. by apply Hm. Qed.

Ltac scan_errors := intros r e; apply bind_error; [intros ?; apply stored_time_error|intros ? _].

Lemma scanApp_error : found_errors scanApp.
Proof.
  scan_errors. apply bind_error; [intros ?; apply stored_time_error|intros ? _]. apply bind_error; [|done].
  intros e'. unfold parseOptionalStoredTime. destruct (ar_deleted r); [|done]. apply bind_error; [intros ?; apply stored_time_error|done].
Qed.

Lemma scanRoute_error : found_errors scanRoute.
Proof. scan_errors. apply bind_error; [intros ?; apply stored_time_error|done]. Qed.

Lemma scanRequest_error : found_errors scanRequest.
Proof. scan_errors. apply bind_error; [intros ?; apply stored_time_error|done]. Qed.

Lemma mwp_lookup `{KubeTypes} {K R0 A} (select : Db -> option R0) (scan : R0 -> result A) d log (Q : result A -> Db -> list (rt_event * Db) -> Prop) :
  found_errors scan -> (forall e, (errors_Is e ErrNotFound = true -> select d = None) -> Q (Err e) d log) ->
  (forall x a, select d = Some x -> scan x = Ok a -> Q (Ok a) d log) -> mwp (K := K) (find_one select scan) d log Q.
Proof. intros Hs HE HO. apply mwp_find_one; [|done]. intros e He. apply HE. intros Hn. by apply He. Qed.

Section admission.
Context `{KubeTypes} `{AppEnv} `{AEAD} {K : Type} `{!CandidateRuntime K} `{!CandidateServices K} `{!AppRuntime K}.
Context (call : call_env) (routes : route_env) (routeTLSEnabled enableCandidateOperations : bool) (error_text : error -> string).
Notation R := (M (rt K)).

(** ** Preflight *)

(** The reads of a preflight. *)
Definition preflight_call (e : rt_event) (_ : Db) : Prop :=
  match e with EDeletionCheck _ _ | ERegistry _ _ _ _ | EEnvironment _ _ _ | EPreflight _ _ => True | _ => False end.

(** The domain is free or of this app; a hosted app stays hosted; TLS is there. *)
Definition admissible (cfg : Config) (d : Db) : Prop :=
  (forall k row, t_routes d !! k = Some row -> rr_domain row = TrimSpace (Routing_Domain (Cfg_Routing cfg)) ->
     rr_domain row <> "" -> exists a, t_apps d !! rr_app_id row = Some a /\ ar_name a = Cfg_Name cfg) /\
  (forall a, app_by_name (Cfg_Name cfg) d = Some a -> Cfg_Hosting cfg = None -> exists previous, FromJSON (ar_state a) = Ok previous /\ Cfg_Hosting previous = None) /\
  (Routing_RequireTLS (Cfg_Routing cfg) = true -> routeTLSEnabled = true).

Lemma domain_admits app domain d log (Q : result unit -> Db -> list (rt_event * Db) -> Prop) : db_inv d ->
  (forall e, Q (Err e) d log) ->
  ((forall k row, t_routes d !! k = Some row -> rr_domain row = TrimSpace domain -> rr_domain row <> "" ->
      exists a, t_apps d !! rr_app_id row = Some a /\ ar_name a = app) -> Q (Ok tt) d log) ->
  mwp (validateRequestedDomain app domain : R unit) d log Q.
Proof.
  intros Hi HE HO. unfold validateRequestedDomain. destruct (blank domain) eqn:Hb.
  { apply mwp_ret, HO. intros k row _ -> Hne. by apply String.eqb_eq in Hb. }
  apply mwp_bind, mwp_attempt, mwp_lookup; [apply scanRoute_error| |].
  - intros e He. destruct (errors_Is e ErrNotFound); [|apply mwp_throw, HE]. apply mwp_ret, HO. intros k row Hk Hd _.
    specialize (He eq_refl). rewrite select1_None in He. specialize (He _ _ Hk). by rewrite Hd, String.eqb_refl in He.
  - intros row route Hrow Hs. apply select1_Some in Hrow as [Hdom (k & Hk)]. apply String.eqb_eq in Hdom.
    assert (Ea : Route_AppID route = rr_app_id row).
    { unfold scanRoute in Hs. by apply bind_ok in Hs as (t1 & _ & (t2 & _ & [= <-])%bind_ok). }
    apply mwp_bind, mwp_map_err, mwp_find_one; [intros; apply HE|]. intros a app' Ha Hsa. rewrite Ea in Ha.
    apply mwp_guard; intros Hn; [apply HE|]. bools. apply String.eqb_eq in Hn. apply HO. intros k' row' Hk' Hd' _.
    assert (k' = k) as -> by (eapply inv_route_domain; [exact Hi|exact Hk'|exact Hk|congruence]). simplify_eq.
    exists a. split; [done|]. destruct (scanApp_fields _ _ Hsa) as (_ & En & _). congruence.
Qed.

Lemma preflight_calls decode yaml d : calls (fun x => x = d) preflight_call (PreflightApp call routeTLSEnabled decode yaml : R _).
Proof. unfold PreflightApp. quieten. Qed.

Lemma hosting_admits cfg a existing u : scanApp a = Ok existing -> rejectHostingProfileRemoval cfg existing = Ok u -> Cfg_Hosting cfg = None ->
  exists previous, FromJSON (ar_state a) = Ok previous /\ Cfg_Hosting previous = None.
Proof.
  intros Hs Hr Hh. destruct (scanApp_fields _ _ Hs) as (_ & _ & Est & _). unfold rejectHostingProfileRemoval in Hr.
  rewrite Hh, bool_decide_eq_true_2 in Hr by done. cbn [negb] in Hr. rewrite Est in Hr. destruct (FromJSON _) as [previous|]; [|done].
  exists previous. split; [done|]. unfold check in Hr. case_bool_decide; [done|]. by cbn in Hr.
Qed.

Lemma preflight_answers decode yaml d log : db_inv d ->
  mwp (PreflightApp call routeTLSEnabled decode yaml : R _) d log (fun r _ _ => forall desired warnings, r = Ok (desired, warnings) ->
    exists cfg, Parse decode yaml = Ok cfg /\ Config_JSON cfg = Ok desired /\ warnings = preflight_warnings cfg /\ admissible cfg d).
Proof.
  intros Hi. unfold PreflightApp. apply mwp_bind, mwp_lift. destruct (requireCaller _ _); [|done].
  apply mwp_bind, mwp_lift. unfold parseDeployment. destruct (blank yaml); [done|]. destruct (Parse decode yaml) as [cfg|]; [|done]. cbn [check mbind result_bind].
  destruct (validateRequiredTLS _ _) as [u'|] eqn:Htls; cbn [mbind result_bind]; [|done].
  do 4 (apply mwp_bind, mwp_reads; [quieten|done|]; intros [?|?] ?; [|done]).
  assert (Hrest : forall log1, (forall a, app_by_name (Cfg_Name cfg) d = Some a -> Cfg_Hosting cfg = None ->
      exists previous, FromJSON (ar_state a) = Ok previous /\ Cfg_Hosting previous = None) ->
    mwp (_ ← validateRequestedDomain (Cfg_Name cfg) (Routing_Domain (Cfg_Routing cfg));
         desired ← or_else (internal "encode desired state") (lift (Config_JSON cfg));
         mret (desired, preflight_warnings cfg) : R (string * list string)) d log1 (fun r _ _ => forall desired warnings, r = Ok (desired, warnings) ->
      exists cfg', Ok cfg = Ok cfg' /\ Config_JSON cfg' = Ok desired /\ warnings = preflight_warnings cfg' /\ admissible cfg' d)).
  { intros log1 Hh. apply mwp_bind, domain_admits; [done|done|]. intros Hdom. apply mwp_bind, mwp_map_err, mwp_lift.
    destruct (Config_JSON cfg) as [desired|] eqn:Hj; [|done]. apply mwp_ret. intros ? ? [= <- <-]. exists cfg. do 3 (split; [done|]).
    split; [done|]. split; [done|]. intros Hreq. unfold validateRequiredTLS, check in Htls. rewrite Hreq in Htls. by destruct routeTLSEnabled. }
  apply mwp_bind, mwp_attempt, mwp_lookup; [apply scanApp_error| |].
  - intros e Hn. apply mwp_bind, mwp_guard; intros Hg; [done|]. bools. apply Hrest. intros row Hrow. by rewrite (Hn Hg) in Hrow.
  - intros row existing Hrow Hs. apply mwp_bind, mwp_lift. destruct (rejectHostingProfileRemoval cfg existing) as [u2|] eqn:Hr; [|done].
    apply Hrest. intros row' Hrow'. simplify_eq. by eapply hosting_admits.
Qed.

(** Preflight changes nothing and only reads: it asks the runtime whether the
    app is being deleted and whether the workload can be admitted, and the vault for
    the credential and the environment.  When it answers, the answer is the
    canonical form of the parsed configuration with its warnings; its domain is
    routed to no other app, a hosted app keeps its hosting profile, and required TLS
    is available. *)
Theorem preflight_reads decode yaml w r w' :
  db_inv (w_db w) -> PreflightApp call routeTLSEnabled decode yaml w = (r, w') ->
  w_db w' = w_db w /\ grown preflight_call (rt_log _ (w_k w)) (rt_log _ (w_k w')) /\
  forall desired warnings, r = Ok (desired, warnings) -> exists cfg, Parse decode yaml = Ok cfg /\ Config_JSON cfg = Ok desired /\
    warnings = preflight_warnings cfg /\ admissible cfg (w_db w).
Proof.
  intros Hi Hm. destruct (preflight_calls decode yaml _ _ _ Hi eq_refl w r w' eq_refl eq_refl Hm) as (_ & Hd & Hg). split; [done|]. split; [done|].
  exact (preflight_answers decode yaml _ _ Hi w r w' eq_refl eq_refl Hm).
Qed.

(** ** A pending request without a binding *)

Definition stuck (app id : string) (d : Db) : Prop := pending_in (app, id) d /\ t_bindings d !! (app, id) = None.

(** The handler fails, leaves the database as it is, and asks the runtime at most what a
    preflight asks: nothing in the cluster is written. *)
Definition refuses {A} (m : R A) (d : Db) : Prop :=
  forall log, mwp m d log (fun r d' log' => d' = d /\ is_err r = true /\ grown preflight_call log log').

(** The same in the middle of a handler. *)
Definition refuses_on {A} (m : R A) (d : Db) : Prop :=
  forall start log, grown preflight_call start log -> mwp m d log (fun r d' log' => d' = d /\ is_err r = true /\ grown preflight_call start log').

Lemma refuses_whole {A} (m : R A) d : refuses_on m d -> refuses m d.
Proof. intros Hm log. apply Hm, grown_refl. Qed.

(** A part that asks and leaves the database alone, then the rest. *)
Lemma mwp_asks {A} (m : R A) d start log (Q : result A -> Db -> list (rt_event * Db) -> Prop) :
  calls (fun x => x = d) preflight_call m -> db_inv d -> grown preflight_call start log ->
  (forall r log', grown preflight_call start log' -> Q r d log') -> mwp m d log Q.
Proof.
  intros Hm Hi Hg HQ. eapply mwp_mono; [by apply Hm|]. intros r d' log' (_ & -> & Hg'). apply HQ. by eapply grown_trans.
Qed.

Lemma stuck_pending app id d : db_inv d -> stuck app id d -> exists q, pending_of_app app d = Some q.
Proof.
  intros Hi [(q & Hq & Hp) _]. destruct (pending_of_app app d) as [q'|] eqn:E; [by exists q'|]. unfold pending_of_app in E.
  rewrite select1_None in E. specialize (E _ _ Hq). pose proof (inv_req_key d Hi _ _ Hq) as [= Ea _]. by rewrite Ea, Hp, String.eqb_refl in E.
Qed.

(** Every request of the app that is not finished is the pending one. *)
Lemma stuck_unfinished app id id' d : db_inv d -> stuck app id d -> (forall q, t_requests d !! (app, id') = Some q -> qr_state q = "pending") ->
  t_bindings d !! (app, id') = None.
Proof.
  intros Hi [(q & Hq & Hp) Hb] Hu. destruct (t_bindings d !! (app, id')) as [b|] eqn:Hb'; [|done].
  destruct (inv_bind_req d Hi _ _ Hb') as [q' Hq']. pose proof (inv_req_key d Hi _ _ Hq) as [= Ea _]. pose proof (inv_req_key d Hi _ _ Hq') as [= Ea' _].
  assert (E : (app, id) = (app, id')); [|congruence]. eapply (inv_one_pending d Hi); [exact Hq|exact Hq'|done|by apply Hu|congruence].
Qed.

Lemma begin_stuck req proposed depID now withdrawal id d log (Q : result (CandidateBinding * bool) -> Db -> list (rt_event * Db) -> Prop) :
  db_inv d -> stuck (Req_AppName req) id d -> t_bindings d !! request_key req = None -> (forall e, Q (Err e) d log) ->
  mwp (K := K) (beginCandidate req proposed depID now withdrawal) d log Q.
Proof.
  intros Hi Hst Hb HE. unfold beginCandidate. apply mwp_bind, mwp_guard; intros _; [done|]. apply mwp_bind, mwp_lift.
  destruct (validateCandidateDeployRequest req) as [cfg|]; [|done]. intros w r w' <- <- Hf.
  apply (in_tx_wp _ w (fun r d' => d' = w_db w /\ is_err r = true)) in Hf as [[-> Hr] ->]; [by destruct r|done|].
  apply wp_bind, wp_query; [done|]. fold (request_key req). rewrite Hb. eapply wp_mono; [by apply begin_new_effect|].
  intros r' d' _ [Hdone|(b & Hbg & _)]; [done|]. destruct Hbg as [? ? _ _ Hp _ _ _]. destruct (stuck_pending _ _ _ Hi Hst) as [q Hq]. congruence.
Qed.

Lemma refuse_pending_stuck app id d : db_inv d -> stuck app id d -> refuses_on (refusePending app : R unit) d.
Proof.
  intros Hi Hst start log Hlog. destruct (stuck_pending _ _ _ Hi Hst) as [q Hq]. unfold refusePending.
  apply mwp_bind, mwp_attempt, mwp_lookup; [apply scanRequest_error| |].
  - intros e Hn. destruct (errors_Is e ErrNotFound) eqn:E; [specialize (Hn eq_refl); congruence|]. by apply mwp_guard.
  - intros. by apply mwp_throw.
Qed.

Section stuck.
Context (app id : string) (d : Db).
Hypothesis Hi : db_inv d.
Hypothesis Hst : stuck app id d.

Lemma stuck_mutate recover : refuses_on (mutateCandidateRequest call routeTLSEnabled enableCandidateOperations app id recover : R _) d.
Proof.
  intros start log Hlog. unfold mutateCandidateRequest. apply mwp_bind, mwp_lift. destruct (requireCaller _ _); [|done].
  do 2 (apply mwp_bind, mwp_guard; intros _; [done|]). apply mwp_bind, mwp_lift. destruct (ce_lock call); [|done].
  unfold mutateCandidateRequestLocked. apply mwp_bind, mwp_map_err. unfold CandidateBindingRepository_Find.
  apply mwp_bind, mwp_guard; intros _; [done|]. apply mwp_find_one; [done|]. intros b x Hb _. destruct Hst as [_ Hn]. congruence.
Qed.

Lemma stuck_withdraw decode req cfg : Parse decode (dar_DeployerYaml req) = Ok cfg -> Cfg_Name cfg = app -> dar_RequestID req = id ->
  refuses_on (WithdrawDeployRequest call routeTLSEnabled enableCandidateOperations decode req : R _) d.
Proof.
  intros Hp Hn Hid start log Hlog. unfold WithdrawDeployRequest. apply mwp_bind, mwp_lift. destruct (requireCaller _ _); [|done].
  apply mwp_bind, mwp_guard; intros _; [done|]. rewrite Hp. do 2 (apply mwp_bind, mwp_guard; intros _; [done|]).
  apply mwp_bind, mwp_lift. destruct (ce_lock call); [|done]. apply mwp_bind, (mwp_asks _ _ start); [quieten|done|done|]. intros [?|?] log1 Hlog1; [|done].
  apply mwp_bind, mwp_map_err, mwp_lift. destruct (Config_JSON cfg); [|done].
  do 2 (apply mwp_bind, mwp_lift; destruct (newID _ _); [|done]).
  apply mwp_bind, mwp_map_err, (begin_stuck _ _ _ _ _ id); [done|by rewrite <- Hn in Hst| |done].
  destruct Hst as [_ Hb]. unfold request_key. cbn. by rewrite Hn, Hid.
Qed.

Lemma stuck_candidate cfg requestID report : Cfg_Name cfg = app ->
  (forall q, t_requests d !! (app, requestID) = Some q -> qr_state q = "pending") ->
  refuses_on (deployCandidateApp call routeTLSEnabled cfg requestID report : R _) d.
Proof.
  intros Hn Hu start log Hlog. unfold deployCandidateApp. apply mwp_bind, mwp_guard; intros _; [done|].
  apply mwp_bind, mwp_map_err, mwp_lift. destruct (Config_JSON cfg); [|done].
  apply mwp_bind, (mwp_asks _ _ start); [unfold admitNew; quieten|done|done|]. intros [?|?] log1 Hlog1; [|done].
  do 2 (apply mwp_bind, mwp_lift; destruct (newID _ _); [|done]).
  apply mwp_bind, mwp_map_err, (begin_stuck _ _ _ _ _ id); [done|by rewrite <- Hn in Hst| |done].
  unfold request_key. cbn. rewrite Hn. by eapply stuck_unfinished.
Qed.

Lemma stuck_direct cfg requestID desired report : Cfg_Name cfg = app -> requestID <> "" ->
  (forall q, t_requests d !! (app, requestID) = Some q -> qr_state q = "pending") ->
  refuses_on (deployDirect call routes routeTLSEnabled error_text cfg requestID desired report : R _) d.
Proof.
  intros Hn Hne Hu start log Hlog. unfold deployDirect. cbv zeta. apply String.eqb_neq in Hne. rewrite Hne. cbn [negb]. subst app.
  assert (Hpending : forall row stored, t_requests d !! (Cfg_Name cfg, requestID) = Some row -> scanRequest row = Ok stored -> Req_State stored = "pending").
  { intros row stored Hrow Hs. destruct (scanRequest_fields _ _ Hs) as (_ & _ & -> & _). by apply Hu. }
  apply mwp_bind. unfold replayRequest. apply mwp_bind, mwp_attempt, mwp_find_one.
  - intros e _. apply mwp_bind, mwp_guard; intros _; [done|]. apply mwp_ret.
    apply mwp_bind, (mwp_asks _ _ start); [unfold admitRelease; quieten|done|done|]. intros [[bundle credential]|?] log1 Hlog1; [|done].
    apply mwp_bind. unfold beginTracked. apply mwp_bind, mwp_map_err, mwp_request_begin; [done|].
    destruct (stuck_pending _ _ _ Hi Hst) as [q Hq].
    intros [[stored [|]]|e'] d' Hi' Hb; cbn in Hb; [destruct Hb as (_ & Hb & _); congruence| |destruct Hb as (_ & [->|Hb]); [done|congruence]].
    destruct Hb as (-> & row & Hrow & Hs). rewrite (Hpending _ _ Hrow Hs). by apply mwp_throw.
  - intros row existing Hrow Hs. apply mwp_bind, mwp_guard; intros _; [done|]. rewrite (Hpending _ _ Hrow Hs). by apply mwp_throw.
Qed.

Lemma stuck_deploy decode req cfg : Parse decode (dar_DeployerYaml req) = Ok cfg -> Cfg_Name cfg = app ->
  (forall q, t_requests d !! (app, dar_RequestID req) = Some q -> qr_state q = "pending") ->
  (forall q, t_requests d !! (app, TrimSpace (dar_RequestID req)) = Some q -> qr_state q = "pending") ->
  refuses_on (DeployApp call routes routeTLSEnabled enableCandidateOperations error_text decode req : R _) d.
Proof.
  intros Hp Hn Hu Hu' start log Hlog. unfold DeployApp. apply mwp_bind, mwp_lift. destruct (requireCaller _ _); [|done].
  apply mwp_bind, mwp_lift. unfold parseDeployment. rewrite Hp. destruct (blank _); cbn [check mbind result_bind]; [done|].
  destruct (validateRequiredTLS _ _) as [u'|]; cbn [mbind result_bind]; [|done]. apply mwp_bind, mwp_guard; intros _; [done|].
  apply mwp_bind, mwp_lift. destruct (ce_lock call); [|done]. apply mwp_bind, (mwp_asks _ _ start); [quieten|done|done|]. intros [?|?] log1 Hlog1; [|done].
  apply mwp_bind. destruct (String.eqb_spec (TrimSpace (dar_RequestID req)) "") as [E|Hne]; cbn [negb].
  { eapply mwp_mono; [rewrite Hn; by eapply refuse_pending_stuck|]. by intros [?|?] d' log' (-> & ? & ?). }
  apply mwp_ret, mwp_bind, mwp_map_err, mwp_lift. destruct (Config_JSON cfg); [|done].
  destruct (candidatePath _ _ _); [by apply stuck_candidate|by apply stuck_direct].
Qed.

Lemma stuck_delete name : TrimSpace name = app -> refuses_on (DeleteApp call enableCandidateOperations name : R _) d.
Proof.
  intros Hn start log Hlog. unfold DeleteApp. apply mwp_bind, mwp_lift. destruct (requireCaller _ _); [|done]. cbv zeta.
  apply mwp_bind, mwp_guard; intros _; [done|]. apply mwp_bind, mwp_lift. destruct (ce_lock call); [|done].
  apply mwp_bind. rewrite Hn. eapply mwp_mono; [by eapply refuse_pending_stuck|]. by intros [?|?] d' log' (-> & ? & ?).
Qed.
End stuck.

(** C18: A tracked request that is pending and has no binding is never finished by
    any handler: advance, recovery and withdrawal of it fail, every deployment of
    the app fails unless it repeats a finished request, deletion of the app fails,
    and each leaves the database as it is and the cluster alone: the runtime is asked at
    most what a preflight asks, and nothing is written, retired or deleted.  So the
    request stays pending and the app cannot be changed. *)
Theorem stuck_request app id d decode req req' cfg cfg' name :
  db_inv d -> stuck app id d ->
  Parse decode (dar_DeployerYaml req) = Ok cfg -> Cfg_Name cfg = app ->
  (forall q, t_requests d !! (app, dar_RequestID req) = Some q -> qr_state q = "pending") ->
  (forall q, t_requests d !! (app, TrimSpace (dar_RequestID req)) = Some q -> qr_state q = "pending") ->
  Parse decode (dar_DeployerYaml req') = Ok cfg' -> Cfg_Name cfg' = app -> dar_RequestID req' = id -> TrimSpace name = app ->
  refuses (AdvanceDeployRequest call routeTLSEnabled enableCandidateOperations app id : R _) d /\
  refuses (RecoverDeployRequest call routeTLSEnabled enableCandidateOperations app id : R _) d /\
  refuses (WithdrawDeployRequest call routeTLSEnabled enableCandidateOperations decode req' : R _) d /\
  refuses (DeployApp call routes routeTLSEnabled enableCandidateOperations error_text decode req : R _) d /\
  refuses (DeleteApp call enableCandidateOperations name : R _) d.
Proof.
  intros Hi Hst Hp Hn Hu Hu' Hp' Hn' Hid Hname. split; [by apply refuses_whole, stuck_mutate|]. split; [by apply refuses_whole, stuck_mutate|].
  split; [by eapply refuses_whole, stuck_withdraw|]. split; [by eapply refuses_whole, stuck_deploy|]. by eapply refuses_whole, stuck_delete.
Qed.
End admission.
