(* ===== verification/AppServiceRun.v ===== *)
(** * Concrete runs of the application service

    Deployments, a withdrawal, a preflight and a refused request, over the server of
    RequestRun; they instantiate the theorems on the service. *)

From S2P Require Import Prelude GoStrings Regexp Sha256 GoJson GoTime Appconfig AppconfigSpec Db DbRepos DbCandidates DbInv DbSteps DbProps DbEffects DbLifecycle Security Vault Activation ActivationProps Candidate CandidateOps CandidateLogic CandidateProps CandidateRun CandidateRequests RequestLogic RequestProps RequestRun AppService AppServiceLogic AppServiceProps PendingProps.
From Stdlib Require Import Ascii String.
Local Open Scope Z_scope.

Section run.
#[local] Existing Instance forward_env.
#[local] Existing Instance sample_types.
#[local] Existing Instance mem_api.
#[local] Existing Instance shift_aead.
#[local] Existing Instance cluster_runtime.
#[local] Existing Instance cluster_services.

(** A runtime that refuses one image and accepts the rest. *)
Definition refused_image : string := "registry.example.com/shop:refused".
Definition accept (cfg : Config) : result unit :=
  if String.eqb (Cfg_Image cfg) refused_image then Err (ErrKube (KubeOther "Invalid" 422)) else Ok tt.

#[local] Instance cluster_apps : AppRuntime cluster := {|
  ar_Reconcile := fun cfg _ _ k => (accept cfg, k);
  ar_ReconcileWithRegistry := fun cfg _ _ _ k => (accept cfg, k);
  ar_Delete := fun _ k => (Ok tt, k);
  ar_Status := fun _ k => (Ok "healthy", k);
  ar_StatusDetails := fun _ k => (Ok (2, 2), k);
  ar_RuntimeStatus := fun _ k => (Ok ("healthy", 2, 2, ["n1"; "n2"]), k);
  ar_DatabaseStatus := fun _ k => (Err (ErrSentinel "no database"), k) |}.

Definition unhosted (c : Config) : Config := {|
  Cfg_ImagePullCredential := Cfg_ImagePullCredential c; Cfg_EnvironmentRevision := Cfg_EnvironmentRevision c; Cfg_Name := Cfg_Name c; Cfg_Image := Cfg_Image c;
  Cfg_Service := Cfg_Service c; Cfg_Metrics := Cfg_Metrics c; Cfg_Routing := Cfg_Routing c; Cfg_Deploy := Cfg_Deploy c; Cfg_Placement := Cfg_Placement c;
  Cfg_Storage := Cfg_Storage c; Cfg_Secrets := Cfg_Secrets c; Cfg_State := Cfg_State c; Cfg_Resilience := Cfg_Resilience c;
  Cfg_Database := Cfg_Database c; Cfg_Hosting := None |}.

(** Documents by their image. *)
Definition image_decode (image : string) : result Config :=
  if String.eqb image "unhosted" then Ok (unhosted (sample_config "shop" "nginx:1" ""))
  else Ok (sample_config "shop" image "shop.example.com").

Definition route_ids : route_env := MkRouteEnv (Some (repeat 3 16)) (Some (repeat 4 16)).
Definition silent (_ : error) : string := "error".

Definition service_event (e : rt_event) : string :=
  match e with
  | EReconcile cfg _ _ _ r => (if is_ok r then "apply " else "refused ") +:+ Cfg_Image cfg
  | EResolveSecrets _ _ _ => "secrets" | ERecord t _ _ _ _ => t | EDelete _ _ => "delete" | _ => handler_event e
  end.
Definition service_trace (w : world (rt cluster)) : list string := (fun ed => service_event ed.1) <$> rt_log _ (w_k w).
Definition run_deploy (req : DeployAppRequest) (w : world (rt cluster)) :=
  DeployApp admin_call route_ids false false silent image_decode req w.

Lemma applied_inv : db_inv applied_db.
Proof. exact (reachable_inv _ applied_reachable). Qed.

(** ** An update, and an update that is withdrawn *)

Definition update_request : DeployAppRequest := MkDeployAppRequest "registry.example.com/shop:v9" "" false.
Definition withdrawn_request : DeployAppRequest := MkDeployAppRequest refused_image shop2_id true.

(** The trace and whether the reply confirms a withdrawal. *)
Definition answers (req : DeployAppRequest) (confirmed : bool) (l : list string) (w : world (rt cluster)) : Prop :=
  exists reply w', run_deploy req w = (Ok reply, w') /\ rsp_WithdrawalConfirmed reply = confirmed /\ service_trace w' = l.

Lemma answers_run req confirmed l w :
  match (run_deploy req w).1 with Ok reply => rsp_WithdrawalConfirmed reply = confirmed | Err _ => False end ->
  service_trace (run_deploy req w).2 = l -> answers req confirmed l w.
Proof. unfold answers. destruct (run_deploy req w) as [[reply|] w']; intros H1 H2; [|done]. by exists reply, w'. Qed.

Lemma update_facts : exists w, db_inv (w_db w) /\ rt_log _ (w_k w) = [] /\
  answers update_request false
    ["deletion?"; "preflight"; "app.deploy.started"; "secrets"; "apply registry.example.com/shop:v9"; "app.deploy.succeeded"] w.
Proof. exists (start applied_db inactive_cluster). split; [exact applied_inv|]. split; [reflexivity|]. apply answers_run; vm_compute; reflexivity. Qed.

Lemma withdrawn_facts : exists w, db_inv (w_db w) /\ rt_log _ (w_k w) = [] /\
  answers withdrawn_request true
    ["deletion?"; "preflight"; "app.deploy.started"; "secrets"; "refused registry.example.com/shop:refused"; "secrets";
     "apply registry.example.com/shop:v1"; "app.deploy.failed"] w.
Proof. exists (start applied_db inactive_cluster). split; [exact applied_inv|]. split; [reflexivity|]. apply answers_run; vm_compute; reflexivity. Qed.

(** A document that parses, with its canonical form. *)
Lemma document_facts image : is_ok (Parse image_decode image) = true -> is_ok (Parse image_decode image ≫= Config_JSON) = true ->
  exists cfg desired, Parse image_decode image = Ok cfg /\ Config_JSON cfg = Ok desired.
Proof. destruct (Parse image_decode image) as [cfg|]; [|done]. cbn. destruct (Config_JSON cfg) as [desired|] eqn:E; [|done]. by exists cfg, desired. Qed.

Lemma deploy_replaces_applied_witness :
  (exists w cfg desired reply w', run_deploy update_request w = (Ok reply, w') /\ rsp_WithdrawalConfirmed reply = false /\
     deploy_post cfg (TrimSpace (dar_RequestID update_request)) desired (w_db w) [] (Ok reply) (w_db w') (rt_log _ (w_k w'))) /\
  (exists w cfg desired reply w', run_deploy withdrawn_request w = (Ok reply, w') /\ rsp_WithdrawalConfirmed reply = true /\
     deploy_post cfg (TrimSpace (dar_RequestID withdrawn_request)) desired (w_db w) [] (Ok reply) (w_db w') (rt_log _ (w_k w'))).
Proof.
  split.
  - destruct update_facts as (w & Hi & Hl & reply & w' & Hm & Hc & _).
    destruct (document_facts (dar_DeployerYaml update_request)) as (cfg & desired & Hp & Hj); [vm_compute; reflexivity..|].
    exists w, cfg, desired, reply, w'. split; [exact Hm|]. split; [exact Hc|]. rewrite <- Hl. unfold run_deploy in Hm.
    exact (deploy_replaces_applied admin_call route_ids false false silent image_decode update_request cfg desired w (Ok reply) w' Hi Hp Hj eq_refl Hm).
  - destruct withdrawn_facts as (w & Hi & Hl & reply & w' & Hm & Hc & _).
    destruct (document_facts (dar_DeployerYaml withdrawn_request)) as (cfg & desired & Hp & Hj); [vm_compute; reflexivity..|].
    exists w, cfg, desired, reply, w'. split; [exact Hm|]. split; [exact Hc|]. rewrite <- Hl. unfold run_deploy in Hm.
    assert (Hpath : candidatePath false cfg (negb (String.eqb (TrimSpace (dar_RequestID withdrawn_request)) "")) = false)
      by (unfold candidatePath; rewrite andb_false_r; reflexivity).
    exact (deploy_replaces_applied admin_call route_ids false false silent image_decode withdrawn_request cfg desired w (Ok reply) w' Hi Hp Hj Hpath Hm).
Defined.

(** ** Preflight *)

Definition run_preflight (w : world (rt cluster)) := PreflightApp admin_call false image_decode "registry.example.com/shop:v9" w.

Lemma preflight_facts : exists w, db_inv (w_db w) /\ rt_log _ (w_k w) = [] /\ exists a w', run_preflight w = (Ok a, w') /\
  service_trace w' = ["deletion?"; "preflight"].
Proof.
  exists (start applied_db inactive_cluster). split; [exact applied_inv|]. split; [reflexivity|].
  assert (Hok : is_ok (run_preflight (start applied_db inactive_cluster)).1 = true) by (vm_compute; reflexivity).
  assert (Ht : service_trace (run_preflight (start applied_db inactive_cluster)).2 = ["deletion?"; "preflight"]) by (vm_compute; reflexivity).
  destruct (run_preflight _) as [[a|] w']; [|discriminate]. by exists a, w'.
Qed.

Lemma preflight_reads_witness : exists w a w', run_preflight w = (Ok a, w') /\ w_db w' = w_db w /\
  grown preflight_call [] (rt_log _ (w_k w')) /\ List.length (service_trace w') = 2%nat.
Proof.
  destruct preflight_facts as (w & Hi & Hl & a & w' & Hm & Ht). exists w, a, w'. split; [exact Hm|]. unfold run_preflight in Hm.
  destruct (preflight_reads admin_call false image_decode "registry.example.com/shop:v9" w (Ok a) w' Hi Hm) as (Hd & Hg & _).
  split; [exact Hd|]. split; [by rewrite <- Hl|by rewrite Ht].
Defined.

(** ** A request refused after it was journaled

    The update omits the hosting profile: it is refused, without a call that
    changes anything, and its request stays pending. *)
Definition unhosted_request : DeployAppRequest := MkDeployAppRequest "unhosted" shop2_id true.
Definition refused_db : Db := w_db (run_deploy unhosted_request (start applied_db inactive_cluster)).2.

Lemma refused_run : is_err (run_deploy unhosted_request (start applied_db inactive_cluster)).1 = true /\
  service_trace (run_deploy unhosted_request (start applied_db inactive_cluster)).2 = ["deletion?"].
Proof. split; vm_compute; reflexivity. Qed.

Lemma unhosted_keeps_inv w r w' : db_inv (w_db w) -> run_deploy unhosted_request w = (r, w') -> db_inv (w_db w').
Proof.
  destruct (document_facts (dar_DeployerYaml unhosted_request)) as (cfg & desired & Hp & Hj); [vm_compute; reflexivity..|].
  assert (Hpath : candidatePath false cfg (negb (String.eqb (TrimSpace (dar_RequestID unhosted_request)) "")) = false)
    by (unfold candidatePath; rewrite andb_false_r; reflexivity).
  intros Hi E. unfold run_deploy in E.
  exact (proj1 (deploy_reports admin_call route_ids false false silent image_decode unhosted_request cfg desired _ _ Hi Hp Hj Hpath w r w' eq_refl eq_refl E)).
Qed.

Lemma refused_inv : db_inv refused_db.
Proof. exact (unhosted_keeps_inv (start applied_db inactive_cluster) _ _ applied_inv (surjective_pairing _)). Qed.

Lemma refused_stuck : stuck "shop" shop2_id refused_db.
Proof. split; [|vm_compute; reflexivity]. eexists. split; vm_compute; reflexivity. Qed.

Lemma parsed_name image : match Parse image_decode image with Ok cfg => String.eqb (Cfg_Name cfg) "shop" | Err _ => false end = true ->
  exists cfg, Parse image_decode image = Ok cfg /\ Cfg_Name cfg = "shop".
Proof. destruct (Parse image_decode image) as [cfg|]; [|done]. intros E%String.eqb_eq. by exists cfg. Qed.

Lemma untracked_free : t_requests refused_db !! ("shop", "") = None.
Proof. vm_compute. reflexivity. Qed.

Lemma stuck_request_witness : stuck "shop" shop2_id refused_db /\
  refuses (DeployApp admin_call route_ids false true silent image_decode update_request : M (rt cluster) _) refused_db /\
  refuses (DeleteApp admin_call true " shop " : M (rt cluster) _) refused_db.
Proof.
  destruct (parsed_name (dar_DeployerYaml update_request)) as (cfg & Hp & Hn); [vm_compute; reflexivity|].
  destruct (parsed_name (dar_DeployerYaml withdrawn_request)) as (cfg' & Hp' & Hn'); [vm_compute; reflexivity|].
  assert (Hfree : forall q, t_requests refused_db !! ("shop", "") = Some q -> qr_state q = "pending") by (intros q E; rewrite untracked_free in E; discriminate).
  split; [exact refused_stuck|].
  destruct (stuck_request admin_call route_ids false true silent "shop" shop2_id refused_db image_decode update_request withdrawn_request cfg cfg' " shop "
              refused_inv refused_stuck Hp Hn Hfree Hfree Hp' Hn' eq_refl eq_refl) as (_ & _ & _ & Hdep & Hdel).
  split; [exact Hdep|exact Hdel].
Defined.
End run.
