(* ===== verification/NodeRegistry.v ===== *)
(** * Nodes and tokens (internal/db: node_repository.go, join_token_repository.go,
    agent_token_repository.go, admin_token_repository.go)

    The tables with their keys and unique indexes, and the repositories.  Every
    call takes one entry of the schedule of driver faults, as in Db. *)

From S2P Require Import Prelude GoStrings Regexp Sha256 GoJson GoTime Db DbRepos.
From Stdlib Require Import Ascii String.
Local Open Scope Z_scope.

(** ** The tables *)

Record node_row := NodeRow {
  nd_id : string; nd_name : string; nd_status : string; nd_labels : string; nd_hostname : string; nd_arch : string; nd_os : string;
  nd_kernel : string; nd_ip : string; nd_key : string; nd_vpn : string; nd_seen : option string; nd_created : string; nd_updated : string }.

(** [node_join_tokens] *)
Record join_row := JoinRow {
  jr_hash : string; jr_name : string; jr_labels : string; jr_created : string; jr_expires : string; jr_used : option string }.

(** [agent_tokens] and [admin_tokens]; [tk_owner] is the node or the display name. *)
Record token_row := TokenRow {
  tk_hash : string; tk_owner : string; tk_created : string; tk_last_used : option string; tk_revoked : option string }.

Record registry := MkRegistry {
  g_nodes : gmap string node_row;
  g_joins : gmap string join_row;
  g_agents : gmap string token_row;
  g_admins : gmap string token_row }.

Definition set_nodes (n : gmap string node_row) (g : registry) : registry := MkRegistry n (g_joins g) (g_agents g) (g_admins g).
Definition set_joins (j : gmap string join_row) (g : registry) : registry := MkRegistry (g_nodes g) j (g_agents g) (g_admins g).
Definition set_agents (a : gmap string token_row) (g : registry) : registry := MkRegistry (g_nodes g) (g_joins g) a (g_admins g).
Definition set_admins (a : gmap string token_row) (g : registry) : registry := MkRegistry (g_nodes g) (g_joins g) (g_agents g) a.

(** The registry, what the driver will do, and the rest of the process [K]. *)
Record nodes_world (K : Type) := MkNodes { n_reg : registry; n_faults : list fault; n_k : K }.
Arguments MkNodes {K}.
Arguments n_reg {K}.
Arguments n_faults {K}.
Arguments n_k {K}.

Section driver.
Context {K : Type}.

Definition g_query {A} (f : registry -> A) : ST (nodes_world K) A := fun w =>
  let '(o, fs) := next_fault (n_faults w) in
  match o with
  | Fine => (Ok (f (n_reg w)), MkNodes (n_reg w) fs (n_k w))
  | _ => (Err ErrDriver, MkNodes (n_reg w) fs (n_k w))
  end.

Definition g_exec (f : registry -> result (registry * Z)) : ST (nodes_world K) Z := fun w =>
  let '(o, fs) := next_fault (n_faults w) in
  match o, f (n_reg w) with
  | Failed, _ => (Err ErrDriver, MkNodes (n_reg w) fs (n_k w))
  | Fine, Ok (g, n) => (Ok n, MkNodes g fs (n_k w))
  | Fine, Err e => (Err e, MkNodes (n_reg w) fs (n_k w))
  | Ambiguous, Ok (g, _) => (Err ErrDriver, MkNodes g fs (n_k w))
  | Ambiguous, Err _ => (Err ErrDriver, MkNodes (n_reg w) fs (n_k w))
  end.
End driver.

(** ** Statements *)

(** [nodes.name UNIQUE] and the partial unique indexes of the WireGuard columns. *)
Definition node_conflict (r : node_row) (nodes : gmap string node_row) : bool :=
  exists_row (fun o => negb (String.eqb (nd_id o) (nd_id r)) &&
    (String.eqb (nd_name o) (nd_name r) ||
     (negb (String.eqb (nd_ip r) "") && String.eqb (nd_ip o) (nd_ip r)) ||
     (negb (String.eqb (nd_key r) "") && String.eqb (nd_key o) (nd_key r)))) nodes.

Definition insert_node (r : node_row) (g : registry) : result (registry * Z) :=
  _ ← check (bool_decide (is_Some (g_nodes g !! nd_id r))) (ErrConstraint "nodes.id");
  _ ← check (node_conflict r (g_nodes g)) (ErrConstraint "nodes unique");
  Ok (set_nodes (<[nd_id r := r]> (g_nodes g)) g, 1).

(** [UPDATE nodes SET ... WHERE id = ?] *)
Definition update_node (id : string) (f : node_row -> node_row) (g : registry) : result (registry * Z) :=
  match g_nodes g !! id with
  | None => Ok (g, 0)
  | Some r =>
      _ ← check (node_conflict (f r) (g_nodes g)) (ErrConstraint "nodes unique");
      Ok (set_nodes (<[id := f r]> (g_nodes g)) g, 1)
  end.

Definition delete_node (id : string) (g : registry) : result (registry * Z) :=
  match g_nodes g !! id with
  | None => Ok (g, 0)
  | Some _ => Ok (set_nodes (base.delete id (g_nodes g)) g, 1)
  end.

Definition insert_join (r : join_row) (g : registry) : result (registry * Z) :=
  _ ← check (bool_decide (is_Some (g_joins g !! jr_hash r))) (ErrConstraint "node_join_tokens.token_hash");
  Ok (set_joins (<[jr_hash r := r]> (g_joins g)) g, 1).

(** [UPDATE node_join_tokens SET used_at = ? WHERE token_hash = ? AND used_at IS NULL] *)
Definition use_join (hash at_ : string) (g : registry) : result (registry * Z) :=
  match g_joins g !! hash with
  | Some r =>
      if bool_decide (jr_used r = None) then
        Ok (set_joins (<[hash := JoinRow (jr_hash r) (jr_name r) (jr_labels r) (jr_created r) (jr_expires r) (Some at_)]> (g_joins g)) g, 1)
      else Ok (g, 0)
  | None => Ok (g, 0)
  end.

Definition delete_joins (name : string) (g : registry) : result (registry * Z) :=
  Ok (set_joins (filter (fun kv => jr_name kv.2 <> name) (g_joins g)) g, Z.of_nat (size (filter (fun kv => jr_name kv.2 = name) (g_joins g)))).

Definition insert_token (r : token_row) (m : gmap string token_row) : result (gmap string token_row) :=
  _ ← check (bool_decide (is_Some (m !! tk_hash r))) (ErrConstraint "token_hash");
  Ok (<[tk_hash r := r]> m).

Definition mark_used (hash at_ : string) (m : gmap string token_row) : option (gmap string token_row) :=
  r ← m !! hash;
  Some (<[hash := TokenRow (tk_hash r) (tk_owner r) (tk_created r) (Some at_) (tk_revoked r)]> m).

(** [UPDATE agent_tokens SET revoked_at = ? WHERE node_id = ? AND revoked_at IS NULL] *)
Definition revoke (node at_ : string) (r : token_row) : token_row :=
  if String.eqb (tk_owner r) node && bool_decide (tk_revoked r = None)
  then TokenRow (tk_hash r) (tk_owner r) (tk_created r) (tk_last_used r) (Some at_) else r.

(** ** NodeRepository *)

Record Node := MkNode {
  Node_ID : string; Node_Name : string; Node_Status : string; Node_LabelsJSON : string; Node_Hostname : string; Node_Arch : string;
  Node_OS : string; Node_Kernel : string; Node_WireGuardIP : string; Node_WireGuardPublicKey : string; Node_VPNStatus : string;
  Node_LastSeenAt : option Z; Node_CreatedAt : Z; Node_UpdatedAt : Z }.

Definition scanNode (r : node_row) : result Node :=
  seen ← parseOptionalStoredTime "last_seen_at" (nd_seen r);
  created ← parseStoredTime "created_at" (nd_created r);
  updated ← parseStoredTime "updated_at" (nd_updated r);
  Ok (MkNode (nd_id r) (nd_name r) (nd_status r) (nd_labels r) (nd_hostname r) (nd_arch r) (nd_os r) (nd_kernel r) (nd_ip r) (nd_key r)
        (nd_vpn r) seen created updated).

Section repositories.
Context {K : Type}.
Notation N := (ST (nodes_world K)).

Definition g_find {R A} (select : registry -> option R) (scan : R -> result A) : N A :=
  row ← g_query select;
  lift (match row with Some r => scan r | None => Err ErrNotFound end).

Definition NodeRepository_Create (n : Node) : N unit :=
  let status := if String.eqb (Node_Status n) "" then "pending" else Node_Status n in
  let labels := if String.eqb (Node_LabelsJSON n) "" then "{}" else Node_LabelsJSON n in
  _ ← g_exec (insert_node (NodeRow (Node_ID n) (Node_Name n) status labels (Node_Hostname n) (Node_Arch n) (Node_OS n) (Node_Kernel n)
        (Node_WireGuardIP n) (Node_WireGuardPublicKey n) (Node_VPNStatus n) (formatOptionalTime (Node_LastSeenAt n))
        (formatTime (Node_CreatedAt n)) (formatTime (Node_UpdatedAt n))));
  mret tt.

Definition NodeRepository_FindByID (id : string) : N Node := g_find (fun g => g_nodes g !! id) scanNode.

Definition NodeRepository_FindByName (name : string) : N Node :=
  g_find (fun g => select1 (fun r => String.eqb (nd_name r) name) (g_nodes g)) scanNode.

Definition NodeRepository_List : N (list Node) :=
  rows ← g_query (fun g => order_by nd_name (rows (g_nodes g)));
  lift (scan_all scanNode rows).

Definition NodeRepository_UpdateStatus (id status : string) (updated : Z) : N unit :=
  mapRowsAffected (g_exec (update_node id (fun r =>
    NodeRow (nd_id r) (nd_name r) status (nd_labels r) (nd_hostname r) (nd_arch r) (nd_os r) (nd_kernel r) (nd_ip r) (nd_key r) (nd_vpn r)
      (nd_seen r) (nd_created r) (formatTime updated)))).

Definition NodeRepository_UpdateLastSeen (id : string) (seen : Z) : N unit :=
  mapRowsAffected (g_exec (update_node id (fun r =>
    NodeRow (nd_id r) (nd_name r) "online" (nd_labels r) (nd_hostname r) (nd_arch r) (nd_os r) (nd_kernel r) (nd_ip r) (nd_key r) (nd_vpn r)
      (Some (formatTime seen)) (nd_created r) (formatTime seen)))).

(** Labels are kept when the heartbeat has none. *)
Definition NodeRepository_UpdateHeartbeat (id : string) (h : Node) (seen : Z) : N unit :=
  mapRowsAffected (g_exec (update_node id (fun r =>
    NodeRow (nd_id r) (nd_name r) (Node_Status h) (if String.eqb (Node_LabelsJSON h) "" then nd_labels r else Node_LabelsJSON h)
      (Node_Hostname h) (Node_Arch h) (Node_OS h) (Node_Kernel h) (nd_ip r) (nd_key r) (Node_VPNStatus h)
      (Some (formatTime seen)) (nd_created r) (formatTime seen)))).

Definition NodeRepository_SetWireGuard (id ip key : string) (updated : Z) : N unit :=
  mapRowsAffected (g_exec (update_node id (fun r =>
    NodeRow (nd_id r) (nd_name r) (nd_status r) (nd_labels r) (nd_hostname r) (nd_arch r) (nd_os r) (nd_kernel r) ip key (nd_vpn r)
      (nd_seen r) (nd_created r) (formatTime updated)))).

Definition NodeRepository_Rename (id name : string) (updated : Z) : N unit :=
  mapRowsAffected (g_exec (update_node id (fun r =>
    NodeRow (nd_id r) name (nd_status r) (nd_labels r) (nd_hostname r) (nd_arch r) (nd_os r) (nd_kernel r) (nd_ip r) (nd_key r) (nd_vpn r)
      (nd_seen r) (nd_created r) (formatTime updated)))).

Definition NodeRepository_Delete (id : string) : N unit := mapRowsAffected (g_exec (delete_node id)).

(** ** JoinTokenRepository *)

Record JoinToken := MkJoinToken {
  JT_TokenHash : string; JT_IntendedNodeName : string; JT_LabelsJSON : string; JT_CreatedAt : Z; JT_ExpiresAt : Z; JT_UsedAt : option Z }.

Definition ErrJoinTokenExpired : error := ErrSentinel "join token expired".
Definition ErrJoinTokenUsed : error := ErrSentinel "join token already used".

Definition scanJoinToken (r : join_row) : result JoinToken :=
  created ← parseStoredTime "created_at" (jr_created r);
  expires ← parseStoredTime "expires_at" (jr_expires r);
  used ← parseOptionalStoredTime "used_at" (jr_used r);
  Ok (MkJoinToken (jr_hash r) (jr_name r) (jr_labels r) created expires used).

Definition JoinTokenRepository_Create (t : JoinToken) : N unit :=
  _ ← g_exec (insert_join (JoinRow (JT_TokenHash t) (JT_IntendedNodeName t) (JT_LabelsJSON t) (formatTime (JT_CreatedAt t))
        (formatTime (JT_ExpiresAt t)) (formatOptionalTime (JT_UsedAt t))));
  mret tt.

Definition JoinTokenRepository_FindByHash (hash : string) : N JoinToken := g_find (fun g => g_joins g !! hash) scanJoinToken.

Definition JoinTokenRepository_Consume (hash : string) (usedAt : Z) : N JoinToken :=
  token ← JoinTokenRepository_FindByHash hash;
  _ ← guard (bool_decide (is_Some (JT_UsedAt token))) ErrJoinTokenUsed;
  _ ← guard (negb (usedAt <? JT_ExpiresAt token)) ErrJoinTokenExpired;
  _ ← map_err (fun e => if errors_Is e ErrNotFound then ErrJoinTokenUsed else e)
        (mapRowsAffected (g_exec (use_join hash (formatTime usedAt))));
  mret (MkJoinToken (JT_TokenHash token) (JT_IntendedNodeName token) (JT_LabelsJSON token) (JT_CreatedAt token) (JT_ExpiresAt token)
          (Some usedAt)).

Definition JoinTokenRepository_DeleteByNodeName (name : string) : N unit := _ ← g_exec (delete_joins name); mret tt.

(** ** AgentTokenRepository, AdminTokenRepository *)

(** [domain.AgentToken] and [domain.AdminToken]: the owner is the node or the name. *)
Record BearerToken := MkBearerToken {
  BT_TokenHash : string; BT_Owner : string; BT_CreatedAt : Z; BT_LastUsedAt : option Z; BT_RevokedAt : option Z }.

Definition scanToken (r : token_row) : result BearerToken :=
  created ← parseStoredTime "created_at" (tk_created r);
  used ← parseOptionalStoredTime "last_used_at" (tk_last_used r);
  revoked ← parseOptionalStoredTime "revoked_at" (tk_revoked r);
  Ok (MkBearerToken (tk_hash r) (tk_owner r) created used revoked).

Definition token_row_of (t : BearerToken) : token_row :=
  TokenRow (BT_TokenHash t) (BT_Owner t) (formatTime (BT_CreatedAt t)) (formatOptionalTime (BT_LastUsedAt t)) (formatOptionalTime (BT_RevokedAt t)).

Definition AgentTokenRepository_Create (t : BearerToken) : N unit :=
  _ ← g_exec (fun g => m ← insert_token (token_row_of t) (g_agents g); Ok (set_agents m g, 1)); mret tt.
Definition AgentTokenRepository_FindByHash (hash : string) : N BearerToken := g_find (fun g => g_agents g !! hash) scanToken.
Definition AgentTokenRepository_MarkUsed (hash : string) (used : Z) : N unit :=
  mapRowsAffected (g_exec (fun g =>
    Ok (match mark_used hash (formatTime used) (g_agents g) with Some m => (set_agents m g, 1) | None => (g, 0) end))).
Definition AgentTokenRepository_RevokeByNodeID (node : string) (revoked : Z) : N unit :=
  _ ← g_exec (fun g => Ok (set_agents (revoke node (formatTime revoked) <$> g_agents g) g, 1)); mret tt.
Definition AgentTokenRepository_DeleteByNodeID (node : string) : N unit :=
  _ ← g_exec (fun g => Ok (set_agents (filter (fun kv => tk_owner kv.2 <> node) (g_agents g)) g, 1)); mret tt.

Definition AdminTokenRepository_Create (t : BearerToken) : N unit :=
  _ ← g_exec (fun g => m ← insert_token (token_row_of t) (g_admins g); Ok (set_admins m g, 1)); mret tt.
Definition AdminTokenRepository_FindByHash (hash : string) : N BearerToken := g_find (fun g => g_admins g !! hash) scanToken.
Definition AdminTokenRepository_MarkUsed (hash : string) (used : Z) : N unit :=
  mapRowsAffected (g_exec (fun g =>
    Ok (match mark_used hash (formatTime used) (g_admins g) with Some m => (set_admins m g, 1) | None => (g, 0) end))).
End repositories.
