(* ===== verification/NodeService.v ===== *)
(** * Nodes and callers (internal/server/node.go, auth.go, bootstrap.go)

    Join tokens, enrollment, heartbeats, draining, removal, purging and renaming
    of nodes; the monitor that marks nodes offline; authentication of callers.
    The server is the configured one: every repository is set, the runtime is the
    Kubernetes controller and the hub is synchronised. *)

From S2P Require Import Prelude GoStrings Regexp Sha256 GoJson GoTime GoNet Wireguard Appconfig DatabaseStatus Db DbRepos Security CandidateRequests NodeRegistry.
From Stdlib Require Import Ascii String.
Local Open Scope Z_scope.

Definition nodeStatusPending : string := "pending".
Definition nodeStatusOnline : string := "online".
Definition nodeStatusOffline : string := "offline".
Definition nodeStatusDrained : string := "drained".
Definition nodeStatusRemoved : string := "removed".
Definition second : Z := 1000000000.
Definition defaultJoinTTL : Z := 3600 * second.

(** [^[a-z0-9]([-a-z0-9]*[a-z0-9])?$] *)
Definition nodeNamePattern : regex :=
  RSeq (cls lower_alnum) (ROpt (RSeq (RStar (cls ((45, 45) :: lower_alnum))) (cls lower_alnum))).

Definition validateNodeName (name : string) : result unit :=
  _ ← check (blank name) (ErrSentinel "node name is required");
  check ((63 <? slen name) || negb (re_match nodeNamePattern name)) (ErrSentinel "node name must be a DNS-safe Kubernetes name").

(** [time.Time.Sub]: the difference saturates at the range of a duration. *)
Definition time_Sub (a b : Z) : Z := Z.max (- 2 ^ 63) (Z.min (2 ^ 63 - 1) (a - b)).

Definition formatOptionalProtoTime (t : option Z) : string := match t with None => "" | Some t => formatProtoTime t end.

(** The caller that authentication put into the context. *)
Record Caller := MkCaller { Caller_Kind : CallerKind; Caller_NodeID : string; Caller_TokenID : string }.

Record WorkerNetworkConfig := MkNetwork { Net_Subnet : string; Net_HubIP : string; Net_HubPublicKey : string; Net_Endpoint : string }.
Definition DefaultSubnet : string := "10.8.0.0/24".
Definition DefaultHubIP : string := "10.8.0.1".

(** [deployerv1.Node] *)
Record PbNode := MkPbNode {
  pb_node_id : string; pb_node_name : string; pb_node_status : string; pb_node_labels : gmap string string; pb_node_created : string;
  pb_node_updated : string; pb_node_seen : string; pb_node_hostname : string; pb_node_arch : string; pb_node_os : string;
  pb_node_kernel : string; pb_node_ip : string; pb_node_key : string; pb_node_schedulable : bool; pb_node_vpn : string;
  pb_node_kstatus : string; pb_node_kmessage : string }.

Record CreateJoinTokenRequest := MkCreateJoinToken { cj_NodeName : string; cj_Labels : gmap string string; cj_TtlSeconds : Z }.
Record JoinNodeRequest := MkJoinNode { jn_JoinToken : string; jn_PublicKey : string; jn_Hostname : string; jn_Arch : string }.
Record JoinNodeResponse := MkJoinNodeResponse { jnr_NodeID : string; jnr_NodeName : string; jnr_AgentToken : string; jnr_WireGuardIP : string }.
Record HeartbeatRequest := MkHeartbeat {
  hb_Status : string; hb_Hostname : string; hb_Arch : string; hb_Os : string; hb_Kernel : string; hb_VpnStatus : string }.
Record WorkerBootstrap := MkWorkerBootstrap {
  wb_NodeName : string; wb_IP : string; wb_Subnet : string; wb_HubIP : string; wb_HubKey : string; wb_Endpoint : string; wb_URL : string; wb_Token : string }.

(** The interfaces [NodeRuntime], [NodeDrainRuntime], [NodeRemovalGuard],
    [NodeLabelSyncRuntime], [PeerSynchronizer], [WorkerJoinMaterialProvider] and the
    recorder of events. *)
Class NodeRuntime (K : Type) := {
  nr_NodeReadiness : string -> K -> result (string * string * bool) * K;
  nr_DrainNode : string -> K -> result unit * K;
  nr_UncordonNode : string -> K -> result unit * K;
  nr_RemoveNode : string -> K -> result unit * K;
  nr_ValidateNodeRemoval : Node -> K -> result unit * K;
  nr_SyncNodeLabels : Node -> K -> result unit * K;
  nr_SyncPeers : list Node -> K -> result unit * K;
  nr_WorkerJoinMaterial : K -> result (string * string) * K;
  nr_Record : string -> string -> string -> string -> K -> K
}.

Section labels.
Context `{AppEnv}.

Definition label_entry (clean : option (gmap string string)) (kv : string * string) : option (gmap string string) :=
  m ← clean;
  let key := TrimSpace kv.1 in
  if String.eqb key "" then None else Some (<[key := TrimSpace kv.2]> m).

Definition marshalLabels (labels : gmap string string) : result string :=
  match fold_left label_entry (range_map labels) (Some ∅) with
  | None => Err (ErrSentinel "label keys cannot be empty")
  | Some clean => Ok (json_print (enc_map enc_string clean))
  end.

Definition unmarshalLabels (labelsJSON : string) : gmap string string :=
  if blank labelsJSON then ∅
  else default ∅ (json_parse labelsJSON ≫= dec_map "" dec_string ∅).
End labels.

Definition protoNode (n : Node) : PbNode :=
  MkPbNode (Node_ID n) (Node_Name n) (Node_Status n) (unmarshalLabels (Node_LabelsJSON n)) (formatProtoTime (Node_CreatedAt n))
    (formatProtoTime (Node_UpdatedAt n)) (formatOptionalProtoTime (Node_LastSeenAt n)) (Node_Hostname n) (Node_Arch n) (Node_OS n)
    (Node_Kernel n) (Node_WireGuardIP n) (Node_WireGuardPublicKey n)
    (negb (String.eqb (Node_Status n) nodeStatusDrained) && negb (String.eqb (Node_Status n) nodeStatusRemoved)) (Node_VPNStatus n) "" "".

Section handlers.
Context `{AppEnv} {K : Type} `{!NodeRuntime K}.
Notation N := (ST (nodes_world K)).

Variable hashKey : list Z.
Variable network : WorkerNetworkConfig.
Variable offlineAfter : Z.

Definition runtime {A} (f : K -> result A * K) : N A := fun w =>
  let '(r, k) := f (n_k w) in (r, MkNodes (n_reg w) (n_faults w) k).

Definition or_status {A} (e : error) (m : N A) : N A := map_err (fun _ => e) m.

Definition recordNodeEvent (type severity message nodeID : string) : N unit := runtime (fun k => (Ok tt, nr_Record type severity message nodeID k)).

Definition requireAdmin (caller : option Caller) : result unit := requireCaller (Caller_Kind <$> caller) CallerAdmin.

Definition nodeWithReadiness (n : Node) : N PbNode :=
  '(state, message, schedulable) ← or_status (internal "read Kubernetes node readiness") (runtime (nr_NodeReadiness (Node_Name n)));
  let p := protoNode n in
  mret (MkPbNode (pb_node_id p) (pb_node_name p) (pb_node_status p) (pb_node_labels p) (pb_node_created p) (pb_node_updated p) (pb_node_seen p)
          (pb_node_hostname p) (pb_node_arch p) (pb_node_os p) (pb_node_kernel p) (pb_node_ip p) (pb_node_key p)
          (schedulable && negb (String.eqb (Node_Status n) nodeStatusDrained) && negb (String.eqb (Node_Status n) nodeStatusRemoved))
          (pb_node_vpn p) state message).

Definition findNode (ref : string) : N Node :=
  let ref := TrimSpace ref in
  _ ← guard (String.eqb ref "") (ErrStatus InvalidArgument "node reference is required");
  found ← attempt (NodeRepository_FindByName ref);
  found ← (match found with
           | Err e => if errors_Is e ErrNotFound then attempt (NodeRepository_FindByID ref) else mret found
           | Ok _ => mret found
           end);
  match found with
  | Ok node => mret node
  | Err e => throw (if errors_Is e ErrNotFound then ErrStatus NotFound "node not found" else internal "get node")
  end.

Fixpoint withReadiness (l : list Node) : N (list PbNode) :=
  match l with
  | [] => mret []
  | n :: l' => p ← nodeWithReadiness n; rest ← withReadiness l'; mret (p :: rest)
  end.

Definition ListNodes (caller : option Caller) : N (list PbNode) :=
  _ ← lift (requireAdmin caller);
  nodes ← or_status (internal "list nodes") NodeRepository_List;
  withReadiness nodes.

Definition GetNode (caller : option Caller) (ref : string) : N PbNode :=
  _ ← lift (requireAdmin caller);
  node ← findNode ref;
  nodeWithReadiness node.

(** ** Join tokens *)

Definition allocateWireGuardIP : N string :=
  nodes ← or_status (internal "list nodes for WireGuard address allocation") NodeRepository_List;
  let subnet := or_default (TrimSpace (Net_Subnet network)) DefaultSubnet in
  let hub := or_default (TrimSpace (Net_HubIP network)) DefaultHubIP in
  lift (match NextPeerIP subnet hub (Node_WireGuardIP <$> nodes) with
        | Ok ip => Ok ip
        | Err _ => Err (ErrStatus ResourceExhausted "%v")
        end).

(** [time.Duration(seconds) * time.Second], in 64 bits. *)
Definition joinTTL (seconds : Z) : Z := let ttl := wrap_i64 (seconds * second) in if ttl <=? 0 then defaultJoinTTL else ttl.

Definition ensureAddress (node : option Node) : N string :=
  match node with
  | Some n => if String.eqb (Node_WireGuardIP n) "" then allocateWireGuardIP else mret (Node_WireGuardIP n)
  | None => allocateWireGuardIP
  end.

(** A token of this kind and its hash. *)
Definition newToken (prefix : string) (raw : option (list Z)) (create hash : string) : N (string * string) :=
  token ← or_status (internal create) (lift (NewToken prefix raw));
  tokenHash ← or_status (internal hash) (lift (HashToken hashKey token));
  mret (token, tokenHash).

(** The pending node: created, or given an address. *)
Definition preparePending (existing : option Node) (nodeName labelsJSON arch ip : string) (now : Z) (idRaw : option (list Z)) : N unit :=
  match existing with
  | None =>
      nodeID ← or_status (internal "create node id") (lift (newID "node" idRaw));
      or_status (internal "create pending node")
        (NodeRepository_Create (MkNode nodeID nodeName nodeStatusPending labelsJSON "" arch "" "" ip "" "" None now now))
  | Some n =>
      if String.eqb (Node_WireGuardIP n) "" then
        or_status (internal "assign WireGuard address") (NodeRepository_SetWireGuard (Node_ID n) ip (Node_WireGuardPublicKey n) now)
      else mret tt
  end.

Definition CreateJoinToken (caller : option Caller) (req : CreateJoinTokenRequest) (now : Z) (tokenRaw idRaw : option (list Z))
    : N (string * string * string) :=
  _ ← lift (requireAdmin caller);
  let nodeName := TrimSpace (cj_NodeName req) in
  _ ← or_status (ErrStatus InvalidArgument "%v") (lift (validateNodeName nodeName));
  let expiresAt := now + joinTTL (cj_TtlSeconds req) in
  labelsJSON ← or_status (ErrStatus InvalidArgument "%v") (lift (marshalLabels (cj_Labels req)));
  found ← attempt (NodeRepository_FindByName nodeName);
  existing ← (match found with
              | Ok n => _ ← guard (negb (String.eqb (Node_Status n) nodeStatusPending)) (ErrStatus AlreadyExists "node already exists"); mret (Some n)
              | Err e => _ ← guard (negb (errors_Is e ErrNotFound)) (internal "find node"); mret None
              end);
  wireGuardIP ← ensureAddress existing;
  '(rawToken, tokenHash) ← newToken JoinTokenPrefix tokenRaw "create join token" "hash join token";
  _ ← or_status (internal "store join token") (JoinTokenRepository_Create (MkJoinToken tokenHash nodeName labelsJSON now expiresAt None));
  _ ← preparePending existing nodeName labelsJSON (default "" (cj_Labels req !! "arch")) wireGuardIP now idRaw;
  mret (rawToken, formatProtoTime expiresAt, nodeName).

(** ** Enrollment *)

Definition nodeForJoin (nodeName : string) (now : Z) (idRaw : option (list Z)) : N Node :=
  found ← attempt (NodeRepository_FindByName nodeName);
  match found with
  | Ok n => mret n
  | Err e =>
      _ ← guard (negb (errors_Is e ErrNotFound)) (internal "find node");
      nodeID ← or_status (internal "create node id") (lift (newID "node" idRaw));
      let node := MkNode nodeID nodeName nodeStatusPending "" "" "" "" "" "" "" "" None now now in
      _ ← or_status (internal "create node") (NodeRepository_Create node);
      mret node
  end.

Definition enrollNode (joinToken : JoinToken) (req : JoinNodeRequest) (now : Z) (idRaw tokenRaw : option (list Z)) : N JoinNodeResponse :=
  let nodeName := or_default (TrimSpace (JT_IntendedNodeName joinToken)) (TrimSpace (jn_Hostname req)) in
  _ ← guard (String.eqb nodeName "") (ErrStatus InvalidArgument "node name is required");
  let labels := unmarshalLabels (JT_LabelsJSON joinToken) in
  let labels := if String.eqb (jn_Arch req) "" then labels else <["arch" := jn_Arch req]> labels in
  labelsJSON ← or_status (ErrStatus InvalidArgument "%v") (lift (marshalLabels labels));
  node ← nodeForJoin nodeName now idRaw;
  _ ← guard (String.eqb (Node_Status node) nodeStatusRemoved) (ErrStatus PermissionDenied "node has been removed");
  wireGuardIP ← ensureAddress (Some node);
  _ ← or_status (internal "store WireGuard peer metadata")
        (NodeRepository_SetWireGuard (Node_ID node) wireGuardIP (TrimSpace (jn_PublicKey req)) now);
  let heartbeat := MkNode "" "" nodeStatusOnline labelsJSON (TrimSpace (jn_Hostname req)) (TrimSpace (jn_Arch req)) "" "" "" "" "" None 0 0 in
  _ ← or_status (internal "activate node") (NodeRepository_UpdateHeartbeat (Node_ID node) heartbeat now);
  '(rawToken, tokenHash) ← newToken AgentTokenPrefix tokenRaw "create agent token" "hash agent token";
  _ ← or_status (internal "store agent token") (AgentTokenRepository_Create (MkBearerToken tokenHash (Node_ID node) now None None));
  mret (MkJoinNodeResponse (Node_ID node) nodeName rawToken wireGuardIP).

Definition JoinNode (req : JoinNodeRequest) (now : Z) (idRaw tokenRaw : option (list Z)) : N JoinNodeResponse :=
  let rawToken := TrimSpace (jn_JoinToken req) in
  _ ← guard (String.eqb rawToken "") (ErrStatus Unauthenticated "join token is required");
  _ ← or_status (ErrStatus InvalidArgument "%v") (lift (ValidatePublicKey (TrimSpace (jn_PublicKey req))));
  _ ← or_status (ErrStatus Unauthenticated "invalid join token") (lift (Prefix rawToken));
  tokenHash ← or_status (internal "hash join token") (lift (HashToken hashKey rawToken));
  joinToken ← map_err (fun e => if errors_Is e ErrNotFound then ErrStatus Unauthenticated "invalid join token" else internal "find join token")
                (JoinTokenRepository_FindByHash tokenHash);
  _ ← guard (bool_decide (is_Some (JT_UsedAt joinToken))) (ErrStatus PermissionDenied "join token already used");
  _ ← guard (negb (now <? JT_ExpiresAt joinToken)) (ErrStatus PermissionDenied "join token expired");
  response ← enrollNode joinToken req now idRaw tokenRaw;
  _ ← map_err (fun e => if errors_Is e ErrJoinTokenExpired then ErrStatus PermissionDenied "join token expired"
                        else if errors_Is e ErrJoinTokenUsed then ErrStatus PermissionDenied "join token already used"
                        else internal "consume join token") (JoinTokenRepository_Consume tokenHash now);
  _ ← recordNodeEvent "node.joined" "info" ("node " +:+ jnr_NodeName response +:+ " joined the platform") (jnr_NodeID response);
  _ ← recordNodeEvent "node.online" "info" ("node " +:+ jnr_NodeName response +:+ " is online") (jnr_NodeID response);
  mret response.

(** ** Agents *)

Definition requireAgent (caller : option Caller) : result string :=
  match caller with
  | Some c => if bool_decide (Caller_Kind c = CallerAgent) then Ok (Caller_NodeID c) else Err (ErrStatus PermissionDenied "agent token is required")
  | None => Err (ErrStatus PermissionDenied "agent token is required")
  end.

(** The node of the agent, unless it was removed. *)
Definition agentNode (nodeID missing : string) : N Node :=
  node ← map_err (fun e => if errors_Is e ErrNotFound then ErrStatus NotFound "node not found" else internal missing)
           (NodeRepository_FindByID nodeID);
  _ ← guard (String.eqb (Node_Status node) nodeStatusRemoved) (ErrStatus PermissionDenied "node has been removed");
  mret node.

Definition valid_vpn (vpnStatus : string) : bool :=
  existsb (String.eqb vpnStatus) [""; "connected"; "disconnected"; "unknown"].

(** What is read and checked before the heartbeat is written. *)
Definition admitHeartbeat (caller : option Caller) (req : HeartbeatRequest) : N (Node * string) :=
  nodeID ← lift (requireAgent caller);
  let statusValue := or_default (TrimSpace (hb_Status req)) nodeStatusOnline in
  previous ← agentNode nodeID "get heartbeat node";
  _ ← guard (negb (String.eqb statusValue nodeStatusOnline) && negb (String.eqb statusValue nodeStatusOffline))
        (ErrStatus InvalidArgument "status must be online or offline");
  _ ← guard (negb (valid_vpn (TrimSpace (hb_VpnStatus req))))
        (ErrStatus InvalidArgument "vpn_status must be connected, disconnected, or unknown");
  mret (previous, if String.eqb (Node_Status previous) nodeStatusDrained then nodeStatusDrained else statusValue).

Definition applyHeartbeat (nodeID : string) (req : HeartbeatRequest) (previous : Node) (effectiveStatus : string) (now : Z) : N string :=
  let fields id name labels ip key seen created updated :=
    MkNode id name effectiveStatus labels (TrimSpace (hb_Hostname req)) (TrimSpace (hb_Arch req)) (TrimSpace (hb_Os req))
      (TrimSpace (hb_Kernel req)) ip key (TrimSpace (hb_VpnStatus req)) seen created updated in
  _ ← map_err (fun e => if errors_Is e ErrNotFound then ErrStatus NotFound "node not found" else internal "update heartbeat")
        (NodeRepository_UpdateHeartbeat nodeID (fields "" "" "" "" "" None 0 0) now);
  let current := fields (Node_ID previous) (Node_Name previous) (Node_LabelsJSON previous) (Node_WireGuardIP previous)
                   (Node_WireGuardPublicKey previous) (Node_LastSeenAt previous) (Node_CreatedAt previous) (Node_UpdatedAt previous) in
  _ ← or_status (internal "sync Kubernetes node labels") (runtime (nr_SyncNodeLabels current));
  _ ← (if String.eqb (Node_Status previous) effectiveStatus then mret tt
       else if String.eqb effectiveStatus nodeStatusOnline then
         recordNodeEvent "node.online" "info" ("node " +:+ Node_Name previous +:+ " is online") (Node_ID previous)
       else if String.eqb effectiveStatus nodeStatusOffline then
         recordNodeEvent "node.offline" "warning" ("node " +:+ Node_Name previous +:+ " is offline") (Node_ID previous)
       else mret tt);
  mret (formatProtoTime now).

Definition HeartbeatNode (caller : option Caller) (req : HeartbeatRequest) (now : Z) : N string :=
  '(previous, effectiveStatus) ← admitHeartbeat caller req;
  nodeID ← lift (requireAgent caller);
  applyHeartbeat nodeID req previous effectiveStatus now.

Definition GetWorkerBootstrap (caller : option Caller) : N WorkerBootstrap :=
  nodeID ← lift (requireAgent caller);
  node ← agentNode nodeID "get bootstrap node";
  _ ← guard (blank (Node_WireGuardIP node)) (precondition "WireGuard peer synchronization is not configured");
  knownNodes ← or_status (internal "list WireGuard peers") NodeRepository_List;
  _ ← or_status (internal "synchronize WireGuard hub peers") (runtime (nr_SyncPeers knownNodes));
  _ ← guard (blank (Net_HubIP network) || blank (Net_HubPublicKey network) || blank (Net_Endpoint network))
        (precondition "worker bootstrap configuration is incomplete");
  _ ← or_status (precondition "%v") (lift (ValidatePublicKey (Net_HubPublicKey network)));
  '(url, token) ← or_status (precondition "k3s worker join material is unavailable") (runtime nr_WorkerJoinMaterial);
  _ ← recordNodeEvent "node.worker.bootstrap.requested" "info" ("node " +:+ Node_Name node +:+ " requested worker bootstrap material") (Node_ID node);
  mret (MkWorkerBootstrap (Node_Name node) (Node_WireGuardIP node) (or_default (TrimSpace (Net_Subnet network)) DefaultSubnet)
          (TrimSpace (Net_HubIP network)) (TrimSpace (Net_HubPublicKey network)) (TrimSpace (Net_Endpoint network)) url token).

(** ** Administration *)

Definition with_status (status : string) (now : Z) (n : Node) : Node :=
  MkNode (Node_ID n) (Node_Name n) status (Node_LabelsJSON n) (Node_Hostname n) (Node_Arch n) (Node_OS n) (Node_Kernel n) (Node_WireGuardIP n)
    (Node_WireGuardPublicKey n) (Node_VPNStatus n) (Node_LastSeenAt n) (Node_CreatedAt n) now.

Definition changeStatus (failure status : string) (now : Z) (n : Node) : N Node :=
  if String.eqb (Node_Status n) status then mret n
  else
    _ ← or_status (internal failure) (NodeRepository_UpdateStatus (Node_ID n) status now);
    mret (with_status status now n).

Definition DrainNode (caller : option Caller) (ref : string) (now : Z) : N PbNode :=
  _ ← lift (requireAdmin caller);
  node ← findNode ref;
  _ ← guard (String.eqb (Node_Status node) nodeStatusRemoved) (precondition "removed node cannot be drained");
  _ ← or_status (internal "drain Kubernetes node") (runtime (nr_DrainNode (Node_Name node)));
  node ← changeStatus "mark node drained" nodeStatusDrained now node;
  nodeWithReadiness node.

Definition UncordonNode (caller : option Caller) (ref : string) (now : Z) : N PbNode :=
  _ ← lift (requireAdmin caller);
  node ← findNode ref;
  _ ← guard (String.eqb (Node_Status node) nodeStatusRemoved) (precondition "removed node cannot be uncordoned");
  _ ← or_status (internal "uncordon Kubernetes node") (runtime (nr_UncordonNode (Node_Name node)));
  let nextStatus := match Node_LastSeenAt node with
                    | Some seen => if time_Sub now seen <? offlineAfter then nodeStatusOnline else nodeStatusOffline
                    | None => nodeStatusOffline
                    end in
  node ← changeStatus "mark node schedulable" nextStatus now node;
  nodeWithReadiness node.

(** The identity goes first: tokens, then the peer, then the status. *)
Definition retireIdentity (n : Node) (now : Z) : N Node :=
  _ ← or_status (precondition "node removal blocked: %v") (runtime (nr_ValidateNodeRemoval n));
  _ ← or_status (internal "revoke node identity") (AgentTokenRepository_RevokeByNodeID (Node_ID n) now);
  _ ← or_status (internal "disable WireGuard peer") (NodeRepository_SetWireGuard (Node_ID n) (Node_WireGuardIP n) "" now);
  _ ← or_status (internal "mark node removed") (NodeRepository_UpdateStatus (Node_ID n) nodeStatusRemoved now);
  _ ← recordNodeEvent "node.removed" "info" ("node " +:+ Node_Name n +:+ " was removed") (Node_ID n);
  mret (MkNode (Node_ID n) (Node_Name n) nodeStatusRemoved (Node_LabelsJSON n) (Node_Hostname n) (Node_Arch n) (Node_OS n) (Node_Kernel n)
          (Node_WireGuardIP n) "" (Node_VPNStatus n) (Node_LastSeenAt n) (Node_CreatedAt n) now).

Definition syncPeers (keep : Node -> bool) : N unit :=
  nodes ← or_status (internal "list WireGuard peers") NodeRepository_List;
  or_status (internal "synchronize WireGuard hub peers") (runtime (nr_SyncPeers (List.filter keep nodes))).

Definition RemoveNode (caller : option Caller) (ref : string) (now : Z) : N PbNode :=
  _ ← lift (requireAdmin caller);
  node ← findNode ref;
  node ← (if String.eqb (Node_Status node) nodeStatusRemoved then mret node else retireIdentity node now);
  _ ← or_status (internal "remove Kubernetes node") (runtime (nr_RemoveNode (Node_Name node)));
  _ ← syncPeers (fun _ => true);
  nodeWithReadiness node.

Definition pending_or_removed (n : Node) : bool :=
  String.eqb (Node_Status n) nodeStatusPending || String.eqb (Node_Status n) nodeStatusRemoved.

Definition PurgeNode (caller : option Caller) (ref : string) (now : Z) : N (string * string) :=
  _ ← lift (requireAdmin caller);
  node ← findNode ref;
  _ ← guard (negb (pending_or_removed node))
        (precondition "only pending or removed nodes can be purged; drain and remove active Kubernetes nodes first");
  _ ← or_status (precondition "node purge blocked: %v") (runtime (nr_ValidateNodeRemoval node));
  _ ← or_status (internal "revoke node identity") (AgentTokenRepository_RevokeByNodeID (Node_ID node) now);
  _ ← or_status (internal "remove Kubernetes node") (runtime (nr_RemoveNode (Node_Name node)));
  _ ← syncPeers (fun n => negb (String.eqb (Node_ID n) (Node_ID node)));
  _ ← or_status (internal "delete node agent tokens") (AgentTokenRepository_DeleteByNodeID (Node_ID node));
  _ ← or_status (internal "delete node join tokens") (JoinTokenRepository_DeleteByNodeName (Node_Name node));
  _ ← or_status (internal "delete node") (NodeRepository_Delete (Node_ID node));
  _ ← recordNodeEvent "node.purged" "warning" ("node " +:+ Node_Name node +:+ " was purged") (Node_ID node);
  mret (ref, Node_Name node).

Definition RenameNode (caller : option Caller) (ref newRaw : string) (now : Z) : N PbNode :=
  _ ← lift (requireAdmin caller);
  node ← findNode ref;
  let newName := TrimSpace newRaw in
  _ ← or_status (ErrStatus InvalidArgument "%v") (lift (validateNodeName newName));
  if String.eqb (Node_Name node) newName then nodeWithReadiness node
  else
    _ ← guard (negb (pending_or_removed node))
          (precondition "only pending or removed nodes can be renamed; active Kubernetes nodes must be rejoined");
    found ← attempt (NodeRepository_FindByName newName);
    _ ← (match found with
         | Ok existing => guard (negb (String.eqb (Node_ID existing) (Node_ID node))) (ErrStatus AlreadyExists "node already exists")
         | Err e => guard (negb (errors_Is e ErrNotFound)) (internal "find node")
         end);
    _ ← or_status (internal "rename node") (NodeRepository_Rename (Node_ID node) newName now);
    _ ← or_status (internal "delete old node join tokens") (JoinTokenRepository_DeleteByNodeName (Node_Name node));
    _ ← recordNodeEvent "node.renamed" "info" ("node " +:+ Node_Name node +:+ " was renamed to " +:+ newName) (Node_ID node);
    nodeWithReadiness (MkNode (Node_ID node) newName (Node_Status node) (Node_LabelsJSON node) (Node_Hostname node) (Node_Arch node) (Node_OS node)
      (Node_Kernel node) (Node_WireGuardIP node) (Node_WireGuardPublicKey node) (Node_VPNStatus node) (Node_LastSeenAt node)
      (Node_CreatedAt node) now).

(** ** The monitor *)

Definition overdue (now : Z) (n : Node) : bool :=
  String.eqb (Node_Status n) nodeStatusOnline &&
  match Node_LastSeenAt n with None => false | Some seen => negb (time_Sub now seen <? offlineAfter) end.

Fixpoint markOffline (now : Z) (l : list Node) : N unit :=
  match l with
  | [] => mret tt
  | n :: l' =>
      if overdue now n then
        _ ← NodeRepository_UpdateStatus (Node_ID n) nodeStatusOffline now;
        _ ← recordNodeEvent "node.offline" "warning" ("node " +:+ Node_Name n +:+ " is offline") (Node_ID n);
        markOffline now l'
      else markOffline now l'
  end.

Definition MarkOfflineNodes (now : Z) : N unit := nodes ← NodeRepository_List; markOffline now nodes.

(** ** auth.go *)

Definition isPublicMethod (m : string) : bool :=
  String.eqb m "/deployer.v1.PlatformService/GetVersion" || String.eqb m "/deployer.v1.NodeService/JoinNode" ||
  HasPrefix m "/grpc.health.v1.Health/".
Definition isAgentOnlyMethod (m : string) : bool :=
  String.eqb m "/deployer.v1.NodeService/HeartbeatNode" || String.eqb m "/deployer.v1.NodeService/GetWorkerBootstrap".
Definition isAdminOnlyMethod (m : string) : bool := negb (isAgentOnlyMethod m).

(** [authorization]: the values of that metadata key. *)
Definition bearerToken (authorization : list string) : result string :=
  let refused := ErrStatus Unauthenticated "authorization bearer token is required" in
  match authorization with
  | [] => Err refused
  | value :: _ =>
      let '(scheme, token, ok) := Cut (TrimSpace value) " " in
      if negb ok || negb (EqualFold scheme "Bearer") || blank token then Err refused else Ok (TrimSpace token)
  end.

Definition opaqueTokenID (storedHash : string) : string := EncodeToString (List.firstn 8 (Sum256 storedHash)).

Definition authenticateWith (find : string -> N BearerToken) (markUsed : string -> Z -> N unit) (kind : string) (refuse : bool) (refusal : string)
    (tokenHash : string) (now : Z) : N BearerToken :=
  token ← map_err (fun e => if errors_Is e ErrNotFound then ErrStatus Unauthenticated "invalid bearer token" else internal ("authenticate " +:+ kind +:+ " token"))
            (find tokenHash);
  _ ← guard (bool_decide (is_Some (BT_RevokedAt token))) (ErrStatus PermissionDenied (kind +:+ " token is revoked"));
  _ ← guard refuse (ErrStatus PermissionDenied refusal);
  _ ← or_status (internal ("record " +:+ kind +:+ " token usage")) (markUsed tokenHash now);
  mret token.

Definition authenticate (authorization : list string) (fullMethod : string) (now : Z) : N Caller :=
  rawToken ← lift (bearerToken authorization);
  prefix ← or_status (ErrStatus Unauthenticated "invalid bearer token") (lift (Prefix rawToken));
  tokenHash ← or_status (internal "token hashing is not configured") (lift (HashToken hashKey rawToken));
  if String.eqb prefix AdminTokenPrefix then
    _ ← guard (isAgentOnlyMethod fullMethod) (ErrStatus PermissionDenied "admin token cannot call agent RPC");
    _ ← authenticateWith AdminTokenRepository_FindByHash AdminTokenRepository_MarkUsed "admin" false "" tokenHash now;
    mret (MkCaller CallerAdmin "" (opaqueTokenID tokenHash))
  else if String.eqb prefix AgentTokenPrefix then
    token ← authenticateWith AgentTokenRepository_FindByHash AgentTokenRepository_MarkUsed "agent" (isAdminOnlyMethod fullMethod)
              "agent token cannot call admin RPC" tokenHash now;
    mret (MkCaller CallerAgent (BT_Owner token) (opaqueTokenID tokenHash))
  else if String.eqb prefix JoinTokenPrefix then throw (ErrStatus PermissionDenied "join tokens must be sent to JoinNode")
  else throw (ErrStatus Unauthenticated "invalid bearer token").

(** [UnaryInterceptor]: the handler runs with the caller that was authenticated. *)
Definition intercept {A} (authorization : list string) (fullMethod : string) (now : Z) (handler : option Caller -> N A) : N A :=
  if isPublicMethod fullMethod then handler None
  else caller ← authenticate authorization fullMethod now; handler (Some caller).

(** ** bootstrap.go *)

Definition BootstrapAdminToken (name : string) (now : Z) (tokenRaw : option (list Z)) : N string :=
  rawToken ← lift (NewToken AdminTokenPrefix tokenRaw);
  tokenHash ← lift (HashToken hashKey rawToken);
  _ ← AdminTokenRepository_Create (MkBearerToken tokenHash (or_default name "bootstrap") now None None);
  mret rawToken.
End handlers.
