(* ===== verification/NodeLogic.v ===== *)
(** * Reasoning about nodes and tokens

    [gwp m g Q]: started in registry [g], [m] can only end in replies and
    registries that satisfy [Q], whatever the runtime answers and whichever driver
    calls fail.  [reg_inv] is the invariant of the tables. *)

From S2P Require Import Prelude GoStrings Regexp Sha256 GoJson GoTime GoNet Wireguard Appconfig Db DbRepos Security CandidateRequests NodeRegistry NodeService.
From Stdlib Require Import Ascii String.
Local Open Scope Z_scope.

Section logic.
Context {K : Type}.
Notation N := (ST (nodes_world K)).

Definition gwp {A} (m : N A) (g : registry) (Q : result A -> registry -> Prop) : Prop :=
  forall w r w', n_reg w = g -> m w = (r, w') -> Q r (n_reg w').

Section rules.
Context {A B : Type}.

Lemma gwp_lift (x : result A) g (Q : result A -> registry -> Prop) : Q x g -> gwp (lift x) g Q.
Proof. intros HQ w r w' <- [= <- <-]. done. Qed.

Lemma gwp_ret (a : A) g (Q : result A -> registry -> Prop) : Q (Ok a) g -> gwp (mret a) g Q.
Proof. apply gwp_lift. Qed.

Lemma gwp_throw e g (Q : result A -> registry -> Prop) : Q (Err e) g -> gwp (throw e) g Q.
Proof. apply gwp_lift. Qed.

Lemma gwp_guard b e g (Q : result unit -> registry -> Prop) : (b = true -> Q (Err e) g) -> (b = false -> Q (Ok tt) g) -> gwp (guard b e) g Q.
Proof. intros H1 H2 w r w' <- [= <- <-]. destruct b; [by apply H1|by apply H2]. Qed.

Lemma gwp_bind (m : N A) (f : A -> N B) g (Q : result B -> registry -> Prop) :
  gwp m g (fun r g' => match r with Ok a => gwp (f a) g' Q | Err e => Q (Err e) g' end) -> gwp (mbind f m) g Q.
Proof.
  intros HM w r w' Hd Hb. apply st_bind_inv in Hb as [(e & He & ->)|(a & w1 & Ha & Hf)].
  - exact (HM w _ w' Hd He).
  - exact (HM w _ w1 Hd Ha w1 r w' eq_refl Hf).
Qed.

Lemma gwp_mono (m : N A) g (Q Q' : result A -> registry -> Prop) : gwp m g Q -> (forall r g', Q r g' -> Q' r g') -> gwp m g Q'.
Proof. intros HM HQ w r w' Hd Hm. apply HQ. by eapply HM. Qed.

Lemma gwp_map_err h (m : N A) g (Q : result A -> registry -> Prop) :
  gwp m g (fun r g' => Q (match r with Ok a => Ok a | Err e => Err (h e) end) g') -> gwp (map_err h m) g Q.
Proof.
  intros HM w r w' Hd Hm. unfold map_err in Hm. destruct (m w) as [[a|e] w1] eqn:E; injection Hm as <- <-; exact (HM w _ w1 Hd E).
Qed.

Lemma gwp_attempt (m : N A) g (Q : result (result A) -> registry -> Prop) : gwp m g (fun r g' => Q (Ok r) g') -> gwp (attempt m) g Q.
Proof.
  intros HM w r w' Hd Hm. unfold attempt in Hm. destruct (m w) as [r1 w1] eqn:E. injection Hm as <- <-. exact (HM w _ w1 Hd E).
Qed.

Lemma gwp_query (f : registry -> A) g (Q : result A -> registry -> Prop) : Q (Err ErrDriver) g -> Q (Ok (f g)) g -> gwp (g_query f) g Q.
Proof.
  intros H1 H2 w r w' <- Hm. unfold g_query in Hm. destruct (next_fault _) as [[] fs]; injection Hm as <- <-; done.
Qed.

Lemma gwp_runtime (f : K -> result A * K) g (Q : result A -> registry -> Prop) : (forall r, Q r g) -> gwp (runtime f) g Q.
Proof. intros HQ w r w' <- Hm. unfold runtime in Hm. destruct (f _) as [r1 k1]. injection Hm as <- <-. apply HQ. Qed.
End rules.

Lemma gwp_exec f g (Q : result Z -> registry -> Prop) :
  (forall e, Q (Err e) g) -> (forall g' n, f g = Ok (g', n) -> Q (Ok n) g' /\ forall e, Q (Err e) g') -> gwp (g_exec f) g Q.
Proof.
  intros H1 H2 w r w' <- Hm. unfold g_exec in Hm. destruct (next_fault _) as [[] fs], (f (n_reg w)) as [[g' n]|e] eqn:Hf;
    injection Hm as <- <-; cbn; auto; by destruct (H2 g' n eq_refl).
Qed.

(** A statement whose affected rows are not looked at. *)
Lemma gwp_done f g (Q : result unit -> registry -> Prop) :
  (forall e, Q (Err e) g) -> (forall g' n, f g = Ok (g', n) -> forall r, Q r g') -> gwp (_ ← g_exec f; mret tt) g Q.
Proof. intros H1 H2. apply gwp_bind, gwp_exec; [done|]. intros g' n Hf. split; [apply gwp_ret|intros e]; by eapply H2. Qed.

(** [mapRowsAffected]: success means that a row was changed. *)
Lemma gwp_affected f g (Q : result unit -> registry -> Prop) :
  (forall e, Q (Err e) g) -> (forall g' n, f g = Ok (g', n) -> (n <> 0 -> Q (Ok tt) g') /\ forall e, Q (Err e) g') ->
  gwp (mapRowsAffected (g_exec f)) g Q.
Proof.
  intros H1 H2. apply gwp_bind, gwp_exec; [done|]. intros g' n Hf. destruct (H2 g' n Hf) as [HA HB].
  split; [|done]. apply gwp_guard; intros Hn; [done|]. bools. by apply HA.
Qed.

Lemma gwp_find {R0 A} (select : registry -> option R0) (scan : R0 -> result A) g (Q : result A -> registry -> Prop) :
  (forall e, Q (Err e) g) -> (forall x a, select g = Some x -> scan x = Ok a -> Q (Ok a) g) -> gwp (g_find select scan) g Q.
Proof.
  intros H1 H2. apply gwp_bind, gwp_query; [done|]. apply gwp_lift. destruct (select g) as [x|] eqn:Hx; [|done].
  destruct (scan x) as [a|] eqn:Hs; [by eapply H2|done].
Qed.
End logic.

(** ** The invariant *)

Definition is_removed (r : node_row) : Prop := nd_status r = nodeStatusRemoved.

Record reg_inv (g : registry) : Prop := {
  ri_key : forall k r, g_nodes g !! k = Some r -> nd_id r = k;
  ri_name : forall k1 k2 r1 r2, g_nodes g !! k1 = Some r1 -> g_nodes g !! k2 = Some r2 -> nd_name r1 = nd_name r2 -> k1 = k2;
  ri_ip : forall k1 k2 r1 r2, g_nodes g !! k1 = Some r1 -> g_nodes g !! k2 = Some r2 -> nd_ip r1 = nd_ip r2 -> nd_ip r1 <> "" -> k1 = k2;
  ri_pubkey : forall k1 k2 r1 r2, g_nodes g !! k1 = Some r1 -> g_nodes g !! k2 = Some r2 -> nd_key r1 = nd_key r2 -> nd_key r1 <> "" -> k1 = k2;
  ri_removed : forall id r, g_nodes g !! id = Some r -> is_removed r -> nd_key r = "";
  ri_revoked : forall id r h t, g_nodes g !! id = Some r -> is_removed r -> g_agents g !! h = Some t -> tk_owner t = id -> tk_revoked t <> None }.

Lemma empty_registry_inv : reg_inv (MkRegistry ∅ ∅ ∅ ∅).
Proof. split; intros *; cbn; rewrite lookup_empty; done. Qed.

(** No other node has the name, the address or the key. *)
Lemma node_conflict_false r nodes k o : node_conflict r nodes = false -> nodes !! k = Some o -> nd_id o <> nd_id r ->
  nd_name o <> nd_name r /\ (nd_ip r <> "" -> nd_ip o <> nd_ip r) /\ (nd_key r <> "" -> nd_key o <> nd_key r).
Proof.
  unfold node_conflict. rewrite exists_row_false. intros Hc Hk Hne. specialize (Hc _ _ Hk). apply String.eqb_neq in Hne. rewrite Hne in Hc.
  cbn [negb andb] in Hc. apply orb_false_iff in Hc as [[Hn Hip]%orb_false_iff Hkey]. apply String.eqb_neq in Hn.
  split; [done|]. split; intros Hx E; apply String.eqb_neq in Hx.
  - by rewrite Hx, E, String.eqb_refl in Hip.
  - by rewrite Hx, E, String.eqb_refl in Hkey.
Qed.

(** A row is written at its own key without a conflict. *)
Lemma write_node_inv g r : reg_inv g -> node_conflict r (g_nodes g) = false ->
  (is_removed r -> nd_key r = "" /\ forall h t, g_agents g !! h = Some t -> tk_owner t = nd_id r -> tk_revoked t <> None) ->
  reg_inv (set_nodes (<[nd_id r := r]> (g_nodes g)) g).
Proof.
  intros Hi Hc Hr.
  assert (Hother : forall k o, nd_id r <> k -> g_nodes g !! k = Some o ->
    nd_name o <> nd_name r /\ (nd_ip r <> "" -> nd_ip o <> nd_ip r) /\ (nd_key r <> "" -> nd_key o <> nd_key r)).
  { intros k o Hne Hk. eapply node_conflict_false; [exact Hc|exact Hk|]. rewrite (ri_key g Hi _ _ Hk). congruence. }
  split; cbn; intros *; rewrite ?lookup_insert_Some.
  - intros [[<- <-]|[Hne Hk]]; [done|by eapply ri_key].
  - intros [[<- <-]|[Hn1 Hk1]] [[<- <-]|[Hn2 Hk2]] E; [done| | |by eapply (ri_name g Hi)].
    + by destruct (Hother _ _ Hn2 Hk2) as [Hx _].
    + by destruct (Hother _ _ Hn1 Hk1) as [Hx _].
  - intros [[<- <-]|[Hn1 Hk1]] [[<- <-]|[Hn2 Hk2]] E Hne; [done| | |by eapply (ri_ip g Hi)].
    + destruct (Hother _ _ Hn2 Hk2) as (_ & Hx & _). by destruct (Hx Hne).
    + destruct (Hother _ _ Hn1 Hk1) as (_ & Hx & _). rewrite E in Hne. by destruct (Hx Hne).
  - intros [[<- <-]|[Hn1 Hk1]] [[<- <-]|[Hn2 Hk2]] E Hne; [done| | |by eapply (ri_pubkey g Hi)].
    + destruct (Hother _ _ Hn2 Hk2) as (_ & _ & Hx). by destruct (Hx Hne).
    + destruct (Hother _ _ Hn1 Hk1) as (_ & _ & Hx). rewrite E in Hne. by destruct (Hx Hne).
  - intros [[<- <-]|[Hne Hk]] Hrm; [by apply Hr|by eapply ri_removed].
  - intros [[<- <-]|[Hne Hk]] Hrm Ht Ho; [by eapply Hr|by eapply (ri_revoked g Hi)].
Qed.

(** ** What lasts *)

(** The life of a node: it is created pending, activated, removed, and deleted. *)
Inductive phase := Absent | Pending | Active | Removed.

Definition status_phase (status : string) : phase :=
  if String.eqb status nodeStatusPending then Pending else if String.eqb status nodeStatusRemoved then Removed else Active.
Definition phase_of (g : registry) (id : string) : phase := match g_nodes g !! id with None => Absent | Some r => status_phase (nd_status r) end.
Definition rank (p : phase) : Z := match p with Absent => 0 | Pending => 1 | Active => 2 | Removed => 3 end.

Lemma removed_phase r : is_removed r <-> status_phase (nd_status r) = Removed.
Proof.
  unfold is_removed, status_phase. split; [intros ->; done|]. destruct (String.eqb _ nodeStatusPending); [done|].
  destruct (String.eqb_spec (nd_status r) nodeStatusRemoved); done.
Qed.

Lemma rank_last p : rank p <= rank (status_phase nodeStatusRemoved).
Proof. destruct p; cbn; lia. Qed.

Lemma rank_live p : p <> Removed -> rank p <= 2.
Proof. destruct p; cbn; lia || done. Qed.

(** Nodes only move on, used join tokens are still used. *)
Definition kept (g0 g : registry) : Prop :=
  (forall id, rank (phase_of g0 id) <= rank (phase_of g id)) /\
  (forall h r, g_joins g0 !! h = Some r -> jr_used r <> None -> exists r', g_joins g !! h = Some r' /\ jr_used r' <> None).

(** The same up to deletion, of nodes that are pending or removed. *)
Definition lasting (g0 g : registry) : Prop :=
  (forall id, rank (phase_of g0 id) <= rank (phase_of g id) \/ (phase_of g0 id <> Active /\ phase_of g id = Absent)) /\
  (forall h r r', g_joins g0 !! h = Some r -> jr_used r <> None -> g_joins g !! h = Some r' -> jr_used r' <> None).

Definition good (g0 g : registry) : Prop := reg_inv g /\ kept g0 g.

Lemma kept_refl g : kept g g.
Proof. split; [done|eauto]. Qed.

Lemma kept_lasting g0 g : kept g0 g -> lasting g0 g.
Proof.
  intros [Hn Hj]. split; [by left|]. intros h r r' Hr Hx Hr'. destruct (Hj _ _ Hr Hx) as (r1 & ? & ?). by simplify_eq.
Qed.

(** A node that is not removed. *)
Definition live (id : string) (g : registry) : Prop := forall r, g_nodes g !! id = Some r -> ~ is_removed r.

(** The node has no key and no valid token: it may be marked removed. *)
Definition disarmed (id : string) (g : registry) : Prop :=
  (forall r, g_nodes g !! id = Some r -> nd_key r = "") /\ (forall h t, g_agents g !! h = Some t -> tk_owner t = id -> tk_revoked t <> None).

Section statements.
Context {K : Type} (g0 : registry).
Notation N := (ST (nodes_world K)).
Notation good := (good g0).

(** Writing a row at its key: it keeps the node removed, and is removed only when
    the node is disarmed. *)
Lemma write_good g r : good g -> node_conflict r (g_nodes g) = false ->
  rank (phase_of g (nd_id r)) <= rank (status_phase (nd_status r)) ->
  (is_removed r -> nd_key r = "" /\ forall h t, g_agents g !! h = Some t -> tk_owner t = nd_id r -> tk_revoked t <> None) ->
  good (set_nodes (<[nd_id r := r]> (g_nodes g)) g).
Proof.
  intros [Hi [Hn Hj]] Hc Hkeep Hr. split; [by apply write_node_inv|]. split; [|done]. intros id. specialize (Hn id). revert Hn Hkeep.
  unfold phase_of. cbn. destruct (decide (id = nd_id r)) as [->|Hne]; [rewrite lookup_insert_eq; lia|rewrite lookup_insert_ne by done; done].
Qed.

Lemma gwp_update id f g (Q : result unit -> registry -> Prop) : good g -> (forall e, Q (Err e) g) ->
  (forall r, nd_id (f r) = nd_id r) ->
  (forall r, g_nodes g !! id = Some r -> rank (status_phase (nd_status r)) <= rank (status_phase (nd_status (f r)))) ->
  (forall r, g_nodes g !! id = Some r -> is_removed (f r) -> nd_key (f r) = "" /\ forall h t, g_agents g !! h = Some t -> tk_owner t = id -> tk_revoked t <> None) ->
  (forall r, g_nodes g !! id = Some r -> let g' := set_nodes (<[id := f r]> (g_nodes g)) g in good g' -> forall x, Q x g') ->
  gwp (mapRowsAffected (g_exec (update_node id f)) : N unit) g Q.
Proof.
  intros Hg HE Hid Hkeep Hrm HQ. apply gwp_affected; [done|]. intros g' n Hu. unfold update_node in Hu.
  destruct (g_nodes g !! id) as [r|] eqn:Hr; [|by injection Hu as <- <-]. rewrite check_bind in Hu. destruct Hu as [Hc [= <- <-]].
  pose proof (ri_key g (proj1 Hg) _ _ Hr) as Ek. assert (Ef : nd_id (f r) = id) by (rewrite Hid; exact Ek).
  assert (Hgood : good (set_nodes (<[id := f r]> (g_nodes g)) g)).
  { rewrite <- Ef. apply write_good; [done|done| |]; rewrite Ef; [|by apply Hrm]. unfold phase_of. rewrite Hr. by apply Hkeep. }
  split; intros; by apply HQ.
Qed.

(** An update of a live node that keeps its status or activates it. *)
Lemma gwp_update_live id f g (Q : result unit -> registry -> Prop) : good g -> live id g -> (forall e, Q (Err e) g) ->
  (forall r, nd_id (f r) = nd_id r) -> (forall r, nd_status (f r) = nd_status r \/ status_phase (nd_status (f r)) = Active) ->
  (forall g', good g' -> live id g' -> (forall i, live i g -> live i g') -> forall x, Q x g') ->
  gwp (mapRowsAffected (g_exec (update_node id f)) : N unit) g Q.
Proof.
  intros Hg Hl HE Hid Hf HQ.
  assert (Hstay : forall r, ~ is_removed r -> ~ is_removed (f r)).
  { intros r. rewrite !removed_phase. by destruct (Hf r) as [->| ->]. }
  apply gwp_update; [done|done|done| | |].
  - intros r Hr. specialize (Hl r Hr). rewrite removed_phase in Hl. apply rank_live in Hl. destruct (Hf r) as [->| ->]; cbn; lia.
  - intros r Hr Hx. by destruct (Hstay r (Hl r Hr)).
  - intros r Hr g' Hg' x. assert (Hlive : forall i, live i g -> live i g').
    { intros i Hi r' Hr'. cbn in Hr'. apply lookup_insert_Some in Hr' as [[<- <-]|[_ Hr']]; [by apply Hstay, Hl|by apply Hi]. }
    apply HQ; [done|by apply Hlive|done].
Qed.

Lemma gwp_node_create n g (Q : result unit -> registry -> Prop) : good g -> (forall e, Q (Err e) g) -> Node_Status n = nodeStatusPending ->
  (forall g', good g' -> live (Node_ID n) g' -> forall x, Q x g') -> gwp (NodeRepository_Create n : N unit) g Q.
Proof.
  intros Hg HE Hs HQ. unfold NodeRepository_Create. cbv zeta. rewrite Hs. apply gwp_done; [done|]. intros g' m Hu x.
  unfold insert_node in Hu. rewrite !check_bind in Hu. destruct Hu as (Hid & Hc & [= <- <-]). bools. cbn [nd_id] in Hid.
  apply HQ.
  - apply write_good; [done|done| |done]. unfold phase_of. cbn [nd_id nd_status]. rewrite <- eq_None_not_Some in Hid. rewrite Hid. by vm_compute.
  - intros r Hr. cbn in Hr. rewrite lookup_insert_eq in Hr. by injection Hr as <-.
Qed.

Lemma good_agents g m : good g -> (forall h t, m !! h = Some t -> tk_revoked t = None -> exists t0, g_agents g !! h = Some t0 /\ tk_owner t0 = tk_owner t /\ tk_revoked t0 = None) ->
  good (set_agents m g).
Proof.
  intros [Hi Hk] Hm. split; [|done]. destruct Hi as [H1 H2 H3 H4 H5 H6]. split; cbn; eauto.
  intros id r h t Hr Hrm Ht Ho Hn. destruct (Hm _ _ Ht Hn) as (t0 & Ht0 & Eo & En). rewrite Ho in Eo. by apply (H6 id r h t0).
Qed.

Lemma good_joins g m : good g ->
  (forall h r, g_joins g !! h = Some r -> jr_used r <> None -> exists r', m !! h = Some r' /\ jr_used r' <> None) -> good (set_joins m g).
Proof.
  intros [Hi [Hn Hj]] Hm. split; [by destruct Hi|]. split; [done|]. intros h r Hr Hu. destruct (Hj _ _ Hr Hu) as (r' & Hr' & Hu'). by eapply Hm.
Qed.

(** Registries with the same nodes have the same live nodes. *)
Lemma live_same id g g' : g_nodes g' = g_nodes g -> live id g -> live id g'.
Proof. intros E Hl r Hr. rewrite E in Hr. by apply Hl. Qed.

Lemma gwp_agent_create t g (Q : result unit -> registry -> Prop) : good g -> live (BT_Owner t) g -> (forall e, Q (Err e) g) ->
  (forall g', good g' -> forall x, Q x g') -> gwp (AgentTokenRepository_Create t : N unit) g Q.
Proof.
  intros [Hi Hk] Hl HE HQ. apply gwp_done; [done|]. intros g' n Hu x. apply bind_ok in Hu as (m & Hm & [= <- <-]). unfold insert_token in Hm.
  rewrite check_bind in Hm. destruct Hm as [_ [= <-]]. apply HQ. split; [|done]. destruct Hi as [H1 H2 H3 H4 H5 H6]. split; cbn; eauto.
  intros id r h t' Hr Hrm Ht Ho. apply lookup_insert_Some in Ht as [[<- <-]|[_ Ht]]; [|by eapply H6]. cbn in Ho. subst id. by destruct (Hl r Hr).
Qed.

Lemma gwp_agent_used h at_ g (Q : result unit -> registry -> Prop) : good g -> (forall e, Q (Err e) g) ->
  (forall g', good g' -> g_nodes g' = g_nodes g -> forall x, Q x g') -> gwp (AgentTokenRepository_MarkUsed h at_ : N unit) g Q.
Proof.
  intros Hg HE HQ. apply gwp_affected; [done|]. intros g' n [= E].
  assert (Hg' : good g' /\ g_nodes g' = g_nodes g).
  { unfold mark_used in E. destruct (g_agents g !! h) as [t|] eqn:Ht; injection E as <- <-; [|done]. split; [|done]. apply good_agents; [done|].
    intros h' t' Ht' Hn. apply lookup_insert_Some in Ht' as [[<- <-]|[_ Ht']]; eauto. }
  destruct Hg' as [? ?]; split; intros; by apply HQ.
Qed.

Lemma gwp_admin_used h at_ g (Q : result unit -> registry -> Prop) : good g -> (forall e, Q (Err e) g) ->
  (forall g', good g' -> g_nodes g' = g_nodes g -> forall x, Q x g') -> gwp (AdminTokenRepository_MarkUsed h at_ : N unit) g Q.
Proof.
  intros [Hi Hk] HE HQ. apply gwp_affected; [done|]. intros g' n [= E].
  assert (Hg' : good g' /\ g_nodes g' = g_nodes g) by (destruct (mark_used _ _ _); injection E as <- <-; split; first [done|split; by destruct Hi]).
  destruct Hg' as [? ?]. split; intros; by apply HQ.
Qed.

Lemma gwp_revoke id at_ g (Q : result unit -> registry -> Prop) : good g -> (forall e, Q (Err e) g) ->
  (forall g', good g' -> g_nodes g' = g_nodes g -> (forall h t, g_agents g' !! h = Some t -> tk_owner t = id -> tk_revoked t <> None) -> forall x, Q x g') ->
  gwp (AgentTokenRepository_RevokeByNodeID id at_ : N unit) g Q.
Proof.
  intros Hg HE HQ. apply gwp_done; [done|]. intros g' n [= <- <-]. apply HQ; [|done|].
  - apply good_agents; [done|]. intros h t Ht Hn. rewrite lookup_fmap in Ht. destruct (g_agents g !! h) as [t0|]; [|done]. injection Ht as <-.
    exists t0. split; [done|]. unfold revoke in *. by destruct (_ && _).
  - cbn. intros h t Ht Ho. rewrite lookup_fmap in Ht. destruct (g_agents g !! h) as [t0|]; [|done]. injection Ht as <-. unfold revoke in *.
    destruct (String.eqb_spec (tk_owner t0) id) as [E|E]; cbn [andb] in *; [|done]. case_bool_decide; done.
Qed.

Lemma gwp_join_create t g (Q : result unit -> registry -> Prop) : good g -> (forall e, Q (Err e) g) ->
  (forall g', good g' -> g_nodes g' = g_nodes g -> forall x, Q x g') -> gwp (JoinTokenRepository_Create t : N unit) g Q.
Proof.
  intros Hg HE HQ. apply gwp_done; [done|]. intros g' n Hu x. unfold insert_join in Hu. rewrite check_bind in Hu. destruct Hu as [Hn [= <- <-]].
  bools. rewrite <- eq_None_not_Some in Hn. apply HQ; [|done]. apply good_joins; [done|]. intros h r Hr Hu. exists r. split; [|done].
  rewrite lookup_insert_ne; [done|]. intros <-. cbn in Hn. by rewrite Hn in Hr.
Qed.

(** A successful consumption found the token unused and leaves it used. *)
Lemma gwp_consume h at_ g (Q : result JoinToken -> registry -> Prop) : good g -> (forall e, Q (Err e) g) ->
  (forall g' r, good g' -> g_joins g !! h = Some r -> jr_used r = None -> (exists r', g_joins g' !! h = Some r' /\ jr_used r' <> None) -> forall x, Q x g') ->
  gwp (JoinTokenRepository_Consume h at_ : N JoinToken) g Q.
Proof.
  intros Hg HE HQ. unfold JoinTokenRepository_Consume. apply gwp_bind, gwp_find; [done|]. intros row tok Hrow Hs. cbn beta in Hrow.
  do 2 (apply gwp_bind, gwp_guard; intros ?; [done|]). apply gwp_bind, gwp_map_err, gwp_affected; [done|]. intros g' n Hu. unfold use_join in Hu.
  rewrite Hrow in Hu. case_bool_decide as Hn; injection Hu as <- <-; [|by split].
  assert (Hg' : good (set_joins (<[h := JoinRow (jr_hash row) (jr_name row) (jr_labels row) (jr_created row) (jr_expires row) (Some (formatTime at_))]> (g_joins g)) g)).
  { apply good_joins; [done|]. intros h' r Hr Hu. destruct (decide (h' = h)) as [->|Hne]; [simplify_eq; done|]. exists r. by rewrite lookup_insert_ne. }
  assert (Hused : exists r', g_joins (set_joins (<[h := JoinRow (jr_hash row) (jr_name row) (jr_labels row) (jr_created row) (jr_expires row) (Some (formatTime at_))]> (g_joins g)) g) !! h = Some r' /\ jr_used r' <> None)
    by (eexists; cbn; rewrite lookup_insert_eq; by split).
  split; [intros _; apply gwp_ret|intros e]; by eapply HQ.
Qed.

(** Parts that only read, or ask the runtime. *)
Definition reads {A} (m : N A) : Prop := forall g, gwp m g (fun _ g' => g' = g).

Lemma gwp_reads {A} (m : N A) g (Q : result A -> registry -> Prop) : reads m -> (forall r, Q r g) -> gwp m g Q.
Proof. intros Hm HQ. eapply gwp_mono; [apply Hm|]. intros r g' ->. apply HQ. Qed.
End statements.

Section reads.
Context {K A B : Type}.
Notation N := (ST (nodes_world K)).

Lemma reads_lift (x : result A) : reads (lift x : N A).
Proof. intros g. by apply gwp_lift. Qed.
Lemma reads_find {R0} (select : registry -> option R0) (scan : R0 -> result A) : reads (g_find select scan : N A).
Proof. intros g. by apply gwp_find. Qed.
Lemma reads_query (f : registry -> A) : reads (g_query f : N A).
Proof. intros g. by apply gwp_query. Qed.
Lemma reads_runtime (f : K -> result A * K) : reads (runtime f).
Proof. intros g. by apply gwp_runtime. Qed.
Lemma reads_bind (m : N A) (f : A -> N B) : reads m -> (forall a, reads (f a)) -> reads (mbind f m).
Proof. intros Hm Hf g. apply gwp_bind. eapply gwp_mono; [apply Hm|]. intros [a|e] g' ->; [apply Hf|done]. Qed.
Lemma reads_map_err h (m : N A) : reads m -> reads (map_err h m).
Proof. intros Hm g. apply gwp_map_err. eapply gwp_mono; [apply Hm|]. done. Qed.
Lemma reads_attempt (m : N A) : reads m -> reads (attempt m).
Proof. intros Hm g. apply gwp_attempt. eapply gwp_mono; [apply Hm|]. done. Qed.
End reads.

Ltac reads_step :=
  lazymatch goal with
  | |- reads (mbind _ _) => apply reads_bind
  | |- reads (mret _) => apply reads_lift
  | |- reads (lift _) => apply reads_lift
  | |- reads (throw _) => apply reads_lift
  | |- reads (guard _ _) => apply reads_lift
  | |- reads (map_err _ _) => apply reads_map_err
  | |- reads (or_status _ _) => apply reads_map_err
  | |- reads (attempt _) => apply reads_attempt
  | |- reads (g_query _) => apply reads_query
  | |- reads (runtime _) => apply reads_runtime
  | |- reads (recordNodeEvent _ _ _ _) => apply reads_runtime
  | |- reads (NodeRepository_FindByName _) => apply reads_find
  | |- reads (NodeRepository_FindByID _) => apply reads_find
  | |- reads (JoinTokenRepository_FindByHash _) => apply reads_find
  | |- reads NodeRepository_List => apply reads_bind; [apply reads_query|]
  | |- reads (match ?x with _ => _ end) => destruct x
  | |- reads _ => progress unfold nodeWithReadiness, findNode, allocateWireGuardIP, ensureAddress, newToken, syncPeers, agentNode, admitHeartbeat
  | |- forall _, _ => intro
  end.
Ltac reading := repeat (reads_step; cbv beta zeta); try done.
