(* ===== verification/NodeProps.v ===== *)
(** * Properties of nodes and callers

    The tables stay intact under every request; a removed node stays removed and
    its agents are locked out; a join token is used once; authentication is sound. *)

From S2P Require Import Prelude GoStrings Regexp Sha256 GoJson GoTime GoNet Wireguard Appconfig Db DbRepos Security CandidateRequests NodeRegistry NodeService NodeLogic.
From Stdlib Require Import Ascii String.
Local Open Scope Z_scope.

(** The row a node was read from. *)
Definition stored (n : Node) (g : registry) : Prop := exists row, g_nodes g !! Node_ID n = Some row /\ scanNode row = Ok n.

Lemma scanNode_fields row n : scanNode row = Ok n ->
  Node_ID n = nd_id row /\ Node_Status n = nd_status row /\ Node_WireGuardPublicKey n = nd_key row /\ Node_Name n = nd_name row.
Proof. unfold scanNode. by intros (t1 & _ & (t2 & _ & (t3 & _ & [= <-])%bind_ok)%bind_ok)%bind_ok. Qed.

Lemma stored_live n g : stored n g -> String.eqb (Node_Status n) nodeStatusRemoved = false -> live (Node_ID n) g.
Proof.
  intros (row & Hrow & Hs) Hne r Hr Hrm. simplify_eq. destruct (scanNode_fields _ _ Hs) as (_ & Est & _).
  rewrite Est, Hrm in Hne. by vm_compute in Hne.
Qed.

Lemma stored_idle n g : stored n g -> negb (pending_or_removed n) = false -> phase_of g (Node_ID n) <> Active.
Proof.
  intros (row & Hrow & Hs) Hp. destruct (scanNode_fields _ _ Hs) as (_ & Est & _). unfold phase_of. rewrite Hrow, <- Est.
  apply negb_false_iff, orb_true_iff in Hp as [Hp|Hp]; apply String.eqb_eq in Hp as ->; done.
Qed.

Section handlers.
Context `{AppEnv} {K : Type} `{!NodeRuntime K}.
Context (hashKey : list Z) (network : WorkerNetworkConfig) (offlineAfter : Z).
Notation N := (ST (nodes_world K)).

(** ** Looking up *)

Lemma gwp_by_name name g (Q : result Node -> registry -> Prop) : reg_inv g -> (forall e, Q (Err e) g) -> (forall n, stored n g -> Q (Ok n) g) ->
  gwp (NodeRepository_FindByName name : N Node) g Q.
Proof.
  intros Hi HE HO. apply gwp_find; [done|]. intros row n Hrow Hs. apply select1_Some in Hrow as [_ (k & Hk)].
  apply HO. exists row. split; [|done]. destruct (scanNode_fields _ _ Hs) as [-> _]. by rewrite (ri_key g Hi _ _ Hk).
Qed.

Lemma gwp_by_id id g (Q : result Node -> registry -> Prop) : reg_inv g -> (forall e, Q (Err e) g) -> (forall n, Node_ID n = id -> stored n g -> Q (Ok n) g) ->
  gwp (NodeRepository_FindByID id : N Node) g Q.
Proof.
  intros Hi HE HO. apply gwp_find; [done|]. intros row n Hrow Hs. cbn beta in Hrow. destruct (scanNode_fields _ _ Hs) as (E & _).
  rewrite (ri_key g Hi _ _ Hrow) in E. apply HO; [done|]. exists row. by rewrite E.
Qed.

Lemma gwp_find_node ref g (Q : result Node -> registry -> Prop) : reg_inv g -> (forall e, Q (Err e) g) -> (forall n, stored n g -> Q (Ok n) g) ->
  gwp (findNode ref : N Node) g Q.
Proof.
  intros Hi HE HO. unfold findNode. cbv zeta. apply gwp_bind, gwp_guard; intros _; [done|].
  assert (Hend : forall found : result Node, (forall n, found = Ok n -> stored n g) ->
    gwp (match found with
         | Ok node => mret node
         | Err e => throw (if errors_Is e ErrNotFound then ErrStatus NotFound "node not found" else internal "get node")
         end : N Node) g Q).
  { intros [n|e] Hn; [apply gwp_ret, HO; by apply Hn|by apply gwp_throw]. }
  apply gwp_bind, gwp_attempt, gwp_by_name; [done| |].
  - intros e. apply gwp_bind. destruct (errors_Is e ErrNotFound); [|by apply gwp_ret, (Hend (Err e))].
    apply gwp_attempt, gwp_by_id; [done|intros e'; by apply (Hend (Err e'))|]. intros n _ Hn. apply (Hend (Ok n)). by intros ? [= <-].
  - intros n Hn. apply gwp_bind, gwp_ret, (Hend (Ok n)). by intros ? [= <-].
Qed.

Lemma gwp_list g (Q : result (list Node) -> registry -> Prop) : reg_inv g -> (forall e, Q (Err e) g) -> (forall l, Forall (fun n => stored n g) l -> Q (Ok l) g) ->
  gwp (NodeRepository_List : N (list Node)) g Q.
Proof.
  intros Hi HE HO. unfold NodeRepository_List. apply gwp_bind, gwp_query; [done|]. apply gwp_lift.
  assert (Hrows : Forall (fun r => g_nodes g !! nd_id r = Some r) (order_by nd_name (rows (g_nodes g)))).
  { apply Forall_forall. intros r Hr. unfold order_by in Hr. rewrite merge_sort_Permutation in Hr. apply elem_of_rows in Hr as (k & Hk).
    by rewrite (ri_key g Hi _ _ Hk). }
  destruct (scan_all _ _) as [l|e] eqn:Hl; [apply HO|apply HE]. revert l Hl. induction Hrows as [|r rs Hr Hrs IH]; intros l Hl; cbn in Hl.
  - by injection Hl as <-.
  - destruct (scanNode r) as [n|] eqn:Hs; cbn in Hl; [|done]. destruct (scan_all scanNode rs) as [l'|] eqn:Hl'; cbn in Hl; [|done]. injection Hl as <-.
    constructor; [|by apply IH]. exists r. destruct (scanNode_fields _ _ Hs) as [-> _]. done.
Qed.

(** ** Requests that delete nothing *)

Definition safe {A} (m : N A) : Prop := forall g, reg_inv g -> gwp m g (fun _ g' => good g g').

Lemma good_start g : reg_inv g -> good g g.
Proof. intros Hi. split; [done|apply kept_refl]. Qed.

Lemma reads_safe {A} (m : N A) : reads m -> safe m.
Proof. intros Hm g Hi. apply gwp_reads; [done|]. intros _. by apply good_start. Qed.

Lemma gwp_reads_good {A} (m : N A) g0 g : reads m -> good g0 g -> gwp m g (fun _ g' => good g0 g').
Proof. intros Hm Hg. by apply gwp_reads. Qed.

Lemma list_safe caller : safe (ListNodes caller : N _).
Proof.
  apply reads_safe. unfold ListNodes. assert (Hr : forall l, reads (withReadiness l : N _)) by (induction l as [|n l IH]; cbn; [by reading|]; reading; apply IH).
  reading.
Qed.

Lemma get_safe caller ref : safe (GetNode caller ref : N _).
Proof. apply reads_safe. unfold GetNode. reading. Qed.

Lemma bootstrap_safe caller : safe (GetWorkerBootstrap network caller : N _).
Proof. apply reads_safe. unfold GetWorkerBootstrap. reading. Qed.

Lemma gwp_pending existing nodeName labels arch ip now idRaw g0 g :
  good g0 g -> (forall n, existing = Some n -> live (Node_ID n) g) ->
  gwp (preparePending existing nodeName labels arch ip now idRaw : N unit) g (fun _ g' => good g0 g').
Proof.
  intros Hg Hl. unfold preparePending. destruct existing as [n|].
  - destruct (String.eqb _ _); [|by apply gwp_ret]. apply gwp_map_err, (gwp_update_live g0); [done|by apply Hl|done|done|by left|done].
  - apply gwp_bind, gwp_map_err, gwp_lift. destruct (newID _ _) as [id|]; [|done]. apply gwp_map_err, (gwp_node_create g0); done.
Qed.

(** From the lookup of the node on. *)
Lemma issue_safe g existing nodeName labels arch now expires tokenRaw idRaw : reg_inv g -> (forall n, existing = Some n -> live (Node_ID n) g) ->
  gwp (wireGuardIP ← ensureAddress network existing;
       '(rawToken, tokenHash) ← newToken hashKey JoinTokenPrefix tokenRaw "create join token" "hash join token";
       _ ← or_status (internal "store join token") (JoinTokenRepository_Create (MkJoinToken tokenHash nodeName labels now expires None));
       _ ← preparePending existing nodeName labels arch wireGuardIP now idRaw;
       mret (rawToken, formatProtoTime expires, nodeName) : N (string * string * string)) g (fun _ g' => good g g').
Proof.
  intros Hi Hl. pose proof (good_start g Hi) as Hg. apply gwp_bind, gwp_reads; [reading|]. intros [ip|]; [|done].
  apply gwp_bind, gwp_reads; [reading|]. intros [[token hash]|]; [|done].
  apply gwp_bind, gwp_map_err, (gwp_join_create g); [done|done|]. intros g' Hg' En [u|e]; [|done]. apply gwp_bind.
  eapply gwp_mono; [apply gwp_pending; [done|]; intros n E; by eapply live_same; [exact En|apply Hl]|]. intros [u'|e] g2 Hg2; [by apply gwp_ret|done].
Qed.

Lemma create_join_token_safe caller req now tokenRaw idRaw : safe (CreateJoinToken hashKey network caller req now tokenRaw idRaw : N _).
Proof.
  intros g Hi. pose proof (good_start g Hi) as Hg. unfold CreateJoinToken. apply gwp_bind, gwp_lift. destruct (requireAdmin caller); [|done].
  cbv zeta. apply gwp_bind, gwp_map_err, gwp_lift. destruct (validateNodeName _); [|done].
  apply gwp_bind, gwp_map_err, gwp_lift. destruct (marshalLabels _); [|done]. apply gwp_bind, gwp_attempt, gwp_by_name; [done| |].
  - intros e. apply gwp_bind, gwp_bind, gwp_guard; intros _; [done|]. by apply gwp_ret, issue_safe.
  - intros n Hn. apply gwp_bind, gwp_bind, gwp_guard; intros Hs; [done|]. apply gwp_ret, issue_safe; [done|]. intros ? [= <-].
    apply stored_live; [done|]. bools. apply String.eqb_eq in Hs as ->. done.
Qed.

(** ** Enrollment *)

Lemma gwp_node_for_join nodeName now idRaw g (Q : result Node -> registry -> Prop) : reg_inv g ->
  (forall e g', good g g' -> Q (Err e) g') ->
  (forall n g', good g g' -> (String.eqb (Node_Status n) nodeStatusRemoved = false -> live (Node_ID n) g') -> Q (Ok n) g') ->
  gwp (nodeForJoin nodeName now idRaw : N Node) g Q.
Proof.
  intros Hi HE HO. pose proof (good_start g Hi) as Hg. unfold nodeForJoin. apply gwp_bind, gwp_attempt, gwp_by_name; [done| |].
  - intros e. apply gwp_bind, gwp_guard; intros _; [by apply HE|]. apply gwp_bind, gwp_map_err, gwp_lift.
    destruct (newID _ _) as [id|]; [|by apply HE]. cbv zeta. apply gwp_bind, gwp_map_err, (gwp_node_create g); [done|intros; by apply HE|done|].
    intros g' Hg' Hl [u|e']; [|by apply HE]. by apply gwp_ret, HO.
  - intros n Hn. apply gwp_ret, HO; [done|]. by apply stored_live.
Qed.

Lemma enroll_safe token req now idRaw tokenRaw : safe (enrollNode hashKey network token req now idRaw tokenRaw : N _).
Proof.
  intros g Hi. pose proof (good_start g Hi) as Hg. unfold enrollNode. cbv zeta. apply gwp_bind, gwp_guard; intros _; [done|].
  apply gwp_bind, gwp_map_err, gwp_lift. destruct (marshalLabels _) as [labels|]; [|done].
  apply gwp_bind, gwp_node_for_join; [done|done|]. intros n g1 Hg1 Hlive. apply gwp_bind, gwp_guard; intros Hs; [done|]. specialize (Hlive Hs).
  apply gwp_bind, gwp_reads; [reading|]. intros [ip|]; [|done].
  apply gwp_bind, gwp_map_err, (gwp_update_live g); [done|done|done|done|by left|]. intros g2 Hg2 Hl2 _ [u|e]; [|done].
  apply gwp_bind, gwp_map_err, (gwp_update_live g); [done|done|done|done|by right|]. intros g3 Hg3 Hl3 _ [u'|e]; [|done].
  apply gwp_bind, gwp_reads; [reading|]. intros [[raw hash]|]; [|done].
  apply gwp_bind, gwp_map_err, (gwp_agent_create g); [done|done|done|]. intros g4 Hg4 [u''|e]; [by apply gwp_ret|done].
Qed.

Lemma good_trans g0 g1 g2 : good g0 g1 -> good g1 g2 -> good g0 g2.
Proof.
  intros [_ [Hn1 Hj1]] [Hi [Hn2 Hj2]]. split; [done|]. split.
  - intros id. specialize (Hn1 id). specialize (Hn2 id). lia.
  - intros h r Hr Hx. destruct (Hj1 _ _ Hr Hx) as (r1 & Hr1 & Hx1). by eapply Hj2.
Qed.

(** The token was there, unused and not expired; an answer leaves it used. *)
Definition joined (req : JoinNodeRequest) (now : Z) (g : registry) (r : result JoinNodeResponse) (g' : registry) : Prop :=
  good g g' /\ forall x, r = Ok x -> exists hash row token,
    HashToken hashKey (TrimSpace (jn_JoinToken req)) = Ok hash /\ g_joins g !! hash = Some row /\ scanJoinToken row = Ok token /\
    JT_UsedAt token = None /\ now < JT_ExpiresAt token /\ exists row', g_joins g' !! hash = Some row' /\ jr_used row' <> None.

Lemma joined_err req now g e g' : good g g' -> joined req now g (Err e) g'.
Proof. by split. Qed.

Lemma join_joined req now idRaw tokenRaw g : reg_inv g -> gwp (JoinNode hashKey network req now idRaw tokenRaw : N _) g (joined req now g).
Proof.
  intros Hi. pose proof (good_start g Hi) as Hg. unfold JoinNode. cbv zeta. apply gwp_bind, gwp_guard; intros _; [by apply joined_err|].
  apply gwp_bind, gwp_map_err, gwp_lift. destruct (ValidatePublicKey _); [|by apply joined_err].
  apply gwp_bind, gwp_map_err, gwp_lift. destruct (Prefix _); [|by apply joined_err].
  apply gwp_bind, gwp_map_err, gwp_lift. destruct (HashToken _ _) as [hash|] eqn:Hh; [|by apply joined_err].
  apply gwp_bind, gwp_map_err, gwp_find; [intros; by apply joined_err|]. intros row token Hrow Hs. cbn beta in Hrow.
  apply gwp_bind, gwp_guard; intros Hu; [by apply joined_err|]. apply gwp_bind, gwp_guard; intros Hx; [by apply joined_err|].
  apply gwp_bind. eapply gwp_mono; [by apply enroll_safe|]. intros [response|e] g1 Hg1; [|by apply joined_err].
  apply gwp_bind, gwp_map_err, (gwp_consume g); [done|intros; by apply joined_err|]. intros g2 r2 Hg2 _ _ Hused [x|e]; [|by apply joined_err].
  do 2 (apply gwp_bind, gwp_reads; [reading|]; intros [?|?]; [|by apply joined_err]). apply gwp_ret. split; [done|]. intros _ _.
  exists hash, row, token. bools. do 3 (split; [done|]). split; [by apply eq_None_not_Some|]. split; [lia|done].
Qed.

Lemma join_safe req now idRaw tokenRaw : safe (JoinNode hashKey network req now idRaw tokenRaw : N _).
Proof. intros g Hi. eapply gwp_mono; [by apply join_joined|]. by intros r g' [Hg _]. Qed.

(** ** Agents *)

Lemma gwp_agent_node id missing g (Q : result Node -> registry -> Prop) : reg_inv g -> (forall e, Q (Err e) g) ->
  (forall n, Node_ID n = id -> live id g -> Q (Ok n) g) -> gwp (agentNode id missing : N Node) g Q.
Proof.
  intros Hi HE HO. unfold agentNode. apply gwp_bind, gwp_map_err, gwp_by_id; [done|done|]. intros n En Hn.
  apply gwp_bind, gwp_guard; intros Hs; [done|]. apply gwp_ret, HO; [done|]. rewrite <- En. by apply stored_live.
Qed.

Lemma valid_status_active s : negb (String.eqb s nodeStatusOnline) && negb (String.eqb s nodeStatusOffline) = false -> status_phase s = Active.
Proof. intros Hs. apply andb_false_iff in Hs as [Hs|Hs]; apply negb_false_iff, String.eqb_eq in Hs as ->; done. Qed.

Lemma heartbeat_safe caller req now : safe (HeartbeatNode caller req now : N _).
Proof.
  intros g Hi. pose proof (good_start g Hi) as Hg. unfold HeartbeatNode, admitHeartbeat. apply gwp_bind, gwp_bind, gwp_lift.
  destruct (requireAgent caller) as [id|] eqn:Hc; [|done]. cbv zeta. apply gwp_bind, gwp_agent_node; [done|done|]. intros n En Hl.
  apply gwp_bind, gwp_guard; intros Hs; [done|]. apply gwp_bind, gwp_guard; intros _; [done|]. apply gwp_ret, gwp_bind, gwp_lift.
  assert (Hst : status_phase (if String.eqb (Node_Status n) nodeStatusDrained then nodeStatusDrained else or_default (TrimSpace (hb_Status req)) nodeStatusOnline) = Active).
  { case_match; [done|by apply valid_status_active]. }
  unfold applyHeartbeat. cbv zeta. apply gwp_bind, gwp_map_err, (gwp_update_live g); [done|done|done|done|by right|].
  intros g' Hg' _ _ [u|e]; [|done]. apply gwp_reads; [reading|done].
Qed.

(** ** Administration *)

Lemma gwp_change_status failure status now n g0 g : good g0 g -> live (Node_ID n) g -> status_phase status = Active ->
  gwp (changeStatus failure status now n : N Node) g (fun _ g' => good g0 g').
Proof.
  intros Hg Hl Hs. unfold changeStatus. destruct (String.eqb _ _); [by apply gwp_ret|].
  apply gwp_bind, gwp_map_err, (gwp_update_live g0); [done|done|done|done|by right|]. intros g' Hg' _ _ [u|e]; [by apply gwp_ret|done].
Qed.

Lemma drain_safe caller ref now : safe (DrainNode caller ref now : N _).
Proof.
  intros g Hi. pose proof (good_start g Hi) as Hg. unfold DrainNode. apply gwp_bind, gwp_lift. destruct (requireAdmin caller); [|done].
  apply gwp_bind, gwp_find_node; [done|done|]. intros n Hn. apply gwp_bind, gwp_guard; intros Hs; [done|].
  apply gwp_bind, gwp_reads; [reading|]. intros [?|?]; [|done]. apply gwp_bind. eapply gwp_mono; [apply gwp_change_status; [done|by apply stored_live|done]|].
  intros [n'|e] g' Hg'; [|done]. apply gwp_reads; [reading|done].
Qed.

Lemma uncordon_safe caller ref now : safe (UncordonNode offlineAfter caller ref now : N _).
Proof.
  intros g Hi. pose proof (good_start g Hi) as Hg. unfold UncordonNode. apply gwp_bind, gwp_lift. destruct (requireAdmin caller); [|done].
  apply gwp_bind, gwp_find_node; [done|done|]. intros n Hn. apply gwp_bind, gwp_guard; intros Hs; [done|].
  apply gwp_bind, gwp_reads; [reading|]. intros [?|?]; [|done]. cbv zeta. apply gwp_bind.
  eapply gwp_mono; [apply gwp_change_status; [done|by apply stored_live|repeat case_match; done]|].
  intros [n'|e] g' Hg'; [|done]. apply gwp_reads; [reading|done].
Qed.

Lemma retire_safe n now g0 g : good g0 g -> live (Node_ID n) g -> gwp (retireIdentity n now : N Node) g (fun _ g' => good g0 g').
Proof.
  intros Hg Hl. unfold retireIdentity. apply gwp_bind, gwp_reads; [reading|]. intros [?|?]; [|done].
  apply gwp_bind, gwp_map_err, (gwp_revoke g0); [done|done|]. intros g1 Hg1 En Hrv [u|e]; [|done].
  apply gwp_bind, gwp_map_err, (gwp_update g0); [done|done|done|done| |].
  { intros r Hr Hx. rewrite En in Hr. by destruct (Hl _ Hr). }
  intros r Hr g2 Hg2 [u'|e]; [|done]. apply gwp_bind, gwp_map_err, (gwp_update g0); [done|done|done|intros; apply rank_last| |].
  { intros r2 Hr2 _. cbn in Hr2. rewrite lookup_insert_eq in Hr2. injection Hr2 as <-. split; [done|]. cbn. exact Hrv. }
  intros r2 Hr2 g3 Hg3 [u''|e]; [|done]. apply gwp_reads; [reading|done].
Qed.

Lemma remove_safe caller ref now : safe (RemoveNode caller ref now : N _).
Proof.
  intros g Hi. pose proof (good_start g Hi) as Hg. unfold RemoveNode. apply gwp_bind, gwp_lift. destruct (requireAdmin caller); [|done].
  apply gwp_bind, gwp_find_node; [done|done|]. intros n Hn. apply gwp_bind.
  assert (Hend : forall (x : result Node) g', good g g' -> match x with
    | Ok node => gwp (_ ← or_status (internal "remove Kubernetes node") (runtime (nr_RemoveNode (Node_Name node)));
                      _ ← syncPeers (fun _ => true); nodeWithReadiness node : N PbNode) g' (fun _ g' => good g g')
    | Err _ => good g g' end).
  { intros [n'|e] g' Hg'; [|done]. apply gwp_reads; [reading|done]. }
  destruct (String.eqb (Node_Status n) nodeStatusRemoved) eqn:Hs; [by apply gwp_ret, (Hend (Ok n))|].
  eapply gwp_mono; [apply retire_safe; [done|by apply stored_live]|]. exact Hend.
Qed.

Lemma gwp_mark_offline now l g0 g : good g0 g -> Forall (fun n => overdue offlineAfter now n = true -> live (Node_ID n) g) l ->
  gwp (markOffline offlineAfter now l : N unit) g (fun _ g' => good g0 g').
Proof.
  revert g. induction l as [|n l IH]; intros g Hg Hl; cbn [markOffline]; [by apply gwp_ret|]. inversion Hl as [|? ? Hn Hrest]; subst.
  destruct (overdue offlineAfter now n) eqn:Ho; [|by apply IH]. apply gwp_bind, (gwp_update_live g0); [done|by apply Hn|done|done|by right|].
  intros g' Hg' _ Hlive [u|e]; [|done]. apply gwp_bind, gwp_reads; [reading|]. intros [?|?]; [|done].
  apply IH; [done|]. eapply Forall_impl; [exact Hrest|]. auto.
Qed.

Lemma mark_offline_safe now : safe (MarkOfflineNodes offlineAfter now : N _).
Proof.
  intros g Hi. apply gwp_bind, gwp_list; [done|intros; by apply good_start|]. intros l Hl. apply gwp_mark_offline; [by apply good_start|].
  eapply Forall_impl; [exact Hl|]. intros n Hn Ho. apply stored_live; [done|]. unfold overdue in Ho. apply andb_true_iff in Ho as [Ho _].
  apply String.eqb_eq in Ho as ->. done.
Qed.

Lemma bootstrap_admin_safe name now tokenRaw : safe (BootstrapAdminToken hashKey name now tokenRaw : N _).
Proof.
  intros g Hi. pose proof (good_start g Hi) as Hg. unfold BootstrapAdminToken. apply gwp_bind, gwp_lift. destruct (NewToken _ _); [|done].
  apply gwp_bind, gwp_lift. destruct (HashToken _ _); [|done].
  assert (Hset : forall m, good g (set_admins m g)) by (intros m; split; [by destruct Hi|exact (kept_refl g)]).
  apply gwp_bind, gwp_done; [done|]. intros g' n Hu. apply bind_ok in Hu as (m & _ & [= <- <-]). intros [u|e]; [by apply gwp_ret|done].
Qed.

(** ** Requests that delete *)

Definition firm (g0 g : registry) : Prop := reg_inv g /\ lasting g0 g.

Lemma good_firm g0 g : good g0 g -> firm g0 g.
Proof. intros [Hi Hk]. split; [done|by apply kept_lasting]. Qed.

(** Deleting rows keeps the invariant. *)
Lemma inv_shrink g g' : reg_inv g -> g_nodes g' ⊆ g_nodes g -> g_agents g' ⊆ g_agents g -> reg_inv g'.
Proof.
  intros Hi Sn Sa. assert (Wn := fun k r => lookup_weaken (g_nodes g') (g_nodes g) k r). assert (Wa := fun k r => lookup_weaken (g_agents g') (g_agents g) k r).
  destruct Hi as [H1 H2 H3 H4 H5 H6]. split; eauto 8.
Qed.

Lemma firm_shrink g0 g g' : firm g0 g -> g_nodes g' = g_nodes g -> g_joins g' ⊆ g_joins g -> g_agents g' ⊆ g_agents g -> firm g0 g'.
Proof.
  intros [Hi [Hn Hj]] En Sj Sa. split; [apply (inv_shrink g); [done|by rewrite En|done]|]. unfold lasting, phase_of in *. rewrite En. split; [done|].
  intros h r r' Hr Hu Hr'. eapply Hj; [done|done|]. by eapply lookup_weaken.
Qed.

(** A deletion that succeeds or fails leaves fewer rows. *)
Lemma firm_deletes f g0 g : firm g0 g -> (forall g' n, f g = Ok (g', n) -> g_nodes g' = g_nodes g /\ g_joins g' ⊆ g_joins g /\ g_agents g' ⊆ g_agents g) ->
  gwp (_ ← g_exec f; mret tt : N unit) g (fun _ g' => firm g0 g').
Proof. intros Hg Hf. apply gwp_done; [done|]. intros g' n Hu x. destruct (Hf _ _ Hu) as (? & ? & ?). by eapply firm_shrink. Qed.

Lemma delete_joins_firm name g0 g : firm g0 g -> gwp (JoinTokenRepository_DeleteByNodeName name : N unit) g (fun _ g' => firm g0 g').
Proof. intros Hg. apply firm_deletes; [done|]. intros g' n [= <- <-]. cbn. split; [done|]. split; [apply map_filter_subseteq|done]. Qed.

Lemma delete_agents_firm id g0 g : firm g0 g -> gwp (AgentTokenRepository_DeleteByNodeID id : N unit) g (fun _ g' => firm g0 g').
Proof. intros Hg. apply firm_deletes; [done|]. intros g' n [= <- <-]. cbn. split; [done|]. split; [done|apply map_filter_subseteq]. Qed.

Lemma delete_node_firm id g0 g : firm g0 g -> phase_of g0 id <> Active -> gwp (NodeRepository_Delete id : N unit) g (fun _ g' => firm g0 g').
Proof.
  intros Hg Hp. apply gwp_affected; [done|]. intros g' n Hd.
  assert (Hg' : firm g0 g').
  { unfold delete_node in Hd. destruct (g_nodes g !! id); injection Hd as E _; subst g'; [|done]. destruct Hg as [Hi [Hn Hj]].
    split; [apply (inv_shrink g); [done|apply delete_subseteq|done]|]. split; [|done]. intros i. specialize (Hn i). unfold phase_of in *. cbn.
    destruct (decide (i = id)) as [->|Hne]; [rewrite lookup_delete_eq; by right|by rewrite lookup_delete_ne]. }
  by split.
Qed.

Definition sound {A} (m : N A) : Prop := forall g, reg_inv g -> gwp m g (fun _ g' => firm g g').

Lemma safe_sound {A} (m : N A) : safe m -> sound m.
Proof. intros Hm g Hi. eapply gwp_mono; [by apply Hm|]. intros ? g' Hg. by apply good_firm. Qed.

Lemma firm_start g : reg_inv g -> firm g g.
Proof. intros Hi. by apply good_firm, good_start. Qed.

Lemma purge_sound caller ref now : sound (PurgeNode caller ref now : N _).
Proof.
  intros g Hi. pose proof (firm_start g Hi) as Hf. unfold PurgeNode. apply gwp_bind, gwp_lift. destruct (requireAdmin caller); [|done].
  apply gwp_bind, gwp_find_node; [done|done|]. intros n Hn. apply gwp_bind, gwp_guard; intros Hp; [done|].
  apply gwp_bind, gwp_reads; [reading|]. intros [?|?]; [|done].
  apply gwp_bind, gwp_map_err, (gwp_revoke g); [by apply good_start|done|]. intros g1 Hg1%good_firm _ _ [u|e]; [|done].
  do 2 (apply gwp_bind, gwp_reads; [reading|]; intros [?|?]; [|done]).
  apply gwp_bind, gwp_map_err. eapply gwp_mono; [by apply delete_agents_firm|]. intros [?|?] g2 Hg2; [|done].
  apply gwp_bind, gwp_map_err. eapply gwp_mono; [by apply delete_joins_firm|]. intros [?|?] g3 Hg3; [|done].
  apply gwp_bind, gwp_map_err. eapply gwp_mono; [apply delete_node_firm; [done|by apply stored_idle]|]. intros [?|?] g4 Hg4; [|done].
  apply gwp_reads; [reading|done].
Qed.

Lemma rename_sound caller ref newRaw now : sound (RenameNode caller ref newRaw now : N _).
Proof.
  intros g Hi. pose proof (firm_start g Hi) as Hf. unfold RenameNode. apply gwp_bind, gwp_lift. destruct (requireAdmin caller); [|done].
  apply gwp_bind, gwp_find_node; [done|done|]. intros n Hn. cbv zeta. apply gwp_bind, gwp_map_err, gwp_lift. destruct (validateNodeName _); [|done].
  destruct (String.eqb _ _); [apply gwp_reads; [reading|done]|]. apply gwp_bind, gwp_guard; intros _; [done|].
  apply gwp_bind, gwp_reads; [reading|]. intros [found|e]; [|done]. apply gwp_bind, gwp_reads; [reading|]. intros [?|?]; [|done].
  apply gwp_bind, gwp_map_err, (gwp_update g); [by apply good_start|done|done|done| |].
  { intros r Hr Hrm. split; [by apply (ri_removed g Hi (Node_ID n) r)|]. intros h t Ht Ho. by apply (ri_revoked g Hi (Node_ID n) r h t). }
  intros r Hr g1 Hg1%good_firm [?|?]; [|done].
  apply gwp_bind, gwp_map_err. eapply gwp_mono; [by apply delete_joins_firm|]. intros [?|?] g2 Hg2; [|done].
  apply gwp_reads; [reading|done].
Qed.
End handlers.
