(* ===== verification/NodeAuth.v ===== *)
(** * Requests about nodes, from the bearer token on

    What authentication admits; the requests of the node service behind the
    interceptor, one after another; what a removed node and a spent join token
    can still do; and a heartbeat that overlaps a removal. *)

From S2P Require Import Prelude GoStrings Regexp Sha256 GoJson GoTime GoNet Wireguard Appconfig Db DbRepos Security CandidateRequests NodeRegistry NodeService NodeLogic NodeProps.
From Stdlib Require Import Ascii String.
Local Open Scope Z_scope.

(** ** The requests *)

Inductive node_request :=
  | RCreateJoinToken (req : CreateJoinTokenRequest) | RJoinNode (req : JoinNodeRequest) | RListNodes | RGetNode (ref : string)
  | RHeartbeatNode (req : HeartbeatRequest) | RGetWorkerBootstrap | RDrainNode (ref : string) | RUncordonNode (ref : string)
  | RRemoveNode (ref : string) | RPurgeNode (ref : string) | RRenameNode (ref newName : string).

(** The full method names of the service. *)
Definition node_method (req : node_request) : string :=
  "/deployer.v1.NodeService/" +:+
  match req with
  | RCreateJoinToken _ => "CreateJoinToken" | RJoinNode _ => "JoinNode" | RListNodes => "ListNodes" | RGetNode _ => "GetNode"
  | RHeartbeatNode _ => "HeartbeatNode" | RGetWorkerBootstrap => "GetWorkerBootstrap" | RDrainNode _ => "DrainNode"
  | RUncordonNode _ => "UncordonNode" | RRemoveNode _ => "RemoveNode" | RPurgeNode _ => "PurgeNode" | RRenameNode _ _ => "RenameNode"
  end.

(** What a request reads of its surroundings: the clock and the random source. *)
Record draws := MkDraws { d_now : Z; d_token : option (list Z); d_id : option (list Z) }.

Section service.
Context `{AppEnv} {K : Type} `{!NodeRuntime K}.
Context (hashKey : list Z) (network : WorkerNetworkConfig) (offlineAfter : Z).
Notation N := (ST (nodes_world K)).

Definition ignore {A} (m : N A) : N unit := _ ← m; mret tt.

Definition handle (caller : option Caller) (req : node_request) (d : draws) : N unit :=
  match req with
  | RCreateJoinToken r => ignore (CreateJoinToken hashKey network caller r (d_now d) (d_token d) (d_id d))
  | RJoinNode r => ignore (JoinNode hashKey network r (d_now d) (d_id d) (d_token d))
  | RListNodes => ignore (ListNodes caller)
  | RGetNode ref => ignore (GetNode caller ref)
  | RHeartbeatNode r => ignore (HeartbeatNode caller r (d_now d))
  | RGetWorkerBootstrap => ignore (GetWorkerBootstrap network caller)
  | RDrainNode ref => ignore (DrainNode caller ref (d_now d))
  | RUncordonNode ref => ignore (UncordonNode offlineAfter caller ref (d_now d))
  | RRemoveNode ref => ignore (RemoveNode caller ref (d_now d))
  | RPurgeNode ref => ignore (PurgeNode caller ref (d_now d))
  | RRenameNode ref name => ignore (RenameNode caller ref name (d_now d))
  end.

(** A request with its [authorization] metadata. *)
Definition serve (authorization : list string) (req : node_request) (d : draws) : N unit :=
  intercept hashKey authorization (node_method req) (d_now d) (fun caller => handle caller req d).

(** ** Authentication *)

(** The token is stored and not revoked, and its kind may call the method. *)
Definition admitted (authorization : list string) (method : string) (g : registry) (c : Caller) : Prop :=
  exists raw hash row token,
    bearerToken authorization = Ok raw /\ HashToken hashKey raw = Ok hash /\ Caller_TokenID c = opaqueTokenID hash /\
    scanToken row = Ok token /\ BT_RevokedAt token = None /\
    match Caller_Kind c with
    | CallerAdmin => Prefix raw = Ok AdminTokenPrefix /\ isAgentOnlyMethod method = false /\ g_admins g !! hash = Some row /\ Caller_NodeID c = ""
    | CallerAgent => Prefix raw = Ok AgentTokenPrefix /\ isAgentOnlyMethod method = true /\ g_agents g !! hash = Some row /\ Caller_NodeID c = tk_owner row
    | CallerJoin => False
    end.

Lemma scanToken_fields row t : scanToken row = Ok t -> BT_Owner t = tk_owner row /\ (BT_RevokedAt t = None <-> tk_revoked row = None).
Proof.
  unfold scanToken. intros (t1 & _ & (t2 & _ & (t3 & Hr & [= <-])%bind_ok)%bind_ok)%bind_ok. split; [by cbn|]. cbn.
  destruct (tk_revoked row); cbn in Hr; [|by injection Hr as <-]. apply bind_ok in Hr as (x & _ & [= <-]). done.
Qed.

Lemma gwp_authenticate_with (select : registry -> option token_row) markUsed kind refuse refusal hash now g (Q : result BearerToken -> registry -> Prop) :
  (forall e, Q (Err e) g) ->
  (forall row t, select g = Some row -> scanToken row = Ok t -> BT_RevokedAt t = None -> refuse = false ->
     gwp (markUsed hash now) g (fun r g' => Q (match r with Ok _ => Ok t | Err _ => Err (internal ("record " +:+ kind +:+ " token usage")) end) g')) ->
  gwp (authenticateWith (fun _ => g_find select scanToken) markUsed kind refuse refusal hash now : N _) g Q.
Proof.
  intros HE HO. unfold authenticateWith. apply gwp_bind, gwp_map_err, gwp_find; [done|]. intros row t Hrow Hs.
  apply gwp_bind, gwp_guard; intros Hr; [done|]. apply gwp_bind, gwp_guard; intros Hf; [done|]. bools.
  apply gwp_bind, gwp_map_err. eapply gwp_mono; [eapply HO; try done; by apply eq_None_not_Some|]. intros [[]|e] g' HQ; [by apply gwp_ret|done].
Qed.

Definition authenticated (authorization : list string) (method : string) (g : registry) (r : result Caller) (g' : registry) : Prop :=
  (good g g' /\ g_nodes g' = g_nodes g) /\ forall c, r = Ok c -> admitted authorization method g c.

Lemma authenticated_err authorization method g e g' : good g g' /\ g_nodes g' = g_nodes g -> authenticated authorization method g (Err e) g'.
Proof. by split. Qed.

Lemma gwp_authenticate authorization method now g : reg_inv g ->
  gwp (authenticate hashKey authorization method now : N Caller) g (authenticated authorization method g).
Proof.
  intros Hi. pose proof (conj (good_start g Hi) (eq_refl (g_nodes g))) as Hg. unfold authenticate. apply gwp_bind, gwp_lift.
  destruct (bearerToken authorization) as [raw|e] eqn:Hb; [|by apply authenticated_err]. apply gwp_bind, gwp_map_err, gwp_lift.
  destruct (Prefix raw) as [prefix|e] eqn:Hp; [|by apply authenticated_err]. apply gwp_bind, gwp_map_err, gwp_lift.
  destruct (HashToken hashKey raw) as [hash|e] eqn:Hh; [|by apply authenticated_err].
  destruct (String.eqb_spec prefix AdminTokenPrefix) as [->|_].
  - apply gwp_bind, gwp_guard; intros Hm; [by apply authenticated_err|].
    apply gwp_bind, (gwp_authenticate_with (fun g => g_admins g !! hash)); [intros; by apply authenticated_err|]. intros row t Hrow Hs Hr _.
    apply (gwp_admin_used g); [apply Hg|intros; by apply authenticated_err|]. intros g' Hg' En [u|e]; [|by apply authenticated_err].
    apply gwp_ret. split; [done|]. intros ? [= <-]. by exists raw, hash, row, t.
  - destruct (String.eqb_spec prefix AgentTokenPrefix) as [->|_].
    + apply gwp_bind, (gwp_authenticate_with (fun g => g_agents g !! hash)); [intros; by apply authenticated_err|]. intros row t Hrow Hs Hr Hm.
      apply (gwp_agent_used g); [apply Hg|intros; by apply authenticated_err|]. intros g' Hg' En [u|e]; [|by apply authenticated_err].
      apply gwp_ret. split; [done|]. intros ? [= <-]. exists raw, hash, row, t. unfold isAdminOnlyMethod in Hm. bools.
      destruct (scanToken_fields _ _ Hs) as [Eo _]. cbn. done.
    + destruct (String.eqb _ _); apply gwp_throw; by apply authenticated_err.
Qed.

(** ** One request after another *)

Lemma sound_ignore {A} (m : N A) : sound m -> sound (ignore m).
Proof. intros Hm g Hi. apply gwp_bind. eapply gwp_mono; [by apply Hm|]. intros [a|e] g' Hg'; [by apply gwp_ret|done]. Qed.

Lemma handle_sound caller req d : sound (handle caller req d).
Proof.
  destruct req; apply sound_ignore;
    first [ apply purge_sound | apply rename_sound | apply safe_sound;
            auto using create_join_token_safe, join_safe, list_safe, get_safe, heartbeat_safe, bootstrap_safe, drain_safe, uncordon_safe, remove_safe ].
Qed.

Lemma firm_after g0 g1 g2 : good g0 g1 -> g_nodes g1 = g_nodes g0 -> firm g1 g2 -> firm g0 g2.
Proof.
  intros [_ [_ Hj]] En [Hi [Ln Lj]]. split; [done|]. unfold lasting, phase_of in *. rewrite En in Ln. split; [done|].
  intros h r r' Hr Hx Hr'. destruct (Hj _ _ Hr Hx) as (r1 & Hr1 & Hx1). by eapply Lj.
Qed.

Lemma serve_sound authorization req d : sound (serve authorization req d).
Proof.
  unfold serve, intercept. destruct (isPublicMethod _); [apply handle_sound|]. intros g Hi. apply gwp_bind.
  eapply gwp_mono; [by apply gwp_authenticate|]. intros [c|e] g1 [[Hg1 En] _]; [|by apply good_firm].
  eapply gwp_mono; [apply handle_sound, Hg1|]. intros r g2 Hg2. by eapply firm_after.
Qed.

(** A request, a round of the monitor, or a first administrator. *)
Inductive node_step (g g' : registry) : Prop :=
  | step_serve authorization req d (w : nodes_world K) r w' :
      n_reg w = g -> serve authorization req d w = (r, w') -> n_reg w' = g' -> node_step g g'
  | step_monitor now (w : nodes_world K) r w' :
      n_reg w = g -> MarkOfflineNodes offlineAfter now w = (r, w') -> n_reg w' = g' -> node_step g g'
  | step_bootstrap name now raw (w : nodes_world K) r w' :
      n_reg w = g -> BootstrapAdminToken hashKey name now raw w = (r, w') -> n_reg w' = g' -> node_step g g'.

Definition node_reachable : registry -> Prop := rtc node_step (MkRegistry ∅ ∅ ∅ ∅).

Lemma node_step_firm g g' : reg_inv g -> node_step g g' -> firm g g'.
Proof.
  intros Hi [authorization req d w r w' Hw Hm Hw'|now w r w' Hw Hm Hw'|name now raw w r w' Hw Hm Hw']; rewrite <- Hw'.
  - exact (serve_sound authorization req d g Hi w r w' Hw Hm).
  - exact (safe_sound _ (mark_offline_safe offlineAfter now) g Hi w r w' Hw Hm).
  - exact (safe_sound _ (bootstrap_admin_safe hashKey name now raw) g Hi w r w' Hw Hm).
Qed.

Lemma node_reachable_inv g : node_reachable g -> reg_inv g.
Proof.
  intros Hr. refine (rtc_ind_r (R := node_step) reg_inv _ empty_registry_inv _ g Hr). intros g1 g2 _ Hs Hi. by apply (node_step_firm g1 g2 Hi Hs).
Qed.

(** ** What the service promises *)

(** C20: In every registry that is reached from the empty one by requests, rounds of the
    monitor and bootstraps of the administrator's token, each run to its end before the
    next one starts, whatever the requests, their tokens and their times are and whichever
    driver calls fail or are ambiguous: node names are unique, and so are non-empty
    WireGuard addresses and keys; a removed node has no WireGuard key and no agent token
    that is not revoked; and a join token that was used stays used for as long as it is
    stored.  The service does not serialise requests: what overlapping ones can do is
    [heartbeat_race] and [join_race]. *)
Theorem registry_intact g g' : node_reachable g -> node_step g g' ->
  reg_inv g' /\ forall h r r', g_joins g !! h = Some r -> jr_used r <> None -> g_joins g' !! h = Some r' -> jr_used r' <> None.
Proof. intros Hr Hs. destruct (node_step_firm g g') as (Hi & _ & Hj); [by apply node_reachable_inv|done|done]. Qed.

(** The life of a node as the documentation has it: requests advance it, and only a
    node that was never enrolled or was removed is deleted. *)
Inductive advance : phase -> phase -> Prop :=
  | advance_create : advance Absent Pending
  | advance_enroll : advance Pending Active
  | advance_remove : advance Active Removed
  | advance_cancel : advance Pending Removed.

Inductive purge : phase -> phase -> Prop :=
  | purge_pending : purge Pending Absent
  | purge_removed : purge Removed Absent.

#[local] Hint Constructors advance purge : core.

Lemma rank_advance p q : rank p <= rank q -> rtc advance p q.
Proof.
  destruct p, q; cbn; intros Hr; try lia; try reflexivity; eauto using rtc_once, rtc_l.
Qed.

(** C19: The node service refines the life cycle of nodes.  In a registry reached by
    requests, rounds of the monitor and bootstraps that run one after another, the next
    request, round or bootstrap, run without another one in between, moves every node
    along the life cycle, or deletes it while it is pending or removed.  So a request
    that overlaps no other one neither deletes an enrolled node nor returns a removed
    node to service; overlapping ones can ([heartbeat_race]). *)
Theorem node_lifecycle g g' : node_reachable g -> node_step g g' ->
  forall id, rtc advance (phase_of g id) (phase_of g' id) \/ purge (phase_of g id) (phase_of g' id).
Proof.
  intros Hr Hs id. destruct (node_step_firm g g') as (_ & Hn & _); [by apply node_reachable_inv|done|].
  destruct (Hn id) as [Hle|[Ha ->]]; [left; by apply rank_advance|]. destruct (phase_of g id); auto; [|done]. by left.
Qed.

(** The agent token is revoked: nothing is changed and no caller is admitted. *)
Lemma revoked_refused authorization method now raw hash row g :
  bearerToken authorization = Ok raw -> Prefix raw = Ok AgentTokenPrefix -> HashToken hashKey raw = Ok hash ->
  g_agents g !! hash = Some row -> tk_revoked row <> None ->
  gwp (authenticate hashKey authorization method now : N Caller) g (fun r g' => (exists e, r = Err e) /\ g' = g).
Proof.
  intros Hb Hp Hh Hrow Hr. unfold authenticate. apply gwp_bind, gwp_lift. rewrite Hb. apply gwp_bind, gwp_map_err, gwp_lift. rewrite Hp.
  apply gwp_bind, gwp_map_err, gwp_lift. rewrite Hh.
  change (String.eqb AgentTokenPrefix AdminTokenPrefix) with false. change (String.eqb AgentTokenPrefix AgentTokenPrefix) with true. cbn iota.
  apply gwp_bind, (gwp_authenticate_with (fun g => g_agents g !! hash)); [by eauto|]. intros row' t Hrow' Hs Hnone _.
  rewrite Hrow in Hrow'. injection Hrow' as <-. apply (scanToken_fields _ _ Hs) in Hnone. done.
Qed.

(** The caller was authenticated before its node was removed. *)
Lemma removed_caller_refused caller req d id row g : g_nodes g !! id = Some row -> is_removed row -> reg_inv g ->
  Caller_Kind caller = CallerAgent -> Caller_NodeID caller = id -> isAgentOnlyMethod (node_method req) = true ->
  gwp (handle (Some caller) req d) g (fun r g' => (exists e, r = Err e) /\ g' = g).
Proof.
  intros Hrow Hrm Hi Hk Hid Hm.
  assert (Hreq : requireAgent (Some caller) = Ok id).
  { unfold requireAgent. rewrite Hk, bool_decide_eq_true_2 by done. by rewrite Hid. }
  assert (Hnode : forall missing (Q : result Node -> registry -> Prop), (forall e, Q (Err e) g) -> gwp (agentNode id missing : N Node) g Q).
  { intros missing Q HE. apply gwp_agent_node; [done|done|]. intros n _ Hl. by destruct (Hl row Hrow). }
  destruct req; try (by vm_compute in Hm); apply gwp_bind.
  - unfold HeartbeatNode, admitHeartbeat. rewrite Hreq. apply gwp_bind, gwp_bind, gwp_lift, gwp_bind, Hnode. eauto.
  - unfold GetWorkerBootstrap. rewrite Hreq. apply gwp_bind, gwp_lift, gwp_bind, Hnode. eauto.
Qed.

(** C21: A removed node is locked out of requests that start after its removal.  In a
    registry that has the invariant of C20, a request that names a method that is not
    public and carries any agent token stored for a removed node fails and leaves the
    registry as it is; and if a caller was authenticated as the agent of the node before
    the removal, and the handler of one of the two agent methods starts after it, the
    handler fails and leaves the registry as it is.  (A handler that started before the
    removal and ends after it is not covered: [heartbeat_race].) *)
Theorem removed_locked_out id row (w : nodes_world K) r w' req d :
  reg_inv (n_reg w) -> g_nodes (n_reg w) !! id = Some row -> is_removed row ->
  (exists authorization raw hash t, bearerToken authorization = Ok raw /\ Prefix raw = Ok AgentTokenPrefix /\ HashToken hashKey raw = Ok hash /\
     g_agents (n_reg w) !! hash = Some t /\ tk_owner t = id /\ isPublicMethod (node_method req) = false /\ serve authorization req d w = (r, w')) \/
  (exists caller, Caller_Kind caller = CallerAgent /\ Caller_NodeID caller = id /\ isAgentOnlyMethod (node_method req) = true /\
     handle (Some caller) req d w = (r, w')) ->
  (exists e, r = Err e) /\ n_reg w' = n_reg w.
Proof.
  intros Hi Hrow Hrm [(authorization & raw & hash & t & Hb & Hp & Hh & Ht & Ho & Hm & Hs)|(caller & Hk & Hid & Hm & Hs)].
  - unfold serve, intercept in Hs. rewrite Hm in Hs. pose proof (ri_revoked _ Hi _ _ _ _ Hrow Hrm Ht Ho) as Hr.
    refine (gwp_bind _ _ (n_reg w) (fun r g' => (exists e, r = Err e) /\ g' = n_reg w) _ w r w' eq_refl Hs).
    eapply gwp_mono; [by eapply revoked_refused|]. intros r' g' [[e ->] ->]. eauto.
  - exact (removed_caller_refused caller req d id row (n_reg w) Hrow Hrm Hi Hk Hid Hm w r w' eq_refl Hs).
Qed.

(** A token that is used, or expired, is refused before anything is written. *)
Lemma spent_refused req now idRaw tokenRaw hash row token g :
  HashToken hashKey (TrimSpace (jn_JoinToken req)) = Ok hash -> g_joins g !! hash = Some row -> scanJoinToken row = Ok token ->
  JT_UsedAt token <> None \/ JT_ExpiresAt token <= now ->
  gwp (JoinNode hashKey network req now idRaw tokenRaw : N _) g (fun r g' => (exists e, r = Err e) /\ g' = g).
Proof.
  intros Hh Hrow Hs Hspent. unfold JoinNode. cbv zeta. apply gwp_bind, gwp_guard; intros _; [by eauto|].
  apply gwp_bind, gwp_map_err, gwp_lift. destruct (ValidatePublicKey _); [|by eauto].
  apply gwp_bind, gwp_map_err, gwp_lift. destruct (Prefix _); [|by eauto].
  apply gwp_bind, gwp_map_err, gwp_lift. rewrite Hh. apply gwp_bind, gwp_map_err, gwp_find; [by eauto|]. intros row' token' Hrow' Hs'. cbn beta in Hrow'.
  rewrite Hrow in Hrow'. injection Hrow' as <-. rewrite Hs in Hs'. injection Hs' as <-.
  apply gwp_bind, gwp_guard; intros Hu; [by eauto|]. apply gwp_bind, gwp_guard; intros Hx; [by eauto|]. bools. exfalso.
  destruct Hspent as [Hx1|Hx1]; [by apply Hx1, eq_None_not_Some|lia].
Qed.

(** A join token admits one node.  If [JoinNode] answers, the token was stored,
    unused and not expired, and is used afterwards; a token that is used or expired is
    refused, and the registry is left as it was. *)
Theorem join_token_once req now idRaw tokenRaw hash row token (w : nodes_world K) r w' :
  reg_inv (n_reg w) -> HashToken hashKey (TrimSpace (jn_JoinToken req)) = Ok hash ->
  g_joins (n_reg w) !! hash = Some row -> scanJoinToken row = Ok token ->
  JoinNode hashKey network req now idRaw tokenRaw w = (r, w') ->
  (forall x, r = Ok x -> JT_UsedAt token = None /\ now < JT_ExpiresAt token /\ exists row', g_joins (n_reg w') !! hash = Some row' /\ jr_used row' <> None) /\
  (JT_UsedAt token <> None \/ JT_ExpiresAt token <= now -> (exists e, r = Err e) /\ n_reg w' = n_reg w).
Proof.
  intros Hi Hh Hrow Hs Hm. split.
  - intros x Hx. destruct (join_joined hashKey network req now idRaw tokenRaw (n_reg w) Hi w r w' eq_refl Hm) as [_ Hj].
    destruct (Hj x Hx) as (hash' & row' & token' & Hh' & Hrow' & Hs' & Hu & Hlt & Hused). rewrite Hh in Hh'. injection Hh' as <-.
    rewrite Hrow in Hrow'. injection Hrow' as <-. rewrite Hs in Hs'. injection Hs' as <-. done.
  - intros Hspent. exact (spent_refused req now idRaw tokenRaw hash row token (n_reg w) Hh Hrow Hs Hspent w r w' eq_refl Hm).
Qed.

(** Without driver faults a stored token is found and its use recorded. *)
Lemma st_bind_run {S A B} (m : ST S A) (f : A -> ST S B) s a s' : m s = (Ok a, s') -> mbind f m s = f a s'.
Proof. intros Hm. unfold mbind, st_bind. by rewrite Hm. Qed.

Lemma map_err_run {S A} h (m : ST S A) s a s' : m s = (Ok a, s') -> map_err h m s = (Ok a, s').
Proof. intros Hm. unfold map_err. by rewrite Hm. Qed.

Lemma affected_run f g g' k : f g = Ok (g', 1) -> mapRowsAffected (g_exec f) (MkNodes g [] k : nodes_world K) = (Ok tt, MkNodes g' [] k).
Proof. intros Hf. unfold mapRowsAffected. erewrite st_bind_run; [|unfold g_exec; cbn; rewrite Hf; reflexivity]. done. Qed.

Lemma authenticate_with_ok (select : registry -> option token_row) markUsed kind refusal hash now row token g g' k :
  select g = Some row -> scanToken row = Ok token -> BT_RevokedAt token = None -> markUsed hash now (MkNodes g [] k) = (Ok tt, MkNodes g' [] k) ->
  authenticateWith (fun _ => g_find select scanToken) markUsed kind false refusal hash now (MkNodes g [] k : nodes_world K) = (Ok token, MkNodes g' [] k).
Proof.
  intros Hrow Hs Hr Hmark. unfold authenticateWith.
  assert (Hfind : g_find select scanToken (MkNodes g [] k) = (Ok token, MkNodes g [] k)).
  { unfold g_find. erewrite st_bind_run; [|reflexivity]. cbn. by rewrite Hrow, Hs. }
  erewrite st_bind_run; [|apply map_err_run, Hfind]. rewrite Hr. do 2 (erewrite st_bind_run; [|reflexivity]).
  erewrite st_bind_run; [reflexivity|]. by apply map_err_run.
Qed.

Lemma authenticate_admits authorization method now g k c : admitted authorization method g c ->
  exists w', authenticate hashKey authorization method now (MkNodes g [] k : nodes_world K) = (Ok c, w').
Proof.
  intros (raw & hash & row & token & Hb & Hh & Ht & Hs & Hr & Hk). destruct c as [kind node tid]; cbn in *. subst tid. unfold authenticate. rewrite Hb.
  destruct (scanToken_fields _ _ Hs) as [Eo _].
  destruct kind; [| |done]; destruct Hk as (Hp & Hm & Hrow & ->); (erewrite st_bind_run; [|reflexivity]); rewrite Hp; (erewrite st_bind_run; [|reflexivity]);
    rewrite Hh; (erewrite st_bind_run; [|reflexivity]).
  - change (String.eqb AdminTokenPrefix AdminTokenPrefix) with true. cbn iota. rewrite Hm. erewrite st_bind_run; [|reflexivity].
    erewrite st_bind_run; [by eexists|]. eapply (authenticate_with_ok (fun g => g_admins g !! hash)); [done|done|done|].
    apply affected_run. unfold mark_used. by rewrite Hrow.
  - change (String.eqb AgentTokenPrefix AdminTokenPrefix) with false. change (String.eqb AgentTokenPrefix AgentTokenPrefix) with true. cbn iota.
    unfold isAdminOnlyMethod. rewrite Hm. cbn [negb]. rewrite <- Eo.
    erewrite st_bind_run; [by eexists|]. eapply (authenticate_with_ok (fun g => g_agents g !! hash)); [done|done|done|].
    apply affected_run. unfold mark_used. by rewrite Hrow.
Qed.

(** C23: Authentication is exact.  It yields a caller only if the bearer token's keyed
    hash is stored in the table of its kind and not revoked, agents call only the two
    agent methods and administrators never do, and the node of an agent is not removed;
    and without driver faults every such token is admitted, with that caller. *)
Theorem authenticate_exact authorization method now (w : nodes_world K) : reg_inv (n_reg w) ->
  (forall c w', authenticate hashKey authorization method now w = (Ok c, w') ->
     admitted authorization method (n_reg w) c /\ (Caller_Kind c = CallerAgent -> live (Caller_NodeID c) (n_reg w))) /\
  (n_faults w = [] -> forall c, admitted authorization method (n_reg w) c -> exists w', authenticate hashKey authorization method now w = (Ok c, w')).
Proof.
  intros Hi. split.
  - intros c w' Hm. destruct (gwp_authenticate authorization method now (n_reg w) Hi w _ w' eq_refl Hm) as [_ Ha]. pose proof (Ha c eq_refl) as Hc.
    split; [done|]. intros Hk r Hr Hrm. destruct Hc as (raw & hash & row & token & _ & _ & _ & Hs & Hnone & Hkind). rewrite Hk in Hkind.
    destruct Hkind as (_ & _ & Hrow & Hid). apply (scanToken_fields _ _ Hs) in Hnone. by apply (ri_revoked _ Hi _ r hash row Hr Hrm Hrow).
  - intros Hf c Hc. destruct w as [g fs k]. cbn in *. subst fs. by apply authenticate_admits.
Qed.

(** ** Overlapping requests *)

(** An update that keeps id, name and address, with a key no other node has. *)
Lemma write_no_conflict g r r' : reg_inv g -> g_nodes g !! nd_id r = Some r -> nd_id r' = nd_id r -> nd_name r' = nd_name r -> nd_ip r' = nd_ip r ->
  (forall k o, g_nodes g !! k = Some o -> k <> nd_id r -> nd_key r' <> "" -> nd_key o <> nd_key r') -> node_conflict r' (g_nodes g) = false.
Proof.
  intros Hi Hr E1 E2 E3 Hkey. unfold node_conflict. rewrite exists_row_false, E1, E2, E3. intros k o Ho. pose proof (ri_key g Hi _ _ Ho) as Ek.
  destruct (String.eqb_spec (nd_id o) (nd_id r)) as [E|Hne]; cbn [negb andb]; [done|]. rewrite Ek in Hne.
  destruct (String.eqb_spec (nd_name o) (nd_name r)) as [E|_]; [destruct Hne; by apply (ri_name g Hi _ _ o r)|].
  assert (Hip : negb (String.eqb (nd_ip r) "") && String.eqb (nd_ip o) (nd_ip r) = false).
  { destruct (String.eqb_spec (nd_ip r) "") as [_|Hx]; [done|]. apply String.eqb_neq. intros E. destruct Hne. apply (ri_ip g Hi _ _ o r); congruence. }
  rewrite Hip. cbn [orb]. destruct (String.eqb_spec (nd_key r') "") as [_|Hx]; [done|]. by apply String.eqb_neq, (Hkey k).
Qed.

Lemma own_row_no_conflict g r r' : reg_inv g -> g_nodes g !! nd_id r = Some r ->
  nd_id r' = nd_id r -> nd_name r' = nd_name r -> nd_ip r' = nd_ip r -> nd_key r' = nd_key r -> node_conflict r' (g_nodes g) = false.
Proof.
  intros Hi Hr E1 E2 E3 E4. apply (write_no_conflict g r); [done..|]. intros k o Ho Hne Hx E. destruct Hne. apply (ri_pubkey g Hi _ _ o r); congruence.
Qed.

Lemma admitted_status caller req g : reg_inv g ->
  gwp (admitHeartbeat (Some caller) req : N _) g (fun r _ => forall x, r = Ok x -> requireAgent (Some caller) = Ok (Caller_NodeID caller) /\ status_phase x.2 = Active).
Proof.
  intros Hi. unfold admitHeartbeat. apply gwp_bind, gwp_lift. unfold requireAgent. case_bool_decide; [|done]. cbv zeta.
  apply gwp_bind, gwp_agent_node; [done|done|]. intros n _ _. apply gwp_bind, gwp_guard; intros Hs; [done|]. apply gwp_bind, gwp_guard; intros _; [done|].
  apply gwp_ret. intros x [= <-]. split; [done|]. cbn. case_match; [done|by apply valid_status_active].
Qed.

(** The check and the update of a heartbeat are separate statements, without a
    lock.  A heartbeat admitted before the node was removed, and written after it,
    takes the node out of the removed status again, whether or not it is answered. *)
Theorem heartbeat_race caller req now (w0 w1 : nodes_world K) previous status g k row :
  reg_inv (n_reg w0) -> admitHeartbeat (Some caller) req w0 = (Ok (previous, status), w1) ->
  reg_inv g -> g_nodes g !! Caller_NodeID caller = Some row -> is_removed row ->
  exists r w2 row', applyHeartbeat (Caller_NodeID caller) req previous status now (MkNodes g [] k : nodes_world K) = (r, w2) /\
    g_nodes (n_reg w2) !! Caller_NodeID caller = Some row' /\ nd_status row' = status /\ ~ is_removed row'.
Proof.
  intros Hi0 Ha Hi Hrow _. destruct (admitted_status caller req (n_reg w0) Hi0 w0 _ w1 eq_refl Ha _ eq_refl) as [_ Hst]. cbn in Hst.
  unfold applyHeartbeat. cbv zeta. set (beat := MkNode "" "" status _ _ _ _ _ _ _ _ _ _ _).
  set (row' := NodeRow (nd_id row) (nd_name row) status (nd_labels row) (TrimSpace (hb_Hostname req)) (TrimSpace (hb_Arch req)) (TrimSpace (hb_Os req))
                 (TrimSpace (hb_Kernel req)) (nd_ip row) (nd_key row) (TrimSpace (hb_VpnStatus req)) (Some (formatTime now)) (nd_created row) (formatTime now)).
  assert (Hup : NodeRepository_UpdateHeartbeat (Caller_NodeID caller) beat now (MkNodes g [] k)
                = (Ok tt, MkNodes (set_nodes (<[Caller_NodeID caller := row']> (g_nodes g)) g) [] k)).
  { apply affected_run. unfold update_node. rewrite Hrow. change (if String.eqb (Node_LabelsJSON beat) "" then nd_labels row else _) with (nd_labels row).
    erewrite own_row_no_conflict with (r := row); [reflexivity|done| |done|done|done|done]. by rewrite (ri_key g Hi _ _ Hrow). }
  erewrite st_bind_run; [|apply map_err_run, Hup].
  match goal with |- context [?m (MkNodes ?g2 [] k) = _] => assert (Hr : reads (m : N string)) by reading; destruct (m (MkNodes g2 [] k)) as [r w2] eqn:E end.
  exists r, w2, row'. split; [done|]. rewrite (Hr _ _ r w2 eq_refl E). cbn. rewrite lookup_insert_eq. split; [done|]. split; [done|]. rewrite removed_phase. cbn. by rewrite Hst.
Qed.
End service.

(** ** Enrollment completes

    The executions of a fault-free enrollment, step by step: a valid join token is
    answered with an agent token that authentication then admits. *)
Section forward.
Context {K : Type}.
Notation N := (ST (nodes_world K)).

Lemma lift_run {A} (x : result A) a (w : nodes_world K) : x = Ok a -> lift x w = (Ok a, w).
Proof. by intros ->. Qed.

Lemma guard_run b e (w : nodes_world K) : b = false -> guard b e w = (Ok tt, w).
Proof. by intros ->. Qed.

Lemma attempt_run {A} (m : N A) w r w' : m w = (r, w') -> attempt m w = (Ok r, w').
Proof. intros Hm. unfold attempt. by rewrite Hm. Qed.

Lemma find_run {R A} (select : registry -> option R) (scan : R -> result A) g k row a : select g = Some row -> scan row = Ok a ->
  g_find select scan (MkNodes g [] k : nodes_world K) = (Ok a, MkNodes g [] k).
Proof. intros Hr Hs. unfold g_find. erewrite st_bind_run; [|reflexivity]. cbn. by rewrite Hr, Hs. Qed.

Lemma exec_run f g g' n k : f g = Ok (g', n) -> (_ ← g_exec f; mret tt) (MkNodes g [] k : nodes_world K) = (Ok tt, MkNodes g' [] k).
Proof. intros Hf. erewrite st_bind_run; [|unfold g_exec; cbn; rewrite Hf; reflexivity]. done. Qed.

Lemma update_run id f g k row : g_nodes g !! id = Some row -> node_conflict (f row) (g_nodes g) = false ->
  mapRowsAffected (g_exec (update_node id f)) (MkNodes g [] k : nodes_world K) = (Ok tt, MkNodes (set_nodes (<[id := f row]> (g_nodes g)) g) [] k).
Proof. intros Hr Hc. apply affected_run. unfold update_node. by rewrite Hr, Hc. Qed.

Lemma by_name_run name row node g k : reg_inv g -> g_nodes g !! nd_id row = Some row -> nd_name row = name -> scanNode row = Ok node ->
  NodeRepository_FindByName name (MkNodes g [] k : nodes_world K) = (Ok node, MkNodes g [] k).
Proof.
  intros Hi Hr Hn Hs. eapply find_run; [|exact Hs]. eapply select1_unique; [exact Hr|by apply String.eqb_eq|].
  intros k1 v1 k2 v2 H1 H2 E1%String.eqb_eq E2%String.eqb_eq. assert (k1 = k2) as -> by (apply (ri_name g Hi k1 k2 v1 v2); congruence). congruence.
Qed.

(** A token that is stored unused and not expired is consumed. *)
Lemma consume_run hash at_ g k row token : g_joins g !! hash = Some row -> scanJoinToken row = Ok token -> JT_UsedAt token = None -> at_ < JT_ExpiresAt token ->
  exists token' joins, JoinTokenRepository_Consume hash at_ (MkNodes g [] k : nodes_world K) = (Ok token', MkNodes (set_joins joins g) [] k).
Proof.
  intros Hr Hs Hu Hx. unfold JoinTokenRepository_Consume.
  assert (Hn : jr_used row = None).
  { unfold scanJoinToken in Hs. apply bind_ok in Hs as (t1 & _ & (t2 & _ & (t3 & H3 & E)%bind_ok)%bind_ok). injection E as <-. cbn in Hu. subst t3.
    destruct (jr_used row); [|done]. cbn in H3. by apply bind_ok in H3 as (x & _ & [=]). }
  do 2 eexists. erewrite st_bind_run; [|by eapply find_run]. erewrite st_bind_run; [|apply guard_run; by rewrite Hu].
  erewrite st_bind_run; [|apply guard_run, negb_false_iff, Z.ltb_lt, Hx].
  erewrite st_bind_run; [reflexivity|]. apply map_err_run, affected_run. unfold use_join. rewrite Hr, bool_decide_eq_true_2 by done. reflexivity.
Qed.
End forward.

Ltac run_by t := erewrite st_bind_run; [|t].

Section enrollment.
Context `{AppEnv} {K : Type} `{!NodeRuntime K}.
Context (hashKey : list Z) (network : WorkerNetworkConfig).
Notation N := (ST (nodes_world K)).

(** The node the token was made for is there, with its address and labels, and no
    other node has the key. *)
Record ready (token : JoinToken) (req : JoinNodeRequest) (row : node_row) (node : Node) (labels : string) (g : registry) : Prop := {
  rd_name : TrimSpace (JT_IntendedNodeName token) = nd_name row;
  rd_named : nd_name row <> "";
  rd_row : g_nodes g !! nd_id row = Some row;
  rd_node : scanNode row = Ok node;
  rd_live : ~ is_removed row;
  rd_ip : nd_ip row <> "";
  rd_labels : (let l := unmarshalLabels (JT_LabelsJSON token) in marshalLabels (if String.eqb (jn_Arch req) "" then l else <["arch" := jn_Arch req]> l)) = Ok labels;
  rd_key : forall k o, g_nodes g !! k = Some o -> k <> nd_id row -> nd_key o <> TrimSpace (jn_PublicKey req) }.

(** The row of the node after [SetWireGuard] and [UpdateHeartbeat]. *)
Definition peer_row (req : JoinNodeRequest) (now : Z) (r : node_row) : node_row :=
  NodeRow (nd_id r) (nd_name r) (nd_status r) (nd_labels r) (nd_hostname r) (nd_arch r) (nd_os r) (nd_kernel r) (nd_ip r) (TrimSpace (jn_PublicKey req)) (nd_vpn r)
    (nd_seen r) (nd_created r) (formatTime now).
Definition online_row (req : JoinNodeRequest) (labels : string) (now : Z) (r : node_row) : node_row :=
  NodeRow (nd_id r) (nd_name r) nodeStatusOnline (if String.eqb labels "" then nd_labels r else labels) (TrimSpace (jn_Hostname req)) (TrimSpace (jn_Arch req)) "" ""
    (nd_ip r) (TrimSpace (jn_PublicKey req)) "" (Some (formatTime now)) (nd_created r) (formatTime now).

Lemma enroll_run token req row node labels now idRaw bytes agentHash g k :
  reg_inv g -> ready token req row node labels g ->
  let raw := AgentTokenPrefix +:+ "_" +:+ RawURL_EncodeToString bytes in
  HashToken hashKey raw = Ok agentHash -> g_agents g !! agentHash = None ->
  enrollNode hashKey network token req now idRaw (Some bytes) (MkNodes g [] k : nodes_world K) =
    (Ok (MkJoinNodeResponse (nd_id row) (nd_name row) raw (nd_ip row)),
     MkNodes (MkRegistry (<[nd_id row := online_row req labels now row]> (g_nodes g)) (g_joins g)
                (<[agentHash := TokenRow agentHash (nd_id row) (formatTime now) None None]> (g_agents g)) (g_admins g)) [] k).
Proof.
  intros Hi [Hname Hnamed Hrow Hnode Hlive Hip Hlab Hkey] raw Hh Hfresh. destruct (scanNode_fields _ _ Hnode) as (Eid & Est & _ & _).
  assert (Eip : Node_WireGuardIP node = nd_ip row).
  { unfold scanNode in Hnode. by apply bind_ok in Hnode as (t1 & _ & (t2 & _ & (t3 & _ & [= <-])%bind_ok)%bind_ok). }
  unfold enrollNode. cbv zeta. rewrite Hname. unfold or_default. rewrite (proj2 (String.eqb_neq _ _) Hnamed).
  run_by ltac:(apply guard_run, String.eqb_neq, Hnamed). run_by ltac:(apply map_err_run, lift_run, Hlab).
  run_by ltac:(unfold nodeForJoin; run_by ltac:(apply attempt_run; by eapply by_name_run); reflexivity).
  run_by ltac:(apply guard_run, String.eqb_neq; rewrite Est; exact Hlive).
  run_by ltac:(unfold ensureAddress; rewrite Eip, (proj2 (String.eqb_neq _ _) Hip); reflexivity). rewrite Eid.
  set (g1 := set_nodes (<[nd_id row := peer_row req now row]> (g_nodes g)) g).
  assert (Hc : node_conflict (peer_row req now row) (g_nodes g) = false) by (apply (write_no_conflict g row); [done..|]; intros k0 o Ho Hne _; by apply (Hkey k0)).
  run_by ltac:(apply map_err_run, update_run; [exact Hrow|exact Hc]). fold g1.
  assert (Hi1 : reg_inv g1) by (apply (write_node_inv g (peer_row req now row)); [done|done|intros Hx; by destruct Hlive]).
  assert (Hr1 : g_nodes g1 !! nd_id row = Some (peer_row req now row)) by (cbn; by rewrite lookup_insert_eq).
  run_by ltac:(apply map_err_run, update_run; [exact Hr1|by apply (own_row_no_conflict g1 (peer_row req now row))]).
  run_by ltac:(unfold newToken; run_by ltac:(apply map_err_run, lift_run; reflexivity); run_by ltac:(apply map_err_run, lift_run, Hh); reflexivity).
  cbv iota beta. run_by ltac:(apply map_err_run; eapply exec_run; unfold insert_token, g1; cbn [tk_hash token_row_of BT_TokenHash g_agents set_nodes]; rewrite Hfresh; reflexivity).
  unfold g1, set_nodes, set_agents. cbn [g_nodes g_joins g_agents g_admins]. rewrite insert_insert_eq. reflexivity.
Qed.

(** The token is stored, unused and not expired. *)
Record valid_token (req : JoinNodeRequest) (now : Z) (hash : string) (row : join_row) (token : JoinToken) (g : registry) : Prop := {
  vt_prefix : is_ok (Prefix (TrimSpace (jn_JoinToken req))) = true;
  vt_hash : HashToken hashKey (TrimSpace (jn_JoinToken req)) = Ok hash;
  vt_row : g_joins g !! hash = Some row;
  vt_token : scanJoinToken row = Ok token;
  vt_unused : JT_UsedAt token = None;
  vt_time : now < JT_ExpiresAt token }.

Lemma join_run req now hash jrow token row node labels idRaw bytes agentHash g k :
  reg_inv g -> valid_token req now hash jrow token g -> ValidatePublicKey (TrimSpace (jn_PublicKey req)) = Ok tt -> ready token req row node labels g ->
  let raw := AgentTokenPrefix +:+ "_" +:+ RawURL_EncodeToString bytes in
  HashToken hashKey raw = Ok agentHash -> g_agents g !! agentHash = None ->
  exists joins k', JoinNode hashKey network req now idRaw (Some bytes) (MkNodes g [] k : nodes_world K) =
    (Ok (MkJoinNodeResponse (nd_id row) (nd_name row) raw (nd_ip row)),
     MkNodes (MkRegistry (<[nd_id row := online_row req labels now row]> (g_nodes g)) joins
                (<[agentHash := TokenRow agentHash (nd_id row) (formatTime now) None None]> (g_agents g)) (g_admins g)) [] k').
Proof.
  intros Hi [Hp Hh Hrow Htok Hun Ht] Hkey Hready raw Ha Hfresh. unfold JoinNode. cbv zeta.
  destruct (Prefix (TrimSpace (jn_JoinToken req))) as [prefix|] eqn:Hpre; [|done].
  assert (Hne : TrimSpace (jn_JoinToken req) <> "") by (intros E; rewrite E in Hpre; by vm_compute in Hpre).
  set (g2 := MkRegistry (<[nd_id row := online_row req labels now row]> (g_nodes g)) (g_joins g)
               (<[agentHash := TokenRow agentHash (nd_id row) (formatTime now) None None]> (g_agents g)) (g_admins g)).
  edestruct (consume_run (K := K) hash now g2 k) as (token' & joins & Hcons); [exact Hrow|exact Htok|exact Hun|exact Ht|].
  do 2 eexists. run_by ltac:(apply guard_run, String.eqb_neq, Hne). run_by ltac:(apply map_err_run, lift_run, Hkey).
  run_by ltac:(apply map_err_run; reflexivity). run_by ltac:(apply map_err_run, lift_run, Hh).
  run_by ltac:(apply map_err_run; eapply find_run; [exact Hrow|exact Htok]). run_by ltac:(apply guard_run; by rewrite Hun).
  run_by ltac:(apply guard_run, negb_false_iff, Z.ltb_lt, Ht).
  run_by ltac:(exact (enroll_run token req row node labels now idRaw bytes agentHash g k Hi Hready Ha Hfresh)).
  run_by ltac:(apply map_err_run, Hcons). run_by ltac:(reflexivity). run_by ltac:(reflexivity). unfold g2, set_joins. reflexivity.
Qed.

(** C22: Enrollment completes.  Take a registry that has the invariant of C20, and a
    request with a well-formed join token whose hash is stored, unused and not expired,
    and with a valid WireGuard public key that no other node has; let the node named by
    the token be stored, readable, not removed and with a WireGuard address, the labels
    of the token encodable, the clock in the range of stored times, the random source
    yield at least one byte, the hash of the new agent token be fresh, and no driver call
    fail.  Then JoinNode answers for this node; the node is active afterwards; and the
    agent token in the answer is admitted, as the agent of this node, to both agent
    methods. *)
Theorem enrollment_completes req now hash jrow token row node labels idRaw bytes agentHash g k :
  reg_inv g -> valid_token req now hash jrow token g -> ValidatePublicKey (TrimSpace (jn_PublicKey req)) = Ok tt -> ready token req row node labels g ->
  stored_range now -> bytes <> [] ->
  HashToken hashKey (AgentTokenPrefix +:+ "_" +:+ RawURL_EncodeToString bytes) = Ok agentHash -> g_agents g !! agentHash = None ->
  exists response w', JoinNode hashKey network req now idRaw (Some bytes) (MkNodes g [] k : nodes_world K) = (Ok response, w') /\
    jnr_NodeID response = nd_id row /\ phase_of (n_reg w') (nd_id row) = Active /\
    forall authorization method later, bearerToken authorization = Ok (jnr_AgentToken response) -> isAgentOnlyMethod method = true ->
      exists c w'', authenticate hashKey authorization method later w' = (Ok c, w'') /\ Caller_Kind c = CallerAgent /\ Caller_NodeID c = nd_id row.
Proof.
  intros Hi Hvalid Hkey Hready Hnow Hb Ha Hfresh.
  destruct (join_run req now hash jrow token row node labels idRaw bytes agentHash g k Hi Hvalid Hkey Hready Ha Hfresh) as (joins & k' & Hrun).
  do 2 eexists. split; [exact Hrun|]. split; [done|]. split; [unfold phase_of; cbn [n_reg g_nodes]; by rewrite lookup_insert_eq|].
  intros authorization method later Hbearer Hm. exists (MkCaller CallerAgent (nd_id row) (opaqueTokenID agentHash)).
  edestruct (authenticate_admits (K := K) hashKey authorization method later) as [w'' Hauth]; [|exists w''; split; [exact Hauth|done]].
  set (stored := TokenRow agentHash (nd_id row) (formatTime now) None None).
  exists (AgentTokenPrefix +:+ "_" +:+ RawURL_EncodeToString bytes), agentHash, stored, (MkBearerToken agentHash (nd_id row) now None None).
  split; [done|]. split; [done|]. split; [done|]. split.
  { unfold scanToken, stored. cbn [tk_created]. by rewrite parseStoredTime_formatTime. }
  split; [done|]. cbn [Caller_Kind]. split; [apply knownPrefix_Prefix; [by right; right; left|by destruct bytes as [|? [|? [|? ?]]]]|].
  split; [done|]. cbn [g_agents]. by rewrite lookup_insert_eq.
Qed.
End enrollment.
