(* ===== verification/NodeRun.v ===== *)
(** * Concrete runs of the node service

    A first administrator, a join token, an enrollment, a heartbeat and a removal;
    they instantiate the theorems on nodes. *)

From S2P Require Import Prelude GoStrings Regexp Sha256 GoJson GoTime GoNet Wireguard Appconfig AppconfigSpec Db DbRepos Security CandidateRequests NodeRegistry NodeService NodeLogic NodeProps NodeAuth.
From Stdlib Require Import Ascii String.
Local Open Scope Z_scope.

(** Conjunctions of evaluations. *)
Ltac by_run := repeat match goal with |- _ /\ _ => split; [vm_compute; reflexivity|] end; vm_compute; reflexivity.

Section run.
#[local] Existing Instance forward_env.

(** A cluster that accepts everything and records events. *)
#[local] Instance willing_runtime : NodeRuntime (list string) := {|
  nr_NodeReadiness := fun _ k => (Ok ("ready", "", true), k);
  nr_DrainNode := fun _ k => (Ok tt, k);
  nr_UncordonNode := fun _ k => (Ok tt, k);
  nr_RemoveNode := fun _ k => (Ok tt, k);
  nr_ValidateNodeRemoval := fun _ k => (Ok tt, k);
  nr_SyncNodeLabels := fun _ k => (Ok tt, k);
  nr_SyncPeers := fun _ k => (Ok tt, k);
  nr_WorkerJoinMaterial := fun k => (Ok ("https://10.8.0.1:6443", "k3s-token"), k);
  nr_Record := fun type _ _ _ k => (k ++ [type])%list |}.

Definition key : list Z := repeat 7 32.
Definition hub : WorkerNetworkConfig := MkNetwork "" "10.8.0.1" "" "".
Definition noon : Z := 63835596000 * second.

Definition serve_demo := serve (K := list string) key hub (300 * second).

Definition token_of (prefix : string) (b : Z) : string := prefix +:+ "_" +:+ RawURL_EncodeToString (repeat b 32).
Definition bearer (token : string) : list string := ["Bearer " +:+ token].
Definition draw (t b : Z) : draws := MkDraws (noon + t * second) (Some (repeat b 32)) (Some (repeat b 16)).

Definition pubkey : string := "AQEBAQEBAQEBAQEBAQEBAQEBAQEBAQEBAQEBAQEBAQE=".

Definition administrator : list string := bearer (token_of AdminTokenPrefix 1).
Definition agent : list string := bearer (token_of AgentTokenPrefix 3).
Definition join_request : JoinNodeRequest := MkJoinNode (token_of JoinTokenPrefix 2) pubkey "edge-1" "arm64".
Definition beat : HeartbeatRequest := MkHeartbeat "" "edge-1" "arm64" "linux" "6.1" "connected".
Definition edge_id : string := "node_" +:+ RawURL_EncodeToString (repeat 2 16).

(** The requests, each with its token and its time. *)
Definition script : list (list string * node_request * draws) :=
  [ (administrator, RCreateJoinToken (MkCreateJoinToken "edge-1" {["zone" := "a"]} 0), draw 10 2);
    ([], RJoinNode join_request, draw 20 3);
    (agent, RHeartbeatNode beat, draw 30 4) ].

Definition empty_world : nodes_world (list string) := MkNodes (MkRegistry ∅ ∅ ∅ ∅) [] [].
Definition founded : nodes_world (list string) := (BootstrapAdminToken key "" noon (Some (repeat 1 32)) empty_world).2.

Fixpoint play (s : list (list string * node_request * draws)) (w : nodes_world (list string)) : list (result unit) * nodes_world (list string) :=
  match s with
  | [] => ([], w)
  | (a, q, d) :: s' => let '(r, w1) := serve_demo a q d w in let '(rs, w2) := play s' w1 in (r :: rs, w2)
  end.

Definition enrolled : nodes_world (list string) := (play script founded).2.
Definition removed : nodes_world (list string) := (serve_demo administrator (RRemoveNode "edge-1") (draw 40 5) enrolled).2.

(** ** These registries are reachable *)

Notation step := (node_step (K := list string) key hub (300 * second)).
Notation reached := (node_reachable (K := list string) key hub (300 * second)).

Lemma serve_step a q d w : step (n_reg w) (n_reg (serve_demo a q d w).2).
Proof. eapply step_serve; [reflexivity|apply surjective_pairing|reflexivity]. Qed.

Lemma founded_reached : reached (n_reg founded).
Proof. apply rtc_once. eapply step_bootstrap; [|apply surjective_pairing|reflexivity]. done. Qed.

Lemma play_reached s w : reached (n_reg w) -> reached (n_reg (play s w).2).
Proof.
  revert w. induction s as [|[[a q] d] s IH]; intros w Hw; cbn [play]; [done|]. pose proof (serve_step a q d w) as Hs.
  destruct (serve_demo a q d w) as [r w1]. cbn in Hs. specialize (IH w1 (rtc_r _ _ _ Hw Hs)). by destruct (play s w1).
Qed.

Lemma enrolled_reached : reached (n_reg enrolled).
Proof. apply play_reached, founded_reached. Qed.

Lemma enrolled_inv : reg_inv (n_reg enrolled).
Proof. exact (node_reachable_inv _ _ _ _ enrolled_reached). Qed.

Lemma removed_inv : reg_inv (n_reg removed).
Proof. exact (node_reachable_inv _ _ _ _ (rtc_r _ _ _ enrolled_reached (serve_step _ _ _ _))). Qed.

(** Every request was answered, and the node is removed at the end. *)
Lemma script_answered : (play script founded).1 = [Ok tt; Ok tt; Ok tt] /\ n_k removed = ["node.joined"; "node.online"; "node.removed"].
Proof. split; vm_compute; reflexivity. Qed.

Lemma registry_intact_witness : reached (n_reg enrolled) /\ step (n_reg enrolled) (n_reg removed) /\ reg_inv (n_reg removed).
Proof.
  split; [exact enrolled_reached|]. split; [exact (serve_step _ _ _ _)|].
  exact (proj1 (registry_intact key hub (300 * second) (n_reg enrolled) (n_reg removed) enrolled_reached (serve_step _ _ _ _))).
Defined.

Lemma edge_phases : phase_of (n_reg founded) edge_id = Absent /\ phase_of (n_reg enrolled) edge_id = Active /\ phase_of (n_reg removed) edge_id = Removed.
Proof. by_run. Qed.

Lemma node_lifecycle_witness : rtc advance (phase_of (n_reg enrolled) edge_id) (phase_of (n_reg removed) edge_id) /\
  phase_of (n_reg enrolled) edge_id = Active /\ phase_of (n_reg removed) edge_id = Removed.
Proof.
  destruct edge_phases as (_ & He & Hr). split; [|split; [exact He|exact Hr]].
  destruct (node_lifecycle key hub (300 * second) (n_reg enrolled) (n_reg removed) enrolled_reached (serve_step _ _ _ _) edge_id) as [Ha|Hp]; [exact Ha|].
  rewrite He, Hr in Hp. inversion Hp.
Defined.

(** ** A removed node *)

Lemma removed_facts : exists row hash t, g_nodes (n_reg removed) !! edge_id = Some row /\ is_removed row /\
  bearerToken agent = Ok (token_of AgentTokenPrefix 3) /\ Prefix (token_of AgentTokenPrefix 3) = Ok AgentTokenPrefix /\
  HashToken key (token_of AgentTokenPrefix 3) = Ok hash /\ g_agents (n_reg removed) !! hash = Some t /\ tk_owner t = edge_id.
Proof. do 3 eexists. by_run. Qed.

Lemma removed_locked_out_witness : exists e, (serve_demo agent (RHeartbeatNode beat) (draw 50 6) removed).1 = Err e.
Proof.
  destruct removed_facts as (row & hash & t & Hrow & Hrm & Hb & Hp & Hh & Ht & Ho).
  refine (proj1 (removed_locked_out key hub (300 * second) edge_id row removed _ _ (RHeartbeatNode beat) (draw 50 6) removed_inv Hrow Hrm (or_introl _))).
  exists agent, (token_of AgentTokenPrefix 3), hash, t. repeat (split; [assumption|]). split; [reflexivity|]. exact (surjective_pairing _).
Defined.

(** ** A spent join token *)

Lemma spent_facts : exists hash row token, HashToken key (TrimSpace (jn_JoinToken join_request)) = Ok hash /\ g_joins (n_reg enrolled) !! hash = Some row /\
  scanJoinToken row = Ok token /\ JT_UsedAt token = Some (noon + 20 * second).
Proof. do 3 eexists. by_run. Qed.

Definition join_again (w : nodes_world (list string)) :=
  JoinNode key hub join_request (noon + 60 * second) (Some (repeat 8 16)) (Some (repeat 9 32)) w.

Lemma join_token_once_witness : exists hash row token, HashToken key (TrimSpace (jn_JoinToken join_request)) = Ok hash /\ g_joins (n_reg enrolled) !! hash = Some row /\
  scanJoinToken row = Ok token /\ forall r w', join_again enrolled = (r, w') -> exists e, r = Err e.
Proof.
  destruct spent_facts as (hash & row & token & Hh & Hrow & Hs & Hu). exists hash, row, token. split; [exact Hh|]. split; [exact Hrow|]. split; [exact Hs|].
  intros r w' Hm. unfold join_again in Hm.
  destruct (join_token_once key hub join_request (noon + 60 * second) (Some (repeat 8 16)) (Some (repeat 9 32)) hash row token enrolled r w'
              enrolled_inv Hh Hrow Hs Hm) as [_ Hspent].
  refine (proj1 (Hspent (or_introl _))). rewrite Hu. discriminate.
Defined.

(** ** Callers *)

Lemma answer_run {A} (m : ST (nodes_world (list string)) A) w a : (m w).1 = Ok a -> exists w', m w = (Ok a, w').
Proof. destruct (m w) as [r w']. cbn. intros ->. by exists w'. Qed.

Lemma agent_facts : exists c, (authenticate (K := list string) key agent (node_method RGetWorkerBootstrap) noon enrolled).1 = Ok c /\
  Caller_Kind c = CallerAgent /\ Caller_NodeID c = edge_id.
Proof. eexists. by_run. Qed.

Lemma authenticate_exact_witness : exists c, admitted key agent (node_method RGetWorkerBootstrap) (n_reg enrolled) c /\ live edge_id (n_reg enrolled).
Proof.
  destruct agent_facts as (c & (w' & Ha)%answer_run & Hk & Hid). exists c.
  destruct (authenticate_exact key agent (node_method RGetWorkerBootstrap) noon enrolled enrolled_inv) as [Hsound _].
  destruct (Hsound c w' Ha) as [Hadm Hlive]. split; [exact Hadm|]. rewrite <- Hid. exact (Hlive Hk).
Defined.

(** ** A heartbeat across a removal *)

Definition edge_caller : Caller := MkCaller CallerAgent edge_id "".

Lemma race_facts : exists previous status row, (admitHeartbeat (Some edge_caller) beat enrolled).1 = Ok (previous, status) /\
  g_nodes (n_reg removed) !! Caller_NodeID edge_caller = Some row /\ is_removed row.
Proof. do 3 eexists. by_run. Qed.

Lemma heartbeat_race_witness : exists previous status r w2 row',
  applyHeartbeat (K := list string) edge_id beat previous status (noon + 60 * second) (MkNodes (n_reg removed) [] []) = (r, w2) /\
  g_nodes (n_reg w2) !! edge_id = Some row' /\ ~ is_removed row'.
Proof.
  destruct race_facts as (previous & status & row & (w1 & Ha)%answer_run & Hrow & Hrm).
  destruct (heartbeat_race edge_caller beat (noon + 60 * second) enrolled w1 previous status (n_reg removed) [] row enrolled_inv Ha removed_inv Hrow Hrm)
    as (r & w2 & row' & Hrun & Hr' & _ & Hx).
  exists previous, status, r, w2, row'. split; [exact Hrun|]. split; [exact Hr'|exact Hx].
Defined.

(** ** An enrollment *)

Definition invited : nodes_world (list string) := (play (List.firstn 1 script) founded).2.

Lemma invited_inv : reg_inv (n_reg invited).
Proof. exact (node_reachable_inv _ _ _ _ (play_reached _ _ founded_reached)). Qed.

Lemma invited_alone : exists_row (fun o => negb (String.eqb (nd_id o) edge_id)) (g_nodes (n_reg invited)) = false.
Proof. vm_compute. reflexivity. Qed.

Lemma invited_facts : exists hash jrow token row node labels agentHash,
  is_ok (Prefix (TrimSpace (jn_JoinToken join_request))) = true /\ HashToken key (TrimSpace (jn_JoinToken join_request)) = Ok hash /\
  g_joins (n_reg invited) !! hash = Some jrow /\ scanJoinToken jrow = Ok token /\ JT_UsedAt token = None /\ (noon + 20 * second <? JT_ExpiresAt token) = true /\
  g_nodes (n_reg invited) !! edge_id = Some row /\ scanNode row = Ok node /\ nd_id row = edge_id /\ nd_status row = nodeStatusPending /\ nd_ip row = "10.8.0.2" /\
  TrimSpace (JT_IntendedNodeName token) = nd_name row /\ String.eqb (nd_name row) "" = false /\
  (let l := unmarshalLabels (JT_LabelsJSON token) in marshalLabels (if String.eqb (jn_Arch join_request) "" then l else <["arch" := jn_Arch join_request]> l)) = Ok labels /\
  HashToken key (AgentTokenPrefix +:+ "_" +:+ RawURL_EncodeToString (repeat 3 32)) = Ok agentHash /\ g_agents (n_reg invited) !! agentHash = None.
Proof. do 7 eexists. by_run. Qed.

Lemma enrollment_completes_witness : exists response w',
  JoinNode key hub join_request (noon + 20 * second) None (Some (repeat 3 32)) (MkNodes (n_reg invited) [] []) = (Ok response, w') /\
  phase_of (n_reg w') edge_id = Active.
Proof.
  destruct invited_facts as (hash & jrow & token & row & node & labels & agentHash & Hp & Hh & Hj & Ht & Hu & Hx & Hr & Hn & Hid & Hst & Hip & Hname & Hne & Hl & Ha & Hf).
  assert (Hvalid : valid_token key join_request (noon + 20 * second) hash jrow token (n_reg invited)).
  { constructor; [exact Hp|exact Hh|exact Hj|exact Ht|exact Hu|]. apply Z.ltb_lt, Hx. }
  assert (Hready : ready token join_request row node labels (n_reg invited)).
  { constructor; [exact Hname| |rewrite Hid; exact Hr|exact Hn| |rewrite Hip; discriminate|exact Hl|].
    - apply String.eqb_neq, Hne.
    - unfold is_removed. rewrite Hst. discriminate.
    - intros k o Ho Hk. exfalso. pose proof (proj1 (exists_row_false _ _) invited_alone k o Ho) as Hall. cbn beta in Hall.
      apply negb_false_iff, String.eqb_eq in Hall. rewrite (ri_key _ invited_inv _ _ Ho), <- Hid in Hall. exact (Hk Hall). }
  destruct (enrollment_completes key hub join_request (noon + 20 * second) hash jrow token row node labels None (repeat 3 32) agentHash (n_reg invited) []
              invited_inv Hvalid eq_refl Hready) as (response & w' & Hrun & _ & Hphase & _); [| |exact Ha|exact Hf|].
  - unfold stored_range. split; vm_compute; congruence.
  - discriminate.
  - exists response, w'. rewrite <- Hid. split; [exact Hrun|exact Hphase].
Defined.

(** ** A join across a removal

    The statements of [retireIdentity] are separate too.  A pending node joins after
    RemoveNode has revoked its tokens and cleared its key, and before RemoveNode sets the
    status: both requests are answered, and the removed node keeps its key and an agent
    token that is not revoked. *)
Definition join_within_removal : ST (nodes_world (list string)) unit :=
  _ ← AgentTokenRepository_RevokeByNodeID edge_id (noon + 20 * second);
  _ ← NodeRepository_SetWireGuard edge_id "10.8.0.2" "" (noon + 20 * second);
  _ ← JoinNode key hub join_request (noon + 20 * second) None (Some (repeat 3 32));
  NodeRepository_UpdateStatus edge_id nodeStatusRemoved (noon + 20 * second).

Example join_race : exists w row hash token, join_within_removal invited = (Ok tt, w) /\ g_nodes (n_reg w) !! edge_id = Some row /\ is_removed row /\
  nd_key row <> "" /\ g_agents (n_reg w) !! hash = Some token /\ tk_owner token = edge_id /\ tk_revoked token = None.
Proof.
  destruct invited_facts as (_ & _ & _ & _ & _ & _ & hash & _ & _ & _ & _ & _ & _ & _ & _ & _ & _ & _ & _ & _ & _ & Ha & _).
  assert (Hr : exists row token, (join_within_removal invited).1 = Ok tt /\ g_nodes (n_reg (join_within_removal invited).2) !! edge_id = Some row /\
    nd_status row = nodeStatusRemoved /\ String.eqb (nd_key row) "" = false /\
    match HashToken key (AgentTokenPrefix +:+ "_" +:+ RawURL_EncodeToString (repeat 3 32)) with
    | Ok h => g_agents (n_reg (join_within_removal invited).2) !! h | Err _ => None end = Some token /\
    tk_owner token = edge_id /\ tk_revoked token = None) by (do 2 eexists; by_run).
  destruct Hr as (row & token & Hok & Hrow & Hst & Hkey & Ht & Ho & Hl). destruct (answer_run _ _ _ Hok) as [w Hw]. rewrite Hw in Hrow, Ht. rewrite Ha in Ht.
  exists w, row, hash, token. split; [exact Hw|]. split; [exact Hrow|]. split; [exact Hst|]. split; [apply String.eqb_neq, Hkey|]. exact (conj Ht (conj Ho Hl)).
Qed.
End run.
