(* ===== verification/Events.v ===== *)
(** * Events (internal/server/event.go, internal/db/event_repository.go)

    The table of events, recording, listing, watching and retention.  Other
    requests use the table between any two statements of a watch: what they do to
    it, the stream and the lookups of apps and nodes are an interface. *)

From S2P Require Import Prelude GoStrings Regexp GoJson GoTime Db DbRepos Security CandidateRequests.
From Stdlib Require Import Ascii String.
Local Open Scope Z_scope.

(** ** The table *)

Record event_row := EventRow {
  ev_id : string; ev_created : string; ev_type : string; ev_severity : string; ev_message : string; ev_app : option string;
  ev_node : option string; ev_deployment : option string; ev_metadata : string }.

Notation event_table := (gmap string event_row).

(** [domain.Event], [domain.EventCursor], [domain.EventFilter] *)
Record Event := MkEvent {
  Event_ID : string; Event_CreatedAt : Z; Event_Type : string; Event_Severity : string; Event_Message : string; Event_AppID : string;
  Event_NodeID : string; Event_DeploymentID : string; Event_MetadataJSON : string }.
Record EventCursor := MkCursor { Cursor_CreatedAt : Z; Cursor_ID : string }.
Record EventFilter := MkFilter {
  Filter_AppID : string; Filter_NodeID : string; Filter_Type : string; Filter_Severity : string; Filter_Since : option Z;
  Filter_After : option EventCursor; Filter_OldestFirst : bool; Filter_Limit : Z }.

(** [ORDER BY created_at, id], by bytes. *)
Definition key_compare (a b : string * string) : comparison :=
  match String.compare a.1 b.1 with Eq => String.compare a.2 b.2 | c => c end.
Definition key_leb (a b : string * string) : bool := match key_compare a b with Gt => false | _ => true end.
Definition key_ltb (a b : string * string) : bool := match key_compare a b with Lt => true | _ => false end.
Definition event_key (r : event_row) : string * string := (ev_created r, ev_id r).
Definition earlier (a b : event_row) : Prop := key_leb (event_key a) (event_key b) = true.
#[export] Instance earlier_dec a b : Decision (earlier a b).
Proof. unfold earlier. apply _. Defined.
Definition chronological (l : list event_row) : list event_row := merge_sort earlier l.

(** The [WHERE] clause of [List]; a comparison with NULL is not true. *)
Definition matches (f : EventFilter) (r : event_row) : bool :=
  (String.eqb (Filter_AppID f) "" || bool_decide (ev_app r = Some (Filter_AppID f))) &&
  (String.eqb (Filter_NodeID f) "" || bool_decide (ev_node r = Some (Filter_NodeID f))) &&
  (String.eqb (Filter_Type f) "" || String.eqb (ev_type r) (Filter_Type f)) &&
  (String.eqb (Filter_Severity f) "" || String.eqb (ev_severity r) (Filter_Severity f)) &&
  match Filter_Since f with None => true | Some t => String.leb (formatEventTime t) (ev_created r) end &&
  match Filter_After f with
  | None => true
  | Some c => let at_ := formatEventTime (Cursor_CreatedAt c) in
              String.ltb at_ (ev_created r) || (String.eqb (ev_created r) at_ && String.ltb (Cursor_ID c) (ev_id r))
  end.

Definition defaultEventListLimit : Z := 100.
Definition maxEventListLimit : Z := 1000.
Definition list_limit (limit : Z) : Z :=
  let limit := if limit <=? 0 then defaultEventListLimit else limit in
  if maxEventListLimit <? limit then maxEventListLimit else limit.

Definition select_events (f : EventFilter) (t : event_table) : list event_row :=
  let sorted := chronological (filter (fun r => matches f r = true) (rows t)) in
  take (Z.to_nat (list_limit (Filter_Limit f))) (if Filter_OldestFirst f then sorted else rev sorted).

Definition insert_event (r : event_row) (t : event_table) : result (event_table * Z) :=
  _ ← check (bool_decide (is_Some (t !! ev_id r))) (ErrConstraint "events.id");
  Ok (<[ev_id r := r]> t, 1).

(** [DELETE FROM events WHERE created_at < ?] *)
Definition delete_before (cutoff : string) (t : event_table) : event_table :=
  filter (fun kv => String.ltb (ev_created kv.2) cutoff = false) t.

(** [DELETE FROM events WHERE id IN (SELECT id FROM events ORDER BY created_at DESC, id DESC LIMIT -1 OFFSET ?)] *)
Definition delete_beyond (n : Z) (t : event_table) : event_table :=
  filter (fun kv => kv.1 ∉ (ev_id <$> drop (Z.to_nat n) (rev (chronological (rows t))))) t.

Definition deleted_count (t t' : event_table) : Z := Z.of_nat (size t) - Z.of_nat (size t').

Definition scanEvent (r : event_row) : result Event :=
  created ← parseStoredTime "created_at" (ev_created r);
  Ok (MkEvent (ev_id r) created (ev_type r) (ev_severity r) (ev_message r) (parseOptionalString (ev_app r)) (parseOptionalString (ev_node r))
        (parseOptionalString (ev_deployment r)) (ev_metadata r)).

(** [deployerv1.Event] *)
Record PbEvent := MkPbEvent {
  pe_Id : string; pe_CreatedAt : string; pe_Type : string; pe_Severity : string; pe_Message : string; pe_AppId : string; pe_NodeId : string;
  pe_DeploymentId : string; pe_MetadataJson : string }.

Definition protoEvent (e : Event) : PbEvent :=
  MkPbEvent (Event_ID e) (formatProtoTime (Event_CreatedAt e)) (Event_Type e) (Event_Severity e) (Event_Message e) (Event_AppID e) (Event_NodeID e)
    (Event_DeploymentID e) (Event_MetadataJSON e).

(** ** The repository *)

(** The table, what the driver will do, what the stream has accepted, and the rest
    of the process. *)
Record events_world (K : Type) := MkEvents { e_rows : event_table; e_faults : list fault; e_sent : list Event; e_k : K }.
Arguments MkEvents {K}.
Arguments e_rows {K}.
Arguments e_faults {K}.
Arguments e_sent {K}.
Arguments e_k {K}.

Class EventEnv (K : Type) := {
  ee_Others : event_table -> K -> event_table * K;
  ee_Send : PbEvent -> K -> result unit * K;
  ee_AppByName : string -> K -> result string * K;
  ee_AppByID : string -> K -> result string * K;
  ee_NodeByName : string -> K -> result string * K;
  ee_NodeByID : string -> K -> result string * K
}.

Section events.
Context {K : Type} `{!EventEnv K}.
Notation E := (ST (events_world K)).

(** A statement runs after whatever the others did. *)
Definition ev_exec (f : event_table -> result (event_table * Z)) : E Z := fun w =>
  let '(o, fs) := next_fault (e_faults w) in
  let '(t, k) := ee_Others (e_rows w) (e_k w) in
  match o, f t with
  | Failed, _ => (Err ErrDriver, MkEvents t fs (e_sent w) k)
  | Fine, Ok (t', n) => (Ok n, MkEvents t' fs (e_sent w) k)
  | Fine, Err e => (Err e, MkEvents t fs (e_sent w) k)
  | Ambiguous, Ok (t', _) => (Err ErrDriver, MkEvents t' fs (e_sent w) k)
  | Ambiguous, Err _ => (Err ErrDriver, MkEvents t fs (e_sent w) k)
  end.

Definition ev_query {A} (f : event_table -> A) : E A := fun w =>
  let '(o, fs) := next_fault (e_faults w) in
  let '(t, k) := ee_Others (e_rows w) (e_k w) in
  match o with
  | Fine => (Ok (f t), MkEvents t fs (e_sent w) k)
  | _ => (Err ErrDriver, MkEvents t fs (e_sent w) k)
  end.

Definition ev_call {A} (f : K -> result A * K) : E A := fun w =>
  let '(r, k) := f (e_k w) in (r, MkEvents (e_rows w) (e_faults w) (e_sent w) k).

Definition EventRepository_Create (e : Event) : E unit :=
  let metadata := if String.eqb (Event_MetadataJSON e) "" then "{}" else Event_MetadataJSON e in
  _ ← ev_exec (insert_event (EventRow (Event_ID e) (formatEventTime (Event_CreatedAt e)) (Event_Type e) (Event_Severity e) (Event_Message e)
        (optionalString (Event_AppID e)) (optionalString (Event_NodeID e)) (optionalString (Event_DeploymentID e)) metadata));
  mret tt.

Definition EventRepository_List (f : EventFilter) : E (list Event) :=
  rows ← ev_query (select_events f);
  lift (scan_all scanEvent rows).

Definition EventRepository_PruneBefore (cutoff : Z) : E Z :=
  ev_exec (fun t => let t' := delete_before (formatEventTime cutoff) t in Ok (t', deleted_count t t')).

Definition EventRepository_PruneToLimit (maxCount : Z) : E Z :=
  if maxCount <? 1 then mret 0
  else ev_exec (fun t => let t' := delete_beyond maxCount t in Ok (t', deleted_count t t')).

(** ** Recording *)

(** A word is [[a-z][a-z0-9]*]; a type is two words or more with dots between. *)
Definition event_word : regex := RSeq (cls [(97, 122)]) (RStar (cls lower_alnum)).
Definition eventTypePattern : regex :=
  let more := RSeq (cls [(46, 46)]) event_word in RSeq event_word (RSeq more (RStar more)).

Definition known_severity (s : string) : bool := existsb (String.eqb s) ["info"; "warning"; "error"].

Definition validateEvent (e : Event) : result unit :=
  _ ← check (negb (re_match eventTypePattern (Event_Type e))) (Errorf "invalid event type %q" [AStr (Event_Type e)]);
  _ ← check (negb (known_severity (Event_Severity e))) (Errorf "invalid event severity %q" [AStr (Event_Severity e)]);
  _ ← check (blank (Event_Message e)) (ErrSentinel "event message is required");
  check (negb (String.eqb (Event_MetadataJSON e) "") && negb (json_Valid (Event_MetadataJSON e))) (ErrSentinel "event metadata_json must be valid JSON").

Definition Record_ (now : Z) (idRaw : option (list Z)) (e : Event) : E unit :=
  _ ← lift (validateEvent e);
  id ← (if String.eqb (Event_ID e) "" then lift (newID "event" idRaw) else mret (Event_ID e));
  let created := if IsZero (Event_CreatedAt e) then now else Event_CreatedAt e in
  let metadata := if String.eqb (Event_MetadataJSON e) "" then "{}" else Event_MetadataJSON e in
  EventRepository_Create (MkEvent id created (Event_Type e) (Event_Severity e) (Event_Message e) (Event_AppID e) (Event_NodeID e)
    (Event_DeploymentID e) metadata).

(** ** The service *)

Record EventQuery := MkEventQuery {
  eq_App : string; eq_Node : string; eq_Type : string; eq_Severity : string; eq_Since : string }.

(** An app or a node by its name, or else by its identity. *)
Definition find_ref (byName byID : string -> K -> result string * K) (missing failed ref : string) : E string :=
  if String.eqb ref "" then mret ""
  else
    found ← attempt (ev_call (byName ref));
    found ← (match found with
             | Err e => if errors_Is e ErrNotFound then attempt (ev_call (byID ref)) else mret found
             | Ok _ => mret found
             end);
    lift (match found with
          | Ok id => Ok id
          | Err e => Err (if errors_Is e ErrNotFound then ErrStatus NotFound missing else internal failed)
          end).

Definition EventService_filter (q : EventQuery) (limit : Z) : E EventFilter :=
  appID ← find_ref ee_AppByName ee_AppByID "app not found" "get event app" (TrimSpace (eq_App q));
  nodeID ← find_ref ee_NodeByName ee_NodeByID "node not found" "get event node" (TrimSpace (eq_Node q));
  let eventType := TrimSpace (eq_Type q) in
  _ ← guard (negb (String.eqb eventType "") && negb (re_match eventTypePattern eventType))
        (ErrStatus InvalidArgument "event type must be a dot-separated name");
  let severity := TrimSpace (eq_Severity q) in
  _ ← guard (negb (String.eqb severity "") && negb (known_severity severity))
        (ErrStatus InvalidArgument "severity must be one of info, warning, error");
  let since := TrimSpace (eq_Since q) in
  parsed ← lift (if String.eqb since "" then Ok None
                 else match parse_rfc3339 since with
                      | Some t => Ok (Some t)
                      | None => Err (ErrStatus InvalidArgument "since must be an RFC3339 timestamp")
                      end);
  mret (MkFilter appID nodeID eventType severity parsed None false limit).

Definition ListEvents (caller : option CallerKind) (q : EventQuery) (limit : Z) : E (list PbEvent) :=
  _ ← lift (requireCaller caller CallerAdmin);
  f ← EventService_filter q limit;
  events ← map_err (fun _ => internal "list events") (EventRepository_List f);
  mret (protoEvent <$> events).

(** ** Watching *)

Definition eventWatchBatchSize : Z := 1000.

(** [stream.Send]; what the stream accepted is kept. *)
Definition Send (e : Event) : E unit := fun w =>
  let '(r, k) := ee_Send (protoEvent e) (e_k w) in
  (r, MkEvents (e_rows w) (e_faults w) (match r with Ok _ => e_sent w ++ [e] | Err _ => e_sent w end) k).

Definition with_after (c : EventCursor) (f : EventFilter) : EventFilter :=
  MkFilter (Filter_AppID f) (Filter_NodeID f) (Filter_Type f) (Filter_Severity f) (Filter_Since f) (Some c) (Filter_OldestFirst f) (Filter_Limit f).

Fixpoint sendPage (events : list Event) (f : EventFilter) : E EventFilter :=
  match events with
  | [] => mret f
  | e :: rest => _ ← Send e; sendPage rest (with_after (MkCursor (Event_CreatedAt e) (Event_ID e)) f)
  end.

(** The loop of [sendNew]; the error of exhausted fuel is no error of the program. *)
Definition out_of_fuel : error := ErrSentinel "fuel".

Fixpoint sendNew (fuel : nat) (f : EventFilter) : E EventFilter :=
  match fuel with
  | O => throw out_of_fuel
  | S fuel' =>
      events ← map_err (fun _ => internal "watch events") (EventRepository_List f);
      f' ← sendPage events f;
      if Z.of_nat (List.length events) <? eventWatchBatchSize then mret f' else sendNew fuel' f'
  end.

(** [ticks]: how often the ticker fires before the context ends. *)
Fixpoint watchTicks (fuel ticks : nat) (f : EventFilter) : E unit :=
  match ticks with
  | O => throw ErrContext
  | S ticks' => f' ← sendNew fuel f; watchTicks fuel ticks' f'
  end.

Definition WatchEvents (fuel ticks : nat) (caller : option CallerKind) (q : EventQuery) (now : Z) : E unit :=
  _ ← lift (requireCaller caller CallerAdmin);
  f ← EventService_filter q eventWatchBatchSize;
  let since := match Filter_Since f with None => Some now | s => s end in
  let f := MkFilter (Filter_AppID f) (Filter_NodeID f) (Filter_Type f) (Filter_Severity f) since (Filter_After f) true (Filter_Limit f) in
  f' ← sendNew fuel f;
  watchTicks fuel ticks f'.

(** ** Retention *)

(** [time.Now().Add(-maxAge)] *)
Definition prune (now maxAge maxCount : Z) : E unit :=
  _ ← attempt (EventRepository_PruneBefore (now - maxAge));
  _ ← attempt (EventRepository_PruneToLimit maxCount);
  mret tt.
End events.
