(* ===== verification/EventProps.v ===== *)
(** * Properties of events

    Stored events are well formed; a watch sends every event that matches once, in
    the order of time, and its loop ends; retention keeps the newest events. *)

From S2P Require Import Prelude GoStrings Regexp GoJson GoTime Db DbRepos Security CandidateRequests Events.
From Stdlib Require Import Ascii String.
Local Open Scope Z_scope.

(** ** The order of keys *)

Lemma compare_refl s : String.compare s s = Eq.
Proof. induction s as [|a s IH]; [done|]. by rewrite compare_byte, Z.compare_refl. Qed.

Lemma compare_eq s t : String.compare s t = Eq <-> s = t.
Proof. split; [apply String.compare_eq_iff|intros ->; apply compare_refl]. Qed.

Lemma compare_lt_trans s t u : String.compare s t = Lt -> String.compare t u = Lt -> String.compare s u = Lt.
Proof.
  revert t u. induction s as [|a s IH]; intros [|b t] [|c u]; try done. rewrite !compare_byte.
  destruct (Z.compare_spec (b2z a) (b2z b)) as [E1|L1|G1], (Z.compare_spec (b2z b) (b2z c)) as [E2|L2|G2]; try done; intros H1 H2.
  - rewrite E1, E2, Z.compare_refl. by eapply IH.
  - by rewrite (proj2 (Z.compare_lt_iff _ _)) by lia.
  - by rewrite (proj2 (Z.compare_lt_iff _ _)) by lia.
  - by rewrite (proj2 (Z.compare_lt_iff _ _)) by lia.
Qed.

Lemma compare_gt s t : String.compare s t = Gt <-> String.compare t s = Lt.
Proof. rewrite (String.compare_antisym s t). destruct (String.compare t s); done. Qed.

Lemma ltb_compare s t : String.ltb s t = true <-> String.compare s t = Lt.
Proof. unfold String.ltb. destruct (String.compare s t); done. Qed.

Definition key_lt (a b : string * string) : Prop := key_compare a b = Lt.

Lemma key_lt_cases a b : key_lt a b <-> String.compare a.1 b.1 = Lt \/ (a.1 = b.1 /\ String.compare a.2 b.2 = Lt).
Proof.
  unfold key_lt, key_compare. destruct (String.compare a.1 b.1) eqn:E.
  - apply compare_eq in E. naive_solver.
  - naive_solver.
  - split; [done|]. intros [?|[E' _]]; [done|]. by rewrite E', compare_refl in E.
Qed.

Lemma key_lt_trans a b c : key_lt a b -> key_lt b c -> key_lt a c.
Proof.
  rewrite !key_lt_cases. intros [H1|[E1 H1]] [H2|[E2 H2]]; [left; by eapply compare_lt_trans|left; by rewrite <- E2|left; by rewrite E1|right].
  split; [congruence|by eapply compare_lt_trans].
Qed.

Lemma key_lt_irrefl a : ~ key_lt a a.
Proof. rewrite key_lt_cases, !compare_refl. naive_solver. Qed.

Lemma key_trichotomy a b : key_lt a b \/ a = b \/ key_lt b a.
Proof.
  destruct a as [a1 a2], b as [b1 b2]. unfold key_lt, key_compare. cbn.
  destruct (String.compare a1 b1) eqn:E1; [|by left|right; right; by apply compare_gt in E1 as ->].
  apply compare_eq in E1 as ->. rewrite compare_refl. destruct (String.compare a2 b2) eqn:E2; [|by left|].
  - apply compare_eq in E2 as ->. right; by left.
  - right; right. by apply compare_gt in E2.
Qed.

Lemma earlier_lt a b : earlier a b <-> key_lt (event_key a) (event_key b) \/ event_key a = event_key b.
Proof.
  unfold earlier, key_leb. destruct (key_trichotomy (event_key a) (event_key b)) as [H|[->|H]].
  - rewrite H. naive_solver.
  - split; [by right|]. intros _. unfold key_compare. by rewrite !compare_refl.
  - assert (E : key_compare (event_key a) (event_key b) = Gt).
    { revert H. generalize (event_key a) (event_key b). intros [x1 x2] [y1 y2]. rewrite key_lt_cases. unfold key_compare. cbn. intros [H|[-> H]].
      - by rewrite (proj2 (compare_gt x1 y1)).
      - rewrite compare_refl. by apply compare_gt. }
    rewrite E. split; [done|]. intros [Hlt|Heq]; exfalso; [|rewrite Heq in H; by apply key_lt_irrefl in H].
    by apply (key_lt_irrefl (event_key a)), (key_lt_trans _ (event_key b)).
Qed.

#[export] Instance earlier_trans : Transitive earlier.
Proof.
  intros a b c. rewrite !earlier_lt. intros [H1|E1] [H2|E2]; [left; by eapply key_lt_trans|left; by rewrite <- E2|left; by rewrite E1|right; congruence].
Qed.
#[export] Instance earlier_total : Total earlier.
Proof. intros a b. rewrite !earlier_lt. destruct (key_trichotomy (event_key a) (event_key b)) as [?|[?|?]]; auto. Qed.

(** ** Lists in order *)

Notation ordered := (StronglySorted (fun a b => key_lt (event_key a) (event_key b))).

Lemma sorted_ordered l : NoDup (event_key <$> l) -> StronglySorted earlier l -> ordered l.
Proof.
  induction l as [|r l IH]; intros Hn Hs; [constructor|]. apply StronglySorted_cons in Hs as [Hr Hs]. cbn in Hn. apply NoDup_cons in Hn as [Hni Hn].
  constructor; [by apply IH|]. rewrite Forall_forall in Hr |- *. intros x Hx. destruct (proj1 (earlier_lt _ _) (Hr x Hx)) as [H|E]; [done|].
  destruct Hni. rewrite E. by apply list_elem_of_fmap_2.
Qed.

Lemma chronological_ordered l : NoDup (event_key <$> l) -> ordered (chronological l).
Proof.
  intros Hn. apply sorted_ordered; [|apply StronglySorted_merge_sort; apply _]. unfold chronological. by rewrite merge_sort_Permutation.
Qed.

(** A list in order is the chronological one. *)
Lemma ordered_unique l1 l2 : ordered l1 -> ordered l2 -> l1 ≡ₚ l2 -> l1 = l2.
Proof.
  apply StronglySorted_unique_strong. intros x y _ _ H1 H2. exfalso. by apply (key_lt_irrefl (event_key x)), (key_lt_trans _ (event_key y)).
Qed.

Lemma ordered_filter (P : event_row -> Prop) `{!forall r, Decision (P r)} l : ordered l -> ordered (filter P l).
Proof.
  induction 1 as [|r l Hs IH Hr]; [constructor|]. rewrite filter_cons. case_decide; [|done]. constructor; [done|].
  rewrite Forall_forall in Hr |- *. intros x [_ Hx]%list_elem_of_filter. by apply Hr.
Qed.

Lemma NoDup_key_filter (P : event_row -> Prop) `{!forall r, Decision (P r)} l : NoDup (event_key <$> l) -> NoDup (event_key <$> filter P l).
Proof. intros Hn. eapply sublist_NoDup; [exact Hn|]. apply fmap_sublist, sublist_filter. Qed.

(** Filtering and sorting commute. *)
Lemma chronological_filter (P : event_row -> Prop) `{!forall r, Decision (P r)} l : NoDup (event_key <$> l) -> chronological (filter P l) = filter P (chronological l).
Proof.
  intros Hn. apply ordered_unique; [by apply chronological_ordered, NoDup_key_filter|by apply ordered_filter, chronological_ordered|].
  unfold chronological. by rewrite !merge_sort_Permutation.
Qed.

Lemma filter_none (P : event_row -> Prop) `{!forall r, Decision (P r)} (l : list event_row) : (forall r, r ∈ l -> ~ P r) -> filter P l = [].
Proof.
  intros Hno. induction l as [|r l IH]; [done|]. rewrite filter_cons_False; [|apply Hno; by left]. apply IH. intros x Hx. apply Hno. by right.
Qed.

Lemma filter_every (P : event_row -> Prop) `{!forall r, Decision (P r)} (l : list event_row) : (forall r, r ∈ l -> P r) -> filter P l = l.
Proof.
  intros Hall. induction l as [|r l IH]; [done|]. rewrite filter_cons_True; [|apply Hall; by left]. f_equal. apply IH. intros x Hx. apply Hall. by right.
Qed.

(** What comes after a row of a list in order. *)
Lemma filter_after l1 r l2 : ordered (l1 ++ r :: l2) -> filter (fun x => key_ltb (event_key r) (event_key x) = true) (l1 ++ r :: l2) = l2.
Proof.
  rewrite StronglySorted_app. intros (H12 & _ & [Hr _]%StronglySorted_cons). rewrite filter_app, filter_cons.
  assert (Hno : forall x, key_lt (event_key x) (event_key r) \/ x = r -> key_ltb (event_key r) (event_key x) <> true).
  { intros x Hx Hb. unfold key_ltb in Hb. destruct (key_compare (event_key r) (event_key x)) eqn:E; try done.
    destruct Hx as [Hx| ->]; [|by apply key_lt_irrefl in E]. by apply (key_lt_irrefl (event_key r)), (key_lt_trans _ (event_key x)). }
  rewrite decide_False by (apply Hno; by right). rewrite filter_none by (intros x Hx; apply Hno; left; apply H12; [done|by left]).
  apply filter_every. rewrite Forall_forall in Hr. intros x Hx. unfold key_ltb. by rewrite (Hr x Hx).
Qed.

(** ** Well-formed tables *)

(** What [Record] admits and [Create] writes. *)
Record wellformed (r : event_row) : Prop := {
  wf_created : exists t, stored_range t /\ ev_created r = formatEventTime t;
  wf_type : re_match eventTypePattern (ev_type r) = true;
  wf_severity : known_severity (ev_severity r) = true;
  wf_message : blank (ev_message r) = false;
  wf_metadata : json_Valid (ev_metadata r) = true }.

Definition ev_inv (t : event_table) : Prop := forall id r, t !! id = Some r -> ev_id r = id /\ wellformed r.

Lemma ev_inv_rows t r : ev_inv t -> r ∈ rows t -> t !! ev_id r = Some r /\ wellformed r.
Proof. intros Hi [k Hk]%elem_of_rows. destruct (Hi _ _ Hk) as [<- Hw]. done. Qed.

Lemma rows_NoDup t : ev_inv t -> NoDup (event_key <$> rows t).
Proof.
  intros Hi. assert (Hid : NoDup (ev_id <$> rows t)).
  { assert (E : ev_id <$> rows t = (map_to_list t).*1); [|rewrite E; apply NoDup_fst_map_to_list].
    unfold rows. rewrite <- list_fmap_compose. apply list_fmap_ext. intros i [k r] Hk. cbn. apply list_elem_of_lookup_2, elem_of_map_to_list in Hk.
    by destruct (Hi _ _ Hk) as [-> _]. }
  apply NoDup_fmap_1 with (f := snd). by rewrite <- list_fmap_compose.
Qed.

(** The time of a well-formed row, and the event it holds. *)
Lemma scan_wellformed r : wellformed r -> exists e, scanEvent r = Ok e /\ stored_range (Event_CreatedAt e) /\
  ev_created r = formatEventTime (Event_CreatedAt e) /\ Event_ID e = ev_id r.
Proof.
  intros [(t & Ht & Ec) _ _ _ _]. unfold scanEvent. rewrite Ec, parseStoredTime_formatEventTime by done. by eexists.
Qed.

Lemma scan_key r e : wellformed r -> scanEvent r = Ok e -> stored_range (Event_CreatedAt e) /\ event_key r = (formatEventTime (Event_CreatedAt e), Event_ID e).
Proof. intros Hw Hs. destruct (scan_wellformed r Hw) as (e' & Hs' & Hr & Ec & Eid). rewrite Hs in Hs'. injection Hs' as <-. unfold event_key. by rewrite Ec, <- Eid. Qed.

Lemma scan_all_wellformed l : Forall wellformed l -> exists es, scan_all scanEvent l = Ok es /\ Forall2 (fun r e => scanEvent r = Ok e) l es.
Proof.
  induction 1 as [|r l Hr _ (es & Hes & H2)]; [by exists []|]. destruct (scan_wellformed r Hr) as (e & He & _). exists (e :: es). cbn. rewrite He. cbn.
  rewrite Hes. split; [done|by constructor].
Qed.

Lemma scan_all_Forall2 l es : scan_all scanEvent l = Ok es -> Forall2 (fun r e => scanEvent r = Ok e) l es.
Proof.
  revert es. induction l as [|r l IH]; intros es Hes; cbn in Hes; [by injection Hes as <-|].
  apply bind_ok in Hes as (e & He & (es' & Hes' & [= <-])%bind_ok). constructor; [done|by apply IH].
Qed.

(** ** Pages *)

Definition matching (f : EventFilter) (t : event_table) : list event_row := chronological (filter (fun r => matches f r = true) (rows t)).

Lemma matching_ordered f t : ev_inv t -> ordered (matching f t).
Proof. intros Hi. by apply chronological_ordered, NoDup_key_filter, rows_NoDup. Qed.

Lemma elem_of_matching f t r : r ∈ matching f t <-> matches f r = true /\ r ∈ rows t.
Proof. unfold matching, chronological. by rewrite merge_sort_Permutation, list_elem_of_filter. Qed.

Lemma matching_wellformed f t : ev_inv t -> Forall wellformed (matching f t).
Proof. intros Hi. apply Forall_forall. intros r [_ Hr]%elem_of_matching. by apply ev_inv_rows in Hr as [_ ?]. Qed.

(** The part of the condition that does not depend on the cursor. *)
Definition asked (f : EventFilter) (r : event_row) : bool :=
  matches (MkFilter (Filter_AppID f) (Filter_NodeID f) (Filter_Type f) (Filter_Severity f) (Filter_Since f) None (Filter_OldestFirst f) (Filter_Limit f)) r.

Definition cursor_key (c : EventCursor) : string * string := (formatEventTime (Cursor_CreatedAt c), Cursor_ID c).

Lemma cursor_condition at_ id created rid :
  String.ltb at_ created || (String.eqb created at_ && String.ltb id rid) = key_ltb (at_, id) (created, rid).
Proof.
  unfold key_ltb, key_compare, String.ltb. cbn [fst snd]. destruct (String.compare at_ created) eqn:E; cbn [orb].
  - apply compare_eq in E as <-. by rewrite String.eqb_refl.
  - done.
  - destruct (String.eqb_spec created at_) as [E'|_]; [|done]. by rewrite E', compare_refl in E.
Qed.

Lemma matches_asked f r : matches f r = asked f r && match Filter_After f with None => true | Some c => key_ltb (cursor_key c) (event_key r) end.
Proof.
  unfold asked, matches. cbn [Filter_AppID Filter_NodeID Filter_Type Filter_Severity Filter_Since Filter_After]. rewrite andb_true_r. f_equal.
  destruct (Filter_After f) as [[at_ id]|]; [apply cursor_condition|done].
Qed.

Lemma key_ltb_lt a b : key_ltb a b = true <-> key_lt a b.
Proof. unfold key_ltb, key_lt. destruct (key_compare a b); done. Qed.

(** Moving the cursor to a row that matches leaves what comes after it. *)
Lemma matches_after f r e x : wellformed r -> scanEvent r = Ok e -> matches f r = true ->
  matches (with_after (MkCursor (Event_CreatedAt e) (Event_ID e)) f) x = matches f x && key_ltb (event_key r) (event_key x).
Proof.
  intros Hw Hs Hm. destruct (scan_key r e Hw Hs) as [_ Ek]. rewrite !matches_asked in *. apply andb_true_iff in Hm as [_ Hc].
  change (asked (with_after _ f) x) with (asked f x). cbn [Filter_After with_after]. unfold cursor_key at 1. cbn [Cursor_CreatedAt Cursor_ID]. rewrite <- Ek.
  rewrite <- andb_assoc. f_equal. destruct (Filter_After f) as [c|]; [|done]. apply key_ltb_lt in Hc.
  destruct (key_ltb (event_key r) (event_key x)) eqn:E; [|by rewrite andb_false_r]. rewrite andb_true_r. symmetry. apply key_ltb_lt.
  apply key_ltb_lt in E. by eapply key_lt_trans.
Qed.

Lemma matching_after f t l1 r l2 e : ev_inv t -> matching f t = l1 ++ r :: l2 -> scanEvent r = Ok e ->
  matching (with_after (MkCursor (Event_CreatedAt e) (Event_ID e)) f) t = l2.
Proof.
  intros Hi Hm Hs. assert (Hr : r ∈ matching f t) by (rewrite Hm; set_solver). apply elem_of_matching in Hr as [Hmr Hr].
  destruct (ev_inv_rows t r Hi Hr) as [_ Hw]. pose proof (matching_ordered f t Hi) as Ho. rewrite Hm in Ho. rewrite <- (filter_after l1 r l2 Ho), <- Hm.
  unfold matching at 2. rewrite <- chronological_filter by (by apply NoDup_key_filter, rows_NoDup). unfold matching. f_equal.
  rewrite list_filter_filter. apply list_filter_iff. intros x. rewrite (matches_after f r e x Hw Hs Hmr), andb_true_iff. naive_solver.
Qed.

(** ** Watching *)

Definition cursor_of (e : Event) : EventCursor := MkCursor (Event_CreatedAt e) (Event_ID e).

(** The filter after a page. *)
Definition page_filter (es : list Event) (f : EventFilter) : EventFilter := fold_left (fun f e => with_after (cursor_of e) f) es f.

Lemma page_filter_snoc es e f : page_filter (es ++ [e]) f = with_after (cursor_of e) f.
Proof. revert f. induction es as [|x es IH]; intros f; [done|]. cbn. by rewrite IH. Qed.

Lemma page_filter_query es f : Filter_OldestFirst (page_filter es f) = Filter_OldestFirst f /\ Filter_Limit (page_filter es f) = Filter_Limit f.
Proof. revert f. induction es as [|x es IH]; intros f; [done|]. exact (IH (with_after (cursor_of x) f)). Qed.

Lemma page_filter_asked es f r : asked (page_filter es f) r = asked f r.
Proof. revert f. induction es as [|x es IH]; intros f; [done|]. cbn. by rewrite IH. Qed.

Lemma page_filter_matching f t p rest es : ev_inv t -> matching f t = p ++ rest -> Forall2 (fun r e => scanEvent r = Ok e) p es ->
  matching (page_filter es f) t = rest.
Proof.
  intros Hi Hm H2. revert f Hm. induction H2 as [|r e p es Hs _ IH]; intros f Hm; [done|]. cbn. apply IH. by apply (matching_after f t [] r).
Qed.

Section watching.
Context {K : Type} `{!EventEnv K}.
Notation E := (ST (events_world K)).

Section alone.
Context (quiet : forall t k, (ee_Others t k).1 = t) (receptive : forall p k, (ee_Send p k).1 = Ok tt).

Lemma sendPage_run es f t fs s (k : K) : exists k', sendPage es f (MkEvents t fs s k) = (Ok (page_filter es f), MkEvents t fs (s ++ es) k').
Proof.
  revert f s k. induction es as [|e es IH]; intros f s k; [exists k; by rewrite app_nil_r|]. cbn [sendPage]. unfold mbind, st_bind, Send at 1. cbn [e_rows e_faults e_sent e_k].
  pose proof (receptive (protoEvent e) k) as Hs. destruct (ee_Send (protoEvent e) k) as [r k1]. cbn [fst] in Hs. subst r.
  destruct (IH (with_after (cursor_of e) f) (s ++ [e]) k1) as [k' Hk']. exists k'. rewrite <- app_assoc in Hk'. cbn. exact Hk'.
Qed.

Lemma list_run f t s (k : K) : ev_inv t -> Filter_OldestFirst f = true -> Filter_Limit f = eventWatchBatchSize ->
  exists es k', EventRepository_List f (MkEvents t [] s k) = (Ok es, MkEvents t [] s k') /\
    Forall2 (fun r e => scanEvent r = Ok e) (take 1000 (matching f t)) es.
Proof.
  intros Hi Ho Hl. assert (Hsel : select_events f t = take 1000 (matching f t)) by (unfold select_events; by rewrite Ho, Hl).
  destruct (scan_all_wellformed (take 1000 (matching f t))) as (es & Hes & H2); [by apply Forall_take, matching_wellformed|].
  unfold EventRepository_List, mbind, st_bind, ev_query, lift. cbn [next_fault e_faults e_rows e_k e_sent]. pose proof (quiet t k) as Hq.
  destruct (ee_Others t k) as [t1 k1]. cbn [fst] in Hq. subst t1. exists es, k1. by rewrite Hsel, Hes.
Qed.

(** Every page but the last is full, so fuel for one page more than the full ones is
    enough. *)
Lemma sendNew_drains t : ev_inv t -> forall fuel f s (k : K), Filter_OldestFirst f = true -> Filter_Limit f = eventWatchBatchSize ->
  (List.length (matching f t) < fuel * 1000)%nat ->
  exists f' es k', sendNew fuel f (MkEvents t [] s k) = (Ok f', MkEvents t [] (s ++ es) k') /\
    Forall2 (fun r e => scanEvent r = Ok e) (matching f t) es /\ matching f' t = [].
Proof.
  intros Hi. induction fuel as [|fuel IH]; intros f s k Ho Hl Hlen; [lia|]. cbn [sendNew].
  destruct (list_run f t s k Hi Ho Hl) as (es & k1 & Hlist & H2). destruct (sendPage_run es f t [] s k1) as [k2 Hpage].
  unfold mbind, st_bind, map_err. rewrite Hlist, Hpage. pose proof (Forall2_length _ _ _ H2) as El. rewrite length_take in El.
  pose proof (page_filter_matching f t _ (drop 1000 (matching f t)) es Hi (eq_sym (take_drop _ _)) H2) as Hrest.
  destruct (page_filter_query es f) as [Ho' Hl']. destruct (Z.ltb_spec (Z.of_nat (List.length es)) eventWatchBatchSize) as [Hlt|Hge].
  - unfold eventWatchBatchSize in Hlt. exists (page_filter es f), es, k2. split; [done|]. rewrite take_ge in H2 by lia. split; [done|].
    rewrite Hrest. apply drop_ge. lia.
  - unfold eventWatchBatchSize in Hge. assert (Hfew : (List.length (matching (page_filter es f) t) < fuel * 1000)%nat) by (rewrite Hrest, length_drop; lia).
    destruct (IH (page_filter es f) (s ++ es) k2) as (f' & es' & k' & Hrun & H2' & Hend); [by rewrite Ho'|by rewrite Hl'|done|].
    exists f', (es ++ es'), k'. rewrite app_assoc. split; [done|]. split; [|done]. rewrite <- (take_drop 1000 (matching f t)). apply Forall2_app; [done|]. by rewrite <- Hrest.
Qed.
End alone.

(** ** Among other requests *)

Definition ekey (e : Event) : string * string := (formatEventTime (Event_CreatedAt e), Event_ID e).

(** In the order of time, and of the identity within one instant. *)
Definition event_lt (a b : Event) : Prop :=
  Event_CreatedAt a < Event_CreatedAt b \/ (Event_CreatedAt a = Event_CreatedAt b /\ String.compare (Event_ID a) (Event_ID b) = Lt).

Lemma ekey_lt a b : stored_range (Event_CreatedAt a) -> stored_range (Event_CreatedAt b) -> key_lt (ekey a) (ekey b) -> event_lt a b.
Proof.
  intros Ha Hb. rewrite key_lt_cases. cbn [fst snd ekey]. rewrite formatEventTime_compare by done. rewrite Z.compare_lt_iff. intros [Hlt|[Et Hid]]; [by left|].
  right. split; [|done]. apply compare_eq in Et. rewrite formatEventTime_compare in Et by done. by apply Z.compare_eq.
Qed.

(** What a watch may send: an event that was stored and is asked for, beyond the cursor. *)
Definition may_send (f : EventFilter) (e : Event) : Prop := exists r, wellformed r /\ scanEvent r = Ok e /\ asked f r = true.
Definition beyond (f : EventFilter) (e : Event) : Prop := match Filter_After f with None => True | Some c => key_lt (cursor_key c) (ekey e) end.
Notation in_order := (StronglySorted (fun a b => key_lt (ekey a) (ekey b))).

(** A batch of events that a page of this filter may contain. *)
Record batch (f : EventFilter) (es : list Event) : Prop := {
  ba_order : in_order es; ba_beyond : Forall (beyond f) es; ba_may : Forall (may_send f) es }.

Lemma matching_batch f t l es : ev_inv t -> l `prefix_of` matching f t -> Forall2 (fun r e => scanEvent r = Ok e) l es -> batch f es.
Proof.
  intros Hi [rest Hm] H2.
  assert (Hkeys : Forall2 (fun r e => event_key r = ekey e /\ beyond f e /\ may_send f e) l es).
  { assert (Hl : Forall (fun r => r ∈ matching f t) l) by (apply Forall_forall; intros r Hr; rewrite Hm; set_solver). clear Hm. revert Hl.
    induction H2 as [|r e l es Hs _ IH]; intros Hl; [constructor|]. inversion Hl as [|? ? [Hmr Hr]%elem_of_matching Hl']; subst. constructor; [|by apply IH].
    destruct (ev_inv_rows t r Hi Hr) as [_ Hw]. destruct (scan_key r e Hw Hs) as [_ Ek]. rewrite matches_asked in Hmr. apply andb_true_iff in Hmr as [Ha Hc].
    split; [done|]. split; [|by exists r]. unfold beyond, ekey. destruct (Filter_After f); [|done]. rewrite <- Ek. by apply key_ltb_lt. }
  pose proof (matching_ordered f t Hi) as Ho. rewrite Hm in Ho. apply StronglySorted_app_1_l in Ho. split.
  - clear H2 Hm. induction Hkeys as [|r e l es [Ek _] H2 IH]; [constructor|]. apply StronglySorted_cons in Ho as [Hr Ho]. constructor; [by apply IH|].
    clear IH Ho. induction H2 as [|r' e' l es [Ek' _] _ IH]; [constructor|]. inversion Hr; subst. constructor; [by rewrite <- Ek, <- Ek'|by apply IH].
  - clear -Hkeys. induction Hkeys as [|r e l es (_ & H & _) _ IH]; by constructor.
  - clear -Hkeys. induction Hkeys as [|r e l es (_ & _ & H) _ IH]; by constructor.
Qed.

Lemma batch_nil f : batch f [].
Proof. split; [apply SSorted_nil|apply Forall_nil; done|apply Forall_nil; done]. Qed.

Lemma batch_prefix f es1 es2 : batch f (es1 ++ es2) -> batch f es1.
Proof. intros [H1 H2 H3]. split; [by apply StronglySorted_app_1_l in H1|by apply Forall_app in H2 as [? _]|by apply Forall_app in H3 as [? _]]. Qed.

(** What is beyond the filter after a page comes after the page. *)
Lemma beyond_page f es e : batch f es -> beyond (page_filter es f) e -> beyond f e /\ Forall (fun x => key_lt (ekey x) (ekey e)) es.
Proof.
  intros [Ho Hb _]. destruct es as [|x es0 _] using rev_ind; [done|]. rewrite page_filter_snoc. unfold beyond at 1. cbn [Filter_After with_after]. intros Hx.
  apply Forall_app in Hb as [_ Hbx]. inversion Hbx as [|? ? Hbx' _]; subst. split.
  - unfold beyond in *. destruct (Filter_After f); [|done]. by eapply key_lt_trans.
  - rewrite Forall_app. split; [|by constructor]. apply StronglySorted_app in Ho as (Hlast & _ & _). apply Forall_forall. intros y Hy.
    eapply key_lt_trans; [apply (Hlast y x); [done|by left]|exact Hx].
Qed.

Section others.
Context (others_ok : forall t k, ev_inv t -> ev_inv (ee_Others t k).1).

(** Whatever the stream answers, a prefix of the page is sent. *)
Lemma sendPage_prefix es f (w : events_world K) r w' : sendPage es f w = (r, w') ->
  e_rows w' = e_rows w /\ exists es1 es2, es = es1 ++ es2 /\ e_sent w' = e_sent w ++ es1 /\ forall f', r = Ok f' -> es2 = [] /\ f' = page_filter es f.
Proof.
  revert f w. induction es as [|e es IH]; intros f w Hm.
  - injection Hm as <- <-. split; [reflexivity|]. exists [], []. split; [done|]. split; [by rewrite app_nil_r|]. by intros f' [= <-].
  - cbn [sendPage] in Hm. apply st_bind_inv in Hm as [(err & He & ->)|([] & w1 & H1 & Hrest)]; unfold Send in *.
    + destruct (ee_Send _ _) as [r1 k1]. injection He as -> <-. split; [done|]. exists [], (e :: es). split; [done|]. split; [by rewrite app_nil_r|done].
    + destruct (ee_Send _ _) as [r1 k1]. injection H1 as -> <-. destruct (IH _ _ Hrest) as (Ht & es1 & es2 & -> & Hs & Hf). split; [done|].
      exists (e :: es1), es2. split; [done|]. split; [rewrite Hs; cbn; by rewrite <- app_assoc|exact Hf].
Qed.

Lemma list_batch f (w : events_world K) r w' : ev_inv (e_rows w) -> Filter_OldestFirst f = true -> EventRepository_List f w = (r, w') ->
  ev_inv (e_rows w') /\ e_sent w' = e_sent w /\ forall es, r = Ok es -> batch f es.
Proof.
  intros Hi Ho Hm. unfold EventRepository_List in Hm. pose proof (others_ok (e_rows w) (e_k w) Hi) as Ht.
  apply st_bind_inv in Hm as [(err & He & ->)|(l & w1 & H1 & Hs)]; unfold ev_query in *; destruct (next_fault _) as [o fs];
    destruct (ee_Others _ _) as [t k]; cbn [fst] in Ht.
  - destruct o; [done|..]; injection He as _ <-; done.
  - destruct o; [|done..]. injection H1 as <- <-. injection Hs as <- <-. split; [done|]. split; [done|]. intros es Hes. apply scan_all_Forall2 in Hes.
    apply (matching_batch f t _ es Ht) in Hes; [done|]. unfold select_events. rewrite Ho. apply prefix_take.
Qed.

(** What a run of the loop sends, and where it leaves the cursor. *)
Definition sent_more (f : EventFilter) (w : events_world K) (r : result EventFilter) (w' : events_world K) : Prop :=
  ev_inv (e_rows w') /\ exists es, e_sent w' = e_sent w ++ es /\ batch f es /\
    forall f', r = Ok f' -> Filter_OldestFirst f' = true /\ (forall x, asked f' x = asked f x) /\
      forall e, beyond f' e -> beyond f e /\ Forall (fun x => key_lt (ekey x) (ekey e)) es.

Lemma batch_app f f' es es' : batch f es -> (forall x, asked f' x = asked f x) -> (forall e, beyond f' e -> beyond f e /\ Forall (fun x => key_lt (ekey x) (ekey e)) es) ->
  batch f' es' -> batch f (es ++ es').
Proof.
  intros [H1 H2 H3] Ha Hb [H1' H2' H3']. split.
  - apply StronglySorted_app. split; [|done]. intros x y Hx Hy. rewrite Forall_forall in H2'. destruct (Hb y (H2' y Hy)) as [_ Hall].
    rewrite Forall_forall in Hall. by apply Hall.
  - apply Forall_app. split; [done|]. eapply Forall_impl; [exact H2'|]. intros e He. by apply Hb.
  - apply Forall_app. split; [done|]. eapply Forall_impl; [exact H3'|]. intros e (r & Hw & Hs & Hr). exists r. by rewrite <- Ha.
Qed.

Lemma sendNew_safe fuel : forall f (w : events_world K) r w', ev_inv (e_rows w) -> Filter_OldestFirst f = true -> sendNew fuel f w = (r, w') -> sent_more f w r w'.
Proof.
  induction fuel as [|fuel IH]; intros f w r w' Hi Ho Hm; cbn [sendNew] in Hm.
  { injection Hm as <- <-. split; [done|]. exists []. rewrite app_nil_r. split; [done|]. split; [apply batch_nil|done]. }
  apply st_bind_inv in Hm as [(err & He & ->)|(es & w1 & H1 & Hm)].
  { unfold map_err in He. destruct (EventRepository_List f w) as [[es|e1] w1] eqn:Hl; [done|]. injection He as _ <-.
    destruct (list_batch f w _ _ Hi Ho Hl) as (Hi1 & Hs & _). split; [done|]. exists []. rewrite app_nil_r. split; [done|]. split; [apply batch_nil|done]. }
  unfold map_err in H1. destruct (EventRepository_List f w) as [[es1|e1] w2] eqn:Hl; [|done]. injection H1 as -> ->.
  destruct (list_batch f w _ _ Hi Ho Hl) as (Hi1 & Hs1 & Hbatch). specialize (Hbatch es eq_refl). destruct (page_filter_query es f) as [Hpo _].
  apply st_bind_inv in Hm as [(err & He & ->)|(f1 & w2 & H2 & Hm)].
  { destruct (sendPage_prefix _ _ _ _ _ He) as (Ht & sent & rest & -> & Hs & _). split; [by rewrite Ht|]. exists sent. rewrite Hs, Hs1.
    split; [done|]. split; [by eapply batch_prefix|done]. }
  destruct (sendPage_prefix _ _ _ _ _ H2) as (Ht & sent & rest & Ees & Hs & Hf). destruct (Hf _ eq_refl) as [-> ->]. rewrite app_nil_r in Ees. subst sent.
  destruct (_ <? _).
  - injection Hm as <- <-. split; [by rewrite Ht|]. exists es. rewrite Hs, Hs1. split; [done|]. split; [done|]. intros f' [= <-].
    split; [by rewrite Hpo|]. split; [intros x; apply page_filter_asked|]. intros e. by apply beyond_page.
  - destruct (IH (page_filter es f) w2 r w') as (Hi' & es' & Hs' & Hb' & Hf'); [by rewrite Ht|by rewrite Hpo|done|]. split; [done|].
    exists (es ++ es'). rewrite Hs', Hs, Hs1, <- app_assoc. split; [done|]. split.
    { eapply batch_app; [done|intros x; apply page_filter_asked|intros e; by apply beyond_page|done]. }
    intros f' Hr. destruct (Hf' f' Hr) as (Ho' & Ha' & Hbe). split; [done|]. split; [intros x; by rewrite Ha', page_filter_asked|].
    intros e He. destruct (Hbe e He) as [Hbp Hall]. destruct (beyond_page f es e Hbatch Hbp) as [Hbf Hall']. split; [done|]. by apply Forall_app.
Qed.

Lemma watchTicks_safe fuel ticks : forall f (w : events_world K) r w', ev_inv (e_rows w) -> Filter_OldestFirst f = true -> watchTicks fuel ticks f w = (r, w') ->
  exists es, e_sent w' = e_sent w ++ es /\ batch f es.
Proof.
  induction ticks as [|ticks IH]; intros f w r w' Hi Ho Hm; cbn [watchTicks] in Hm.
  { injection Hm as <- <-. exists []. rewrite app_nil_r. split; [done|apply batch_nil]. }
  apply st_bind_inv in Hm as [(err & He & ->)|(f1 & w1 & H1 & Hm)].
  - destruct (sendNew_safe fuel f w _ _ Hi Ho He) as (_ & es & Hs & Hb & _). eauto.
  - destruct (sendNew_safe fuel f w _ _ Hi Ho H1) as (Hi1 & es & Hs & Hb & Hf). destruct (Hf f1 eq_refl) as (Ho1 & Ha & Hbe).
    destruct (IH f1 w1 r w' Hi1 Ho1 Hm) as (es' & Hs' & Hb'). exists (es ++ es'). rewrite Hs', Hs, <- app_assoc. split; [done|]. by eapply batch_app.
Qed.
End others.
End watching.
