(* ===== verification/EventLog.v ===== *)
(** * What the event log promises

    Every reachable table is well formed; a watch is complete, in order and ends;
    retention keeps exactly the newest events; with runs of each. *)

From S2P Require Import Prelude GoStrings Regexp GoJson GoTime Db DbRepos Security CandidateRequests Events EventProps.
From Stdlib Require Import Ascii String.
Local Open Scope Z_scope.

(** ** Operations on the log *)

Section keeps.
Context {K : Type} `{!EventEnv K} (others_ok : forall t k, ev_inv t -> ev_inv (ee_Others t k).1).
Notation E := (ST (events_world K)).

Definition keeps {A} (m : E A) : Prop := forall w r w', ev_inv (e_rows w) -> m w = (r, w') -> ev_inv (e_rows w').

Lemma watch_keeps_lift {A} (x : result A) : keeps (lift x).
Proof. intros w r w' Hi [= <- <-]. done. Qed.

Lemma watch_keeps_bind {A B} (m : E A) (f : A -> E B) : keeps m -> (forall a, keeps (f a)) -> keeps (mbind f m).
Proof.
  intros Hm Hf w r w' Hi Hb. apply st_bind_inv in Hb as [(e & He & _)|(a & w1 & Ha & Hb)]; [by eapply Hm|]. by eapply Hf, Hb; eapply Hm.
Qed.

Lemma watch_keeps_attempt {A} (m : E A) : keeps m -> keeps (attempt m).
Proof. intros Hm w r w' Hi Ha. unfold attempt in Ha. destruct (m w) as [r1 w1] eqn:E. injection Ha as <- <-. by eapply Hm. Qed.

Lemma keeps_exec f : (forall t t' n, ev_inv t -> f t = Ok (t', n) -> ev_inv t') -> keeps (ev_exec f).
Proof.
  intros Hf w r w' Hi Hm. unfold ev_exec in Hm. destruct (next_fault _) as [o fs]. pose proof (others_ok (e_rows w) (e_k w) Hi) as Ht.
  destruct (ee_Others _ _) as [t k]. cbn [fst] in Ht. destruct o, (f t) as [[t' n]|e] eqn:E; injection Hm as <- <-; cbn; eauto.
Qed.

Lemma keeps_create e : re_match eventTypePattern (Event_Type e) = true -> known_severity (Event_Severity e) = true -> blank (Event_Message e) = false ->
  (Event_MetadataJSON e = "" \/ json_Valid (Event_MetadataJSON e) = true) -> stored_range (Event_CreatedAt e) -> keeps (EventRepository_Create e).
Proof.
  intros H1 H2 H3 H4 H5. unfold EventRepository_Create. cbv zeta. apply watch_keeps_bind; [|intros; apply watch_keeps_lift]. apply keeps_exec. intros t t' n Hi Hu.
  unfold insert_event in Hu. rewrite check_bind in Hu. destruct Hu as [_ [= <- <-]]. intros id r Hr. apply lookup_insert_Some in Hr as [[<- <-]|[_ Hr]]; [|by apply Hi].
  split; [done|]. split; cbn; [by eexists|done|done|done|]. destruct H4 as [->|H4]; [done|]. by destruct (String.eqb_spec (Event_MetadataJSON e) "").
Qed.

(** The clock, and the time a caller may have set. *)
Definition in_time (now : Z) (e : Event) : Prop := stored_range now /\ stored_range (Event_CreatedAt e).

Lemma watch_keeps_record now raw e : in_time now e -> keeps (Record_ now raw e).
Proof.
  intros [Hn Hc]. unfold Record_. intros w r w' Hi Hm. apply st_bind_inv in Hm as [(err & [= _ <-] & _)|([] & w1 & [= Hv <-] & Hm)]; [done|].
  unfold validateEvent in Hv. rewrite !check_bind in Hv. destruct Hv as (H1 & H2 & H3 & H4%check_ok). bools. apply andb_false_iff in H4.
  revert Hm. apply watch_keeps_bind; [destruct (String.eqb (Event_ID e) ""); apply watch_keeps_lift| |done]. intros id. cbv zeta.
  apply keeps_create; cbn; [done|done|done| |by destruct (IsZero _)]. destruct (String.eqb_spec (Event_MetadataJSON e) "") as [->|Hne]; [by right|].
  right. destruct H4 as [H4|H4]; apply negb_false_iff in H4; done.
Qed.

Lemma ev_inv_sub t t' : ev_inv t -> t' ⊆ t -> ev_inv t'.
Proof. intros Hi Hs id r Hr. by apply Hi, (lookup_weaken t' t). Qed.

Lemma keeps_prune now maxAge maxCount : keeps (prune now maxAge maxCount).
Proof.
  unfold prune. apply watch_keeps_bind; [|intros _; apply watch_keeps_bind; [|intros _; apply watch_keeps_lift]]; apply watch_keeps_attempt.
  - apply keeps_exec. intros t t' n Hi [= <- <-]. eapply ev_inv_sub; [exact Hi|apply map_filter_subseteq].
  - unfold EventRepository_PruneToLimit. destruct (_ <? _); [apply watch_keeps_lift|]. apply keeps_exec. intros t t' n Hi [= <- <-].
    eapply ev_inv_sub; [exact Hi|apply map_filter_subseteq].
Qed.
End keeps.

(** The process that does nothing else. *)
#[export] Instance alone : EventEnv unit := {|
  ee_Others := fun t k => (t, k);
  ee_Send := fun _ k => (Ok tt, k);
  ee_AppByName := fun _ k => (Err ErrNotFound, k);
  ee_AppByID := fun _ k => (Err ErrNotFound, k);
  ee_NodeByName := fun _ k => (Err ErrNotFound, k);
  ee_NodeByID := fun _ k => (Err ErrNotFound, k) |}.

Inductive event_step (t t' : event_table) : Prop :=
  | step_record now raw e (w : events_world unit) r w' : in_time now e -> e_rows w = t -> Record_ now raw e w = (r, w') -> e_rows w' = t' -> event_step t t'
  | step_prune now maxAge maxCount (w : events_world unit) r w' : e_rows w = t -> prune now maxAge maxCount w = (r, w') -> e_rows w' = t' -> event_step t t'.

Definition event_reachable : event_table -> Prop := rtc event_step ∅.

Lemma alone_ok t (k : unit) : ev_inv t -> ev_inv (ee_Others t k).1.
Proof. done. Qed.

Lemma event_step_inv t t' : ev_inv t -> event_step t t' -> ev_inv t'.
Proof.
  intros Hi [now raw e w r w' Ht <- Hm <-|now age count w r w' <- Hm <-].
  - by apply (watch_keeps_record (K := unit) alone_ok now raw e Ht w r w').
  - by apply (keeps_prune (K := unit) alone_ok now age count w r w').
Qed.

Lemma event_steps_inv t t' : rtc event_step t t' -> ev_inv t -> ev_inv t'.
Proof. induction 1 as [|t1 t2 t3 Hs _ IH]; [done|]. intros Hi. by apply IH, (event_step_inv t1). Qed.

Lemma empty_ev_inv : ev_inv ∅.
Proof. intros id r Hr. by rewrite lookup_empty in Hr. Qed.

(** C36: Whatever is recorded and pruned, and whichever driver calls fail: every stored
    event has its identity as key, a time that can be read back, a dotted type, a
    known severity, a message and valid JSON metadata; so every selection of stored
    events can be scanned. *)
Theorem events_wellformed t : event_reachable t ->
  ev_inv t /\ forall f, exists es, scan_all scanEvent (select_events f t) = Ok es.
Proof.
  intros Hr. pose proof (event_steps_inv _ _ Hr empty_ev_inv) as Hi. split; [done|]. intros f. unfold select_events.
  destruct (scan_all_wellformed (take (Z.to_nat (list_limit (Filter_Limit f))) (if Filter_OldestFirst f then matching f t else rev (matching f t)))) as (es & Hes & _); [|by exists es].
  apply Forall_take. destruct (Filter_OldestFirst f); [by apply matching_wellformed|]. apply Forall_rev, matching_wellformed, Hi.
Qed.

(** ** A watch *)

(** C35: A watch catches up and its loop ends.  If nothing else changes the log and the
    stream accepts what it is sent, the loop over pages of a thousand ends after at
    most one page more than the full ones; it has then sent every event that matches,
    each once, oldest first, and nothing that matches is left beyond its cursor. *)
Theorem watch_drains {K} `{!EventEnv K} t fuel f s (k : K) :
  (forall t k, (ee_Others t k).1 = t) -> (forall p k, (ee_Send p k).1 = Ok tt) -> ev_inv t ->
  Filter_OldestFirst f = true -> Filter_Limit f = eventWatchBatchSize -> (List.length (matching f t) < fuel * 1000)%nat ->
  exists f' es k', sendNew fuel f (MkEvents t [] s k) = (Ok f', MkEvents t [] (s ++ es) k') /\
    Forall2 (fun r e => scanEvent r = Ok e) (matching f t) es /\ matching f' t = [].
Proof. intros Hq Hr Hi. apply sendNew_drains; done. Qed.

(** The stored conditions of a watch, on the event that is sent. *)
Lemma asked_event f r e : wellformed r -> scanEvent r = Ok e -> asked f r = true ->
  (Filter_Type f = "" \/ Event_Type e = Filter_Type f) /\ (Filter_Severity f = "" \/ Event_Severity e = Filter_Severity f) /\
  (Filter_AppID f = "" \/ Event_AppID e = Filter_AppID f) /\ (Filter_NodeID f = "" \/ Event_NodeID e = Filter_NodeID f) /\
  (forall t, Filter_Since f = Some t -> stored_range t -> t <= Event_CreatedAt e).
Proof.
  intros Hw Hs Ha. destruct (scan_key r e Hw Hs) as [Hr Ek]. injection Ek as Ec _. unfold scanEvent in Hs. apply bind_ok in Hs as (c & _ & [= <-]).
  unfold asked, matches in Ha. cbn [Filter_AppID Filter_NodeID Filter_Type Filter_Severity Filter_Since Filter_After] in Ha. rewrite andb_true_r in Ha.
  apply andb_true_iff in Ha as [[[[Happ Hnode]%andb_true_iff Htype]%andb_true_iff Hsev]%andb_true_iff Hsince].
  apply orb_true_iff in Happ, Hnode, Htype, Hsev. rewrite !String.eqb_eq in *. rewrite !bool_decide_eq_true in *.
  cbn [Event_Type Event_Severity Event_AppID Event_NodeID Event_CreatedAt] in *.
  split; [done|]. split; [done|]. split; [destruct Happ as [?|E]; [by left|right; by rewrite E]|]. split; [destruct Hnode as [?|E]; [by left|right; by rewrite E]|].
  intros t Ht Hrt. rewrite Ht in Hsince. unfold String.leb in Hsince. rewrite Ec in Hsince. rewrite formatEventTime_compare in Hsince by done.
  destruct (Z.compare_spec t c); [lia|lia|done].
Qed.

(** Building the filter leaves the log and the stream alone. *)
Definition untouched {K A} (m : ST (events_world K) A) : Prop := forall w r w', m w = (r, w') -> e_rows w' = e_rows w /\ e_sent w' = e_sent w.

Lemma untouched_bind {K A B} (m : ST (events_world K) A) (f : A -> ST (events_world K) B) : untouched m -> (forall a, untouched (f a)) -> untouched (mbind f m).
Proof.
  intros Hm Hf w r w' Hb. apply st_bind_inv in Hb as [(e & He & _)|(a & w1 & Ha & Hb)]; [by eapply Hm|].
  destruct (Hm _ _ _ Ha) as [<- <-]. by eapply Hf.
Qed.

Lemma untouched_lift {K A} (x : result A) : untouched (lift x : ST (events_world K) A).
Proof. by intros w r w' [= <- <-]. Qed.

Lemma untouched_call {K A} (f : K -> result A * K) : untouched (attempt (ev_call f)).
Proof. intros w r w' Hm. unfold attempt, ev_call in Hm. destruct (f _) as [r1 k1]. by injection Hm as <- <-. Qed.

Lemma find_ref_untouched {K} `{!EventEnv K} byName byID missing failed ref : untouched (find_ref (K := K) byName byID missing failed ref).
Proof.
  unfold find_ref. destruct (String.eqb _ _); [apply untouched_lift|]. apply untouched_bind; [apply untouched_call|]. intros found.
  apply untouched_bind; [|intros; apply untouched_lift]. destruct found; [apply untouched_lift|]. destruct (errors_Is _ _); [apply untouched_call|apply untouched_lift].
Qed.

Lemma filter_run {K} `{!EventEnv K} q limit (w : events_world K) r w1 : EventService_filter q limit w = (r, w1) ->
  e_rows w1 = e_rows w /\ e_sent w1 = e_sent w /\ forall f, r = Ok f ->
    Filter_Type f = TrimSpace (eq_Type q) /\ Filter_Severity f = TrimSpace (eq_Severity q) /\ Filter_After f = None /\
    ((TrimSpace (eq_Since q) = "" /\ Filter_Since f = None) \/ exists t, parse_rfc3339 (TrimSpace (eq_Since q)) = Some t /\ Filter_Since f = Some t).
Proof.
  intros Hm. unfold EventService_filter in Hm.
  apply st_bind_inv in Hm as [(e & He & ->)|(app & w2 & H1 & Hm)]; [by destruct (find_ref_untouched _ _ _ _ _ _ _ _ He)|].
  destruct (find_ref_untouched _ _ _ _ _ _ _ _ H1) as [<- <-].
  apply st_bind_inv in Hm as [(e & He & ->)|(node & w3 & H2 & Hm)]; [by destruct (find_ref_untouched _ _ _ _ _ _ _ _ He)|].
  destruct (find_ref_untouched _ _ _ _ _ _ _ _ H2) as [<- <-]. cbv zeta in Hm.
  apply st_bind_inv in Hm as [(e & [= _ <-] & ->)|(u & w4 & [= _ <-] & Hm)]; [done|].
  apply st_bind_inv in Hm as [(e & [= _ <-] & ->)|(u' & w4 & [= _ <-] & Hm)]; [done|].
  apply st_bind_inv in Hm as [(e & [= _ <-] & ->)|(since & w4 & [= Hs <-] & Hm)]; [done|]. injection Hm as <- <-.
  split; [done|]. split; [done|]. intros f [= <-]. do 3 (split; [done|]). cbn. destruct (String.eqb_spec (TrimSpace (eq_Since q)) "") as [E|_].
  - injection Hs as <-. by left.
  - destruct (parse_rfc3339 _) as [t|]; [|done]. injection Hs as <-. right. by exists t.
Qed.

(** What a watch sees while it runs: the tables its statements read and the answers of
    the lookups, recorded beside the rest of the process. *)
Inductive seen := Saw (t : event_table) | FoundApp (ref id : string) | FoundNode (ref id : string).

Definition noting {K} (what : string -> seen) (x : result string * K) (l : list seen) : result string * (K * list seen) :=
  (x.1, (x.2, match x.1 with Ok id => l ++ [what id] | Err _ => l end)).

#[export] Instance observed {K} `{!EventEnv K} : EventEnv (K * list seen) := {|
  ee_Others := fun t k => ((ee_Others t k.1).1, ((ee_Others t k.1).2, k.2 ++ [Saw (ee_Others t k.1).1]));
  ee_Send := fun p k => ((ee_Send p k.1).1, ((ee_Send p k.1).2, k.2));
  ee_AppByName := fun ref k => noting (FoundApp ref) (ee_AppByName ref k.1) k.2;
  ee_AppByID := fun ref k => noting (FoundApp ref) (ee_AppByID ref k.1) k.2;
  ee_NodeByName := fun ref k => noting (FoundNode ref) (ee_NodeByName ref k.1) k.2;
  ee_NodeByID := fun ref k => noting (FoundNode ref) (ee_NodeByID ref k.1) k.2 |}.

(** The event is a row of a table that was read. *)
Definition stored (l : list seen) (e : Event) : Prop := exists t id row, Saw t ∈ l /\ t !! id = Some row /\ scanEvent row = Ok e.

(** The identity asked for: none, or an answer for the reference. *)
Definition resolved (found : string -> string -> seen) (l : list seen) (ref id : string) : Prop := (ref = "" /\ id = "") \/ found ref id ∈ l.

Section observing.
Context {K : Type} `{!EventEnv K}.
Notation E := (ST (events_world (K * list seen))).

Definition notes (w : events_world (K * list seen)) : list seen := (e_k w).2.

Definition sends {A} (P : list seen -> Prop) (m : E A) (Q : list seen -> A -> Prop) : Prop := forall w r w', P (notes w) -> m w = (r, w') ->
  notes w `prefix_of` notes w' /\ (forall a, r = Ok a -> Q (notes w') a) /\ exists es, e_sent w' = e_sent w ++ es /\ Forall (stored (notes w')) es.

Lemma stored_later l l' e : stored l e -> l `prefix_of` l' -> stored l' e.
Proof. intros (t & id & row & Hl & H) [l2 ->]. exists t, id, row. split; [apply elem_of_app; by left|done]. Qed.

Lemma all_stored_later l l' es : Forall (stored l) es -> l `prefix_of` l' -> Forall (stored l') es.
Proof. intros H Hl. eapply Forall_impl; [exact H|]. intros e He. by eapply stored_later. Qed.

Lemma sends_silent {A} P (m : E A) Q : (forall w r w', P (notes w) -> m w = (r, w') -> notes w `prefix_of` notes w' /\ e_sent w' = e_sent w /\ forall a, r = Ok a -> Q (notes w') a) -> sends P m Q.
Proof. intros H w r w' Hp Hm. destruct (H _ _ _ Hp Hm) as (H1 & H2 & H3). split; [done|]. split; [done|]. exists []. by rewrite app_nil_r. Qed.

Lemma sends_lift {A} P (x : result A) (Q : list seen -> A -> Prop) : (forall l a, P l -> x = Ok a -> Q l a) -> sends P (lift x) Q.
Proof. intros H. apply sends_silent. intros w r w' Hp [= <- <-]. split; [done|]. split; [done|]. intros a Ha. by apply H. Qed.

Lemma sends_bind {A B} P (m : E A) Q (f : A -> E B) R : sends P m Q -> (forall a, sends (fun l => Q l a) (f a) R) -> sends P (mbind f m) R.
Proof.
  intros Hm Hf w r w' Hp Hb. apply st_bind_inv in Hb as [(e & He & ->)|(a & w1 & Ha & Hb)].
  - destruct (Hm _ _ _ Hp He) as (H1 & _ & H3). split; [done|]. by split.
  - destruct (Hm _ _ _ Hp Ha) as (H1 & H2 & es & He & Hs). destruct (Hf a _ _ _ (H2 a eq_refl) Hb) as (H1' & H2' & es' & He' & Hs').
    split; [by etrans|]. split; [done|]. exists (es ++ es'). rewrite He', He, <- app_assoc. split; [done|]. apply Forall_app. split; [by eapply all_stored_later|done].
Qed.

Lemma sends_map_err {A} P g (m : E A) Q : sends P m Q -> sends P (map_err g m) Q.
Proof.
  intros Hm w r w' Hp H. unfold map_err in H. destruct (m w) as [r1 w1] eqn:E. destruct (Hm _ _ _ Hp E) as (H1 & H2 & H3).
  destruct r1; injection H as <- <-; by split.
Qed.

Lemma sends_weaken {A} P (m : E A) Q : sends (fun _ => True) m Q -> sends P m Q.
Proof. intros H w r w' _. by apply H. Qed.

Lemma sends_send e : sends (fun l => stored l e) (Send e) (fun _ _ => True).
Proof.
  intros w r w' Hp Hm. unfold Send in Hm. cbn in Hm. destruct (ee_Send _ _) as [r1 k1]. injection Hm as <- <-. unfold notes. cbn. split; [done|]. split; [done|].
  destruct r1; [exists [e]; split; [done|by apply Forall_singleton]|exists []; by rewrite app_nil_r].
Qed.

Lemma sends_list f : sends (fun _ => True) (EventRepository_List f) (fun l es => Forall (stored l) es).
Proof.
  unfold EventRepository_List. eapply sends_bind with (Q := fun l rs => exists t, Saw t ∈ l /\ Forall (fun r => r ∈ rows t) rs).
  - apply sends_silent. intros w r w' _ Hm. unfold ev_query in Hm. destruct (next_fault _) as [o fs]. cbn in Hm.
    destruct o; injection Hm as <- <-; (split; [by eexists|]); (split; [done|]); [|done..]. intros rs [= <-].
    exists (ee_Others (e_rows w) (e_k w).1).1. split; [unfold notes; cbn; set_solver|]. apply Forall_forall. intros x Hx. unfold select_events in Hx.
    apply subseteq_take in Hx. assert (Hc : x ∈ chronological (filter (fun r => matches f r = true) (rows (ee_Others (e_rows w) (e_k w).1).1)))
      by (destruct (Filter_OldestFirst f); [done|by rewrite <- Permutation_rev in Hx]). unfold chronological in Hc. rewrite merge_sort_Permutation in Hc.
    by apply list_elem_of_filter in Hc as [_ ?].
  - intros rs. apply sends_lift. intros l es (t & Ht & Hin) Hs. apply scan_all_Forall2 in Hs. revert Hin. induction Hs as [|r e rs es Hs _ IH]; intros Hin; [done|].
    inversion Hin as [|? ? Hr Hin']; subst. constructor; [|by apply IH]. apply elem_of_rows in Hr as [id Hid]. by exists t, id, r.
Qed.

Lemma sends_page es f : sends (fun l => Forall (stored l) es) (sendPage es f) (fun _ _ => True).
Proof.
  revert f. induction es as [|e es IH]; intros f; [by apply sends_lift|]. cbn [sendPage]. apply (sends_bind _ _ (fun l _ => Forall (stored l) es)); [|intros _; apply IH].
  intros w1 r1 w2 [H1 H2]%Forall_cons Hm. destruct (sends_send e w1 r1 w2 H1 Hm) as (Hl & _ & Hs). split; [done|]. split; [intros _ _; by eapply all_stored_later|done].
Qed.

Lemma sends_new fuel f : sends (fun _ => True) (sendNew fuel f) (fun _ _ => True).
Proof.
  revert f. induction fuel as [|fuel IH]; intros f; [by apply sends_lift|]. cbn [sendNew]. eapply sends_bind; [apply sends_map_err, sends_list|].
  intros es. eapply sends_bind; [apply sends_page|]. intros f'. destruct (_ <? _); [by apply sends_lift|apply IH].
Qed.

Lemma sends_ticks fuel ticks f : sends (fun _ => True) (watchTicks fuel ticks f) (fun _ _ => True).
Proof.
  revert f. induction ticks as [|ticks IH]; intros f; [by apply sends_lift|]. cbn [watchTicks]. eapply sends_bind; [apply sends_new|]. intros f'. apply IH.
Qed.

(** The references of a query are resolved by the answers of the lookups. *)
Lemma lookup_notes (f : string -> K -> result string * K) found (ref : string) :
  sends (fun _ => True) (attempt (ev_call (fun k => noting (found ref) (f ref k.1) k.2))) (fun l x => forall id, x = Ok id -> found ref id ∈ l).
Proof.
  apply sends_silent. intros w r w' _ Hm. unfold attempt, ev_call, noting in Hm. cbn in Hm. injection Hm as <- <-. unfold notes. cbn. split.
  - destruct (f _ _) as [[id|e] k1]; cbn; [by eexists|done].
  - split; [done|]. intros x [= <-] id Hx. rewrite Hx. set_solver.
Qed.

Lemma find_ref_notes (byName byID : string -> K -> result string * K) found missing failed ref :
  sends (fun _ => True) (find_ref (fun s k => noting (found s) (byName s k.1) k.2) (fun s k => noting (found s) (byID s k.1) k.2) missing failed ref)
    (fun l id => resolved found l ref id).
Proof.
  unfold find_ref. destruct (String.eqb_spec ref "") as [->|_]; [apply sends_lift; intros l a _ [= <-]; by left|].
  eapply sends_bind; [apply lookup_notes|]. intros x. eapply sends_bind with (Q := fun l y => forall id, y = Ok id -> found ref id ∈ l).
  - destruct x as [id|e]; [apply sends_lift; intros l a Hl [= <-]; exact Hl|]. destruct (errors_Is _ _); [apply sends_weaken, lookup_notes|].
    apply sends_lift. intros l a Hl [= <-]. exact Hl.
  - intros y. apply sends_lift. intros l a Hl Ha. right. apply Hl. by destruct y as [?|e0]; [injection Ha as ->|].
Qed.

Lemma resolved_later found l l' ref id : resolved found l ref id -> l `prefix_of` l' -> resolved found l' ref id.
Proof. intros [H|H] [l2 ->]; [by left|right; apply elem_of_app; by left]. Qed.

Lemma sends_frame {A} (m : E A) Q (R : list seen -> Prop) : (forall l l', R l -> l `prefix_of` l' -> R l') -> sends (fun _ => True) m Q ->
  sends R m (fun l a => R l /\ Q l a).
Proof.
  intros Hr Hm w r w' H1 Hw. destruct (Hm _ _ _ I Hw) as (Hl & Hq & Hs). split; [done|]. split; [|done]. intros a Ha. split; [by eapply Hr|by apply Hq].
Qed.

Lemma filter_notes q limit : sends (fun _ => True) (EventService_filter q limit) (fun l f =>
  resolved FoundApp l (TrimSpace (eq_App q)) (Filter_AppID f) /\ resolved FoundNode l (TrimSpace (eq_Node q)) (Filter_NodeID f)).
Proof.
  unfold EventService_filter. eapply sends_bind; [apply find_ref_notes|]. intros app.
  eapply sends_bind with (Q := fun l node => resolved FoundApp l (TrimSpace (eq_App q)) app /\ resolved FoundNode l (TrimSpace (eq_Node q)) node).
  { apply sends_frame; [intros l l'; apply resolved_later|apply find_ref_notes]. }
  intros node. cbv zeta. do 3 (eapply sends_bind; [apply sends_lift; intros l x Hl _; exact Hl|intros ?]).
  apply sends_lift. intros l x Hl [= <-]. exact Hl.
Qed.
End observing.

(** The stored events that a query asks for. *)
Definition answers (q : EventQuery) (now : Z) (l : list seen) (e : Event) : Prop :=
  stored l e /\
  (exists app, resolved FoundApp l (TrimSpace (eq_App q)) app /\ (app = "" \/ Event_AppID e = app)) /\
  (exists node, resolved FoundNode l (TrimSpace (eq_Node q)) node /\ (node = "" \/ Event_NodeID e = node)) /\
  (TrimSpace (eq_Type q) = "" \/ Event_Type e = TrimSpace (eq_Type q)) /\
  (TrimSpace (eq_Severity q) = "" \/ Event_Severity e = TrimSpace (eq_Severity q)) /\
  (TrimSpace (eq_Since q) = "" /\ now <= Event_CreatedAt e \/
   exists t, parse_rfc3339 (TrimSpace (eq_Since q)) = Some t /\ t <= Event_CreatedAt e).

(** C34: What a watch sends.  Among any other requests that record and prune events,
    with any driver faults, any answers of the stream and of the lookups and any number
    of ticks: the events a watch sends are in the strict order of time and identity, so
    none is sent twice, and each is a row of a table that a statement of this watch
    read, belongs to the app and the node that the lookups answered for the query, has
    the type and severity asked for, and is not older than the time asked for, or than
    the start of the watch.  The watch starts on a table that records and pruning
    produced, with clock and requested time in the range of stored times. *)
Theorem watch_in_order {K} `{!EventEnv K} fuel ticks q now t fs sent (k : K) r w' :
  (forall t k, rtc event_step t (ee_Others (K := K) t k).1) -> event_reachable t -> stored_range now ->
  (forall t, parse_rfc3339 (TrimSpace (eq_Since q)) = Some t -> stored_range t) ->
  WatchEvents fuel ticks (Some CallerAdmin) q now (MkEvents t fs sent (k, [])) = (r, w') ->
  exists es, e_sent w' = sent ++ es /\ StronglySorted event_lt es /\ Forall (answers q now (e_k w').2) es.
Proof.
  intros Hoth Hreach Hnow Hsince Hm. set (w := MkEvents t fs sent (k, [])) in *.
  assert (others_ok : forall t (k : K * list seen), ev_inv t -> ev_inv (ee_Others t k).1) by (intros t0 k0; apply event_steps_inv, Hoth).
  assert (Hi : ev_inv (e_rows w)) by exact (event_steps_inv _ _ Hreach empty_ev_inv). unfold WatchEvents in Hm.
  apply st_bind_inv in Hm as [(e & [=] & _)|(u & w1 & [= _ <-] & Hm)]. apply st_bind_inv in Hm as [(e & He & ->)|(f & w2 & Hf & Hm)].
  { destruct (filter_run _ _ _ _ _ He) as (_ & Hs & _). exists []. rewrite Hs, app_nil_r. split; [done|]. split; [constructor|by apply Forall_nil]. }
  destruct (filter_run _ _ _ _ _ Hf) as (Ht & Hs & Hfields). destruct (Hfields f eq_refl) as (Etype & Esev & _ & Eside). clear Hfields. rewrite <- Ht in Hi.
  destruct (filter_notes q _ _ _ _ I Hf) as (_ & Hrefs & _). destruct (Hrefs f eq_refl) as [Happ Hnode]. clear Hrefs.
  cbv zeta in Hm. set (f0 := MkFilter _ _ _ _ _ _ true _) in Hm.
  assert (Hall : exists es, e_sent w' = e_sent w2 ++ es /\ batch f0 es).
  { apply st_bind_inv in Hm as [(e & He & ->)|(f1 & w3 & H1 & Hm)].
    - destruct (sendNew_safe others_ok fuel f0 w2 _ _ Hi eq_refl He) as (_ & es & Hes & Hb & _). eauto.
    - destruct (sendNew_safe others_ok fuel f0 w2 _ _ Hi eq_refl H1) as (Hi3 & es & Hes & Hb & Hf1). destruct (Hf1 f1 eq_refl) as (Ho1 & Ha & Hbe).
      destruct (watchTicks_safe others_ok fuel ticks f1 w3 r w' Hi3 Ho1 Hm) as (es' & Hes' & Hb'). exists (es ++ es'). rewrite Hes', Hes, <- app_assoc.
      split; [done|]. by eapply batch_app. }
  assert (Hstored : sends (fun _ => True) (f' ← sendNew fuel f0; watchTicks fuel ticks f') (fun _ _ => True))
    by (eapply sends_bind; [apply sends_new|intros; apply sends_ticks]).
  destruct (Hstored _ _ _ I Hm) as (Hlater & _ & es0 & Hes0 & Hst). clear Hstored.
  destruct Hall as (es & Hes & [Hord _ Hmay]). exists es. rewrite Hes in Hes0. apply app_inv_head in Hes0 as <-. rewrite Hes, Hs. split; [done|]. split.
  - clear Hes Hst. induction Hord as [|x es _ IH Hx]; [constructor|]. inversion Hmay as [|? ? (rx & Hwx & Hsx & _) Hmay']; subst. constructor; [by apply IH|].
    rewrite Forall_forall in Hx, Hmay' |- *. intros y Hy. destruct (Hmay' y Hy) as (ry & Hwy & Hsy & _).
    apply ekey_lt; [by apply (scan_key rx)|by apply (scan_key ry)|by apply Hx].
  - rewrite Forall_forall in Hmay, Hst |- *. intros e Hin. destruct (Hmay e Hin) as (row & Hw & Hsc & Hask).
    destruct (asked_event f0 row e Hw Hsc Hask) as (Hty & Hse & Ha & Hn & Hsi). cbn in Hty, Hse, Hsi, Ha, Hn.
    rewrite Etype in Hty. rewrite Esev in Hse. split; [by apply Hst|]. split; [exists (Filter_AppID f); split; [by eapply resolved_later|done]|].
    split; [exists (Filter_NodeID f); split; [by eapply resolved_later|done]|]. split; [done|]. split; [done|].
    destruct Eside as [[Eq En]|(t' & Ep & En)]; rewrite En in Hsi.
    + left. split; [done|]. by apply Hsi.
    + right. exists t'. split; [done|]. apply Hsi; [done|by apply Hsince].
Qed.

(** ** Retention *)

Lemma ordered_rev l : ordered l -> StronglySorted (fun a b => key_lt (event_key b) (event_key a)) (rev l).
Proof.
  induction 1 as [|r l _ IH Hr]; [constructor|]. cbn. apply StronglySorted_app. split; [|split; [done|constructor; [constructor|apply Forall_nil; done]]].
  intros x y Hx Hy. apply list_elem_of_singleton in Hy as ->. rewrite Forall_forall in Hr. apply Hr. by rewrite <- Permutation_rev in Hx.
Qed.

(** The rows from the newest on. *)
Definition newest (t : event_table) : list event_row := rev (chronological (rows t)).

Lemma newest_perm t : newest t ≡ₚ rows t.
Proof. unfold newest, chronological. by rewrite <- Permutation_rev, merge_sort_Permutation. Qed.

Lemma newest_ids t : ev_inv t -> NoDup (ev_id <$> newest t).
Proof.
  intros Hi. rewrite newest_perm. pose proof (rows_NoDup t Hi) as Hn. apply NoDup_fmap_2_strong.
  - intros x y Hx Hy E. destruct (ev_inv_rows t x Hi Hx) as [Ex _], (ev_inv_rows t y Hi Hy) as [Ey _]. rewrite E in Ex. congruence.
  - by apply NoDup_fmap_1 in Hn.
Qed.

(** A limit keeps the rows it takes from the newest. *)
Lemma delete_beyond_rows n t r : ev_inv t -> delete_beyond n t !! ev_id r = Some r <-> r ∈ take (Z.to_nat n) (newest t).
Proof.
  intros Hi. unfold delete_beyond. fold (newest t). rewrite map_lookup_filter_Some. cbn [fst].
  pose proof (newest_ids t Hi) as Hn. rewrite <- (take_drop (Z.to_nat n) (newest t)), fmap_app, NoDup_app in Hn. destruct Hn as (_ & Hdis & _). split.
  - intros [Hr Hni]. assert (Hin : r ∈ newest t) by (rewrite newest_perm; apply elem_of_rows; eauto).
    rewrite <- (take_drop (Z.to_nat n) (newest t)), elem_of_app in Hin. destruct Hin as [?|Hd]; [done|]. destruct Hni. by apply list_elem_of_fmap_2.
  - intros Hr. split; [|by apply Hdis, list_elem_of_fmap_2]. assert (Hin : r ∈ newest t) by (apply elem_of_take in Hr as (i & Hx & _); by apply list_elem_of_lookup_2 in Hx).
    rewrite newest_perm in Hin. by apply ev_inv_rows in Hin as [? _].
Qed.

Lemma delete_beyond_perm n t : ev_inv t -> rows (delete_beyond n t) ≡ₚ take (Z.to_nat n) (newest t).
Proof.
  intros Hi. assert (Hi' : ev_inv (delete_beyond n t)) by (eapply ev_inv_sub; [exact Hi|apply map_filter_subseteq]).
  apply NoDup_Permutation.
  - by eapply NoDup_fmap_1, rows_NoDup.
  - pose proof (newest_ids t Hi) as Hn. apply NoDup_fmap_1 in Hn. eapply sublist_NoDup; [exact Hn|apply sublist_take].
  - intros r. rewrite <- (delete_beyond_rows n t r Hi), elem_of_rows. split; [intros [k Hk]; by destruct (Hi' _ _ Hk) as [-> _]|eauto].
Qed.

Lemma size_rows (t : event_table) : size t = List.length (rows t).
Proof. unfold rows. rewrite length_fmap. by rewrite length_map_to_list. Qed.

(** What is deleted beyond the limit is older than all that is kept. *)
Lemma delete_beyond_older n t r r' : ev_inv t -> r ∈ drop (Z.to_nat n) (newest t) -> r' ∈ take (Z.to_nat n) (newest t) -> key_lt (event_key r) (event_key r').
Proof.
  intros Hi Hr Hr'. pose proof (ordered_rev _ (chronological_ordered _ (rows_NoDup t Hi))) as Hs. fold (newest t) in Hs.
  rewrite <- (take_drop (Z.to_nat n) (newest t)) in Hs. by apply (StronglySorted_app_1_elem_of _ _ _ r' r Hs).
Qed.

Lemma delete_before_rows cutoff t id r e : ev_inv t -> stored_range cutoff -> t !! id = Some r -> scanEvent r = Ok e ->
  delete_before (formatEventTime cutoff) t !! id = if Event_CreatedAt e <? cutoff then None else Some r.
Proof.
  intros Hi Hc Hr Hs. destruct (Hi _ _ Hr) as [_ Hw]. destruct (scan_key r e Hw Hs) as [Hre Ek]. injection Ek as Ec _.
  assert (E : String.ltb (ev_created r) (formatEventTime cutoff) = (Event_CreatedAt e <? cutoff)).
  { unfold String.ltb. rewrite Ec, formatEventTime_compare by done. by destruct (Z.compare_spec (Event_CreatedAt e) cutoff), (Z.ltb_spec (Event_CreatedAt e) cutoff); try lia. }
  unfold delete_before. destruct (Event_CreatedAt e <? cutoff).
  - apply map_lookup_filter_None_2. right. intros x Hx. rewrite Hr in Hx. injection Hx as <-. cbn [snd]. by rewrite E.
  - apply map_lookup_filter_Some_2; [done|]. by cbn [snd].
Qed.

Lemma exec_alone {K} `{!EventEnv K} (quiet : forall t k, (ee_Others t k).1 = t) f t t' n s (k : K) : f t = Ok (t', n) ->
  exists k', ev_exec f (MkEvents t [] s k) = (Ok n, MkEvents t' [] s k').
Proof.
  intros Hf. unfold ev_exec. cbn [next_fault e_faults e_rows e_k e_sent]. pose proof (quiet t k) as Hq. destruct (ee_Others t k) as [t1 k1]. cbn [fst] in Hq.
  subst t1. exists k1. by rewrite Hf.
Qed.

Lemma prune_run {K} `{!EventEnv K} (quiet : forall t k, (ee_Others t k).1 = t) now maxAge maxCount t s (k : K) : 1 <= maxCount ->
  exists k', prune now maxAge maxCount (MkEvents t [] s k) =
    (Ok tt, MkEvents (delete_beyond maxCount (delete_before (formatEventTime (now - maxAge)) t)) [] s k').
Proof.
  intros Hc. unfold prune, EventRepository_PruneToLimit. rewrite (proj2 (Z.ltb_ge _ _) Hc).
  edestruct (exec_alone quiet (fun t => let t' := delete_before (formatEventTime (now - maxAge)) t in Ok (t', deleted_count t t')) t) as [k1 H1]; [reflexivity|].
  set (t1 := delete_before (formatEventTime (now - maxAge)) t) in *.
  edestruct (exec_alone quiet (fun t => let t' := delete_beyond maxCount t in Ok (t', deleted_count t t')) t1) as [k2 H2]; [reflexivity|].
  exists k2. unfold mbind, st_bind, attempt. unfold EventRepository_PruneBefore. by rewrite H1, H2.
Qed.

(** Retention keeps exactly the newest events.  One undisturbed round leaves at most
    the configured number of events, none older than the configured age, and deletes
    an event only if it is older than that age, or if the full number of events is
    kept and every one of them is newer. *)
Theorem retention_exact {K} `{!EventEnv K} now maxAge maxCount t s (k : K) :
  (forall t k, (ee_Others t k).1 = t) -> ev_inv t -> stored_range (now - maxAge) -> 1 <= maxCount ->
  exists t' k', prune now maxAge maxCount (MkEvents t [] s k) = (Ok tt, MkEvents t' [] s k') /\ t' ⊆ t /\ Z.of_nat (size t') <= maxCount /\
    forall id r e, t !! id = Some r -> scanEvent r = Ok e ->
      (t' !! id = Some r /\ now - maxAge <= Event_CreatedAt e) \/
      (t' !! id = None /\ (Event_CreatedAt e < now - maxAge \/
        (Z.of_nat (size t') = maxCount /\ forall id' r' e', t' !! id' = Some r' -> scanEvent r' = Ok e' -> event_lt e e'))).
Proof.
  intros Hq Hi Hc Hm. destruct (prune_run Hq now maxAge maxCount t s k Hm) as [k' Hrun]. do 2 eexists. split; [exact Hrun|].
  set (t1 := delete_before (formatEventTime (now - maxAge)) t) in *. assert (S1 : t1 ⊆ t) by apply map_filter_subseteq.
  assert (S2 : delete_beyond maxCount t1 ⊆ t1) by apply map_filter_subseteq. pose proof (ev_inv_sub _ _ Hi S1) as Hi1. pose proof (ev_inv_sub _ _ Hi1 S2) as Hi2.
  split; [by etrans|]. assert (Hsize : size (delete_beyond maxCount t1) = Nat.min (Z.to_nat maxCount) (size t1)).
  { rewrite !size_rows, delete_beyond_perm by done. by rewrite length_take, newest_perm. }
  split; [lia|]. intros id r e Hr Hs. destruct (Hi _ _ Hr) as [Eid Hw]. pose proof (delete_before_rows (now - maxAge) t id r e Hi Hc Hr Hs) as H1. fold t1 in H1.
  destruct (Z.ltb_spec (Event_CreatedAt e) (now - maxAge)) as [Hlt|Hge].
  { right. split; [|by left]. destruct (delete_beyond maxCount t1 !! id) as [x|] eqn:Ex; [|done]. by rewrite (lookup_weaken _ _ _ _ Ex S2) in H1. }
  destruct (delete_beyond maxCount t1 !! id) as [x|] eqn:Ex; [left; split; [rewrite <- H1; symmetry; by apply (lookup_weaken _ _ _ _ Ex S2)|done]|].
  right. split; [done|]. right. assert (Hdrop : r ∈ drop (Z.to_nat maxCount) (newest t1)).
  { assert (Hin : r ∈ newest t1) by (rewrite newest_perm; apply elem_of_rows; eauto). rewrite <- (take_drop (Z.to_nat maxCount) (newest t1)), elem_of_app in Hin.
    destruct Hin as [Ht|?]; [|done]. apply (delete_beyond_rows maxCount t1 r Hi1) in Ht. rewrite Eid in Ht. congruence. }
  split.
  - rewrite Hsize. apply list_elem_of_lookup_1 in Hdrop as [i Hx]. apply lookup_lt_Some in Hx. rewrite length_drop, newest_perm, <- size_rows in Hx. lia.
  - intros id' r' e' Hr' Hs'. destruct (Hi2 _ _ Hr') as [Eid' Hw']. rewrite <- Eid' in Hr'. apply (delete_beyond_rows maxCount t1 r' Hi1) in Hr'.
    pose proof (delete_beyond_older maxCount t1 r r' Hi1 Hdrop Hr') as Hk. destruct (scan_key r e Hw Hs) as [Hre Ek], (scan_key r' e' Hw' Hs') as [Hre' Ek'].
    apply ekey_lt; [done|done|]. unfold ekey. by rewrite <- Ek, <- Ek'.
Qed.

(** ** Runs of the event log

    Three events are recorded, watched and pruned; they instantiate the theorems. *)
Definition day_start : Z := 63835596000 * Second.
Definition sample_event (id type : string) (t : Z) : Event :=
  MkEvent id (day_start + t * Second) type "info" "something happened" "" "node_1" "" "".
Definition recorded : list Event := [sample_event "event_a" "node.joined" 0; sample_event "event_b" "node.online" 1; sample_event "event_c" "app.deploy.started" 1].

Fixpoint record_all (es : list Event) (w : events_world unit) : events_world unit :=
  match es with [] => w | e :: es' => record_all es' (Record_ day_start None e w).2 end.

Definition log_world : events_world unit := record_all recorded (MkEvents ∅ [] [] tt).
Definition log_table : event_table := e_rows log_world.

Lemma in_range t : 0 <= t < 300000000000000000000 -> stored_range t.
Proof. intros Ht. assert (E : days_before_year 10000 * Day = 315537897600000000000) by (vm_compute; reflexivity). unfold stored_range. rewrite E. lia. Qed.

Lemma sample_range t : 0 <= t <= 10 -> stored_range (day_start + t * Second).
Proof. intros Ht. apply in_range. unfold day_start, Second. lia. Qed.

Lemma record_all_reachable es w : Forall (fun e => stored_range (Event_CreatedAt e)) es -> event_reachable (e_rows w) -> event_reachable (e_rows (record_all es w)).
Proof.
  intros Hes. revert w. induction Hes as [|e es He _ IH]; intros w Hw; [done|]. cbn. apply IH. eapply rtc_r; [exact Hw|].
  eapply step_record; [split; [|exact He]|reflexivity|apply surjective_pairing|reflexivity]. replace day_start with (day_start + 0 * Second) by lia. apply sample_range. lia.
Qed.

Lemma log_reachable : event_reachable log_table.
Proof. apply record_all_reachable; [|apply rtc_refl]. repeat constructor; apply sample_range; lia. Qed.

Lemma log_inv : ev_inv log_table.
Proof. exact (event_steps_inv _ _ log_reachable empty_ev_inv). Qed.

Lemma alone_quiet (t : event_table) (k : unit) : (ee_Others t k).1 = t.
Proof. reflexivity. Qed.

Lemma alone_receptive (p : PbEvent) (k : unit) : (ee_Send p k).1 = Ok tt.
Proof. reflexivity. Qed.

Lemma alone_steps (t : event_table) (k : unit) : rtc event_step t (ee_Others t k).1.
Proof. apply rtc_refl. Qed.

Lemma log_size : size log_table = 3%nat.
Proof. vm_compute. reflexivity. Qed.

Lemma events_wellformed_witness : event_reachable log_table /\ ev_inv log_table /\ size log_table = 3%nat.
Proof. split; [exact log_reachable|]. split; [exact (proj1 (events_wellformed log_table log_reachable))|exact log_size]. Defined.

(** A watch of the events of nodes. *)
Definition node_filter : EventFilter := MkFilter "" "node_1" "" "info" (Some day_start) None true eventWatchBatchSize.

Lemma log_pages : List.length (matching node_filter log_table) = 3%nat.
Proof. vm_compute. reflexivity. Qed.

Lemma watch_drains_witness : exists f' es k', sendNew 1 node_filter (MkEvents log_table [] [] tt) = (Ok f', MkEvents log_table [] es k') /\ List.length es = 3%nat.
Proof.
  destruct (watch_drains log_table 1 node_filter [] tt alone_quiet alone_receptive log_inv eq_refl eq_refl) as (f' & es & k' & Hrun & H2 & _).
  - rewrite log_pages. lia.
  - exists f', es, k'. split; [exact Hrun|]. rewrite <- (Forall2_length _ _ _ H2). exact log_pages.
Defined.

Definition watch_query : EventQuery := MkEventQuery "" "" "node.online" "" "2023-11-13T00:00:00Z".

Lemma query_range t : parse_rfc3339 (TrimSpace (eq_Since watch_query)) = Some t -> stored_range t.
Proof.
  assert (E : parse_rfc3339 (TrimSpace (eq_Since watch_query)) = Some 63835430400000000000) by (vm_compute; reflexivity).
  rewrite E. intros [= <-]. apply in_range. lia.
Qed.

Definition watched : result unit * events_world (unit * list seen) := WatchEvents 2 1 (Some CallerAdmin) watch_query day_start (MkEvents log_table [] [] (tt, [])).

Lemma watched_events : Event_ID <$> e_sent watched.2 = ["event_b"].
Proof. vm_compute. reflexivity. Qed.

Lemma watch_in_order_witness : exists es, e_sent watched.2 = es /\ StronglySorted event_lt es /\ Forall (answers watch_query day_start (e_k watched.2).2) es /\
  Event_ID <$> es = ["event_b"].
Proof.
  destruct (watch_in_order 2 1 watch_query day_start log_table [] [] tt watched.1 watched.2 alone_steps log_reachable) as (es & Hs & Ho & Ha).
  - replace day_start with (day_start + 0 * Second) by lia. apply sample_range. lia.
  - exact query_range.
  - exact (surjective_pairing _).
  - exists es. split; [exact Hs|]. split; [exact Ho|]. split; [exact Ha|]. cbn [app] in Hs. rewrite <- Hs. exact watched_events.
Defined.

Lemma retention_exact_witness : exists t' k', prune (day_start + 2 * Second) (2 * Second) 2 (MkEvents log_table [] [] tt) = (Ok tt, MkEvents t' [] [] k') /\
  t' ⊆ log_table /\ Z.of_nat (size t') <= 2.
Proof.
  destruct (retention_exact (day_start + 2 * Second) (2 * Second) 2 log_table [] tt alone_quiet log_inv) as (t' & k' & Hrun & Hsub & Hsize & _).
  - replace (day_start + 2 * Second - 2 * Second) with (day_start + 0 * Second) by lia. apply sample_range. lia.
  - lia.
  - exists t', k'. split; [exact Hrun|]. split; [exact Hsub|exact Hsize].
Defined.
