(* ===== verification/Workloads.v ===== *)
(** * Kubernetes objects of an app (internal/ingress: resources.go, candidate.go,
      candidate_bootstrap.go, hosting_network.go, environment.go)

    The objects the controller renders from a configuration: the Deployment of an
    app and of one candidate generation, the Service, the NetworkPolicy of a
    hosted app and its labels.  The structs of the Kubernetes client library are
    records of the fields the program reads or writes; the remaining fields of a
    specification, at any depth, are one value of an abstract type, which the
    program only copies and compares. *)

From S2P Require Import Prelude GoStrings Regexp Sha256 GoJson Appconfig Db Activation Candidate.
From Stdlib Require Import Ascii String.
Local Open Scope Z_scope.

(** ** Types of the client library *)

(** A Service port is built with the zero value of every field the program does
    not set; its fields are read back. *)
Class KubePorts `{KubeTypes} := {
  sp_http : Z -> service_port;                       (* Name http, Port and TargetPort the given number *)
  sp_with_protocol : string -> service_port -> service_port;
  sp_http_Name : forall p, sp_Name (sp_http p) = "http";
  sp_http_Protocol : forall p, sp_Protocol (sp_http p) = "";
  sp_http_Port : forall p, sp_Port (sp_http p) = p;
  sp_http_Target : forall p, sp_TargetsInt (sp_http p) p = true;
  sp_with_protocol_Name : forall s p, sp_Name (sp_with_protocol s p) = sp_Name p;
  sp_with_protocol_Protocol : forall s p, sp_Protocol (sp_with_protocol s p) = s;
  sp_with_protocol_Port : forall s p, sp_Port (sp_with_protocol s p) = sp_Port p;
  sp_with_protocol_Target : forall s p z, sp_TargetsInt (sp_with_protocol s p) z = sp_TargetsInt p z
}.

(** The fields of a specification that the program neither sets nor inspects, up
    to [apiequality.Semantic.DeepEqual]; [no_rest] when none of them is set.
    Quantities are compared by their value, here in billionths of the unit. *)
Class KubeRest `{AppEnv} := {
  spec_rest : Type;
  spec_rest_eq :: EqDecision spec_rest;
  no_rest : spec_rest;
  Quantity_nanos : quantity -> Z;
  Cmp_nanos : forall a b, Quantity_Cmp a b = Z.sgn (Quantity_nanos a - Quantity_nanos b);
  Sign_nanos : forall a, Quantity_Sign a = Z.sgn (Quantity_nanos a)
}.

Record object_meta := MkMeta {
  om_Name : string; om_Namespace : string; om_UID : string; om_ResourceVersion : string; om_Generation : Z;
  om_Deleting : bool; om_Labels : gmap string string; om_Annotations : gmap string string }.
#[export] Instance object_meta_eq_dec : EqDecision object_meta.
Proof. solve_decision. Defined.

(** Metadata of an object that is sent for creation. *)
Definition new_meta (name namespace : string) (labels annotations : gmap string string) : object_meta :=
  MkMeta name namespace "" "" 0 false labels annotations.

Inductive int_or_string :=
| IntPort (z : Z)
| StringPort (s : string).
#[export] Instance int_or_string_eq_dec : EqDecision int_or_string.
Proof. solve_decision. Defined.

Record probe := MkProbe {
  pr_HTTPGet : option (string * int_or_string * string); (* path, port, scheme *)
  pr_TimeoutSeconds : Z; pr_PeriodSeconds : Z; pr_SuccessThreshold : Z; pr_FailureThreshold : Z }.
#[export] Instance probe_eq_dec : EqDecision probe.
Proof. solve_decision. Defined.

Record container_port := MkContainerPort { cp_Name : string; cp_ContainerPort : Z; cp_Protocol : string }.
#[export] Instance container_port_eq_dec : EqDecision container_port.
Proof. solve_decision. Defined.

Record security_context := MkSecurity {
  sc_AllowPrivilegeEscalation : option bool; sc_RunAsNonRoot : option bool; sc_Drop : list string;
  sc_Seccomp : option string; sc_ReadOnlyRootFilesystem : option bool }.
#[export] Instance security_context_eq_dec : EqDecision security_context.
Proof. solve_decision. Defined.

(** A value, or the key of a Secret. *)
Inductive env_source :=
| EnvValue (value : string)
| EnvSecretKey (secret key : string).
#[export] Instance env_source_eq_dec : EqDecision env_source.
Proof. solve_decision. Defined.

Record container := MkContainer {
  c_Name : string; c_Image : string; c_Ports : list container_port; c_Env : list (string * env_source);
  c_EnvFrom : list string; (* names of Secrets *)
  c_Requests : gmap string Z; c_Limits : gmap string Z; c_VolumeMounts : list (string * string); (* name, path *)
  c_ReadinessProbe : option probe; c_LivenessProbe : option probe; c_StartupProbe : option probe;
  c_SecurityContext : option security_context; c_ImagePullPolicy : string;
  c_TerminationMessagePath : string; c_TerminationMessagePolicy : string }.
#[export] Instance container_eq_dec : EqDecision container.
Proof. solve_decision. Defined.

Record label_selector := MkSelector { ls_MatchLabels : gmap string string; ls_Expressions : nat }.
#[export] Instance label_selector_eq_dec : EqDecision label_selector.
Proof. solve_decision. Defined.
Definition match_labels (m : gmap string string) : label_selector := MkSelector m 0.

Record spread_constraint := MkSpread {
  tsc_MaxSkew : Z; tsc_TopologyKey : string; tsc_WhenUnsatisfiable : string; tsc_Selector : option label_selector;
  tsc_MatchLabelKeys : list string }.
#[export] Instance spread_constraint_eq_dec : EqDecision spread_constraint.
Proof. solve_decision. Defined.

Record pod_term := MkPodTerm { pt_Selector : option label_selector; pt_TopologyKey : string }.
#[export] Instance pod_term_eq_dec : EqDecision pod_term.
Proof. solve_decision. Defined.

(** Preferred and required terms of [PodAntiAffinity]. *)
Record anti_affinity := MkAnti { aa_Preferred : list (Z * pod_term); aa_Required : list pod_term }.
#[export] Instance anti_affinity_eq_dec : EqDecision anti_affinity.
Proof. solve_decision. Defined.

(** A preferred term of [NodeAffinity]: its weight and the requirements, each a key,
    the operator and its values. *)
Notation node_term := (Z * list (string * string * list string))%type.

Record affinity := MkAffinity { af_PodAnti : option anti_affinity; af_Node : option (list node_term) }.
#[export] Instance affinity_eq_dec : EqDecision affinity.
Proof. solve_decision. Defined.

Record pod_spec := MkPodSpec {
  ps_Containers : list container; ps_Volumes : list (string * option string); (* name, claim *)
  ps_ImagePullSecrets : list string; ps_AutomountToken : option bool; ps_NodeSelector : gmap string string;
  ps_Spread : list spread_constraint; ps_Affinity : option affinity;
  ps_HasSecurityContext : bool; ps_RestartPolicy : string; ps_DNSPolicy : string; ps_SchedulerName : string;
  ps_GracePeriod : option Z; ps_ServiceLinks : option bool }.
#[export] Instance pod_spec_eq_dec : EqDecision pod_spec.
Proof. solve_decision. Defined.

Record strategy := MkStrategy { st_Type : string; st_RollingUpdate : option (option int_or_string * option int_or_string) }.
#[export] Instance strategy_eq_dec : EqDecision strategy.
Proof. solve_decision. Defined.

Record deployment_status := MkStatus {
  ds_ObservedGeneration : Z; ds_Replicas : Z; ds_UpdatedReplicas : Z; ds_ReadyReplicas : Z; ds_AvailableReplicas : Z;
  ds_UnavailableReplicas : Z }.
#[export] Instance deployment_status_eq_dec : EqDecision deployment_status.
Proof. solve_decision. Defined.
Definition no_status : deployment_status := MkStatus 0 0 0 0 0 0.

(** A port of a policy: protocol and number; a peer: selectors of namespaces and pods
    and an address block. *)
Record policy_port := MkPolicyPort { pp_Protocol : option string; pp_Port : option int_or_string }.
#[export] Instance policy_port_eq_dec : EqDecision policy_port.
Proof. solve_decision. Defined.

Record policy_peer := MkPeer {
  peer_Namespaces : option label_selector; peer_Pods : option label_selector; peer_CIDR : option string }.
#[export] Instance policy_peer_eq_dec : EqDecision policy_peer.
Proof. solve_decision. Defined.

(** A rule allows the ports for the peers ([From] or [To]). *)
Record policy_rule := MkRule { rule_Peers : list policy_peer; rule_Ports : list policy_port }.
#[export] Instance policy_rule_eq_dec : EqDecision policy_rule.
Proof. solve_decision. Defined.

Section objects.
Context `{KubeRest}.

Record deployment := MkDeployment {
  d_Meta : object_meta; d_Replicas : option Z; d_Selector : option label_selector;
  d_PodLabels : gmap string string; d_PodAnnotations : gmap string string; d_Pod : pod_spec; d_Strategy : strategy;
  d_MinReadySeconds : Z; d_RevisionHistoryLimit : option Z; d_ProgressDeadline : option Z; d_Rest : spec_rest;
  d_Status : deployment_status }.
#[export] Instance deployment_eq_dec : EqDecision deployment.
Proof. solve_decision. Defined.

Record network_policy := MkPolicy {
  np_Meta : object_meta; np_PodSelector : label_selector; np_Types : list string; np_Ingress : list policy_rule;
  np_Egress : list policy_rule; np_Rest : spec_rest }.
#[export] Instance network_policy_eq_dec : EqDecision network_policy.
Proof. solve_decision. Defined.

Definition set_meta (m : object_meta) (d : deployment) : deployment :=
  MkDeployment m (d_Replicas d) (d_Selector d) (d_PodLabels d) (d_PodAnnotations d) (d_Pod d) (d_Strategy d)
    (d_MinReadySeconds d) (d_RevisionHistoryLimit d) (d_ProgressDeadline d) (d_Rest d) (d_Status d).
Definition set_replicas (r : option Z) (d : deployment) : deployment :=
  MkDeployment (d_Meta d) r (d_Selector d) (d_PodLabels d) (d_PodAnnotations d) (d_Pod d) (d_Strategy d)
    (d_MinReadySeconds d) (d_RevisionHistoryLimit d) (d_ProgressDeadline d) (d_Rest d) (d_Status d).
Definition set_strategy (s : strategy) (d : deployment) : deployment :=
  MkDeployment (d_Meta d) (d_Replicas d) (d_Selector d) (d_PodLabels d) (d_PodAnnotations d) (d_Pod d) s
    (d_MinReadySeconds d) (d_RevisionHistoryLimit d) (d_ProgressDeadline d) (d_Rest d) (d_Status d).
Definition set_pod (p : pod_spec) (d : deployment) : deployment :=
  MkDeployment (d_Meta d) (d_Replicas d) (d_Selector d) (d_PodLabels d) (d_PodAnnotations d) p (d_Strategy d)
    (d_MinReadySeconds d) (d_RevisionHistoryLimit d) (d_ProgressDeadline d) (d_Rest d) (d_Status d).
End objects.

Definition meta_version (rv : string) (m : object_meta) : object_meta :=
  MkMeta (om_Name m) (om_Namespace m) (om_UID m) rv (om_Generation m) (om_Deleting m) (om_Labels m) (om_Annotations m).
Definition meta_annotate (k v : string) (m : object_meta) : object_meta :=
  MkMeta (om_Name m) (om_Namespace m) (om_UID m) (om_ResourceVersion m) (om_Generation m) (om_Deleting m) (om_Labels m)
    (<[k := v]> (om_Annotations m)).

(** ** Labels and names (resources.go, environment.go) *)

Definition appNameLabel : string := "app.kubernetes.io/name".
Definition hostingProfileLabel : string := "deployer.io/hosting-profile".
Definition serviceMonitorForLabel : string := "deployer.io/service-monitor-for".
Definition secretHashAnnotation : string := "deployer.io/secret-hash".
Definition legacyAffinityMigrationAnnotation : string := "deployer.io/legacy-affinity-migration".
Definition retainedStorageClaimAnnotation : string := "deployer.io/retained-storage-claim".
Definition retainedStorageClaimsAnnotation : string := "deployer.io/retained-storage-claims".
Definition retainedStorageVolumeName : string := "retained-data".
Definition DefaultNamespace : string := "deployer-apps".
Definition traefikServersTransportAnnotation : string := "traefik.ingress.kubernetes.io/service.serverstransport".

Definition appLabels (app : string) : gmap string string := {[appNameLabel := app; appOwnershipLabel := app]}.
Definition managedAppLabels (app : string) : gmap string string := <[managedByLabel := managedByDeployer]> (appLabels app).

Definition environmentSecretName (app revision : string) : string :=
  app +:+ "-env-" +:+ s_take 24 (sha256_hex (app +:+ nul +:+ revision)).

Definition placementArchitecture (placement : string) : string :=
  let placement := TrimSpace placement in
  if String.eqb placement "any" then "" else
  match Split_byte placement "/" with
  | [_; arch] => arch
  | _ => placement
  end.

Definition placementLabelKey (key : string) : string :=
  let key := TrimSpace key in
  if String.eqb key "arch" then "kubernetes.io/arch"
  else if String.eqb key "location" || String.eqb key "role" || String.eqb key "node-id" then "deployer.io/" +:+ key
  else key.

Definition retainedStorageVolumeNameForIndex (index : nat) : string :=
  match index with
  | O => retainedStorageVolumeName
  | _ => retainedStorageVolumeName +:+ "-" +:+ Itoa (Z.of_nat index + 1)
  end.

Definition traefikResourceReference (namespace name : string) : string := namespace +:+ "-" +:+ name +:+ "@kubernetescrd".

(** A selector without requirements gives no term. *)
Definition preferredSchedulingTerms (selectors : list (option (gmap string string))) (weight : Z) : list node_term :=
  mbind (fun selector : option (gmap string string) =>
    let selector := default ∅ selector in
    let keys := merge_sort str_le (elements (dom selector)) in
    let requirements := (fun key => (placementLabelKey key, "In", [map_get selector key])) <$> keys in
    if bool_decide (requirements = []) then [] else [(weight, requirements)]) selectors.

(** ** The Deployment of an app (resources.go) *)

Section builders.
Context `{KubeTypes} `{!KubePorts} `{KubeRest}.

Definition resilient (cfg : Config) : bool := String.eqb (Resilience_Mode (Cfg_Resilience cfg)) ResilienceResilient.

(** [HostingConfig.ResourceRequirements]: requests and limits. *)
Definition resource_list (q : quantity * quantity * quantity) : gmap string Z :=
  let '(cpu, memory, storage) := q in
  {["cpu" := Quantity_nanos cpu; "memory" := Quantity_nanos memory; "ephemeral-storage" := Quantity_nanos storage]}.

Definition ResourceRequirements (hosting : HostingConfig) : result (gmap string Z * gmap string Z) :=
  requests ← parseResourceQuantities (Res_Requests (Hosting_Resources hosting)) "hosting.resources.requests";
  limits ← parseResourceQuantities (Res_Limits (Hosting_Resources hosting)) "hosting.resources.limits";
  Ok (resource_list requests, resource_list limits).

Definition hostingSecurity (hosting : HostingConfig) : security_context :=
  MkSecurity (Some false) (Some true) ["ALL"] (Some "RuntimeDefault")
    (if Hosting_ReadOnlyRootFilesystem hosting then Some true else None).

(** Volumes and mounts of retained storage, with the annotations that name the claims. *)
Definition storageVolumes (s : StorageConfig) : list (string * option string) :=
  imap (fun i m => (retainedStorageVolumeNameForIndex i, Some (Mount_ExistingClaim m))) (Mounts s).
Definition storageMounts (s : StorageConfig) : list (string * string) :=
  imap (fun i m => (retainedStorageVolumeNameForIndex i, Mount_MountPath m)) (Mounts s).
Definition storageAnnotations (s : StorageConfig) : gmap string string :=
  {[retainedStorageClaimAnnotation := Storage_ExistingClaim s;
    retainedStorageClaimsAnnotation := String.concat "," (Mount_ExistingClaim <$> Mounts s)]}.

Definition metricsAnnotations (m : MetricsConfig) : gmap string string :=
  {["prometheus.io/scrape" := "true"; "prometheus.io/path" := Metrics_Path m; "prometheus.io/port" := Itoa (Metrics_Port m)]}.

Definition containerPorts (cfg : Config) : list container_port :=
  MkContainerPort "http" (wrap_i32 (Service_Port (Cfg_Service cfg))) ""
  :: match Cfg_Metrics cfg with
     | Some m => if Metrics_Port m =? Service_Port (Cfg_Service cfg) then []
                 else [MkContainerPort "metrics" (wrap_i32 (Metrics_Port m)) ""]
     | None => []
     end.

(** Architecture, and for a pinned app the labels of its node, in the order of [range]. *)
Definition nodeSelector (cfg : Config) : result (gmap string string) :=
  let arch := placementArchitecture (Placement_Arch (Cfg_Placement cfg)) in
  let base : gmap string string := if String.eqb arch "" then ∅ else {["kubernetes.io/arch" := arch]} in
  if String.eqb (Resilience_Mode (Cfg_Resilience cfg)) ResiliencePinned then
    match Placement_Prefer (Cfg_Placement cfg) with
    | [prefer] =>
        Ok (fold_left (fun acc kv => <[placementLabelKey kv.1 := kv.2]> acc) (range_map (default ∅ prefer)) base)
    | _ => Err (Errorf "pinned resilience requires exactly one preferred node selector" [])
    end
  else Ok base.

Definition spreadConstraints (cfg : Config) : list spread_constraint :=
  if Placement_Spread (Cfg_Placement cfg) || resilient cfg then
    [MkSpread 1 "kubernetes.io/hostname" (if resilient cfg then "DoNotSchedule" else "ScheduleAnyway")
       (Some (match_labels (appLabels (Cfg_Name cfg)))) ["pod-template-hash"]]
  else [].

Definition rolling (maxUnavailable maxSurge : Z) : strategy :=
  MkStrategy "RollingUpdate" (Some (Some (IntPort maxUnavailable), Some (IntPort maxSurge))).

Definition deployStrategy (cfg : Config) : strategy :=
  if resilient cfg then rolling 0 1
  else match Cfg_Storage cfg with Some _ => MkStrategy "Recreate" None | None => MkStrategy "" None end.

Definition podAffinity (cfg : Config) : option affinity :=
  if String.eqb (Resilience_Mode (Cfg_Resilience cfg)) ResilienceFallback then
    Some (MkAffinity None (Some (preferredSchedulingTerms (Placement_Prefer (Cfg_Placement cfg)) 100 ++
                                 preferredSchedulingTerms (Placement_Fallback (Cfg_Placement cfg)) 50)%list))
  else if resilient cfg then
    Some (MkAffinity (Some (MkAnti [(100, MkPodTerm (Some (match_labels (appLabels (Cfg_Name cfg)))) "kubernetes.io/hostname")] [])) None)
  else None.

Definition postgresAppSecretSuffix : string := "-db-app".

Definition postgresEnv (cfg : Config) : list (string * env_source) :=
  match Database_Postgres (Cfg_Database cfg) with
  | Some p =>
      if String.eqb (Pg_ConnectionMode p) PostgresConnectionModeManaged then
        [(Pg_ConnectionEnv p, EnvSecretKey (Cfg_Name cfg +:+ postgresAppSecretSuffix) "uri");
         ("PGSSLMODE", EnvValue "require"); ("PGCHANNELBINDING", EnvValue "require");
         ("PGREQUIREAUTH", EnvValue "scram-sha-256")]
      else []
  | None => []
  end.

Definition secretEnv (cfg : Config) : list (string * env_source) :=
  (fun name => (name, EnvSecretKey (Cfg_Name cfg) name)) <$> Cfg_Secrets cfg.

(** Annotation of the pods and the Secret of an environment revision. *)
Definition environmentSource (cfg : Config) (secretRevision : string) : result (gmap string string * list string) :=
  if String.eqb (Cfg_EnvironmentRevision cfg) "" then Ok (∅, []) else
  _ ← check (negb (ValidRevision (Cfg_EnvironmentRevision cfg)) ||
             negb (String.eqb secretRevision (Cfg_EnvironmentRevision cfg)) || negb (bool_decide (Cfg_Secrets cfg = [])))
        (ErrSentinel "invalid environment revision");
  Ok ({[secretHashAnnotation := Cfg_EnvironmentRevision cfg]},
      [environmentSecretName (Cfg_Name cfg) (Cfg_EnvironmentRevision cfg)]).

Definition deploymentForApp (cfg : Config) (namespace secretRevision : string) : result deployment :=
  let cfg := Normalize cfg in
  _ ← match Cfg_Storage cfg with
      | Some _ => match Validate cfg with
                  | Err e => Err (ErrWrap "invalid retained storage configuration: %w" [] e)
                  | Ok _ => Ok tt
                  end
      | None => Ok tt
      end;
  let replicas := Deploy_Replicas (Cfg_Deploy cfg) in
  let atLeast2 (r : Z) := if resilient cfg && (r <? 2) then 2 else r in
  _ ← Hosting_Validate (Cfg_Hosting cfg) (atLeast2 replicas);
  '(requests, limits) ← match Cfg_Hosting cfg with
                        | Some hosting => ResourceRequirements hosting
                        | None => Ok (∅, ∅)
                        end;
  selector ← nodeSelector cfg;
  '(environmentAnnotations, envFrom) ← environmentSource cfg secretRevision;
  _ ← check (negb (bool_decide (Cfg_Secrets cfg = [])) && blank secretRevision) (Errorf "secret revision is missing" []);
  let port := wrap_i32 (Service_Port (Cfg_Service cfg)) in
  let modeLabels := <["deployer.io/state-mode" := State_Mode (Cfg_State cfg)]>
                    (<["deployer.io/resilience-mode" := Resilience_Mode (Cfg_Resilience cfg)]> (appLabels (Cfg_Name cfg))) in
  let podLabels := match Cfg_Hosting cfg with
                   | Some hosting => <[hostingProfileLabel := Hosting_Version hosting]> modeLabels
                   | None => modeLabels
                   end in
  let secretAnnotations : gmap string string :=
    if bool_decide (Cfg_Secrets cfg = []) then ∅ else {[secretHashAnnotation := secretRevision]} in
  let web :=
    MkContainer (Cfg_Name cfg) (Cfg_Image cfg) (containerPorts cfg) (secretEnv cfg ++ postgresEnv cfg)%list envFrom
      requests limits (match Cfg_Storage cfg with Some s => storageMounts s | None => [] end)
      (Some (MkProbe (Some (Service_HealthPath (Cfg_Service cfg), IntPort port, "")) 0 0 0 0)) None None
      (hostingSecurity <$> Cfg_Hosting cfg) "" "" "" in
  Ok (MkDeployment
        (new_meta (Cfg_Name cfg) namespace (managedAppLabels (Cfg_Name cfg))
           (match Cfg_Storage cfg with Some s => storageAnnotations s | None => ∅ end))
        (Some (atLeast2 (wrap_i32 replicas))) (Some (match_labels (appLabels (Cfg_Name cfg)))) podLabels
        (secretAnnotations ∪ environmentAnnotations ∪ (match Cfg_Metrics cfg with Some m => metricsAnnotations m | None => ∅ end))
        (MkPodSpec [web] (match Cfg_Storage cfg with Some s => storageVolumes s | None => [] end) []
           (match Cfg_Hosting cfg with Some _ => Some false | None => None end) selector (spreadConstraints cfg) (podAffinity cfg)
           false "" "" "" None None)
        (deployStrategy cfg) (if resilient cfg then 10 else 0) None None no_rest no_status).

(** ** The Service of an app *)

Definition serviceForApp (cfg : Config) (namespace : string) : Service :=
  let cfg := Normalize cfg in
  let port := wrap_i32 (Service_Port (Cfg_Service cfg)) in
  MkService (Cfg_Name cfg) namespace "" "" false (managedAppLabels (Cfg_Name cfg))
    (if blank (Routing_Domain (Cfg_Routing cfg)) then ∅
     else {[traefikServersTransportAnnotation := traefikResourceReference namespace (Cfg_Name cfg)]})
    (Some (appLabels (Cfg_Name cfg))) (Some [sp_http port]).

Definition candidateServiceForApp (cfg : Config) (namespace : string) : Service :=
  let s := serviceForApp cfg namespace in
  MkService (Svc_Name s) (Svc_Namespace s) (Svc_UID s) (Svc_ResourceVersion s) (Svc_Deleting s) (Svc_Labels s)
    (Svc_Annotations s) (Svc_Selector s) (fmap (M:=list) (sp_with_protocol "TCP") <$> Svc_Ports s).

(** [candidateServicePortsMatch] *)
Definition candidateServicePortsMatch (a b : list service_port) : bool :=
  let normalize := fmap (M:=list) (fun p => if String.eqb (sp_Protocol p) "" then sp_with_protocol "TCP" p else p) in
  bool_decide (normalize a = normalize b).

(** ** The Deployment of one candidate generation (candidate.go) *)

Definition generation_selector (app generation : string) : gmap string string :=
  {[appOwnershipLabel := app; candidateGenerationLabel := generation]}.

Definition with_selector (sel : label_selector) (p : pod_spec) : pod_spec :=
  let spread := (fun t => MkSpread (tsc_MaxSkew t) (tsc_TopologyKey t) (tsc_WhenUnsatisfiable t) (Some sel) (tsc_MatchLabelKeys t))
                <$> ps_Spread p in
  let anti a := MkAnti ((fun wt : Z * pod_term => (wt.1, MkPodTerm (Some sel) (pt_TopologyKey wt.2))) <$> aa_Preferred a)
                       ((fun t => MkPodTerm (Some sel) (pt_TopologyKey t)) <$> aa_Required a) in
  MkPodSpec (ps_Containers p) (ps_Volumes p) (ps_ImagePullSecrets p) (ps_AutomountToken p) (ps_NodeSelector p) spread
    ((fun a => MkAffinity (anti <$> af_PodAnti a) (af_Node a)) <$> ps_Affinity p)
    (ps_HasSecurityContext p) (ps_RestartPolicy p) (ps_DNSPolicy p) (ps_SchedulerName p) (ps_GracePeriod p) (ps_ServiceLinks p).

Definition with_pull_secrets (names : list string) (p : pod_spec) : pod_spec :=
  MkPodSpec (ps_Containers p) (ps_Volumes p) names (ps_AutomountToken p) (ps_NodeSelector p) (ps_Spread p) (ps_Affinity p)
    (ps_HasSecurityContext p) (ps_RestartPolicy p) (ps_DNSPolicy p) (ps_SchedulerName p) (ps_GracePeriod p) (ps_ServiceLinks p).

(** The caller has checked that the configuration has a hosting profile; without
    one the source would dereference nil, here an error. *)
Definition candidateDeploymentForGeneration (cfg : Config) (namespace secretRevision generation registrySecret : string)
    : result deployment :=
  desired ← deploymentForApp cfg namespace secretRevision;
  hosting ← match Cfg_Hosting cfg with Some h => Ok h | None => Err (ErrSentinel "nil hosting profile") end;
  let m := d_Meta desired in
  let selector := generation_selector (Cfg_Name cfg) generation in
  let podLabels := <["deployer.io/state-mode" := State_Mode (Cfg_State cfg)]>
                   (<["deployer.io/resilience-mode" := Resilience_Mode (Cfg_Resilience cfg)]>
                   (<[hostingProfileLabel := Hosting_Version hosting]> selector)) in
  let pod := if String.eqb registrySecret "" then d_Pod desired else with_pull_secrets [registrySecret] (d_Pod desired) in
  Ok (MkDeployment
        (MkMeta (candidateNameForGeneration (Cfg_Name cfg) generation) (om_Namespace m) (om_UID m) (om_ResourceVersion m)
           (om_Generation m) (om_Deleting m) (<[candidateGenerationLabel := generation]> (om_Labels m)) (om_Annotations m))
        (d_Replicas desired) (Some (match_labels selector)) podLabels (d_PodAnnotations desired)
        (with_selector (match_labels selector) pod) (d_Strategy desired) (d_MinReadySeconds desired)
        (d_RevisionHistoryLimit desired) (d_ProgressDeadline desired) (d_Rest desired) (d_Status desired)).

Definition CandidateDeploymentForApp (cfg : Config) (namespace secretRevision requestID registrySecret : string) : result deployment :=
  _ ← check (blank requestID || negb (ValidRevision requestID))
        (ErrSentinel "candidate request ID must be a 64 character lowercase hexadecimal value");
  _ ← check (negb (bool_decide (is_Some (Cfg_Hosting cfg)))) (ErrSentinel "candidate deployments require the hosting profile");
  _ ← check (negb (String.eqb (State_Mode (Cfg_State cfg)) DefaultStateMode))
        (ErrSentinel "candidate deployments require stateless state mode");
  _ ← match Validate cfg with Err e => Err (ErrWrap "invalid candidate configuration: %w" [] e) | Ok _ => Ok tt end;
  _ ← ValidateCandidateReferences cfg secretRevision registrySecret;
  candidateDeploymentForGeneration cfg namespace secretRevision (candidateGeneration (Cfg_Name cfg) requestID) registrySecret.

(** ** The NetworkPolicy of a hosted app (hosting_network.go) *)

Definition tcp_port (z : Z) : policy_port := MkPolicyPort (Some "TCP") (Some (IntPort (wrap_i32 z))).
Definition namespace_peer (name : string) (pods : option (gmap string string)) : policy_peer :=
  MkPeer (Some (match_labels {["kubernetes.io/metadata.name" := name]})) (match_labels <$> pods) None.

Definition policyIngress (cfg : Config) : list policy_rule :=
  let servicePort := tcp_port (Service_Port (Cfg_Service cfg)) in
  [MkRule [namespace_peer "kube-system" (Some {[appNameLabel := "traefik"]})] [servicePort];
   MkRule [MkPeer None (Some (match_labels {[serviceMonitorForLabel := Cfg_Name cfg]})) None] [servicePort]] ++
  match Cfg_Metrics cfg with
  | Some m => [MkRule [namespace_peer "deployer-monitoring" None] [tcp_port (Metrics_Port m)]]
  | None => []
  end.

Definition policyEgress (hosting : HostingConfig) : list policy_rule :=
  (if DNSAllowed (Hosting_Network hosting) then
     [MkRule [namespace_peer "kube-system" (Some {["k8s-app" := "kube-dns"]})]
        [MkPolicyPort (Some "UDP") (Some (IntPort 53)); MkPolicyPort (Some "TCP") (Some (IntPort 53))]]
   else []) ++
  ((fun rule => MkRule [MkPeer None None (Some (Egress_CIDR rule))] (tcp_port <$> default [] (Egress_Ports rule)))
   <$> Network_Egress (Hosting_Network hosting)).

(** [None] for an app without the hosting profile. *)
Definition networkPolicyForHostedApp (cfg : Config) (namespace : string) : option network_policy :=
  hosting ← Cfg_Hosting cfg;
  Some (MkPolicy
    (new_meta (Cfg_Name cfg) (if blank namespace then DefaultNamespace else namespace)
       (<[hostingProfileLabel := Hosting_Version hosting]> (managedAppLabels (Cfg_Name cfg))) ∅)
    (match_labels (<[hostingProfileLabel := Hosting_Version hosting]> (appLabels (Cfg_Name cfg))))
    ["Ingress"; "Egress"] (policyIngress cfg) (policyEgress hosting) no_rest).

Definition candidateNetworkPolicyForApp (cfg : Config) (namespace requestID : string) : result network_policy :=
  policy ← match networkPolicyForHostedApp cfg namespace with Some p => Ok p | None => Err (ErrSentinel "nil policy") end;
  selector ← CandidateSelector (Cfg_Name cfg) requestID;
  hosting ← match Cfg_Hosting cfg with Some h => Ok h | None => Err (ErrSentinel "nil hosting profile") end;
  let m := np_Meta policy in
  Ok (MkPolicy
        (new_meta (candidateDeploymentName (Cfg_Name cfg) requestID) (om_Namespace m)
           (<[candidateGenerationLabel := candidateGeneration (Cfg_Name cfg) requestID]> (om_Labels m)) (om_Annotations m))
        (match_labels (<[hostingProfileLabel := Hosting_Version hosting]> selector))
        (np_Types policy) (np_Ingress policy) (np_Egress policy) (np_Rest policy)).

(** ** Comparison up to defaults of the API server (candidate_compare.go) *)

(** The tag of an image decides the default pull policy; a colon before a slash is
    the port of a registry. *)
Definition defaultImagePullPolicy (image : string) : string :=
  let '(last, digest) := match cut_last image "@" with Some (before, _) => (before, true) | None => (image, false) end in
  let tag := match cut_last last ":" with
             | Some (_, t) => if contains_byte t "/" then "" else t
             | None => ""
             end in
  if (negb digest && String.eqb tag "") || String.eqb tag "latest" then "Always" else "IfNotPresent".

Definition normalizeCandidateProbe (p : probe) : probe :=
  MkProbe ((fun g : string * int_or_string * string => (g.1.1, g.1.2, or_default g.2 "HTTP")) <$> pr_HTTPGet p)
    (or_default_int (pr_TimeoutSeconds p) 1) (or_default_int (pr_PeriodSeconds p) 10)
    (or_default_int (pr_SuccessThreshold p) 1) (or_default_int (pr_FailureThreshold p) 3).

Definition normalizeContainer (c : container) : container :=
  MkContainer (c_Name c) (c_Image c)
    ((fun p => MkContainerPort (cp_Name p) (cp_ContainerPort p) (or_default (cp_Protocol p) "TCP")) <$> c_Ports c)
    (c_Env c) (c_EnvFrom c) (c_Requests c) (c_Limits c) (c_VolumeMounts c)
    (normalizeCandidateProbe <$> c_ReadinessProbe c) (normalizeCandidateProbe <$> c_LivenessProbe c)
    (normalizeCandidateProbe <$> c_StartupProbe c) (c_SecurityContext c)
    (or_default (c_ImagePullPolicy c) (defaultImagePullPolicy (c_Image c)))
    (or_default (c_TerminationMessagePath c) "/dev/termination-log") (or_default (c_TerminationMessagePolicy c) "File").

Definition normalizeCandidatePodSpec (p : pod_spec) : pod_spec :=
  MkPodSpec (normalizeContainer <$> ps_Containers p) (ps_Volumes p) (ps_ImagePullSecrets p) (ps_AutomountToken p)
    (ps_NodeSelector p) (ps_Spread p) (ps_Affinity p) true
    (or_default (ps_RestartPolicy p) "Always") (or_default (ps_DNSPolicy p) "ClusterFirst")
    (or_default (ps_SchedulerName p) "default-scheduler")
    (Some (default 30 (ps_GracePeriod p))) (Some (default true (ps_ServiceLinks p))).

Definition normalizeStrategy (s : strategy) : strategy :=
  let type := or_default (st_Type s) "RollingUpdate" in
  MkStrategy type
    (match st_RollingUpdate s with
     | Some r => Some r
     | None => if String.eqb type "RollingUpdate" then Some (Some (StringPort "25%"), Some (StringPort "25%")) else None
     end).

Definition revisionAnnotation : string := "deployment.kubernetes.io/revision".

Definition normalizeCandidateDeployment (d : deployment) : deployment :=
  let m := d_Meta d in
  MkDeployment
    (MkMeta (om_Name m) (om_Namespace m) (om_UID m) (om_ResourceVersion m) (om_Generation m) (om_Deleting m) (om_Labels m)
       (delete revisionAnnotation (om_Annotations m)))
    (Some (default 1 (d_Replicas d))) (d_Selector d) (d_PodLabels d) (d_PodAnnotations d)
    (normalizeCandidatePodSpec (d_Pod d)) (normalizeStrategy (d_Strategy d)) (d_MinReadySeconds d)
    (Some (default 10 (d_RevisionHistoryLimit d))) (Some (default 600 (d_ProgressDeadline d))) (d_Rest d) (d_Status d).

(** What is compared: names, labels, annotations and the specification; a nil map and
    an empty one are not distinguished, as every desired object has labels and
    normalization drops empty annotations. *)
Definition declared (d : deployment) :=
  let m := d_Meta d in
  (om_Name m, om_Namespace m, om_Labels m, om_Annotations m,
   (d_Replicas d, d_Selector d, d_PodLabels d, d_PodAnnotations d, d_Pod d),
   (d_Strategy d, d_MinReadySeconds d, d_RevisionHistoryLimit d, d_ProgressDeadline d, d_Rest d)).

Definition candidateDeploymentMatches (existing desired : deployment) : bool :=
  bool_decide (is_Some (d_Selector existing)) && bool_decide (is_Some (d_Selector desired)) &&
  bool_decide (declared (normalizeCandidateDeployment existing) = declared (normalizeCandidateDeployment desired)).

Definition normalizePolicyRule (r : policy_rule) : policy_rule :=
  MkRule (rule_Peers r) ((fun p => MkPolicyPort (Some (default "TCP" (pp_Protocol p))) (pp_Port p)) <$> rule_Ports r).

Definition normalizeCandidatePolicy (p : network_policy) : network_policy :=
  MkPolicy (np_Meta p) (np_PodSelector p)
    (if bool_decide (np_Types p = []) then
       "Ingress" :: (if bool_decide (np_Egress p = []) then [] else ["Egress"])
     else np_Types p)
    (normalizePolicyRule <$> np_Ingress p) (normalizePolicyRule <$> np_Egress p) (np_Rest p).

Definition policy_declared (p : network_policy) :=
  let m := np_Meta p in
  (om_Name m, om_Namespace m, om_Labels m, om_Annotations m,
   (np_PodSelector p, np_Types p, np_Ingress p, np_Egress p, np_Rest p)).

Definition candidateNetworkPolicyMatches (existing desired : network_policy) : bool :=
  bool_decide (policy_declared (normalizeCandidatePolicy existing) = policy_declared (normalizeCandidatePolicy desired)).

(** ** Status of a Deployment (controller.go, candidate_status.go) *)

Definition StatusHealthy : string := "healthy".
Definition StatusDegraded : string := "degraded".
Definition StatusUnavailable : string := "unavailable".

Definition deploymentReplicas (d : deployment) : Z := default 0 (d_Replicas d).

Definition statusForDeployment (d : deployment) : string :=
  let desired := deploymentReplicas d in
  let st := d_Status d in
  if (desired <? 1) || (ds_AvailableReplicas st <? 1) then StatusUnavailable
  else if (ds_AvailableReplicas st <? desired) || (ds_UpdatedReplicas st <? desired) || (ds_ReadyReplicas st <? desired) ||
          (ds_ObservedGeneration st <? om_Generation (d_Meta d)) then StatusDegraded
  else StatusHealthy.

(** The status reports exactly [n] replicas of the newest revision. *)
Definition settled (n : Z) (d : deployment) : bool :=
  let st := d_Status d in
  (1 <=? om_Generation (d_Meta d)) && (om_Generation (d_Meta d) <=? ds_ObservedGeneration st) &&
  (ds_Replicas st =? n) && (ds_UpdatedReplicas st =? n) && (ds_ReadyReplicas st =? n) && (ds_AvailableReplicas st =? n) &&
  (ds_UnavailableReplicas st =? 0).

Definition candidateStatusForDeployment (d : deployment) : string :=
  let desired := deploymentReplicas d in
  if (desired <? 1) || (ds_AvailableReplicas (d_Status d) <? 1) || om_Deleting (d_Meta d) then StatusUnavailable
  else if negb (settled desired d) then StatusDegraded
  else StatusHealthy.
End builders.
