(* ===== verification/WorkloadProps.v ===== *)
(** * Properties of the rendered objects

    Selection by labels, and what a candidate's Deployment and NetworkPolicy
    contain: the pods of a candidate are selected by its own selector and policy
    only, and run without privileges. *)

From S2P Require Import Prelude GoStrings Regexp Sha256 GoJson Appconfig AppconfigSpec Db Activation Candidate Workloads.
From Stdlib Require Import Ascii String.
Local Open Scope Z_scope.

(** A selector of equality requirements selects the labels that contain it. *)
Definition selects (sel labels : gmap string string) : Prop := sel ⊆ labels.
#[export] Instance selects_dec sel labels : Decision (selects sel labels) := _.

Lemma selects_lookup sel labels k v : selects sel labels -> sel !! k = Some v -> labels !! k = Some v.
Proof. intros Hs Hk. by eapply lookup_weaken. Qed.

Lemma selects_generation app g labels :
  selects (generation_selector app g) labels <->
  labels !! appOwnershipLabel = Some app /\ labels !! candidateGenerationLabel = Some g.
Proof.
  unfold selects, generation_selector. rewrite map_subseteq_spec. split.
  - intros Hs. split; apply Hs; by simplify_map_eq.
  - intros [Ha Hg] k v. rewrite lookup_insert_Some, lookup_singleton_Some. naive_solver.
Qed.

Section render.
Context `{KubeTypes} `{!KubePorts} `{KubeRest}.

(** A valid configuration is rendered under its own name. *)
Lemma selector_of_request app req sel :
  CandidateSelector app req = Ok sel -> sel = generation_selector app (candidateGeneration app req) /\ ValidRevision req = true.
Proof. unfold CandidateSelector. intros E. destruct (check _ _) as [[]|] eqn:C; simplify_eq/=. bools. done. Qed.

(** What a candidate takes from the rendering of its configuration. *)
Record candidate_of (cfg : Config) (namespace revision generation pull : string) (d : deployment) : Prop := {
  co_name : om_Name (d_Meta d) = candidateNameForGeneration (Cfg_Name cfg) generation;
  co_namespace : om_Namespace (d_Meta d) = namespace;
  co_version : om_ResourceVersion (d_Meta d) = "" /\ om_UID (d_Meta d) = "";
  co_labels : om_Labels (d_Meta d) = <[candidateGenerationLabel := generation]> (managedAppLabels (TrimSpace (Cfg_Name cfg)));
  co_selector : d_Selector d = Some (match_labels (generation_selector (Cfg_Name cfg) generation));
  co_pods : exists h, Cfg_Hosting cfg = Some h /\
    d_PodLabels d = <["deployer.io/state-mode" := State_Mode (Cfg_State cfg)]>
                    (<["deployer.io/resilience-mode" := Resilience_Mode (Cfg_Resilience cfg)]>
                    (<[hostingProfileLabel := Hosting_Version h]> (generation_selector (Cfg_Name cfg) generation)));
  co_base : exists base, deploymentForApp cfg namespace revision = Ok base /\ d_Replicas d = d_Replicas base /\
    ps_Containers (d_Pod d) = ps_Containers (d_Pod base) /\ ps_AutomountToken (d_Pod d) = ps_AutomountToken (d_Pod base) /\
    om_Annotations (d_Meta d) = om_Annotations (d_Meta base) /\ d_Rest d = no_rest /\ d_Status d = no_status
}.

(** The parts of the legacy Deployment other lemmas use. *)
Lemma deploymentForApp_meta cfg ns rev d : deploymentForApp cfg ns rev = Ok d ->
  om_Name (d_Meta d) = TrimSpace (Cfg_Name cfg) /\ om_Namespace (d_Meta d) = ns /\ om_UID (d_Meta d) = "" /\
  om_ResourceVersion (d_Meta d) = "" /\ om_Labels (d_Meta d) = managedAppLabels (TrimSpace (Cfg_Name cfg)) /\
  d_Selector d = Some (match_labels (appLabels (TrimSpace (Cfg_Name cfg)))) /\ d_Rest d = no_rest /\ d_Status d = no_status /\
  d_Replicas d = Some (let r := wrap_i32 (Deploy_Replicas (Cfg_Deploy cfg)) in if resilient (Normalize cfg) && (r <? 2) then 2 else r).
Proof.
  unfold deploymentForApp. intros E.
  repeat match type of E with
  | mbind _ ?m = Ok _ => destruct m as [?|?] eqn:?; simpl in E; [|discriminate E]
  | (let '(_, _) := ?p in _) = Ok _ => destruct p
  end.
  by injection E as <-.
Qed.

Lemma candidate_rendered cfg ns rev g pull d :
  candidateDeploymentForGeneration cfg ns rev g pull = Ok d -> candidate_of cfg ns rev g pull d.
Proof.
  unfold candidateDeploymentForGeneration. destruct (deploymentForApp cfg ns rev) as [base|] eqn:Eb; [|done]. simpl.
  destruct (Cfg_Hosting cfg) as [h|] eqn:Eh; [|done]. simpl. intros [= <-].
  destruct (deploymentForApp_meta _ _ _ _ Eb) as (En & Ens & Eu & Ev & El & Es & Er & Est & _).
  split; cbn; try done.
  - by rewrite El.
  - eauto.
  - exists base. destruct (String.eqb pull ""); cbn; by rewrite ?Er, ?Est.
Qed.

(** A hosted container gives up every privilege and has positive requests. *)
Definition unprivileged (c : container) : Prop :=
  exists s, c_SecurityContext c = Some s /\ sc_AllowPrivilegeEscalation s = Some false /\ sc_RunAsNonRoot s = Some true /\
    sc_Drop s = ["ALL"] /\ sc_Seccomp s = Some "RuntimeDefault".

Definition bounded_resources (c : container) : Prop :=
  forall r, r ∈ ["cpu"; "memory"; "ephemeral-storage"] ->
    exists q l, c_Requests c !! r = Some q /\ c_Limits c !! r = Some l /\ 0 < q <= l.

Lemma parse_positive_nanos prefix name value q : parse_positive prefix name value = Ok q -> 0 < Quantity_nanos q.
Proof.
  unfold parse_positive. intros E. destruct (check (blank value) _); [|done]. simpl in E. destruct (ParseQuantity value) as [q'|]; [|done].
  destruct (check (Quantity_Sign q' <=? 0) _) as [[]|] eqn:C; simplify_eq/=. rewrite Sign_nanos in *. bools. lia.
Qed.

Lemma parseResourceQuantities_nanos v prefix cpu mem sto : parseResourceQuantities v prefix = Ok (cpu, mem, sto) ->
  0 < Quantity_nanos cpu /\ 0 < Quantity_nanos mem /\ 0 < Quantity_nanos sto.
Proof.
  unfold parseResourceQuantities. intros E.
  destruct (parse_positive prefix "cpu" _) eqn:E1; [|done]. destruct (parse_positive prefix "memory" _) eqn:E2; [|done].
  destruct (parse_positive prefix "ephemeralStorage" _) eqn:E3; simplify_eq/=.
  split; [|split]; by eapply parse_positive_nanos.
Qed.

Lemma limit_covers_nanos name l r : limit_covers name l r = Ok tt -> Quantity_nanos r <= Quantity_nanos l.
Proof. unfold limit_covers. intros C. rewrite check_ok, Cmp_nanos in C. bools. lia. Qed.

Lemma hosted_resources h n rl : Hosting_Validate (Some h) n = Ok tt -> ResourceRequirements h = Ok rl ->
  forall r, r ∈ ["cpu"; "memory"; "ephemeral-storage"] -> exists q l, rl.1 !! r = Some q /\ rl.2 !! r = Some l /\ 0 < q <= l.
Proof.
  unfold Hosting_Validate, ResourceRequirements. intros Hv Er.
  destruct (check (negb (String.eqb (Hosting_Version h) "v1")) _); [|done]. simpl in Hv. destruct (check (_ || _) _); [|done]. simpl in Hv.
  destruct (check (Hosting_MaxReplicas h <? n) _); [|done]. simpl in Hv.
  destruct (parseResourceQuantities (Res_Requests _) _) as [[[rc rm] rs]|] eqn:E1; [|done].
  destruct (parseResourceQuantities (Res_Limits _) _) as [[[lc lm] ls]|] eqn:E2; [|done]. simplify_eq/=.
  destruct (limit_covers "cpu" lc rc) as [[]|] eqn:C1; [|done]. destruct (limit_covers "memory" lm rm) as [[]|] eqn:C2; [|done].
  destruct (limit_covers "ephemeralStorage" ls rs) as [[]|] eqn:C3; [|done].
  apply limit_covers_nanos in C1, C2, C3.
  destruct (parseResourceQuantities_nanos _ _ _ _ _ E1) as (? & ? & ?). clear Hv E1 E2.
  intros r Hr. repeat (apply elem_of_cons in Hr as [->|Hr]); [..|by apply elem_of_nil in Hr];
    eexists _, _; unfold resource_list; (split; [by simplify_map_eq|split; [by simplify_map_eq|lia]]).
Qed.

Lemma hosted_containers cfg ns rev d h : deploymentForApp cfg ns rev = Ok d -> Cfg_Hosting cfg = Some h ->
  ps_AutomountToken (d_Pod d) = Some false /\ (forall c, c ∈ ps_Containers (d_Pod d) -> unprivileged c /\ bounded_resources c).
Proof.
  unfold deploymentForApp. intros E Eh.
  match type of E with mbind _ ?m = _ => destruct m; [|done] end. simpl in E.
  destruct (Hosting_Validate _ _) as [[]|] eqn:Ev; [|done]. rewrite ?Eh in Ev, E. simpl in E. rewrite ?Eh in E.
  destruct (ResourceRequirements h) as [[rq lm]|] eqn:Er; [|done]. simpl in E.
  destruct (nodeSelector _); [|done]. simpl in E. destruct (environmentSource _ _) as [[? ?]|]; [|done]. simpl in E.
  destruct (check _ _); [|done]. simpl in E. injection E as <-. cbn. split; [done|].
  intros c ->%list_elem_of_singleton. split.
  - eexists. split; [done|]. done.
  - exact (hosted_resources _ _ _ Ev Er).
Qed.

Lemma valid_name_trim name : ValidAppName name = true -> TrimSpace name = name.
Proof.
  unfold ValidAppName. intros [_ (_ & Hb & _)%appNamePattern_spec]%andb_true_iff.
  apply TrimSpace_no_space. eapply forall_byte_impl; [|exact Hb].
  intros a Ha. unfold label_byte, is_lower_alnum, in_class, lower_alnum, byte_in in *. simpl in *. lia.
Qed.

Lemma generation_length app req : String.length (candidateGeneration app req) = 32%nat.
Proof. unfold candidateGeneration, sha256_hex. by rewrite s_length_take, EncodeToString_length, Sum256_length. Qed.

Lemma generation_not_inactive app req app' req' : candidateGeneration app req <> "inactive-" +:+ candidateGeneration app' req'.
Proof. intros E%(f_equal String.length). simpl in E. rewrite !generation_length in E. discriminate E. Qed.

(** What [CandidateDeploymentForApp] checks. *)
Lemma candidate_admitted cfg ns rev req pull d : CandidateDeploymentForApp cfg ns rev req pull = Ok d ->
  ValidRevision req = true /\ valid_config cfg /\ State_Mode (Cfg_State cfg) = DefaultStateMode /\ TrimSpace (Cfg_Name cfg) = Cfg_Name cfg /\
  (exists h, Cfg_Hosting cfg = Some h /\ valid_hosting h (hosting_replicas cfg)) /\
  candidate_of cfg ns rev (candidateGeneration (Cfg_Name cfg) req) pull d.
Proof.
  unfold CandidateDeploymentForApp. rewrite !check_bind. intros (Hr & Hh & Hs & E).
  destruct (Validate cfg) as [[]|] eqn:Ev; [|done]. simpl in E. destruct (ValidateCandidateReferences _ _ _); [|done]. simpl in E.
  apply Validate_valid_config in Ev as V. bools. apply candidate_rendered in E. apply String.eqb_eq in Hs.
  destruct Hh as [h Eh]. pose proof (vc_hosting _ V) as Vh. rewrite Eh in Vh.
  do 3 (split; [done|]). split; [by apply valid_name_trim, vc_name|]. split; [by exists h|done].
Qed.

(** A candidate asks for at least one replica. *)
Lemma candidate_replicas cfg ns rev req pull d : CandidateDeploymentForApp cfg ns rev req pull = Ok d ->
  exists r, d_Replicas d = Some r /\ 1 <= r.
Proof.
  intros (_ & V & _ & _ & (h & Eh & Vh) & C)%candidate_admitted.
  destruct (co_base _ _ _ _ _ _ C) as (base & Eb & -> & _). destruct (deploymentForApp_meta _ _ _ _ Eb) as (_ & _ & _ & _ & _ & _ & _ & _ & ->).
  eexists. split; [done|]. cbv zeta. clear C Eb.
  destruct V as [_ _ _ _ _ _ _ _ Vr _ _ _ _ _ _ _ _ _ _]. destruct Vh as (_ & ? & Hm & _).
  assert (Deploy_Replicas (Cfg_Deploy cfg) <= hosting_replicas cfg) by (unfold hosting_replicas; cases; lia).
  rewrite wrap_i32_small by lia. cases; lia.
Qed.

(** The rules of a policy name only the configured addresses. *)
Lemma egress_configured h rule peer cidr : rule ∈ policyEgress h -> peer ∈ rule_Peers rule -> peer_CIDR peer = Some cidr ->
  exists e, e ∈ Network_Egress (Hosting_Network h) /\ Egress_CIDR e = cidr /\ rule_Ports rule = tcp_port <$> default [] (Egress_Ports e).
Proof.
  unfold policyEgress. intros Hr Hp Hc. apply elem_of_app in Hr as [Hr|Hr].
  - destruct (DNSAllowed _); [|by apply elem_of_nil in Hr]. apply list_elem_of_singleton in Hr as ->. simpl in Hp.
    apply list_elem_of_singleton in Hp as ->. done.
  - apply list_elem_of_fmap in Hr as (e & -> & He). simpl in Hp. apply list_elem_of_singleton in Hp as ->. simplify_eq/=. eauto.
Qed.

(** The labels of a candidate's pods: its identity, and no label of the legacy Deployment. *)
Lemma candidate_pod_labels cfg ns rev g pull d : candidate_of cfg ns rev g pull d ->
  d_PodLabels d !! appOwnershipLabel = Some (Cfg_Name cfg) /\ d_PodLabels d !! candidateGenerationLabel = Some g /\
  d_PodLabels d !! appNameLabel = None /\ d_PodLabels d !! hostingProfileLabel = Hosting_Version <$> Cfg_Hosting cfg.
Proof.
  intros C. destruct (co_pods _ _ _ _ _ _ C) as (h & Eh & ->). rewrite Eh. unfold generation_selector.
  repeat split; by simplify_map_eq.
Qed.

Lemma app_labels_select app labels : selects (appLabels app) labels -> labels !! appNameLabel = Some app.
Proof. intros Hs. apply (selects_lookup _ _ _ _ Hs). unfold appLabels. by simplify_map_eq. Qed.

(** A policy the controller renders for an app as a whole selects only pods with the legacy label. *)
Lemma hosted_policy_select cfg ns p labels : networkPolicyForHostedApp cfg ns = Some p ->
  selects (ls_MatchLabels (np_PodSelector p)) labels -> is_Some (labels !! appNameLabel).
Proof.
  unfold networkPolicyForHostedApp. destruct (Cfg_Hosting cfg) as [h|]; [|done]. intros [= <-] Hs. exists (Cfg_Name cfg).
  apply (selects_lookup _ _ _ _ Hs). simpl. unfold appLabels. by simplify_map_eq.
Qed.

Lemma candidate_policy_select cfg ns req p : candidateNetworkPolicyForApp cfg ns req = Ok p ->
  (exists h, Cfg_Hosting cfg = Some h /\ np_Egress p = policyEgress h /\
    ls_MatchLabels (np_PodSelector p) =
      <[hostingProfileLabel := Hosting_Version h]> (generation_selector (Cfg_Name cfg) (candidateGeneration (Cfg_Name cfg) req))) /\
  np_Types p = ["Ingress"; "Egress"] /\ np_Ingress p = policyIngress cfg /\
  om_Name (np_Meta p) = candidateDeploymentName (Cfg_Name cfg) req.
Proof.
  unfold candidateNetworkPolicyForApp, networkPolicyForHostedApp. destruct (Cfg_Hosting cfg) as [h|] eqn:Eh; [|done]. simpl.
  destruct (CandidateSelector _ _) as [sel|] eqn:Es; [|done]. apply selector_of_request in Es as [-> _]. simpl.
  intros [= <-]. simpl. eauto 8.
Qed.

Lemma candidate_policy_selects cfg ns req p labels h : candidateNetworkPolicyForApp cfg ns req = Ok p -> Cfg_Hosting cfg = Some h ->
  selects (ls_MatchLabels (np_PodSelector p)) labels <->
  selects (generation_selector (Cfg_Name cfg) (candidateGeneration (Cfg_Name cfg) req)) labels /\
  labels !! hostingProfileLabel = Some (Hosting_Version h).
Proof.
  intros ((h' & Eh' & _ & ->) & _)%candidate_policy_select Eh. simplify_eq. rewrite selects_generation. unfold selects.
  rewrite map_subseteq_spec. split.
  - intros Hs. split; [split|]; apply Hs; unfold generation_selector; by simplify_map_eq.
  - intros [[Ha Hg] Hv] k v. unfold generation_selector. rewrite !lookup_insert_Some, lookup_singleton_Some. naive_solver.
Qed.

(** The pods of a candidate belong to it alone: its selector and its policy select
    them, and no Service or policy of an app as a whole, of another generation or of
    an inactive bootstrap does.  The policy denies what it does not allow and names
    only the configured addresses. *)
Definition isolated (cfg : Config) (namespace requestID : string) (d : deployment) (p : network_policy) : Prop :=
  let pods := d_PodLabels d in
  (exists sel, d_Selector d = Some (match_labels sel) /\ CandidateSelector (Cfg_Name cfg) requestID = Ok sel /\ selects sel pods) /\
  selects (ls_MatchLabels (np_PodSelector p)) pods /\ np_Types p = ["Ingress"; "Egress"] /\
  (forall other ns sel, Svc_Selector (serviceForApp other ns) = Some sel -> ~ selects sel pods) /\
  (forall other ns p', networkPolicyForHostedApp other ns = Some p' -> ~ selects (ls_MatchLabels (np_PodSelector p')) pods) /\
  (forall app req sel, CandidateSelector app req = Ok sel -> selects sel pods ->
     app = Cfg_Name cfg /\ candidateGeneration app req = candidateGeneration (Cfg_Name cfg) requestID) /\
  (forall app req, ~ selects (generation_selector app ("inactive-" +:+ candidateGeneration app req)) pods) /\
  (forall rule peer cidr, rule ∈ np_Egress p -> peer ∈ rule_Peers rule -> peer_CIDR peer = Some cidr ->
     exists h e, Cfg_Hosting cfg = Some h /\ e ∈ Network_Egress (Hosting_Network h) /\ Egress_CIDR e = cidr /\
       rule_Ports rule = tcp_port <$> default [] (Egress_Ports e)).

Lemma candidate_is_isolated cfg ns rev req pull d p :
  CandidateDeploymentForApp cfg ns rev req pull = Ok d -> candidateNetworkPolicyForApp cfg ns req = Ok p ->
  isolated cfg ns req d p.
Proof.
  intros (Hr & V & _ & _ & (h & Eh & _) & C)%candidate_admitted Ep.
  destruct (candidate_pod_labels _ _ _ _ _ _ C) as (La & Lg & Ln & Lh). rewrite Eh in Lh.
  assert (Own : selects (generation_selector (Cfg_Name cfg) (candidateGeneration (Cfg_Name cfg) req)) (d_PodLabels d)).
  { apply selects_generation. done. }
  pose proof (candidate_policy_select _ _ _ _ Ep) as ((h' & Eh' & Eg & _) & Et & _). simplify_eq.
  split; [|split; [|split; [done|split; [|split; [|split; [|split]]]]]].
  - exists (generation_selector (Cfg_Name cfg) (candidateGeneration (Cfg_Name cfg) req)). split; [by apply C|]. split; [|done].
    unfold CandidateSelector. rewrite Hr. pose proof (valid_name_trim _ (vc_name _ V)) as Tn. unfold blank. rewrite Tn.
    destruct (String.eqb_spec (Cfg_Name cfg) ""); [|done]. pose proof (vc_name _ V) as Vn. by rewrite e in Vn.
  - apply (candidate_policy_selects _ _ _ _ _ _ Ep Eh). done.
  - intros other ns' sel [= <-] Hs%app_labels_select. congruence.
  - intros other ns' p' Ep' [? Hs]%(hosted_policy_select _ _ _ _ Ep'). congruence.
  - intros app req' sel [-> _]%selector_of_request [Ha Hg]%selects_generation. split; congruence.
  - intros app req' [Ha Hg]%selects_generation. rewrite Lg in Hg. injection Hg as Hg. by apply generation_not_inactive in Hg.
  - rewrite Eg. intros rule peer cidr R1 R2 R3. destruct (egress_configured _ _ _ _ R1 R2 R3) as (e & ? & ? & ?). eauto 8.
Qed.

(** ** Comparison up to defaults *)

(** Fields that normalization keeps are equal in matching objects. *)
Lemma fmap_kept {A B C} (n : A -> B) (f : A -> C) (g : B -> C) (l l' : list A) :
  (forall a, g (n a) = f a) -> n <$> l = n <$> l' -> f <$> l = f <$> l'.
Proof.
  intros Hk E%(f_equal (fmap g)). rewrite <- !list_fmap_compose in E.
  by rewrite (list_fmap_ext f (g ∘ n) l), (list_fmap_ext f (g ∘ n) l') by (intros; simpl; by rewrite Hk).
Qed.

Lemma matches_fields existing desired : candidateDeploymentMatches existing desired = true ->
  om_Name (d_Meta existing) = om_Name (d_Meta desired) /\ om_Labels (d_Meta existing) = om_Labels (d_Meta desired) /\
  d_Selector existing = d_Selector desired /\ d_PodLabels existing = d_PodLabels desired /\
  default 1 (d_Replicas existing) = default 1 (d_Replicas desired) /\
  delete revisionAnnotation (om_Annotations (d_Meta existing)) = delete revisionAnnotation (om_Annotations (d_Meta desired)) /\
  ps_AutomountToken (d_Pod existing) = ps_AutomountToken (d_Pod desired) /\
  c_SecurityContext <$> ps_Containers (d_Pod existing) = c_SecurityContext <$> ps_Containers (d_Pod desired).
Proof.
  unfold candidateDeploymentMatches. intros [_ E%bool_decide_eq_true]%andb_true_iff.
  unfold declared in E. cbn [normalizeCandidateDeployment d_Meta om_Name om_Namespace om_Labels om_Annotations d_Replicas d_Selector
    d_PodLabels d_PodAnnotations d_Pod d_Strategy d_MinReadySeconds d_RevisionHistoryLimit d_ProgressDeadline d_Rest] in E.
  pose proof (f_equal (fun t => t.1.2.2) E) as Ep. cbn [fst snd] in Ep.
  pose proof (f_equal (fun t => (t.1.1, t.1.2.1)) E) as Em. cbn [fst snd] in Em. injection Em as En _ El Ea Er Es Epl _.
  do 6 (split; [done|]). split.
  - by apply (f_equal ps_AutomountToken) in Ep.
  - apply (f_equal ps_Containers) in Ep. by apply (fmap_kept normalizeContainer c_SecurityContext c_SecurityContext) in Ep.
Qed.
End render.
