(* ===== verification/Cluster.v ===== *)
(** * The Kubernetes API as the controller uses it

    Objects of every kind the controller touches, and the calls of its clients:
    Get, List, Create, Update, Delete and Evict.  The API server is an interface: a ghost
    history of the versions of every object and the documented laws of optimistic
    concurrency.  Other clients may act before and after the moment a call takes
    effect; what they do is the relation [others] of the interface.  A write that
    is answered with an error may or may not have taken effect. *)

From S2P Require Import Prelude GoStrings Regexp GoJson Appconfig Db Activation Candidate Workloads.
From Stdlib Require Import Ascii String.
Local Open Scope Z_scope.

(** ** Objects *)

(** A container or init container of a running Pod: its requests; a volume: its claim. *)
Record pod := MkPod {
  pod_Meta : object_meta; pod_NodeName : string; pod_Phase : string; pod_Requests : list (gmap string Z);
  pod_InitRequests : list (gmap string Z); pod_Overhead : gmap string Z; pod_HasResources : bool; pod_Claims : list string }.
#[export] Instance pod_eq_dec : EqDecision pod.
Proof. solve_decision. Defined.

Record secret := MkSecret {
  sec_Meta : object_meta; sec_Type : string; sec_Immutable : option bool; sec_Data : gmap string string }.
#[export] Instance secret_eq_dec : EqDecision secret.
Proof. solve_decision. Defined.

(** Rules: host, then path, Service and port; TLS: hosts and Secret. *)
Record ingress := MkIngress {
  ing_Meta : object_meta; ing_Class : string; ing_TLS : list (list string * string);
  ing_Rules : list (string * list (string * string * Z)) }.
#[export] Instance ingress_eq_dec : EqDecision ingress.
Proof. solve_decision. Defined.

Record budget := MkBudget { pdb_Meta : object_meta; pdb_MinAvailable : int_or_string; pdb_Selector : label_selector }.
#[export] Instance budget_eq_dec : EqDecision budget.
Proof. solve_decision. Defined.

(** An unstructured object: API version, kind, metadata and the specification. *)
Record dynamic := MkDynamic { dyn_APIVersion : string; dyn_Kind : string; dyn_Meta : object_meta; dyn_Spec : json }.

(** Conditions: type, status and message; taints: their effects; allocatable amounts. *)
Record knode := MkKNode {
  kn_Meta : object_meta; kn_Unschedulable : bool; kn_Conditions : list (string * string * string); kn_Taints : list string;
  kn_Allocatable : gmap string Z }.

Record volume_claim := MkClaim {
  pvc_Meta : object_meta; pvc_VolumeMode : option string; pvc_Phase : string; pvc_VolumeName : string;
  pvc_AccessModes : list string }.

(** Node affinity: the required terms, each a list of key, operator and values. *)
Record volume := MkVolume {
  pv_Meta : object_meta; pv_ReclaimPolicy : string; pv_Local : bool; pv_ClaimRef : option (string * string);
  pv_Required : option (list (list (string * string * list string))) }.

(** An object of the database operator: metadata, and the tree that holds its
    specification and status. *)
Record custom := MkCustom { cu_Meta : object_meta; cu_Body : json }.

(** Objects that the operator generates; the controller only asks whether they exist. *)
Inductive generated := GServiceAccount | GJob | GLease | GRole | GRoleBinding.
#[export] Instance generated_eq_dec : EqDecision generated.
Proof. solve_decision. Defined.

Inductive kind := KDeployment | KPolicy | KService | KPod | KSecret | KIngress | KBudget | KMiddleware | KTransport | KIssuer
  | KNamespace | KNode | KClaim | KVolume | KDatabase | KQuorum | KGenerated (g : generated).
#[export] Instance kind_eq_dec : EqDecision kind.
Proof. solve_decision. Defined.

Section objects.
Context `{KubeTypes} `{KubeRest}.

Inductive object :=
| ODeployment (d : deployment)
| OPolicy (p : network_policy)
| OService (s : Service)
| OPod (p : pod)
| OSecret (s : secret)
| OIngress (i : ingress)
| OBudget (b : budget)
| OMiddleware (u : dynamic)
| OTransport (u : dynamic)
| OIssuer (u : dynamic)
| ONamespace (m : object_meta)
| ONode (n : knode)
| OClaim (c : volume_claim)
| OVolume (v : volume)
| ODatabase (c : custom)
| OQuorum (c : custom)
| OGenerated (g : generated) (m : object_meta).

Definition kind_of (o : object) : kind :=
  match o with
  | ODeployment _ => KDeployment | OPolicy _ => KPolicy | OService _ => KService | OPod _ => KPod | OSecret _ => KSecret
  | OIngress _ => KIngress | OBudget _ => KBudget | OMiddleware _ => KMiddleware | OTransport _ => KTransport | OIssuer _ => KIssuer
  | ONamespace _ => KNamespace | ONode _ => KNode | OClaim _ => KClaim | OVolume _ => KVolume
  | ODatabase _ => KDatabase | OQuorum _ => KQuorum | OGenerated g _ => KGenerated g
  end.

Definition service_meta (s : Service) : object_meta :=
  MkMeta (Svc_Name s) (Svc_Namespace s) (Svc_UID s) (Svc_ResourceVersion s) 0 (Svc_Deleting s) (Svc_Labels s) (Svc_Annotations s).

Definition meta (o : object) : object_meta :=
  match o with
  | ODeployment d => d_Meta d | OPolicy p => np_Meta p | OService s => service_meta s | OPod p => pod_Meta p
  | OSecret s => sec_Meta s | OIngress i => ing_Meta i | OBudget b => pdb_Meta b | OMiddleware u | OTransport u | OIssuer u => dyn_Meta u
  | ONamespace m => m | ONode n => kn_Meta n | OClaim c => pvc_Meta c | OVolume v => pv_Meta v
  | ODatabase c | OQuorum c => cu_Meta c | OGenerated _ m => m
  end.

Definition name_of (o : object) : string := om_Name (meta o).
Definition uid (o : object) : string := om_UID (meta o).
Definition version (o : object) : string := om_ResourceVersion (meta o).
Definition owner (o : object) : string := map_get (om_Labels (meta o)) appOwnershipLabel.

(** ** Histories: the versions of one name, newest first; [None] is a deletion *)

Notation hist := (list (option object)).

Definition current (h : hist) : option object := mjoin (head h).

(** [h'] is [h] with later changes, each allowed by [R], which sees the history before. *)
Inductive grows_by (R : hist -> option object -> Prop) (h : hist) : hist -> Prop :=
| grows_refl : grows_by R h h
| grows_step h' o : grows_by R h h' -> R h' o -> grows_by R h (o :: h').

Lemma grows_by_trans R h1 h2 h3 : grows_by R h1 h2 -> grows_by R h2 h3 -> grows_by R h1 h3.
Proof. intros G1. induction 1; [done|]. by constructor. Qed.

Lemma grows_by_suffix R h h' : grows_by R h h' -> h `suffix_of` h'.
Proof. induction 1; [done|]. by apply suffix_cons_r. Qed.

Lemma grows_by_impl (R R' : hist -> option object -> Prop) h h' :
  (forall h o, R h o -> R' h o) -> grows_by R h h' -> grows_by R' h h'.
Proof. intros Hi. induction 1; constructor; eauto. Qed.

(** A property of histories that every allowed change keeps. *)
Lemma grows_by_keeps (R : hist -> option object -> Prop) (P : hist -> Prop) h h' :
  (forall h o, P h -> R h o -> P (o :: h)) -> grows_by R h h' -> P h -> P h'.
Proof. intros Hk. induction 1; eauto. Qed.

(** What the server stores for a write: the written object, completed with identity,
    version and defaults.  Labels and annotations are stored as written; of a
    Deployment the specification is stored up to the defaults the program knows,
    with its replicas always set; of a Service the ports are completed; of a node the
    flag that keeps new Pods away is stored as written. *)
Definition admits (default_ports : option (list service_port) -> option (list service_port)) (o o' : object) : Prop :=
  kind_of o' = kind_of o /\ name_of o' = name_of o /\ om_Labels (meta o') = om_Labels (meta o) /\
  om_Annotations (meta o') = om_Annotations (meta o) /\ uid o' <> "" /\ version o' <> "" /\
  match o with
  | ODeployment d => exists d', o' = ODeployment d' /\ d_Replicas d' = Some (default 1 (d_Replicas d)) /\
      declared (normalizeCandidateDeployment d') = declared (normalizeCandidateDeployment d)
  | OPolicy p => exists p', o' = OPolicy p' /\
      policy_declared (normalizeCandidatePolicy p') = policy_declared (normalizeCandidatePolicy p)
  | OService s => exists i v, o' = OService (MkService (Svc_Name s) (Svc_Namespace s) i v (Svc_Deleting s) (Svc_Labels s)
      (Svc_Annotations s) (Svc_Selector s) (default_ports (Svc_Ports s)))
  | OSecret s => exists s', o' = OSecret s' /\ sec_Type s' = sec_Type s /\ sec_Immutable s' = sec_Immutable s /\ sec_Data s' = sec_Data s
  | ONode n => exists n', o' = ONode n' /\ kn_Unschedulable n' = kn_Unschedulable n
  | _ => True
  end.

(** The writer names the version and identity it replaces, or leaves them empty. *)
Definition names_version (o old : object) : Prop :=
  (version o = "" \/ version o = version old) /\ (uid o = "" \/ uid o = uid old).

Record preconditions := MkPre { pre_UID : option string; pre_Version : option string }.

Definition meets (p : preconditions) (o : object) : Prop :=
  (forall u, pre_UID p = Some u -> uid o = u) /\ (forall v, pre_Version p = Some v -> version o = v).

Class Cluster (K : Type) := {
  k_get : kind -> string -> K -> result object * K;
  k_list : kind -> gmap string string -> K -> result (list object) * K;
  k_list_pods_everywhere : K -> result (list pod) * K; (* Pods of all namespaces *)
  k_create : object -> K -> result object * K;
  k_update : object -> K -> result object * K;
  k_delete : kind -> string -> preconditions -> K -> result unit * K;

  k_evict : string -> K -> result unit * K; (* an Eviction of the named Pod *)

  history : K -> kind -> string -> hist;
  cluster_wf : K -> Prop;
  others : kind -> string -> hist -> option object -> Prop;
  complete_ports : option (list service_port) -> option (list service_port);

  (* every call leaves the names it does not write to the others *)
  get_frame : forall kd n k r k', cluster_wf k -> k_get kd n k = (r, k') ->
    cluster_wf k' /\ forall kd' n', grows_by (others kd' n') (history k kd' n') (history k' kd' n');
  list_frame : forall kd sel k r k', cluster_wf k -> k_list kd sel k = (r, k') ->
    cluster_wf k' /\ forall kd' n', grows_by (others kd' n') (history k kd' n') (history k' kd' n');
  everywhere_frame : forall k r k', cluster_wf k -> k_list_pods_everywhere k = (r, k') ->
    cluster_wf k' /\ forall kd' n', grows_by (others kd' n') (history k kd' n') (history k' kd' n');
  create_frame : forall o k r k', cluster_wf k -> k_create o k = (r, k') ->
    cluster_wf k' /\ forall kd n, (kd, n) <> (kind_of o, name_of o) -> grows_by (others kd n) (history k kd n) (history k' kd n);
  update_frame : forall o k r k', cluster_wf k -> k_update o k = (r, k') ->
    cluster_wf k' /\ forall kd n, (kd, n) <> (kind_of o, name_of o) -> grows_by (others kd n) (history k kd n) (history k' kd n);
  delete_frame : forall kd n pre k r k', cluster_wf k -> k_delete kd n pre k = (r, k') ->
    cluster_wf k' /\ forall kd' n', (kd', n') <> (kd, n) -> grows_by (others kd' n') (history k kd' n') (history k' kd' n');

  evict_frame : forall n k r k', cluster_wf k -> k_evict n k = (r, k') ->
    cluster_wf k' /\ forall kd' n', (kd', n') <> (KPod, n) -> grows_by (others kd' n') (history k kd' n') (history k' kd' n');

  (* an object that is read was current during the call *)
  get_read : forall kd n k o k', cluster_wf k -> k_get kd n k = (Ok o, k') ->
    exists h, grows_by (others kd n) (history k kd n) h /\ current h = Some o /\ grows_by (others kd n) h (history k' kd n);
  (* a list is the selected part of one moment *)
  list_read : forall kd sel k l k', cluster_wf k -> k_list kd sel k = (Ok l, k') ->
    exists h, (forall n, grows_by (others kd n) (history k kd n) (h n) /\ grows_by (others kd n) (h n) (history k' kd n)) /\
      forall o, o ∈ l <-> exists n, current (h n) = Some o /\ sel ⊆ om_Labels (meta o);

  (* a write takes effect at most once; it is confirmed only when it did *)
  create_write : forall o k r k', cluster_wf k -> k_create o k = (r, k') ->
    let n := name_of o in let kd := kind_of o in
    (grows_by (others kd n) (history k kd n) (history k' kd n) /\ is_ok r = false) \/
    exists h o', grows_by (others kd n) (history k kd n) h /\ current h = None /\ admits complete_ports o o' /\
      Forall (fun x => forall old, x = Some old -> uid old <> uid o') h /\
      grows_by (others kd n) (Some o' :: h) (history k' kd n) /\ (forall x, r = Ok x -> x = o');
  update_write : forall o k r k', cluster_wf k -> k_update o k = (r, k') ->
    let n := name_of o in let kd := kind_of o in
    (grows_by (others kd n) (history k kd n) (history k' kd n) /\ is_ok r = false) \/
    exists h old, grows_by (others kd n) (history k kd n) h /\ current h = Some old /\ names_version o old /\
      ((admits complete_ports o old /\ version o = version old /\ grows_by (others kd n) h (history k' kd n) /\ (forall x, r = Ok x -> x = old)) \/
       (exists o', admits complete_ports o o' /\ uid o' = uid old /\
          (kind_of o = KService -> ~ (admits complete_ports o old /\ version o = version old)) /\
          grows_by (others kd n) (Some o' :: h) (history k' kd n) /\ (forall x, r = Ok x -> x = o')));
  delete_write : forall kd n pre k r k', cluster_wf k -> k_delete kd n pre k = (r, k') ->
    (grows_by (others kd n) (history k kd n) (history k' kd n) /\ is_ok r = false) \/
    exists h old after, grows_by (others kd n) (history k kd n) h /\ current h = Some old /\ meets pre old /\
      (forall o', after = Some o' -> om_Deleting (meta o') = true) /\
      grows_by (others kd n) (after :: h) (history k' kd n);

  evict_write : forall n k r k', cluster_wf k -> k_evict n k = (r, k') ->
    (grows_by (others KPod n) (history k KPod n) (history k' KPod n) /\ is_ok r = false) \/
    exists h old after, grows_by (others KPod n) (history k KPod n) h /\ current h = Some old /\
      (forall o', after = Some o' -> om_Deleting (meta o') = true) /\
      grows_by (others KPod n) (after :: h) (history k' KPod n);

  (* stored objects have their name, an identity and a version; versions are never reused *)
  stored_object : forall k kd n o, cluster_wf k -> Some o ∈ history k kd n ->
    kind_of o = kd /\ name_of o = n /\ uid o <> "" /\ version o <> "";
  stored_service : forall k n s, cluster_wf k -> Some (OService s) ∈ history k KService n -> complete_ports (Svc_Ports s) = Svc_Ports s;
  version_once : forall k kd n i j o1 o2, cluster_wf k -> history k kd n !! i = Some (Some o1) ->
    history k kd n !! j = Some (Some o2) -> version o1 = version o2 -> i = j
}.
End objects.
Notation hist := (list (option object)).

(** ** The Services of a cluster: the interface of the activation gate *)

Section services.
Context `{KubeTypes} `{KubeRest} {K : Type} `{!Cluster K}.

Definition wrong_kind : error := ErrSentinel "unexpected object kind".

Definition as_service (o : object) : result Service := match o with OService s => Ok s | _ => Err wrong_kind end.
Definition to_service (o : option object) : option Service := match o with Some (OService s) => Some s | _ => None end.

Definition services_get (n : string) : ST K Service := o ← k_get KService n; lift (as_service o).
Definition services_update (s : Service) : ST K Service := o ← k_update (OService s); lift (as_service o).
Definition service_versions (k : K) (n : string) : list (option Service) := to_service <$> history k KService n.

Lemma fmap_suffix {A B} (f : A -> B) (l l' : list A) : l `suffix_of` l' -> f <$> l `suffix_of` f <$> l'.
Proof. intros [e ->]. exists (f <$> e). apply fmap_app. Qed.

Lemma current_head (h : hist) o : current h = Some o -> exists older, h = Some o :: older.
Proof. destruct h as [|[x|] older]; intros E; [done| |done]. injection E as ->. by exists older. Qed.

Lemma services_get_frame n k r k' : cluster_wf k -> services_get n k = (r, k') ->
  cluster_wf k' /\ forall m, service_versions k m `suffix_of` service_versions k' m.
Proof.
  intros Hw E. assert (exists r0, k_get KService n k = (r0, k')) as [r0 E0].
  { unfold services_get in E. apply st_bind_inv in E as [(e & He & _)|(o & k1 & He & [= _ <-])]; eauto. }
  destruct (get_frame _ _ _ _ _ Hw E0) as [Hw' Hf]. split; [done|]. intros m. by eapply fmap_suffix, grows_by_suffix, Hf.
Qed.

Lemma service_history k n o : cluster_wf k -> Some o ∈ history k KService n -> exists s, o = OService s /\ Svc_Name s = n.
Proof. intros Hw Hin. destruct (stored_object _ _ _ _ Hw Hin) as (Ek & En & _). destruct o; try discriminate. eauto. Qed.

Lemma services_update_frame s k r k' : cluster_wf k -> services_update s k = (r, k') ->
  cluster_wf k' /\ forall m, service_versions k m `suffix_of` service_versions k' m.
Proof.
  intros Hw E. assert (exists r0, k_update (OService s) k = (r0, k')) as [r0 E0].
  { unfold services_update in E. apply st_bind_inv in E as [(e & He & _)|(o & k1 & He & [= _ <-])]; eauto. }
  destruct (update_frame _ _ _ _ Hw E0) as [Hw' Hf]. split; [done|]. intros m. apply fmap_suffix.
  destruct (decide (m = Svc_Name s)) as [->|Hm].
  - destruct (update_write _ _ _ _ Hw E0) as [[Hg _]|(h & old & Hg & _ & _ & Hc)]; [by eapply grows_by_suffix|].
    destruct Hc as [(_ & _ & Hg2 & _)|(o' & _ & _ & _ & Hg2 & _)]; apply grows_by_suffix in Hg, Hg2.
    + by trans h.
    + trans h; [done|]. trans (Some o' :: h); [by apply suffix_cons_r|done].
  - eapply grows_by_suffix, Hf. intros [=]. done.
Qed.

Lemma services_get_current n k s k' : cluster_wf k -> services_get n k = (Ok s, k') ->
  Svc_Name s = n /\ exists newer older, service_versions k' n = (newer ++ Some s :: older)%list /\
    service_versions k n `suffix_of` Some s :: older.
Proof.
  intros Hw E. destruct (services_get_frame _ _ _ _ Hw E) as [Hw' _]. unfold services_get in E.
  apply st_bind_ok in E as (o & k1 & E0 & [= Eo <-]).
  destruct (get_read _ _ _ _ _ Hw E0) as (h & G1 & (older & ->)%current_head & [newer G2]%grows_by_suffix).
  destruct o; try discriminate. injection Eo as ->. apply grows_by_suffix in G1. unfold service_versions. split.
  - destruct (service_history k1 n (OService s) Hw') as (s' & [= <-] & ?); [|done]. rewrite G2. apply elem_of_app. right. by left.
  - exists (to_service <$> newer), (to_service <$> older). rewrite G2, fmap_app. split; [done|]. by apply (fmap_suffix to_service) in G1.
Qed.

Lemma services_update_current s k s' k' : cluster_wf k -> Svc_ResourceVersion s <> "" -> Svc_UID s <> "" ->
  services_update s k = (Ok s', k') ->
  exists old newer older, service_versions k (Svc_Name s) `suffix_of` Some old :: older /\
    Svc_ResourceVersion old = Svc_ResourceVersion s /\ Svc_UID old = Svc_UID s /\
    ((s' = old /\ stored complete_ports s = old /\ service_versions k' (Svc_Name s) = (newer ++ Some old :: older)%list) \/
     (s' = with_version (Svc_ResourceVersion s') (stored complete_ports s) /\ stored complete_ports s <> old /\
      service_versions k' (Svc_Name s) = (newer ++ Some s' :: Some old :: older)%list)).
Proof.
  intros Hw Nv Nu E. destruct (services_update_frame _ _ _ _ Hw E) as [Hw' _]. unfold services_update in E.
  apply st_bind_ok in E as (o & k1 & E0 & [= Eo <-]). destruct o as [| |x| | | | | | | | | | | | | |]; try discriminate. injection Eo as ->.
  destruct (update_write _ _ _ _ Hw E0) as [[_ ?]|(h & old & G1 & Hcur & [[Hv|Hv] [Hu|Hu]] & Hc)]; try done.
  change (name_of (OService s)) with (Svc_Name s) in *. change (kind_of (OService s)) with KService in *. apply current_head in Hcur as [older ->].
  apply grows_by_suffix, (fmap_suffix to_service) in G1.
  assert (Hin : Some old ∈ history k1 KService (Svc_Name s)).
  { destruct Hc as [(_ & _ & [e ->]%grows_by_suffix & _)|(o' & _ & _ & _ & [e ->]%grows_by_suffix & _)];
      apply elem_of_app; right; [by left|right; by left]. }
  destruct (service_history _ _ _ Hw' Hin) as (s0 & -> & _).
  exists s0. unfold service_versions. destruct Hc as [(Ha & _ & [e ->]%grows_by_suffix & Hx)|(o' & Ha & Eu & Hne & [e ->]%grows_by_suffix & Hx)].
  - specialize (Hx _ eq_refl) as [= ->]. exists (to_service <$> e), (to_service <$> older). rewrite fmap_app.
    split; [done|]. split; [done|]. split; [done|]. left. split; [done|]. split; [|done].
    destruct Ha as (_ & _ & _ & _ & _ & _ & i & v & [= ->]). unfold uid, version in *. simpl in *. by subst.
  - specialize (Hx _ eq_refl) as <-. exists (to_service <$> e), (to_service <$> older). rewrite fmap_app.
    split; [done|]. split; [done|]. split; [done|]. right. pose proof Ha as (_ & _ & _ & _ & _ & _ & i & v & [= ->]).
    unfold uid, version in *. simpl in *. subst. split; [by rewrite <- Hu|]. split; [|done].
    intros Est. apply Hne; [done|]. split; [|by rewrite <- Est]. rewrite <- Est. unfold admits, uid, version, name_of. simpl. by eauto 10.
Qed.

#[export, refine] Instance cluster_services : ServiceAPI K := {|
  services_Get := services_get; services_Update := services_update; versions := service_versions; kube_wf := cluster_wf;
  default_ports := complete_ports; get_grows := services_get_frame; update_grows := services_update_frame;
  get_current := services_get_current; update_current := services_update_current; versions_stored := _; versions_unique := _ |}.
Proof.
  - intros k n s Hw (o & Eo & Hin)%list_elem_of_fmap. destruct o as [[]|]; try discriminate. injection Eo as ->.
    split; [by destruct (service_history _ _ _ Hw Hin) as (? & [= <-] & ?)|by eapply stored_service].
  - intros k n i j s1 s2 Hw (o1 & E1 & L1)%list_lookup_fmap_Some (o2 & E2 & L2)%list_lookup_fmap_Some Ev.
    destruct o1 as [[]|]; try discriminate. destruct o2 as [[]|]; try discriminate. simplify_eq/=. by eapply version_once.
Defined.
End services.
