(* ===== verification/Resources.v ===== *)
(** * Reconciling and deleting the objects of an app (internal/ingress: resources.go,
      environment.go, traffic_resilience.go, hosting_network.go, controller.go)

    The controller with every client of [NewController] set.  Each object is
    created when it is missing and otherwise replaced only when its labels say
    that it belongs to the app; deletions name the identity that was read. *)

From S2P Require Import Prelude GoStrings Regexp GoJson Appconfig Db Security Activation Candidate Workloads Cluster.
From Stdlib Require Import Ascii String.
Local Open Scope Z_scope.

(** ** Clients of one kind *)

Section clients.
Context `{KubeTypes} `{!KubePorts} `{KubeRest} {K : Type} `{!Cluster K}.

Definition as_deployment (o : object) : option deployment := match o with ODeployment d => Some d | _ => None end.
Definition as_policy (o : object) : option network_policy := match o with OPolicy p => Some p | _ => None end.
Definition as_pod (o : object) : option pod := match o with OPod p => Some p | _ => None end.
Definition as_secret (o : object) : option secret := match o with OSecret s => Some s | _ => None end.
Definition as_ingress (o : object) : option ingress := match o with OIngress i => Some i | _ => None end.
Definition as_budget (o : object) : option budget := match o with OBudget b => Some b | _ => None end.
Definition as_dynamic (o : object) : option dynamic :=
  match o with OMiddleware u | OTransport u | OIssuer u => Some u | _ => None end.

Definition typed {A} (as_ : object -> option A) (m : ST K object) : ST K A :=
  o ← m; match as_ o with Some a => mret a | None => throw wrong_kind end.

Definition deployments_Get (n : string) : ST K deployment := typed as_deployment (k_get KDeployment n).
Definition deployments_Create (d : deployment) : ST K deployment := typed as_deployment (k_create (ODeployment d)).
Definition deployments_Update (d : deployment) : ST K deployment := typed as_deployment (k_update (ODeployment d)).
Definition policies_Get (n : string) : ST K network_policy := typed as_policy (k_get KPolicy n).
Definition secrets_Get (n : string) : ST K secret := typed as_secret (k_get KSecret n).
Definition ingresses_Get (n : string) : ST K ingress := typed as_ingress (k_get KIngress n).
Definition budgets_Get (n : string) : ST K budget := typed as_budget (k_get KBudget n).
Definition dynamic_Get (kd : kind) (n : string) : ST K dynamic := typed as_dynamic (k_get kd n).

Definition list_as {A} (as_ : object -> option A) (kd : kind) (sel : gmap string string) : ST K (list A) :=
  l ← k_list kd sel; mret (omap as_ l).
Definition deployments_List : gmap string string -> ST K (list deployment) := list_as as_deployment KDeployment.
Definition pods_List : gmap string string -> ST K (list pod) := list_as as_pod KPod.
Definition secrets_List : gmap string string -> ST K (list secret) := list_as as_secret KSecret.

(** A read that distinguishes a missing object from a failure. *)
Definition find_opt {A} (wrap : error -> error) (m : ST K A) : ST K (option A) :=
  found ← attempt m;
  match found with
  | Ok a => mret (Some a)
  | Err e => if IsNotFound e then mret None else throw (wrap e)
  end.

Definition wrap_name (format name : string) (e : error) : error := ErrWrap format [AStr name] e.
Definition wrap (format : string) (e : error) : error := ErrWrap format [] e.

(** [ownedDeleteOptions], [ownedDeleteOptionsWithResourceVersion] *)
Definition nonempty (s : string) : option string := if String.eqb s "" then None else Some s.
Definition ownedDeleteOptions (m : object_meta) : preconditions := MkPre (nonempty (om_UID m)) None.
Definition ownedDeleteOptionsWithResourceVersion (m : object_meta) : preconditions :=
  MkPre (nonempty (om_UID m)) (nonempty (om_ResourceVersion m)).

(** [errors.Join] of the results of calls made one after the other. *)
Definition join_error (a b : result unit) : result unit :=
  match a, b with
  | Ok _, r => r
  | Err e, Ok _ => Err e
  | Err e, Err e' => Err (ErrJoin e e')
  end.

Fixpoint join_calls (ms : list (ST K unit)) : ST K (result unit) :=
  match ms with
  | [] => mret (Ok tt)
  | m :: rest => r ← attempt m; rs ← join_calls rest; mret (join_error r rs)
  end.

Definition join_all (ms : list (ST K unit)) : ST K unit := r ← join_calls ms; lift r.

(** A deletion that finds nothing has succeeded. *)
Definition delete_missing_ok (wrap : error -> error) (m : ST K unit) : ST K unit :=
  r ← attempt m;
  match r with
  | Ok _ => mret tt
  | Err e => if IsNotFound e then mret tt else throw (wrap e)
  end.

(** Delete the object of an app: missing is success, a foreign object is refused. *)
Definition delete_owned (kd : kind) (kindName app : string) (options : object_meta -> preconditions) : ST K unit :=
  existing ← find_opt (wrap_name ("get " +:+ kindName +:+ " %q for deletion: %w") app) (k_get kd app);
  match existing with
  | None => mret tt
  | Some o =>
      _ ← lift (requireAppResourceOwnership kindName (name_of o) app (om_Labels (meta o)));
      delete_missing_ok (wrap_name ("delete " +:+ kindName +:+ " %q: %w") app) (k_delete kd app (options (meta o)))
  end.

Definition deleteDeployment (app : string) : ST K unit := delete_owned KDeployment "Deployment" app ownedDeleteOptions.
Definition deletePodDisruptionBudget (app : string) : ST K unit := delete_owned KBudget "PodDisruptionBudget" app ownedDeleteOptions.
Definition deleteAppSecret (app : string) : ST K unit := delete_owned KSecret "Secret" app ownedDeleteOptions.
Definition deleteIngress (app : string) : ST K unit := delete_owned KIngress "Ingress" app ownedDeleteOptions.
Definition deleteDynamicAppResource (kd : kind) (app kindName : string) : ST K unit := delete_owned kd kindName app ownedDeleteOptions.

Definition deleteTrafficResilienceResources (app : string) : ST K unit :=
  join_all [deleteDynamicAppResource KMiddleware app "Middleware"; deleteDynamicAppResource KTransport app "ServersTransport"].

Definition deleteService (app : string) : ST K unit :=
  existing ← find_opt (wrap_name "get Service %q for deletion: %w" app) (services_get app);
  match existing with
  | None => mret tt
  | Some s =>
      _ ← guard (candidateManagedService s) ErrCandidateManagedApp;
      _ ← lift (requireAppResourceOwnership "Service" (Svc_Name s) app (Svc_Labels s));
      delete_missing_ok (wrap_name "delete Service %q: %w" app)
        (k_delete KService app (ownedDeleteOptionsWithResourceVersion (service_meta s)))
  end.

(** ** Secrets of immutable revisions *)

Definition registrySecretLabel : string := "deployer.io/registry-secret".
Definition registryRevisionAnnotation : string := "deployer.io/registry-revision".
Definition environmentSecretLabel : string := "deployer.io/environment-bundle".
Definition environmentRevisionAnnotation : string := "deployer.io/environment-revision".
Definition SecretTypeOpaque : string := "Opaque".
Definition SecretTypeDockerConfigJson : string := "kubernetes.io/dockerconfigjson".

(** A Secret that the controller manages as one immutable revision. *)
Definition managed_revision (label annotation revision type : string) (s : secret) : bool :=
  String.eqb (map_get (om_Labels (sec_Meta s)) managedByLabel) managedByDeployer &&
  String.eqb (map_get (om_Labels (sec_Meta s)) label) "true" &&
  String.eqb (map_get (om_Annotations (sec_Meta s)) annotation) revision &&
  String.eqb (sec_Type s) type && bool_decide (sec_Immutable s = Some true).

Definition revision_secret (namespace name app label annotation revision type : string) (data : gmap string string) : secret :=
  MkSecret (new_meta name namespace (<[label := "true"]> (managedAppLabels app)) {[annotation := revision]}) type (Some true) data.

Definition validateRegistryReference (cfg : Config) (credential : option Credential) : result unit :=
  let revision := Cfg_ImagePullCredential cfg in
  match credential with
  | None => check (negb (String.eqb revision "")) (ErrSentinel "image pull credential is unavailable")
  | Some c =>
      _ ← check (String.eqb revision "") (Errorf "image pull credential must be omitted for a public image" []);
      _ ← match Credential_ValidateFor c (Cfg_Name cfg) revision (Cfg_Image cfg) with
          | Err e => Err (wrap "invalid image pull credential: %w" e)
          | Ok _ => Ok tt
          end;
      match DockerConfigJSON c with
      | Err e => Err (wrap "invalid image pull credential: %w" e)
      | Ok _ => Ok tt
      end
  end.

Definition valid_env_value (kv : string * string) : bool :=
  is_ok (ValidateSecretName kv.1) && (slen kv.1 <=? 128) && (slen kv.2 <=? 8192) && ValidString kv.2 &&
  negb (exists_byte (fun a => b2z a =? 0) kv.2).

Definition validateEnvironmentReference (cfg : Config) (values : gmap string string) (revision : string) : result unit :=
  if String.eqb (Cfg_EnvironmentRevision cfg) "" then Ok tt else
  _ ← check (negb (ValidAppName (Cfg_Name cfg)) || negb (ValidRevision (Cfg_EnvironmentRevision cfg)) ||
             negb (String.eqb revision (Cfg_EnvironmentRevision cfg)) || negb (bool_decide (Cfg_Secrets cfg = [])) ||
             (64 <? Z.of_nat (size values))) (ErrSentinel "invalid environment revision");
  _ ← check (negb (forallb valid_env_value (map_to_list values))) (ErrSentinel "invalid environment values");
  check (32768 <? foldr Z.add 0 ((fun kv : string * string => slen kv.1 + slen kv.2) <$> map_to_list values))
    (ErrSentinel "invalid environment size").

Section control.
Context (namespace : string).

Definition reconcileNamespace : ST K unit :=
  existing ← find_opt (wrap_name "get Namespace %q: %w" namespace) (k_get KNamespace namespace);
  match existing with
  | Some _ => mret tt
  | None =>
      _ ← map_err (wrap_name "create Namespace %q: %w" namespace)
            (k_create (ONamespace (new_meta namespace "" {[managedByLabel := managedByDeployer]} ∅)));
      mret tt
  end.

(** Create-only: an existing Secret is accepted when it is this revision, never written. *)
Definition reconcileRegistrySecret (cfg : Config) (credential : option Credential) : ST K string :=
  match credential with
  | None => mret ""
  | Some c =>
      if String.eqb (Cfg_ImagePullCredential cfg) "" then mret "" else
      let name := registrySecretName (Cfg_Name cfg) (Cfg_ImagePullCredential cfg) in
      data ← map_err (wrap "build image pull credential: %w") (lift (DockerConfigJSON c));
      let desired := revision_secret namespace name (Cfg_Name cfg) registrySecretLabel registryRevisionAnnotation
                       (Cfg_ImagePullCredential cfg) SecretTypeDockerConfigJson {[".dockerconfigjson" := data]} in
      existing ← find_opt (fun _ => ErrSentinel "get image pull credential failed") (secrets_Get name);
      match existing with
      | None =>
          _ ← map_err (fun _ => ErrSentinel "create image pull credential failed") (k_create (OSecret desired));
          mret name
      | Some s =>
          _ ← lift (requireAppResourceOwnership "Secret" (om_Name (sec_Meta s)) (Cfg_Name cfg) (om_Labels (sec_Meta s)));
          _ ← guard (negb (managed_revision registrySecretLabel registryRevisionAnnotation (Cfg_ImagePullCredential cfg)
                             SecretTypeDockerConfigJson s) || negb (bool_decide (sec_Data s = sec_Data desired)))
                (Errorf "image pull credential Secret %q is not a matching immutable managed credential" [AStr name]);
          mret name
      end
  end.

Definition reconcileEnvironmentSecret (cfg : Config) (values : gmap string string) : ST K unit :=
  let name := environmentSecretName (Cfg_Name cfg) (Cfg_EnvironmentRevision cfg) in
  let desired := revision_secret namespace name (Cfg_Name cfg) environmentSecretLabel environmentRevisionAnnotation
                   (Cfg_EnvironmentRevision cfg) SecretTypeOpaque values in
  existing ← find_opt (fun _ => ErrSentinel "read environment Secret failed") (secrets_Get name);
  match existing with
  | None =>
      _ ← map_err (fun _ => ErrSentinel "create environment Secret failed") (k_create (OSecret desired)); mret tt
  | Some s =>
      _ ← lift (requireAppResourceOwnership "Secret" name (Cfg_Name cfg) (om_Labels (sec_Meta s)));
      guard (negb (managed_revision environmentSecretLabel environmentRevisionAnnotation (Cfg_EnvironmentRevision cfg)
                     SecretTypeOpaque s) || negb (bool_decide (sec_Data s = values)))
        (ErrSentinel "environment Secret does not match immutable revision")
  end.

(** Deletion of every revision of an app; each Secret is checked on its own and the errors are joined. *)
Definition delete_revision (label annotation type app : string) (name : string -> string -> string) (bad failed : error) (s : secret) : ST K unit :=
  let revision := map_get (om_Annotations (sec_Meta s)) annotation in
  _ ← lift (requireAppResourceOwnership "Secret" (om_Name (sec_Meta s)) app (om_Labels (sec_Meta s)));
  _ ← guard (negb (managed_revision label annotation revision type s) || negb (ValidRevision revision) ||
             negb (String.eqb (om_Name (sec_Meta s)) (name app revision))) bad;
  delete_missing_ok (fun _ => failed) (k_delete KSecret (om_Name (sec_Meta s)) (ownedDeleteOptionsWithResourceVersion (sec_Meta s))).

Definition deleteRegistrySecrets (app : string) : ST K unit :=
  secrets ← map_err (fun _ => ErrSentinel "list image pull credentials failed")
              (secrets_List {[appOwnershipLabel := app; registrySecretLabel := "true"]});
  join_all ((fun s => delete_revision registrySecretLabel registryRevisionAnnotation SecretTypeDockerConfigJson app registrySecretName
               (Errorf "image pull credential Secret %q is not a managed immutable docker credential" [AStr (om_Name (sec_Meta s))])
               (ErrSentinel "delete image pull credential failed") s) <$> secrets).

Definition deleteEnvironmentSecrets (app : string) : ST K unit :=
  secrets ← map_err (fun _ => ErrSentinel "list environment Secrets failed")
              (secrets_List {[appOwnershipLabel := app; environmentSecretLabel := "true"]});
  join_all ((fun s => delete_revision environmentSecretLabel environmentRevisionAnnotation SecretTypeOpaque app environmentSecretName
               (Errorf "environment Secret %q is not a managed immutable revision" [AStr (om_Name (sec_Meta s))])
               (ErrSentinel "delete environment Secret failed") s) <$> secrets).

(** ** The legacy Deployment *)

Definition annotated (key value : string) (m : object_meta) : bool := String.eqb (map_get (om_Annotations m) key) value.

Definition needsLegacyAffinityMigration (existing desired : deployment) : bool :=
  if annotated legacyAffinityMigrationAnnotation "true" (d_Meta existing) then true else
  match ps_Affinity (d_Pod existing) ≫= af_PodAnti, ps_Affinity (d_Pod desired) ≫= af_PodAnti with
  | Some a, Some b => negb (bool_decide (aa_Required a = [])) && negb (bool_decide (aa_Preferred b = []))
  | _, _ => false
  end.

Definition legacyAffinityMigrationStrategy : strategy := rolling 1 0.

(** [waitForDeploymentRollout] looks once a second until the deadline; [polls] bounds the
    looks before it. *)
Definition rolled_out (generation : Z) (d : deployment) : bool :=
  let desired := default 1 (d_Replicas d) in
  (generation <=? ds_ObservedGeneration (d_Status d)) && (ds_UpdatedReplicas (d_Status d) =? desired) &&
  (ds_AvailableReplicas (d_Status d) =? desired) && (ds_UnavailableReplicas (d_Status d) =? 0).

Fixpoint waitForDeploymentRollout (polls : nat) (name : string) (generation : Z) : ST K deployment :=
  match polls with
  | O => throw ErrContext
  | S polls' =>
      d ← deployments_Get name;
      if rolled_out generation d then mret d else waitForDeploymentRollout polls' name generation
  end.

Definition bridge (d : deployment) : deployment :=
  set_strategy legacyAffinityMigrationStrategy (set_meta (meta_annotate legacyAffinityMigrationAnnotation "true" (d_Meta d)) d).

Definition at_version (rv : string) (d : deployment) : deployment := set_meta (meta_version rv (d_Meta d)) d.

Definition migrateLegacyAffinity (polls : nat) (existing desired : deployment) : ST K unit :=
  let name := om_Name (d_Meta desired) in
  existing ← if annotated legacyAffinityMigrationAnnotation "true" (d_Meta existing) then mret existing
             else map_err (wrap_name "prepare Deployment %q affinity migration: %w" name) (deployments_Update (bridge existing));
  updated ← map_err (wrap_name "start Deployment %q affinity migration: %w" name)
              (deployments_Update (at_version (om_ResourceVersion (d_Meta existing)) (bridge desired)));
  latest ← map_err (wrap_name "wait for Deployment %q affinity migration: %w" name)
             (waitForDeploymentRollout polls (om_Name (d_Meta updated)) (om_Generation (d_Meta updated)));
  _ ← map_err (wrap_name "finalize Deployment %q affinity migration: %w" name)
        (deployments_Update (at_version (om_ResourceVersion (d_Meta latest)) desired));
  mret tt.

Definition reconcileDeployment (polls : nat) (cfg : Config) (secretRevision registrySecret : string) : ST K unit :=
  desired ← lift (deploymentForApp cfg namespace secretRevision);
  let desired := if String.eqb registrySecret "" then desired
                 else set_pod (with_pull_secrets [registrySecret] (d_Pod desired)) desired in
  let name := om_Name (d_Meta desired) in
  existing ← find_opt (wrap_name "get Deployment %q: %w" name) (deployments_Get name);
  match existing with
  | None => _ ← map_err (wrap_name "create Deployment %q: %w" name) (deployments_Create desired); mret tt
  | Some e =>
      _ ← lift (requireAppResourceOwnership "Deployment" (om_Name (d_Meta e)) (Cfg_Name cfg) (om_Labels (d_Meta e)));
      if needsLegacyAffinityMigration e desired then migrateLegacyAffinity polls e desired
      else
        _ ← map_err (wrap_name "update Deployment %q: %w" name)
              (deployments_Update (at_version (om_ResourceVersion (d_Meta e)) desired));
        mret tt
  end.

(** ** Service, budget, Secret and policy of the app *)

Definition reconcileService (cfg : Config) : ST K unit :=
  let desired := serviceForApp cfg namespace in
  let name := Svc_Name desired in
  existing ← find_opt (wrap_name "get Service %q: %w" name) (services_get name);
  match existing with
  | None => _ ← map_err (wrap_name "create Service %q: %w" name) (k_create (OService desired)); mret tt
  | Some e =>
      _ ← guard (candidateManagedService e) ErrCandidateManagedApp;
      _ ← lift (requireAppResourceOwnership "Service" (Svc_Name e) (Cfg_Name cfg) (Svc_Labels e));
      _ ← map_err (wrap_name "update Service %q: %w" name) (k_update (OService (with_version (Svc_ResourceVersion e) desired)));
      mret tt
  end.

(** Create the object, or replace the one of the app at the version that was read. *)
Definition apply_owned (kd : kind) (kindName app : string) (check : object -> result unit) (desired : string -> object) : ST K unit :=
  let name := name_of (desired "") in
  existing ← find_opt (wrap_name ("get " +:+ kindName +:+ " %q: %w") name) (k_get kd name);
  match existing with
  | None => _ ← map_err (wrap_name ("create " +:+ kindName +:+ " %q: %w") name) (k_create (desired "")); mret tt
  | Some o =>
      _ ← lift (requireAppResourceOwnership kindName (name_of o) app (om_Labels (meta o)));
      _ ← lift (check o);
      _ ← map_err (wrap_name ("update " +:+ kindName +:+ " %q: %w") name) (k_update (desired (version o)));
      mret tt
  end.

Definition podDisruptionBudgetForApp (cfg : Config) : budget :=
  MkBudget (new_meta (Cfg_Name cfg) namespace (managedAppLabels (Cfg_Name cfg)) ∅) (IntPort 1) (match_labels (appLabels (Cfg_Name cfg))).

Definition reconcilePodDisruptionBudget (cfg : Config) : ST K unit :=
  if negb (resilient cfg) then deletePodDisruptionBudget (Cfg_Name cfg)
  else
    let b := podDisruptionBudgetForApp cfg in
    apply_owned KBudget "PodDisruptionBudget" (Cfg_Name cfg) (fun _ => Ok tt)
      (fun rv => OBudget (MkBudget (meta_version rv (pdb_Meta b)) (pdb_MinAvailable b) (pdb_Selector b))).

(** The values of the named secrets; a missing one is an error. *)
Fixpoint secret_data (names : list string) (values : gmap string string) : result (gmap string string) :=
  match names with
  | [] => Ok ∅
  | name :: rest =>
      match values !! name with
      | None => Err (Errorf "required secret %q is missing" [AStr name])
      | Some v => data ← secret_data rest values; Ok (<[name := v]> data)
      end
  end.

Definition secretForApp (cfg : Config) (values : gmap string string) : result secret :=
  let cfg := Normalize cfg in
  data ← secret_data (Cfg_Secrets cfg) values;
  Ok (MkSecret (new_meta (Cfg_Name cfg) namespace (managedAppLabels (Cfg_Name cfg)) ∅) SecretTypeOpaque None data).

Definition reconcileSecret (cfg : Config) (values : gmap string string) : ST K unit :=
  if negb (String.eqb (Cfg_EnvironmentRevision cfg) "") then reconcileEnvironmentSecret cfg values
  else if bool_decide (Cfg_Secrets cfg = []) then deleteAppSecret (Cfg_Name cfg)
  else
    desired ← lift (secretForApp cfg values);
    apply_owned KSecret "Secret" (Cfg_Name cfg) (fun _ => Ok tt)
      (fun rv => OSecret (MkSecret (meta_version rv (sec_Meta desired)) (sec_Type desired) (sec_Immutable desired) (sec_Data desired))).

Definition requireHostingProfile (o : object) : result unit :=
  check (negb (String.eqb (map_get (om_Labels (meta o)) hostingProfileLabel) "v1"))
    (Errorf "NetworkPolicy %q ownership conflict: expected label %s=%q, found %q"
       [AStr (name_of o); AStr hostingProfileLabel; AStr "v1"; AStr (map_get (om_Labels (meta o)) hostingProfileLabel)]).

Definition policy_at (rv : string) (p : network_policy) : network_policy :=
  MkPolicy (meta_version rv (np_Meta p)) (np_PodSelector p) (np_Types p) (np_Ingress p) (np_Egress p) (np_Rest p).

Definition reconcileHostingNetworkPolicy (cfg : Config) : ST K unit :=
  match networkPolicyForHostedApp cfg namespace with
  | None => mret tt
  | Some p => apply_owned KPolicy "NetworkPolicy" (Cfg_Name cfg) requireHostingProfile (fun rv => OPolicy (policy_at rv p))
  end.

(** The policy stays while a Pod it protects exists. *)
Definition deleteHostingNetworkPolicy (app : string) : ST K unit :=
  existing ← find_opt (wrap_name "get NetworkPolicy %q for deletion: %w" app) (policies_Get app);
  match existing with
  | None => mret tt
  | Some p =>
      if negb (String.eqb (map_get (om_Labels (np_Meta p)) hostingProfileLabel) "v1") then mret tt else
      _ ← lift (requireAppResourceOwnership "NetworkPolicy" (om_Name (np_Meta p)) app (om_Labels (np_Meta p)));
      pods ← map_err (wrap "check Pods before deleting hosting policy: %w")
               (pods_List {[appOwnershipLabel := app; hostingProfileLabel := "v1"]});
      if negb (bool_decide (pods = [])) then mret tt else
      delete_missing_ok (wrap_name "delete NetworkPolicy %q: %w" app) (k_delete KPolicy app (ownedDeleteOptions (np_Meta p)))
  end.
End control.
End clients.

(** ** The Ingress of an app and what it needs (internal/ingress: ingress.go,
      traffic_resilience.go, controller.go)

    The manifest of a route, its Kubernetes object, the Traefik resources and the
    certificate issuer. *)
Definition DefaultClusterIssuer : string := "deployer-letsencrypt".
Definition DefaultACMEServer : string := "https://acme-v02.api.letsencrypt.org/directory".
Definition traefikRetryMiddlewareAnnotation : string := "traefik.ingress.kubernetes.io/router.middlewares".

Record TLSConfig := MkTLS { TLS_ACMEEmail : string; TLS_ClusterIssuer : string; TLS_ACMEServer : string }.

Definition WithDefaults (c : TLSConfig) : TLSConfig :=
  MkTLS (TrimSpace (TLS_ACMEEmail c)) (or_default (TrimSpace (TLS_ClusterIssuer c)) DefaultClusterIssuer)
    (or_default (TrimSpace (TLS_ACMEServer c)) DefaultACMEServer).

Definition Enabled (c : TLSConfig) : bool := negb (blank (TLS_ACMEEmail c)).

(** The manifest: metadata, class, TLS entries (hosts, Secret) and rules (host; path,
    path type, Service, port). *)
Record Manifest := MkManifest {
  Man_Name : string; Man_Namespace : string; Man_Labels : gmap string string; Man_Annotations : gmap string string;
  Man_Class : string; Man_TLS : list (list string * string); Man_Rules : list (string * list (string * string * string * Z)) }.

Section routes.
Context `{KubeTypes} `{!KubePorts} `{KubeRest}.

(** [None] for an app without a domain. *)
Definition ManifestForApp (cfg : Config) (namespace : string) (tlsConfig : TLSConfig) : result (option Manifest) :=
  let domain := TrimSpace (Routing_Domain (Cfg_Routing cfg)) in
  let requireTLS := Routing_RequireTLS (Cfg_Routing cfg) in
  _ ← check (requireTLS && String.eqb domain "") (ErrSentinel "routing.requireTLS requires routing.domain");
  if String.eqb domain "" then Ok None else
  let namespace := or_default namespace DefaultNamespace in
  let cfg := Normalize cfg in
  let name := Cfg_Name cfg in
  let port := Service_Port (Cfg_Service cfg) in
  _ ← check (String.eqb name "") (ErrSentinel "app name is required");
  _ ← check ((port <? 1) || (65535 <? port)) (ErrSentinel "service port must be between 1 and 65535");
  let tls := WithDefaults tlsConfig in
  _ ← check (requireTLS && negb (Enabled tls))
        (ErrSentinel "routing.requireTLS cannot be satisfied because application TLS is disabled");
  let retries : gmap string string :=
    if ProxyRetriesEnabled (Cfg_Routing cfg) then {[traefikRetryMiddlewareAnnotation := traefikResourceReference namespace name]} else ∅ in
  let annotations :=
    if Enabled tls then
      <["cert-manager.io/cluster-issuer" := TLS_ClusterIssuer tls]>
      (<["traefik.ingress.kubernetes.io/router.entrypoints" := "websecure"]>
      (<["traefik.ingress.kubernetes.io/router.tls" := "true"]> retries))
    else retries in
  Ok (Some (MkManifest name namespace (managedAppLabels name) annotations "traefik"
              (if Enabled tls then [([domain], name +:+ "-tls")] else [])
              [(domain, [("/", "Prefix", name, port)])])).

Definition kubernetesIngress (m : Manifest) : ingress :=
  MkIngress (new_meta (Man_Name m) (Man_Namespace m) (Man_Labels m) (Man_Annotations m)) (Man_Class m) (Man_TLS m)
    ((fun rule : string * list (string * string * string * Z) =>
        (rule.1, (fun p : string * string * string * Z => (p.1.1.1, p.1.2, wrap_i32 p.2)) <$> rule.2)) <$> Man_Rules m).

Definition dynamic_for (app namespace kindName : string) (spec : json) : dynamic :=
  MkDynamic "traefik.io/v1alpha1" kindName (new_meta app namespace (managedAppLabels app) ∅) spec.
Definition retryMiddlewareForApp (cfg : Config) (namespace : string) : dynamic :=
  dynamic_for (Cfg_Name cfg) namespace "Middleware"
    (JObj [("retry", JObj [("attempts", enc_int 2); ("initialInterval", JStr "100ms")])]).
Definition serversTransportForApp (cfg : Config) (namespace : string) : dynamic :=
  dynamic_for (Cfg_Name cfg) namespace "ServersTransport"
    (JObj [("forwardingTimeouts", JObj [("dialTimeout", JStr "2s")])]).

Definition clusterIssuer (tlsConfig : TLSConfig) : dynamic :=
  let tls := WithDefaults tlsConfig in
  MkDynamic "cert-manager.io/v1" "ClusterIssuer" (new_meta (TLS_ClusterIssuer tls) "" ∅ ∅)
    (JObj [("acme", JObj [("email", JStr (TLS_ACMEEmail tls)); ("server", JStr (TLS_ACMEServer tls));
       ("privateKeySecretRef", JObj [("name", JStr (TLS_ClusterIssuer tls +:+ "-account-key"))]);
       ("solvers", JArr [JObj [("http01", JObj [("ingress", JObj [("ingressClassName", JStr "traefik")])])]])])]).

Context {K : Type} `{!Cluster K} (namespace : string) (tls : TLSConfig).

Definition dyn_at (rv : string) (u : dynamic) : dynamic :=
  MkDynamic (dyn_APIVersion u) (dyn_Kind u) (meta_version rv (dyn_Meta u)) (dyn_Spec u).

Definition reconcileDynamicAppResource (kd : kind) (mk : dynamic -> object) (desired : dynamic) (kindName : string) : ST K unit :=
  apply_owned kd kindName (om_Name (dyn_Meta desired)) (fun _ => Ok tt) (fun rv => mk (dyn_at rv desired)).

Definition reconcileTrafficResilienceResources (cfg : Config) : ST K unit :=
  if blank (Routing_Domain (Cfg_Routing cfg)) then deleteTrafficResilienceResources (Cfg_Name cfg)
  else
    _ ← (if ProxyRetriesEnabled (Cfg_Routing cfg)
         then reconcileDynamicAppResource KMiddleware OMiddleware (retryMiddlewareForApp cfg namespace) "Middleware"
         else deleteDynamicAppResource KMiddleware (Cfg_Name cfg) "Middleware");
    reconcileDynamicAppResource KTransport OTransport (serversTransportForApp cfg namespace) "ServersTransport".

Definition ensureIssuer : ST K unit :=
  let desired := clusterIssuer tls in
  let name := om_Name (dyn_Meta desired) in
  existing ← find_opt (wrap_name "get ClusterIssuer %q: %w" name) (k_get KIssuer name);
  match existing with
  | None => _ ← map_err (wrap_name "create ClusterIssuer %q: %w" name) (k_create (OIssuer desired)); mret tt
  | Some o => _ ← map_err (wrap_name "update ClusterIssuer %q: %w" name) (k_update (OIssuer (dyn_at (version o) desired))); mret tt
  end.
End routes.
