(* ===== verification/Capacity.v ===== *)
(** * Admission of hosted apps (internal/ingress: hosting.go, nodes.go,
      retained_storage.go, postgres.go, controller.go)

    Before a hosted app is deployed the controller looks for room: on the ready,
    schedulable nodes its placement allows, for its ceiling of replicas plus the
    Pods of a rolling update, next to the requests of the Pods already there. *)

From S2P Require Import Prelude GoStrings Regexp GoJson Appconfig Db Activation Security Candidate Workloads Cluster Resources.
From Stdlib Require Import Ascii String.
Local Open Scope Z_scope.

(** ** Nodes *)

Definition NodeReady : string := "Ready".

(** The first Ready condition decides. *)
Fixpoint ready_condition (l : list (string * string * string)) : bool :=
  match l with
  | [] => false
  | (type, status, _) :: rest => if String.eqb type NodeReady then String.eqb status "True" else ready_condition rest
  end.
Definition readyForScheduling (n : knode) : bool := ready_condition (kn_Conditions n).

Definition hasBlockingTaint (n : knode) : bool :=
  existsb (fun effect => String.eqb effect "NoSchedule" || String.eqb effect "NoExecute") (kn_Taints n).

Definition matchesPlacement (n : knode) (cfg : Config) : bool :=
  let arch := placementArchitecture (Placement_Arch (Cfg_Placement cfg)) in
  let labels := om_Labels (kn_Meta n) in
  if negb (String.eqb arch "") && negb (String.eqb (map_get labels "kubernetes.io/arch") arch) then false
  else if negb (String.eqb (Resilience_Mode (Cfg_Resilience cfg)) ResiliencePinned) then true
  else match Placement_Prefer (Cfg_Placement cfg) with
       | [prefer] => forallb (fun kv : string * string => String.eqb (map_get labels (placementLabelKey kv.1)) kv.2)
                       (map_to_list (default ∅ prefer))
       | _ => true
       end.

Definition eligible (cfg : Config) (n : knode) : bool :=
  negb (kn_Unschedulable n) && readyForScheduling n && negb (hasBlockingTaint n) && matchesPlacement n cfg.

(** ** Amounts *)

Record resourceVector := MkVector { rv_cpu : Z; rv_memory : Z; rv_ephemeral : Z; rv_pods : Z }.
#[export] Instance resourceVector_eq_dec : EqDecision resourceVector.
Proof. solve_decision. Defined.

(** [Quantity.Value]: whole units, rounded away from zero. *)
Definition whole (nanos : Z) : Z :=
  if 0 <=? nanos then (nanos + (10 ^ 9 - 1)) / 10 ^ 9 else - ((- nanos + (10 ^ 9 - 1)) / 10 ^ 9).

Definition resourceVectorFromList (values : gmap string Z) : option resourceVector :=
  cpu ← values !! "cpu"; memory ← values !! "memory"; ephemeral ← values !! "ephemeral-storage"; pods ← values !! "pods";
  Some (MkVector cpu memory ephemeral (whole pods)).

Definition resourceVectorFromRequests (values : gmap string Z) : resourceVector :=
  MkVector (default 0 (values !! "cpu")) (default 0 (values !! "memory")) (default 0 (values !! "ephemeral-storage")) 0.

Definition vec_add (a b : resourceVector) : resourceVector :=
  MkVector (rv_cpu a + rv_cpu b) (rv_memory a + rv_memory b) (rv_ephemeral a + rv_ephemeral b) (rv_pods a + rv_pods b).
Definition vec_sub (a b : resourceVector) : resourceVector :=
  MkVector (rv_cpu a - rv_cpu b) (rv_memory a - rv_memory b) (rv_ephemeral a - rv_ephemeral b) (rv_pods a - rv_pods b).

Definition anyNegative (r : resourceVector) : bool :=
  (rv_pods r <? 0) || (rv_cpu r <? 0) || (rv_memory r <? 0) || (rv_ephemeral r <? 0).

Definition vec_fits (r request : resourceVector) : bool :=
  (rv_pods request <=? rv_pods r) && (rv_cpu request <=? rv_cpu r) && (rv_memory request <=? rv_memory r) &&
  (rv_ephemeral request <=? rv_ephemeral r).

Definition zero_vector : resourceVector := MkVector 0 0 0 0.

(** Containers, init containers and overhead are summed; the Pod itself counts once. *)
Definition podRequest (p : pod) : resourceVector :=
  let sum := fold_left vec_add (resourceVectorFromRequests <$> (pod_Requests p ++ pod_InitRequests p ++ [pod_Overhead p])%list) zero_vector in
  MkVector (rv_cpu sum) (rv_memory sum) (rv_ephemeral sum) 1.

(** ** The decision *)

Definition terminal (p : pod) : bool := String.eqb (pod_Phase p) "Succeeded" || String.eqb (pod_Phase p) "Failed".

(** Allocatable amounts of the eligible nodes and their names, in the order of the list. *)
Fixpoint eligibleCapacity (cfg : Config) (nodes : list knode) : result (gmap string resourceVector * list string) :=
  match nodes with
  | [] => Ok (∅, [])
  | n :: rest =>
      if negb (eligible cfg n) then eligibleCapacity cfg rest else
      match resourceVectorFromList (kn_Allocatable n) with
      | None => Err (Errorf "hosting capacity is unknown for eligible Kubernetes node %q" [AStr (om_Name (kn_Meta n))])
      | Some capacity =>
          '(free, names) ← eligibleCapacity cfg rest;
          Ok ((if bool_decide (is_Some (free !! om_Name (kn_Meta n))) then free else <[om_Name (kn_Meta n) := capacity]> free),
              om_Name (kn_Meta n) :: names)
      end
  end.

Fixpoint subtractPods (pods : list pod) (free : gmap string resourceVector) : result (gmap string resourceVector) :=
  match pods with
  | [] => Ok free
  | p :: rest =>
      if terminal p then subtractPods rest free else
      _ ← check (String.eqb (pod_NodeName p) "")
            (Errorf "hosting capacity is unknown: nonterminal Pod %q is not assigned to a node" [AStr (om_Name (pod_Meta p))]);
      match free !! pod_NodeName p with
      | None => subtractPods rest free
      | Some remaining =>
          _ ← check (pod_HasResources p)
                (Errorf "hosting capacity is unknown: Pod %q uses unsupported pod-level resources" [AStr (om_Name (pod_Meta p))]);
          subtractPods rest (<[pod_NodeName p := vec_sub remaining (podRequest p)]> free)
      end
  end.

(** The node the next Pod is placed on: the first in order that has room and, while
    [distinct] replicas are still to be spread, does not hold one yet. *)
Definition choose (requested : resourceVector) (names used : list string) (distinct : bool) (free : gmap string resourceVector) : string :=
  default "" (List.find (fun n => negb (distinct && bool_decide (n ∈ used)) &&
                                  vec_fits (default zero_vector (free !! n)) requested) names).

(** Place [count] Pods, of which the first [distinct] on different nodes. *)
Fixpoint placePods (requested : resourceVector) (names : list string) (total index : Z) (count distinct : nat) (used : list string)
    (free : gmap string resourceVector) : result unit :=
  match count with
  | O => Ok tt
  | S count' =>
      let spread := negb (distinct =? 0)%nat in
      let chosen := choose requested names used spread free in
      _ ← check (String.eqb chosen "")
            (Errorf "insufficient eligible Kubernetes capacity for hosting profile: cannot place Pod %d of %d (including rollout surge)"
               [AInt (index + 1); AInt total]);
      placePods requested names total (index + 1) count' (distinct - 1) (if spread then chosen :: used else used)
        (<[chosen := vec_sub (default zero_vector (free !! chosen)) requested]> free)
  end.

(** Pods of a rolling update beside the ceiling of replicas: a quarter, rounded up; one
    for a resilient app, none with retained storage. *)
Definition surgePods (cfg : Config) (hosting : HostingConfig) : Z :=
  match Cfg_Storage cfg with
  | Some _ => 0
  | None => if resilient cfg then 1 else Z.quot (Hosting_MaxReplicas hosting + 3) 4
  end.

Definition placeHosting (cfg : Config) (hosting : HostingConfig) (requested : resourceVector) (nodeNames : list string)
    (free : gmap string resourceVector) : result unit :=
  let maxReplicas := Hosting_MaxReplicas hosting in
  _ ← check (resilient cfg && (Z.of_nat (List.length nodeNames) <? maxReplicas))
        (Errorf "hosting profile requires %d eligible nodes for resilient placement, found %d"
           [AInt maxReplicas; AInt (Z.of_nat (List.length nodeNames))]);
  let podCount := maxReplicas + surgePods cfg hosting in
  placePods requested nodeNames podCount 0 (Z.to_nat podCount) (if resilient cfg then Z.to_nat maxReplicas else 0) [] free.

(** ** Reading the cluster *)

Section preflight.
Context `{KubeTypes} `{!KubePorts} `{KubeRest} {K : Type} `{!Cluster K} (namespace : string) (tls : TLSConfig).

Definition as_node (o : object) : option knode := match o with ONode n => Some n | _ => None end.
Definition as_claim (o : object) : option volume_claim := match o with OClaim c => Some c | _ => None end.
Definition as_volume (o : object) : option volume := match o with OVolume v => Some v | _ => None end.
Definition nodes_List : ST K (list knode) := list_as as_node KNode ∅.

Definition requestedVector (hosting : HostingConfig) : result resourceVector :=
  '(requests, _) ← ResourceRequirements hosting;
  let base := resourceVectorFromRequests requests in
  Ok (MkVector (rv_cpu base) (rv_memory base) (rv_ephemeral base) 1).

Definition preflightHostingCapacity (cfg : Config) : ST K unit :=
  match Cfg_Hosting cfg with
  | None => mret tt
  | Some hosting =>
      requested ← lift (requestedVector hosting);
      _ ← guard (anyNegative requested) (Errorf "hosting profile has invalid negative resource request" []);
      nodes ← map_err (wrap "list Kubernetes nodes for hosting capacity: %w") nodes_List;
      '(free, names) ← lift (eligibleCapacity cfg nodes);
      let nodeNames := merge_sort str_le names in
      _ ← guard (bool_decide (nodeNames = [])) (Errorf "hosting profile has no ready schedulable eligible Kubernetes nodes" []);
      pods ← map_err (wrap "list Pods for hosting capacity: %w") k_list_pods_everywhere;
      free ← lift (subtractPods pods free);
      lift (placeHosting cfg hosting requested nodeNames free)
  end.

Definition ensureSchedulableWorker (cfg : Config) : ST K unit :=
  nodes ← map_err (wrap "list Kubernetes nodes for placement: %w") nodes_List;
  guard (negb (existsb (fun n => negb (kn_Unschedulable n) && readyForScheduling n && matchesPlacement n cfg) nodes))
    (Errorf "no ready schedulable Kubernetes worker matches placement architecture %q" [AStr (Placement_Arch (Cfg_Placement cfg))]).

Definition validateTLSRequirement (cfg : Config) : result unit :=
  if negb (Routing_RequireTLS (Cfg_Routing cfg)) then Ok tt else
  _ ← check (blank (Routing_Domain (Cfg_Routing cfg))) (ErrSentinel "routing.requireTLS requires routing.domain");
  check (negb (Enabled tls)) (ErrSentinel "routing.requireTLS cannot be satisfied because application TLS is disabled").

(** *** Retained storage *)

Definition claimSupportsWrites (c : volume_claim) : bool :=
  existsb (fun m => String.eqb m "ReadWriteOnce" || String.eqb m "ReadWriteMany" || String.eqb m "ReadWriteOncePod") (pvc_AccessModes c).

Definition exact_pin (nodeID : string) (e : string * string * list string) : bool :=
  String.eqb e.1.1 "deployer.io/node-id" && String.eqb e.1.2 "In" && bool_decide (e.2 = [nodeID]).

Definition persistentVolumePinnedToNodeID (v : volume) (nodeID : string) : bool :=
  match pv_Required v with
  | None | Some [] => false
  | Some terms => forallb (existsb (exact_pin nodeID)) terms
  end.

Definition deploymentUsesClaim (claim : string) (d : deployment) : bool :=
  existsb (fun v : string * option string => bool_decide (v.2 = Some claim)) (ps_Volumes (d_Pod d)).
Definition podUsesClaim (claim : string) (p : pod) : bool := existsb (String.eqb claim) (pod_Claims p).

(** [cfg.Placement.Prefer[0]["node-id"]]; validation guarantees the selector exists. *)
Definition pinnedNodeID (cfg : Config) : string :=
  match Placement_Prefer (Cfg_Placement cfg) with
  | prefer :: _ => map_get (default ∅ prefer) "node-id"
  | [] => ""
  end.

Definition preflightRetainedStorageMount (cfg : Config) (mount : StorageMount) : ST K unit :=
  let claimName := Mount_ExistingClaim mount in
  found ← find_opt (wrap_name "get retained PersistentVolumeClaim %q: %w" claimName) (typed as_claim (k_get KClaim claimName));
  match found with
  | None => throw (Errorf "retained PersistentVolumeClaim %q does not exist in namespace %q" [AStr claimName; AStr namespace])
  | Some claim =>
      let name := om_Name (pvc_Meta claim) in
      _ ← guard (om_Deleting (pvc_Meta claim)) (Errorf "retained PersistentVolumeClaim %q is being deleted" [AStr name]);
      _ ← guard (negb (String.eqb (default "Filesystem" (pvc_VolumeMode claim)) "Filesystem"))
            (Errorf "retained PersistentVolumeClaim %q must use filesystem volume mode" [AStr name]);
      _ ← guard (negb (String.eqb (pvc_Phase claim) "Bound") || String.eqb (pvc_VolumeName claim) "")
            (Errorf "retained PersistentVolumeClaim %q must be bound before deployment" [AStr name]);
      _ ← guard (negb (claimSupportsWrites claim))
            (Errorf "retained PersistentVolumeClaim %q must declare a writable access mode" [AStr name]);
      found ← find_opt (wrap_name "get PersistentVolume %q for retained claim: %w" (pvc_VolumeName claim))
                (typed as_volume (k_get KVolume (pvc_VolumeName claim)));
      match found with
      | None => throw (Errorf "persistent volume %q bound to retained claim %q does not exist" [AStr (pvc_VolumeName claim); AStr name])
      | Some v =>
          let vname := om_Name (pv_Meta v) in
          _ ← guard (negb (String.eqb (pv_ReclaimPolicy v) "Retain"))
                (Errorf "retained PersistentVolume %q must use reclaim policy Retain" [AStr vname]);
          _ ← guard (negb (pv_Local v)) (Errorf "retained PersistentVolume %q must use a local volume source" [AStr vname]);
          _ ← guard (negb (persistentVolumePinnedToNodeID v (pinnedNodeID cfg)))
                (Errorf "retained PersistentVolume %q must be pinned to node-id %q" [AStr vname; AStr (pinnedNodeID cfg)]);
          (* the reference is a namespace and a name *)
          _ ← guard (match pv_ClaimRef v with Some ref => negb (bool_decide (ref = (namespace, name))) | None => false end)
                (Errorf "retained PersistentVolume %q is bound to an unexpected claim" [AStr vname]);
          deployments ← map_err (wrap_name "list Deployments using retained PersistentVolumeClaim %q: %w" name) (deployments_List ∅);
          _ ← guard (existsb (fun d => negb (String.eqb (om_Name (d_Meta d)) (Cfg_Name cfg)) && deploymentUsesClaim name d) deployments)
                (Errorf "retained PersistentVolumeClaim %q is already mounted by Deployment %q" [AStr name]);
          pods ← map_err (wrap_name "list Pods using retained PersistentVolumeClaim %q: %w" name) (pods_List ∅);
          guard (existsb (fun p => negb (terminal p) && negb (String.eqb (map_get (om_Labels (pod_Meta p)) "deployer.io/app") (Cfg_Name cfg)) &&
                                   podUsesClaim name p) pods)
            (Errorf "retained PersistentVolumeClaim %q is already mounted by Pod %q" [AStr name])
      end
  end.

Fixpoint each {A} (f : A -> ST K unit) (l : list A) : ST K unit :=
  match l with
  | [] => mret tt
  | a :: rest => _ ← f a; each f rest
  end.

Definition preflightRetainedStorage (cfg : Config) : ST K unit :=
  match Cfg_Storage cfg with
  | None => mret tt
  | Some s => each (preflightRetainedStorageMount cfg) (Mounts s)
  end.

Definition PreflightHosting (cfg : Config) : ST K unit :=
  let cfg := Normalize cfg in
  _ ← lift (Validate cfg);
  _ ← lift (validateTLSRequirement cfg);
  _ ← preflightRetainedStorage cfg;
  preflightHostingCapacity cfg.
End preflight.
