(* ===== verification/CapacityProps.v ===== *)
(** * Placement is exact

    The controller accepts a hosted app exactly when a placement of all its Pods
    exists: taking the first node with room never loses a placement, because the
    Pods are alike. *)

From S2P Require Import Prelude GoStrings Regexp GoJson Appconfig Db Activation Security Candidate Workloads WorkloadProps Cluster Resources Capacity.
From Stdlib Require Import Ascii String.
Local Open Scope Z_scope.

(** [k] Pods with request [r] fit into [f]. *)
Definition holds (k : Z) (r f : resourceVector) : Prop :=
  k * rv_cpu r <= rv_cpu f /\ k * rv_memory r <= rv_memory f /\ k * rv_ephemeral r <= rv_ephemeral f /\ k * rv_pods r <= rv_pods f.

Definition count (n : string) (l : list string) : Z := Z.of_nat (count_occ String.string_dec l n).

Definition free_at (free : gmap string resourceVector) (n : string) : resourceVector := default zero_vector (free !! n).

(** Every node of the placement holds the Pods put on it. *)
Definition roomy (free : gmap string resourceVector) (r : resourceVector) (l : list string) : Prop :=
  forall n, n ∈ l -> holds (count n l) r (free_at free n).

(** A placement of [d] Pods on different nodes that hold none yet, and [s] more anywhere. *)
Definition feasible (names : list string) (r : resourceVector) (d s : nat) (used : list string) (free : gmap string resourceVector) : Prop :=
  exists ds ss, List.length ds = d /\ List.length ss = s /\ NoDup ds /\ (forall n, n ∈ ds -> n ∈ names /\ n ∉ used) /\
    (forall n, n ∈ ss -> n ∈ names) /\ roomy free r (ds ++ ss)%list.

Lemma vec_fits_holds f r : vec_fits f r = true <-> holds 1 r f.
Proof. unfold vec_fits, holds. split; intros; bools; [repeat split; lia|]. repeat (apply andb_true_intro; split); lia. Qed.

Lemma holds_sub k r f : holds k r (vec_sub f r) <-> holds (k + 1) r f.
Proof. unfold holds, vec_sub. simpl. lia. Qed.

Lemma holds_le k k' r f : anyNegative r = false -> k' <= k -> holds k r f -> holds k' r f.
Proof. unfold anyNegative, holds. intros. bools. repeat split; nia. Qed.

Lemma count_cons_eq n l : count n (n :: l) = count n l + 1.
Proof. unfold count. rewrite count_occ_cons_eq by done. lia. Qed.
Lemma count_cons_ne m n l : m <> n -> count n (m :: l) = count n l.
Proof. intros. unfold count. by rewrite count_occ_cons_neq by done. Qed.
Lemma count_nonneg n l : 0 <= count n l.
Proof. unfold count. lia. Qed.
Lemma count_not_in n l : n ∉ l -> count n l = 0.
Proof. intros Hn. unfold count. rewrite (proj1 (count_occ_not_In _ l n)); [done|]. by rewrite <- list_elem_of_In. Qed.
Lemma count_in n l : n ∈ l -> 1 <= count n l.
Proof. intros Hn. unfold count. rewrite list_elem_of_In in Hn. apply (count_occ_In String.string_dec) in Hn. lia. Qed.
Lemma count_perm n l l' : l ≡ₚ l' -> count n l = count n l'.
Proof. intros Hp. unfold count. f_equal. by apply Permutation_count_occ. Qed.

Lemma roomy_perm free r l l' : l ≡ₚ l' -> roomy free r l -> roomy free r l'.
Proof. intros Hp Hr n Hn. rewrite <- (count_perm n l l' Hp). apply Hr. by rewrite Hp. Qed.

Definition take_from (r : resourceVector) (n : string) (free : gmap string resourceVector) : gmap string resourceVector :=
  <[n := vec_sub (free_at free n) r]> free.

Lemma free_take_eq r n free : free_at (take_from r n free) n = vec_sub (free_at free n) r.
Proof. unfold take_from. unfold free_at at 1. by rewrite lookup_insert_eq. Qed.
Lemma free_take_ne r m n free : m <> n -> free_at (take_from r m free) n = free_at free n.
Proof. intros. unfold take_from. unfold free_at at 1. by rewrite lookup_insert_ne. Qed.

(** Taking room for one Pod and placing it. *)
Lemma roomy_cons free r n l : roomy (take_from r n free) r l -> holds 1 r (free_at free n) -> roomy free r (n :: l).
Proof.
  intros Hr H1 m Hm. destruct (decide (n = m)) as [<-|Hne].
  - rewrite count_cons_eq. destruct (decide (n ∈ l)) as [Hin|Hout].
    + apply holds_sub. rewrite <- free_take_eq. by apply Hr.
    + rewrite count_not_in by done. done.
  - rewrite count_cons_ne by done. rewrite <- (free_take_ne r n m free) by done. apply Hr. set_solver.
Qed.

Lemma roomy_take free r n l : roomy free r (n :: l) -> roomy (take_from r n free) r l.
Proof.
  intros Hr m Hm. destruct (decide (n = m)) as [<-|Hne].
  - rewrite free_take_eq. apply holds_sub. rewrite <- count_cons_eq. apply Hr. by left.
  - rewrite free_take_ne by done. rewrite <- (count_cons_ne n m l) by done. apply Hr. by right.
Qed.

(** A Pod that is not in the placement may use the room of any node that is not in it. *)
Lemma roomy_drop free r m n l : anyNegative r = false -> n ∉ l -> roomy free r (m :: l) -> roomy (take_from r n free) r l.
Proof.
  intros Hneg Hn Hr x Hx. rewrite free_take_ne by (intros ->; done).
  eapply holds_le; [done| |apply Hr; by right].
  destruct (decide (m = x)) as [->|]; [rewrite count_cons_eq|rewrite count_cons_ne by done]; lia.
Qed.

(** The exchange argument: whatever placement exists, one exists that starts with the chosen node. *)
Lemma feasible_plain names r s used free n : anyNegative r = false ->
  feasible names r 0 (S s) used free -> feasible names r 0 s used (take_from r n free).
Proof.
  intros Hneg (ds & ss & Ed & Es & _ & _ & Hs & Hr). apply nil_length_inv in Ed as ->. cbn in Hr.
  destruct (decide (n ∈ ss)) as [Hin|Hout].
  - apply elem_of_Permutation in Hin as [ss' Hp]. exists [], ss'.
    split; [done|]. split; [apply Permutation_length in Hp; simpl in Hp; lia|]. split; [constructor|]. split; [set_solver|].
    split; [intros x Hx; apply Hs; rewrite Hp; set_solver|]. cbn. apply roomy_take. by eapply roomy_perm.
  - destruct ss as [|m ss']; [done|]. exists [], ss'. split; [done|]. split; [simpl in Es; lia|]. split; [constructor|].
    split; [set_solver|]. split; [intros x Hx; apply Hs; set_solver|]. cbn. eapply roomy_drop; [done|set_solver|done].
Qed.

Lemma feasible_spread names r d s used free n : anyNegative r = false ->
  feasible names r (S d) s used free -> feasible names r d s (n :: used) (take_from r n free).
Proof.
  intros Hneg (ds & ss & Ed & Es & Nd & Hd & Hs & Hr). destruct (decide (n ∈ ds)) as [Hin|Hout].
  - apply elem_of_Permutation in Hin as [ds' Hp]. rewrite Hp in Nd. apply NoDup_cons in Nd as [Nn Nd]. exists ds', ss.
    split; [apply Permutation_length in Hp; simpl in Hp; lia|]. split; [done|]. split; [done|]. split.
    { intros x Hx. destruct (Hd x) as [? ?]; [rewrite Hp; by right|]. split; [done|]. rewrite not_elem_of_cons. split; [by intros ->|done]. }
    split; [done|]. apply roomy_take. eapply roomy_perm; [|exact Hr]. by rewrite Hp.
  - destruct ds as [|m ds']; [done|]. apply NoDup_cons in Nd as [Nm Nd]. simpl in Ed. injection Ed as Ed.
    assert (Hd' : forall x, x ∈ ds' -> x ∈ names /\ x ∉ n :: used).
    { intros x Hx. destruct (Hd x) as [? ?]; [by right|]. split; [done|]. rewrite not_elem_of_cons. split; [|done]. intros ->. apply Hout. by right. }
    destruct (decide (n ∈ ss)) as [Hin|Hnot].
    + apply elem_of_Permutation in Hin as [ss' Hp]. exists ds', (m :: ss'). split; [done|].
      split; [apply Permutation_length in Hp; simpl in *; lia|]. do 2 (split; [done|]). split.
      { intros x [->|Hx]%elem_of_cons; [by apply Hd; left|]. apply Hs. rewrite Hp. by right. }
      apply roomy_take. eapply roomy_perm; [|exact Hr]. rewrite Hp. solve_Permutation.
    + exists ds', ss. do 3 (split; [done|]). split; [done|]. split; [done|]. eapply roomy_drop; [done| |exact Hr].
      rewrite elem_of_app. intros [?|?]; [|done]. apply Hout. by right.
Qed.

(** The chosen node: in the list, with room, and new while Pods are spread. *)
Lemma choose_some r names used spread free n : n <> "" -> choose r names used spread free = n ->
  n ∈ names /\ (spread = true -> n ∉ used) /\ holds 1 r (free_at free n).
Proof.
  unfold choose. intros Hn Hc. destruct (List.find _ names) as [x|] eqn:Hf; cbn in Hc; [|congruence]. subst x.
  apply find_some in Hf as [Hin Hf]. apply list_elem_of_In in Hin. bools.
  split; [done|]. split; [|by apply vec_fits_holds]. intros ->. simpl in *. by bools.
Qed.

Lemma choose_none r names used spread free : "" ∉ names -> choose r names used spread free = "" ->
  forall n, n ∈ names -> (spread = true -> n ∉ used) -> ~ holds 1 r (free_at free n).
Proof.
  unfold choose. intros He Hc n Hin Hu Hh. destruct (List.find _ names) as [x|] eqn:Hf; cbn in Hc.
  - subst x. apply find_some in Hf as [Hf _]. by apply list_elem_of_In in Hf.
  - rewrite list_elem_of_In in Hin. pose proof (find_none _ _ Hf _ Hin) as Hb. cbv beta in Hb. apply vec_fits_holds in Hh. unfold free_at in Hh. rewrite Hh in Hb.
    destruct spread; [|done]. rewrite andb_true_r in Hb. simpl in Hb. bools. by apply Hu.
Qed.

Lemma placePods_exact r names total s : forall d index used free, anyNegative r = false -> "" ∉ names ->
  placePods r names total index (d + s) d used free = Ok tt <-> feasible names r d s used free.
Proof.
  intros d index used free Hneg He. remember (d + s)%nat as c eqn:Ec. revert d s index used free Ec.
  induction c as [|c IH]; intros d s index used free Ec.
  { split; [|done]. intros _. exists [], []. destruct d, s; try lia. repeat split; try (by constructor); set_solver. }
  cbn [placePods]. rewrite check_bind. destruct (choose r names used (negb (d =? 0)%nat) free) as [|a n'] eqn:Hc.
  - split; [intros [? _]; done|]. intros (ds & ss & Ed & Es & _ & Hd & Hs & Hr). exfalso.
    assert (exists x, x ∈ (ds ++ ss)%list /\ x ∈ names /\ (negb (d =? 0)%nat = true -> x ∉ used)) as (x & Hx & Hin & Hu).
    { destruct ds as [|x ds].
      - destruct ss as [|x ss]; [simpl in *; lia|]. exists x. simpl in Ed. subst d. split; [by left|]. split; [apply Hs; by left|done].
      - exists x. split; [by left|]. split; [apply Hd; by left|]. intros _. apply Hd. by left. }
    eapply choose_none; [exact He|exact Hc|exact Hin|exact Hu|]. eapply holds_le; [done| |by apply Hr]. by apply count_in.
  - set (n := String a n') in *. destruct (choose_some _ _ _ _ _ n ltac:(done) Hc) as (Hin & Hu & H1). fold (free_at free n). fold (take_from r n free).
    destruct d as [|d]; simpl in Hu |- *.
    + rewrite (IH 0%nat c _ used _ eq_refl). assert (s = S c) as -> by lia. split.
      * intros [_ (ds & ss & Ed & Es & Nd & Hd & Hs & Hr)]. apply nil_length_inv in Ed as ->. exists [], (n :: ss). simpl in *.
        split; [done|]. split; [lia|]. split; [done|]. split; [done|]. split; [set_solver|]. by apply roomy_cons.
      * intros Hf. split; [done|]. by apply feasible_plain.
    + replace (d - 0)%nat with d by lia. rewrite (IH d s _ (n :: used) _) by lia. split.
      * intros [_ (ds & ss & Ed & Es & Nd & Hd & Hs & Hr)]. exists (n :: ds), ss. split; [simpl; lia|]. split; [done|].
        split; [constructor; [|done]; intros Hx; destruct (Hd _ Hx) as [_ Hn]; set_solver|].
        split; [intros x [->|Hx]%elem_of_cons; [by split; [|apply Hu]|]; destruct (Hd _ Hx); set_solver|]. split; [done|]. by apply roomy_cons.
      * intros Hf. split; [done|]. by apply feasible_spread.
Qed.

(** ** The accounting *)

Notation node_name n := (om_Name (kn_Meta n)).

(** What the running Pods of a node ask for together. *)
Definition used_on (n : string) (pods : list pod) : resourceVector :=
  foldr vec_add zero_vector (podRequest <$> filter (fun p => terminal p = false /\ pod_NodeName p = n) pods).

Lemma eligibleCapacity_spec cfg nodes : NoDup ((fun n => node_name n) <$> nodes) ->
  (forall n, n ∈ nodes -> eligible cfg n = true -> is_Some (resourceVectorFromList (kn_Allocatable n))) ->
  exists free, eligibleCapacity cfg nodes = Ok (free, (fun n => node_name n) <$> filter (fun n => eligible cfg n = true) nodes) /\
    (forall n v, n ∈ nodes -> eligible cfg n = true -> resourceVectorFromList (kn_Allocatable n) = Some v -> free !! node_name n = Some v) /\
    (forall x, is_Some (free !! x) -> exists n, n ∈ nodes /\ eligible cfg n = true /\ node_name n = x).
Proof.
  induction nodes as [|n nodes IH]; intros Nd Hk.
  { exists ∅. split; [done|]. split; [set_solver|]. intros x. rewrite lookup_empty. by intros [? ?]. }
  apply NoDup_cons in Nd as [Nn Nd]. destruct (IH Nd ltac:(intros; apply Hk; set_solver)) as (free & E & Hf & Hd). simpl. rewrite filter_cons.
  destruct (eligible cfg n) eqn:En; simpl.
  - destruct (Hk n ltac:(set_solver) En) as [v Ev]. rewrite Ev, E. simpl.
    assert (Hnone : free !! node_name n = None).
    { apply eq_None_not_Some. intros (m & Hm & _ & Em)%Hd. apply Nn. rewrite <- Em. by apply (list_elem_of_fmap_2 (fun n => node_name n)). }
    rewrite bool_decide_false by (rewrite Hnone; by intros [? ?]). eexists. split; [done|]. split.
    + intros m w [->|Hm]%elem_of_cons Em Ew; [rewrite lookup_insert_eq; congruence|]. rewrite lookup_insert_ne; [by eapply Hf|].
      intros Eq. apply Nn. rewrite Eq. by apply (list_elem_of_fmap_2 (fun n => node_name n)).
    + intros x [<-|[_ Hx]]%lookup_insert_is_Some; [exists n; set_solver|]. destruct (Hd x Hx) as (m & ? & ? & ?). exists m. set_solver.
  - rewrite E. exists free. split; [done|]. split.
    + intros m w [->|Hm]%elem_of_cons Em Ew; [congruence|]. by eapply Hf.
    + intros x Hx. destruct (Hd x Hx) as (m & ? & ? & ?). exists m. set_solver.
Qed.

Lemma eligibleCapacity_known cfg nodes r : eligibleCapacity cfg nodes = Ok r ->
  forall n, n ∈ nodes -> eligible cfg n = true -> is_Some (resourceVectorFromList (kn_Allocatable n)).
Proof.
  revert r. induction nodes as [|m nodes IH]; intros r E n Hn En; [by apply elem_of_nil in Hn|]. simpl in E.
  destruct (eligible cfg m) eqn:Em; simpl in E.
  - destruct (resourceVectorFromList (kn_Allocatable m)) as [v|] eqn:Ev; [|done].
    destruct (eligibleCapacity cfg nodes) as [[free names]|] eqn:E'; [|done]. apply elem_of_cons in Hn as [->|Hn]; eauto.
  - apply elem_of_cons in Hn as [->|Hn]; [congruence|]. eauto.
Qed.

(** Pods whose demand can be measured. *)
Definition measured (free : gmap string resourceVector) (p : pod) : Prop :=
  terminal p = false -> pod_NodeName p <> "" /\ (is_Some (free !! pod_NodeName p) -> pod_HasResources p = false).

Lemma subtract_assoc v a b : vec_sub (vec_sub v a) b = vec_sub v (vec_add a b).
Proof. unfold vec_sub, vec_add. simpl. f_equal; lia. Qed.

Lemma used_on_cons n p pods : used_on n (p :: pods) =
  if bool_decide (terminal p = false /\ pod_NodeName p = n) then vec_add (podRequest p) (used_on n pods) else used_on n pods.
Proof.
  unfold used_on. destruct (decide (terminal p = false /\ pod_NodeName p = n)) as [D|D].
  - by rewrite filter_cons_True, bool_decide_true.
  - by rewrite filter_cons_False, bool_decide_false.
Qed.

Lemma subtractPods_ok pods : forall free free', subtractPods pods free = Ok free' ->
  (forall p, p ∈ pods -> measured free p) /\ forall n, free' !! n = (fun v => vec_sub v (used_on n pods)) <$> free !! n.
Proof.
  induction pods as [|p pods IH]; intros free free' E; simpl in E.
  { injection E as <-. split; [set_solver|]. intros n. destruct (free !! n) as [[]|]; [|done]. simpl. unfold vec_sub. simpl. by rewrite !Z.sub_0_r. }
  destruct (terminal p) eqn:Et.
  { destruct (IH _ _ E) as [Hm Hf]. split; [intros q [->|Hq]%elem_of_cons; [unfold measured; congruence|auto]|].
    intros n. rewrite used_on_cons, bool_decide_false by (intros [? ?]; congruence). apply Hf. }
  rewrite check_bind in E. destruct E as [En E]. apply String.eqb_neq in En. destruct (free !! pod_NodeName p) as [v|] eqn:Ev.
  - rewrite check_bind in E. destruct E as [Er E]. destruct (IH _ _ E) as [Hm Hf]. split.
    + intros q [->|Hq]%elem_of_cons; [by intros _; split|]. intros Ht. destruct (Hm q Hq Ht) as [? Hi]. split; [done|].
      intros Hs. apply Hi. rewrite lookup_insert_is_Some'. by right.
    + intros n. rewrite Hf, used_on_cons. destruct (decide (pod_NodeName p = n)) as [<-|Hne].
      * rewrite lookup_insert_eq, Ev, bool_decide_true by done. simpl. by rewrite subtract_assoc.
      * rewrite lookup_insert_ne by done. by rewrite bool_decide_false by (intros [? ?]; congruence).
  - destruct (IH _ _ E) as [Hm Hf]. split.
    + intros q [->|Hq]%elem_of_cons; [|auto]. intros _. split; [done|]. rewrite Ev. by intros [? ?].
    + intros n. rewrite Hf, used_on_cons. case_bool_decide as D; [|done]. destruct D as [_ <-]. by rewrite Ev.
Qed.

Lemma subtractPods_total pods : forall free, (forall p, p ∈ pods -> measured free p) -> exists free', subtractPods pods free = Ok free'.
Proof.
  induction pods as [|p pods IH]; intros free Hm; simpl; [eauto|].
  destruct (terminal p) eqn:Et; [apply IH; intros; apply Hm; by right|].
  destruct (Hm p ltac:(by left) Et) as [En Hr]. apply String.eqb_neq in En. rewrite En. simpl.
  destruct (free !! pod_NodeName p) as [v|] eqn:Ev; [|apply IH; intros; apply Hm; by right].
  rewrite Hr by eauto. simpl. apply IH. intros q Hq Ht. destruct (Hm q ltac:(by right) Ht) as [? Hi]. split; [done|].
  intros [Hs|Hs]%lookup_insert_is_Some'; [apply Hi; by rewrite <- Hs, Ev|by apply Hi].
Qed.

(** ** The decision *)

(** The cluster can be measured: every eligible node publishes its amounts, there is
    one, and every running Pod is assigned and has no Pod-level resources where it
    counts. *)
Definition measurable (cfg : Config) (nodes : list knode) (pods : list pod) : Prop :=
  (forall n, n ∈ nodes -> eligible cfg n = true -> is_Some (resourceVectorFromList (kn_Allocatable n))) /\
  (exists n, n ∈ nodes /\ eligible cfg n = true) /\
  (forall p, p ∈ pods -> terminal p = false -> pod_NodeName p <> "" /\
     ((exists n, n ∈ nodes /\ eligible cfg n = true /\ node_name n = pod_NodeName p) -> pod_HasResources p = false)).

(** A placement of the replicas and the Pods of a rolling update: a resilient app has its
    replicas on different nodes, and every node holds its running Pods and the new ones. *)
Definition placement (cfg : Config) (hosting : HostingConfig) (r : resourceVector) (nodes : list knode) (pods : list pod) : Prop :=
  exists replicas surge,
    Z.of_nat (List.length replicas) = (if resilient cfg then Hosting_MaxReplicas hosting else 0) /\
    Z.of_nat (List.length (replicas ++ surge)) = Hosting_MaxReplicas hosting + surgePods cfg hosting /\ NoDup replicas /\
    (forall x, x ∈ (replicas ++ surge)%list -> exists n, n ∈ nodes /\ eligible cfg n = true /\ node_name n = x) /\
    (forall n v, n ∈ nodes -> eligible cfg n = true -> node_name n ∈ (replicas ++ surge)%list ->
       resourceVectorFromList (kn_Allocatable n) = Some v ->
       holds (count (node_name n) (replicas ++ surge)) r (vec_sub v (used_on (node_name n) pods))).

Section decision.
Context `{KubeTypes} `{!KubePorts} `{KubeRest}.
Context (cfg : Config) (hosting : HostingConfig) (r : resourceVector) (nodes : list knode) (pods : list pod).
Context (Hneg : anyNegative r = false) (Hmax : 1 <= Hosting_MaxReplicas hosting).
Context (Nd : NoDup ((fun n => node_name n) <$> nodes)) (He : "" ∉ ((fun n => node_name n) <$> nodes)).

Let eligibles := (fun n => node_name n) <$> filter (fun n => eligible cfg n = true) nodes.

Lemma in_eligibles x : x ∈ merge_sort str_le eligibles <-> exists n, n ∈ nodes /\ eligible cfg n = true /\ node_name n = x.
Proof.
  rewrite merge_sort_Permutation. unfold eligibles. rewrite list_elem_of_fmap. setoid_rewrite list_elem_of_filter. naive_solver.
Qed.

Lemma surge_nonneg : 0 <= surgePods cfg hosting.
Proof. unfold surgePods. cases; try lia. apply Z.quot_pos; lia. Qed.

(** With the amounts computed, the search is the placement of [feasible]. *)
Lemma placeHosting_exact free' :
  (forall n v, n ∈ nodes -> eligible cfg n = true -> resourceVectorFromList (kn_Allocatable n) = Some v ->
     free_at free' (node_name n) = vec_sub v (used_on (node_name n) pods)) ->
  (forall n, n ∈ nodes -> eligible cfg n = true -> is_Some (resourceVectorFromList (kn_Allocatable n))) ->
  placeHosting cfg hosting r (merge_sort str_le eligibles) free' = Ok tt <-> placement cfg hosting r nodes pods.
Proof.
  intros Hfree Hk. pose proof surge_nonneg as Hs. unfold placeHosting. rewrite check_bind.
  set (d := if resilient cfg then Z.to_nat (Hosting_MaxReplicas hosting) else 0%nat).
  replace (Z.to_nat (Hosting_MaxReplicas hosting + surgePods cfg hosting))
    with (d + (Z.to_nat (Hosting_MaxReplicas hosting + surgePods cfg hosting) - d))%nat by (unfold d; destruct (resilient cfg); lia).
  assert (Hne : "" ∉ merge_sort str_le eligibles).
  { rewrite in_eligibles. intros (n & Hn & _ & E). apply He. rewrite <- E. by apply (list_elem_of_fmap_2 (fun n => node_name n)). }
  rewrite placePods_exact by done. unfold feasible, placement. split.
  - intros [_ (ds & ss & Ed & Es & Nds & Hd & Hss & Hr)]. exists ds, ss. rewrite length_app, Ed, Es.
    split; [unfold d; destruct (resilient cfg); lia|]. split; [unfold d; destruct (resilient cfg); lia|]. split; [done|]. split.
    + intros x [Hx|Hx]%elem_of_app; apply in_eligibles; [by apply Hd|by apply Hss].
    + intros n v Hn En Hin Ev. rewrite <- (Hfree n v Hn En Ev). by apply Hr.
  - intros (ds & ss & Ed & Es & Nds & Hin & Hr). rewrite length_app in Es.
    assert (Hd : forall x, x ∈ (ds ++ ss)%list -> x ∈ merge_sort str_le eligibles) by (intros x Hx; by apply in_eligibles, Hin).
    split.
    + destruct (resilient cfg); [|done]. simpl. apply Z.ltb_ge. rewrite <- Ed. apply Nat2Z.inj_le, submseteq_length.
      apply NoDup_submseteq; [done|]. intros x Hx. apply Hd, elem_of_app. by left.
    + exists ds, ss. split; [unfold d; destruct (resilient cfg); lia|]. split; [unfold d; destruct (resilient cfg); lia|]. split; [done|].
      split; [intros x Hx; split; [apply Hd, elem_of_app; by left|set_solver]|].
      split; [intros x Hx; apply Hd, elem_of_app; by right|].
      intros x Hx. destruct (Hin x Hx) as (n & Hn & En & <-). destruct (Hk n Hn En) as [v Ev]. rewrite (Hfree n v Hn En Ev). by apply Hr.
Qed.

(** The whole decision on the nodes and Pods that were read. *)
Lemma capacity_decision :
  is_ok ('(free, names) ← eligibleCapacity cfg nodes;
         _ ← check (bool_decide (merge_sort str_le names = [])) (Errorf "hosting profile has no ready schedulable eligible Kubernetes nodes" []);
         free ← subtractPods pods free;
         placeHosting cfg hosting r (merge_sort str_le names) free) = true
  <-> measurable cfg nodes pods /\ placement cfg hosting r nodes pods.
Proof.
  rewrite is_ok_true. split.
  - intros ([] & E). destruct (eligibleCapacity cfg nodes) as [[free names]|] eqn:Ee; [|done]. simpl in E.
    pose proof (eligibleCapacity_known _ _ _ Ee) as Hk. destruct (eligibleCapacity_spec cfg nodes Nd Hk) as (free0 & Ee' & Hf & Hd).
    rewrite Ee in Ee'. injection Ee' as <- ->. fold eligibles in E. rewrite check_bind in E. destruct E as [En E].
    destruct (subtractPods pods free) as [free'|] eqn:Es; [|done]. simpl in E. destruct (subtractPods_ok _ _ _ Es) as [Hm Hf'].
    assert (Hat : forall n v, n ∈ nodes -> eligible cfg n = true -> resourceVectorFromList (kn_Allocatable n) = Some v ->
              free_at free' (node_name n) = vec_sub v (used_on (node_name n) pods)).
    { intros n v Hn Hel Ev. unfold free_at. by rewrite Hf', (Hf n v Hn Hel Ev). }
    split; [|by eapply placeHosting_exact]. split; [done|]. split.
    + destruct (merge_sort str_le eligibles) as [|x l] eqn:Em; [done|]. destruct (proj1 (in_eligibles x)) as (n & ? & ? & _); [rewrite Em; by left|]. eauto.
    + intros p Hp Ht. destruct (Hm p Hp Ht) as [? Hi]. split; [done|]. intros (n & Hn & Hel & E'). destruct (Hk n Hn Hel) as [v Ev].
      apply Hi. rewrite <- E'. rewrite (Hf n v Hn Hel Ev). eauto.
  - intros [(Hk & (n0 & Hn0 & He0) & Hp) Hpl]. destruct (eligibleCapacity_spec cfg nodes Nd Hk) as (free & -> & Hf & Hd). fold eligibles. simpl.
    assert (Hmem : node_name n0 ∈ merge_sort str_le eligibles) by (apply in_eligibles; eauto).
    rewrite bool_decide_false by (intros E; rewrite E in Hmem; by apply elem_of_nil in Hmem). simpl.
    destruct (subtractPods_total pods free) as [free' Es].
    { intros p Hin Ht. destruct (Hp p Hin Ht) as [? Hi]. split; [done|]. intros Hs. apply Hi. apply Hd, Hs. }
    rewrite Es. simpl. destruct (subtractPods_ok _ _ _ Es) as [_ Hf']. exists tt. apply placeHosting_exact; [|done|done].
    intros n v Hn Hel Ev. unfold free_at. by rewrite Hf', (Hf n v Hn Hel Ev).
Qed.
End decision.

Section capacity.
Context `{KubeTypes} `{!KubePorts} `{KubeRest} {K : Type} `{!Cluster K}.

Lemma requested_positive hosting n : Hosting_Validate (Some hosting) n = Ok tt ->
  exists r, requestedVector hosting = Ok r /\ anyNegative r = false /\ 0 < rv_cpu r /\ 0 < rv_memory r /\ 0 < rv_ephemeral r /\
    1 <= Hosting_MaxReplicas hosting.
Proof.
  intros Hv. assert (exists rl, ResourceRequirements hosting = Ok rl) as [rl Er].
  { unfold Hosting_Validate in Hv. rewrite !check_bind in Hv. destruct Hv as (_ & _ & _ & Hv). unfold ResourceRequirements.
    destruct (parseResourceQuantities (Res_Requests _) _) as [[[? ?] ?]|]; [|done].
    destruct (parseResourceQuantities (Res_Limits _) _) as [[[? ?] ?]|]; [|done]. by eexists. }
  pose proof (hosted_resources _ _ _ Hv Er) as Hr. unfold requestedVector. rewrite Er. destruct rl as [rq lm]. eexists. split; [done|].
  destruct (Hr "cpu") as (c & ? & Ec & _ & ?); [set_solver|]. destruct (Hr "memory") as (m & ? & Em & _ & ?); [set_solver|].
  destruct (Hr "ephemeral-storage") as (e & ? & Ee & _ & ?); [set_solver|]. simpl in *.
  unfold Hosting_Validate in Hv. rewrite !check_bind in Hv. destruct Hv as (_ & Hm & _). bools.
  unfold anyNegative, resourceVectorFromRequests. simpl. rewrite Ec, Em, Ee. simpl. split; [|repeat split; lia].
  repeat (apply orb_false_intro); lia.
Qed.

(** C16: For a validated profile, capacity admission accepts exactly when the nodes and
    Pods it read can be measured and a placement exists: the ceiling of replicas and
    the Pods of a rolling update fit next to the running Pods, with the replicas of a
    resilient app on different nodes.  First fit loses no placement. *)
Theorem capacity_exact cfg hosting n k nodes k1 pods k2 :
  Cfg_Hosting cfg = Some hosting -> Hosting_Validate (Some hosting) n = Ok tt ->
  nodes_List k = (Ok nodes, k1) -> k_list_pods_everywhere k1 = (Ok pods, k2) ->
  NoDup ((fun n => node_name n) <$> nodes) -> "" ∉ ((fun n => node_name n) <$> nodes) ->
  exists r, requestedVector hosting = Ok r /\
    (is_ok (preflightHostingCapacity cfg k).1 = true <-> measurable cfg nodes pods /\ placement cfg hosting r nodes pods).
Proof.
  intros Eh Hv En Ep Nd He. destruct (requested_positive _ _ Hv) as (r & Er & Hneg & _ & _ & _ & Hmax). exists r. split; [done|].
  rewrite <- (capacity_decision cfg hosting r nodes pods Hneg Hmax Nd He).
  unfold preflightHostingCapacity. rewrite Eh. unfold mbind, st_bind, lift, map_err, guard at 1. rewrite Er. cbv zeta. rewrite Hneg. simpl. rewrite En. simpl.
  destruct (eligibleCapacity cfg nodes) as [[free names]|]; [|done]. simpl. unfold guard, lift.
  destruct (bool_decide (merge_sort str_le names = [])); [done|]. simpl. rewrite Ep. simpl.
  destruct (subtractPods pods free); done.
Qed.
End capacity.
