(* ===== verification/CandidateControl.v ===== *)
(** * Candidates in Kubernetes (internal/ingress: candidate.go, candidate_retirement.go,
      candidate_activation.go, candidate_bootstrap.go, candidate_dependencies.go,
      restored_candidate_target.go, candidate_route.go, candidate_status.go,
      candidate_deletion.go)

    The controller's operations on candidate generations: create-only preparation,
    activation of a ready candidate, retirement to a tombstone of zero replicas,
    and the deletion of an app. *)

From S2P Require Import Prelude GoStrings Regexp Sha256 GoJson Appconfig Db Activation Security Candidate CandidateOps Workloads Cluster Resources Capacity.
From Stdlib Require Import Ascii String.
Local Open Scope Z_scope.

Definition candidateRetiredAnnotation : string := "deployer.io/candidate-retired".
Definition deletionOperationAnnotation : string := "deployer.io/deletion-operation".
Definition deletingAppIDAnnotation : string := "deployer.io/deleting-app-id".
Definition legacyDeletionAnnotation : string := "deployer.io/deletion-tombstone".
Definition ErrCandidateDeletionInProgress : error := ErrSentinel "app deletion is in progress".
Definition ErrCandidateStatusNotSelected : error := ErrSentinel "candidate status is not selected".

Section candidates.
Context `{KubeTypes} `{!KubePorts} `{KubeRest} {K : Type} `{!Cluster K} (namespace : string) (tls : TLSConfig).

(** ** Preparation *)

Definition ensureCandidateNetworkPolicy (desired : network_policy) : ST K unit :=
  existing ← find_opt (wrap "read candidate NetworkPolicy: %w") (policies_Get (om_Name (np_Meta desired)));
  match existing with
  | None => _ ← map_err (wrap "create candidate NetworkPolicy: %w") (k_create (OPolicy desired)); mret tt
  | Some p =>
      _ ← lift (requireAppResourceOwnership "NetworkPolicy" (om_Name (np_Meta p))
                  (map_get (om_Labels (np_Meta desired)) appOwnershipLabel) (om_Labels (np_Meta p)));
      guard (negb (candidateNetworkPolicyMatches p desired))
        (ErrSentinel "candidate NetworkPolicy already exists with different immutable content")
  end.

Definition PrepareCandidateDeployment (cfg : Config) (secretRevision requestID registrySecret : string) : ST K unit :=
  desired ← lift (CandidateDeploymentForApp cfg namespace secretRevision requestID registrySecret);
  policy ← lift (candidateNetworkPolicyForApp cfg namespace requestID);
  _ ← ensureCandidateNetworkPolicy policy;
  existing ← find_opt (wrap "read candidate deployment: %w") (deployments_Get (om_Name (d_Meta desired)));
  match existing with
  | None => _ ← map_err (wrap "create candidate deployment: %w") (deployments_Create desired); mret tt
  | Some d =>
      _ ← lift (requireAppResourceOwnership "Deployment" (om_Name (d_Meta d)) (Cfg_Name cfg) (om_Labels (d_Meta d)));
      guard (negb (candidateDeploymentMatches d desired))
        (ErrSentinel "candidate deployment already exists with different immutable content")
  end.

(** ** Retirement *)

Definition retire (d : deployment) : deployment :=
  set_replicas (Some 0) (set_meta (meta_annotate candidateRetiredAnnotation "true" (d_Meta d)) d).

Definition unstable (m : object_meta) : bool := String.eqb (om_UID m) "" || String.eqb (om_ResourceVersion m) "" || om_Deleting m.

Definition RetireCandidateDeployment (cfg : Config) (secretRevision requestID registrySecret : string) : ST K unit :=
  desired ← lift (CandidateDeploymentForApp cfg namespace secretRevision requestID registrySecret);
  let retired := retire desired in
  existing ← find_opt (wrap "read candidate deployment for retirement: %w") (deployments_Get (om_Name (d_Meta desired)));
  match existing with
  | None => _ ← map_err (wrap "create candidate retirement tombstone: %w") (deployments_Create retired); mret tt
  | Some d =>
      _ ← guard (unstable (d_Meta d)) (ErrSentinel "candidate deployment lacks a stable retirement identity");
      _ ← lift (requireAppResourceOwnership "Deployment" (om_Name (d_Meta d)) (Cfg_Name cfg) (om_Labels (d_Meta d)));
      _ ← guard (negb (candidateDeploymentMatches d desired) && negb (candidateDeploymentMatches d retired))
            (ErrSentinel "candidate deployment identity or content changed");
      if candidateDeploymentMatches d retired then mret tt
      else
        _ ← map_err (fun e => if IsConflict e || IsNotFound e
                              then ErrSentinel "candidate retirement was superseded; retry after reread"
                              else wrap "retire candidate deployment: %w" e) (deployments_Update (retire d));
        mret tt
  end.

(** The newest revision is observed and every replica count of its status is zero. *)
Definition drained (d : deployment) : bool := settled 0 d.

Definition CandidateRetired (cfg : Config) (secretRevision requestID registrySecret : string) : ST K bool :=
  desired ← lift (CandidateDeploymentForApp cfg namespace secretRevision requestID registrySecret);
  existing ← find_opt (wrap "read candidate deployment retirement: %w") (deployments_Get (om_Name (d_Meta desired)));
  match existing with
  | None => mret false
  | Some d =>
      if unstable (d_Meta d) then mret false else
      _ ← lift (requireAppResourceOwnership "Deployment" (om_Name (d_Meta d)) (Cfg_Name cfg) (om_Labels (d_Meta d)));
      if negb (drained d) then mret false else
      if negb (candidateDeploymentMatches d (retire desired)) then mret false else
      selector ← lift (CandidateSelector (Cfg_Name cfg) requestID);
      pods ← map_err (wrap "list candidate pods for retirement: %w") (pods_List selector);
      mret (bool_decide (pods = []))
  end.

(** ** Activation *)

Definition ActivatePreparedCandidate (gate : ActivationGate) (cfg : Config) (secretRevision requestID registrySecret : string)
    : ST K ActivationGate :=
  _ ← guard (negb (String.eqb (Gate_App gate) (Cfg_Name cfg)) || negb (String.eqb (Gate_OperationID gate) requestID)) ErrActivationSuperseded;
  desired ← lift (CandidateDeploymentForApp cfg namespace secretRevision requestID registrySecret);
  actual ← deployments_Get (om_Name (d_Meta desired));
  _ ← guard (negb (candidateDeploymentMatches actual desired)) (ErrSentinel "candidate configuration changed");
  _ ← guard (om_Deleting (d_Meta actual) || String.eqb (om_UID (d_Meta actual)) "" ||
             match d_Replicas desired with
             | None => true
             | Some replicas => (replicas <? 1) || negb (settled replicas actual)
             end) ErrCandidateNotReady;
  policy ← lift (candidateNetworkPolicyForApp cfg namespace requestID);
  installed ← policies_Get (om_Name (np_Meta policy));
  _ ← lift (requireAppResourceOwnership "NetworkPolicy" (om_Name (np_Meta installed)) (Cfg_Name cfg) (om_Labels (np_Meta installed)));
  _ ← guard (om_Deleting (np_Meta installed) || negb (candidateNetworkPolicyMatches installed policy))
        (ErrSentinel "candidate network isolation changed");
  service ← serviceAtGate namespace gate;
  let target := candidateServiceForApp cfg namespace in
  _ ← guard (match default [] (Svc_Ports service), default [] (Svc_Ports target) with
             | [p], q :: _ => negb (sp_Port p =? sp_Port q)
             | _, _ => true
             end) (Errorf "candidate port change requires route coordination" []);
  ReplaceActivationTarget namespace gate (MkTarget (ls_MatchLabels <$> d_Selector desired) (Svc_Ports target)).

(** ** Bootstrap *)

Definition inactive_selector (app requestID : string) : gmap string string :=
  generation_selector app ("inactive-" +:+ candidateGeneration app requestID).

Definition CreateInactiveCandidateService (cfg : Config) (requestID : string) : ST K unit :=
  _ ← lift (CandidateDeploymentForApp cfg namespace (Cfg_EnvironmentRevision cfg) requestID (CandidateRegistrySecretName cfg));
  let service := with_target (MkTarget (Some (inactive_selector (Cfg_Name cfg) requestID)) (Svc_Ports (candidateServiceForApp cfg namespace)))
                   (with_annotation initialCandidateRequestAnnotation requestID (candidateServiceForApp cfg namespace)) in
  _ ← k_create (OService service);
  mret tt.

Definition ResetInactiveCandidateService (gate : ActivationGate) (cfg : Config) (oldRequestID newRequestID : string)
    : ST K (ActivationGate * ActivationTarget) :=
  _ ← guard (negb (ValidRevision oldRequestID) || negb (ValidRevision newRequestID) || String.eqb oldRequestID newRequestID)
        (ErrSentinel "invalid candidate bootstrap reuse identities");
  _ ← guard (negb (String.eqb (Gate_App gate) (Cfg_Name cfg)) || negb (is_ok (Validate cfg)) || negb (bool_decide (is_Some (Cfg_Hosting cfg))))
        (ErrSentinel "invalid candidate bootstrap configuration");
  service ← serviceAtGate namespace gate;
  _ ← guard (Svc_Deleting service) (ErrSentinel "candidate bootstrap service is being deleted");
  _ ← guard (negb (String.eqb (map_get (Svc_Annotations service) initialCandidateRequestAnnotation) oldRequestID))
        (ErrSentinel "inactive candidate bootstrap request changed");
  _ ← lift (CandidateSelector (Cfg_Name cfg) newRequestID);
  let target := MkTarget (Some (inactive_selector (Cfg_Name cfg) newRequestID)) (Svc_Ports (candidateServiceForApp cfg namespace)) in
  updated ← updateActivationGate
    (with_annotation activationOperationAnnotation (CandidateBootstrapOperationID (Cfg_Name cfg) newRequestID)
      (with_annotation initialCandidateRequestAnnotation newRequestID (with_target target service)));
  mret (updated, target).

Definition EnsureCandidateRecoveryNamespace : ST K unit := reconcileNamespace namespace.

Definition PrepareCandidateDependencies (cfg : Config) (values : gmap string string) (revision requestID : string)
    (credential : option Credential) : ST K string :=
  _ ← guard (negb (bool_decide (Cfg_Secrets cfg = [])) ||
             (String.eqb (Cfg_EnvironmentRevision cfg) "" && (negb (String.eqb revision "") || negb (bool_decide (values = ∅)))))
        (ErrSentinel "candidate deployments require versioned environment settings");
  _ ← lift (validateEnvironmentReference cfg values revision);
  _ ← lift (validateRegistryReference cfg credential);
  _ ← lift (CandidateDeploymentForApp cfg namespace revision requestID (CandidateRegistrySecretName cfg));
  _ ← PreflightHosting namespace tls cfg;
  _ ← ensureSchedulableWorker cfg;
  _ ← reconcileNamespace namespace;
  _ ← (if String.eqb (Cfg_EnvironmentRevision cfg) "" then mret tt else reconcileEnvironmentSecret namespace cfg values);
  reconcileRegistrySecret namespace cfg credential.

(** ** The restored predecessor *)

Definition candidateGenerationPattern (s : string) : bool := (String.length s =? 32)%nat && forall_byte is_hex s.

(** The Deployment a saved target selects: the legacy one, or one generation. *)
Definition restoredDeployment (target : ActivationTarget) (previous : Config) : result (deployment * string) :=
  let selector := selector_of target in
  let registryName := CandidateRegistrySecretName previous in
  if bool_decide (selector = appLabels (Cfg_Name previous)) then
    _ ← check (negb (bool_decide (Cfg_Secrets previous = [])) && String.eqb (Cfg_EnvironmentRevision previous) "")
          (ErrSentinel "mutable legacy secrets cannot be restored");
    match deploymentForApp previous namespace (Cfg_EnvironmentRevision previous) with
    | Err e => Err (wrap "render restored target: %w" e)
    | Ok d => Ok ((if String.eqb registryName "" then d else set_pod (with_pull_secrets [registryName] (d_Pod d)) d), Cfg_Name previous)
    end
  else
    _ ← check (negb (bool_decide (is_Some (Cfg_Hosting previous))) || negb (String.eqb (State_Mode (Cfg_State previous)) DefaultStateMode))
          (ErrSentinel "restored candidate profile is unsupported");
    let generation := map_get selector candidateGenerationLabel in
    _ ← check (negb (bool_decide (is_Some (selector !! candidateGenerationLabel))) || negb (size selector =? 2)%nat ||
               negb (String.eqb (map_get selector appOwnershipLabel) (Cfg_Name previous)) || negb (candidateGenerationPattern generation))
          (ErrSentinel "restored activation target selector is invalid");
    match candidateDeploymentForGeneration previous namespace (Cfg_EnvironmentRevision previous) generation registryName with
    | Err e => Err (wrap "render restored target: %w" e)
    | Ok d => Ok (d, candidateNameForGeneration (Cfg_Name previous) generation)
    end.

Definition RestoredCandidateTargetReady (gate : ActivationGate) (target : ActivationTarget) (previous : Config) : ST K bool :=
  service ← serviceAtGate namespace gate;
  _ ← guard (negb (String.eqb (Cfg_Name previous) (Gate_App gate)) || Svc_Deleting service)
        (ErrSentinel "restored activation service identity changed");
  _ ← map_err (wrap "invalid predecessor configuration: %w") (lift (Validate previous));
  _ ← guard (negb (target_eq (MkTarget (Svc_Selector service) (Svc_Ports service)) target)) (ErrSentinel "restored activation target changed");
  _ ← guard (negb (candidateServicePortsMatch (ports_of target) (default [] (Svc_Ports (serviceForApp previous namespace)))))
        (ErrSentinel "restored activation ports changed");
  _ ← guard (bool_decide (selector_of target = ∅)) (ErrSentinel "restored activation target is empty");
  '(expected, expectedName) ← lift (restoredDeployment target previous);
  _ ← guard (negb (String.eqb (om_Name (d_Meta expected)) expectedName)) (ErrSentinel "restored target deployment identity changed");
  found ← find_opt (wrap "get restored target Deployment: %w") (deployments_Get expectedName);
  match found with
  | None => mret false
  | Some actual =>
      _ ← guard (String.eqb (om_UID (d_Meta actual)) "") (ErrSentinel "restored target Deployment lacks identity");
      _ ← lift (requireAppResourceOwnership "Deployment" (om_Name (d_Meta actual)) (Cfg_Name previous) (om_Labels (d_Meta actual)));
      _ ← guard (negb (candidateDeploymentMatches actual expected)) (ErrSentinel "restored target deployment changed");
      mret (negb (om_Deleting (d_Meta actual)) &&
            match d_Replicas actual with
            | None => false
            | Some replicas => (1 <=? replicas) && settled replicas actual
            end)
  end.

(** ** The route of a candidate *)

Definition ReconcileCandidateRoute (gate : ActivationGate) (target : ActivationTarget) (cfg : Config) : ST K unit :=
  _ ← lift (Validate cfg);
  _ ← guard (negb (String.eqb (Gate_App gate) (Cfg_Name cfg)) || negb (ValidRevision (Gate_OperationID gate)) ||
             bool_decide (selector_of target = ∅) || bool_decide (ports_of target = [])) (ErrSentinel "invalid candidate route identity");
  service ← serviceAtGate namespace gate;
  _ ← guard (Svc_Deleting service) (ErrSentinel "activation Service is being deleted");
  _ ← guard (negb (target_eq (MkTarget (Svc_Selector service) (Svc_Ports service)) target))
        (ErrSentinel "candidate route target is not selected by the fenced Service");
  _ ← guard (negb (bool_decide (default [] (Svc_Ports service) = default [] (Svc_Ports (candidateServiceForApp cfg namespace)))))
        (ErrSentinel "candidate route port does not match configuration");
  manifest ← lift (ManifestForApp cfg namespace tls);
  match manifest with
  | None =>
      existing ← find_opt (wrap "read app Ingress for deletion: %w") (ingresses_Get (Cfg_Name cfg));
      match existing with
      | None => mret tt
      | Some i =>
          _ ← lift (requireAppResourceOwnership "Ingress" (om_Name (ing_Meta i)) (Cfg_Name cfg) (om_Labels (ing_Meta i)));
          _ ← guard (unstable (ing_Meta i)) (ErrSentinel "app Ingress lacks a stable deletion identity");
          delete_missing_ok (wrap "delete app Ingress: %w")
            (k_delete KIngress (om_Name (ing_Meta i)) (ownedDeleteOptionsWithResourceVersion (ing_Meta i)))
      end
  | Some m =>
      _ ← reconcileTrafficResilienceResources namespace cfg;
      _ ← (if Enabled tls then ensureIssuer tls else mret tt);
      _ ← serviceAtGate namespace gate;
      let desired := kubernetesIngress m in
      existing ← find_opt (wrap "read app Ingress: %w") (ingresses_Get (om_Name (ing_Meta desired)));
      match existing with
      | None => _ ← map_err (wrap "create app Ingress: %w") (k_create (OIngress desired)); mret tt
      | Some i =>
          _ ← lift (requireAppResourceOwnership "Ingress" (om_Name (ing_Meta i)) (Cfg_Name cfg) (om_Labels (ing_Meta i)));
          _ ← guard (unstable (ing_Meta i)) (ErrSentinel "app Ingress lacks a stable update identity");
          let dm := ing_Meta desired in
          _ ← map_err (wrap "update app Ingress: %w")
                (k_update (OIngress (MkIngress (MkMeta (om_Name dm) (om_Namespace dm) (om_UID (ing_Meta i)) (om_ResourceVersion (ing_Meta i))
                   (om_Generation dm) (om_Deleting dm) (om_Labels dm) (om_Annotations dm)) (ing_Class desired) (ing_TLS desired) (ing_Rules desired))));
          mret tt
      end
  end.

(** ** Status *)

Record CandidateStatus := MkCandidateStatus {
  CS_State : string; CS_DesiredReplicas : Z; CS_AvailableReplicas : Z; CS_DeploymentName : string; CS_Selector : gmap string string }.

Definition selected_deployment (appName generation : string) (d : deployment) : bool :=
  let expected := generation_selector appName generation in
  String.eqb (om_Name (d_Meta d)) (candidateNameForGeneration appName generation) &&
  match d_Selector d with
  | Some sel => (ls_Expressions sel =? 0)%nat && bool_decide (ls_MatchLabels sel = expected)
  | None => false
  end && bool_decide (expected ⊆ d_PodLabels d).

Definition readCandidateStatus (appName : string) : ST K CandidateStatus :=
  _ ← guard (blank appName) ErrCandidateStatusNotSelected;
  found ← find_opt (wrap_name "get Service %q for candidate status: %w" appName) (services_get appName);
  match found with
  | None => throw ErrCandidateStatusNotSelected
  | Some service =>
      _ ← lift (requireAppResourceOwnership "Service" (Svc_Name service) appName (Svc_Labels service));
      let operationID := TrimSpace (map_get (Svc_Annotations service) activationOperationAnnotation) in
      let selector := default ∅ (Svc_Selector service) in
      let generation := map_get selector candidateGenerationLabel in
      let activated := bool_decide (is_Some (Svc_Annotations service !! activationOperationAnnotation)) in
      _ ← guard (negb (candidateManagedService service)) ErrCandidateStatusNotSelected;
      let waiting := match Svc_Annotations service !! initialCandidateRequestAnnotation with
                     | Some initialID => negb activated && ValidRevision initialID &&
                         bool_decide (selector = inactive_selector appName initialID) && negb (Svc_Deleting service)
                     | None => false
                     end in
      if waiting then mret (MkCandidateStatus StatusUnavailable 0 0 "" ∅) else
      _ ← guard (negb (ValidRevision operationID)) (Errorf "candidate activation operation is invalid" []);
      _ ← guard (Svc_Deleting service) (Errorf "candidate Service is being deleted" []);
      _ ← guard (negb (size selector =? 2)%nat || negb (String.eqb (map_get selector appOwnershipLabel) appName) ||
                 negb (candidateGenerationPattern generation)) (Errorf "candidate Service selector is unavailable" []);
      let expected := generation_selector appName generation in
      _ ← guard (negb (bool_decide (selector = expected))) (Errorf "candidate Service selector drifted" []);
      l ← map_err (wrap_name "list candidate Deployments for app %q: %w" appName) (deployments_List expected);
      match l with
      | [d] =>
          _ ← lift (requireAppResourceOwnership "Deployment" (om_Name (d_Meta d)) appName (om_Labels (d_Meta d)));
          _ ← guard (negb (selected_deployment appName generation d)) (Errorf "candidate Deployment selector drifted" []);
          mret (MkCandidateStatus (candidateStatusForDeployment d) (deploymentReplicas d) (ds_AvailableReplicas (d_Status d))
                  (om_Name (d_Meta d)) expected)
      | _ => throw (Errorf "candidate Deployment is not uniquely selected" [])
      end
  end.

(** ** Deletion of an app *)

Definition candidateDeletionOperationID (app appID : string) : string :=
  sha256_hex ("candidate-deletion-v1" +:+ nul +:+ app +:+ nul +:+ appID).

Definition deletionTarget (cfg : Config) (operationID : string) : result ActivationTarget :=
  _ ← check (negb (ValidRevision operationID)) (ErrSentinel "invalid deletion operation identity");
  Ok (MkTarget (Some (inactive_selector (Cfg_Name cfg) operationID)) (Svc_Ports (candidateServiceForApp cfg namespace))).

Definition deletion_marked (s : Service) : bool :=
  bool_decide (is_Some (Svc_Annotations s !! deletionOperationAnnotation)) || bool_decide (is_Some (Svc_Annotations s !! deletingAppIDAnnotation)).

Definition CheckCandidateDeletion (app : string) : ST K unit :=
  found ← find_opt (fun e => e) (services_get (TrimSpace app));
  match found with
  | None => mret tt
  | Some s => guard (deletion_marked s) ErrCandidateDeletionInProgress
  end.

Definition mark_deletion (operationID appID : string) (target : ActivationTarget) (s : Service) : Service :=
  with_target target (with_annotation deletingAppIDAnnotation appID
    (with_annotation deletionOperationAnnotation operationID (with_annotation activationOperationAnnotation operationID s))).

Definition marked_for (operationID appID : string) (s : Service) : bool :=
  String.eqb (map_get (Svc_Annotations s) deletionOperationAnnotation) operationID &&
  String.eqb (map_get (Svc_Annotations s) deletingAppIDAnnotation) appID &&
  String.eqb (map_get (Svc_Annotations s) activationOperationAnnotation) operationID.

(** The Service to mark: the existing one, or a new tombstone when none exists and that is allowed. *)
Definition deletionService (cfg : Config) (operationID appID : string) (target : ActivationTarget) (allowMissing : bool) : ST K Service :=
  found ← find_opt (fun e => e) (services_get (Cfg_Name cfg));
  match found with
  | Some s => mret s
  | None =>
      _ ← guard (negb allowMissing) (ErrSentinel "app Service is missing before deletion");
      let fresh := candidateServiceForApp cfg namespace in
      created ← attempt (k_create (OService (mark_deletion operationID appID (MkTarget (Target_Selector target) (Svc_Ports fresh)) fresh)));
      match created with
      | Ok o => lift (as_service o)
      | Err e => if is_kube KubeAlreadyExists e then services_get (Cfg_Name cfg) else throw e
      end
  end.

Definition BeginCandidateDeletion (cfg : Config) (appID : string) (allowMissing : bool) : ST K ActivationGate :=
  _ ← guard (blank appID || negb (is_ok (Validate cfg)) || String.eqb (Cfg_Name cfg) "") (ErrSentinel "invalid candidate deletion configuration");
  let operationID := candidateDeletionOperationID (Cfg_Name cfg) appID in
  target ← lift (deletionTarget cfg operationID);
  service ← deletionService cfg operationID appID target allowMissing;
  _ ← guard (Svc_Deleting service) (ErrSentinel "app Service is being deleted");
  _ ← lift (requireAppResourceOwnership "Service" (Svc_Name service) (Cfg_Name cfg) (Svc_Labels service));
  if deletion_marked service then
    _ ← guard (negb (marked_for operationID appID service)) ErrCandidateDeletionInProgress;
    _ ← guard (String.eqb (Svc_UID service) "" || String.eqb (Svc_ResourceVersion service) "") (ErrSentinel "deletion Service lacks stable identity");
    _ ← guard (Svc_Deleting service || negb (target_eq (MkTarget (Svc_Selector service) (Svc_Ports service)) target))
          (ErrSentinel "deletion Service marker has an unexpected selector");
    mret (activationGateFor service)
  else
    serviceGate ← serviceAtGate namespace (activationGateFor service);
    updateActivationGate (mark_deletion operationID appID target serviceGate).

Definition deletionServiceAtGate (gate : ActivationGate) (appID : string) : ST K Service :=
  _ ← guard (String.eqb (Gate_App gate) "" || String.eqb appID "" ||
             negb (String.eqb (Gate_OperationID gate) (candidateDeletionOperationID (Gate_App gate) appID))) ErrActivationSuperseded;
  service ← serviceAtGate namespace gate;
  _ ← guard (Svc_Deleting service || String.eqb (Svc_UID service) "" || String.eqb (Svc_ResourceVersion service) "" ||
             negb (marked_for (Gate_OperationID gate) appID service) ||
             negb (bool_decide (default ∅ (Svc_Selector service) = inactive_selector (Gate_App gate) (Gate_OperationID gate)))) ErrActivationSuperseded;
  mret service.

(** The legacy Deployment becomes a tombstone of zero replicas, kept until it is drained. *)
Definition legacy_tombstone (operationID : string) (d : deployment) : deployment :=
  set_replicas (Some 0) (set_meta (meta_annotate legacyDeletionAnnotation operationID (d_Meta d)) d).

Definition legacyDrained (operationID : string) (d : deployment) : bool :=
  annotated legacyDeletionAnnotation operationID (d_Meta d) && bool_decide (d_Replicas d = Some 0) && drained d.

Definition ownPods (app : string) (pods : list pod) : result unit :=
  foldr (fun p r => _ ← requireAppResourceOwnership "Pod" (om_Name (pod_Meta p)) app (om_Labels (pod_Meta p)); r) (Ok tt) pods.

Definition noLegacyPods (app : string) : ST K bool :=
  pods ← pods_List {[appNameLabel := app]};
  _ ← lift (ownPods app pods);
  mret (bool_decide (pods = [])).

Definition retireLegacyPredecessor (gate : ActivationGate) : ST K bool :=
  found ← find_opt (fun e => e) (deployments_Get (Gate_App gate));
  match found with
  | None => noLegacyPods (Gate_App gate)
  | Some legacy =>
      _ ← lift (requireAppResourceOwnership "Deployment" (om_Name (d_Meta legacy)) (Gate_App gate) (om_Labels (d_Meta legacy)));
      _ ← guard (unstable (d_Meta legacy)) (ErrSentinel "legacy app Deployment lacks stable retirement identity");
      _ ← (if negb (annotated legacyDeletionAnnotation (Gate_OperationID gate) (d_Meta legacy)) || negb (bool_decide (d_Replicas legacy = Some 0))
           then _ ← map_err (fun e => if IsConflict e || IsNotFound e then ErrActivationSuperseded else e)
                      (deployments_Update (legacy_tombstone (Gate_OperationID gate) legacy));
                mret tt
           else mret tt);
      legacy ← deployments_Get (Gate_App gate);
      if negb (legacyDrained (Gate_OperationID gate) legacy) then mret false else noLegacyPods (Gate_App gate)
  end.

Definition RetireLegacyCandidatePredecessor (gate : ActivationGate) : ST K bool :=
  _ ← guard (negb (ValidRevision (Gate_OperationID gate))) (ErrSentinel "candidate predecessor retirement is unavailable");
  service ← serviceAtGate namespace gate;
  _ ← guard (Svc_Deleting service) ErrActivationSuperseded;
  _ ← guard (negb (bool_decide (CandidateSelector (Gate_App gate) (Gate_OperationID gate) = Ok (default ∅ (Svc_Selector service)))) ||
             negb (String.eqb (map_get (Svc_Annotations service) activationOperationAnnotation) (Gate_OperationID gate))) ErrActivationSuperseded;
  _ ← guard (deletion_marked service) (ErrSentinel "candidate predecessor retirement cannot run during deletion");
  ready ← retireLegacyPredecessor gate;
  _ ← serviceAtGate namespace gate;
  mret ready.

(** A Deployment that is a drained tombstone, of any generation. *)
Definition emptied (d : deployment) : bool := negb (unstable (d_Meta d)) && bool_decide (d_Replicas d = Some 0) && drained d.

Fixpoint allEmptied (app : string) (l : list deployment) : result bool :=
  match l with
  | [] => Ok true
  | d :: rest =>
      _ ← requireAppResourceOwnership "Deployment" (om_Name (d_Meta d)) app (om_Labels (d_Meta d));
      if emptied d then allEmptied app rest else Ok false
  end.

Definition CleanupCandidateDeletion (gate : ActivationGate) (appID : string) : ST K bool :=
  let app := Gate_App gate in
  _ ← deletionServiceAtGate gate appID;
  ready ← retireLegacyPredecessor gate;
  if negb ready then mret false else
  pods ← pods_List {[appOwnershipLabel := app]};
  if negb (bool_decide (pods = [])) then mret false else
  deployments ← deployments_List {[appOwnershipLabel := app]};
  emptied ← lift (allEmptied app deployments);
  if negb emptied then mret false else
  _ ← join_all [deleteIngress app; deleteHostingNetworkPolicy app; deleteTrafficResilienceResources app; deletePodDisruptionBudget app;
                deleteAppSecret app; deleteRegistrySecrets app; deleteEnvironmentSecrets app];
  _ ← deletionServiceAtGate gate appID;
  mret true.

Definition FinishCandidateDeletion (gate : ActivationGate) (appID : string) : ST K unit :=
  found ← find_opt (fun e => e) (services_get (Gate_App gate));
  match found with
  | None => mret tt
  | Some _ =>
      service ← deletionServiceAtGate gate appID;
      pods ← pods_List {[appOwnershipLabel := Gate_App gate]};
      _ ← guard (negb (bool_decide (pods = []))) (ErrSentinel "app still has owned Pods");
      delete_missing_ok (wrap "delete fenced app Service: %w")
        (k_delete KService (Svc_Name service) (ownedDeleteOptionsWithResourceVersion (service_meta service)))
  end.

(** ** The runtime of the server: the interface its candidate operations are written against *)

Definition controller_runtime : CandidateRuntime K := {|
  rt_CaptureActivationGate := CaptureActivationGate;
  rt_FenceActivationGate := FenceActivationGate namespace;
  rt_ReplaceActivationTarget := ReplaceActivationTarget namespace;
  rt_PrepareCandidateDeployment := PrepareCandidateDeployment;
  rt_ActivatePreparedCandidate := ActivatePreparedCandidate;
  rt_RetireCandidateDeployment := RetireCandidateDeployment;
  rt_CandidateRetired := CandidateRetired;
  rt_RestoredCandidateTargetReady := RestoredCandidateTargetReady;
  rt_ReconcileCandidateRoute := ReconcileCandidateRoute;
  rt_EnsureCandidateRecoveryNamespace := EnsureCandidateRecoveryNamespace;
  rt_CreateInactiveCandidateService := CreateInactiveCandidateService;
  rt_InitialCandidateRequest := InitialCandidateRequest namespace;
  rt_ResetInactiveCandidateService := ResetInactiveCandidateService |}.
End candidates.
