(* ===== verification/Postgres.v ===== *)
(** * Managed PostgreSQL clusters (internal/ingress/postgres.go)

    The Cluster object of the database operator is a JSON tree.  The functions of
    the library that read and write nested fields, and what an API error carries
    besides its reason, are interfaces. *)

From S2P Require Import Prelude GoStrings Regexp GoJson Appconfig DatabaseStatus Db Activation Security Candidate Workloads Cluster Resources Capacity.
From Stdlib Require Import Ascii String.
Local Open Scope Z_scope.

(** [strings.Contains] *)
Fixpoint Contains (s sub : string) : bool :=
  HasPrefix s sub || match s with EmptyString => false | String _ s' => Contains s' sub end.

(** ** Nested fields of a tree *)

Definition member (f : string) (m : list (string * json)) : option json := snd <$> List.find (fun kv => String.eqb kv.1 f) m.

(** Neither path leads through the other. *)
Definition diverge (p q : list string) : Prop := ~ p `prefix_of` q /\ ~ q `prefix_of` p.

(** A field is found, missing, or cannot be reached or has another type. *)
Class Unstructured := {
  NestedField : json -> list string -> result (option json); (* NestedFieldNoCopy *)
  NestedString : json -> list string -> result (option string);
  NestedInt64 : json -> list string -> result (option Z);
  NestedBool : json -> list string -> result (option bool);
  NestedSlice : json -> list string -> result (option (list json));
  NestedStringSlice : json -> list string -> result (option (list string));
  SetNestedField : json -> list string -> json -> result json;

  nested_member : forall m f, NestedField (JObj m) [f] = Ok (member f m);
  nested_inside : forall m f g p v, member f m = Some v -> NestedField (JObj m) (f :: g :: p) = NestedField v (g :: p);
  nested_missing : forall m f p, member f m = None -> NestedField (JObj m) (f :: p) = Ok None;
  string_found : forall j p s, NestedString j p = Ok (Some s) <-> NestedField j p = Ok (Some (JStr s));
  int_found : forall j p z, NestedInt64 j p = Ok (Some z) <-> NestedField j p = Ok (Some (enc_int z)) /\ - 2 ^ 63 <= z < 2 ^ 63;
  bool_found : forall j p b, NestedBool j p = Ok (Some b) <-> NestedField j p = Ok (Some (JBool b));
  slice_found : forall j p l, NestedSlice j p = Ok (Some l) <-> NestedField j p = Ok (Some (JArr l));
  slice_missing : forall j p, NestedSlice j p = Ok None <-> NestedField j p = Ok None;
  strings_found : forall j p l, NestedStringSlice j p = Ok (Some l) <-> NestedField j p = Ok (Some (JArr (JStr <$> l)));
  (* a set field is found; fields off its path are as before *)
  set_found : forall j p v j', SetNestedField j p v = Ok j' -> NestedField j' p = Ok (Some v);
  set_inside : forall j p v j' g q, SetNestedField j p v = Ok j' -> NestedField j' (p ++ g :: q) = NestedField v (g :: q);
  set_frame : forall j p v j' q, SetNestedField j p v = Ok j' -> diverge p q -> NestedField j' q = NestedField j q
}.

(** What [errors.As] finds of an API status: the name in its details (empty without
    details) and its message; and the text of an error. *)
Class ErrorDetails := { err_status : error -> option (string * string); err_text : error -> string }.

Section postgres.
Context `{KubeTypes} `{!KubePorts} `{KubeRest} `{!Unstructured} `{!ErrorDetails} {K : Type} `{!Cluster K} (namespace : string).

Definition nestedString (j : json) (p : list string) : string := match NestedString j p with Ok (Some s) => s | _ => "" end.
Definition nestedInt64 (j : json) (p : list string) : Z := match NestedInt64 j p with Ok (Some z) => z | _ => 0 end.
Definition nestedBool (j : json) (p : list string) : bool := match NestedBool j p with Ok (Some b) => b | _ => false end.
Definition nestedStringSlice (j : json) (p : list string) : list string :=
  match NestedStringSlice j p with Ok (Some l) => l | _ => [] end.

Definition postgresClusterSuffix : string := "-db".
Definition postgresRejectNonTLSHBA : string := "hostnossl all all all reject".
Definition postgresSCRAMEncryption : string := "scram-sha-256".
Definition databaseForLabel : string := "deployer.io/database-for".
Definition retentionPolicyLabel : string := "deployer.io/retention-policy".

Definition postgresApplicationSCRAMHBA (database owner : string) : string :=
  "hostssl " +:+ database +:+ " " +:+ owner +:+ " all " +:+ postgresSCRAMEncryption.

(** ** The rendered Cluster *)

Definition postgresClusterForApp (cfg : Config) : option custom :=
  let cfg := Normalize cfg in
  postgres ← Database_Postgres (Cfg_Database cfg);
  let clusterName := Cfg_Name cfg +:+ postgresClusterSuffix in
  let storage := ("size", JStr (PgStorage_Size (Pg_Storage postgres))) ::
    (if String.eqb (PgStorage_StorageClass (Pg_Storage postgres)) "" then []
     else [("storageClass", JStr (PgStorage_StorageClass (Pg_Storage postgres)))]) in
  Some (MkCustom
    (new_meta clusterName namespace
       {["app.kubernetes.io/name" := clusterName; "app.kubernetes.io/instance" := clusterName;
         "app.kubernetes.io/component" := "database"; managedByLabel := managedByDeployer;
         databaseForLabel := Cfg_Name cfg; retentionPolicyLabel := Pg_RetentionPolicy postgres]} ∅)
    (JObj [("spec", JObj
      [("instances", enc_int (Pg_Instances postgres)); ("imageName", JStr (Pg_Image postgres));
       ("bootstrap", JObj [("initdb", JObj
          [("database", JStr (Pg_Database postgres)); ("owner", JStr (Pg_Owner postgres)); ("dataChecksums", JBool true)])]);
       ("affinity", JObj
          [("enablePodAntiAffinity", JBool true); ("topologyKey", JStr "kubernetes.io/hostname"); ("podAntiAffinityType", JStr "required");
           ("nodeSelector", JObj [("kubernetes.io/arch", JStr (placementArchitecture (Placement_Arch (Cfg_Placement cfg))))])]);
       ("storage", JObj storage);
       ("postgresql", JObj
          [("parameters", JObj [("password_encryption", JStr postgresSCRAMEncryption)]);
           ("pg_hba", JArr [JStr postgresRejectNonTLSHBA; JStr (postgresApplicationSCRAMHBA (Pg_Database postgres) (Pg_Owner postgres))]);
           ("synchronous", JObj
              [("method", JStr "any"); ("number", enc_int (PgSync_Replicas (Pg_Synchronous postgres)));
               ("dataDurability", JStr (PgSync_DataDurability (Pg_Synchronous postgres))); ("failoverQuorum", JBool true)])])])])).

(** ** Updates *)

Definition p_instances := ["spec"; "instances"].
Definition p_image := ["spec"; "imageName"].
Definition p_database := ["spec"; "bootstrap"; "initdb"; "database"].
Definition p_owner := ["spec"; "bootstrap"; "initdb"; "owner"].
Definition p_checksums := ["spec"; "bootstrap"; "initdb"; "dataChecksums"].
Definition p_antiAffinity := ["spec"; "affinity"; "enablePodAntiAffinity"].
Definition p_topology := ["spec"; "affinity"; "topologyKey"].
Definition p_antiAffinityType := ["spec"; "affinity"; "podAntiAffinityType"].
Definition p_arch := ["spec"; "affinity"; "nodeSelector"; "kubernetes.io/arch"].
Definition p_size := ["spec"; "storage"; "size"].
Definition p_class := ["spec"; "storage"; "storageClass"].
Definition p_encryption := ["spec"; "postgresql"; "parameters"; "password_encryption"].
Definition p_synchronous := ["spec"; "postgresql"; "synchronous"].
Definition p_number := ["spec"; "postgresql"; "synchronous"; "number"].
Definition p_durability := ["spec"; "postgresql"; "synchronous"; "dataDurability"].
Definition p_hba := ["spec"; "postgresql"; "pg_hba"].

Definition immutableFields : list (string * list string) :=
  [("placement architecture", p_arch); ("bootstrap database", p_database); ("bootstrap owner", p_owner); ("storage class", p_class)].

Fixpoint check_immutable (fields : list (string * list string)) (existing desired : json) : result unit :=
  match fields with
  | [] => Ok tt
  | (name, p) :: rest =>
      _ ← check (negb (String.eqb (nestedString existing p) (nestedString desired p)))
            (Errorf "immutable %s cannot change from %q to %q" [AStr name; AStr (nestedString existing p); AStr (nestedString desired p)]);
      check_immutable rest existing desired
  end.

Definition read_checksums (which : string) (j : json) : result (option bool) :=
  match NestedBool j p_checksums with
  | Ok b => Ok b
  | Err e => Err (ErrWrap ("read " +:+ which +:+ " bootstrap data checksums: %w") [] e)
  end.

Definition parse_size (which size : string) : result quantity :=
  match ParseQuantity size with
  | Some q => Ok q
  | None => Err (Errorf ("parse " +:+ which +:+ " PostgreSQL storage size %q: %w") [AStr size])
  end.

Definition validatePostgresUpdate (existing desired : json) : result unit :=
  _ ← check (negb (String.eqb (nestedString existing p_image) (nestedString desired p_image)))
        (Errorf "immutable PostgreSQL image cannot change from %q to %q through app deployment; use a dedicated database-maintenance runbook"
           [AStr (nestedString existing p_image); AStr (nestedString desired p_image)]);
  _ ← check (negb (nestedInt64 desired p_instances =? nestedInt64 existing p_instances))
        (Errorf "immutable PostgreSQL instance count cannot change from %d to %d through app deployment; use a dedicated database-maintenance runbook"
           [AInt (nestedInt64 existing p_instances); AInt (nestedInt64 desired p_instances)]);
  _ ← check_immutable immutableFields existing desired;
  currentChecksums ← read_checksums "current" existing;
  requestedChecksums ← read_checksums "requested" desired;
  _ ← check (negb (match currentChecksums, requestedChecksums with Some a, Some b => Bool.eqb a b | _, _ => false end))
        (Errorf "immutable bootstrap data checksums cannot change from %t to %t" []);
  currentQuantity ← parse_size "current" (nestedString existing p_size);
  requestedQuantity ← parse_size "requested" (nestedString desired p_size);
  _ ← check (negb (Quantity_Cmp requestedQuantity currentQuantity =? 0))
        (Errorf "immutable PostgreSQL storage size cannot change from %q to %q through app deployment; use a dedicated database-maintenance runbook"
           [AStr (nestedString existing p_size); AStr (nestedString desired p_size)]);
  _ ← check (negb (nestedInt64 existing p_number =? nestedInt64 desired p_number))
        (Errorf "immutable PostgreSQL synchronous replica count cannot change from %d to %d through app deployment; use a dedicated database-maintenance runbook"
           [AInt (nestedInt64 existing p_number); AInt (nestedInt64 desired p_number)]);
  check (negb (String.eqb (nestedString existing p_durability) (nestedString desired p_durability)))
    (Errorf "immutable PostgreSQL data durability cannot change from %q to %q through app deployment; use a dedicated database-maintenance runbook"
       [AStr (nestedString existing p_durability); AStr (nestedString desired p_durability)]).

Definition ownedFields : list (list string) :=
  [p_instances; p_image; p_database; p_owner; p_checksums; p_antiAffinity; p_topology; p_antiAffinityType; p_arch; p_size; p_class;
   p_encryption; p_synchronous].

Definition copyPostgresField (source : json) (p : list string) (target : json) : result json :=
  let path := String.concat "." p in
  match NestedField source p with
  | Err e => Err (ErrWrap "read desired field %q: %w" [AStr path] e)
  | Ok None => Err (Errorf "desired field %q is missing" [AStr path])
  | Ok (Some v) =>
      match SetNestedField target p v with
      | Err e => Err (ErrWrap "set desired field %q: %w" [AStr path] e)
      | Ok target' => Ok target'
      end
  end.

Fixpoint copy_fields (source : json) (ps : list (list string)) (target : json) : result json :=
  match ps with
  | [] => Ok target
  | p :: rest => target' ← copyPostgresField source p target; copy_fields source rest target'
  end.

Definition own_rule (applicationRule : string) (rule : json) : bool :=
  match rule with JStr text => String.eqb text postgresRejectNonTLSHBA || String.eqb text applicationRule | _ => false end.

Definition mergePostgresHBA (cluster : json) : result json :=
  existing ← match NestedSlice cluster p_hba with
             | Err e => Err (ErrWrap "read existing PostgreSQL pg_hba: %w" [] e)
             | Ok found => Ok (default [] found)
             end;
  let applicationRule := postgresApplicationSCRAMHBA (nestedString cluster p_database) (nestedString cluster p_owner) in
  let rules := JStr postgresRejectNonTLSHBA :: JStr applicationRule :: List.filter (fun r => negb (own_rule applicationRule r)) existing in
  match SetNestedField cluster p_hba (JArr rules) with
  | Err e => Err (ErrWrap "set PostgreSQL pg_hba: %w" [] e)
  | Ok cluster' => Ok cluster'
  end.

Definition mergePostgresCluster (existing desired : custom) : result custom :=
  body ← copy_fields (cu_Body desired) ownedFields (cu_Body existing);
  body ← mergePostgresHBA body;
  let m := cu_Meta existing in
  Ok (MkCustom (MkMeta (om_Name m) (om_Namespace m) (om_UID m) (om_ResourceVersion m) (om_Generation m) (om_Deleting m)
                  (om_Labels (cu_Meta desired) ∪ om_Labels m) (om_Annotations m)) body).

(** ** Preconditions *)

Definition cloudNativePGPrerequisiteError (cause : option error) : error :=
  let message := "CloudNativePG prerequisite is unavailable: install the CloudNativePG operator and postgresql.cnpg.io/v1 Cluster CRD" in
  match cause with
  | None => ErrSentinel message
  | Some e => ErrWrap (message +:+ ": %w") [] e
  end.

Definition postgresAPIUnavailable (e : error) : bool :=
  IsNotFound e &&
  match err_status e with
  | None => Contains (ToLower (err_text e)) "requested resource"
  | Some (name, message) => blank name || Contains (ToLower message) "requested resource"
  end.

(** The first expected label that differs; the source ranges over a map of three. *)
Definition requirePostgresClusterOwnership (cluster : custom) (cfg : Config) (postgres : PostgresConfig) : result unit :=
  let labels := om_Labels (cu_Meta cluster) in
  let expect key value :=
    check (negb (String.eqb (map_get labels key) value))
      (Errorf "PostgreSQL Cluster %q ownership conflict: expected label %s=%q, found %q"
         [AStr (om_Name (cu_Meta cluster)); AStr key; AStr value; AStr (map_get labels key)]) in
  _ ← expect managedByLabel managedByDeployer;
  _ ← expect databaseForLabel (Cfg_Name cfg);
  expect retentionPolicyLabel (Pg_RetentionPolicy postgres).

Definition ensurePostgresCapacity (cfg : Config) (postgres : PostgresConfig) : ST K unit :=
  nodes ← map_err (wrap "list Kubernetes nodes for PostgreSQL placement: %w") nodes_List;
  let architecture := placementArchitecture (Placement_Arch (Cfg_Placement cfg)) in
  let available := Z.of_nat (List.length (List.filter (fun n =>
    negb (kn_Unschedulable n) && readyForScheduling n && negb (hasBlockingTaint n) &&
    String.eqb (map_get (om_Labels (kn_Meta n)) "kubernetes.io/arch") architecture) nodes)) in
  guard (available <? Pg_Instances postgres)
    (Errorf "PostgreSQL requires %d ready schedulable Kubernetes nodes for architecture %q, found %d"
       [AInt (Pg_Instances postgres); AStr architecture; AInt available]).

Definition postgresGeneratedResourceCollision (resourceKind resourceName clusterName : string) : error :=
  Errorf "cannot create PostgreSQL Cluster %q: generated %s %q already exists" [AStr clusterName; AStr resourceKind; AStr resourceName].

(** The object must not exist yet. *)
Definition absent (kd : kind) (resourceKind clusterName verb name : string) : ST K unit :=
  found ← find_opt (ErrWrap ("check " +:+ resourceKind +:+ " %q before " +:+ verb +:+ " PostgreSQL Cluster %q: %w") [AStr name; AStr clusterName])
            (k_get kd name);
  guard (bool_decide (is_Some found)) (postgresGeneratedResourceCollision resourceKind name clusterName).

Definition instance_absent (clusterName : string) (includesBootstrap : bool) (serial : Z) : ST K unit :=
  let instanceName := clusterName +:+ "-" +:+ Itoa serial in
  _ ← absent KClaim "PersistentVolumeClaim" clusterName "changing" instanceName;
  _ ← absent KPod "Pod" clusterName "changing" instanceName;
  absent (KGenerated GJob) "Job" clusterName "changing"
    (instanceName +:+ "-" +:+ (if includesBootstrap && (serial =? 1) then "initdb" else "join")).

Definition ensurePostgresInstanceResourcesAvailable (clusterName : string) (serials : list Z) (includesBootstrap : bool) : ST K unit :=
  each (instance_absent clusterName includesBootstrap) serials.

Definition quorum_absent (clusterName : string) : ST K unit :=
  r ← attempt (k_get KQuorum clusterName);
  match r with
  | Ok _ => throw (postgresGeneratedResourceCollision "FailoverQuorum" clusterName clusterName)
  | Err e =>
      if postgresAPIUnavailable e then throw (cloudNativePGPrerequisiteError (Some e))
      else if negb (IsNotFound e)
      then throw (ErrWrap "check FailoverQuorum %q before creating PostgreSQL Cluster %q: %w" [AStr clusterName; AStr clusterName] e)
      else mret tt
  end.

Definition ensurePostgresGeneratedResourcesAvailable (clusterName : string) (instances : Z) : ST K unit :=
  let named := fmap (M:=list) (fun suffix => clusterName +:+ suffix) in
  _ ← quorum_absent clusterName;
  _ ← each (absent KService "Service" clusterName "creating") (named ["-any"; "-r"; "-ro"; "-rw"]);
  _ ← each (absent KSecret "Secret" clusterName "creating") (named ["-app"; "-ca"; "-server"; "-replication"; "-superuser"; "-pull"]);
  _ ← absent (KGenerated GServiceAccount) "ServiceAccount" clusterName "creating" clusterName;
  _ ← ensurePostgresInstanceResourcesAvailable clusterName (Z.of_nat <$> seq 1 (Z.to_nat instances)) true;
  _ ← each (absent KBudget "PodDisruptionBudget" clusterName "creating") [clusterName; clusterName +:+ "-primary"];
  _ ← absent (KGenerated GLease) "Lease" clusterName "creating" clusterName;
  _ ← absent (KGenerated GRole) "Role" clusterName "creating" clusterName;
  absent (KGenerated GRoleBinding) "RoleBinding" clusterName "creating" clusterName.

(** ** Reconciliation *)

Definition as_custom (o : object) : option custom := match o with ODatabase c | OQuorum c => Some c | _ => None end.
Definition databases_Get (n : string) : ST K custom := typed as_custom (k_get KDatabase n).
Definition quorums_Get (n : string) : ST K custom := typed as_custom (k_get KQuorum n).

Definition createPostgres (cfg : Config) (postgres : PostgresConfig) (desired : custom) : ST K unit :=
  let name := om_Name (cu_Meta desired) in
  _ ← ensurePostgresCapacity cfg postgres;
  _ ← ensurePostgresGeneratedResourcesAvailable name (Pg_Instances postgres);
  _ ← map_err (fun e => if postgresAPIUnavailable e || IsNotFound e then cloudNativePGPrerequisiteError (Some e)
                        else wrap_name "create PostgreSQL Cluster %q: %w" name e) (k_create (ODatabase desired));
  mret tt.

Definition updatePostgres (cfg : Config) (postgres : PostgresConfig) (desired existing : custom) : ST K unit :=
  let name := om_Name (cu_Meta desired) in
  _ ← lift (requirePostgresClusterOwnership existing cfg postgres);
  _ ← map_err (wrap_name "update PostgreSQL Cluster %q: %w" name) (lift (validatePostgresUpdate (cu_Body existing) (cu_Body desired)));
  updated ← map_err (wrap_name "merge PostgreSQL Cluster %q: %w" name) (lift (mergePostgresCluster existing desired));
  _ ← map_err (fun e => if postgresAPIUnavailable e then cloudNativePGPrerequisiteError (Some e)
                        else wrap_name "update PostgreSQL Cluster %q: %w" name e) (k_update (ODatabase updated));
  mret tt.

Definition reconcilePostgres (cfg : Config) : ST K unit :=
  let cfg := Normalize cfg in
  match Database_Postgres (Cfg_Database cfg), postgresClusterForApp cfg with
  | Some postgres, Some desired =>
      let name := om_Name (cu_Meta desired) in
      existing ← attempt (databases_Get name);
      match existing with
      | Err e =>
          if postgresAPIUnavailable e then throw (cloudNativePGPrerequisiteError (Some e))
          else if IsNotFound e then createPostgres cfg postgres desired
          else throw (wrap_name "get PostgreSQL Cluster %q: %w" name e)
      | Ok existing => updatePostgres cfg postgres desired existing
      end
  | _, _ => mret tt
  end.

(** ** Status *)

Definition no_database : DatabaseStatus :=
  MkDatabaseStatus false "" 0 0 "" [] [] false "" "" "" false "" "" "" 0 "" false "" "" "" "" false false false "" 0 "" [].

(** What is read of the Cluster object. *)
Definition cluster_status (appName : string) (c : custom) : DatabaseStatus :=
  let body := cu_Body c in
  let labels := om_Labels (cu_Meta c) in
  let hba := nestedStringSlice body p_hba in
  MkDatabaseStatus true (nestedString body ["status"; "phase"]) (wrap_i32 (nestedInt64 body p_instances))
    (wrap_i32 (nestedInt64 body ["status"; "readyInstances"])) (nestedString body ["status"; "currentPrimary"]) [] []
    (String.eqb (map_get labels managedByLabel) managedByDeployer && String.eqb (map_get labels databaseForLabel) appName &&
     String.eqb (map_get labels retentionPolicyLabel) PostgresRetentionPolicyRetain)
    (nestedString body p_image) (nestedString body p_database) (nestedString body p_owner) (nestedBool body p_checksums)
    (nestedString body p_size) (nestedString body p_class) (nestedString body (p_synchronous ++ ["method"])%list)
    (wrap_i32 (nestedInt64 body p_number)) (nestedString body p_durability) (nestedBool body (p_synchronous ++ ["failoverQuorum"])%list)
    (if nestedBool body p_antiAffinity then nestedString body p_antiAffinityType else "") (nestedString body p_topology)
    (nestedString body p_arch) (nestedString body p_encryption)
    (match hba with first :: _ => String.eqb first postgresRejectNonTLSHBA | [] => false end)
    (match hba with
     | _ :: second :: _ => String.eqb second (postgresApplicationSCRAMHBA (nestedString body p_database) (nestedString body p_owner))
     | _ => false
     end)
    false "" 0 "" [].

Definition with_quorum (q : custom) (s : DatabaseStatus) : DatabaseStatus :=
  let body := cu_Body q in
  MkDatabaseStatus (DS_Present s) (DS_Phase s) (DS_DesiredInstances s) (DS_ReadyInstances s) (DS_Primary s) (DS_RunningNodes s) (DS_RunningInstances s)
    (DS_OwnedByDeployer s) (DS_Image s) (DS_BootstrapDatabase s) (DS_BootstrapOwner s) (DS_DataChecksumsEnabled s) (DS_StorageSize s)
    (DS_StorageClass s) (DS_SynchronousMethod s) (DS_SynchronousReplicas s) (DS_DataDurability s) (DS_FailoverQuorumEnabled s)
    (DS_AntiAffinityType s) (DS_TopologyKey s) (DS_Architecture s) (DS_PasswordEncryption s) (DS_RejectsNonTLS s) (DS_RequiresApplicationSCRAM s)
    true (nestedString body ["status"; "method"]) (wrap_i32 (nestedInt64 body ["status"; "standbyNumber"]))
    (nestedString body ["status"; "primary"]) (nestedStringSlice body ["status"; "standbyNames"]).

Definition with_running (nodes instances : list string) (s : DatabaseStatus) : DatabaseStatus :=
  MkDatabaseStatus (DS_Present s) (DS_Phase s) (DS_DesiredInstances s) (DS_ReadyInstances s) (DS_Primary s) nodes instances
    (DS_OwnedByDeployer s) (DS_Image s) (DS_BootstrapDatabase s) (DS_BootstrapOwner s) (DS_DataChecksumsEnabled s) (DS_StorageSize s)
    (DS_StorageClass s) (DS_SynchronousMethod s) (DS_SynchronousReplicas s) (DS_DataDurability s) (DS_FailoverQuorumEnabled s)
    (DS_AntiAffinityType s) (DS_TopologyKey s) (DS_Architecture s) (DS_PasswordEncryption s) (DS_RejectsNonTLS s) (DS_RequiresApplicationSCRAM s)
    (DS_FailoverQuorumPresent s) (DS_FailoverQuorumMethod s) (DS_FailoverQuorumStandbyNumber s) (DS_FailoverQuorumPrimary s)
    (DS_FailoverQuorumStandbyNames s).

(** Pods that run on a known node. *)
Definition running_pod (p : pod) : bool := String.eqb (pod_Phase p) "Running" && negb (blank (pod_NodeName p)).
Definition node_set (pods : list pod) : list string := merge_sort str_le (elements (list_to_set (pod_NodeName <$> pods) : gset string)).

Definition readDatabaseStatus (appName : string) : ST K DatabaseStatus :=
  let appName := TrimSpace appName in
  if String.eqb appName "" then mret no_database else
  let clusterName := appName +:+ postgresClusterSuffix in
  cluster ← attempt (databases_Get clusterName);
  match cluster with
  | Err e =>
      if postgresAPIUnavailable e then throw (cloudNativePGPrerequisiteError (Some e))
      else if IsNotFound e then mret no_database
      else throw (wrap_name "get PostgreSQL Cluster %q status: %w" clusterName e)
  | Ok c =>
      quorum ← attempt (quorums_Get clusterName);
      s ← match quorum with
          | Ok q => mret (with_quorum q (cluster_status appName c))
          | Err e =>
              if postgresAPIUnavailable e then throw (cloudNativePGPrerequisiteError (Some e))
              else if IsNotFound e then mret (cluster_status appName c)
              else throw (wrap_name "get FailoverQuorum %q status: %w" clusterName e)
          end;
      pods ← map_err (wrap_name "list Pods for PostgreSQL Cluster %q status: %w" clusterName)
               (pods_List {["cnpg.io/cluster" := clusterName; "cnpg.io/podRole" := "instance"]});
      let running := List.filter running_pod pods in
      mret (with_running (node_set running) (merge_sort str_le ((fun p => om_Name (pod_Meta p)) <$> running)) s)
  end.
End postgres.
