(* ===== verification/NestedFields.v ===== *)
(** * Nested fields of JSON trees

    The functions of [Unstructured] on trees, by recursion on the path.  They
    satisfy the laws that the theorems on managed databases assume. *)

From S2P Require Import Prelude GoStrings Regexp GoJson Appconfig DatabaseStatus Db Activation Security Candidate Workloads Cluster Resources Capacity Postgres.
From Stdlib Require Import Ascii String.
Local Open Scope Z_scope.

Definition wrong_type : error := ErrSentinel "accessor error: unexpected type".

Fixpoint field_at (j : json) (p : list string) : result (option json) :=
  match p with
  | [] => Ok (Some j)
  | f :: rest =>
      match j with
      | JNull => Ok None
      | JObj m => match member f m with Some v => field_at v rest | None => Ok None end
      | _ => Err wrong_type
      end
  end.

Definition put (f : string) (v : json) (m : list (string * json)) : list (string * json) :=
  (f, v) :: List.filter (fun kv => negb (String.eqb kv.1 f)) m.

(** Missing objects on the way are created. *)
Fixpoint set_at (j : json) (p : list string) (v : json) : result json :=
  match p, j with
  | [f], JObj m => Ok (JObj (put f v m))
  | f :: rest, JObj m => child ← set_at (default (JObj []) (member f m)) rest v; Ok (JObj (put f child m))
  | _, _ => Err wrong_type
  end.

(** A field of a type. *)
Definition field_as {A} (as_ : json -> option A) (j : json) (p : list string) : result (option A) :=
  match field_at j p with
  | Err e => Err e
  | Ok None => Ok None
  | Ok (Some v) => match as_ v with Some a => Ok (Some a) | None => Err wrong_type end
  end.

Definition as_str (j : json) : option string := match j with JStr s => Some s | _ => None end.
Definition as_bool (j : json) : option bool := match j with JBool b => Some b | _ => None end.
Definition as_slice (j : json) : option (list json) := match j with JArr l => Some l | _ => None end.
Definition as_int (j : json) : option Z :=
  match j with
  | JNum t => z ← dec_int 0 j; if bool_decide (t = Itoa z /\ - 2 ^ 63 <= z < 2 ^ 63) then Some z else None
  | _ => None
  end.
Definition as_strings (j : json) : option (list string) := as_slice j ≫= mapM as_str.

(** ** Laws *)

Lemma field_as_found {A} (as_ : json -> option A) (inj : A -> json) (ok : A -> Prop) j p a :
  (forall v, as_ v = Some a <-> v = inj a /\ ok a) -> (field_as as_ j p = Ok (Some a) <-> field_at j p = Ok (Some (inj a)) /\ ok a).
Proof.
  intros Ha. unfold field_as. destruct (field_at j p) as [[v|]|e]; [|naive_solver..]. destruct (as_ v) as [b|] eqn:E.
  - split; [intros [= ->]; apply Ha in E as [-> ?]; done|]. intros [[= ->] Ho]. rewrite (proj2 (Ha (inj a)) (conj eq_refl Ho)) in E. by injection E as ->.
  - split; [done|]. intros [[= ->] Ho]. by rewrite (proj2 (Ha (inj a)) (conj eq_refl Ho)) in E.
Qed.

Lemma field_as_exact {A} (as_ : json -> option A) (inj : A -> json) j p a :
  (forall v, as_ v = Some a <-> v = inj a) -> (field_as as_ j p = Ok (Some a) <-> field_at j p = Ok (Some (inj a))).
Proof. intros Ha. rewrite (field_as_found as_ inj (fun _ => True)); [naive_solver|]. intros v. rewrite Ha. naive_solver. Qed.

Lemma as_int_spec z v : as_int v = Some z <-> v = enc_int z /\ - 2 ^ 63 <= z < 2 ^ 63.
Proof.
  unfold as_int. split.
  - destruct v; try discriminate. intros (z' & _ & E)%bind_Some. case_bool_decide as Hz; [|done]. injection E as ->. by destruct Hz as [-> ?].
  - intros [-> Hz]. unfold enc_int at 1. fold (enc_int z). rewrite dec_int_enc by done. simpl. by rewrite bool_decide_true.
Qed.

Lemma as_strings_spec l v : as_strings v = Some l <-> v = JArr (JStr <$> l).
Proof.
  assert (Hs : forall js l, mapM as_str js = Some l <-> js = JStr <$> l).
  { clear. intros js l. rewrite mapM_Some. split.
    - induction 1 as [|x y ? ? Hx _ IH]; [done|]. destruct x; try discriminate. injection Hx as ->. by rewrite IH.
    - intros ->. induction l; constructor; [done|done]. }
  unfold as_strings, as_slice. split; [intros E; destruct v; try discriminate; simpl in E; by apply Hs in E as ->|intros ->; simpl; by apply Hs].
Qed.

Lemma member_put_eq f v m : member f (put f v m) = Some v.
Proof. unfold member, put. simpl. by rewrite String.eqb_refl. Qed.

Lemma member_put_ne f g v m : g <> f -> member g (put f v m) = member g m.
Proof.
  intros Hne. unfold member, put. simpl. rewrite (proj2 (String.eqb_neq f g)) by congruence. f_equal.
  induction m as [|[k w] m IH]; [done|]. simpl. destruct (String.eqb_spec k f) as [->|Hk]; simpl.
  - rewrite IH. by rewrite (proj2 (String.eqb_neq f g)) by congruence.
  - by rewrite IH.
Qed.

(** Setting a field puts it, or the changed child, under the first name of the path. *)
Lemma set_at_inv j f rest v j' : set_at j (f :: rest) v = Ok j' -> exists m child, j = JObj m /\ j' = JObj (put f child m) /\
  (rest = [] /\ child = v \/ rest <> [] /\ set_at (default (JObj []) (member f m)) rest v = Ok child).
Proof.
  intros E. destruct j as [| | | | |m]; [by destruct rest..|]. destruct rest as [|g rest]; [injection E as <-; eauto 7|].
  change (mbind (fun child => Ok (JObj (put f child m))) (set_at (default (JObj []) (member f m)) (g :: rest) v) = Ok j') in E.
  destruct (set_at (default (JObj []) (member f m)) (g :: rest) v) as [child|e] eqn:Ec; [|discriminate]. injection E as <-. eauto 8.
Qed.

Lemma set_at_inside j p v j' q : set_at j p v = Ok j' -> field_at j' (p ++ q) = field_at v q.
Proof.
  revert j j'. induction p as [|f rest IH]; intros j j' E; [discriminate|].
  apply set_at_inv in E as (m & child & -> & -> & Hc). cbn [field_at app]. rewrite member_put_eq.
  destruct Hc as [[-> ->]|[_ Hc]]; [done|by eapply IH].
Qed.

Lemma diverge_cons f p q : diverge (f :: p) (f :: q) -> diverge p q.
Proof. intros [Hp Hq]. split; intros Hpq; [apply Hp|apply Hq]; by apply prefix_cons. Qed.

Lemma set_at_frame j p v j' q : set_at j p v = Ok j' -> diverge p q -> field_at j' q = field_at j q.
Proof.
  revert j j' q. induction p as [|f rest IH]; intros j j' q E Hd; [discriminate|].
  apply set_at_inv in E as (m & child & -> & -> & Hc). destruct q as [|g q]; [destruct Hd as [_ []]; apply prefix_nil|]. cbn [field_at].
  destruct (decide (g = f)) as [->|Hne]; [|by rewrite member_put_ne]. apply diverge_cons in Hd. rewrite member_put_eq.
  destruct Hc as [[-> ->]|[_ Hc]]; [destruct Hd as [[] _]; apply prefix_nil|]. rewrite (IH _ _ _ Hc Hd).
  destruct (member f m) as [w|]; [done|]. destruct q; [destruct Hd as [_ []]; apply prefix_nil|done].
Qed.

#[refine] Definition tree_fields : Unstructured := {|
  NestedField := field_at; NestedString := field_as as_str; NestedInt64 := field_as as_int; NestedBool := field_as as_bool;
  NestedSlice := field_as as_slice; NestedStringSlice := field_as as_strings; SetNestedField := set_at |}.
Proof.
  - intros m f. cbn [field_at]. by destruct (member f m).
  - intros m f g p v E. cbn [field_at]. by rewrite E.
  - intros m f p E. cbn [field_at]. by rewrite E.
  - intros j p s. apply field_as_exact. intros []; naive_solver.
  - intros j p z. apply (field_as_found as_int enc_int (fun z => - 2 ^ 63 <= z < 2 ^ 63)). intros v. apply as_int_spec.
  - intros j p b. apply field_as_exact. intros []; naive_solver.
  - intros j p l. apply field_as_exact. intros []; naive_solver.
  - intros j p. unfold field_as. destruct (field_at j p) as [[v|]|e]; [destruct (as_slice v)|..]; naive_solver.
  - intros j p l. apply (field_as_exact as_strings (fun l => JArr (JStr <$> l))). intros v. apply as_strings_spec.
  - intros j p v j' E. pose proof (set_at_inside _ _ _ _ [] E) as Hi. by rewrite app_nil_r in Hi.
  - intros j p v j' g q E. by eapply set_at_inside.
  - intros j p v j' q E Hd. by eapply set_at_frame.
Defined.

(** Errors without API details. *)
Definition plain_details : ErrorDetails := {| err_status := fun _ => None; err_text := fun _ => "" |}.
