(* ===== verification/KubeNodes.v ===== *)
(** * Kubernetes nodes (internal/ingress/nodes.go)

    Labels, readiness, cordon, drain and removal of nodes, for a controller with
    every client of [NewController] set.  A list restricted to the Pods of a node
    is the list of Pods, filtered by the field. *)

From S2P Require Import Prelude GoStrings Regexp GoJson Appconfig Db NodeRegistry Activation Security Candidate Workloads Cluster Resources Capacity.
From Stdlib Require Import Ascii String.
Local Open Scope Z_scope.

Section nodes.
Context `{KubeTypes} `{!KubePorts} `{KubeRest} {K : Type} `{!Cluster K}.

Definition nodes_Get (n : string) : ST K knode := typed as_node (k_get KNode n).
Definition nodes_Update (n : knode) : ST K knode := typed as_node (k_update (ONode n)).
Definition volumes_List : ST K (list volume) := list_as as_volume KVolume ∅.

Definition set_node_labels (labels : gmap string string) (n : knode) : knode :=
  let m := kn_Meta n in
  MkKNode (MkMeta (om_Name m) (om_Namespace m) (om_UID m) (om_ResourceVersion m) (om_Generation m) (om_Deleting m) labels (om_Annotations m))
    (kn_Unschedulable n) (kn_Conditions n) (kn_Taints n) (kn_Allocatable n).
Definition set_unschedulable (b : bool) (n : knode) : knode :=
  MkKNode (kn_Meta n) b (kn_Conditions n) (kn_Taints n) (kn_Allocatable n).

(** ** Labels *)

Definition setLabel (labels : gmap string string) (key value : string) : gmap string string * bool :=
  if String.eqb (map_get labels key) value then (labels, false) else (<[key := value]> labels, true).

Definition sync_key (wanted : gmap string string) (st : gmap string string * bool) (key : string) : gmap string string * bool :=
  let '(labels, changed) := st in
  let name := "deployer.io/" +:+ key in
  match wanted !! key with
  | Some value =>
      if blank value then match labels !! name with Some _ => (delete name labels, true) | None => (labels, changed) end
      else let '(labels', c) := setLabel labels name (TrimSpace value) in (labels', c || changed)
  | None => match labels !! name with Some _ => (delete name labels, true) | None => (labels, changed) end
  end.

Definition node_labels (platformNode : Node) (wanted labels : gmap string string) : gmap string string * bool :=
  let st := setLabel labels "deployer.io/node-id" (Node_ID platformNode) in
  let st := fold_left (sync_key wanted) ["location"; "role"] st in
  let arch := placementArchitecture (Node_Arch platformNode) in
  if String.eqb arch "" then st
  else let '(labels', c) := setLabel st.1 "kubernetes.io/arch" arch in (labels', c || st.2).

Definition SyncNodeLabels (platformNode : Node) : ST K unit :=
  found ← find_opt (wrap_name "get Kubernetes Node %q for labels: %w" (Node_Name platformNode)) (nodes_Get (Node_Name platformNode));
  match found with
  | None => mret tt
  | Some node =>
      match json_parse (Node_LabelsJSON platformNode) ≫= dec_map "" dec_string ∅ with
      | None => throw (Errorf "decode node labels: %w" [])
      | Some wanted =>
          let '(labels, changed) := node_labels platformNode wanted (om_Labels (kn_Meta node)) in
          if negb changed then mret tt
          else
            _ ← map_err (wrap_name "update Kubernetes Node %q labels: %w" (Node_Name platformNode)) (nodes_Update (set_node_labels labels node));
            mret tt
      end
  end.

(** ** Readiness *)

Definition readiness (conditions : list (string * string * string)) : string * string :=
  match List.find (fun c : string * string * string => String.eqb c.1.1 NodeReady) conditions with
  | None => ("unknown", "Kubernetes Node has no Ready condition")
  | Some c =>
      (if String.eqb c.1.2 "True" then "ready" else if String.eqb c.1.2 "False" then "not-ready" else "unknown", TrimSpace c.2)
  end.

Definition NodeReadiness (nodeName : string) : ST K (string * string * bool) :=
  found ← find_opt (wrap_name "get Kubernetes Node %q: %w" nodeName) (nodes_Get nodeName);
  mret match found with
       | None => ("missing", "Kubernetes node was not found", false)
       | Some node => (readiness (kn_Conditions node), negb (kn_Unschedulable node))
       end.

Definition Ready : ST K unit := _ ← map_err (wrap "check Kubernetes API readiness: %w") nodes_List; mret tt.

(** ** Cordon and drain *)

Definition setNodeUnschedulable (nodeName : string) (unschedulable : bool) : ST K unit :=
  node ← map_err (wrap_name "get Kubernetes Node %q: %w" nodeName) (nodes_Get nodeName);
  if Bool.eqb (kn_Unschedulable node) unschedulable then mret tt
  else
    _ ← map_err (wrap_name "update Kubernetes Node %q: %w" nodeName) (nodes_Update (set_unschedulable unschedulable node));
    mret tt.

Definition CordonNode (nodeName : string) : ST K unit := setNodeUnschedulable nodeName true.
Definition UncordonNode (nodeName : string) : ST K unit := setNodeUnschedulable nodeName false.

Definition pods_on (nodeName : string) : ST K (list pod) :=
  pods ← pods_List ∅; mret (List.filter (fun p => String.eqb (pod_NodeName p) nodeName) pods).

Definition pod_label (key : string) (p : pod) : string := map_get (om_Labels (pod_Meta p)) key.

Definition database_pod (p : pod) : bool :=
  negb (blank (pod_label "cnpg.io/cluster" p)) && String.eqb (pod_label "cnpg.io/podRole" p) "instance".

Definition evictable (p : pod) : bool :=
  let stateMode := pod_label "deployer.io/state-mode" p in
  negb (String.eqb stateMode "" || String.eqb stateMode "stateful" ||
        String.eqb (pod_label "deployer.io/resilience-mode" p) ResiliencePinned).

Definition evict (nodeName : string) (p : pod) : ST K unit :=
  if evictable p
  then delete_missing_ok (ErrWrap "evict Pod %q from Kubernetes Node %q: %w" [AStr (om_Name (pod_Meta p)); AStr nodeName])
         (k_evict (om_Name (pod_Meta p)))
  else mret tt.

Definition DrainNode (nodeName : string) : ST K unit :=
  _ ← CordonNode nodeName;
  pods ← map_err (wrap_name "list Pods on Kubernetes Node %q: %w" nodeName) (pods_on nodeName);
  let databasePods := (fun p => om_Namespace (pod_Meta p) +:+ "/" +:+ om_Name (pod_Meta p)) <$> List.filter database_pod pods in
  _ ← guard (negb (bool_decide (databasePods = [])))
        (Errorf "Kubernetes Node %q is cordoned but not drained because it hosts CloudNativePG instance Pods %s; use the documented CloudNativePG maintenance procedure"
           [AStr nodeName; AStr (String.concat ", " (merge_sort str_le databasePods))]);
  each (evict nodeName) pods.

(** ** Removal *)

(** The claims an annotation lists: without blanks, each once. *)
Fixpoint distinct_claims (seen parts : list string) : list string :=
  match parts with
  | [] => []
  | part :: rest =>
      let claim := TrimSpace part in
      if String.eqb claim "" || bool_decide (claim ∈ seen) then distinct_claims seen rest
      else claim :: distinct_claims (claim :: seen) rest
  end.

Definition retainedStorageClaimsForDeployment (d : deployment) : list string :=
  let annotation key := TrimSpace (map_get (om_Annotations (d_Meta d)) key) in
  let raw := or_default (annotation retainedStorageClaimsAnnotation) (annotation retainedStorageClaimAnnotation) in
  if String.eqb raw "" then [] else distinct_claims [] (Split_byte raw ","%char).

Definition retained_local (v : volume) : bool := pv_Local v && String.eqb (pv_ReclaimPolicy v) "Retain".

Definition claim_text (v : volume) : string :=
  match pv_ClaimRef v with None => "unbound" | Some ref => ref.1 +:+ "/" +:+ ref.2 end.

Definition selectedNodeID (d : deployment) : string := TrimSpace (map_get (ps_NodeSelector (d_Pod d)) "deployer.io/node-id").

Fixpoint deployments_removable (nodeID nodeName : string) (ds : list deployment) : result unit :=
  match ds with
  | [] => Ok tt
  | d :: rest =>
      let claims := retainedStorageClaimsForDeployment d in
      if bool_decide (claims = []) then deployments_removable nodeID nodeName rest
      else if String.eqb (selectedNodeID d) ""
      then Err (Errorf "node removal is unsafe because retained-storage Deployment %q has no exact node-id selector" [AStr (om_Name (d_Meta d))])
      else if negb (String.eqb (selectedNodeID d) nodeID) then deployments_removable nodeID nodeName rest
      else Err (Errorf "Kubernetes Node %q hosts retained-storage Deployment %q using PersistentVolumeClaims %q; delete or relocate the application through its storage runbook first"
                  [AStr nodeName; AStr (om_Name (d_Meta d)); AStr (String.concat ", " claims)])
  end.

Definition validateRetainedStorageNodeRemoval (nodeID nodeName : string) : ST K unit :=
  volumes ← map_err (wrap_name "list PersistentVolumes before removing Kubernetes Node %q: %w" nodeName) volumes_List;
  _ ← match List.find (fun v => retained_local v && persistentVolumePinnedToNodeID v nodeID) volumes with
      | Some v => throw (Errorf "Kubernetes Node %q owns retained local PersistentVolume %q for claim %q; relocate or explicitly retire the volume first"
                           [AStr nodeName; AStr (om_Name (pv_Meta v)); AStr (claim_text v)])
      | None => mret tt
      end;
  deployments ← map_err (wrap_name "list Deployments before removing Kubernetes Node %q: %w" nodeName) (deployments_List ∅);
  lift (deployments_removable nodeID nodeName deployments).

Definition ValidateNodeRemoval (node : Node) : ST K unit := validateRetainedStorageNodeRemoval (Node_ID node) (Node_Name node).

Definition RemoveNode (nodeName : string) : ST K unit :=
  found ← find_opt (wrap_name "get Kubernetes Node %q before deletion: %w" nodeName) (nodes_Get nodeName);
  match found with
  | None => mret tt
  | Some node =>
      _ ← validateRetainedStorageNodeRemoval (map_get (om_Labels (kn_Meta node)) "deployer.io/node-id") nodeName;
      delete_missing_ok (wrap_name "delete Kubernetes Node %q: %w" nodeName) (k_delete KNode nodeName (MkPre None None))
  end.
End nodes.
