(* ===== verification/Controller.v ===== *)
(** * The controller (internal/ingress: controller.go, resources.go, nodes.go)

    Reconciliation, deletion and status of an app, composed of the operations on
    its objects, and the controller as the runtime that the server's services are
    written against. *)

From S2P Require Import Prelude GoStrings Regexp GoJson Appconfig DatabaseStatus Db NodeRegistry Activation Security Vault Candidate CandidateOps CandidateRequests AppService NodeService Workloads Cluster Resources Capacity CandidateControl Postgres KubeNodes.
From Stdlib Require Import Ascii String.
Local Open Scope Z_scope.

Section controller.
Context `{KubeTypes} `{!KubePorts} `{KubeRest} `{!Unstructured} `{!ErrorDetails} {K : Type} `{!Cluster K}.
(** [polls]: how often a rollout is looked at before its deadline. *)
Context (namespace : string) (tls : TLSConfig) (polls : nat).

Definition reconcileAppResources (cfg : Config) (values : gmap string string) (secretRevision : string) (credential : option Credential) : ST K unit :=
  _ ← reconcileNamespace namespace;
  _ ← reconcileHostingNetworkPolicy namespace cfg;
  _ ← reconcilePostgres namespace cfg;
  _ ← reconcileSecret namespace cfg values;
  registrySecretName ← reconcileRegistrySecret namespace cfg credential;
  _ ← reconcileDeployment namespace polls cfg secretRevision registrySecretName;
  _ ← reconcilePodDisruptionBudget namespace cfg;
  if negb (blank (Routing_Domain (Cfg_Routing cfg)))
  then _ ← reconcileTrafficResilienceResources namespace cfg; reconcileService namespace cfg
  else _ ← reconcileService namespace cfg; reconcileTrafficResilienceResources namespace cfg.

Definition ingress_at (rv : string) (i : ingress) : ingress :=
  MkIngress (meta_version rv (ing_Meta i)) (ing_Class i) (ing_TLS i) (ing_Rules i).

Definition ReconcileWithRegistry (cfg : Config) (values : gmap string string) (secretRevision : string) (credential : option Credential) : ST K unit :=
  _ ← lift (validateEnvironmentReference cfg values secretRevision);
  _ ← lift (validateRegistryReference cfg credential);
  _ ← PreflightHosting namespace tls cfg;
  _ ← ensureSchedulableWorker cfg;
  _ ← rejectLegacyCandidateMutation (Cfg_Name cfg);
  if blank (Routing_Domain (Cfg_Routing cfg))
  then _ ← deleteIngress (Cfg_Name cfg); reconcileAppResources cfg values secretRevision credential
  else
    _ ← reconcileAppResources cfg values secretRevision credential;
    manifest ← lift (ManifestForApp cfg namespace tls);
    match manifest with
    | None => deleteIngress (Cfg_Name cfg)
    | Some m =>
        _ ← (if Enabled tls then ensureIssuer tls else mret tt);
        apply_owned KIngress "Ingress" (Cfg_Name cfg) (fun _ => Ok tt) (fun rv => OIngress (ingress_at rv (kubernetesIngress m)))
    end.

Definition Reconcile (cfg : Config) (values : gmap string string) (secretRevision : string) : ST K unit :=
  ReconcileWithRegistry cfg values secretRevision None.

Definition Delete (appName : string) : ST K unit :=
  let app := TrimSpace appName in
  if String.eqb app "" then mret tt else
  _ ← rejectLegacyCandidateMutation app;
  _ ← join_all [deleteIngress app; deleteHostingNetworkPolicy app; deleteService app; deleteTrafficResilienceResources app;
                deleteDeployment app; deletePodDisruptionBudget app; deleteAppSecret app];
  join_all [deleteRegistrySecrets app; deleteEnvironmentSecrets app].

(** ** Status *)

(** The candidate's status, or nothing when no candidate is selected. *)
Definition selectedStatus (appName : string) : ST K (option CandidateStatus) :=
  r ← attempt (readCandidateStatus appName);
  match r with
  | Ok s => mret (Some s)
  | Err e => if errors_Is e ErrCandidateStatusNotSelected then mret None else throw e
  end.

Definition Status (appName : string) : ST K string :=
  candidate ← selectedStatus appName;
  match candidate with
  | Some s => mret (CS_State s)
  | None =>
      found ← find_opt (wrap_name "get Deployment %q for route status: %w" appName) (deployments_Get appName);
      mret match found with None => StatusUnavailable | Some d => statusForDeployment d end
  end.

Definition StatusDetails (appName : string) : ST K (string * Z * Z) :=
  candidate ← selectedStatus appName;
  match candidate with
  | Some s => mret (CS_State s, CS_DesiredReplicas s, CS_AvailableReplicas s)
  | None =>
      found ← find_opt (wrap_name "get Deployment %q for app status: %w" appName) (deployments_Get appName);
      mret match found with
           | None => (StatusUnavailable, 0, 0)
           | Some d => (statusForDeployment d, default 0 (d_Replicas d), ds_AvailableReplicas (d_Status d))
           end
  end.

Definition runningNodesForSelector (selector : gmap string string) : ST K (list string) :=
  pods ← map_err (wrap "list Pods for runtime status: %w") (pods_List selector);
  mret (node_set (List.filter running_pod pods)).

Definition RuntimeStatus (appName : string) : ST K (string * Z * Z * list string) :=
  candidate ← selectedStatus appName;
  match candidate with
  | Some s =>
      if String.eqb (CS_DeploymentName s) "" then mret (CS_State s, CS_DesiredReplicas s, CS_AvailableReplicas s, [])
      else
        nodes ← runningNodesForSelector (CS_Selector s);
        mret (CS_State s, CS_DesiredReplicas s, CS_AvailableReplicas s, nodes)
  | None =>
      details ← StatusDetails appName;
      nodes ← runningNodesForSelector {[appOwnershipLabel := appName]};
      mret (details, nodes)
  end.

(** ** The runtime of the server's services *)

(** The server also keeps the vault of its secrets. *)
Definition platform : Type := K * vault.

Definition on_cluster {A} (m : ST K A) : platform -> result A * platform := fun p => let '(r, k) := m p.1 in (r, (k, p.2)).

Definition platform_runtime : CandidateRuntime platform :=
  let c := controller_runtime (K:=K) namespace tls in {|
  rt_CaptureActivationGate := fun app => on_cluster (@rt_CaptureActivationGate _ _ c app);
  rt_FenceActivationGate := fun g o => on_cluster (@rt_FenceActivationGate _ _ c g o);
  rt_ReplaceActivationTarget := fun g t => on_cluster (@rt_ReplaceActivationTarget _ _ c g t);
  rt_PrepareCandidateDeployment := fun cfg s q r => on_cluster (@rt_PrepareCandidateDeployment _ _ c cfg s q r);
  rt_ActivatePreparedCandidate := fun g cfg s q r => on_cluster (@rt_ActivatePreparedCandidate _ _ c g cfg s q r);
  rt_RetireCandidateDeployment := fun cfg s q r => on_cluster (@rt_RetireCandidateDeployment _ _ c cfg s q r);
  rt_CandidateRetired := fun cfg s q r => on_cluster (@rt_CandidateRetired _ _ c cfg s q r);
  rt_RestoredCandidateTargetReady := fun g t cfg => on_cluster (@rt_RestoredCandidateTargetReady _ _ c g t cfg);
  rt_ReconcileCandidateRoute := fun g t cfg => on_cluster (@rt_ReconcileCandidateRoute _ _ c g t cfg);
  rt_EnsureCandidateRecoveryNamespace := on_cluster (@rt_EnsureCandidateRecoveryNamespace _ _ c);
  rt_CreateInactiveCandidateService := fun cfg q => on_cluster (@rt_CreateInactiveCandidateService _ _ c cfg q);
  rt_InitialCandidateRequest := fun g => on_cluster (@rt_InitialCandidateRequest _ _ c g);
  rt_ResetInactiveCandidateService := fun g cfg o n => on_cluster (@rt_ResetInactiveCandidateService _ _ c g cfg o n) |}.

Definition platform_services : CandidateServices platform := {|
  sv_vault := snd;
  sv_set_vault := fun v p => (p.1, v);
  sv_PrepareCandidateDependencies := fun cfg vs s q c => on_cluster (PrepareCandidateDependencies namespace tls cfg vs s q c);
  sv_CheckCandidateDeletion := fun app => on_cluster (CheckCandidateDeletion app);
  sv_RetireLegacyCandidatePredecessor := fun g => on_cluster (RetireLegacyCandidatePredecessor namespace g);
  sv_PreflightHosting := fun cfg => on_cluster (PreflightHosting namespace tls cfg);
  sv_BeginCandidateDeletion := fun cfg id b => on_cluster (BeginCandidateDeletion namespace cfg id b);
  sv_CleanupCandidateDeletion := fun g id => on_cluster (CleanupCandidateDeletion namespace g id);
  sv_FinishCandidateDeletion := fun g id => on_cluster (FinishCandidateDeletion namespace g id) |}.

Definition platform_apps : AppRuntime platform := {|
  ar_Reconcile := fun cfg vs s => on_cluster (Reconcile cfg vs s);
  ar_ReconcileWithRegistry := fun cfg vs s c => on_cluster (ReconcileWithRegistry cfg vs s (Some c));
  ar_Delete := fun app => on_cluster (Delete app);
  ar_Status := fun app => on_cluster (Status app);
  ar_StatusDetails := fun app => on_cluster (d ← StatusDetails app; mret (d.1.2, d.2));
  ar_RuntimeStatus := fun app => on_cluster (RuntimeStatus app);
  ar_DatabaseStatus := fun app => on_cluster (readDatabaseStatus app) |}.

(** Of the node service's runtime the hub, the join material and the events are others'. *)
Definition controller_nodes (sync : list Node -> K -> result unit * K) (material : K -> result (string * string) * K)
    (record : string -> string -> string -> string -> K -> K) : NodeRuntime K := {|
  nr_NodeReadiness := NodeReadiness;
  nr_DrainNode := KubeNodes.DrainNode;
  nr_UncordonNode := KubeNodes.UncordonNode;
  nr_RemoveNode := KubeNodes.RemoveNode;
  nr_ValidateNodeRemoval := ValidateNodeRemoval;
  nr_SyncNodeLabels := SyncNodeLabels;
  nr_SyncPeers := sync;
  nr_WorkerJoinMaterial := material;
  nr_Record := record |}.
End controller.
