(* ===== verification/ControlLogic.v ===== *)
(** * Reasoning about the controller's calls

    For one object, named by its kind and name, an operation stays within a
    relation on its history: every change during the operation, by the controller
    or by others, is allowed by the relation.  The rules follow the structure of
    the operations. *)

From S2P Require Import Prelude GoStrings Regexp GoJson Appconfig Db Activation Security Candidate CandidateOps Workloads Cluster Resources Capacity CandidateControl NodeRegistry DatabaseStatus Postgres KubeNodes Controller.
From Stdlib Require Import Ascii String.
Local Open Scope Z_scope.

Create HintDb within discriminated.

Section logic.
Context `{KubeTypes} `{!KubePorts} `{KubeRest} {K : Type} `{!Cluster K}.
Context (kd : kind) (n : string) (R : hist -> option object -> Prop).

Definition within {A} (m : ST K A) : Prop := forall k r k', cluster_wf k -> m k = (r, k') ->
  cluster_wf k' /\ grows_by R (history k kd n) (history k' kd n).

Context (HR : forall h o, others kd n h o -> R h o).

Lemma within_ret {A} (a : A) : within (mret a).
Proof. intros k r k' Hw [= <- <-]. split; [done|constructor]. Qed.

Lemma within_lift {A} (r : result A) : within (lift r).
Proof. intros k r' k' Hw [= <- <-]. split; [done|constructor]. Qed.

Lemma within_throw {A} e : within (throw e : ST K A).
Proof. intros k r' k' Hw [= <- <-]. split; [done|constructor]. Qed.

Lemma within_guard b e : within (guard b e).
Proof. apply within_lift. Qed.

Lemma within_bind {A B} (m : ST K A) (f : A -> ST K B) : within m -> (forall a, within (f a)) -> within (mbind f m).
Proof.
  intros Hm Hf k r k' Hw [(e & He & _)|(a & k1 & Ha & Hb)]%st_bind_inv; [by eapply Hm|].
  destruct (Hm _ _ _ Hw Ha) as [Hw1 G1]. destruct (Hf _ _ _ _ Hw1 Hb) as [Hw2 G2]. split; [done|]. by eapply grows_by_trans.
Qed.

(** A bind whose continuation is only needed for values the first part can give. *)
Lemma within_bind_lift {A B} (x : result A) (f : A -> ST K B) : (forall a, x = Ok a -> within (f a)) -> within (mbind f (lift x)).
Proof.
  intros Hf k r k' Hw [(e & He & _)|(a & k1 & [= Ha <-] & Hb)]%st_bind_inv.
  - injection He as _ <-. split; [done|constructor].
  - by eapply Hf.
Qed.

Lemma within_map_err {A} g (m : ST K A) : within m -> within (map_err g m).
Proof. intros Hm k r k' Hw E. unfold map_err in E. destruct (m k) as [[a|e] k1] eqn:Ha; injection E as <- <-; by eapply Hm. Qed.

Lemma within_attempt {A} (m : ST K A) : within m -> within (attempt m).
Proof. intros Hm k r k' Hw E. unfold attempt in E. destruct (m k) as [x k1] eqn:Ha. injection E as <- <-. by eapply Hm. Qed.

Lemma within_find_opt {A} w (m : ST K A) : within m -> within (find_opt w m).
Proof.
  intros Hm. unfold find_opt. apply within_bind; [by apply within_attempt|]. intros [a|e]; [apply within_ret|].
  destruct (IsNotFound e); [apply within_ret|apply within_throw].
Qed.

Lemma within_delete_missing w (m : ST K unit) : within m -> within (delete_missing_ok w m).
Proof.
  intros Hm. unfold delete_missing_ok. apply within_bind; [by apply within_attempt|]. intros [a|e]; [apply within_ret|].
  destruct (IsNotFound e); [apply within_ret|apply within_throw].
Qed.

Lemma within_typed {A} (as_ : object -> option A) (m : ST K object) : within m -> within (typed as_ m).
Proof. intros Hm. unfold typed. apply within_bind; [done|]. intros o. destruct (as_ o); [apply within_ret|apply within_throw]. Qed.

Lemma within_if {A} (b : bool) (m m' : ST K A) : within m -> within m' -> within (if b then m else m').
Proof. by destruct b. Qed.

Lemma within_join ms : Forall within ms -> within (join_all ms).
Proof.
  intros Hms. unfold join_all. apply within_bind; [|intros; apply within_lift].
  induction Hms as [|m ms Hm Hms IH]; [apply within_ret|]. cbn [join_calls].
  apply within_bind; [by apply within_attempt|]. intros r. apply within_bind; [done|]. intros; apply within_ret.
Qed.

(** Reads leave every object to the others. *)
Lemma within_get kd' n' : within (k_get kd' n').
Proof. intros k r k' Hw E. destruct (get_frame _ _ _ _ _ Hw E) as [? Hf]. split; [done|]. eapply grows_by_impl; [exact HR|apply Hf]. Qed.

Lemma within_list kd' sel : within (k_list kd' sel).
Proof. intros k r k' Hw E. destruct (list_frame _ _ _ _ _ Hw E) as [? Hf]. split; [done|]. eapply grows_by_impl; [exact HR|apply Hf]. Qed.

Lemma within_everywhere : within k_list_pods_everywhere.
Proof. intros k r k' Hw E. destruct (everywhere_frame _ _ _ Hw E) as [? Hf]. split; [done|]. eapply grows_by_impl; [exact HR|apply Hf]. Qed.

Lemma within_list_as {A} (as_ : object -> option A) kd' sel : within (list_as as_ kd' sel).
Proof. unfold list_as. apply within_bind; [apply within_list|intros; apply within_ret]. Qed.

(** Writes of another object, and writes of this one that the relation allows. *)
Lemma within_create o : ((kd, n) = (kind_of o, name_of o) -> forall h o', current h = None -> admits complete_ports o o' -> R h (Some o')) ->
  within (k_create o).
Proof.
  intros Hown k r k' Hw E. destruct (create_frame _ _ _ _ Hw E) as [Hw' Hf]. split; [done|].
  destruct (decide ((kd, n) = (kind_of o, name_of o))) as [Eq|Ne]; [|eapply grows_by_impl; [exact HR|by apply Hf]].
  injection Eq as Ek En. pose proof (create_write _ _ _ _ Hw E) as Hc. cbv zeta in Hc. rewrite <- Ek, <- En in Hc.
  destruct Hc as [[G _]|(h & o' & G1 & Hn & Ha & _ & G2 & _)]; [by eapply grows_by_impl|].
  eapply grows_by_trans; [by eapply grows_by_impl|]. eapply grows_by_trans; [|by eapply grows_by_impl]. constructor; [constructor|].
  apply Hown; [by rewrite Ek, En|done|done].
Qed.

Lemma within_update o : ((kd, n) = (kind_of o, name_of o) -> forall h old o', current h = Some old -> names_version o old ->
    admits complete_ports o o' -> uid o' = uid old -> R h (Some o')) ->
  within (k_update o).
Proof.
  intros Hown k r k' Hw E. destruct (update_frame _ _ _ _ Hw E) as [Hw' Hf]. split; [done|].
  destruct (decide ((kd, n) = (kind_of o, name_of o))) as [Eq|Ne]; [|eapply grows_by_impl; [exact HR|by apply Hf]].
  injection Eq as Ek En. pose proof (update_write _ _ _ _ Hw E) as Hc. cbv zeta in Hc. rewrite <- Ek, <- En in Hc.
  destruct Hc as [[G _]|(h & old & G1 & Hn & Hv & Hc)]; [by eapply grows_by_impl|].
  eapply grows_by_trans; [by eapply grows_by_impl|]. destruct Hc as [(_ & _ & G2 & _)|(o' & Ha & Hu & _ & G2 & _)]; [by eapply grows_by_impl|].
  eapply grows_by_trans; [|by eapply grows_by_impl]. constructor; [constructor|]. eapply Hown; [by rewrite Ek, En|done..].
Qed.

Lemma within_delete kd' n' pre : ((kd, n) = (kd', n') -> forall h old after, current h = Some old -> meets pre old ->
    (forall o', after = Some o' -> om_Deleting (meta o') = true) -> R h after) ->
  within (k_delete kd' n' pre).
Proof.
  intros Hown k r k' Hw E. destruct (delete_frame _ _ _ _ _ _ Hw E) as [Hw' Hf]. split; [done|].
  destruct (decide ((kd, n) = (kd', n'))) as [Eq|Ne]; [|eapply grows_by_impl; [exact HR|by apply Hf]].
  injection Eq as -> ->. destruct (delete_write _ _ _ _ _ _ Hw E) as [[G _]|(h & old & after & G1 & Hc & Hm & Hd & G2)]; [by eapply grows_by_impl|].
  eapply grows_by_trans; [by eapply grows_by_impl|]. eapply grows_by_trans; [|by eapply grows_by_impl]. constructor; [constructor|].
  by eapply Hown.
Qed.

Lemma within_evict x : ((kd, n) = (KPod, x) -> forall h old after, current h = Some old ->
    (forall o', after = Some o' -> om_Deleting (meta o') = true) -> R h after) ->
  within (k_evict x).
Proof.
  intros Hown k r k' Hw E. destruct (evict_frame _ _ _ _ Hw E) as [Hw' Hf]. split; [done|].
  destruct (decide ((kd, n) = (KPod, x))) as [Eq|Ne]; [|eapply grows_by_impl; [exact HR|by apply Hf]].
  injection Eq as -> ->. destruct (evict_write _ _ _ _ Hw E) as [[G _]|(h & old & after & G1 & Hc & Hd & G2)]; [by eapply grows_by_impl|].
  eapply grows_by_trans; [by eapply grows_by_impl|]. eapply grows_by_trans; [|by eapply grows_by_impl]. constructor; [constructor|].
  by eapply Hown.
Qed.

Lemma within_each_all {A} (f : A -> ST K unit) l : (forall a, within (f a)) -> within (each f l).
Proof. intros Hf. induction l; cbn [each]; [apply within_ret|]. apply within_bind; auto. Qed.
End logic.

Lemma within_impl `{KubeTypes} `{!KubePorts} `{KubeRest} {K : Type} `{!Cluster K} kd n (R R' : hist -> option object -> Prop) {A} (m : ST K A) :
  (forall h o, R h o -> R' h o) -> within kd n R m -> within kd n R' m.
Proof. intros Hi Hm k r k' Hw E. destruct (Hm _ _ _ Hw E) as [Hw' G]. split; [done|]. by eapply grows_by_impl. Qed.

(** ** Reasoning from what was read

    An object that was read stays in its history.  Under a condition on the state the
    operation starts in, it stays within the relation. *)

Section reads.
Context `{KubeTypes} `{!KubePorts} `{KubeRest} {K : Type} `{!Cluster K}.
Context (kd : kind) (n : string) (R : hist -> option object -> Prop) (HR : forall h o, others kd n h o -> R h o).

Definition given (P : K -> Prop) {A} (m : ST K A) : Prop := forall k r k', cluster_wf k -> P k -> m k = (r, k') ->
  cluster_wf k' /\ grows_by R (history k kd n) (history k' kd n).

Definition witnessed (o : object) (k : K) : Prop := Some o ∈ history k (kind_of o) (name_of o).

Lemma given_within P {A} (m : ST K A) : within kd n R m -> given P m.
Proof. intros Hm k r k' Hw _ E. by eapply Hm. Qed.

Lemma within_given {A} (m : ST K A) : given (fun _ => True) m -> within kd n R m.
Proof. intros Hm k r k' Hw E. by eapply Hm. Qed.

Lemma given_bind P {A B} (Q : A -> K -> Prop) (m : ST K A) (f : A -> ST K B) :
  given P m -> (forall k a k', cluster_wf k -> P k -> m k = (Ok a, k') -> Q a k') -> (forall a, given (Q a) (f a)) -> given P (mbind f m).
Proof.
  intros Hm Hq Hf k r k' Hw Hp [(e & He & _)|(a & k1 & Ha & Hb)]%st_bind_inv; [by eapply Hm|].
  destruct (Hm _ _ _ Hw Hp Ha) as [Hw1 G1]. destruct (Hf _ _ _ _ Hw1 (Hq _ _ _ Hw Hp Ha) Hb) as [Hw2 G2]. split; [done|]. by eapply grows_by_trans.
Qed.

Lemma given_bind_lift P {A B} (x : result A) (f : A -> ST K B) : (forall a, x = Ok a -> given P (f a)) -> given P (mbind f (lift x)).
Proof.
  intros Hf k r k' Hw Hp [(e & He & _)|(a & k1 & [= Ha <-] & Hb)]%st_bind_inv; [injection He as _ <-; split; [done|constructor]|by eapply Hf].
Qed.

Lemma given_bind_guard P {B} b e (f : unit -> ST K B) : (b = false -> given P (f tt)) -> given P (mbind f (guard b e)).
Proof. intros Hf. apply given_bind_lift. intros [] Eb. apply Hf. unfold check in Eb. by destruct b. Qed.

Lemma given_bind_map_lift P {A B} g (x : result A) (f : A -> ST K B) : (forall a, x = Ok a -> given P (f a)) -> given P (mbind f (map_err g (lift x))).
Proof.
  intros Hf k r k' Hw Hp E. destruct x as [a|e]; [by eapply (Hf a)|]. injection E as _ <-. split; [done|constructor].
Qed.

Lemma given_then P {A B} (m : ST K A) (b : ST K B) : given P m -> within kd n R b -> given P (mbind (fun _ => b) m).
Proof. intros Hm Hb. eapply (given_bind P (fun _ _ => True)); [done|done|]. intros _. by apply given_within. Qed.

Lemma given_then_any P {A B} (m : ST K A) (f : A -> ST K B) : given P m -> (forall a, within kd n R (f a)) -> given P (mbind f m).
Proof. intros Hm Hf. eapply (given_bind P (fun _ _ => True)); [done|done|]. intros a. by apply given_within. Qed.

Lemma given_map_err P {A} g (m : ST K A) : given P m -> given P (map_err g m).
Proof. intros Hm k r k' Hw Hp E. unfold map_err in E. destruct (m k) as [[a|e] k1] eqn:Ha; injection E as <- <-; by eapply Hm. Qed.

Lemma given_typed P {A} (as_ : object -> option A) (m : ST K object) : given P m -> given P (typed as_ m).
Proof.
  intros Hm. unfold typed. eapply (given_bind P (fun _ _ => True)); [done|done|]. intros o. apply given_within.
  destruct (as_ o); [apply within_ret|apply within_throw].
Qed.

Lemma given_delete_missing P w (m : ST K unit) : given P m -> given P (delete_missing_ok w m).
Proof.
  intros Hm k r k' Hw Hp E. unfold delete_missing_ok in E. apply st_bind_inv in E as [(e & E1 & _)|(x & k1 & E1 & E2)]; unfold attempt in E1;
    destruct (m k) as [r1 k2] eqn:Em; [discriminate|]. injection E1 as <- <-. destruct (Hm _ _ _ Hw Hp Em) as [Hw1 G1].
  destruct r1 as [|e]; [by injection E2 as _ <-|]. destruct (IsNotFound e); by injection E2 as _ <-.
Qed.

Lemma find_opt_some {B} w (m : ST K B) k b k' : find_opt w m k = (Ok (Some b), k') -> m k = (Ok b, k').
Proof.
  intros E. unfold find_opt in E. apply st_bind_ok in E as (r & k1 & E1 & E2). unfold attempt in E1.
  destruct (m k) as [[x|e] k2] eqn:Ek; injection E1 as <- <-; [by injection E2 as <- <-|destruct (IsNotFound e); discriminate].
Qed.

(** A read object is in its history. *)
Lemma get_witnessed kd' n' k o k' : cluster_wf k -> k_get kd' n' k = (Ok o, k') -> kind_of o = kd' /\ name_of o = n' /\ witnessed o k'.
Proof.
  intros Hw E. destruct (get_frame _ _ _ _ _ Hw E) as [Hw' _]. destruct (get_read _ _ _ _ _ Hw E) as (h & _ & (older & ->)%current_head & [e Eh]%grows_by_suffix).
  assert (Hin : Some o ∈ history k' kd' n') by (rewrite Eh; apply elem_of_app; right; by left).
  destruct (stored_object _ _ _ _ Hw' Hin) as (Ek & En & _). unfold witnessed. by rewrite Ek, En.
Qed.

(** Listed objects as well. *)
Lemma list_witnessed kd' sel k l k' o : cluster_wf k -> k_list kd' sel k = (Ok l, k') -> o ∈ l -> kind_of o = kd' /\ witnessed o k'.
Proof.
  intros Hw E Hin. destruct (list_frame _ _ _ _ _ Hw E) as [Hw' _]. destruct (list_read _ _ _ _ _ Hw E) as (h & Hh & Hl).
  apply Hl in Hin as (n' & Hc & _). destruct (Hh n') as [_ [e Eh]%grows_by_suffix]. destruct (current_head _ _ Hc) as [older Eo].
  assert (Hi : Some o ∈ history k' kd' n') by (rewrite Eh, Eo; apply elem_of_app; right; by left).
  destruct (stored_object _ _ _ _ Hw' Hi) as (Ek & En & _). unfold witnessed. by rewrite Ek, En.
Qed.

Lemma find_witnessed kd' n' w k o k' : cluster_wf k -> find_opt w (k_get kd' n') k = (Ok (Some o), k') ->
  kind_of o = kd' /\ name_of o = n' /\ witnessed o k'.
Proof.
  intros Hw E. unfold find_opt in E. apply st_bind_ok in E as (r & k1 & E1 & E2). unfold attempt in E1.
  destruct (k_get kd' n' k) as [[x|e] k2] eqn:Ek; injection E1 as <- <-; [|destruct (IsNotFound e); discriminate].
  injection E2 as <- <-. by eapply get_witnessed.
Qed.

(** The typed clients read the object behind their value. *)
Lemma find_typed_witnessed {A} (as_ : object -> option A) kd' n' w k a k' : cluster_wf k -> find_opt w (typed as_ (k_get kd' n')) k = (Ok (Some a), k') ->
  exists o, as_ o = Some a /\ kind_of o = kd' /\ name_of o = n' /\ witnessed o k'.
Proof.
  intros Hw E. unfold find_opt in E. apply st_bind_ok in E as (r & k1 & E1 & E2). unfold attempt in E1.
  destruct (typed as_ (k_get kd' n') k) as [[x|e] k2] eqn:Ek; injection E1 as <- <-; [|destruct (IsNotFound e); discriminate]. injection E2 as <- <-.
  unfold typed in Ek. apply st_bind_ok in Ek as (o & k3 & Eg & Ea). exists o. destruct (as_ o) as [b|] eqn:Eo; [|discriminate]. injection Ea as -> ->.
  destruct (get_witnessed _ _ _ _ _ Hw Eg) as (? & ? & ?). done.
Qed.

Lemma witnessed_grows (R' : hist -> option object -> Prop) o k (h : hist) : grows_by R' (history k (kind_of o) (name_of o)) h -> witnessed o k -> Some o ∈ h.
Proof. intros [e ->]%grows_by_suffix Hin. apply elem_of_app. by right. Qed.

(** An update that names the version of an object read before replaces that object. *)
Lemma given_update P o x : (forall k, P k -> witnessed x k) -> kind_of o = kind_of x -> name_of o = name_of x -> version o = version x ->
  ((kd, n) = (kind_of o, name_of o) -> forall k h o', P k -> history k kd n `suffix_of` h -> current h = Some x ->
     admits complete_ports o o' -> uid o' = uid x -> R h (Some o')) ->
  given P (k_update o).
Proof.
  intros Hx Ek En Ev Hown k r k' Hw Hp E. specialize (Hx _ Hp).
  destruct (update_frame _ _ _ _ Hw E) as [Hw' Hf]. split; [done|].
  destruct (decide ((kd, n) = (kind_of o, name_of o))) as [Eq|Ne]; [|eapply grows_by_impl; [exact HR|by apply Hf]].
  injection Eq as Ek' En'. pose proof (update_write _ _ _ _ Hw E) as Hc. cbv zeta in Hc. rewrite <- Ek', <- En' in Hc.
  destruct Hc as [[G _]|(h & old & G1 & Hcur & [Hv _] & Hc)]; [by eapply grows_by_impl|].
  unfold witnessed in Hx. rewrite <- Ek, <- En, <- Ek', <- En' in Hx.
  assert (S' : h `suffix_of` history k' kd n).
  { destruct Hc as [(_ & _ & G2 & _)|(o' & _ & _ & _ & G2 & _)]; apply grows_by_suffix in G2; [done|]. etrans; [|exact G2]. by apply suffix_cons_r. }
  assert (old = x) as ->.
  { destruct (current_head _ _ Hcur) as [older ->]. apply grows_by_suffix in G1.
    assert (I1 : Some old ∈ history k' kd n) by (destruct S' as [e ->]; apply elem_of_app; right; by left).
    assert (I2 : Some x ∈ history k' kd n) by (destruct S' as [e ->]; apply elem_of_app; right; destruct G1 as [e' ->]; apply elem_of_app; by right).
    destruct (stored_object _ _ _ _ Hw' I2) as (_ & _ & _ & Nv). destruct Hv as [Hv|Hv]; [congruence|].
    apply list_elem_of_lookup in I1 as [i I1], I2 as [j I2]. assert (version old = version x) as Evx by congruence.
    pose proof (version_once _ _ _ _ _ _ _ Hw' I1 I2 Evx) as ->. congruence. }
  eapply grows_by_trans; [by eapply grows_by_impl|]. destruct Hc as [(_ & _ & G2 & _)|(o' & Ha & Hu & _ & G2 & _)]; [by eapply grows_by_impl|].
  eapply grows_by_trans; [|by eapply grows_by_impl]. constructor; [constructor|]. eapply Hown; [by rewrite Ek', En'|done|by eapply grows_by_suffix|done..].
Qed.

(** A confirmed update returns the stored object. *)
Lemma update_returns o k x k' : cluster_wf k -> k_update o k = (Ok x, k') -> admits complete_ports o x /\ witnessed x k'.
Proof.
  intros Hw E. pose proof (update_write _ _ _ _ Hw E) as Hc. cbv zeta in Hc.
  destruct Hc as [[_ ?]|(h & old & _ & Hcur & _ & Hc)]; [done|].
  destruct Hc as [(Ha & _ & [e Eh]%grows_by_suffix & Hx)|(o' & Ha & _ & _ & [e Eh]%grows_by_suffix & Hx)]; specialize (Hx _ eq_refl) as ->;
    (split; [done|]); pose proof Ha as (Ek & En & _); unfold witnessed; rewrite Ek, En, Eh; apply elem_of_app; right.
  - destruct (current_head _ _ Hcur) as [older ->]. by left.
  - by left.
Qed.

(** A deletion that names the identity of an object read before removes an object of that identity. *)
Lemma given_delete P x pre : (forall k, P k -> witnessed x k) -> pre_UID pre = nonempty (uid x) ->
  ((kd, n) = (kind_of x, name_of x) -> forall h old after, current h = Some old -> Some x ∈ h -> uid old = uid x ->
     (forall o', after = Some o' -> om_Deleting (meta o') = true) -> R h after) ->
  given P (k_delete (kind_of x) (name_of x) pre).
Proof.
  intros Hx Ep Hown k r k' Hw Hp E. specialize (Hx _ Hp). destruct (delete_frame _ _ _ _ _ _ Hw E) as [Hw' Hf]. split; [done|].
  destruct (decide ((kd, n) = (kind_of x, name_of x))) as [Eq|Ne]; [|eapply grows_by_impl; [exact HR|by apply Hf]].
  destruct (stored_object _ _ _ _ Hw Hx) as (_ & _ & Nu & _). injection Eq as Ek' En'. unfold witnessed in Hx. rewrite <- Ek', <- En' in *.
  destruct (delete_write _ _ _ _ _ _ Hw E) as [[G _]|(h & old & after & G1 & Hc & [Hu _] & Hd & G2)]; [by eapply grows_by_impl|].
  eapply grows_by_trans; [by eapply grows_by_impl|]. eapply grows_by_trans; [|by eapply grows_by_impl]. constructor; [constructor|].
  eapply Hown; [done|done| | |done].
  - apply grows_by_suffix in G1 as [e ->]. apply elem_of_app. by right.
  - apply Hu. rewrite Ep. unfold nonempty. by rewrite (proj2 (String.eqb_neq _ _) Nu).
Qed.
End reads.

(** Follow the structure of an operation; writes of another kind of object are dismissed. *)
Ltac walk_step HR :=
  match goal with
  | |- within _ _ _ (mbind _ (lift _)) => first [apply within_bind_lift; intros ? ? | apply within_bind; [apply within_lift|intros ?]]
  | |- within _ _ _ (mbind _ _) => apply within_bind; [|intros ?]
  | |- within _ _ _ (mret _) => apply within_ret
  | |- within _ _ _ (lift _) => apply within_lift
  | |- within _ _ _ (throw _) => apply within_throw
  | |- within _ _ _ (guard _ _) => apply within_guard
  | |- within _ _ _ (map_err _ _) => apply within_map_err
  | |- within _ _ _ (attempt _) => apply within_attempt
  | |- within _ _ _ (find_opt _ _) => apply within_find_opt
  | |- within _ _ _ (delete_missing_ok _ _) => apply within_delete_missing
  | |- within _ _ _ (typed _ _) => apply within_typed
  | |- within _ _ _ (list_as _ _ _) => apply (within_list_as _ _ _ HR)
  | |- within _ _ _ (k_get _ _) => apply (within_get _ _ _ HR)
  | |- within _ _ _ (k_list _ _) => apply (within_list _ _ _ HR)
  | |- within _ _ _ k_list_pods_everywhere => apply (within_everywhere _ _ _ HR)
  | |- within _ _ _ (k_create _) => apply (within_create _ _ _ HR); solve [intros [=]]
  | |- within _ _ _ (k_update _) => apply (within_update _ _ _ HR); solve [intros [=]]
  | |- within _ _ _ (k_delete _ _ _) => apply (within_delete _ _ _ HR); solve [intros [=]]
  | |- within _ _ _ (k_evict _) => apply (within_evict _ _ _ HR); solve [intros [=]]
  | |- within _ _ _ (each _ _) => apply within_each_all; intros ?
  | |- within _ _ _ (match ?x with _ => _ end) => destruct x eqn:?
  | |- within _ _ _ (join_all _) => apply within_join; repeat first [apply Forall_nil_2 | apply Forall_cons_2]
  | |- within _ _ _ _ => solve [eauto with within]
  end.
Ltac walk HR := repeat (walk_step HR).

(** ** Operations that write no Deployment *)

Section other_kinds.
Context `{KubeTypes} `{!KubePorts} `{KubeRest} {K : Type} `{!Cluster K} (namespace : string) (tls : TLSConfig).
Context (n : string) (R : hist -> option object -> Prop) (HR : forall h o, others KDeployment n h o -> R h o).

Notation W := (within KDeployment n R).

Lemma within_services_get x : W (services_get x).
Proof. unfold services_get. walk HR. Qed.
Lemma within_services_update x : W (services_update x).
Proof. unfold services_update. walk HR. Qed.

Lemma within_deployments_get x : W (deployments_Get x).
Proof. unfold deployments_Get. walk HR. Qed.

Lemma within_delete_owned kd kindName app opts : kd <> KDeployment -> W (delete_owned kd kindName app opts).
Proof. intros Hne. unfold delete_owned. walk HR. apply (within_delete _ _ _ HR). intros [= E _]. congruence. Qed.

Lemma within_apply_owned kd kindName app check desired : (forall rv, kind_of (desired rv) <> KDeployment) ->
  W (apply_owned kd kindName app check desired).
Proof.
  intros Hne. unfold apply_owned. walk HR.
  - apply (within_update _ _ _ HR). intros [= E _]. by destruct (Hne (version o)).
  - apply (within_create _ _ _ HR). intros [= E _]. by destruct (Hne "").
Qed.
Hint Resolve within_services_get within_services_update within_deployments_get within_delete_owned within_apply_owned : within.

Lemma within_deleteTraffic app : W (deleteTrafficResilienceResources app).
Proof. unfold deleteTrafficResilienceResources, deleteDynamicAppResource. walk HR; by apply within_delete_owned. Qed.
Lemma within_deleteIngress app : W (deleteIngress app).
Proof. by apply within_delete_owned. Qed.
Lemma within_deleteBudget app : W (deletePodDisruptionBudget app).
Proof. by apply within_delete_owned. Qed.
Lemma within_deleteAppSecret app : W (deleteAppSecret app).
Proof. by apply within_delete_owned. Qed.
Lemma within_deletePolicy app : W (deleteHostingNetworkPolicy app).
Proof. unfold deleteHostingNetworkPolicy, policies_Get, pods_List. walk HR. Qed.

Lemma within_delete_revision label annotation type app name bad failed s : W (delete_revision label annotation type app name bad failed s).
Proof. unfold delete_revision. walk HR. Qed.
Lemma within_deleteRegistry app : W (deleteRegistrySecrets app).
Proof.
  unfold deleteRegistrySecrets, secrets_List. walk HR. apply Forall_fmap, Forall_true. intros s. apply within_delete_revision.
Qed.
Lemma within_deleteEnvironment app : W (deleteEnvironmentSecrets app).
Proof.
  unfold deleteEnvironmentSecrets, secrets_List. walk HR. apply Forall_fmap, Forall_true. intros s. apply within_delete_revision.
Qed.
Hint Resolve within_deleteTraffic within_deleteIngress within_deleteBudget within_deleteAppSecret within_deletePolicy within_deleteRegistry
  within_deleteEnvironment : within.

Lemma within_namespace : W (reconcileNamespace namespace).
Proof. unfold reconcileNamespace. walk HR. Qed.
Lemma within_registry cfg c : W (reconcileRegistrySecret namespace cfg c).
Proof. unfold reconcileRegistrySecret, secrets_Get. walk HR. Qed.
Lemma within_environment cfg v : W (reconcileEnvironmentSecret namespace cfg v).
Proof. unfold reconcileEnvironmentSecret, secrets_Get. walk HR. Qed.
Lemma within_traffic cfg : W (reconcileTrafficResilienceResources namespace cfg).
Proof. unfold reconcileTrafficResilienceResources, reconcileDynamicAppResource, deleteDynamicAppResource. walk HR; try (by apply within_delete_owned); by apply within_apply_owned. Qed.
Lemma within_issuer : W (ensureIssuer tls).
Proof. unfold ensureIssuer. walk HR. Qed.
Lemma within_storage cfg m : W (preflightRetainedStorageMount namespace cfg m).
Proof. unfold preflightRetainedStorageMount, deployments_List, pods_List. walk HR. Qed.
Lemma within_preflight cfg : W (PreflightHosting namespace tls cfg).
Proof.
  unfold PreflightHosting, preflightRetainedStorage, preflightHostingCapacity, nodes_List. walk HR. apply within_storage.
Qed.
Lemma within_worker cfg : W (ensureSchedulableWorker cfg).
Proof. unfold ensureSchedulableWorker, nodes_List. walk HR. Qed.
Hint Resolve within_namespace within_registry within_environment within_traffic within_issuer within_preflight within_worker : within.

Lemma within_atGate gate : W (serviceAtGate namespace gate).
Proof. unfold serviceAtGate. walk HR. Qed.
Lemma within_updateGate s : W (updateActivationGate s).
Proof. unfold updateActivationGate. walk HR. Qed.
Hint Resolve within_atGate within_updateGate : within.
Lemma within_capture app : W (CaptureActivationGate app).
Proof. unfold CaptureActivationGate. walk HR. Qed.
Lemma within_fence gate op : W (FenceActivationGate namespace gate op).
Proof. unfold FenceActivationGate. walk HR. Qed.
Lemma within_replace gate t : W (ReplaceActivationTarget namespace gate t).
Proof. unfold ReplaceActivationTarget. walk HR. Qed.
Lemma within_initial gate : W (InitialCandidateRequest namespace gate).
Proof. unfold InitialCandidateRequest. walk HR. Qed.
Hint Resolve within_capture within_fence within_replace within_initial : within.

(** *** Candidate operations that only read Deployments *)

Lemma within_ensurePolicy p : W (ensureCandidateNetworkPolicy p).
Proof. unfold ensureCandidateNetworkPolicy, policies_Get. walk HR. Qed.
Lemma within_retired cfg rev req pull : W (CandidateRetired namespace cfg rev req pull).
Proof. unfold CandidateRetired, pods_List. walk HR. Qed.
Lemma within_activate gate cfg rev req pull : W (ActivatePreparedCandidate namespace gate cfg rev req pull).
Proof. unfold ActivatePreparedCandidate, policies_Get. walk HR. Qed.
Lemma within_createInactive cfg req : W (CreateInactiveCandidateService namespace cfg req).
Proof. unfold CreateInactiveCandidateService. walk HR. Qed.
Lemma within_reset gate cfg old new : W (ResetInactiveCandidateService namespace gate cfg old new).
Proof. unfold ResetInactiveCandidateService. walk HR. Qed.
Lemma within_dependencies cfg v rev req c : W (PrepareCandidateDependencies namespace tls cfg v rev req c).
Proof. unfold PrepareCandidateDependencies. walk HR. Qed.
Lemma within_restored gate t cfg : W (RestoredCandidateTargetReady namespace gate t cfg).
Proof. unfold RestoredCandidateTargetReady. walk HR. Qed.
Lemma within_route gate t cfg : W (ReconcileCandidateRoute namespace tls gate t cfg).
Proof. unfold ReconcileCandidateRoute, ingresses_Get. walk HR. Qed.
Lemma within_status app : W (readCandidateStatus app).
Proof. unfold readCandidateStatus, deployments_List. walk HR. Qed.
Lemma within_checkDeletion app : W (CheckCandidateDeletion app).
Proof. unfold CheckCandidateDeletion. walk HR. Qed.
Lemma within_begin cfg id b : W (BeginCandidateDeletion namespace cfg id b).
Proof. unfold BeginCandidateDeletion, deletionService. walk HR. Qed.
Lemma within_deletionGate gate id : W (deletionServiceAtGate namespace gate id).
Proof. unfold deletionServiceAtGate. walk HR. Qed.
Hint Resolve within_ensurePolicy within_deletionGate : within.
Lemma within_finish gate id : W (FinishCandidateDeletion namespace gate id).
Proof. unfold FinishCandidateDeletion, pods_List. walk HR. Qed.
End other_kinds.
#[export] Hint Resolve within_services_get within_services_update within_deployments_get within_deleteTraffic within_deleteIngress within_deleteBudget within_deleteAppSecret within_deletePolicy within_delete_revision within_deleteRegistry within_deleteEnvironment within_namespace within_registry within_environment within_traffic within_issuer within_storage within_preflight within_worker within_atGate within_updateGate within_capture within_fence within_replace within_initial within_ensurePolicy within_retired within_activate within_createInactive within_reset within_dependencies within_restored within_route within_status within_checkDeletion within_begin within_deletionGate within_finish : within.

(** ** The database and the nodes: no object of another kind is written *)

Section elsewhere.
Context `{KubeTypes} `{!KubePorts} `{KubeRest} `{!Unstructured} `{!ErrorDetails} {K : Type} `{!Cluster K} (namespace : string).
Context (kd : kind) (n : string) (R : hist -> option object -> Prop) (HR : forall h o, others kd n h o -> R h o).

Lemma within_absent x rk c v nm : within kd n R (absent x rk c v nm).
Proof. unfold absent. walk HR. Qed.

Lemma within_generated c i : within kd n R (ensurePostgresGeneratedResourcesAvailable c i).
Proof.
  unfold ensurePostgresGeneratedResourcesAvailable, quorum_absent, ensurePostgresInstanceResourcesAvailable, instance_absent.
  repeat first [apply within_absent | walk_step HR].
Qed.

Lemma within_postgresCapacity cfg p : within kd n R (ensurePostgresCapacity cfg p).
Proof. unfold ensurePostgresCapacity, nodes_List. walk HR. Qed.

Lemma within_postgres cfg : kd <> KDatabase -> within kd n R (reconcilePostgres namespace cfg).
Proof.
  intros Hk. unfold reconcilePostgres, createPostgres, updatePostgres, databases_Get.
  repeat first [apply within_generated | apply within_postgresCapacity
    | match goal with |- within _ _ _ (k_create _) => apply (within_create _ _ _ HR) | |- within _ _ _ (k_update _) => apply (within_update _ _ _ HR) end;
        intros [= E _]; congruence
    | walk_step HR].
Qed.

Lemma within_readDatabase app : within kd n R (readDatabaseStatus app).
Proof. unfold readDatabaseStatus, databases_Get, quorums_Get, pods_List. walk HR. Qed.

Lemma within_setUnschedulable x b : kd <> KNode -> within kd n R (setNodeUnschedulable x b).
Proof.
  intros Hk. unfold setNodeUnschedulable, nodes_Get, nodes_Update.
  repeat first [match goal with |- within _ _ _ (k_update _) => apply (within_update _ _ _ HR); intros [= E _]; congruence end | walk_step HR].
Qed.

Lemma within_drain x : kd <> KNode -> kd <> KPod -> within kd n R (KubeNodes.DrainNode x).
Proof.
  intros Hk Hp. unfold KubeNodes.DrainNode, CordonNode, pods_on, pods_List, evict.
  repeat first [by apply within_setUnschedulable | match goal with |- within _ _ _ (k_evict _) => apply (within_evict _ _ _ HR); intros [= E _]; congruence end
    | walk_step HR].
Qed.

Lemma within_validateRemoval i x : within kd n R (validateRetainedStorageNodeRemoval i x).
Proof. unfold validateRetainedStorageNodeRemoval, volumes_List, deployments_List. walk HR. Qed.

Lemma within_removeNode x : kd <> KNode -> within kd n R (KubeNodes.RemoveNode x).
Proof.
  intros Hk. unfold KubeNodes.RemoveNode, nodes_Get.
  repeat first [apply within_validateRemoval | match goal with |- within _ _ _ (k_delete _ _ _) => apply (within_delete _ _ _ HR); intros [= E _]; congruence end
    | walk_step HR].
Qed.

Lemma within_syncLabels x : kd <> KNode -> within kd n R (SyncNodeLabels x).
Proof.
  intros Hk. unfold SyncNodeLabels, nodes_Get, nodes_Update.
  repeat first [match goal with |- within _ _ _ (k_update _) => apply (within_update _ _ _ HR); intros [= E _]; congruence end | walk_step HR].
Qed.
End elsewhere.
