(* ===== verification/Tombstones.v ===== *)
(** * Retired candidates stay retired

    A retired candidate is a Deployment of zero replicas with the annotation of
    retirement.  Whatever operations of the controller run, one after the other and
    interleaved with other clients, a tombstone is neither deleted nor scaled up:
    preparation only creates, retirement only writes tombstones, and the legacy
    operations write only the Deployment named after the app. *)

From S2P Require Import Prelude GoStrings Regexp GoJson Appconfig Db Activation Security Candidate CandidateOps Workloads WorkloadProps Cluster Resources Capacity CandidateControl NodeRegistry DatabaseStatus Postgres KubeNodes Controller ControlLogic.
From Stdlib Require Import Ascii String.
Local Open Scope Z_scope.

Section tombstones.
Context `{KubeTypes} `{!KubePorts} `{KubeRest}.

Definition tombstone (o : object) : Prop :=
  exists d, o = ODeployment d /\ om_Annotations (d_Meta d) !! candidateRetiredAnnotation = Some "true" /\ d_Replicas d = Some 0.

(** A change that leaves a tombstone a tombstone, of the same identity. *)
Definition keeps_tombstone (h : hist) (x : option object) : Prop :=
  forall o, current h = Some o -> tombstone o -> exists o', x = Some o' /\ tombstone o' /\ uid o' = uid o.

Lemma grows_keeps R h h' o : (forall h x, R h x -> keeps_tombstone h x) -> grows_by R h h' -> current h = Some o -> tombstone o ->
  exists o', current h' = Some o' /\ tombstone o' /\ uid o' = uid o.
Proof.
  intros HR. induction 1 as [|h' x G IH Hx]; intros Hc Ht; [eauto|]. destruct (IH Hc Ht) as (o1 & Hc1 & Ht1 & Hu1).
  destruct (HR _ _ Hx _ Hc1 Ht1) as (o2 & -> & Ht2 & Hu2). exists o2. split; [done|]. split; [done|congruence].
Qed.

Context `{!Unstructured} `{!ErrorDetails} {K : Type} `{!Cluster K} (namespace : string) (tls : TLSConfig) (n : string).

(** Changes of the Deployment [n] by other clients, or by the controller keeping tombstones. *)
Definition allowed (h : hist) (x : option object) : Prop := others KDeployment n h x \/ keeps_tombstone h x.

Lemma others_allowed h x : others KDeployment n h x -> allowed h x.
Proof. by left. Qed.

Notation W := (within KDeployment n allowed).

(** ** What reads yield *)

Definition yields {A} (P : A -> Prop) (m : ST K A) : Prop := forall k a k', cluster_wf k -> m k = (Ok a, k') -> P a.

Lemma within_bind_yields {A B} (P : A -> Prop) (m : ST K A) (f : A -> ST K B) :
  W m -> yields P m -> (forall a, P a -> W (f a)) -> W (mbind f m).
Proof.
  intros Hm Hp Hf k r k' Hw [(e & He & _)|(a & k1 & Ha & Hb)]%st_bind_inv; [by eapply Hm|].
  destruct (Hm _ _ _ Hw Ha) as [Hw1 G1]. destruct (Hf a (Hp _ _ _ Hw Ha) _ _ _ Hw1 Hb) as [Hw2 G2]. split; [done|]. by eapply grows_by_trans.
Qed.

Lemma yields_find_opt {A} (P : A -> Prop) w (m : ST K A) : yields P m -> yields (fun o => forall a, o = Some a -> P a) (find_opt w m).
Proof.
  intros Hm k o k' Hw E. unfold find_opt in E. apply st_bind_ok in E as (r & k1 & E1 & E2). unfold attempt in E1.
  destruct (m k) as [[a|e] k2] eqn:Em; injection E1 as <- <-.
  - injection E2 as <- <-. intros ? [= <-]. by eapply Hm.
  - destruct (IsNotFound e); [|done]. injection E2 as <- <-. done.
Qed.

Lemma yields_deployment x : yields (fun d => om_Name (d_Meta d) = x) (deployments_Get x).
Proof.
  intros k d k' Hw E. unfold deployments_Get, typed in E. apply st_bind_ok in E as (o & k1 & E1 & E2).
  destruct (get_frame _ _ _ _ _ Hw E1) as [Hw1 _]. destruct (get_read _ _ _ _ _ Hw E1) as (h & _ & (older & ->)%current_head & [e Eh]%grows_by_suffix).
  destruct (stored_object k1 KDeployment x o Hw1) as (_ & En & _).
  { rewrite Eh. apply elem_of_app. right. by left. }
  destruct o; try done. simpl in E2. by injection E2 as <- <-.
Qed.

(** ** The operations that write Deployments *)

Lemma tombstone_admitted d o' : admits complete_ports (ODeployment (retire d)) o' -> tombstone o'.
Proof.
  intros (_ & _ & _ & Ea & _ & _ & d' & -> & Er & _). exists d'. split; [done|]. simpl in Ea. rewrite Ea. simpl. by rewrite lookup_insert_eq.
Qed.

Lemma within_create_deployment d : W (deployments_Create d).
Proof.
  unfold deployments_Create. apply within_typed, (within_create _ _ _ others_allowed). intros _ h o' Hc _. right. intros o Ho. congruence.
Qed.

Lemma within_update_retire d : W (deployments_Update (retire d)).
Proof.
  unfold deployments_Update. apply within_typed, (within_update _ _ _ others_allowed). intros _ h old o' Hc _ Ha Hu. right.
  intros o Ho Ht. exists o'. split; [done|]. split; [by eapply tombstone_admitted|]. congruence.
Qed.

Lemma within_update_other d : om_Name (d_Meta d) <> n -> W (deployments_Update d).
Proof. intros Hne. unfold deployments_Update. apply within_typed, (within_update _ _ _ others_allowed). intros [= E]. by destruct Hne. Qed.

Hint Resolve within_create_deployment within_update_retire : within.
Hint Resolve others_allowed : within.

Lemma within_prepare cfg rev req pull : W (PrepareCandidateDeployment namespace cfg rev req pull).
Proof. unfold PrepareCandidateDeployment. walk others_allowed. Qed.

Lemma within_retire cfg rev req pull : W (RetireCandidateDeployment namespace cfg rev req pull).
Proof. unfold RetireCandidateDeployment. walk others_allowed. Qed.

Lemma within_wait polls x g : W (waitForDeploymentRollout polls x g).
Proof. induction polls; cbn [waitForDeploymentRollout]; walk others_allowed. Qed.

Lemma within_noLegacyPods app : W (noLegacyPods app).
Proof. unfold noLegacyPods, pods_List. walk others_allowed. Qed.
Hint Resolve within_wait within_noLegacyPods : within.

Lemma within_migrate polls e d : om_Name (d_Meta e) <> n -> om_Name (d_Meta d) <> n -> W (migrateLegacyAffinity polls e d).
Proof. intros He Hd. unfold migrateLegacyAffinity. walk others_allowed; by apply within_update_other. Qed.

Lemma within_reconcileDeployment polls cfg rev pull : TrimSpace (Cfg_Name cfg) <> n -> W (reconcileDeployment namespace polls cfg rev pull).
Proof.
  intros Hne. unfold reconcileDeployment. apply within_bind_lift. intros d Ed. destruct (deploymentForApp_meta _ _ _ _ Ed) as (En & _).
  set (desired := if String.eqb pull "" then d else _). assert (En' : om_Name (d_Meta desired) = TrimSpace (Cfg_Name cfg)) by (unfold desired; by cases).
  clearbody desired. cbv zeta. eapply within_bind_yields; [apply within_find_opt, within_deployments_get, others_allowed|apply yields_find_opt, yields_deployment|].
  intros [e|] He; [|walk others_allowed]. specialize (He e eq_refl).
  walk others_allowed; [apply within_migrate|apply within_update_other]; simpl; congruence.
Qed.

Lemma within_deleteDeployment app : app <> n -> W (deleteDeployment app).
Proof.
  intros Hne. unfold deleteDeployment, delete_owned. walk others_allowed. apply (within_delete _ _ _ others_allowed). intros [= E]. by destruct Hne.
Qed.

Lemma within_retireLegacy gate : Gate_App gate <> n -> W (retireLegacyPredecessor gate).
Proof.
  intros Hne. unfold retireLegacyPredecessor.
  eapply within_bind_yields; [apply within_find_opt, within_deployments_get, others_allowed|apply yields_find_opt, yields_deployment|].
  intros [e|] He; [|walk others_allowed]. specialize (He e eq_refl). walk others_allowed. apply within_update_other. simpl. congruence.
Qed.

Lemma within_retireLegacyCandidate gate : Gate_App gate <> n -> W (RetireLegacyCandidatePredecessor namespace gate).
Proof. intros Hne. unfold RetireLegacyCandidatePredecessor. walk others_allowed. by apply within_retireLegacy. Qed.

Lemma within_cleanup gate id : Gate_App gate <> n -> W (CleanupCandidateDeletion namespace gate id).
Proof. intros Hne. unfold CleanupCandidateDeletion, pods_List, deployments_List. walk others_allowed. by apply within_retireLegacy. Qed.

(** The whole of reconciliation and deletion. *)
Lemma within_deleteService app : W (deleteService app).
Proof. unfold deleteService. walk others_allowed. Qed.

Lemma within_reject app : W (rejectLegacyCandidateMutation app).
Proof. unfold rejectLegacyCandidateMutation, Get, services_Get, cluster_services. walk others_allowed. Qed.

Lemma within_appResources polls cfg v rev c : TrimSpace (Cfg_Name cfg) <> n -> W (reconcileAppResources namespace polls cfg v rev c).
Proof.
  intros Hne. unfold reconcileAppResources, reconcileHostingNetworkPolicy, reconcileSecret, reconcilePodDisruptionBudget, reconcileService.
  repeat first [by apply within_reconcileDeployment | by apply (within_postgres _ _ _ _ others_allowed) | by apply (within_apply_owned _ _ others_allowed)
    | walk_step others_allowed].
Qed.

Lemma within_reconcile polls cfg v rev c : TrimSpace (Cfg_Name cfg) <> n -> W (ReconcileWithRegistry namespace tls polls cfg v rev c).
Proof.
  intros Hne. unfold ReconcileWithRegistry.
  repeat first [by apply within_appResources | apply within_reject | by apply (within_apply_owned _ _ others_allowed) | walk_step others_allowed].
Qed.

Lemma within_deleteApp app : TrimSpace app <> n -> W (Delete app).
Proof.
  intros Hne. unfold Delete. repeat first [by apply within_deleteDeployment | apply within_deleteService | apply within_reject | walk_step others_allowed].
Qed.

Lemma within_runtimeStatus app : W (RuntimeStatus app).
Proof. unfold RuntimeStatus, StatusDetails, selectedStatus, runningNodesForSelector, pods_List. walk others_allowed. Qed.
End tombstones.

(** ** Every operation of the controller on candidates and legacy Deployments *)

Section calls.
Context `{KubeTypes} `{!KubePorts} `{KubeRest}.

Inductive control_call :=
| CPrepare (cfg : Config) (revision requestID pull : string)
| CRetire (cfg : Config) (revision requestID pull : string)
| CRetired (cfg : Config) (revision requestID pull : string)
| CActivate (gate : ActivationGate) (cfg : Config) (revision requestID pull : string)
| CRestored (gate : ActivationGate) (target : ActivationTarget) (previous : Config)
| CRoute (gate : ActivationGate) (target : ActivationTarget) (cfg : Config)
| CCreateInactive (cfg : Config) (requestID : string)
| CReset (gate : ActivationGate) (cfg : Config) (oldRequestID newRequestID : string)
| CDependencies (cfg : Config) (values : gmap string string) (revision requestID : string) (credential : option Credential)
| CCapture (app : string)
| CFence (gate : ActivationGate) (operationID : string)
| CReplace (gate : ActivationGate) (target : ActivationTarget)
| CInitial (gate : ActivationGate)
| CStatus (app : string)
| CCheckDeletion (app : string)
| CBeginDeletion (cfg : Config) (appID : string) (allowMissing : bool)
| CRetireLegacy (gate : ActivationGate)
| CCleanup (gate : ActivationGate) (appID : string)
| CFinish (gate : ActivationGate) (appID : string)
| CReconcile (polls : nat) (cfg : Config) (values : gmap string string) (revision : string) (credential : option Credential)
| CDelete (app : string)
| CRuntimeStatus (app : string)
| CDatabaseStatus (app : string)
| CSyncLabels (node : Node)
| CDrain (node : string)
| CUncordon (node : string)
| CRemoveNode (node : string).

Context `{!Unstructured} `{!ErrorDetails} {K : Type} `{!Cluster K} (namespace : string) (tls : TLSConfig).

(** The outcome plays no role here. *)
Definition discard {A} (m : ST K A) : ST K unit := _ ← attempt m; mret tt.

Definition run_call (c : control_call) : ST K unit :=
  match c with
  | CPrepare cfg rev req pull => discard (PrepareCandidateDeployment namespace cfg rev req pull)
  | CRetire cfg rev req pull => discard (RetireCandidateDeployment namespace cfg rev req pull)
  | CRetired cfg rev req pull => discard (CandidateRetired namespace cfg rev req pull)
  | CActivate gate cfg rev req pull => discard (ActivatePreparedCandidate namespace gate cfg rev req pull)
  | CRestored gate t cfg => discard (RestoredCandidateTargetReady namespace gate t cfg)
  | CRoute gate t cfg => discard (ReconcileCandidateRoute namespace tls gate t cfg)
  | CCreateInactive cfg req => discard (CreateInactiveCandidateService namespace cfg req)
  | CReset gate cfg old new => discard (ResetInactiveCandidateService namespace gate cfg old new)
  | CDependencies cfg v rev req c => discard (PrepareCandidateDependencies namespace tls cfg v rev req c)
  | CCapture app => discard (CaptureActivationGate app)
  | CFence gate op => discard (FenceActivationGate namespace gate op)
  | CReplace gate t => discard (ReplaceActivationTarget namespace gate t)
  | CInitial gate => discard (InitialCandidateRequest namespace gate)
  | CStatus app => discard (readCandidateStatus app)
  | CCheckDeletion app => discard (CheckCandidateDeletion app)
  | CBeginDeletion cfg id b => discard (BeginCandidateDeletion namespace cfg id b)
  | CRetireLegacy gate => discard (RetireLegacyCandidatePredecessor namespace gate)
  | CCleanup gate id => discard (CleanupCandidateDeletion namespace gate id)
  | CFinish gate id => discard (FinishCandidateDeletion namespace gate id)
  | CReconcile polls cfg v rev c => discard (ReconcileWithRegistry namespace tls polls cfg v rev c)
  | CDelete app => discard (Delete app)
  | CRuntimeStatus app => discard (RuntimeStatus app)
  | CDatabaseStatus app => discard (readDatabaseStatus app)
  | CSyncLabels node => discard (SyncNodeLabels node)
  | CDrain node => discard (KubeNodes.DrainNode node)
  | CUncordon node => discard (KubeNodes.UncordonNode node)
  | CRemoveNode node => discard (KubeNodes.RemoveNode node)
  end.

(** The app whose legacy Deployment a call may write. *)
Definition legacy_app (c : control_call) : option string :=
  match c with
  | CRetireLegacy gate | CCleanup gate _ => Some (Gate_App gate)
  | CReconcile _ cfg _ _ _ => Some (TrimSpace (Cfg_Name cfg))
  | CDelete app => Some (TrimSpace app)
  | _ => None
  end.

Lemma within_call n c : legacy_app c <> Some n -> within KDeployment n (allowed n) (run_call c).
Proof.
  intros Hl. assert (HA := others_allowed n).
  destruct c; cbn [run_call]; unfold discard; (apply within_bind; [apply within_attempt|intros; apply within_ret]);
  [apply within_prepare|apply within_retire|apply (within_retired _ _ _ HA)|apply (within_activate _ _ _ HA)|apply (within_restored _ _ _ HA)
  |apply (within_route _ _ _ _ HA)|apply (within_createInactive _ _ _ HA)|apply (within_reset _ _ _ HA)|apply (within_dependencies _ _ _ _ HA)
  |apply (within_capture _ _ HA)|apply (within_fence _ _ _ HA)|apply (within_replace _ _ _ HA)|apply (within_initial _ _ _ HA)
  |apply (within_status _ _ HA)|apply (within_checkDeletion _ _ HA)|apply (within_begin _ _ _ HA)
  |apply within_retireLegacyCandidate|apply within_cleanup|apply (within_finish _ _ _ HA)|apply within_reconcile|apply within_deleteApp
  |apply within_runtimeStatus|apply (within_readDatabase _ _ _ HA)|by apply (within_syncLabels _ _ _ HA)|by apply (within_drain _ _ _ HA)
  |by apply (within_setUnschedulable _ _ _ HA)|by apply (within_removeNode _ _ _ HA)];
  intros E; apply Hl; by rewrite <- E.
Qed.

(** Calls one after the other, in one cluster that others change as well. *)
Fixpoint run_calls (cs : list control_call) (k : K) : K :=
  match cs with
  | [] => k
  | c :: rest => run_calls rest (run_call c k).2
  end.

Lemma within_calls n cs : forall k, cluster_wf k -> (forall c, c ∈ cs -> legacy_app c <> Some n) ->
  grows_by (allowed n) (history k KDeployment n) (history (run_calls cs k) KDeployment n).
Proof.
  induction cs as [|c cs IH]; intros k Hw Hl; cbn [run_calls]; [constructor|].
  destruct (run_call c k) as [r k1] eqn:E. destruct (within_call n c (Hl c ltac:(by left)) _ _ _ Hw E) as [Hw1 G].
  eapply grows_by_trans; [exact G|]. apply IH; [done|]. intros c' Hc'. apply Hl. by right.
Qed.

(** A tombstone survives every sequence of calls. *)
Lemma tombstone_survives n cs k o :
  cluster_wf k -> (forall h x, others KDeployment n h x -> keeps_tombstone h x) ->
  (forall c, c ∈ cs -> legacy_app c <> Some n) ->
  current (history k KDeployment n) = Some o -> tombstone o ->
  exists o', current (history (run_calls cs k) KDeployment n) = Some o' /\ tombstone o' /\ uid o' = uid o.
Proof.
  intros Hw Ho Hl Hc Ht. eapply (grows_keeps (allowed n)); [|by apply within_calls|done|done].
  intros h x [Hx|Hx]; [by apply Ho|done].
Qed.

(** ** Retirement leaves a tombstone *)

Lemma matches_retired d desired : candidateDeploymentMatches d (retire desired) = true -> tombstone (ODeployment d).
Proof.
  intros (_ & _ & _ & _ & Er & Ea & _)%matches_fields. exists d. split; [done|]. simpl in Er, Ea. split.
  - assert (E : delete revisionAnnotation (om_Annotations (d_Meta d)) !! candidateRetiredAnnotation = Some "true")
      by (rewrite Ea, lookup_delete_ne, lookup_insert_eq by done; done). by rewrite lookup_delete_ne in E by done.
  - destruct (d_Replicas d); simpl in Er; [congruence|discriminate].
Qed.

Section final.
Context (n : string) (Ho : forall h x, others KDeployment n h x -> keeps_tombstone h x).

(** A version that was a tombstone while only others acted afterwards. *)
Lemma tombstone_then h h' o : grows_by (others KDeployment n) h h' -> current h = Some o -> tombstone o ->
  exists o', current h' = Some o' /\ tombstone o' /\ uid o' = uid o.
Proof. intros G Hc Ht. by eapply (grows_keeps _ _ _ _ Ho G). Qed.

Lemma retire_leaves_tombstone cfg rev req pull k k' : cluster_wf k -> n = candidateDeploymentName (Cfg_Name cfg) req ->
  RetireCandidateDeployment namespace cfg rev req pull k = (Ok tt, k') ->
  cluster_wf k' /\ exists o, current (history k' KDeployment n) = Some o /\ tombstone o.
Proof.
  intros Hw En E. assert (Hw' : cluster_wf k') by (by eapply (within_retire namespace n cfg rev req pull)). split; [done|].
  unfold RetireCandidateDeployment in E. apply st_bind_ok in E as (desired & k0 & [= Ed <-] & E).
  destruct (candidate_admitted _ _ _ _ _ _ Ed) as (_ & _ & _ & _ & _ & C). pose proof (co_name _ _ _ _ _ _ C) as Ename.
  fold (candidateDeploymentName (Cfg_Name cfg) req) in Ename. rewrite <- En in Ename.
  apply st_bind_ok in E as (found & k1 & Ef & E). rewrite Ename in Ef.
  pose proof (within_find_opt KDeployment n (allowed n) _ _ (within_deployments_get n _ (others_allowed n) n) _ _ _ Hw Ef) as [Hw1 _].
  assert (Hget : forall d, found = Some d -> deployments_Get n k = (Ok d, k1)).
  { intros d ->. unfold find_opt in Ef. apply st_bind_ok in Ef as (r & k2 & Ea & Eb). unfold attempt in Ea.
    destruct (deployments_Get n k) as [[x|e] k3] eqn:Eg; injection Ea as <- <-; [by injection Eb as <- <-|]. destruct (IsNotFound e); done. }
  destruct found as [d|].
  - specialize (Hget d eq_refl). apply st_bind_ok in E as ([] & k2 & [= Hst <-] & E). apply st_bind_ok in E as (? & k2 & [= _ <-] & E).
    apply st_bind_ok in E as ([] & k2 & [= Hma <-] & E). destruct (candidateDeploymentMatches d (retire desired)) eqn:Em.
    + injection E as <-. unfold deployments_Get, typed in Hget. apply st_bind_ok in Hget as (o & k2 & Eg & Eo). destruct o; try done. injection Eo as -> ->.
      destruct (get_read _ _ _ _ _ Hw Eg) as (h & _ & Hc & G). destruct (tombstone_then _ _ _ G Hc) as (o' & ? & ? & _); [by eapply matches_retired|]. eauto.
    + apply st_bind_ok in E as (u & k2 & Eu & [= <-]). unfold map_err in Eu. destruct (deployments_Update (retire d) k1) as [[y|e] k3] eqn:Eu'; [|done].
      injection Eu as <- <-. unfold deployments_Update, typed in Eu'. apply st_bind_ok in Eu' as (o & k4 & Ek & Eo).
      assert (k4 = k3) as -> by (destruct (as_deployment o); by injection Eo).
      assert (Hn : name_of (ODeployment (retire d)) = n) by exact (yields_deployment n _ _ _ Hw Hget).
      pose proof (update_write _ _ _ _ Hw1 Ek) as Huw. cbv zeta in Huw. rewrite Hn in Huw.
      destruct Huw as [[_ ?]|(h & old & _ & Hc & _ & [(Ha & _ & G & _)|(o' & Ha & _ & _ & G & _)])]; [done| |].
      * destruct (tombstone_then _ _ _ G Hc) as (o2 & ? & ? & _); [by eapply tombstone_admitted|]. eauto.
      * destruct (tombstone_then _ _ o' G) as (o2 & ? & ? & _); [done|by eapply tombstone_admitted|]. eauto.
  - apply st_bind_ok in E as (u & k2 & Ec & [= <-]). unfold map_err in Ec. destruct (deployments_Create (retire desired) k1) as [[y|e] k3] eqn:Ec'; [|done].
    injection Ec as <- <-. unfold deployments_Create, typed in Ec'. apply st_bind_ok in Ec' as (o & k4 & Ek & Eo).
    assert (k4 = k3) as -> by (destruct (as_deployment o); by injection Eo).
    pose proof (create_write _ _ _ _ Hw1 Ek) as Hcw. cbv zeta in Hcw. change (name_of (ODeployment (retire desired))) with (om_Name (d_Meta desired)) in Hcw.
    rewrite Ename in Hcw. destruct Hcw as [[_ ?]|(h & o' & _ & _ & Ha & _ & G & _)]; [done|].
    destruct (tombstone_then _ _ o' G) as (o2 & ? & ? & _); [done|by eapply tombstone_admitted|]. eauto.
Qed.
End final.

(** C11: Retirement is final.  When RetireCandidateDeployment succeeds, the Deployment of
    the generation is a tombstone of zero replicas.  It is still a tombstone after every
    later sequence of the controller's operations in which no reconciliation, deletion,
    cleanup or retirement of a legacy predecessor is of another app that itself has the
    name of this Deployment, interleaved with other clients of the cluster that leave a
    tombstone a tombstone: neither a late or repeated preparation of the same generation
    nor any other such operation deletes it or scales it up again. *)
Theorem retirement_is_final cfg rev req pull k k1 cs :
  let n := candidateDeploymentName (Cfg_Name cfg) req in
  cluster_wf k -> (forall h x, others KDeployment n h x -> keeps_tombstone h x) ->
  RetireCandidateDeployment namespace cfg rev req pull k = (Ok tt, k1) ->
  (forall c, c ∈ cs -> legacy_app c <> Some n) ->
  exists o, current (history (run_calls cs k1) KDeployment n) = Some o /\ tombstone o.
Proof.
  intros n Hw Ho E Hl. destruct (retire_leaves_tombstone n Ho _ _ _ _ _ _ Hw eq_refl E) as (Hw1 & o & Hc & Ht).
  destruct (tombstone_survives n cs k1 o Hw1 Ho Hl Hc Ht) as (o' & ? & ? & _). eauto.
Qed.
End calls.
