(* ===== verification/CandidateEvidence.v ===== *)
(** * What the controller has seen before it acts

    Activation and preparation of a candidate: the versions of its Deployment and
    its NetworkPolicy that were current during the operation, and what is known of
    them. *)

From S2P Require Import Prelude GoStrings Regexp GoJson Appconfig AppconfigSpec Db Activation ActivationProps Security Candidate CandidateOps Workloads WorkloadProps Cluster Resources Capacity CandidateControl ControlLogic.
From Stdlib Require Import Ascii String.
Local Open Scope Z_scope.

Section evidence.
Context `{KubeTypes} `{!KubePorts} `{KubeRest} {K : Type} `{!Cluster K} (namespace : string).

(** The object was the current version at some moment between two states. *)
Definition seen (k k' : K) (o : object) : Prop :=
  exists h, history k (kind_of o) (name_of o) `suffix_of` h /\ current h = Some o /\ h `suffix_of` history k' (kind_of o) (name_of o).

(** Time passes: histories only grow. *)
Definition after (k k' : K) : Prop := cluster_wf k' /\ forall kd n, history k kd n `suffix_of` history k' kd n.

Lemma after_trans k1 k2 k3 : after k1 k2 -> after k2 k3 -> after k1 k3.
Proof. intros [_ G1] [Hw G2]. split; [done|]. intros kd n. by trans (history k2 kd n). Qed.

Lemma after_within {A} (m : ST K A) k r k' : (forall kd n, within kd n (fun _ _ => True) m) -> cluster_wf k -> m k = (r, k') -> after k k'.
Proof. intros Hm Hw E. split; [by eapply (Hm KService "")|]. intros kd n. eapply grows_by_suffix. by eapply (Hm kd n). Qed.

Lemma seen_mono k1 k2 k3 k4 o : after k1 k2 -> after k3 k4 -> seen k2 k3 o -> seen k1 k4 o.
Proof. intros [_ G1] [_ G2] (h & S1 & Hc & S2). exists h. split; [by trans (history k2 (kind_of o) (name_of o))|]. split; [done|]. by trans (history k3 (kind_of o) (name_of o)). Qed.

Lemma seen_get kd n k o k' : cluster_wf k -> k_get kd n k = (Ok o, k') -> after k k' /\ kind_of o = kd /\ name_of o = n /\ seen k k' o.
Proof.
  intros Hw E. destruct (get_frame _ _ _ _ _ Hw E) as [Hw' Hf]. destruct (get_read _ _ _ _ _ Hw E) as (h & G1%grows_by_suffix & Hc & G2%grows_by_suffix).
  destruct (stored_object k' kd n o Hw') as (Ek & En & _).
  { destruct (current_head _ _ Hc) as [older ->]. destruct G2 as [e ->]. apply elem_of_app. right. by left. }
  split; [split; [done|]; intros; by eapply grows_by_suffix, Hf|]. split; [done|]. split; [done|]. exists h. by rewrite Ek, En.
Qed.

Definition any : hist -> option object -> Prop := fun _ _ => True.
Lemma within_any_get kd n kd' n' : within kd n any (k_get kd' n').
Proof. by apply within_get. Qed.
Lemma within_any_update kd n o : within kd n any (k_update o).
Proof. by apply within_update. Qed.
Lemma within_any_create kd n o : within kd n any (k_create o).
Proof. by apply within_create. Qed.

Lemma any_others kd n h o : others kd n h o -> any h o.
Proof. done. Qed.
Ltac walk_any := repeat first
  [apply within_any_create | apply within_any_update | match goal with |- within ?kd ?n _ _ => walk_step (any_others kd n) end].

Lemma within_any_atGate kd n gate : within kd n any (serviceAtGate namespace gate).
Proof.
  unfold serviceAtGate, Get, services_Get, cluster_services, services_get.
  repeat first [apply within_bind; [|intros ?] | apply within_guard | apply within_lift | apply within_ret | apply within_map_err | apply within_any_get].
Qed.

Lemma within_any_replace kd n gate t : within kd n any (ReplaceActivationTarget namespace gate t).
Proof.
  unfold ReplaceActivationTarget, updateActivationGate, Update, services_Update, cluster_services, services_update.
  repeat first [apply within_any_atGate | apply within_any_update | apply within_bind; [|intros ?] | apply within_guard | apply within_lift | apply within_ret | apply within_map_err | apply within_any_update].
Qed.

Lemma typed_ok {A} (as_ : object -> option A) (m : ST K object) k a k' : typed as_ m k = (Ok a, k') ->
  exists o, m k = (Ok o, k') /\ as_ o = Some a.
Proof.
  unfold typed. intros (o & k1 & E1 & E2)%st_bind_ok. destruct (as_ o) eqn:Ea; [|done]. injection E2 as -> ->. eauto.
Qed.

Lemma seen_deployment n k d k' : cluster_wf k -> deployments_Get n k = (Ok d, k') ->
  after k k' /\ om_Name (d_Meta d) = n /\ seen k k' (ODeployment d).
Proof.
  intros Hw (o & E & Ea)%typed_ok. destruct (seen_get _ _ _ _ _ Hw E) as (A & _ & En & Hs). destruct o; try done. by injection Ea as ->.
Qed.

Lemma seen_policy n k p k' : cluster_wf k -> policies_Get n k = (Ok p, k') ->
  after k k' /\ om_Name (np_Meta p) = n /\ seen k k' (OPolicy p).
Proof.
  intros Hw (o & E & Ea)%typed_ok. destruct (seen_get _ _ _ _ _ Hw E) as (A & _ & En & Hs). destruct o; try done. by injection Ea as ->.
Qed.

(** ** Running candidates *)

(** The Deployment serves its whole configuration: content as rendered, not being
    deleted, and all replicas of the newest revision available. *)
Definition serving (desired d : deployment) : Prop :=
  candidateDeploymentMatches d desired = true /\ om_Deleting (d_Meta d) = false /\
  exists r, d_Replicas desired = Some r /\ 1 <= r /\ settled r d = true.

(** A matching Deployment has the labels and the privileges of the rendered one. *)
Lemma matching_pods cfg rev req pull desired policy d :
  CandidateDeploymentForApp cfg namespace rev req pull = Ok desired -> candidateNetworkPolicyForApp cfg namespace req = Ok policy ->
  candidateDeploymentMatches d desired = true ->
  isolated cfg namespace req d policy /\ ps_AutomountToken (d_Pod d) = Some false /\ forall c, c ∈ ps_Containers (d_Pod d) -> unprivileged c.
Proof.
  intros Ed Ep Hm. pose proof (candidate_is_isolated _ _ _ _ _ _ _ Ed Ep) as Hi.
  destruct (matches_fields _ _ Hm) as (_ & _ & Es & El & _ & _ & Ea & Ec).
  destruct (candidate_admitted _ _ _ _ _ _ Ed) as (_ & _ & _ & _ & (h & Eh & _) & C).
  destruct (co_base _ _ _ _ _ _ C) as (base & Eb & _ & Ecs & Eat & _). destruct (hosted_containers _ _ _ _ _ Eb Eh) as [Hat Hcs].
  split; [|split].
  - unfold isolated in *. by rewrite Es, El.
  - congruence.
  - intros c Hc. apply (list_elem_of_fmap_2 c_SecurityContext) in Hc. rewrite Ec, Ecs in Hc. apply list_elem_of_fmap in Hc as (c' & E' & Hc').
    destruct (Hcs c' Hc') as [(s & Esc & Hs) _]. exists s. split; [congruence|done].
Qed.

(** ** Activation *)

Ltac st_step E := match type of E with
  | mbind _ (guard _ _) _ = (Ok _, _) => let G := fresh "G" in apply st_bind_ok in E as ([] & ? & [= G <-] & E); bools
  | mbind _ (lift _) _ = (Ok _, _) => let L := fresh "L" in apply st_bind_ok in E as (? & ? & [= L <-] & E)
  | mbind _ _ _ = (Ok _, _) => let M := fresh "M" in apply st_bind_ok in E as (? & ? & M & E)
  end.

(** Others alone have acted between two states. *)
Definition quiet (k k' : K) : Prop := cluster_wf k' /\ forall kd n, grows_by (others kd n) (history k kd n) (history k' kd n).

Lemma quiet_refl k : cluster_wf k -> quiet k k.
Proof. intros Hw. split; [done|]. intros. constructor. Qed.
Lemma quiet_trans k1 k2 k3 : quiet k1 k2 -> quiet k2 k3 -> quiet k1 k3.
Proof. intros [_ G1] [Hw G2]. split; [done|]. intros kd n. by eapply grows_by_trans. Qed.
Lemma quiet_is_after k k' : quiet k k' -> after k k'.
Proof. intros [Hw G]. split; [done|]. intros kd n. by eapply grows_by_suffix. Qed.

Lemma quiet_within {A} (m : ST K A) k r k' : (forall kd n, within kd n (others kd n) m) -> cluster_wf k -> m k = (r, k') -> quiet k k'.
Proof. intros Hm Hw E. split; [by eapply (Hm KService "")|]. intros kd n. by eapply (Hm kd n). Qed.

(** A part that writes nothing: it fails and leaves the objects to the others, or gives the rest its value. *)
Lemma reading_bind {A B} (m : ST K A) (f : A -> ST K B) k0 k r k' : (forall kd n, within kd n (others kd n) m) -> quiet k0 k ->
  mbind f m k = (r, k') -> (quiet k0 k' /\ is_ok r = false) \/ exists a k1, m k = (Ok a, k1) /\ f a k1 = (r, k') /\ quiet k k1 /\ quiet k0 k1.
Proof.
  intros Hm Q [(e & He & ->)|(a & k1 & Ha & Hf)]%st_bind_inv; pose proof (proj1 Q) as Hw; [left|right].
  - split; [|done]. eapply quiet_trans; [exact Q|by eapply quiet_within].
  - pose proof (quiet_within _ _ _ _ Hm Hw Ha) as Q1. exists a, k1. do 3 (split; [done|]). by eapply quiet_trans.
Qed.

Lemma reading_atGate kd n gate : within kd n (others kd n) (serviceAtGate namespace gate).
Proof. unfold serviceAtGate, Get, services_Get, cluster_services, services_get. walk (fun (h : hist) o (H : others kd n h o) => H). Qed.

(** The only change of a Service an activation makes: the version at the gate is followed
    by one that differs in its target, with the given selector. *)
Definition moved (gate : ActivationGate) (selector : gmap string string) (h : hist) (o : option object) : Prop :=
  exists old new, current h = Some (OService old) /\ o = Some (OService new) /\ activationGateFor old = gate /\
    Svc_Selector new = Some selector /\ Svc_Annotations new = Svc_Annotations old /\ Svc_Labels new = Svc_Labels old.

Lemma atGate_witnessed gate k s k' : cluster_wf k -> serviceAtGate namespace gate k = (Ok s, k') ->
  activationGateFor s = gate /\ witnessed (OService s) k'.
Proof.
  intros Hw E. assert (Hk : kube_wf k) by exact Hw. destruct (serviceAtGate_ok namespace gate k s k' Hk E) as (_ & Eg & _). split; [done|].
  unfold serviceAtGate, Get, services_Get, cluster_services, services_get in E. repeat st_step E. injection E as <- <-.
  match goal with M : map_err _ _ k = (Ok _, _) |- _ => rename M into Em end. unfold map_err in Em.
  match type of Em with match ?m with _ => _ end = _ => destruct m as [[s0|] k0] eqn:E0; [|done] end. injection Em as -> ->. apply st_bind_ok in E0 as (o & k1 & Eo & [= Es <-]).
  destruct o; try discriminate. injection Es as ->. by destruct (get_witnessed _ _ _ _ _ Hw Eo) as (_ & _ & ?).
Qed.

Lemma replace_moves kd n gate target selector : Target_Selector target = Some selector ->
  within kd n (fun h o => others kd n h o \/ ((kd, n) = (KService, Gate_App gate) /\ moved gate selector h o)) (ReplaceActivationTarget namespace gate target).
Proof.
  intros Et. set (R := fun h o => _ \/ _). assert (HR : forall h o, others kd n h o -> R h o) by (by left).
  unfold ReplaceActivationTarget. apply within_bind; [apply within_guard|intros _]. apply within_given.
  eapply (given_bind _ _ _ _ (fun s k => activationGateFor s = gate /\ witnessed (OService s) k)).
  - apply given_within. eapply within_impl; [exact HR|apply reading_atGate].
  - intros k s k' Hw _ E. by apply (atGate_witnessed _ _ _ _ Hw E).
  - intros s. unfold updateActivationGate, Update, services_Update, cluster_services, services_update.
    apply given_then_any; [|intros; apply within_ret]. apply given_map_err, given_then_any; [|intros; apply within_lift].
    eapply (given_update _ _ _ HR _ _ (OService s)); [by intros k [_ ?]|done..|].
    intros [= -> ->] k h o' [Eg _] _ Hc Ha _. right. split; [by rewrite <- Eg|]. destruct Ha as (_ & _ & _ & _ & _ & _ & i & v & ->).
    exists s. eexists. split; [done|]. split; [reflexivity|]. done.
Qed.

(** C10: Traffic is moved to a candidate only on evidence of this very operation, gathered
    before the move.  Whatever the outcome of the call, whatever calls fail and whatever
    others do: either the controller has written nothing and reports an error; or there is
    a moment up to which it has written nothing and by which its Deployment was seen with
    the rendered content and all replicas of the newest revision available, and its
    NetworkPolicy was seen in place; from that moment on it writes nothing but the app's
    Service, and that only by replacing the version at the gate the caller holds by one
    with the candidate's own selector; success means that this happened.  The pods the
    selector names are isolated and unprivileged. *)
Theorem activation_on_evidence gate cfg rev req pull k r k' :
  cluster_wf k -> ActivatePreparedCandidate namespace gate cfg rev req pull k = (r, k') ->
  let selector := generation_selector (Cfg_Name cfg) (candidateGeneration (Cfg_Name cfg) req) in
  (quiet k k' /\ is_ok r = false) \/
  exists desired policy d p k1,
    CandidateDeploymentForApp cfg namespace rev req pull = Ok desired /\ candidateNetworkPolicyForApp cfg namespace req = Ok policy /\
    Gate_App gate = Cfg_Name cfg /\ Gate_OperationID gate = req /\
    quiet k k1 /\
    (seen k k1 (ODeployment d) /\ om_Name (d_Meta d) = om_Name (d_Meta desired) /\ serving desired d) /\
    (seen k k1 (OPolicy p) /\ om_Name (np_Meta p) = om_Name (np_Meta policy) /\ om_Deleting (np_Meta p) = false /\ candidateNetworkPolicyMatches p policy = true) /\
    (forall kd n, grows_by (fun h o => others kd n h o \/ ((kd, n) = (KService, Gate_App gate) /\ moved gate selector h o)) (history k1 kd n) (history k' kd n)) /\
    (forall g, r = Ok g -> exists old new, Some old ∈ versions k' (Gate_App gate) /\ Some new ∈ versions k' (Gate_App gate) /\
       activationGateFor old = gate /\ activationGateFor new = g /\ Gate_OperationID g = req /\ Svc_Selector new = Some selector) /\
    isolated cfg namespace req d policy /\ ps_AutomountToken (d_Pod d) = Some false /\
    (forall c, c ∈ ps_Containers (d_Pod d) -> unprivileged c).
Proof.
  intros Hw E selector. unfold ActivatePreparedCandidate in E. pose proof (quiet_refl k Hw) as Q0.
  apply (reading_bind _ _ k) in E as [?|([] & ? & [= G1 <-] & E & _ & _)]; [by left| |intros; apply within_guard|done].
  apply (reading_bind _ _ k) in E as [?|(desired & ? & [= Ed <-] & E & _ & _)]; [by left| |intros; apply within_lift|done].
  apply (reading_bind _ _ k) in E as [?|(d & k1 & Md & E & _ & Q1)]; [by left| |intros; apply within_typed, within_get; done|done].
  apply (reading_bind _ _ k) in E as [?|([] & ? & [= G2 <-] & E & _ & _)]; [by left| |intros; apply within_guard|done].
  apply (reading_bind _ _ k) in E as [?|([] & ? & [= G3 <-] & E & _ & _)]; [by left| |intros; apply within_guard|done].
  apply (reading_bind _ _ k) in E as [?|(policy & ? & [= Ep <-] & E & _ & _)]; [by left| |intros; apply within_lift|done].
  apply (reading_bind _ _ k) in E as [?|(p & k2 & Mp & E & Q12 & Q2)]; [by left| |intros; apply within_typed, within_get; done|done].
  apply (reading_bind _ _ k) in E as [?|([] & ? & [= _ <-] & E & _ & _)]; [by left| |intros; apply within_lift|done].
  apply (reading_bind _ _ k) in E as [?|([] & ? & [= G4 <-] & E & _ & _)]; [by left| |intros; apply within_guard|done].
  apply (reading_bind _ _ k) in E as [?|(s & k3 & Ms & E & Q23 & Q3)]; [by left| |intros; apply reading_atGate|done].
  apply (reading_bind _ _ k) in E as [?|([] & ? & [= _ <-] & E & _ & _)]; [by left| |intros; apply within_guard|done].
  right. bools. destruct (candidate_admitted _ _ _ _ _ _ Ed) as (_ & _ & _ & _ & _ & C).
  assert (Et : ls_MatchLabels <$> d_Selector desired = Some selector) by (by rewrite (co_selector _ _ _ _ _ _ C)).
  pose proof (proj1 Q3) as Hw3. destruct (seen_deployment _ _ _ _ Hw Md) as (A1 & En & Sd).
  destruct (seen_policy _ _ _ _ (proj1 Q1) Mp) as (A2 & Enp & Sp).
  assert (Hm : candidateDeploymentMatches d desired = true) by done. destruct (matching_pods _ _ _ _ _ _ _ Ed Ep Hm) as (Hi & Hat & Hu).
  assert (Eo : Gate_OperationID gate = req) by (by apply String.eqb_eq).
  exists desired, policy, d, p, k3. do 2 (split; [done|]). split; [by apply String.eqb_eq|]. split; [done|]. split; [done|].
  assert (A0 : after k k) by (by split). split; [|split; [|split; [|split]]].
  - split; [eapply seen_mono; [exact A0| |exact Sd]; eauto using after_trans, quiet_is_after|]. split; [done|]. split; [done|]. split; [done|].
    destruct (d_Replicas desired) as [n|]; [|done]. bools. eauto.
  - split; [|done]. eapply seen_mono; [exact A1| |exact Sp]. eauto using quiet_is_after.
  - intros kd n. by destruct (replace_moves kd n gate (MkTarget _ _) selector Et _ _ _ Hw3 E).
  - intros g ->. assert (Hk3 : kube_wf k3) by exact Hw3. destruct (replace_exact namespace gate _ k3 g k' Hk3 E) as (old & new & Hold & Hnew & Go & Gn & Esel & _ & _ & _ & _ & Eop & _).
    exists old, new. do 4 (split; [done|]). split; [congruence|]. by rewrite Esel.
  - done.
Qed.

(** ** Preparation *)

(** A policy in force for a candidate: stored with the rendered content, so that it selects
    the candidate's pods. *)
Definition policy_in_force (k : K) (policy : network_policy) : Prop :=
  exists p, Some (OPolicy p) ∈ history k KPolicy (om_Name (np_Meta policy)) /\ candidateNetworkPolicyMatches p policy = true /\
    np_PodSelector p = np_PodSelector policy.

Lemma policy_matches_selector p q : candidateNetworkPolicyMatches p q = true -> np_PodSelector p = np_PodSelector q.
Proof.
  unfold candidateNetworkPolicyMatches. intros E%bool_decide_eq_true. apply (f_equal (fun t => t.2.1.1.1.1)) in E. exact E.
Qed.

Lemma created_in_history o k x k' : cluster_wf k -> k_create o k = (Ok x, k') ->
  Some x ∈ history k' (kind_of o) (name_of o) /\ admits complete_ports o x.
Proof.
  intros Hw E. destruct (create_write _ _ _ _ Hw E) as [[_ ?]|(h & o' & _ & _ & Ha & _ & [e Eh]%grows_by_suffix & Hx)]; [done|].
  rewrite (Hx x eq_refl). split; [|done]. rewrite Eh. apply elem_of_app. right. by left.
Qed.

Lemma seen_in_history k k' o : seen k k' o -> Some o ∈ history k' (kind_of o) (name_of o).
Proof. intros (h & _ & (older & ->)%current_head & [e ->]). apply elem_of_app. right. by left. Qed.

Lemma find_opt_ok {A} w (m : ST K A) k o k' : find_opt w m k = (Ok o, k') -> exists r, m k = (r, k') /\ (forall a, o = Some a -> r = Ok a).
Proof.
  unfold find_opt. intros (r & k1 & E1 & E2)%st_bind_ok. unfold attempt in E1. destruct (m k) as [r0 k0]. injection E1 as <- <-. exists r0.
  destruct r0 as [a|e]; [injection E2 as <- <-; split; [done|]; by intros ? [= ->]|]. destruct (IsNotFound e); [|done]. by injection E2 as <- <-.
Qed.

Lemma map_err_ok {A} g (m : ST K A) k a k' : map_err g m k = (Ok a, k') -> m k = (Ok a, k').
Proof. unfold map_err. destruct (m k) as [[x|e] k1]; [|done]. by intros [= -> ->]. Qed.

Lemma within_others_get n x : within KDeployment n (others KDeployment n) (deployments_Get x).
Proof. apply within_deployments_get. done. Qed.

(** A read with its missing case: the others only have moved. *)
Lemma find_frame {A} w (m : ST K A) k o k' : (forall kd n, within kd n any m) -> cluster_wf k -> find_opt w m k = (Ok o, k') -> after k k'.
Proof. intros Hm Hw E. eapply after_within; [|done|exact E]. intros kd n. by apply within_find_opt. Qed.

Lemma ensure_policy policy k k' : cluster_wf k -> ensureCandidateNetworkPolicy policy k = (Ok tt, k') -> policy_in_force k' policy.
Proof.
  intros Hw E. unfold ensureCandidateNetworkPolicy in E. apply st_bind_ok in E as (found & k1 & E1 & E).
  destruct (find_opt_ok _ _ _ _ _ E1) as (r & Er & Hf).
  pose proof (find_frame _ _ _ _ _ (fun kd n => within_typed _ _ _ _ _ (within_any_get kd n _ _)) Hw E1) as [Hw1 _].
  destruct found as [p|].
  - rewrite (Hf p eq_refl) in Er. destruct (seen_policy _ _ _ _ Hw Er) as (_ & En & Hs). repeat st_step E. unfold guard, lift in E.
    destruct (candidateNetworkPolicyMatches p policy) eqn:Em; [|done]. injection E as <-. exists p. rewrite <- En.
    split; [by apply seen_in_history in Hs|]. split; [done|by apply policy_matches_selector].
  - apply st_bind_ok in E as (o & k2 & Ec%map_err_ok & [= <-]). destruct (created_in_history _ _ _ _ Hw1 Ec) as [Hin Ha].
    destruct Ha as (_ & _ & _ & _ & _ & _ & p & -> & Ep). exists p. split; [exact Hin|].
    assert (Em : candidateNetworkPolicyMatches p policy = true) by (by apply bool_decide_eq_true). split; [done|by apply policy_matches_selector].
Qed.

Lemma deployment_created d k x k' : cluster_wf k -> deployments_Create d k = (Ok x, k') -> is_Some (d_Selector d) ->
  Some (ODeployment x) ∈ history k' KDeployment (om_Name (d_Meta d)) /\ candidateDeploymentMatches x d = true.
Proof.
  intros Hw (o & E & Ea)%typed_ok Hsel. destruct (created_in_history _ _ _ _ Hw E) as [Hin Ha]. destruct o; try done. injection Ea as ->.
  split; [exact Hin|]. destruct Ha as (_ & _ & _ & _ & _ & _ & d' & [= <-] & _ & Ed).
  assert (Es : d_Selector x = d_Selector d) by exact (f_equal (fun t => t.1.2.1.1.1.2) Ed).
  unfold candidateDeploymentMatches. rewrite Es, !bool_decide_true by done. done.
Qed.

(** A candidate's pods are isolated before they can start: whatever the outcome of
    PrepareCandidateDeployment and whatever calls fail, its Deployment is untouched until
    the NetworkPolicy that selects its pods is stored; and success means that both are
    stored with exactly the rendered content. *)
Theorem prepare_isolates_first cfg rev req pull k r k' :
  cluster_wf k -> PrepareCandidateDeployment namespace cfg rev req pull k = (r, k') ->
  let n := candidateDeploymentName (Cfg_Name cfg) req in
  (grows_by (others KDeployment n) (history k KDeployment n) (history k' KDeployment n) /\ is_ok r = false) \/
  exists desired policy k1,
    CandidateDeploymentForApp cfg namespace rev req pull = Ok desired /\ candidateNetworkPolicyForApp cfg namespace req = Ok policy /\
    grows_by (others KDeployment n) (history k KDeployment n) (history k1 KDeployment n) /\ after k k1 /\ after k1 k' /\
    policy_in_force k1 policy /\ selects (ls_MatchLabels (np_PodSelector policy)) (d_PodLabels desired) /\
    (is_ok r = true -> exists d, Some (ODeployment d) ∈ history k' KDeployment n /\ candidateDeploymentMatches d desired = true).
Proof.
  intros Hw E n. unfold PrepareCandidateDeployment in E.
  destruct (CandidateDeploymentForApp cfg namespace rev req pull) as [desired|e] eqn:Ed; [|injection E as <- <-; left; split; [constructor|done]].
  destruct (candidateNetworkPolicyForApp cfg namespace req) as [policy|e] eqn:Ep; [|injection E as <- <-; left; split; [constructor|done]].
  apply st_bind_inv in E as [(e & [= ] & _)|(? & ? & [= <- <-] & E)]. apply st_bind_inv in E as [(e & [= ] & _)|(? & ? & [= <- <-] & E)].
  pose proof (within_ensurePolicy n (others KDeployment n) (fun _ _ H => H) policy) as We.
  destruct (candidate_admitted _ _ _ _ _ _ Ed) as (_ & _ & _ & _ & _ & C). pose proof (co_name _ _ _ _ _ _ C) as En. fold (candidateDeploymentName (Cfg_Name cfg) req) in En. fold n in En.
  destruct (candidate_is_isolated _ _ _ _ _ _ _ Ed Ep) as (_ & Hsel & _).
  apply st_bind_inv in E as [(e & E1 & ->)|([] & k1 & E1 & E)]; [left; by destruct (We _ _ _ Hw E1)|]. right.
  destruct (We _ _ _ Hw E1) as [Hw1 G1]. pose proof (ensure_policy _ _ _ Hw E1) as Hpol. exists desired, policy, k1. do 3 (split; [done|]).
  assert (A1 : after k k1). { eapply after_within; [|exact Hw|exact E1]. intros kd m. unfold ensureCandidateNetworkPolicy, policies_Get.
    walk_any. }
  split; [done|]. split; [|split; [done|split; [done|]]].
  { eapply after_within; [|exact Hw1|exact E]. intros kd m. unfold deployments_Get, deployments_Create. walk_any. }
  intros Hok. destruct r as [[]|]; [|done]. apply st_bind_ok in E as (found & k2 & E2 & E).
  destruct (find_opt_ok _ _ _ _ _ E2) as (r & Er & Hf). rewrite En in E2, Er.
  pose proof (find_frame _ _ _ _ _ (fun kd m => within_typed _ _ _ _ _ (within_any_get kd m _ _)) Hw1 E2) as [Hw2 _].
  destruct found as [d|].
  - rewrite (Hf d eq_refl) in Er. destruct (seen_deployment _ _ _ _ Hw1 Er) as (_ & Ename & Hs). repeat st_step E. unfold guard, lift in E.
    destruct (candidateDeploymentMatches d desired) eqn:Em; [|done]. injection E as <-. exists d. rewrite <- Ename. split; [|done].
    by apply seen_in_history in Hs.
  - apply st_bind_ok in E as (x & k3 & Ec%map_err_ok & [= <-]). exists x. rewrite <- En. eapply deployment_created; [exact Hw2|exact Ec|].
    rewrite (co_selector _ _ _ _ _ _ C). eauto.
Qed.
End evidence.
