(* ===== verification/DeletionProps.v ===== *)
(** * Deleting the Service of an app with candidates

    The Service is the durable marker of a deletion; its removal ends it. *)

From S2P Require Import Prelude GoStrings Regexp GoJson Appconfig Db Activation ActivationProps Security Candidate CandidateOps Workloads WorkloadProps Cluster Resources Capacity CandidateControl ControlLogic CandidateEvidence.
From Stdlib Require Import Ascii String.
Local Open Scope Z_scope.

Section deletion.
Context `{KubeTypes} `{!KubePorts} `{KubeRest} {K : Type} `{!Cluster K} (namespace : string).

(** Reads leave every object to the others. *)
Notation O kd n := (within kd n (others kd n)).

Lemma others_id kd n (h : hist) o : others kd n h o -> others kd n h o.
Proof. done. Qed.

Lemma read_services_get kd n x : O kd n (services_get x).
Proof. unfold services_get. walk (others_id kd n). Qed.

Lemma read_atGate kd n gate : O kd n (serviceAtGate namespace gate).
Proof. unfold serviceAtGate, Get, services_Get, cluster_services. walk (others_id kd n). apply read_services_get. Qed.

Lemma read_deletionGate kd n gate id : O kd n (deletionServiceAtGate namespace gate id).
Proof.
  unfold deletionServiceAtGate. repeat first [apply read_atGate | walk_step (others_id kd n)].
Qed.

Lemma read_pods kd n sel : O kd n (pods_List sel).
Proof. unfold pods_List. by apply within_list_as. Qed.

Lemma atGate_in_history gate k s k' : cluster_wf k -> serviceAtGate namespace gate k = (Ok s, k') ->
  cluster_wf k' /\ activationGateFor s = gate /\ Some (OService s) ∈ history k' KService (Gate_App gate).
Proof.
  intros Hw E. assert (Hk : kube_wf k) by exact Hw. destruct (serviceAtGate_ok namespace gate k s k' Hk E) as ((_ & Hw' & _) & Hg & _ & _ & newer & older & Hv & _).
  split; [exact Hw'|]. split; [done|]. assert (Hin : Some s ∈ service_versions k' (Gate_App gate)).
  { change (service_versions k' (Gate_App gate)) with (versions k' (Gate_App gate)). rewrite Hv. apply elem_of_app. right. by left. }
  apply list_elem_of_fmap in Hin as (o & Eo & Hin). destruct o as [[]|]; try discriminate. by injection Eo as <-.
Qed.

(** What [deletionServiceAtGate] has checked of the Service. *)
Definition fenced_marker (gate : ActivationGate) (appID : string) (s : Service) : Prop :=
  Gate_OperationID gate = candidateDeletionOperationID (Gate_App gate) appID /\ activationGateFor s = gate /\
  marked_for (Gate_OperationID gate) appID s = true /\ Svc_Deleting s = false /\ Svc_ResourceVersion s <> "" /\
  default ∅ (Svc_Selector s) = inactive_selector (Gate_App gate) (Gate_OperationID gate).

Lemma deletionGate_ok gate id k s k' : cluster_wf k -> deletionServiceAtGate namespace gate id k = (Ok s, k') ->
  cluster_wf k' /\ fenced_marker gate id s /\ Gate_App gate <> "" /\ Some (OService s) ∈ history k' KService (Gate_App gate).
Proof.
  intros Hw E. unfold deletionServiceAtGate in E. apply st_bind_ok in E as ([] & k1 & [= G1 <-] & E). bools.
  apply st_bind_ok in E as (s1 & k1 & Es & E). apply st_bind_ok in E as ([] & k2 & [= G2 <-] & E). injection E as -> ->. bools.
  destruct (atGate_in_history _ _ _ _ Hw Es) as (Hw1 & Hg & Hin). split; [done|]. split; [|split; [by apply String.eqb_neq|done]].
  repeat split; try done; [by apply String.eqb_eq|by apply String.eqb_neq].
Qed.

(** No Pod of the app existed at some moment of the call. *)
Definition no_pods (app : string) (k k' : K) : Prop :=
  exists h, (forall m, history k KPod m `suffix_of` h m /\ h m `suffix_of` history k' KPod m) /\
    forall m p, current (h m) = Some (OPod p) -> map_get (om_Labels (pod_Meta p)) appOwnershipLabel <> app.

Lemma pods_none app k k' : app <> "" -> cluster_wf k -> pods_List {[appOwnershipLabel := app]} k = (Ok [], k') -> no_pods app k k'.
Proof.
  intros Ha Hw E. unfold pods_List, list_as in E. apply st_bind_ok in E as (l & k1 & El & [= Eo <-]).
  destruct (list_read _ _ _ _ _ Hw El) as (h & Hh & Hl). exists h. split.
  - intros m. destruct (Hh m) as [G1 G2]. split; by eapply grows_by_suffix.
  - intros m p Hc Ho. assert (Hin : OPod p ∈ l).
    { apply Hl. exists m. split; [done|]. simpl. apply map_singleton_subseteq_l. unfold map_get in Ho.
      destruct (om_Labels (pod_Meta p) !! appOwnershipLabel) eqn:E; simpl in Ho; [by subst|done]. }
    assert (p ∈ omap as_pod l) as Hp by (apply list_elem_of_omap; exists (OPod p); done). rewrite Eo in Hp. by apply elem_of_nil in Hp.
Qed.

Lemma no_pods_widen app k k1 k2 k' : (forall m, history k KPod m `suffix_of` history k1 KPod m) -> no_pods app k1 k2 ->
  (forall m, history k2 KPod m `suffix_of` history k' KPod m) -> no_pods app k k'.
Proof.
  intros A (h & Hh & Hp) B. exists h. split; [|done]. intros m. destruct (Hh m) as [C D]. split; [by trans (history k1 KPod m)|by trans (history k2 KPod m)].
Qed.

Lemma delete_missing_inv w (m : ST K unit) k r k' : delete_missing_ok w m k = (r, k') -> exists r0, m k = (r0, k').
Proof.
  unfold delete_missing_ok. intros [(e & E & _)|(x & k1 & E & Ex)]%st_bind_inv; unfold attempt in E; destruct (m k) as [r1 k2]; [discriminate|].
  injection E as <- <-. destruct r1 as [|e]; [by injection Ex as _ <-; eauto|]. destruct (IsNotFound e); injection Ex as _ <-; eauto.
Qed.

(** Deleting with the version of a Service as precondition removes that version or nothing. *)
Lemma fenced_delete n s k2 k3 r k' : cluster_wf k2 -> cluster_wf k3 -> history k2 KService n `suffix_of` history k3 KService n ->
  Some (OService s) ∈ history k2 KService n -> Svc_ResourceVersion s <> "" ->
  k_delete KService n (ownedDeleteOptionsWithResourceVersion (service_meta s)) k3 = (r, k') ->
  grows_by (others KService n) (history k3 KService n) (history k' KService n) \/
  exists older after_, grows_by (others KService n) (history k3 KService n) (Some (OService s) :: older) /\
    (forall o, after_ = Some o -> om_Deleting (meta o) = true) /\
    grows_by (others KService n) (after_ :: Some (OService s) :: older) (history k' KService n).
Proof.
  intros Hw2 Hw3 Hs Hin Hv E. destruct (delete_frame _ _ _ _ _ _ Hw3 E) as [Hw' _].
  destruct (delete_write _ _ _ _ _ _ Hw3 E) as [[G _]|(h & old & after_ & G1 & Hc & [_ Hm] & Hd & G2)]; [by left|]. right.
  apply current_head in Hc as [older ->]. unfold ownedDeleteOptionsWithResourceVersion, nonempty in Hm. simpl in Hm.
  rewrite (proj2 (String.eqb_neq _ _) Hv) in Hm. specialize (Hm _ eq_refl).
  assert (old = OService s) as ->; [|by exists older, after_].
  assert (S2 : Some old :: older `suffix_of` history k' KService n).
  { apply grows_by_suffix in G2. etrans; [|exact G2]. by apply suffix_cons_r. }
  assert (S1 : history k3 KService n `suffix_of` history k' KService n) by (apply grows_by_suffix in G1; by etrans).
  assert (I1 : Some old ∈ history k' KService n) by (destruct S2 as [e ->]; apply elem_of_app; right; by left).
  assert (I2 : Some (OService s) ∈ history k' KService n).
  { destruct S1 as [e ->]. destruct Hs as [e' ->]. by do 2 (apply elem_of_app; right). }
  apply list_elem_of_lookup in I1 as [i I1], I2 as [j I2].
  pose proof (version_once _ _ _ _ _ _ _ Hw' I1 I2 Hm) as ->. congruence.
Qed.

(** FinishCandidateDeletion removes the Service of an app only in the version it has
    verified: fenced by the deletion of this very app, with the inactive selector, and
    after a moment at which the app had no Pod.  On every other outcome the Service is
    left as it is. *)
Theorem finish_deletes_fenced gate appID k r k' :
  cluster_wf k -> FinishCandidateDeletion namespace gate appID k = (r, k') ->
  let n := Gate_App gate in
  grows_by (others KService n) (history k KService n) (history k' KService n) \/
  exists s older after_,
    grows_by (others KService n) (history k KService n) (Some (OService s) :: older) /\
    (forall o, after_ = Some o -> om_Deleting (meta o) = true) /\
    grows_by (others KService n) (after_ :: Some (OService s) :: older) (history k' KService n) /\
    fenced_marker gate appID s /\ no_pods n k k'.
Proof.
  intros Hw E n. unfold FinishCandidateDeletion in E. fold n in E.
  apply st_bind_inv in E as [(e & E1 & ->)|(found & k1 & E1 & E)].
  { left. by destruct (within_find_opt _ _ _ _ _ (read_services_get KService n n) _ _ _ Hw E1). }
  pose proof (fun kd m => within_find_opt _ _ _ _ _ (read_services_get kd m n) _ _ _ Hw E1) as F1. destruct (F1 KService n) as [Hw1 G1].
  destruct found as [s0|]; [|left; by injection E as _ <-].
  apply st_bind_inv in E as [(e & E2 & ->)|(s & k2 & E2 & E)].
  { left. destruct (read_deletionGate KService n _ _ _ _ _ Hw1 E2). by eapply grows_by_trans. }
  pose proof (fun kd m => read_deletionGate kd m _ _ _ _ _ Hw1 E2) as F2.
  destruct (F2 KService n) as [_ G2]. destruct (deletionGate_ok _ _ _ _ _ Hw1 E2) as (Hw2 & Hf & Hne & Hin).
  apply st_bind_inv in E as [(e & E3 & ->)|(pods & k3 & E3 & E)].
  { left. destruct (read_pods KService n _ _ _ _ Hw2 E3). eauto using grows_by_trans. }
  destruct (read_pods KService n _ _ _ _ Hw2 E3) as [Hw3 G3]. unfold guard in E.
  destruct (bool_decide (pods = [])) eqn:Eb; [|left; injection E as _ <-; eauto using grows_by_trans].
  apply bool_decide_eq_true in Eb as ->. apply pods_none in E3 as Hnp; [|done|done].
  assert (Hn : Svc_Name s = n) by (destruct Hf as (_ & Hg & _); unfold n; by rewrite <- Hg).
  apply (delete_missing_inv (wrap "delete fenced app Service: %w")) in E as [r0 E]. rewrite Hn in E.
  assert (grows_by (others KService n) (history k KService n) (history k3 KService n)) as G by eauto using grows_by_trans.
  destruct (fenced_delete n s k2 k3 r0 k' Hw2 Hw3) as [G4|(older & after_ & G4 & Hd & G5)]; [by apply grows_by_suffix in G3|done|by destruct Hf as (_ & _ & _ & _ & ? & _)|done|left; by eapply grows_by_trans|].
  right. exists s, older, after_. split; [by eapply grows_by_trans|]. split; [done|]. split; [done|]. split; [done|].
  destruct (delete_frame _ _ _ _ _ _ Hw3 E) as [_ F4]. eapply no_pods_widen; [|exact Hnp|].
  - intros m. destruct (F1 KPod m) as [_ A]. destruct (F2 KPod m) as [_ B]. eapply grows_by_suffix, grows_by_trans; [exact A|exact B].
  - intros m. by eapply grows_by_suffix, F4.
Qed.
End deletion.
