(* ===== verification/Ownership.v ===== *)
(** * The controller writes only what belongs to the app

    Every object of an app carries the name of the app as a label.  Reconciling or
    deleting an app creates objects with its label, replaces only versions that
    carry it, and deletes only objects whose identity was seen with it. *)

From S2P Require Import Prelude GoStrings Regexp GoJson Appconfig Db Activation Security Candidate CandidateOps Workloads WorkloadProps Cluster Resources Capacity CandidateControl NodeRegistry DatabaseStatus Postgres KubeNodes Controller ControlLogic.
From Stdlib Require Import Ascii String.
Local Open Scope Z_scope.

Section ownership.
Context `{KubeTypes} `{!KubePorts} `{KubeRest}.

(** A Deployment that its owner has marked for the migration of its affinity. *)
Definition migrating (app : string) (o : object) : Prop :=
  exists d, o = ODeployment d /\ owner o = app /\ annotated legacyAffinityMigrationAnnotation "true" (d_Meta d) = true.

(** What the controller may do to an object on behalf of an app.  The last step of the
    migration replaces whatever Deployment has the name by then. *)
Inductive owned_change (app : string) (h : hist) : option object -> Prop :=
| OwnedCreate o : current h = None -> owner o = app -> owned_change app h (Some o)
| OwnedReplace old o : current h = Some old -> owner old = app -> owner o = app -> owned_change app h (Some o)
| OwnedDelete old seen x : current h = Some old -> Some seen ∈ h -> uid seen = uid old -> owner seen = app ->
    (forall o, x = Some o -> om_Deleting (meta o) = true) -> owned_change app h x
| OwnedMigrate old seen o : current h = Some old -> Some seen ∈ h -> migrating app seen -> kind_of old = KDeployment ->
    owner o = app -> owned_change app h (Some o).

(** The app a managed database belongs to: these objects have a label of their own. *)
Definition database_for (o : object) : string := map_get (om_Labels (meta o)) databaseForLabel.

(** Kinds without the label of the app.  The namespace and the ClusterIssuer are common to
    all apps: the one is only ever created, the other created and updated under the name
    the TLS settings give it.  A database is created for the app, or replaced where its own
    label names the app.  None of them is deleted. *)
Inductive shared_change (issuer app : string) (kd : kind) (h : hist) : option object -> Prop :=
| SharedNamespace o : kd = KNamespace -> current h = None -> shared_change issuer app kd h (Some o)
| SharedIssuer o : kd = KIssuer -> name_of o = issuer -> shared_change issuer app kd h (Some o)
| SharedDatabase o : kd = KDatabase -> database_for o = app -> (forall old, current h = Some old -> database_for old = app) ->
    shared_change issuer app kd h (Some o).

Lemma owner_admitted ports o o' : admits ports o o' -> owner o' = owner o.
Proof. intros (_ & _ & El & _). unfold owner. by rewrite El. Qed.

Lemma ownership_owner kindName nm app (o : object) : requireAppResourceOwnership kindName nm app (om_Labels (meta o)) = Ok tt -> owner o = app.
Proof. unfold requireAppResourceOwnership, owner. destruct (String.eqb_spec (map_get (om_Labels (meta o)) appOwnershipLabel) app); [done|discriminate]. Qed.

Lemma managed_owner app : map_get (managedAppLabels app) appOwnershipLabel = app.
Proof. unfold map_get, managedAppLabels, appLabels. by rewrite lookup_insert_ne, lookup_insert_ne, lookup_singleton_eq by done. Qed.
End ownership.

Section writes.
Context `{KubeTypes} `{!KubePorts} `{KubeRest} `{!Unstructured} `{!ErrorDetails} {K : Type} `{!Cluster K}.
Context (namespace : string) (tls : TLSConfig) (app : string) (kd : kind) (n : string).

Definition issuer_name : string := om_Name (dyn_Meta (clusterIssuer tls)).
Definition permitted (h : hist) (x : option object) : Prop := others kd n h x \/ owned_change app h x \/ shared_change issuer_name app kd h x.

Lemma HA h x : others kd n h x -> permitted h x.
Proof. by left. Qed.

Notation W := (within kd n permitted).
Notation G := (given kd n permitted).

Lemma create_owned o : owner o = app -> W (k_create o).
Proof. intros Ho. apply (within_create _ _ _ HA). intros _ h o' Hc Ha. right; left. apply OwnedCreate; [done|]. by rewrite (owner_admitted _ _ _ Ha). Qed.

Lemma create_namespace m : W (k_create (ONamespace m)).
Proof. apply (within_create _ _ _ HA). intros [= -> _] h o' Hc _. right; right. by apply SharedNamespace. Qed.

Lemma create_issuer : W (k_create (OIssuer (clusterIssuer tls))).
Proof. apply (within_create _ _ _ HA). intros [= -> _] h o' _ Ha. right; right. apply SharedIssuer; [done|]. by destruct Ha as (_ & -> & _). Qed.

Lemma update_issuer rv : W (k_update (OIssuer (dyn_at rv (clusterIssuer tls)))).
Proof. apply (within_update _ _ _ HA). intros [= -> _] h old o' _ _ Ha _. right; right. apply SharedIssuer; [done|]. by destruct Ha as (_ & -> & _). Qed.

Lemma update_owned P o x : (forall k, P k -> witnessed x k) -> kind_of o = kind_of x -> name_of o = name_of x -> version o = version x ->
  owner x = app -> owner o = app -> G P (k_update o).
Proof.
  intros Hx Ek En Ev Ox Oo. eapply (given_update _ _ _ HA); [done..|]. intros _ k h o' _ _ Hc Ha _. right; left.
  eapply OwnedReplace; [done|done|]. by rewrite (owner_admitted _ _ _ Ha).
Qed.

Lemma delete_seen P x kd' n' pre : (forall k, P k -> witnessed x k) -> kind_of x = kd' -> name_of x = n' -> pre_UID pre = nonempty (uid x) ->
  owner x = app -> G P (k_delete kd' n' pre).
Proof.
  intros Hx <- <- Ep Ox. eapply (given_delete _ _ _ HA); [done..|]. intros _ h old after Hc Hin Hu Hd. right; left.
  by eapply OwnedDelete.
Qed.

(** Reading an object and then acting on it: [rel] relates the value to the object. *)
Definition reads {B} (rel : B -> object -> Prop) (m : ST K B) : Prop := forall k b k', cluster_wf k -> m k = (Ok b, k') ->
  exists o, rel b o /\ witnessed o k'.

Lemma after_find {A B} (rel : B -> object -> Prop) w (m : ST K B) (f : option B -> ST K A) : W m -> reads rel m -> W (f None) ->
  (forall o b, rel b o -> G (witnessed o) (f (Some b))) -> W (mbind f (find_opt w m)).
Proof.
  intros Hm Hr Hn Hs. apply within_given. eapply (given_bind _ _ _ _ (fun found k => match found with None => True | Some b =>
    exists o, rel b o /\ witnessed o k end)).
  - by apply given_within, within_find_opt.
  - intros k [b|] k' Hw _ E; [|done]. by eapply Hr, find_opt_some.
  - intros [b|]; [|by apply given_within]. intros k r k' Hw (o & Eo & Hin) E. by eapply (Hs o b).
Qed.

(** What was read stays in the history through later calls. *)
Definition anything (h : hist) (o : option object) : Prop := True.
Lemma anyone kd' x h o : others kd' x h o -> anything h o.
Proof. done. Qed.
Lemma stays {B} o (m : ST K B) k r k' : within (kind_of o) (name_of o) anything m -> cluster_wf k -> m k = (r, k') -> witnessed o k -> witnessed o k'.
Proof. intros Hm Hw E Hin. destruct (Hm _ _ _ Hw E) as [_ G']. by eapply witnessed_grows. Qed.

Definition is_object (kd' : kind) (x : string) (o' o : object) : Prop := o' = o /\ kind_of o = kd' /\ name_of o = x.
Definition has_value {B} (as_ : object -> option B) (kd' : kind) (x : string) (b : B) (o : object) : Prop :=
  as_ o = Some b /\ kind_of o = kd' /\ name_of o = x.

Lemma reads_get kd' x : reads (is_object kd' x) (k_get kd' x).
Proof. intros k o k' Hw E. destruct (get_witnessed _ _ _ _ _ Hw E) as (? & ? & ?). by exists o. Qed.

Lemma reads_typed {B} (as_ : object -> option B) kd' x : reads (has_value as_ kd' x) (typed as_ (k_get kd' x)).
Proof.
  intros k b k' Hw E. unfold typed in E. apply st_bind_ok in E as (o & k1 & Eg & Ea). exists o.
  destruct (as_ o) as [b'|] eqn:Eo; [|discriminate]. injection Ea as -> ->. destruct (get_witnessed _ _ _ _ _ Hw Eg) as (? & ? & ?). done.
Qed.

Lemma reads_service x : reads (has_value (fun o => to_service (Some o)) KService x) (services_get x).
Proof.
  intros k b k' Hw E. unfold services_get in E. apply st_bind_ok in E as (o & k1 & Eg & [= Ea <-]). exists o.
  destruct (get_witnessed _ _ _ _ _ Hw Eg) as (? & ? & ?). destruct o; try discriminate. by injection Ea as ->.
Qed.

Lemma apply_owned_app kd' kindName check desired : (forall rv, kind_of (desired rv) = kd') -> (forall rv, name_of (desired rv) = name_of (desired "")) ->
  (forall rv, version (desired rv) = rv) -> (forall rv, owner (desired rv) = app) -> W (apply_owned kd' kindName app check desired).
Proof.
  intros Hk Hn Hv Ho. unfold apply_owned. apply (after_find (is_object kd' (name_of (desired "")))); [apply (within_get _ _ _ HA)|apply reads_get| |].
  - walk HA. by apply create_owned.
  - intros o o' (-> & Ek & En). apply given_bind_lift. intros [] Hown%ownership_owner. apply given_bind_lift. intros _ _.
    apply given_then; [|apply within_ret]. apply given_map_err. apply update_owned with (x := o); [done|by rewrite Hk|by rewrite Hn|by rewrite Hv|done|done].
Qed.

Lemma delete_owned_app kd' kindName opts : (forall m, pre_UID (opts m) = nonempty (om_UID m)) -> W (delete_owned kd' kindName app opts).
Proof.
  intros Hp. unfold delete_owned. apply (after_find (is_object kd' app)); [apply (within_get _ _ _ HA)|apply reads_get|walk HA|].
  intros o o' (-> & Ek & En). apply given_bind_lift. intros [] Hown%ownership_owner.
  apply given_delete_missing. eapply delete_seen; [done|done|done|apply Hp|done].
Qed.

(** ** The operations on each object *)

Lemma owned_deleteService : W (deleteService app).
Proof.
  unfold deleteService. apply (after_find (has_value (fun o => to_service (Some o)) KService app)); [unfold services_get; walk HA|apply reads_service|walk HA|].
  intros o s (Eo & Ek & En). destruct o; try discriminate. injection Eo as ->. apply given_bind_guard. intros _.
  apply given_bind_lift. intros [] Hown. apply given_delete_missing. eapply (delete_seen _ (OService s)); [done|done|done|done|].
  by eapply (ownership_owner "Service" (Svc_Name s)).
Qed.

Lemma owned_deletePolicy : W (deleteHostingNetworkPolicy app).
Proof.
  unfold deleteHostingNetworkPolicy, policies_Get. apply (after_find (has_value as_policy KPolicy app)); [walk HA|apply reads_typed|walk HA|].
  intros o p (Eo & Ek & En). destruct o; try discriminate. injection Eo as ->. destruct (negb _); [apply given_within, within_ret|].
  apply given_bind_lift. intros [] Hown. eapply (given_bind _ _ _ _ (fun _ => witnessed (OPolicy p))).
  - apply given_within. unfold pods_List. walk HA.
  - intros k l k' Hw Hin E. eapply stays; [|exact Hw|exact E|exact Hin]. unfold pods_List. walk (anyone KPolicy (name_of (OPolicy p))).
  - intros pods. destruct (negb _); [apply given_within, within_ret|]. apply given_delete_missing.
    eapply (delete_seen _ (OPolicy p)); [done|done|done|done|]. by eapply (ownership_owner "NetworkPolicy").
Qed.

Lemma given_join P ms : Forall (fun m => G P m) ms -> Forall (fun m => forall k r k', cluster_wf k -> P k -> m k = (r, k') -> P k') ms -> G P (join_all ms).
Proof.
  intros Hg Hs. unfold join_all. eapply (given_bind _ _ _ _ (fun _ _ => True)); [|done|intros; apply given_within, within_lift].
  induction Hg as [|m ms Hm Hg IH]; [apply given_within, within_ret|]. inversion Hs as [|? ? Sm Ss]; subst. cbn [join_calls].
  eapply (given_bind _ _ _ _ (fun _ => P)).
  - intros k r k' Hw Hp E. unfold attempt in E. destruct (m k) as [x k1] eqn:Em. injection E as <- <-. by eapply Hm.
  - intros k a k' Hw Hp E. unfold attempt in E. destruct (m k) as [x k1] eqn:Em. injection E as <- <-. by eapply Sm.
  - intros r. eapply (given_bind _ _ _ _ (fun _ _ => True)); [by apply IH|done|]. intros rs. apply given_within, within_ret.
Qed.

Lemma owned_delete_revision P label annotation type name bad failed s : (forall k, P k -> witnessed (OSecret s) k) ->
  G P (delete_revision label annotation type app name bad failed s).
Proof.
  intros Hs. unfold delete_revision. apply given_bind_lift. intros [] Hown. apply given_bind_guard. intros _.
  apply given_delete_missing. eapply (delete_seen _ (OSecret s)); [done|done|done|done|]. by eapply (ownership_owner "Secret").
Qed.

Lemma owned_revisions sel w label annotation type name bad failed :
  W (secrets ← map_err w (secrets_List sel); join_all ((fun s => delete_revision label annotation type app name (bad s) failed s) <$> secrets)).
Proof.
  apply within_given. eapply (given_bind _ _ _ _ (fun secrets k => forall s, s ∈ secrets -> witnessed (OSecret s) k)).
  - apply given_within. unfold secrets_List. walk HA.
  - intros k l k' Hw _ E s Hin. unfold map_err, secrets_List in E. destruct (list_as as_secret KSecret sel k) as [[x|e] k1] eqn:El; [|discriminate].
    injection E as -> ->. unfold list_as in El. apply st_bind_ok in El as (os & k2 & El & [= <- <-]). apply list_elem_of_omap in Hin as (o & Ho & Eo).
    destruct o; try discriminate. injection Eo as ->. by destruct (list_witnessed _ _ _ _ _ _ Hw El Ho).
  - intros secrets. apply given_join; apply Forall_fmap, Forall_forall; intros s Hs.
    + apply owned_delete_revision. intros k Hk. by apply Hk.
    + intros k r k' Hw Hk E s' Hs'. eapply stays; [|exact Hw|exact E|by apply Hk]. unfold delete_revision.
      walk (anyone KSecret (name_of (OSecret s'))). by apply (within_delete _ _ _ (anyone KSecret (name_of (OSecret s')))).
Qed.

Lemma owned_deleteRegistry : W (deleteRegistrySecrets app).
Proof. apply owned_revisions. Qed.
Lemma owned_deleteEnvironment : W (deleteEnvironmentSecrets app).
Proof. apply owned_revisions. Qed.

(** *** Reconciliation of a canonical configuration *)

Context (cfg : Config) (Hcfg : Normalize cfg = cfg) (Happ : Cfg_Name cfg = app).

Lemma trimmed : TrimSpace (Cfg_Name cfg) = app.
Proof. rewrite <- Happ. change (TrimSpace (Cfg_Name cfg)) with (Cfg_Name (Normalize cfg)). by rewrite Hcfg. Qed.

Lemma owned_revision_secret name label annotation revision type data :
  owner (OSecret (revision_secret namespace name app label annotation revision type data)) = app \/ label = appOwnershipLabel.
Proof.
  destruct (decide (label = appOwnershipLabel)) as [?|Hne]; [by right|left]. unfold owner, map_get. simpl. rewrite lookup_insert_ne by done. apply managed_owner.
Qed.

Lemma owned_registry c : W (reconcileRegistrySecret namespace cfg c).
Proof.
  unfold reconcileRegistrySecret, secrets_Get. rewrite Happ. walk HA. apply create_owned.
  by destruct (owned_revision_secret (registrySecretName app (Cfg_ImagePullCredential cfg)) registrySecretLabel registryRevisionAnnotation
    (Cfg_ImagePullCredential cfg) SecretTypeDockerConfigJson {[".dockerconfigjson" := a]}).
Qed.

Lemma owned_environment v : W (reconcileEnvironmentSecret namespace cfg v).
Proof.
  unfold reconcileEnvironmentSecret, secrets_Get. rewrite Happ. walk HA. apply create_owned.
  by destruct (owned_revision_secret (environmentSecretName app (Cfg_EnvironmentRevision cfg)) environmentSecretLabel environmentRevisionAnnotation
    (Cfg_EnvironmentRevision cfg) SecretTypeOpaque v).
Qed.

Lemma owned_secret v : W (reconcileSecret namespace cfg v).
Proof.
  unfold reconcileSecret. walk HA; [apply owned_environment|rewrite Happ; by apply delete_owned_app|].
  rewrite Happ. unfold secretForApp in *. rewrite Hcfg, Happ in *.
  match goal with Hs : mbind _ (secret_data _ _) = Ok _ |- _ => destruct (secret_data _ _) as [data|]; [injection Hs as <-|discriminate] end.
  apply apply_owned_app; try done; intros rv; apply managed_owner.
Qed.

Lemma owned_service : W (reconcileService namespace cfg).
Proof.
  assert (Es : forall rv, owner (OService (with_version rv (serviceForApp cfg namespace))) = app).
  { intros rv. unfold owner. simpl. rewrite trimmed. apply managed_owner. }
  unfold reconcileService. apply (after_find (has_value (fun o => to_service (Some o)) KService (Svc_Name (serviceForApp cfg namespace))));
    [unfold services_get; walk HA|apply reads_service| |].
  - walk HA. apply create_owned. exact (Es "").
  - intros o s (Eo & Ek & En). destruct o; try discriminate. injection Eo as ->. apply given_bind_guard. intros _.
    apply given_bind_lift. intros [] Hown. apply given_then; [|apply within_ret]. apply given_map_err.
    apply update_owned with (x := OService s); [done|done|done|done| |apply Es]. rewrite <- Happ. by eapply (ownership_owner "Service" (Svc_Name s)).
Qed.

Lemma owned_budget : W (reconcilePodDisruptionBudget namespace cfg).
Proof.
  unfold reconcilePodDisruptionBudget. rewrite Happ. destruct (negb _); [by apply delete_owned_app|].
  unfold podDisruptionBudgetForApp. rewrite Happ. apply apply_owned_app; try done; intros rv; apply managed_owner.
Qed.

Lemma owned_policy : W (reconcileHostingNetworkPolicy namespace cfg).
Proof.
  unfold reconcileHostingNetworkPolicy, networkPolicyForHostedApp. destruct (Cfg_Hosting cfg) as [h|]; [|apply within_ret]. rewrite Happ.
  apply apply_owned_app; try done; intros rv; unfold owner, map_get; simpl; rewrite lookup_insert_ne by done; apply managed_owner.
Qed.

Lemma owned_traffic_delete : W (deleteTrafficResilienceResources app).
Proof. unfold deleteTrafficResilienceResources, deleteDynamicAppResource. walk HA; by apply delete_owned_app. Qed.

Lemma owned_traffic : W (reconcileTrafficResilienceResources namespace cfg).
Proof.
  unfold reconcileTrafficResilienceResources, reconcileDynamicAppResource, deleteDynamicAppResource, retryMiddlewareForApp, serversTransportForApp, dynamic_for.
  rewrite Happ. walk HA; first [apply owned_traffic_delete | by apply delete_owned_app | simpl; apply apply_owned_app; try done; intros rv; apply managed_owner].
Qed.

Lemma owned_ingress m : ManifestForApp cfg namespace tls = Ok (Some m) ->
  W (apply_owned KIngress "Ingress" (Cfg_Name cfg) (fun _ => Ok tt) (fun rv => OIngress (ingress_at rv (kubernetesIngress m)))).
Proof.
  intros Em. rewrite Happ. assert (Man_Labels m = managedAppLabels app) as El.
  { unfold ManifestForApp in Em. rewrite Hcfg, Happ in Em.
    repeat match type of Em with
    | mbind _ ?x = Ok _ => destruct x; simpl in Em; [|discriminate Em]
    | (if ?b then _ else _) = Ok _ => destruct b; [discriminate Em|]
    end. by injection Em as <-. }
  apply apply_owned_app; try done; intros rv; unfold owner; simpl; rewrite El; apply managed_owner.
Qed.

(** *** The Deployment *)

Lemma owned_update_deployment P d x : (forall k, P k -> witnessed (ODeployment x) k) -> om_Name (d_Meta d) = om_Name (d_Meta x) ->
  om_ResourceVersion (d_Meta d) = om_ResourceVersion (d_Meta x) -> owner (ODeployment x) = app -> owner (ODeployment d) = app ->
  G P (deployments_Update d).
Proof. intros Hx En Ev Ox Od. apply given_typed. by apply update_owned with (x := ODeployment x). Qed.

Lemma deployment_updated g d k x k' : cluster_wf k -> map_err g (deployments_Update d) k = (Ok x, k') ->
  witnessed (ODeployment x) k' /\ owner (ODeployment x) = owner (ODeployment d) /\ om_Annotations (d_Meta x) = om_Annotations (d_Meta d) /\
  om_Name (d_Meta x) = om_Name (d_Meta d).
Proof.
  intros Hw E. unfold map_err in E. destruct (deployments_Update d k) as [[y|e] k1] eqn:Eu; [|discriminate]. injection E as -> ->.
  unfold deployments_Update, typed in Eu. apply st_bind_ok in Eu as (o & k2 & Eu & Ea).
  destruct (update_returns _ _ _ _ Hw Eu) as [Ha Hin]. destruct o; try discriminate. injection Ea as -> ->.
  split; [done|]. split; [by eapply owner_admitted|]. destruct Ha as (_ & En & _ & Ean & _). done.
Qed.

Lemma wait_within kd' n' (R' : hist -> option object -> Prop) polls x g : (forall h o, others kd' n' h o -> R' h o) ->
  within kd' n' R' (waitForDeploymentRollout polls x g).
Proof. intros HR'. induction polls; cbn [waitForDeploymentRollout]; unfold deployments_Get; by walk HR'. Qed.

Lemma rollout_reads polls x g w : reads (has_value as_deployment KDeployment x) (map_err w (waitForDeploymentRollout polls x g)).
Proof.
  intros k b k' Hw E. unfold map_err in E. destruct (waitForDeploymentRollout polls x g k) as [[y|e] k1] eqn:Ew; [|discriminate]. injection E as -> ->.
  revert k Hw Ew. induction polls as [|polls IH]; intros k Hw E; [discriminate|]. cbn [waitForDeploymentRollout] in E.
  apply st_bind_ok in E as (d & k2 & Ed & E). destruct (rolled_out g d).
  - injection E as -> ->. by eapply (reads_typed as_deployment).
  - eapply IH; [|exact E]. assert (within KDeployment x anything (deployments_Get x)) as Wd by (unfold deployments_Get; walk (anyone KDeployment x)).
    by destruct (Wd _ _ _ Hw Ed).
Qed.

Lemma rollout_stays polls x g w o k r k' : cluster_wf k -> map_err w (waitForDeploymentRollout polls x g) k = (r, k') -> witnessed o k -> witnessed o k'.
Proof.
  intros Hw E Hin. eapply stays; [|exact Hw|exact E|exact Hin]. apply within_map_err, wait_within, anyone.
Qed.

(** The last update of the migration: the Deployment read after the rollout is replaced. *)
Lemma owned_finalize P u d x : (forall k, P k -> witnessed (ODeployment x) k /\ witnessed (ODeployment u) k) -> migrating app (ODeployment u) ->
  om_Name (d_Meta u) = om_Name (d_Meta d) -> om_Name (d_Meta x) = om_Name (d_Meta d) -> owner (ODeployment d) = app ->
  G P (deployments_Update (at_version (om_ResourceVersion (d_Meta x)) d)).
Proof.
  intros Hx Hu En Ex Od. apply given_typed. eapply (given_update _ _ _ HA) with (x := ODeployment x); [by intros k [? _]%Hx|done|done|done|].
  intros Eq k h o' Hp Hs Hc Ha _. right; left. destruct (Hx _ Hp) as [_ Hin]. injection Eq as Ek Ekn.
  eapply OwnedMigrate; [exact Hc| |exact Hu|done|by rewrite (owner_admitted _ _ _ Ha)].
  unfold witnessed in Hin. rewrite Ek, Ekn in Hs. change (name_of (ODeployment u)) with (om_Name (d_Meta u)) in Hin. rewrite En in Hin.
  destruct Hs as [e ->]. apply elem_of_app. by right.
Qed.

Lemma owned_migrate P polls e d : (forall k, P k -> witnessed (ODeployment e) k) -> owner (ODeployment e) = app -> owner (ODeployment d) = app ->
  om_Name (d_Meta e) = om_Name (d_Meta d) -> G P (migrateLegacyAffinity polls e d).
Proof.
  intros He Oe Od En. unfold migrateLegacyAffinity.
  eapply (given_bind _ _ _ _ (fun e1 k => witnessed (ODeployment e1) k /\ owner (ODeployment e1) = app /\ om_Name (d_Meta e1) = om_Name (d_Meta d))).
  - destruct (annotated _ _ _); [apply given_within, within_ret|]. apply given_map_err. by eapply owned_update_deployment with (x := e).
  - intros k e1 k' Hw Hp E. destruct (annotated _ _ _).
    + injection E as -> ->. split; [by apply He|done].
    + destruct (deployment_updated _ _ _ _ _ Hw E) as (? & Eo & _ & Enm). split; [done|]. split; [by rewrite Eo|by rewrite Enm].
  - intros e1. eapply (given_bind _ _ _ _ (fun u k => witnessed (ODeployment u) k /\ migrating app (ODeployment u) /\ om_Name (d_Meta u) = om_Name (d_Meta d))).
    + apply given_map_err. intros k r k' Hw (Hin & Oe1 & Ne1) E.
      assert (Gd : G (witnessed (ODeployment e1)) (deployments_Update (at_version (om_ResourceVersion (d_Meta e1)) (bridge d)))).
      { by apply owned_update_deployment with (x := e1). }
      exact (Gd _ _ _ Hw Hin E).
    + intros k u k' Hw _ E. destruct (deployment_updated _ _ _ _ _ Hw E) as (? & Eo & Ea & Enm). split; [done|]. split; [|done].
      exists u. split; [done|]. split; [by rewrite Eo|]. unfold annotated. rewrite Ea. unfold map_get. simpl. by rewrite lookup_insert_eq.
    + intros u. eapply (given_bind _ _ _ _ (fun l k => witnessed (ODeployment l) k /\ witnessed (ODeployment u) k /\ migrating app (ODeployment u) /\
        om_Name (d_Meta u) = om_Name (d_Meta d) /\ om_Name (d_Meta l) = om_Name (d_Meta d))).
      * apply given_within, within_map_err, wait_within, HA.
      * intros k l k' Hw (Hin & Hm & Nu) E. destruct (rollout_reads _ _ _ _ _ _ _ Hw E) as (o & (Eo & _ & Ex) & Ho). destruct o; try discriminate.
        injection Eo as ->. change (om_Name (d_Meta l) = om_Name (d_Meta u)) in Ex. split; [done|]. split; [by eapply rollout_stays|]. split; [done|]. split; [done|congruence].
      * intros l. apply given_then; [|apply within_ret]. apply given_map_err. intros k r k' Hw (Hl & Hu & Hm & Nu & Nl) E.
        assert (Gd : G (fun k => witnessed (ODeployment l) k /\ witnessed (ODeployment u) k)
          (deployments_Update (at_version (om_ResourceVersion (d_Meta l)) d))) by (by apply owned_finalize with (u := u)).
        exact (Gd _ _ _ Hw (conj Hl Hu) E).
Qed.

Lemma owned_deployment polls rev pull : W (reconcileDeployment namespace polls cfg rev pull).
Proof.
  unfold reconcileDeployment. apply within_bind_lift. intros d Ed. destruct (deploymentForApp_meta _ _ _ _ Ed) as (En & _ & _ & _ & El & _).
  set (desired := if String.eqb pull "" then d else _).
  assert (Ed' : d_Meta desired = d_Meta d) by (unfold desired; by cases). clearbody desired. cbv zeta.
  assert (Od : owner (ODeployment desired) = app) by (unfold owner; simpl; rewrite Ed', El, trimmed; apply managed_owner).
  unfold deployments_Get. apply (after_find (has_value as_deployment KDeployment (om_Name (d_Meta desired)))); [walk HA|apply reads_typed| |].
  - unfold deployments_Create. walk HA. by apply create_owned.
  - intros o e (Eo & Ek & Ee). destruct o; try discriminate. injection Eo as ->. apply given_bind_lift. intros [] Hown.
    assert (Oe : owner (ODeployment e) = app) by (rewrite <- Happ; by eapply (ownership_owner "Deployment" (om_Name (d_Meta e)))).
    destruct (needsLegacyAffinityMigration e desired); [by apply owned_migrate|].
    apply given_then; [|apply within_ret]. apply given_map_err. by apply owned_update_deployment with (x := e).
Qed.

Lemma owned_reject : W (rejectLegacyCandidateMutation app).
Proof. unfold rejectLegacyCandidateMutation, Get, services_Get, cluster_services, services_get. walk HA. Qed.

Lemma database_admitted ports o o' : admits ports o o' -> database_for o' = database_for o.
Proof. intros (_ & _ & El & _). unfold database_for. by rewrite El. Qed.

Lemma rendered_for desired : postgresClusterForApp namespace cfg = Some desired -> map_get (om_Labels (cu_Meta desired)) databaseForLabel = app.
Proof.
  unfold postgresClusterForApp. rewrite Hcfg, Happ. destruct (Database_Postgres _); [|done]. intros [= <-]. unfold map_get. simpl.
  rewrite !lookup_insert_ne by done. by rewrite lookup_insert_eq.
Qed.

(** The Cluster of the app's database: created for the app, or replaced where it is the app's. *)
Lemma owned_postgres : W (reconcilePostgres namespace cfg).
Proof.
  destruct (decide (kd = KDatabase)) as [Ek|Hne]; [|by apply (within_postgres _ _ _ _ HA)].
  unfold reconcilePostgres. rewrite Hcfg. destruct (Database_Postgres _) as [p|]; [|apply within_ret].
  destruct (postgresClusterForApp namespace cfg) as [desired|] eqn:Ed; [|apply within_ret]. cbv zeta. apply rendered_for in Ed. apply within_given.
  eapply (given_bind _ _ _ _ (fun x k => match x with Ok c => witnessed (ODatabase c) k | Err _ => True end)).
  - apply given_within, within_attempt. unfold databases_Get. walk HA.
  - intros k [c|e] k' Hw _ E; [|done]. unfold attempt in E. destruct (databases_Get _ k) as [x k1] eqn:Eg. injection E as -> ->.
    destruct (reads_typed as_custom _ _ _ _ _ Hw Eg) as (o & (Ea & Eo & _) & Hin). destruct o; try discriminate. by injection Ea as ->.
  - intros [c|e].
    + unfold updatePostgres. apply given_bind_lift. intros [] Ho. apply given_bind_map_lift. intros [] _. apply given_bind_map_lift. intros merged Em.
      apply given_then; [|apply within_ret]. apply given_map_err. unfold mergePostgresCluster in Em.
      destruct (copy_fields _ _ _) as [b|]; [|done]. cbn in Em. destruct (mergePostgresHBA b) as [b'|]; [|done]. injection Em as <-.
      apply (given_update _ _ _ HA) with (x := ODatabase c); [done|done|done|done|]. intros _ k h o' _ _ Hc Ha _. right; right.
      assert (Hold : database_for (ODatabase c) = app).
      { unfold requirePostgresClusterOwnership, check in Ho. rewrite Happ in Ho. unfold database_for.
        destruct (negb (String.eqb (map_get _ managedByLabel) _)); [done|]. cbn in Ho.
        destruct (String.eqb_spec (map_get (om_Labels (cu_Meta c)) databaseForLabel) app); [done|discriminate Ho]. }
      apply SharedDatabase; [done| |intros old E; rewrite Hc in E; by injection E as <-].
      rewrite (database_admitted _ _ _ Ha). unfold database_for, map_get in *. cbn in *.
      destruct (om_Labels (cu_Meta desired) !! databaseForLabel) as [v|] eqn:El; [by rewrite (lookup_union_Some_l _ _ _ _ El)|].
      by rewrite lookup_union_r.
    + apply given_within. unfold createPostgres.
      repeat first [apply (within_generated _ _ _ HA) | apply (within_postgresCapacity _ _ _ HA)
        | match goal with |- within _ _ _ (k_create _) => apply (within_create _ _ _ HA) end | walk_step HA].
      intros _ h o' Hc Ha. right; right. apply SharedDatabase; [done| |intros old E; by rewrite Hc in E].
      rewrite (database_admitted _ _ _ Ha). exact Ed.
Qed.

Lemma owned_appResources polls v rev c : W (reconcileAppResources namespace polls cfg v rev c).
Proof.
  unfold reconcileAppResources, reconcileNamespace.
  repeat first [apply owned_policy | apply owned_secret | apply owned_registry | apply owned_deployment | apply owned_budget | apply owned_traffic
    | apply owned_service | apply owned_postgres | apply create_namespace | walk_step HA].
Qed.

Lemma owned_preflight cfg' : W (PreflightHosting namespace tls cfg').
Proof. unfold PreflightHosting, preflightRetainedStorage, preflightHostingCapacity, preflightRetainedStorageMount, nodes_List, deployments_List, pods_List. walk HA. Qed.

Lemma owned_issuer : W (ensureIssuer tls).
Proof. unfold ensureIssuer. repeat first [apply create_issuer | apply update_issuer | walk_step HA]. Qed.

Lemma owned_reconcile polls v rev c : W (ReconcileWithRegistry namespace tls polls cfg v rev c).
Proof.
  unfold ReconcileWithRegistry, ensureSchedulableWorker, nodes_List. rewrite ?Happ.
  repeat first [apply owned_preflight | apply owned_reject | apply owned_appResources | apply owned_issuer | by apply delete_owned_app
    | rewrite <- Happ; apply owned_ingress; congruence | walk_step HA].
Qed.

Lemma owned_delete name : TrimSpace name = app -> W (Delete name).
Proof.
  intros Ht. unfold Delete. rewrite Ht.
  repeat first [apply owned_reject | apply owned_deletePolicy | apply owned_deleteService | apply owned_traffic_delete | apply owned_deleteRegistry
    | apply owned_deleteEnvironment | by apply delete_owned_app | walk_step HA].
Qed.
End writes.

(** ** The theorem *)

Section theorem.
Context `{KubeTypes} `{!KubePorts} `{KubeRest} `{!Unstructured} `{!ErrorDetails} {K : Type} `{!Cluster K} (namespace : string) (tls : TLSConfig).

Inductive app_call :=
| AReconcile (polls : nat) (cfg : Config) (values : gmap string string) (revision : string) (credential : option Credential)
| ADelete (app : string).

Definition run_app_call (c : app_call) : ST K unit :=
  match c with
  | AReconcile polls cfg values revision credential => ReconcileWithRegistry namespace tls polls cfg values revision credential
  | ADelete app => Delete app
  end.

(** Configurations as the server stores them: names, labels and fields without
    surrounding blanks and with their defaults. *)
Definition canonical_call (c : app_call) : Prop := match c with AReconcile _ cfg _ _ _ => Normalize cfg = cfg | ADelete _ => True end.
Definition app_of (c : app_call) : string := match c with AReconcile _ cfg _ _ _ => Cfg_Name cfg | ADelete app => TrimSpace app end.

End theorem.
