(* ===== verification/PostgresProps.v ===== *)
(** * What the controller does to managed databases

    The fields of a Cluster that the controller writes, and why an existing
    database keeps its data: the merge leaves every field of another owner alone,
    and the settings that decide where the data lives do not change. *)

From S2P Require Import Prelude GoStrings Regexp GoJson Appconfig AppconfigSpec DatabaseStatus Db Activation Security Candidate CandidateOps Workloads Cluster Resources Capacity CandidateControl NodeRegistry Postgres KubeNodes Controller ControlLogic Ownership.
From Stdlib Require Import Ascii String.
Local Open Scope Z_scope.

Ltac diverges := split; intros [? [=]].

(** Take a successful sequence of checks apart. *)
Ltac result_step E :=
  match type of E with
  | mbind _ (check _ _) = Ok _ => apply check_bind in E as [? E]
  | mbind _ ?m = Ok _ => destruct m eqn:?; [cbn [mbind result_bind] in E|discriminate E]
  | check _ _ = Ok _ => apply check_ok in E
  end.

(** ** Copying fields *)

Section copy.
Context `{!Unstructured}.

Lemma diverge_below p q r : diverge p q -> diverge p (q ++ r).
Proof.
  intros [Hp Hq]. split; intros Hpr; [|apply Hq; etrans; [|exact Hpr]; by apply prefix_app_r].
  destruct (prefix_weak_total p q (q ++ r)); [done|by apply prefix_app_r|done|done].
Qed.

Lemma copy_inv source p target t' : copyPostgresField source p target = Ok t' ->
  exists v, NestedField source p = Ok (Some v) /\ SetNestedField target p v = Ok t'.
Proof. unfold copyPostgresField. destruct (NestedField source p) as [[v|]|]; try discriminate. destruct (SetNestedField target p v) eqn:E; [intros [= ->]; eauto|discriminate]. Qed.

Lemma copy_fields_cons source p ps target t' : copy_fields source (p :: ps) target = Ok t' ->
  exists v t1, NestedField source p = Ok (Some v) /\ SetNestedField target p v = Ok t1 /\ copy_fields source ps t1 = Ok t'.
Proof.
  cbn [copy_fields]. destruct (copyPostgresField source p target) as [t1|] eqn:Ec; [|discriminate]. intros E.
  apply copy_inv in Ec as (v & ? & ?). eauto.
Qed.

(** Fields off the copied paths are as before. *)
Lemma copy_frame source ps target t' q : copy_fields source ps target = Ok t' -> Forall (fun p => diverge p q) ps ->
  NestedField t' q = NestedField target q.
Proof.
  revert target. induction ps as [|p ps IH]; intros target E Hd; [by injection E as ->|]. inversion_clear Hd.
  apply copy_fields_cons in E as (v & t1 & _ & Es & E). rewrite (IH _ E) by done. by eapply set_frame.
Qed.

(** A copied field, and what lies inside, comes from the source. *)
Lemma copy_found source ps target t' p : copy_fields source ps target = Ok t' -> ForallOrdPairs diverge ps -> p ∈ ps ->
  exists v, NestedField source p = Ok (Some v) /\ NestedField t' p = Ok (Some v) /\
    forall g q, NestedField t' (p ++ g :: q) = NestedField v (g :: q).
Proof.
  intros E Hd. revert target E. induction Hd as [|p0 ps Hp Hd IH]; intros target E Hin; [by apply elem_of_nil in Hin|].
  apply copy_fields_cons in E as (v & t1 & Ev & Es & E). apply elem_of_cons in Hin as [->|Hin]; [|by eapply IH].
  assert (Hback : forall r, Forall (fun p => diverge p (p0 ++ r)) ps).
  { intros r. eapply Forall_impl; [exact Hp|]. intros p' [? ?]. by apply diverge_below. }
  exists v. split; [done|]. split.
  - rewrite (copy_frame _ _ _ _ _ E); [by eapply set_found|]. specialize (Hback []). by rewrite app_nil_r in Hback.
  - intros g q. rewrite (copy_frame _ _ _ _ _ E) by done. by eapply set_inside.
Qed.

Lemma owned_apart : ForallOrdPairs diverge ownedFields.
Proof. repeat (constructor; [repeat (constructor; [diverges|]); constructor|]); constructor. Qed.

Lemma owned_not_hba : Forall (diverge p_hba) ownedFields.
Proof. repeat (constructor; [diverges|]); constructor. Qed.
End copy.

(** ** The merged Cluster *)

Section merge.
Context `{KubeTypes} `{!KubePorts} `{KubeRest} `{!Unstructured} `{!ErrorDetails} {K : Type} `{!Cluster K} (namespace : string).

Lemma merge_hba_inv c c' : mergePostgresHBA c = Ok c' -> exists found,
  NestedSlice c p_hba = Ok found /\
  let rule := postgresApplicationSCRAMHBA (nestedString c p_database) (nestedString c p_owner) in
  SetNestedField c p_hba (JArr (JStr postgresRejectNonTLSHBA :: JStr rule :: List.filter (fun r => negb (own_rule rule r)) (default [] found))) = Ok c'.
Proof.
  unfold mergePostgresHBA. destruct (NestedSlice c p_hba) as [found|]; [|discriminate]. simpl. cbv zeta.
  destruct (SetNestedField c p_hba _) eqn:E; [|discriminate]. intros [= ->]. eauto.
Qed.

Lemma merge_inv existing desired merged : mergePostgresCluster existing desired = Ok merged -> exists body,
  copy_fields (cu_Body desired) ownedFields (cu_Body existing) = Ok body /\ mergePostgresHBA body = Ok (cu_Body merged) /\
  om_Labels (cu_Meta merged) = om_Labels (cu_Meta desired) ∪ om_Labels (cu_Meta existing) /\
  om_Annotations (cu_Meta merged) = om_Annotations (cu_Meta existing) /\ om_Name (cu_Meta merged) = om_Name (cu_Meta existing) /\
  om_ResourceVersion (cu_Meta merged) = om_ResourceVersion (cu_Meta existing).
Proof.
  unfold mergePostgresCluster. destruct (copy_fields _ _ _) as [body|] eqn:Ec; [|discriminate]. simpl.
  destruct (mergePostgresHBA body) as [body'|] eqn:Eh; [|discriminate]. intros [= <-]. exists body. done.
Qed.

(** A field that every written path avoids. *)
Definition foreign (q : list string) : Prop := Forall (fun p => diverge p q) (p_hba :: ownedFields).

Lemma merge_foreign existing desired merged q : mergePostgresCluster existing desired = Ok merged -> foreign q ->
  NestedField (cu_Body merged) q = NestedField (cu_Body existing) q.
Proof.
  intros (body & Ec & (found & _ & Es)%merge_hba_inv & _)%merge_inv [Hh Ho]%Forall_cons.
  rewrite (set_frame _ _ _ _ _ Es Hh). by eapply copy_frame.
Qed.

Lemma merge_owned existing desired merged p v : mergePostgresCluster existing desired = Ok merged -> p ∈ ownedFields ->
  NestedField (cu_Body desired) p = Ok (Some v) ->
  NestedField (cu_Body merged) p = Ok (Some v) /\ forall g q, NestedField (cu_Body merged) (p ++ g :: q) = NestedField v (g :: q).
Proof.
  intros (body & Ec & (found & _ & Es)%merge_hba_inv & _)%merge_inv Hin Ev.
  destruct (copy_found _ _ _ _ _ Ec owned_apart Hin) as (v' & Ev' & Ef & Ei). rewrite Ev in Ev'. injection Ev' as <-.
  assert (Hd : diverge p_hba p) by (pose proof owned_not_hba as Hn; rewrite Forall_forall in Hn; by apply Hn).
  split; [by rewrite (set_frame _ _ _ _ _ Es)|]. intros g q. rewrite (set_frame _ _ _ _ _ Es); [done|]. by apply diverge_below.
Qed.

(** ** The settings of a database *)

Definition sync_settings (p : PostgresConfig) : list (string * json) :=
  [("method", JStr "any"); ("number", enc_int (PgSync_Replicas (Pg_Synchronous p)));
   ("dataDurability", JStr (PgSync_DataDurability (Pg_Synchronous p))); ("failoverQuorum", JBool true)].

Definition settings (cfg : Config) (p : PostgresConfig) : list (list string * json) :=
  [(p_instances, enc_int (Pg_Instances p)); (p_image, JStr (Pg_Image p)); (p_database, JStr (Pg_Database p)); (p_owner, JStr (Pg_Owner p));
   (p_checksums, JBool true); (p_antiAffinity, JBool true); (p_topology, JStr "kubernetes.io/hostname"); (p_antiAffinityType, JStr "required");
   (p_arch, JStr (placementArchitecture (Placement_Arch (Cfg_Placement cfg)))); (p_size, JStr (PgStorage_Size (Pg_Storage p)));
   (p_class, JStr (PgStorage_StorageClass (Pg_Storage p))); (p_encryption, JStr postgresSCRAMEncryption); (p_synchronous, JObj (sync_settings p))].

(** The object carries the settings of the configuration. *)
Record configured (cfg : Config) (p : PostgresConfig) (c : custom) : Prop := {
  cf_settings : Forall (fun fv => NestedField (cu_Body c) fv.1 = Ok (Some fv.2)) (settings cfg p);
  cf_sync : Forall (fun fv => NestedField (cu_Body c) (p_synchronous ++ [fv.1]) = Ok (Some fv.2)) (sync_settings p);
  cf_managed : om_Labels (cu_Meta c) !! managedByLabel = Some managedByDeployer;
  cf_app : om_Labels (cu_Meta c) !! databaseForLabel = Some (Cfg_Name cfg);
  cf_retention : om_Labels (cu_Meta c) !! retentionPolicyLabel = Some (Pg_RetentionPolicy p)
}.

(** Configurations as the server stores them. *)
Definition stored_database (cfg : Config) (p : PostgresConfig) : Prop :=
  Normalize cfg = cfg /\ Validate cfg = Ok tt /\ Database_Postgres (Cfg_Database cfg) = Some p.

Lemma stored_valid cfg p : stored_database cfg p -> valid_postgres (Cfg_Name cfg) (Placement_Arch (Cfg_Placement cfg)) (Cfg_Secrets cfg) p.
Proof. intros (_ & Hv%Validate_valid_config & Hp). pose proof (vc_postgres _ Hv) as Hq. by rewrite Hp in Hq. Qed.

Ltac nested :=
  unfold fst, snd, cu_Body;
  match goal with |- NestedField ?j ?p = ?r => let p' := eval cbv in p in change (NestedField j p' = r) end;
  repeat (erewrite nested_inside by reflexivity; unfold snd); rewrite nested_member; reflexivity.

Lemma rendered_configured cfg p desired : stored_database cfg p -> postgresClusterForApp namespace cfg = Some desired -> configured cfg p desired.
Proof.
  intros Hs Ed. pose proof (stored_valid _ _ Hs) as Hv. destruct Hs as (Hn & _ & Hp). unfold postgresClusterForApp in Ed. rewrite Hn, Hp in Ed.
  cbn [mbind option_bind] in Ed. cbv zeta in Ed. destruct (String.eqb_spec (PgStorage_StorageClass (Pg_Storage p)) "") as [Hc|_]; [exfalso; unfold valid_postgres in Hv; tauto|]. injection Ed as <-. split.
  - repeat (constructor; [nested|]). constructor.
  - repeat (constructor; [nested|]). constructor.
  - done.
  - done.
  - done.
Qed.

Lemma merge_configured cfg p desired existing merged : configured cfg p desired -> mergePostgresCluster existing desired = Ok merged ->
  configured cfg p merged.
Proof.
  intros [Cs Cy Cm Ca Cr] E. destruct (merge_inv _ _ _ E) as (_ & _ & _ & El & _).
  split; try (rewrite El; by apply lookup_union_Some_l).
  - apply Forall_lookup_2. intros i fv Hi. destruct (merge_owned _ _ _ fv.1 fv.2 E) as [Hm _]; [|by apply (Forall_lookup_1 _ _ _ _ Cs Hi)|done].
    apply list_elem_of_lookup_2 with i. change ownedFields with (fst <$> settings cfg p). by rewrite list_lookup_fmap, Hi.
  - destruct (merge_owned _ _ _ p_synchronous (JObj (sync_settings p)) E) as [_ Hi];
      [by apply list_elem_of_lookup_2 with 12%nat|exact (Forall_lookup_1 _ _ 12%nat _ Cs eq_refl)|].
    repeat (constructor; [unfold fst, snd; rewrite Hi; rewrite nested_member; reflexivity|]). constructor.
Qed.

(** ** What is read of it *)

Lemma read_string j q t : NestedField j q = Ok (Some (JStr t)) -> nestedString j q = t.
Proof. intros E%string_found. unfold nestedString. by rewrite E. Qed.
Lemma read_int j q z : NestedField j q = Ok (Some (enc_int z)) -> - 2 ^ 63 <= z < 2 ^ 63 -> nestedInt64 j q = z.
Proof. intros E Hz. unfold nestedInt64. by rewrite (proj2 (int_found j q z) (conj E Hz)). Qed.
Lemma read_bool j q b : NestedField j q = Ok (Some (JBool b)) -> NestedBool j q = Ok (Some b).
Proof. apply bool_found. Qed.
Lemma read_nested_bool j q b : NestedField j q = Ok (Some (JBool b)) -> nestedBool j q = b.
Proof. intros E%read_bool. unfold nestedBool. by rewrite E. Qed.

Section reads.
Context (cfg : Config) (p : PostgresConfig) (Hs : stored_database cfg p) (c : custom) (Hc : configured cfg p c).
Let body := cu_Body c.

Lemma setting i fv : settings cfg p !! i = Some fv -> NestedField body fv.1 = Ok (Some fv.2).
Proof. exact (Forall_lookup_1 _ _ _ _ (cf_settings _ _ _ Hc)). Qed.
Lemma sync_setting i fv : sync_settings p !! i = Some fv -> NestedField body (p_synchronous ++ [fv.1]) = Ok (Some fv.2).
Proof. exact (Forall_lookup_1 _ _ _ _ (cf_sync _ _ _ Hc)). Qed.

Lemma small_counts : - 2 ^ 63 <= Pg_Instances p < 2 ^ 63 /\ - 2 ^ 63 <= PgSync_Replicas (Pg_Synchronous p) < 2 ^ 63.
Proof. pose proof (stored_valid _ _ Hs) as Hv. unfold valid_postgres in Hv. destruct_and! Hv. lia. Qed.

Lemma read_settings :
  nestedInt64 body p_instances = Pg_Instances p /\ nestedString body p_image = Pg_Image p /\ nestedString body p_database = Pg_Database p /\
  nestedString body p_owner = Pg_Owner p /\ NestedBool body p_checksums = Ok (Some true) /\ nestedBool body p_antiAffinity = true /\
  nestedString body p_topology = "kubernetes.io/hostname" /\ nestedString body p_antiAffinityType = "required" /\
  nestedString body p_arch = placementArchitecture (Placement_Arch (Cfg_Placement cfg)) /\
  nestedString body p_size = PgStorage_Size (Pg_Storage p) /\ nestedString body p_class = PgStorage_StorageClass (Pg_Storage p) /\
  nestedString body p_encryption = postgresSCRAMEncryption /\ nestedString body (p_synchronous ++ ["method"]) = "any" /\
  nestedInt64 body p_number = PgSync_Replicas (Pg_Synchronous p) /\ nestedString body p_durability = PgSync_DataDurability (Pg_Synchronous p) /\
  nestedBool body (p_synchronous ++ ["failoverQuorum"]) = true.
Proof.
  destruct small_counts as [R1 R2]. split_and!;
    [exact (read_int _ _ _ (setting 0 _ eq_refl) R1)|exact (read_string _ _ _ (setting 1 _ eq_refl))|exact (read_string _ _ _ (setting 2 _ eq_refl))
    |exact (read_string _ _ _ (setting 3 _ eq_refl))|exact (read_bool _ _ _ (setting 4 _ eq_refl))|exact (read_nested_bool _ _ _ (setting 5 _ eq_refl))
    |exact (read_string _ _ _ (setting 6 _ eq_refl))|exact (read_string _ _ _ (setting 7 _ eq_refl))|exact (read_string _ _ _ (setting 8 _ eq_refl))
    |exact (read_string _ _ _ (setting 9 _ eq_refl))|exact (read_string _ _ _ (setting 10 _ eq_refl))|exact (read_string _ _ _ (setting 11 _ eq_refl))
    |exact (read_string _ _ _ (sync_setting 0 _ eq_refl))|exact (read_int _ _ _ (sync_setting 1 _ eq_refl) R2)
    |exact (read_string _ _ _ (sync_setting 2 _ eq_refl))|exact (read_nested_bool _ _ _ (sync_setting 3 _ eq_refl))].
Qed.
End reads.

(** ** The access rules *)

Definition own_rules (p : PostgresConfig) : list string :=
  [postgresRejectNonTLSHBA; postgresApplicationSCRAMHBA (Pg_Database p) (Pg_Owner p)].
Definition guarded (p : PostgresConfig) (c : custom) : Prop :=
  exists rest, NestedField (cu_Body c) p_hba = Ok (Some (JArr (JStr <$> (own_rules p ++ rest)))).
(** Rules of other owners are texts. *)
Definition text_rules (c : custom) : Prop :=
  NestedField (cu_Body c) p_hba = Ok None \/ exists l, NestedField (cu_Body c) p_hba = Ok (Some (JArr (JStr <$> l))).

Lemma rendered_guarded cfg p desired : stored_database cfg p -> postgresClusterForApp namespace cfg = Some desired -> guarded p desired.
Proof.
  intros (Hn & _ & Hp) Ed. unfold postgresClusterForApp in Ed. rewrite Hn, Hp in Ed. cbn [mbind option_bind] in Ed. injection Ed as <-.
  exists []. nested.
Qed.

Lemma filter_texts (f : json -> bool) l : List.filter f (JStr <$> l) = JStr <$> List.filter (fun t => f (JStr t)) l.
Proof. induction l as [|t l IH]; [done|]. rewrite fmap_cons. cbn [List.filter]. destruct (f (JStr t)); rewrite ?fmap_cons; by rewrite IH. Qed.

(** The rules after a merge: those of the controller first, then the others in their order. *)
Lemma merge_rules cfg p desired existing merged : stored_database cfg p -> configured cfg p desired -> mergePostgresCluster existing desired = Ok merged ->
  exists found, NestedSlice (cu_Body existing) p_hba = Ok found /\
    NestedField (cu_Body merged) p_hba = Ok (Some (JArr ((JStr <$> own_rules p) ++
      List.filter (fun r => negb (own_rule (postgresApplicationSCRAMHBA (Pg_Database p) (Pg_Owner p)) r)) (default [] found)))).
Proof.
  intros Hs Hd E. destruct (merge_inv _ _ _ E) as (body & Ec & (found & Ef & Es)%merge_hba_inv & _). cbv zeta in Es.
  assert (Hcopy : forall i fv, settings cfg p !! i = Some fv -> NestedField body fv.1 = Ok (Some fv.2)).
  { intros i fv Hi. destruct (copy_found _ _ _ _ fv.1 Ec owned_apart) as (v & Ev & Ef' & _).
    - apply list_elem_of_lookup_2 with i. change ownedFields with (fst <$> settings cfg p). by rewrite list_lookup_fmap, Hi.
    - rewrite (Forall_lookup_1 _ _ _ _ (cf_settings _ _ _ Hd) Hi) in Ev. by injection Ev as <-. }
  rewrite (read_string _ p_database _ (Hcopy 2%nat _ eq_refl)), (read_string _ p_owner _ (Hcopy 3%nat _ eq_refl)) in Es.
  exists found. split; [|by eapply set_found].
  assert (Hsame : NestedField body p_hba = NestedField (cu_Body existing) p_hba).
  { eapply copy_frame; [exact Ec|]. eapply Forall_impl; [exact owned_not_hba|]. intros q [? ?]. by split. }
  destruct found as [l|]; [apply slice_found in Ef; apply slice_found|apply slice_missing in Ef; apply slice_missing]; congruence.
Qed.

Lemma merge_guarded cfg p desired existing merged : stored_database cfg p -> configured cfg p desired -> mergePostgresCluster existing desired = Ok merged ->
  text_rules existing -> guarded p merged.
Proof.
  intros Hs Hd E Ht. destruct (merge_rules _ _ _ _ _ Hs Hd E) as (found & Ef & Em). unfold guarded.
  assert (exists l, default [] found = JStr <$> l) as [l El].
  { destruct Ht as [Hn|[l Hl]].
    - apply slice_missing in Hn. rewrite Hn in Ef. injection Ef as <-. by exists [].
    - apply slice_found in Hl. rewrite Hl in Ef. injection Ef as <-. by exists l. }
  rewrite El, filter_texts in Em. eexists. by rewrite fmap_app.
Qed.

(** ** Conformance *)

Lemma Cmp_same q : Quantity_Cmp q q = 0.
Proof. rewrite Cmp_nanos. by rewrite Z.sub_diag. Qed.

Lemma valid_architecture a : a ∈ ["linux/amd64"; "linux/arm64"] -> placementArchitecture a = postgresArchitecture a.
Proof. rewrite !elem_of_cons. intros [->|[->|[]%elem_of_nil]]; reflexivity. Qed.

Lemma map_get_some (m : gmap string string) k v : m !! k = Some v -> map_get m k = v.
Proof. unfold map_get. by intros ->. Qed.

Lemma guarded_reads p c : guarded p c -> exists rest, nestedStringSlice (cu_Body c) p_hba = (own_rules p ++ rest)%list.
Proof. intros (rest & Er%strings_found). exists rest. unfold nestedStringSlice. by rewrite Er. Qed.

Lemma configured_owned cfg p c : configured cfg p c -> requirePostgresClusterOwnership c cfg p = Ok tt.
Proof.
  intros Hc. unfold requirePostgresClusterOwnership.
  rewrite (map_get_some _ _ _ (cf_managed _ _ _ Hc)), (map_get_some _ _ _ (cf_app _ _ _ Hc)), (map_get_some _ _ _ (cf_retention _ _ _ Hc)).
  by rewrite !String.eqb_refl.
Qed.

Lemma configured_accepted cfg p c d : stored_database cfg p -> configured cfg p c -> configured cfg p d ->
  validatePostgresUpdate (cu_Body c) (cu_Body d) = Ok tt.
Proof.
  intros Hs Hc Hd. pose proof (read_settings _ _ Hs _ Hc) as Rc. pose proof (read_settings _ _ Hs _ Hd) as Rd. destruct_and! Rc. destruct_and! Rd.
  pose proof (stored_valid _ _ Hs) as Hv. unfold valid_postgres in Hv. destruct_and! Hv.
  match goal with Hq : exists q, ParseQuantity _ = Some q /\ _ |- _ => destruct Hq as (q & Eq & _) end.
  unfold validatePostgresUpdate, immutableFields, check_immutable, read_checksums, parse_size.
  repeat match goal with E : nestedString _ _ = _ |- _ => rewrite !E; clear E | E : nestedInt64 _ _ = _ |- _ => rewrite !E; clear E
    | E : NestedBool _ _ = _ |- _ => rewrite !E; clear E end.
  rewrite !Eq, !String.eqb_refl, !Z.eqb_refl. simpl. by rewrite Cmp_same.
Qed.

Lemma configured_conforms cfg p c : stored_database cfg p -> configured cfg p c -> guarded p c ->
  clusterWarnings cfg p (cluster_status (Cfg_Name cfg) c) (wrap_i32 (Pg_Instances p)) = [].
Proof.
  intros Hs Hc [rest Er]%guarded_reads. pose proof (read_settings _ _ Hs _ Hc) as Rc. destruct_and! Rc.
  pose proof (stored_valid _ _ Hs) as Hv. unfold valid_postgres in Hv. destruct_and! Hv.
  match goal with Hq : exists q, ParseQuantity _ = Some q /\ _ |- _ => destruct Hq as (q & Eq & _) end.
  assert (Ht : TrimSpace (PgStorage_Size (Pg_Storage p)) = PgStorage_Size (Pg_Storage p)).
  { destruct Hs as (Hn & _ & Hp). rewrite <- Hn in Hp. simpl in Hp. unfold Database_normalize in Hp. simpl in Hp.
    destruct (Database_Postgres (Cfg_Database cfg)); [|done]. injection Hp as <-. apply TrimSpace_idemp. }
  assert (Hk : nestedBool (cu_Body c) p_checksums = true) by (unfold nestedBool; by match goal with E : NestedBool _ _ = _ |- _ => rewrite E end).
  apply clusterWarnings_none. unfold cluster_status. cbv zeta.
  rewrite (map_get_some _ _ _ (cf_managed _ _ _ Hc)), (map_get_some _ _ _ (cf_app _ _ _ Hc)), (map_get_some _ _ _ (cf_retention _ _ _ Hc)), Er.
  repeat match goal with E : nestedString _ _ = _ |- _ => rewrite !E; clear E | E : nestedInt64 _ _ = _ |- _ => rewrite !E; clear E
    | E : nestedBool _ _ = _ |- _ => rewrite !E; clear E end.
  unfold own_rules. cbn [app]. rewrite valid_architecture by done. rewrite !String.eqb_refl.
  unfold as_configured, DatabaseStatus.resilient.
  cbn [DS_OwnedByDeployer DS_Image DS_BootstrapDatabase DS_BootstrapOwner DS_DataChecksumsEnabled DS_StorageSize DS_StorageClass DS_DesiredInstances
    DS_SynchronousMethod DS_SynchronousReplicas DS_DataDurability DS_FailoverQuorumEnabled DS_AntiAffinityType DS_TopologyKey DS_Architecture
    DS_PasswordEncryption DS_RejectsNonTLS DS_RequiresApplicationSCRAM].
  assert (Ha : TrimSpace (postgresArchitecture (Placement_Arch (Cfg_Placement cfg))) = postgresArchitecture (Placement_Arch (Cfg_Placement cfg))).
  { match goal with Hin : Placement_Arch _ ∈ _ |- _ => clear - Hin; rewrite !elem_of_cons in Hin; destruct Hin as [->|[->|[]%elem_of_nil]]; reflexivity end. }
  unfold EqualFold. rewrite Ha, Ht. split; split_and!; try reflexivity; try apply String.eqb_refl.
  - by match goal with E : Pg_RetentionPolicy p = _ |- _ => rewrite E end.
  - exists q, q. auto using Cmp_same.
Qed.

(** What the controller writes for a managed database conforms.  The rendered
    Cluster, and any Cluster it is merged into, is reported without a warning about
    its specification, belongs to the app, and is accepted by the next deployment of
    the same configuration. *)
Theorem written_conforms cfg p desired existing merged c :
  stored_database cfg p -> postgresClusterForApp namespace cfg = Some desired ->
  c = desired \/ (mergePostgresCluster existing desired = Ok merged /\ text_rules existing /\ c = merged) ->
  clusterWarnings cfg p (cluster_status (Cfg_Name cfg) c) (wrap_i32 (Pg_Instances p)) = [] /\
  requirePostgresClusterOwnership c cfg p = Ok tt /\ validatePostgresUpdate (cu_Body c) (cu_Body desired) = Ok tt.
Proof.
  intros Hs Ed Hc. pose proof (rendered_configured _ _ _ Hs Ed) as Cd. pose proof (rendered_guarded _ _ _ Hs Ed) as Gd.
  assert (configured cfg p c /\ guarded p c) as [Cc Gc].
  { destruct Hc as [->|(E & Ht & ->)]; [done|]. split; [by eapply merge_configured|by eapply merge_guarded]. }
  split; [by apply configured_conforms|]. split; [by apply configured_owned|by eapply configured_accepted].
Qed.

(** ** The data of an existing database is kept *)

(** What a replacement of a Cluster leaves as it was: everything that decides where its
    data is and how it is replicated, every field that the controller does not write, and
    every access rule of others behind its own. *)
Record keeps_data (p : PostgresConfig) (old new : json) : Prop := {
  kept_image : nestedString new p_image = nestedString old p_image;
  kept_instances : nestedInt64 new p_instances = nestedInt64 old p_instances;
  kept_placement : nestedString new p_arch = nestedString old p_arch;
  kept_bootstrap : nestedString new p_database = nestedString old p_database /\ nestedString new p_owner = nestedString old p_owner;
  kept_class : nestedString new p_class = nestedString old p_class;
  kept_checksums : NestedBool new p_checksums = NestedBool old p_checksums;
  kept_size : exists a b, ParseQuantity (nestedString old p_size) = Some a /\ ParseQuantity (nestedString new p_size) = Some b /\ Quantity_Cmp b a = 0;
  kept_replication : nestedInt64 new p_number = nestedInt64 old p_number /\ nestedString new p_durability = nestedString old p_durability;
  kept_foreign : forall q, foreign q -> NestedField new q = NestedField old q;
  kept_rules : exists found, NestedSlice old p_hba = Ok found /\
    NestedField new p_hba = Ok (Some (JArr ((JStr <$> own_rules p) ++
      List.filter (fun r => negb (own_rule (postgresApplicationSCRAMHBA (Pg_Database p) (Pg_Owner p)) r)) (default [] found))))
}.

Lemma immutable_inv fields old new : check_immutable fields old new = Ok tt -> Forall (fun f => nestedString old f.2 = nestedString new f.2) fields.
Proof.
  induction fields as [|[name q] fields IH]; intros E; [constructor|]. cbn [check_immutable] in E.
  apply check_bind in E as [Hq%negb_false_iff%String.eqb_eq E]. constructor; auto.
Qed.

Lemma checksums_inv which j x : read_checksums which j = Ok x -> NestedBool j p_checksums = Ok x.
Proof. unfold read_checksums. destruct (NestedBool j p_checksums); [by intros [= ->]|discriminate]. Qed.

Lemma size_inv which t q : parse_size which t = Ok q -> ParseQuantity t = Some q.
Proof. unfold parse_size. destruct (ParseQuantity t); [by intros [= ->]|discriminate]. Qed.

Lemma validate_inv old new : validatePostgresUpdate old new = Ok tt ->
  nestedString old p_image = nestedString new p_image /\ nestedInt64 new p_instances = nestedInt64 old p_instances /\
  nestedString old p_arch = nestedString new p_arch /\ nestedString old p_database = nestedString new p_database /\
  nestedString old p_owner = nestedString new p_owner /\ nestedString old p_class = nestedString new p_class /\
  (exists b, NestedBool old p_checksums = Ok (Some b) /\ NestedBool new p_checksums = Ok (Some b)) /\
  (exists a b, ParseQuantity (nestedString old p_size) = Some a /\ ParseQuantity (nestedString new p_size) = Some b /\ Quantity_Cmp b a = 0) /\
  nestedInt64 old p_number = nestedInt64 new p_number /\ nestedString old p_durability = nestedString new p_durability.
Proof.
  unfold validatePostgresUpdate. intros E. repeat result_step E. rewrite negb_false_iff, ?String.eqb_eq, ?Z.eqb_eq in *.
  match goal with Hf : check_immutable _ _ _ = Ok ?u |- _ => destruct u; apply immutable_inv in Hf end.
  unfold immutableFields in *. repeat match goal with Hf : Forall _ (_ :: _) |- _ => apply Forall_cons in Hf as [? Hf] end.
  repeat match goal with Hr : read_checksums _ _ = Ok ?x |- _ => apply checksums_inv in Hr; destruct x; try discriminate end.
  repeat match goal with Hr : parse_size _ _ = Ok _ |- _ => apply size_inv in Hr end.
  match goal with Hb : Bool.eqb _ _ = true |- _ => apply Bool.eqb_prop in Hb as -> end. split_and!; eauto 7.
Qed.

Lemma merge_keeps cfg p desired existing merged : stored_database cfg p -> configured cfg p desired ->
  validatePostgresUpdate (cu_Body existing) (cu_Body desired) = Ok tt -> mergePostgresCluster existing desired = Ok merged ->
  keeps_data p (cu_Body existing) (cu_Body merged).
Proof.
  intros Hs Cd Ev Em. pose proof (merge_configured _ _ _ _ _ Cd Em) as Cm.
  pose proof (read_settings _ _ Hs _ Cd) as Rd. pose proof (read_settings _ _ Hs _ Cm) as Rm. destruct_and! Rd. destruct_and! Rm.
  apply validate_inv in Ev as (? & ? & ? & ? & ? & ? & (b & ? & ?) & (x & y & Ex & Ey & Ec) & ? & ?).
  split; try (split; congruence); try congruence.
  - exists x, y. split; [done|]. split; [congruence|done].
  - intros q Hq. by eapply merge_foreign.
  - exact (merge_rules cfg p desired existing merged Hs Cd Em).
Qed.

(** What may happen to the Cluster of an app: it is created as rendered, or the version
    that was read, owned by the app, is replaced by one that keeps its data. *)
Definition database_change (cfg : Config) (p : PostgresConfig) (n : string) (h : hist) (x : option object) : Prop :=
  n = Cfg_Name cfg +:+ postgresClusterSuffix /\
  exists w o, x = Some o /\ admits complete_ports (ODatabase w) o /\
    ((current h = None /\ postgresClusterForApp namespace cfg = Some w) \/
     (exists old, current h = Some (ODatabase old) /\ requirePostgresClusterOwnership old cfg p = Ok tt /\
        keeps_data p (cu_Body old) (cu_Body w) /\ configured cfg p w)).

Section run.
Context (cfg : Config) (p : PostgresConfig) (Hs : stored_database cfg p) (n : string).

Definition database_or_others (h : hist) (x : option object) : Prop := others KDatabase n h x \/ database_change cfg p n h x.
Lemma HD h x : others KDatabase n h x -> database_or_others h x.
Proof. by left. Qed.
Notation W := (within KDatabase n database_or_others).
Notation G := (given KDatabase n database_or_others).

Lemma rendered_name desired : postgresClusterForApp namespace cfg = Some desired -> om_Name (cu_Meta desired) = Cfg_Name cfg +:+ postgresClusterSuffix.
Proof. destruct Hs as (Hn & _ & Hp). unfold postgresClusterForApp. rewrite Hn, Hp. cbn [mbind option_bind]. by intros [= <-]. Qed.

Lemma create_within desired : postgresClusterForApp namespace cfg = Some desired -> W (createPostgres cfg p desired).
Proof.
  intros Ed. unfold createPostgres.
  repeat first [apply (within_generated _ _ _ HD) | apply (within_postgresCapacity _ _ _ HD)
    | match goal with |- within _ _ _ (k_create _) => apply (within_create _ _ _ HD) end | walk_step HD].
  intros Eq h o' Hc Ha. right. split; [injection Eq as ->; by apply rendered_name|]. exists desired, o'. auto.
Qed.

Lemma update_within desired existing : postgresClusterForApp namespace cfg = Some desired -> om_Name (cu_Meta existing) = om_Name (cu_Meta desired) ->
  G (witnessed (ODatabase existing)) (updatePostgres cfg p desired existing).
Proof.
  intros Ed En. pose proof (rendered_configured _ _ _ Hs Ed) as Cd. unfold updatePostgres. apply given_bind_lift. intros [] Ho.
  apply given_bind_map_lift. intros [] Ev. apply given_bind_map_lift. intros merged Em. apply given_then; [|apply within_ret]. apply given_map_err.
  destruct (merge_inv _ _ _ Em) as (_ & _ & _ & _ & _ & Enm & Ever).
  apply (given_update _ _ _ HD) with (x := ODatabase existing); [done|done|exact Enm|exact Ever|].
  intros Eq k h o' _ _ Hc Ha _. right. injection Eq as Eq. split; [rewrite Eq; change (om_Name (cu_Meta merged) = Cfg_Name cfg +:+ postgresClusterSuffix); rewrite Enm, En; by apply rendered_name|].
  exists merged, o'. split; [done|]. split; [done|]. right. exists existing. split; [done|]. split; [done|].
  split; [by eapply merge_keeps|by eapply merge_configured].
Qed.
End run.

Lemma reconcile_database cfg p n : stored_database cfg p -> within KDatabase n (database_or_others cfg p n) (reconcilePostgres namespace cfg).
Proof.
  intros Hs. pose proof Hs as (Hn & _ & Hp). unfold reconcilePostgres. rewrite Hn, Hp.
  destruct (postgresClusterForApp namespace cfg) as [desired|] eqn:Ed; [|apply within_ret]. cbv zeta. apply within_given.
  eapply (given_bind _ _ _ _ (fun x k => match x with Ok c => witnessed (ODatabase c) k /\ om_Name (cu_Meta c) = om_Name (cu_Meta desired) | Err _ => True end)).
  - apply given_within, within_attempt. unfold databases_Get. apply within_typed, (within_get _ _ _ (HD _ _ _)).
  - intros k [c|e] k' Hw _ E; [|done]. unfold attempt in E. destruct (databases_Get (om_Name (cu_Meta desired)) k) as [x k1] eqn:Eg. injection E as -> ->.
    unfold databases_Get, typed in Eg. apply st_bind_ok in Eg as (o & k2 & Eg & Ea). destruct (get_witnessed _ _ _ _ _ Hw Eg) as (Ek & En & Hin).
    destruct o; try discriminate. injection Ea as -> ->. done.
  - intros [c|e].
    + intros k r k' Hw [Hin En] E. exact (update_within _ _ Hs n _ _ Ed En _ _ _ Hw Hin E).
    + apply given_within. repeat first [by apply create_within | walk_step (HD cfg p n)].
Qed.

(** ** Every other step of a deployment or a deletion leaves databases alone *)

Section leaves.
Context (tls : TLSConfig) (n : string) (R : hist -> option object -> Prop) (HR : forall h o, others KDatabase n h o -> R h o).
Notation W := (within KDatabase n R).

Lemma spare_delete_owned kd kindName app opts : kd <> KDatabase -> W (delete_owned kd kindName app opts).
Proof. intros Hne. unfold delete_owned. walk HR. apply (within_delete _ _ _ HR). intros [= E _]. congruence. Qed.

Lemma spare_apply_owned kd kindName app check desired : (forall rv, kind_of (desired rv) <> KDatabase) -> W (apply_owned kd kindName app check desired).
Proof.
  intros Hne. unfold apply_owned. walk HR.
  - apply (within_update _ _ _ HR). intros [= E _]. by destruct (Hne (version o)).
  - apply (within_create _ _ _ HR). intros [= E _]. by destruct (Hne "").
Qed.

Ltac spare := repeat first [by apply spare_delete_owned | by apply spare_apply_owned | walk_step HR].

Lemma spare_registry app : W (deleteRegistrySecrets app).
Proof. unfold deleteRegistrySecrets, secrets_List. spare. apply Forall_fmap, Forall_true. intros s. unfold delete_revision. cbn. spare. Qed.
Lemma spare_environment app : W (deleteEnvironmentSecrets app).
Proof. unfold deleteEnvironmentSecrets, secrets_List. spare. apply Forall_fmap, Forall_true. intros s. unfold delete_revision. cbn. spare. Qed.

Lemma spare_delete app : W (Delete app).
Proof.
  unfold Delete, rejectLegacyCandidateMutation, Get, services_Get, cluster_services, services_get, deleteIngress, deleteHostingNetworkPolicy,
    deleteService, deleteTrafficResilienceResources, deleteDynamicAppResource, deleteDeployment, deletePodDisruptionBudget, deleteAppSecret,
    policies_Get, pods_List, deployments_Get, services_get.
  repeat first [match goal with |- within _ _ _ (deleteRegistrySecrets _) => apply spare_registry | |- within _ _ _ (deleteEnvironmentSecrets _) => apply spare_environment end
    | by apply spare_delete_owned | walk_step HR].
Qed.

Lemma spare_wait polls x g : W (waitForDeploymentRollout polls x g).
Proof. induction polls; cbn [waitForDeploymentRollout]; unfold deployments_Get; spare; done. Qed.

Lemma spare_deployment polls cfg rev pull : W (reconcileDeployment namespace polls cfg rev pull).
Proof.
  unfold reconcileDeployment, migrateLegacyAffinity, deployments_Get, deployments_Create, deployments_Update.
  repeat first [apply spare_wait | walk_step HR].
Qed.

Lemma spare_resources polls cfg v rev c : W (reconcilePostgres namespace cfg) -> W (reconcileAppResources namespace polls cfg v rev c).
Proof.
  intros Hp. unfold reconcileAppResources, reconcileNamespace, reconcileHostingNetworkPolicy, reconcileSecret, reconcileRegistrySecret,
    reconcileEnvironmentSecret, reconcilePodDisruptionBudget, reconcileTrafficResilienceResources, reconcileDynamicAppResource,
    deleteTrafficResilienceResources, deleteDynamicAppResource, deletePodDisruptionBudget, deleteAppSecret, reconcileService, secrets_Get, services_get.
  repeat first [exact Hp | apply spare_deployment | by apply spare_delete_owned | by apply spare_apply_owned | walk_step HR].
Qed.

Lemma spare_reconcile polls cfg v rev c : W (reconcilePostgres namespace cfg) -> W (ReconcileWithRegistry namespace tls polls cfg v rev c).
Proof.
  intros Hp. unfold ReconcileWithRegistry, PreflightHosting, preflightRetainedStorage, preflightHostingCapacity, preflightRetainedStorageMount,
    ensureSchedulableWorker, rejectLegacyCandidateMutation, Get, services_Get, cluster_services, services_get, deleteIngress, ensureIssuer,
    nodes_List, deployments_List, pods_List.
  repeat first [by apply spare_resources | by apply spare_delete_owned | by apply spare_apply_owned | walk_step HR].
Qed.
End leaves.

(** C13: A deployment never loses a database.  Whatever calls fail and whatever other
    clients do in between, neither the whole reconciliation of an app with a normalized,
    valid configuration nor the deletion of an app deletes a Cluster.  With a managed
    database in its configuration, a reconciliation creates the Cluster of the app as
    rendered where none exists, or replaces the version that it read, which belongs to the
    app, by one with the same image, instances, placement, bootstrap, checksums, storage and
    replication, and with every field and access rule of other owners.  A reconciliation
    without a managed database, also one that dropped it, and a deletion change no Cluster
    at all. *)
Theorem database_kept tls c n k r k' :
  cluster_wf k -> match c with AReconcile _ cfg _ _ _ => Normalize cfg = cfg /\ Validate cfg = Ok tt | ADelete _ => True end ->
  run_app_call namespace tls c k = (r, k') ->
  grows_by (fun h x => others KDatabase n h x \/
      exists polls cfg values revision credential p, c = AReconcile polls cfg values revision credential /\
        Database_Postgres (Cfg_Database cfg) = Some p /\ database_change cfg p n h x)
    (history k KDatabase n) (history k' KDatabase n).
Proof.
  intros Hw Hc E. set (R := fun h x => _ \/ _).
  assert (HR : forall h o, others KDatabase n h o -> R h o) by (by left).
  assert (within KDatabase n R (run_app_call namespace tls c)) as W; [|by destruct (W _ _ _ Hw E)]. clear k r k' Hw E.
  destruct c as [polls cfg v rev cred|app]; cbn [run_app_call]; [|by apply spare_delete]. destruct Hc as [Hn Hv]. apply spare_reconcile; [done|].
  destruct (Database_Postgres (Cfg_Database cfg)) as [p|] eqn:Ep.
  - eapply within_impl; [|by apply (reconcile_database cfg p n)]. intros h x [Hx|Hx]; [by left|]. right. by exists polls, cfg, v, rev, cred, p.
  - unfold reconcilePostgres. rewrite Hn, Ep. apply within_ret.
Qed.
End merge.
