(* ===== verification/NodeSafety.v ===== *)
(** * Draining and removing nodes

    What a drain evicts and what a removal has checked.  A [moment] is the state of
    every object of a kind at the instant of a list call. *)

From S2P Require Import Prelude GoStrings Regexp GoJson Appconfig Db NodeRegistry Activation ActivationProps Security Candidate CandidateOps Workloads Cluster Resources Capacity CandidateControl DatabaseStatus Postgres KubeNodes Controller ControlLogic CandidateEvidence.
From Stdlib Require Import Ascii String.
Local Open Scope Z_scope.

Section nodes.
Context `{KubeTypes} `{!KubePorts} `{KubeRest} {K : Type} `{!Cluster K}.

Definition moment (k k' : K) (kd : kind) (h : string -> hist) : Prop :=
  forall n, history k kd n `suffix_of` h n /\ h n `suffix_of` history k' kd n.

(** The change marks the object as deleted, or removes it. *)
Definition removal (x : option object) : Prop := forall o, x = Some o -> om_Deleting (meta o) = true.

(** Some version of the node refuses new Pods. *)
Definition cordoned (n : string) (k : K) : Prop := exists nd, Some (ONode nd) ∈ history k KNode n /\ kn_Unschedulable nd = true.

Lemma any_list kd n x sel : within kd n any (k_list x sel).
Proof. by apply within_list. Qed.

(** A list without a selector holds the objects of one moment. *)
Lemma list_moment {A} (as_ : object -> option A) kd w k l k' : cluster_wf k -> map_err w (list_as as_ kd ∅) k = (Ok l, k') ->
  after k k' /\ exists h, moment k k' kd h /\ forall a, a ∈ l <-> exists n o, current (h n) = Some o /\ as_ o = Some a.
Proof.
  intros Hw E. unfold map_err in E. destruct (list_as as_ kd ∅ k) as [[x|e] k1] eqn:El; [|discriminate]. injection E as -> ->.
  unfold list_as in El. apply st_bind_ok in El as (os & k2 & El & [= <- <-]). destruct (list_read _ _ _ _ _ Hw El) as (h & Hh & Hl).
  split; [eapply after_within; [intros; apply any_list|done|exact El]|]. exists h. split.
  - intros n. destruct (Hh n) as [G1 G2]. split; by eapply grows_by_suffix.
  - intros a. rewrite list_elem_of_omap. split.
    + intros (o & Ho & Ea). apply Hl in Ho as (n & Hc & _). by exists n, o.
    + intros (n & o & Hc & Ea). exists o. split; [|done]. apply Hl. exists n. split; [done|apply map_empty_subseteq].
Qed.

(** A state reached by calls that leave the kind alone. *)
Lemma quiet_after {A} (m : ST K A) kd n k r k' : within kd n (others kd n) m -> cluster_wf k -> m k = (r, k') ->
  grows_by (others kd n) (history k kd n) (history k' kd n).
Proof. intros Hm Hw E. by destruct (Hm _ _ _ Hw E). Qed.

(** ** Cordon *)

Lemma any_cordon kd n x b : within kd n any (setNodeUnschedulable x b).
Proof.
  unfold setNodeUnschedulable, nodes_Get, nodes_Update.
  repeat first [apply within_any_update | match goal with |- within ?kd ?n _ _ => walk_step (any_others kd n) end].
Qed.

Lemma cordon_done x k k' : cluster_wf k -> CordonNode x k = (Ok tt, k') -> cordoned x k'.
Proof.
  intros Hw E. unfold CordonNode, setNodeUnschedulable in E. apply st_bind_ok in E as (nd & k1 & Eg & E).
  unfold map_err in Eg. destruct (nodes_Get x k) as [[n0|e] k2] eqn:En; [|discriminate]. injection Eg as -> ->.
  unfold nodes_Get in En. apply typed_ok in En as (o & En & Eo). destruct o; try discriminate. injection Eo as ->.
  destruct (get_witnessed _ _ _ _ _ Hw En) as (_ & Enm & Hin). destruct (get_frame _ _ _ _ _ Hw En) as [Hw1 _].
  destruct (kn_Unschedulable nd) eqn:Eu; cbn [Bool.eqb] in E.
  - injection E as ->. exists nd. unfold witnessed in Hin. by rewrite Enm in Hin.
  - apply st_bind_ok in E as (n1 & k3 & Eup & [= ->]). unfold map_err in Eup.
    destruct (nodes_Update (set_unschedulable true nd) k1) as [[n2|e] k4] eqn:Eu2; [|discriminate]. injection Eup as -> ->.
    unfold nodes_Update in Eu2. apply typed_ok in Eu2 as (o & Eu2 & Eo). destruct o; try discriminate. injection Eo as ->.
    destruct (update_returns _ _ _ _ Hw1 Eu2) as [Ha Hin2]. destruct Ha as (_ & Enm2 & _ & _ & _ & _ & nd' & [= <-] & Eun).
    exists n1. split; [|done]. unfold witnessed in Hin2. change (name_of (ONode n1) = om_Name (kn_Meta nd)) in Enm2.
    change (om_Name (kn_Meta nd) = x) in Enm. change (kind_of (ONode n1)) with KNode in Hin2. by rewrite Enm2, Enm in Hin2.
Qed.

(** ** Drain *)

Lemma others_self kd n h x : others kd n h x -> others kd n h x.
Proof. done. Qed.

Lemma within_each {A} kd n R (f : A -> ST K unit) l : (forall a, a ∈ l -> within kd n R (f a)) -> within kd n R (each f l).
Proof.
  induction l as [|a l IH]; intros Hf; cbn [each]; [apply within_ret|]. apply within_bind; [apply Hf; by left|]. intros _. apply IH.
  intros b Hb. apply Hf. by right.
Qed.

(** A Pod of the node that may move, as it was at a moment: labelled with a state mode
    other than stateful, and not pinned. *)
Definition movable (x : string) (o : option object) : Prop :=
  exists p, o = Some (OPod p) /\ pod_NodeName p = x /\ pod_label "deployer.io/state-mode" p ∉ [""; "stateful"] /\
    pod_label "deployer.io/resilience-mode" p <> "pinned".

(** An instance of a managed database. *)
Definition database_instance (p : pod) : Prop := TrimSpace (pod_label "cnpg.io/cluster" p) <> "" /\ pod_label "cnpg.io/podRole" p = "instance".

Lemma evictable_spec p : evictable p = true <-> pod_label "deployer.io/state-mode" p ∉ [""; "stateful"] /\ pod_label "deployer.io/resilience-mode" p <> "pinned".
Proof.
  unfold evictable. cbv zeta. rewrite negb_true_iff, !orb_false_iff, !String.eqb_neq. change ResiliencePinned with "pinned".
  rewrite not_elem_of_cons, list_elem_of_singleton. tauto.
Qed.

Lemma database_pod_spec p : database_pod p = true <-> database_instance p.
Proof. unfold database_pod, database_instance. rewrite andb_true_iff, negb_true_iff, blank_false, String.eqb_eq. done. Qed.

Lemma evict_within x n (R : hist -> option object -> Prop) p : (forall h o, others KPod n h o -> R h o) ->
  (om_Name (pod_Meta p) = n -> evictable p = true -> forall h o, removal o -> R h o) -> within KPod n R (evict x p).
Proof.
  intros HR Hp. unfold evict. destruct (evictable p) eqn:Ee; [|apply within_ret]. apply within_delete_missing.
  apply (within_evict _ _ _ HR). intros [= En] h old after _ Hd. apply Hp; [done|done|exact Hd].
Qed.

Lemma any_pods kd n x : within kd n any (pods_on x).
Proof. unfold pods_on, pods_List. repeat match goal with |- within ?kd ?n _ _ => walk_step (any_others kd n) end. Qed.

Lemma pods_on_moment x w k l k' : cluster_wf k -> map_err w (pods_on x) k = (Ok l, k') ->
  after k k' /\ exists h, moment k k' KPod h /\ forall p, p ∈ l <-> pod_NodeName p = x /\ exists n, current (h n) = Some (OPod p).
Proof.
  intros Hw E. assert (exists all, map_err w (list_as as_pod KPod ∅) k = (Ok all, k') /\ l = List.filter (fun p => String.eqb (pod_NodeName p) x) all) as (all & Ea & ->).
  { unfold map_err in *. destruct (pods_on x k) as [[y|e] k1] eqn:Ep; [|discriminate]. injection E as -> ->. unfold pods_on, pods_List in Ep.
    apply st_bind_ok in Ep as (all & k2 & Ea & [= <- <-]). exists all. by rewrite Ea. }
  destruct (list_moment _ _ _ _ _ _ Hw Ea) as (A & h & Hm & Hl). split; [done|]. exists h. split; [done|]. intros p.
  rewrite list_elem_of_In, List.filter_In, <- list_elem_of_In, String.eqb_eq, Hl. split.
  - intros [(n & o & Hc & Eo) Hx]. split; [done|]. destruct o; try discriminate. injection Eo as ->. by exists n.
  - intros [Hx [n Hc]]. split; [by exists n, (OPod p)|done].
Qed.

Lemma no_database_pods (f : pod -> string) pods e : check (negb (bool_decide (f <$> List.filter database_pod pods = []))) e = Ok tt ->
  forall p, p ∈ pods -> ~ database_instance p.
Proof.
  intros Hg p Hp Ed%database_pod_spec. unfold check in Hg.
  destruct (bool_decide (_ = [])) eqn:Eb in Hg; [|discriminate]. apply bool_decide_eq_true, fmap_nil_inv in Eb.
  assert (Hf : p ∈ List.filter database_pod pods) by (apply list_elem_of_In, List.filter_In; by rewrite <- list_elem_of_In).
  rewrite Eb in Hf. by apply elem_of_nil in Hf.
Qed.

(** C14: A drain evicts only Pods that may move.  A Pod is left to others unless the node
    was cordoned before, none of its Pods was an instance of a managed database at one moment
    after that, and the Pod of that name was then on the node, stateless and not pinned. *)
Theorem drain_spares x n k r k' : cluster_wf k -> KubeNodes.DrainNode x k = (r, k') ->
  grows_by (others KPod n) (history k KPod n) (history k' KPod n) \/
  exists k0 k1 h, after k k0 /\ cordoned x k0 /\ after k0 k1 /\ moment k0 k1 KPod h /\ after k1 k' /\
    (forall m p, current (h m) = Some (OPod p) -> pod_NodeName p = x -> ~ database_instance p) /\
    grows_by (others KPod n) (history k KPod n) (history k1 KPod n) /\
    grows_by (fun h' o => others KPod n h' o \/ (movable x (current (h n)) /\ removal o)) (history k1 KPod n) (history k' KPod n).
Proof.
  intros Hw E. unfold KubeNodes.DrainNode in E.
  assert (Wc : within KPod n (others KPod n) (CordonNode x)) by (by apply (within_setUnschedulable _ _ _ (others_self _ _))).
  assert (Wp : forall w, within KPod n (others KPod n) (map_err w (pods_on x))).
  { intros w. unfold pods_on, pods_List. walk (others_self KPod n). }
  apply st_bind_inv in E as [(e & E & _)|([] & k0 & Ec & E)]; [left; by eapply quiet_after|].
  assert (A0 : after k k0) by (eapply after_within; [intros; apply any_cordon|done|exact Ec]).
  pose proof (proj1 A0) as Hw0. pose proof (quiet_after _ _ _ _ _ _ Wc Hw Ec) as G0.
  apply st_bind_inv in E as [(e & E & _)|(pods & k1 & Ep & E)]; [left; eapply grows_by_trans; [exact G0|exact (quiet_after _ _ _ _ _ _ (Wp _) Hw0 E)]|].
  pose proof (quiet_after _ _ _ _ _ _ (Wp _) Hw0 Ep) as G1. destruct (pods_on_moment _ _ _ _ _ Hw0 Ep) as (A1 & h & Hm & Hl).
  pose proof (proj1 A1) as Hw1. assert (G : grows_by (others KPod n) (history k KPod n) (history k1 KPod n)) by (by eapply grows_by_trans).
  cbv zeta in E. apply st_bind_inv in E as [(e & [= _ <-] & _)|([] & k2 & [= Hg <-] & E)]; [by left|].
  pose proof (no_database_pods _ _ _ Hg) as Hdb.
  set (R := fun h' o => others KPod n h' o \/ (movable x (current (h n)) /\ removal o)).
  assert (We : within KPod n R (each (evict x) pods)).
  { apply within_each. intros p Hp. apply evict_within; [by left|]. intros En Ee h' o Ho. right. split; [|done].
    apply Hl in Hp as [Hx [m Hc]]. exists p. split; [|split; [done|by apply evictable_spec]]. enough (m = n) as <- by done. rewrite <- En.
    destruct (Hm m) as [_ [e Es]]. destruct (current_head _ _ Hc) as [older Eh].
    destruct (stored_object k1 KPod m (OPod p) Hw1) as (_ & Hn & _); [rewrite Es, Eh; apply elem_of_app; right; by left|done]. }
  destruct (We _ _ _ Hw1 E) as [Hw' G2]. right. exists k0, k1, h. split; [done|]. split; [exact (cordon_done _ _ _ Hw Ec)|]. split; [done|]. split; [done|].
  split.
  - eapply after_within; [|exact Hw1|exact E]. intros kd m. apply within_each_all. intros p. unfold evict. destruct (evictable p); [|apply within_ret].
    apply within_delete_missing. by apply within_evict.
  - split; [|done]. intros m p Hc Hx. apply Hdb. apply Hl. eauto.
Qed.

(** ** Removal *)

(** Nothing that was read ties data to the node. *)
Definition removable_deployment (id : string) (d : deployment) : Prop :=
  retainedStorageClaimsForDeployment d = [] \/ (selectedNodeID d <> "" /\ selectedNodeID d <> id).

Lemma deployments_removable_all id x ds : deployments_removable id x ds = Ok tt -> forall d, d ∈ ds -> removable_deployment id d.
Proof.
  induction ds as [|d0 ds IH]; intros E d Hd; [by apply elem_of_nil in Hd|]. cbn [deployments_removable] in E. cbv zeta in E. unfold removable_deployment.
  case_bool_decide as Hc.
  - apply elem_of_cons in Hd as [->|Hd]; [by left|by apply IH].
  - destruct (String.eqb_spec (selectedNodeID d0) "") as [|Hne]; [discriminate|]. destruct (String.eqb_spec (selectedNodeID d0) id) as [|Hid]; [discriminate|].
    apply elem_of_cons in Hd as [->|Hd]; [by right|by apply IH].
Qed.

Lemma removal_checked id x k k' : cluster_wf k -> validateRetainedStorageNodeRemoval id x k = (Ok tt, k') ->
  exists k1 hv hd, moment k k1 KVolume hv /\ moment k1 k' KDeployment hd /\
    (forall m v, current (hv m) = Some (OVolume v) -> pv_Local v = true -> pv_ReclaimPolicy v = "Retain" -> persistentVolumePinnedToNodeID v id = false) /\
    (forall m d, current (hd m) = Some (ODeployment d) -> removable_deployment id d).
Proof.
  intros Hw E. unfold validateRetainedStorageNodeRemoval, volumes_List, deployments_List in E.
  apply st_bind_ok in E as (vs & k1 & Ev & E). destruct (list_moment _ _ _ _ _ _ Hw Ev) as (A1 & hv & Mv & Lv).
  apply st_bind_ok in E as ([] & k2 & Ef & E). destruct (List.find _ vs) as [v|] eqn:Efind; [discriminate|]. injection Ef as <-.
  apply st_bind_ok in E as (ds & k3 & Ed & E). destruct (list_moment _ _ _ _ _ _ (proj1 A1) Ed) as (A2 & hd & Md & Ld). injection E as E <-.
  exists k1, hv, hd. split; [done|]. split; [done|]. split.
  - intros m v Hc Hl Hr. assert (v ∈ vs) as Hv%list_elem_of_In by (apply Lv; by exists m, (OVolume v)).
    pose proof (List.find_none _ _ Efind _ Hv) as Hn. cbv beta in Hn. unfold retained_local in Hn. by rewrite Hl, Hr in Hn.
  - intros m d Hc. eapply deployments_removable_all; [exact E|]. apply Ld. by exists m, (ODeployment d).
Qed.

Lemma find_node_seen w x k nd k' : cluster_wf k -> find_opt w (nodes_Get x) k = (Ok (Some nd), k') -> seen k k' (ONode nd) /\ om_Name (kn_Meta nd) = x.
Proof.
  intros Hw E%find_opt_some. unfold nodes_Get in E. apply typed_ok in E as (o & E & Eo). destruct (seen_get _ _ _ _ _ Hw E) as (_ & _ & En & Hs).
  destruct o; try discriminate. by injection Eo as ->.
Qed.

(** C15: A node is removed only when no retained data is tied to it.  The Node object is left
    to others unless it was seen, and after that, at one moment, no retained local volume was
    pinned to its identity, and at a later one no Deployment with retained claims selected it or left its
    node open. *)
Theorem removal_keeps_data x n k r k' : cluster_wf k -> KubeNodes.RemoveNode x k = (r, k') ->
  grows_by (others KNode n) (history k KNode n) (history k' KNode n) \/
  exists nd k0 k1 k2 hv hd, n = x /\ seen k k0 (ONode nd) /\ om_Name (kn_Meta nd) = x /\
    moment k0 k1 KVolume hv /\ moment k1 k2 KDeployment hd /\
    (let id := map_get (om_Labels (kn_Meta nd)) "deployer.io/node-id" in
     (forall m v, current (hv m) = Some (OVolume v) -> pv_Local v = true -> pv_ReclaimPolicy v = "Retain" -> persistentVolumePinnedToNodeID v id = false) /\
     (forall m d, current (hd m) = Some (ODeployment d) -> removable_deployment id d)) /\
    grows_by (others KNode n) (history k KNode n) (history k2 KNode n) /\
    grows_by (fun h o => others KNode n h o \/ removal o) (history k2 KNode n) (history k' KNode n).
Proof.
  intros Hw E. unfold KubeNodes.RemoveNode in E.
  assert (Wf : forall w, within KNode n (others KNode n) (find_opt w (nodes_Get x))).
  { intros w. unfold nodes_Get. walk (others_self KNode n). }
  assert (Wv : forall id, within KNode n (others KNode n) (validateRetainedStorageNodeRemoval id x)).
  { intros id. apply (within_validateRemoval _ _ _ (others_self _ _)). }
  apply st_bind_inv in E as [(e & E & _)|(found & k0 & Ef & E)]; [left; exact (quiet_after _ _ _ _ _ _ (Wf _) Hw E)|].
  destruct (Wf _ _ _ _ Hw Ef) as [Hw0 G0]. destruct found as [nd|]; [|injection E as _ <-; by left].
  apply st_bind_inv in E as [(e & E & _)|([] & k2 & Ev & E)].
  { left. eapply grows_by_trans; [exact G0|]. exact (quiet_after _ _ _ _ _ _ (Wv _) Hw0 E). }
  destruct (Wv _ _ _ _ Hw0 Ev) as [Hw2 G2]. assert (G : grows_by (others KNode n) (history k KNode n) (history k2 KNode n)) by (by eapply grows_by_trans).
  assert (Wd : within KNode n (fun h o => others KNode n h o \/ (n = x /\ removal o)) (delete_missing_ok (wrap_name "delete Kubernetes Node %q: %w" x) (k_delete KNode x (MkPre None None)))).
  { apply within_delete_missing. apply within_delete; [by left|]. intros [= En] h old after _ _ Hd. by right. }
  destruct (Wd _ _ _ Hw2 E) as [Hw' G']. destruct (decide (n = x)) as [->|Hne].
  - right. destruct (removal_checked _ _ _ _ Hw0 Ev) as (k1 & hv & hd & Mv & Md & Hv & Hd). destruct (find_node_seen _ _ _ _ _ Hw Ef) as [Hs En].
    exists nd, k0, k1, k2, hv, hd. split_and!; try done. eapply grows_by_impl; [|exact G']. intros h o [?|[_ ?]]; [by left|by right].
  - left. eapply grows_by_trans; [exact G|]. eapply grows_by_impl; [|exact G']. by intros h o [?|[-> _]].
Qed.
End nodes.
