(* ===== verification/ClusterRun.v ===== *)
(** * An API server in memory

    A log of the versions of all objects, newest first, that satisfies the laws of
    [Cluster] with no other clients.  The sequences of controller operations at the
    end run on it and instantiate the theorems on the controller. *)

From S2P Require Import Prelude GoStrings Regexp GoJson Appconfig AppconfigSpec DatabaseStatus Db Security Activation ActivationProps Candidate CandidateOps NodeRegistry Workloads WorkloadProps Cluster Resources Capacity CapacityProps CandidateControl Postgres NestedFields KubeNodes Controller ControlLogic Tombstones CandidateEvidence DeletionProps Ownership PostgresProps NodeSafety.
From Stdlib Require Import Ascii String.
Local Open Scope Z_scope.

(** ** The log *)

Section log.
Context `{KubeTypes} `{!KubePorts} `{KubeRest}.

Notation entry := (kind * string * option object)%type.
Notation log := (list entry).

Definition named (kd : kind) (n : string) (e : entry) : bool := bool_decide (e.1 = (kd, n)).
Definition hist_of (l : log) (kd : kind) (n : string) : hist := snd <$> List.filter (named kd n) l.

Definition stamp_meta (u v : string) (m : object_meta) : object_meta :=
  MkMeta (om_Name m) (om_Namespace m) u v (om_Generation m) (om_Deleting m) (om_Labels m) (om_Annotations m).
Definition tcp (p : service_port) : service_port := if String.eqb (sp_Protocol p) "" then sp_with_protocol "TCP" p else p.
Definition tcp_ports (ps : option (list service_port)) : option (list service_port) := fmap (M:=list) tcp <$> ps.
Definition stamp_dynamic (u v : string) (d : dynamic) : dynamic := MkDynamic (dyn_APIVersion d) (dyn_Kind d) (stamp_meta u v (dyn_Meta d)) (dyn_Spec d).

(** The object with identity, version and defaults. *)
Definition stamp (u v : string) (o : object) : object :=
  match o with
  | ODeployment d => ODeployment (MkDeployment (stamp_meta u v (d_Meta d)) (Some (default 1 (d_Replicas d))) (d_Selector d)
      (d_PodLabels d) (d_PodAnnotations d) (d_Pod d) (d_Strategy d) (d_MinReadySeconds d) (d_RevisionHistoryLimit d)
      (d_ProgressDeadline d) (d_Rest d) (d_Status d))
  | OPolicy p => OPolicy (MkPolicy (stamp_meta u v (np_Meta p)) (np_PodSelector p) (np_Types p) (np_Ingress p) (np_Egress p) (np_Rest p))
  | OService s => OService (MkService (Svc_Name s) (Svc_Namespace s) u v (Svc_Deleting s) (Svc_Labels s) (Svc_Annotations s)
      (Svc_Selector s) (tcp_ports (Svc_Ports s)))
  | OPod p => OPod (MkPod (stamp_meta u v (pod_Meta p)) (pod_NodeName p) (pod_Phase p) (pod_Requests p) (pod_InitRequests p)
      (pod_Overhead p) (pod_HasResources p) (pod_Claims p))
  | OSecret s => OSecret (MkSecret (stamp_meta u v (sec_Meta s)) (sec_Type s) (sec_Immutable s) (sec_Data s))
  | OIngress i => OIngress (MkIngress (stamp_meta u v (ing_Meta i)) (ing_Class i) (ing_TLS i) (ing_Rules i))
  | OBudget b => OBudget (MkBudget (stamp_meta u v (pdb_Meta b)) (pdb_MinAvailable b) (pdb_Selector b))
  | OMiddleware d => OMiddleware (stamp_dynamic u v d)
  | OTransport d => OTransport (stamp_dynamic u v d)
  | OIssuer d => OIssuer (stamp_dynamic u v d)
  | ONamespace m => ONamespace (stamp_meta u v m)
  | ONode n => ONode (MkKNode (stamp_meta u v (kn_Meta n)) (kn_Unschedulable n) (kn_Conditions n) (kn_Taints n) (kn_Allocatable n))
  | OClaim c => OClaim (MkClaim (stamp_meta u v (pvc_Meta c)) (pvc_VolumeMode c) (pvc_Phase c) (pvc_VolumeName c) (pvc_AccessModes c))
  | OVolume x => OVolume (MkVolume (stamp_meta u v (pv_Meta x)) (pv_ReclaimPolicy x) (pv_Local x) (pv_ClaimRef x) (pv_Required x))
  | ODatabase c => ODatabase (MkCustom (stamp_meta u v (cu_Meta c)) (cu_Body c))
  | OQuorum c => OQuorum (MkCustom (stamp_meta u v (cu_Meta c)) (cu_Body c))
  | OGenerated g m => OGenerated g (stamp_meta u v m)
  end.

Lemma stamp_kind u v o : kind_of (stamp u v o) = kind_of o.
Proof. by destruct o. Qed.
Lemma stamp_name u v o : name_of (stamp u v o) = name_of o.
Proof. by destruct o. Qed.
Lemma stamp_uid u v o : uid (stamp u v o) = u.
Proof. by destruct o. Qed.
Lemma stamp_version u v o : version (stamp u v o) = v.
Proof. by destruct o. Qed.

Lemma stamp_admits u v o : u <> "" -> v <> "" -> admits tcp_ports o (stamp u v o).
Proof. intros Hu Hv. unfold admits. rewrite stamp_kind, stamp_name, stamp_uid, stamp_version. by destruct o; repeat split; eauto. Qed.

Lemma tcp_idem p : tcp (tcp p) = tcp p.
Proof. unfold tcp at 2 3. destruct (String.eqb_spec (sp_Protocol p) "") as [E|E]; unfold tcp; [by rewrite sp_with_protocol_Protocol|by apply String.eqb_neq in E as ->]. Qed.

Lemma tcp_ports_idem ps : tcp_ports (tcp_ports ps) = tcp_ports ps.
Proof. destruct ps as [l|]; [|done]. unfold tcp_ports. simpl. f_equal. rewrite <- list_fmap_compose. apply list_fmap_ext. intros _ p _. apply tcp_idem. Qed.

(** ** The calls *)

Definition ids (l : log) : string := rv_text (S (List.length l)).
Definition push (o : object) (l : log) : log := (kind_of o, name_of o, Some o) :: l.
Definition store (o : object) (l : log) : log := push (stamp (ids l) (ids l) o) l.

Definition log_get (kd : kind) (n : string) (l : log) : result object * log :=
  match current (hist_of l kd n) with Some o => (Ok o, l) | None => (Err (ErrKube KubeNotFound), l) end.

Definition names (l : log) : list string := remove_dups ((fun e : entry => e.1.2) <$> l).
Definition selected (sel : gmap string string) (o : object) : option object := if bool_decide (sel ⊆ om_Labels (meta o)) then Some o else None.
Definition log_list (kd : kind) (sel : gmap string string) (l : log) : result (list object) * log :=
  (Ok (omap (fun n => current (hist_of l kd n) ≫= selected sel) (names l)), l).
Definition log_pods (l : log) : result (list pod) * log :=
  (Ok (omap as_pod (omap (fun n => current (hist_of l KPod n)) (names l))), l).

Definition log_create (o : object) (l : log) : result object * log :=
  match current (hist_of l (kind_of o) (name_of o)) with
  | Some _ => (Err (ErrKube KubeAlreadyExists), l)
  | None => let o' := stamp (ids l) (ids l) o in (Ok o', push o' l)
  end.

Definition agrees (given actual : string) : bool := String.eqb given "" || String.eqb given actual.
Definition unchanged (o old : object) : bool :=
  match stamp (uid old) (version old) o, old with
  | OService s, OService s' => bool_decide (s = s')
  | _, _ => false
  end.

Definition log_update (o : object) (l : log) : result object * log :=
  match current (hist_of l (kind_of o) (name_of o)) with
  | None => (Err (ErrKube KubeNotFound), l)
  | Some old =>
      if negb (agrees (version o) (version old) && agrees (uid o) (uid old)) then (Err (ErrKube KubeConflict), l)
      else if String.eqb (version o) (version old) && unchanged o old then (Ok old, l)
      else let o' := stamp (uid old) (ids l) o in (Ok o', push o' l)
  end.

Definition demands (given : option string) (actual : string) : bool := match given with None => true | Some g => String.eqb g actual end.
Definition log_delete (kd : kind) (n : string) (pre : preconditions) (l : log) : result unit * log :=
  match current (hist_of l kd n) with
  | None => (Err (ErrKube KubeNotFound), l)
  | Some old =>
      if demands (pre_UID pre) (uid old) && demands (pre_Version pre) (version old) then (Ok tt, (kd, n, None) :: l)
      else (Err (ErrKube KubeConflict), l)
  end.

Definition log_evict (n : string) : log -> result unit * log := log_delete KPod n (MkPre None None).

(** ** Its invariant: every entry carries the position at which it was written as version *)

Definition entry_wf (e : entry) (older : log) : Prop :=
  match e.2 with
  | None => True
  | Some o => e.1 = (kind_of o, name_of o) /\ version o = ids older /\ (exists i, (i <= List.length older)%nat /\ uid o = rv_text (S i)) /\
      match o with OService s => tcp_ports (Svc_Ports s) = Svc_Ports s | _ => True end
  end.
Fixpoint log_wf (l : log) : Prop := match l with [] => True | e :: older => entry_wf e older /\ log_wf older end.

Lemma rv_text_inj i j : rv_text i = rv_text j -> i = j.
Proof. intros E. by rewrite <- (rv_text_length i), <- (rv_text_length j), E. Qed.

Lemma stamp_ports u v o : match stamp u v o with OService s => tcp_ports (Svc_Ports s) = Svc_Ports s | _ => True end.
Proof. destruct o; try done. apply tcp_ports_idem. Qed.

Lemma push_wf o l i : log_wf l -> (i <= List.length l)%nat -> log_wf (push (stamp (rv_text (S i)) (ids l) o) l).
Proof.
  intros Hw Hi. split; [|done]. unfold entry_wf, push. simpl. rewrite stamp_version, stamp_uid.
  repeat split; [eauto|apply stamp_ports].
Qed.

Lemma store_wf o l : log_wf l -> log_wf (store o l).
Proof. intros Hw. by apply push_wf. Qed.

Lemma hist_cons e l kd n : hist_of (e :: l) kd n = if named kd n e then e.2 :: hist_of l kd n else hist_of l kd n.
Proof. unfold hist_of. simpl. by destruct (named kd n e). Qed.

Lemma hist_push_same o l : hist_of (push o l) (kind_of o) (name_of o) = Some o :: hist_of l (kind_of o) (name_of o).
Proof. unfold push. rewrite hist_cons. unfold named. by rewrite bool_decide_true. Qed.

Lemma hist_push_stamped u v o l :
  hist_of (push (stamp u v o) l) (kind_of o) (name_of o) = Some (stamp u v o) :: hist_of l (kind_of o) (name_of o).
Proof. pose proof (hist_push_same (stamp u v o) l) as E. by rewrite stamp_kind, stamp_name in E. Qed.

Lemma hist_other e l kd n : e.1 <> (kd, n) -> hist_of (e :: l) kd n = hist_of l kd n.
Proof. intros Hne. rewrite hist_cons. unfold named. by rewrite bool_decide_false. Qed.

(** An object of a history stands in the log, with the entries older than it. *)
Lemma hist_entry l kd n o : log_wf l -> Some o ∈ hist_of l kd n ->
  kind_of o = kd /\ name_of o = n /\ (exists i, (i < List.length l)%nat /\ version o = rv_text (S i)) /\
  (exists i, (i < List.length l)%nat /\ uid o = rv_text (S i)) /\
  match o with OService s => tcp_ports (Svc_Ports s) = Svc_Ports s | _ => True end.
Proof.
  induction l as [|e l IH]; intros Hw Hin; [by apply elem_of_nil in Hin|]. destruct Hw as [He Hw]. rewrite hist_cons in Hin.
  destruct (named kd n e) eqn:En; [apply elem_of_cons in Hin as [Eo|Hin]|].
  - unfold entry_wf in He. rewrite <- Eo in He. apply bool_decide_eq_true in En. destruct He as (E1 & Ev & (i & Hi & Eu) & Hp).
    rewrite En in E1. injection E1 as -> ->. split; [done|]. split; [done|]. split; [exists (List.length l); simpl; split; [lia|done]|].
    split; [exists i; simpl; split; [lia|done]|done].
  - destruct (IH Hw Hin) as (? & ? & (i & Hi & ?) & (j & Hj & ?) & ?). repeat split; try done; [exists i|exists j]; simpl; split; auto; lia.
  - destruct (IH Hw Hin) as (? & ? & (i & Hi & ?) & (j & Hj & ?) & ?). repeat split; try done; [exists i|exists j]; simpl; split; auto; lia.
Qed.

Lemma hist_once l kd n i j o1 o2 : log_wf l -> hist_of l kd n !! i = Some (Some o1) -> hist_of l kd n !! j = Some (Some o2) ->
  version o1 = version o2 -> i = j.
Proof.
  revert i j. induction l as [|e l IH]; intros i j Hw E1 E2 Ev; [done|]. destruct Hw as [He Hw]. rewrite hist_cons in E1, E2.
  assert (Hnew : forall o o' x, e.2 = Some o -> hist_of l kd n !! x = Some (Some o') -> version o <> version o').
  { intros o o' x Eo Ex Eq. unfold entry_wf in He. rewrite Eo in He. destruct He as (_ & Evo & _).
    destruct (hist_entry l kd n o' Hw) as (_ & _ & (m & Hm & Em) & _); [by eapply list_elem_of_lookup_2|].
    rewrite Evo, Em in Eq. apply rv_text_inj in Eq. lia. }
  destruct (named kd n e); [|by eapply IH].
  destruct i as [|i], j as [|j]; simpl in E1, E2; [done| | |f_equal; by eapply IH].
  - injection E1 as E1. by destruct (Hnew _ _ _ E1 E2).
  - injection E2 as E2. by destruct (Hnew _ _ _ E2 E1).
Qed.

(** ** The laws *)

(** Nobody else writes. *)
Definition nobody (kd : kind) (n : string) (h : hist) (o : option object) : Prop := False.

Lemma same_grows (R : hist -> option object -> Prop) h h' : h = h' -> grows_by R h h'.
Proof. intros ->. constructor. Qed.

Lemma grows_by_length (R : hist -> option object -> Prop) h h' : (forall h o, ~ R h o) -> grows_by R h h' -> List.length h' = List.length h.
Proof. intros HR. destruct 1; [done|]. by destruct (HR h' o). Qed.

Lemma log_get_same kd n l r l' : log_get kd n l = (r, l') -> l' = l /\ (forall o, r = Ok o -> current (hist_of l kd n) = Some o).
Proof. unfold log_get. destruct (current _) eqn:E; intros [= <- <-]; split; congruence. Qed.

Lemma hist_push_other o l kd n : (kd, n) <> (kind_of o, name_of o) -> hist_of (push o l) kd n = hist_of l kd n.
Proof. intros Hne. apply hist_other. simpl. congruence. Qed.

Lemma log_create_cases o l r l' : log_create o l = (r, l') ->
  (l' = l /\ is_ok r = false) \/
  (current (hist_of l (kind_of o) (name_of o)) = None /\ l' = store o l /\ r = Ok (stamp (ids l) (ids l) o)).
Proof. unfold log_create. destruct (current _) eqn:E; intros [= <- <-]; [by left|by right]. Qed.

Lemma agrees_spec a b : agrees a b = true <-> a = "" \/ a = b.
Proof. unfold agrees. by rewrite orb_true_iff, !String.eqb_eq. Qed.

Lemma log_update_cases o l r l' : log_update o l = (r, l') ->
  (l' = l /\ is_ok r = false) \/
  exists old, current (hist_of l (kind_of o) (name_of o)) = Some old /\ names_version o old /\
    ((l' = l /\ r = Ok old /\ version o = version old /\ unchanged o old = true) \/
     (l' = push (stamp (uid old) (ids l) o) l /\ r = Ok (stamp (uid old) (ids l) o) /\
      ~ (version o = version old /\ unchanged o old = true))).
Proof.
  unfold log_update. destruct (current _) as [old|] eqn:E; [|intros [= <- <-]; by left].
  destruct (agrees (version o) (version old)) eqn:E1; [|intros [= <- <-]; by left].
  destruct (agrees (uid o) (uid old)) eqn:E2; [|intros [= <- <-]; by left]. apply agrees_spec in E1, E2. simpl.
  destruct (String.eqb (version o) (version old) && unchanged o old) eqn:Eu; intros [= <- <-]; right; exists old;
    (split; [done|]; split; [done|]); bools.
  - left. repeat split; try done. by apply String.eqb_eq.
  - right. split; [done|]. split; [done|]. intros [Ev Hu]. apply String.eqb_eq in Ev. by rewrite Ev, Hu in Eu.
Qed.

Lemma demands_spec g a : demands g a = true <-> forall x, g = Some x -> a = x.
Proof.
  destruct g as [g|]; simpl; [|split; [intros _ x [=]|done]]. rewrite String.eqb_eq. split; [by intros -> ? [= ->]|]. intros Hx. symmetry. by apply Hx.
Qed.

Lemma log_delete_cases kd n pre l r l' : log_delete kd n pre l = (r, l') ->
  (l' = l /\ is_ok r = false) \/
  exists old, current (hist_of l kd n) = Some old /\ meets pre old /\ l' = (kd, n, None) :: l.
Proof.
  unfold log_delete. destruct (current _) as [old|] eqn:E; [|intros [= <- <-]; by left].
  destruct (demands (pre_UID pre) (uid old) && demands (pre_Version pre) (version old)) eqn:Ed; intros [= <- <-]; [|by left].
  apply andb_true_iff in Ed as [D1 D2]. right. exists old. split; [done|]. split; [|done]. split; by apply demands_spec.
Qed.

(** Finding the current object of a name is finding it in the log. *)
Lemma current_in_log l kd n o : current (hist_of l kd n) = Some o -> n ∈ names l.
Proof.
  intros (h & Eh)%current_head. apply elem_of_remove_dups, list_elem_of_fmap.
  assert (Some o ∈ hist_of l kd n) as Hin by (rewrite Eh; left). unfold hist_of in Hin. apply list_elem_of_fmap in Hin as (e & _ & He).
  exists e. apply list_elem_of_In, List.filter_In in He as [He Hn]. apply bool_decide_eq_true in Hn. rewrite Hn. split; [done|by apply list_elem_of_In].
Qed.

Lemma current_written l kd n o : log_wf l -> current (hist_of l kd n) = Some o ->
  kind_of o = kd /\ name_of o = n /\ exists i, (i < List.length l)%nat /\ uid o = rv_text (S i).
Proof.
  intros Hw (h & Eh)%current_head. destruct (hist_entry l kd n o Hw) as (? & ? & _ & ? & _); [rewrite Eh; left|done].
Qed.

Lemma current_version l kd n o : log_wf l -> current (hist_of l kd n) = Some o -> exists i, version o = rv_text (S i).
Proof.
  intros Hw (h & Eh)%current_head. destruct (hist_entry l kd n o Hw) as (_ & _ & (i & _ & ?) & _); [rewrite Eh; left|eauto].
Qed.

Lemma unchanged_admits o old : uid old <> "" -> version old <> "" -> unchanged o old = true -> admits tcp_ports o old.
Proof.
  intros Hu Hv E. assert (stamp (uid old) (version old) o = old) as <-; [|by apply stamp_admits].
  unfold unchanged in E. destruct (stamp _ _ o); try done. destruct old; try done. apply bool_decide_eq_true in E. by subst.
Qed.

Lemma admits_unchanged o old : kind_of o = KService -> admits tcp_ports o old -> unchanged o old = true.
Proof.
  intros Ek Ha. destruct o as [| |s| | | | | | | | | | | | | |]; try done. destruct Ha as (_ & _ & _ & _ & _ & _ & i & v & ->). unfold unchanged. simpl. by apply bool_decide_eq_true.
Qed.

Lemma log_create_write o l r l' : log_wf l -> log_create o l = (r, l') ->
  let n := name_of o in let kd := kind_of o in
  (grows_by (nobody kd n) (hist_of l kd n) (hist_of l' kd n) /\ is_ok r = false) \/
  exists h o', grows_by (nobody kd n) (hist_of l kd n) h /\ current h = None /\ admits tcp_ports o o' /\
    Forall (fun x => forall old, x = Some old -> uid old <> uid o') h /\
    grows_by (nobody kd n) (Some o' :: h) (hist_of l' kd n) /\ (forall x, r = Ok x -> x = o').
Proof.
  intros Hw [[-> Hr]|(Hc & -> & ->)]%log_create_cases n kd; [left; split; [constructor|done]|]. right.
  exists (hist_of l kd n), (stamp (ids l) (ids l) o). split; [constructor|]. split; [done|]. split; [by apply stamp_admits|]. split; [|split; [|congruence]].
  - apply Forall_forall. intros x Hx old ->. destruct (hist_entry l kd n old Hw Hx) as (_ & _ & _ & (i & Hi & ->) & _).
    rewrite stamp_uid. intros E%rv_text_inj. lia.
  - apply same_grows. unfold store. by rewrite hist_push_stamped.
Qed.

Lemma log_update_write o l r l' : log_wf l -> log_update o l = (r, l') ->
  let n := name_of o in let kd := kind_of o in
  (grows_by (nobody kd n) (hist_of l kd n) (hist_of l' kd n) /\ is_ok r = false) \/
  exists h old, grows_by (nobody kd n) (hist_of l kd n) h /\ current h = Some old /\ names_version o old /\
    ((admits tcp_ports o old /\ version o = version old /\ grows_by (nobody kd n) h (hist_of l' kd n) /\ (forall x, r = Ok x -> x = old)) \/
     (exists o', admits tcp_ports o o' /\ uid o' = uid old /\
        (kind_of o = KService -> ~ (admits tcp_ports o old /\ version o = version old)) /\
        grows_by (nobody kd n) (Some o' :: h) (hist_of l' kd n) /\ (forall x, r = Ok x -> x = o'))).
Proof.
  intros Hw [[-> Hr]|(old & Hc & Hv & Hcase)]%log_update_cases n kd; [left; split; [constructor|done]|]. right.
  destruct (current_written _ _ _ _ Hw Hc) as (_ & _ & i & _ & Eu).
  exists (hist_of l kd n), old. split; [constructor|]. split; [done|]. split; [done|].
  destruct Hcase as [(-> & -> & Ev & Hu)|(-> & -> & Hne)]; [left|right].
  - split; [|split; [done|split; [constructor|congruence]]]. apply unchanged_admits; [by rewrite Eu| |done].
    by destruct (current_version _ _ _ _ Hw Hc) as (j & ->).
  - exists (stamp (uid old) (ids l) o). split; [apply stamp_admits; [by rewrite Eu|done]|]. split; [apply stamp_uid|].
    split; [intros Ek [Ha Ev]; apply Hne; split; [done|by apply admits_unchanged]|]. split; [|congruence].
    apply same_grows. by rewrite hist_push_stamped.
Qed.

Lemma log_delete_write kd n pre l r l' : log_wf l -> log_delete kd n pre l = (r, l') ->
  (grows_by (nobody kd n) (hist_of l kd n) (hist_of l' kd n) /\ is_ok r = false) \/
  exists h old after, grows_by (nobody kd n) (hist_of l kd n) h /\ current h = Some old /\ meets pre old /\
    (forall o', after = Some o' -> om_Deleting (meta o') = true) /\ grows_by (nobody kd n) (after :: h) (hist_of l' kd n).
Proof.
  intros _ [[-> Hr]|(old & Hc & Hm & ->)]%log_delete_cases; [left; split; [constructor|done]|]. right.
  exists (hist_of l kd n), old, None. split; [constructor|]. split; [done|]. split; [done|]. split; [done|].
  apply same_grows. rewrite hist_cons. unfold named. by rewrite bool_decide_true.
Qed.

Lemma log_list_read kd sel l x l' : log_list kd sel l = (Ok x, l') ->
  exists h, (forall n, grows_by (nobody kd n) (hist_of l kd n) (h n) /\ grows_by (nobody kd n) (h n) (hist_of l' kd n)) /\
    forall o, o ∈ x <-> exists n, current (h n) = Some o /\ sel ⊆ om_Labels (meta o).
Proof.
  intros [= <- <-]. exists (hist_of l kd). split; [intros n; split; constructor|]. intros o. rewrite list_elem_of_omap. split.
  - intros (n & _ & E). apply bind_Some in E as (o' & Hc & Es). unfold selected in Es. case_bool_decide as Hs; [|done]. injection Es as ->. by exists n.
  - intros (n & Hc & Hs). exists n. split; [by eapply current_in_log|]. rewrite Hc. simpl. unfold selected. by rewrite bool_decide_true.
Qed.

#[refine] Definition log_cluster : Cluster log := {|
  k_get := log_get; k_list := log_list; k_list_pods_everywhere := log_pods; k_create := log_create; k_update := log_update;
  k_delete := log_delete; k_evict := log_evict; history := hist_of; cluster_wf := log_wf; others := nobody; complete_ports := tcp_ports;
  create_write := log_create_write; update_write := log_update_write; delete_write := log_delete_write;
  list_read := fun kd sel k l k' _ => log_list_read kd sel k l k'; version_once := hist_once |}.
Proof.
  - intros kd n l r l' Hw [-> _]%log_get_same. split; [done|]. constructor.
  - intros kd sel l r l' Hw [= _ <-]. split; [done|]. constructor.
  - intros l r l' Hw [= _ <-]. split; [done|]. constructor.
  - intros o l r l' Hw [[-> _]|(_ & -> & _)]%log_create_cases; [split; [done|constructor]|]. split; [by apply store_wf|].
    intros kd n Hne. apply same_grows. symmetry. apply hist_push_other. by rewrite stamp_kind, stamp_name.
  - intros o l r l' Hw [[-> _]|(old & Hc & _ & [(-> & _)|(-> & _)])]%log_update_cases; [split; [done|constructor]..|].
    destruct (current_written _ _ _ _ Hw Hc) as (_ & _ & i & Hi & ->). split; [apply push_wf; [done|lia]|].
    intros kd n Hne. apply same_grows. symmetry. apply hist_push_other. by rewrite stamp_kind, stamp_name.
  - intros kd n pre l r l' Hw [[-> _]|(old & _ & _ & ->)]%log_delete_cases; [split; [done|constructor]|]. split; [done|].
    intros kd' n' Hne. apply same_grows. symmetry. apply hist_other. simpl. congruence.
  - intros n l r l' Hw [[-> _]|(old & _ & _ & ->)]%log_delete_cases; [split; [done|constructor]|]. split; [done|].
    intros kd' n' Hne. apply same_grows. symmetry. apply hist_other. simpl. congruence.
  - intros kd n l o l' Hw [-> Hc]%log_get_same. specialize (Hc _ eq_refl). exists (hist_of l kd n). split; [constructor|]. split; [done|constructor].
  - intros n l r l' Hw E. destruct (log_delete_write _ _ _ _ _ _ Hw E) as [?|(h & old & after & G1 & Hc & _ & Hd & G2)]; [by left|right]. by exists h, old, after.
  - intros l kd n o Hw Hin. destruct (hist_entry l kd n o Hw Hin) as (? & ? & (i & _ & ->) & (j & _ & ->) & _). done.
  - intros l n s Hw Hin. by destruct (hist_entry l KService n (OService s) Hw Hin) as (_ & _ & _ & _ & ?).
Defined.
End log.

(** ** Concrete ports and types *)

(** A port: its name, protocol and number. *)
#[refine] Definition port_types : KubeTypes := {|
  service_port := string * string * Z; zero_port := ("", "", 0); sp_Name := fun p => p.1.1; sp_Protocol := fun p => p.1.2;
  sp_Port := fun p => p.2; sp_TargetsInt := fun p => Z.eqb p.2; enc_ServicePort := fun p => JArr (bits_of (encode p));
  dec_ServicePort := fun _ j => match j with JArr l => of_bits l ≫= decode | _ => None end |}.
Proof.
  - intros _ p. rewrite of_bits_of. simpl. apply decode_encode.
  - intros p. destruct (bits_wf (encode p)) as [W D]. split; [by apply wf_json_arr|].
    change (json_depth (JArr (bits_of (encode p)))) with (1 + foldr Z.max 0 (List.map json_depth (bits_of (encode p)))).
    assert (foldr Z.max 0 (List.map json_depth (bits_of (encode p))) <= 0); [|lia]. apply foldr_max_le. split; [done|]. by apply Forall_map.
Defined.

#[refine] Definition port_ops : @KubePorts port_types :=
  Build_KubePorts port_types (fun p => ("http", "", p)) (fun s p => (p.1.1, s, p.2)) _ _ _ _ _ _ _ _.
Proof. all: try done. intros p. apply Z.eqb_refl. Defined.

(** The sample environment counts in thousandths. *)
#[refine] Definition plain_rest : @KubeRest forward_env := @Build_KubeRest forward_env unit _ tt (fun q => 10 ^ 6 * q) _ _.
Proof.
  - intros a b. change (Z.sgn (a - b) = Z.sgn (10 ^ 6 * a - 10 ^ 6 * b)). rewrite <- Z.mul_sub_distr_l, Z.sgn_mul. by destruct (Z.sgn (a - b)).
  - intros a. change (Z.sgn a = Z.sgn (10 ^ 6 * a)). rewrite Z.sgn_mul. by destruct (Z.sgn a).
Defined.

Section run.
#[local] Existing Instance forward_env.
#[local] Existing Instance port_types.
#[local] Existing Instance port_ops.
#[local] Existing Instance plain_rest.
#[local] Existing Instance log_cluster.
#[local] Existing Instance tree_fields.
#[local] Existing Instance plain_details.

Notation log := (list (kind * string * option object)).

Definition run_tls : TLSConfig := MkTLS "" "" "".
Definition shop : Config := sample_config "shop" "nginx:1" "shop.example.com".
Definition shop_op : string := op_of "a"%char.
(** The Pods of a Deployment become available. *)
Definition start_pods (n : string) (l : log) : log :=
  match current (hist_of l KDeployment n) with
  | Some (ODeployment d) =>
      let r := default 1 (d_Replicas d) in let m := d_Meta d in
      push (stamp (om_UID m) (ids l) (ODeployment
        (MkDeployment (MkMeta (om_Name m) (om_Namespace m) (om_UID m) (om_ResourceVersion m) 1 (om_Deleting m) (om_Labels m) (om_Annotations m))
          (d_Replicas d) (d_Selector d) (d_PodLabels d) (d_PodAnnotations d) (d_Pod d) (d_Strategy d) (d_MinReadySeconds d)
          (d_RevisionHistoryLimit d) (d_ProgressDeadline d) (d_Rest d) (MkStatus 1 r r r r 0)))) l
  | _ => l
  end.

Lemma start_pods_wf n l : log_wf l -> log_wf (start_pods n l).
Proof.
  intros Hw. unfold start_pods. destruct (current _) as [[]|] eqn:E; try done. destruct (current_written _ _ _ _ Hw E) as (_ & _ & i & Hi & Eu).
  unfold uid in Eu. simpl in Eu. rewrite Eu. apply push_wf; [done|lia].
Qed.

Lemma prepare_wf op l : log_wf l -> log_wf (PrepareCandidateDeployment "apps" shop "" op "" l).2.
Proof.
  intros Hw. destruct (PrepareCandidateDeployment "apps" shop "" op "" l) as [r l'] eqn:E.
  pose proof (within_prepare (K:=log) "apps" "" shop "" op "") as W. by destruct (W _ _ _ Hw E).
Qed.

Lemma log_is_wf l : log_wf l -> cluster_wf l.
Proof. done. Qed.

(** ** Preparing and activating a candidate *)

Definition shop_service_object (op : string) : object :=
  OService (with_annotation activationOperationAnnotation op (candidateServiceForApp shop "apps")).
Definition served : log := store (shop_service_object shop_op) [].
Definition served_gate : ActivationGate := MkGate "shop" "apps" "v" "v" shop_op.
Definition ready : log := start_pods (candidateDeploymentName "shop" shop_op) (PrepareCandidateDeployment "apps" shop "" shop_op "" served).2.

Lemma served_wf : cluster_wf served.
Proof. apply log_is_wf. by apply store_wf. Qed.

Lemma ready_wf : cluster_wf ready.
Proof. apply log_is_wf, start_pods_wf, prepare_wf. by apply store_wf. Qed.

Lemma runs {S A} (m : ST S A) s : is_ok (m s).1 = true -> exists a s', m s = (Ok a, s').
Proof. destruct (m s) as [[a|e] s']; [eauto|done]. Qed.

Lemma activation_runs : is_ok (ActivatePreparedCandidate "apps" served_gate shop "" shop_op "" ready).1 = true.
Proof. vm_compute. reflexivity. Qed.

Lemma activation_on_evidence_witness : exists g l', ActivatePreparedCandidate "apps" served_gate shop "" shop_op "" ready = (Ok g, l') /\
  exists desired d l1, CandidateDeploymentForApp shop "apps" "" shop_op "" = Ok desired /\ seen ready l1 (ODeployment d) /\ serving desired d.
Proof.
  destruct (runs _ _ activation_runs) as (g & l' & E). exists g, l'. split; [exact E|].
  destruct (activation_on_evidence (K:=log) "apps" served_gate shop "" shop_op "" ready (Ok g) l' ready_wf E)
    as [[_ Hf]|(desired & policy & d & p & l1 & Ed & _ & _ & _ & _ & (Hs & _ & Hv) & _)]; [discriminate Hf|].
  exists desired, d, l1. exact (conj Ed (conj Hs Hv)).
Defined.

Lemma prepare_runs : is_ok (PrepareCandidateDeployment "apps" shop "" shop_op "" served).1 = true.
Proof. vm_compute. reflexivity. Qed.

Lemma prepare_isolates_first_witness : exists l', PrepareCandidateDeployment "apps" shop "" shop_op "" served = (Ok tt, l') /\
  exists policy l1, candidateNetworkPolicyForApp shop "apps" shop_op = Ok policy /\ after served l1 /\ after l1 l' /\ policy_in_force l1 policy.
Proof.
  destruct (runs _ _ prepare_runs) as ([] & l' & E). exists l'. split; [exact E|].
  destruct (prepare_isolates_first (K:=log) "apps" shop "" shop_op "" served (Ok tt) l' served_wf E)
    as [[_ Hf]|(desired & policy & l1 & _ & Ep & _ & A1 & A2 & Hp & _)]; [discriminate|]. exists policy, l1. exact (conj Ep (conj A1 (conj A2 Hp))).
Defined.

(** ** Retiring a candidate: later preparation, activation and deletion of the app do not bring it back *)

Definition retired_calls : list control_call :=
  [CPrepare shop "" shop_op ""; CActivate served_gate shop "" shop_op ""; CReconcile 3 shop ∅ "" None; CDrain "node-a";
   CCleanup served_gate "app-1"; CDelete "shop"; CPrepare shop "" shop_op ""].

Lemma retire_runs : is_ok (RetireCandidateDeployment "apps" shop "" shop_op "" served).1 = true.
Proof. vm_compute. reflexivity. Qed.

Lemma retired_names : forallb (fun c => negb (bool_decide (legacy_app c = Some (candidateDeploymentName (Cfg_Name shop) shop_op)))) retired_calls = true.
Proof. vm_compute. reflexivity. Qed.

Lemma retired_legacy c : c ∈ retired_calls -> legacy_app c <> Some (candidateDeploymentName (Cfg_Name shop) shop_op).
Proof.
  intros Hc%list_elem_of_In. pose proof retired_names as Hn. rewrite forallb_forall in Hn. specialize (Hn c Hc).
  apply negb_true_iff, bool_decide_eq_false in Hn. exact Hn.
Qed.

Lemma nobody_resurrects n (h : hist) x : others (K:=log) KDeployment n h x -> keeps_tombstone h x.
Proof. intros []. Qed.

Lemma retirement_is_final_witness : exists l1, RetireCandidateDeployment "apps" shop "" shop_op "" served = (Ok tt, l1) /\
  exists o, current (history (run_calls "apps" run_tls retired_calls l1) KDeployment (candidateDeploymentName (Cfg_Name shop) shop_op)) = Some o /\
    tombstone o.
Proof.
  destruct (runs _ _ retire_runs) as ([] & l1 & E). exists l1. split; [exact E|].
  exact (retirement_is_final (K:=log) "apps" run_tls shop "" shop_op "" served l1 retired_calls served_wf (nobody_resurrects _) E retired_legacy).
Defined.

(** ** Finishing a deletion *)

Definition marked : log := (BeginCandidateDeletion "apps" shop "app-1" true []).2.
Definition marked_gate : ActivationGate := MkGate "shop" "apps" "v" "v" (candidateDeletionOperationID "shop" "app-1").

Lemma finish_runs : is_ok (FinishCandidateDeletion "apps" marked_gate "app-1" marked).1 = true.
Proof. vm_compute. reflexivity. Qed.

Lemma finish_writes : (let r := FinishCandidateDeletion "apps" marked_gate "app-1" marked in
  (List.length (hist_of r.2 KService (Gate_App marked_gate)) =? List.length (hist_of marked KService (Gate_App marked_gate)))%nat) = false.
Proof. vm_compute. reflexivity. Qed.

(** The log grows only by the operation. *)
Lemma nobody_grows kd n (l l' : log) : grows_by (others kd n) (history l kd n) (history l' kd n) ->
  (List.length (hist_of l' kd n) =? List.length (hist_of l kd n))%nat = true.
Proof. intros G. apply grows_by_length in G; [by apply Nat.eqb_eq|]. intros h o Hf. exact Hf. Qed.

Lemma marked_wf : cluster_wf marked.
Proof.
  unfold marked. destruct (BeginCandidateDeletion "apps" shop "app-1" true []) as [r l'] eqn:E.
  pose proof (within_begin (K:=log) "apps" "" (others KDeployment "") (fun _ _ H => H) shop "app-1" true) as W. by destruct (W [] _ _ I E).
Qed.

Lemma finish_deletes_fenced_witness : exists l', FinishCandidateDeletion "apps" marked_gate "app-1" marked = (Ok tt, l') /\
  exists s, fenced_marker marked_gate "app-1" s /\ no_pods "shop" marked l'.
Proof.
  pose proof finish_writes as N. cbv zeta in N. destruct (runs _ _ finish_runs) as ([] & l' & E). exists l'. split; [exact E|]. rewrite E in N.
  destruct (finish_deletes_fenced (K:=log) "apps" marked_gate "app-1" marked (Ok tt) l' marked_wf E)
    as [G|(s & older & after_ & _ & _ & _ & Hf & Hp)]; [|exists s; exact (conj Hf Hp)].
  apply nobody_grows in G. exfalso. exact (Bool.eq_true_false_abs _ G N).
Defined.

(** ** Capacity: two nodes, one of them half used *)

Definition rack_node (n : string) : object :=
  ONode (MkKNode (MkMeta n "" "" "" 0 false ∅ ∅) false [("Ready", "True", "")] []
    {["cpu" := 10 ^ 9; "memory" := 10 ^ 9 * 2 ^ 30; "ephemeral-storage" := 10 ^ 9 * 10 * 2 ^ 30; "pods" := 10 ^ 9 * 20]}).
Definition rack_pod : object :=
  OPod (MkPod (MkMeta "db-0" "apps" "" "" 0 false ∅ ∅) "node-a" "Running" [{["cpu" := 10 ^ 9 / 2]}] [] ∅ false []).
Definition rack : log := store rack_pod (store (rack_node "node-b") (store (rack_node "node-a") [])).

Lemma rack_nodes : match (nodes_List rack).1 with
  | Ok ns => bool_decide (NoDup ((fun n => node_name n) <$> ns)) && negb (bool_decide ("" ∈ ((fun n => node_name n) <$> ns)))
  | Err _ => false end = true.
Proof. vm_compute. reflexivity. Qed.

Lemma rack_fits : is_ok (preflightHostingCapacity shop rack).1 = true.
Proof. vm_compute. reflexivity. Qed.

Lemma hosting_valid : Hosting_Validate (Some sample_hosting) 2 = Ok tt.
Proof. vm_compute. reflexivity. Qed.

Lemma capacity_exact_witness : exists nodes pods r, requestedVector sample_hosting = Ok r /\ placement shop sample_hosting r nodes pods.
Proof.
  pose proof rack_nodes as F. destruct (nodes_List rack) as [[nodes|e] k1] eqn:En; [|discriminate]. simpl in F.
  apply andb_true_iff in F as [F1 F2]. apply bool_decide_eq_true in F1. apply negb_true_iff, bool_decide_eq_false in F2.
  destruct (k_list_pods_everywhere k1) as [[pods|e] k2] eqn:Ep; [|discriminate].
  destruct (capacity_exact (K:=log) shop sample_hosting 2 rack nodes k1 pods k2 eq_refl hosting_valid En Ep F1 F2) as (r & Er & Hiff).
  exists nodes, pods, r. split; [exact Er|]. exact (proj2 (proj1 Hiff rack_fits)).
Defined.
End run.

(** ** Runs of the controller in memory

    Reconciling an app and its database, draining and removing a node, on the log of
    [ClusterRun]; the theorems on the controller hold of these runs. *)
Section run.
#[local] Existing Instance forward_env.
#[local] Existing Instance port_types.
#[local] Existing Instance port_ops.
#[local] Existing Instance plain_rest.
#[local] Existing Instance log_cluster.
#[local] Existing Instance tree_fields.
#[local] Existing Instance plain_details.

Notation log := (list (kind * string * option object)).

Lemma texts_of js l : Forall2 (fun x y => as_str x = Some y) js l -> js = JStr <$> l.
Proof. induction 1 as [|x y ? ? Hx _ IH]; [done|]. destruct x; try discriminate. injection Hx as ->. by rewrite IH. Qed.

(** ** An app on a cluster with room for it *)

Definition deploy_shop : app_call := AReconcile 3 shop ∅ "" None.

Lemma rack_wf : cluster_wf rack.
Proof. exact (store_wf _ _ (store_wf _ _ (store_wf _ [] I))). Qed.

Lemma shop_canonical : canonical_call deploy_shop.
Proof. vm_compute. reflexivity. Qed.

Lemma shop_deploys : is_ok (run_app_call "apps" run_tls deploy_shop rack).1 = true.
Proof. vm_compute. reflexivity. Qed.


(** ** An app with a managed database *)

Definition db_postgres : PostgresConfig :=
  let p := sample_postgres in
  {| Pg_Instances := Pg_Instances p;
     Pg_Image := "ghcr.io/cloudnative-pg/postgresql:17.5@sha256:0123456789abcdef0123456789abcdef0123456789abcdef0123456789abcdef";
     Pg_Database := Pg_Database p; Pg_Owner := Pg_Owner p; Pg_ConnectionEnv := Pg_ConnectionEnv p; Pg_ConnectionMode := Pg_ConnectionMode p;
     Pg_Storage := Pg_Storage p; Pg_Synchronous := Pg_Synchronous p; Pg_RetentionPolicy := Pg_RetentionPolicy p |}.
Definition db_shop : Config :=
  let c := database_config in
  {| Cfg_ImagePullCredential := Cfg_ImagePullCredential c; Cfg_EnvironmentRevision := Cfg_EnvironmentRevision c; Cfg_Name := Cfg_Name c;
     Cfg_Image := Cfg_Image c; Cfg_Service := Cfg_Service c; Cfg_Metrics := Cfg_Metrics c; Cfg_Routing := Cfg_Routing c; Cfg_Deploy := Cfg_Deploy c;
     Cfg_Placement := Cfg_Placement c; Cfg_Storage := Cfg_Storage c; Cfg_Secrets := Cfg_Secrets c; Cfg_State := Cfg_State c;
     Cfg_Resilience := Cfg_Resilience c; Cfg_Database := {| Database_Postgres := Some db_postgres |}; Cfg_Hosting := None |}.

Lemma db_shop_normal : Normalize db_shop = db_shop.
Proof. vm_compute. reflexivity. Qed.
Lemma db_shop_valid : Validate db_shop = Ok tt.
Proof. vm_compute. reflexivity. Qed.
Lemma db_shop_stored : stored_database db_shop db_postgres.
Proof. exact (conj db_shop_normal (conj db_shop_valid eq_refl)). Qed.

Definition arm_node (n : string) : object :=
  ONode (MkKNode (MkMeta n "" "" "" 0 false {["kubernetes.io/arch" := "arm64"]} ∅) false [("Ready", "True", "")] [] ∅).
Definition arms : log := store (arm_node "n3") (store (arm_node "n2") (store (arm_node "n1") [])).

Lemma arms_wf : cluster_wf arms.
Proof. exact (store_wf _ _ (store_wf _ _ (store_wf _ [] I))). Qed.

Definition deploy_db : app_call := AReconcile 3 db_shop ∅ "" None.

(** The whole reconciliation ends, and has stored a Cluster. *)
Definition db_deploys : bool :=
  let '(r, l) := run_app_call "apps" run_tls deploy_db arms in
  is_ok r && match current (hist_of l KDatabase "shop-db") with Some _ => true | None => false end.
Lemma database_created : db_deploys = true.
Proof. vm_compute. reflexivity. Qed.

Lemma database_kept_witness : exists l', run_app_call "apps" run_tls deploy_db arms = (Ok tt, l') /\
  is_Some (current (hist_of l' KDatabase "shop-db")) /\
  grows_by (fun h x => others (K:=log) KDatabase "shop-db" h x \/
      exists polls cfg values revision credential p, deploy_db = AReconcile polls cfg values revision credential /\
        Database_Postgres (Cfg_Database cfg) = Some p /\ database_change "apps" cfg p "shop-db" h x)
    (history arms KDatabase "shop-db") (history l' KDatabase "shop-db").
Proof.
  pose proof database_created as Hd. unfold db_deploys in Hd. destruct (run_app_call "apps" run_tls deploy_db arms) as [[[]|e] l'] eqn:E; [|discriminate Hd].
  exists l'. split; [reflexivity|]. split; [destruct (current (hist_of l' KDatabase "shop-db")) as [o|]; [exists o; reflexivity|discriminate Hd]|].
  exact (database_kept (K:=log) "apps" run_tls deploy_db "shop-db" arms (Ok tt) l' arms_wf (conj db_shop_normal db_shop_valid) E).
Defined.

(** The Cluster as another owner left it: with a parameter and a rule of its own. *)
Definition rendered_shop : option custom := postgresClusterForApp "apps" db_shop.
Definition tuned (c : custom) : result custom :=
  b ← set_at (cu_Body c) ["spec"; "postgresql"; "parameters"; "max_connections"] (JStr "200");
  b ← set_at b p_hba (JArr (JStr <$> ["hostssl reports reader all scram-sha-256"]));
  Ok (MkCustom (cu_Meta c) b).

Definition tuned_merges : bool :=
  match rendered_shop with
  | None => false
  | Some d => match tuned d with
              | Err _ => false
              | Ok t => is_ok (mergePostgresCluster t d) &&
                        match field_at (cu_Body t) p_hba with Ok (Some (JArr l)) => bool_decide (mapM as_str l = Some ["hostssl reports reader all scram-sha-256"]) | _ => false end
              end
  end.

Lemma tuned_shop_merges : tuned_merges = true.
Proof. vm_compute. reflexivity. Qed.

Lemma written_conforms_witness : exists d t m, rendered_shop = Some d /\ mergePostgresCluster t d = Ok m /\
  clusterWarnings db_shop db_postgres (cluster_status "shop" m) 3 = [] /\ validatePostgresUpdate (cu_Body m) (cu_Body d) = Ok tt.
Proof.
  pose proof tuned_shop_merges as Ht. unfold tuned_merges in Ht. destruct rendered_shop as [d|] eqn:Ed; [|discriminate]. destruct (tuned d) as [t|]; [|discriminate].
  destruct (mergePostgresCluster t d) as [m|] eqn:Em; [|discriminate]. apply andb_true_iff in Ht as [_ Ht].
  assert (text_rules t) as Hr.
  { right. exists ["hostssl reports reader all scram-sha-256"]. cbn [NestedField tree_fields]. destruct (field_at (cu_Body t) p_hba) as [[[| | | |l|]|]|]; try discriminate.
    apply bool_decide_eq_true in Ht. do 3 f_equal. apply mapM_Some in Ht. by apply texts_of. }
  exists d, t, m. split; [reflexivity|]. split; [exact Em|].
  destruct (written_conforms "apps" db_shop db_postgres d t m m db_shop_stored Ed (or_intror (conj Em (conj Hr eq_refl)))) as (Hw & _ & Hv).
  exact (conj Hw Hv).
Defined.

(** ** Draining and removing a node *)

Definition web_pod : object :=
  OPod (MkPod (MkMeta "web-0" "apps" "" "" 0 false {["deployer.io/state-mode" := "stateless"]} ∅) "node-a" "Running" [] [] ∅ false []).
Definition busy : log := store web_pod rack.

Lemma busy_wf : cluster_wf busy.
Proof. exact (store_wf _ _ rack_wf). Qed.

Lemma drain_runs : is_ok (KubeNodes.DrainNode "node-a" busy).1 = true.
Proof. vm_compute. reflexivity. Qed.

Lemma drain_writes : (List.length (hist_of (KubeNodes.DrainNode "node-a" busy).2 KPod "web-0") =? List.length (hist_of busy KPod "web-0"))%nat = false.
Proof. vm_compute. reflexivity. Qed.

Lemma drain_spares_witness : exists l', KubeNodes.DrainNode "node-a" busy = (Ok tt, l') /\
  exists k0 k1 h, cordoned "node-a" k0 /\ moment k0 k1 KPod h /\
    forall m p, current (h m) = Some (OPod p) -> pod_NodeName p = "node-a" -> ~ database_instance p.
Proof.
  pose proof drain_writes as N. destruct (runs _ _ drain_runs) as ([] & l' & E). exists l'. split; [exact E|]. rewrite E in N.
  destruct (drain_spares (K:=log) "node-a" "web-0" busy (Ok tt) l' busy_wf E) as [G|(k0 & k1 & h & _ & Hc & _ & Hm & _ & Hd & _)].
  - apply nobody_grows in G. exfalso. exact (Bool.eq_true_false_abs _ G N).
  - exists k0, k1, h. exact (conj Hc (conj Hm Hd)).
Defined.

Lemma remove_runs : is_ok (KubeNodes.RemoveNode "node-b" busy).1 = true.
Proof. vm_compute. reflexivity. Qed.

Lemma remove_writes : (List.length (hist_of (KubeNodes.RemoveNode "node-b" busy).2 KNode "node-b") =? List.length (hist_of busy KNode "node-b"))%nat = false.
Proof. vm_compute. reflexivity. Qed.

Lemma removal_keeps_data_witness : exists l', KubeNodes.RemoveNode "node-b" busy = (Ok tt, l') /\
  exists nd k0 k1 hv, seen busy k0 (ONode nd) /\ moment k0 k1 KVolume hv.
Proof.
  pose proof remove_writes as N. destruct (runs _ _ remove_runs) as ([] & l' & E). exists l'. split; [exact E|]. rewrite E in N.
  destruct (removal_keeps_data (K:=log) "node-b" "node-b" busy (Ok tt) l' busy_wf E) as [G|(nd & k0 & k1 & k2 & hv & hd & _ & Hs & _ & Hm & _)].
  - apply nobody_grows in G. exfalso. exact (Bool.eq_true_false_abs _ G N).
  - exists nd, k0, k1, hv. exact (conj Hs Hm).
Defined.
End run.
