(* ===== verification/EndToEnd.v ===== *)
(** * From the journal to the cluster

    The candidate operations of the server, run on the controller, which runs on the
    cluster.  [kwp m d x Q]: started with database [d] and runtime [x], the operation
    [m] can only end in outcomes, databases and runtimes that satisfy [Q]. *)

From S2P Require Import Prelude GoStrings Regexp Sha256 GoJson GoTime Appconfig AppconfigSpec DatabaseStatus Db DbRepos DbCandidates DbInv DbSteps DbProps DbEffects DbLifecycle Security Activation ActivationProps Candidate CandidateOps CandidateLogic CandidateProps NodeRegistry Workloads WorkloadProps Cluster Resources Capacity CandidateControl Postgres KubeNodes Controller ControlLogic CandidateEvidence ClusterRun.
From Stdlib Require Import Ascii String.
Local Open Scope Z_scope.

(** ** The calculus *)

Section calculus.
Context `{KubeTypes} `{AppEnv} {K : Type}.
Notation R := (M (rt K)).

Definition kwp {A} (m : R A) (d : Db) (x : rt K) (Q : result A -> Db -> rt K -> Prop) : Prop :=
  forall w r w', w_db w = d -> w_k w = x -> m w = (r, w') -> Q r (w_db w') (w_k w').

Lemma kwp_lift {A} (r : result A) d x (Q : result A -> Db -> rt K -> Prop) : Q r d x -> kwp (lift r) d x Q.
Proof. intros HQ w r' w' <- <- [= <- <-]. done. Qed.

Lemma kwp_ret {A} (a : A) d x (Q : result A -> Db -> rt K -> Prop) : Q (Ok a) d x -> kwp (mret a) d x Q.
Proof. apply kwp_lift. Qed.

Lemma kwp_throw {A} e d x (Q : result A -> Db -> rt K -> Prop) : Q (Err e) d x -> kwp (throw e) d x Q.
Proof. apply kwp_lift. Qed.

Lemma kwp_refuse b msg d x (Q : result unit -> Db -> rt K -> Prop) :
  (b = true -> Q (Err (ErrSentinel msg)) d x) -> (b = false -> Q (Ok tt) d x) -> kwp (refuse b msg) d x Q.
Proof. intros Ht Hf. apply kwp_lift. destruct b; [by apply Ht|by apply Hf]. Qed.

Lemma kwp_bind {A B} (m : R A) (f : A -> R B) d x (Q : result B -> Db -> rt K -> Prop) :
  kwp m d x (fun r d' x' => match r with Ok a => kwp (f a) d' x' Q | Err e => Q (Err e) d' x' end) -> kwp (mbind f m) d x Q.
Proof.
  intros HM w r w' Hd Hw [(e & He & ->)|(a & w1 & Ha & Hf)]%st_bind_inv; [exact (HM w _ w' Hd Hw He)|].
  exact (HM w _ w1 Hd Hw Ha w1 r w' eq_refl eq_refl Hf).
Qed.

Lemma kwp_mono {A} (m : R A) d x (Q Q' : result A -> Db -> rt K -> Prop) : kwp m d x Q -> (forall r d' x', Q r d' x' -> Q' r d' x') -> kwp m d x Q'.
Proof. intros HM HQ w r w' Hd Hx E. apply HQ. by eapply HM. Qed.

Lemma kwp_find_one {S A} (select : Db -> option S) (scan : S -> result A) d x (Q : result A -> Db -> rt K -> Prop) :
  (forall e, Q (Err e) d x) -> (forall s a, select d = Some s -> scan s = Ok a -> Q (Ok a) d x) -> kwp (find_one select scan) d x Q.
Proof.
  intros He Hs. unfold find_one. apply kwp_bind. intros w r w' <- <- (E1 & E2 & Hr)%db_query_inv. rewrite E1, E2.
  destruct Hr as [->| ->]; [|apply He]. apply kwp_lift. destruct (select (w_db w)) as [s|] eqn:Es; [|apply He].
  destruct (scan s) as [a|e] eqn:Ea; [by eapply Hs|apply He].
Qed.

Lemma kwp_invoke {A} ev (f : K -> result A * K) d x (Q : result A -> Db -> rt K -> Prop) :
  (forall r k', f (rt_k _ x) = (r, k') -> Q r d (Rt _ k' (rt_log _ x ++ [(ev r, d)])%list)) -> kwp (invoke ev f) d x Q.
Proof. intros HQ w r w' <- <- Hm. unfold invoke in Hm. destruct (f _) as [r1 k1] eqn:Ef. injection Hm as <- <-. by apply HQ. Qed.

(** Repositories leave the runtime alone. *)
Lemma kwp_safe {A} (m : R A) d x (Q : result A -> Db -> rt K -> Prop) : db_inv d -> safe_op m -> (forall r d', Q r d' x) -> kwp m d x Q.
Proof. intros Hi Hm HQ w r w' <- <- E. destruct (Hm _ _ _ Hi E) as [_ ->]. apply HQ. Qed.
End calculus.

(** ** What the controller has seen *)

(** Any change of any object. *)
Ltac walk_anything := repeat
  match goal with
  | |- within ?kd ?n _ (k_create _) => by apply within_create
  | |- within ?kd ?n _ (k_update _) => by apply within_update
  | |- within ?kd ?n _ (k_delete _ _ _) => by apply within_delete
  | |- within ?kd ?n _ _ => walk_step (any_others kd n)
  end.

Section evidence.
Context `{KubeTypes} `{!KubePorts} `{KubeRest} {K : Type} `{!Cluster K} (namespace : string) (tls : TLSConfig).

Lemma capture_seen app k g t k' : cluster_wf k -> CaptureActivationGate app k = (Ok (g, t), k') ->
  exists s, after k k' /\ seen k k' (OService s) /\ Svc_Name s = app /\ g = activationGateFor s /\ t = MkTarget (Svc_Selector s) (Svc_Ports s).
Proof.
  intros Hw E. unfold CaptureActivationGate, Get, services_Get, cluster_services, services_get in E.
  apply st_bind_ok in E as (s & k1 & E1 & E). apply st_bind_ok in E1 as (o & k2 & E1 & [= Eo <-]).
  apply st_bind_ok in E as ([] & k3 & [= _ <-] & E). apply st_bind_ok in E as ([] & k3 & [= _ <-] & E). injection E as <- <- <-.
  destruct (seen_get _ _ _ _ _ Hw E1) as (A & _ & En & Hs). destruct o; try discriminate. injection Eo as ->. by exists s.
Qed.

Lemma any_atGate kd n gate : within kd n any (serviceAtGate namespace gate).
Proof. apply within_any_atGate. Qed.

Lemma any_ready kd n g t cfg : within kd n any (RestoredCandidateTargetReady namespace g t cfg).
Proof. unfold RestoredCandidateTargetReady, deployments_Get. repeat first [apply any_atGate | progress walk_anything]. Qed.

Lemma any_route kd n g t cfg : within kd n any (ReconcileCandidateRoute namespace tls g t cfg).
Proof.
  unfold ReconcileCandidateRoute, reconcileTrafficResilienceResources, deleteTrafficResilienceResources, reconcileDynamicAppResource, deleteDynamicAppResource,
    apply_owned, delete_owned, ensureIssuer, ingresses_Get.
  repeat first [apply any_atGate | progress walk_anything].
Qed.

(** The selector of a candidate names its generation. *)
Lemma generation_of app id sel : CandidateSelector app id = Ok sel ->
  sel = {[appOwnershipLabel := app; candidateGenerationLabel := candidateGeneration app id]} /\ sel <> appLabels app.
Proof.
  unfold CandidateSelector. intros (_ & [= <-])%check_bind. split; [done|]. intros E.
  apply (f_equal (lookup candidateGenerationLabel)) in E. unfold appLabels in E.
  rewrite lookup_insert_ne, lookup_singleton_eq, lookup_insert_ne, lookup_singleton_ne in E by done. discriminate.
Qed.

Lemma restored_candidate app id t cfg x n : CandidateSelector app id = Ok (selector_of t) -> Cfg_Name cfg = app ->
  restoredDeployment namespace t cfg = Ok (x, n) ->
  candidateDeploymentForGeneration cfg namespace (Cfg_EnvironmentRevision cfg) (candidateGeneration app id) (CandidateRegistrySecretName cfg) = Ok x.
Proof.
  intros [Es Hne]%generation_of Hn E. unfold restoredDeployment in E. cbv zeta in E. rewrite Hn in E.
  rewrite bool_decide_false in E by done. apply check_bind in E as [_ E]. apply check_bind in E as [_ E].
  assert (map_get (selector_of t) candidateGenerationLabel = candidateGeneration app id) as Eg.
  { rewrite Es. unfold map_get. by rewrite lookup_insert_ne, lookup_singleton_eq by done. }
  rewrite Eg in E. by destruct (candidateDeploymentForGeneration _ _ _ _ _); [injection E as -> _|].
Qed.

Lemma generation_replicas cfg rev gen pull x : candidateDeploymentForGeneration cfg namespace rev gen pull = Ok x -> is_Some (d_Replicas x).
Proof.
  unfold candidateDeploymentForGeneration. destruct (deploymentForApp cfg namespace rev) as [base|] eqn:Eb; [|discriminate]. simpl.
  destruct (Cfg_Hosting cfg); [|discriminate]. simpl. intros [= <-]. cbn [d_Replicas].
  destruct (deploymentForApp_meta _ _ _ _ Eb) as (_ & _ & _ & _ & _ & _ & _ & _ & ->). eauto.
Qed.

(** Full readiness of a candidate, as it was seen. *)
Lemma ready_seen app id g t cfg k k' : cluster_wf k -> CandidateSelector app id = Ok (selector_of t) -> Cfg_Name cfg = app ->
  RestoredCandidateTargetReady namespace g t cfg k = (Ok true, k') ->
  exists desired d, candidateDeploymentForGeneration cfg namespace (Cfg_EnvironmentRevision cfg) (candidateGeneration app id)
      (CandidateRegistrySecretName cfg) = Ok desired /\ seen k k' (ODeployment d) /\ serving desired d.
Proof.
  intros Hw Hsel Hn E. unfold RestoredCandidateTargetReady in E.
  apply st_bind_ok in E as (s & k1 & Es & E).
  assert (A1 : after k k1) by (eapply after_within; [intros; apply any_atGate|done|exact Es]).
  apply st_bind_ok in E as ([] & k2 & [= _ <-] & E). apply st_bind_ok in E as ([] & k2 & Ev & E). unfold map_err, lift in Ev.
  destruct (Validate cfg); [injection Ev as _ <-|discriminate].
  do 3 (apply st_bind_ok in E as ([] & k2 & [= _ <-] & E)). apply st_bind_ok in E as ([x n] & k2 & [= Ex <-] & E).
  apply st_bind_ok in E as ([] & k2 & [= _ <-] & E). apply st_bind_ok in E as (found & k2 & Ef & E).
  destruct found as [d|]; [|discriminate]. apply find_opt_some in Ef. destruct (seen_deployment _ _ _ _ (proj1 A1) Ef) as (A2 & _ & Hd).
  do 2 (apply st_bind_ok in E as ([] & k3 & [= _ <-] & E)). apply st_bind_ok in E as ([] & k3 & [= Hm <-] & E). injection E as E <-.
  pose proof (restored_candidate _ _ _ _ _ _ Hsel Hn Ex) as Er. exists x, d. split; [done|].
  split; [eapply seen_mono; [exact A1| |exact Hd]; split; [by destruct A2|done]|].
  unfold check in Hm. destruct (candidateDeploymentMatches d x) eqn:Em; [|discriminate]. apply andb_true_iff in E as [Ed E].
  split; [done|]. split; [by apply negb_true_iff|]. destruct (generation_replicas _ _ _ _ _ Er) as [r Hr].
  destruct (matches_fields _ _ Em) as (_ & _ & _ & _ & Hrep & _). rewrite Hr in Hrep. destruct (d_Replicas d) as [r'|]; [|discriminate].
  simpl in Hrep. subst r'. apply andb_true_iff in E as [E1%Z.leb_le E2]. by exists r.
Qed.

(** ** The Service between two observations *)

(** Two observations at one gate see one version, which is current all the time between them. *)
Lemma unchanged_between k0 k1 k2 k3 s s' : cluster_wf k3 -> seen k0 k1 (OService s) -> after k1 k2 -> seen k2 k3 (OService s') ->
  Svc_Name s' = Svc_Name s -> Svc_ResourceVersion s' = Svc_ResourceVersion s ->
  current (history k1 KService (Svc_Name s)) = Some (OService s) /\ history k2 KService (Svc_Name s) = history k1 KService (Svc_Name s).
Proof.
  intros Hw (h & _ & Hc & S1) [_ A] (h' & S2 & Hc' & S3) En Ev. change (kind_of (OService s)) with KService in *. change (kind_of (OService s')) with KService in *.
  change (name_of (OService s)) with (Svc_Name s) in *. change (name_of (OService s')) with (Svc_Name s') in *. rewrite En in *. set (n := Svc_Name s) in *.
  specialize (A KService n). assert (h = h') as <-.
  { destruct (current_head _ _ Hc) as [o1 E1], (current_head _ _ Hc') as [o2 E2].
    assert (Sh : h `suffix_of` history k3 KService n) by (etrans; [exact S1|]; etrans; [exact A|]; by etrans).
    destruct Sh as [e1 F1], S3 as [e2 F2].
    assert (I1 : history k3 KService n !! List.length e1 = Some (Some (OService s))) by (rewrite F1, E1; by apply list_lookup_middle).
    assert (I2 : history k3 KService n !! List.length e2 = Some (Some (OService s'))) by (rewrite F2, E2; by apply list_lookup_middle).
    pose proof (version_once _ _ _ _ _ _ _ Hw I1 I2 (eq_sym Ev)) as El. rewrite F1 in F2. by apply app_inj_1 in F2 as [_ ->]. }
  assert (history k1 KService n = h) as E1 by (apply (anti_symm suffix); [etrans; [exact A|exact S2]|exact S1]).
  assert (history k2 KService n = h) as E2 by (apply (anti_symm suffix); [exact S2|etrans; [exact S1|exact A]]).
  by rewrite E1, E2.
Qed.
End evidence.

(** ** An applied release is served *)

Section served.
Context `{KubeTypes} `{!KubePorts} `{KubeRest} {K : Type} `{!Cluster K} (namespace : string) (tls : TLSConfig) (now : Z).

#[local] Instance journal_runtime : CandidateRuntime K := controller_runtime (K:=K) namespace tls.

(** Between two states: one version of the Service selects exactly the Pods of the
    candidate, and while it is current the Deployment of the candidate is seen with the
    rendered content and every replica of its newest revision available. *)
Definition release_served (k k' : K) (app id : string) (cfg : Config) : Prop :=
  exists k1 k2 s desired d, after k k1 /\ after k1 k2 /\ after k2 k' /\
    current (history k1 KService app) = Some (OService s) /\ history k2 KService app = history k1 KService app /\
    CandidateSelector app id = Ok (default ∅ (Svc_Selector s)) /\
    candidateDeploymentForGeneration cfg namespace (Cfg_EnvironmentRevision cfg) (candidateGeneration app id)
      (CandidateRegistrySecretName cfg) = Ok desired /\ seen k1 k2 (ODeployment d) /\ serving desired d.

Lemma after_refl k : cluster_wf k -> after k k.
Proof. intros Hw. by split. Qed.

Lemma completionRoute_applied app id req cfg i g t d (x : rt K) : cluster_wf (rt_k _ x) -> Cfg_Name cfg = app ->
  kwp (completionRoute app id "applied" req cfg i g t) d x (fun r d' x' => d' = d /\ forall route, r = Ok (Some route) ->
    after (rt_k _ x) (rt_k _ x') /\ CandidateSelector app id = Ok (selector_of t) /\ exists desired dep,
      candidateDeploymentForGeneration cfg namespace (Cfg_EnvironmentRevision cfg) (candidateGeneration app id)
        (CandidateRegistrySecretName cfg) = Ok desired /\ seen (rt_k _ x) (rt_k _ x') (ODeployment dep) /\ serving desired dep).
Proof.
  intros Hw Hn. unfold completionRoute. rewrite String.eqb_refl. destruct (CandidateSelector app id) as [sel|] eqn:Esel; [|by apply kwp_throw].
  apply kwp_bind, kwp_refuse; [done|]. intros Hs%negb_false_iff%bool_decide_eq_true. apply kwp_bind, kwp_invoke. intros r k' E.
  change (RestoredCandidateTargetReady namespace g t cfg (rt_k _ x) = (r, k')) in E. destruct r as [[]|e]; [|by apply kwp_ret|done].
  apply kwp_ret. split; [done|]. intros route _. subst sel. cbn [rt_k].
  split; [eapply after_within; [intros; apply any_ready|done|exact E]|]. split; [done|]. by eapply ready_seen.
Qed.

Lemma commit_applied app id tlsEnabled at_ req cfg i c d (x : rt K) : db_inv d -> cluster_wf (rt_k _ x) -> Cfg_Name cfg = app ->
  kwp (commitOutcome app id "applied" tlsEnabled at_ req cfg i c) d x
    (fun _ d' x' => d' = d \/ release_served (rt_k _ x) (rt_k _ x') app id cfg).
Proof.
  intros Hi Hw Hn. unfold commitOutcome. cbv zeta. destruct (decodeGate (Chk_GateJSON c)) as [g|]; [|apply kwp_throw; by left].
  apply kwp_bind, kwp_refuse; [by left|]. intros _.
  apply kwp_bind, kwp_invoke. intros r k1 E1. destruct r as [[g1 t]|e]; [|by left].
  change (CaptureActivationGate app (rt_k _ x) = (Ok (g1, t), k1)) in E1. destruct (capture_seen _ _ _ _ _ Hw E1) as (s & A1 & S1 & Ns & -> & ->).
  apply kwp_bind, kwp_refuse; [by left|]. intros G1%negb_false_iff%bool_decide_eq_true.
  apply kwp_bind. eapply kwp_mono; [apply completionRoute_applied; [exact (proj1 A1)|exact Hn]|]. intros r d2 x2 [-> Hroute]. destruct r as [[route|]|e]; [|apply kwp_ret; by left|by left].
  destruct (Hroute route eq_refl) as (A2 & Hsel & desired & dep & Hdes & Sd & Hserv). cbn [rt_k] in *.
  apply kwp_bind, kwp_invoke. intros r k3 E3.
  change (ReconcileCandidateRoute namespace tls g (MkTarget (Svc_Selector s) (Svc_Ports s)) route (rt_k _ x2) = (r, k3)) in E3.
  assert (A3 : after (rt_k _ x2) k3) by (eapply after_within; [intros; apply any_route|exact (proj1 A2)|exact E3]).
  destruct r as [[]|e]; [|by left]. apply kwp_bind, kwp_invoke. intros r k4 E4. destruct r as [[g2 t2]|e]; [|by left].
  cbn [rt_k] in E4. change (CaptureActivationGate app k3 = (Ok (g2, t2), k4)) in E4.
  destruct (capture_seen _ _ _ _ _ (proj1 A3) E4) as (s2 & A4 & S4 & Ns2 & -> & ->).
  apply kwp_bind, kwp_refuse; [by left|]. intros [G2%negb_false_iff%bool_decide_eq_true _]%orb_false_iff.
  assert (release_served (rt_k _ x) k4 app id cfg) as Hserved.
  { destruct (unchanged_between _ _ _ _ s s2 (proj1 A4) S1 (after_trans _ _ _ A2 A3) S4) as [Hc Hh];
      [congruence|assert (activationGateFor s2 = activationGateFor s) as Eg by congruence; by injection Eg|].
    rewrite Ns in Hc, Hh. exists k1, k3, s, desired, dep. split; [done|]. split; [by eapply after_trans|]. split; [done|]. split; [done|].
    split; [done|]. split; [done|]. split; [done|]. split; [|done]. eapply seen_mono; [apply after_refl, (proj1 A1)|exact A3|exact Sd]. }
  apply kwp_bind, kwp_safe; [done|apply safe_finalize|]. intros r d'. cbn [rt_k]. destruct r as [y|e]; [|by right].
  apply kwp_bind, kwp_lift. destruct (decodeCandidateReply y); [|by right]. apply kwp_ret. by right.
Qed.
Lemma complete_applied cancelled app id tlsEnabled at_ d (x : rt K) : db_inv d -> cluster_wf (rt_k _ x) ->
  kwp (CompleteCandidateOperation now cancelled app id "applied" tlsEnabled at_) d x
    (fun _ d' x' => d' = d \/ exists q cfg, t_requests d !! (app, id) = Some q /\ FromJSON (qr_requested q) = Ok cfg /\
      release_served (rt_k _ x) (rt_k _ x') app id cfg).
Proof.
  intros Hi Hw. unfold CompleteCandidateOperation. apply kwp_bind, kwp_refuse; [by left|]. intros _.
  apply kwp_bind, kwp_find_one; [by left|]. intros q req Hq (_ & _ & _ & F4 & _)%scanRequest_fields.
  apply kwp_bind, kwp_refuse; [by left|]. intros _. destruct (negb (String.eqb (Req_State req) "pending")).
  { apply kwp_bind, kwp_refuse; [by left|]. intros _. apply kwp_bind, kwp_lift. destruct (decodeCandidateReply _); [apply kwp_ret|]; by left. }
  destruct (FromJSON _) as [cfg|] eqn:Ec; [|apply kwp_throw; by left].
  apply kwp_bind, kwp_refuse; [by left|]. intros [Hc _]%orb_false_iff. apply kwp_bind, kwp_refuse; [by left|]. intros _.
  apply kwp_bind. unfold RuntimeCheckpointRepository_Find. apply kwp_bind, kwp_lift. destruct (validateCheckpointIdentity app id); [|by left].
  apply kwp_find_one; [by left|]. intros c0 c _ _.
  destruct (decodeCandidateIntent _) as [i|]; [|apply kwp_throw; by left].
  apply kwp_bind, kwp_refuse; [by left|]. intros _. change (String.eqb "applied" "withdrawn") with false. cbv iota.
  apply negb_false_iff, andb_true_iff in Hc as [_ Hn%String.eqb_eq]. eapply kwp_mono; [by apply commit_applied|].
  intros r d' x' [->|Hs]; [by left|right]. exists q, cfg. split; [done|]. split; [|done]. congruence.
Qed.

(** C6: an applied release is served.  The server's completion of a candidate, run on
    the controller and the cluster it changes, with any operations of others between
    its requests and any failing calls: if it takes a pending request out of that state
    as applied, then at some moment during the call one version of the app's Service
    selected exactly the Pods of the candidate of that request, and while that version
    was current the candidate's Deployment was seen with the content rendered from the
    configuration journaled with the request and with all its replicas updated and
    available. *)
Theorem applied_is_served cancelled app id tlsEnabled at_ (w : world (rt K)) r w' :
  db_inv (w_db w) -> cluster_wf (rt_k _ (w_k w)) -> CompleteCandidateOperation now cancelled app id "applied" tlsEnabled at_ w = (r, w') ->
  pending_in (app, id) (w_db w) -> ~ pending_in (app, id) (w_db w') ->
  exists q cfg, t_requests (w_db w) !! (app, id) = Some q /\ FromJSON (qr_requested q) = Ok cfg /\
    release_served (rt_k _ (w_k w)) (rt_k _ (w_k w')) app id cfg.
Proof.
  intros Hi Hw E Hp Hn. destruct (complete_applied cancelled app id tlsEnabled at_ _ _ Hi Hw w r w' eq_refl eq_refl E) as [Ed|Hs]; [|done].
  by rewrite Ed in Hn.
Qed.
End served.

(** ** A release from its journal entry to traffic

    The journal, the server's candidate operations, the controller and the in-memory
    API server together: a request is begun, its candidate is prepared, refused while
    its Pods start, activated and completed.  The run instantiates the end-to-end
    theorem. *)
Section run.
#[local] Existing Instance forward_env.
#[local] Existing Instance port_types.
#[local] Existing Instance port_ops.
#[local] Existing Instance plain_rest.
#[local] Existing Instance log_cluster.

Notation log := (list (kind * string * option object)).

#[local] Instance log_runtime : CandidateRuntime log := journal_runtime "apps" run_tls.

(** ** The log's invariant, decided *)

Definition ports_eqb (a b : option (list service_port)) : bool := bool_decide ((a : option (list (string * string * Z))) = b).

Definition entry_ok (e : kind * string * option object) (older : log) : bool :=
  match e.2 with
  | None => true
  | Some o => bool_decide (e.1 = (kind_of o, name_of o)) && String.eqb (version o) (ids older) &&
      existsb (fun i => String.eqb (uid o) (rv_text (S i))) (seq 0 (S (List.length older))) &&
      match o with OService s => ports_eqb (tcp_ports (Svc_Ports s)) (Svc_Ports s) | _ => true end
  end.
Fixpoint log_ok (l : log) : bool := match l with [] => true | e :: older => entry_ok e older && log_ok older end.

Lemma entry_ok_wf e older : entry_ok e older = true -> entry_wf e older.
Proof.
  unfold entry_ok, entry_wf. destruct (e.2) as [o|]; [|done].
  intros [[[E1%bool_decide_eq_true E2%String.eqb_eq]%andb_true_iff E3]%andb_true_iff E4]%andb_true_iff.
  split; [done|]. split; [done|]. apply existsb_exists in E3 as (i & [_ Hi]%in_seq & E3%String.eqb_eq).
  split; [exists i; split; [lia|done]|]. destruct o; try done. by apply bool_decide_eq_true in E4.
Qed.

Lemma log_ok_wf (l : log) : log_ok l = true -> cluster_wf l.
Proof. induction l as [|e l IH]; [done|]. intros [He Hl]%andb_true_iff. split; [by apply entry_ok_wf|by apply IH]. Qed.

(** ** The run *)

Definition release_config : Config := match FromJSON shop_state with Ok c => c | Err _ => sample_config "" "" "" end.
Definition world_at (d : Db) (l : log) : world (rt log) := World d [] (Rt log l []).
Definition advance_release (w : world (rt log)) : result ActivationGate * world (rt log) :=
  AdvanceCandidateOperation noon "shop" shop_id release_config "" "" w.
Definition complete_release (w : world (rt log)) : result (option DeployAppResponse) * world (rt log) :=
  CompleteCandidateOperation noon false "shop" shop_id "applied" false noon w.

Definition release_begun : world (rt log) :=
  world_at (run_ops [shop_begin] empty_db) (store (OService (candidateServiceForApp release_config "apps")) []).
Definition release_prepared : world (rt log) := (advance_release release_begun).2.
Definition release_started : world (rt log) :=
  world_at (w_db release_prepared) (start_pods (candidateDeploymentName "shop" shop_id) (rt_k _ (w_k release_prepared))).
Definition release_activated : world (rt log) := (advance_release release_started).2.

(** Activation is refused until the Pods are there. *)
Example release_waits : (advance_release release_begun).1 = Err (ErrSentinel "candidate has not reached full readiness").
Proof. vm_compute. reflexivity. Qed.

Lemma keeps_release app id cfg sec reg : keeps (K := log) (AdvanceCandidateOperation noon app id cfg sec reg).
Proof. unfold AdvanceCandidateOperation, startCandidateOperation, activateFenced, recordCandidateGate. keep. Qed.

Lemma advance_inv w : db_inv (w_db w) -> db_inv (w_db (advance_release w).2).
Proof. intros Hi. destruct (advance_release w) as [r w'] eqn:E. exact (proj1 (keeps_release _ _ _ _ _ _ _ Hi w r w' eq_refl eq_refl E)). Qed.

Lemma prepared_inv : db_inv (w_db release_prepared).
Proof. exact (advance_inv release_begun (reachable_inv _ (run_ops_steps [shop_begin] empty_db))). Qed.

Lemma activated_inv : db_inv (w_db release_activated).
Proof. exact (advance_inv release_started prepared_inv). Qed.

Lemma activated_wf : cluster_wf (rt_k _ (w_k release_activated)).
Proof. apply log_ok_wf. vm_compute. reflexivity. Qed.

Definition state_of_release (w : world (rt log)) : option string := qr_state <$> (t_requests (w_db w) !! ("shop", shop_id)).

Lemma state_pending w : state_of_release w = Some "pending" <-> pending_in ("shop", shop_id) (w_db w).
Proof.
  unfold state_of_release, pending_in. split; [|by intros (q & -> & <-)].
  destruct (t_requests (w_db w) !! _) as [q|]; [|done]. intros [= E]. by exists q.
Qed.

Lemma activated_pending : pending_in ("shop", shop_id) (w_db release_activated).
Proof. apply (proj1 (state_pending release_activated)). vm_compute. reflexivity. Qed.

Lemma release_completes : exists w r w', db_inv (w_db w) /\ cluster_wf (rt_k _ (w_k w)) /\ pending_in ("shop", shop_id) (w_db w) /\
  complete_release w = (r, w') /\ state_of_release w' = Some "applied".
Proof.
  assert (E : state_of_release (complete_release release_activated).2 = Some "applied") by (vm_compute; reflexivity).
  pose proof activated_inv as Hi. pose proof activated_wf as Hw. pose proof activated_pending as Hp. generalize dependent release_activated.
  intros w E Hi Hw Hp. destruct (complete_release w) as [r w'] eqn:Ec. exact (ex_intro _ w (ex_intro _ r (ex_intro _ w' (conj Hi (conj Hw (conj Hp (conj Ec E))))))).
Qed.

Lemma applied_is_served_witness : exists w w' q cfg, state_of_release w' = Some "applied" /\
  t_requests (w_db w) !! ("shop", shop_id) = Some q /\ FromJSON (qr_requested q) = Ok cfg /\
  release_served "apps" (rt_k _ (w_k w)) (rt_k _ (w_k w')) "shop" shop_id cfg.
Proof.
  destruct release_completes as (w & r & w' & Hi & Hw & Hp & E & Ha). exists w, w'. unfold complete_release in E.
  destruct (applied_is_served (K:=log) "apps" run_tls noon false "shop" shop_id false noon w r w' Hi Hw E Hp) as (q & cfg & Hs).
  - intros Hq%state_pending. rewrite Ha in Hq. discriminate.
  - exists q, cfg. exact (conj Ha Hs).
Defined.
End run.
