(* ===== verification/HostFs.v ===== *)
(** * The files of a host (packages os and path/filepath)

    A host is a map from cleaned paths to nodes.  Every system call consumes one turn
    of a script: what other processes did before it, the random numbers [os.CreateTemp]
    tries, the bytes the random source delivers, and whether the call fails (a failing write leaves a prefix behind).  The
    log keeps the files before and after each call of the program itself, so that a
    claim about every moment, crashes included, is a claim about the log.

    Paths are resolved lexically, and the last element through symbolic links.  A hard
    link is a copy: nothing in the program writes a file after it was linked. *)

From S2P Require Import Prelude GoStrings GoNet Db.
From Stdlib Require Import Ascii String.
Local Open Scope Z_scope.

(** ** path/filepath *)

(** [filepath.Clean]: the elements without ".", with ".." applied to the element before it. *)
Definition clean_step (rooted : bool) (acc : list string) (e : string) : list string :=
  if String.eqb e "" || String.eqb e "." then acc
  else if String.eqb e ".." then
    match acc with
    | a :: acc' => if String.eqb a ".." then ".." :: acc else acc'
    | [] => if rooted then [] else [".."]
    end
  else e :: acc.

Definition Clean (p : string) : string :=
  let rooted := HasPrefix p "/" in
  let elements := rev (fold_left (clean_step rooted) (Split_byte p "/"%char) []) in
  let joined := String.concat "/" elements in
  if rooted then "/" +:+ joined else if String.eqb joined "" then "." else joined.

(** [filepath.Dir] *)
Definition Dir (p : string) : string :=
  match cut_last p "/"%char with
  | Some (before, _) => Clean (before +:+ "/")
  | None => Clean ""
  end.

(** The name of a file in a directory, as [os.CreateTemp] builds it. *)
Definition joinPath (dir name : string) : string := if HasSuffix dir "/" then dir +:+ name else dir +:+ "/" +:+ name.

(** ** Files *)

Inductive node :=
| NFile (perm : Z) (data : string)
| NDir
| NLink (target : string)
| NOther.

#[export] Instance node_eq_dec : EqDecision node.
Proof. solve_decision. Defined.

Notation files := (gmap string node).

Definition ErrNotExist : error := ErrSentinel "file does not exist".
Definition ErrExist : error := ErrSentinel "file already exists".
Definition ErrNotDir : error := ErrSentinel "not a directory".
Definition ErrIsDir : error := ErrSentinel "is a directory".
Definition ErrLoop : error := ErrSentinel "too many levels of symbolic links".

(** The path a name stands for once its links are followed; the kernel follows 40. *)
Fixpoint follow (fuel : nat) (m : files) (p : string) : option string :=
  match m !! p with
  | Some (NLink target) =>
      match fuel with
      | O => None
      | S f => follow f m (if HasPrefix target "/" then Clean target else Clean (joinPath (Dir p) target))
      end
  | _ => Some p
  end.
Definition resolve (m : files) (p : string) : option string := follow 40 m (Clean p).

Definition is_dir (m : files) (p : string) : bool :=
  match resolve m p with
  | Some q => String.eqb q "." || String.eqb q "/" || bool_decide (m !! q = Some NDir)
  | None => false
  end.

(** ** The host *)

Record turn := Turn { t_others : files -> files; t_names : list Z; t_random : list string; t_fault : option error; t_partial : nat }.
Definition quiet_turn : turn := Turn (fun m => m) [] [] None 0.

Record host := Host { h_files : files; h_turns : list turn; h_umask : Z; h_log : list (files * files) }.
Notation OS := (ST host).

Definition next_turn (h : host) : turn * list turn := match h_turns h with t :: ts => (t, ts) | [] => (quiet_turn, []) end.

(** One system call: others first, then the call. *)
Definition call {A} (f : Z -> turn -> files -> result A * files) : OS A := fun h =>
  let '(t, ts) := next_turn h in
  let m := t_others t (h_files h) in
  let '(r, m') := f (h_umask h) t m in
  (r, Host m' ts (h_umask h) (h_log h ++ [(m, m')])%list).

(** A call that fails without an effect when the script says so. *)
Definition syscall {A} (f : Z -> turn -> files -> result A * files) : OS A :=
  call (fun u t m => match t_fault t with Some e => (Err e, m) | None => f u t m end).

Definition observe {A} (f : files -> result A) : OS A := syscall (fun _ _ m => (f m, m)).

(** [defer] *)
Definition deferring {A} (cleanup : OS unit) (m : OS A) : OS A := fun h =>
  let '(r, h1) := m h in let '(_, h2) := cleanup h1 in (r, h2).

Definition masked (umask perm : Z) : Z := Z.land perm (Z.lnot umask).

(** ** package os *)

Definition Lstat (p : string) : OS node :=
  observe (fun m => match m !! Clean p with Some n => Ok n | None => Err ErrNotExist end).

Definition Stat (p : string) : OS node :=
  observe (fun m =>
    if is_dir m p then Ok NDir
    else match resolve m p with
         | Some q => match m !! q with Some n => Ok n | None => Err ErrNotExist end
         | None => Err ErrLoop
         end).

Definition ReadFile (p : string) : OS string :=
  observe (fun m =>
    match resolve m p with
    | Some q => match m !! q with
                | Some (NFile _ data) => Ok data
                | Some NDir => Err ErrIsDir
                | Some _ => Err (ErrSentinel "no such device or address")
                | None => Err ErrNotExist
                end
    | None => Err ErrLoop
    end).

(** Opening for writing: a new file gets the permissions left by the umask, an
    existing one is emptied. *)
Definition open_trunc (p : string) (perm : Z) : OS string :=
  syscall (fun u _ m =>
    match resolve m p with
    | None => (Err ErrLoop, m)
    | Some q =>
        match m !! q with
        | Some (NFile old _) => (Ok q, <[q := NFile old ""]> m)
        | Some NDir => (Err ErrIsDir, m)
        | Some _ => (Err (ErrSentinel "no such device or address"), m)
        | None => if is_dir m (Dir q) then (Ok q, <[q := NFile (masked u perm) ""]> m) else (Err ErrNotExist, m)
        end
    end).

Definition append_to (q data : string) (m : files) : files :=
  match m !! q with Some (NFile perm old) => <[q := NFile perm (old +:+ data)]> m | _ => m end.

(** [f.Write]: a failing write may have written a part. *)
Definition write_at (q data : string) : OS unit :=
  call (fun _ t m => match t_fault t with
                     | Some e => (Err e, append_to q (s_take (t_partial t) data) m)
                     | None => (Ok tt, append_to q data m)
                     end).
Definition Write_ (name data : string) : OS unit := write_at (Clean name) data.

Definition Sync_ (q : string) : OS unit := observe (fun _ => Ok tt).
Definition Close_ (q : string) : OS unit := observe (fun _ => Ok tt).

Definition Chmod (p : string) (perm : Z) : OS unit :=
  syscall (fun _ _ m =>
    match resolve m p with
    | None => (Err ErrLoop, m)
    | Some q => match m !! q with
                | Some (NFile _ data) => (Ok tt, <[q := NFile perm data]> m)
                | Some _ => (Ok tt, m)
                | None => (Err ErrNotExist, m)
                end
    end).

(** [f.Chmod] of an open file. *)
Definition Chmod_ (name : string) (perm : Z) : OS unit :=
  syscall (fun _ _ m =>
    match m !! Clean name with
    | Some (NFile _ data) => (Ok tt, <[Clean name := NFile perm data]> m)
    | _ => (Ok tt, m)
    end).

(** [os.WriteFile]: the file is closed whether or not the write succeeds. *)
Definition WriteFile (p data : string) (perm : Z) : OS unit :=
  q ← open_trunc p perm;
  written ← attempt (write_at q data);
  closed ← attempt (Close_ q);
  lift (match written with Err e => Err e | Ok _ => closed end).

(** [os.CreateTemp(dir, prefix + "*")]: the first random number whose name is free. The open file
    stands under its name. *)
Definition temp_name (dir prefix : string) (n : Z) : string := joinPath dir (prefix +:+ Itoa n).
Definition CreateTemp (dir prefix : string) : OS string :=
  syscall (fun u t m =>
    if negb (is_dir m dir) then (Err ErrNotExist, m)
    else match List.find (fun r => bool_decide (m !! Clean (temp_name dir prefix r) = None)) (t_names t) with
         | Some r => (Ok (temp_name dir prefix r), <[Clean (temp_name dir prefix r) := NFile (masked u 384) ""]> m)
         | None => (Err ErrExist, m)
         end).

Definition Link (old new : string) : OS unit :=
  syscall (fun _ _ m =>
    match m !! Clean old with
    | None => (Err ErrNotExist, m)
    | Some n =>
        if bool_decide (is_Some (m !! Clean new)) then (Err ErrExist, m)
        else if negb (is_dir m (Dir new)) then (Err ErrNotExist, m)
        else (Ok tt, <[Clean new := n]> m)
    end).

Definition Rename (old new : string) : OS unit :=
  syscall (fun _ _ m =>
    match m !! Clean old with
    | None => (Err ErrNotExist, m)
    | Some n =>
        if bool_decide (m !! Clean new = Some NDir) then (Err ErrExist, m)
        else if negb (is_dir m (Dir new)) then (Err ErrNotExist, m)
        else (Ok tt, <[Clean new := n]> (delete (Clean old) m))
    end).

(** [os.Remove] of a file. *)
Definition Remove (p : string) : OS unit :=
  syscall (fun _ _ m =>
    match m !! Clean p with
    | None => (Err ErrNotExist, m)
    | Some _ => (Ok tt, delete (Clean p) m)
    end).

(** The way a file is replaced: written next to it, protected, and renamed over it.  The
    messages wrap the errors of the six steps; closing after a failed step has no further
    effect. *)
Definition replace_by_rename (create protect write sync close rename : string) (prefix path text : string) : OS unit :=
  tmpPath ← map_err (ErrWrap create []) (CreateTemp (Dir path) prefix);
  deferring (Remove tmpPath) (
    _ ← map_err (ErrWrap protect []) (Chmod_ tmpPath 384);
    _ ← map_err (ErrWrap write []) (Write_ tmpPath text);
    _ ← map_err (ErrWrap sync []) (Sync_ tmpPath);
    _ ← map_err (ErrWrap close []) (Close_ tmpPath);
    map_err (ErrWrap rename []) (Rename tmpPath path)).

(** [io.ReadFull(rand.Reader, make([]byte, size))] *)
Definition read_full (size : Z) : OS string :=
  syscall (fun _ t m => (match t_random t with
                         | r :: _ => if slen r =? size then Ok r else Err (ErrSentinel "rand")
                         | [] => Err (ErrSentinel "rand")
                         end, m)).

(** The directories above a path and the path itself, outermost first. *)
Fixpoint prefixes (seen : string) (elements : list string) : list string :=
  match elements with
  | [] => []
  | e :: rest => let p := if String.eqb seen "" then e else if String.eqb seen "/" then "/" +:+ e else seen +:+ "/" +:+ e in p :: prefixes p rest
  end.
Definition ancestry (p : string) : list string :=
  let q := Clean p in
  if HasPrefix q "/" then prefixes "/" (List.filter (fun e => negb (String.eqb e "")) (Split_byte q "/"%char))
  else prefixes "" (Split_byte q "/"%char).

Fixpoint make_dirs (ps : list string) (m : files) : result unit * files :=
  match ps with
  | [] => (Ok tt, m)
  | p :: rest => if is_dir m p then make_dirs rest m
                 else match m !! p with None => make_dirs rest (<[p := NDir]> m) | Some _ => (Err ErrNotDir, m) end
  end.

(** [os.MkdirAll]; the permissions of directories are not kept. *)
Definition MkdirAll (p : string) : OS unit := syscall (fun _ _ m => make_dirs (ancestry p) m).

(** ** Reasoning about calls on a host

    [only R m]: every call that [m] makes takes the files from one state to another as
    [R] allows, whatever others do and whichever calls fail.  [hwp T m F Q]: with turns
    that satisfy [T] and files [F], [m] ends with an outcome, files and calls as [Q]
    says. *)
(** ** Every call *)

Definition only {A} (R : files -> files -> Prop) (m : OS A) : Prop :=
  forall h r h', m h = (r, h') -> h_turns h' `suffix_of` h_turns h /\ exists l, h_log h' = (h_log h ++ l)%list /\ Forall (fun s => R s.1 s.2) l.

Section only.
Context (R : files -> files -> Prop).

Lemma only_lift {A} (r : result A) : only R (lift r).
Proof. intros h r' h' [= <- <-]. split; [done|]. exists []. split; [by rewrite app_nil_r|constructor]. Qed.

Lemma only_ret {A} (a : A) : only R (mret a : OS A).
Proof. apply only_lift. Qed.

Lemma only_throw {A} e : only R (throw e : OS A).
Proof. apply only_lift. Qed.

Lemma only_guard b e : only R (guard b e).
Proof. apply only_lift. Qed.

Lemma only_bind {A B} (m : OS A) (f : A -> OS B) : only R m -> (forall a, only R (f a)) -> only R (mbind f m).
Proof.
  intros Hm Hf h r h' [(e & He & _)|(a & h1 & Ha & Hb)]%st_bind_inv; [by eapply Hm|].
  destruct (Hm _ _ _ Ha) as (S1 & l1 & E1 & F1), (Hf _ _ _ _ Hb) as (S2 & l2 & E2 & F2). split; [by etrans|]. exists (l1 ++ l2)%list.
  split; [by rewrite E2, E1, app_assoc|by apply Forall_app].
Qed.

Lemma only_attempt {A} (m : OS A) : only R m -> only R (attempt m).
Proof. intros Hm h r h' E. unfold attempt in E. destruct (m h) as [r1 h1] eqn:Em. injection E as <- <-. by eapply Hm. Qed.

Lemma only_map_err {A} f (m : OS A) : only R m -> only R (map_err f m).
Proof. intros Hm h r h' E. unfold map_err in E. destruct (m h) as [[] h1] eqn:Em; injection E as <- <-; by eapply Hm. Qed.

Lemma only_deferring {A} c (m : OS A) : only R c -> only R m -> only R (deferring c m).
Proof.
  intros Hc Hm h r h' E. unfold deferring in E. destruct (m h) as [r1 h1] eqn:Em, (c h1) as [r2 h2] eqn:Ec. injection E as <- <-.
  destruct (Hm _ _ _ Em) as (S1 & l1 & E1 & F1), (Hc _ _ _ Ec) as (S2 & l2 & E2 & F2). split; [by etrans|]. exists (l1 ++ l2)%list.
  split; [by rewrite E2, E1, app_assoc|by apply Forall_app].
Qed.

Lemma only_call {A} (f : Z -> turn -> files -> result A * files) : (forall u t m r m', f u t m = (r, m') -> R m m') -> only R (call f).
Proof.
  intros Hf h r h' E. unfold call in E. destruct (next_turn h) as [t ts] eqn:Et. destruct (f _ _ _) as [r1 m1] eqn:Ef. injection E as <- <-.
  split; [unfold next_turn in Et; destruct (h_turns h); injection Et as <- <-; [done|by apply suffix_cons_r]|]. exists [(t_others t (h_files h), m1)]. split; [done|]. repeat constructor. by eapply Hf.
Qed.

Lemma only_syscall {A} (f : Z -> turn -> files -> result A * files) :
  (forall m, R m m) -> (forall u t m r m', f u t m = (r, m') -> R m m') -> only R (syscall f).
Proof. intros HR Hf. apply only_call. intros u t m r m' E. destruct (t_fault t); [by injection E as _ <-|by eapply Hf]. Qed.

Lemma only_observe {A} (f : files -> result A) : (forall m, R m m) -> only R (observe f).
Proof. intros HR. apply only_syscall; [done|]. intros u t m r m' [= _ <-]. done. Qed.
End only.

(** ** Outcomes *)

Section outcomes.
Context (T : turn -> Prop).

Definition hwp {A} (m : OS A) (F : files) (Q : result A -> files -> list (files * files) -> Prop) : Prop :=
  forall h r h', Forall T (h_turns h) -> h_files h = F -> m h = (r, h') ->
    Forall T (h_turns h') /\ exists l, h_log h' = (h_log h ++ l)%list /\ Q r (h_files h') l.

Lemma hwp_lift {A} (r : result A) F (Q : result A -> files -> list (files * files) -> Prop) : Q r F [] -> hwp (lift r) F Q.
Proof. intros HQ h r' h' HT <- [= <- <-]. split; [done|]. exists []. by rewrite app_nil_r. Qed.

Lemma hwp_ret {A} (a : A) F (Q : result A -> files -> list (files * files) -> Prop) : Q (Ok a) F [] -> hwp (mret a) F Q.
Proof. apply hwp_lift. Qed.

Lemma hwp_throw {A} e F (Q : result A -> files -> list (files * files) -> Prop) : Q (Err e) F [] -> hwp (throw e) F Q.
Proof. apply hwp_lift. Qed.

Lemma hwp_guard b e F (Q : result unit -> files -> list (files * files) -> Prop) :
  (b = true -> Q (Err e) F []) -> (b = false -> Q (Ok tt) F []) -> hwp (guard b e) F Q.
Proof. intros Ht Hf. apply hwp_lift. destruct b; [by apply Ht|by apply Hf]. Qed.

Lemma hwp_mono {A} (m : OS A) F (Q Q' : result A -> files -> list (files * files) -> Prop) :
  hwp m F Q -> (forall r F' l, Q r F' l -> Q' r F' l) -> hwp m F Q'.
Proof. intros Hm HQ h r h' HT HF E. destruct (Hm _ _ _ HT HF E) as (HT' & l & El & Hl). split; [done|]. exists l. auto. Qed.

Lemma hwp_bind {A B} (m : OS A) (f : A -> OS B) F (Q : result B -> files -> list (files * files) -> Prop) :
  hwp m F (fun r F1 l1 => match r with
                          | Ok a => hwp (f a) F1 (fun r2 F2 l2 => Q r2 F2 (l1 ++ l2)%list)
                          | Err e => Q (Err e) F1 l1
                          end) -> hwp (mbind f m) F Q.
Proof.
  intros HM h r h' HT HF [(e & He & ->)|(a & h1 & Ha & Hb)]%st_bind_inv; [exact (HM _ _ _ HT HF He)|].
  destruct (HM _ _ _ HT HF Ha) as (HT1 & l1 & E1 & Hf). destruct (Hf h1 r h' HT1 eq_refl Hb) as (HT2 & l2 & E2 & HQ).
  split; [done|]. exists (l1 ++ l2)%list. split; [by rewrite E2, E1, app_assoc|done].
Qed.

Lemma hwp_assoc {A B C} (m : OS A) (g : A -> OS B) (k : B -> OS C) F (Q : result C -> files -> list (files * files) -> Prop) :
  hwp (x ← m; y ← g x; k y) F Q -> hwp (y ← (x ← m; g x); k y) F Q.
Proof.
  intros HM h r h' HT HF E. apply (HM h r h' HT HF). revert E. unfold mbind, st_bind. by destruct (m h) as [[a|e] h1].
Qed.

Lemma hwp_attempt {A} (m : OS A) F (Q : result (result A) -> files -> list (files * files) -> Prop) :
  hwp m F (fun r F1 l => Q (Ok r) F1 l) -> hwp (attempt m) F Q.
Proof. intros HM h r h' HT HF E. unfold attempt in E. destruct (m h) as [r1 h1] eqn:Em. injection E as <- <-. exact (HM _ _ _ HT HF Em). Qed.

Lemma hwp_map_err {A} g (m : OS A) F (Q : result A -> files -> list (files * files) -> Prop) :
  hwp m F (fun r F1 l => Q (match r with Ok a => Ok a | Err e => Err (g e) end) F1 l) -> hwp (map_err g m) F Q.
Proof.
  intros HM h r h' HT HF E. unfold map_err in E. destruct (m h) as [[a|e] h1] eqn:Em; injection E as <- <-; exact (HM _ _ _ HT HF Em).
Qed.

Lemma hwp_deferring {A} c (m : OS A) F (Q : result A -> files -> list (files * files) -> Prop) :
  hwp m F (fun r F1 l1 => hwp c F1 (fun _ F2 l2 => Q r F2 (l1 ++ l2)%list)) -> hwp (deferring c m) F Q.
Proof.
  intros HM h r h' HT HF E. unfold deferring in E. destruct (m h) as [r1 h1] eqn:Em, (c h1) as [r2 h2] eqn:Ec. injection E as <- <-.
  destruct (HM _ _ _ HT HF Em) as (HT1 & l1 & E1 & Hc). destruct (Hc _ _ _ HT1 eq_refl Ec) as (HT2 & l2 & E2 & HQ).
  split; [done|]. exists (l1 ++ l2)%list. split; [by rewrite E2, E1, app_assoc|done].
Qed.

Lemma hwp_call {A} (f : Z -> turn -> files -> result A * files) F (Q : result A -> files -> list (files * files) -> Prop) :
  T quiet_turn -> (forall u t r m', T t -> f u t (t_others t F) = (r, m') -> Q r m' [(t_others t F, m')]) -> hwp (call f) F Q.
Proof.
  intros Tq HQ h r h' HT <- E. unfold call in E. destruct (next_turn h) as [t ts] eqn:Et. destruct (f _ _ _) as [r1 m1] eqn:Ef. injection E as <- <-.
  assert (T t /\ Forall T ts) as [Ht Hts].
  { unfold next_turn in Et. destruct (h_turns h); injection Et as <- <-; [by split; [|constructor]|by apply Forall_cons in HT]. }
  split; [done|]. exists [(t_others t (h_files h), m1)]. split; [done|]. by eapply HQ.
Qed.

(** A call with no effect when it fails. *)
Lemma hwp_syscall {A} (f : Z -> turn -> files -> result A * files) F (Q : result A -> files -> list (files * files) -> Prop) :
  T quiet_turn -> (forall t e, T t -> Q (Err e) (t_others t F) [(t_others t F, t_others t F)]) ->
  (forall u t r m', T t -> t_fault t = None -> f u t (t_others t F) = (r, m') -> Q r m' [(t_others t F, m')]) -> hwp (syscall f) F Q.
Proof.
  intros Tq He HQ. apply hwp_call; [done|]. intros u t r m' Ht E. destruct (t_fault t) as [e|] eqn:Ef; [|by eapply HQ].
  injection E as <- <-. by apply He.
Qed.

Lemma hwp_observe {A} (f : files -> result A) F (Q : result A -> files -> list (files * files) -> Prop) :
  T quiet_turn -> (forall t r, T t -> (r = f (t_others t F) \/ exists e, r = Err e) -> Q r (t_others t F) [(t_others t F, t_others t F)]) ->
  hwp (observe f) F Q.
Proof.
  intros Tq HQ. apply hwp_syscall; [done|eauto|]. intros u t r m' Ht _ [= <- <-]. eauto.
Qed.
End outcomes.

(** ** Temporary files *)

(** A step that changes no other path. *)
Definition touches (P : string -> Prop) (m m' : files) : Prop := forall p, ~ P p -> m' !! p = m !! p.

Lemma touches_refl P m : touches P m m.
Proof. done. Qed.

Lemma touches_mono (P P' : string -> Prop) m m' : (forall p, P p -> P' p) -> touches P m m' -> touches P' m m'.
Proof. intros HP Ht p Hp. apply Ht. auto. Qed.

Definition same (m m' : files) : Prop := m' = m.

Lemma same_refl m : same m m.
Proof. done. Qed.
#[export] Hint Resolve same_refl touches_refl : deployer.

Lemma append_other q data m p : q <> p -> append_to q data m !! p = m !! p.
Proof. intros Hne. unfold append_to. destruct (m !! q) as [[]|]; try done. by apply lookup_insert_ne. Qed.

(** Others leave the paths of [P] alone. *)
Definition spares (P : string -> Prop) (t : turn) : Prop := forall m p, P p -> t_others t m !! p = m !! p.

Lemma quiet_spares P : spares P quiet_turn.
Proof. done. Qed.

(** Calls that only look. *)
Ltac looking := repeat first
  [ apply only_bind; [|intros ?] | apply only_map_err | apply only_attempt | apply only_lift | apply only_ret | apply only_throw | apply only_guard
  | apply only_observe; intros; apply same_refl
  | case_match | apply only_deferring ].

Section temp.
Context (T : turn -> Prop) (temp : string -> Prop) (Tq : T quiet_turn) (Ts : forall t, T t -> spares temp t).

Lemma hwp_only {A} R (m : OS A) F : only R m -> hwp T m F (fun _ _ l => Forall (fun s => R s.1 s.2) l).
Proof. intros Hm h r h' HT HF E. destruct (Hm _ _ _ E) as [[k Hk] Hl]. split; [|done]. rewrite Hk in HT. by apply Forall_app in HT as [_ HT]. Qed.

Lemma hwp_tmp_observe {A} (f : files -> result A) F tmp n : temp tmp -> F !! tmp = Some n ->
  hwp T (observe f) F (fun r F' l => F' !! tmp = Some n /\ Forall (fun s => same s.1 s.2) l /\ (r = f F' \/ exists e, r = Err e)).
Proof. intros Ht HF. apply hwp_observe; [done|]. intros t r HT Hr. rewrite (Ts _ HT _ _ Ht). repeat split; [done| |done]. by repeat constructor. Qed.

Lemma hwp_tmp_write name data F perm old : temp (Clean name) -> F !! Clean name = Some (NFile perm old) ->
  hwp T (Write_ name data) F (fun r F' l => exists new, F' !! Clean name = Some (NFile perm new) /\ (is_ok r = true -> new = old +:+ data) /\
    Forall (fun s => touches (eq (Clean name)) s.1 s.2) l).
Proof.
  intros Ht HF. apply hwp_call; [done|]. intros u t r m' HT E. pose proof (Ts _ HT F _ Ht) as Eo. rewrite HF in Eo.
  assert (W : forall d, append_to (Clean name) d (t_others t F) !! Clean name = Some (NFile perm (old +:+ d)) /\
    Forall (fun s : files * files => touches (eq (Clean name)) s.1 s.2) [(t_others t F, append_to (Clean name) d (t_others t F))]).
  { intros d. split; [unfold append_to; rewrite Eo; by apply lookup_insert_eq|]. repeat constructor. intros p Hp. by apply append_other. }
  destruct (t_fault t); injection E as <- <-.
  - destruct (W (s_take (t_partial t) data)) as [W1 W2]. eexists. split; [exact W1|]. split; [done|exact W2].
  - destruct (W data) as [W1 W2]. eexists. split; [exact W1|]. split; [done|exact W2].
Qed.

Lemma hwp_remove name F : hwp T (Remove name) F (fun _ _ l => Forall (fun s => touches (eq (Clean name)) s.1 s.2) l).
Proof.
  apply hwp_syscall; [done|by repeat constructor|]. intros u t r m' HT _ E. repeat constructor. intros p Hp. cbn.
  destruct (t_others t F !! Clean name); injection E as _ <-; [|done]. by apply lookup_delete_ne.
Qed.

Lemma hwp_create_temp dir prefix F : hwp T (CreateTemp dir prefix) F (fun r F' l =>
  match r with
  | Ok name => (exists rnd, name = temp_name dir prefix rnd) /\ (exists perm, F' !! Clean name = Some (NFile perm "")) /\
      Forall (fun s => touches (eq (Clean name)) s.1 s.2 /\ s.1 !! Clean name = None) l
  | Err _ => Forall (fun s => same s.1 s.2) l
  end).
Proof.
  apply hwp_syscall; [done|by repeat constructor|]. intros u t r m' HT _ E. destruct (negb _); [injection E as <- <-; by repeat constructor|].
  destruct (List.find _ _) as [rnd|] eqn:Ef; injection E as <- <-; [|by repeat constructor]. apply List.find_some in Ef as [_ Ef%bool_decide_eq_true].
  split; [eauto|]. split; [exists (masked u 384); by apply lookup_insert_eq|]. repeat constructor; [|done]. intros p Hp. by apply lookup_insert_ne.
Qed.

Lemma hwp_link old new F n : temp (Clean old) -> F !! Clean old = Some n ->
  hwp T (Link old new) F (fun r F' l => exists m m', l = [(m, m')] /\
    if is_ok r then m !! Clean new = None /\ m' = <[Clean new := n]> m else m' = m).
Proof.
  intros Ht HF. apply hwp_syscall; [done|by intros t e _; do 2 eexists|]. intros u t r m' HT _ E. rewrite (Ts _ HT _ _ Ht), HF in E.
  exists (t_others t F), m'. split; [done|]. case_bool_decide as Hb; [by injection E as <- <-|].
  destruct (negb _); injection E as <- <-; [done|]. split; [by apply eq_None_not_Some|done].
Qed.

(** ** Runs that end in one decisive call *)

Definition ends {A} (R P : files * files -> Prop) (r : result A) (l : list (files * files)) : Prop := Forall R l /\ (is_ok r = true -> Exists P l).

Context (R P : files * files -> Prop) (Rs : forall m, R (m, m)).

Lemma ends_app {A} (r : result A) l1 l2 : Forall R l1 -> ends R P r l2 -> ends R P r (l1 ++ l2)%list.
Proof. intros H1 [H2 HP]. split; [by apply Forall_app|]. intros Hr. apply Exists_app. auto. Qed.

Lemma ends_err {A} e l : Forall R l -> ends (A:=A) R P (Err e) l.
Proof. by split. Qed.

Lemma same_all l : Forall (fun s => same s.1 s.2) l -> Forall R l.
Proof. intros Hl. eapply Forall_impl; [exact Hl|]. intros [m m'] E. cbn in E. unfold same in E. subst. apply Rs. Qed.

Lemma hwp_looks {A B} (m : OS A) (k : A -> OS B) F : only same m ->
  (forall F' a, hwp T (k a) F' (fun r _ l => ends R P r l)) -> hwp T (mbind k m) F (fun r _ l => ends R P r l).
Proof.
  intros Hm Hk. apply hwp_bind. eapply hwp_mono; [by apply hwp_only|]. intros r F1 l1 L1. apply same_all in L1. destruct r as [a|e]; [|by apply ends_err].
  eapply hwp_mono; [apply Hk|]. intros r ? l2. by apply ends_app.
Qed.

Lemma hwp_tmp_look {A B} g (o : files -> result A) (k : A -> OS B) F tmp n : temp tmp -> F !! tmp = Some n ->
  (forall F' a, F' !! tmp = Some n -> o F' = Ok a -> hwp T (k a) F' (fun r _ l => ends R P r l)) ->
  hwp T (mbind k (map_err g (observe o))) F (fun r _ l => ends R P r l).
Proof.
  intros Ht HF Hk. apply hwp_bind, hwp_map_err. eapply hwp_mono; [by apply (hwp_tmp_observe o F tmp n)|].
  intros r F1 l1 (H1 & L1 & Hr). apply same_all in L1. destruct r as [a|e]; [|by apply ends_err]. destruct Hr as [Hr|[e [=]]]. symmetry in Hr.
  eapply hwp_mono; [by apply Hk|]. intros r ? l2. by apply ends_app.
Qed.

Lemma hwp_tmp_write_then {B} g name data (k : unit -> OS B) F perm old : temp (Clean name) -> F !! Clean name = Some (NFile perm old) ->
  (forall m m', touches (eq (Clean name)) m m' -> R (m, m')) ->
  (forall F', F' !! Clean name = Some (NFile perm (old +:+ data)) -> hwp T (k tt) F' (fun r _ l => ends R P r l)) ->
  hwp T (mbind k (map_err g (Write_ name data))) F (fun r _ l => ends R P r l).
Proof.
  intros Ht HF HR Hk. apply hwp_bind, hwp_map_err. eapply hwp_mono; [by apply (hwp_tmp_write name data F perm old)|].
  intros r F1 l1 (new & H1 & Hn & L1). assert (R1 : Forall R l1) by (eapply Forall_impl; [exact L1|]; intros [m m']; apply HR).
  destruct r as [[]|e]; [|by apply ends_err]. rewrite (Hn eq_refl) in H1. eapply hwp_mono; [by apply Hk|]. intros r ? l2. by apply ends_app.
Qed.

(** The temporary file is made, used and removed. *)
Lemma hwp_with_temp {B} g dir prefix (k : string -> OS B) F : (forall rnd, temp (Clean (temp_name dir prefix rnd))) ->
  (forall q m m', temp q -> touches (eq q) m m' -> R (m, m')) ->
  (forall name F' perm, temp (Clean name) -> F' !! Clean name = Some (NFile perm "") -> hwp T (k name) F' (fun r _ l => ends R P r l)) ->
  hwp T (name ← map_err g (CreateTemp dir prefix); deferring (Remove name) (k name)) F (fun r _ l => ends R P r l).
Proof.
  intros Ht HR Hk. apply hwp_bind, hwp_map_err. eapply hwp_mono; [apply hwp_create_temp|].
  intros [name|e] F1 l1; [|intros L1%same_all; by apply ends_err]. intros ([rnd ->] & [perm H1] & L1).
  assert (Hq := Ht rnd). set (name := temp_name dir prefix rnd) in *.
  assert (R1 : Forall R l1) by (eapply Forall_impl; [exact L1|]; intros [m m'] [E _]; by eapply HR).
  apply hwp_deferring. eapply hwp_mono; [by eapply Hk|]. intros r F2 l2 [R2 P2]. eapply hwp_mono; [apply hwp_remove|].
  intros ? F3 l3 L3. apply ends_app; [done|]. split.
  - apply Forall_app. split; [done|]. eapply Forall_impl; [exact L3|]. intros [m m'] E. by eapply HR.
  - intros Hr. apply Exists_app. auto.
Qed.
End temp.

(** ** An undisturbed host *)

Definition calm (t : turn) : Prop := (forall m, t_others t m = m) /\ t_fault t = None.

Lemma calm_quiet : calm quiet_turn.
Proof. done. Qed.

(** Outcome and files of a run in which others and failures play no role. *)
Definition cwp {A} (m : OS A) (F : files) (Q : result A -> files -> Prop) : Prop := hwp calm m F (fun r F' _ => Q r F').

Section calm.
Context {A B : Type}.

Lemma cwp_run (m : OS A) (Q : result A -> files -> Prop) h r h' : cwp m (h_files h) Q -> Forall calm (h_turns h) -> m h = (r, h') ->
  Forall calm (h_turns h') /\ Q r (h_files h').
Proof. intros Hm HT E. by destruct (Hm h r h' HT eq_refl E) as (? & l & _ & ?). Qed.

Lemma cwp_bind (m : OS A) (f : A -> OS B) F (Q : result B -> files -> Prop) :
  cwp m F (fun r F1 => match r with Ok a => cwp (f a) F1 Q | Err e => Q (Err e) F1 end) -> cwp (mbind f m) F Q.
Proof. intros Hm. apply hwp_bind. eapply hwp_mono; [exact Hm|]. by intros [a|e] F1 l. Qed.

Lemma cwp_lift (r : result A) F (Q : result A -> files -> Prop) : Q r F -> cwp (lift r) F Q.
Proof. intros HQ. by apply hwp_lift. Qed.

Lemma cwp_ret (a : A) F (Q : result A -> files -> Prop) : Q (Ok a) F -> cwp (mret a) F Q.
Proof. apply cwp_lift. Qed.

Lemma cwp_throw e F (Q : result A -> files -> Prop) : Q (Err e) F -> cwp (throw e) F Q.
Proof. apply cwp_lift. Qed.

Lemma cwp_guard b e F (Q : result unit -> files -> Prop) : (b = true -> Q (Err e) F) -> (b = false -> Q (Ok tt) F) -> cwp (guard b e) F Q.
Proof. apply (hwp_guard calm b e F (fun r F' _ => Q r F')). Qed.

Lemma cwp_map_err g (m : OS A) F (Q : result A -> files -> Prop) :
  cwp m F (fun r F1 => Q (match r with Ok a => Ok a | Err e => Err (g e) end) F1) -> cwp (map_err g m) F Q.
Proof. apply (hwp_map_err calm g m F (fun r F' _ => Q r F')). Qed.

Lemma cwp_attempt (m : OS A) F (Q : result (result A) -> files -> Prop) : cwp m F (fun r F1 => Q (Ok r) F1) -> cwp (attempt m) F Q.
Proof. apply (hwp_attempt calm m F (fun r F' _ => Q r F')). Qed.

Lemma cwp_deferring c (m : OS A) F (Q : result A -> files -> Prop) :
  cwp m F (fun r F1 => cwp c F1 (fun _ F2 => Q r F2)) -> cwp (deferring c m) F Q.
Proof. apply (hwp_deferring calm c m F (fun r F' _ => Q r F')). Qed.

Lemma cwp_mono (m : OS A) F (Q Q' : result A -> files -> Prop) : cwp m F Q -> (forall r F', Q r F' -> Q' r F') -> cwp m F Q'.
Proof. intros Hm HQ. eapply hwp_mono; [exact Hm|]. auto. Qed.

Lemma cwp_call (f : Z -> turn -> files -> result A * files) F (Q : result A -> files -> Prop) :
  (forall u t r m', t_fault t = None -> f u t F = (r, m') -> Q r m') -> cwp (call f) F Q.
Proof. intros HQ. apply hwp_call; [apply calm_quiet|]. intros u t r m' [Ho Hf]. rewrite Ho. by apply HQ. Qed.

Lemma cwp_syscall (f : Z -> turn -> files -> result A * files) F (Q : result A -> files -> Prop) :
  (forall u t r m', f u t F = (r, m') -> Q r m') -> cwp (syscall f) F Q.
Proof. intros HQ. apply cwp_call. intros u t r m' Ef. rewrite Ef. apply HQ. Qed.

Lemma cwp_observe (f : files -> result A) F (Q : result A -> files -> Prop) : Q (f F) F -> cwp (observe f) F Q.
Proof. intros HQ. apply cwp_syscall. by intros u t r m' [= <- <-]. Qed.
End calm.

Lemma cwp_write name data F perm old (Q : result unit -> files -> Prop) : F !! Clean name = Some (NFile perm old) ->
  Q (Ok tt) (<[Clean name := NFile perm (old +:+ data)]> F) -> cwp (Write_ name data) F Q.
Proof. intros HF HQ. apply cwp_call. intros u t r m' -> [= <- <-]. unfold append_to. by rewrite HF. Qed.

Lemma cwp_create_temp dir prefix F (Q : result string -> files -> Prop) :
  (is_dir F dir = false -> Q (Err ErrNotExist) F) -> Q (Err ErrExist) F ->
  (forall rnd perm, F !! Clean (temp_name dir prefix rnd) = None ->
     Q (Ok (temp_name dir prefix rnd)) (<[Clean (temp_name dir prefix rnd) := NFile perm ""]> F)) -> cwp (CreateTemp dir prefix) F Q.
Proof.
  intros Hd He Hq. apply cwp_syscall. intros u t r m' E. destruct (is_dir F dir); cbn in E; [|by injection E as <- <-; apply Hd].
  destruct (List.find _ _) as [rnd|] eqn:Ef; injection E as <- <-; [|done]. apply List.find_some in Ef as [_ Ef%bool_decide_eq_true]. by apply Hq.
Qed.

Lemma cwp_remove name F n (Q : result unit -> files -> Prop) : F !! Clean name = Some n -> Q (Ok tt) (delete (Clean name) F) -> cwp (Remove name) F Q.
Proof. intros HF HQ. apply cwp_syscall. intros u t r m' E. rewrite HF in E. by injection E as <- <-. Qed.

Lemma cwp_link old new F n (Q : result unit -> files -> Prop) : F !! Clean old = Some n ->
  (is_Some (F !! Clean new) \/ is_dir F (Dir new) = false -> forall e, Q (Err e) F) ->
  (F !! Clean new = None -> Q (Ok tt) (<[Clean new := n]> F)) -> cwp (Link old new) F Q.
Proof.
  intros HF He HQ. apply cwp_syscall. intros u t r m' E. rewrite HF in E. case_bool_decide as Hn; [injection E as <- <-; by apply He; left|].
  destruct (is_dir F (Dir new)) eqn:Ed; injection E as <- <-; [by apply HQ, eq_None_not_Some|apply He; by right].
Qed.

(** Adding a file changes no directory. *)
Lemma follow_file fuel m q p perm data : (forall target, m !! p <> Some (NLink target)) ->
  follow fuel (<[p := NFile perm data]> m) q = follow fuel m q.
Proof.
  intros Hl. revert q. induction fuel as [|fuel IH]; intros q; cbn; destruct (decide (q = p)) as [->|Hne];
    rewrite ?lookup_insert_eq, ?lookup_insert_ne by done; repeat case_match; try done; by destruct (Hl target).
Qed.

Lemma is_dir_file m p perm data d : (forall target, m !! p <> Some (NLink target)) -> m !! p <> Some NDir ->
  is_dir (<[p := NFile perm data]> m) d = is_dir m d.
Proof.
  intros Hl Hd. unfold is_dir, resolve. rewrite follow_file by done. destruct (follow _ m _) as [q|]; [|done]. f_equal.
  destruct (decide (q = p)) as [->|Hne]; [|by rewrite lookup_insert_ne]. rewrite lookup_insert_eq. by rewrite !bool_decide_false.
Qed.

Lemma resolve_file m p perm data : m !! Clean p = Some (NFile perm data) -> resolve m p = Some (Clean p).
Proof. intros E. unfold resolve. cbn [follow]. by rewrite E. Qed.

(** ** Texts that were read *)

Lemma mapped_ok {S A} g (m : ST S A) s a s' : map_err g m s = (Ok a, s') -> m s = (Ok a, s').
Proof. unfold map_err. destruct (m s) as [[b|e] s1]; [|done]. by intros [= <- <-]. Qed.

(** The text a file of that path has, links followed. *)
Definition holds_text (m : files) (path text : string) : Prop := exists q perm, resolve m path = Some q /\ m !! q = Some (NFile perm text).

Lemma reads_text p m d : (match resolve m p with
    | Some q => match m !! q with
                | Some (NFile _ data) => Ok data
                | Some NDir => Err ErrIsDir
                | Some _ => Err (ErrSentinel "no such device or address")
                | None => Err ErrNotExist
                end
    | None => Err ErrLoop
    end) = Ok d -> holds_text m p d.
Proof.
  intros E. destruct (resolve m p) as [q|] eqn:Eq; [|done]. destruct (m !! q) as [[perm data| | |]|] eqn:Em; try done. injection E as ->. by exists q, perm.
Qed.

(** What a program that only looks has seen at one of its moments when it succeeds. *)
Definition learns {A} (m : OS A) (K : A -> files -> Prop) : Prop := only same m /\
  forall h a h', m h = (Ok a, h') -> exists l f, h_log h' = (h_log h ++ l)%list /\ (f, f) ∈ l /\ K a f.

Lemma learns_observe {A} (f : files -> result A) (K : A -> files -> Prop) : (forall m a, f m = Ok a -> K a m) -> learns (observe f) K.
Proof.
  intros HK. split; [by apply only_observe|]. intros h a h' E. unfold observe, syscall, call in E. destruct (next_turn h) as [t ts]. destruct (t_fault t); [done|].
  injection E as Ea <-. do 2 eexists. split; [done|]. split; [by apply list_elem_of_singleton|by apply HK].
Qed.

Lemma learns_map_err {A} g (m : OS A) K : learns m K -> learns (map_err g m) K.
Proof. intros [Ho HK]. split; [by apply only_map_err|]. intros h a h' E. by apply mapped_ok, HK in E. Qed.

(** It is learnt in the first part, and the rest may use it. *)
Lemma learns_then {A B} (m : OS A) K (k : A -> OS B) (K' : B -> files -> Prop) : learns m K -> (forall a, only same (k a)) ->
  (forall a f h b h', K a f -> k a h = (Ok b, h') -> K' b f) -> learns (mbind k m) K'.
Proof.
  intros [Ho HK] Hk H. split; [by apply only_bind|]. intros h b h' E. apply st_bind_ok in E as (a & h1 & Ea & Eb).
  destruct (HK _ _ _ Ea) as (l & f & El & Hf & Ha). destruct (Hk a _ _ _ Eb) as (_ & l2 & E2 & _). exists (l ++ l2)%list, f.
  split; [by rewrite E2, El, app_assoc|]. split; [apply elem_of_app; by left|by eapply H].
Qed.

Lemma learns_after {A B} (m : OS A) (k : A -> OS B) K : only same m -> (forall a, learns (k a) K) -> learns (mbind k m) K.
Proof.
  intros Ho Hk. split; [apply only_bind; [done|intros a; apply Hk]|]. intros h b h' E. apply st_bind_ok in E as (a & h1 & Ea & Eb).
  destruct (Ho _ _ _ Ea) as (_ & l1 & E1 & _). destruct (Hk a) as [_ HK]. destruct (HK _ _ _ Eb) as (l & f & El & Hf & Hb). exists (l1 ++ l)%list, f.
  split; [by rewrite El, E1, app_assoc|]. split; [apply elem_of_app; by right|done].
Qed.

Lemma hwp_learns {A} T (m : OS A) K F : learns m K ->
  hwp T m F (fun r _ l => Forall (fun s => same s.1 s.2) l /\ forall a, r = Ok a -> exists f, (f, f) ∈ l /\ K a f).
Proof.
  intros [Ho HK] h r h' HT HF E. destruct (Ho _ _ _ E) as ([k Hk] & l & El & Hl). rewrite Hk in HT. apply Forall_app in HT as [_ HT]. split; [done|].
  exists l. split; [done|]. split; [done|]. intros a ->. destruct (HK _ _ _ E) as (l' & f & El' & Hf & Ha). rewrite El in El'. apply app_inv_head in El' as <-. eauto.
Qed.

(** ** Lines *)

Definition line_feed : string := String "010"%char "".

(** A line feed never completes a longer space. *)
Lemma space2_line a : space2 a "010"%char = false.
Proof. unfold space2. apply andb_false_r. Qed.

Lemma space3_line a b : space3 a b "010"%char = false.
Proof. unfold space3. change (b2z "010"%char) with 10. by rewrite ?andb_false_r. Qed.

Lemma leads_space_line s : s <> "" -> leads_space (s +:+ line_feed) = leads_space s.
Proof.
  intros Hs. destruct s as [|a [|b [|c s]]]; [done| | |done]; cbn [String.append leads_space line_feed].
  - by rewrite space2_line.
  - by rewrite space3_line.
Qed.

Lemma leads_space_split s : leads_space s = true -> exists w u, s = w +:+ u /\ w <> "" /\ trim_left w = "".
Proof.
  destruct s as [|a s]; [done|]. cbn [leads_space]. destruct (space1 a) eqn:E1; [exists (String a ""), s; cbn; by rewrite E1|].
  destruct s as [|b s]; [done|]. destruct (space2 a b) eqn:E2; [exists (String a (String b "")), s; cbn; by rewrite E1, E2|].
  destruct s as [|c s]; [done|]. cbn. intros E3. exists (String a (String b (String c ""))), s. cbn. by rewrite E1, E2, E3.
Qed.

Lemma trim_left_line s : trim_left (s +:+ line_feed) = "" -> trim_left s = "".
Proof.
  enough (H : forall n s, (String.length s <= n)%nat -> trim_left (s +:+ line_feed) = "" -> trim_left s = "") by eauto.
  induction n as [|n IH]; intros s' Hl E; [destruct s'; [done|cbn in Hl; lia]|]. destruct (leads_space s') eqn:El.
  - apply leads_space_split in El as (w & u & -> & Hw & Ht). rewrite <- s_app_assoc, trim_left_empty_app in E by done. rewrite trim_left_empty_app by done.
    apply IH; [|done]. rewrite s_length_app in Hl. destruct w; [done|]. cbn in Hl. lia.
  - destruct s' as [|a s']; [done|]. rewrite trim_left_id in E by (by rewrite leads_space_line). done.
Qed.

Lemma trim_right_line s : trim_right (s +:+ line_feed) = trim_right s.
Proof.
  induction s as [|a s IH]; [done|]. change (String a s +:+ line_feed) with (String a (s +:+ line_feed)). cbn [trim_right]. rewrite IH.
  destruct (String.eqb_spec (trim_left (String a s)) "") as [E|Hne].
  - change (String a (s +:+ line_feed)) with (String a s +:+ line_feed). by rewrite trim_left_empty_app.
  - destruct (String.eqb_spec (trim_left (String a (s +:+ line_feed))) "") as [E|]; [|done]. destruct Hne. by apply trim_left_line.
Qed.

(** What a line holds is read back. *)
Lemma TrimSpace_line s : TrimSpace (TrimSpace s +:+ line_feed) = TrimSpace s.
Proof.
  destruct (String.eqb_spec (TrimSpace s) "") as [->|Hne]; [done|]. unfold TrimSpace at 1.
  rewrite trim_left_id; [rewrite trim_right_line; apply trim_right_idemp|]. rewrite leads_space_line by done. apply trim_right_leads, trim_left_leads.
Qed.

Lemma cut_at k v : contains_byte k "="%char = false -> Cut (k +:+ "=" +:+ v) "=" = (k, v, true).
Proof.
  induction k as [|a k IH]; intros Hk; [by destruct v|]. unfold contains_byte in Hk. cbn [exists_byte] in Hk. apply orb_false_iff in Hk as [Ha Hk].
  specialize (IH Hk). change (String a k +:+ "=" +:+ v) with (String a (k +:+ "=" +:+ v)). cbn [Cut].
  replace (HasPrefix (String a (k +:+ "=" +:+ v)) "=") with false; [by rewrite IH|]. apply Ascii.eqb_neq in Ha. unfold HasPrefix. cbn [String.prefix].
  by destruct (ascii_dec "=" a).
Qed.

(** Plain bytes are no spaces. *)
Lemma plain_leads a s : byte_in 33 126 a = true -> leads_space (String a s) = false.
Proof.
  intros Ha. destruct a as [[] [] [] [] [] [] [] []]; try discriminate; (destruct s as [|b [|c s]]; [reflexivity|reflexivity|reflexivity]).
Qed.

Lemma trim_right_plain p s : forall_byte (byte_in 33 126) p = true -> trim_right (p +:+ s) = p +:+ trim_right s.
Proof.
  induction p as [|a p IH]; intros Hp; [done|]. cbn [forall_byte] in Hp. apply andb_true_iff in Hp as [Ha Hp].
  change (String a p +:+ s) with (String a (p +:+ s)). cbn [trim_right]. rewrite trim_left_id by (by apply plain_leads). cbn. by rewrite IH.
Qed.

(** ** Names *)

Lemma Itoa_no_slash n : exists_byte (Ascii.eqb "/"%char) (Itoa n) = false.
Proof.
  assert (D : forall s, forall_byte is_digit s = true -> exists_byte (Ascii.eqb "/"%char) s = false).
  { intros s Hs. rewrite exists_byte_forall, negb_false_iff. revert Hs. apply forall_byte_impl. intros a Ha. apply negb_true_iff.
    destruct (Ascii.eqb_spec "/"%char a) as [<-|]; [discriminate|done]. }
  unfold Itoa. assert (H := digits_aux_digits (Z.to_nat (Z.log2_up (Z.abs n + 1))) (Z.abs n) "" (Z.abs_nonneg n) eq_refl).
  destruct (n <? 0); cbn [exists_byte]; by rewrite D.
Qed.

Lemma Clean_data name : exists_byte (Ascii.eqb "/"%char) name = false -> String.eqb name "" = false -> String.eqb name "." = false -> String.eqb name ".." = false ->
  Clean ("/data/" +:+ name) = "/data/" +:+ name.
Proof.
  intros Hs H0 H1 H2. unfold Clean. change (HasPrefix ("/data/" +:+ name) "/") with true. cbv zeta.
  assert (Split_byte ("/data/" +:+ name) "/"%char = [""; "data"; name]) as -> by (cbn; by rewrite Split_byte_no_sep).
  cbn [fold_left]. unfold clean_step at 1. rewrite H0, H1, H2. done.
Qed.

(** ** Written files *)

Lemma follow_end fuel m p q : follow fuel m p = Some q -> forall target, m !! q <> Some (NLink target).
Proof.
  revert p. induction fuel as [|f IH]; intros p E target; cbn in E.
  - destruct (m !! p) as [[| | |]|] eqn:Ep; try discriminate; injection E as <-; by rewrite Ep.
  - destruct (m !! p) as [[| | |]|] eqn:Ep; try (injection E as <-; by rewrite Ep). by eapply IH.
Qed.

Lemma follow_insert fuel m p q n : follow fuel m p = Some q -> (forall target, n <> NLink target) -> follow fuel (<[q := n]> m) p = Some q.
Proof.
  intros E Hn. pose proof (follow_end _ _ _ _ E) as Hq. revert p E. induction fuel as [|f IH]; intros p E; cbn in *;
    (destruct (decide (p = q)) as [->|Hne]; [rewrite lookup_insert_eq; by destruct n; try (by destruct (Hn target))|]);
    rewrite lookup_insert_ne by done; destruct (m !! p) as [[| | |]|] eqn:Ep; try done. by apply IH.
Qed.

(** A completed [WriteFile]. *)
Lemma cwp_WriteFile p data perm F : cwp (WriteFile p data perm) F (fun r F' => r = Ok tt ->
  exists q perm', resolve F' p = Some q /\ F' !! q = Some (NFile perm' data)).
Proof.
  assert (Hw : forall q perm', resolve F p = Some q ->
    cwp (written ← attempt (write_at q data); closed ← attempt (Close_ q); lift (match written with Err e => Err e | Ok _ => closed end))
        (<[q := NFile perm' ""]> F)
        (fun r F' => r = Ok tt -> exists q perm', resolve F' p = Some q /\ F' !! q = Some (NFile perm' data))).
  { intros q perm' Hq. apply cwp_bind, cwp_attempt, cwp_call. intros u t r m' Ht. rewrite Ht. unfold append_to. rewrite lookup_insert_eq. intros [= <- <-].
    apply cwp_bind, cwp_attempt, cwp_observe, cwp_lift. intros _. exists q, perm'. rewrite insert_insert_eq, lookup_insert_eq. split; [|done].
    unfold resolve in *. by apply follow_insert. }
  unfold WriteFile. apply cwp_bind, cwp_syscall. intros u t r m' E. destruct (resolve F p) as [q|] eqn:Hq; [|by injection E as <- <-].
  destruct (F !! q) as [[old ?| | |]|] eqn:Eq; [injection E as <- <-; by apply Hw| | | |destruct (is_dir F (Dir q)); [injection E as <- <-; by apply Hw|]]; by injection E as <- <-.
Qed.

Lemma guard_ok {S} b e (s s' : S) : guard b e s = (Ok tt, s') -> b = false /\ s' = s.
Proof. unfold guard. destruct b; by intros [=]. Qed.

Lemma calm_suffix l l' : l' `suffix_of` l -> Forall calm l -> Forall calm l'.
Proof. intros [k ->]. rewrite Forall_app. by intros [_ ?]. Qed.

(** Calls keep to their turns. *)
Lemma only_turns {A} (m : OS A) h r h' : only (fun _ _ => True) m -> m h = (r, h') -> Forall calm (h_turns h) -> Forall calm (h_turns h').
Proof. intros Hm E. by apply calm_suffix, (Hm h r h' E). Qed.

Lemma only_mkdir p : only (fun _ _ => True) (MkdirAll p).
Proof. by apply only_syscall. Qed.

(** A path that [Stat] reports missing. *)
Lemma stat_missing p h e h' : Stat p h = (Err e, h') -> Forall calm (h_turns h) -> errors_Is e ErrNotExist = true ->
  forall q, resolve (h_files h) p = Some q -> h_files h !! q = None.
Proof.
  intros E HT He q Hq. apply (cwp_run _ (fun r _ => r = Err e -> h_files h !! q = None)) in E as [_ Hs]; [by apply Hs| |done].
  apply cwp_observe. intros Er. destruct (is_dir _ _); [done|]. rewrite Hq in Er. by destruct (_ !! q).
Qed.

Lemma only_stat p : only (fun _ _ => True) (Stat p).
Proof. by apply only_observe. Qed.

(** ** Replaced files *)

(** On an undisturbed host. *)
Lemma cwp_replace create protect write sync close rename prefix path text F : (forall rnd, Clean (temp_name (Dir path) prefix rnd) <> Clean path) ->
  cwp (replace_by_rename create protect write sync close rename prefix path text) F (fun r F' => r = Ok tt -> F' !! Clean path = Some (NFile 384 text)).
Proof.
  intros Hp. unfold replace_by_rename. apply cwp_bind, cwp_map_err, cwp_create_temp; [done..|]. intros rnd perm _. specialize (Hp rnd).
  set (tmp := temp_name (Dir path) prefix rnd) in *. apply cwp_deferring, cwp_bind, cwp_map_err, cwp_syscall. intros u t r m' E. rewrite lookup_insert_eq in E. injection E as <- <-.
  rewrite insert_insert_eq. apply cwp_bind, cwp_map_err. eapply cwp_write; [apply lookup_insert_eq|]. rewrite insert_insert_eq. cbn [String.append].
  apply cwp_bind, cwp_map_err, cwp_observe, cwp_bind, cwp_map_err, cwp_observe, cwp_map_err, cwp_syscall. intros u' t' r m' E. rewrite lookup_insert_eq in E.
  assert (Hrm : forall F1 (r1 : result unit), (r1 = Ok tt -> F1 !! Clean path = Some (NFile 384 text)) -> cwp (Remove tmp) F1 (fun _ F2 => r1 = Ok tt -> F2 !! Clean path = Some (NFile 384 text))).
  { intros F1 r1 HF. apply cwp_syscall. intros u1 t1 r2 m2 E2. destruct (F1 !! Clean tmp); injection E2 as _ <-; [|done]. rewrite lookup_delete_ne by done. done. }
  case_bool_decide; [injection E as <- <-; by apply Hrm|]. destruct (negb _); injection E as <- <-; apply Hrm; [done|]. intros _. apply lookup_insert_eq.
Qed.

Section replaced.
Context (T : turn -> Prop) (temp : string -> Prop) (Tq : T quiet_turn) (Ts : forall t, T t -> spares temp t) (path : string) (good : node -> Prop).
Notation P := (Clean path).

(** The file, there or not, stays as it is or gives way to something good. *)
Definition put_good (s : files * files) : Prop := exists n', s.2 !! P = Some n' /\ good n'.
Definition stays_or_good (s : files * files) : Prop := s.2 !! P = s.1 !! P \/ put_good s.

Lemma stays_refl m : stays_or_good (m, m).
Proof. by left. Qed.

Lemma stays_temp q m m' : ~ temp P -> temp q -> touches (eq q) m m' -> stays_or_good (m, m').
Proof. intros Hp Hq Ht. left. cbn in *. rewrite (Ht P); [done|]. intros Eq. apply Hp. by rewrite <- Eq. Qed.

Lemma hwp_tmp_chmod_then {B} g name perm (k : unit -> OS B) F old data : ~ temp P -> temp (Clean name) -> F !! Clean name = Some (NFile old data) ->
  (forall F', F' !! Clean name = Some (NFile perm data) -> hwp T (k tt) F' (fun r _ l => ends stays_or_good put_good r l)) ->
  hwp T (mbind k (map_err g (Chmod_ name perm))) F (fun r _ l => ends stays_or_good put_good r l).
Proof.
  intros Hp Hn HF Hk. apply hwp_bind, hwp_map_err, hwp_syscall; [done|intros t e _; apply ends_err; apply Forall_singleton, stays_refl|].
  intros u t r m' Ht _ E. rewrite (Ts _ Ht _ _ Hn), HF in E. injection E as <- <-.
  eapply hwp_mono; [apply Hk, lookup_insert_eq|]. intros r F' l Hl. apply ends_app; [|done]. apply Forall_singleton.
  apply (stays_temp (Clean name)); [done|done|]. intros q Hq. by apply lookup_insert_ne.
Qed.

(** Whatever others do short of touching the temporary file, and whatever fails. *)
Lemma replace_ends create protect write sync close rename prefix text F : ~ temp P -> (forall rnd, temp (Clean (temp_name (Dir path) prefix rnd))) ->
  good (NFile 384 text) -> hwp T (replace_by_rename create protect write sync close rename prefix path text) F (fun r _ l => ends stays_or_good put_good r l).
Proof.
  intros Hp Hcover Hgood. unfold replace_by_rename. apply (hwp_with_temp T temp); [done|exact stays_refl|done|intros q m m' Hq Ht; by eapply stays_temp|].
  intros name F1 perm Hn H1. eapply hwp_tmp_chmod_then; [done|done|exact H1|]. clear F1 H1. intros F1 H1.
  eapply (hwp_tmp_write_then T temp); [done|done|done|exact H1|intros m m' Ht; by eapply stays_temp|]. clear F1 H1. intros F1 H1.
  eapply (hwp_tmp_look T temp); [done|done|exact stays_refl|exact Hn|exact H1|]. clear F1 H1. intros F1 _ H1 _.
  eapply (hwp_tmp_look T temp); [done|done|exact stays_refl|exact Hn|exact H1|]. clear F1 H1. intros F1 _ H1 _.
  apply hwp_map_err, hwp_syscall; [done|intros t e _; apply ends_err; apply Forall_singleton, stays_refl|].
  intros u t r m' Ht _ E. rewrite (Ts _ Ht _ _ Hn), H1 in E.
  case_bool_decide; [injection E as <- <-; apply ends_err; apply Forall_singleton, stays_refl|].
  destruct (negb _); injection E as <- <-; [apply ends_err; apply Forall_singleton, stays_refl|].
  assert (Hput : put_good (t_others t F1, <[P := NFile 384 text]> (delete (Clean name) (t_others t F1)))) by (exists (NFile 384 text); split; [apply lookup_insert_eq|done]).
  split; [apply Forall_singleton; by right|]. intros _. by apply Exists_cons_hd.
Qed.
End replaced.
