(* ===== verification/Backup.v ===== *)
(** * Encrypted backups of the database (internal/backup)

    SQLite is an interface: what [VACUUM INTO] makes of the database of a host, and the
    answer of [PRAGMA integrity_check] to the bytes of a file.  AES-GCM with a key is an
    interface with the two laws the format relies on.  The data source names built by
    [sqliteReadOnlyDSN] stand for the paths they encode. *)

From S2P Require Import Prelude GoStrings Db HostFs.
From Stdlib Require Import Ascii String.
Local Open Scope Z_scope.

Definition backupKeySize : Z := 32.
Definition artifactMagic : string := "DEPLOYER-BACKUP-1" +:+ nul.
Definition maxArtifact : Z := 2 ^ 30.

(** crypto/cipher: the sizes of AES-GCM. *)
Definition gcmNonceSize : Z := 12.
Definition gcmOverhead : Z := 16.

Class ArtifactCipher := {
  gcm_Seal : string -> string -> string -> string -> string;           (* key, nonce, plaintext, additional data *)
  gcm_Open : string -> string -> string -> string -> option string;    (* key, nonce, ciphertext, additional data *)
  gcm_Open_Seal : forall key nonce p ad, slen nonce = gcmNonceSize -> gcm_Open key nonce (gcm_Seal key nonce p ad) ad = Some p;
  gcm_Seal_len : forall key nonce p ad, slen (gcm_Seal key nonce p ad) = slen p + gcmOverhead
}.

Class Sqlite := {
  sqlite_ping : files -> string -> result unit;
  vacuum_into : files -> string -> result string;
  integrity_check : string -> result string
}.

Record CreateOptions := MkCreateOptions { Create_DatabasePath : string; Create_OutputPath : string; Create_KeyFile : string }.
Record RestoreOptions := MkRestoreOptions { Restore_InputPath : string; Restore_OutputPath : string; Restore_KeyFile : string }.

Section backup.
Context `{ArtifactCipher} `{Sqlite}.

Definition wrap (format : string) (e : error) : error := ErrWrap format [] e.

(** [io.ReadAll(io.LimitReader(f, limit))] of an open file. *)
Definition limited (limit : Z) (data : string) : string := if slen data <=? limit then data else s_take (Z.to_nat limit) data.
Definition read_limited (limit : Z) (data : string) : OS string := observe (fun _ => Ok (limited limit data)).

Definition owner_only (perm : Z) : bool := Z.land perm 63 =? 0.

Definition readKey (path : string) : OS string :=
  info ← map_err (wrap "read key file: %w") (Lstat path);
  _ ← guard (match info with NFile perm _ => negb (owner_only perm) | _ => true end)
        (ErrSentinel "key file must be a regular file readable only by its owner");
  f ← map_err (wrap "open key file: %w") (ReadFile path);
  key ← map_err (wrap "read key file: %w") (read_limited (backupKeySize + 1) f);
  _ ← guard (negb (slen key =? backupKeySize)) (Errorf "key file must contain exactly %d raw bytes" [AInt backupKeySize]);
  mret key.

(** The size of the file. *)
Definition regularFile (path label : string) : OS Z :=
  info ← map_err (fun e => ErrWrap "%s: %w" [AStr label] e) (Lstat path);
  match info with
  | NFile _ data => mret (slen data)
  | _ => throw (Errorf "%s must be a regular file" [AStr label])
  end.

Definition outputAvailable (path : string) : OS unit :=
  found ← attempt (Lstat path);
  _ ← (match found with
       | Ok _ => throw (Errorf "output already exists: %s" [AStr path])
       | Err e => guard (negb (errors_Is e ErrNotExist)) (wrap "check output: %w" e)
       end);
  info ← map_err (wrap "output directory: %w") (Stat (Dir path));
  guard (negb (bool_decide (info = NDir))) (Errorf "output directory is not a directory: %s" [AStr (Dir path)]).

(** [aes.NewCipher] accepts keys of three sizes. *)
Definition newCipher (key : string) : result unit :=
  check (negb (bool_decide (slen key ∈ [16; 24; 32]))) (wrap "create encryption cipher: %w" (ErrSentinel "invalid key size")).

Definition artifact (key nonce plain : string) : string := artifactMagic +:+ nonce +:+ gcm_Seal key nonce plain artifactMagic.

Definition writeArtifact (path key plain : string) : OS unit :=
  _ ← lift (newCipher key);
  nonce ← map_err (wrap "generate backup nonce: %w") (read_full gcmNonceSize);
  let sealed := gcm_Seal key nonce plain artifactMagic in
  tmpPath ← map_err (wrap "create backup output: %w") (CreateTemp (Dir path) ".deployer-backup-");
  deferring (Remove tmpPath) (
    written ← attempt (_ ← Write_ tmpPath artifactMagic; _ ← Write_ tmpPath nonce; _ ← Write_ tmpPath sealed; Sync_ tmpPath);
    closed ← attempt (Close_ tmpPath);
    _ ← map_err (wrap "write backup output: %w") (lift (match written with Err e => Err e | Ok _ => closed end));
    map_err (wrap "publish backup: %w") (Link tmpPath path)).

Definition decrypt (key text : string) : result string :=
  _ ← newCipher key;
  let offset := slen artifactMagic in
  _ ← check ((maxArtifact <? slen text) || negb (HasPrefix text artifactMagic)) (ErrSentinel "invalid backup format or corrupted backup");
  _ ← check (slen text <? offset + gcmNonceSize + gcmOverhead) (ErrSentinel "invalid backup format or corrupted backup");
  let rest := s_drop (String.length artifactMagic) text in
  match gcm_Open key (s_take (Z.to_nat gcmNonceSize) rest) (s_drop (Z.to_nat gcmNonceSize) rest) artifactMagic with
  | None => Err (ErrSentinel "backup authentication failed")
  | Some plain => Ok plain
  end.

(** The bytes SQLite sees under a path. *)
Definition file_data (m : files) (path : string) : result string :=
  match resolve m path with
  | Some q => match m !! q with Some (NFile _ data) => Ok data | _ => Err (ErrSentinel "unable to open database file") end
  | None => Err ErrLoop
  end.

Definition integrityCheck (path : string) : OS unit :=
  answer ← map_err (wrap "check restored database: %w") (observe (fun m => data ← file_data m path; integrity_check data));
  guard (negb (String.eqb answer "ok")) (Errorf "restored database integrity check failed: %s" [AStr answer]).

Definition readBoundedFile (path : string) (limit : Z) : OS string :=
  size ← regularFile path "backup input";
  _ ← guard (limit <? size) (ErrSentinel "backup input exceeds size limit");
  f ← ReadFile path;
  data ← read_limited (limit + 1) f;
  _ ← guard (limit <? slen data) (ErrSentinel "backup input exceeds size limit");
  mret data.

(** [VACUUM INTO path]: the file must be new or empty; a failure may leave a part. *)
Definition vacuum (database path : string) : OS unit :=
  call (fun u t m =>
    match vacuum_into m database with
    | Err e => (Err e, m)
    | Ok data =>
        match m !! Clean path with
        | Some (NFile perm old) =>
            if negb (String.eqb old "") then (Err (ErrSentinel "output file already exists"), m)
            else match t_fault t with
                 | Some e => (Err e, <[Clean path := NFile perm (s_take (t_partial t) data)]> m)
                 | None => (Ok tt, <[Clean path := NFile perm data]> m)
                 end
        | _ => (Err (ErrSentinel "unable to open database"), m)
        end
    end).

(** [sql.Open] only records the name; the first use connects. *)
Definition Create (opts : CreateOptions) : OS unit :=
  key ← readKey (Create_KeyFile opts);
  _ ← regularFile (Create_DatabasePath opts) "database";
  _ ← outputAvailable (Create_OutputPath opts);
  snapshotPath ← map_err (wrap "create temporary database: %w") (CreateTemp (Dir (Create_OutputPath opts)) ".deployer-backup-db-");
  closed ← attempt (Close_ snapshotPath);
  match closed with
  | Err e => _ ← attempt (Remove snapshotPath); throw (wrap "close temporary database: %w" e)
  | Ok _ =>
      deferring (Remove snapshotPath) (
        _ ← map_err (wrap "check database: %w") (observe (fun m => sqlite_ping m (Create_DatabasePath opts)));
        _ ← map_err (wrap "snapshot database: %w") (vacuum (Create_DatabasePath opts) snapshotPath);
        _ ← map_err (wrap "close database: %w") (Close_ (Create_DatabasePath opts));
        _ ← integrityCheck snapshotPath;
        plain ← map_err (wrap "read database snapshot: %w") (readBoundedFile snapshotPath (maxArtifact - 64));
        writeArtifact (Create_OutputPath opts) key plain)
  end.

(** Closing after a failed step has no further effect. *)
Definition Restore (opts : RestoreOptions) : OS unit :=
  key ← readKey (Restore_KeyFile opts);
  _ ← outputAvailable (Restore_OutputPath opts);
  text ← map_err (wrap "read backup: %w") (readBoundedFile (Restore_InputPath opts) maxArtifact);
  plain ← lift (decrypt key text);
  tmpPath ← map_err (wrap "create restored database: %w") (CreateTemp (Dir (Restore_OutputPath opts)) ".deployer-restore-");
  deferring (Remove tmpPath) (
    _ ← map_err (wrap "write restored database: %w") (Write_ tmpPath plain);
    _ ← map_err (wrap "sync restored database: %w") (Sync_ tmpPath);
    _ ← map_err (wrap "close restored database: %w") (Close_ tmpPath);
    _ ← integrityCheck tmpPath;
    map_err (wrap "publish restored database: %w") (Link tmpPath (Restore_OutputPath opts))).
End backup.
