(* ===== verification/BackupProps.v ===== *)
(** * Backups are published whole and can be restored

    What [Restore] may do to the files of a host whatever others do and whichever calls
    fail, and the round trip through a backup. *)

From S2P Require Import Prelude GoStrings GoNet Db HostFs Backup.
From Stdlib Require Import Ascii String.
Local Open Scope Z_scope.

Section props.
Context `{ArtifactCipher} `{Sqlite}.

(** ** Looking at the host *)

Lemma looks_readKey path : only same (readKey path).
Proof. unfold readKey, Lstat, ReadFile, read_limited. looking. Qed.

Lemma looks_regularFile path label : only same (regularFile path label).
Proof. unfold regularFile, Lstat. looking. Qed.

Lemma looks_outputAvailable path : only same (outputAvailable path).
Proof. unfold outputAvailable, Lstat, Stat. looking. Qed.

Lemma looks_readBounded path limit : only same (readBoundedFile path limit).
Proof. unfold readBoundedFile, ReadFile, read_limited. looking. Qed.

(** ** Publishing *)

Definition restore_temp (out : string) (p : string) : Prop := exists rnd, p = Clean (temp_name (Dir out) ".deployer-restore-" rnd).

(** A call of [Restore]: it changes nothing but the output and its own temporary
    files, and the output only from absent to the intact database of these bytes. *)
Definition restore_step (out plain : string) (m m' : files) : Prop :=
  touches (fun p => p = Clean out \/ restore_temp out p) m m' /\
  (m' !! Clean out = m !! Clean out \/
   m !! Clean out = None /\ integrity_check plain = Ok "ok" /\ exists perm, m' !! Clean out = Some (NFile perm plain)).

(** The steps of [Restore]: it gives up having only looked; or it looked, found a key of
    32 bytes in the key file at one moment and an artifact in the input at another, that
    key opened that artifact, and every later step is a step of restoring its bytes, one
    of which published them if it succeeds. *)
Definition restores (opts : RestoreOptions) (r : result unit) (l : list (files * files)) : Prop :=
  (is_ok r = false /\ Forall (fun s => same s.1 s.2) l) \/
  exists l1 l2 mk mt key text plain, l = (l1 ++ l2)%list /\ Forall (fun s => same s.1 s.2) l1 /\
    (mk, mk) ∈ l1 /\ holds_text mk (Restore_KeyFile opts) key /\ slen key = backupKeySize /\
    (mt, mt) ∈ l1 /\ holds_text mt (Restore_InputPath opts) text /\ decrypt key text = Ok plain /\
    Forall (fun s => restore_step (Restore_OutputPath opts) plain s.1 s.2) l2 /\
    (is_ok r = true -> Exists (fun s => s.1 !! Clean (Restore_OutputPath opts) = None /\
       exists perm, s.2 !! Clean (Restore_OutputPath opts) = Some (NFile perm plain)) l2).

Lemma step_same out plain m m' : same m m' -> restore_step out plain m m'.
Proof. intros ->. split; [done|by left]. Qed.

Lemma step_temp out plain q m m' : restore_temp out q -> ~ restore_temp out (Clean out) -> touches (eq q) m m' -> restore_step out plain m m'.
Proof.
  intros Hq Ho Ht. split; [eapply touches_mono; [|exact Ht]; intros p <-; by right|]. left. apply Ht. intros ->. done.
Qed.

(** ** What is read *)

Lemma limited_kept limit size data : size <= limit -> slen (limited (limit + 1) data) <= size -> limited (limit + 1) data = data.
Proof.
  intros Hs. unfold limited. destruct (Z.leb_spec (slen data) (limit + 1)) as [|Hlt]; [done|]. unfold slen in *. rewrite s_length_take. lia.
Qed.

Lemma read_all limit data h x h' : read_limited limit data h = (Ok x, h') -> x = limited limit data.
Proof.
  unfold read_limited, observe, syscall, call. destruct (next_turn h) as [t ts]. destruct (t_fault t); [done|]. by intros [= <- _].
Qed.

Lemma learns_key path : learns (readKey path) (fun key f => holds_text f path key /\ slen key = backupKeySize).
Proof.
  unfold readKey. apply learns_after; [unfold Lstat; looking|]. intros info. apply learns_after; [looking|]. intros _.
  apply (learns_then _ (fun d f => holds_text f path d)).
  - apply learns_map_err. unfold ReadFile. apply learns_observe. intros m d. apply reads_text.
  - intros d. unfold read_limited. looking.
  - intros d f h key h' Hd E. apply st_bind_ok in E as (x & h1 & Ex%mapped_ok%read_all & E). apply st_bind_ok in E as ([] & h2 & [Hg ->]%guard_ok & [= <- <-]).
    apply negb_false_iff, Z.eqb_eq in Hg. subst x. rewrite (limited_kept backupKeySize backupKeySize) in Hg |- *; [done|lia|lia|lia|lia].
Qed.

Lemma learns_input path limit : learns (readBoundedFile path limit) (fun text f => holds_text f path text).
Proof.
  unfold readBoundedFile. apply learns_after; [apply looks_regularFile|]. intros size. apply learns_after; [looking|]. intros _.
  apply (learns_then _ (fun d f => holds_text f path d)).
  - unfold ReadFile. apply learns_observe. intros m d. apply reads_text.
  - intros d. unfold read_limited. looking.
  - intros d f h text h' Hd E. apply st_bind_ok in E as (x & h1 & Ex%read_all & E). apply st_bind_ok in E as ([] & h2 & [Hg ->]%guard_ok & [= <- <-]).
    apply Z.ltb_ge in Hg. subst x. by rewrite (limited_kept limit limit) in Hg |- *.
Qed.

Section restore.
Context (out : string) (fresh : ~ restore_temp out (Clean out)).
Let T (t : turn) : Prop := spares (restore_temp out) t.
Let R (plain : string) (s : files * files) : Prop := restore_step out plain s.1 s.2.
Let P (plain : string) (s : files * files) : Prop := s.1 !! Clean out = None /\ exists perm, s.2 !! Clean out = Some (NFile perm plain).

Lemma restore_publish plain name F perm : restore_temp out (Clean name) ->
  F !! Clean name = Some (NFile perm "") ->
  hwp T (_ ← map_err (wrap "write restored database: %w") (Write_ name plain);
         _ ← map_err (wrap "sync restored database: %w") (Sync_ name);
         _ ← map_err (wrap "close restored database: %w") (Close_ name);
         _ ← integrityCheck name;
         map_err (wrap "publish restored database: %w") (Link name out)) F (fun r _ l => ends (R plain) (P plain) r l).
Proof.
  intros Ht HF. assert (Tq : T quiet_turn) by done. assert (Ts : forall t, T t -> spares (restore_temp out) t) by done.
  assert (Rs : forall m, R plain (m, m)) by (intros m; by apply step_same).
  eapply (hwp_tmp_write_then T _ Tq Ts); [done|exact HF|intros m m'; by apply step_temp|]. clear F HF. intros F HF. cbn in HF.
  eapply (hwp_tmp_look T _ Tq Ts); [done|exact Ht|exact HF|]. clear F HF. intros F _ HF _.
  eapply (hwp_tmp_look T _ Tq Ts); [done|exact Ht|exact HF|]. clear F HF. intros F _ HF _.
  unfold integrityCheck. apply hwp_assoc. eapply (hwp_tmp_look T _ Tq Ts); [done|exact Ht|exact HF|]. clear F HF. intros F answer HF Ha.
  apply hwp_bind, hwp_guard; [intros _; by apply ends_err|]. intros Hok%negb_false_iff%String.eqb_eq. subst answer.
  assert (Hg : integrity_check plain = Ok "ok").
  { unfold file_data, resolve in Ha. cbn [follow] in Ha. rewrite HF in Ha. by rewrite HF in Ha. }
  apply hwp_map_err. eapply hwp_mono; [by apply (hwp_link T _ Tq Ts name out F _ Ht HF)|]. intros r F' l (m & m' & -> & Hr). destruct r as [[]|e]; cbn in Hr.
  - destruct Hr as [Hn ->]. split; [|intros _; apply Exists_cons_hd; split; [done|cbn; rewrite lookup_insert_eq; eauto]].
    apply Forall_singleton. split; cbn; [intros p Hp; apply lookup_insert_ne; intros <-; apply Hp; by left|]. right. split; [done|]. split; [done|]. exists perm. by rewrite lookup_insert_eq.
  - subst m'. apply ends_err. apply Forall_singleton, Rs.
Qed.

Lemma restore_ends opts F : Restore_OutputPath opts = out -> hwp T (Restore opts) F (fun r _ l => restores opts r l).
Proof.
  intros Eo. assert (Tq : T quiet_turn) by done. assert (Ts : forall t, T t -> spares (restore_temp out) t) by done. unfold Restore. rewrite Eo.
  apply hwp_bind. eapply hwp_mono; [apply hwp_learns, learns_key|]. intros r F1 l1 [L1 K1]. destruct r as [key|e]; [|by left].
  destruct (K1 key eq_refl) as (mk & Hmk & Hkey & Hsize). clear K1.
  apply hwp_bind. eapply hwp_mono; [apply hwp_only, looks_outputAvailable|]. intros r F2 l2 L2. destruct r as [[]|e]; [|left; split; [done|by apply Forall_app]].
  apply hwp_bind, hwp_map_err. eapply hwp_mono; [apply hwp_learns, learns_input|]. intros r F3 l3 [L3 K3].
  destruct r as [text|e]; [|left; split; [done|by repeat apply Forall_app_2]]. destruct (K3 text eq_refl) as (mt & Hmt & Htext). clear K3.
  apply hwp_bind, hwp_lift. destruct (decrypt key text) as [plain|e] eqn:Ed; [|left; split; [done|by repeat apply Forall_app_2; try apply Forall_nil_2]].
  eapply hwp_mono; [apply (hwp_with_temp T (restore_temp out) Tq (R plain) (P plain))|].
  - intros m. by apply step_same.
  - intros rnd. by exists rnd.
  - intros q m m' Hq Ht. by eapply step_temp.
  - intros name F' perm Hn HF. by eapply restore_publish.
  - intros r F' l [Hl Hp]. right. exists (l1 ++ l2 ++ l3)%list, l, mk, mt, key, text, plain. rewrite Eo. split; [by rewrite <- !app_assoc|].
    split; [by repeat apply Forall_app_2|]. split; [set_solver|]. split; [done|]. split; [done|]. split; [set_solver|]. done.
Qed.
End restore.


(** ** An undisturbed backup *)

Definition key_at (F : files) (path key : string) : Prop :=
  exists perm, F !! Clean path = Some (NFile perm key) /\ owner_only perm = true /\ slen key = backupKeySize.

Lemma limited_len limit data : 0 <= limit -> slen (limited limit data) = Z.min limit (slen data).
Proof.
  intros Hl. unfold limited. destruct (slen data <=? limit) eqn:E; [apply Z.leb_le in E; lia|]. apply Z.leb_gt in E.
  unfold slen in *. rewrite s_length_take. lia.
Qed.

Lemma limited_whole limit data : slen data <= limit -> limited limit data = data.
Proof. intros Hl. unfold limited. by rewrite (proj2 (Z.leb_le _ _) Hl). Qed.

Lemma cwp_readKey path F : cwp (readKey path) F (fun r F' => F' = F /\ forall key, r = Ok key <-> key_at F path key).
Proof.
  unfold readKey, key_at. apply cwp_bind, cwp_map_err, cwp_observe.
  destruct (F !! Clean path) as [n|] eqn:En; [|split; [done|]; naive_solver].
  apply cwp_bind, cwp_guard; [intros Hb|intros Hb; destruct n as [perm data| | |]; try discriminate].
  { split; [done|]. intros key. split; [done|]. intros (perm & [= ->] & Ho & _). by rewrite Ho in Hb. }
  apply cwp_bind, cwp_map_err, cwp_observe. rewrite (resolve_file F path perm data En), En.
  apply cwp_bind, cwp_map_err, cwp_observe. apply negb_false_iff in Hb.
  apply cwp_bind, cwp_guard; intros Hk; [|apply cwp_ret]; (split; [done|]); rewrite limited_len in Hk by done.
  - apply negb_true_iff, Z.eqb_neq in Hk. intros key. split; [done|]. intros (p' & [= <- <-] & _ & Hs).
    rewrite Hs in Hk. unfold backupKeySize in *. lia.
  - apply negb_false_iff, Z.eqb_eq in Hk. assert (Hs : slen data = backupKeySize) by (unfold backupKeySize in *; lia).
    rewrite limited_whole by (rewrite Hs; done). intros key. split; [intros [= <-]; eauto|]. by intros (p' & [= <- <-] & _).
Qed.

Lemma cwp_readBounded path limit F : 0 <= limit -> cwp (readBoundedFile path limit) F (fun r F' => F' = F /\
  forall data, r = Ok data <-> (exists perm, F !! Clean path = Some (NFile perm data)) /\ slen data <= limit).
Proof.
  intros Hl. unfold readBoundedFile, regularFile. apply cwp_bind, cwp_bind, cwp_map_err, cwp_observe.
  destruct (F !! Clean path) as [n|] eqn:En; [|split; [done|]; naive_solver].
  destruct n as [perm data| | |]; try (apply cwp_throw; split; [done|]; naive_solver). apply cwp_ret.
  apply cwp_bind, cwp_guard; intros Hb.
  { split; [done|]. apply Z.ltb_lt in Hb. intros d. split; [done|]. intros [[p' [= <- <-]] Hd]. lia. }
  apply Z.ltb_ge in Hb. apply cwp_bind, cwp_observe. rewrite (resolve_file F path perm data En), En.
  apply cwp_bind, cwp_observe. rewrite limited_whole by lia. apply cwp_bind, cwp_guard; intros Hb'; [apply Z.ltb_lt in Hb'; lia|].
  apply cwp_ret. split; [done|]. intros d. split; [intros [= <-]; eauto|]. by intros [[p' [= <- <-]] _].
Qed.

Lemma cwp_output path F : cwp (outputAvailable path) F (fun r F' => F' = F /\ (r = Ok tt <-> F !! Clean path = None /\ is_dir F (Dir path) = true)).
Proof.
  unfold outputAvailable. apply cwp_bind, cwp_attempt, cwp_observe. destruct (F !! Clean path) eqn:En.
  { apply cwp_bind, cwp_throw. split; [done|]. by split; [|intros [? _]]. }
  apply cwp_bind, cwp_guard; [done|intros _]. apply cwp_bind, cwp_map_err, cwp_observe.
  destruct (is_dir F (Dir path)) eqn:Ed; [apply cwp_guard; [done|]; by intros _; split|].
  assert (Hno : forall e : error, F = F /\ (Err e = Ok tt <-> @None node = None /\ false = true)) by (intros e; split; [done|]; by split; [|intros [_ ?]]).
  destruct (resolve F (Dir path)) as [q|] eqn:Er; [|apply Hno]. destruct (F !! q) as [n|] eqn:Eq; [|apply Hno].
  apply cwp_guard; intros Hb; [apply Hno|]. apply negb_false_iff, bool_decide_eq_true in Hb as ->.
  unfold is_dir in Ed. rewrite Er, bool_decide_true in Ed by done. by rewrite orb_true_r in Ed.
Qed.

Lemma decrypt_artifact key nonce plain : slen key = backupKeySize -> slen nonce = gcmNonceSize -> slen plain <= maxArtifact - 64 ->
  decrypt key (artifact key nonce plain) = Ok plain.
Proof.
  intros Hk Hn Hp. assert (Hc : newCipher key = Ok tt) by (unfold newCipher; by rewrite Hk).
  unfold decrypt. rewrite Hc. cbn [mbind result_bind].
  assert (Hl : slen (artifact key nonce plain) = slen artifactMagic + gcmNonceSize + gcmOverhead + slen plain).
  { unfold artifact. rewrite !slen_app, gcm_Seal_len. unfold gcmNonceSize, gcmOverhead in *. lia. }
  rewrite Hl. assert (slen artifactMagic = 18) as Em by done. rewrite Em.
  assert (maxArtifact = 1073741824) as Ex by done. unfold gcmNonceSize, gcmOverhead. pose proof (slen_nonneg plain).
  assert (HasPrefix (artifact key nonce plain) artifactMagic = true) as -> by apply HasPrefix_app.
  assert ((maxArtifact <? 18 + 12 + 16 + slen plain) = false) as -> by (apply Z.ltb_ge; lia).
  assert ((18 + 12 + 16 + slen plain <? 18 + 12 + 16) = false) as -> by (apply Z.ltb_ge; lia). cbn [negb orb check mbind result_bind].
  unfold artifact. rewrite s_drop_app.
  assert (Z.to_nat 12 = String.length nonce) as -> by (unfold slen, gcmNonceSize in Hn; lia).
  rewrite s_drop_app, s_take_app. by rewrite gcm_Open_Seal.
Qed.

(** The artifact is published and no temporary file stays. *)
Lemma cwp_writeArtifact path key plain F : cwp (writeArtifact path key plain) F (fun r F' => is_ok r = true ->
  exists nonce perm, slen nonce = gcmNonceSize /\ F !! Clean path = None /\ F' = <[Clean path := NFile perm (artifact key nonce plain)]> F).
Proof.
  unfold writeArtifact. apply cwp_bind, cwp_lift. destruct (newCipher key); [|done].
  apply cwp_bind, cwp_map_err, cwp_syscall. intros u t r m' [= <- <-]. destruct (t_random t) as [|nonce ?]; [done|].
  destruct (slen nonce =? gcmNonceSize) eqn:En; [|done]. apply Z.eqb_eq in En.
  apply cwp_bind, cwp_map_err, cwp_create_temp; [done|done|]. intros rnd perm Hq. set (name := temp_name _ _ _) in *.
  apply cwp_deferring, cwp_bind, cwp_attempt, cwp_bind. eapply cwp_write; [by apply lookup_insert_eq|]. rewrite insert_insert_eq.
  apply cwp_bind. eapply cwp_write; [by apply lookup_insert_eq|]. rewrite insert_insert_eq.
  apply cwp_bind. eapply cwp_write; [by apply lookup_insert_eq|]. rewrite insert_insert_eq.
  apply cwp_observe, cwp_bind, cwp_attempt, cwp_observe, cwp_bind, cwp_map_err, cwp_lift, cwp_map_err.
  eapply cwp_link; [by apply lookup_insert_eq| |].
  - intros _ e. eapply cwp_remove; [by apply lookup_insert_eq|done].
  - intros Hn. assert (Clean path <> Clean name) as Hne by (intros E; rewrite E, lookup_insert_eq in Hn; done).
    rewrite lookup_insert_ne in Hn by done. eapply cwp_remove; [rewrite lookup_insert_ne by done; by apply lookup_insert_eq|].
    intros _. exists nonce, perm. split; [done|]. split; [done|]. rewrite delete_insert_ne, delete_insert_id by done.
    unfold artifact. by rewrite !s_app_assoc.
Qed.

Lemma cwp_create opts F : cwp (Create opts) F (fun r F' => is_ok r = true ->
  exists key nonce plain perm m, key_at F (Create_KeyFile opts) key /\ slen nonce = gcmNonceSize /\ slen plain <= maxArtifact - 64 /\
    (forall p, is_Some (F !! p) -> m !! p = F !! p) /\ vacuum_into m (Create_DatabasePath opts) = Ok plain /\ integrity_check plain = Ok "ok" /\
    F !! Clean (Create_OutputPath opts) = None /\ F' = <[Clean (Create_OutputPath opts) := NFile perm (artifact key nonce plain)]> F).
Proof.
  unfold Create. apply cwp_bind. eapply cwp_mono; [apply cwp_readKey|]. intros [key|e] F1 [-> Hk]; [|done]. specialize (proj1 (Hk key) eq_refl) as Hkey.
  apply cwp_bind, cwp_bind, cwp_map_err, cwp_observe. destruct (F !! Clean (Create_DatabasePath opts)) as [[dperm ddata| | |]|]; try done; try (by apply cwp_throw). apply cwp_ret.
  apply cwp_bind. eapply cwp_mono; [apply cwp_output|]. intros [[]|e] F1 [-> Ho]; [|done]. destruct (proj1 Ho eq_refl) as [Hout _].
  apply cwp_bind, cwp_map_err, cwp_create_temp; [done|done|]. intros rnd perm Hq. set (name := temp_name _ _ _) in *.
  apply cwp_bind, cwp_attempt, cwp_observe, cwp_deferring, cwp_bind, cwp_map_err, cwp_observe.
  destruct (sqlite_ping _ _); [|by apply cwp_syscall].
  apply cwp_bind, cwp_map_err, cwp_call. intros u t r m' Ht E. rewrite Ht, lookup_insert_eq in E. cbn in E.
  destruct (vacuum_into _ _) as [plain|e] eqn:Ev; injection E as <- <-; [|by apply cwp_syscall]. rewrite insert_insert_eq.
  set (m := <[Clean name := NFile perm ""]> F) in *. set (F1 := <[Clean name := NFile perm plain]> F).
  assert (H1 : F1 !! Clean name = Some (NFile perm plain)) by apply lookup_insert_eq.
  apply cwp_bind, cwp_map_err, cwp_observe, cwp_bind. unfold integrityCheck. apply cwp_bind, cwp_map_err, cwp_observe.
  unfold file_data. rewrite (resolve_file F1 name perm plain H1), H1. cbn [mbind result_bind].
  destruct (integrity_check plain) as [answer|] eqn:Ei; [|by apply cwp_syscall].
  apply cwp_guard; [intros _; by apply cwp_syscall|]. intros ->%negb_false_iff%String.eqb_eq.
  apply cwp_bind, cwp_map_err. eapply cwp_mono; [by apply cwp_readBounded|]. intros [data|e] F2 [-> Hr]; [|by apply cwp_syscall].
  destruct (proj1 (Hr data) eq_refl) as [[p' Hp'] Hlen]. rewrite H1 in Hp'. injection Hp' as <- <-.
  eapply cwp_mono; [apply cwp_writeArtifact|]. intros [[]|e] F3 Hw; [|by apply cwp_syscall]. destruct (Hw eq_refl) as (nonce & perm' & Hn & Hnone & ->).
  assert (Clean (Create_OutputPath opts) <> Clean name) as Hne by (intros E; by rewrite E, H1 in Hnone).
  eapply cwp_remove; [by rewrite lookup_insert_ne|]. intros _. exists key, nonce, plain, perm', m.
  split; [done|]. split; [done|]. split; [done|]. split; [intros p [n Hp]; apply lookup_insert_ne; intros <-; congruence|].
  split; [done|]. split; [done|]. split; [done|]. rewrite delete_insert_ne by done. unfold F1. by rewrite delete_insert_id.
Qed.

(** [Restore] of an artifact on an undisturbed host. *)
Lemma cwp_restore opts F key text plain : key_at F (Restore_KeyFile opts) key -> (exists perm, F !! Clean (Restore_InputPath opts) = Some (NFile perm text)) ->
  slen text <= maxArtifact -> decrypt key text = Ok plain -> integrity_check plain = Ok "ok" ->
  F !! Clean (Restore_OutputPath opts) = None -> is_dir F (Dir (Restore_OutputPath opts)) = true ->
  ~ restore_temp (Restore_OutputPath opts) (Clean (Restore_OutputPath opts)) ->
  cwp (Restore opts) F (fun r F' => r = Ok tt /\ (exists perm, F' = <[Clean (Restore_OutputPath opts) := NFile perm plain]> F) \/
    r = Err (wrap "create restored database: %w" ErrExist)).
Proof.
  intros Hk Hin Hlen Hdec Hint Hout Hdir Hfresh. unfold Restore. apply cwp_bind. eapply cwp_mono; [apply cwp_readKey|]. intros r F1 [-> Hr].
  rewrite (proj2 (Hr key) Hk). apply cwp_bind. eapply cwp_mono; [apply cwp_output|]. intros r2 F1 [-> Hr2]. rewrite (proj2 Hr2 (conj Hout Hdir)).
  apply cwp_bind, cwp_map_err. eapply cwp_mono; [by apply cwp_readBounded|]. intros r3 F1 [-> Hr3]. rewrite (proj2 (Hr3 text) (conj Hin Hlen)).
  apply cwp_bind, cwp_lift. rewrite Hdec.
  apply cwp_bind, cwp_map_err, cwp_create_temp; [congruence|by right|]. intros rnd perm Hq.
  assert (Hne : Clean (Restore_OutputPath opts) <> Clean (temp_name (Dir (Restore_OutputPath opts)) ".deployer-restore-" rnd)).
  { intros E. apply Hfresh. by exists rnd. }
  set (name := temp_name _ _ _) in *. apply cwp_deferring, cwp_bind, cwp_map_err. eapply cwp_write; [by apply lookup_insert_eq|].
  rewrite insert_insert_eq. cbn [String.append]. change ("" +:+ plain) with plain. set (F1 := <[Clean name := NFile perm plain]> F).
  assert (H1 : F1 !! Clean name = Some (NFile perm plain)) by apply lookup_insert_eq.
  apply cwp_bind, cwp_map_err, cwp_observe, cwp_bind, cwp_map_err, cwp_observe, cwp_bind.
  unfold integrityCheck. apply cwp_bind, cwp_map_err, cwp_observe.
  unfold file_data. rewrite (resolve_file F1 name perm plain H1), H1. cbn [mbind result_bind]. rewrite Hint. apply cwp_guard; [done|]. intros _.
  apply cwp_map_err. eapply cwp_link; [exact H1| |].
  - intros [[n Hn]|Hd]; exfalso; [unfold F1 in Hn; by rewrite lookup_insert_ne, Hout in Hn|].
    unfold F1 in Hd. rewrite is_dir_file in Hd; [congruence|intros target; by rewrite Hq|by rewrite Hq].
  - intros _. eapply cwp_remove; [by rewrite lookup_insert_ne|]. left. split; [done|]. exists perm.
    rewrite delete_insert_ne by done. unfold F1. by rewrite delete_insert_id.
Qed.

(** C33: a backup can be restored.  On an undisturbed host, if [Create] succeeds it has
    added exactly one file, and [Restore] of that file with the same key file to a free
    path in an existing directory succeeds, unless no temporary name is free, and adds
    exactly one file: the snapshot [VACUUM INTO] made of the database when the backup
    was created, byte for byte.  The size limits of the two operations agree: whatever
    [Create] writes, [Restore] accepts. *)
Theorem backup_roundtrip co out h h1 r h2 :
  Forall calm (h_turns h) -> Create co h = (Ok tt, h1) ->
  h_files h1 !! Clean out = None -> is_dir (h_files h1) (Dir out) = true -> ~ restore_temp out (Clean out) ->
  Restore (MkRestoreOptions (Create_OutputPath co) out (Create_KeyFile co)) h1 = (r, h2) ->
  exists m plain, (forall p, is_Some (h_files h !! p) -> m !! p = h_files h !! p) /\ vacuum_into m (Create_DatabasePath co) = Ok plain /\
    (exists perm text, h_files h !! Clean (Create_OutputPath co) = None /\ h_files h1 = <[Clean (Create_OutputPath co) := NFile perm text]> (h_files h)) /\
    (r = Ok tt /\ (exists perm, h_files h2 = <[Clean out := NFile perm plain]> (h_files h1)) \/
     r = Err (wrap "create restored database: %w" ErrExist)).
Proof.
  intros HT E1 Ho Hd Hf E2. destruct (cwp_run _ _ _ _ _ (cwp_create co (h_files h)) HT E1) as [HT1 Hc].
  destruct (Hc eq_refl) as (key & nonce & plain & perm & m & Hk & Hn & Hl & Hm & Hv & Hi & Hnone & EF). exists m, plain.
  split; [done|]. split; [done|]. split; [by exists perm, (artifact key nonce plain)|].
  destruct Hk as (kp & Hkey & Hperm & Hklen). assert (Hk1 : key_at (h_files h1) (Create_KeyFile co) key).
  { exists kp. split; [|done]. rewrite EF, lookup_insert_ne; [done|]. congruence. }
  refine (proj2 (cwp_run _ _ _ _ _ (cwp_restore _ (h_files h1) key (artifact key nonce plain) plain _ _ _ _ _ _ _ _) HT1 E2)); try done.
  - cbn. rewrite EF, lookup_insert_eq. eauto.
  - unfold artifact. rewrite !slen_app, gcm_Seal_len, Hn. unfold gcmNonceSize, gcmOverhead. change (slen artifactMagic) with 18. lia.
  - by apply decrypt_artifact.
Qed.
End props.

(** ** A backup and its restoration on a small host *)
(** A cipher that seals with the key itself as tag, and a database that is its bytes. *)
Definition tag (key : string) : string := s_take 16 (key +:+ "0123456789abcdef").

Lemma tag_length key : String.length (tag key) = 16%nat.
Proof. unfold tag. rewrite s_length_take, s_length_app. cbn [String.length]. lia. Qed.

#[refine] Definition tag_cipher : ArtifactCipher := {|
  gcm_Seal := fun key _ p _ => tag key +:+ p;
  gcm_Open := fun key _ c _ => if HasPrefix c (tag key) then Some (s_drop 16 c) else None |}.
Proof.
  - intros key nonce p ad _. rewrite HasPrefix_app. rewrite <- (tag_length key). by rewrite s_drop_app.
  - intros key nonce p ad. rewrite slen_app. unfold slen at 1. rewrite tag_length. unfold gcmOverhead. lia.
Defined.

Definition plain_sqlite : Sqlite := {|
  sqlite_ping := fun m p => _ ← file_data m p; Ok tt;
  vacuum_into := file_data;
  integrity_check := fun data => Ok (if HasPrefix data "SQLite" then "ok" else "malformed") |}.

Section run.
#[local] Existing Instance tag_cipher.
#[local] Existing Instance plain_sqlite.

Definition run_key : string := "0123456789abcdef0123456789abcdef".
Definition run_files : files :=
  <["/data" := NDir]> (<["/data/deployer.db" := NFile 384 "SQLite apps"]> (<["/data/key" := NFile 384 run_key]> ∅)).
(** Turns with a nonce and a temporary name. *)
Definition helpful : turn := Turn (fun m => m) [7] ["twelve bytes"] None 0.
Definition run_host : host := Host run_files (repeat helpful 60) 18 [].
Definition run_create : CreateOptions := MkCreateOptions "/data/deployer.db" "/data/backup" "/data/key".
Definition run_restore : RestoreOptions := MkRestoreOptions "/data/backup" "/data/copy.db" "/data/key".

Definition output_of (p : string) (h : host) : option node := h_files h !! p.

Lemma helpful_calm : Forall calm (h_turns run_host).
Proof. apply Forall_forall. intros t Ht%list_elem_of_In%repeat_spec. by subst. Qed.

Lemma backup_runs : exists h1, Create run_create run_host = (Ok tt, h1) /\ output_of "/data/copy.db" h1 = None /\ is_dir (h_files h1) "/data" = true /\
  exists r h2, Restore run_restore h1 = (r, h2) /\ is_ok r = true.
Proof.
  assert (E1 : is_ok (Create run_create run_host).1 = true) by (vm_compute; reflexivity).
  assert (E2 : output_of "/data/copy.db" (Create run_create run_host).2 = None) by (vm_compute; reflexivity).
  assert (E3 : is_dir (h_files (Create run_create run_host).2) "/data" = true) by (vm_compute; reflexivity).
  assert (E4 : is_ok (Restore run_restore (Create run_create run_host).2).1 = true) by (vm_compute; reflexivity).
  destruct (Create run_create run_host) as [[[]|e] h1]; [|discriminate]. exists h1. cbn [fst snd] in *.
  destruct (Restore run_restore h1) as [r h2]. exact (conj eq_refl (conj E2 (conj E3 (ex_intro _ r (ex_intro _ h2 (conj eq_refl E4)))))).
Qed.

Lemma copy_no_temp : ~ restore_temp "/data/copy.db" (Clean "/data/copy.db").
Proof.
  intros [n E]. change (temp_name (Dir "/data/copy.db") ".deployer-restore-" n) with ("/data/" +:+ (".deployer-restore-" +:+ Itoa n)) in E.
  rewrite (Clean_data (".deployer-restore-" +:+ Itoa n)) in E; [discriminate| |done..]. cbn. apply Itoa_no_slash.
Qed.

Lemma backup_roundtrip_witness : exists h1 h2, Create run_create run_host = (Ok tt, h1) /\ Restore run_restore h1 = (Ok tt, h2) /\
  exists perm, output_of "/data/copy.db" h2 = Some (NFile perm "SQLite apps").
Proof.
  destruct backup_runs as (h1 & E1 & Hn & Hd & r & h2 & E2 & Hok).
  destruct (backup_roundtrip run_create "/data/copy.db" run_host h1 r h2 helpful_calm E1 Hn Hd copy_no_temp E2) as (m & plain & Hm & Hv & _ & [[-> [perm Ef]]| ->]).
  - exists h1, h2. split; [exact E1|]. split; [exact E2|]. exists perm. unfold output_of. rewrite Ef.
    assert (plain = "SQLite apps") as ->.
    { assert (Hdb : m !! "/data/deployer.db" = Some (NFile 384 "SQLite apps")) by (apply (Hm "/data/deployer.db"); vm_compute; eauto).
      cbn in Hv. unfold file_data in Hv. rewrite (resolve_file m "/data/deployer.db" 384 "SQLite apps" Hdb) in Hv.
      change (Clean "/data/deployer.db") with "/data/deployer.db" in Hv.
      rewrite Hdb in Hv. by injection Hv. }
    apply lookup_insert_eq.
  - discriminate.
Defined.

Lemma create_turns h1 : Create run_create run_host = (Ok tt, h1) -> Forall (spares (restore_temp "/data/copy.db")) (h_turns h1).
Proof.
  intros E. destruct (cwp_run _ _ _ _ _ (cwp_create run_create (h_files run_host)) helpful_calm E) as [HT _].
  eapply Forall_impl; [exact HT|]. intros t [Ho _] m p _. by rewrite Ho.
Qed.

End run.
