(* ===== verification/Hub.v ===== *)
(** * The WireGuard hub and the configuration of its nodes
    (internal/wireguard/hub.go, node.go, the configuration text of wireguard.go)

    The hub is changed by running [wg] through the runner the source declares; the
    interface [WgHub] states what its documentation says of the three commands used.
    A runner is configured. *)

From S2P Require Import Prelude GoStrings GoNet Regexp GoJson Wireguard Db NodeRegistry.
From Stdlib Require Import Ascii String.
Local Open Scope Z_scope.

(** ** strings.Fields and the text of an address *)

Fixpoint fields_from (fuel : nat) (s current : string) : list string :=
  let flush := if String.eqb current "" then [] else [current] in
  match fuel, s with
  | S f, String a s' => if leads_space s then (flush ++ fields_from f (trim_left s) "")%list else fields_from f s' (current +:+ String a "")
  | _, _ => flush
  end.
Definition Fields (s : string) : list string := fields_from (S (String.length s)) s "".

Definition hex_char (z : Z) : ascii := if z <? 10 then z2b (48 + z) else z2b (87 + z).
Definition hex_group (z : Z) : string :=
  let d n := String (hex_char (z / n mod 16)) "" in
  if z <? 16 then d 1 else if z <? 256 then d 16 +:+ d 1 else if z <? 4096 then d 256 +:+ d 16 +:+ d 1 else d 4096 +:+ d 256 +:+ d 16 +:+ d 1.

Definition ip6_words (n : Z) : list Z := (fun i => n / 2 ^ (16 * i) mod 65536) <$> [7; 6; 5; 4; 3; 2; 1; 0].
Fixpoint zeros_at (l : list Z) : nat := match l with z :: l' => if z =? 0 then S (zeros_at l') else O | [] => O end.
(** The first longest run of at least two zero groups. *)
Fixpoint zero_run (l : list Z) (i : nat) (best : nat * nat) : nat * nat :=
  match l with
  | [] => best
  | _ :: l' => zero_run l' (S i) (if (best.2 <? zeros_at l)%nat && (2 <=? zeros_at l)%nat then (i, zeros_at l) else best)
  end.
Definition ip6_text (n : Z) : string :=
  let words := ip6_words n in
  let '(start, len) := zero_run words 0 (O, O) in
  let text l := String.concat ":" (hex_group <$> l) in
  if (len =? 0)%nat then text words else text (firstn start words) +:+ "::" +:+ text (skipn (start + len) words).

(** [netip.Addr.String] *)
Definition addr_string (a : addr) : string :=
  match a with
  | IP4 n => ip4_string n
  | IP6 n zone =>
      (if n / 2 ^ 32 =? 65535 then "::ffff:" +:+ ip4_string (n mod 2 ^ 32) else ip6_text n) +:+
      (if String.eqb zone "" then "" else "%" +:+ zone)
  end.

(** ** hub.go *)

Class HubCommandRunner (K : Type) := {
  Runner_Output : string -> list string -> K -> result string * K;
  Runner_Run : string -> list string -> K -> result unit * K
}.

Definition interfaceNamePattern : regex :=
  let c := cls [(65, 90); (97, 122); (48, 57); (95, 95); (61, 61); (43, 43); (46, 46); (45, 45)] in RSeq c (RUpTo 14 c).

Section hub.
Context {K : Type} `{!HubCommandRunner K}.

Definition hub_node (n : Node) : bool := negb (String.eqb (Node_Status n) "removed") && negb (blank (Node_WireGuardPublicKey n)).

(** The peers the nodes should have, and their keys in order. *)
Fixpoint desired_peers (nodes : list Node) (desired : gmap string string) (keys : list string) : result (gmap string string * list string) :=
  match nodes with
  | [] => Ok (desired, keys)
  | n :: rest =>
      if negb (hub_node n) then desired_peers rest desired keys
      else match ValidatePublicKey (Node_WireGuardPublicKey n) with
           | Err e => Err (ErrWrap "node %s has invalid WireGuard public key: %w" [AStr (Node_Name n)] e)
           | Ok _ =>
               match ParseAddr (TrimSpace (Node_WireGuardIP n)) with
               | None => Err (ErrWrap "node %s has invalid WireGuard IP: %w" [AStr (Node_Name n)] errParseAddr)
               | Some ip =>
                   let key := TrimSpace (Node_WireGuardPublicKey n) in
                   desired_peers rest (<[key := addr_string ip +:+ "/32"]> desired) (keys ++ [key])%list
               end
           end
  end.

Fixpoint remove_peers (iface : string) (desired : gmap string string) (existing : list string) : ST K unit :=
  match existing with
  | [] => mret tt
  | key :: rest =>
      if bool_decide (is_Some (desired !! key)) then remove_peers iface desired rest
      else _ ← map_err (ErrWrap "remove WireGuard hub peer: %w" []) (Runner_Run "wg" ["set"; iface; "peer"; key; "remove"]);
           remove_peers iface desired rest
  end.

Fixpoint apply_peers (iface : string) (desired : gmap string string) (keys : list string) : ST K unit :=
  match keys with
  | [] => mret tt
  | key :: rest =>
      _ ← map_err (ErrWrap "apply WireGuard hub peer: %w" [])
            (Runner_Run "wg" ["set"; iface; "peer"; key; "allowed-ips"; default "" (desired !! key)]);
      apply_peers iface desired rest
  end.

Definition SyncPeers (iface : string) (nodes : list Node) : ST K unit :=
  _ ← guard (negb (re_match interfaceNamePattern (TrimSpace iface))) (Errorf "invalid WireGuard interface %q" [AStr iface]);
  '(desired, keys) ← lift (desired_peers nodes ∅ []);
  output ← map_err (ErrWrap "inspect WireGuard hub peers: %w" []) (Runner_Output "wg" ["show"; iface; "peers"]);
  _ ← remove_peers iface desired (merge_sort str_le (Fields output));
  apply_peers iface desired (merge_sort str_le keys).
End hub.

(** ** node.go *)

Definition DefaultPersistentKeepalive : Z := 25.

Record NodeConfig := MkNodeConfig {
  NC_PrivateKey : string; NC_Address : string; NC_HubPublicKey : string; NC_Endpoint : string; NC_AllowedIPs : string; NC_PersistentKeepalive : Z }.

Definition NodeConfig_WithDefaults (c : NodeConfig) : NodeConfig :=
  MkNodeConfig (NC_PrivateKey c) (NC_Address c) (NC_HubPublicKey c) (NC_Endpoint c)
    (if blank (NC_AllowedIPs c) then "10.8.0.0/24" else NC_AllowedIPs c)
    (if NC_PersistentKeepalive c <=? 0 then DefaultPersistentKeepalive else NC_PersistentKeepalive c).

Definition newline : string := String "010"%char "".

(** [net.SplitHostPort]: the port after the last colon, the host before it, in
    brackets when it has colons. *)
Definition SplitHostPort (s : string) : option (string * string) :=
  match cut_last s ":"%char with
  | None => None
  | Some (before, port) =>
      if HasPrefix s "[" then
        match Cut s "]" with
        | (host, after, true) =>
            if negb (HasPrefix after ":") || negb (String.eqb after (":" +:+ port)) then None
            else let inner := s_drop 1 host in
                 if contains_byte inner "["%char || contains_byte port "]"%char || contains_byte port "["%char then None else Some (inner, port)
        | _ => None
        end
      else if contains_byte before ":"%char then None
      else if contains_byte s "["%char || contains_byte s "]"%char then None
      else Some (before, port)
  end.

Definition RenderNodeConfig (cfg : NodeConfig) : result string :=
  let c := NodeConfig_WithDefaults cfg in
  _ ← ValidatePrivateKey (NC_PrivateKey c);
  _ ← ValidatePublicKey (NC_HubPublicKey c);
  match ParseAddr (TrimSpace (NC_Address c)) with
  | None => Err (ErrWrap "parse node WireGuard IP: %w" [] errParseAddr)
  | Some address =>
      _ ← (match ParsePrefix (TrimSpace (NC_AllowedIPs c)) with
           | None => Err (ErrWrap "parse WireGuard allowed IPs: %w" [] (ErrSentinel "netip.ParsePrefix"))
           | Some _ => Ok tt
           end);
      _ ← (match SplitHostPort (TrimSpace (NC_Endpoint c)) with
           | None => Err (ErrWrap "parse WireGuard endpoint: %w" [] (ErrSentinel "address error"))
           | Some _ => Ok tt
           end);
      Ok (String.concat newline
            ["[Interface]"; "PrivateKey = " +:+ TrimSpace (NC_PrivateKey c); "Address = " +:+ addr_string address +:+ "/32"; "";
             "[Peer]"; "PublicKey = " +:+ TrimSpace (NC_HubPublicKey c); "Endpoint = " +:+ TrimSpace (NC_Endpoint c);
             "AllowedIPs = " +:+ TrimSpace (NC_AllowedIPs c); "PersistentKeepalive = " +:+ Itoa (NC_PersistentKeepalive c); ""])
  end.

(** ** wireguard.go: the text of the hub's peers *)

(** [netip.Addr.Less]: by bit length, number and zone; the zero address, which
    failed parsing leaves behind, has no bits. *)
Definition addr_rank (a : option addr) : Z * Z :=
  match a with None => (0, 0) | Some (IP4 n) => (32, n) | Some (IP6 n _) => (128, n) end.
Definition addr_zone (a : option addr) : string := match a with Some a => Zone a | None => "" end.
Definition Less (a b : option addr) : bool :=
  let '(la, na) := addr_rank a in let '(lb, nb) := addr_rank b in
  if la =? lb then (if na =? nb then String.ltb (addr_zone a) (addr_zone b) else na <? nb) else la <? lb.

Definition peer_less (x y : Node) : bool :=
  let left := ParseAddr (Node_WireGuardIP x) in
  let right := ParseAddr (Node_WireGuardIP y) in
  if bool_decide (left = right) then String.ltb (Node_Name x) (Node_Name y) else Less left right.

Definition peer_le (x y : Node) : Prop := peer_less y x = false.
#[export] Instance peer_le_dec x y : Decision (peer_le x y).
Proof. unfold peer_le. apply _. Defined.

Fixpoint collect_peers (nodes : list Node) : result (list Node) :=
  match nodes with
  | [] => Ok []
  | n :: rest =>
      if String.eqb (Node_Status n) "removed" || (blank (Node_WireGuardIP n) || blank (Node_WireGuardPublicKey n)) then collect_peers rest
      else match ValidatePublicKey (Node_WireGuardPublicKey n) with
           | Err e => Err (ErrWrap "node %s has invalid WireGuard public key: %w" [AStr (Node_Name n)] e)
           | Ok _ =>
               match ParseAddr (Node_WireGuardIP n) with
               | None => Err (ErrWrap "node %s has invalid WireGuard IP: %w" [AStr (Node_Name n)] errParseAddr)
               | Some _ => peers ← collect_peers rest; Ok (n :: peers)
               end
           end
  end.

Definition peer_block (peer : Node) : string :=
  "[Peer]" +:+ newline +:+ "# " +:+ Node_Name peer +:+
  (if String.eqb (Node_ID peer) "" then "" else " (" +:+ Node_ID peer +:+ ")") +:+ newline +:+
  "PublicKey = " +:+ TrimSpace (Node_WireGuardPublicKey peer) +:+ newline +:+
  "AllowedIPs = " +:+ TrimSpace (Node_WireGuardIP peer) +:+ "/32" +:+ newline.

(** [sort.Slice] leaves the order of peers with the same address and name open;
    here they keep the order of the nodes. *)
Definition HubPeerConfig (nodes : list Node) : result string :=
  peers ← collect_peers nodes;
  Ok (String.concat newline (peer_block <$> merge_sort peer_le peers)).
