(* ===== verification/HubProps.v ===== *)
(** * The hub follows the registry

    What [SyncPeers] leaves on the hub, against the documented behaviour of [wg]. *)

From S2P Require Import Prelude GoStrings Regexp GoJson GoTime GoNet Wireguard Appconfig AppconfigSpec Db DbRepos Security NodeRegistry NodeService NodeLogic NodeProps NodeRun Events EventProps Hub.
From Stdlib Require Import Ascii String.
Local Open Scope Z_scope.

(** wg(8): [show <interface> peers] prints the public keys; [peer <key> remove] removes
    the peer; [peer <key> allowed-ips <ip>] replaces the addresses of the peer, adding it
    when it is new, and takes the address from every other peer.  A key is 44 characters
    of base64; any other text is refused.  A command that fails may have taken effect. *)
Class WgHub (K : Type) `{!HubCommandRunner K} := {
  hub_peers : string -> K -> gmap string (gset string);
  wg_show : forall i k r k', Runner_Output "wg" ["show"; i; "peers"] k = (r, k') -> hub_peers i k' = hub_peers i k /\
    (forall out, r = Ok out -> forall key, key ∈ Fields out <-> is_Some (hub_peers i k !! key));
  wg_remove : forall i key k r k', Runner_Run "wg" ["set"; i; "peer"; key; "remove"] k = (r, k') ->
    hub_peers i k' = delete key (hub_peers i k) \/ is_ok r = false /\ hub_peers i k' = hub_peers i k;
  wg_allow : forall i key ip k r k', Runner_Run "wg" ["set"; i; "peer"; key; "allowed-ips"; ip] k = (r, k') ->
    slen key = 44 /\ hub_peers i k' = <[key := {[ip]}]> ((fun ips => ips ∖ {[ip]}) <$> hub_peers i k) \/
    is_ok r = false /\ hub_peers i k' = hub_peers i k
}.

Section props.
Context {K : Type} `{!HubCommandRunner K} `{!WgHub K} (iface : string).
Notation peers := (hub_peers iface).

(** ** The desired peers *)

Definition peer_of (n : Node) (key cidr : string) : Prop :=
  hub_node n = true /\ key = TrimSpace (Node_WireGuardPublicKey n) /\
  exists ip, ParseAddr (TrimSpace (Node_WireGuardIP n)) = Some ip /\ cidr = addr_string ip +:+ "/32".

Lemma desired_peers_spec nodes d0 ks0 d ks : desired_peers nodes d0 ks0 = Ok (d, ks) ->
  (forall key cidr, d !! key = Some cidr -> (exists n, n ∈ nodes /\ peer_of n key cidr) \/ d0 !! key = Some cidr) /\
  (forall n, n ∈ nodes -> hub_node n = true -> is_Some (d !! TrimSpace (Node_WireGuardPublicKey n))) /\
  (forall key, is_Some (d0 !! key) -> is_Some (d !! key)) /\
  (forall key, key ∈ ks <-> key ∈ ks0 \/ exists n, n ∈ nodes /\ hub_node n = true /\ key = TrimSpace (Node_WireGuardPublicKey n)).
Proof.
  revert d0 ks0. induction nodes as [|n nodes IH]; intros d0 ks0; cbn.
  { intros [= -> ->]. split; [eauto|]. split; [by intros n []%elem_of_nil|]. split; [done|]. intros key. split; [eauto|].
    by intros [?|(n & []%elem_of_nil & _)]. }
  destruct (hub_node n) eqn:Eh; cbn.
  - destruct (ValidatePublicKey _); [|discriminate]. destruct (ParseAddr _) as [ip|] eqn:Ei; [|discriminate].
    set (key0 := TrimSpace (Node_WireGuardPublicKey n)). intros (H1 & H2 & H3 & H4)%IH. split_and!.
    + intros key cidr Hk. destruct (H1 _ _ Hk) as [(n' & Hn & Hp)|Hd]; [left; exists n'; split; [by right|done]|].
      destruct (decide (key = key0)) as [->|Hne]; [|rewrite lookup_insert_ne in Hd by done; by right].
      rewrite lookup_insert_eq in Hd. injection Hd as <-. left. exists n. split; [by left|]. split; [done|]. split; [done|]. by exists ip.
    + intros n' [->|Hn]%elem_of_cons Hh; [|by apply H2]. apply H3. rewrite lookup_insert_eq. eauto.
    + intros key Hk. apply H3. destruct (decide (key = key0)) as [->|Hne]; [rewrite lookup_insert_eq; eauto|by rewrite lookup_insert_ne].
    + intros key. rewrite H4, elem_of_app, list_elem_of_singleton. split.
      * intros [[?| ->]|(n' & Hn & Hh & Hk)]; [by left|right; exists n; split; [by left|done]|right; exists n'; split; [by right|done]].
      * intros [?|(n' & [->|Hn]%elem_of_cons & Hh & Hk)]; [by left; left|by left; right|by right; exists n'].
  - intros (H1 & H2 & H3 & H4)%IH. split_and!; [|intros n' [->|Hn]%elem_of_cons Hh; [congruence|by apply H2]|done|].
    + intros key cidr Hk. destruct (H1 _ _ Hk) as [(n' & Hn & Hp)|Hd]; [left; exists n'; split; [by right|done]|by right].
    + intros key. rewrite H4. split; (intros [?|(n' & Hn & Hh & Hk)]; [by left|right; exists n'; split; [|done]]); [by right|].
      apply elem_of_cons in Hn as [->|Hn]; [congruence|done].
Qed.

(** ** The two loops *)

Lemma map_err_inv {A} g (m : ST K A) k r k' : map_err g m k = (r, k') -> exists r1, m k = (r1, k') /\ is_ok r1 = is_ok r /\ forall a, r = Ok a -> r1 = Ok a.
Proof. unfold map_err. destruct (m k) as [[a|e] k1]; intros [= <- <-]; eexists; (split; [done|]; split; [done|]); congruence. Qed.

Lemma remove_peers_effect desired existing k r k' : remove_peers iface desired existing k = (r, k') ->
  (forall key, is_Some (desired !! key) -> peers k' !! key = peers k !! key) /\
  (forall key, peers k' !! key = peers k !! key \/ peers k' !! key = None) /\
  (r = Ok tt -> forall key, key ∈ existing -> desired !! key = None -> peers k' !! key = None).
Proof.
  revert k. induction existing as [|key0 rest IH]; intros k; cbn.
  { intros [= <- <-]. split; [done|]. split; [eauto|]. by intros _ key []%elem_of_nil. }
  case_bool_decide as Hd.
  - intros (H1 & H2 & H3)%IH. split; [done|]. split; [done|]. intros Hr key [->|Hk]%elem_of_cons Hn; [by rewrite Hn in Hd; destruct Hd|by apply H3].
  - intros E. assert (Hd' : desired !! key0 = None) by by apply eq_None_not_Some.
    assert (Step : forall r1 k1, Runner_Run "wg" ["set"; iface; "peer"; key0; "remove"] k = (r1, k1) ->
      (forall key, is_Some (desired !! key) -> peers k1 !! key = peers k !! key) /\ (forall key, peers k1 !! key = peers k !! key \/ peers k1 !! key = None) /\
      (is_ok r1 = true -> peers k1 !! key0 = None)).
    { intros r1 k1 [Ew|[Er Ew]]%wg_remove; rewrite Ew; [|split; [done|]; split; [eauto|congruence]]. split_and!.
      - intros key [c Hc]. rewrite lookup_delete_ne; [done|]. intros <-. congruence.
      - intros key. destruct (decide (key = key0)) as [->|Hne]; [right; by rewrite lookup_delete_eq|left; by rewrite lookup_delete_ne].
      - intros _. by rewrite lookup_delete_eq. }
    apply st_bind_inv in E as [(e & (r1 & Ee & _)%map_err_inv & ->)|([] & k1 & (r1 & Ee & Hr1 & _)%map_err_inv & E)];
      destruct (Step _ _ Ee) as (S1 & S2 & S3); [by split; [|split]|]. specialize (S3 Hr1).
    destruct (IH _ E) as (H1 & H2 & H3). split_and!.
    + intros key Hk. by rewrite H1, S1.
    + intros key. destruct (H2 key) as [->|?]; eauto.
    + intros Hr key [->|Hk]%elem_of_cons Hn; [|by apply H3]. by destruct (H2 key0) as [->|?].
Qed.

Lemma apply_peers_effect desired keys k r k' : (forall key, key ∈ keys -> is_Some (desired !! key)) ->
  (forall k1 k2 c, desired !! k1 = Some c -> desired !! k2 = Some c -> k1 = k2) -> apply_peers iface desired keys k = (r, k') ->
  (forall key, is_Some (peers k' !! key) -> is_Some (peers k !! key) \/ is_Some (desired !! key)) /\
  (r = Ok tt -> (forall key, key ∈ keys -> slen key = 44) /\
     (forall key, is_Some (peers k !! key) -> is_Some (peers k' !! key)) /\
     (forall key c, desired !! key = Some c -> peers k !! key = Some {[c]} \/ key ∈ keys -> peers k' !! key = Some {[c]})).
Proof.
  intros Hin Hinj. revert k Hin. induction keys as [|key0 rest IH]; intros k Hin; cbn.
  { intros [= <- <-]. split; [eauto|]. intros _. split; [by intros key []%elem_of_nil|]. split; [done|]. by intros key c Hc [?|[]%elem_of_nil]. }
  destruct (Hin key0) as [c0 Hc0]; [by left|]. rewrite Hc0. cbn [default]. intros E.
  assert (Step : forall r1 k1, Runner_Run "wg" ["set"; iface; "peer"; key0; "allowed-ips"; c0] k = (r1, k1) ->
    (forall key, is_Some (peers k1 !! key) -> is_Some (peers k !! key) \/ is_Some (desired !! key)) /\
    (is_ok r1 = true -> slen key0 = 44 /\ (forall key, is_Some (peers k !! key) -> is_Some (peers k1 !! key)) /\ peers k1 !! key0 = Some {[c0]} /\
       (forall key c, desired !! key = Some c -> peers k !! key = Some {[c]} -> peers k1 !! key = Some {[c]}))).
  { intros r1 k1 [[Hl Ew]|[Er Ew]]%wg_allow; rewrite Ew; [|split; [eauto|congruence]]. split.
    - intros key. destruct (decide (key = key0)) as [->|Hne]; [intros _; right; by rewrite Hc0|]. rewrite lookup_insert_ne, lookup_fmap by done.
      intros [x Hx]. left. by destruct (peers k !! key).
    - intros _. split; [done|]. split; [|split; [by rewrite lookup_insert_eq|]].
      + intros key Hk. destruct (decide (key = key0)) as [->|Hne]; [rewrite lookup_insert_eq; eauto|].
        rewrite lookup_insert_ne, lookup_fmap by done. by destruct Hk as [x ->]; eexists.
      + intros key c Hc Hk. destruct (decide (key = key0)) as [->|Hne]; [rewrite lookup_insert_eq; congruence|].
        rewrite lookup_insert_ne, lookup_fmap, Hk by done. cbn. f_equal. assert (c <> c0) by (intros ->; apply Hne; by eapply Hinj). set_solver. }
  apply st_bind_inv in E as [(e & (r1 & Ee & _)%map_err_inv & ->)|([] & k1 & (r1 & Ee & Hr1 & _)%map_err_inv & E)];
    destruct (Step _ _ Ee) as [S1 S2]; [by split|]. destruct (S2 Hr1) as (Hl & S3 & S4 & S5).
  destruct (IH k1) as [H1 H2]; [intros key Hk; apply Hin; by right|exact E|]. split.
  - intros key Hk. destruct (H1 key Hk) as [?|?]; auto.
  - intros ->. destruct (H2 eq_refl) as (L & M & V). split; [by intros key [->|Hk]%elem_of_cons; [|apply L]|]. split; [auto|].
    intros key c Hc [Hk|[->|Hk]%elem_of_cons]; apply V; try done; [left; by apply S5|left|by right]. rewrite S4. congruence.
Qed.

(** ** Synchronisation *)

Lemma apply_known desired keys k r k' : apply_peers iface desired keys k = (r, k') ->
  forall key, is_Some (peers k' !! key) -> is_Some (peers k !! key) \/ key ∈ keys.
Proof.
  revert k. induction keys as [|key0 rest IH]; intros k; cbn; [intros [= _ <-]; auto|]. intros E key Hk.
  assert (Step : forall r1 k1 ip, Runner_Run "wg" ["set"; iface; "peer"; key0; "allowed-ips"; ip] k = (r1, k1) ->
    is_Some (peers k1 !! key) -> is_Some (peers k !! key) \/ key = key0).
  { intros r1 k1 ip [[_ Ew]|[_ Ew]]%wg_allow; rewrite Ew; [|auto]. destruct (decide (key = key0)) as [->|Hne]; [auto|].
    rewrite lookup_insert_ne, lookup_fmap by done. intros [x Hx]. left. by destruct (peers k !! key). }
  apply st_bind_inv in E as [(e & (r1 & Ee & _)%map_err_inv & ->)|([] & k1 & (r1 & Ee & _)%map_err_inv & E)].
  - destruct (Step _ _ _ Ee Hk) as [?| ->]; [by left|right; by left].
  - destruct (IH k1 E key Hk) as [Hs|Hs]; [|right; by right]. destruct (Step _ _ _ Ee Hs) as [?| ->]; [by left|right; by left].
Qed.

(** No two nodes share a key or an address. *)
Definition apart (nodes : list Node) : Prop :=
  (forall n1 n2 key c1 c2, n1 ∈ nodes -> n2 ∈ nodes -> peer_of n1 key c1 -> peer_of n2 key c2 -> c1 = c2) /\
  (forall n1 n2 k1 k2 c, n1 ∈ nodes -> n2 ∈ nodes -> peer_of n1 k1 c -> peer_of n2 k2 c -> k1 = k2).

Lemma sync_effect nodes k r k' : apart nodes -> SyncPeers iface nodes k = (r, k') ->
  (forall key, is_Some (peers k' !! key) -> is_Some (peers k !! key) \/ exists n c, n ∈ nodes /\ peer_of n key c) /\
  (r = Ok tt -> (forall key ips, peers k' !! key = Some ips <-> exists n c, n ∈ nodes /\ peer_of n key c /\ ips = {[c]}) /\
     (forall n, n ∈ nodes -> hub_node n = true -> slen (TrimSpace (Node_WireGuardPublicKey n)) = 44)).
Proof.
  intros [Ak Aa] E. unfold SyncPeers in E. apply st_bind_inv in E as [(e & [= _ <-] & ->)|([] & k0 & [= _ <-] & E)]; [split; [auto|done]|].
  apply st_bind_inv in E as [(e & [= _ <-] & ->)|([d ks] & k0 & [= Ed <-] & E)]; [split; [auto|done]|].
  destruct (desired_peers_spec _ _ _ _ _ Ed) as (D1 & D2 & _ & D4).
  assert (D1' : forall key c, d !! key = Some c -> exists n, n ∈ nodes /\ peer_of n key c) by (intros key c [?|?]%D1; [done|by rewrite lookup_empty in *]).
  apply st_bind_inv in E as [(e & (r1 & Ee & _)%map_err_inv & ->)|(out & k1 & (r1 & Ee & _ & Hr1)%map_err_inv & E)].
  { apply wg_show in Ee as [-> _]. split; [auto|done]. }
  destruct (wg_show _ _ _ _ Ee) as [Ep Hshow].
  specialize (Hshow out (Hr1 out eq_refl)). assert (Hin : forall key, key ∈ merge_sort str_le (Fields out) <-> is_Some (peers k !! key)).
  { intros key. by rewrite merge_sort_Permutation. }
  assert (Hks : forall key, key ∈ merge_sort str_le ks -> is_Some (d !! key)).
  { intros key. rewrite merge_sort_Permutation, D4. intros [[]%elem_of_nil|(n & Hn & Hh & ->)]. by apply D2. }
  apply st_bind_inv in E as [(e & Er & ->)|([] & k2 & Er & E)].
  { destruct (remove_peers_effect _ _ _ _ _ Er) as (_ & R2 & _). split; [|done]. intros key Hk. left. rewrite <- Ep.
    destruct (R2 key) as [<-|Hx]; [done|]. rewrite Hx in Hk. by destruct Hk. }
  destruct (remove_peers_effect _ _ _ _ _ Er) as (R1 & R2 & R3).
  destruct (apply_peers_effect d (merge_sort str_le ks) k2 r k') as [P1 P2]; [done| |done|].
  { intros k3 k4 c (n1 & N1 & Q1)%D1' (n2 & N2 & Q2)%D1'. exact (Aa n1 n2 k3 k4 c N1 N2 Q1 Q2). }
  assert (Hold : forall key, is_Some (peers k2 !! key) -> is_Some (peers k !! key)).
  { intros key Hk. rewrite <- Ep. destruct (R2 key) as [<-|Hx]; [done|]. rewrite Hx in Hk. by destruct Hk. }
  split; [intros key [?%Hold|[c (n & ? & ?)%D1']]%P1; [by left|right; eauto]|]. intros ->. destruct (P2 eq_refl) as (P3 & _ & P5). split.
  - intros key ips. split.
    + intros Hk. destruct (d !! key) as [c|] eqn:Ec.
      * destruct (D1' _ _ Ec) as (n & Hn & Hp). exists n, c. split; [done|]. split; [done|]. rewrite (P5 key c) in Hk; [congruence|done|].
        right. rewrite merge_sort_Permutation, D4. right. destruct Hp as (? & ? & _). by exists n.
      * exfalso. destruct (P1 key) as [Hs|[c Hs]]; [by eexists| |congruence]. specialize (R3 eq_refl key (proj2 (Hin key) (Hold _ Hs)) Ec).
        rewrite R3 in Hs. by destruct Hs.
    + intros (n & c & Hn & Hp & ->). pose proof Hp as (Hh & -> & _). destruct (D2 n Hn Hh) as [c' Hc']. destruct (D1' _ _ Hc') as (n' & Hn' & Hp').
      rewrite (Ak n n' _ c c' Hn Hn' Hp Hp'). apply P5; [done|]. right. rewrite merge_sort_Permutation, D4. right. by exists n.
  - intros n Hn Hh. apply P3. rewrite merge_sort_Permutation, D4. right. by exists n.
Qed.

(** After a success every peer is wanted, whatever the nodes share. *)
Lemma sync_known nodes k k' : SyncPeers iface nodes k = (Ok tt, k') ->
  forall key, is_Some (peers k' !! key) -> exists n, n ∈ nodes /\ hub_node n = true /\ key = TrimSpace (Node_WireGuardPublicKey n).
Proof.
  intros E key Hk. unfold SyncPeers in E. apply st_bind_ok in E as ([] & k0 & [= _ <-] & E). apply st_bind_ok in E as ([d ks] & k0 & [= Ed <-] & E).
  destruct (desired_peers_spec _ _ _ _ _ Ed) as (D1 & _ & _ & D4).
  apply st_bind_ok in E as (out & k1 & (r1 & Ee & _ & Hr1)%map_err_inv & E). destruct (wg_show _ _ _ _ Ee) as [Ep Hshow].
  specialize (Hshow out (Hr1 out eq_refl)). apply st_bind_ok in E as ([] & k2 & Er & E).
  destruct (remove_peers_effect _ _ _ _ _ Er) as (_ & R2 & R3).
  destruct (apply_known d (merge_sort str_le ks) k2 (Ok tt) k' E key Hk) as [Hs|Hs].
  - destruct (d !! key) as [c|] eqn:Ec; [destruct (D1 _ _ Ec) as [(n & Hn & Hh & Hkey & _)|?]; [by exists n|by rewrite lookup_empty in *]|].
    rewrite (R3 eq_refl key) in Hs; [by destruct Hs| |done]. rewrite merge_sort_Permutation. apply Hshow. rewrite <- Ep.
    destruct (R2 key) as [<-|Hx]; [done|]. rewrite Hx in Hs. by destruct Hs.
  - rewrite merge_sort_Permutation in Hs. apply D4 in Hs as [[]%elem_of_nil|?]. done.
Qed.

(** The hub follows the registry.  If [SyncPeers] succeeds, the peers of the hub are
    exactly the nodes that are not removed and have a key, each with its own address and
    no other; whatever it returns and wherever it stopped, no peer is on the hub that was
    not there before or belongs to such a node. *)
Theorem hub_sync_exact nodes k r k' : apart nodes -> SyncPeers iface nodes k = (r, k') ->
  (forall key, is_Some (peers k' !! key) -> is_Some (peers k !! key) \/ exists n c, n ∈ nodes /\ peer_of n key c) /\
  (r = Ok tt -> forall key ips, peers k' !! key = Some ips <-> exists n c, n ∈ nodes /\ peer_of n key c /\ ips = {[c]}).
Proof. intros Ha E. destruct (sync_effect _ _ _ _ Ha E) as [H1 H2]. split; [done|]. intros Hr. by destruct (H2 Hr). Qed.

(** A node whose key is not the one spelling [wg] accepts blocks every synchronisation. *)
Theorem split_key_blocks nodes n k r k' : apart nodes -> n ∈ nodes -> hub_node n = true ->
  slen (TrimSpace (Node_WireGuardPublicKey n)) <> 44 -> SyncPeers iface nodes k = (r, k') -> r <> Ok tt.
Proof. intros Ha Hn Hh Hl E Hr. destruct (sync_effect _ _ _ _ Ha E) as [_ H2]. destruct (H2 Hr) as [_ H3]. by apply Hl, H3. Qed.
End props.

(** Key validation accepts such a key: the base64 decoder skips newlines. *)
Example split_key_accepted : let key := "AAAAAAAAAAAAAAAAAAAA" +:+ newline +:+ "AAAAAAAAAAAAAAAAAAAAAAA=" in
  ValidatePublicKey key = Ok tt /\ slen (TrimSpace key) = 45.
Proof. by vm_compute. Qed.

(** ** Removal of a node reaches the hub

    The node service with the hub controller as its [PeerSynchronizer], and the
    synchronisation at start-up (restoreHubPeers of internal/server/server.go). *)
Section service.
Context `{AppEnv} {K : Type} `{!NodeRuntime K} `{!HubCommandRunner K} `{!WgHub K}.
Notation N := (ST (nodes_world K)).
Context (hashKey : list Z) (network : WorkerNetworkConfig) (offlineAfter : Z) (iface : string).

(** The networking part of the server's configuration. *)
Definition restoreHubPeers : N unit :=
  if blank (Net_HubIP network) || blank (Net_HubPublicKey network) || blank (Net_Endpoint network) then mret tt
  else
    known ← map_err (ErrWrap "list saved nodes: %w" []) NodeRepository_List;
    runtime (nr_SyncPeers known).

(** The service synchronises through the hub controller, and reading the state of a
    Kubernetes node leaves the hub alone. *)
Context (sync_is_hub : forall nodes k, nr_SyncPeers nodes k = SyncPeers iface nodes k)
  (readiness_off_hub : forall name k r k', nr_NodeReadiness name k = (r, k') -> hub_peers iface k' = hub_peers iface k).

(** Every peer of the hub is a node of the registry that is not removed. *)
Definition registered (g : registry) (k : K) : Prop :=
  forall key, is_Some (hub_peers iface k !! key) -> key <> "" /\
    exists id row, g_nodes g !! id = Some row /\ nd_status row <> nodeStatusRemoved /\ TrimSpace (nd_key row) = key.

Lemma list_rows (w : nodes_world K) l w' : NodeRepository_List w = (Ok l, w') -> n_reg w' = n_reg w /\ n_k w' = n_k w /\
  forall n, n ∈ l -> exists id row, g_nodes (n_reg w) !! id = Some row /\ scanNode row = Ok n.
Proof.
  intros E. unfold NodeRepository_List in E. apply st_bind_ok in E as (rs & w1 & Eq & [= El ->]).
  unfold g_query in Eq. destruct (next_fault _) as [[] fs]; try discriminate. injection Eq as <- <-. cbn. split; [done|]. split; [done|].
  assert (Hrs : forall r, r ∈ order_by nd_name (rows (g_nodes (n_reg w))) -> exists id, g_nodes (n_reg w) !! id = Some r).
  { intros r Hr. unfold order_by in Hr. rewrite merge_sort_Permutation in Hr. by apply elem_of_rows in Hr. }
  revert l El Hrs. induction (order_by _ _) as [|r rs IH]; intros l El Hrs; cbn in El; [injection El as <-; by intros n []%elem_of_nil|].
  destruct (scanNode r) as [n0|] eqn:Es; [|discriminate]. cbn in El. destruct (scan_all scanNode rs) as [l0|] eqn:Ea; [|discriminate].
  injection El as <-. intros n [->|Hn]%elem_of_cons; [|apply (IH l0); [done|intros r' Hr'; apply Hrs; by right|done]].
  destruct (Hrs r) as [id Hid]; [by left|]. by exists id, r.
Qed.

Lemma sync_rows (w w1 : nodes_world K) l l' k1 : NodeRepository_List w = (Ok l, w1) -> (forall n, n ∈ l' -> n ∈ l) ->
  SyncPeers iface l' (n_k w1) = (Ok tt, k1) -> registered (n_reg w) k1.
Proof.
  intros El Hsub Es key Hk. destruct (list_rows _ _ _ El) as (_ & _ & Hl). destruct (sync_known iface _ _ _ Es key Hk) as (n & Hn & Hh & ->).
  unfold hub_node, blank in Hh. apply andb_true_iff in Hh as [Hh1 Hh2]. apply negb_true_iff, String.eqb_neq in Hh1. apply negb_true_iff, String.eqb_neq in Hh2.
  split; [done|]. destruct (Hl n (Hsub n Hn)) as (id & row & Hid & Hs). exists id, row. split; [done|].
  unfold scanNode in Hs. apply bind_ok in Hs as (t1 & _ & (t2 & _ & (t3 & _ & [= <-])%bind_ok)%bind_ok). done.
Qed.

Lemma list_mapped g (w : nodes_world K) l w1 : map_err g NodeRepository_List w = (Ok l, w1) -> NodeRepository_List w = (Ok l, w1).
Proof. intros (r1 & E & _ & H1)%map_err_inv. by rewrite (H1 l eq_refl) in E. Qed.

Lemma sync_registered keep (w w' : nodes_world K) : syncPeers keep w = (Ok tt, w') -> n_reg w' = n_reg w /\ registered (n_reg w) (n_k w').
Proof.
  intros E. unfold syncPeers in E. apply st_bind_ok in E as (l & w1 & El%list_mapped & E). destruct (list_rows _ _ _ El) as (Hg & _ & _).
  unfold or_status, map_err, runtime in E. rewrite sync_is_hub in E. destruct (SyncPeers iface _ (n_k w1)) as [[[]|] k1] eqn:Es; [|discriminate].
  injection E as <-. cbn. split; [done|]. eapply sync_rows; [exact El| |exact Es]. intros n Hn%list_elem_of_In%List.filter_In. apply list_elem_of_In, Hn.
Qed.

Lemma readiness_hub n (w w' : nodes_world K) pb : nodeWithReadiness n w = (Ok pb, w') -> n_reg w' = n_reg w /\ hub_peers iface (n_k w') = hub_peers iface (n_k w).
Proof.
  intros E. unfold nodeWithReadiness in E. apply st_bind_ok in E as ([[a b] c] & w1 & E1 & [= _ <-]). unfold or_status, map_err, runtime in E1.
  destruct (nr_NodeReadiness _ _) as [[x|] k1] eqn:Er; [|discriminate]. injection E1 as _ <-. cbn. split; [done|]. by eapply readiness_off_hub.
Qed.

(** C24: a removed node is off the network.  When [RemoveNode] succeeds, or the server
    restores its peers at start-up with networking configured, every peer of the hub is a
    node of the registry that is not removed, under the key stored for it; the removed
    node has no key in the registry, so its peer is gone. *)
Theorem removal_disconnects (w w' : nodes_world K) :
  (forall caller ref now pb, RemoveNode (K:=K) caller ref now w = (Ok pb, w') -> registered (n_reg w') (n_k w')) /\
  (blank (Net_HubIP network) || blank (Net_HubPublicKey network) || blank (Net_Endpoint network) = false ->
     restoreHubPeers w = (Ok tt, w') -> registered (n_reg w') (n_k w')).
Proof.
  split.
  - intros caller ref now pb E. unfold RemoveNode in E. apply st_bind_ok in E as ([] & w1 & _ & E). apply st_bind_ok in E as (n & w2 & _ & E).
    apply st_bind_ok in E as (n' & w3 & _ & E). apply st_bind_ok in E as ([] & w4 & _ & E). apply st_bind_ok in E as ([] & w5 & Es & E).
    apply sync_registered in Es as [Eg Hr]. apply readiness_hub in E as [Eg' Eh]. rewrite Eg', Eg. intros key. rewrite Eh. apply Hr.
  - intros Hn E. unfold restoreHubPeers in E. rewrite Hn in E. apply st_bind_ok in E as (l & w1 & El%list_mapped & E).
    destruct (list_rows _ _ _ El) as (Hg & _ & _). unfold runtime in E. rewrite sync_is_hub in E.
    destruct (SyncPeers iface l (n_k w1)) as [[[]|] k1] eqn:Es; [|discriminate]. injection E as <-. cbn. rewrite Hg. by eapply sync_rows.
Qed.
End service.

(** ** A hub in memory

    A hub that is the map of its peers, with [wg] as the functions on it; a node is
    removed and its peer disappears. *)
Notation wg_table := (gmap string (gset string)).

(** The keys one per line, when they can be printed that way. *)
Definition show_peers (k : wg_table) : result string :=
  let out := String.concat newline (elements (dom k)) in
  if bool_decide (list_to_set (Fields out) = dom k) then Ok out else Err (ErrSentinel "wg show failed").

#[export] Instance table_runner : HubCommandRunner wg_table := {|
  Runner_Output := fun _ args k => match args with ["show"; _; "peers"] => (show_peers k, k) | _ => (Err (ErrSentinel "wg"), k) end;
  Runner_Run := fun _ args k =>
    match args with
    | ["set"; _; "peer"; key; "remove"] => (Ok tt, delete key k)
    | ["set"; _; "peer"; key; "allowed-ips"; ip] =>
        if slen key =? 44 then (Ok tt, <[key := {[ip]}]> ((fun ips => ips ∖ {[ip]}) <$> k)) else (Err (ErrSentinel "wg"), k)
    | _ => (Err (ErrSentinel "wg"), k)
    end |}.

#[export, refine] Instance table_hub : WgHub wg_table := {| hub_peers := fun _ k => k |}.
Proof.
  - intros i k r k' [= <- <-]. split; [done|]. unfold show_peers. case_bool_decide as Hd; [|done]. intros out [= <-] key.
    pose proof (elem_of_list_to_set (C:=gset string) key (Fields (String.concat newline (elements (dom k))))) as Hl.
    rewrite Hd, elem_of_dom in Hl. by rewrite Hl.
  - intros i key k r k' [= <- <-]. by left.
  - intros i key ip k r k' E. cbn in E. destruct (slen key =? 44) eqn:El; injection E as <- <-; [left; split; [by apply Z.eqb_eq|done]|by right].
Defined.

Section run.
#[local] Existing Instance forward_env.

#[local] Instance hub_runtime : NodeRuntime wg_table := {|
  nr_NodeReadiness := fun _ k => (Ok ("ready", "", true), k);
  nr_DrainNode := fun _ k => (Ok tt, k);
  nr_UncordonNode := fun _ k => (Ok tt, k);
  nr_RemoveNode := fun _ k => (Ok tt, k);
  nr_ValidateNodeRemoval := fun _ k => (Ok tt, k);
  nr_SyncNodeLabels := fun _ k => (Ok tt, k);
  nr_SyncPeers := SyncPeers "wg0";
  nr_WorkerJoinMaterial := fun k => (Ok ("https://10.8.0.1:6443", "k3s-token"), k);
  nr_Record := fun _ _ _ _ k => k |}.

Definition other_key : string := "AgICAgICAgICAgICAgICAgICAgICAgICAgICAgICAgI=".
Definition connected : wg_table := {[ pubkey := {["10.8.0.2/32"]} ]}.
Definition hub_world : nodes_world wg_table := MkNodes (n_reg enrolled) [] connected.
Definition admin_caller : option Caller := Some (MkCaller CallerAdmin "" "").

Definition peer_count (w : nodes_world wg_table) : nat := size (n_k w).

Lemma removal_runs : exists pb w', RemoveNode (K:=wg_table) admin_caller "edge-1" NodeRun.noon hub_world = (Ok pb, w') /\ peer_count w' = 0%nat.
Proof.
  assert (E1 : is_ok (RemoveNode (K:=wg_table) admin_caller "edge-1" NodeRun.noon hub_world).1 = true) by (vm_compute; reflexivity).
  assert (E2 : peer_count (RemoveNode (K:=wg_table) admin_caller "edge-1" NodeRun.noon hub_world).2 = 0%nat) by (vm_compute; reflexivity).
  destruct (RemoveNode _ _ _ hub_world) as [[pb|] w']; [|discriminate]. exists pb, w'. exact (conj eq_refl E2).
Qed.

Lemma removal_disconnects_witness : exists pb w', RemoveNode (K:=wg_table) admin_caller "edge-1" NodeRun.noon hub_world = (Ok pb, w') /\
  peer_count hub_world = 1%nat /\ peer_count w' = 0%nat /\ registered "wg0" (n_reg w') (n_k w').
Proof.
  destruct removal_runs as (pb & w' & E & Hc). exists pb, w'. split; [exact E|]. split; [vm_compute; reflexivity|]. split; [exact Hc|].
  refine (proj1 (removal_disconnects (K:=wg_table) hub "wg0" _ _ hub_world w') admin_caller "edge-1" NodeRun.noon pb E).
  - intros nodes k. reflexivity.
  - intros name k r k' [= _ <-]. reflexivity.
Defined.

(** Two nodes, one of them removed, on a hub with a stranger. *)
Definition edge (status ip key : string) : Node := MkNode "n" "edge" status "" "" "" "" "" ip key "" None 0 0.
Definition two_nodes : list Node := [edge "online" "10.8.0.2" pubkey; edge "removed" "10.8.0.3" other_key].
Definition crowded : wg_table := {[ other_key := {["10.8.0.3/32"]} ]}.

Lemma only_online n key c : n ∈ two_nodes -> peer_of n key c -> n = edge "online" "10.8.0.2" pubkey.
Proof. intros [->|[->|[]%elem_of_nil]%elem_of_cons]%elem_of_cons (Hh & _); [done|discriminate]. Qed.

Lemma two_apart : apart two_nodes.
Proof.
  split.
  - intros n1 n2 key c1 c2 H1 H2 P1 P2. rewrite (only_online _ _ _ H1 P1) in P1. rewrite (only_online _ _ _ H2 P2) in P2.
    destruct P1 as (_ & _ & ip1 & E1 & ->), P2 as (_ & _ & ip2 & E2 & ->). congruence.
  - intros n1 n2 k1 k2 c H1 H2 P1 P2. rewrite (only_online _ _ _ H1 P1) in P1. rewrite (only_online _ _ _ H2 P2) in P2.
    destruct P1 as (_ & -> & _), P2 as (_ & -> & _). done.
Qed.

Definition synced : result unit * wg_table := SyncPeers "wg0" two_nodes crowded.

Lemma synced_runs : exists k', synced = (Ok tt, k') /\ size k' = 1%nat.
Proof.
  assert (E1 : is_ok synced.1 = true) by (vm_compute; reflexivity). assert (E2 : size synced.2 = 1%nat) by (vm_compute; reflexivity).
  destruct synced as [[[]|] k']; [|discriminate]. exists k'. exact (conj eq_refl E2).
Qed.

Lemma hub_sync_exact_witness : exists k', SyncPeers "wg0" two_nodes crowded = (Ok tt, k') /\ size k' = 1%nat /\
  forall key ips, hub_peers "wg0" k' !! key = Some ips <-> exists n c, n ∈ two_nodes /\ peer_of n key c /\ ips = {[c]}.
Proof.
  destruct synced_runs as (k' & E & Hs). exists k'. unfold synced in E. split; [exact E|]. split; [exact Hs|].
  exact (proj2 (hub_sync_exact "wg0" two_nodes crowded (Ok tt) k' two_apart E) eq_refl).
Defined.
End run.

(** ** The text of the hub's peers *)

Lemma peer_less_spec x y : let a := ParseAddr (Node_WireGuardIP x) in let b := ParseAddr (Node_WireGuardIP y) in
  peer_less x y = true <->
  (addr_rank a).1 < (addr_rank b).1 \/ (addr_rank a).1 = (addr_rank b).1 /\
  ((addr_rank a).2 < (addr_rank b).2 \/ (addr_rank a).2 = (addr_rank b).2 /\
   key_lt (addr_zone a, Node_Name x) (addr_zone b, Node_Name y)).
Proof.
  intros a b. unfold peer_less. fold a b. rewrite key_lt_cases. cbn [fst snd]. case_bool_decide as E.
  - rewrite E, ltb_compare, compare_refl. split; [intros H; right; split; [done|right; split; [done|by right]]|].
    intros [?|[_ [?|[_ [?|[_ ?]]]]]]; [lia|lia|done|done].
  - unfold Less. destruct (addr_rank a) as [la na] eqn:Ea, (addr_rank b) as [lb nb] eqn:Eb. cbn [fst snd].
    destruct (Z.eqb_spec la lb) as [->|Hl]; [|rewrite Z.ltb_lt; lia].
    destruct (Z.eqb_spec na nb) as [->|Hn]; [|rewrite Z.ltb_lt; lia].
    rewrite ltb_compare. split; [intros H; right; split; [done|right; split; [done|by left]]|].
    intros [?|[_ [?|[_ [?|[Hz _]]]]]]; [lia|lia|done|]. exfalso. apply E.
    destruct a as [[]|], b as [[]|]; cbn in *; congruence.
Qed.

#[export] Instance peer_le_trans : Transitive peer_le.
Proof.
  intros x y z. unfold peer_le. rewrite <- !not_true_iff_false, !peer_less_spec. cbn zeta.
  destruct (addr_rank (ParseAddr (Node_WireGuardIP x))) as [lx nx], (addr_rank (ParseAddr (Node_WireGuardIP y))) as [ly ny],
    (addr_rank (ParseAddr (Node_WireGuardIP z))) as [lz nz]. cbn [fst snd].
  set (kx := (addr_zone _, Node_Name x)). set (ky := (addr_zone _, Node_Name y)). set (kz := (addr_zone _, Node_Name z)).
  intros H1 H2 H. assert (E : lx = ly /\ ly = lz /\ nx = ny /\ ny = nz /\ key_lt kz kx) by (destruct H as [?|[? [?|[? ?]]]]; repeat split; (done || lia)).
  destruct E as (-> & -> & -> & -> & Hk). destruct (key_trichotomy kx ky) as [Hx|[Hx|Hx]].
  - apply H2. right; split; [done|]. right; split; [done|]. by eapply key_lt_trans.
  - apply H2. right; split; [done|]. right; split; [done|]. by rewrite <- Hx.
  - apply H1. right; split; [done|]. right; split; [done|done].
Qed.

#[export] Instance peer_le_total : Total peer_le.
Proof.
  intros x y. unfold peer_le. destruct (peer_less y x) eqn:H1; [|by left]. right. apply not_true_iff_false. intros H2.
  apply peer_less_spec in H1, H2. cbn zeta in *. revert H1 H2.
  set (kx := (addr_zone _, Node_Name x)). set (ky := (addr_zone _, Node_Name y)). intros H1 H2.
  apply (key_lt_irrefl kx), (key_lt_trans _ ky); destruct H1 as [?|[? [?|[? ?]]]], H2 as [?|[? [?|[? ?]]]]; (done || lia).
Qed.

Lemma peer_le_name x y : peer_le x y -> peer_le y x -> Node_Name x = Node_Name y.
Proof.
  unfold peer_le. rewrite <- !not_true_iff_false, !peer_less_spec. cbn zeta.
  destruct (addr_rank (ParseAddr (Node_WireGuardIP x))) as [lx nx], (addr_rank (ParseAddr (Node_WireGuardIP y))) as [ly ny]. cbn [fst snd].
  set (kx := (addr_zone _, Node_Name x)). set (ky := (addr_zone _, Node_Name y)). intros H1 H2.
  assert (lx = ly) as -> by (destruct (Z.lt_trichotomy lx ly) as [?|[?|?]]; tauto).
  assert (nx = ny) as -> by (destruct (Z.lt_trichotomy nx ny) as [?|[?|?]]; tauto).
  destruct (key_trichotomy kx ky) as [H|[H|H]]; [tauto|by injection H|tauto].
Qed.

(** What [collect_peers] keeps of a node, and that the node is not refused. *)
Definition is_peer (n : Node) : bool :=
  negb (String.eqb (Node_Status n) "removed" || (blank (Node_WireGuardIP n) || blank (Node_WireGuardPublicKey n))).
Definition renderable (n : Node) : bool := is_ok (ValidatePublicKey (Node_WireGuardPublicKey n)) && bool_decide (is_Some (ParseAddr (Node_WireGuardIP n))).

Lemma collect_peers_ok nodes peers : collect_peers nodes = Ok peers <->
  peers = filter (fun n => is_peer n = true) nodes /\ Forall (fun n => is_peer n = true -> renderable n = true) nodes.
Proof.
  revert peers. induction nodes as [|n nodes IH]; intros peers; cbn [collect_peers].
  { split; [intros [= <-]; split; [done|constructor]|by intros [-> _]]. }
  rewrite Forall_cons, filter_cons. destruct (is_peer n) eqn:Ep; unfold is_peer in Ep.
  2: { apply negb_false_iff in Ep as ->. rewrite decide_False by done. rewrite IH. naive_solver. }
  apply negb_true_iff in Ep as ->. rewrite decide_True by done.
  unfold renderable at 1. destruct (ValidatePublicKey _); [|naive_solver]. destruct (ParseAddr _); [|naive_solver]. cbn.
  destruct (collect_peers nodes) as [l|e]; cbn.
  - destruct (proj1 (IH l) eq_refl) as [-> Hf]. naive_solver.
  - split; [done|]. intros [_ [_ Hf]]. pose proof (proj2 (IH _) (conj eq_refl Hf)) as Hc. discriminate Hc.
Qed.

(** The text of the peers does not depend on the order in which the nodes are
    listed, and every node is rendered or passed over whatever the others are:
    the configuration of a hub whose nodes have different names is deterministic,
    although [sort.Slice] is not a stable sort. *)
Theorem peer_text_deterministic nodes nodes' text : nodes ≡ₚ nodes' ->
  (forall x y, x ∈ nodes -> y ∈ nodes -> Node_Name x = Node_Name y -> x = y) ->
  HubPeerConfig nodes = Ok text -> HubPeerConfig nodes' = Ok text.
Proof.
  intros Hp Hn. unfold HubPeerConfig. destruct (collect_peers nodes) as [peers|] eqn:E; [|done]. cbn. intros [= <-].
  apply collect_peers_ok in E as [-> Hf]. rewrite Hp in Hf. rewrite (proj2 (collect_peers_ok nodes' _) (conj eq_refl Hf)). cbn.
  do 3 f_equal. symmetry. eapply StronglySorted_unique_strong; [|by apply StronglySorted_merge_sort; apply _..|by rewrite !merge_sort_Permutation, Hp].
  intros x y. rewrite !merge_sort_Permutation, !list_elem_of_filter, <- Hp. intros [_ Hx] [_ Hy] H1 H2. by apply Hn, peer_le_name.
Qed.

(** A node of each kind in the wrong order: the one that was removed and the one
    without a key are passed over. *)
Definition hub_nodes : list Node :=
  [MkNode "" "b" "online" "" "" "" "" "" "10.8.0.10" other_key "" None 0 0; MkNode "n-1" "c" "removed" "" "" "" "" "" "bad" pubkey "" None 0 0;
   MkNode "n-2" "a" "offline" "" "" "" "" "" "10.8.0.9" pubkey "" None 0 0; MkNode "n-3" "d" "pending" "" "" "" "" "" "10.8.0.4" "" "" None 0 0].

Lemma peer_text_deterministic_witness : exists text, HubPeerConfig (rev hub_nodes) = Ok text /\
  text = String.concat newline ["[Peer]"; "# a (n-2)"; "PublicKey = " +:+ pubkey; "AllowedIPs = 10.8.0.9/32"; ""; "[Peer]"; "# b";
                                "PublicKey = " +:+ other_key; "AllowedIPs = 10.8.0.10/32"; ""].
Proof.
  eexists. split; [|reflexivity]. apply (peer_text_deterministic hub_nodes).
  - apply Permutation_rev.
  - intros x y Hx Hy E. unfold hub_nodes in Hx, Hy. rewrite !elem_of_cons in Hx, Hy.
    destruct Hx as [->|[->|[->|[->|[]%elem_of_nil]]]], Hy as [->|[->|[->|[->|[]%elem_of_nil]]]]; (reflexivity || discriminate E).
  - vm_compute. reflexivity.
Defined.
