(* ===== verification/ServerConfig.v ===== *)
(** * Configuration of the server and the agent
    (internal/config/config.go, cmd/deployer-server/config.go)

    The environment is a function from names to values, empty when unset.  Keys may be
    read from a file of the host. *)

From S2P Require Import Prelude GoStrings GoNet GoTime Security Db HostFs.
From Stdlib Require Import Ascii String.
Local Open Scope Z_scope.

Notation environ := (string -> string).

Definition envOrDefault (env : environ) (key fallback : string) : string := if String.eqb (env key) "" then fallback else env key.

Record ServerConfig := MkServerConfig {
  SC_EnableCandidateOperations : bool; SC_WireGuardSubnet : string; SC_GRPCListenAddress : string; SC_HTTPListenAddress : string;
  SC_DatabaseURL : string; SC_PublicBaseURL : string; SC_SecretKey : string; SC_SecretKeyFile : string; SC_TokenHashKey : string;
  SC_ServerIdentity : string; SC_ServerIdentityFile : string; SC_TLSCertFile : string; SC_TLSKeyFile : string; SC_KubeconfigPath : string;
  SC_IngressNamespace : string; SC_IngressACMEEmail : string; SC_IngressTLSIssuer : string; SC_IngressACMEServer : string;
  SC_K3sConfigPath : string; SC_K3sWireGuardIP : string; SC_K3sInstallerURL : string; SC_K3sNodeTokenPath : string;
  SC_WireGuardInterface : string; SC_WireGuardHubPublicKey : string; SC_WireGuardEndpoint : string;
  SC_EventRetentionMaxAge : string; SC_EventRetentionMaxCount : string; SC_EventCleanupInterval : string;
  SC_NodeOfflineAfter : string; SC_NodeMonitorInterval : string }.

Definition LoadServer (env : environ) : ServerConfig := {|
  SC_EnableCandidateOperations := String.eqb (env "DEPLOYER_ENABLE_CANDIDATE_OPERATIONS") "true";
  SC_WireGuardSubnet := env "DEPLOYER_WIREGUARD_SUBNET";
  SC_GRPCListenAddress := envOrDefault env "DEPLOYER_SERVER_GRPC_ADDR" ":7443";
  SC_HTTPListenAddress := envOrDefault env "DEPLOYER_SERVER_HTTP_ADDR" ":7080";
  SC_DatabaseURL := envOrDefault env "DEPLOYER_DATABASE_URL" "file:deployer.db";
  SC_PublicBaseURL := env "DEPLOYER_PUBLIC_BASE_URL";
  SC_SecretKey := env "DEPLOYER_SECRET_KEY";
  SC_SecretKeyFile := env "DEPLOYER_SECRET_KEY_FILE";
  SC_TokenHashKey := env "DEPLOYER_TOKEN_HASH_KEY";
  SC_ServerIdentity := env "DEPLOYER_SERVER_IDENTITY";
  SC_ServerIdentityFile := env "DEPLOYER_SERVER_IDENTITY_FILE";
  SC_TLSCertFile := env "DEPLOYER_SERVER_TLS_CERT_FILE";
  SC_TLSKeyFile := env "DEPLOYER_SERVER_TLS_KEY_FILE";
  SC_KubeconfigPath := envOrDefault env "DEPLOYER_KUBECONFIG" "/etc/rancher/k3s/k3s.yaml";
  SC_IngressNamespace := envOrDefault env "DEPLOYER_INGRESS_NAMESPACE" "deployer-apps";
  SC_IngressACMEEmail := env "DEPLOYER_INGRESS_ACME_EMAIL";
  SC_IngressTLSIssuer := envOrDefault env "DEPLOYER_INGRESS_TLS_ISSUER" "deployer-letsencrypt";
  SC_IngressACMEServer := envOrDefault env "DEPLOYER_INGRESS_ACME_SERVER" "https://acme-v02.api.letsencrypt.org/directory";
  SC_K3sConfigPath := envOrDefault env "DEPLOYER_K3S_CONFIG_PATH" "/etc/rancher/k3s/config.yaml";
  SC_K3sWireGuardIP := env "DEPLOYER_K3S_WIREGUARD_IP";
  SC_K3sInstallerURL := envOrDefault env "DEPLOYER_K3S_INSTALLER_URL" "https://get.k3s.io";
  SC_K3sNodeTokenPath := envOrDefault env "DEPLOYER_K3S_NODE_TOKEN_PATH" "/var/lib/rancher/k3s/server/node-token";
  SC_WireGuardInterface := envOrDefault env "DEPLOYER_WIREGUARD_INTERFACE" "wg0";
  SC_WireGuardHubPublicKey := env "DEPLOYER_WIREGUARD_HUB_PUBLIC_KEY";
  SC_WireGuardEndpoint := env "DEPLOYER_WIREGUARD_ENDPOINT";
  SC_EventRetentionMaxAge := envOrDefault env "DEPLOYER_EVENT_RETENTION_MAX_AGE" "720h";
  SC_EventRetentionMaxCount := envOrDefault env "DEPLOYER_EVENT_RETENTION_MAX_COUNT" "10000";
  SC_EventCleanupInterval := envOrDefault env "DEPLOYER_EVENT_CLEANUP_INTERVAL" "1h";
  SC_NodeOfflineAfter := envOrDefault env "DEPLOYER_NODE_OFFLINE_AFTER" "2m";
  SC_NodeMonitorInterval := envOrDefault env "DEPLOYER_NODE_MONITOR_INTERVAL" "30s" |}.

(** [errors.Join] of the errors collected so far. *)
Definition errors_Join (errs : list error) : result unit :=
  match errs with [] => Ok tt | e :: rest => Err (fold_left ErrJoin rest e) end.

Definition failing (bad : bool) (msg : string) : list error := if bad then [ErrSentinel msg] else [].
Definition failure_of {A} (r : result A) : list error := match r with Ok _ => [] | Err e => [e] end.

(** [netip.Addr.IsPrivate] of an IPv4 address: 10/8, 172.16/12, 192.168/16 *)
Definition IsPrivate4 (n : Z) : bool := (n / 2 ^ 24 =? 10) || (n / 2 ^ 20 =? 172 * 16 + 1) || (n / 2 ^ 16 =? 192 * 256 + 168).

Definition subnet_ok (subnet hubIP : string) : bool :=
  match ParsePrefix subnet, ParseAddr hubIP with
  | Some prefix, Some hub =>
      match prefix_addr prefix with
      | IP4 n => (mask4 n (prefix_bits prefix) =? n) && (prefix_bits prefix <=? 30) && IsPrivate4 n && Contains prefix hub && negb (bool_decide (hub = IP4 n))
      | IP6 _ _ => false
      end
  | _, _ => false
  end.

Definition ValidateTLSFiles (certFile keyFile : string) : result unit :=
  if String.eqb certFile "" && String.eqb keyFile "" then Ok tt
  else if String.eqb certFile "" then Err (ErrSentinel "DEPLOYER_SERVER_TLS_CERT_FILE is required when DEPLOYER_SERVER_TLS_KEY_FILE is set")
  else if String.eqb keyFile "" then Err (ErrSentinel "DEPLOYER_SERVER_TLS_KEY_FILE is required when DEPLOYER_SERVER_TLS_CERT_FILE is set")
  else Ok tt.

Definition SecretEncryptionKey (c : ServerConfig) : OS string :=
  _ ← guard (negb (String.eqb (SC_SecretKey c) "") && negb (String.eqb (SC_SecretKeyFile c) ""))
        (ErrSentinel "set only one of DEPLOYER_SECRET_KEY or DEPLOYER_SECRET_KEY_FILE");
  key ← (if negb (String.eqb (SC_SecretKey c) "") then mret (SC_SecretKey c)
         else if negb (String.eqb (SC_SecretKeyFile c) "") then map_err (ErrWrap "read DEPLOYER_SECRET_KEY_FILE: %w" []) (ReadFile (SC_SecretKeyFile c))
         else throw (ErrSentinel "DEPLOYER_SECRET_KEY or DEPLOYER_SECRET_KEY_FILE is required"));
  _ ← guard (negb (slen key =? SecretKeyBytes))
        (Errorf "DEPLOYER_SECRET_KEY or DEPLOYER_SECRET_KEY_FILE must contain exactly %d bytes" [AInt SecretKeyBytes]);
  mret key.

Record EventRetentionConfig := MkRetention { Ret_MaxAge : Z; Ret_MaxCount : Z; Ret_CleanupInterval : Z }.
Record NodeMonitorConfig := MkMonitor { Mon_OfflineAfter : Z; Mon_Interval : Z }.

Definition or_text (value fallback : string) : string := if String.eqb value "" then fallback else value.

(** [if err != nil || value <= 0] *)
Definition positive_of (parsed : option Z) (msg : string) : result Z :=
  match parsed with Some v => if v <=? 0 then Err (ErrSentinel msg) else Ok v | None => Err (ErrSentinel msg) end.

Definition NodeMonitor (c : ServerConfig) : result NodeMonitorConfig :=
  offlineAfter ← positive_of (ParseDuration (or_text (SC_NodeOfflineAfter c) "2m")) "DEPLOYER_NODE_OFFLINE_AFTER must be a positive duration";
  interval ← positive_of (ParseDuration (or_text (SC_NodeMonitorInterval c) "30s")) "DEPLOYER_NODE_MONITOR_INTERVAL must be a positive duration";
  Ok (MkMonitor offlineAfter interval).

Definition EventRetention (c : ServerConfig) : result EventRetentionConfig :=
  maxAge ← positive_of (ParseDuration (or_text (SC_EventRetentionMaxAge c) "720h")) "DEPLOYER_EVENT_RETENTION_MAX_AGE must be a positive duration";
  maxCount ← positive_of (ParseInt64 (or_text (SC_EventRetentionMaxCount c) "10000")) "DEPLOYER_EVENT_RETENTION_MAX_COUNT must be a positive integer";
  cleanupInterval ← positive_of (ParseDuration (or_text (SC_EventCleanupInterval c) "1h")) "DEPLOYER_EVENT_CLEANUP_INTERVAL must be a positive duration";
  Ok (MkRetention maxAge maxCount cleanupInterval).

Definition ServerConfig_Validate (c : ServerConfig) : OS unit :=
  let subnet := TrimSpace (SC_WireGuardSubnet c) in
  key ← attempt (SecretEncryptionKey c);
  lift (errors_Join (
    (failing (negb (String.eqb subnet "") && negb (subnet_ok subnet (SC_K3sWireGuardIP c)))
       "DEPLOYER_WIREGUARD_SUBNET requires a canonical private IPv4 network containing the hub address") ++
    failing (String.eqb (SC_GRPCListenAddress c) "") "DEPLOYER_SERVER_GRPC_ADDR is required" ++
    failing (String.eqb (SC_HTTPListenAddress c) "") "DEPLOYER_SERVER_HTTP_ADDR is required" ++
    failing (String.eqb (SC_DatabaseURL c) "") "DEPLOYER_DATABASE_URL is required" ++
    failing (String.eqb (SC_PublicBaseURL c) "") "DEPLOYER_PUBLIC_BASE_URL is required" ++
    failure_of key ++
    failing (String.eqb (SC_TokenHashKey c) "") "DEPLOYER_TOKEN_HASH_KEY is required" ++
    failure_of (ValidateTLSFiles (SC_TLSCertFile c) (SC_TLSKeyFile c)) ++
    failure_of (EventRetention c) ++ failure_of (NodeMonitor c))%list).

(** What the server checks before it starts. *)
Definition validateServeConfig (c : ServerConfig) : OS unit :=
  key ← attempt (SecretEncryptionKey c);
  lift (errors_Join (
    (failing (String.eqb (SC_GRPCListenAddress c) "") "DEPLOYER_SERVER_GRPC_ADDR is required" ++
     failing (String.eqb (SC_HTTPListenAddress c) "") "DEPLOYER_SERVER_HTTP_ADDR is required" ++
     failing (String.eqb (SC_DatabaseURL c) "") "DEPLOYER_DATABASE_URL is required" ++
     failing (String.eqb (SC_TokenHashKey c) "") "DEPLOYER_TOKEN_HASH_KEY is required" ++
     failure_of key ++
     failure_of (ValidateTLSFiles (SC_TLSCertFile c) (SC_TLSKeyFile c)) ++
     failure_of (EventRetention c) ++ failure_of (NodeMonitor c))%list)).

(** ** The agent *)

Record AgentConfig := MkAgentConfig {
  AC_ServerURL : string; AC_AgentEnvPath : string; AC_NodeCredentialPath : string; AC_WireGuardInterface : string; AC_WireGuardPrivateKeyPath : string;
  AC_WireGuardConfigPath : string; AC_WireGuardHubIP : string; AC_K3sConfigPath : string; AC_K3sInstallerURL : string }.

Definition LoadAgent (env : environ) : AgentConfig := {|
  AC_ServerURL := env "DEPLOYER_SERVER_URL";
  AC_AgentEnvPath := envOrDefault env "DEPLOYER_AGENT_ENV_PATH" "/etc/deployer/agent.env";
  AC_NodeCredentialPath := envOrDefault env "DEPLOYER_AGENT_CREDENTIAL_PATH" "/etc/deployer/agent/token";
  AC_WireGuardInterface := envOrDefault env "DEPLOYER_WIREGUARD_INTERFACE" "wg0";
  AC_WireGuardPrivateKeyPath := envOrDefault env "DEPLOYER_WIREGUARD_PRIVATE_KEY_PATH" "/etc/deployer/wireguard/privatekey";
  AC_WireGuardConfigPath := envOrDefault env "DEPLOYER_WIREGUARD_CONFIG_PATH" "/etc/wireguard/wg0.conf";
  AC_WireGuardHubIP := envOrDefault env "DEPLOYER_WIREGUARD_HUB_IP" "10.8.0.1";
  AC_K3sConfigPath := envOrDefault env "DEPLOYER_K3S_CONFIG_PATH" "/etc/rancher/k3s/config.yaml";
  AC_K3sInstallerURL := envOrDefault env "DEPLOYER_K3S_INSTALLER_URL" "https://get.k3s.io" |}.

Definition AgentConfig_Validate (c : AgentConfig) : result unit :=
  errors_Join (
    (failing (String.eqb (AC_ServerURL c) "") "DEPLOYER_SERVER_URL is required" ++
     failing (String.eqb (AC_NodeCredentialPath c) "") "DEPLOYER_AGENT_CREDENTIAL_PATH is required" ++
     failing (String.eqb (AC_WireGuardInterface c) "") "DEPLOYER_WIREGUARD_INTERFACE is required" ++
     failing (String.eqb (AC_WireGuardPrivateKeyPath c) "") "DEPLOYER_WIREGUARD_PRIVATE_KEY_PATH is required" ++
     failing (String.eqb (AC_WireGuardConfigPath c) "") "DEPLOYER_WIREGUARD_CONFIG_PATH is required" ++
     failing (String.eqb (AC_K3sConfigPath c) "") "DEPLOYER_K3S_CONFIG_PATH is required")%list).

Definition FormatValidationError (component : string) (r : result unit) : result unit :=
  match r with Ok _ => Ok tt | Err e => Err (ErrWrap "%s config invalid: %w" [AStr component] e) end.
