(* ===== verification/ServerBootstrap.v ===== *)
(** * Bootstrap of the server (cmd/deployer-server/bootstrap.go)

    The command writes the environment file the service is started with and stores the
    hash of the first administrator's token.  Opening the database is a parameter that
    may change files and uses up the host's turns; the tables are those of the node
    registry.  How systemd reads an environment file is an interface, restricted to
    values without quotes, blanks and escapes. *)

From S2P Require Import Prelude GoStrings Regexp Sha256 GoJson GoTime GoNet Appconfig Db DbRepos Security NodeRegistry NodeService NodeLogic NodeProps NodeAuth HostFs ServerConfig.
From Stdlib Require Import Ascii String.
Local Open Scope Z_scope.

Record serverBootstrapOptions := MkBootstrapOptions {
  Boot_EnvFile : string; Boot_DatabaseURL : string; Boot_PublicBaseURL : string; Boot_GRPCAddress : string; Boot_HTTPAddress : string;
  Boot_KubeconfigPath : string; Boot_IngressNamespace : string; Boot_IngressACMEEmail : string; Boot_IngressTLSIssuer : string; Boot_IngressACMEServer : string;
  Boot_K3sWireGuardIP : string; Boot_WireGuardInterface : string; Boot_WireGuardHubPublicKey : string; Boot_WireGuardEndpoint : string; Boot_Force : bool }.
Record serverBootstrapResult := MkBootstrapResult { BootResult_EnvFile : string; BootResult_AdminToken : string }.

(** The defaults of the flags. *)
Definition bootstrap_defaults (cfg : ServerConfig) : serverBootstrapOptions := {|
  Boot_EnvFile := "/etc/deployer/server.env"; Boot_DatabaseURL := "file:/var/lib/deployer/deployer.db";
  Boot_PublicBaseURL := SC_PublicBaseURL cfg; Boot_GRPCAddress := SC_GRPCListenAddress cfg; Boot_HTTPAddress := SC_HTTPListenAddress cfg;
  Boot_KubeconfigPath := SC_KubeconfigPath cfg; Boot_IngressNamespace := SC_IngressNamespace cfg; Boot_IngressACMEEmail := SC_IngressACMEEmail cfg;
  Boot_IngressTLSIssuer := SC_IngressTLSIssuer cfg; Boot_IngressACMEServer := SC_IngressACMEServer cfg; Boot_K3sWireGuardIP := SC_K3sWireGuardIP cfg;
  Boot_WireGuardInterface := SC_WireGuardInterface cfg; Boot_WireGuardHubPublicKey := SC_WireGuardHubPublicKey cfg;
  Boot_WireGuardEndpoint := SC_WireGuardEndpoint cfg; Boot_Force := false |}.

Definition randomEnvKey : OS string :=
  data ← read_full 24; mret (RawURL_EncodeToString (bytes_of data)).

Definition envLine (key value : string) : result string :=
  if contains_byte value "013"%char || contains_byte value "010"%char then Err (Errorf "%s cannot contain newlines" [AStr key])
  else Ok (key +:+ "=" +:+ value).

Fixpoint env_lines (values : list (string * string)) : result string :=
  match values with
  | [] => Ok ""
  | (key, value) :: rest => line ← envLine key value; text ← env_lines rest; Ok (line +:+ line_feed +:+ text)
  end.

Definition env_values (opts : serverBootstrapOptions) (secretKey tokenHashKey : string) : list (string * string) :=
  [("DEPLOYER_SERVER_GRPC_ADDR", Boot_GRPCAddress opts); ("DEPLOYER_SERVER_HTTP_ADDR", Boot_HTTPAddress opts);
   ("DEPLOYER_DATABASE_URL", Boot_DatabaseURL opts); ("DEPLOYER_PUBLIC_BASE_URL", Boot_PublicBaseURL opts);
   ("DEPLOYER_SECRET_KEY", secretKey); ("DEPLOYER_TOKEN_HASH_KEY", tokenHashKey);
   ("DEPLOYER_KUBECONFIG", Boot_KubeconfigPath opts); ("DEPLOYER_INGRESS_NAMESPACE", Boot_IngressNamespace opts);
   ("DEPLOYER_INGRESS_ACME_EMAIL", Boot_IngressACMEEmail opts); ("DEPLOYER_INGRESS_TLS_ISSUER", Boot_IngressTLSIssuer opts);
   ("DEPLOYER_INGRESS_ACME_SERVER", Boot_IngressACMEServer opts); ("DEPLOYER_K3S_WIREGUARD_IP", Boot_K3sWireGuardIP opts);
   ("DEPLOYER_WIREGUARD_INTERFACE", Boot_WireGuardInterface opts); ("DEPLOYER_WIREGUARD_HUB_PUBLIC_KEY", Boot_WireGuardHubPublicKey opts);
   ("DEPLOYER_WIREGUARD_ENDPOINT", Boot_WireGuardEndpoint opts)].

Definition env_banner : string := "# Generated by deployer-server bootstrap server. Keep this file mode 0600." +:+ line_feed.

Definition renderServerEnv (opts : serverBootstrapOptions) (secretKey tokenHashKey : string) : result string :=
  lines ← env_lines (env_values opts secretKey tokenHashKey); Ok (env_banner +:+ lines).

Definition sqliteDatabasePath (dsn : string) : option string :=
  let value := TrimSpace dsn in
  if String.eqb value "" || String.eqb value ":memory:" || HasPrefix value "file::memory:" then None
  else
    let path := if HasPrefix value "file:"
                then let raw := TrimPrefix value "file:" in match Cut raw "?" with (before, _, true) => before | _ => raw end
                else value in
    if String.eqb path "" then None else Some path.

(** Files and tables of the host. *)
Record installation (K : Type) := MkInstallation { i_host : host; i_nodes : nodes_world K }.
Arguments MkInstallation {K}. Arguments i_host {K}. Arguments i_nodes {K}.

Definition on_host {K A} (m : OS A) : ST (installation K) A := fun s => let '(r, h) := m (i_host s) in (r, MkInstallation h (i_nodes s)).
Definition on_tables {K A} (m : ST (nodes_world K) A) : ST (installation K) A :=
  fun s => let '(r, w) := m (i_nodes s) in (r, MkInstallation (i_host s) w).

(** [db.Open]: the driver creates and migrates the file of the database. *)
Class DatabaseFile := {
  db_Open : string -> OS unit;
  db_Open_turns : forall url h r h', db_Open url h = (r, h') -> h_turns h' `suffix_of` h_turns h
}.

Section bootstrap.
Context {K : Type} `{!DatabaseFile}.

Definition runServerBootstrap (opts : serverBootstrapOptions) (now : Z) (tokenRaw : option (list Z)) : ST (installation K) serverBootstrapResult :=
  _ ← guard (String.eqb (Boot_EnvFile opts) "") (ErrSentinel "--env-file is required");
  _ ← guard (String.eqb (Boot_DatabaseURL opts) "") (ErrSentinel "--database-url is required");
  _ ← (if Boot_Force opts then mret tt
       else found ← attempt (on_host (Stat (Boot_EnvFile opts)));
            match found with
            | Ok _ => throw (Errorf "%s already exists; rerun with --force to replace it" [AStr (Boot_EnvFile opts)])
            | Err e => guard (negb (errors_Is e ErrNotExist)) (ErrWrap "inspect existing env file: %w" [] e)
            end);
  secretKey ← map_err (ErrWrap "generate secret key: %w" []) (on_host randomEnvKey);
  tokenHashKey ← map_err (ErrWrap "generate token hash key: %w" []) (on_host randomEnvKey);
  _ ← map_err (ErrWrap "create env directory: %w" []) (on_host (MkdirAll (Dir (Boot_EnvFile opts))));
  _ ← (match sqliteDatabasePath (Boot_DatabaseURL opts) with
       | Some dbPath => map_err (ErrWrap "create database directory: %w" []) (on_host (MkdirAll (Dir dbPath)))
       | None => mret tt
       end);
  _ ← on_host (db_Open (Boot_DatabaseURL opts));
  env ← lift (renderServerEnv opts secretKey tokenHashKey);
  _ ← map_err (ErrWrap "write server env file: %w" []) (on_host (WriteFile (Boot_EnvFile opts) env 384));
  token ← on_tables (BootstrapAdminToken (bytes_of tokenHashKey) "bootstrap" now tokenRaw);
  mret (MkBootstrapResult (Boot_EnvFile opts) token).

(** [bootstrap admin]: a further administrator of a configured server. *)
Definition bootstrapAdmin (cfg : ServerConfig) (now : Z) (tokenRaw : option (list Z)) : ST (installation K) string :=
  _ ← guard (String.eqb (SC_DatabaseURL cfg) "") (ErrSentinel "DEPLOYER_DATABASE_URL is required");
  _ ← guard (String.eqb (SC_TokenHashKey cfg) "") (ErrSentinel "DEPLOYER_TOKEN_HASH_KEY is required");
  _ ← on_host (db_Open (SC_DatabaseURL cfg));
  on_tables (BootstrapAdminToken (bytes_of (SC_TokenHashKey cfg)) "bootstrap" now tokenRaw).
End bootstrap.

(** ** What systemd makes of the file *)

Definition plain_byte (a : ascii) : bool := byte_in 33 126 a && negb (existsb (Z.eqb (b2z a)) [34; 35; 36; 39; 59; 92; 96]).
Definition plain (s : string) : bool := forall_byte plain_byte s.
Definition plain_name (s : string) : bool := plain s && negb (contains_byte s "="%char) && negb (String.eqb s "").

Fixpoint assignments (l : list (string * string)) : string :=
  match l with [] => "" | (k, v) :: rest => (k +:+ "=" +:+ v) +:+ line_feed +:+ assignments rest end.

Class EnvironmentFile := {
  read_environment : string -> environ;
  read_environment_plain : forall comment l, contains_byte comment "010"%char = false -> NoDup l.*1 ->
    Forall (fun kv => plain_name kv.1 = true /\ plain kv.2 = true) l ->
    forall key, read_environment (("#" +:+ comment) +:+ line_feed +:+ assignments l) key = default "" ((list_to_map l : gmap string string) !! key)
}.

Lemma env_lines_text l text : env_lines l = Ok text -> text = assignments l.
Proof.
  revert text. induction l as [|[k v] l IH]; intros text E; cbn in E; [by injection E as <-|].
  apply bind_ok in E as (line & El & E). apply bind_ok in E as (rest & Er & [= <-]). cbn [assignments]. rewrite <- (IH rest Er).
  unfold envLine in El. destruct (_ || _); [done|]. by injection El as <-.
Qed.

(** ** The keys *)

Lemma b64_text_length url l : String.length (b64_text url l) = List.length l.
Proof. unfold b64_text. induction l as [|n l IH]; [done|]. cbn. by rewrite IH. Qed.

Lemma sextets_length n l : List.length l = (3 * n)%nat -> List.length (sextets l) = (4 * n)%nat.
Proof.
  revert l. induction n as [|n IH]; intros l Hl; [by destruct l|].
  destruct l as [|a [|b [|c l]]]; cbn in Hl; try lia. cbn [sextets List.length]. rewrite IH; lia.
Qed.

Lemma bytes_of_length s : List.length (bytes_of s) = String.length s.
Proof. induction s as [|a s IH]; [done|]. cbn. by rewrite IH. Qed.

Lemma b64_plain n : 0 <= n < 64 -> plain_byte (b64_char true n) = true.
Proof.
  intros Hn. assert (Ha : forallb (fun k => plain_byte (b64_char true (Z.of_nat k))) (seq 0 64) = true) by (vm_compute; reflexivity).
  rewrite forallb_forall in Ha. rewrite <- (Z2Nat.id n) by lia. apply Ha, in_seq. lia.
Qed.

Lemma b64_text_plain l : sextet_list l -> plain (b64_text true l) = true.
Proof. induction 1 as [|n l Hn Hl IH]; [done|]. unfold plain. cbn. by rewrite b64_plain. Qed.

(** Twenty-four random bytes are a key of thirty-two plain characters. *)
Lemma env_key data : slen data = 24 -> plain (RawURL_EncodeToString (bytes_of data)) = true /\ slen (RawURL_EncodeToString (bytes_of data)) = 32.
Proof.
  intros Hl. unfold RawURL_EncodeToString. split; [apply b64_text_plain, sextets_ok, bytes_of_bytes|].
  unfold slen in *. rewrite b64_text_length, (sextets_length 8); [done|]. rewrite bytes_of_length. lia.
Qed.

(** ** The first administrator *)

Section admin.
Context {K : Type} (key : list Z).
Notation N := (ST (nodes_world K)).

Lemma admin_stored name now raw g : gwp (BootstrapAdminToken key name now (Some raw) : N string) g (fun r g' => forall token, r = Ok token ->
  token = AdminTokenPrefix +:+ "_" +:+ RawURL_EncodeToString raw /\
  exists hash, HashToken key token = Ok hash /\ g_admins g' !! hash = Some (TokenRow hash (or_default name "bootstrap") (formatTime now) None None)).
Proof.
  unfold BootstrapAdminToken. apply gwp_bind, gwp_lift. cbn. apply gwp_bind, gwp_lift.
  destruct (HashToken key _) as [hash|e] eqn:Eh; [|done]. apply gwp_bind, gwp_done; [done|]. intros g' n Hu.
  apply bind_ok in Hu as (m & Hm & [= <- <-]). intros [u|e]; [apply gwp_ret|done]. intros token [= <-]. split; [done|]. exists hash. split; [done|].
  unfold insert_token in Hm. apply check_bind in Hm as [_ [= <-]]. cbn [set_admins g_admins token_row_of tk_hash]. by rewrite lookup_insert_eq.
Qed.

(** The token that was handed out is admitted as an administrator. *)
Lemma admin_admitted now raw g k hash authorization method later :
  raw <> [] -> stored_range now -> HashToken key (AdminTokenPrefix +:+ "_" +:+ RawURL_EncodeToString raw) = Ok hash ->
  g_admins g !! hash = Some (TokenRow hash "bootstrap" (formatTime now) None None) ->
  bearerToken authorization = Ok (AdminTokenPrefix +:+ "_" +:+ RawURL_EncodeToString raw) -> isAgentOnlyMethod method = false ->
  exists c w', authenticate key authorization method later (MkNodes g [] k : nodes_world K) = (Ok c, w') /\ Caller_Kind c = CallerAdmin.
Proof.
  intros Hraw Hnow Hh Hrow Hb Hm. exists (MkCaller CallerAdmin "" (opaqueTokenID hash)).
  edestruct (authenticate_admits (K := K) key authorization method later) as [w' Ha]; [|exists w'; split; [exact Ha|done]].
  exists (AdminTokenPrefix +:+ "_" +:+ RawURL_EncodeToString raw), hash, (TokenRow hash "bootstrap" (formatTime now) None None), (MkBearerToken hash "bootstrap" now None None).
  split; [done|]. split; [done|]. split; [done|]. split; [unfold scanToken; cbn [tk_created]; by rewrite parseStoredTime_formatTime|].
  split; [done|]. cbn [Caller_Kind]. split; [apply knownPrefix_Prefix; [by left|by destruct raw as [|? [|? [|? ?]]]]|]. done.
Qed.
End admin.

(** ** The installation *)

Lemma on_host_ok {K A} (m : OS A) (s s' : installation K) a : on_host m s = (Ok a, s') -> m (i_host s) = (Ok a, i_host s') /\ i_nodes s' = i_nodes s.
Proof. unfold on_host. destruct (m (i_host s)) as [r h]. by intros [= <- <-]. Qed.

Lemma only_env_key : only (fun _ _ => True) randomEnvKey.
Proof. unfold randomEnvKey. apply only_bind; [by apply only_syscall|intros d; apply only_ret]. Qed.

Lemma env_key_ok h k h' : randomEnvKey h = (Ok k, h') -> plain k = true /\ slen k = 32.
Proof.
  intros (data & h1 & E & [= <- <-])%st_bind_ok. apply env_key. unfold read_full, syscall, call in E.
  destruct (next_turn h) as [t ts]. destruct (t_fault t); [done|]. destruct (t_random t) as [|r l]; [done|].
  destruct (slen r =? 24) eqn:Er; [|done]. injection E as -> _. by apply Z.eqb_eq.
Qed.

Lemma env_value_in opts secret hash l : l = env_values opts secret hash -> NoDup l.*1 /\ Forall (fun kv => plain_name kv.1 = true) l.
Proof.
  intros ->. split; [|repeat constructor]. apply (bool_decide_unpack _). vm_compute. done.
Qed.

Definition option_values (opts : serverBootstrapOptions) : list string :=
  [Boot_GRPCAddress opts; Boot_HTTPAddress opts; Boot_DatabaseURL opts; Boot_PublicBaseURL opts; Boot_KubeconfigPath opts; Boot_IngressNamespace opts;
   Boot_IngressACMEEmail opts; Boot_IngressTLSIssuer opts; Boot_IngressACMEServer opts; Boot_K3sWireGuardIP opts; Boot_WireGuardInterface opts;
   Boot_WireGuardHubPublicKey opts; Boot_WireGuardEndpoint opts].

Section usable.
Context {K : Type} `{!DatabaseFile} `{!EnvironmentFile}.

Lemma env_read opts secret hash text : forallb plain (option_values opts) = true -> plain secret = true -> plain hash = true ->
  renderServerEnv opts secret hash = Ok text ->
  forall key, read_environment text key = default "" ((list_to_map (env_values opts secret hash) : gmap string string) !! key).
Proof.
  intros Hp Hs Hh E key. unfold renderServerEnv in E. apply bind_ok in E as (lines & El & [= <-]). apply env_lines_text in El as ->.
  destruct (env_value_in opts secret hash _ eq_refl) as [Hnd Hn].
  apply (read_environment_plain " Generated by deployer-server bootstrap server. Keep this file mode 0600."); [done|exact Hnd|].
  cbn [forallb option_values] in Hp. rewrite !andb_true_iff in Hp. destruct_and!. by repeat constructor.
Qed.

(** The settings a bootstrap was asked for: every option reaches its own field of the
    configuration; an empty one means the server's default. *)
Record requested (opts : serverBootstrapOptions) (cfg : ServerConfig) : Prop := {
  rq_grpc : SC_GRPCListenAddress cfg = or_text (Boot_GRPCAddress opts) ":7443";
  rq_http : SC_HTTPListenAddress cfg = or_text (Boot_HTTPAddress opts) ":7080";
  rq_database : SC_DatabaseURL cfg = Boot_DatabaseURL opts;
  rq_public : SC_PublicBaseURL cfg = Boot_PublicBaseURL opts;
  rq_kubeconfig : SC_KubeconfigPath cfg = or_text (Boot_KubeconfigPath opts) "/etc/rancher/k3s/k3s.yaml";
  rq_namespace : SC_IngressNamespace cfg = or_text (Boot_IngressNamespace opts) "deployer-apps";
  rq_email : SC_IngressACMEEmail cfg = Boot_IngressACMEEmail opts;
  rq_issuer : SC_IngressTLSIssuer cfg = or_text (Boot_IngressTLSIssuer opts) "deployer-letsencrypt";
  rq_acme : SC_IngressACMEServer cfg = or_text (Boot_IngressACMEServer opts) "https://acme-v02.api.letsencrypt.org/directory";
  rq_hub_ip : SC_K3sWireGuardIP cfg = Boot_K3sWireGuardIP opts;
  rq_interface : SC_WireGuardInterface cfg = or_text (Boot_WireGuardInterface opts) "wg0";
  rq_hub_key : SC_WireGuardHubPublicKey cfg = Boot_WireGuardHubPublicKey opts;
  rq_endpoint : SC_WireGuardEndpoint cfg = Boot_WireGuardEndpoint opts
}.

Lemma env_requested opts secret hash env : (forall key, env key = default "" ((list_to_map (env_values opts secret hash) : gmap string string) !! key)) ->
  Boot_DatabaseURL opts <> "" -> requested opts (LoadServer env).
Proof.
  intros He Hd. split; unfold LoadServer, envOrDefault; cbn [SC_GRPCListenAddress SC_HTTPListenAddress SC_DatabaseURL SC_PublicBaseURL SC_KubeconfigPath
    SC_IngressNamespace SC_IngressACMEEmail SC_IngressTLSIssuer SC_IngressACMEServer SC_K3sWireGuardIP SC_WireGuardInterface SC_WireGuardHubPublicKey
    SC_WireGuardEndpoint]; rewrite !He; try reflexivity.
  change (default "" _) with (Boot_DatabaseURL opts). by rewrite (proj2 (String.eqb_neq _ _) Hd).
Qed.

(** The rendered file, read back, is a configuration the server starts with. *)
Lemma env_serves opts secret hash env : (forall key, env key = default "" ((list_to_map (env_values opts secret hash) : gmap string string) !! key)) ->
  Boot_DatabaseURL opts <> "" -> slen secret = 32 -> slen hash = 32 ->
  let cfg := LoadServer env in
  SC_TokenHashKey cfg = hash /\ SC_DatabaseURL cfg = Boot_DatabaseURL opts /\ forall h, validateServeConfig cfg h = (Ok tt, h).
Proof.
  intros He Hd Hs Hh cfg.
  assert (Hhash : SC_TokenHashKey cfg = hash) by (cbn; by rewrite He).
  assert (Hdb : SC_DatabaseURL cfg = Boot_DatabaseURL opts).
  { unfold cfg, LoadServer, envOrDefault. cbn [SC_DatabaseURL]. rewrite He. change (default "" _) with (Boot_DatabaseURL opts). by rewrite (proj2 (String.eqb_neq _ _) Hd). }
  split; [done|]. split; [done|]. intros h.
  assert (Hsec : SC_SecretKey cfg = secret) by (cbn; by rewrite He).
  assert (Hfile : SC_SecretKeyFile cfg = "") by (cbn; by rewrite He).
  assert (Hne : forall t : string, slen t = 32 -> String.eqb t "" = false) by (intros t Ht; apply String.eqb_neq; by intros ->).
  assert (Hkey : SecretEncryptionKey cfg h = (Ok secret, h)).
  { unfold SecretEncryptionKey. rewrite Hsec, Hfile, (Hne secret Hs). unfold mbind, st_bind, guard. cbn -[slen]. by rewrite Hs. }
  assert (Hret : EventRetention cfg = Ok (MkRetention 2592000000000000 10000 3600000000000)).
  { unfold EventRetention, cfg, LoadServer, envOrDefault. cbn [SC_EventRetentionMaxAge SC_EventRetentionMaxCount SC_EventCleanupInterval]. rewrite !He. by vm_compute. }
  assert (Hmon : NodeMonitor cfg = Ok (MkMonitor 120000000000 30000000000)).
  { unfold NodeMonitor, cfg, LoadServer, envOrDefault. cbn [SC_NodeOfflineAfter SC_NodeMonitorInterval]. rewrite !He. by vm_compute. }
  assert (Htls : ValidateTLSFiles (SC_TLSCertFile cfg) (SC_TLSKeyFile cfg) = Ok tt) by (cbn; by rewrite !He).
  assert (Hlisten : forall (v d : string), String.eqb d "" = false -> String.eqb (if String.eqb v "" then d else v) "" = false)
    by (intros v d Hd0; by destruct (String.eqb v "") eqn:Ev).
  unfold validateServeConfig, attempt, mbind, st_bind. rewrite Hkey, Hret, Hmon, Htls, Hhash, Hdb, (Hne hash Hh), (proj2 (String.eqb_neq _ _) Hd).
  unfold cfg, LoadServer, envOrDefault. cbn [SC_GRPCListenAddress SC_HTTPListenAddress]. by rewrite !Hlisten.
Qed.

(** One call of the host in a run that succeeds. *)
Lemma host_step {A} (m : OS A) (s s' : installation K) a : only (fun _ _ => True) m -> on_host m s = (Ok a, s') -> Forall calm (h_turns (i_host s)) ->
  Forall calm (h_turns (i_host s')) /\ i_nodes s' = i_nodes s.
Proof. intros Hm [E En]%on_host_ok HT. split; [by eapply only_turns|done]. Qed.

(** Without [--force], the file is new. *)
Lemma env_file_new opts (s s' : installation K) :
  (if Boot_Force opts then mret tt
   else found ← attempt (on_host (Stat (Boot_EnvFile opts)));
        match found with
        | Ok _ => throw (Errorf "%s already exists; rerun with --force to replace it" [AStr (Boot_EnvFile opts)])
        | Err e => guard (negb (errors_Is e ErrNotExist)) (ErrWrap "inspect existing env file: %w" [] e)
        end) s = (Ok tt, s') -> Forall calm (h_turns (i_host s)) ->
  Forall calm (h_turns (i_host s')) /\ i_nodes s' = i_nodes s /\
  (Boot_Force opts = false -> forall q0, resolve (h_files (i_host s)) (Boot_EnvFile opts) = Some q0 -> h_files (i_host s) !! q0 = None).
Proof.
  destruct (Boot_Force opts); [by intros [= <-] HT|]. intros E HT. apply st_bind_ok in E as (found & s1 & Ea & E).
  unfold attempt, on_host in Ea. destruct (Stat _ (i_host s)) as [r h] eqn:Es. injection Ea as <- <-.
  destruct r as [n|e]; [done|]. unfold guard in E. destruct (errors_Is e ErrNotExist) eqn:Ee; [|done]. injection E as <-.
  split; [by eapply only_turns; [apply only_stat|exact Es|]|]. split; [done|]. intros _. by eapply stat_missing.
Qed.

(** C25: a bootstrapped server works.  On an undisturbed host, if [bootstrap server]
    succeeds with plain option values (printable ASCII without blanks, quotes, backslashes
    and the characters an environment file gives a meaning), the environment file is there,
    and a service started with it has exactly the requested settings, each in its field,
    with the server's default for an empty one; [validateServeConfig] accepts them; the
    administrator's token that was printed authenticates, under
    the key in that file, for every method that is not an agent's; and without [--force]
    there was no environment file before. *)
Theorem bootstrap_usable opts now raw (s s' : installation K) res :
  Forall calm (h_turns (i_host s)) -> forallb plain (option_values opts) = true -> raw <> [] -> stored_range now ->
  runServerBootstrap opts now (Some raw) s = (Ok res, s') ->
  exists q perm text, resolve (h_files (i_host s')) (Boot_EnvFile opts) = Some q /\ h_files (i_host s') !! q = Some (NFile perm text) /\
    let cfg := LoadServer (read_environment text) in
    requested opts cfg /\ (forall h, validateServeConfig cfg h = (Ok tt, h)) /\
    (forall k authorization method later, bearerToken authorization = Ok (BootResult_AdminToken res) -> isAgentOnlyMethod method = false ->
       exists c w, authenticate (bytes_of (SC_TokenHashKey cfg)) authorization method later (MkNodes (n_reg (i_nodes s')) [] k : nodes_world K) = (Ok c, w) /\
                   Caller_Kind c = CallerAdmin) /\
    (Boot_Force opts = false -> forall q0, resolve (h_files (i_host s)) (Boot_EnvFile opts) = Some q0 -> h_files (i_host s) !! q0 = None).
Proof.
  intros HT Hp Hraw Hnow E. unfold runServerBootstrap in E.
  apply st_bind_ok in E as ([] & s0 & [_ ->]%guard_ok & E). apply st_bind_ok in E as ([] & s1 & [Hd%String.eqb_neq ->]%guard_ok & E).
  apply st_bind_ok in E as ([] & s2 & Enew & E). destruct (env_file_new _ _ _ Enew HT) as (HT2 & N2 & Hnew).
  apply st_bind_ok in E as (secret & s3 & E3%mapped_ok & E). destruct (host_step _ _ _ _ only_env_key E3 HT2) as [HT3 N3].
  apply st_bind_ok in E as (hash & s4 & E4%mapped_ok & E). destruct (host_step _ _ _ _ only_env_key E4 HT3) as [HT4 N4].
  apply on_host_ok in E3 as [[Ps Ls]%env_key_ok _]. apply on_host_ok in E4 as [[Ph Lh]%env_key_ok _].
  apply st_bind_ok in E as ([] & s5 & E5%mapped_ok & E). destruct (host_step _ _ _ _ (only_mkdir _) E5 HT4) as [HT5 N5].
  apply st_bind_ok in E as ([] & s6 & E6 & E). assert (H6 : Forall calm (h_turns (i_host s6)) /\ i_nodes s6 = i_nodes s5).
  { destruct (sqliteDatabasePath _); [|by injection E6 as <-]. apply mapped_ok in E6. by apply (host_step _ _ _ _ (only_mkdir _) E6). }
  destruct H6 as [HT6 N6]. apply st_bind_ok in E as ([] & s7 & [E7 N7]%on_host_ok & E). pose proof (calm_suffix _ _ (db_Open_turns _ _ _ _ E7) HT6) as HT7.
  apply st_bind_ok in E as (env & s8 & Eenv & E). unfold lift in Eenv. injection Eenv as Eenv <-.
  apply st_bind_ok in E as ([] & s9 & [E9 N9]%mapped_ok%on_host_ok & E). destruct (cwp_run _ _ _ _ _ (cwp_WriteFile _ _ _ _) HT7 E9) as [_ Hw].
  apply st_bind_ok in E as (token & s10 & E10 & [= <- <-]). unfold on_tables in E10.
  destruct (BootstrapAdminToken _ _ _ _ (i_nodes s9)) as [r w] eqn:Eb. injection E10 as -> <-.
  destruct (admin_stored (bytes_of hash) _ _ _ _ _ _ _ eq_refl Eb token eq_refl) as (-> & h & Hh & Hrow).
  destruct (Hw eq_refl) as (q & perm & Hq & Hf). exists q, perm, env. split; [exact Hq|]. split; [exact Hf|].
  pose proof (env_read _ _ _ _ Hp Ps Ph Eenv) as Henv. destruct (env_serves opts secret hash _ Henv Hd Ls Lh) as (Ek & _ & Hv). cbv zeta. rewrite Ek.
  split; [exact (env_requested _ _ _ _ Henv Hd)|]. split; [exact Hv|]. split; [|exact Hnew]. intros k authorization method later Ha Hm. by eapply admin_admitted.
Qed.
End usable.

(** ** A run *)

(** A reader of environment files that knows plain values. *)
Fixpoint find_line (lines : list string) (key : string) : string :=
  match lines with
  | [] => ""
  | l :: rest => match Cut l "=" with
                 | (k, v, true) => if negb (HasPrefix l "#") && String.eqb k key then v else find_line rest key
                 | _ => find_line rest key
                 end
  end.
Definition read_lines (text : string) : environ := find_line (Split_byte text "010"%char).

Lemma plain_no_byte s (c : ascii) : plain s = true -> plain_byte c = false -> contains_byte s c = false.
Proof.
  intros Hp Hc. apply not_true_iff_false. intros H. unfold plain, contains_byte in *. induction s as [|a s IH]; [done|]. cbn in *.
  apply andb_true_iff in Hp as [Ha Hs]. apply orb_true_iff in H as [<-%Ascii.eqb_eq|H]; [congruence|by apply IH].
Qed.

Lemma contains_byte_app s t c : contains_byte (s +:+ t) c = contains_byte s c || contains_byte t c.
Proof. unfold contains_byte. induction s as [|a s IH]; [done|]. cbn. by rewrite IH, orb_assoc. Qed.

Lemma find_assignments l key : NoDup l.*1 -> Forall (fun kv => plain_name kv.1 = true /\ plain kv.2 = true) l ->
  find_line (Split_byte (assignments l) "010"%char) key = default "" ((list_to_map l : gmap string string) !! key).
Proof.
  induction l as [|[k v] l IH]; intros Hnd Hp; [done|]. inversion Hnd as [|? ? Hk Hnd']; inversion Hp as [|? ? [Hn Hv] Hp']; subst. cbn in Hn, Hv.
  unfold plain_name in Hn. rewrite !andb_true_iff, !negb_true_iff in Hn. destruct Hn as [[Hpk Hek] Hke]. apply String.eqb_neq in Hke.
  assert (Hline : contains_byte (k +:+ "=" +:+ v) "010"%char = false) by (rewrite !contains_byte_app, !plain_no_byte by done; done).
  cbn [assignments]. change (line_feed +:+ assignments l) with (String "010"%char (assignments l)). rewrite Split_byte_app by exact Hline.
  cbn [find_line list_to_map foldr uncurry]. rewrite cut_at by done.
  assert (Hc : HasPrefix (k +:+ "=" +:+ v) "#" = false).
  { destruct k as [|a k]; [done|]. unfold HasPrefix, plain in *. cbn [String.append String.prefix forall_byte] in *.
    destruct (ascii_dec "#" a) as [<-|_]; [discriminate|reflexivity]. }
  rewrite Hc. cbn [negb andb]. change (list_to_map ((k, v) :: l) : gmap string string) with (<[k := v]> (list_to_map l) : gmap string string).
  destruct (String.eqb_spec k key) as [->|Hne]; [by rewrite lookup_insert_eq|]. rewrite lookup_insert_ne by done. by apply IH.
Qed.

#[export, refine] Instance lines_environment : EnvironmentFile := {| read_environment := read_lines |}.
Proof.
  intros comment l Hc Hnd Hp key. unfold read_lines. change (line_feed +:+ assignments l) with (String "010"%char (assignments l)).
  rewrite Split_byte_app by exact Hc. cbn [find_line]. destruct (Cut _ _) as [[k v] b]. replace (HasPrefix ("#" +:+ comment) "#") with true by by destruct comment.
  destruct b; by apply find_assignments.
Defined.

#[export, refine] Instance opened_database : DatabaseFile := {| db_Open := fun _ => observe (fun _ => Ok tt) |}.
Proof. intros url h r h' E. by apply (only_observe (fun _ _ => True) (fun _ => Ok tt) (fun _ => I) h r h' E). Defined.

Definition fresh_turn : turn := Turn (fun m => m) [] ["0123456789abcdefABCDEF<>"] None 0.
Definition fresh_host : host := Host ∅ (repeat fresh_turn 3) 18 [].
Definition fresh_installation : installation unit := MkInstallation fresh_host (MkNodes (MkRegistry ∅ ∅ ∅ ∅) [] tt).
Definition default_bootstrap : serverBootstrapOptions := bootstrap_defaults (LoadServer (fun _ => "")).

Definition bootstrap_time : Z := 63835596000 * second.

Lemma bootstrap_usable_witness : exists res s' q perm text,
  runServerBootstrap default_bootstrap bootstrap_time (Some (repeat 1 32)) fresh_installation = (Ok res, s') /\
  h_files (i_host s') !! q = Some (NFile perm text) /\
  forall h, validateServeConfig (LoadServer (read_environment text)) h = (Ok tt, h).
Proof.
  pose proof (bootstrap_usable (K := unit) default_bootstrap bootstrap_time (repeat 1 32) fresh_installation) as Hb.
  destruct (runServerBootstrap _ _ _ fresh_installation) as [r s'] eqn:E.
  assert (Hr : is_ok r = true) by (change r with (r, s').1; rewrite <- E; by vm_compute). destruct r as [res|]; [|done].
  assert (Ht : stored_range bootstrap_time) by (split; apply Z.leb_le || apply Z.ltb_lt; vm_compute; reflexivity).
  assert (Hc : Forall calm (h_turns (i_host fresh_installation))) by (cbn; repeat constructor).
  assert (Hp : forallb plain (option_values default_bootstrap) = true) by (vm_compute; reflexivity).
  destruct (Hb s' res Hc Hp ltac:(discriminate) Ht eq_refl) as (q & perm & text & Hq & Hf & _ & Hv & _).
  exists res, s', q, perm, text. split; [done|]. split; [exact Hf|exact Hv].
Defined.

(** With [--force] the bytes are replaced but not the mode: a file others could read
    before still can be read by them, and now holds the keys. *)
Example forced_env_keeps_mode :
  let opts := {| Boot_EnvFile := "server.env"; Boot_DatabaseURL := "file:deployer.db"; Boot_PublicBaseURL := ""; Boot_GRPCAddress := ""; Boot_HTTPAddress := "";
    Boot_KubeconfigPath := ""; Boot_IngressNamespace := ""; Boot_IngressACMEEmail := ""; Boot_IngressTLSIssuer := ""; Boot_IngressACMEServer := "";
    Boot_K3sWireGuardIP := ""; Boot_WireGuardInterface := ""; Boot_WireGuardHubPublicKey := ""; Boot_WireGuardEndpoint := ""; Boot_Force := true |} in
  let s := MkInstallation (Host {["server.env" := NFile 420 "old"]} (repeat fresh_turn 3) 18 []) (MkNodes (MkRegistry ∅ ∅ ∅ ∅) [] tt) in
  let '(r, s') := runServerBootstrap opts bootstrap_time (Some (repeat 1 32)) s in
  is_ok r = true /\ match h_files (i_host s') !! "server.env" with Some (NFile perm text) => perm = 420 /\ text <> "old" | _ => False end.
Proof. by vm_compute. Qed.
