(* ===== verification/ServerIdentity.v ===== *)
(** * The identity of an installation (internal/server/server_identity.go)

    Several servers may start at once on one database: each either reads the identity
    file or publishes its own by a link that fails if there is one.  The functions of
    net/url are an interface.  A recursion on fuel stands for the one of the source;
    [identity_agreed] shows that one round more than the first is enough. *)

From S2P Require Import Prelude GoStrings Regexp Sha256 GoJson Appconfig DatabaseStatus Db HostFs ServerConfig.
From Stdlib Require Import Ascii String.
Local Open Scope Z_scope.

Definition serverIdentityBytes : Z := 32.

Definition validateIdentity (path raw : string) : result string :=
  let value := TrimSpace raw in
  if String.eqb value "" || (contains_byte value "013"%char || contains_byte value "010"%char)
  then Err (Errorf "server identity file %q is empty or malformed" [AStr path]) else Ok value.

(** A file that is there. *)
Definition read_identity (path : string) (info : node) : OS string :=
  _ ← guard (match info with NLink _ => true | _ => false end) (Errorf "server identity file %q must not be a symlink" [AStr path]);
  _ ← guard (match info with NFile perm _ => negb (Z.land perm 63 =? 0) | _ => true end)
        (Errorf "server identity file %q must be a regular owner-only file" [AStr path]);
  data ← map_err (ErrWrap "read server identity: %w" []) (ReadFile path);
  lift (validateIdentity path data).

Definition out_of_rounds : error := ErrSentinel "out of rounds".

(** Closing after a failed step has no further effect. *)
Fixpoint loadOrCreateIdentityFile (rounds : nat) (path : string) : OS string :=
  match rounds with
  | O => throw out_of_rounds
  | S rounds' =>
      found ← attempt (Lstat path);
      match found with
      | Ok info => read_identity path info
      | Err e =>
          _ ← guard (negb (errors_Is e ErrNotExist)) (ErrWrap "read server identity: %w" [] e);
          _ ← map_err (ErrWrap "create server identity directory: %w" []) (MkdirAll (Dir path));
          bytes ← map_err (ErrWrap "generate server identity: %w" []) (read_full serverIdentityBytes);
          let value := EncodeToString (bytes_of bytes) in
          tmpPath ← map_err (ErrWrap "create temporary server identity: %w" []) (CreateTemp (Dir path) ".server-identity-");
          deferring (Remove tmpPath) (
            _ ← map_err (ErrWrap "protect temporary server identity: %w" []) (Chmod_ tmpPath 384);
            _ ← map_err (ErrWrap "write server identity: %w" []) (Write_ tmpPath (value +:+ line_feed));
            _ ← map_err (ErrWrap "sync server identity: %w" []) (Sync_ tmpPath);
            _ ← map_err (ErrWrap "close server identity: %w" []) (Close_ tmpPath);
            linked ← attempt (Link tmpPath path);
            match linked with
            | Ok _ => mret value
            | Err e => if errors_Is e ErrExist then loadOrCreateIdentityFile rounds' path else throw (ErrWrap "publish server identity: %w" [] e)
            end)
      end
  end.

(** net/url: path, opaque part and the first value of [mode] of a parsed URL. *)
Class Urls := {
  url_Parse : string -> option (string * string * string);
  url_PathUnescape : string -> option string;
  query_mode : string -> string
}.

Section identity.
Context `{Urls}.

Definition is_memory (mode : string) : bool := EqualFold mode "memory".

Definition sidecarPath (databaseURL : string) : string :=
  let value := TrimSpace databaseURL in
  let path :=
    if HasPrefix value "file:" then
      match url_Parse ("file:" +:+ TrimPrefix value "file:") with
      | None => ""
      | Some (path, opaque, mode) =>
          if is_memory mode then ""
          else if String.eqb path "" && negb (String.eqb opaque "") then default "" (url_PathUnescape opaque) else path
      end
    else match Cut value "?" with
         | (path, query, true) => if is_memory (query_mode query) then "" else path
         | _ => value
         end in
  if String.eqb path "" || String.eqb path ":memory:" then "" else path +:+ ".identity".

Definition LoadServerIdentity (rounds : nat) (cfg : ServerConfig) : OS string :=
  let value := TrimSpace (SC_ServerIdentity cfg) in
  if negb (String.eqb value "") then
    _ ← guard (negb (blank (SC_ServerIdentityFile cfg))) (ErrSentinel "set only one of DEPLOYER_SERVER_IDENTITY or DEPLOYER_SERVER_IDENTITY_FILE");
    lift (validateIdentity "DEPLOYER_SERVER_IDENTITY" value)
  else
    let path := or_text (TrimSpace (SC_ServerIdentityFile cfg)) (sidecarPath (SC_DatabaseURL cfg)) in
    if String.eqb path "" then throw (ErrSentinel "server identity requires DEPLOYER_SERVER_IDENTITY or DEPLOYER_SERVER_IDENTITY_FILE when database is not file-backed")
    else loadOrCreateIdentityFile rounds path.
End identity.

(** ** Servers that start together *)

(** What is at these paths stays. *)
Definition keeps (S : string -> Prop) (m m' : files) : Prop := forall q n, S q -> m !! q = Some n -> m' !! q = Some n.

Section together.
Context (path : string) (mine : Z -> Prop).
Notation P := (Clean path).

(** The temporary names this process may draw. *)
Definition own_temp (q : string) : Prop := exists rnd, mine rnd /\ q = Clean (temp_name (Dir path) ".server-identity-" rnd).

(** What a starting server relies on: others leave the identity file and this process's
    temporary file as they are, and a call that fails for another reason does not claim
    that a file exists or is missing. *)
Definition rely (t : turn) : Prop :=
  Forall mine (t_names t) /\ (forall m, keeps (fun q => q = P \/ own_temp q) m (t_others t m)) /\
  forall e, t_fault t = Some e -> errors_Is e ErrExist = false /\ errors_Is e ErrNotExist = false.
(** The identity file is left as it is, or appears where there was none, at once and whole:
    for its owner only, with one identity on one line. *)
Definition published_whole (m m' : files) : Prop :=
  m' !! P = m !! P \/
  (m !! P = None /\ exists v, m' !! P = Some (NFile 384 (v +:+ line_feed)) /\ validateIdentity path (v +:+ line_feed) = Ok v).
(** What it promises: it changes nothing that is there but its own temporary file, and
    publishes the identity file whole. *)
Definition guarantee (m m' : files) : Prop := keeps (fun q => ~ own_temp q) m m' /\ published_whole m m'.

Definition identity_at (F : files) (v : string) : Prop :=
  exists perm data, F !! P = Some (NFile perm data) /\ Z.land perm 63 = 0 /\ validateIdentity path data = Ok v.

Definition settled_on (r : result string) (F : files) (l : list (files * files)) : Prop :=
  Forall (fun s => guarantee s.1 s.2) l /\ (forall v, r = Ok v -> identity_at F v) /\ r <> Err out_of_rounds.

Context (Hpath : ~ own_temp P) (Hdirs : P ∉ ancestry (Dir path)).

Lemma rely_quiet : rely quiet_turn.
Proof. split; [constructor|]. split; [by intros m q n|done]. Qed.
Hint Resolve rely_quiet : core.

Lemma settled_app r F l1 l2 : Forall (fun s => guarantee s.1 s.2) l1 -> settled_on r F l2 -> settled_on r F (l1 ++ l2)%list.
Proof. intros H1 (H2 & H3 & H4). split; [by apply Forall_app|done]. Qed.

Lemma settled_err e F l : Forall (fun s => guarantee s.1 s.2) l -> e <> out_of_rounds -> settled_on (Err e) F l.
Proof. intros Hl He. split; [done|]. split; [done|congruence]. Qed.

Lemma guarantee_refl m : guarantee m m.
Proof. split; [by intros q n|by left]. Qed.
Hint Resolve guarantee_refl : core.
Ltac kept := repeat first [apply Forall_nil_2 | apply Forall_cons_2; cbn [fst snd]]; auto.

(** A call that looks, with a file that stays in place. *)
Lemma hwp_see {A} (f : files -> result A) F q n : q = P \/ own_temp q -> F !! q = Some n ->
  hwp rely (observe f) F (fun r F' l => F' !! q = Some n /\ Forall (fun s => guarantee s.1 s.2) l /\ forall a, r = Ok a -> f F' = Ok a).
Proof.
  intros Hq HF. apply hwp_observe; [done|]. intros t r (_ & Hk & _) Hr. split; [by apply Hk|]. split; [by kept|].
  intros a ->. by destruct Hr as [->|[e [=]]].
Qed.

Lemma read_settles F n : F !! P = Some n -> hwp rely (read_identity path n) F settled_on.
Proof.
  intros HF. unfold read_identity. apply hwp_bind, hwp_guard; [intros _; by apply settled_err|]. intros _.
  apply hwp_bind, hwp_guard; [intros _; by apply settled_err|]. intros Hn. destruct n as [perm data| | |]; try discriminate.
  apply negb_false_iff, Z.eqb_eq in Hn. apply hwp_bind, hwp_map_err. eapply hwp_mono; [by apply (hwp_see _ F P (NFile perm data)); [left|]|].
  intros [d|e] F1 l1 (H1 & L1 & Hr); [|by apply settled_err]. specialize (Hr d eq_refl). rewrite (resolve_file F1 path perm data H1), H1 in Hr.
  injection Hr as <-. apply hwp_lift. rewrite app_nil_r. split; [done|]. split; [intros v Hv; by exists perm, data|].
  unfold validateIdentity. by destruct (_ || _).
Qed.

(** Once there is a file, one round is enough. *)
Lemma present_settles rounds F n : F !! P = Some n -> hwp rely (loadOrCreateIdentityFile (S rounds) path) F settled_on.
Proof.
  intros HF. cbn [loadOrCreateIdentityFile]. apply hwp_bind, hwp_attempt, hwp_call; [done|].
  intros u t r m' (_ & Hk & Hf) E. destruct (t_fault t) as [e|] eqn:Et; injection E as <- <-.
  - destruct (Hf e eq_refl) as [_ He]. rewrite He. apply hwp_bind, hwp_guard; [intros _|done]. apply settled_err; [by kept|done].
  - pose proof (Hk F P n (or_introl eq_refl) HF) as Hn. rewrite Hn.
    eapply hwp_mono; [by apply read_settles|]. intros r F' l. apply (settled_app _ _ [_]); by kept.
Qed.

Lemma make_dirs_keeps ps m r m' : make_dirs ps m = (r, m') -> keeps (fun _ => True) m m'.
Proof.
  revert m. induction ps as [|p ps IH]; intros m E q n _ Hq; cbn in E; [by injection E as _ <-|]. destruct (is_dir m p); [by apply (IH _ E)|].
  destruct (m !! p) eqn:Ep; [by injection E as _ <-|]. apply (IH _ E); [done|]. rewrite lookup_insert_ne; [done|]. congruence.
Qed.

Lemma make_dirs_only ps m r m' q : make_dirs ps m = (r, m') -> q ∉ ps -> m' !! q = m !! q.
Proof.
  revert m. induction ps as [|p ps IH]; intros m E Hq; cbn in E; [by injection E as _ <-|]. apply not_elem_of_cons in Hq as [Hne Hq].
  destruct (is_dir m p); [by apply (IH _ E)|]. destruct (m !! p) eqn:Ep; [by injection E as _ <-|]. rewrite (IH _ E Hq). by apply lookup_insert_ne.
Qed.

(** A change of the temporary file alone. *)
Lemma own_step name m m' : own_temp (Clean name) -> touches (eq (Clean name)) m m' -> guarantee m m'.
Proof.
  intros Ho Ht. split; [intros q n Hq E; rewrite Ht; [done|]; by intros <-|]. left. apply Ht. intros E. apply Hpath. by rewrite <- E.
Qed.

Lemma hwp_own_look {A} g (o : files -> result A) (k : A -> OS string) F tmp n : own_temp tmp -> F !! tmp = Some n -> (forall e, g e <> out_of_rounds) ->
  (forall F' a, F' !! tmp = Some n -> hwp rely (k a) F' settled_on) -> hwp rely (mbind k (map_err g (observe o))) F settled_on.
Proof.
  intros Ht HF Hg Hk. apply hwp_bind, hwp_map_err. eapply hwp_mono; [by apply (hwp_see o F tmp n); [right|]|].
  intros [a|e] F1 l1 (H1 & L1 & _); [|by apply settled_err]. eapply hwp_mono; [by apply Hk|]. intros r F' l. by apply settled_app.
Qed.

Lemma hex_plain a : is_hex a = true -> byte_in 33 126 a = true /\ Ascii.eqb "013" a = false /\ Ascii.eqb "010" a = false.
Proof. destruct a as [[] [] [] [] [] [] [] []]; by vm_compute. Qed.

(** The identity of this process. *)
Lemma hex_identity bytes : bytes <> [] -> validateIdentity path (EncodeToString bytes +:+ line_feed) = Ok (EncodeToString bytes).
Proof.
  intros Hb. assert (Hh := EncodeToString_hex bytes). assert (Hne : EncodeToString bytes <> "") by (by destruct bytes). set (v := EncodeToString bytes) in *.
  assert (Ht : TrimSpace v = v) by (apply TrimSpace_no_space; eapply forall_byte_impl; [|exact Hh]; intros a Ha; by apply hex_plain).
  assert (Hc : forall c, (forall a, is_hex a = true -> Ascii.eqb c a = false) -> contains_byte v c = false).
  { intros c Hc. unfold contains_byte. clearbody v. clear - Hh Hc. induction v as [|a v IH]; [done|]. cbn in Hh |- *. apply andb_true_iff in Hh as [Ha Hv].
    by rewrite (Hc a Ha), IH. }
  assert (E : TrimSpace (v +:+ line_feed) = v) by (rewrite <- Ht at 1; by rewrite TrimSpace_line).
  unfold validateIdentity. rewrite E, (proj2 (String.eqb_neq _ _) Hne), (Hc "013"%char), (Hc "010"%char); [done| |]; intros a Ha; by apply hex_plain.
Qed.

Lemma publish_settles rounds value name F perm : own_temp (Clean name) -> F !! Clean name = Some (NFile perm "") -> validateIdentity path (value +:+ line_feed) = Ok value ->
  hwp rely (_ ← map_err (ErrWrap "protect temporary server identity: %w" []) (Chmod_ name 384);
            _ ← map_err (ErrWrap "write server identity: %w" []) (Write_ name (value +:+ line_feed));
            _ ← map_err (ErrWrap "sync server identity: %w" []) (Sync_ name);
            _ ← map_err (ErrWrap "close server identity: %w" []) (Close_ name);
            linked ← attempt (Link name path);
            match linked with
            | Ok _ => mret value
            | Err e => if errors_Is e ErrExist then loadOrCreateIdentityFile (S rounds) path else throw (ErrWrap "publish server identity: %w" [] e)
            end) F settled_on.
Proof.
  intros Ho HF Hv. assert (Hstay : forall t G n, rely t -> G !! Clean name = Some n -> t_others t G !! Clean name = Some n) by (intros t G n (_ & Hk & _); by apply Hk; right).
  assert (Hone : forall m n, Forall (fun s : files * files => guarantee s.1 s.2) [(m, <[Clean name := n]> m)])
    by (intros m n; apply Forall_singleton; eapply own_step; [exact Ho|]; intros q Hq; by apply lookup_insert_ne).
  apply hwp_bind, hwp_map_err, hwp_syscall; [done|intros t e _; apply settled_err; [by kept|done]|].
  intros u t r m' Ht _ E. rewrite (Hstay _ _ _ Ht HF) in E. injection E as <- <-. set (m0 := t_others t F) in *.
  assert (H0 : <[Clean name := NFile 384 ""]> m0 !! Clean name = Some (NFile 384 "")) by apply lookup_insert_eq. revert H0.
  generalize (Hone m0 (NFile 384 "")). generalize (<[Clean name := NFile 384 ""]> m0) as F1. intros F1 L1 H1.
  eapply hwp_mono; [|intros r F' l; by apply settled_app]. clear L1 m0 HF F.
  apply hwp_bind, hwp_map_err, hwp_call; [done|]. intros u' t' r m' Ht' E. unfold append_to in E. rewrite (Hstay _ _ _ Ht' H1) in E.
  destruct (t_fault t') as [e|]; injection E as <- <-; [by apply settled_err|]. cbn [String.append]. set (m0 := t_others t' F1) in *.
  set (n := NFile 384 (value +:+ line_feed)). assert (H0 : <[Clean name := n]> m0 !! Clean name = Some n) by apply lookup_insert_eq. revert H0.
  generalize (Hone m0 n). generalize (<[Clean name := n]> m0) as F2. intros F2 L2 H2.
  eapply hwp_mono; [|intros r F' l; by apply settled_app]. clear L2 m0 H1 F1.
  eapply hwp_own_look; [done|exact H2|done|]. clear F2 H2. intros F2 _ H2. eapply hwp_own_look; [done|exact H2|done|]. clear F2 H2. intros F2 _ H2.
  apply hwp_bind, hwp_attempt, hwp_call; [done|]. intros u2 t2 r m' Ht2 E. pose proof (Hstay _ _ _ Ht2 H2) as H3. destruct Ht2 as (_ & _ & Hf). rewrite H3 in E.
  destruct (t_fault t2) as [e|]; [destruct (Hf e eq_refl) as [He _]; injection E as <- <-; rewrite He; apply hwp_throw; apply settled_err; [by kept|done]|].
  case_bool_decide as Hp; [injection E as <- <-; destruct Hp as [np Hp]; cbn [errors_Is]; eapply hwp_mono; [by eapply present_settles|];
    intros r F' l; apply (settled_app _ _ [_]); by kept|].
  destruct (negb _); injection E as <- <-; [apply hwp_throw, settled_err; [by kept|done]|]. apply eq_None_not_Some in Hp.
  apply hwp_ret. rewrite app_nil_r. split; [apply Forall_singleton; split; [intros q x Hq Ex; cbn in *; rewrite lookup_insert_ne; [done|congruence]|]|].
  { right. cbn [fst snd]. split; [done|]. exists value. split; [by rewrite lookup_insert_eq|done]. }
  split; [|done]. intros v [= <-]. exists 384, (value +:+ line_feed). split; [by rewrite lookup_insert_eq|done].
Qed.

Lemma settled_step {A} (Q : A -> Prop) g (m : OS A) (k : A -> OS string) F : (forall e, g e <> out_of_rounds) ->
  hwp rely m F (fun r _ l => Forall (fun s => guarantee s.1 s.2) l /\ forall a, r = Ok a -> Q a) ->
  (forall a F', Q a -> hwp rely (k a) F' settled_on) -> hwp rely (mbind k (map_err g m)) F settled_on.
Proof.
  intros Hg Hm Hk. apply hwp_bind, hwp_map_err. eapply hwp_mono; [exact Hm|]. intros [a|e] F1 l1 [L1 Hr]; [|by apply settled_err].
  eapply hwp_mono; [by apply Hk, Hr|]. intros r F' l. by apply settled_app.
Qed.

Lemma mkdir_keeps F : hwp rely (MkdirAll (Dir path)) F (fun r _ l => Forall (fun s => guarantee s.1 s.2) l /\ forall a, r = Ok a -> True).
Proof.
  apply hwp_syscall; [done|intros t e _; split; [by kept|done]|]. intros u t r m' _ _ E. split; [|done].
  apply Forall_singleton. split; [intros q n _; by apply (make_dirs_keeps _ _ _ _ E)|]. left. by eapply make_dirs_only.
Qed.

Lemma random_bytes size F : 0 < size -> hwp rely (read_full size) F (fun r _ l => Forall (fun s => guarantee s.1 s.2) l /\ forall a, r = Ok a -> bytes_of a <> []).
Proof.
  intros Hs. apply hwp_syscall; [done|intros t e _; split; [by kept|done]|]. intros u t r m' _ _ [= E <-].
  split; [by kept|]. intros a ->. destruct (t_random t) as [|x l]; [done|]. destruct (slen x =? size) eqn:Ex; [|done].
  injection E as ->. apply Z.eqb_eq in Ex. destruct a; [change (slen "") with 0 in Ex; lia|done].
Qed.

(** The temporary file is this process's own, and goes away again. *)
Lemma with_own_temp g (k : string -> OS string) F : (forall e, g e <> out_of_rounds) ->
  (forall name F' perm, own_temp (Clean name) -> F' !! Clean name = Some (NFile perm "") -> hwp rely (k name) F' settled_on) ->
  hwp rely (name ← map_err g (CreateTemp (Dir path) ".server-identity-"); deferring (Remove name) (k name)) F settled_on.
Proof.
  intros Hg Hk. apply hwp_bind, hwp_map_err, hwp_syscall; [done|intros t0 e0 _; apply settled_err; [by kept|done]|].
  intros u t r F2 (Hm & _ & _) _ E. destruct (negb _); [injection E as <- <-; apply settled_err; [by kept|done]|].
  destruct (List.find _ _) as [rnd|] eqn:Ef; injection E as <- <-; [|apply settled_err; [by kept|done]].
  apply List.find_some in Ef as [Hin _]. rewrite List.Forall_forall in Hm. set (name := temp_name _ _ rnd) in *.
  assert (Ho : own_temp (Clean name)) by (exists rnd; split; [by apply Hm|done]).
  eapply (hwp_mono _ _ _ settled_on); [|intros r F' l; apply (settled_app _ _ [_]), Forall_singleton; eapply own_step; [exact Ho|]; intros q Hq; by apply lookup_insert_ne].
  apply hwp_deferring. eapply hwp_mono; [eapply Hk; [exact Ho|apply lookup_insert_eq]|]. intros r F3 l3 (L3 & Hv & Hr).
  apply hwp_syscall; [done| |].
  - intros t1 e (_ & Hkeep & _). split; [apply Forall_app; by kept|]. split; [|done].
    intros v Ev. destruct (Hv v Ev) as (perm & data & Hp & Hperm & Hval). exists perm, data. split; [apply Hkeep; [by left|done]|done].
  - intros u1 t1 r1 m' (_ & Hkeep & _) _ E. assert (Hm' : touches (eq (Clean name)) (t_others t1 F3) m').
    { intros q Hq. destruct (_ !! Clean name); injection E as _ <-; [by apply lookup_delete_ne|done]. }
    split; [apply Forall_app; split; [done|]; apply Forall_singleton; by eapply own_step|]. split; [|done].
    intros v Ev. destruct (Hv v Ev) as (perm & data & Hp & Hperm & Hval). exists perm, data. split; [|done].
    rewrite (Hm' P); [apply Hkeep; [by left|done]|]. intros Eq. apply Hpath. by rewrite <- Eq.
Qed.

Lemma load_settles rounds F : hwp rely (loadOrCreateIdentityFile (S (S rounds)) path) F settled_on.
Proof.
  remember (S rounds) as again eqn:Ea. cbn [loadOrCreateIdentityFile]. rewrite Ea. clear again Ea.
  apply hwp_bind, hwp_attempt, hwp_call; [done|]. intros u t r m' Ht E.
  assert (E1 : m' = t_others t F) by (destruct (t_fault t); by injection E as _ <-). subst m'.
  eapply (hwp_mono _ _ _ settled_on); [|intros r2 F2 l2; apply (settled_app _ _ [_]); by kept].
  destruct r as [info|e]; [apply read_settles; destruct (t_fault t); [done|]; injection E as E; by destruct (t_others t F !! P); [injection E as ->|]|].
  apply hwp_bind, hwp_guard; [intros _; by apply settled_err|]. intros _.
  apply (settled_step (fun _ => True)); [done|apply mkdir_keeps|]. intros [] F1 _.
  apply (settled_step (fun a => bytes_of a <> [])); [done|by apply random_bytes|]. intros bytes F2 Hb.
  apply with_own_temp; [done|]. intros name F3 perm Ho H3. eapply (publish_settles rounds); [done|exact H3|by apply hex_identity].
Qed.
End together.


(** A server that is overtaken between looking for the file and publishing its own. *)
Definition overtaking : files -> files := fun m => match m !! "id" with None => <["id" := NFile 384 ("first" +:+ line_feed)]> m | Some _ => m end.
Definition overtaken : host :=
  Host ∅ [quiet_turn; quiet_turn; Turn (fun m => m) [] ["0123456789abcdef0123456789abcdef"] None 0; Turn (fun m => m) [7] [] None 0;
          quiet_turn; quiet_turn; quiet_turn; quiet_turn; Turn overtaking [] [] None 0] 18 [].

Lemma overtaking_kept mine t : mine = eq 7 -> Forall mine (t_names t) -> t_fault t = None -> t_others t = (fun m => m) \/ t_others t = overtaking -> rely "id" mine t.
Proof.
  intros -> Hn Hf Ho. split; [done|]. split; [|by rewrite Hf]. intros m q n Hq E. destruct Ho as [->| ->]; [done|]. unfold overtaking.
  destruct (m !! "id") eqn:Ei; [done|]. rewrite lookup_insert_ne; [done|]. intros <-. congruence.
Qed.

