(* ===== verification/AuditLog.v ===== *)
(** * Interceptors of the server
    (internal/server/audit.go, logging.go, the chain built in server.go)

    A call passes logging, authentication and audit before its handler.  The handler is
    any computation on the server's state that may use the caller and the request id of
    its context; the sink of the audit is any computation on a state of its own.  The YAML
    decoder that finds the name in a deployment is a parameter. *)

From S2P Require Import Prelude GoStrings Regexp Sha256 GoJson GoTime Appconfig Db DbRepos Security NodeRegistry NodeService.
From Stdlib Require Import Ascii String.
Local Open Scope Z_scope.

(** The requests with a target, with the fields of their messages. *)
Inductive request :=
| DeployAppRequest (deployer_yaml : string) (report_withdrawal : bool) (request_id : string)
| DeleteAppRequest (name : string)
| CreateJoinTokenRequest_ (node_name : string) (labels : gmap string string) (ttl_seconds : Z)
| DrainNodeRequest (node_ref : string)
| UncordonNodeRequest (node_ref : string)
| RemoveNodeRequest (node_ref : string)
| PurgeNodeRequest (node_ref : string)
| RenameNodeRequest (node_ref new_name : string)
| SetSecretRequest (app_name name value : string)
| DeleteSecretRequest (app_name name : string)
| CreateRegistryCredentialRequest (app_name revision registry username password : string)
| CreateEnvironmentBundleRequest (app_name revision : string) (values : gmap string string)
| OtherRequest.

Record MutationAuditRecord := MkAudit {
  Audit_Timestamp : Z; Audit_CorrelationID : string; Audit_TokenID : string; Audit_CallerKind : CallerKind; Audit_NodeID : string;
  Audit_Method : string; Audit_Target : gmap string string; Audit_Outcome : option code }.

(** [status.Code]; [None] is [codes.Unknown]. *)
Fixpoint error_code (e : error) : option code :=
  match e with
  | ErrStatus c _ => Some c
  | ErrWrap _ _ inner => error_code inner
  | ErrJoin a b => match error_code a with Some c => Some c | None => error_code b end
  | _ => None
  end.
Definition status_Code {A} (r : result A) : option code := match r with Ok _ => Some OK | Err e => error_code e end.

Definition isMutationMethod (m : string) : bool :=
  existsb (String.eqb m)
    ["/deployer.v1.AppService/DeployApp"; "/deployer.v1.AppService/DeleteApp"; "/deployer.v1.NodeService/CreateJoinToken";
     "/deployer.v1.NodeService/DrainNode"; "/deployer.v1.NodeService/UncordonNode"; "/deployer.v1.NodeService/RemoveNode";
     "/deployer.v1.NodeService/PurgeNode"; "/deployer.v1.NodeService/RenameNode"; "/deployer.v1.SecretService/SetSecret";
     "/deployer.v1.SecretService/DeleteSecret"; "/deployer.v1.RegistryCredentialService/CreateRegistryCredential";
     "/deployer.v1.EnvironmentService/CreateEnvironmentBundle"].

Definition auditIdentifierPattern : regex :=
  RSeq (cls [(65, 90); (97, 122); (48, 57)]) (RUpTo 127 (cls [(65, 90); (97, 122); (48, 57); (46, 46); (95, 95); (58, 58); (47, 47); (45, 45)])).

Definition put (key value : string) (target : gmap string string) : gmap string string :=
  let value := TrimSpace value in if re_match auditIdentifierPattern value then <[key := value]> target else target.

Section target.
Context (yaml_name : string -> option string).

(** An empty target is logged as none. *)
Definition mutationTarget (method : string) (req : request) : gmap string string :=
  match req with
  | CreateRegistryCredentialRequest app revision registry _ _ =>
      if String.eqb method "/deployer.v1.RegistryCredentialService/CreateRegistryCredential" then
        let target := put "revision" revision (put "app" app ∅) in
        if String.eqb registry "docker.io" || String.eqb registry "ghcr.io" then put "registry" registry target else target
      else ∅
  | CreateEnvironmentBundleRequest app revision _ =>
      if String.eqb method "/deployer.v1.EnvironmentService/CreateEnvironmentBundle" then put "revision" revision (put "app" app ∅) else ∅
  | DeployAppRequest yaml _ request_id =>
      if String.eqb method "/deployer.v1.AppService/DeployApp" then
        put "request_id" request_id (match yaml_name yaml with Some name => put "app" name ∅ | None => ∅ end)
      else ∅
  | DeleteAppRequest name => if String.eqb method "/deployer.v1.AppService/DeleteApp" then put "app" name ∅ else ∅
  | CreateJoinTokenRequest_ node _ _ => if String.eqb method "/deployer.v1.NodeService/CreateJoinToken" then put "node" node ∅ else ∅
  | DrainNodeRequest node => if String.eqb method "/deployer.v1.NodeService/DrainNode" then put "node" node ∅ else ∅
  | UncordonNodeRequest node => if String.eqb method "/deployer.v1.NodeService/UncordonNode" then put "node" node ∅ else ∅
  | RemoveNodeRequest node => if String.eqb method "/deployer.v1.NodeService/RemoveNode" then put "node" node ∅ else ∅
  | PurgeNodeRequest node => if String.eqb method "/deployer.v1.NodeService/PurgeNode" then put "node" node ∅ else ∅
  | RenameNodeRequest node new_name => if String.eqb method "/deployer.v1.NodeService/RenameNode" then put "new_name" new_name (put "node" node ∅) else ∅
  | SetSecretRequest app name _ => if String.eqb method "/deployer.v1.SecretService/SetSecret" then put "secret" name (put "app" app ∅) else ∅
  | DeleteSecretRequest app name => if String.eqb method "/deployer.v1.SecretService/DeleteSecret" then put "secret" name (put "app" app ∅) else ∅
  | OtherRequest => ∅
  end.
End target.

Definition splitMethod (fullMethod : string) : string * string :=
  let trimmed := TrimPrefix fullMethod "/" in
  match Cut trimmed "/" with (service, method, true) => (service, method) | _ => (trimmed, "") end.

(** ** The chain *)

Class MutationAuditSink (D : Type) := RecordMutation : MutationAuditRecord -> D -> result unit * D.

(** A line of the request log: service, method and status. *)
Definition request_line : Type := string * string * option code.

Record gateway (K D : Type) := MkGateway { gw_nodes : nodes_world K; gw_sink : D; gw_log : list request_line; gw_headers : list (string * string) }.
Arguments MkGateway {K D}. Arguments gw_nodes {K D}. Arguments gw_sink {K D}. Arguments gw_log {K D}. Arguments gw_headers {K D}.

Section chain.
Context {K D : Type} `{!MutationAuditSink D} (yaml_name : string -> option string) (hashKey : list Z).
Notation W := (ST (gateway K D)).
Notation N := (ST (nodes_world K)).

Definition on_nodes {A} (m : N A) : W A := fun g =>
  let '(r, w) := m (gw_nodes g) in (r, MkGateway w (gw_sink g) (gw_log g) (gw_headers g)).
Definition set_header (key value : string) : W unit := fun g => (Ok tt, MkGateway (gw_nodes g) (gw_sink g) (gw_log g) (gw_headers g ++ [(key, value)])%list).
Definition record_mutation (record : MutationAuditRecord) : W unit := fun g =>
  let '(r, d) := RecordMutation record (gw_sink g) in (r, MkGateway (gw_nodes g) d (gw_log g) (gw_headers g)).

(** [newMutationAuditInterceptor]: the caller and the request id are the values the
    context holds for the handler. *)
Definition audit_interceptor {A} (now : Z) (correlationID method : string) (req : request) (handler : option Caller -> option string -> W A)
    (caller : option Caller) : W A :=
  if negb (isMutationMethod method) then handler caller None
  else match caller with
       | None => handler caller None
       | Some c =>
           _ ← attempt (set_header "x-request-id" correlationID);
           resp ← attempt (handler caller (Some correlationID));
           _ ← attempt (record_mutation (MkAudit now correlationID (Caller_TokenID c) (Caller_Kind c) (Caller_NodeID c) method
                          (mutationTarget yaml_name method req) (status_Code resp)));
           lift resp
       end.

(** [Authenticator.UnaryInterceptor] *)
Definition auth_interceptor {A} (authorization : list string) (method : string) (now : Z) (next : option Caller -> W A) : W A :=
  if isPublicMethod method then next None else caller ← on_nodes (authenticate hashKey authorization method now); next (Some caller).

Definition UnaryLoggingInterceptor {A} (method : string) (handler : W A) : W A := fun g =>
  let '(r, g') := handler g in
  let '(service, name) := splitMethod method in
  (r, MkGateway (gw_nodes g') (gw_sink g') (gw_log g' ++ [(service, name, status_Code r)])%list (gw_headers g')).

Definition unary_chain {A} (authorization : list string) (method : string) (req : request) (now : Z) (correlationID : string)
    (handler : option Caller -> option string -> N A) : W A :=
  UnaryLoggingInterceptor method
    (auth_interceptor authorization method now (audit_interceptor now correlationID method req (fun c id => on_nodes (handler c id)))).
End chain.

(** ** What is recorded *)

(** A request without what may be confidential: values of secrets and bundles, registry
    accounts, and of a configuration everything but the name. *)
Definition disclosed (req : request) (yaml : string) : request :=
  match req with
  | DeployAppRequest text report id => DeployAppRequest yaml report id
  | SetSecretRequest app name _ => SetSecretRequest app name ""
  | CreateRegistryCredentialRequest app revision registry _ _ => CreateRegistryCredentialRequest app revision registry "" ""
  | CreateEnvironmentBundleRequest app revision _ => CreateEnvironmentBundleRequest app revision ∅
  | CreateJoinTokenRequest_ node _ _ => CreateJoinTokenRequest_ node ∅ 0
  | _ => req
  end.

Definition same_name (yaml_name : string -> option string) (req : request) (yaml : string) : Prop :=
  match req with DeployAppRequest text _ _ => yaml_name yaml = yaml_name text | _ => True end.

Definition identifiers (target : gmap string string) : Prop :=
  forall key v, target !! key = Some v -> re_match auditIdentifierPattern v = true.

Lemma put_identifiers key value target : identifiers target -> identifiers (put key value target).
Proof.
  intros Ht k v. unfold put. destruct (re_match _ _) eqn:Em; [|by apply Ht].
  intros [[<- <-]|[_ Hv]]%lookup_insert_Some; [done|by apply (Ht k)].
Qed.

Lemma no_identifiers : identifiers ∅.
Proof. intros k v. by rewrite lookup_empty. Qed.

Lemma target_identifiers yaml_name method req : identifiers (mutationTarget yaml_name method req).
Proof. unfold mutationTarget. repeat case_match; auto using put_identifiers, no_identifiers. Qed.

Lemma target_disclosed yaml_name method req yaml : same_name yaml_name req yaml ->
  mutationTarget yaml_name method (disclosed req yaml) = mutationTarget yaml_name method req.
Proof. destruct req; try done. intros E. cbn in E |- *. by rewrite E. Qed.

Lemma mutation_not_public m : isMutationMethod m = true -> isPublicMethod m = false.
Proof.
  unfold isMutationMethod. rewrite existsb_exists. intros (x & Hx & ->%String.eqb_eq). cbn [In] in Hx.
  repeat (destruct Hx as [<-|Hx]; [done|]). done.
Qed.

Section faithful.
Context {K D : Type} `{!MutationAuditSink D} (yaml_name : string -> option string) (hashKey : list Z).

(** A request names a target only under its own method, and all these methods are audited. *)
Lemma targets_audited method req : mutationTarget yaml_name method req <> ∅ -> isMutationMethod method = true.
Proof.
  intros Ht. unfold isMutationMethod, mutationTarget in *. apply existsb_exists. exists method. rewrite String.eqb_refl. split; [|done].
  destruct req; try done; match type of Ht with context [String.eqb method ?m] => destruct (String.eqb_spec method m) as [->|_]; [|done] end; by vm_compute; auto 20.
Qed.

(** C27: the interceptors record and do not interfere.  For every handler and every sink,
    failing ones included: the reply and the server's state are those of the
    authenticated handler alone; an authenticated call of one of the methods that
    [isMutationMethod] lists gives exactly one audit record, with its caller, its method
    and the status of its reply, and no other call gives any; every method whose request
    names a target is listed (advancing, recovering and withdrawing a pending deployment
    request are not, see [requests_not_audited]); every call gives one line of the request
    log with its status; the recorded target holds only short identifiers and is the same
    whatever the values, passwords and configurations in the request are. *)
Theorem audit_faithful {A} authorization method req now id (handler : option Caller -> option string -> ST (nodes_world K) A) (g : gateway K D) :
  let '(r, g') := unary_chain yaml_name hashKey authorization method req now id handler g in
  intercept hashKey authorization method now (fun c => handler c (if isMutationMethod method then _ ← c; Some id else None)) (gw_nodes g) = (r, gw_nodes g') /\
  gw_sink g' = match isMutationMethod method, (authenticate hashKey authorization method now (gw_nodes g)).1 with
               | true, Ok c => (RecordMutation (MkAudit now id (Caller_TokenID c) (Caller_Kind c) (Caller_NodeID c) method
                                  (mutationTarget yaml_name method req) (status_Code r)) (gw_sink g)).2
               | _, _ => gw_sink g
               end /\
  gw_log g' = (gw_log g ++ [((splitMethod method).1, (splitMethod method).2, status_Code r)])%list /\
  (mutationTarget yaml_name method req <> ∅ -> isMutationMethod method = true) /\
  identifiers (mutationTarget yaml_name method req) /\
  (forall yaml, same_name yaml_name req yaml -> mutationTarget yaml_name method (disclosed req yaml) = mutationTarget yaml_name method req).
Proof.
  unfold unary_chain, UnaryLoggingInterceptor, auth_interceptor, intercept. destruct (splitMethod method) as [service name].
  assert (Hlast : (mutationTarget yaml_name method req <> ∅ -> isMutationMethod method = true) /\ identifiers (mutationTarget yaml_name method req) /\
    forall yaml, same_name yaml_name req yaml -> mutationTarget yaml_name method (disclosed req yaml) = mutationTarget yaml_name method req)
    by (split; [apply targets_audited|split; [apply target_identifiers|intros yaml; apply target_disclosed]]).
  destruct (isMutationMethod method) eqn:Em.
  - rewrite (mutation_not_public _ Em). unfold audit_interceptor, on_nodes, record_mutation, set_header, attempt, mbind, st_bind, lift. rewrite Em. cbn [negb].
    destruct (authenticate _ _ _ _ (gw_nodes g)) as [[c|e] w] eqn:Ea; cbn [gw_nodes gw_sink gw_log fst]; [|done].
    destruct (handler (Some c) (Some id) w) as [r w'] eqn:Eh. cbn [gw_nodes gw_sink gw_log]. destruct (RecordMutation _ (gw_sink g)) as [r1 d] eqn:Er.
    cbn [gw_nodes gw_sink gw_log gw_headers]. split; [exact Eh|]. split; [by rewrite Er|done].
  - unfold audit_interceptor. rewrite Em. cbn [negb]. unfold on_nodes. destruct (isPublicMethod method).
    + destruct (handler None None (gw_nodes g)) as [r w']. done.
    + unfold mbind, st_bind. destruct (authenticate _ _ _ _ (gw_nodes g)) as [[c|e] w]; cbn [gw_nodes gw_sink gw_log]; [|done].
      destruct (handler (Some c) None w) as [r w']. done.
Qed.
End faithful.

(** The operations on a pending deployment request are not audited. *)
Example requests_not_audited : isMutationMethod "/deployer.v1.AppService/AdvanceDeployRequest" = false /\
  isMutationMethod "/deployer.v1.AppService/RecoverDeployRequest" = false /\ isMutationMethod "/deployer.v1.AppService/WithdrawDeployRequest" = false.
Proof. done. Qed.

(** ** A run: an administrator deletes an app and the sink fails *)

Section run.
Definition full_sink : MutationAuditSink (list MutationAuditRecord) := fun record kept => (Err (ErrSentinel "disk full"), (kept ++ [record])%list).
#[local] Existing Instance full_sink.

Definition audit_key : list Z := bytes_of "0123456789abcdef0123456789abcdef".
Definition with_admin : nodes_world unit := (BootstrapAdminToken audit_key "ops" second (Some (repeat 1 32)) (MkNodes (MkRegistry ∅ ∅ ∅ ∅) [] tt)).2.
Definition idle : gateway unit (list MutationAuditRecord) := MkGateway with_admin [] [] [].
Definition admin_header : list string := ["Bearer " +:+ AdminTokenPrefix +:+ "_" +:+ RawURL_EncodeToString (repeat 1 32)].
Definition deletion : result unit * gateway unit (list MutationAuditRecord) :=
  unary_chain (fun _ => None) audit_key admin_header "/deployer.v1.AppService/DeleteApp" (DeleteAppRequest "shop") second "request-1" (fun _ _ => mret tt) idle.

Lemma deletion_recorded : (is_ok deletion.1 && (List.length (gw_sink deletion.2) =? 1)%nat) = true.
Proof. vm_compute. reflexivity. Qed.

Lemma audit_faithful_witness : exists g', deletion = (Ok tt, g') /\ List.length (gw_sink g') = 1%nat /\
  gw_log g' = [("deployer.v1.AppService", "DeleteApp", Some OK)] /\
  mutationTarget (fun _ => None) "/deployer.v1.AppService/DeleteApp" (disclosed (DeleteAppRequest "shop") "") = {["app" := "shop"]}.
Proof.
  pose proof deletion_recorded as Hd.
  pose proof (audit_faithful (fun _ => None) audit_key admin_header "/deployer.v1.AppService/DeleteApp" (DeleteAppRequest "shop") second "request-1" (fun _ _ => mret tt) idle) as Ha.
  unfold deletion in *. destruct (unary_chain _ _ _ _ _ _ _ _ _) as [[[]|e] g']; [|discriminate Hd]. destruct Ha as (_ & _ & Hl & _ & _ & Hy).
  exists g'. split; [reflexivity|]. split; [apply Nat.eqb_eq; exact Hd|]. split; [exact Hl|].
  rewrite (Hy "" I). vm_compute. reflexivity.
Defined.
End run.
