(* ===== verification/K3s.v ===== *)
(** * Installation of k3s (internal/k3s/bootstrap.go, worker.go)

    The file system is the one of [HostFs]; the process, the network and the commands it
    runs are the interfaces the source declares for them.  Every command is kept together
    with the files that were there when it was run.  The YAML encoder and the URL parser
    are parameters.  The partial result that accompanies an error is not used by any caller
    and is left out. *)

From S2P Require Import Prelude GoStrings Regexp GoJson GoNet Wireguard Appconfig Db NodeRegistry HostFs Hub ServerConfig.
From Stdlib Require Import Ascii String.
Local Open Scope Z_scope.

Definition DefaultConfigPath : string := "/etc/rancher/k3s/config.yaml".
Definition DefaultKubeconfigPath : string := "/etc/rancher/k3s/k3s.yaml".
Definition DefaultInstallerURL : string := "https://get.k3s.io".
Definition DefaultFlannelIface : string := "wg0".
Definition kubernetesAPIPort : string := "6443".
Definition maxInstallerBytes : Z := 4 * 2 ^ 20.
Definition DefaultNodeTokenPath : string := "/var/lib/rancher/k3s/server/node-token".

(** [net.ParseIP] takes no zone; [net.JoinHostPort] brackets an IPv6 host. *)
Definition valid_ip (s : string) : bool :=
  match ParseAddr s with Some (IP4 _) => true | Some (IP6 _ zone) => String.eqb zone "" | None => false end.
Definition JoinHostPort (host port : string) : string :=
  if contains_byte host ":"%char || contains_byte host "%"%char then "[" +:+ host +:+ "]:" +:+ port else host +:+ ":" +:+ port.

Record K3sConfig := MkK3sConfig {
  K3s_WireGuardIP : string; K3s_ConfigPath : string; K3s_KubeconfigPath : string; K3s_InstallerURL : string; K3s_FlannelInterface : string; K3s_Force : bool }.
Record K3sResult := MkK3sResult { K3sR_ConfigPath : string; K3sR_KubeconfigPath : string; K3sR_WireGuardIP : string; K3sR_ExistingInstall : bool }.

Definition K3sConfig_WithDefaults (c : K3sConfig) : K3sConfig :=
  MkK3sConfig (K3s_WireGuardIP c) (or_text (K3s_ConfigPath c) DefaultConfigPath) (or_text (K3s_KubeconfigPath c) DefaultKubeconfigPath)
    (or_text (K3s_InstallerURL c) DefaultInstallerURL) (or_text (K3s_FlannelInterface c) DefaultFlannelIface) (K3s_Force c).

Definition K3sConfig_Validate (c : K3sConfig) : result unit :=
  errors_Join (
    (failing (negb (valid_ip (TrimSpace (K3s_WireGuardIP c)))) "DEPLOYER_K3S_WIREGUARD_IP must be a valid IP address" ++
     failing (blank (K3s_ConfigPath c)) "DEPLOYER_K3S_CONFIG_PATH is required" ++
     failing (blank (K3s_KubeconfigPath c)) "DEPLOYER_KUBECONFIG is required" ++
     failing (blank (K3s_InstallerURL c)) "DEPLOYER_K3S_INSTALLER_URL is required" ++
     failing (blank (K3s_FlannelInterface c)) "k3s flannel interface is required")%list).

(** ** The machine *)

Record command := MkCommand { cmd_name : string; cmd_args : list string; cmd_env : list string; cmd_stdin : string }.

Inductive yaml := YStr (s : string) | YList (l : list string).

(** The interfaces [Runtime], [CommandRunner], [HTTPDoer] and [PortChecker]. *)
Class Machine (E : Type) := {
  GOOS : string;
  EUID : Z;
  LookPath : string -> E -> result string * E;
  Command_Run : command -> E -> result unit * E;
  HTTP_Get : string -> E -> result (Z * string * result string) * E;  (* status, status line, body *)
  Port_Check : string -> string -> E -> result unit * E;
  http_request_ok : string -> result unit;
  yaml_Marshal : list (string * yaml) -> result string;
  url_SchemeHost : string -> option (string * string)
}.

Record machine (E : Type) := MkMachine { mc_host : host; mc_env : E; mc_ran : list (command * files) }.
Arguments MkMachine {E}. Arguments mc_host {E}. Arguments mc_env {E}. Arguments mc_ran {E}.

Section k3s.
Context {E : Type} `{!Machine E}.
Notation M := (ST (machine E)).

Definition on_files {A} (m : OS A) : M A := fun s => let '(r, h) := m (mc_host s) in (r, MkMachine h (mc_env s) (mc_ran s)).
Definition on_env {A} (f : E -> result A * E) : M A := fun s => let '(r, e) := f (mc_env s) in (r, MkMachine (mc_host s) e (mc_ran s)).
Definition run_command (c : command) : M unit := fun s =>
  let '(r, e) := Command_Run c (mc_env s) in (r, MkMachine (mc_host s) e (mc_ran s ++ [(c, h_files (mc_host s))])%list).

Definition ErrCommandNotFound : error := ErrSentinel "executable file not found in $PATH".

Definition validateHost (cfg : K3sConfig) : M unit :=
  _ ← guard (negb (String.eqb GOOS "linux")) (Errorf "k3s bootstrap requires Linux, got %s" [AStr GOOS]);
  _ ← guard (negb (EUID =? 0)) (ErrSentinel "k3s bootstrap must run as root; rerun with sudo or as root");
  map_err (ErrWrap "WireGuard hub IP %s is not configured locally or cannot be bound: %w" [AStr (K3s_WireGuardIP cfg)]) (on_env (Port_Check (K3s_WireGuardIP cfg) "0")).

Definition detectExistingInstall (cfg : K3sConfig) : M (list string) :=
  binary ← attempt (on_env (LookPath "k3s"));
  reasons ← (match binary with
             | Ok path => mret ["k3s binary at " +:+ path]
             | Err e => _ ← guard (negb (errors_Is e ErrCommandNotFound)) (ErrWrap "detect k3s binary: %w" [] e); mret []
             end);
  kubeconfig ← attempt (on_files (Stat (K3s_KubeconfigPath cfg)));
  match kubeconfig with
  | Ok _ => mret (reasons ++ ["kubeconfig at " +:+ K3s_KubeconfigPath cfg])%list
  | Err e => _ ← guard (negb (errors_Is e ErrNotExist)) (ErrWrap "detect kubeconfig: %w" [] e); mret reasons
  end.

(** [serverConfigFile] *)
Definition serverConfigFile (cfg : K3sConfig) : list (string * yaml) :=
  [("bind-address", YStr (K3s_WireGuardIP cfg)); ("advertise-address", YStr (K3s_WireGuardIP cfg)); ("node-ip", YStr (K3s_WireGuardIP cfg));
   ("flannel-iface", YStr (TrimSpace (K3s_FlannelInterface cfg))); ("tls-san", YList [K3s_WireGuardIP cfg]);
   ("write-kubeconfig", YStr (K3s_KubeconfigPath cfg)); ("write-kubeconfig-mode", YStr "0644")].

Definition wrapped {A} (format : string) (r : result A) : result A := match r with Ok a => Ok a | Err e => Err (ErrWrap format [] e) end.

Definition ServerConfigYAML (c : K3sConfig) : result string :=
  let cfg := K3sConfig_WithDefaults c in
  _ ← K3sConfig_Validate cfg; wrapped "encode k3s config: %w" (yaml_Marshal (serverConfigFile cfg)).

Definition writeConfig (cfg : K3sConfig) : M unit :=
  data ← lift (ServerConfigYAML cfg);
  _ ← map_err (ErrWrap "create k3s config directory: %w" []) (on_files (MkdirAll (Dir (K3s_ConfigPath cfg))));
  map_err (ErrWrap "write k3s config: %w" []) (on_files (WriteFile (K3s_ConfigPath cfg) data 384)).

(** The body is read up to one byte more than the limit. *)
Definition downloadInstaller (installerURL : string) : M string :=
  _ ← lift (wrapped "prepare k3s installer request: %w" (http_request_ok installerURL));
  '(status, line, body) ← map_err (ErrWrap "download k3s installer: %w" []) (on_env (HTTP_Get installerURL));
  _ ← guard ((status <? 200) || (300 <=? status)) (Errorf "download k3s installer: unexpected HTTP status %s" [AStr line]);
  script ← lift (wrapped "read k3s installer: %w" body);
  _ ← guard (maxInstallerBytes <? slen script) (Errorf "read k3s installer: response exceeds %d bytes" [AInt maxInstallerBytes]);
  mret script.

Definition Bootstrap (c : K3sConfig) : M K3sResult :=
  let cfg := K3sConfig_WithDefaults c in
  _ ← lift (K3sConfig_Validate cfg);
  _ ← validateHost cfg;
  existingReasons ← detectExistingInstall cfg;
  let existing := negb (bool_decide (existingReasons = [])) in
  _ ← guard (existing && negb (K3s_Force cfg))
        (Errorf "k3s already appears installed (%s); inspect the host or rerun with --force to reapply configuration" [AStr (String.concat ", " existingReasons)]);
  _ ← (if existing then mret tt
       else map_err (ErrWrap "validate k3s API listen address %s: %w" [AStr (JoinHostPort (K3s_WireGuardIP cfg) kubernetesAPIPort)])
              (on_env (Port_Check (K3s_WireGuardIP cfg) kubernetesAPIPort)));
  _ ← writeConfig cfg;
  installerScript ← downloadInstaller (K3s_InstallerURL cfg);
  _ ← map_err (ErrWrap "run k3s installer: %w" [])
        (run_command (MkCommand "/bin/sh" [] ["INSTALL_K3S_EXEC=server --config " +:+ K3s_ConfigPath cfg] installerScript));
  mret (MkK3sResult (K3s_ConfigPath cfg) (K3s_KubeconfigPath cfg) (K3s_WireGuardIP cfg) existing).

(** ** worker.go *)

Definition quote : string := String "034"%char "".
Definition raspberryPiCgroupHint : string :=
  "memory cgroup is not enabled; on Raspberry Pi add " +:+ quote +:+ "cgroup_memory=1 cgroup_enable=memory" +:+ quote +:+ " to /boot/firmware/cmdline.txt and reboot before rerunning deployer-agent join-k3s".

(** [WorkerJoinProvider.WorkerJoinMaterial], for a context that is not done. *)
Definition WorkerJoinMaterial (nodeTokenPath wireGuardIP : string) : M (string * string) :=
  _ ← guard (negb (valid_ip (TrimSpace wireGuardIP))) (ErrSentinel "k3s WireGuard hub IP is not configured");
  token ← map_err (ErrWrap "read k3s worker token: %w" []) (on_files (ReadFile (or_text (TrimSpace nodeTokenPath) DefaultNodeTokenPath)));
  _ ← guard (blank token) (ErrSentinel "k3s worker token is empty");
  mret ("https://" +:+ JoinHostPort (TrimSpace wireGuardIP) kubernetesAPIPort, TrimSpace token).

Record WorkerConfig := MkWorkerConfig {
  Worker_ServerURL : string; Worker_Token : string; Worker_NodeName : string; Worker_NodeIP : string; Worker_ConfigPath : string;
  Worker_InstallerURL : string; Worker_FlannelInterface : string }.

Definition WorkerConfig_WithDefaults (c : WorkerConfig) : WorkerConfig :=
  MkWorkerConfig (Worker_ServerURL c) (Worker_Token c) (Worker_NodeName c) (Worker_NodeIP c) (or_text (Worker_ConfigPath c) DefaultConfigPath)
    (or_text (Worker_InstallerURL c) DefaultInstallerURL) (or_text (Worker_FlannelInterface c) DefaultFlannelIface).

Definition WorkerConfig_Validate (c : WorkerConfig) : result unit :=
  errors_Join (
    (failing (match url_SchemeHost (TrimSpace (Worker_ServerURL c)) with
              | Some (scheme, host) => negb (String.eqb scheme "https") || String.eqb host ""
              | None => true
              end) "k3s worker server URL must be a valid https URL" ++
     failing (blank (Worker_Token c)) "k3s worker token is required" ++
     failing (blank (Worker_NodeName c)) "k3s worker node name is required" ++
     failing (negb (valid_ip (TrimSpace (Worker_NodeIP c)))) "k3s worker node IP must be a valid IP address" ++
     failing (blank (Worker_FlannelInterface c)) "k3s worker flannel interface is required")%list).

(** [workerConfigFile] *)
Definition workerConfigFile (cfg : WorkerConfig) : list (string * yaml) :=
  [("server", YStr (Worker_ServerURL cfg)); ("token", YStr (Worker_Token cfg)); ("node-name", YStr (Worker_NodeName cfg)); ("node-ip", YStr (Worker_NodeIP cfg));
   ("flannel-iface", YStr (TrimSpace (Worker_FlannelInterface cfg)))].

Definition WorkerConfigYAML (c : WorkerConfig) : result string :=
  let cfg := WorkerConfig_WithDefaults c in
  _ ← WorkerConfig_Validate cfg; wrapped "encode k3s worker config: %w" (yaml_Marshal (workerConfigFile cfg)).

Definition validateMemoryCgroup : M unit :=
  controllers ← attempt (on_files (ReadFile "/sys/fs/cgroup/cgroup.controllers"));
  match controllers with
  | Ok text => guard (negb (existsb (String.eqb "memory") (Fields text))) (ErrSentinel raspberryPiCgroupHint)
  | Err e =>
      _ ← guard (negb (errors_Is e ErrNotExist)) (ErrWrap "inspect cgroup controllers: %w" [] e);
      legacy ← attempt (on_files (Stat "/sys/fs/cgroup/memory"));
      match legacy with
      | Ok _ => mret tt
      | Err e => _ ← guard (negb (errors_Is e ErrNotExist)) (ErrWrap "inspect memory cgroup: %w" [] e); throw (ErrSentinel raspberryPiCgroupHint)
      end
  end.

Definition BootstrapWorker (c : WorkerConfig) : M unit :=
  let cfg := WorkerConfig_WithDefaults c in
  _ ← lift (WorkerConfig_Validate cfg);
  _ ← guard (negb (String.eqb GOOS "linux")) (Errorf "k3s worker bootstrap requires Linux, got %s" [AStr GOOS]);
  _ ← guard (negb (EUID =? 0)) (ErrSentinel "k3s worker bootstrap must run as root; rerun with sudo or as root");
  _ ← validateMemoryCgroup;
  data ← lift (WorkerConfigYAML cfg);
  _ ← map_err (ErrWrap "create k3s worker config directory: %w" []) (on_files (MkdirAll (Dir (Worker_ConfigPath cfg))));
  _ ← map_err (ErrWrap "write k3s worker config: %w" []) (on_files (WriteFile (Worker_ConfigPath cfg) data 384));
  installerScript ← downloadInstaller (Worker_InstallerURL cfg);
  map_err (ErrWrap "run k3s worker installer: %w" [])
    (run_command (MkCommand "/bin/sh" [] ["INSTALL_K3S_EXEC=agent --config " +:+ Worker_ConfigPath cfg; "K3S_URL=" +:+ Worker_ServerURL cfg; "K3S_TOKEN=" +:+ Worker_Token cfg] installerScript)).
End k3s.

(** ** Installation *)

Section installation.
Context {E : Type} `{!Machine E}.
Notation M := (ST (machine E)).

(** Computations that leave a part of the machine alone. *)
Definition fixes {X A} (part : machine E -> X) (m : M A) : Prop := forall s r s', m s = (r, s') -> part s' = part s.
Notation silent := (fixes mc_ran).
Notation hostless := (fixes mc_host).

Section fixes.
Context {X : Type} (part : machine E -> X).

Lemma fixes_lift {A} (r : result A) : fixes part (lift r).
Proof. by intros s r' s' [= _ <-]. Qed.
Lemma fixes_bind {A B} (m : M A) (k : A -> M B) : fixes part m -> (forall a, fixes part (k a)) -> fixes part (mbind k m).
Proof.
  intros Hm Hk s r s' [(e & Hs & ->)|(a & s1 & Hs & Hb)]%st_bind_inv; [by eapply Hm|]. rewrite (Hk _ _ _ _ Hb). by eapply Hm.
Qed.
Lemma fixes_map_err {A} g (m : M A) : fixes part m -> fixes part (map_err g m).
Proof. intros Hm s r s'. unfold map_err. destruct (m s) as [[a|e] s1] eqn:Hs; intros [= _ <-]; by eapply Hm. Qed.
Lemma fixes_attempt {A} (m : M A) : fixes part m -> fixes part (attempt m).
Proof. intros Hm s r s'. unfold attempt. destruct (m s) as [r1 s1] eqn:Hs. intros [= _ <-]. by eapply Hm. Qed.
End fixes.

Lemma silent_files {A} (m : OS A) : silent (on_files m).
Proof. intros s r s'. unfold on_files. destruct (m _). by intros [= _ <-]. Qed.
Lemma silent_env {A} (f : E -> result A * E) : silent (on_env f).
Proof. intros s r s'. unfold on_env. destruct (f _). by intros [= _ <-]. Qed.
Lemma hostless_env {A} (f : E -> result A * E) : hostless (on_env f).
Proof. intros s r s'. unfold on_env. destruct (f _). by intros [= _ <-]. Qed.

Ltac fixing := repeat first
  [ apply fixes_bind; [|intros ?] | apply fixes_map_err | apply fixes_attempt | apply silent_files | apply silent_env | apply hostless_env
  | case_match | apply fixes_lift ].

Lemma silent_validateHost cfg : silent (validateHost cfg).
Proof. unfold validateHost. fixing. Qed.
Lemma hostless_validateHost cfg : hostless (validateHost cfg).
Proof. unfold validateHost. fixing. Qed.
Lemma silent_detect cfg : silent (detectExistingInstall cfg).
Proof. unfold detectExistingInstall. fixing. Qed.
Lemma silent_cgroup : silent validateMemoryCgroup.
Proof. unfold validateMemoryCgroup. fixing. Qed.
Lemma silent_download url : silent (downloadInstaller url).
Proof. unfold downloadInstaller. fixing. Qed.
Lemma hostless_download url : hostless (downloadInstaller url).
Proof. unfold downloadInstaller. fixing. Qed.

(** At most one command, and then with evidence about it, the files it finds and the
    environment it leaves behind. *)
Definition installs {A} (Ev : command -> files -> E -> Prop) (m : M A) (s : machine E) : Prop := forall r s', m s = (r, s') ->
  (mc_ran s' = mc_ran s /\ is_ok r = false) \/ exists c m, mc_ran s' = (mc_ran s ++ [(c, m)])%list /\ Ev c m (mc_env s').

Lemma installs_after {A B} Ev (m : M A) (k : A -> M B) s : silent m -> (forall a s1, m s = (Ok a, s1) -> installs Ev (k a) s1) -> installs Ev (mbind k m) s.
Proof.
  intros Hm Hk r s' [(e & Hs & ->)|(a & s1 & Hs & Hb)]%st_bind_inv; [left; split; [by eapply Hm|done]|].
  rewrite <- (Hm _ _ _ Hs). by apply (Hk a s1 Hs).
Qed.

Lemma installs_run Ev g c s : Ev c (h_files (mc_host s)) (Command_Run c (mc_env s)).2 -> installs Ev (map_err g (run_command c)) s.
Proof.
  intros Hc r s' Hs. right. exists c, (h_files (mc_host s)). unfold run_command, map_err in Hs.
  destruct (Command_Run c (mc_env s)) as [[u|e] e1]; injection Hs as _ <-; by split.
Qed.

Lemma installs_then {A B} Ev (m : M A) (k : A -> M B) s : installs Ev m s -> (forall a, silent (k a) /\ fixes mc_env (k a)) -> installs Ev (mbind k m) s.
Proof.
  intros Hm Hk r s' [(e & Hs & ->)|(a & s1 & Hs & Hb)]%st_bind_inv; [destruct (Hm _ _ Hs) as [[? _]|?]; [by left|by right]|].
  destruct (Hm _ _ Hs) as [[_ [=]]|(c & fs & Hc & He)]. right. exists c, fs. destruct (Hk a) as [Hr Hv].
  rewrite (Hr _ _ _ Hb), (Hv _ _ _ Hb). by split.
Qed.

Lemma on_files_ok {A} (m : OS A) (s s' : machine E) a : on_files m s = (Ok a, s') -> m (mc_host s) = (Ok a, mc_host s').
Proof. unfold on_files. destruct (m (mc_host s)) as [r h]. by intros [= <- <-]. Qed.

Definition absent (m : files) (path : string) : Prop := forall q, resolve m path = Some q -> m !! q = None.

(** No reason means no kubeconfig. *)
Lemma detect_ok cfg (s s' : machine E) reasons : detectExistingInstall cfg s = (Ok reasons, s') -> Forall calm (h_turns (mc_host s)) ->
  Forall calm (h_turns (mc_host s')) /\ (reasons = [] -> absent (h_files (mc_host s)) (K3s_KubeconfigPath cfg)).
Proof.
  intros Ed HT. apply st_bind_ok in Ed as (binary & s1 & E1 & Ed). pose proof (fixes_attempt _ _ (hostless_env _) _ _ _ E1) as H1.
  apply st_bind_ok in Ed as (rs & s2 & E2 & Ed).
  assert (H2 : mc_host s2 = mc_host s1) by (destruct binary; [by injection E2 as _ <-|]; by apply st_bind_ok in E2 as ([] & s3 & [_ ->]%guard_ok & [= _ <-])).
  apply st_bind_ok in Ed as (kubeconfig & s3 & E3 & Ed). unfold attempt, on_files in E3. destruct (Stat _ (mc_host s2)) as [rk h3] eqn:Es. injection E3 as <- <-.
  rewrite H2, H1 in Es. assert (HT3 : Forall calm (h_turns h3)) by (by eapply only_turns; [apply only_stat|exact Es|]).
  destruct rk as [n|e]; [injection Ed as <- <-; split; [done|]; by destruct rs|].
  apply st_bind_ok in Ed as ([] & s4 & [He%negb_false_iff ->]%guard_ok & [= <- <-]). split; [done|]. intros _. exact (stat_missing _ _ _ _ Es HT He).
Qed.

Definition config_at (m : files) (path data : string) : Prop := exists q perm, resolve m path = Some q /\ m !! q = Some (NFile perm data).

(** The script is the body of the answer the URL gave with a status of success, and nothing
    else happened to the environment since. *)
Definition downloaded (url script : string) (now : E) : Prop :=
  exists before status line, HTTP_Get url before = (Ok (status, line, Ok script), now) /\ 200 <= status < 300 /\ slen script <= maxInstallerBytes.

Lemma download_ok url (s s' : machine E) script : downloadInstaller url s = (Ok script, s') -> downloaded url script (mc_env s').
Proof.
  intros (u & s1 & [= _ <-] & Ed)%st_bind_ok. apply st_bind_ok in Ed as ([[status line] body] & s2 & Eg%mapped_ok & Ed).
  apply st_bind_ok in Ed as ([] & s3 & [Hst ->]%guard_ok & Ed). apply st_bind_ok in Ed as (text & s4 & Eb & Ed). injection Eb as Eb <-.
  apply st_bind_ok in Ed as ([] & s5 & [Hl ->]%guard_ok & [= <- <-]). apply Z.ltb_ge in Hl. apply orb_false_iff in Hst as [H1%Z.ltb_ge H2%Z.leb_gt].
  unfold on_env in Eg. destruct (HTTP_Get url (mc_env s)) as [r e] eqn:Eh. injection Eg as -> <-. exists (mc_env s), status, line.
  destruct body as [b|]; [|discriminate Eb]. injection Eb as ->. done.
Qed.

(** A written configuration is there. *)
Lemma written_at path data perm g (s s' : machine E) : Forall calm (h_turns (mc_host s)) ->
  map_err g (on_files (WriteFile path data perm)) s = (Ok tt, s') -> config_at (h_files (mc_host s')) path data.
Proof. intros HT E2%mapped_ok%on_files_ok. destruct (cwp_run _ _ _ _ _ (cwp_WriteFile _ _ _ _) HT E2) as [_ Hw]. by apply Hw. Qed.

Definition calm_host (s : machine E) : Prop := Forall calm (h_turns (mc_host s)).

Lemma calm_files {A} (m : OS A) : only (fun _ _ => True) m -> preserves calm_host (on_files m).
Proof. intros Hm s r s' HT. unfold on_files. destruct (m (mc_host s)) as [r1 h] eqn:Em. intros [= _ <-]. by eapply only_turns. Qed.

Lemma calm_cgroup : preserves calm_host validateMemoryCgroup.
Proof.
  unfold validateMemoryCgroup. apply preserves_bind; [apply preserves_attempt, calm_files; by apply only_observe|]. intros [text|e]; [apply preserves_guard|].
  apply preserves_bind; [apply preserves_guard|intros _]. apply preserves_bind; [apply preserves_attempt, calm_files, only_stat|].
  intros [n|e']; [apply preserves_ret|]. apply preserves_bind; [apply preserves_guard|intros _; apply preserves_throw].
Qed.

Definition server_evidence (c : K3sConfig) (s : machine E) (cmd : command) (m : files) (left : E) : Prop :=
  let cfg := K3sConfig_WithDefaults c in
  exists script data answered, downloaded (K3s_InstallerURL cfg) script answered /\ left = (Command_Run cmd answered).2 /\ cmd = MkCommand "/bin/sh" [] ["INSTALL_K3S_EXEC=server --config " +:+ K3s_ConfigPath cfg] script /\
    ServerConfigYAML cfg = Ok data /\ config_at m (K3s_ConfigPath cfg) data /\ GOOS = "linux" /\ EUID = 0 /\
    (K3s_Force c = false -> absent (h_files (mc_host s)) (K3s_KubeconfigPath cfg)).

Lemma server_installs c (s : machine E) : Forall calm (h_turns (mc_host s)) -> installs (server_evidence c s) (Bootstrap c) s.
Proof.
  intros HT. unfold Bootstrap. set (cfg := K3sConfig_WithDefaults c). apply installs_after; [apply fixes_lift|]. intros [] s1 [= _ <-].
  apply installs_after; [apply silent_validateHost|]. intros [] s2 E2. pose proof (hostless_validateHost _ _ _ _ E2) as H2.
  apply st_bind_ok in E2 as ([] & ? & [Hos%negb_false_iff%String.eqb_eq ->]%guard_ok & E2).
  apply st_bind_ok in E2 as ([] & ? & [Hid%negb_false_iff%Z.eqb_eq ->]%guard_ok & _).
  apply installs_after; [apply silent_detect|]. intros reasons s3 E3. rewrite <- H2 in HT. destruct (detect_ok _ _ _ _ E3 HT) as [HT3 Hno].
  apply installs_after; [apply fixes_lift|]. intros [] s4 [Hforce ->]%guard_ok.
  apply installs_after; [fixing|]. intros [] s5 E5.
  assert (H5 : mc_host s5 = mc_host s3) by (revert E5; case_match; [by intros [= <-]|]; apply (fixes_map_err _ _ _ (hostless_env _))). rewrite <- H5 in HT3.
  apply installs_after; [unfold writeConfig; fixing|]. intros [] s6 E6. apply st_bind_ok in E6 as (data & ? & [= Hd <-] & E6). apply st_bind_ok in E6 as ([] & ? & E6%(preserves_map_err calm_host _ _ (calm_files _ (only_mkdir _)) _ _ _ HT3) & Hw). apply (written_at _ _ _ _ _ _ E6) in Hw.
  apply installs_after; [apply silent_download|]. intros script s7 E7. pose proof (hostless_download _ _ _ _ E7) as H7. apply download_ok in E7.
  apply installs_then; [|intros u; split; apply fixes_lift]. apply installs_run. exists script, data, (mc_env s7). rewrite H7. split; [done|]. split; [done|]. split; [done|]. split; [done|]. split; [done|]. split; [done|]. split; [done|].
  intros Hf. rewrite <- H2. apply Hno. change (K3s_Force cfg) with (K3s_Force c) in Hforce. rewrite Hf, andb_true_r in Hforce.
  by apply negb_false_iff, bool_decide_eq_true in Hforce.
Qed.

Definition worker_evidence (c : WorkerConfig) (cmd : command) (m : files) (left : E) : Prop :=
  let cfg := WorkerConfig_WithDefaults c in
  exists script data answered, downloaded (Worker_InstallerURL cfg) script answered /\ left = (Command_Run cmd answered).2 /\ cmd = MkCommand "/bin/sh" [] ["INSTALL_K3S_EXEC=agent --config " +:+ Worker_ConfigPath cfg; "K3S_URL=" +:+ Worker_ServerURL c; "K3S_TOKEN=" +:+ Worker_Token c] script /\
    WorkerConfigYAML cfg = Ok data /\ config_at m (Worker_ConfigPath cfg) data /\ GOOS = "linux" /\ EUID = 0.

Lemma worker_installs c (s : machine E) : Forall calm (h_turns (mc_host s)) -> installs (worker_evidence c) (BootstrapWorker c) s.
Proof.
  intros HT. unfold BootstrapWorker. set (cfg := WorkerConfig_WithDefaults c). apply installs_after; [apply fixes_lift|]. intros [] s1 [= _ <-].
  apply installs_after; [apply fixes_lift|]. intros [] ? [Hos%negb_false_iff%String.eqb_eq ->]%guard_ok.
  apply installs_after; [apply fixes_lift|]. intros [] ? [Hid%negb_false_iff%Z.eqb_eq ->]%guard_ok.
  apply installs_after; [apply silent_cgroup|]. intros [] s2 HT2%(calm_cgroup _ _ _ HT). apply installs_after; [apply fixes_lift|]. intros data ? [= Hd <-].
  apply installs_after; [fixing|]. intros [] s3 HT3%(preserves_map_err calm_host _ _ (calm_files _ (only_mkdir _)) _ _ _ HT2).
  apply installs_after; [fixing|]. intros [] s4 Hw%(written_at _ _ _ _ _ _ HT3).
  apply installs_after; [apply silent_download|]. intros script s5 E5. pose proof (hostless_download _ _ _ _ E5) as H5. apply download_ok in E5.
  apply installs_run. exists script, data, (mc_env s5). rewrite H5. do 5 (split; [done|]). by split.
Qed.

(** C28: the installer runs configured and checked.  On an undisturbed host, a bootstrap of
    k3s, of a server or of a worker, runs at most one command; that command is given, on
    its standard input, exactly the script the installer's URL answered with just before,
    with a status of success and of bounded size; it runs on Linux as root, with the
    configuration rendered from the validated settings in place at the path it is given; a
    server is not installed over an existing kubeconfig unless that was forced; and success
    means that the installer ran. *)
Theorem k3s_installs_configured (s : machine E) : Forall calm (h_turns (mc_host s)) ->
  (forall c r s', Bootstrap c s = (r, s') ->
     (mc_ran s' = mc_ran s /\ is_ok r = false) \/ exists cmd m, mc_ran s' = (mc_ran s ++ [(cmd, m)])%list /\ server_evidence c s cmd m (mc_env s')) /\
  (forall c r s', BootstrapWorker c s = (r, s') ->
     (mc_ran s' = mc_ran s /\ is_ok r = false) \/ exists cmd m, mc_ran s' = (mc_ran s ++ [(cmd, m)])%list /\ worker_evidence c cmd m (mc_env s')).
Proof. intros HT. split; intros c; [by apply server_installs|by apply worker_installs]. Qed.
End installation.

(** ** A run *)

#[export] Instance demo_machine : Machine unit := {|
  GOOS := "linux"; EUID := 0; LookPath := fun _ e => (Err ErrCommandNotFound, e); Command_Run := fun _ e => (Ok tt, e);
  HTTP_Get := fun _ e => (Ok (200, "200 OK", Ok "exec k3s"), e); Port_Check := fun _ _ e => (Ok tt, e); http_request_ok := fun _ => Ok tt;
  yaml_Marshal := fun fields => Ok (String.concat line_feed ((fun f => f.1 +:+ ": " +:+ match f.2 with YStr v => v | YList l => String.concat " " l end) <$> fields));
  url_SchemeHost := fun url => match Cut url "://" with (scheme, host, true) => Some (scheme, host) | _ => None end |}.

Definition demo_host : machine unit := MkMachine (Host ∅ [] 18 []) tt [].
Definition demo_config : K3sConfig := MkK3sConfig "10.8.0.1" "" "" "" "" false.

Lemma k3s_installs_configured_witness : exists res s' cmd m, Bootstrap demo_config demo_host = (Ok res, s') /\ mc_ran s' = [(cmd, m)] /\ server_evidence demo_config demo_host cmd m (mc_env s').
Proof.
  assert (HT : Forall calm (h_turns (mc_host demo_host))) by constructor. destruct (k3s_installs_configured demo_host HT) as [Hs _].
  destruct (Bootstrap demo_config demo_host) as [r s'] eqn:Eb.
  assert (Hr : is_ok r = true) by (change r with (r, s').1; rewrite <- Eb; vm_compute; reflexivity). destruct r as [res|]; [|done].
  destruct (Hs demo_config _ _ Eb) as [[_ [=]]|(cmd & m & Hm & Hev)]. exists res, s', cmd, m. exact (conj eq_refl (conj Hm Hev)).
Defined.
