(* ===== verification/Agent.v ===== *)
(** * The agent of a node
    (cmd/deployer-agent, the calls of internal/cli/client.go it makes, key generation of
    internal/wireguard/wireguard.go)

    Flags are arguments, with the defaults of [LoadAgent]; a usage error is an error like
    the others.  The control plane, the commands it runs and the connection to the hub are
    interfaces.  The heartbeat loop takes the outcomes of its heartbeats and sleeps from a
    script: it ends when the script does. *)

From S2P Require Import Prelude GoStrings Regexp Sha256 GoJson GoTime GoNet Wireguard Appconfig Db Security NodeRegistry NodeService NodeLogic NodeProps NodeAuth NodeRun HostFs Hub ServerConfig K3s.
From Stdlib Require Import Ascii String.
Local Open Scope Z_scope.

(** [strings.Contains], [strings.ReplaceAll] of a line end. *)
Definition str_Contains (s sub : string) : bool := (Cut s sub).2.

Fixpoint unix_lines (s : string) : string :=
  match s with
  | String "013" (String "010" s') => String "010" (unix_lines s')
  | String a s' => String a (unix_lines s')
  | EmptyString => EmptyString
  end.

(** ** backoff.go *)

Definition initialHeartbeatBackoff : Z := 5 * second.
Definition maxHeartbeatBackoff : Z := 60 * second.

Record heartbeatBackoff := MkBackoff { bo_initial : Z; bo_max : Z; bo_next : Z }.
Definition newBackoff (initial max : Z) : heartbeatBackoff := MkBackoff initial max 0.

Definition Backoff_Next (b : heartbeatBackoff) : Z * heartbeatBackoff :=
  let delay := if bo_next b <=? 0 then bo_initial b else bo_next b in
  let doubled := wrap_i64 (delay * 2) in
  (delay, MkBackoff (bo_initial b) (bo_max b) (if bo_max b <? doubled then bo_max b else doubled)).
Definition Backoff_Reset (b : heartbeatBackoff) : heartbeatBackoff := MkBackoff (bo_initial b) (bo_max b) 0.

(** ** The errors of a call ([DecodeRPCError]) *)

(** The codes the client names; every other one with its lower-case name. *)
Inductive rpc_code := RpcUnauthenticated | RpcPermissionDenied | RpcInvalidArgument | RpcNotFound | RpcAlreadyExists | RpcFailedPrecondition | RpcUnavailable | RpcCode (name : string).
Inductive rpc_error := RpcStatus (c : rpc_code) (msg : string) | RpcFailure (text : string).

(** The text of the error. *)
Definition DecodeRPCError (e : rpc_error) : string :=
  match e with
  | RpcFailure text => "call control plane: " +:+ text
  | RpcStatus RpcUnauthenticated msg => "authentication failed: " +:+ msg
  | RpcStatus RpcPermissionDenied msg => "permission denied: " +:+ msg
  | RpcStatus RpcInvalidArgument msg => "invalid request: " +:+ msg
  | RpcStatus RpcNotFound msg => "not found: " +:+ msg
  | RpcStatus RpcAlreadyExists msg => "already exists: " +:+ msg
  | RpcStatus RpcFailedPrecondition msg => "cannot proceed: " +:+ msg
  | RpcStatus RpcUnavailable msg => "control plane unavailable: " +:+ msg
  | RpcStatus (RpcCode name) msg => "control plane returned " +:+ name +:+ ": " +:+ msg
  end.

(** ** run_loop.go *)

(** What the loop shows to the outside. *)
Inductive loop_event := Connected | Disconnected (error : string) (retry : Z) | HeartbeatFailed (error : string) (retry : Z) | Slept (duration : Z).

(** Outcome of a heartbeat, [None] for success, and whether the sleep after it ran to its end. *)
Definition round : Type := option string * bool.

Definition refused (text : string) : bool := str_Contains text "authentication failed" || str_Contains text "permission denied".

(** The exit code, [None] when the script ends first. *)
Fixpoint heartbeat_loop (once : bool) (interval : Z) (script : list round) (backoff : heartbeatBackoff) (connectionState : string) : option Z * list loop_event :=
  match script with
  | [] => (None, [])
  | (None, slept) :: rest =>
      let changed := if String.eqb connectionState "connected" then [] else [Connected] in
      if once then (Some 0, changed)
      else if negb slept then (Some 0, (changed ++ [Slept interval])%list)
      else let '(r, l) := heartbeat_loop once interval rest (Backoff_Reset backoff) "connected" in (r, (changed ++ Slept interval :: l)%list)
  | (Some err, slept) :: rest =>
      if refused err then (Some 1, [])
      else
        let '(delay, backoff') := Backoff_Next backoff in
        let line := if String.eqb connectionState "disconnected" then HeartbeatFailed err delay else Disconnected err delay in
        if once then (Some 1, [line])
        else if negb slept then (Some 0, [line; Slept delay])
        else let '(r, l) := heartbeat_loop once interval rest backoff' "disconnected" in (r, line :: Slept delay :: l)
  end.

Definition run_heartbeats (once : bool) (interval : Z) (script : list round) : option Z * list loop_event :=
  heartbeat_loop once interval script (newBackoff initialHeartbeatBackoff maxHeartbeatBackoff) "starting".

(** ** credential.go *)

Definition writeSecretFile (path value : string) : OS unit :=
  _ ← map_err (ErrWrap "create secret directory: %w" []) (MkdirAll (Dir path));
  _ ← map_err (ErrWrap "write secret file: %w" []) (WriteFile path (TrimSpace value +:+ line_feed) 384);
  map_err (ErrWrap "restrict secret file: %w" []) (Chmod path 384).

Definition writeCredential (path token : string) : OS unit :=
  _ ← guard (blank token) (ErrSentinel "join response did not include an agent credential");
  map_err (ErrWrap "write agent credential: %w" []) (writeSecretFile path token).
Definition writeWireGuardPrivateKey (path privateKey : string) : OS unit :=
  _ ← guard (blank privateKey) (ErrSentinel "WireGuard private key is empty");
  map_err (ErrWrap "write WireGuard private key: %w" []) (writeSecretFile path privateKey).

Definition readCredential (path : string) : OS string :=
  data ← map_err (ErrWrap "read agent credential: %w" []) (ReadFile path);
  _ ← guard (blank data) (ErrSentinel "agent credential is empty");
  mret (TrimSpace data).
Definition readWireGuardPrivateKey (path : string) : OS string :=
  data ← map_err (ErrWrap "read WireGuard private key: %w" []) (ReadFile path);
  _ ← guard (blank data) (ErrSentinel "WireGuard private key is empty");
  mret (TrimSpace data).

(** ** join_k3s.go: the hub's address in the environment file *)

Definition hub_variable : string := "DEPLOYER_WIREGUARD_HUB_IP".

Definition assigns_hub (line : string) : bool :=
  let assignment := TrimSpace line in
  let assignment := if HasPrefix assignment "export " || HasPrefix assignment ("export" +:+ String "009"%char "")
                    then TrimSpace (s_drop 6 assignment) else assignment in
  match Cut assignment "=" with (key, _, true) => String.eqb (TrimSpace key) hub_variable | _ => false end.

Definition hub_lines (hubIP : string) (lines : list string) : list string :=
  let updated := (fun line => if assigns_hub line then hub_variable +:+ "=" +:+ hubIP else line) <$> lines in
  if existsb assigns_hub lines then updated else (updated ++ [hub_variable +:+ "=" +:+ hubIP])%list.

Definition updated_environment (hubIP data : string) : string :=
  String.concat line_feed (hub_lines hubIP (Split_byte (unix_lines data) "010"%char)).

Definition persistWireGuardHubIP (path hubIP : string) : OS unit :=
  let hubIP := TrimSpace hubIP in
  let path := TrimSpace path in
  _ ← guard (negb (valid_ip hubIP)) (Errorf "persist WireGuard hub IP: invalid IP address %q" [AStr hubIP]);
  _ ← guard (String.eqb path "") (ErrSentinel "persist WireGuard hub IP: environment path is empty");
  info ← attempt (Lstat path);
  match info with
  | Err e => guard (negb (errors_Is e ErrNotExist)) (ErrWrap "inspect agent environment: %w" [] e)
  | Ok n =>
      _ ← guard (match n with NFile _ _ => false | _ => true end) (Errorf "inspect agent environment: %q is not a regular file" [AStr path]);
      data ← map_err (ErrWrap "read agent environment: %w" []) (ReadFile path);
      replace_by_rename "create agent environment temporary file: %w" "restrict agent environment temporary file: %w" "write agent environment: %w"
        "sync agent environment: %w" "close agent environment temporary file: %w" "replace agent environment: %w"
        ".agent.env.tmp-" path (updated_environment hubIP data)
  end.

(** ** Keys *)

Record KeyPair := MkKeyPair { Key_PrivateKey : string; Key_PublicKey : string }.

(** crypto/ecdh: the public key of 32 private bytes. *)
Class X25519 := { x25519_public : list Z -> list Z; x25519_public_size : forall k, List.length (x25519_public k) = 32%nat }.

Definition GenerateKeyPairFrom `{X25519} (random : option (list Z)) : result KeyPair :=
  match random with
  | Some k => Ok (MkKeyPair (Std_EncodeToString k) (Std_EncodeToString (x25519_public k)))
  | None => Err (ErrWrap "generate WireGuard keypair: %w" [] (ErrSentinel "rand"))
  end.

(** ** join.go, join_k3s.go *)

Class ControlPlane (E : Type) := {
  new_client : string -> string -> result unit;
  os_Hostname : E -> result string * E;
  agent_arch : string;
  call_JoinNode : string -> string -> string -> string -> E -> (JoinNodeResponse + rpc_error) * E;  (* join token, hostname, arch, public key *)
  call_GetWorkerBootstrap : string -> E -> (WorkerBootstrap + rpc_error) * E;                        (* agent token *)
  vpn_dial : string -> E -> result unit * E
}.

Definition decoded {A} (r : A + rpc_error) : result A := match r with inl a => Ok a | inr e => Err (ErrSentinel (DecodeRPCError e)) end.

Section commands.
Context {E : Type} `{!Machine E} `{!ControlPlane E} `{!X25519}.
Notation M := (ST (machine E)).

Definition rpc {A} (f : E -> (A + rpc_error) * E) : M A := on_env (fun e => let '(r, e') := f e in (decoded r, e')).

Definition ErrUsage : error := ErrSentinel "usage".
Definition exit_code {A} (r : result A) : Z := match r with Ok _ => 0 | Err e => if bool_decide (e = ErrUsage) then 2 else 1 end.

Definition join (serverURL joinToken credentialPath privateKeyPath : string) (random : option (list Z)) : M JoinNodeResponse :=
  _ ← guard (blank serverURL || blank joinToken) ErrUsage;
  _ ← lift (new_client serverURL "");
  hostname ← map_err (ErrWrap "detect hostname: %v" []) (on_env os_Hostname);
  keys ← lift (GenerateKeyPairFrom random);
  _ ← on_files (writeWireGuardPrivateKey privateKeyPath (Key_PrivateKey keys));
  result ← rpc (call_JoinNode (TrimSpace joinToken) hostname agent_arch (Key_PublicKey keys));
  _ ← on_files (writeCredential credentialPath (jnr_AgentToken result));
  mret result.

Definition ensureWireGuardUp (interfaceName configPath : string) : M unit :=
  shown ← attempt (run_command (MkCommand "wg" ["show"; interfaceName] [] ""));
  match shown with
  | Ok _ => mret tt
  | Err _ => map_err (ErrWrap "bring up WireGuard interface %q: %w; install wireguard-tools and verify privileges" [AStr interfaceName])
               (run_command (MkCommand "wg-quick" ["up"; configPath] [] ""))
  end.

(** [tcpVPNConnectivityCheck] dials the API of the hub. *)
Definition checkVPNConnectivity (hubIP : string) : M unit := on_env (vpn_dial (JoinHostPort (TrimSpace hubIP) "6443")).
Definition vpnConnectivityStatus (hubIP : string) : M string :=
  reached ← attempt (checkVPNConnectivity hubIP); mret (match reached with Ok _ => "connected" | Err _ => "disconnected" end).

Record joinK3sOptions := MkJoinK3s {
  JK_ServerURL : string; JK_CredentialPath : string; JK_AgentEnvPath : string; JK_PrivateKeyPath : string; JK_WireGuardConfigPath : string;
  JK_WireGuardInterface : string; JK_K3sConfigPath : string; JK_InstallerURL : string }.

Definition node_config (privateKey : string) (material : WorkerBootstrap) : result string :=
  RenderNodeConfig (MkNodeConfig privateKey (wb_IP material) (wb_HubKey material) (wb_Endpoint material) (wb_Subnet material) 0).

Definition joinK3s (opts : joinK3sOptions) : M WorkerBootstrap :=
  _ ← guard (blank (JK_ServerURL opts)) ErrUsage;
  token ← on_files (readCredential (JK_CredentialPath opts));
  privateKey ← on_files (readWireGuardPrivateKey (JK_PrivateKeyPath opts));
  _ ← lift (new_client (JK_ServerURL opts) token);
  material ← rpc (call_GetWorkerBootstrap token);
  _ ← on_files (persistWireGuardHubIP (JK_AgentEnvPath opts) (wb_HubIP material));
  wireGuardConfig ← lift (node_config privateKey material);
  _ ← map_err (ErrWrap "write WireGuard config: %v" []) (on_files (writeSecretFile (JK_WireGuardConfigPath opts) wireGuardConfig));
  _ ← ensureWireGuardUp (JK_WireGuardInterface opts) (JK_WireGuardConfigPath opts);
  _ ← map_err (ErrWrap "WireGuard connectivity to hub failed: %v" []) (checkVPNConnectivity (wb_HubIP material));
  _ ← BootstrapWorker (MkWorkerConfig (wb_URL material) (wb_Token material) (wb_NodeName material) (wb_IP material)
        (JK_K3sConfigPath opts) (JK_InstallerURL opts) (JK_WireGuardInterface opts));
  mret material.
End commands.

(** ** The heartbeat loop *)

(** The delay after [n] failures in a row. *)
Definition backoff_delay (n : nat) : Z := Z.min (initialHeartbeatBackoff * 2 ^ Z.of_nat n) maxHeartbeatBackoff.

(** What the loop should sleep, and how it should end. *)
Fixpoint planned_sleeps (interval : Z) (n : nat) (script : list round) : list Z :=
  match script with
  | [] => []
  | (None, slept) :: rest => interval :: (if slept then planned_sleeps interval 0 rest else [])
  | (Some err, slept) :: rest => if refused err then [] else backoff_delay n :: (if slept then planned_sleeps interval (S n) rest else [])
  end.
Fixpoint planned_exit (script : list round) : option Z :=
  match script with
  | [] => None
  | (None, slept) :: rest => if slept then planned_exit rest else Some 0
  | (Some err, slept) :: rest => if refused err then Some 1 else if slept then planned_exit rest else Some 0
  end.

Definition sleeps (l : list loop_event) : list Z := omap (fun e => match e with Slept d => Some d | _ => None end) l.
Definition changes (l : list loop_event) : list bool := omap (fun e => match e with Connected => Some true | Disconnected _ _ => Some false | _ => None end) l.

(** Reported states alternate. *)
Fixpoint alternates (last : option bool) (l : list bool) : bool :=
  match l with [] => true | b :: rest => negb (bool_decide (last = Some b)) && alternates (Some b) rest end.

Definition backoff_at (n : nat) : heartbeatBackoff :=
  MkBackoff initialHeartbeatBackoff maxHeartbeatBackoff (match n with O => 0 | S _ => backoff_delay n end).

Lemma backoff_delay_range n : initialHeartbeatBackoff <= backoff_delay n <= maxHeartbeatBackoff.
Proof.
  unfold backoff_delay. assert (1 <= 2 ^ Z.of_nat n) by (apply (Z.pow_le_mono_r 2 0); lia). assert (0 < second) by done.
  unfold initialHeartbeatBackoff, maxHeartbeatBackoff. nia.
Qed.

Lemma backoff_next n : Backoff_Next (backoff_at n) = (backoff_delay n, backoff_at (S n)).
Proof.
  pose proof (backoff_delay_range n) as Hn. assert (Hd : (if bo_next (backoff_at n) <=? 0 then bo_initial (backoff_at n) else bo_next (backoff_at n)) = backoff_delay n).
  { destruct n; [done|]. cbn [backoff_at bo_next bo_initial]. replace (backoff_delay (S n) <=? 0) with false; [done|]. symmetry. apply Z.leb_gt.
    unfold initialHeartbeatBackoff in Hn. assert (0 < second) by done. lia. }
  unfold Backoff_Next. rewrite Hd. f_equal. unfold backoff_at. cbn [bo_initial bo_max]. f_equal.
  rewrite wrap_i64_small by (unfold maxHeartbeatBackoff, initialHeartbeatBackoff, second in *; lia).
  unfold backoff_delay. rewrite Nat2Z.inj_succ, Z.pow_succ_r by lia. destruct (Z.ltb_spec maxHeartbeatBackoff (Z.min (initialHeartbeatBackoff * 2 ^ Z.of_nat n) maxHeartbeatBackoff * 2)); 
    unfold maxHeartbeatBackoff, initialHeartbeatBackoff in *; assert (0 < second) by done; lia.
Qed.

Definition state_of (connectionState : string) : option bool :=
  if String.eqb connectionState "connected" then Some true else if String.eqb connectionState "disconnected" then Some false else None.

Lemma heartbeat_plan interval script n state :
  let '(r, l) := heartbeat_loop false interval script (backoff_at n) state in
  r = planned_exit script /\ sleeps l = planned_sleeps interval n script /\ alternates (state_of state) (changes l) = true.
Proof.
  revert n state. induction script as [|[[err|] slept] script IH]; intros n state; cbn [heartbeat_loop planned_exit planned_sleeps]; [done| |].
  - destruct (refused err); [done|]. rewrite backoff_next. specialize (IH (S n) "disconnected"). destruct slept; cbn [negb].
    + destruct (heartbeat_loop _ _ _ _ _) as [r l]. destruct IH as (-> & Hs & Ha). split; [done|].
      unfold state_of. destruct (String.eqb_spec state "disconnected") as [->|Hd]; cbn; rewrite <- Hs; (split; [done|]); [exact Ha|].
      destruct (String.eqb state "connected"); exact Ha.
    + split; [done|]. unfold state_of. destruct (String.eqb_spec state "disconnected") as [->|Hd]; [done|]. cbn. split; [done|]. by destruct (String.eqb state "connected").
  - specialize (IH 0%nat "connected"). destruct slept; cbn [negb].
    + change (Backoff_Reset (backoff_at n)) with (backoff_at 0). destruct (heartbeat_loop _ _ _ _ _) as [r l]. destruct IH as (-> & Hs & Ha). split; [done|].
      unfold state_of. destruct (String.eqb_spec state "connected") as [->|Hd]; cbn; rewrite <- Hs; (split; [done|]); [exact Ha|].
      destruct (String.eqb state "disconnected"); exact Ha.
    + split; [done|]. unfold state_of. destruct (String.eqb_spec state "connected") as [->|Hd]; [done|]. cbn. split; [done|]. by destruct (String.eqb state "disconnected").
Qed.

Lemma contains_prefix p s : str_Contains (p +:+ s) p = true.
Proof. unfold str_Contains. assert (Hp : HasPrefix (p +:+ s) p = true) by apply HasPrefix_app. destruct p as [|a p], s; cbn [Cut String.append] in *; by rewrite Hp. Qed.

Lemma refused_code c msg : c = RpcUnauthenticated \/ c = RpcPermissionDenied -> refused (DecodeRPCError (RpcStatus c msg)) = true.
Proof.
  intros [->| ->]; unfold refused; cbn [DecodeRPCError]; apply orb_true_iff; [left|right].
  - change ("authentication failed: " +:+ msg) with ("authentication failed" +:+ (": " +:+ msg)). apply contains_prefix.
  - change ("permission denied: " +:+ msg) with ("permission denied" +:+ (": " +:+ msg)). apply contains_prefix.
Qed.

(** The agent keeps reporting at a bounded pace.  For every sequence of outcomes of
    its heartbeats and sleeps, the loop sleeps the interval after a success and
    min(5s * 2^n, 60s) after the failure that follows [n] failures in a row, without
    overflow and never outside 5 to 60 seconds; it stops exactly at a refusal, with
    status 1, or when a sleep is interrupted, with status 0; and it reports every change
    of the connection once. *)
Theorem heartbeat_pace interval script :
  let '(r, l) := run_heartbeats false interval script in
  r = planned_exit script /\ sleeps l = planned_sleeps interval 0 script /\ alternates None (changes l) = true /\
  forall n, initialHeartbeatBackoff <= backoff_delay n <= maxHeartbeatBackoff.
Proof.
  pose proof (heartbeat_plan interval script 0 "starting") as Hp. unfold run_heartbeats. change (newBackoff _ _) with (backoff_at 0).
  destruct (heartbeat_loop _ _ _ _ _) as [r l]. destruct Hp as (H1 & H2 & H3). repeat split; [done|done|done|apply backoff_delay_range|apply backoff_delay_range].
Qed.

(** A status of the server at the client. *)
Definition code_at_client (c : code) : rpc_code :=
  match c with
  | Unauthenticated => RpcUnauthenticated | PermissionDenied => RpcPermissionDenied | InvalidArgument => RpcInvalidArgument | NotFound => RpcNotFound
  | AlreadyExists => RpcAlreadyExists | FailedPrecondition => RpcFailedPrecondition
  | OK => RpcCode "ok" | ResourceExhausted => RpcCode "resourceexhausted" | Internal => RpcCode "internal"
  end.

Section removed.
Context {K : Type} (hashKey : list Z).

(** The agent of a removed node gives up.  Without driver faults, a heartbeat with an
    agent token of a removed node, or with one that is no longer stored, is refused by
    the server with a status that makes the agent's loop end with status 1, whatever its
    state and without another attempt. *)
Theorem removed_agent_stops authorization raw hash g k now :
  reg_inv g -> bearerToken authorization = Ok raw -> Prefix raw = Ok AgentTokenPrefix -> HashToken hashKey raw = Ok hash ->
  (g_agents g !! hash = None \/ exists row token id node, g_agents g !! hash = Some row /\ scanToken row = Ok token /\
     tk_owner row = id /\ g_nodes g !! id = Some node /\ nd_status node = nodeStatusRemoved) ->
  exists c msg w', authenticate hashKey authorization "/deployer.v1.NodeService/HeartbeatNode" now (MkNodes g [] k : nodes_world K) = (Err (ErrStatus c msg), w') /\
    forall once interval slept rest backoff state,
      heartbeat_loop once interval ((Some (DecodeRPCError (RpcStatus (code_at_client c) msg)), slept) :: rest) backoff state = (Some 1, []).
Proof.
  intros Hi Hb Hp Hh Hcase.
  assert (Hstop : forall c msg, c = Unauthenticated \/ c = PermissionDenied -> forall once interval slept rest backoff state,
    heartbeat_loop once interval ((Some (DecodeRPCError (RpcStatus (code_at_client c) msg)), slept) :: rest) backoff state = (Some 1, [])).
  { intros c msg Hc once interval slept rest backoff state. cbn [heartbeat_loop]. rewrite refused_code; [done|]. destruct Hc as [->| ->]; [by left|by right]. }
  unfold authenticate. rewrite Hb. erewrite st_bind_run; [|reflexivity]. rewrite Hp. erewrite st_bind_run; [|reflexivity].
  rewrite Hh. erewrite st_bind_run; [|reflexivity]. cbn iota. change (String.eqb AgentTokenPrefix AdminTokenPrefix) with false.
  change (String.eqb AgentTokenPrefix AgentTokenPrefix) with true. cbn iota. unfold authenticateWith, AgentTokenRepository_FindByHash, g_find.
  destruct Hcase as [Hn|(row & token & id & node & Hrow & Hs & Ho & Hnode & Hst)].
  - exists Unauthenticated, "invalid bearer token". eexists. split; [|by apply Hstop; left]. unfold map_err, mbind, st_bind, g_query. cbn. by rewrite Hn.
  - assert (Hr : is_Some (BT_RevokedAt token)).
    { destruct (scanToken_fields _ _ Hs) as [_ Hiff]. destruct (BT_RevokedAt token); [done|]. destruct (ri_revoked g Hi id node hash row Hnode Hst Hrow Ho). by apply Hiff. }
    exists PermissionDenied, "agent token is revoked". eexists. split; [|by apply Hstop; right].
    unfold map_err, mbind, st_bind, g_query. cbn. rewrite Hrow. cbn. rewrite Hs. unfold guard. by rewrite bool_decide_true.
Qed.
End removed.

(** ** The environment file *)

Definition hub_line (hubIP : string) : string := hub_variable +:+ "=" +:+ hubIP.

Lemma assigns_hub_line hubIP : assigns_hub (hub_line hubIP) = true.
Proof.
  unfold assigns_hub, hub_line. assert (Et : TrimSpace (hub_variable +:+ "=" +:+ hubIP) = hub_variable +:+ "=" +:+ trim_right hubIP).
  { unfold TrimSpace. change (hub_variable +:+ "=" +:+ hubIP) with ((hub_variable +:+ "=") +:+ hubIP). rewrite trim_left_id by (by apply plain_leads).
    by rewrite trim_right_plain. }
  rewrite Et. change (HasPrefix _ "export ") with false. change (HasPrefix _ ("export" +:+ String "009"%char "")) with false. cbn [orb].
  by rewrite cut_at.
Qed.

Lemma hub_lines_spec hubIP ls :
  (forall line, line ∈ hub_lines hubIP ls -> assigns_hub line = true -> line = hub_line hubIP) /\ hub_line hubIP ∈ hub_lines hubIP ls /\
  List.filter (fun l => negb (assigns_hub l)) (hub_lines hubIP ls) = List.filter (fun l => negb (assigns_hub l)) ls /\
  hub_lines hubIP (hub_lines hubIP ls) = hub_lines hubIP ls.
Proof.
  set (f := fun line => if assigns_hub line then hub_line hubIP else line).
  assert (Hf : forall line, assigns_hub (f line) = assigns_hub line) by (intros line; unfold f; destruct (assigns_hub line) eqn:E; [apply assigns_hub_line|done]).
  assert (Hall : forall line, line ∈ f <$> ls -> assigns_hub line = true -> line = hub_line hubIP).
  { intros line (x & -> & _)%list_elem_of_fmap. rewrite Hf. unfold f. by intros ->. }
  assert (Hfilter : List.filter (fun l => negb (assigns_hub l)) (f <$> ls) = List.filter (fun l => negb (assigns_hub l)) ls).
  { induction ls as [|l ls IH]; [done|]. cbn. rewrite Hf. unfold f at 1. destruct (assigns_hub l) eqn:E; cbn; [apply IH|f_equal; apply IH];
      intros line Hl; apply Hall; by right. }
  assert (Hex : existsb assigns_hub (f <$> ls) = existsb assigns_hub ls) by (clear - Hf; induction ls as [|l ls IH]; [done|]; cbn; by rewrite Hf, IH).
  assert (Hid : forall l : list string, (forall line, line ∈ l -> assigns_hub line = true -> line = hub_line hubIP) -> f <$> l = l).
  { clear. induction l as [|x l IH]; intros H; [done|]. cbn. rewrite IH by (intros; apply H; [by right|done]). f_equal. unfold f. destruct (assigns_hub x) eqn:E; [|done]. symmetry. apply H; [by left|done]. }
  assert (Eh : forall l, hub_lines hubIP l = if existsb assigns_hub l then f <$> l else ((f <$> l) ++ [hub_line hubIP])%list) by done.
  rewrite (Eh ls). destruct (existsb assigns_hub ls) eqn:Ee; rewrite Eh.
  - split; [done|]. split.
    { apply existsb_exists in Ee as (x & Hx%list_elem_of_In & Ex). apply list_elem_of_fmap. exists x. split; [|done]. unfold f. by rewrite Ex. }
    split; [done|]. by rewrite Hex, Hid.
  - assert (Hlast : forall line, line ∈ (f <$> ls) ++ [hub_line hubIP] -> assigns_hub line = true -> line = hub_line hubIP)
      by (intros line [Hl| ->%list_elem_of_singleton]%elem_of_app; [by apply Hall|done]).
    split; [done|]. split; [apply elem_of_app; right; by apply list_elem_of_singleton|]. split.
    + rewrite List.filter_app, Hfilter. cbn [List.filter]. rewrite assigns_hub_line. cbn [negb]. by rewrite app_nil_r.
    + rewrite existsb_app. cbn [existsb]. rewrite assigns_hub_line, orb_true_r. by apply Hid.
Qed.

Definition env_temp (path : string) (q : string) : Prop := exists rnd, q = Clean (temp_name (Dir path) ".agent.env.tmp-" rnd).
(** Others spare the temporary file, and no failure pretends that a file is missing. *)
Definition env_turn (path : string) (t : turn) : Prop := spares (env_temp path) t /\ forall e, t_fault t = Some e -> errors_Is e ErrNotExist = false.

(** A new text for an old one: its lines are those of the old text in their order, but every
    line that assigns the variable assigns the address, and there is one; another update
    changes nothing more. *)
Definition rewritten (hubIP old new : string) : Prop :=
  let lines := Split_byte (unix_lines old) "010"%char in
  exists lines', new = String.concat line_feed lines' /\
    List.filter (fun l => negb (assigns_hub l)) lines' = List.filter (fun l => negb (assigns_hub l)) lines /\
    (forall line, line ∈ lines' -> assigns_hub line = true -> line = hub_line hubIP) /\ hub_line hubIP ∈ lines' /\ hub_lines hubIP lines' = lines'.
Definition rewritten_file (hubIP old : string) (n : node) : Prop := exists new, n = NFile 384 new /\ rewritten hubIP old new.

Lemma update_rewrites hubIP data : rewritten_file hubIP data (NFile 384 (updated_environment hubIP data)).
Proof.
  eexists. split; [done|]. exists (hub_lines hubIP (Split_byte (unix_lines data) "010"%char)). split; [done|].
  destruct (hub_lines_spec hubIP (Split_byte (unix_lines data) "010"%char)) as (H1 & H2 & H3 & H4). done.
Qed.

Definition untouched (p : string) (s : files * files) : Prop := s.2 !! Clean p = s.1 !! Clean p.

(** The steps of an update: it gives up before it has read the file, which it left alone,
    and then succeeds only if there is none; or the text it read at one of its steps is
    rewritten, in one of the later steps if it succeeds. *)
Definition updates (p ip : string) (r : result unit) (l : list (files * files)) : Prop :=
  (Forall (untouched p) l /\ (is_ok r = true -> Exists (fun s => s.1 !! Clean p = None) l)) \/
  exists l1 m data l2, l = (l1 ++ (m, m) :: l2)%list /\ holds_text m p data /\ Forall (untouched p) l1 /\
    Forall (stays_or_good p (rewritten_file ip data)) l2 /\ (is_ok r = true -> Exists (put_good p (rewritten_file ip data)) l2).

Lemma gives_up p ip e l : Forall (untouched p) l -> updates p ip (Err e) l.
Proof. by left. Qed.

Lemma persist_updates path hubIP F : ~ env_temp (TrimSpace path) (Clean (TrimSpace path)) ->
  hwp (env_turn (TrimSpace path)) (persistWireGuardHubIP path hubIP) F (fun r _ l => updates (TrimSpace path) (TrimSpace hubIP) r l).
Proof.
  intros Hp. unfold persistWireGuardHubIP. set (p := TrimSpace path) in *. set (ip := TrimSpace hubIP) in *.
  assert (Tq : env_turn p quiet_turn) by (split; [apply quiet_spares|done]).
  do 2 (apply hwp_bind, hwp_guard; intros _; [apply gives_up, Forall_nil_2|cbn [app]]).
  apply hwp_bind, hwp_attempt, hwp_call; [done|]. intros u t r m' [_ Hf] E. assert (m' = t_others t F) as -> by (destruct (t_fault t); congruence).
  assert (U0 : Forall (untouched p) [(t_others t F, t_others t F)]) by by apply Forall_singleton.
  destruct r as [n|e].
  - clear E. apply hwp_bind, hwp_guard; intros _; [by apply gives_up|]. cbn [app]. apply hwp_bind, hwp_map_err, hwp_observe; [done|].
    intros t1 [data|e] _ Hr; [|apply gives_up; apply Forall_cons_2; [done|by apply Forall_singleton]]. set (m := t_others t1 (t_others t F)) in *.
    assert (Hm : holds_text m p data).
    { destruct Hr as [Hr|[e [=]]]. destruct (resolve m p) as [q|] eqn:Eq; [|done]. destruct (m !! q) as [[perm d| | |]|] eqn:En; try done.
      injection Hr as ->. by exists q, perm. }
    eapply hwp_mono; [apply (replace_ends _ (env_temp p) Tq (fun t H => proj1 H) p (rewritten_file ip data)); [done|intros rnd; by exists rnd|apply update_rewrites]|].
    intros r F' l [H1 H2]. right. by exists [(t_others t F, t_others t F)], m, data, l.
  - apply hwp_guard; intros He; [by apply gives_up|]. apply negb_false_iff in He. rewrite app_nil_r. left. split; [done|]. intros _. apply Exists_cons_hd. cbn.
    destruct (t_fault t) as [e0|]; [injection E as ->; by rewrite (Hf e eq_refl) in He|]. injection E as E. by destruct (t_others t F !! Clean p).
Qed.

(** C29: the hub's address reaches the environment file whole.  Whatever others do to the
    host short of touching the agent's temporary file, and whichever calls fail or write a
    part, as long as an injected failure does not claim that a file is missing: either the
    agent leaves the environment file alone, and then it succeeds only if there was no
    file; or it read the text of the file at one moment, and from then on every one of its
    steps leaves the file alone or replaces it, at once, by a complete file of mode 0600
    that is a rewriting of that text, and success means that this happened.  A rewriting
    keeps every line that does not assign the variable, in order, assigns the variable in
    at least one line and nowhere another value, and rewriting again changes nothing. *)
Theorem hub_ip_persisted path hubIP h r h' :
  ~ env_temp (TrimSpace path) (Clean (TrimSpace path)) -> Forall (env_turn (TrimSpace path)) (h_turns h) ->
  persistWireGuardHubIP path hubIP h = (r, h') ->
  exists l, h_log h' = (h_log h ++ l)%list /\ updates (TrimSpace path) (TrimSpace hubIP) r l.
Proof.
  intros Hp HT E. destruct (persist_updates path hubIP (h_files h) Hp h r h' HT eq_refl E) as (_ & l & El & Hl). by exists l.
Qed.

(** ** Runs *)

Definition env_host : host :=
  Host {["/data/agent.env" := NFile 420 ("A=1" +:+ line_feed +:+ "export DEPLOYER_WIREGUARD_HUB_IP = old" +:+ line_feed); "/data" := NDir]}
    [quiet_turn; quiet_turn; Turn (fun m => m) [7] [] None 0] 18 [].

Lemma env_no_temp : ~ env_temp (TrimSpace "/data/agent.env") (Clean (TrimSpace "/data/agent.env")).
Proof.
  intros [n E]. change (temp_name (Dir (TrimSpace "/data/agent.env")) ".agent.env.tmp-" n) with ("/data/" +:+ (".agent.env.tmp-" +:+ Itoa n)) in E.
  rewrite (Clean_data (".agent.env.tmp-" +:+ Itoa n)) in E; [discriminate| |done..]. cbn. apply Itoa_no_slash.
Qed.

Lemma hub_ip_persisted_witness : exists h', persistWireGuardHubIP "/data/agent.env" "10.8.0.1 " env_host = (Ok tt, h') /\
  h_files h' !! "/data/agent.env" = Some (NFile 384 ("A=1" +:+ line_feed +:+ "DEPLOYER_WIREGUARD_HUB_IP=10.8.0.1" +:+ line_feed)) /\
  exists l, h_log h' = l /\ updates "/data/agent.env" "10.8.0.1" (Ok tt) l.
Proof.
  assert (HT : Forall (env_turn (TrimSpace "/data/agent.env")) (h_turns env_host)) by (cbn [env_host h_turns]; repeat apply Forall_cons_2; try apply Forall_nil_2; by split).
  destruct (persistWireGuardHubIP "/data/agent.env" "10.8.0.1 " env_host) as [r h'] eqn:E.
  assert (Er : r = Ok tt) by (change r with (r, h').1; rewrite <- E; vm_compute; reflexivity).
  assert (Ef : h_files h' !! "/data/agent.env" = Some (NFile 384 ("A=1" +:+ line_feed +:+ "DEPLOYER_WIREGUARD_HUB_IP=10.8.0.1" +:+ line_feed)))
    by (change h' with (r, h').2; rewrite <- E; vm_compute; reflexivity).
  destruct (hub_ip_persisted "/data/agent.env" "10.8.0.1 " env_host r h' env_no_temp HT E) as (l & El & Hl).
  exists h'. subst r. split; [done|]. split; [exact Ef|]. exists l. split; [exact El|]. exact Hl.
Defined.

Lemma removed_token : exists row hash t token, g_nodes (n_reg removed) !! edge_id = Some row /\ nd_status row = nodeStatusRemoved /\
  bearerToken agent = Ok (token_of AgentTokenPrefix 3) /\ Prefix (token_of AgentTokenPrefix 3) = Ok AgentTokenPrefix /\
  HashToken key (token_of AgentTokenPrefix 3) = Ok hash /\ g_agents (n_reg removed) !! hash = Some t /\ scanToken t = Ok token /\ tk_owner t = edge_id /\
  n_faults removed = [].
Proof. do 4 eexists. by_run. Qed.

Lemma removed_agent_stops_witness : exists c msg w', authenticate key agent "/deployer.v1.NodeService/HeartbeatNode" noon removed = (Err (ErrStatus c msg), w') /\
  run_heartbeats false (30 * second) [(Some (DecodeRPCError (RpcStatus (code_at_client c) msg)), true)] = (Some 1, []).
Proof.
  destruct removed_token as (row & hash & t & token & Hrow & Hrm & Hb & Hp & Hh & Ht & Hs & Ho & Hf). pose proof removed_inv as Hi.
  generalize dependent removed. intros [g fs k] Hrow Ht Hf Hi. cbn [n_reg n_faults] in *. subst fs.
  destruct (removed_agent_stops (K := list string) key agent _ hash g k noon Hi Hb Hp Hh) as (c & msg & w' & Ha & Hl).
  - right. exact (ex_intro _ t (ex_intro _ token (ex_intro _ edge_id (ex_intro _ row (conj Ht (conj Hs (conj Ho (conj Hrow Hrm)))))))).
  - exists c, msg, w'. split; [exact Ha|]. apply Hl.
Defined.

(** ** A join that fails *)

#[local] Instance refusing_plane : ControlPlane unit := {
  new_client := fun _ _ => Ok tt; os_Hostname := fun e => (Ok "edge", e); agent_arch := "linux/arm64";
  call_JoinNode := fun _ _ _ _ e => (inr (RpcStatus RpcFailedPrecondition "join token is expired"), e);
  call_GetWorkerBootstrap := fun _ e => (inr (RpcFailure "offline"), e); vpn_dial := fun _ e => (Ok tt, e) }.
#[local] Instance zero_x25519 : X25519 := {| x25519_public := fun _ => repeat 0 32; x25519_public_size := fun _ => eq_refl |}.

Definition enrolled_machine : machine unit := MkMachine (Host {["/data/wg.key" := NFile 384 ("old" +:+ line_feed)]} [] 18 []) tt [].

(** The private key of an enrolled node is replaced although the server refused the join. *)
Example failed_join_replaces_key : exists s',
  join "https://hub:8443" "join_token" "/data/credential" "/data/wg.key" (Some (repeat 1 32)) enrolled_machine =
    (Err (ErrSentinel "cannot proceed: join token is expired"), s') /\
  h_files (mc_host s') !! "/data/wg.key" = Some (NFile 384 (Std_EncodeToString (repeat 1 32) +:+ line_feed)).
Proof. eexists. split; [vm_compute; reflexivity|]. by vm_compute. Qed.
