(* ===== verification/Client.v ===== *)
(** * The command line client
    (internal/cli/config.go, client.go, deploy_requests.go, output.go; cmd/deployer)

    The configuration file with its contexts, the selection of a control plane, the
    verification of its identity, the calls of the client with the decoding of their
    replies, and the commands.  A control plane is an interface that answers every call
    of a connection in any way it likes; a stream is one call with its outcome; flags are
    parsed already, and of the output only the exit code and the report of the doctor are
    kept. *)

From S2P Require Import Prelude GoStrings Regexp GoJson GoTime Appconfig AppconfigSpec Db DbRepos DbCandidates CandidateRequests DatabaseStatus AppService Security Vault Events NodeService HostFs ServerConfig K3s Agent.
From Stdlib Require Import Ascii String.
Local Open Scope Z_scope.

(** ** output.go *)

Definition OutputHuman : string := "human".
Definition OutputJSON : string := "json".
Definition ValidateOutputFormat (output : string) : result unit :=
  if String.eqb output OutputHuman || String.eqb output OutputJSON then Ok tt
  else Err (Errorf "unsupported output format %q; expected human or json" [AStr output]).

(** ** config.go *)

Definition defaultOutputFormat : string := "human".
Definition ErrConfigNotFound : error := ErrSentinel "CLI config file not found".
Definition ErrContextNotFound : error := ErrSentinel "CLI context not found".

Record CliContext := MkCliContext {
  Ctx_ServerURL : string; Ctx_AdminToken : string; Ctx_CredentialRef : string; Ctx_EnvironmentID : string; Ctx_CustomerLabel : string; Ctx_ServerIdentity : string }.
Record CliConfig := MkCliConfig {
  Cli_ServerURL : string; Cli_AdminToken : string; Cli_Output : string; Cli_Contexts : option (gmap string CliContext); Cli_CurrentContext : string }.

Definition zero_context : CliContext := MkCliContext "" "" "" "" "" "".
Definition zero_cli : CliConfig := MkCliConfig "" "" "" None "".

Definition context_fields : list string := ["server_url"; "admin_token"; "credential_ref"; "environment_id"; "customer_label"; "server_identity"].
Definition enc_CliContext (c : CliContext) : json :=
  JObj ([("server_url", enc_string (Ctx_ServerURL c))] ++ enc_str_field "admin_token" (Ctx_AdminToken c) ++ enc_str_field "credential_ref" (Ctx_CredentialRef c)
    ++ enc_str_field "environment_id" (Ctx_EnvironmentID c) ++ enc_str_field "customer_label" (Ctx_CustomerLabel c)
    ++ enc_str_field "server_identity" (Ctx_ServerIdentity c))%list.
Definition dec_CliContext : decoder CliContext := dec_struct (fun cur m =>
  let fs := context_fields in
  url ← dec_field fs "server_url" dec_string (Ctx_ServerURL cur) m;
  token ← dec_field fs "admin_token" dec_string (Ctx_AdminToken cur) m;
  ref ← dec_field fs "credential_ref" dec_string (Ctx_CredentialRef cur) m;
  env ← dec_field fs "environment_id" dec_string (Ctx_EnvironmentID cur) m;
  label ← dec_field fs "customer_label" dec_string (Ctx_CustomerLabel cur) m;
  identity ← dec_field fs "server_identity" dec_string (Ctx_ServerIdentity cur) m;
  Some (MkCliContext url token ref env label identity)).

Definition cli_fields : list string := ["server_url"; "admin_token"; "output"; "contexts"; "current_context"].
Definition enc_CliConfig (c : CliConfig) : json :=
  JObj ([("server_url", enc_string (Cli_ServerURL c)); ("admin_token", enc_string (Cli_AdminToken c)); ("output", enc_string (Cli_Output c))]
    ++ enc_ptr "contexts" (enc_map enc_CliContext) (Cli_Contexts c) ++ enc_str_field "current_context" (Cli_CurrentContext c))%list.
Definition dec_CliConfig : decoder CliConfig := dec_struct (fun cur m =>
  let fs := cli_fields in
  url ← dec_field fs "server_url" dec_string (Cli_ServerURL cur) m;
  token ← dec_field fs "admin_token" dec_string (Cli_AdminToken cur) m;
  output ← dec_field fs "output" dec_string (Cli_Output cur) m;
  contexts ← dec_field fs "contexts" (dec_ptr ∅ (dec_map zero_context dec_CliContext)) (Cli_Contexts cur) m;
  current ← dec_field fs "current_context" dec_string (Cli_CurrentContext cur) m;
  Some (MkCliConfig url token output contexts current)).

Definition with_output (c : CliConfig) : CliConfig :=
  MkCliConfig (Cli_ServerURL c) (Cli_AdminToken c) (or_text (Cli_Output c) defaultOutputFormat) (Cli_Contexts c) (Cli_CurrentContext c).

Definition Config_Context (c : CliConfig) (name : string) : result CliContext :=
  let name := TrimSpace name in
  if String.eqb name "" then Err (ErrSentinel "context name is required")
  else match default ∅ (Cli_Contexts c) !! name with
       | Some ctx => Ok ctx
       | None => Err (ErrWrap "%w: %q" [AStr name] ErrContextNotFound)
       end.

(** The process environment and [os.UserConfigDir]; and, since the files of a host keep
    neither owners nor inodes, whether the user owns a file that was looked at and
    whether two looks met the same file. *)
Class UserEnv := {
  getenv : string -> string; UserConfigDir : result string; owned : string -> node -> bool; SameFile : node -> node -> bool }.

Section files.
Context `{UserEnv}.

Definition DefaultConfigPath : result string :=
  match UserConfigDir with
  | Ok dir => Ok (Clean (joinPath (joinPath dir "deployer") "config.json"))
  | Err e => Err (ErrWrap "find user config directory: %w" [] e)
  end.
Definition resolveConfigPath (path : string) : result string := if String.eqb path "" then DefaultConfigPath else Ok path.

Definition LoadConfig (path : string) : OS CliConfig :=
  resolvedPath ← lift (resolveConfigPath path);
  data ← map_err (fun e => if errors_Is e ErrNotExist then ErrWrap "%w: run deployer login <server-url>" [] ErrConfigNotFound
                           else ErrWrap "read CLI config: %w" [] e) (ReadFile resolvedPath);
  match json_parse data with
  | Some j => match dec_CliConfig zero_cli j with
              | Some cfg => mret (with_output cfg)
              | None => throw (ErrWrap "parse CLI config: %w" [] (ErrSentinel "json"))
              end
  | None => throw (ErrWrap "parse CLI config: %w" [] (ErrSentinel "json"))
  end.

Definition SaveConfig (path : string) (cfg : CliConfig) : OS unit :=
  resolvedPath ← lift (resolveConfigPath path);
  let data := MarshalIndent (enc_CliConfig (with_output cfg)) +:+ line_feed in
  _ ← map_err (ErrWrap "create CLI config directory: %w" []) (MkdirAll (Dir resolvedPath));
  replace_by_rename "create temporary CLI config: %w" "protect temporary CLI config: %w" "write CLI config: %w" "sync CLI config: %w"
    "close CLI config: %w" "replace CLI config: %w" ".config.json-" resolvedPath data.

Definition ResolveContextCredential (ctx : CliContext) : OS string :=
  let token := TrimSpace (Ctx_AdminToken ctx) in
  let ref := TrimSpace (Ctx_CredentialRef ctx) in
  if negb (String.eqb token "") then mret token
  else if String.eqb ref "" then throw (ErrSentinel "context has no admin credential")
  else if HasPrefix ref "env:" then
    let name := TrimSpace (TrimPrefix ref "env:") in
    _ ← guard (String.eqb name "") (ErrSentinel "context credential reference has empty environment variable");
    _ ← guard (blank (getenv name)) (Errorf "context credential environment variable %q is empty" [AStr name]);
    mret (TrimSpace (getenv name))
  else if HasPrefix ref "file:" then
    let path := TrimSpace (TrimPrefix ref "file:") in
    _ ← guard (String.eqb path "") (ErrSentinel "context credential reference has empty file path");
    info ← map_err (ErrWrap "read context credential: %w" []) (Stat path);
    match info with
    | NFile perm content =>
        _ ← guard (64 * 1024 <? slen content) (ErrSentinel "context credential file is too large");
        _ ← guard (negb (Z.land perm 63 =? 0)) (Errorf "context credential file %q is accessible by other users" [AStr path]);
        data ← map_err (ErrWrap "read context credential: %w" []) (ReadFile path);
        _ ← guard (blank data) (ErrSentinel "context credential file is empty");
        mret (TrimSpace data)
    | _ => throw (ErrSentinel "context credential must be a regular file")
    end
  else throw (Errorf "unsupported context credential reference %q" [AStr ref]).

(** ** options.go *)

Record cliOptions := MkCliOptions {
  Opt_serverURL : string; Opt_serverSet : bool; Opt_token : string; Opt_tokenSet : bool; Opt_configPath : string; Opt_context : string; Opt_environmentID : string;
  Opt_customerLabel : string; Opt_serverIdentity : string; Opt_rebindServerIdentity : bool; Opt_output : string; Opt_outputSet : bool; Opt_showVersion : bool }.
Record runtimeOptions := MkRuntime {
  Run_serverURL : string; Run_token : string; Run_output : string; Run_context : string; Run_environmentID : string; Run_customerLabel : string;
  Run_expectedIdentity : string }.

Definition selectedContext (opts : cliOptions) (cfg : CliConfig) : string :=
  or_text (TrimSpace (Opt_context opts)) (or_text (TrimSpace (getenv "DEPLOYER_CONTEXT")) (TrimSpace (Cli_CurrentContext cfg))).

(** What the configuration says before the flags are applied. *)
Definition configured_options (cfg : CliConfig) (selected : string) : OS runtimeOptions :=
  let output := or_text (Cli_Output cfg) OutputHuman in
  if String.eqb selected "" then mret (MkRuntime (Cli_ServerURL cfg) (Cli_AdminToken cfg) output "" "" "" "")
  else
    ctx ← lift (Config_Context cfg selected);
    token ← map_err (ErrWrap "resolve context %q: %w" [AStr selected]) (ResolveContextCredential ctx);
    mret (MkRuntime (Ctx_ServerURL ctx) token output selected (Ctx_EnvironmentID ctx) (Ctx_CustomerLabel ctx) (Ctx_ServerIdentity ctx)).

Definition resolveRuntimeOptions (opts : cliOptions) : OS runtimeOptions :=
  loaded ← attempt (LoadConfig (Opt_configPath opts));
  cfg ← (match loaded with
         | Ok cfg => mret cfg
         | Err e => if errors_Is e ErrConfigNotFound then mret zero_cli else throw e
         end);
  let selected := selectedContext opts cfg in
  resolved ← configured_options cfg selected;
  _ ← guard (negb (String.eqb selected "") && (Opt_serverSet opts || negb (String.eqb (Opt_serverURL opts) "")))
        (ErrSentinel "cannot override a named context endpoint; select another context instead");
  let resolved := MkRuntime (or_text (Opt_serverURL opts) (Run_serverURL resolved)) (or_text (Opt_token opts) (Run_token resolved))
                    (if Opt_outputSet opts then Opt_output opts else Run_output resolved)
                    (Run_context resolved) (Run_environmentID resolved) (Run_customerLabel resolved) (Run_expectedIdentity resolved) in
  _ ← guard (String.eqb (Run_serverURL resolved) "" || String.eqb (Run_token resolved) "")
        (match loaded with
         | Err e => e
         | Ok _ => ErrSentinel "server URL and admin token are required; pass --server/--token or run deployer login <server-url>"
         end);
  _ ← lift (ValidateOutputFormat (Run_output resolved));
  mret resolved.
End files.

(** ** client.go: connections *)

(** A parsed URL and what the program does not look at. *)
Record url := MkUrl { url_Scheme : string; url_Host : string; url_Path : string; url_RawQuery : string; url_Fragment : string; url_Other : string }.

(** net/url *)
Class ClientUrls := { parse_url : string -> result url; url_Hostname : url -> string; url_String : url -> string }.

(** Target, server name of TLS and token of a client. *)
Record conn := MkConn { cn_target : string; cn_tls : option string; cn_token : string }.

Fixpoint trim_slashes (s : string) : string :=
  match s with
  | EmptyString => ""
  | String a s' => match trim_slashes s' with
                   | EmptyString => if Ascii.eqb a "/"%char then "" else String a ""
                   | t => String a t
                   end
  end.

Section dialing.
Context `{ClientUrls}.

Definition dialTargetAndCredentials (raw : string) : result (string * option string) :=
  let raw := TrimSpace raw in
  if String.eqb raw "" then Err (ErrSentinel "server URL is required; pass --server or run deployer login <server-url>")
  else if negb (str_Contains raw "://") then
    if str_Contains raw "/" then Err (Errorf "invalid server URL %q: expected host:port or http(s)://host:port" [AStr raw]) else Ok (raw, None)
  else match parse_url raw with
       | Err e => Err (ErrWrap "invalid server URL %q: %w" [AStr raw] e)
       | Ok u =>
           if negb (String.eqb (url_Scheme u) "http" || String.eqb (url_Scheme u) "https")
           then Err (Errorf "invalid server URL %q: expected http or https" [AStr raw])
           else if String.eqb (url_Host u) "" then Err (Errorf "invalid server URL %q: missing host" [AStr raw])
           else if String.eqb (url_Scheme u) "http" then Ok (url_Host u, None) else Ok (url_Host u, Some (url_Hostname u))
       end.

Definition NormalizeServerTarget (raw : string) : result string := '(target, _) ← dialTargetAndCredentials raw; Ok target.

Definition NormalizeServerURL (raw : string) : result string :=
  let raw := TrimSpace raw in
  if String.eqb raw "" then Err (ErrSentinel "server URL is required")
  else if negb (str_Contains raw "://") then
    if str_Contains raw "/" then Err (Errorf "invalid server URL %q: expected host:port or http(s)://host:port" [AStr raw]) else Ok raw
  else match parse_url raw with
       | Err e => Err (ErrWrap "invalid server URL %q: %w" [AStr raw] e)
       | Ok u => if String.eqb (url_Host u) "" then Err (Errorf "invalid server URL %q: missing host" [AStr raw])
                 else Ok (url_String (MkUrl (url_Scheme u) (url_Host u) (trim_slashes (url_Path u)) "" "" (url_Other u)))
       end.
End dialing.

(** ** client.go: replies *)

Record ServerStatus := MkServerStatus { Status_Version : string; Status_Commit : string; Status_BuildDate : string; Status_Ready : bool; Status_ServerIdentity : string }.
Record NodeInfo := MkNodeInfo {
  NI_ID : string; NI_Name : string; NI_Status : string; NI_Labels : gmap string string; NI_CreatedAt : string; NI_UpdatedAt : string; NI_LastSeenAt : string;
  NI_Hostname : string; NI_Arch : string; NI_OS : string; NI_Kernel : string; NI_WireGuardIP : string; NI_WireGuardPublicKey : string;
  NI_KubernetesStatus : string; NI_KubernetesMessage : string; NI_Schedulable : bool; NI_VPNStatus : string }.
Record AppInfo := MkAppInfo {
  AI_ID : string; AI_Name : string; AI_Image : string; AI_Replicas : Z; AI_Domain : string; AI_StateMode : string; AI_DesiredState : Config;
  AI_CreatedAt : string; AI_UpdatedAt : string }.
Record DeploymentInfo := MkDeploymentInfo {
  DI_ID : string; DI_AppID : string; DI_Status : string; DI_FailureReason : string; DI_CreatedAt : string; DI_UpdatedAt : string }.
Record RouteInfo := MkRouteInfo { RI_ID : string; RI_AppID : string; RI_Domain : string; RI_TargetPort : Z; RI_Status : string; RI_TLSEnabled : bool }.
Record JoinTokenResult := MkJoinTokenResult { JT_NodeName : string; JT_JoinToken : string; JT_ExpiresAt : string; JT_Command : string }.
Record DeployResult := MkDeployResult { DR_App : AppInfo; DR_Deployment : DeploymentInfo; DR_WithdrawalConfirmed : bool; DR_RequestedState : string }.
Record DeleteAppResult := MkDeleteAppResult { Del_Name : string; Del_Deleted : bool; Del_AlreadyAbsent : bool }.
Record PreflightResult := MkPreflightResult { Pre_DesiredState : string; Pre_Warnings : list string }.
Record AppInspectResult := MkAppInspectResult { Insp_App : AppInfo; Insp_Deployments : list DeploymentInfo; Insp_Routes : list RouteInfo }.
Record AppStatusResult := MkAppStatusResult {
  AS_App : AppInfo; AS_LatestDeployment : DeploymentInfo; AS_Routes : list RouteInfo; AS_RuntimeStatus : string; AS_DesiredReplicas : Z;
  AS_AvailableReplicas : Z; AS_RunningNodes : list string; AS_Database : option PbDatabaseStatus; AS_Warnings : list warning }.
Record EventInfo := MkEventInfo {
  EI_ID : string; EI_CreatedAt : string; EI_Type : string; EI_Severity : string; EI_Message : string; EI_AppID : string; EI_NodeID : string;
  EI_DeploymentID : string; EI_Metadata : string }.
Record ClientEventFilter := MkClientFilter { CF_App : string; CF_Node : string; CF_Type : string; CF_Severity : string; CF_Since : Z; CF_Limit : Z }.
Record DeployRequestResult := MkDeployRequestResult {
  DRR_AppName : string; DRR_RequestID : string; DRR_State : string; DRR_RequestedState : string; DRR_Result : option DeployResult }.

Definition nodeInfo (node : option PbNode) : NodeInfo :=
  match node with
  | None => MkNodeInfo "" "" "" ∅ "" "" "" "" "" "" "" "" "" "" "" false ""
  | Some n => MkNodeInfo (pb_node_id n) (pb_node_name n) (pb_node_status n) (pb_node_labels n) (pb_node_created n) (pb_node_updated n) (pb_node_seen n)
                (pb_node_hostname n) (pb_node_arch n) (pb_node_os n) (pb_node_kernel n) (pb_node_ip n) (pb_node_key n) (pb_node_kstatus n)
                (pb_node_kmessage n) (pb_node_schedulable n) (pb_node_vpn n)
  end.
Definition deploymentInfo (deployment : option PbDeployment) : DeploymentInfo :=
  match deployment with
  | None => MkDeploymentInfo "" "" "" "" "" ""
  | Some d => MkDeploymentInfo (pb_dep_id d) (pb_dep_app_id d) (pb_dep_status d) (pb_dep_failure d) (pb_dep_created d) (pb_dep_updated d)
  end.
Definition routeInfo (route : option PbRoute) : RouteInfo :=
  match route with
  | None => MkRouteInfo "" "" "" 0 "" false
  | Some r => MkRouteInfo (pb_route_id r) (pb_route_app_id r) (pb_route_domain r) (pb_route_port r) (pb_route_status r) (pb_route_tls r)
  end.

Definition eventInfo (event : option PbEvent) : EventInfo :=
  match event with
  | None => MkEventInfo "" "" "" "" "" "" "" "" ""
  | Some e => MkEventInfo (pe_Id e) (pe_CreatedAt e) (pe_Type e) (pe_Severity e) (pe_Message e) (pe_AppId e) (pe_NodeId e) (pe_DeploymentId e)
                (if json_Valid (pe_MetadataJson e) then pe_MetadataJson e else "{}")
  end.

Definition eventSince (since : Z) : string := if IsZero since then "" else formatTime since.
Definition eventListRequest (filter : ClientEventFilter) : EventQuery * Z :=
  (MkEventQuery (CF_App filter) (CF_Node filter) (CF_Type filter) (CF_Severity filter) (eventSince (CF_Since filter)), wrap_i32 (CF_Limit filter)).

Section decoding.
Context `{AppEnv}.

Definition appInfo (app : option PbApp) : result AppInfo :=
  match app with
  | None => Ok (MkAppInfo "" "" "" 0 "" "" zero_config "" "")
  | Some a =>
      match FromJSON (pb_app_state a) with
      | Err e => Err (ErrWrap "decode desired state for app %q: %w" [AStr (pb_app_name a)] e)
      | Ok cfg => Ok (MkAppInfo (pb_app_id a) (pb_app_name a) (pb_app_image a) (pb_app_replicas a) (Routing_Domain (Cfg_Routing cfg))
                        (State_Mode (Cfg_State cfg)) cfg (pb_app_created a) (pb_app_updated a))
      end
  end.

Fixpoint appInfos (apps : list PbApp) : result (list AppInfo) :=
  match apps with
  | [] => Ok []
  | app :: rest => info ← appInfo (Some app); infos ← appInfos rest; Ok (info :: infos)
  end.

Definition deployResult (response : DeployAppResponse) : result DeployResult :=
  app ← appInfo (rsp_App response);
  Ok (MkDeployResult app (deploymentInfo (rsp_Deployment response)) (rsp_WithdrawalConfirmed response) (rsp_RequestedState response)).

(** ** deploy_requests.go: the reply about a request *)

Definition decodeDeployRequestMetadata (response : DeployRequestMetadata) (app id : string) : result DeployRequestResult :=
  if negb (String.eqb (meta_AppName response) app) || negb (String.eqb (meta_RequestID response) id) || negb (json_Valid (meta_RequestedState response))
  then Err (ErrSentinel "invalid deployment request metadata")
  else
    let out := MkDeployRequestResult app id (meta_State response) (meta_RequestedState response) in
    if String.eqb (meta_State response) "pending" then
      match meta_Result response with Some _ => Err (ErrSentinel "pending deployment request has a result") | None => Ok (out None) end
    else if String.eqb (meta_State response) "applied" || String.eqb (meta_State response) "withdrawn" then
      match meta_Result response with
      | None => Err (ErrSentinel "deployment request result missing or invalid")
      | Some r => if negb (json_Valid (rsp_RequestedState r)) then Err (ErrSentinel "deployment request result missing or invalid")
                  else result ← deployResult r; Ok (out (Some result))
      end
    else Err (ErrSentinel "unknown deployment request state").
End decoding.

(** ** client.go: calls *)

Inductive request_action := RequestLookup | RequestAdvance | RequestRecover.
Inductive node_action := NodeDrain | NodeUncordon | NodeRemove.

(** The methods the client calls, and the messages of their replies; of a stream, the
    messages until its end and the error that ended it, if any. *)
Inductive api_request :=
| GetStatus | CreateJoinTokenCall (node : string) (labels : gmap string string) | ListNodesCall | GetNodeCall (ref : string) | NodeCall (op : node_action) (ref : string)
| PurgeNodeCall (ref : string) | RenameNodeCall (ref new_name : string) | DeployAppCall (req : DeployAppRequest) | PreflightAppCall (yaml : string)
| DeleteAppCall (name : string) | ListAppsCall | InspectAppCall (name : string) | GetAppStatusCall (name : string) | ListRoutesCall | InspectRouteCall (domain : string)
| SetSecretCall (app name value : string) | ListSecretsCall (app : string) | DeleteSecretCall (app name : string)
| ListEventsCall (query : EventQuery * Z) | WatchEventsCall (query : EventQuery) | LogsCall (app : string) (tail : Z) (follow : bool)
| CreateRegistryCall (app revision registry username password : string) | ListRegistryCall (app : string)
| CreateEnvironmentCall (app revision : string) (values : gmap string string)
| DeployRequestCall (action : request_action) (app id : string) | WithdrawCall (req : DeployAppRequest).

Definition answer (q : api_request) : Type :=
  match q with
  | GetStatus => ServerStatus
  | CreateJoinTokenCall _ _ => string * string * string
  | ListNodesCall => list PbNode
  | GetNodeCall _ | NodeCall _ _ | RenameNodeCall _ _ => option PbNode
  | PurgeNodeCall _ => string
  | DeployAppCall _ => DeployAppResponse
  | PreflightAppCall _ => string * list string
  | DeleteAppCall _ => option PbApp
  | ListAppsCall => list PbApp
  | InspectAppCall _ => PbApp * list PbDeployment * list PbRoute
  | GetAppStatusCall _ => GetAppStatusResponse
  | ListRoutesCall => list PbRoute
  | InspectRouteCall _ => option PbRoute
  | SetSecretCall _ _ _ | DeleteSecretCall _ _ => unit
  | ListSecretsCall _ => list string
  | ListEventsCall _ => list PbEvent
  | WatchEventsCall _ => list (option PbEvent) * option rpc_error
  | LogsCall _ _ _ => list (list string) * option rpc_error
  | CreateRegistryCall _ _ _ _ _ => option RegistryCredentialMetadata
  | ListRegistryCall _ => list RegistryCredentialMetadata
  | CreateEnvironmentCall _ _ _ => option EnvironmentBundleMetadata
  | DeployRequestCall _ _ _ | WithdrawCall _ => DeployRequestMetadata
  end.

Class ControlPlanes (E : Type) := {
  grpc_NewClient : string -> result unit;
  api_Invoke : conn -> forall q, E -> (answer q + rpc_error) * E
}.

Inductive api_call := ApiCall (c : conn) (q : api_request) (r : answer q + rpc_error).

(** Where a command runs: the files, the servers, and the calls so far. *)
Record desk (E : Type) := MkDesk { dk_host : host; dk_net : E; dk_calls : list api_call }.
Arguments MkDesk {E}. Arguments dk_host {E}. Arguments dk_net {E}. Arguments dk_calls {E}.

Section client.
Context `{AppEnv} `{UserEnv} `{ClientUrls} {E : Type} `{!ControlPlanes E}.
Notation C := (ST (desk E)).

Definition on_disk {A} (m : OS A) : C A := fun d => let '(r, h) := m (dk_host d) in (r, MkDesk h (dk_net d) (dk_calls d)).
Definition send (c : conn) (q : api_request) : C (answer q + rpc_error) := fun d =>
  let '(r, e) := api_Invoke c q (dk_net d) in (Ok r, MkDesk (dk_host d) e (dk_calls d ++ [ApiCall c q r])%list).
Definition api (c : conn) (q : api_request) : C (answer q) := r ← send c q; lift (decoded r).

Definition NewPlatformClient (serverURL token : string) : result conn :=
  '(target, tls) ← dialTargetAndCredentials serverURL;
  _ ← wrapped "create gRPC client for %q: %w" (grpc_NewClient target);
  Ok (MkConn target tls token).

(** [GetStatus] and its fields. *)
Definition Client_Status (c : conn) : C ServerStatus := api c GetStatus.

Definition VerifyServerIdentity (c : conn) (expected : string) : C unit :=
  status ← Client_Status c;
  if blank expected then mret tt
  else
    _ ← guard (String.eqb (Status_ServerIdentity status) "") (ErrSentinel "server does not support identity binding; refusing bound context");
    guard (negb (String.eqb (Status_ServerIdentity status) expected))
      (Errorf "server identity mismatch: expected %q, got %q" [AStr expected; AStr (Status_ServerIdentity status)]).

Definition Client_CreateJoinToken (c : conn) (nodeName : string) (labels : gmap string string) : C JoinTokenResult :=
  '(token, expires, name) ← api c (CreateJoinTokenCall nodeName labels); mret (MkJoinTokenResult name token expires "").
Definition Client_ListNodes (c : conn) : C (list NodeInfo) := nodes ← api c ListNodesCall; mret ((fun n => nodeInfo (Some n)) <$> (nodes : list PbNode)).
Definition Client_GetNode (c : conn) (ref : string) : C NodeInfo := node ← api c (GetNodeCall ref); mret (nodeInfo node).
Definition Client_DrainNode (c : conn) (ref : string) : C NodeInfo := node ← api c (NodeCall NodeDrain ref); mret (nodeInfo node).
Definition Client_UncordonNode (c : conn) (ref : string) : C NodeInfo := node ← api c (NodeCall NodeUncordon ref); mret (nodeInfo node).
Definition Client_RemoveNode (c : conn) (ref : string) : C NodeInfo := node ← api c (NodeCall NodeRemove ref); mret (nodeInfo node).
Definition Client_PurgeNode (c : conn) (ref : string) : C string := api c (PurgeNodeCall ref).
Definition Client_RenameNode (c : conn) (ref newName : string) : C NodeInfo := node ← api c (RenameNodeCall ref newName); mret (nodeInfo node).

Definition deployApp (c : conn) (yaml : string) (report : bool) (id : string) : C DeployResult :=
  response ← api c (DeployAppCall (MkDeployAppRequest yaml id report)); lift (deployResult response).
Definition Client_DeployApp (c : conn) (yaml : string) : C DeployResult := deployApp c yaml false "".
Definition DeployAppReportingWithdrawal (c : conn) (yaml : string) : C DeployResult := deployApp c yaml true "".

(** [^[a-f0-9]{64}$], the pattern of revisions. *)
Definition deployRequestIDPattern : regex := revisionPattern.
Definition check_request_id (id : string) : C unit := guard (negb (re_match deployRequestIDPattern id)) (ErrSentinel "invalid deployment request ID").

Definition DeployAppTracked (c : conn) (yaml id : string) : C DeployResult := _ ← check_request_id id; deployApp c yaml true id.

Definition mutateDeployRequest (c : conn) (app id : string) (action : request_action) : C DeployRequestResult :=
  _ ← check_request_id id;
  response ← api c (DeployRequestCall action app id);
  lift (decodeDeployRequestMetadata response app id).
Definition Client_GetDeployRequest (c : conn) (app id : string) : C DeployRequestResult := mutateDeployRequest c app id RequestLookup.
Definition Client_AdvanceDeployRequest (c : conn) (app id : string) : C DeployRequestResult := mutateDeployRequest c app id RequestAdvance.
Definition Client_RecoverDeployRequest (c : conn) (app id : string) : C DeployRequestResult := mutateDeployRequest c app id RequestRecover.

Definition Client_Withdraw (decode : string -> result Config) (c : conn) (yaml id : string) : C DeployRequestResult :=
  _ ← check_request_id id;
  cfg ← map_err (ErrWrap "parse deployment configuration: %w" []) (lift (Parse decode yaml));
  _ ← guard (String.eqb (Cfg_Name cfg) "") (ErrSentinel "deployment configuration name is required");
  response ← api c (WithdrawCall (MkDeployAppRequest yaml id true));
  lift (decodeDeployRequestMetadata response (Cfg_Name cfg) id).

Definition Client_DeleteApp (c : conn) (name : string) : C DeleteAppResult :=
  reply ← send c (DeleteAppCall name);
  match reply with
  | inr (RpcStatus RpcNotFound _) => mret (MkDeleteAppResult name false true)
  | inr e => throw (ErrSentinel (DecodeRPCError e))
  | inl app => mret (MkDeleteAppResult (match app with Some a => or_text (pb_app_name a) name | None => name end) true false)
  end.

Definition Client_PreflightApp (c : conn) (yaml : string) : C PreflightResult :=
  '(desired, warnings) ← api c (PreflightAppCall yaml); mret (MkPreflightResult desired warnings).
Definition Client_ListApps (c : conn) : C (list AppInfo) := apps ← api c ListAppsCall; lift (appInfos apps).
Definition Client_InspectApp (c : conn) (name : string) : C AppInspectResult :=
  '(app, deployments, routes) ← api c (InspectAppCall name);
  info ← lift (appInfo (Some app));
  mret (MkAppInspectResult info ((fun d => deploymentInfo (Some d)) <$> deployments) ((fun r => routeInfo (Some r)) <$> routes)).
Definition Client_GetAppStatus (c : conn) (name : string) : C AppStatusResult :=
  response ← api c (GetAppStatusCall name);
  app ← lift (appInfo (Some (gas_App response)));
  mret (MkAppStatusResult app (deploymentInfo (gas_LatestDeployment response)) ((fun r => routeInfo (Some r)) <$> gas_Routes response) (gas_RuntimeStatus response)
          (gas_DesiredReplicas response) (gas_AvailableReplicas response) (gas_RunningNodes response) (gas_Database response) (gas_Warnings response)).
Definition Client_ListRoutes (c : conn) : C (list RouteInfo) := routes ← api c ListRoutesCall; mret ((fun r => routeInfo (Some r)) <$> (routes : list PbRoute)).
Definition Client_InspectRoute (c : conn) (domain : string) : C RouteInfo := route ← api c (InspectRouteCall domain); mret (routeInfo route).
Definition Client_SetSecret (c : conn) (app name value : string) : C unit := api c (SetSecretCall app name value).
Definition Client_ListSecrets (c : conn) (app : string) : C (list string) := api c (ListSecretsCall app).
Definition Client_DeleteSecret (c : conn) (app name : string) : C unit := api c (DeleteSecretCall app name).

Definition Client_ListEvents (c : conn) (filter : ClientEventFilter) : C (list EventInfo) :=
  events ← api c (ListEventsCall (eventListRequest filter)); mret ((fun e => eventInfo (Some e)) <$> (events : list PbEvent)).

Definition Client_WatchEvents (c : conn) (filter : ClientEventFilter) : C (list EventInfo) :=
  '(received, ended) ← api c (WatchEventsCall (MkEventQuery (CF_App filter) (CF_Node filter) (CF_Type filter) (CF_Severity filter) (eventSince (CF_Since filter))));
  match (ended : option rpc_error) with
  | None => mret (eventInfo <$> (received : list (option PbEvent)))
  | Some e => throw (ErrSentinel (DecodeRPCError e))
  end.

Definition StreamLogs (c : conn) (app : string) (tail : Z) (follow : bool) : C (list string) :=
  '(received, ended) ← api c (LogsCall app tail follow);
  match (ended : option rpc_error) with
  | None => mret (List.concat received)
  | Some e => throw (ErrSentinel (DecodeRPCError e))
  end.

Record RegistryCredentialInfo := MkRegistryInfo { RCI_AppName : string; RCI_Revision : string; RCI_Registry : string; RCI_CreatedAt : string }.
Definition registryCredentialInfo (credential : option RegistryCredentialMetadata) : RegistryCredentialInfo :=
  match credential with
  | None => MkRegistryInfo "" "" "" ""
  | Some m => MkRegistryInfo (RM_AppName m) (RM_Revision m) (RM_Registry m) (RM_CreatedAt m)
  end.

Definition Client_CreateRegistryCredential (c : conn) (app revision registry username password : string) : C RegistryCredentialInfo :=
  reply ← send c (CreateRegistryCall app revision registry username password);
  match reply with
  | inr _ => throw (ErrSentinel "registry credential creation failed")
  | inl credential => mret (registryCredentialInfo credential)
  end.
Definition Client_ListRegistryCredentials (c : conn) (app : string) : C (list RegistryCredentialInfo) :=
  reply ← send c (ListRegistryCall app);
  match reply with
  | inr _ => throw (ErrSentinel "registry credential listing failed")
  | inl credentials => mret ((fun m => registryCredentialInfo (Some m)) <$> (credentials : list RegistryCredentialMetadata))
  end.

Definition Client_CreateEnvironmentBundle (c : conn) (app revision : string) (values : gmap string string) : C EnvironmentBundleMetadata :=
  bundle ← api c (CreateEnvironmentCall app revision values);
  match (bundle : option EnvironmentBundleMetadata) with
  | Some b => if negb (String.eqb (EM_AppName b) app) || negb (String.eqb (EM_Revision b) revision)
              then throw (ErrSentinel "environment service returned invalid metadata") else mret b
  | None => throw (ErrSentinel "environment service returned invalid metadata")
  end.

(** ** main.go, login.go, contexts.go *)

Definition newVerifiedPlatformClient (opts : runtimeOptions) : C conn :=
  c ← lift (NewPlatformClient (Run_serverURL opts) (Run_token opts));
  _ ← (if String.eqb (Run_expectedIdentity opts) "" then mret tt else VerifyServerIdentity c (Run_expectedIdentity opts));
  mret c.

(** The beginning of every command that calls the server. *)
Definition with_client {A} (opts : cliOptions) (body : conn -> runtimeOptions -> C A) : C A :=
  resolved ← on_disk (resolveRuntimeOptions opts);
  c ← newVerifiedPlatformClient resolved;
  body c resolved.

Definition resolveLoginOutput (opts : cliOptions) : OS string :=
  if Opt_outputSet opts then mret (Opt_output opts)
  else
    loaded ← attempt (LoadConfig (Opt_configPath opts));
    match loaded with
    | Ok cfg => mret (Cli_Output cfg)
    | Err e => if errors_Is e ErrConfigNotFound then mret (Opt_output opts) else throw e
    end.

(** The configuration after a login. *)
Definition login_config (opts : cliOptions) (serverURL token output identity : string) (cfg : CliConfig) : result CliConfig :=
  let contextName := TrimSpace (Opt_context opts) in
  if String.eqb contextName "" then Ok (MkCliConfig serverURL token output (Cli_Contexts cfg) "")
  else
    let contexts := default ∅ (Cli_Contexts cfg) in
    let entry := default zero_context (contexts !! contextName) in
    let existing := TrimSpace (Ctx_ServerIdentity entry) in
    if negb (String.eqb existing "") && negb (String.eqb existing identity) && negb (Opt_rebindServerIdentity opts)
    then Err (Errorf "context %q is bound to a different server identity; pass --rebind-server-identity to rebind" [AStr contextName])
    else
      let entry := MkCliContext serverURL token "inline" (or_text (Opt_environmentID opts) (Ctx_EnvironmentID entry))
                     (or_text (Opt_customerLabel opts) (Ctx_CustomerLabel entry)) identity in
      Ok (MkCliConfig (Cli_ServerURL cfg) (Cli_AdminToken cfg) output (Some (<[contextName := entry]> contexts)) contextName).

(** [line]: what is typed at the prompt. *)
Definition login (arg : string) (line : result string) (opts : cliOptions) : C unit :=
  serverURL ← map_err (fun _ => ErrUsage) (lift (NormalizeServerURL arg));
  token ← (if negb (blank (Opt_token opts)) then mret (TrimSpace (Opt_token opts))
           else typed ← map_err (ErrWrap "read admin token: %v" []) (lift line); mret (TrimSpace typed));
  _ ← guard (String.eqb token "") ErrUsage;
  c ← lift (NewPlatformClient serverURL token);
  status ← Client_Status c;
  _ ← guard (negb (blank (Opt_serverIdentity opts)) && negb (String.eqb (Status_ServerIdentity status) (TrimSpace (Opt_serverIdentity opts))))
        (Errorf "server identity mismatch: expected %q, got %q" [AStr (TrimSpace (Opt_serverIdentity opts)); AStr (Status_ServerIdentity status)]);
  output ← on_disk (resolveLoginOutput opts);
  loaded ← attempt (on_disk (LoadConfig (Opt_configPath opts)));
  cfg ← (match loaded with
         | Ok cfg => mret cfg
         | Err e => if errors_Is e ErrConfigNotFound then mret zero_cli else throw e
         end);
  updated ← lift (login_config opts serverURL token output (Status_ServerIdentity status) cfg);
  on_disk (SaveConfig (Opt_configPath opts) updated).

(** [contexts use] *)
Definition contexts_use (arg : string) (opts : cliOptions) : OS string :=
  cfg ← LoadConfig (Opt_configPath opts);
  _ ← guard (blank arg) ErrUsage;
  name ← (if String.eqb (TrimSpace arg) "--legacy" then mret ""
          else _ ← lift (Config_Context cfg (TrimSpace arg)); mret (TrimSpace arg));
  _ ← SaveConfig (Opt_configPath opts) (MkCliConfig (Cli_ServerURL cfg) (Cli_AdminToken cfg) (Cli_Output cfg) (Cli_Contexts cfg) name);
  mret name.

(** [contexts list]: what is printed is not kept. *)
Definition contexts_list (opts : cliOptions) : OS Z :=
  loaded ← attempt (LoadConfig (Opt_configPath opts));
  match loaded with
  | Ok _ => mret 0
  | Err e => if errors_Is e ErrConfigNotFound then mret 0 else throw e
  end.

Inductive contexts_command := ContextsList | ContextsUse (arg : string).
Definition contexts (command : contexts_command) (opts : cliOptions) : C Z :=
  on_disk (match command with ContextsList => contexts_list opts | ContextsUse arg => _ ← contexts_use arg opts; mret 0 end).

(** ** doctor.go *)

Inductive doctorSeverity := doctorPass | doctorWarn | doctorFail.
Record doctorCheck := MkCheck { Check_Name : string; Check_Status : doctorSeverity; Check_Message : string; Check_Guidance : string }.
Notation doctorReport := (list doctorCheck).

Definition is_failure (check : doctorCheck) : bool := match Check_Status check with doctorFail => true | _ => false end.
Definition hasFailures (report : doctorReport) : bool := existsb is_failure report.

Definition unresolved_message : string := "unresolved: local doctor cannot certify this external requirement".
Definition hostingReportHasUnresolved (report : doctorReport) : bool :=
  existsb (fun check => match Check_Status check with doctorWarn => String.eqb (Check_Message check) unresolved_message | _ => false end) report.

Definition valueOrDash (value : string) : string := or_text value "-".
Definition count {A} (p : A -> bool) (l : list A) : Z := Z.of_nat (List.length (List.filter p l)).

Definition nodeDoctorChecks (nodes : list NodeInfo) : list doctorCheck :=
  match nodes with
  | [] => [MkCheck "nodes" doctorWarn "no nodes are enrolled"
             "run deployer nodes add <name>, then deployer-agent join and deployer-agent join-k3s on a worker"]
  | _ =>
      let offline := count (fun n => String.eqb (NI_Status n) "offline") nodes in
      let readyWorkers := count (fun n => String.eqb (NI_KubernetesStatus n) "ready" && NI_Schedulable n) nodes in
      let vpnConnected := count (fun n => String.eqb (NI_VPNStatus n) "connected") nodes in
      [if 0 <? readyWorkers then MkCheck "Kubernetes workers" doctorPass (Itoa readyWorkers +:+ " schedulable Kubernetes-ready node(s)") ""
       else MkCheck "Kubernetes workers" doctorWarn "no schedulable Kubernetes-ready nodes found"
              "run deployer nodes inspect <node> and ensure deployer-agent join-k3s completed";
       if 0 <? vpnConnected then MkCheck "WireGuard connectivity" doctorPass (Itoa vpnConnected +:+ " node(s) report VPN connected") ""
       else MkCheck "WireGuard connectivity" doctorWarn "no nodes report VPN connected"
              "check DEPLOYER_WIREGUARD_ENDPOINT, hub public key, and deployer-agent join-k3s output";
       if 0 <? offline then MkCheck "node heartbeats" doctorWarn (Itoa offline +:+ " enrolled node(s) are offline")
              "check deployer-agent.service and network reachability on offline nodes"
       else MkCheck "node heartbeats" doctorPass "no enrolled nodes are offline" ""]
  end.

Definition ingressDoctorCheck (routes : list RouteInfo) : doctorCheck :=
  let unhealthy := count (fun r => negb (String.eqb (RI_Status r) "healthy")) routes in
  match routes with
  | [] => MkCheck "ingress" doctorWarn "no routes are configured" "deploy an app with routing.domain to exercise ingress"
  | _ => if unhealthy =? 0 then MkCheck "ingress" doctorPass (Itoa (Z.of_nat (List.length routes)) +:+ " healthy route(s)") ""
         else MkCheck "ingress" doctorWarn (Itoa unhealthy +:+ " route(s) are not healthy")
                "run deployer routes inspect <domain> and check ingress controller/cert-manager state"
  end.

(** [error_text]: the message of an error. *)
Context (error_text : error -> string).

Definition runDoctor (c : conn) : C doctorReport :=
  status ← attempt (Client_Status c);
  match status with
  | Err e => mret [MkCheck "control plane" doctorFail (error_text e) "verify --server, --token, network reachability, and that deployer-server is running"]
  | Ok s =>
      let reached := MkCheck "control plane" doctorPass ("reachable (" +:+ Status_Version s +:+ " " +:+ Status_Commit s +:+ ")") "" in
      let ready := if Status_Ready s then MkCheck "database and Kubernetes readiness" doctorPass "server reports ready" ""
                   else MkCheck "database and Kubernetes readiness" doctorFail "server reports not ready"
                          "check deployer-server logs, DEPLOYER_DATABASE_URL, and kubeconfig access" in
      nodes ← attempt (Client_ListNodes c);
      match nodes with
      | Err e => mret [reached; ready; MkCheck "nodes" doctorFail (error_text e) "verify the admin token can call NodeService/ListNodes"]
      | Ok ns =>
          routes ← attempt (Client_ListRoutes c);
          mret ([reached; ready] ++ nodeDoctorChecks ns ++
                [match routes with
                 | Err e => MkCheck "ingress" doctorWarn (error_text e) "deploy an app with routing or check ingress controller and cert-manager configuration"
                 | Ok rs => ingressDoctorCheck rs
                 end])%list
      end
  end.

Definition findAppRoute (routes : list RouteInfo) (app : AppInfo) : option RouteInfo :=
  List.find (fun route => String.eqb (RI_AppID route) (AI_ID app) || String.eqb (RI_Domain route) (AI_Domain app)) routes.

Definition bool_text (b : bool) : string := if b then "true" else "false".

Definition profile_check (app : AppInfo) : doctorCheck :=
  let name := "hosting profile: " +:+ AI_Name app in
  match Cfg_Hosting (AI_DesiredState app) with
  | None => MkCheck name doctorFail "application has no declared hosting profile" "add an explicit hosting.version and resource profile before hosting readiness review"
  | Some hosting =>
      if is_ok (Hosting_Validate (Some hosting) (AI_Replicas app))
      then MkCheck name doctorPass ("declared " +:+ Hosting_Version hosting +:+ " profile with replica limit " +:+ Itoa (Hosting_MaxReplicas hosting)) ""
      else MkCheck name doctorFail "declared hosting profile is invalid" "repair the hosting profile and redeploy the application"
  end.

Definition health_check (app : AppInfo) (status : result AppStatusResult) : doctorCheck :=
  let name := "hosting health: " +:+ AI_Name app in
  match status with
  | Err e => MkCheck name doctorFail ("cannot inspect application health: " +:+ error_text e)
               ("run deployer status " +:+ AI_Name app +:+ " and inspect the latest deployment")
  | Ok s =>
      let replicas := Itoa (AS_AvailableReplicas s) +:+ "/" +:+ Itoa (AS_DesiredReplicas s) +:+ " replicas available" in
      if negb (String.eqb (AS_RuntimeStatus s) "healthy") || (AS_AvailableReplicas s <? AS_DesiredReplicas s)
      then MkCheck name doctorFail ("runtime " +:+ valueOrDash (AS_RuntimeStatus s) +:+ " with " +:+ replicas)
             "inspect application readiness, rollout events, and capacity"
      else MkCheck name doctorPass ("healthy with " +:+ replicas) ""
  end.

Definition route_check (app : AppInfo) (routes : result (list RouteInfo)) : doctorCheck :=
  let name := "HTTPS route: " +:+ AI_Name app in
  if String.eqb (AI_Domain app) "" then MkCheck name doctorPass "no public route declared" ""
  else match routes with
       | Err _ => MkCheck name doctorFail "cannot inspect routes" "verify AppService/ListRoutes and ingress health"
       | Ok rs =>
           match findAppRoute rs app with
           | Some route =>
               if RI_TLSEnabled route && String.eqb (RI_Status route) "healthy" then MkCheck name doctorPass "healthy route with TLS enabled" ""
               else MkCheck name doctorFail ("route status " +:+ valueOrDash (RI_Status route) +:+ ", TLS enabled=" +:+ bool_text (RI_TLSEnabled route))
                      "inspect the route, certificate, and cert-manager status"
           | None => MkCheck name doctorFail "route is missing or not healthy HTTPS" "inspect the route, certificate, and cert-manager status"
           end
       end.

Fixpoint app_checks (c : conn) (routes : result (list RouteInfo)) (apps : list AppInfo) : C (list doctorCheck) :=
  match apps with
  | [] => mret []
  | app :: rest =>
      status ← attempt (Client_GetAppStatus c (AI_Name app));
      checks ← app_checks c routes rest;
      mret (profile_check app :: health_check app status :: route_check app routes :: checks)
  end.

Definition external_gates : list doctorCheck :=
  (fun gate => MkCheck gate doctorWarn unresolved_message "verify the hosting operations evidence and record the result outside deployer") <$>
  ["independent backup and restore evidence"; "real alert delivery"; "external availability monitoring"; "off-host audit retention"; "fleet pin state"; "CNI enforcement"].

Definition runHostingDoctor (c : conn) (report : doctorReport) : C doctorReport :=
  apps ← attempt (Client_ListApps c);
  checks ← (match apps with
            | Err e => mret [MkCheck "hosting apps" doctorFail ("cannot list applications: " +:+ error_text e) "verify the admin token can call AppService/ListApps"]
            | Ok l => routes ← attempt (Client_ListRoutes c); app_checks c routes l
            end);
  mret (report ++ checks ++ external_gates)%list.

(** The report and the exit code. *)
Definition doctor (hosting : bool) (opts : cliOptions) : C (doctorReport * Z) :=
  with_client opts (fun c _ =>
    report ← runDoctor c;
    report ← (if hosting then runHostingDoctor c report else mret report);
    mret (report, if hasFailures report || (hosting && hostingReportHasUnresolved report) then 1 else 0)).

(** ** The other commands: the exit code *)

Context (decode : string -> result Config).

Definition readDeployConfig (path : string) : OS (string * Config) :=
  data ← map_err (ErrWrap "read %s: %v" [AStr path]) (ReadFile path);
  cfg ← lift (Parse decode data);
  mret (data, cfg).

Definition deploy (path requestID : string) (dryRun reportWithdrawal : bool) (opts : cliOptions) : C Z :=
  '(data, _) ← on_disk (readDeployConfig path);
  if dryRun then mret 0
  else with_client opts (fun c resolved =>
    result ← (if negb (String.eqb requestID "") then DeployAppTracked c data requestID
              else if reportWithdrawal then DeployAppReportingWithdrawal c data else Client_DeployApp c data);
    mret (if String.eqb (Run_output resolved) OutputJSON then 0 else if DR_WithdrawalConfirmed result then 1 else 0)).

Definition delete_app (yes : bool) (name : string) (opts : cliOptions) : C Z :=
  _ ← guard (negb yes) ErrUsage;
  with_client opts (fun c _ => _ ← Client_DeleteApp c name; mret 0).

Definition preflight (path : string) (opts : cliOptions) : C Z :=
  '(data, _) ← on_disk (readDeployConfig path);
  with_client opts (fun c _ => _ ← Client_PreflightApp c data; mret 0).

Definition appsList (c : conn) : C Z := _ ← Client_ListApps c; mret 0.
Definition appsInspect (c : conn) (name : string) : C Z := _ ← Client_InspectApp c name; mret 0.
Definition appsRequestAction (c : conn) (action : request_action) (app id : string) : C Z :=
  _ ← (match action with
       | RequestLookup => Client_GetDeployRequest c app id
       | RequestAdvance => Client_AdvanceDeployRequest c app id
       | RequestRecover => Client_RecoverDeployRequest c app id
       end);
  mret 0.
Definition appsWithdraw (c : conn) (app id path : string) : C Z :=
  '(data, cfg) ← on_disk (readDeployConfig path);
  _ ← guard (negb (String.eqb (Cfg_Name cfg) app)) ErrUsage;
  _ ← Client_Withdraw decode c data id;
  mret 0.

Inductive apps_command := AppsList | AppsInspect (name : string) | AppsRequest (action : request_action) (app id : string) | AppsWithdraw (app id path : string).
Definition apps (command : apps_command) (opts : cliOptions) : C Z :=
  with_client opts (fun c _ =>
    match command with
    | AppsList => appsList c
    | AppsInspect name => appsInspect c name
    | AppsRequest action app id => appsRequestAction c action app id
    | AppsWithdraw app id path => appsWithdraw c app id path
    end).

(** [bufio.NewReader(a.stdin).ReadString], and the answers that confirm. *)
Definition confirmed (answer : string) : bool := EqualFold (TrimSpace answer) "y" || EqualFold (TrimSpace answer) "yes".
(** Without [--yes] the answer decides: [None] when there is none. *)
Definition confirming (yes : bool) (answer : option string) (m : C Z) : C Z :=
  if yes then m else match answer with
                     | None => mret 1
                     | Some text => if confirmed text then m else mret 0
                     end.

Inductive nodes_command :=
| NodesAdd (name location arch role : string) | NodesList | NodesInspect (ref : string) | NodesDrain (ref : string) | NodesUncordon (ref : string)
| NodesRemove (yes : bool) (ref : string) (answer : option string) | NodesPurge (yes : bool) (ref : string) (answer : option string) | NodesRename (ref new_name : string).

Definition node_labels_of (location arch role : string) : gmap string string :=
  let add key value (m : gmap string string) := if String.eqb value "" then m else <[key := value]> m in
  add "role" role (add "arch" arch (add "location" location ∅)).

Definition nodesAdd (c : conn) (name location arch role : string) : C Z :=
  _ ← Client_CreateJoinToken c name (node_labels_of location arch role); mret 0.
Definition nodesList (c : conn) : C Z := _ ← Client_ListNodes c; mret 0.
Definition nodesInspect (c : conn) (ref : string) : C Z := _ ← Client_GetNode c ref; mret 0.
Definition nodesDrain (c : conn) (ref : string) : C Z := _ ← Client_DrainNode c ref; mret 0.
Definition nodesUncordon (c : conn) (ref : string) : C Z := _ ← Client_UncordonNode c ref; mret 0.
Definition nodesRemove (c : conn) (yes : bool) (ref : string) (answer : option string) : C Z :=
  confirming yes answer (_ ← Client_RemoveNode c ref; mret 0).
Definition nodesPurge (c : conn) (yes : bool) (ref : string) (answer : option string) : C Z :=
  confirming yes answer (_ ← Client_PurgeNode c ref; mret 0).
Definition nodesRename (c : conn) (ref new_name : string) : C Z := _ ← Client_RenameNode c ref new_name; mret 0.

Definition nodes (command : nodes_command) (opts : cliOptions) : C Z :=
  with_client opts (fun c _ =>
    match command with
    | NodesAdd name location arch role => nodesAdd c name location arch role
    | NodesList => nodesList c
    | NodesInspect ref => nodesInspect c ref
    | NodesDrain ref => nodesDrain c ref
    | NodesUncordon ref => nodesUncordon c ref
    | NodesRemove yes ref answer => nodesRemove c yes ref answer
    | NodesPurge yes ref answer => nodesPurge c yes ref answer
    | NodesRename ref new_name => nodesRename c ref new_name
    end).

Definition secretsSet (c : conn) (app name : string) (value : result string) : C Z := v ← lift value; _ ← Client_SetSecret c app name v; mret 0.
Definition secretsList (c : conn) (app : string) : C Z := _ ← Client_ListSecrets c app; mret 0.
Definition secretsRemove (c : conn) (yes : bool) (app name : string) (answer : option string) : C Z :=
  confirming yes answer (_ ← Client_DeleteSecret c app name; mret 0).

Inductive secrets_command := SecretsSet (app name : string) (value : result string) | SecretsList (app : string) | SecretsRemove (yes : bool) (app name : string) (answer : option string).
Definition secrets (command : secrets_command) (opts : cliOptions) : C Z :=
  with_client opts (fun c _ =>
    match command with
    | SecretsSet app name value => secretsSet c app name value
    | SecretsList app => secretsList c app
    | SecretsRemove yes app name answer => secretsRemove c yes app name answer
    end).

Definition routesList (c : conn) : C Z := _ ← Client_ListRoutes c; mret 0.
Definition routesInspect (c : conn) (domain : string) : C Z := _ ← Client_InspectRoute c domain; mret 0.
Definition routes (domain : option string) (opts : cliOptions) : C Z :=
  with_client opts (fun c _ => match domain with None => routesList c | Some d => routesInspect c d end).
Definition appStatus (name : string) (opts : cliOptions) : C Z := with_client opts (fun c _ => _ ← Client_GetAppStatus c name; mret 0).
Definition server_status (opts : cliOptions) : C Z := with_client opts (fun c _ => _ ← Client_Status c; mret 0).

(** [now]: the clock; [interrupted]: a signal ends the watch. *)
Definition events (filter : ClientEventFilter) (since now : Z) (watch interrupted : bool) (opts : cliOptions) : C Z :=
  _ ← guard (since <? 0) ErrUsage;
  let filter := MkClientFilter (CF_App filter) (CF_Node filter) (CF_Type filter) (CF_Severity filter) (if 0 <? since then now - since else 0) (CF_Limit filter) in
  with_client opts (fun c _ =>
    if watch then
      watched ← attempt (Client_WatchEvents c filter);
      match watched with Ok _ => mret 0 | Err e => if interrupted then mret 0 else throw e end
    else _ ← Client_ListEvents c filter; mret 0).

Definition logs (app : string) (tail : Z) (follow interrupted : bool) (opts : cliOptions) : C Z :=
  _ ← guard (tail <? 0) ErrUsage;
  with_client opts (fun c _ =>
    streamed ← attempt (StreamLogs c app (wrap_i32 tail) follow);
    match streamed with Ok _ => mret 0 | Err e => if follow && interrupted then mret 0 else throw e end).

(** ** registry.go, environment.go *)

Definition maxRegistryCredentialFileSize : Z := 16 * 1024.
Definition maxEnvironmentValuesFileSize : Z := 256 * 1024.

(** Opening with [O_NOFOLLOW | O_NONBLOCK] for reading. *)
Definition open_nofollow (path : string) : OS node :=
  observe (fun m => match m !! Clean path with Some (NLink _) => Err ErrLoop | Some n => Ok n | None => Err ErrNotExist end).
Definition owner_mode (perm : Z) : bool := (perm =? 384) || (perm =? 256).
Definition file_text (n : node) : string := match n with NFile _ data => data | _ => "" end.
Definition at_most (limit : Z) (data : string) : string := if slen data <=? limit then data else s_take (Z.to_nat limit) data.

(** The two files of secrets are read the same way; the messages are those of the steps. *)
Definition read_private (cannot mode owner changed owner_changed unread : string) (limit : Z) (path : string) : OS string :=
  let path := Clean path in
  before ← map_err (fun _ => ErrSentinel cannot) (Lstat path);
  _ ← guard (match before with NFile perm _ => negb (owner_mode perm) | _ => true end) (ErrSentinel mode);
  _ ← guard (negb (owned path before)) (ErrSentinel owner);
  file ← map_err (fun _ => ErrSentinel cannot) (open_nofollow path);
  after ← map_err (fun _ => ErrSentinel changed) (observe (fun _ => Ok file));
  _ ← guard (negb (SameFile before after) || match after with NFile perm data => (limit <? slen data) || negb (owner_mode perm) | _ => true end)
        (ErrSentinel changed);
  _ ← guard (negb (owned path after)) (ErrSentinel owner_changed);
  data ← map_err (fun _ => ErrSentinel unread) (observe (fun _ => Ok (at_most (limit + 1) (file_text file))));
  _ ← guard (limit <? slen data) (ErrSentinel unread);
  mret data.

(** A decoder with [DisallowUnknownFields], and nothing after the value. *)
Definition registry_file_fields : list string := ["username"; "password"].
Definition dec_registryCredentialFile : decoder (string * string) := dec_struct (fun cur m =>
  if has_unknown registry_file_fields m then None
  else username ← dec_field registry_file_fields "username" dec_string cur.1 m;
       password ← dec_field registry_file_fields "password" dec_string cur.2 m;
       Some (username, password)).

Definition readRegistryCredentialFile (path : string) : OS (string * string) :=
  data ← read_private "cannot read credentials file" "credentials file must be a regular owner-only 0600 or 0400 file"
    "credentials file must be owned by the current user" "credentials file changed or is invalid" "credentials file ownership changed"
    "credentials file exceeds size limit or cannot be read" maxRegistryCredentialFileSize path;
  match j ← json_parse data; dec_registryCredentialFile ("", "") j with
  | None => throw (ErrSentinel "invalid credentials file")
  | Some (username, password) =>
      _ ← guard (String.eqb username "" || String.eqb password "") (ErrSentinel "credentials file must contain username and password");
      mret (username, password)
  end.

(** [decodeEnvironmentValues]: an object of strings without duplicate keys; [null] is the
    empty string. *)
Fixpoint environment_members (values : gmap string string) (m : list (string * json)) : option (gmap string string) :=
  match m with
  | [] => Some values
  | (key, j) :: rest =>
      if bool_decide (is_Some (values !! key)) then None
      else value ← dec_string "" j; environment_members (<[key := value]> values) rest
  end.
Definition decodeEnvironmentValues (data : string) : option (gmap string string) :=
  match json_parse data with Some (JObj m) => environment_members ∅ m | _ => None end.

Definition readEnvironmentValuesFile (path : string) : OS (gmap string string) :=
  data ← read_private "cannot read environment values file" "environment values file must be a regular owner-only 0600 or 0400 file"
    "environment values file must be owned by the current user" "environment values file changed or is invalid"
    "environment values file changed or is invalid" "invalid environment values file" maxEnvironmentValuesFileSize path;
  match decodeEnvironmentValues data with
  | None => throw (ErrSentinel "invalid environment values file")
  | Some values => _ ← guard (negb (validEnvironmentValues values)) (ErrSentinel "invalid environment values"); mret values
  end.

Definition registryCreate (c : conn) (path app revision registry : string) : C Z :=
  _ ← guard (blank path) ErrUsage;
  _ ← guard (negb (ValidAppName app) || negb (ValidRevision revision) || negb (String.eqb registry "docker.io" || String.eqb registry "ghcr.io")) ErrUsage;
  '(username, password) ← map_err (fun _ => ErrUsage) (on_disk (readRegistryCredentialFile path));
  _ ← guard (negb (is_ok (Credential_Validate (MkCredential app revision registry username password)))) ErrUsage;
  _ ← Client_CreateRegistryCredential c app revision registry username password;
  mret 0.
Definition registryList (c : conn) (app : string) : C Z :=
  _ ← guard (negb (ValidAppName app)) ErrUsage;
  _ ← Client_ListRegistryCredentials c app;
  mret 0.

Inductive registry_command := RegistryCreate (path app revision registry : string) | RegistryList (app : string).
Definition registry (command : registry_command) (opts : cliOptions) : C Z :=
  with_client opts (fun c _ =>
    match command with
    | RegistryCreate path app revision registry => registryCreate c path app revision registry
    | RegistryList app => registryList c app
    end).

Definition environmentCreate (path app revision : string) (opts : cliOptions) : C Z :=
  _ ← guard (blank path || negb (ValidAppName app) || negb (ValidRevision revision)) ErrUsage;
  values ← map_err (fun _ => ErrUsage) (on_disk (readEnvironmentValuesFile path));
  with_client opts (fun c _ => _ ← Client_CreateEnvironmentBundle c app revision values; mret 0).

(** ** root.go *)

Inductive client_command :=
| VersionCmd | Login (arg : string) (line : result string) | Contexts (command : contexts_command) | PreflightCmd (path : string)
| Deploy (path requestID : string) (dryRun reportWithdrawal : bool) | DeleteCmd (yes : bool) (name : string) | Apps (command : apps_command) | AppStatus (name : string)
| Logs (app : string) (tail : Z) (follow interrupted : bool) | ServerStatusCmd | Nodes (command : nodes_command) | RoutesCmd (domain : option string)
| Secrets (command : secrets_command) | Registry (command : registry_command) | EnvironmentCreate (path app revision : string)
| EventsCmd (filter : ClientEventFilter) (since now : Z) (watch interrupted : bool) | Doctor (hosting : bool) | Help | UnknownCmd (name : string).

(** The exit code; an error ends the command with status 1, one of usage with status 2. *)
Definition dispatch (command : client_command) (opts : cliOptions) : C Z :=
  match command with
  | VersionCmd | Help => mret 0
  | Login arg line => _ ← login arg line opts; mret 0
  | Contexts command => contexts command opts
  | PreflightCmd path => preflight path opts
  | Deploy path id dryRun report => deploy path id dryRun report opts
  | DeleteCmd yes name => delete_app yes name opts
  | Apps command => apps command opts
  | AppStatus name => appStatus name opts
  | Logs app tail follow interrupted => logs app tail follow interrupted opts
  | ServerStatusCmd => server_status opts
  | Nodes command => nodes command opts
  | RoutesCmd domain => routes domain opts
  | Secrets command => secrets command opts
  | Registry command => registry command opts
  | EnvironmentCreate path app revision => environmentCreate path app revision opts
  | EventsCmd filter since now watch interrupted => events filter since now watch interrupted opts
  | Doctor hosting => '(_, code) ← doctor hosting opts; mret code
  | UnknownCmd _ => throw ErrUsage
  end.
End client.

(** ** Calls of a command *)

Section verified.
Context `{AppEnv} `{UserEnv} `{ClientUrls} {E : Type} `{!ControlPlanes E} (error_text : error -> string) (decode : string -> result Config).
Notation C := (ST (desk E)).

Definition on_conn (c : conn) (call : api_call) : Prop := let 'ApiCall c' _ _ := call in c' = c.

(** A computation that only makes calls of one connection. *)
Definition speaks {A} (c : conn) (m : C A) : Prop := forall d r d', m d = (r, d') -> exists l, dk_calls d' = (dk_calls d ++ l)%list /\ Forall (on_conn c) l.

Lemma speaks_lift {A} c (r : result A) : speaks c (lift r).
Proof. intros d r' d' [= _ <-]. exists []. by rewrite app_nil_r. Qed.
Lemma speaks_bind {A B} c (m : C A) (k : A -> C B) : speaks c m -> (forall a, speaks c (k a)) -> speaks c (mbind k m).
Proof.
  intros Hm Hk d r d' [(e & Ed & ->)|(a & d1 & Ed & Eb)]%st_bind_inv; [by eapply Hm|].
  destruct (Hm _ _ _ Ed) as (l1 & E1 & F1), (Hk _ _ _ _ Eb) as (l2 & E2 & F2). exists (l1 ++ l2)%list. by rewrite E2, E1, app_assoc, Forall_app.
Qed.
Lemma speaks_map_err {A} c g (m : C A) : speaks c m -> speaks c (map_err g m).
Proof. intros Hm d r d'. unfold map_err. destruct (m d) as [[a|e] d1] eqn:Ed; intros [= _ <-]; by eapply Hm. Qed.
Lemma speaks_attempt {A} c (m : C A) : speaks c m -> speaks c (attempt m).
Proof. intros Hm d r d'. unfold attempt. destruct (m d) as [r1 d1] eqn:Ed. intros [= _ <-]. by eapply Hm. Qed.
Lemma speaks_disk {A} c (m : OS A) : speaks c (on_disk m).
Proof. intros d r d'. unfold on_disk. destruct (m _). intros [= _ <-]. exists []. by rewrite app_nil_r. Qed.
Lemma speaks_send c q : speaks c (send c q).
Proof. intros d r d'. unfold send. destruct (api_Invoke c q _) as [a e]. intros [= _ <-]. eexists. split; [done|]. by apply Forall_singleton. Qed.
Lemma speaks_api c q : speaks c (api c q).
Proof. apply speaks_bind; [apply speaks_send|intros; apply speaks_lift]. Qed.

Ltac speaking := repeat first
  [ apply speaks_bind; [|intros ?] | apply speaks_map_err | apply speaks_attempt | apply speaks_disk | match goal with |- speaks ?c (api ?c ?q) => exact (speaks_api c q) | |- speaks ?c (send ?c ?q) => exact (speaks_send c q) end | apply speaks_lift
  | case_match ].

Lemma speaks_deployApp c yaml report id : speaks c (deployApp c yaml report id).
Proof. unfold deployApp. speaking. Qed.
Lemma speaks_runDoctor c : speaks c (runDoctor error_text c).
Proof. unfold runDoctor, Client_Status, Client_ListNodes, Client_ListRoutes. speaking. Qed.
Lemma speaks_app_checks c routes apps : speaks c (app_checks error_text c routes apps).
Proof. induction apps as [|app apps IH]; [apply speaks_lift|]. cbn [app_checks]. unfold Client_GetAppStatus. speaking. apply IH. Qed.
Lemma speaks_hosting c report : speaks c (runHostingDoctor error_text c report).
Proof. unfold runHostingDoctor, Client_ListApps, Client_ListRoutes. speaking; apply speaks_app_checks. Qed.
Lemma speaks_confirming c yes answer (m : C Z) : speaks c m -> speaks c (confirming yes answer m).
Proof. intros Hm. unfold confirming. repeat case_match; done || apply speaks_lift. Qed.

(** ** The selected context *)

Lemma selected_trimmed opts cfg : TrimSpace (selectedContext opts cfg) = selectedContext opts cfg.
Proof. unfold selectedContext, or_text. repeat case_match; apply TrimSpace_idemp. Qed.

(** A context that is selected decides endpoint and identity. *)
Definition context_decides (opts : cliOptions) (h : host) (resolved : runtimeOptions) : Prop :=
  forall cfg h1, LoadConfig (Opt_configPath opts) h = (Ok cfg, h1) -> selectedContext opts cfg <> "" ->
  exists ctx, default ∅ (Cli_Contexts cfg) !! selectedContext opts cfg = Some ctx /\ Run_context resolved = selectedContext opts cfg /\
    Run_serverURL resolved = Ctx_ServerURL ctx /\ Run_expectedIdentity resolved = Ctx_ServerIdentity ctx.

Lemma resolved_context opts h resolved h' : resolveRuntimeOptions opts h = (Ok resolved, h') -> context_decides opts h resolved.
Proof.
  intros (loaded & h1 & El & Er)%st_bind_ok cfg h2 Ecfg Hs. unfold attempt in El. rewrite Ecfg in El. injection El as <- <-.
  apply st_bind_ok in Er as (cfg' & h3 & [= <- <-] & Er). apply st_bind_ok in Er as (base & h4 & Eb & Er).
  apply st_bind_ok in Er as ([] & h5 & [Hg ->]%guard_ok & Er). apply st_bind_ok in Er as ([] & h6 & _ & Er). apply st_bind_ok in Er as (u & h7 & _ & [= <- _]).
  unfold configured_options in Eb. rewrite (proj2 (String.eqb_neq _ _) Hs) in Eb, Hg. cbn [negb andb] in Hg. apply orb_false_iff in Hg as [_ Hu%negb_false_iff%String.eqb_eq].
  apply st_bind_ok in Eb as (ctx & h8 & [= Ec <-] & Eb). apply st_bind_ok in Eb as (token & h9 & _ & [= <- _]). unfold Config_Context in Ec. rewrite selected_trimmed in Ec.
  rewrite (proj2 (String.eqb_neq _ _) Hs) in Ec. destruct (_ !! selectedContext opts cfg) as [ctx'|] eqn:El; [|done]. injection Ec as ->.
  exists ctx. cbn [Run_context Run_serverURL Run_expectedIdentity]. by rewrite Hu.
Qed.

(** Calls on one connection, of which a bound context lets pass only the first until the
    server has answered with the expected identity. *)
Definition vouched (c : conn) (expected : string) (l : list api_call) : Prop :=
  Forall (on_conn c) l /\ (blank expected = false -> exists r rest, l = ApiCall c GetStatus r :: rest /\ (rest = [] \/ exists s, r = inl s /\ Status_ServerIdentity s = expected)).

Definition verified_run (opts : cliOptions) (h : host) (l : list api_call) : Prop :=
  l = [] \/ exists resolved h' c, resolveRuntimeOptions opts h = (Ok resolved, h') /\ context_decides opts h resolved /\
    NewPlatformClient (Run_serverURL resolved) (Run_token resolved) = Ok c /\ vouched c (Run_expectedIdentity resolved) l.

Lemma api_calls c q d r d' : api c q d = (r, d') ->
  exists reply, dk_calls d' = (dk_calls d ++ [ApiCall c q reply])%list /\ dk_host d' = dk_host d /\ r = decoded reply.
Proof.
  intros [(e & Es & _)|(reply & d1 & Es & [= <- <-])]%st_bind_inv; unfold send in Es; destruct (api_Invoke c q (dk_net d)) as [a e1]; [done|].
  injection Es as -> <-. by exists reply.
Qed.

Lemma verify_calls c expected d r d' : VerifyServerIdentity c expected d = (r, d') ->
  exists reply, dk_calls d' = (dk_calls d ++ [ApiCall c GetStatus reply])%list /\
    (r = Ok tt -> blank expected = false -> exists s, reply = inl s /\ Status_ServerIdentity s = expected).
Proof.
  intros [(e & Es & ->)|(s & d1 & Es & Ev)]%st_bind_inv; apply (api_calls c GetStatus) in Es as (reply & El & _ & Er); exists reply; [by split|].
  assert (d' = d1 /\ (r = Ok tt -> blank expected = false -> Status_ServerIdentity s = expected)) as [-> Hs].
  { destruct (blank expected); [by injection Ev as _ <-|]. apply st_bind_inv in Ev as [(e & [= _ <-] & ->)|([] & d2 & [_ ->]%guard_ok & Ev)]; [by split|].
    unfold guard, lift in Ev. injection Ev as <- <-. split; [done|]. unfold check. by destruct (String.eqb_spec (Status_ServerIdentity s) expected). }
  split; [done|]. intros Hr Hb. exists s. split; [|by apply Hs]. destruct reply as [s'|]; [|done]. by injection Er as ->.
Qed.

Lemma with_client_verified {A} opts (body : conn -> runtimeOptions -> C A) d r d' : (forall c resolved, speaks c (body c resolved)) ->
  with_client opts body d = (r, d') -> exists l, dk_calls d' = (dk_calls d ++ l)%list /\ verified_run opts (dk_host d) l.
Proof.
  intros Hb [(e & Ed & ->)|(resolved & d1 & Ed & Er)]%st_bind_inv; unfold on_disk in Ed; destruct (resolveRuntimeOptions opts (dk_host d)) as [rr h1] eqn:Eo;
    injection Ed as -> <-; [exists []; rewrite app_nil_r; by split; [|left]|].
  assert (Hrun : forall c l, NewPlatformClient (Run_serverURL resolved) (Run_token resolved) = Ok c -> vouched c (Run_expectedIdentity resolved) l -> verified_run opts (dk_host d) l)
    by (intros c l Hc Hv; right; exists resolved, h1, c; split; [done|]; split; [by eapply resolved_context|done]).
  unfold newVerifiedPlatformClient in Er. apply st_bind_inv in Er as [(e & Er & ->)|(c & d2 & Er & Ek)].
  - apply st_bind_inv in Er as [(e' & [= _ <-] & _)|(c & d2 & [= Hc <-] & Er)]; [exists []; rewrite app_nil_r; by split; [|left]|].
    apply st_bind_inv in Er as [(e' & Ev & _)|(u & d3 & _ & [=])]. destruct (String.eqb _ _); [done|].
    destruct (verify_calls _ _ _ _ _ Ev) as (reply & El & _). exists [ApiCall c GetStatus reply]. split; [done|]. apply (Hrun c); [done|]. split; [by apply Forall_singleton|].
    intros _. exists reply, []. by split; [|left].
  - apply st_bind_ok in Er as (c' & d3 & [= Hc <-] & Er). apply st_bind_ok in Er as ([] & d4 & Ev & [= <- <-]). destruct (Hb c' resolved _ _ _ Ek) as (l & El & Fl).
    destruct (String.eqb_spec (Run_expectedIdentity resolved) "") as [He|_].
    + injection Ev as <-. exists l. split; [done|]. apply (Hrun c'); [done|]. split; [done|]. by rewrite He.
    + destruct (verify_calls _ _ _ _ _ Ev) as (reply & El' & Hr). exists (ApiCall c' GetStatus reply :: l). rewrite El, El', <- app_assoc. split; [done|].
      apply (Hrun c'); [done|]. split; [by constructor|]. intros Hb'. exists reply, l. split; [done|]. right. by apply Hr.
Qed.

(** The host when the options are resolved: some commands read a file first. *)
Definition start_of (command : client_command) (h : host) : host :=
  match command with
  | Deploy path _ _ _ | PreflightCmd path => (readDeployConfig decode path h).2
  | EnvironmentCreate path _ _ => (readEnvironmentValuesFile path h).2
  | _ => h
  end.

(** A login asks the server it is given for its status, and no other. *)
Definition login_run (arg : string) (l : list api_call) : Prop :=
  l = [] \/ exists url token c reply, NormalizeServerURL arg = Ok url /\ NewPlatformClient url token = Ok c /\ l = [ApiCall c GetStatus reply].

Definition silent {A} (m : C A) : Prop := forall d r d', m d = (r, d') -> dk_calls d' = dk_calls d.

Lemma silent_lift {A} (x : result A) : silent (lift x).
Proof. by intros d r d' [= _ <-]. Qed.
Lemma silent_disk {A} (m : OS A) : silent (on_disk m).
Proof. intros d r d'. unfold on_disk. destruct (m _). by intros [= _ <-]. Qed.
Lemma silent_bind {A B} (m : C A) (k : A -> C B) : silent m -> (forall a, silent (k a)) -> silent (mbind k m).
Proof. intros Hm Hk d r d' [(e & Ed & ->)|(a & d1 & Ed & Eb)]%st_bind_inv; [by eapply Hm|]. by rewrite (Hk _ _ _ _ Eb), (Hm _ _ _ Ed). Qed.
Lemma silent_attempt {A} (m : C A) : silent m -> silent (attempt m).
Proof. intros Hm d r d'. unfold attempt. destruct (m d) as [r1 d1] eqn:Ed. intros [= _ <-]. by eapply Hm. Qed.
Lemma silent_map_err {A} g (m : C A) : silent m -> silent (map_err g m).
Proof. intros Hm d r d'. unfold map_err. destruct (m d) as [[a|e] d1] eqn:Ed; intros [= _ <-]; by eapply Hm. Qed.

Ltac silently := repeat first [ apply silent_bind; [|intros ?] | apply silent_attempt | apply silent_map_err | apply silent_disk | apply silent_lift | case_match ].

Lemma silent_none {A} (m : C A) d r d' : silent m -> m d = (r, d') -> exists l, dk_calls d' = (dk_calls d ++ l)%list /\ l = [].
Proof. intros Hm Ed. exists []. by rewrite app_nil_r, (Hm _ _ _ Ed). Qed.

Lemma login_calls arg line opts d r d' : login arg line opts d = (r, d') -> exists l, dk_calls d' = (dk_calls d ++ l)%list /\ login_run arg l.
Proof.
  assert (Hnone : forall d' : desk E, dk_calls d' = dk_calls d -> exists l, dk_calls d' = (dk_calls d ++ l)%list /\ login_run arg l)
    by (intros d1 ->; exists []; rewrite app_nil_r; by split; [|left]).
  intros Hl. unfold login in Hl. apply st_bind_inv in Hl as [(e & Ed & ->)|(url & d1 & Ed & Hl)]; [apply Hnone; by apply silent_map_err in Ed; [|apply silent_lift]|].
  apply mapped_ok in Ed. injection Ed as Hurl <-.
  apply st_bind_inv in Hl as [(e & Ed & ->)|(token & d1 & Ed & Hl)]; assert (Hs := Ed); apply (silent_none _ d) in Hs as (? & Hs & ->); try (by silently); rewrite app_nil_r in Hs; [by apply Hnone|].
  apply st_bind_inv in Hl as [(e & [= _ <-] & ->)|([] & d2 & [_ ->]%guard_ok & Hl)]; [by apply Hnone|].
  apply st_bind_inv in Hl as [(e & [= _ <-] & ->)|(c & d2 & [= Hc <-] & Hl)]; [by apply Hnone|].
  apply st_bind_inv in Hl as [(e & Es & ->)|(s & d2 & Es & Hl)]; apply (api_calls c GetStatus) in Es as (reply & Ec & _ & _); rewrite Hs in Ec.
  - exists [ApiCall c GetStatus reply]. split; [done|]. right. by exists url, token, c, reply.
  - exists [ApiCall c GetStatus reply]. split; [|right; by exists url, token, c, reply]. rewrite <- Ec. revert Hl. apply (fun H => H d2 r d'). silently.
Qed.

Lemma reading_first {X A} (m : OS X) opts (k : X -> C A) d r d' :
  (forall x d, forall r d', k x d = (r, d') -> exists l, dk_calls d' = (dk_calls d ++ l)%list /\ verified_run opts (dk_host d) l) ->
  mbind k (on_disk m) d = (r, d') -> exists l, dk_calls d' = (dk_calls d ++ l)%list /\ verified_run opts (m (dk_host d)).2 l.
Proof.
  intros Hk Ed. unfold mbind, st_bind, on_disk in Ed. destruct (m (dk_host d)) as [[x|e] h1]; [|injection Ed as _ <-; exists []; rewrite app_nil_r; by split; [|left]].
  by apply Hk in Ed.
Qed.

Lemma reading_mapped {X A} g (m : OS X) opts (k : X -> C A) d r d' :
  (forall x d, forall r d', k x d = (r, d') -> exists l, dk_calls d' = (dk_calls d ++ l)%list /\ verified_run opts (dk_host d) l) ->
  mbind k (map_err g (on_disk m)) d = (r, d') -> exists l, dk_calls d' = (dk_calls d ++ l)%list /\ verified_run opts (m (dk_host d)).2 l.
Proof.
  intros Hk Ed. unfold mbind, st_bind, map_err, on_disk in Ed. destruct (m (dk_host d)) as [[x|e] h1]; [|injection Ed as _ <-; exists []; rewrite app_nil_r; by split; [|left]].
  by apply Hk in Ed.
Qed.

Lemma no_calls {A} opts (r0 : result A) (d : desk E) r d' : lift r0 d = (r, d') -> exists l, dk_calls d' = (dk_calls d ++ l)%list /\ verified_run opts (dk_host d) l.
Proof. intros [= _ <-]. exists []. rewrite app_nil_r. by split; [|left]. Qed.

(** C30: a bound context only reaches its server.  Whatever the servers answer, whatever
    others do to the files and whichever calls fail, for every command of the client:
    a login makes at most one call, the status call, to the server it is given; every
    other command makes all its calls on one connection, to the endpoint that was
    resolved; when a context is selected, by flag, environment or configuration, endpoint
    and expected identity are those of the context; and when the expected identity is not
    blank, the first call asks for it and no other call is made unless the answer was
    that identity. *)
Theorem bound_context_verified command opts d r d' :
  dispatch error_text decode command opts d = (r, d') ->
  exists l, dk_calls d' = (dk_calls d ++ l)%list /\
    match command with Login arg _ => login_run arg l | _ => verified_run opts (start_of command (dk_host d)) l end.
Proof.
  assert (Hsilent : forall (m : C Z) h, silent m -> m d = (r, d') -> exists l, dk_calls d' = (dk_calls d ++ l)%list /\ verified_run opts h l)
    by (intros m h Hm Em; destruct (silent_none m d r d' Hm Em) as (l & El & ->); exists []; by split; [|left]).
  destruct command as [|arg line|cmd|path|path id dryRun report|yes name|cmd|name|app tail follow interrupted| |cmd|domain|cmd|cmd|path app revision|filter since now watch interrupted|hosting| |name];
    cbn [dispatch start_of].
  - apply (Hsilent (mret 0)), silent_lift.
  - intros [(e & Ed & ->)|([] & d1 & Ed & [= _ <-])]%st_bind_inv; by eapply login_calls.
  - apply Hsilent, silent_disk.
  - apply reading_first. intros [data cfg] d1 r1 d1'. apply with_client_verified. intros c resolved. unfold Client_PreflightApp. speaking.
  - apply reading_first. intros [data cfg] d1 r1 d1'. destruct dryRun; [apply (no_calls opts (Ok 0))|]. apply with_client_verified. intros c resolved.
    unfold DeployAppTracked, check_request_id, guard. (apply speaks_bind; [|intros; apply speaks_lift]). repeat case_match; speaking; apply speaks_deployApp.
  - unfold delete_app. destruct yes; cbn [negb]; [|apply (no_calls opts (Err ErrUsage))]. apply with_client_verified. intros c resolved. unfold Client_DeleteApp. speaking.
  - apply with_client_verified. intros c resolved. unfold Client_ListApps, Client_InspectApp, Client_Withdraw, check_request_id, guard. speaking.
  - apply with_client_verified. intros c resolved. unfold Client_GetAppStatus. speaking.
  - unfold logs. destruct (tail <? 0); [apply (no_calls opts (Err ErrUsage))|]. apply with_client_verified. intros c resolved. unfold StreamLogs. speaking.
  - apply with_client_verified. intros c resolved. unfold Client_Status. speaking.
  - apply with_client_verified. intros c resolved. unfold Client_CreateJoinToken, Client_ListNodes, Client_GetNode, Client_DrainNode, Client_UncordonNode, Client_RemoveNode, Client_PurgeNode, Client_RenameNode.
    destruct cmd; try (apply speaks_confirming); speaking.
  - apply with_client_verified. intros c resolved. unfold Client_ListRoutes, Client_InspectRoute. speaking.
  - apply with_client_verified. intros c resolved. unfold Client_SetSecret, Client_ListSecrets, Client_DeleteSecret. destruct cmd; try (apply speaks_confirming); speaking.
  - apply with_client_verified. intros c resolved. unfold registryCreate, registryList, Client_CreateRegistryCredential, Client_ListRegistryCredentials, guard. speaking.
  - unfold environmentCreate. destruct (blank path || negb (ValidAppName app) || negb (ValidRevision revision)); [apply (Hsilent (throw ErrUsage)), silent_lift|].
    apply (reading_mapped (fun _ => ErrUsage) (readEnvironmentValuesFile path)). intros values d1 r1 d1'. apply with_client_verified. intros c resolved.
    unfold Client_CreateEnvironmentBundle. speaking.
  - unfold events. destruct (since <? 0); [apply (no_calls opts (Err ErrUsage))|]. apply with_client_verified. intros c resolved. unfold Client_WatchEvents, Client_ListEvents. speaking.
  - intros [(e & Ed & _)|([report code] & d1 & Ed & [= _ <-])]%st_bind_inv; refine (with_client_verified _ _ _ _ _ _ Ed);
      intros c resolved; (apply speaks_bind; [apply speaks_runDoctor|]); intros report'; (apply speaks_bind; [|intros; apply speaks_lift]);
      destruct hosting; [apply speaks_hosting|apply speaks_lift|apply speaks_hosting|apply speaks_lift].
  - apply (Hsilent (mret 0)), silent_lift.
  - apply (Hsilent (throw ErrUsage)), silent_lift.
Qed.
End verified.

(** ** A saved configuration *)

Lemma dec_CliContext_enc c : dec_CliContext zero_context (enc_CliContext c) = Some c.
Proof.
  unfold dec_CliContext, enc_CliContext, context_fields, enc_str_field. cbn [dec_struct]. cbv zeta.
  next_field (Ctx_ServerURL c).
  next_field (Ctx_AdminToken c) using (by destruct (String.eqb_spec (Ctx_AdminToken c) "") as [->|]).
  next_field (Ctx_CredentialRef c) using (by destruct (String.eqb_spec (Ctx_CredentialRef c) "") as [->|]).
  next_field (Ctx_EnvironmentID c) using (by destruct (String.eqb_spec (Ctx_EnvironmentID c) "") as [->|]).
  next_field (Ctx_CustomerLabel c) using (by destruct (String.eqb_spec (Ctx_CustomerLabel c) "") as [->|]).
  next_field (Ctx_ServerIdentity c) using (by destruct (String.eqb_spec (Ctx_ServerIdentity c) "") as [->|]).
  by destruct c.
Qed.

Lemma dec_CliConfig_enc c : dec_CliConfig zero_cli (enc_CliConfig c) = Some c.
Proof.
  unfold dec_CliConfig, enc_CliConfig, cli_fields, enc_str_field. cbn [dec_struct]. cbv zeta.
  next_field (Cli_ServerURL c). next_field (Cli_AdminToken c). next_field (Cli_Output c).
  next_field (Cli_Contexts c) using (cbn [zero_cli Cli_Contexts]; destruct (Cli_Contexts c) as [m|]; [|done];
    rewrite dec_ptr_enc; [done|done|]; apply dec_map_enc; intros k v _; apply dec_CliContext_enc).
  next_field (Cli_CurrentContext c) using (by destruct (String.eqb_spec (Cli_CurrentContext c) "") as [->|]).
  by destruct c.
Qed.

(** A value of strings only, and objects nested at most [d] deep. *)
Lemma depth_obj d m : 0 <= d -> Forall (fun kv : string * json => json_depth kv.2 <= d) m -> json_depth (JObj m) <= 1 + d.
Proof. intros Hd Hm. cbn [json_depth]. assert (foldr Z.max 0 (List.map (fun kv : string * json => json_depth kv.2) m) <= d); [|lia]. apply foldr_max_le. split; [done|]. by apply Forall_map. Qed.

Lemma depth_field k s d : 0 <= d -> Forall (fun kv : string * json => json_depth kv.2 <= d) (enc_str_field k s).
Proof. intros Hd. unfold enc_str_field, omitempty. case_match; [done|]. by apply Forall_singleton. Qed.

Lemma depth_context c : json_depth (enc_CliContext c) <= 1.
Proof. apply (depth_obj 0); [done|]. repeat (apply Forall_app; split); try (by apply depth_field). by apply Forall_singleton. Qed.

Lemma depth_config c : json_depth (enc_CliConfig c) <= 3.
Proof.
  apply (depth_obj 2); [done|]. repeat (apply Forall_app; split); [|destruct (Cli_Contexts c) as [m|]; [|done]|by apply depth_field]; [by repeat constructor|].
  apply Forall_singleton. cbn [snd]. apply (depth_obj 1); [done|]. apply Forall_fmap, Forall_forall. intros [k v] _. apply depth_context.
Qed.

(** What is read from a file is valid text, and what is valid text is written so that it
    is read back. *)
Definition context_text (c : CliContext) : Prop :=
  utf8 (Ctx_ServerURL c) /\ utf8 (Ctx_AdminToken c) /\ utf8 (Ctx_CredentialRef c) /\ utf8 (Ctx_EnvironmentID c) /\ utf8 (Ctx_CustomerLabel c) /\ utf8 (Ctx_ServerIdentity c).
Definition cli_text (c : CliConfig) : Prop :=
  utf8 (Cli_ServerURL c) /\ utf8 (Cli_AdminToken c) /\ utf8 (Cli_Output c) /\ on_some (map_Forall (fun k v => utf8 k /\ context_text v)) (Cli_Contexts c) /\
  utf8 (Cli_CurrentContext c).

Lemma fills_context : fills context_text dec_CliContext.
Proof. unfold context_text. fill_struct. Qed.

Lemma fills_cli : fills cli_text dec_CliConfig.
Proof.
  assert (fills (on_some (map_Forall (fun k v => utf8 k /\ context_text v))) (dec_ptr ∅ (dec_map zero_context dec_CliContext))).
  { apply fills_optional; [apply map_Forall_empty|]. apply (fills_map context_text); [done|apply fills_context]. }
  unfold cli_text. fill_struct.
Qed.

Lemma cli_text_wf c : cli_text c -> wf_json (enc_CliConfig c).
Proof.
  intros (H1 & H2 & H3 & H4 & H5). assert (Hok : enc_ok 3 (enc_CliConfig c)); [|by destruct Hok].
  unfold enc_CliConfig, enc_str_field. enc_ok_solve. destruct (Cli_Contexts c) as [m|]; [|by apply Forall_nil_2]. apply Forall_singleton. split; [done|]. cbn [snd].
  apply enc_ok_map; [done|]. intros k v Hk. destruct (H4 k v Hk) as [Hu Hv]. split; [done|]. unfold context_text in Hv. unfold enc_CliContext, enc_str_field. enc_ok_solve.
Qed.

Section saved.
Context `{UserEnv}.

(** What the files say. *)
Definition load (path : string) (F : files) : result CliConfig := (LoadConfig path (Host F [] 0 [])).1.

Lemma cwp_load path F : cwp (LoadConfig path) F (fun r F' => r = load path F /\ F' = F).
Proof.
  unfold load, LoadConfig. apply cwp_bind, cwp_lift. destruct (resolveConfigPath path) as [p|e]; [|done].
  apply cwp_bind, cwp_map_err, cwp_observe. unfold mbind, st_bind, lift, map_err, ReadFile, observe, syscall, call. cbn [next_turn h_turns h_files t_others quiet_turn t_fault h_umask h_log].
  destruct (match HostFs.resolve F p with Some _ => _ | None => _ end) as [data|e]; [|done].
  destruct (json_parse data) as [j|]; [|by apply cwp_throw]. destruct (dec_CliConfig zero_cli j); [by apply cwp_ret|by apply cwp_throw].
Qed.

Lemma load_text path F cfg : load path F = Ok cfg -> cli_text cfg.
Proof.
  unfold load, LoadConfig. unfold mbind, st_bind, lift, map_err, ReadFile, observe, syscall, call. destruct (resolveConfigPath path) as [p|e]; [|done].
  cbn [next_turn h_turns h_files t_others quiet_turn t_fault h_umask h_log].
  destruct (match HostFs.resolve F p with Some _ => _ | None => _ end) as [data|e]; [|done].
  destruct (json_parse data) as [j|] eqn:Ej; [|done]. apply json_parse_utf8 in Ej. destruct (dec_CliConfig zero_cli j) as [c|] eqn:Ed; [|done]. intros [= <-].
  assert (Hc : cli_text c) by (eapply fills_cli; [|exact Ej|exact Ed]; done). destruct Hc as (? & ? & ? & ? & ?). unfold cli_text, with_output, or_text. cbn.
  split_and!; try done. by destruct (String.eqb _ _).
Qed.

Definition config_temp (p q : string) : Prop := exists rnd, q = Clean (temp_name (Dir p) ".config.json-" rnd).

(** What is saved is in the file. *)
Lemma cwp_save path cfg p F : resolveConfigPath path = Ok p -> ~ config_temp p (Clean p) ->
  cwp (SaveConfig path cfg) F (fun r F' => r = Ok tt -> F' !! Clean p = Some (NFile 384 (MarshalIndent (enc_CliConfig (with_output cfg)) +:+ line_feed))).
Proof.
  intros Hp Ht. unfold SaveConfig. rewrite Hp. apply cwp_bind, cwp_lift, cwp_bind, cwp_map_err, cwp_syscall. intros u t r m' _. destruct r as [[]|e]; [|done].
  apply cwp_replace. intros rnd Eq. apply Ht. by exists rnd.
Qed.

(** And is read back. *)
Lemma load_saved path cfg p F perm : resolveConfigPath path = Ok p -> wf_json (enc_CliConfig cfg) -> Cli_Output cfg <> "" ->
  F !! Clean p = Some (NFile perm (MarshalIndent (enc_CliConfig cfg) +:+ line_feed)) -> load path F = Ok cfg.
Proof.
  intros Hp Hw Ho HF. unfold load, LoadConfig. rewrite Hp. unfold mbind, st_bind, lift, map_err, ReadFile, observe, syscall, call.
  cbn [next_turn h_turns h_files t_others quiet_turn t_fault h_umask h_log]. rewrite (resolve_file _ _ _ _ HF), HF. unfold line_feed.
  rewrite json_parse_indent, dec_CliConfig_enc; [|done|pose proof (depth_config cfg); unfold maxNestingDepth; lia].
  unfold with_output, or_text. rewrite (proj2 (String.eqb_neq _ _) Ho). by destruct cfg.
Qed.
End saved.

(** ** Logging in to a context *)

Section binding.
Context `{AppEnv} `{UserEnv} `{ClientUrls} {E : Type} `{!ControlPlanes E}.
Notation C := (ST (desk E)).

Lemma on_disk_run {A} (m : OS A) (d d' : desk E) r : on_disk m d = (r, d') -> m (dk_host d) = (r, dk_host d') /\ dk_calls d' = dk_calls d.
Proof. unfold on_disk. destruct (m (dk_host d)) as [r1 h1]. by intros [= <- <-]. Qed.

Lemma cwp_login_output opts F : cwp (resolveLoginOutput opts) F (fun r F' => F' = F /\ (utf8 (Opt_output opts) -> forall output, r = Ok output -> utf8 output)).
Proof.
  assert (Hret : (Ok (Opt_output opts) : result string) = Ok (Opt_output opts)) by done.
  unfold resolveLoginOutput. destruct (Opt_outputSet opts); [apply cwp_ret; split; [done|]; by intros Hu output [= <-]|]. apply cwp_bind, cwp_attempt. eapply cwp_mono; [apply cwp_load|].
  intros r F' [-> ->]. destruct (load _ F) as [cfg|e] eqn:El; [apply cwp_ret; split; [done|]; intros _ output [= <-]; by apply load_text in El as (_ & _ & ? & _)|].
  case_match; [apply cwp_ret; split; [done|]; by intros Hu output [= <-]|by apply cwp_throw].
Qed.

(** A later command that names the context. *)
Definition follow_up (opts : cliOptions) : cliOptions :=
  MkCliOptions "" false "" false (Opt_configPath opts) (Opt_context opts) "" "" "" false OutputJSON true false.

Lemma cwp_follow_up opts saved ctx F : load (Opt_configPath opts) F = Ok saved -> TrimSpace (Opt_context opts) <> "" ->
  default ∅ (Cli_Contexts saved) !! TrimSpace (Opt_context opts) = Some ctx -> Ctx_ServerURL ctx <> "" -> Ctx_AdminToken ctx <> "" -> TrimSpace (Ctx_AdminToken ctx) = Ctx_AdminToken ctx ->
  cwp (resolveRuntimeOptions (follow_up opts)) F (fun r _ => r = Ok (MkRuntime (Ctx_ServerURL ctx) (Ctx_AdminToken ctx) OutputJSON
    (TrimSpace (Opt_context opts)) (Ctx_EnvironmentID ctx) (Ctx_CustomerLabel ctx) (Ctx_ServerIdentity ctx))).
Proof.
  intros Hl Hn Hc Hu Ht Htt. unfold resolveRuntimeOptions. apply cwp_bind, cwp_attempt. eapply cwp_mono; [apply cwp_load|]. intros r F' [-> ->].
  cbn [follow_up Opt_configPath]. rewrite Hl. apply cwp_bind, cwp_ret. unfold selectedContext. cbn [follow_up Opt_context Opt_serverURL Opt_serverSet Opt_token Opt_output Opt_outputSet].
  set (name := TrimSpace (Opt_context opts)) in *. assert (Esel : forall x, or_text name x = name) by (intros x; unfold or_text; by rewrite (proj2 (String.eqb_neq _ _) Hn)). rewrite Esel.
  assert (Ec : Config_Context saved name = Ok ctx)
    by (unfold Config_Context; rewrite (TrimSpace_idemp (Opt_context opts) : TrimSpace name = name), (proj2 (String.eqb_neq _ _) Hn); by rewrite Hc).
  apply cwp_bind. unfold configured_options. rewrite (proj2 (String.eqb_neq _ _) Hn), Ec. apply cwp_bind, cwp_lift, cwp_bind, cwp_map_err. unfold ResolveContextCredential. rewrite Htt, (proj2 (String.eqb_neq _ _) Ht). cbn [negb].
  apply cwp_ret, cwp_ret. cbn [andb negb orb String.eqb Run_serverURL Run_token Run_output]. apply cwp_bind, cwp_guard; [done|]. intros _.
  cbn [Run_serverURL Run_token Run_output Run_context Run_environmentID Run_customerLabel Run_expectedIdentity or_text String.eqb].
  apply cwp_bind, cwp_guard; [by intros [?%String.eqb_eq|?%String.eqb_eq]%orb_true_iff|]. intros _. by apply cwp_bind, cwp_lift, cwp_ret.
Qed.

(** The contexts before a login. *)
Definition known_contexts (path : string) (F : files) : gmap string CliContext :=
  match load path F with Ok cfg => default ∅ (Cli_Contexts cfg) | Err _ => ∅ end.

Lemma client_url url token (c : conn) : NewPlatformClient url token = Ok c -> url <> "".
Proof. by intros Hc ->. Qed.

(** The texts a login is given and told. *)
Definition given_text (opts : cliOptions) (url token identity : string) : Prop :=
  Forall utf8 [url; token; identity; Opt_context opts; Opt_environmentID opts; Opt_customerLabel opts; Opt_output opts].

(** The token of the flag, or else the one that was typed. *)
Definition given_token (opts : cliOptions) (line : result string) (token : string) : Prop :=
  if blank (Opt_token opts) then exists typed, line = Ok typed /\ token = TrimSpace typed else token = TrimSpace (Opt_token opts).

(** The entry a login makes, and what it leaves alone. *)
Lemma login_entry opts url token output identity cfg saved : TrimSpace (Opt_context opts) <> "" ->
  login_config opts url token output identity cfg = Ok saved ->
  let before := default ∅ (Cli_Contexts cfg) in let name := TrimSpace (Opt_context opts) in
  (Opt_rebindServerIdentity opts = false -> forall old, before !! name = Some old -> blank (Ctx_ServerIdentity old) = false -> identity = TrimSpace (Ctx_ServerIdentity old)) /\
  (forall other, other <> name -> default ∅ (Cli_Contexts saved) !! other = before !! other) /\
  (exists ctx, default ∅ (Cli_Contexts saved) !! name = Some ctx /\ Ctx_ServerURL ctx = url /\ Ctx_AdminToken ctx = token /\ Ctx_ServerIdentity ctx = identity) /\
  (cli_text cfg -> utf8 output -> given_text opts url token identity -> cli_text saved).
Proof.
  intros Hn. unfold login_config. rewrite (proj2 (String.eqb_neq _ _) Hn). cbv zeta. set (before := default ∅ (Cli_Contexts cfg)). set (name := TrimSpace (Opt_context opts)) in *.
  destruct (_ && _ && _) eqn:Eg; [done|]. intros [= <-]. cbn [Cli_Contexts default from_option id]. split; [|split; [|split]].
  - intros Hr old Ho Hb. rewrite Ho, Hr in Eg. cbn [default from_option id negb] in Eg. unfold blank in Hb. rewrite Hb in Eg. cbn [negb andb] in Eg.
    rewrite andb_true_r in Eg. apply negb_false_iff, String.eqb_eq in Eg. done.
  - intros other Ho. by apply lookup_insert_ne.
  - eexists. split; [apply lookup_insert_eq|]. done.
  - intros (T1 & T2 & T3 & T4 & T5) Ho Hg. unfold given_text in Hg. rewrite !Forall_cons in Hg. destruct Hg as (Gu & Gt & Gi & Gn & Ge & Gl & _).
    assert (Hb : map_Forall (fun k v => utf8 k /\ context_text v) before) by (unfold before; destruct (Cli_Contexts cfg); [exact T4|apply map_Forall_empty]).
    assert (He : context_text (default zero_context (before !! name))) by (destruct (before !! name) as [old|] eqn:Eo; [by apply (Hb name)|done]).
    destruct He as (E1 & E2 & E3 & E4 & E5 & E6). pose proof (utf8_trim _ Gn : utf8 name) as Hname. unfold cli_text. cbn. split_and!; try done.
    apply map_Forall_insert_2; [|done]. split; [done|]. unfold context_text, or_text. cbn -[TrimSpace String.eqb]. split_and!; try done; by repeat case_match; try apply utf8_trim.
Qed.

Lemma typed_token opts line (d d' : desk E) token :
  (if negb (blank (Opt_token opts)) then mret (TrimSpace (Opt_token opts))
   else typed ← map_err (ErrWrap "read admin token: %v" []) (lift line); mret (TrimSpace typed)) d = (Ok token, d') ->
  d' = d /\ TrimSpace token = token /\ given_token opts line token.
Proof.
  unfold given_token. destruct (blank (Opt_token opts)); cbn [negb]; [|intros [= <- <-]; split; [done|split; [apply TrimSpace_idemp|done]]].
  intros (typed & d1 & [= -> <-]%mapped_ok & [= <- <-])%st_bind_ok. split; [done|]. split; [apply TrimSpace_idemp|by exists typed].
Qed.

(** C31: a login binds its context and nothing else.  On an undisturbed host, where no
    other process changes a file between the steps of the login and no system call fails,
    with a configuration file that is not named like its own temporary files: a login to
    a named context that succeeds made one call, to the server of the given URL with the
    token of the flag or the one that was typed; that server reported the identity the
    user asked for, and, unless a rebinding was requested, the identity the context was
    bound to before.  The configuration file is then one complete file of mode 0600 in
    which every other context is as it was; and, if the texts given on the command line
    and the reported identity are valid UTF-8, a later command that names the context
    resolves, whatever other context is current, to this URL, this token and the identity
    the server reported. *)
Theorem login_binds arg line opts (d d' : desk E) :
  login arg line opts d = (Ok tt, d') -> Forall calm (h_turns (dk_host d)) -> TrimSpace (Opt_context opts) <> "" ->
  (forall p, resolveConfigPath (Opt_configPath opts) = Ok p -> ~ config_temp p (Clean p)) ->
  let before := known_contexts (Opt_configPath opts) (h_files (dk_host d)) in let name := TrimSpace (Opt_context opts) in
  exists url token c s saved p, NormalizeServerURL arg = Ok url /\ given_token opts line token /\ NewPlatformClient url token = Ok c /\
    dk_calls d' = (dk_calls d ++ [ApiCall c GetStatus (inl s)])%list /\
    (blank (Opt_serverIdentity opts) = false -> Status_ServerIdentity s = TrimSpace (Opt_serverIdentity opts)) /\
    (Opt_rebindServerIdentity opts = false -> forall old, before !! name = Some old -> blank (Ctx_ServerIdentity old) = false ->
       Status_ServerIdentity s = TrimSpace (Ctx_ServerIdentity old)) /\
    resolveConfigPath (Opt_configPath opts) = Ok p /\
    h_files (dk_host d') !! Clean p = Some (NFile 384 (MarshalIndent (enc_CliConfig saved) +:+ line_feed)) /\
    (forall other, other <> name -> default ∅ (Cli_Contexts saved) !! other = before !! other) /\
    (given_text opts url token (Status_ServerIdentity s) -> exists resolved h', resolveRuntimeOptions (follow_up opts) (dk_host d') = (Ok resolved, h') /\
       Run_context resolved = name /\ Run_serverURL resolved = url /\ Run_token resolved = token /\ Run_expectedIdentity resolved = Status_ServerIdentity s).
Proof.
  intros Hl HT Hn Htemp. cbv zeta.
  apply st_bind_ok in Hl as (url & d1 & [= Hurl <-]%mapped_ok & Hl). apply st_bind_ok in Hl as (token & d1 & (-> & Htt & Hgiven)%typed_token & Hl).
  apply st_bind_ok in Hl as ([] & d1 & [Ht%String.eqb_neq ->]%guard_ok & Hl). apply st_bind_ok in Hl as (c & d1 & [= Hc <-] & Hl).
  apply st_bind_ok in Hl as (s & d1 & (reply & Ecalls & Ehost & Er)%(api_calls c GetStatus) & Hl). destruct reply as [s'|]; [|done]. injection Er as <-.
  apply st_bind_ok in Hl as ([] & d2 & [Hg ->]%guard_ok & Hl). apply st_bind_ok in Hl as (output & d2 & [Eo C2]%on_disk_run & Hl). rewrite Ehost in Eo.
  destruct (cwp_run _ _ _ _ _ (cwp_login_output _ _) HT Eo) as [HT2 [F2 Hout]]. apply st_bind_ok in Hl as (loaded & d3 & El & Hl).
  unfold attempt in El. destruct (on_disk _ d2) as [lr d3'] eqn:El'. injection El as <- <-. apply on_disk_run in El' as [El C3].
  destruct (cwp_run _ _ _ _ _ (cwp_load _ _) HT2 El) as [HT3 [-> F3]]. rewrite F2 in F3.
  apply st_bind_ok in Hl as (cfg & d4 & Ecfg & Hl). assert (d4 = d3' /\ default ∅ (Cli_Contexts cfg) = known_contexts (Opt_configPath opts) (h_files (dk_host d)) /\ cli_text cfg) as (-> & Hk & Htext).
  { revert Ecfg. unfold known_contexts. rewrite <- F2. destruct (load _ _) as [cfg0|e] eqn:El0; [intros [= <- <-]; split; [done|]; split; [done|by eapply load_text]|].
    destruct (errors_Is e ErrConfigNotFound); [by intros [= <- <-]|done]. }
  apply st_bind_ok in Hl as (updated & d4 & [= Hup <-] & [Es C4]%on_disk_run). destruct (login_entry _ _ _ _ _ _ _ Hn Hup) as (Hre & Hoth & (ctx & Hctx & <- & <- & Hid) & Hsaved_text).
  rewrite Hk in Hre, Hoth. destruct (resolveConfigPath (Opt_configPath opts)) as [p|e] eqn:Hp; [|unfold SaveConfig in Es; by rewrite Hp in Es].
  destruct (cwp_run _ _ _ _ _ (cwp_save _ updated p _ Hp (Htemp p eq_refl)) HT3 Es) as [HT4 Hsaved]. specialize (Hsaved eq_refl).
  exists (Ctx_ServerURL ctx), (Ctx_AdminToken ctx), c, s, (with_output updated), p. repeat (split; [first [done|congruence|idtac]|]).
  - intros Hb. rewrite Hb in Hg. cbn [negb andb] in Hg. by apply negb_false_iff, String.eqb_eq in Hg.
  - intros Hg'. assert (Hw : wf_json (enc_CliConfig (with_output updated))).
    { assert (Hu : cli_text updated) by (apply Hsaved_text; [done| |done]; apply Hout; [|done]; unfold given_text in Hg'; rewrite !Forall_cons in Hg'; tauto).
      apply cli_text_wf. destruct Hu as (? & ? & ? & ? & ?). unfold cli_text, with_output, or_text. cbn -[String.eqb]. split_and!; try done. by destruct (String.eqb (Cli_Output updated) ""). }
    assert (Hload : load (Opt_configPath opts) (h_files (dk_host d')) = Ok (with_output updated)).
    { eapply load_saved; [exact Hp|exact Hw| |exact Hsaved]. unfold with_output, or_text. cbn [Cli_Output]. by destruct (String.eqb_spec (Cli_Output updated) ""). }
    pose proof (cwp_follow_up opts _ ctx _ Hload Hn Hctx (client_url _ _ _ Hc) Ht Htt) as Hf.
    destruct (resolveRuntimeOptions (follow_up opts) (dk_host d')) as [r h'] eqn:Ef. destruct (cwp_run _ _ _ _ _ Hf HT4 Ef) as [_ ->]. by do 2 eexists.
Qed.
End binding.

(** ** The doctor's verdict *)

Section verdict.
Context `{AppEnv} `{UserEnv} `{ClientUrls} {E : Type} `{!ControlPlanes E} (error_text : error -> string).

Definition status_reply (call : api_call) : option ServerStatus :=
  match call with ApiCall _ GetStatus (inl s) => Some s | _ => None end.

Lemma attempt_never {A} (m : ST (desk E) A) d e d' : attempt m d <> (Err e, d').
Proof. unfold attempt. by destruct (m d). Qed.

Lemma attempt_api {A} c q (k : answer q -> ST (desk E) A) d r d' : attempt (mbind k (api c q)) d = (r, d') ->
  exists reply r1 d1, dk_calls d1 = (dk_calls d ++ [ApiCall c q reply])%list /\ r = Ok r1 /\
    match reply with inl a => k a d1 = (r1, d') | inr e => d' = d1 /\ r1 = Err (ErrSentinel (DecodeRPCError e)) end.
Proof.
  unfold attempt. destruct (mbind k (api c q) d) as [r1 d2] eqn:Em. intros [= <- <-].
  apply st_bind_inv in Em as [(e & Ea & ->)|(a & d1 & Ea & Ek)]; destruct (api_calls c q _ _ _ Ea) as (reply & Ec & _ & Er); exists reply.
  - exists (Err e), d2. split; [done|]. split; [done|]. destruct reply as [a|x]; [done|]. by injection Er as ->.
  - exists r1, d1. split; [done|]. split; [done|]. destruct reply as [a'|x]; [|done]. by injection Er as ->.
Qed.

Lemma node_checks_pass nodes : existsb is_failure (nodeDoctorChecks nodes) = false.
Proof. unfold nodeDoctorChecks. destruct nodes; [done|]. cbv zeta. repeat case_match; done. Qed.
Lemma ingress_check_pass routes : is_failure (ingressDoctorCheck routes) = false.
Proof. unfold ingressDoctorCheck. destruct routes; [done|]. cbv zeta. by case_match. Qed.

(** The doctor fails exactly when the server does not answer, is not ready, or does not
    list its nodes; and the hosting review never ends without an unresolved check. *)
Theorem doctor_exact c d r d' : runDoctor error_text c d = (r, d') ->
  (exists report l, r = Ok report /\ dk_calls d' = (dk_calls d ++ l)%list /\
     (hasFailures report = false <-> exists s ns rest, l = ApiCall c GetStatus (inl s) :: ApiCall c ListNodesCall (inl ns) :: rest /\ Status_Ready s = true)) /\
  forall report report' d1 d2, runHostingDoctor error_text c report d1 = (Ok report', d2) -> hostingReportHasUnresolved report' = true.
Proof.
  intros Hd. split.
  - unfold runDoctor, Client_ListNodes, Client_ListRoutes in Hd. apply st_bind_inv in Hd as [(e & He & _)|(status & d1 & Hs & Hd)]; [by apply attempt_never in He|].
    unfold attempt in Hs. destruct (Client_Status c d) as [rs d1'] eqn:Es. injection Hs as <- <-. apply (api_calls c GetStatus) in Es as (reply & C1 & _ & ->).
    destruct reply as [s|e]; [|injection Hd as <- <-; do 2 eexists; split; [done|]; split; [exact C1|]; split; [done|]; by intros (? & ? & ? & [=] & _)].
    cbn [decoded] in Hd. apply st_bind_inv in Hd as [(e & He & _)|(nodes & d2 & Hn & Hd)]; [by apply attempt_never in He|].
    apply (attempt_api c ListNodesCall) in Hn as (reply & r1 & d2' & C2 & [= <-] & Hn). rewrite C1, <- app_assoc in C2. destruct reply as [ns|e].
    2:{ destruct Hn as [-> ->]. injection Hd as <- <-. do 2 eexists. split; [done|]. split; [exact C2|]. split; [|by intros (? & ? & ? & [=] & _)].
        unfold hasFailures. cbn. by rewrite orb_true_r. }
    injection Hn as <- <-. apply st_bind_inv in Hd as [(e & He & _)|(rs & d3 & Hr & [= <- <-])]; [by apply attempt_never in He|].
    apply (attempt_api c ListRoutesCall) in Hr as (reply & r2 & d3' & C3 & [= <-] & Hr). rewrite C2, <- app_assoc in C3.
    assert (Hc3 : dk_calls d3 = dk_calls d3') by (destruct reply; [by injection Hr as _ <-|by destruct Hr as [-> _]]). rewrite <- Hc3 in C3.
    do 2 eexists. split; [done|]. split; [exact C3|]. unfold hasFailures. cbn [existsb]. rewrite existsb_app, node_checks_pass. cbn [existsb].
    assert (is_failure match rs with Ok rs => ingressDoctorCheck rs | Err e => MkCheck "ingress" doctorWarn (error_text e)
      "deploy an app with routing or check ingress controller and cert-manager configuration" end = false) as -> by (destruct rs; [apply ingress_check_pass|done]).
    destruct (Status_Ready s) eqn:Hready; cbn; [split; [|done]; intros _; by do 3 eexists|]. split; [done|]. intros (s' & ns' & rest & Hl & Hs').
    apply (f_equal (fun l => head l ≫= status_reply)) in Hl. cbn in Hl. injection Hl as <-. congruence.
  - intros report report' d1 d2 (apps & d3 & _ & Hr)%st_bind_ok. apply st_bind_ok in Hr as (checks & d4 & _ & [= <- _]).
    unfold hostingReportHasUnresolved. rewrite !existsb_app. by rewrite !orb_true_r.
Qed.
End verdict.

(** ** Runs *)

#[local] Existing Instance forward_env.
#[local] Instance demo_user : UserEnv := {| getenv := fun _ => ""; UserConfigDir := Ok "/home/admin/.config"; owned := fun _ _ => true; SameFile := fun _ _ => true |}.
#[local] Instance demo_urls : ClientUrls := {|
  parse_url := fun raw => match Cut raw "://" with (scheme, host, true) => Ok (MkUrl scheme host "" "" "" "") | _ => Err (ErrSentinel "url") end;
  url_Hostname := url_Host; url_String := fun u => url_Scheme u +:+ "://" +:+ url_Host u +:+ url_Path u |}.

Definition withdrawn_reply : DeployAppResponse := MkDeployAppResponse None None true "{}".
Definition demo_answer (c : conn) (q : api_request) : answer q + rpc_error :=
  match q return answer q + rpc_error with
  | GetStatus => inl (MkServerStatus "v1" "abc" "today" true ("id of " +:+ cn_target c))
  | DeployAppCall _ => inl withdrawn_reply
  | _ => inr (RpcFailure "down")
  end.
#[local] Instance demo_planes : ControlPlanes unit := {| grpc_NewClient := fun _ => Ok tt; api_Invoke := fun c q e => (demo_answer c q, e) |}.

Definition prod_context (identity : string) : CliContext := MkCliContext "https://hub" "admin_token" "inline" "" "" identity.
Definition bound_config (identity : string) : CliConfig := MkCliConfig "" "" "human" (Some {["prod" := prod_context identity]}) "prod".
Definition bound_desk (identity : string) : desk unit :=
  MkDesk (Host {["/data" := NDir; "/data/config.json" := NFile 384 (MarshalIndent (enc_CliConfig (bound_config identity)) +:+ line_feed);
                 "/data/deployer.yaml" := NFile 420 "name: web"]} [quiet_turn; quiet_turn; Turn (fun m => m) [7] [] None 0] 18 []) tt [].
Definition prod_options : cliOptions := MkCliOptions "" false "admin_token" true "/data/config.json" "prod" "" "" "" false "json" true false.

(** A context bound to another server: one call, and then none. *)
Lemma bound_context_verified_witness : exists l, (dispatch (fun _ => "") (fun _ => Err (ErrSentinel "yaml")) (Nodes (NodesDrain "edge")) prod_options (bound_desk "id of another")).2.(dk_calls) = l /\
  List.length l = 1%nat /\ verified_run prod_options (dk_host (bound_desk "id of another")) l.
Proof.
  destruct (dispatch (fun _ => "") (fun _ => Err (ErrSentinel "yaml")) (Nodes (NodesDrain "edge")) prod_options (bound_desk "id of another")) as [r d'] eqn:Ed.
  destruct (bound_context_verified (fun _ => "") (fun _ => Err (ErrSentinel "yaml")) (Nodes (NodesDrain "edge")) prod_options (bound_desk "id of another") r d' Ed) as (l & El & Hv).
  exists l. split; [exact El|]. split; [|exact Hv]. transitivity (List.length (dk_calls d')); [by rewrite El|]. change d' with (r, d').2. rewrite <- Ed. vm_compute. reflexivity.
Defined.

Lemma config_no_temp p : resolveConfigPath "/data/config.json" = Ok p -> ~ config_temp p (Clean p).
Proof.
  intros [= <-] [n Eq]. change (temp_name (Dir "/data/config.json") ".config.json-" n) with ("/data/" +:+ (".config.json-" +:+ Itoa n)) in Eq.
  rewrite (Clean_data (".config.json-" +:+ Itoa n)) in Eq; [discriminate| |done..]. cbn. apply Itoa_no_slash.
Qed.

Lemma bound_desk_calm identity : Forall calm (h_turns (dk_host (bound_desk identity))).
Proof. cbn [bound_desk dk_host h_turns]. constructor; [done|]. constructor; [done|]. constructor; [|constructor]. by split. Qed.

(** A login to the server the context is bound to. *)
Lemma login_binds_witness : exists d' url token c s saved p,
  login "https://hub" (Err (ErrSentinel "no terminal")) prod_options (bound_desk "id of hub") = (Ok tt, d') /\ NormalizeServerURL "https://hub" = Ok url /\ NewPlatformClient url token = Ok c /\
  Status_ServerIdentity s = TrimSpace (Ctx_ServerIdentity (prod_context "id of hub")) /\
  h_files (dk_host d') !! Clean p = Some (NFile 384 (MarshalIndent (enc_CliConfig saved) +:+ line_feed)).
Proof.
  destruct (login "https://hub" (Err (ErrSentinel "no terminal")) prod_options (bound_desk "id of hub")) as [r d'] eqn:El.
  assert (Er : r = Ok tt) by (change r with (r, d').1; rewrite <- El; vm_compute; reflexivity). subst r.
  destruct (login_binds "https://hub" (Err (ErrSentinel "no terminal")) prod_options (bound_desk "id of hub") d' El) as (url & token & c & s & saved & p & Hu & _ & Hc & _ & _ & Hold & _ & Hf & _).
  - exact (bound_desk_calm _).
  - discriminate.
  - exact config_no_temp.
  - exists d', url, token, c, s, saved, p. split; [reflexivity|]. split; [exact Hu|]. split; [exact Hc|]. split; [|exact Hf]. apply Hold; [reflexivity| |reflexivity]. vm_compute. reflexivity.
Defined.

(** A confirmed withdrawal ends the command with status 1, but with status 0 when the
    output is JSON. *)
Example withdrawal_exit_codes :
  let run output := (deploy (fun _ => Ok (sample_config "web" "nginx:1" "web.example.com")) "/data/deployer.yaml" "" false true
    (MkCliOptions "" false "" false "/data/config.json" "prod" "" "" "" false output true false) (bound_desk "id of hub")).1 in
  run "human" = Ok 1 /\ run "json" = Ok 0.
Proof. split; vm_compute; reflexivity. Qed.
